(* ===== verification/_CoqProject ===== *)
-Q . S2P
Prelude.v
PyStr.v
PyVal.v
UserIds.v
CircuitBreaker.v
Scheduler.v
SchedulerWaits.v
RetryPolicy.v
ConditionCodes.v
ExecutionUnits.v
Syscalls.v
MemoryAddress.v
ResourceManager.v
EffectLedger.v
Dispatcher.v
StateMerge.v
FlowGraph.v
FlowRunner.v
Leadership.v
ResultPath.v
AgentPlan.v
StepReferences.v
Cancellation.v
Capabilities.v
ExecEnv.v
Egress.v
TokenMeter.v
LlmCalls.v
WorkerPool.v
EventBus.v
Recovery.v
AgentChain.v
Coordinator.v
AgentGuards.v
NextAction.v
AgentRuns.v
Tools.v
JobQueue.v
RedisQueue.v
MemoryQueue.v
Worker.v
Sandbox.v
PluginHost.v
ExtensionWorker.v
MemoryStore.v
Auth.v
ExtensionTrust.v
Webhooks.v
Extensions.v
