(* ===== verification/Prelude.v ===== *)
(** * Verification of the A.I.N.D.Y. runtime

    The runtime (src/AINDY) executes flows and agents for several tenants: a
    kernel mediates every effect through syscalls, admits work against quotas,
    and queues and wakes execution; a flow engine drives runs through their
    graphs and parks them on waits; a memory address space names what tenants
    store. This library models the parts that carry that logic as executable
    definitions and proves what makes them correct. Python code is embedded
    shallowly: state is passed explicitly, exceptions are [result] values or
    constructors of an answer type, Redis, the database and the event bus are
    fields of the state, and code outside the repository (or application code:
    node bodies, handlers, compensators, predicates) is a parameter.

    ** How the parts interact

    An agent run is created from a plan under the limits of its trace, approved by its
    owner or the owner's trust settings, and handed to the segment chain, or delegated
    to a registered agent with a token no wider than its own. The plan is validated for
    the results its steps refer to, granted a signed capability token that every tool
    call is checked against, split at its waits and compiled to a workflow; the chain
    runs it segment by segment in guest workers of a warm pool, parks it at its waits,
    and verifies its results. A finished run may start one follow-up.

    A syscall enters the dispatcher, which asks the resource manager for quota,
    the payload-identity rule for the caller, the effect ledger for the slot of
    its action, and runs a handler. The flow runner takes a tenant slot from the
    resource manager, runs a node, merges its patch, records history, and either
    advances, retries by the retry policy, fails, completes, or parks on a wait
    it registers with the scheduler. An event or a timer wakes the wait: the
    scheduler queues the resume, and its dispatch loop hands items out against
    the resource manager's admission. Several processes share waits through
    Redis and the ledger through its table, and tell one another of events over
    the event bus. A call of a language model reserves its estimate against the
    budgets, passes the circuit breaker and is metered. Work that does not run in the
    process that asked for it goes over the distributed queue: the dispatcher enqueues a
    message that names a job row or a run, a worker takes it, claims the row, runs
    the handler and settles row and message. Background loops run in the process
    that holds the leadership lease; one of them recovers runs whose process died. A
    running effect asks the cancellation cache whether its run has ended. A tool call
    passes the token, the policies and rates of its capabilities, the ledger, the
    isolation class and the cancellation check, and then runs in the process
    under the socket guard or in a worker confined by its environment spec.

    Plugin code runs outside the process. The deployment profile decides whether it is
    admitted and which sandbox runner its host is started with; the host supervises the
    worker, restarts it with backoff and quarantines it, and authenticates each command
    by a channel; in the worker, plugin code reaches the runtime through a bridge that
    checks its capabilities, and the machine through guards on imports, files and sockets.
    A plugin comes in as a signed bundle whose digest, capabilities and signature are
    checked against the trust of its tenant; its nodes and flows are registered, live in
    rows and are loaded again at start-up, as are the webhooks events are delivered to.

    Callers are users with a session or API keys with scopes: registration, login and
    links issue signed tokens, a version in the user's row ends them, and gates ask for a
    scope or an operator before a route acts.

    What flows and agents remember goes through memory syscalls to the store, which scopes
    every query to its tenant and, where memory is private to runs, to the run; the undo of
    a run asks the store to take back what the run wrote.

    ** Files

    - Prelude.v: results, ordered dictionaries, tactics and the hint database.
    - PyStr.v, PyVal.v: the Python strings and values the sources use.
    - CircuitBreaker.v: kernel/circuit_breaker.py. [breaker_refines_spec]: any
      sequence of calls behaves as an abstract breaker; [cancelled_probe_wedges]:
      a cancelled probe leaves the breaker refusing for ever.
    - Scheduler.v: kernel/scheduler/common.py, core.py, dispatch.py; ready queues,
      round robin, the schedule loop, against the interface of the resource
      manager and the dispatcher. Termination, conservation of items, service
      within a tenant's position, and the starvation of lower priorities.
    - SchedulerWaits.v: kernel/scheduler/waits.py, cross_instance.py,
      persistence.py, recovery.py, kernel/redis_wait_registry.py and
      resume_spec.py; waits, events, timers, take-over between processes. Which
      waits a notification wakes, run-scoped wakes, at most one take-over
      (the owner of a wait may still resume it once), replay of buffered events, the invariant of all public calls.
    - RetryPolicy.v: core/retry_policy.py; policies, delays, failure classes.
    - ConditionCodes.v: kernel/condition_codes.py; the two status vocabularies.
    - ExecutionUnits.v: core/execution_unit_service.py, core/wait_condition.py; the
      unit every run leaves and its status machine. [unit_lifecycle]: no unit is
      lost or leaves an end, which units a resume and a run's end move.
    - Syscalls.v: kernel/syscall_versioning.py, syscall_outcome.py,
      payload_identity.py; names, schemas, outcome claims, identity.
    - MemoryAddress.v: memory/memory_address_space.py and the path rules of
      kernel/tenant_context.py; normalisation, ownership, parsing, trees. Tenant
      isolation, write paths, round trip, completeness of the tree.
    - ResourceManager.v: kernel/resource_manager.py; slots, usage, quotas, token
      reservation, rate window. Slot accounting, the admission race, reservation
      under interleaving, quota decisions.
    - EffectLedger.v: kernel/effect_ledger.py, db/models/effect_record.py,
      core/effect_compensation.py; claims, completions, reconciliation, undo. The
      ledger refines an abstract slot for both guarantees, races for a slot, undo is
      re-entrant.
    - Dispatcher.v: kernel/syscall_dispatcher.py and the registry of
      syscall_registry.py; the whole pipeline of a dispatch. No handler without
      authority, at-most-once calls never degrade, repeated calls replay.
    - StateMerge.v: runtime/flow_engine/state_merge.py; merging branch patches.
    - FlowGraph.v: fan_out.py, registry.py, node_executor.py and
      graph_signature.py of the flow engine; edges, joins, signature.
    - FlowRunner.v: runner.py, runner_steps.py, runner_completion.py,
      runner_failure.py, event_router.py with core/flow_history_fold.py,
      core/pending_request.py and the resume callback of
      core/flow_run_rehydration.py; one run from start to its end. Slots are
      returned, history records the run, acyclic flows terminate, typed waits,
      the quarantine of a claimed run.

    - Leadership.v: platform_layer/leadership.py; the lease row and the elector of
      each process. [one_live_leader]: however processes interleave, at most one
      holds a lease that has not expired; what the fence check proves and what not.
    - ResultPath.v: core/result_path.py, core/verifier.py; dot paths into step
      results and the post-conditions of a run.
    - AgentPlan.v: runtime/agent_plan_compiler.py. Splitting a plan keeps its steps
      and their numbers; the compiled source contains none of the plan's data.
    - StepReferences.v: agents/step_references.py. A validated reference resolves
      once its step has a result; a schema refuses only paths that cannot resolve.
    - Cancellation.v: kernel/cancellation.py; the cache of run statuses, and how
      long an ended run may go unnoticed.
    - Capabilities.v: agents/capability_service.py, agents/authority_negotiation.py
      and the key ring of services/auth_service.py. No tool runs without a live
      signed token of its run that grants it; a minted token validates and grants
      no more than the plan, the policy and the ceiling allow.
    - ExecEnv.v: core/execution_environment.py, platform_layer/fs_guard.py; the
      environment a guest or a worker declares, clamped to the operator's floor,
      what the guest runtime and the worker process are given, and the audit hook.
    - Egress.v: agents/capability_policy.py, platform_layer/egress_guard.py; the
      targets and rates of a capability and the guard on sockets.
    - TokenMeter.v, LlmCalls.v: platform_layer/token_meter.py, llm_budget.py and
      llm_client.py; whom the tokens of a model call are charged to, and the call
      through budget, breaker and meter. [budget_nets_to_actual]: whatever a call does,
      while its stores stay up or down, what stays reserved is what it used.
    - WorkerPool.v: runtime/nodus_worker_pool.py and the serve loop of
      nodus_worker.py; framing, the pool under interleaving callers and deaths. A
      worker serves one caller at a time and every caller reads its own answer.
    - EventBus.v: kernel/event_bus.py over the scheduler's waits; several instances
      and the channel between them. An event is delivered at most once per instance,
      and wakes a wait registered on a subscribed one.
    - Recovery.v: agents/stuck_run_service.py, dead_letter_service.py,
      core/flow_continuation.py; the scan for stranded runs, continuation after a
      crash, and manual recovery with its answers.
    - AgentChain.v: the segment chain of runtime/nodus_execution_service.py with its
      rehydration and continuation, over AgentPlan.v and ResultPath.v. A completed run
      did its plan; with one process the chain follows the plan.
    - Coordinator.v: agents/agent_coordinator.py, agent_message_bus.py; the registry
      of agents, their ranking, the ceiling of a delegate, and messages.
    - AgentGuards.v: agents/runtime_guardrails.py and the checks of planning.py; limits
      on runs, the walks over lineages and what becomes of a generated plan.
    - NextAction.v: core/next_action.py; the decision after a run.
    - AgentRuns.v: agents/agent_runtime with delegation and follow-ups, cut at its
      commits. No execution without approval, no delegation that escalates, lineages
      within their limits.
    - Tools.v: agents/tool_registry.py, agents/tool_worker.py; registration and
      the execution of a tool through every gate. No effect without clearance, no
      second effect for a settled action among gated calls.
    - JobQueue.v, RedisQueue.v, MemoryQueue.v: core/distributed_queue.py; the
      message, the class [QueueBackend] of operations with its laws
      [QueueLaws], and its two backends as instances. Capacity, no accepted job
      is lost while calls are answered, and both backends answer as one bounded queue.
    - Worker.v: worker/worker_loop.py with the job rows of
      platform_layer/async_job_service.py, core/execution_dispatcher.py and the
      sweeps; proved against [QueueLaws] only. A worker settles what it takes
      unless it is told to stop, a job runs no more often than its attempts, a claimed job is left alone, a job
      lost before its claim is run after recovery.
    - Sandbox.v: platform_layer/sandbox_runner.py, deployment_contract.py,
      sandbox_certification.py; runners, images, attestations, and what a deployment
      profile demands of them.
    - PluginHost.v: platform_layer/plugin_host.py; the supervision of a plugin's worker
      process, its channel, backoff and quarantine.
    - ExtensionWorker.v: platform_layer/extension_worker.py, extension_runtime_api.py;
      the worker itself, for arbitrary plugin programs. The bridge acts only for its
      channel, the guards confine the plugin, a channel is accepted once.
    - MemoryStore.v: db/dao/memory_node_dao.py, the scopes of
      memory/memory_persistence.py and the memory handlers of
      kernel/syscall_registry.py. Tenants see and change only their own rows (a write
      may link its row to another tenant's), a write that is in scope is undone exactly, a recall answers the best candidates, walks visit once.
    - UserIds.v: platform_layer/user_ids.py; the spellings of a UUID.
    - Auth.v: services/auth_service.py, auth/api_key_auth.py,
      platform_layer/api_key_service.py, the routes of accounts and keys, and the ways a
      deployment makes its first operators (startup.py, runtime_only.py). Accepted sessions
      are genuine and end, authority comes from operators or from the deployment itself,
      registration is followed by a login and discloses nothing.
    - ExtensionTrust.v: platform_layer/extension_policy.py, extension_capabilities.py,
      extension_signing.py, extension_provenance.py and plugin_artifacts.py; what is
      asked of a bundle before it is admitted, under each deployment profile.
    - Webhooks.v: platform_layer/event_service.py and the webhook rows of
      platform_loader.py. A subscription survives a restart, a delivery is attempted up
      to its limit and stops at the first success.
    - Extensions.v: platform_layer/node_registry.py, flow_registry.py,
      extension_boundary.py and platform_loader.py, over PluginHost.v, ExtensionTrust.v
      and Webhooks.v. Every dynamic node rests on a registration checked in
      its own surroundings, which flows are accepted, and
      what of the registrations is found again after a restart.

    ** What the properties assume

    The comment before each property names all that it assumes, and where an assumption is
    needed, the example that shows what happens without it. What recurs: tables are well
    formed and new rows get new keys; unforgeable signatures; a backend that is up for the
    length of one call, where the property is about what it stores. Where a step of the
    source is not atomic (admission and start, claim and completion, check and act), the
    property says whether it is taken as one step.

    ** Bounds and fuel

    Integers are unbounded [Z], as Python's are; times are integers of the unit
    the source uses and rates are rationals. These functions recurse on fuel. The
    schedule loop: [schedule_terminates] shows that for every environment and
    state some fuel suffices, and more of it changes nothing ([schedule_fuel]).
    The walk of the memory tree: its fuel is the number of keys plus one, and
    every level visits a new key, so more fuel changes nothing
    ([build_flatten_complete]). The flow runner: [acyclic_flow_terminates] bounds
    the iterations of a resume of an acyclic flow by its rank and retry ceiling
    (a cyclic flow may run for ever, and then no fuel is enough). The scan of an
    argument for addresses and URLs takes the length of the text as fuel, and
    every match or skip consumes a character. Reading a frame from a pipe takes the
    number of bytes as fuel, each read consuming one; the search for a budget refusal
    in a chain of causes stops at the depth of the source. The walks over the lineage of
    a run take the number of rows plus two, and visit no row twice ([parent_chain_total],
    [replay_guard_total], [completing_depth_total] hold for every table). The walk over
    memory links takes its depth plus two ([visit_fuel]: more changes nothing). Every other
    function is total by structural recursion.

    ** Not modelled

    HTTP routes but for accounts and keys, the user interface, the database schema and
    its sessions, start-up (but for the first operators) and background timers, the application registry and its
    manifests, the bill of materials and the key generation of plugins, the Nodus language runtime, the prompts and backends of planners, the making of
    embeddings, metrics, logs and tracing: they are I/O, glue, or third-party code around the modelled
    parts. Of the modelled files, what is left out (Redis connection handling and
    key expiry, observability, response formatting) is
    said in the header of each file.

    ** Next

    The autonomous window and the admission of deferred jobs, the composition of the
    scheduler, the flow runner and the resource manager through an instance of the
    dispatch interface, and the execution pipeline of the routes. *)

From stdpp Require Export base tactics list strings gmap sorting.
From Stdlib Require Export ZArith Lia Bool.
From Stdlib Require Import QArith.

#[global] Open Scope Z_scope.

(** ** Results of fallible Python code

    A Python function that may raise returns [result E A]: [Ok a] for a
    normal return, [Err e] for an exception [e]. *)

Inductive result (E A : Type) : Type :=
| Ok (a : A)
| Err (e : E).
Arguments Ok {E A} a.
Arguments Err {E A} e.

Definition result_bind {E A B} (m : result E A) (k : A -> result E B) : result E B :=
  match m with Ok a => k a | Err e => Err e end.

Definition is_Ok {E A} (m : result E A) : bool :=
  match m with Ok _ => true | Err _ => false end.

#[export] Instance result_eq_dec {E A} `{EqDecision E, EqDecision A} : EqDecision (result E A).
Proof. solve_decision. Defined.

Declare Scope py_scope.
Delimit Scope py_scope with py.
Notation "'let?' x ':=' m 'in' k" := (result_bind m (fun x => k))
  (at level 10, x pattern, m at level 100, k at level 200) : py_scope.

(** ** Python dictionaries

    A Python dict keeps insertion order: assigning to a present key keeps the
    key's position, assigning to an absent one appends it, and deleting then
    assigning moves it to the end. The runtime iterates over such dicts, so
    the order is observable and dicts are association lists here, with
    [dict_wf] (no key twice) as their invariant. *)

Section Dict.
Context {K V : Type} `{EqDecision K}.

Fixpoint dict_get (k : K) (d : list (K * V)) : option V :=
  match d with
  | [] => None
  | (k', v) :: d' => if decide (k = k') then Some v else dict_get k d'
  end.

Fixpoint dict_set (k : K) (v : V) (d : list (K * V)) : list (K * V) :=
  match d with
  | [] => [(k, v)]
  | (k', v') :: d' =>
      if decide (k = k') then (k', v) :: d' else (k', v') :: dict_set k v d'
  end.

Fixpoint dict_del (k : K) (d : list (K * V)) : list (K * V) :=
  match d with
  | [] => []
  | (k', v') :: d' =>
      if decide (k = k') then d' else (k', v') :: dict_del k d'
  end.

Definition dict_keys (d : list (K * V)) : list K := map fst d.

Definition dict_mem (k : K) (d : list (K * V)) : bool :=
  match dict_get k d with Some _ => true | None => false end.

(** [dict.update]: the entries of [p] are assigned in their order. *)
Definition dict_update (d p : list (K * V)) : list (K * V) :=
  fold_left (fun acc kv => dict_set kv.1 kv.2 acc) p d.

Definition dict_wf (d : list (K * V)) : Prop := NoDup (dict_keys d).

Lemma dict_get_set_eq k v d : dict_get k (dict_set k v d) = Some v.
Proof.
  induction d as [|[k' v'] d IH]; simpl; [by rewrite decide_True|].
  case_decide; simpl; by case_decide.
Qed.

Lemma dict_get_set_ne k k' v d : k <> k' -> dict_get k' (dict_set k v d) = dict_get k' d.
Proof.
  intros Hne. induction d as [|[k0 v0] d IH]; simpl.
  - by case_decide.
  - repeat (case_decide; simpl); congruence.
Qed.

Lemma dict_get_elem k v d : dict_get k d = Some v -> (k, v) ∈ d.
Proof.
  induction d as [|[k' v'] d IH]; simpl; [done|].
  case_decide; intros; simplify_eq; [by left|right; auto].
Qed.

Lemma dict_elem_get k v d : dict_wf d -> (k, v) ∈ d -> dict_get k d = Some v.
Proof.
  unfold dict_wf. induction d as [|[k' v'] d IH]; simpl; intros Hnd Hin.
  - by apply not_elem_of_nil in Hin.
  - apply NoDup_cons in Hnd as [Hk Hnd].
    apply elem_of_cons in Hin as [[=]|Hin]; [subst; by rewrite decide_True|].
    rewrite decide_False; [by apply IH|]. intros ->. apply Hk.
    apply list_elem_of_fmap. by exists (k', v).
Qed.

Lemma dict_get_None k d : dict_get k d = None <-> k ∉ dict_keys d.
Proof.
  induction d as [|[k' v'] d IH]; simpl.
  - split; [intros _; apply not_elem_of_nil|done].
  - rewrite not_elem_of_cons, <- IH. case_decide; [subst; split; [done|by intros []]|tauto].
Qed.

Lemma dict_get_is_Some k d : is_Some (dict_get k d) <-> k ∈ dict_keys d.
Proof.
  destruct (dict_get k d) eqn:E.
  - split; [intros _|by eexists]. apply dict_get_elem in E.
    apply list_elem_of_fmap. by exists (k, v).
  - split; [by intros [? ?]|]. intros Hin. by apply dict_get_None in E.
Qed.

Lemma dict_get_del_ne k k' d : k <> k' -> dict_get k' (dict_del k d) = dict_get k' d.
Proof.
  intros Hne. induction d as [|[k0 v0] d IH]; simpl; [done|].
  case_decide; simpl; subst; [by rewrite decide_False|].
  case_decide; [done|apply IH].
Qed.

Lemma dict_keys_del_sublist k d : dict_keys (dict_del k d) `sublist_of` dict_keys d.
Proof.
  induction d as [|[k0 v0] d IH]; simpl; [done|].
  case_decide; simpl; [by apply sublist_cons|by apply sublist_skip].
Qed.

Lemma dict_del_wf k d : dict_wf d -> dict_wf (dict_del k d).
Proof. intros H. eapply sublist_NoDup; [exact H|apply dict_keys_del_sublist]. Qed.

Lemma dict_get_del_eq k d : dict_wf d -> dict_get k (dict_del k d) = None.
Proof.
  unfold dict_wf. induction d as [|[k0 v0] d IH]; simpl; intros Hnd; [done|].
  apply NoDup_cons in Hnd as [Hk Hnd]. case_decide; simpl.
  - subst. by apply dict_get_None.
  - rewrite decide_False; auto.
Qed.

Lemma dict_keys_set k v d :
  dict_keys (dict_set k v d) = if dict_mem k d then dict_keys d else dict_keys d ++ [k].
Proof.
  unfold dict_mem. induction d as [|[k0 v0] d IH]; simpl; [done|].
  case_decide; simpl; [done|]. rewrite IH. by destruct (dict_get k d).
Qed.

Lemma dict_mem_false k d : dict_mem k d = false <-> k ∉ dict_keys d.
Proof. unfold dict_mem. rewrite <- dict_get_None. by destruct (dict_get k d). Qed.

Lemma dict_mem_true k d : dict_mem k d = true <-> k ∈ dict_keys d.
Proof.
  rewrite <- dict_get_is_Some. unfold dict_mem. destruct (dict_get k d); split; try done.
Qed.

Lemma dict_set_wf k v d : dict_wf d -> dict_wf (dict_set k v d).
Proof.
  unfold dict_wf. rewrite dict_keys_set. intros H.
  destruct (dict_mem k d) eqn:E; [done|]. apply dict_mem_false in E.
  apply NoDup_app; repeat split; [done| |by apply NoDup_singleton].
  intros x Hx Hx'. apply list_elem_of_singleton in Hx'. by subst.
Qed.

Lemma dict_update_wf d p : dict_wf d -> dict_wf (dict_update d p).
Proof.
  revert d. induction p as [|[k v] p IH]; intros d H; [done|].
  simpl. apply IH. by apply dict_set_wf.
Qed.

Lemma dict_update_app d p q : dict_update d (p ++ q) = dict_update (dict_update d p) q.
Proof. unfold dict_update. by rewrite fold_left_app. Qed.

Lemma dict_get_update_notin d p k : k ∉ dict_keys p -> dict_get k (dict_update d p) = dict_get k d.
Proof.
  revert d. induction p as [|[k' v'] p IH]; intros d Hk; [done|].
  simpl in *. apply not_elem_of_cons in Hk as [Hne Hk].
  rewrite IH by done. by apply dict_get_set_ne.
Qed.

Lemma dict_get_update d p k :
  dict_wf p ->
  dict_get k (dict_update d p)
  = match dict_get k p with Some v => Some v | None => dict_get k d end.
Proof.
  unfold dict_wf. revert d. induction p as [|[k' v'] p IH]; intros d Hnd; [done|].
  simpl in *. apply NoDup_cons in Hnd as [Hk Hnd]. rewrite IH by done.
  case_decide; subst.
  - apply dict_get_None in Hk. rewrite Hk. apply dict_get_set_eq.
  - destruct (dict_get k p); [done|]. by apply dict_get_set_ne.
Qed.

(** Deleting, one by one, the entries a predicate selects leaves exactly the
    others, in their order. *)
Definition dict_del_all (d : list (K * V)) (ks : list K) : list (K * V) :=
  fold_left (fun acc k => dict_del k acc) ks d.

Lemma dict_del_all_cons_ne k v d ks :
  k ∉ ks -> dict_del_all ((k, v) :: d) ks = (k, v) :: dict_del_all d ks.
Proof.
  revert d. induction ks as [|k' ks IH]; intros d Hk; [done|].
  apply not_elem_of_cons in Hk as [Hne Hk]. simpl.
  rewrite decide_False by congruence. apply IH, Hk.
Qed.

Lemma dict_del_all_filter (P : K * V -> Prop) `{!forall x, Decision (P x)} d :
  dict_wf d ->
  dict_del_all d (map fst (filter P d)) = filter (fun x => ~ P x) d.
Proof.
  unfold dict_wf. induction d as [|[k v] d IH]; intros Hnd; [done|].
  simpl in Hnd. apply NoDup_cons in Hnd as [Hk Hnd].
  rewrite !filter_cons. destruct (decide (P (k, v))) as [HP|HP].
  - rewrite (decide_False (P := ~ P (k, v))) by tauto. simpl. rewrite decide_True by done. by apply IH.
  - rewrite (decide_True (P := ~ P (k, v))) by done. rewrite dict_del_all_cons_ne; [by rewrite IH|].
    intros Hin. apply Hk. apply list_elem_of_fmap in Hin as ([k' v'] & -> & Hin).
    apply list_elem_of_filter in Hin as [_ Hin]. apply list_elem_of_fmap. by exists (k', v').
Qed.

Lemma dict_del_all_filter_out (P : K * V -> Prop) `{!forall x, Decision (P x)} d ks :
  (forall x, x.1 ∈ ks -> ~ P x) -> filter P (dict_del_all d ks) = filter P d.
Proof.
  intros Hks. revert d. induction ks as [|k ks IH]; intros d; [done|]. simpl.
  rewrite IH by (intros x Hx; apply Hks; by right).
  assert (Hk : forall x : K * V, x.1 = k -> ~ P x) by (intros x <-; apply Hks; left).
  clear - Hk. induction d as [|[k' v] d IH]; [done|]. simpl. case_decide as E.
  - subst. rewrite filter_cons, decide_False; [done|]. by apply Hk.
  - rewrite !filter_cons, IH. done.
Qed.

Lemma dict_keys_del_all_sublist d ks : dict_keys (dict_del_all d ks) `sublist_of` dict_keys d.
Proof.
  revert d. induction ks as [|k ks IH]; intros d; [done|]. simpl.
  etrans; [apply IH|apply dict_keys_del_sublist].
Qed.

Lemma dict_filter_wf (P : K * V -> Prop) `{!forall x, Decision (P x)} d :
  dict_wf d -> dict_wf (filter P d).
Proof.
  unfold dict_wf. intros Hwf. eapply sublist_NoDup; [exact Hwf|].
  unfold dict_keys. apply (fmap_sublist fst). apply sublist_filter.
Qed.

(** Selecting by one key of a dict. *)
Lemma dict_filter_key (P : K * V -> Prop) `{!forall x, Decision (P x)} d k v :
  dict_wf d -> dict_get k d = Some v -> (forall x, P x -> x.1 = k) -> P (k, v) ->
  filter P d = [(k, v)].
Proof.
  unfold dict_wf. intros Hwf Hg Hk HP. induction d as [|[k' v'] d IH]; [done|].
  simpl in Hwf, Hg. apply NoDup_cons in Hwf as [Hnk Hwf]. rewrite filter_cons.
  case_decide as Hkk; simplify_eq.
  - rewrite decide_True by done. f_equal.
    destruct (filter P d) as [|x l] eqn:E; [done|]. exfalso. apply Hnk.
    assert (Hx : x ∈ filter P d) by (rewrite E; by left).
    apply list_elem_of_filter in Hx as [HPx Hx]. rewrite <- (Hk x HPx).
    apply list_elem_of_fmap. by exists x.
  - rewrite decide_False; [by apply IH|]. intros HP'. apply Hk in HP'. simpl in HP'. congruence.
Qed.

Lemma dict_get_del_all_ne d ks k : k ∉ ks -> dict_get k (dict_del_all d ks) = dict_get k d.
Proof.
  revert d. induction ks as [|k' ks IH]; intros d Hk; [done|].
  apply not_elem_of_cons in Hk as [Hne Hk]. simpl.
  rewrite IH by done. by apply dict_get_del_ne.
Qed.

Lemma dict_del_all_wf d ks : dict_wf d -> dict_wf (dict_del_all d ks).
Proof.
  revert d. induction ks as [|k ks IH]; intros d H; [done|]. simpl. apply IH. by apply dict_del_wf.
Qed.

Lemma dict_elem_del k d x : x ∈ dict_del k d -> x ∈ d.
Proof.
  induction d as [|[k' v] d IH]; [done|]. simpl. destruct (decide _); intros H; [by right|].
  apply elem_of_cons in H as [->|H]; [by left|right; by apply IH].
Qed.

Lemma dict_elem_set k v d x : x ∈ dict_set k v d -> x = (k, v) \/ x ∈ d.
Proof.
  induction d as [|[k' v'] d IH]; simpl; [intros H%list_elem_of_singleton; by left|].
  destruct (decide _) as [->|]; intros H; apply elem_of_cons in H as [->|H];
    [by left|right; by right|right; by left|]. destruct (IH H); [by left|right; by right].
Qed.

Lemma dict_get_del_all_in d ks k : dict_wf d -> k ∈ ks -> dict_get k (dict_del_all d ks) = None.
Proof.
  revert d. induction ks as [|k' ks IH]; intros d Hwf Hk; [by apply not_elem_of_nil in Hk|].
  simpl. destruct (decide (k ∈ ks)) as [Hin|Hin].
  - apply IH; [by apply dict_del_wf|done].
  - apply elem_of_cons in Hk as [->|Hk]; [|done].
    pose proof (dict_get_del_all_ne (dict_del k' d) ks k' Hin) as E.
    simpl in E. rewrite E. by apply dict_get_del_eq.
Qed.
End Dict.

(** ** Lists *)

Lemma list_filter_all {A} (P : A -> Prop) `{!forall x, Decision (P x)} (l : list A) :
  (forall x, x ∈ l -> P x) -> base.filter P l = l.
Proof.
  induction l as [|x l IH]; intros Hall; [done|].
  rewrite filter_cons, decide_True by (apply Hall; by left). f_equal. apply IH.
  intros y Hy. apply Hall. by right.
Qed.

Lemma list_filter_none {A} (P : A -> Prop) `{!forall x, Decision (P x)} (l : list A) :
  (forall x, x ∈ l -> ~ P x) -> base.filter P l = [].
Proof.
  induction l as [|x l IH]; intros Hall; [done|].
  rewrite filter_cons, decide_False by (apply Hall; left). apply IH. intros y Hy. apply Hall. by right.
Qed.

Lemma flat_map_nil {A B} (f : A -> list B) l : flat_map f l = [] <-> forall x, x ∈ l -> f x = [].
Proof.
  induction l as [|x l IH]; simpl; [split; [intros _ x Hx; by apply not_elem_of_nil in Hx|done]|].
  rewrite app_nil, IH. split.
  - intros [Hx Hl] y Hy. apply elem_of_cons in Hy as [->|Hy]; auto.
  - intros H. split; [apply H; by left|]. intros y Hy. apply H. by right.
Qed.

(** ** Automation

    [py] holds the rewriting facts on dictionaries; [dict_simp] normalises
    lookups; [case_bool] splits on the boolean conditions of the code. *)

Create HintDb py.
#[export] Hint Resolve dict_set_wf dict_del_wf dict_update_wf : py.
#[export] Hint Rewrite @dict_get_set_eq : py.

Ltac case_bool :=
  match goal with
  | |- context [if ?b then _ else _] => let E := fresh "Hif" in destruct b eqn:E
  | H : context [if ?b then _ else _] |- _ => let E := fresh "Hif" in destruct b eqn:E
  end.

Ltac boolprop :=
  repeat match goal with
  | H : (_ && _) = true |- _ => apply andb_true_iff in H as [? ?]
  | H : (_ || _) = false |- _ => apply orb_false_iff in H as [? ?]
  | H : negb _ = true |- _ => apply negb_true_iff in H
  | H : negb _ = false |- _ => apply negb_false_iff in H
  | H : bool_decide _ = true |- _ => apply bool_decide_eq_true in H
  | H : bool_decide _ = false |- _ => apply bool_decide_eq_false in H
  | H : (_ <? _) = true |- _ => apply Z.ltb_lt in H
  | H : (_ <? _) = false |- _ => apply Z.ltb_ge in H
  | H : (_ <=? _) = true |- _ => apply Z.leb_le in H
  | H : (_ <=? _) = false |- _ => apply Z.leb_gt in H
  | H : (_ =? _) = true |- _ => apply Z.eqb_eq in H
  | H : (_ =? _) = false |- _ => apply Z.eqb_neq in H
  end.

Lemma NoDup_map_inj {A B} (f : A -> B) l x y : NoDup (map f l) -> x ∈ l -> y ∈ l -> f x = f y -> x = y.
Proof.
  induction l as [|z l IH]; simpl; intros Hnd Hx Hy E; [by apply not_elem_of_nil in Hx|].
  apply NoDup_cons in Hnd as [Hz Hnd].
  apply elem_of_cons in Hx as [->|Hx], Hy as [->|Hy]; [done| | |by apply IH].
  - destruct Hz. rewrite E. apply list_elem_of_fmap. by exists y.
  - destruct Hz. rewrite <- E. apply list_elem_of_fmap. by exists x.
Qed.
