(* ===== verification/PyStr.v ===== *)
(** * Python string operations

    Python strings are Rocq [string]s here; case folding and whitespace are
    those of ASCII, which is what the runtime applies them to (status and
    type names, paths, error text). *)

From S2P Require Import Prelude.
From Stdlib Require Import Ascii.

Local Open Scope string_scope.

Definition lower_ascii (c : ascii) : ascii :=
  let n := nat_of_ascii c in
  if (Nat.leb 65 n && Nat.leb n 90)%bool then ascii_of_nat (n + 32) else c.

(** [str.lower] *)
Fixpoint str_lower (s : string) : string :=
  match s with
  | EmptyString => EmptyString
  | String c s' => String (lower_ascii c) (str_lower s')
  end.

Definition upper_ascii (c : ascii) : ascii :=
  let n := nat_of_ascii c in
  if (Nat.leb 97 n && Nat.leb n 122)%bool then ascii_of_nat (n - 32) else c.

(** [str.upper] *)
Fixpoint str_upper (s : string) : string :=
  match s with
  | EmptyString => EmptyString
  | String c s' => String (upper_ascii c) (str_upper s')
  end.

(** Whitespace of [str.strip]: TAB..CR, FS..US and space. *)
Definition is_space (c : ascii) : bool :=
  let n := nat_of_ascii c in
  (Nat.leb 9 n && Nat.leb n 13) || (Nat.leb 28 n && Nat.leb n 32).

Fixpoint lstrip (p : ascii -> bool) (s : string) : string :=
  match s with
  | EmptyString => EmptyString
  | String c s' => if p c then lstrip p s' else s
  end.

(** Drop a trailing run of characters satisfying [p]. *)
Fixpoint rstrip (p : ascii -> bool) (s : string) : string :=
  match s with
  | EmptyString => EmptyString
  | String c s' =>
      match rstrip p s' with
      | EmptyString => if p c then EmptyString else String c EmptyString
      | r => String c r
      end
  end.

(** [str.strip] *)
Definition str_strip (s : string) : string := rstrip is_space (lstrip is_space s).

Lemma lstrip_idem p s : lstrip p (lstrip p s) = lstrip p s.
Proof. induction s as [|c s IH]; simpl; [done|]. destruct (p c) eqn:E; [done|]. simpl. by rewrite E. Qed.

Lemma rstrip_idem p s : rstrip p (rstrip p s) = rstrip p s.
Proof.
  induction s as [|c s IH]; simpl; [done|].
  destruct (rstrip p s) as [|d t] eqn:E; [destruct (p c) eqn:F; simpl; [done|by rewrite F]|].
  cbn [rstrip] in IH |- *. by rewrite IH.
Qed.

Lemma lstrip_rstrip p s : lstrip p s = s -> lstrip p (rstrip p s) = rstrip p s.
Proof.
  destruct s as [|c s]; simpl; [done|]. destruct (p c) eqn:E.
  - intros H. exfalso. assert (String.length (lstrip p s) <= String.length s)%nat as Hl.
    { clear. induction s as [|d s IH]; simpl; [done|]. destruct (p d); simpl; lia. }
    rewrite H in Hl. simpl in Hl. lia.
  - intros _. destruct (rstrip p s); simpl; by rewrite E.
Qed.

(** Stripping twice strips no more. *)
Lemma str_strip_idem s : str_strip (str_strip s) = str_strip s.
Proof. unfold str_strip. rewrite lstrip_rstrip by apply lstrip_idem. apply rstrip_idem. Qed.

(** [s.startswith(p)] *)
Fixpoint starts_with (p s : string) : bool :=
  match p, s with
  | EmptyString, _ => true
  | String a p', String b s' => if ascii_dec a b then starts_with p' s' else false
  | String _ _, EmptyString => false
  end.

(** [needle in hay] *)
Fixpoint str_in (needle hay : string) : bool :=
  starts_with needle hay ||
  match hay with EmptyString => false | String _ h => str_in needle h end.

(** [s.find(c)] for one character. *)
Fixpoint find_char (c : ascii) (s : string) : option nat :=
  match s with
  | EmptyString => None
  | String a s' => if ascii_dec a c then Some 0%nat
                   else option_map S (find_char c s')
  end.

Fixpoint drop_str (n : nat) (s : string) : string :=
  match n, s with
  | O, _ => s
  | S n', String _ s' => drop_str n' s'
  | S _, EmptyString => EmptyString
  end.

Fixpoint take_str (n : nat) (s : string) : string :=
  match n, s with
  | O, _ => EmptyString
  | S n', String c s' => String c (take_str n' s')
  | S _, EmptyString => EmptyString
  end.

(** [s.split(c)] *)
Fixpoint split_char (c : ascii) (s : string) : list string :=
  match s with
  | EmptyString => [EmptyString]
  | String a s' =>
      if ascii_dec a c then EmptyString :: split_char c s'
      else match split_char c s' with
           | [] => [String a EmptyString]
           | seg :: segs => String a seg :: segs
           end
  end.

(** [c.join(segs)] *)
Fixpoint join_char (c : ascii) (segs : list string) : string :=
  match segs with
  | [] => EmptyString
  | [s] => s
  | s :: segs' => s +:+ String c (join_char c segs')
  end.

(** [s.endswith(p)] *)
Definition ends_with (p s : string) : bool :=
  (Nat.leb (String.length p) (String.length s)) &&
  bool_decide (drop_str (String.length s - String.length p) s = p).

(** The character does not occur in the string. *)
Fixpoint no_char (c : ascii) (s : string) : bool :=
  match s with
  | EmptyString => true
  | String a s' => if ascii_dec a c then false else no_char c s'
  end.

(** ** Lemmas *)

Lemma app_str_cons a (s t : string) : String a s +:+ t = String a (s +:+ t).
Proof. reflexivity. Qed.

Lemma app_str_nil_l (s : string) : EmptyString +:+ s = s.
Proof. reflexivity. Qed.

Ltac app_simp := rewrite ?app_str_cons, ?app_str_nil_l in *; simpl in *.

Lemma starts_with_app p s : starts_with p (p +:+ s) = true.
Proof. induction p as [|a p IH]; app_simp; [done|]. by destruct (ascii_dec a a). Qed.

Lemma starts_with_spec p s : starts_with p s = true <-> exists t, s = p +:+ t.
Proof.
  split.
  - revert s. induction p as [|a p IH]; intros s H; simpl in *; [by exists s|].
    destruct s as [|b s]; [done|]. destruct (ascii_dec a b) as [->|]; [|done].
    destruct (IH s H) as [t ->]. by exists t.
  - intros [t ->]. apply starts_with_app.
Qed.

Lemma drop_str_app p s : drop_str (String.length p) (p +:+ s) = s.
Proof. induction p as [|a p IH]; app_simp; [by destruct s|done]. Qed.

Lemma take_str_app p s : take_str (String.length p) (p +:+ s) = p.
Proof. induction p as [|a p IH]; app_simp; [by destruct s|]. by rewrite IH. Qed.

Lemma length_app_str s t : String.length (s +:+ t) = (String.length s + String.length t)%nat.
Proof. induction s as [|a s IH]; app_simp; [done|]. by rewrite IH. Qed.

Lemma find_char_app c s t :
  no_char c s = true -> find_char c (s +:+ String c t) = Some (String.length s).
Proof.
  induction s as [|a s IH]; simpl; intros H.
  - by destruct (ascii_dec c c).
  - destruct (ascii_dec a c); [done|]. app_simp. by rewrite IH.
Qed.

Lemma find_char_None c s : find_char c s = None <-> no_char c s = true.
Proof.
  induction s as [|a s IH]; simpl; [done|].
  destruct (ascii_dec a c); [done|]. rewrite <- IH. by destruct (find_char c s).
Qed.

Lemma find_char_Some c s i :
  find_char c s = Some i -> s = take_str i s +:+ String c (drop_str (S i) s)
                            /\ no_char c (take_str i s) = true.
Proof.
  revert i. induction s as [|a s IH]; simpl; intros i H; [done|].
  destruct (ascii_dec a c) as [->|Hne].
  - injection H as <-. simpl. split; [by destruct s|done].
  - destruct (find_char c s) as [j|] eqn:E; simpl in H; [|done]. injection H as <-.
    destruct (IH j eq_refl) as [H1 H2]. simpl. destruct (ascii_dec a c); [done|].
    split; [|done]. app_simp. f_equal. exact H1.
Qed.

Lemma split_no_char c s : no_char c s = true -> split_char c s = [s].
Proof.
  induction s as [|a s IH]; simpl; intros H; [done|].
  destruct (ascii_dec a c); [done|]. by rewrite (IH H).
Qed.

Lemma split_app c s t :
  no_char c s = true -> split_char c (s +:+ String c t) = s :: split_char c t.
Proof.
  induction s as [|a s IH]; simpl; intros H.
  - by destruct (ascii_dec c c).
  - destruct (ascii_dec a c); [done|]. app_simp. by rewrite (IH H).
Qed.

(** Splitting inverts joining when no segment contains the separator. *)
Lemma split_join c segs :
  segs <> [] -> Forall (fun s => no_char c s = true) segs ->
  split_char c (join_char c segs) = segs.
Proof.
  induction segs as [|s segs IH]; intros Hne Hall; [done|].
  apply Forall_cons in Hall as [Hs Hall]. destruct segs as [|s' segs].
  - simpl. by apply split_no_char.
  - change (join_char c (s :: s' :: segs)) with (s +:+ String c (join_char c (s' :: segs))).
    rewrite split_app by done. by rewrite IH.
Qed.

Lemma split_char_nonempty c s : split_char c s <> [].
Proof.
  destruct s as [|a s]; simpl; [done|]. destruct (ascii_dec a c); [done|].
  by destruct (split_char c s).
Qed.

Lemma split_char_no_char c s : Forall (fun x => no_char c x = true) (split_char c s).
Proof.
  induction s as [|a s IH]; simpl; [by constructor|].
  destruct (ascii_dec a c); [by constructor|].
  destruct (split_char c s) as [|x xs]; simpl; constructor; simpl.
  - by destruct (ascii_dec a c).
  - by constructor.
  - apply Forall_cons in IH as [H _]. by destruct (ascii_dec a c).
  - by apply Forall_cons in IH as [_ H].
Qed.

(** Joining inverts splitting always. *)
Lemma join_split c s : join_char c (split_char c s) = s.
Proof.
  induction s as [|a s IH]; simpl; [done|].
  pose proof (split_char_nonempty c s) as Hne.
  destruct (ascii_dec a c) as [->|]; destruct (split_char c s) as [|x xs]; try done.
  - change (join_char c (EmptyString :: x :: xs)) with (String c (join_char c (x :: xs))).
    by rewrite IH.
  - destruct xs as [|y ys]; simpl in *; [by rewrite IH|].
    app_simp. by rewrite IH.
Qed.

(** Occurrences of a character. *)
Fixpoint count_char (c : ascii) (s : string) : nat :=
  match s with EmptyString => 0%nat | String a s' => ((if ascii_dec a c then 1 else 0) + count_char c s')%nat end.

Lemma count_char_app c s t : count_char c (s +:+ t) = (count_char c s + count_char c t)%nat.
Proof. induction s as [|a s IH]; app_simp; simpl; [done|]. rewrite IH. lia. Qed.

Lemma count_char_0 c s : count_char c s = 0%nat <-> no_char c s = true.
Proof. induction s as [|a s IH]; simpl; [done|]. destruct (ascii_dec a c); [done|]. simpl. apply IH. Qed.

Lemma count_char_join c segs :
  count_char c (join_char c segs) = (sum_list_with (count_char c) segs + (length segs - 1))%nat.
Proof.
  induction segs as [|s [|s' segs] IH]; [done|simpl; lia|].
  change (join_char c (s :: s' :: segs)) with (s +:+ String c (join_char c (s' :: segs))).
  rewrite count_char_app. cbn [count_char]. rewrite IH. destruct (ascii_dec c c); [|done]. simpl. lia.
Qed.

(** A join of segments free of the separator determines them among all lists of
    their length, whatever those contain. *)
Lemma join_char_inj c segs segs' :
  length segs = length segs' -> Forall (fun s => no_char c s = true) segs -> join_char c segs = join_char c segs' -> segs = segs'.
Proof.
  intros Hl Hs Hj. destruct segs as [|s segs]; [by destruct segs'|]. destruct segs' as [|s' segs']; [done|].
  assert (Hz : forall l, Forall (fun s => no_char c s = true) l <-> sum_list_with (count_char c) l = 0%nat).
  { induction l as [|x l IH]; simpl; [by split|]. rewrite Forall_cons, IH, <- count_char_0. lia. }
  assert (Hs' : Forall (fun s => no_char c s = true) (s' :: segs')).
  { apply Hz. pose proof (count_char_join c (s :: segs)) as H1. pose proof (count_char_join c (s' :: segs')) as H2.
    rewrite Hj, H2 in H1. apply Hz in Hs. simpl in *. lia. }
  rewrite <- (split_join c (s :: segs)), <- (split_join c (s' :: segs')); [by rewrite Hj|done..].
Qed.

Lemma app_str_nil_r (s : string) : s +:+ EmptyString = s.
Proof. induction s as [|a s IH]; [done|]. app_simp. by rewrite IH. Qed.

Lemma app_str_assoc (s t u : string) : (s +:+ t) +:+ u = s +:+ (t +:+ u).
Proof. induction s as [|a s IH]; [done|]. app_simp. by rewrite IH. Qed.

Lemma app_str_inj (s t u : string) : s +:+ t = s +:+ u -> t = u.
Proof. induction s as [|a s IH]; app_simp; [done|]. intros [= H]. auto. Qed.

(** [sorted] on strings, by code points. *)
Fixpoint insert_sorted (s : string) (l : list string) : list string :=
  match l with
  | [] => [s]
  | x :: l' => match String.compare s x with
               | Gt => x :: insert_sorted s l'
               | _ => s :: l
               end
  end.
Definition py_sorted (l : list string) : list string := foldr insert_sorted [] l.

Lemma insert_sorted_perm s l : insert_sorted s l ≡ₚ s :: l.
Proof.
  induction l as [|x l IH]; simpl; [done|]. destruct (String.compare s x); [done..|].
  rewrite IH. constructor.
Qed.

Lemma py_sorted_perm l : py_sorted l ≡ₚ l.
Proof. induction l as [|x l IH]; simpl; [done|]. by rewrite insert_sorted_perm, IH. Qed.

Definition str_lt (s t : string) : Prop := String.compare s t = Lt.

Lemma str_lt_trans s t u : str_lt s t -> str_lt t u -> str_lt s u.
Proof.
  unfold str_lt. revert t u. induction s as [|a s IH]; intros [|b t] [|c u]; simpl; try done.
  unfold Ascii.compare. destruct (N.compare_spec (N_of_ascii a) (N_of_ascii b)) as [E1|L1|G1]; [| |done];
    destruct (N.compare_spec (N_of_ascii b) (N_of_ascii c)) as [E2|L2|G2]; try done; intros H1 H2.
  - rewrite E1, E2, N.compare_refl. by eapply IH.
  - rewrite E1. by apply N.compare_lt_iff in L2 as ->.
  - rewrite <- E2. by apply N.compare_lt_iff in L1 as ->.
  - assert (L : (N_of_ascii a < N_of_ascii c)%N) by lia. by apply N.compare_lt_iff in L as ->.
Qed.

Lemma str_lt_total s t : str_lt s t \/ s = t \/ str_lt t s.
Proof.
  unfold str_lt. destruct (String.compare s t) eqn:E; [|by left|].
  - right; left. by apply String.compare_eq_iff.
  - right; right. by rewrite String.compare_antisym, E.
Qed.

(** Strictly sorted lists of strings: [sorted] of a set. *)
Definition str_sorted : list string -> Prop := StronglySorted str_lt.

Lemma insert_sorted_sorted s l : s ∉ l -> str_sorted l -> str_sorted (insert_sorted s l).
Proof.
  intros Hs Hl. induction Hl as [|x l Hl IH Hx]; simpl; [by repeat constructor|].
  apply not_elem_of_cons in Hs as [Hne Hs]. destruct (String.compare s x) eqn:E.
  - apply String.compare_eq_iff in E. congruence.
  - constructor; [by constructor|]. constructor; [done|].
    eapply Forall_impl; [exact Hx|]. intros y Hy. by eapply str_lt_trans.
  - constructor; [by apply IH|]. rewrite insert_sorted_perm. constructor; [|done].
    unfold str_lt. by rewrite String.compare_antisym, E.
Qed.

(** [sorted(set(l))] *)
Definition sorted_set (l : list string) : list string := py_sorted (remove_dups l).

Lemma py_sorted_sorted l : NoDup l -> str_sorted (py_sorted l).
Proof.
  induction 1 as [|x l Hx _ IH]; simpl; [constructor|]. apply insert_sorted_sorted; [by rewrite py_sorted_perm|done].
Qed.

Lemma sorted_set_sorted l : str_sorted (sorted_set l).
Proof. apply py_sorted_sorted, NoDup_remove_dups. Qed.

Lemma elem_of_sorted_set x l : x ∈ sorted_set l <-> x ∈ l.
Proof. unfold sorted_set. by rewrite py_sorted_perm, elem_of_remove_dups. Qed.

Lemma str_sorted_NoDup l : str_sorted l -> NoDup l.
Proof.
  induction 1 as [|x l _ IH Hx]; constructor; [|done]. intros Hin.
  rewrite Forall_forall in Hx. specialize (Hx x Hin). unfold str_lt in Hx.
  pose proof (String.compare_antisym x x) as E. rewrite Hx in E. done.
Qed.

Lemma remove_dups_NoDup (l : list string) : NoDup l -> remove_dups l = l.
Proof. induction 1 as [|x l Hx _ IH]; simpl; [done|]. destruct (decide_rel elem_of x l); [done|]. by rewrite IH. Qed.

Lemma sorted_set_id l : str_sorted l -> sorted_set l = l.
Proof.
  intros Hl. unfold sorted_set. rewrite remove_dups_NoDup by (by apply str_sorted_NoDup).
  induction Hl as [|x l _ IH Hx]; simpl; [done|]. rewrite IH. destruct l as [|y l]; simpl; [done|].
  apply Forall_cons in Hx as [Hxy _]. unfold str_lt in Hxy. by rewrite Hxy.
Qed.

Lemma py_sorted_set l : py_sorted (sorted_set l) = sorted_set l.
Proof.
  pose proof (sorted_set_id _ (sorted_set_sorted l)) as E. unfold sorted_set at 1 in E.
  by rewrite remove_dups_NoDup in E by (apply str_sorted_NoDup, sorted_set_sorted).
Qed.

Lemma filter_sorted (P : string -> Prop) `{!forall x, Decision (P x)} l : str_sorted l -> str_sorted (base.filter P l).
Proof.
  induction 1 as [|x l _ IH Hx]; simpl; [constructor|]. rewrite filter_cons. case_decide; [|done].
  constructor; [done|]. apply Forall_forall. intros y Hy. apply list_elem_of_filter in Hy as [_ Hy].
  by rewrite Forall_forall in Hx; apply Hx.
Qed.

(** ** [int(s)]

    Surrounding white space, an optional sign, and decimal digits with single
    underscores between them; [None] is ValueError. *)

Definition digit_value (c : ascii) : option Z :=
  let n := Z.of_nat (nat_of_ascii c) in
  if (48 <=? n)%Z && (n <=? 57)%Z then Some (n - 48)%Z else None.

(** [need]: the next character has to be a digit. *)
Fixpoint parse_digits (need : bool) (s : string) (acc : Z) : option Z :=
  match s with
  | EmptyString => if need then None else Some acc
  | String c s' =>
      match digit_value c with
      | Some d => parse_digits false s' (acc * 10 + d)%Z
      | None => if decide (c = "_"%char) then if need then None else parse_digits true s' acc else None
      end
  end.

Definition int_of_string (s : string) : option Z :=
  match str_strip s with
  | String "-" r => option_map Z.opp (parse_digits true r 0)
  | String "+" r => parse_digits true r 0
  | r => parse_digits true r 0
  end.

Example int_of_string_examples :
  map int_of_string ["12"; " -3 "; "1_000"; "1__0"; ""; "-"; "x1"; "+7"]
  = [Some 12%Z; Some (-3)%Z; Some 1000%Z; None; None; None; None; Some 7%Z].
Proof. reflexivity. Qed.
