(* ===== verification/PyVal.v ===== *)
(** * JSON-like Python values

    The payloads, results and claims the runtime passes around are dicts of
    JSON values. [pyval] is that universe; dicts keep insertion order. Floats
    are the rationals they denote. [str(v)] on a value that is not a string
    is left to a function [render] where the code applies it. *)

From S2P Require Import Prelude PyStr.
From Stdlib Require Import QArith.
Local Open Scope Z_scope.

Inductive pyval :=
| VNone
| VBool (b : bool)
| VInt (z : Z)
| VFloat (q : Q)
| VStr (s : string)
| VList (l : list pyval)
| VDict (d : list (string * pyval)).

(** [bool(v)] *)
Definition py_truth (v : pyval) : bool :=
  match v with
  | VNone => false
  | VBool b => b
  | VInt z => negb (z =? 0)
  | VFloat q => negb (Qnum q =? 0)
  | VStr s => bool_decide (s <> "")
  | VList l => match l with [] => false | _ => true end
  | VDict d => match d with [] => false | _ => true end
  end.

Inductive py_type := TyStr | TyInt | TyFloat | TyBool | TyList | TyDict.

(** [isinstance(v, t)]: a [bool] is an [int] in Python. *)
Definition isinstance (v : pyval) (t : py_type) : bool :=
  match v, t with
  | VStr _, TyStr | VInt _, TyInt | VBool _, TyInt | VFloat _, TyFloat
  | VBool _, TyBool | VList _, TyList | VDict _, TyDict => true
  | _, _ => false
  end.

(** [type(v).__name__] *)
Definition type_name (v : pyval) : string :=
  match v with
  | VNone => "NoneType" | VBool _ => "bool" | VInt _ => "int" | VFloat _ => "float"
  | VStr _ => "str" | VList _ => "list" | VDict _ => "dict"
  end.

(** [d.get(k)]: [None] both for an absent key and for a stored [None]. *)
Definition py_get (k : string) (d : list (string * pyval)) : pyval :=
  default VNone (dict_get k d).

Definition is_None (v : pyval) : bool := match v with VNone => true | _ => false end.

(** [str(v)], given how non-string values render. *)
Definition py_str (render : pyval -> string) (v : pyval) : string :=
  match v with VStr s => s | _ => render v end.

(** [a or b] *)
Definition py_or (a b : pyval) : pyval := if py_truth a then a else b.

(** [list(v)]; [None] where it raises. *)
Definition py_list (v : pyval) : option (list pyval) :=
  match v with
  | VList l => Some l
  | VStr s => Some (map (fun c => VStr (String c EmptyString)) (String.list_ascii_of_string s))
  | VDict d => Some (map (fun kv => VStr kv.1) d)
  | _ => None
  end.

(** The number a value denotes; a [bool] is 0 or 1. *)
Definition py_num (v : pyval) : option Q :=
  match v with
  | VBool b => Some (inject_Z (if b then 1 else 0))
  | VInt z => Some (inject_Z z)
  | VFloat q => Some q
  | _ => None
  end.

(** [a == b]: numbers by value whatever their type, lists pointwise, dicts
    as maps. *)
Fixpoint py_eq (v w : pyval) {struct v} : bool :=
  match v, w with
  | VNone, VNone => true
  | VStr s, VStr t => bool_decide (s = t)
  | VList l1, VList l2 =>
      (fix go (l1 l2 : list pyval) : bool :=
         match l1, l2 with
         | [], [] => true
         | x :: l1', y :: l2' => py_eq x y && go l1' l2'
         | _, _ => false
         end) l1 l2
  | VDict d1, VDict d2 =>
      Nat.eqb (length d1) (length d2) &&
      (fix go (d1 : list (string * pyval)) : bool :=
         match d1 with
         | [] => true
         | (k, x) :: d1' => match dict_get k d2 with Some y => py_eq x y | None => false end && go d1'
         end) d1
  | _, _ => match py_num v, py_num w with
            | Some a, Some b => Qeq_bool a b
            | _, _ => false
            end
  end.

(** [a < b]: numbers, strings by code points, lists lexicographically;
    [None] where Python raises TypeError. *)
Fixpoint py_lt (v w : pyval) {struct v} : option bool :=
  match v, w with
  | VStr s, VStr t => Some (match String.compare s t with Lt => true | _ => false end)
  | VList l1, VList l2 =>
      (fix go (l1 l2 : list pyval) : option bool :=
         match l1, l2 with
         | _, [] => Some false
         | [], _ :: _ => Some true
         | x :: l1', y :: l2' => if py_eq x y then go l1' l2' else py_lt x y
         end) l1 l2
  | _, _ => match py_num v, py_num w with
            | Some a, Some b => Some (negb (Qle_bool b a))
            | _, _ => None
            end
  end.

(** [dict(v)]: of a dict, or of a sequence of pairs; [None] where it raises. Keys that
    are not strings are left out, as nothing reads them. *)
Definition dict_item (v : pyval) : option (pyval * pyval) :=
  match v with
  | VList [k; x] => Some (k, x)
  | VStr (String a (String b EmptyString)) => Some (VStr (String a EmptyString), VStr (String b EmptyString))
  | VDict [(k, _); (k', _)] => Some (VStr k, VStr k')
  | _ => None
  end.

Fixpoint dict_of_items (l : list pyval) (d : list (string * pyval)) : option (list (string * pyval)) :=
  match l with
  | [] => Some d
  | v :: l' =>
      match dict_item v with
      | Some (VStr k, x) => dict_of_items l' (dict_set k x d)
      | Some (VList _, _) | Some (VDict _, _) | None => None
      | Some _ => dict_of_items l' d
      end
  end.

Definition py_dict (v : pyval) : option (list (string * pyval)) :=
  match v with
  | VDict d => Some d
  | VList l => dict_of_items l []
  | VStr EmptyString => Some []
  | _ => None
  end.

(** [dict(v or {})] *)
Definition dict_or (v : pyval) : option (list (string * pyval)) := if py_truth v then py_dict v else Some [].

(** [int(v)]: floats are cut towards zero; [None] where it raises. *)
Definition py_int (v : pyval) : option Z :=
  match v with
  | VInt z => Some z
  | VBool b => Some (if b then 1 else 0)
  | VFloat q => Some (Z.quot (Qnum q) (Zpos (Qden q)))
  | VStr s => int_of_string s
  | _ => None
  end.

(** A float: a rational, an infinity or not a number. *)
Inductive pyfloat := Fin (q : Q) | Inf (negative : bool) | NaN.

(** [float(v)], given what it makes of a text; [None] where it raises. *)
Definition py_float (float_of : string -> option pyfloat) (v : pyval) : option pyfloat :=
  match v with
  | VStr s => float_of s
  | _ => Fin <$> py_num v
  end.

(** [a <= b] and [a < b] on floats; not a number compares with nothing. *)
Definition float_le (a b : pyfloat) : bool :=
  match a, b with
  | NaN, _ | _, NaN => false
  | Inf true, _ | _, Inf false => true
  | Fin p, Fin q => Qle_bool p q
  | _, _ => false
  end.

Definition float_lt (a b : pyfloat) : bool :=
  match a, b with
  | NaN, _ | _, NaN => false
  | _, _ => negb (float_le b a)
  end.

Definition float_add (a : pyfloat) (d : Q) : pyfloat := match a with Fin q => Fin (q + d)%Q | _ => a end.

Lemma is_None_true v : is_None v = true <-> v = VNone.
Proof. by destruct v. Qed.

Lemma py_get_set_eq k v d : py_get k (dict_set k v d) = v.
Proof. unfold py_get. by rewrite dict_get_set_eq. Qed.

Lemma py_get_set_ne k k' v d : k <> k' -> py_get k' (dict_set k v d) = py_get k' d.
Proof. intros H. unfold py_get. by rewrite dict_get_set_ne. Qed.

#[export] Hint Rewrite py_get_set_eq : py.

(** Induction over values, through the elements of lists and dicts. *)
Section Induction.
Variable P : pyval -> Prop.
Hypothesis PNone : P VNone.
Hypothesis PBool : forall b, P (VBool b).
Hypothesis PInt : forall z, P (VInt z).
Hypothesis PFloat : forall q, P (VFloat q).
Hypothesis PStr : forall s, P (VStr s).
Hypothesis PList : forall l, Forall P l -> P (VList l).
Hypothesis PDict : forall d, Forall (fun kv => P kv.2) d -> P (VDict d).

Fixpoint pyval_nested_ind (v : pyval) : P v :=
  match v with
  | VNone => PNone
  | VBool b => PBool b
  | VInt z => PInt z
  | VFloat q => PFloat q
  | VStr s => PStr s
  | VList l =>
      PList l ((fix go (l : list pyval) : Forall P l :=
                  match l with
                  | [] => Forall_nil_2 P
                  | x :: l' => Forall_cons_2 P x l' (pyval_nested_ind x) (go l')
                  end) l)
  | VDict d =>
      PDict d ((fix go (d : list (string * pyval)) : Forall (fun kv => P kv.2) d :=
                  match d with
                  | [] => Forall_nil_2 _
                  | kv :: d' => Forall_cons_2 (fun kv : string * pyval => P kv.2) kv d' (pyval_nested_ind kv.2) (go d')
                  end) d)
  end.
End Induction.

(** [l[i]]: a negative index counts from the end; [None] is IndexError. *)
Definition py_index (l : list pyval) (i : Z) : option pyval :=
  let n := Z.of_nat (length l) in
  if (0 <=? i) && (i <? n) then nth_error l (Z.to_nat i)
  else if (- n <=? i) && (i <? 0) then nth_error l (Z.to_nat (n + i))
  else None.

(** [x in v]; [None] where Python raises TypeError. *)
Definition py_in (x v : pyval) : option bool :=
  match v with
  | VStr s => match x with VStr t => Some (str_in t s) | _ => None end
  | VList l => Some (existsb (py_eq x) l)
  | VDict d => match x with
               | VStr k => Some (dict_mem k d)
               | VList _ | VDict _ => None
               | _ => Some false
               end
  | _ => None
  end.

Lemma py_index_elem l i v : py_index l i = Some v -> v ∈ l.
Proof.
  unfold py_index. repeat case_bool; [| |done]; intros H; apply nth_error_In in H; by apply list_elem_of_In.
Qed.

(** ** Equality

    Equality of the values as written (of their JSON texts), finer than Python's [==]. *)

#[local] Instance Q_eq_dec : EqDecision Q.
Proof. intros [a b] [c d]. solve_decision. Defined.

#[export] Instance pyval_eq_dec : EqDecision pyval.
Proof.
  unfold EqDecision, Decision.
  unshelve refine (fix go (v w : pyval) {struct v} : {v = w} + {v <> w} :=
    let go_list := fix go_list (l k : list pyval) {struct l} : {l = k} + {l <> k} :=
      match l, k with
      | [], [] => left eq_refl
      | x :: l', y :: k' => match go x y, go_list l' k' with left _, left _ => left _ | _, _ => right _ end
      | _, _ => right _
      end in
    let go_dict := fix go_dict (l k : list (string * pyval)) {struct l} : {l = k} + {l <> k} :=
      match l, k with
      | [], [] => left eq_refl
      | (a, x) :: l', (b, y) :: k' =>
          match decide (a = b), go x y, go_dict l' k' with left _, left _, left _ => left _ | _, _, _ => right _ end
      | _, _ => right _
      end in
    match v, w with
    | VNone, VNone => left eq_refl
    | VBool a, VBool b => match decide (a = b) with left _ => left _ | right _ => right _ end
    | VInt a, VInt b => match decide (a = b) with left _ => left _ | right _ => right _ end
    | VFloat a, VFloat b => match decide (a = b) with left _ => left _ | right _ => right _ end
    | VStr a, VStr b => match decide (a = b) with left _ => left _ | right _ => right _ end
    | VList l, VList k => match go_list l k with left _ => left _ | right _ => right _ end
    | VDict l, VDict k => match go_dict l k with left _ => left _ | right _ => right _ end
    | _, _ => right _
    end); congruence.
Defined.
