(* ===== verification/UserIds.v ===== *)
(** * Identifiers

    platform_layer/user_ids.py: the spellings of a UUID and the canonical form they are
    compared in. *)

From S2P Require Import Prelude PyStr.
From Stdlib Require Import Ascii.
Local Open Scope string_scope.
Local Open Scope list_scope.

(** [s.replace(p, "")] for a text [p] that is not empty; [k]: characters of a match still to drop. *)
Fixpoint remove_from (p : string) (k : nat) (s : string) : string :=
  match s with
  | EmptyString => EmptyString
  | String c s' =>
      match k with
      | S k' => remove_from p k' s'
      | O => if starts_with p s then remove_from p (String.length p - 1) s' else String c (remove_from p 0 s')
      end
  end.
Definition remove_str (p s : string) : string := remove_from p 0 s.

Definition is_brace (c : ascii) : bool := bool_decide (c ∈ ["{"; "}"]%char).

Definition hex_digit (c : ascii) : bool :=
  let n := nat_of_ascii c in
  (48 <=? n)%nat && (n <=? 57)%nat || (97 <=? n)%nat && (n <=? 102)%nat.

(** [str(uuid.UUID(s))]; the other spellings [int(_, 16)] takes (underscores, a sign, a
    prefix, blanks) are refused. *)
Definition parse_uuid (s : string) : option string :=
  let hex := remove_str "-" (rstrip is_brace (lstrip is_brace (remove_str "uuid:" (remove_str "urn:" s)))) in
  let h := str_lower hex in
  if (String.length h =? 32)%nat && forallb hex_digit (String.list_ascii_of_string h) then
    Some (take_str 8 h +:+ "-" +:+ take_str 4 (drop_str 8 h) +:+ "-" +:+ take_str 4 (drop_str 12 h) +:+ "-" +:+ take_str 4 (drop_str 16 h) +:+ "-" +:+ drop_str 20 h)
  else None.

Definition parse_user_id (v : string) : option string := if bool_decide (v = "") then None else parse_uuid v.
