(* ===== verification/CircuitBreaker.v ===== *)
(** * The circuit breaker (src/AINDY/kernel/circuit_breaker.py)

    [CircuitBreaker] guards calls to an AI provider. The state record has the
    object's mutable fields; [name] and the metric gauge are observability and
    are left out. Clock readings are UTC microseconds; the elapsed time is
    compared in microseconds where the code compares
    [timedelta.total_seconds()] with whole seconds. Every critical section of
    the code (one [with self._lock] block) is one atomic operation here, so
    [cb_step] below interleaves any number of threads. *)

From S2P Require Import Prelude.

Inductive CircuitState := CLOSED | OPEN | HALF_OPEN.

#[global] Instance CircuitState_eq_dec : EqDecision CircuitState.
Proof. solve_decision. Defined.

(** The phase string [_enter_call] returns: "closed" or "half_open". *)
Inductive phase := PhClosed | PhHalfOpen.

#[global] Instance phase_eq_dec : EqDecision phase.
Proof. solve_decision. Defined.

Record breaker := Breaker {
  failure_threshold : Z;
  recovery_timeout_secs : Z;
  b_state : CircuitState;
  failure_count : Z;
  opened_at : option Z;
  half_open_in_flight : bool
}.

Definition init_breaker (threshold recovery : Z) : breaker :=
  Breaker threshold recovery CLOSED 0 None false.

Definition set_in_flight (b : breaker) (v : bool) : breaker :=
  Breaker (failure_threshold b) (recovery_timeout_secs b) (b_state b)
          (failure_count b) (opened_at b) v.

Definition set_failure_count (b : breaker) (n : Z) : breaker :=
  Breaker (failure_threshold b) (recovery_timeout_secs b) (b_state b)
          n (opened_at b) (half_open_in_flight b).

Definition transition_to (b : breaker) (new : CircuitState) (now : Z) : breaker :=
  match new with
  | CLOSED => Breaker (failure_threshold b) (recovery_timeout_secs b) CLOSED 0 None false
  | OPEN => Breaker (failure_threshold b) (recovery_timeout_secs b) OPEN
                    (failure_count b) (Some now) false
  | HALF_OPEN => Breaker (failure_threshold b) (recovery_timeout_secs b) HALF_OPEN
                         (failure_count b) (opened_at b) (half_open_in_flight b)
  end.

Inductive circuit_error := CircuitOpenError.

Definition usec : Z := 1000000.

Definition enter_call (b : breaker) (now : Z) : result circuit_error phase * breaker :=
  match b_state b with
  | CLOSED => (Ok PhClosed, b)
  | OPEN =>
      match opened_at b with
      | Some t0 =>
          if recovery_timeout_secs b * usec <=? now - t0
          then (Ok PhHalfOpen, set_in_flight (transition_to b HALF_OPEN now) true)
          else (Err CircuitOpenError, b)
      | None => (Err CircuitOpenError, b)
      end
  | HALF_OPEN =>
      if half_open_in_flight b then (Err CircuitOpenError, b)
      else (Ok PhHalfOpen, set_in_flight b true)
  end.

Definition record_success (b : breaker) (ph : phase) (now : Z) : breaker :=
  if bool_decide (ph = PhHalfOpen) || bool_decide (b_state b <> CLOSED)
  then transition_to b CLOSED now
  else set_failure_count b 0.

Definition record_failure (b : breaker) (ph : phase) (now : Z) : breaker :=
  if bool_decide (ph = PhHalfOpen) || bool_decide (b_state b = HALF_OPEN)
  then transition_to (set_failure_count b (failure_threshold b)) OPEN now
  else
    let b' := set_failure_count b (failure_count b + 1) in
    if failure_threshold b' <=? failure_count b'
    then transition_to b' OPEN now else b'.

(** How the protected function ends: a normal return, an [Exception], or a
    [BaseException] outside [Exception] ([asyncio.CancelledError],
    [KeyboardInterrupt]), which [except Exception] does not catch. *)
Inductive fn_outcome (A : Type) := FReturn (a : A) | FException | FBaseException.
Arguments FReturn {A} a.
Arguments FException {A}.
Arguments FBaseException {A}.

Inductive call_error := Rejected | FnRaised | FnCancelled.

(** [call] and [async_call] (the same code up to [await]); [t0] is the clock
    at entry, [t1] at completion, [f] the outcome of the function should it
    be called. The boolean says whether the function was called. *)
Definition call {A} (b : breaker) (f : fn_outcome A) (t0 t1 : Z)
    : result call_error A * bool * breaker :=
  match enter_call b t0 with
  | (Err _, b') => (Err Rejected, false, b')
  | (Ok ph, b') =>
      match f with
      | FReturn a => (Ok a, true, record_success b' ph t1)
      | FException => (Err FnRaised, true, record_failure b' ph t1)
      | FBaseException => (Err FnCancelled, true, b')
      end
  end.

Definition reset (b : breaker) (now : Z) : breaker := transition_to b CLOSED now.

(** ** Well-formedness *)

(** The invariant of the object: a closed breaker is below its threshold and
    has no timer and no probe; an open one has a timer, no probe, and a count
    at the threshold; a half-open one keeps the timer of its last opening and
    always has its probe in flight, so the last two statements of
    [_enter_call] are never reached. *)
Definition breaker_wf (b : breaker) : Prop :=
  0 < failure_threshold b /\ match b_state b with
  | CLOSED => 0 <= failure_count b < failure_threshold b /\ opened_at b = None
              /\ half_open_in_flight b = false
  | OPEN => opened_at b <> None /\ half_open_in_flight b = false
            /\ failure_threshold b <= failure_count b
  | HALF_OPEN => opened_at b <> None /\ half_open_in_flight b = true
                 /\ failure_threshold b <= failure_count b
  end.

(** One atomic action of some thread. *)
Inductive action :=
| AEnter (now : Z)
| ASuccess (ph : phase) (now : Z)
| AFailure (ph : phase) (now : Z)
| AReset (now : Z).

Definition act (b : breaker) (a : action) : breaker :=
  match a with
  | AEnter now => snd (enter_call b now)
  | ASuccess ph now => record_success b ph now
  | AFailure ph now => record_failure b ph now
  | AReset now => reset b now
  end.

Lemma enter_call_wf b now : breaker_wf b -> breaker_wf (snd (enter_call b now)).
Proof.
  destruct b as [th rt st fc oa fl]. unfold breaker_wf, enter_call; simpl. intros [Hth H].
  destruct st; simpl; [done| |destruct fl; simpl; [done|naive_solver]].
  destruct oa; simpl; [|tauto]. case_bool; simpl; tauto.
Qed.

Lemma record_success_wf b ph now : breaker_wf b -> breaker_wf (record_success b ph now).
Proof.
  destruct b as [th rt st fc oa fl]. unfold breaker_wf, record_success; simpl. intros [Hth H].
  case_bool; simpl; [repeat split; lia|].
  apply orb_false_iff in Hif as [_ Hst]. apply bool_decide_eq_false in Hst.
  destruct st; [|destruct Hst; done..]. simpl. repeat split; try lia; tauto.
Qed.

Lemma record_failure_wf b ph now : breaker_wf b -> breaker_wf (record_failure b ph now).
Proof.
  destruct b as [th rt st fc oa fl]. unfold breaker_wf, record_failure; simpl. intros [Hth H].
  case_bool; simpl; [repeat split; [lia|done|lia]|].
  apply orb_false_iff in Hif as [_ Hst]. apply bool_decide_eq_false in Hst.
  case_bool; boolprop; simpl; [repeat split; [lia|done|lia]|].
  destruct st; simpl; [|lia|done]. repeat split; try lia; tauto.
Qed.

Lemma transition_closed_wf b now :
  0 < failure_threshold b -> breaker_wf (transition_to b CLOSED now).
Proof. unfold breaker_wf; simpl. repeat split; lia. Qed.

#[export] Hint Resolve enter_call_wf record_success_wf record_failure_wf : py.

Lemma act_wf b a : breaker_wf b -> breaker_wf (act b a).
Proof.
  destruct a; simpl; auto with py. intros [Hth _]. by apply transition_closed_wf.
Qed.

(** ** The abstract breaker

    What the class promises to a caller that makes one call at a time: a
    count of consecutive failures, or an opening time, or a breaker that was
    left half-open by a cancelled probe and rejects everything. *)

Inductive spec_state := SClosed (failures : Z) | SOpen (since : Z) | SStuck.

Definition spec_call {A} (th rt : Z) (s : spec_state) (f : fn_outcome A) (t0 t1 : Z)
    : result call_error A * bool * spec_state :=
  match s with
  | SClosed n =>
      match f with
      | FReturn a => (Ok a, true, SClosed 0)
      | FException => (Err FnRaised, true, if th <=? n + 1 then SOpen t1 else SClosed (n + 1))
      | FBaseException => (Err FnCancelled, true, s)
      end
  | SOpen t =>
      if rt * usec <=? t0 - t
      then match f with
           | FReturn a => (Ok a, true, SClosed 0)
           | FException => (Err FnRaised, true, SOpen t1)
           | FBaseException => (Err FnCancelled, true, SStuck)
           end
      else (Err Rejected, false, s)
  | SStuck => (Err Rejected, false, s)
  end.

Definition absr (b : breaker) : spec_state :=
  match b_state b with
  | CLOSED => SClosed (failure_count b)
  | OPEN => SOpen (default 0 (opened_at b))
  | HALF_OPEN => SStuck
  end.

(** A request to the breaker: the outcome of its function and the clock at
    entry and completion. *)
Definition request (A : Type) : Type := fn_outcome A * Z * Z.

Fixpoint run_calls {A} (b : breaker) (rs : list (request A))
    : list (result call_error A * bool) * breaker :=
  match rs with
  | [] => ([], b)
  | (f, t0, t1) :: rs' =>
      let '(r, called, b') := call b f t0 t1 in
      let '(out, b'') := run_calls b' rs' in ((r, called) :: out, b'')
  end.

Fixpoint spec_calls {A} (th rt : Z) (s : spec_state) (rs : list (request A))
    : list (result call_error A * bool) * spec_state :=
  match rs with
  | [] => ([], s)
  | (f, t0, t1) :: rs' =>
      let '(r, called, s') := spec_call th rt s f t0 t1 in
      let '(out, s'') := spec_calls th rt s' rs' in ((r, called) :: out, s'')
  end.

Lemma call_wf {A} b (f : fn_outcome A) t0 t1 : breaker_wf b -> breaker_wf (call b f t0 t1).2.
Proof.
  intros Hwf. unfold call. pose proof (enter_call_wf b t0 Hwf) as Hwf'.
  destruct (enter_call b t0) as [[ph|e] b']; simpl in *; [|done].
  destruct f; simpl; auto with py.
Qed.

Lemma call_params {A} b (f : fn_outcome A) t0 t1 :
  failure_threshold (call b f t0 t1).2 = failure_threshold b /\
  recovery_timeout_secs (call b f t0 t1).2 = recovery_timeout_secs b.
Proof.
  unfold call, enter_call, record_success, record_failure.
  destruct b as [th rt [] fc [oa|] []]; simpl; repeat (case_bool; simpl); try done;
    destruct f; simpl; repeat (case_bool; simpl); done.
Qed.

Lemma call_refines_spec {A} b (f : fn_outcome A) t0 t1 :
  breaker_wf b ->
  spec_call (failure_threshold b) (recovery_timeout_secs b) (absr b) f t0 t1
  = let '(r, called, b') := call b f t0 t1 in (r, called, absr b').
Proof.
  destruct b as [th rt st fc oa fl].
  unfold breaker_wf, spec_call, call, absr, enter_call, record_success, record_failure; simpl.
  intros [Hth H]. destruct st; simpl.
  - destruct f; simpl; try done. by destruct (th <=? fc + 1).
  - destruct H as (Ho & -> & Hfc). destruct oa as [t|]; [simpl|done].
    destruct (rt * usec <=? t0 - t); simpl; [|done]. by destruct f.
  - destruct H as (_ & -> & _). simpl. done.
Qed.

(** ** Claims *)

(** The breaker refines the abstract breaker: started with a positive
    threshold, any sequence of calls (whatever each function does: return,
    raise, or be cancelled) gives exactly the results of the abstract
    machine, calls the protected function exactly when the abstract machine
    does, and ends in the corresponding state. *)
Lemma breaker_refines_spec {A} (th rt : Z) (rs : list (request A)) :
  0 < th ->
  spec_calls th rt (SClosed 0) rs
  = let '(out, b) := run_calls (init_breaker th rt) rs in (out, absr b).
Proof.
  intros Hth.
  assert (Hgen : forall b, breaker_wf b -> failure_threshold b = th ->
    recovery_timeout_secs b = rt ->
    spec_calls th rt (absr b) rs = let '(out, b') := run_calls b rs in (out, absr b')).
  { induction rs as [|[[f t0] t1] rs IH]; intros b Hwf <- <-; simpl; [done|].
    rewrite (call_refines_spec b f t0 t1) by done.
    pose proof (call_wf b f t0 t1 Hwf) as Hwf'.
    destruct (call_params b f t0 t1) as [Hp1 Hp2].
    destruct (call b f t0 t1) as [[r c] b'] eqn:E; simpl in *.
    rewrite (IH b') by done. by destruct (run_calls b' rs). }
  rewrite <- (Hgen (init_breaker th rt)); [done| |done|done].
  unfold breaker_wf; simpl. repeat split; lia.
Qed.

Lemma breaker_refines_spec_witness :
  spec_calls 2 1 (SClosed 0) [(@FException Z, 0, 5); (FException, 6, 9); (FReturn 7, 10, 11);
                              (FReturn 7, 1000009, 1000010)]
  = ([(Err FnRaised, true); (Err FnRaised, true); (Err Rejected, false); (Ok 7, true)],
     SClosed 0).
Proof. rewrite (breaker_refines_spec 2 1) by lia. reflexivity. Defined.

(** Under any interleaving of threads (enters, completions of stale or
    current calls in any phase, resets) the invariant of the breaker holds:
    a closed breaker is below its threshold, an open one has its timer, a
    half-open one has exactly the one probe flag set. *)
Lemma breaker_invariant (th rt : Z) (acts : list action) :
  0 < th -> breaker_wf (fold_left act acts (init_breaker th rt)).
Proof.
  intros Hth. assert (Hi : breaker_wf (init_breaker th rt)).
  { unfold breaker_wf; simpl. repeat split; lia. }
  revert Hi. generalize (init_breaker th rt).
  induction acts as [|a acts IH]; simpl; intros b Hb; [done|]. apply IH. by apply act_wf.
Qed.

Lemma breaker_invariant_witness :
  0 < 2 /\ breaker_wf (fold_left act
    [AEnter 0; AEnter 1; AFailure PhClosed 2; AFailure PhClosed 3; AEnter 70000000;
     ASuccess PhClosed 70000001] (init_breaker 2 60)).
Proof. split; [lia|]. apply breaker_invariant. lia. Defined.

(** A half-open breaker whose probe never completes rejects every later
    call, at any time and however long after: entering can only observe the
    probe in flight. Since [call] and [async_call] record an outcome only for
    [Exception], a cancelled probe ([asyncio.CancelledError] is a
    [BaseException]) leaves the breaker in this state, and no amount of
    waiting re-admits a probe. *)
Lemma cancelled_probe_wedges {A B} (b : breaker) (t0 t1 : Z) (rs : list (request B)) :
  breaker_wf b -> b_state b = OPEN ->
  recovery_timeout_secs b * usec <= t0 - default 0 (opened_at b) ->
  let '(r, called, b') := call b (@FBaseException A) t0 t1 in
  called = true /\ b_state b' = HALF_OPEN /\
  run_calls b' rs = (map (fun _ => (Err Rejected, false)) rs, b').
Proof.
  destruct b as [th rt st fc oa fl]. unfold breaker_wf. simpl. intros [Hth H] -> Ht.
  destruct H as (Ho & -> & Hfc). destruct oa as [t|]; [|done]. simpl in *.
  apply Z.leb_le in Ht. unfold call, enter_call; simpl. rewrite Ht. repeat split.
  induction rs as [|[[f u0] u1] rs IH]; simpl; [done|].
  by rewrite IH.
Qed.

Definition tripped : breaker := Breaker 3 60 OPEN 3 (Some 0) false.

Lemma cancelled_probe_wedges_witness :
  run_calls (call tripped (@FBaseException Z) 60000000 60000001).2
    [(FReturn 1, 1000000000000, 1000000000001)]
  = ([(Err Rejected, false)], (call tripped (@FBaseException Z) 60000000 60000001).2).
Proof.
  assert (Hwf : breaker_wf tripped) by (split; [|split; [|split]]; simpl; done || lia).
  destruct (cancelled_probe_wedges (A := Z) tripped 60000000 60000001
    [(FReturn 1, 1000000000000, 1000000000001)] Hwf eq_refl) as (_ & _ & E).
  - unfold usec; simpl. lia.
  - exact E.
Defined.
