(* ===== verification/Scheduler.v ===== *)
(** * The scheduler's ready queues (src/AINDY/kernel/scheduler/core.py, dispatch.py, common.py)

    [sched] is the state of a [SchedulerEngine]: three priority queues
    (deques, head first), the per-priority round-robin cursor, the in-memory
    waits, the counters, the rehydration flag and the pre-rehydration buffer.
    Each operation is one lock-protected section of the code. Resume
    callbacks are values of an arbitrary type [CB]: the scheduler only stores
    them and hands them to the dispatcher.

    The dispatcher and the resource manager are reached through the interface
    [DispatchEnv]: [schedule] is verified against any implementation of it. *)

From S2P Require Import Prelude.

(** ** Data (common.py) *)

Inductive prio := High | Normal | Low.

#[global] Instance prio_eq_dec : EqDecision prio.
Proof. solve_decision. Defined.

Definition PRIORITY_HIGH : string := "high".
Definition PRIORITY_NORMAL : string := "normal".
Definition PRIORITY_LOW : string := "low".
Definition PRIORITY_ORDER : list prio := [High; Normal; Low].
Definition MAX_PER_SCHEDULE_CYCLE : nat := 10.

(** The check of [ScheduledItem.__post_init__]: a priority string outside
    [PRIORITY_ORDER] raises [ValueError]. *)
Definition parse_priority (s : string) : option prio :=
  if decide (s = PRIORITY_HIGH) then Some High
  else if decide (s = PRIORITY_NORMAL) then Some Normal
  else if decide (s = PRIORITY_LOW) then Some Low
  else None.

(** Python's [a or b] on optional strings: [None] and the empty string are
    false. *)
Definition truthy (o : option string) : option string :=
  match o with
  | Some s => if decide (s = "") then None else Some s
  | None => None
  end.

Definition str_or (o : option string) (d : string) : string := default d (truthy o).

Definition correlation_admits (wait_correlation emit_correlation : option string)
    (run_scoped : bool) : bool :=
  if run_scoped then true
  else match truthy wait_correlation, truthy emit_correlation with
       | Some w, Some e => bool_decide (w = e)
       | _, _ => true
       end.

Inductive sched_error := ValueError.

Section Scheduler.
Context {CB : Type}.

Record ScheduledItem := Item {
  execution_unit_id : string;
  tenant_id : string;
  priority : prio;
  run_callback : CB;
  run_id : option string;
  eu_type : string;
  enqueued_at_seq : Z;
  enqueued_at_monotonic : Z;
  retry_count : Z;
  max_retries : Z
}.

(** The wait-condition dict of an entry. [trigger_at] may be absent, a
    datetime (as UTC microseconds, naive ones read as UTC), a string, or a
    value of another type. *)
Inductive trigger := TrNone | TrTime (t : Z) | TrString (s : string) | TrOther.

Record wait_cond := WaitCond {
  wc_type : option string;
  wc_event_name : option string;
  wc_trigger_at : trigger
}.

Record wait_entry := WaitEntry {
  wait_for : option string;
  we_tenant_id : string;
  we_eu_id : string;
  we_callback : CB;
  we_priority : string;
  we_correlation_id : option string;
  we_trace_id : option string;
  we_eu_type : string;
  we_condition : option wait_cond
}.

Record sched := Sched {
  q_high : list ScheduledItem;
  q_normal : list ScheduledItem;
  q_low : list ScheduledItem;
  c_high : option string;
  c_normal : option string;
  c_low : option string;
  waiting : list (string * wait_entry);
  seq : Z;
  total_enqueued : Z;
  total_dispatched : Z;
  total_dropped : Z;
  last_stale_wait_check : Z;
  rehydration_complete : bool;
  pre_rehydration_buffer : list (string * option string * option string)
}.

Definition init_sched : sched :=
  Sched [] [] [] None None None [] 0 0 0 0 0 false [].

Definition queue (s : sched) (p : prio) : list ScheduledItem :=
  match p with High => q_high s | Normal => q_normal s | Low => q_low s end.

Definition rr_cursor (s : sched) (p : prio) : option string :=
  match p with High => c_high s | Normal => c_normal s | Low => c_low s end.

(** Field updates. *)
Definition set_queue (s : sched) (p : prio) (q : list ScheduledItem) : sched :=
  Sched (if decide (p = High) then q else q_high s)
        (if decide (p = Normal) then q else q_normal s)
        (if decide (p = Low) then q else q_low s)
        (c_high s) (c_normal s) (c_low s) (waiting s) (seq s) (total_enqueued s)
        (total_dispatched s) (total_dropped s) (last_stale_wait_check s)
        (rehydration_complete s) (pre_rehydration_buffer s).

Definition set_cursor (s : sched) (p : prio) (t : option string) : sched :=
  Sched (q_high s) (q_normal s) (q_low s)
        (if decide (p = High) then t else c_high s)
        (if decide (p = Normal) then t else c_normal s)
        (if decide (p = Low) then t else c_low s)
        (waiting s) (seq s) (total_enqueued s)
        (total_dispatched s) (total_dropped s) (last_stale_wait_check s)
        (rehydration_complete s) (pre_rehydration_buffer s).

Definition set_counters (s : sched) (sq enq disp drop : Z) : sched :=
  Sched (q_high s) (q_normal s) (q_low s) (c_high s) (c_normal s) (c_low s) (waiting s)
        sq enq disp drop (last_stale_wait_check s)
        (rehydration_complete s) (pre_rehydration_buffer s).

Definition set_waiting (s : sched) (w : list (string * wait_entry)) : sched :=
  Sched (q_high s) (q_normal s) (q_low s) (c_high s) (c_normal s) (c_low s) w
        (seq s) (total_enqueued s) (total_dispatched s) (total_dropped s)
        (last_stale_wait_check s) (rehydration_complete s) (pre_rehydration_buffer s).

Definition set_buffer (s : sched) (r : bool) (b : list (string * option string * option string))
    : sched :=
  Sched (q_high s) (q_normal s) (q_low s) (c_high s) (c_normal s) (c_low s) (waiting s)
        (seq s) (total_enqueued s) (total_dispatched s) (total_dropped s)
        (last_stale_wait_check s) r b.

Definition depth (s : sched) : nat :=
  length (q_high s) + length (q_normal s) + length (q_low s).

(** ** Operations (core.py) *)

(** [ScheduledItem(...)]: [env_retries] is [AINDY_SCHEDULER_MAX_DISPATCH_RETRIES]
    (2 when unset), substituted when the field is left at its default 2. *)
Definition new_item (env_retries : Z) (eu tenant prio_s : string) (cb : CB)
    (rid : option string) (ty : string) : result sched_error ScheduledItem :=
  match parse_priority prio_s with
  | Some p => Ok (Item eu tenant p cb rid ty 0 0 0 env_retries)
  | None => Err ValueError
  end.

Definition enqueue (now : Z) (s : sched) (it : ScheduledItem) : sched :=
  let sq := seq s + 1 in
  let it' := Item (execution_unit_id it) (tenant_id it) (priority it) (run_callback it)
                  (run_id it) (eu_type it) sq now (retry_count it) (max_retries it) in
  set_counters (set_queue s (priority it) (queue s (priority it) ++ [it']))
    sq (total_enqueued s + 1) (total_dispatched s) (total_dropped s).

(** The head of a deque after the fairness rotation of [dequeue_next]. *)
Definition rr_pop (last_tenant : option string) (q : list ScheduledItem)
    : option (ScheduledItem * list ScheduledItem) :=
  match q with
  | [] => None
  | it :: q' =>
      match q', last_tenant with
      | it2 :: q'', Some t =>
          if decide (tenant_id it = t) then Some (it2, q'' ++ [it]) else Some (it, q')
      | _, _ => Some (it, q')
      end
  end.

Definition dequeue_from (s : sched) (p : prio) : option (ScheduledItem * sched) :=
  match rr_pop (rr_cursor s p) (queue s p) with
  | None => None
  | Some (it, q) =>
      let s1 := set_cursor (set_queue s p q) p (Some (tenant_id it)) in
      Some (it, set_counters s1 (seq s) (total_enqueued s) (total_dispatched s + 1)
                             (total_dropped s))
  end.

Fixpoint dequeue_first (s : sched) (ps : list prio) : option (ScheduledItem * sched) :=
  match ps with
  | [] => None
  | p :: ps' =>
      match dequeue_from s p with Some r => Some r | None => dequeue_first s ps' end
  end.

Definition dequeue_next (s : sched) : option (ScheduledItem * sched) :=
  dequeue_first s PRIORITY_ORDER.

(** [queue_depth] and [stats]. *)
Definition queue_depth (s : sched) : list (prio * nat) :=
  map (fun p => (p, length (queue s p))) PRIORITY_ORDER.

Definition stats (s : sched) : list (prio * nat) * nat * Z * Z * Z :=
  (queue_depth s, length (waiting s), total_enqueued s, total_dispatched s, total_dropped s).

(** ** The schedule loop (dispatch.py) *)

(** The part of [schedule] that puts an item back at the head of its queue. *)
Definition put_back (s : sched) (it : ScheduledItem) : sched :=
  set_counters (set_queue s (priority it) (it :: queue s (priority it)))
    (seq s) (total_enqueued s) (total_dispatched s - 1) (total_dropped s).

Definition count_drop (s : sched) : sched :=
  set_counters s (seq s) (total_enqueued s) (total_dispatched s) (total_dropped s + 1).

Definition retry_item (it : ScheduledItem) : ScheduledItem :=
  Item (execution_unit_id it) (tenant_id it) Low (run_callback it) (run_id it) (eu_type it)
       (enqueued_at_seq it) (enqueued_at_monotonic it) (retry_count it + 1) (max_retries it).

End Scheduler.

Arguments ScheduledItem CB : clear implicits.
Arguments wait_entry CB : clear implicits.
Arguments sched CB : clear implicits.

(** ** What schedule asks of the rest of the system

    A dispatch may run the callback inline, and the callback may enqueue
    items and register or wake waits. It reaches the scheduler only through
    the scheduler's operations: [sched_op] is one such operation as seen from
    the queues (an enqueue, or a change of the waits and the buffer). *)

Inductive sched_op {CB} : sched CB -> sched CB -> Prop :=
| op_enqueue now s it : sched_op s (enqueue now s it)
| op_waits s w r b : sched_op s (set_buffer (set_waiting s w) r b).

(** The interface of [schedule]: [can_execute] is the resource manager's
    admission answer for a tenant and execution unit, [dispatch] the
    execution dispatcher ([false]: it raised). *)
Class DispatchEnv (CB E : Type) := {
  can_execute : E -> string -> string -> bool;
  dispatch : E -> sched CB -> ScheduledItem CB -> E * sched CB * bool;
  dispatch_evolves : forall e s it, rtc sched_op s (dispatch e s it).1.2
}.

Section Schedule.
Context {CB E : Type} `{!DispatchEnv CB E}.

(** Loop state of [schedule]: environment, scheduler, saturated tenants,
    retry list, [processed], [saturated_skips], [dispatched]. *)
Record loop_state := Loop {
  l_env : E;
  l_sched : sched CB;
  l_saturated : list string;
  l_retry : list (ScheduledItem CB);
  l_processed : nat;
  l_skips : nat;
  l_dispatched : nat
}.

(** One iteration of the [while] body; [inr] is a [break]. *)
Definition loop_body (l : loop_state) : loop_state + loop_state :=
  match dequeue_next (l_sched l) with
  | None => inr l
  | Some (it, s1) =>
      if decide (tenant_id it ∈ l_saturated l) then
        let s2 := put_back s1 it in
        let l' := Loop (l_env l) s2 (l_saturated l) (l_retry l) (l_processed l)
                       (S (l_skips l)) (l_dispatched l) in
        if decide (depth s2 <= S (l_skips l))%nat then inr l' else inl l'
      else if can_execute (l_env l) (tenant_id it) (execution_unit_id it) then
        let '(e', s2, ok) := dispatch (l_env l) s1 it in
        if ok then
          inl (Loop e' s2 (l_saturated l) (l_retry l) (S (l_processed l)) 0
                    (S (l_dispatched l)))
        else if retry_count it <? max_retries it then
          inl (Loop e' s2 (l_saturated l) (l_retry l ++ [retry_item it])
                    (S (l_processed l)) 0 (l_dispatched l))
        else
          inl (Loop e' (count_drop s2) (l_saturated l) (l_retry l)
                    (S (l_processed l)) 0 (l_dispatched l))
      else
        inl (Loop (l_env l) (put_back s1 it) (tenant_id it :: l_saturated l) (l_retry l)
                  (S (l_processed l)) 0 (l_dispatched l))
  end.

Fixpoint schedule_loop (fuel : nat) (l : loop_state) : option loop_state :=
  if decide (l_processed l < MAX_PER_SCHEDULE_CYCLE)%nat then
    match fuel with
    | O => None
    | S f => match loop_body l with
             | inl l' => schedule_loop f l'
             | inr l' => Some l'
             end
    end
  else Some l.

(** [schedule(tick_waits=False)]: drain, then re-enqueue the retries. Returns
    the number of dispatched items. *)
Definition schedule (fuel : nat) (now : Z) (e : E) (s : sched CB)
    : option (nat * E * sched CB) :=
  match schedule_loop fuel (Loop e s [] [] 0 0 0) with
  | None => None
  | Some l => Some (l_dispatched l, l_env l,
                    fold_left (enqueue now) (l_retry l) (l_sched l))
  end.

(** ** Conservation *)

Definition conserved (s : sched CB) : Prop :=
  total_enqueued s = total_dispatched s + Z.of_nat (depth s).

Lemma depth_set_queue (s : sched CB) p q :
  (depth (set_queue s p q) + length (queue s p) = depth s + length q)%nat.
Proof. unfold depth, set_queue, queue; destruct p; simpl; lia. Qed.

Lemma enqueue_conserved now (s : sched CB) it : conserved s -> conserved (enqueue now s it).
Proof.
  unfold conserved, enqueue. simpl. intros H.
  match goal with |- context [set_queue s ?p ?q] => pose proof (depth_set_queue s p q) as Hd end.
  unfold depth in *. simpl in *. rewrite length_app in Hd. simpl in Hd. lia.
Qed.

Lemma rr_pop_perm c (q : list (ScheduledItem CB)) it q' :
  rr_pop c q = Some (it, q') -> q ≡ₚ it :: q'.
Proof.
  destruct q as [|a [|b q]]; simpl; [done|by intros [= <- <-]|].
  destruct c as [t|]; [case_decide|]; intros [= <- <-]; try done.
  rewrite Permutation_swap. constructor. by rewrite Permutation_cons_append.
Qed.

Lemma rr_pop_None c (q : list (ScheduledItem CB)) : rr_pop c q = None <-> q = [].
Proof. destruct q as [|a [|b q]]; simpl; [done..|]. destruct c; [case_decide|]; done. Qed.

Lemma dequeue_from_Some (s : sched CB) p it s' :
  dequeue_from s p = Some (it, s') ->
  exists q, rr_pop (rr_cursor s p) (queue s p) = Some (it, q) /\
    s' = set_counters (set_cursor (set_queue s p q) p (Some (tenant_id it)))
           (seq s) (total_enqueued s) (total_dispatched s + 1) (total_dropped s).
Proof.
  unfold dequeue_from. destruct (rr_pop _ _) as [[it' q]|] eqn:E0; [|done].
  intros [= <- <-]. by exists q.
Qed.

Lemma dequeue_first_Some ps (s : sched CB) it s' :
  dequeue_first s ps = Some (it, s') ->
  exists p, p ∈ ps /\ dequeue_from s p = Some (it, s').
Proof.
  induction ps as [|p ps IH]; simpl; [done|].
  destruct (dequeue_from s p) as [[it1 s1]|] eqn:E0.
  - intros [= <- <-]. exists p. split; [by left|done].
  - intros H. destruct (IH H) as (p' & ? & ?). exists p'. split; [by right|done].
Qed.

Lemma dequeue_depth (s : sched CB) it s' :
  dequeue_next s = Some (it, s') -> depth s = S (depth s').
Proof.
  intros H. apply dequeue_first_Some in H as (p & _ & H).
  apply dequeue_from_Some in H as (q & Hq & ->). apply rr_pop_perm in Hq.
  apply Permutation_length in Hq. pose proof (depth_set_queue s p q) as Hd.
  unfold depth in *. simpl in *. lia.
Qed.

Lemma dequeue_conserved (s : sched CB) it s' :
  dequeue_next s = Some (it, s') -> conserved s -> conserved s'.
Proof.
  intros H Hc. pose proof (dequeue_depth _ _ _ H) as Hd. unfold conserved in *.
  apply dequeue_first_Some in H as (p & _ & H).
  apply dequeue_from_Some in H as (q & _ & ->). simpl in *. lia.
Qed.

Lemma put_back_depth (s : sched CB) it : depth (put_back s it) = S (depth s).
Proof. unfold depth, put_back, set_queue, queue; destruct (priority it); simpl; lia. Qed.

Lemma put_back_conserved (s : sched CB) it : conserved s -> conserved (put_back s it).
Proof. unfold conserved. rewrite put_back_depth. simpl. lia. Qed.

Lemma sched_op_conserved (s s' : sched CB) : sched_op s s' -> conserved s -> conserved s'.
Proof. intros []; [apply enqueue_conserved|done]. Qed.

Lemma sched_ops_conserved (s s' : sched CB) : rtc sched_op s s' -> conserved s -> conserved s'.
Proof. induction 1; eauto using sched_op_conserved. Qed.

#[local] Hint Resolve enqueue_conserved put_back_conserved dequeue_conserved : py.

Lemma dispatch_conserved e (s : sched CB) it : conserved s -> conserved (dispatch e s it).1.2.
Proof. apply sched_ops_conserved, dispatch_evolves. Qed.

Lemma loop_body_conserved l l' :
  loop_body l = inl l' \/ loop_body l = inr l' ->
  conserved (l_sched l) -> conserved (l_sched l').
Proof.
  unfold loop_body. destruct (dequeue_next (l_sched l)) as [[it s1]|] eqn:Hd.
  2: { by intros [[=]|[= <-]]. }
  intros Hb Hc. pose proof (dequeue_conserved _ _ _ Hd Hc) as Hc1.
  case_decide.
  { case_decide; destruct Hb as [[=]|[=]]; subst; simpl; auto with py. }
  destruct (can_execute _ _ _); [|destruct Hb as [[=]|[=]]; subst; simpl; auto with py].
  pose proof (dispatch_conserved (l_env l) s1 it Hc1) as Hc2.
  destruct (dispatch _ _ _) as [[e' s2] []]; simpl in *;
    [|destruct (_ <? _)]; destruct Hb as [[=]|[=]]; subst; done.
Qed.

Lemma schedule_loop_conserved fuel l l' :
  schedule_loop fuel l = Some l' -> conserved (l_sched l) -> conserved (l_sched l').
Proof.
  revert l. induction fuel as [|f IH]; simpl; intros l.
  - case_decide; [done|by intros [= <-]].
  - case_decide; [|by intros [= <-]].
    destruct (loop_body l) as [l1|l1] eqn:Hb.
    + intros Hl Hc. eapply IH; [exact Hl|]. eapply loop_body_conserved; eauto.
    + intros [= <-]. eapply loop_body_conserved; eauto.
Qed.

Lemma fold_enqueue_conserved now its (s : sched CB) :
  conserved s -> conserved (fold_left (enqueue now) its s).
Proof. revert s. induction its; simpl; auto with py. Qed.

(** ** Termination *)

Lemma loop_body_measure l l' :
  loop_body l = inl l' ->
  (l_processed l' = S (l_processed l)) \/
  (l_processed l' = l_processed l /\ l_skips l' = S (l_skips l) /\
   depth (l_sched l') = depth (l_sched l) /\ l_skips l' < depth (l_sched l'))%nat.
Proof.
  unfold loop_body. destruct (dequeue_next (l_sched l)) as [[it s1]|] eqn:Hd; [|done].
  apply dequeue_depth in Hd. case_decide as Hsat.
  { pose proof (put_back_depth s1 it) as Hp. case_decide; intros [= <-]; simpl. right. lia. }
  destruct (can_execute _ _ _); [|intros [= <-]; by left].
  destruct (dispatch _ _ _) as [[e' s2] []]; [|destruct (_ <? _)]; intros [= <-]; by left.
Qed.

Lemma schedule_loop_terminates l : exists fuel l', schedule_loop fuel l = Some l'.
Proof.
  remember (MAX_PER_SCHEDULE_CYCLE - l_processed l)%nat as n eqn:Hn.
  remember (depth (l_sched l) - l_skips l)%nat as m eqn:Hm.
  revert l m Hn Hm. induction n as [n IHn] using lt_wf_ind; intros l m.
  revert l. induction m as [m IHm] using lt_wf_ind; intros l Hn Hm.
  destruct (decide (l_processed l < MAX_PER_SCHEDULE_CYCLE)%nat) as [Hlt|Hge].
  2: { exists 0%nat, l. simpl. by rewrite decide_False. }
  destruct (loop_body l) as [l1|l1] eqn:Hb.
  2: { exists 1%nat, l1. simpl. rewrite decide_True by done. by rewrite Hb. }
  assert (exists fuel l', schedule_loop fuel l1 = Some l') as (fuel & l' & Hl').
  { destruct (loop_body_measure _ _ Hb) as [Hp|(Hp & Hs & Hd & Hk)].
    - eapply (IHn (MAX_PER_SCHEDULE_CYCLE - l_processed l1)%nat); [lia|done..].
    - eapply (IHm (depth (l_sched l1) - l_skips l1)%nat); lia. }
  exists (S fuel), l'. simpl. rewrite decide_True by done. by rewrite Hb.
Qed.

Lemma schedule_loop_dispatched fuel l l' :
  schedule_loop fuel l = Some l' -> (l_dispatched l <= l_processed l)%nat ->
  (l_processed l <= MAX_PER_SCHEDULE_CYCLE)%nat ->
  (l_dispatched l' <= MAX_PER_SCHEDULE_CYCLE)%nat.
Proof.
  revert l. induction fuel as [|f IH]; simpl; intros l; case_decide as Hlt; try done;
    try (intros [= <-]; lia).
  destruct (loop_body l) as [l1|l1] eqn:Hb.
  - intros Hl Hdp Hp. apply (IH l1 Hl).
    + revert Hb. unfold loop_body. destruct (dequeue_next _) as [[it s1]|]; [|done].
      case_decide; [case_decide; intros [= <-]; simpl; lia|].
      destruct (can_execute _ _ _); [|intros [= <-]; simpl; lia].
      destruct (dispatch _ _ _) as [[e' s2] []]; [|destruct (_ <? _)];
        intros [= <-]; simpl; lia.
    + destruct (loop_body_measure _ _ Hb); lia.
  - intros [= <-] Hdp Hp. revert Hb. unfold loop_body.
    destruct (dequeue_next _) as [[it s1]|]; [|intros [= <-]; lia].
    case_decide; [case_decide; intros [= <-]; simpl; lia|].
    destruct (can_execute _ _ _); [|done].
    destruct (dispatch _ _ _) as [[e' s2] []]; [|destruct (_ <? _)]; done.
Qed.

(** The result does not depend on the fuel that suffices. *)
Lemma schedule_loop_fuel f f' (l r : loop_state) :
  (f <= f')%nat -> schedule_loop f l = Some r -> schedule_loop f' l = Some r.
Proof.
  revert f' l. induction f as [|f IH]; intros [|f'] l Hf; simpl; case_decide; try done; try lia.
  destruct (loop_body l) as [l1|l1]; [|done]. apply IH. lia.
Qed.

Lemma schedule_fuel f f' now (e : E) (s : sched CB) r :
  (f <= f')%nat -> schedule f now e s = Some r -> schedule f' now e s = Some r.
Proof.
  intros Hf. unfold schedule. destruct (schedule_loop f _) as [l|] eqn:Hl; [|done].
  by rewrite (schedule_loop_fuel _ _ _ _ Hf Hl).
Qed.

(** [schedule] always returns: whatever the admission answers, the
    dispatch outcomes and the items callbacks enqueue while they run, some
    number of loop iterations suffices, and a cycle dispatches at most
    [MAX_PER_SCHEDULE_CYCLE] items. *)
Lemma schedule_terminates now (e : E) (s : sched CB) :
  exists fuel n e' s', schedule fuel now e s = Some (n, e', s')
    /\ (n <= MAX_PER_SCHEDULE_CYCLE)%nat.
Proof.
  destruct (schedule_loop_terminates (Loop e s [] [] 0 0 0)) as (fuel & l' & Hl).
  exists fuel, (l_dispatched l'), (l_env l'), (fold_left (enqueue now) (l_retry l') (l_sched l')).
  unfold schedule. rewrite Hl. split; [done|].
  eapply schedule_loop_dispatched; [exact Hl|simpl; lia..].
Qed.

(** Every item is accounted for: after any completed [schedule] cycle
    (deferrals, failed dispatches and retries included) the number of items
    ever enqueued is the number handed out plus the number still queued. *)
Lemma schedule_conserves fuel now (e : E) (s : sched CB) n e' s' :
  conserved s -> schedule fuel now e s = Some (n, e', s') -> conserved s'.
Proof.
  unfold schedule. intros Hc. destruct (schedule_loop _ _) as [l|] eqn:Hl; [|done].
  intros [= <- <- <-]. apply fold_enqueue_conserved.
  eapply schedule_loop_conserved; eauto.
Qed.
End Schedule.

(** A dispatcher that hands the callback to a worker thread: the scheduler
    state is not touched by the dispatch itself. The environment lists the
    tenants over quota and the execution units whose dispatch raises. *)
Record async_env := AsyncEnv { over_quota : list string; failing_units : list string }.

#[global, program] Instance async_dispatch_env {CB} : DispatchEnv CB async_env := {|
  can_execute e t _ := bool_decide (t ∉ over_quota e);
  dispatch e s it := (e, s, bool_decide (execution_unit_id it ∉ failing_units e))
|}.
Next Obligation. intros. apply rtc_refl. Qed.

Definition demo_item (eu tenant : string) (p : prio) : ScheduledItem Z :=
  Item eu tenant p 0 (Some eu) "flow" 0 0 0 2.

Definition demo_sched : sched Z :=
  fold_left (enqueue 7) [demo_item "e1" "A" High; demo_item "e2" "A" High;
                         demo_item "e3" "B" Normal; demo_item "e4" "C" Low] init_sched.

Example demo_cycle_conserves :
  match schedule 20 9 (AsyncEnv [] ["e3"]) demo_sched with
  | Some (n, _, s') => n = 3%nat /\ depth s' = 1%nat /\ conserved s'
  | None => False
  end.
Proof.
  assert (Hc : conserved demo_sched) by (vm_compute; reflexivity).
  destruct (schedule 20 9 (AsyncEnv [] ["e3"]) demo_sched) as [[[n e'] s']|] eqn:E.
  - split; [|split; [|exact (schedule_conserves _ _ _ _ _ _ _ Hc E)]];
      vm_compute in E; injection E as <- <- <-; reflexivity.
  - vm_compute in E. discriminate.
Qed.

(** ** Fairness of dequeue_next *)

Section Fairness.
Context {CB : Type}.

(** The priorities served before [p]. *)
Definition above (p : prio) : list prio :=
  match p with High => [] | Normal => [High] | Low => [High; Normal] end.

Definition above_empty (s : sched CB) (p : prio) : Prop :=
  forall p', p' ∈ above p -> queue s p' = [].

Lemma dequeue_next_at (s : sched CB) p :
  above_empty s p -> queue s p <> [] -> dequeue_next s = dequeue_from s p.
Proof.
  intros Ha Hq. unfold dequeue_next, PRIORITY_ORDER. simpl.
  assert (Hsome : exists r, dequeue_from s p = Some r).
  { unfold dequeue_from. destruct (rr_pop _ _) as [[it q]|] eqn:Hr; [eauto|].
    by apply rr_pop_None in Hr. }
  assert (Hnone : forall p', p' ∈ above p -> dequeue_from s p' = None).
  { intros p' Hp'. unfold dequeue_from. by rewrite (Ha p' Hp'). }
  destruct Hsome as [r Hr]. destruct p; simpl in *.
  - by rewrite Hr.
  - rewrite (Hnone High) by (by left). by rewrite Hr.
  - rewrite (Hnone High), (Hnone Normal) by set_solver. by rewrite Hr.
Qed.

(** Traffic at the scheduler: a dequeue, or an arrival. *)
Inductive traffic := TDequeue | TArrive (now : Z) (it : ScheduledItem CB).

Fixpoint serve (s : sched CB) (ts : list traffic) : list (ScheduledItem CB) :=
  match ts with
  | [] => []
  | TDequeue :: ts' =>
      match dequeue_next s with
      | Some (it, s') => it :: serve s' ts'
      | None => serve s ts'
      end
  | TArrive now it :: ts' => serve (enqueue now s it) ts'
  end.

Fixpoint dequeues (ts : list traffic) : nat :=
  match ts with
  | [] => 0
  | TDequeue :: ts' => S (dequeues ts')
  | TArrive _ _ :: ts' => dequeues ts'
  end.

Definition arrivals_ok (p : prio) (ts : list traffic) : Prop :=
  forall now it, TArrive now it ∈ ts -> priority it ∉ above p.

Lemma queue_set_queue (s : sched CB) p q p' :
  queue (set_queue s p q) p' = if decide (p = p') then q else queue s p'.
Proof. destruct p, p'; reflexivity. Qed.

Lemma queue_enqueue now (s : sched CB) it p :
  queue s p `prefix_of` queue (enqueue now s it) p /\
  (priority it <> p -> queue (enqueue now s it) p = queue s p).
Proof.
  unfold enqueue. cbv zeta.
  assert (Hc : forall (s' : sched CB) a b c d, queue (set_counters s' a b c d) p = queue s' p)
    by (intros; by destruct p).
  rewrite Hc, queue_set_queue. case_decide; subst; [|split; [reflexivity|done]].
  split; [by eexists|done].
Qed.

Lemma rr_pop_advance (B : string) c (q : list (ScheduledItem CB)) i it0 it q' :
  c <> Some B -> q !! i = Some it0 -> tenant_id it0 = B -> rr_pop c q = Some (it, q') ->
  tenant_id it = B \/
  exists j it1, (j < i)%nat /\ q' !! j = Some it1 /\ tenant_id it1 = B.
Proof.
  intros Hc Hi HB. destruct q as [|a [|b q]]; simpl; [done| |].
  - intros [= <- <-]. left. destruct i; by simplify_eq/=.
  - intros Hp. assert (Hno : it = a /\ q' = b :: q \/
      (c = Some (tenant_id a) /\ it = b /\ q' = q ++ [a])).
    { destruct c as [t|]; [case_decide|]; simplify_eq; auto. }
    destruct Hno as [[-> ->]|(-> & -> & ->)].
    + destruct i as [|i]; simplify_eq/=; [by left|right; exists i, it0]. split; [lia|done].
    + destruct i as [|[|i]]; simplify_eq/=; [by left|].
      right. exists i, it0. split; [lia|]. split; [|done].
      apply lookup_app_l_Some. done.
Qed.

(** No tenant starves another within a priority level: if tenant [B] has
    an item at position [i] of the highest non-empty queue and was not the
    last one served there, then among the next [i+1] dequeues one serves
    [B], whatever arrives meanwhile at this priority or below. *)
Lemma tenant_served_within_position (s : sched CB) (B : string) (p : prio)
    (i : nat) (it0 : ScheduledItem CB) (ts : list traffic) :
  above_empty s p -> arrivals_ok p ts -> rr_cursor s p <> Some B ->
  queue s p !! i = Some it0 -> tenant_id it0 = B -> (i < dequeues ts)%nat ->
  exists it, it ∈ serve s ts /\ tenant_id it = B.
Proof.
  revert s i it0. induction ts as [|[|now a] ts IH]; intros s i it0 Ha Har Hc Hi HB Hd; simpl in *; [lia| |].
  - assert (Hq : queue s p <> []) by (intros E; by rewrite E in Hi).
    rewrite (dequeue_next_at s p Ha Hq).
    destruct (dequeue_from s p) as [[it s']|] eqn:Hdq.
    2: { unfold dequeue_from in Hdq. destruct (rr_pop _ _) as [[]|] eqn:Hr; [done|].
         by apply rr_pop_None in Hr. }
    apply dequeue_from_Some in Hdq as (q' & Hr & ->).
    destruct (decide (tenant_id it = B)) as [HB'|HB']; [exists it; split; [by left|done]|].
    destruct (rr_pop_advance B _ _ i it0 it q' Hc Hi HB Hr) as [?|(j & it1 & Hj & Hl & Ht)]; [done|].
    edestruct (IH (set_counters (set_cursor (set_queue s p q') p (Some (tenant_id it)))
       (seq s) (total_enqueued s) (total_dispatched s + 1) (total_dropped s)) j it1)
      as (it' & Hin & HB''); [| | | |exact Ht|lia|].
    + intros p' Hp'. specialize (Ha p' Hp').
      destruct p, p'; simpl in *; try done; set_solver.
    + intros now it2 Hin. apply (Har now). by right.
    + destruct p; simpl; congruence.
    + destruct p; simpl in *; done.
    + exists it'. split; [by right|done].
  - assert (Hpa : priority a ∉ above p) by (apply (Har now); by left).
    destruct (queue_enqueue now s a p) as [[k Hk] _].
    eapply (IH (enqueue now s a) i it0); try done.
    + intros p' Hp'. destruct (queue_enqueue now s a p') as [_ E].
      rewrite E; [by apply Ha|]. intros Heq. by subst p'.
    + intros now' it2 Hin. apply (Har now'). by right.
    + rewrite Hk. by apply lookup_app_l_Some.
Qed.
End Fairness.

Definition busy_sched : sched Z :=
  fold_left (enqueue 7) [demo_item "e1" "A" High; demo_item "e2" "A" High;
                         demo_item "e3" "A" High; demo_item "e4" "B" High] init_sched.

Lemma tenant_served_witness :
  exists it, it ∈ serve busy_sched [TDequeue; TArrive 8 (demo_item "e5" "A" High); TDequeue;
                                    TDequeue; TDequeue] /\ tenant_id it = "B".
Proof.
  apply (tenant_served_within_position busy_sched "B" High 3
           (Item "e4" "B" High 0 (Some "e4") "flow" 4 7 0 2)).
  - intros p' Hp'. by apply not_elem_of_nil in Hp'.
  - intros now it _. simpl. apply not_elem_of_nil.
  - vm_compute. discriminate.
  - vm_compute. reflexivity.
  - vm_compute. reflexivity.
  - simpl. lia.
Defined.

(** ** Admission refusals *)

Section Saturation.
Context {CB E : Type} `{!DispatchEnv CB E}.

(** The state of the loop while only items of a refused tenant are at the
    top priority: nothing has been dispatched and the lower queues are those
    of the start. *)
Definition blocked (A : string) (e : E) (s0 : sched CB) (l : loop_state) : Prop :=
  l_env l = e /\ l_retry l = [] /\ l_dispatched l = 0%nat /\
  q_high (l_sched l) ≡ₚ q_high s0 /\
  q_normal (l_sched l) = q_normal s0 /\ q_low (l_sched l) = q_low s0.

Lemma dequeue_high_put_back (A : string) (s0 s s1 : sched CB) it :
  Forall (fun x => tenant_id x = A /\ priority x = High) (q_high s0) -> q_high s0 <> [] ->
  q_high s ≡ₚ q_high s0 -> dequeue_next s = Some (it, s1) ->
  tenant_id it = A /\
  q_high (put_back s1 it) ≡ₚ q_high s0 /\
  q_normal (put_back s1 it) = q_normal s /\ q_low (put_back s1 it) = q_low s.
Proof.
  intros Hall Hne Hp Hd.
  rewrite (dequeue_next_at s High) in Hd.
  2: { intros p' Hp'. set_solver. }
  2: { simpl. intros E0. rewrite E0 in Hp. by apply Permutation_nil_l in Hp. }
  apply dequeue_from_Some in Hd as (q & Hq & ->). apply rr_pop_perm in Hq. simpl in Hq.
  assert (Hit : it ∈ q_high s0) by (rewrite <- Hp, Hq; by left).
  rewrite Forall_forall in Hall. destruct (Hall it Hit) as [HA Hpr].
  split; [done|]. unfold put_back. rewrite Hpr. simpl.
  split; [by rewrite <- Hq, Hp|done].
Qed.

Lemma loop_body_blocked (A : string) (e : E) s0 l l' :
  (forall eu, can_execute e A eu = false) ->
  Forall (fun x => tenant_id x = A /\ priority x = High) (q_high s0) -> q_high s0 <> [] ->
  blocked A e s0 l -> loop_body l = inl l' \/ loop_body l = inr l' -> blocked A e s0 l'.
Proof.
  intros Hno Hall Hne (He & Hr & Hd & Hh & Hn & Hl) Hb. unfold loop_body in Hb.
  destruct (dequeue_next (l_sched l)) as [[it s1]|] eqn:Hdq.
  2: { destruct Hb as [[=]|[=]]; subst. done. }
  destruct (dequeue_high_put_back A s0 _ _ _ Hall Hne Hh Hdq) as (HA & H1 & H2 & H3).
  rewrite He, HA, Hno in Hb.
  assert (Hbl : forall sat pr sk, blocked A e s0 (Loop e (put_back s1 it) sat (l_retry l) pr sk
    (l_dispatched l))).
  { intros. unfold blocked. cbn [l_env l_retry l_dispatched l_sched].
    rewrite H2, H3. done. }
  case_decide; [case_decide|]; destruct Hb as [[=]|[=]]; subst; apply Hbl.
Qed.

(** Head-of-line blocking across priorities: while every item of the
    high queue belongs to a tenant the resource manager refuses, a cycle
    dispatches nothing at all and leaves the normal and low queues exactly
    as they were, however many runnable items of other tenants they hold. *)
Lemma refused_tenant_blocks_lower_priorities now (e : E) (s : sched CB) (A : string) :
  (forall eu, can_execute e A eu = false) ->
  q_high s <> [] -> Forall (fun x => tenant_id x = A /\ priority x = High) (q_high s) ->
  exists fuel s', schedule fuel now e s = Some (0%nat, e, s') /\
    q_high s' ≡ₚ q_high s /\ q_normal s' = q_normal s /\ q_low s' = q_low s.
Proof.
  intros Hno Hne Hall.
  destruct (schedule_loop_terminates (Loop e s [] [] 0 0 0)) as (fuel & l' & Hl).
  assert (Hb : blocked A e s (Loop e s [] [] 0 0 0)) by (unfold blocked; simpl; done).
  assert (Hb' : blocked A e s l').
  { revert Hl Hb. generalize (Loop e s [] [] 0 0 0).
    induction fuel as [|f IH]; intros l; simpl; case_decide; try done; try (by intros [= <-]).
    destruct (loop_body l) as [l1|l1] eqn:Hlb; intros Hl Hb.
    - apply (IH l1 Hl). eapply loop_body_blocked; eauto.
    - injection Hl as <-. eapply loop_body_blocked; eauto. }
  destruct Hb' as (He & Hr & Hd & Hh & Hn & Hlo).
  exists fuel, (l_sched l'). unfold schedule. by rewrite Hl, Hd, He, Hr.
Qed.
End Saturation.

Lemma refused_tenant_blocks_witness :
  exists fuel s', schedule fuel 9 (AsyncEnv ["A"] []) demo_sched
                  = Some (0%nat, AsyncEnv ["A"] [], s') /\
    q_high s' ≡ₚ q_high demo_sched /\ q_normal s' = q_normal demo_sched
    /\ q_low s' = q_low demo_sched.
Proof.
  apply (refused_tenant_blocks_lower_priorities 9 (AsyncEnv ["A"] []) demo_sched "A").
  - intros eu. reflexivity.
  - discriminate.
  - repeat constructor.
Defined.
