(* ===== verification/SchedulerWaits.v ===== *)
(** * The scheduler's waits (src/AINDY/kernel/scheduler/waits.py, cross_instance.py,
      persistence.py, recovery.py, core.py; kernel/redis_wait_registry.py, resume_spec.py)

    [node] is one engine together with the stores it shares with the other
    instances: the Redis wait registry ([None] when there is no Redis client;
    key expiry is not modelled), the [waiting_flow_runs] backup table and the
    [flow_runs] rows it refers to, the messages it published and the items it
    forwarded to the dispatcher. A store that is down makes the best-effort
    operations on it skip, as their [try/except] blocks do. Exceptions that
    the code lets escape are [Err] results, with the state as it is then. *)

From S2P Require Import Prelude Scheduler.

Definition RESUME_HANDLER_EU : string := "execution_unit.resume".

Record ResumeSpec := Spec {
  handler : string;
  rs_eu_id : string;
  rs_tenant_id : string;
  rs_run_id : string;
  rs_eu_type : option string
}.

(** A row of [waiting_flow_runs]. *)
Record wait_row := WaitRow {
  row_event_type : string;
  row_correlation_id : option string;
  row_waited_since : Z;
  row_max_wait_seconds : option Z;
  row_timeout_at : option Z;
  row_eu_id : option string;
  row_priority : string;
  row_instance_id : string
}.

Section Waits.
Context {CB : Type}.

(** Deployment settings and the code around the scheduler: the environment's
    retry budget and buffer bound; whether a woken resume is forwarded
    (distributed mode with no local drainer) and whether that dispatch
    returns normally; whether publishing on the event bus succeeds;
    [datetime.fromisoformat] (UTC microseconds); the registered resume
    callback builders. *)
Record config := Config {
  env_max_dispatch_retries : Z;
  max_pre_rehydration_buffer : nat;
  forward_resumes : bool;
  forward_ok : ScheduledItem CB -> bool;
  bus_ok : bool;
  fromisoformat : string -> option Z;
  instance_id : string;
  resume_callback_builders : list (string * (ResumeSpec -> CB))
}.

Record node := Node {
  eng : sched CB;
  redis : option (list (string * ResumeSpec));
  db_up : bool;
  wait_rows : list (string * wait_row);
  flow_runs : list (string * option Z);
  published : list (string * option string * option string);
  forwarded : list (ScheduledItem CB)
}.

Definition set_eng (n : node) (s : sched CB) : node :=
  Node s (redis n) (db_up n) (wait_rows n) (flow_runs n) (published n) (forwarded n).
Definition set_redis (n : node) (r : option (list (string * ResumeSpec))) : node :=
  Node (eng n) r (db_up n) (wait_rows n) (flow_runs n) (published n) (forwarded n).
Definition set_wait_rows (n : node) (rows : list (string * wait_row)) : node :=
  Node (eng n) (redis n) (db_up n) rows (flow_runs n) (published n) (forwarded n).
Definition add_published (n : node) (m : string * option string * option string) : node :=
  Node (eng n) (redis n) (db_up n) (wait_rows n) (flow_runs n) (published n ++ [m]) (forwarded n).
Definition add_forwarded (n : node) (it : ScheduledItem CB) : node :=
  Node (eng n) (redis n) (db_up n) (wait_rows n) (flow_runs n) (published n) (forwarded n ++ [it]).

(** ** Redis wait registry *)

Definition redis_register (n : node) (rid : string) (spec : ResumeSpec) : node :=
  match redis n with
  | Some r => set_redis n (Some (dict_set rid spec r))
  | None => n
  end.

Definition get_all_specs (n : node) : list (string * ResumeSpec) := default [] (redis n).

Definition redis_unregister (n : node) (rid : string) : node :=
  match redis n with
  | Some r => set_redis n (Some (dict_del rid r))
  | None => n
  end.

(** Delete the key; [true] when it existed: the claim of the resume. *)
Definition unregister_if_exists (n : node) (rid : string) : bool * node :=
  match redis n with
  | Some r => (dict_mem rid r, set_redis n (Some (dict_del rid r)))
  | None => (false, n)
  end.

Definition build_callback_from_spec (cfg : config) (spec : ResumeSpec) : result sched_error CB :=
  match dict_get (handler spec) (resume_callback_builders cfg) with
  | Some b => Ok (b spec)
  | None => Err ValueError
  end.

(** ** Backup rows (persistence.py) *)

Definition parse_trigger (cfg : config) (t : trigger) : option Z :=
  match t with
  | TrTime z => Some z
  | TrString s => fromisoformat cfg s
  | TrNone | TrOther => None
  end.

Definition entry_trigger (e : wait_entry CB) : trigger :=
  match we_condition e with Some wc => wc_trigger_at wc | None => TrNone end.

Definition entry_event_name (e : wait_entry CB) : option string :=
  match we_condition e with Some wc => wc_event_name wc | None => None end.

Definition entry_type (e : wait_entry CB) : option string :=
  match we_condition e with Some wc => wc_type wc | None => None end.

Definition backup_row (cfg : config) (now : Z) (deadline : option Z) (e : wait_entry CB) : wait_row :=
  let timeout_at := match parse_trigger cfg (entry_trigger e) with
                    | Some t => Some t
                    | None => deadline
                    end in
  WaitRow (str_or (entry_event_name e) (str_or (wait_for e) "__time_wait__"))
          (we_correlation_id e) now
          (match timeout_at with
           | Some t => Some (Z.max 0 (Z.quot (t - now) 1000000))
           | None => None
           end)
          timeout_at (Some (we_eu_id e))
          (str_or (Some (we_priority e)) PRIORITY_NORMAL) (instance_id cfg).

Definition persist_wait_backup (cfg : config) (now : Z) (n : node) (rid : string) : node :=
  match dict_get rid (waiting (eng n)) with
  | None => n
  | Some e =>
      if decide (we_eu_type e <> "flow") then n
      else if db_up n then
        match dict_get rid (flow_runs n) with
        | None => n
        | Some deadline => set_wait_rows n (dict_set rid (backup_row cfg now deadline e) (wait_rows n))
        end
      else n
  end.

Definition delete_wait_backup (n : node) (rid : string) : node :=
  if db_up n then set_wait_rows n (dict_del rid (wait_rows n)) else n.

Definition load_wait_entry_from_db (n : node) (rid : string) : option wait_row :=
  if db_up n then dict_get rid (wait_rows n) else None.

(** ** Resumes (core.py) *)

(** [_enqueue_resume]: building the item raises for an invalid priority; a
    forwarded item goes to the dispatcher, and back to the queue when that
    fails. *)
Definition enqueue_resume (cfg : config) (now : Z) (n : node) (rid : string) (cb : CB)
    (eu tenant prio_s ty : string) : result sched_error unit * node :=
  match new_item (env_max_dispatch_retries cfg) eu (str_or (Some tenant) "system")
          (str_or (Some prio_s) PRIORITY_NORMAL) cb (Some rid) ty with
  | Err e => (Err e, n)
  | Ok it =>
      if forward_resumes cfg && forward_ok cfg it
      then (Ok tt, add_forwarded n it)
      else (Ok tt, set_eng n (enqueue now (eng n) it))
  end.

Definition enqueue_entry (cfg : config) (now : Z) (n : node) (rid : string) (e : wait_entry CB)
    : result sched_error unit * node :=
  enqueue_resume cfg now n rid (we_callback e) (we_eu_id e) (we_tenant_id e)
                 (we_priority e) (we_eu_type e).

(** ** Registration (waits.py) *)

(** [wc]: [None] when no condition was passed; [Some d] with [d] the dict of
    the condition ([None] when it is neither a [WaitCondition] nor a dict). *)
Definition register_wait (cfg : config) (now : Z) (n : node) (rid : string)
    (event : option string) (tenant eu : string) (cb : CB) (prio_s : string)
    (corr trace : option string) (ty : string) (wc : option (option wait_cond)) : node :=
  let wc_dict := match wc with
                 | Some d => d
                 | None => Some (WaitCond (Some "event") event TrNone)
                 end in
  let e := WaitEntry event tenant eu cb prio_s corr trace ty wc_dict in
  let n1 := set_eng n (set_waiting (eng n) (dict_set rid e (waiting (eng n)))) in
  let n2 := redis_register n1 rid (Spec RESUME_HANDLER_EU eu tenant rid (Some ty)) in
  persist_wait_backup cfg now n2 rid.

(** ** Matching *)

(** The event test of [notify_event] and [peek_matching_run_ids]. *)
Definition event_matches (e : wait_entry CB) (event_type : string) : bool :=
  if decide (entry_type e = Some "time") then false
  else match truthy (entry_event_name e) with
       | Some ev =>
           bool_decide (entry_type e = Some "event" \/ entry_type e = Some "external")
           && bool_decide (ev = event_type)
       | None => bool_decide (wait_for e = Some event_type)
       end.

Definition wakes (event_type : string) (corr target : option string)
    (re : string * wait_entry CB) : bool :=
  match target with
  | Some t => bool_decide (re.1 = t)
  | None => true
  end
  && event_matches re.2 event_type
  && correlation_admits (we_correlation_id re.2) corr (bool_decide (is_Some target)).

Definition peek_matching_run_ids (n : node) (event_type : string) (corr : option string)
    : list string :=
  map fst (base.filter (fun re : string * wait_entry CB =>
             event_matches re.2 event_type = true /\
             correlation_admits (we_correlation_id re.2) corr false = true) (waiting (eng n))).

Definition waiting_for (n : node) (rid : string) : option string :=
  match dict_get rid (waiting (eng n)) with Some e => wait_for e | None => None end.

(** Claim the chosen waits: delete each from [_waiting] and from Redis. *)
Definition claim (n : node) (rs : list (string * wait_entry CB)) : node :=
  fold_left (fun n re =>
    redis_unregister (set_eng n (set_waiting (eng n) (dict_del re.1 (waiting (eng n))))) re.1)
    rs n.

(** Enqueue the claimed waits in order and delete their backups; an
    exception stops the loop. *)
Fixpoint resume_all (cfg : config) (now : Z) (n : node) (rs : list (string * wait_entry CB))
    : result sched_error unit * node :=
  match rs with
  | [] => (Ok tt, n)
  | (rid, e) :: rs' =>
      match enqueue_entry cfg now n rid e with
      | (Err x, n') => (Err x, n')
      | (Ok _, n') => resume_all cfg now (delete_wait_backup n' rid) rs'
      end
  end.

(** ** Cross-instance fallback (cross_instance.py) *)

(** One iteration over the registry; [Err] is an exception that reaches the
    enclosing [try], which then returns 0. *)
Definition cross_resume_one (cfg : config) (now : Z) (event_type : string) (corr target : option string)
    (skip : list string) (n : node) (rid : string) (spec : ResumeSpec)
    : result sched_error bool * node :=
  if decide (rid ∈ skip) then (Ok false, n)
  else if match target with Some t => bool_decide (rid <> t) | None => false end then (Ok false, n)
  else if dict_mem rid (waiting (eng n)) then (Ok false, n)
  else match load_wait_entry_from_db n rid with
  | None => (Ok false, n)
  | Some row =>
      if decide (row_event_type row <> event_type) then (Ok false, n)
      else if negb (correlation_admits (row_correlation_id row) corr (bool_decide (is_Some target)))
      then (Ok false, n)
      else match build_callback_from_spec cfg spec with
      | Err _ => (Ok false, n)
      | Ok cb =>
          let '(won, n1) := unregister_if_exists n rid in
          if won then
            let '(r, n2) := enqueue_resume cfg now n1 rid cb
                (str_or (row_eu_id row) (rs_eu_id spec))
                (str_or (Some (rs_tenant_id spec)) "system")
                (str_or (Some (row_priority row)) PRIORITY_NORMAL)
                (str_or (rs_eu_type spec) "flow") in
            (match r with Ok _ => Ok true | Err e => Err e end, n2)
          else (Ok false, n1)
      end
  end.

Fixpoint cross_resume_loop (cfg : config) (now : Z) (event_type : string) (corr target : option string)
    (skip : list string) (n : node) (specs : list (string * ResumeSpec)) (resumed : nat)
    : nat * node :=
  match specs with
  | [] => (resumed, n)
  | (rid, spec) :: specs' =>
      match cross_resume_one cfg now event_type corr target skip n rid spec with
      | (Err _, n') => (0%nat, n')
      | (Ok true, n') => cross_resume_loop cfg now event_type corr target skip n' specs' (S resumed)
      | (Ok false, n') => cross_resume_loop cfg now event_type corr target skip n' specs' resumed
      end
  end.

Definition cross_instance_resume (cfg : config) (now : Z) (n : node) (event_type : string)
    (corr : option string) (skip : list string) (target : option string) : nat * node :=
  cross_resume_loop cfg now event_type corr target skip n (get_all_specs n) 0.

(** ** notify_event (waits.py) *)

Definition notify_event (cfg : config) (now : Z) (n : node) (event_type : string)
    (corr target : option string) (broadcast : bool) : result sched_error nat * node :=
  if negb (rehydration_complete (eng n)) then
    if decide (max_pre_rehydration_buffer cfg <= length (pre_rehydration_buffer (eng n)))%nat
    then (Ok 0%nat, n)
    else (Ok 0%nat, set_eng n (set_buffer (eng n) false
                      (pre_rehydration_buffer (eng n) ++ [(event_type, corr, target)])))
  else
    let to_resume := base.filter (fun re => wakes event_type corr target re = true) (waiting (eng n)) in
    match resume_all cfg now (claim n to_resume) to_resume with
    | (Err x, n') => (Err x, n')
    | (Ok _, n') =>
        let '(cross, n2) := cross_instance_resume cfg now n' event_type corr
                              (map fst to_resume) target in
        (Ok (length to_resume + cross)%nat,
         if broadcast && bus_ok cfg then add_published n2 (event_type, corr, target) else n2)
    end.

(** ** Rehydration (core.py) *)

Definition replay (cfg : config) (now : Z) (n : node) (ev : string * option string * option string)
    : node :=
  let '(event_type, corr, rid) := ev in (notify_event cfg now n event_type corr rid false).2.

Definition mark_rehydration_complete (cfg : config) (now : Z) (n : node) : node :=
  fold_left (replay cfg now) (pre_rehydration_buffer (eng n))
            (set_eng n (set_buffer (eng n) true [])).

(** ** Time waits (waits.py, cross_instance.py) *)

Definition time_due (cfg : config) (now : Z) (re : string * wait_entry CB) : bool :=
  if decide (entry_type re.2 = Some "time")
  then match parse_trigger cfg (entry_trigger re.2) with
       | Some t => t <=? now
       | None => false
       end
  else false.

(** One iteration of [_cross_instance_tick]: here the claim precedes the
    rebuilding of the callback. *)
Definition cross_tick_one (cfg : config) (now : Z) (n : node) (rid : string) (spec : ResumeSpec)
    : result sched_error bool * node :=
  if dict_mem rid (waiting (eng n)) then (Ok false, n)
  else match load_wait_entry_from_db n rid with
  | None => (Ok false, n)
  | Some row =>
      match row_timeout_at row with
      | None => (Ok false, n)
      | Some timeout_at =>
          if now <? timeout_at then (Ok false, n)
          else
            let '(won, n1) := unregister_if_exists n rid in
            if won then
              match build_callback_from_spec cfg spec with
              | Err _ => (Ok false, n1)
              | Ok cb =>
                  match enqueue_resume cfg now n1 rid cb (str_or (row_eu_id row) rid)
                          (str_or (Some (rs_tenant_id spec)) "system")
                          (str_or (Some (row_priority row)) PRIORITY_NORMAL)
                          (str_or (rs_eu_type spec) "flow") with
                  | (Err x, n2) => (Err x, n2)
                  | (Ok _, n2) => (Ok true, delete_wait_backup n2 rid)
                  end
              end
            else (Ok false, n1)
      end
  end.

Fixpoint cross_tick_loop (cfg : config) (now : Z) (n : node)
    (specs : list (string * ResumeSpec)) (fired : nat) : nat * node :=
  match specs with
  | [] => (fired, n)
  | (rid, spec) :: specs' =>
      match cross_tick_one cfg now n rid spec with
      | (Err _, n') => (0%nat, n')
      | (Ok true, n') => cross_tick_loop cfg now n' specs' (S fired)
      | (Ok false, n') => cross_tick_loop cfg now n' specs' fired
      end
  end.

Definition cross_instance_tick (cfg : config) (now : Z) (n : node) : nat * node :=
  cross_tick_loop cfg now n (get_all_specs n) 0.

Definition tick_time_waits (cfg : config) (now : Z) (n : node) : result sched_error nat * node :=
  let to_fire := base.filter (fun re => time_due cfg now re = true) (waiting (eng n)) in
  match resume_all cfg now (claim n to_fire) to_fire with
  | (Err x, n') => (Err x, n')
  | (Ok _, n') =>
      let '(cross, n2) := cross_instance_tick cfg now n' in
      (Ok (length to_fire + cross)%nat, n2)
  end.

(** ** Eviction and reset (recovery.py, core.py) *)

(** [cleanup_stale_waits]: [still_waiting] is the answer of the two status
    queries ([None] when they raise). *)
Definition cleanup_stale_waits (n : node) (still_waiting : option (list string)) : nat * node :=
  match dict_keys (waiting (eng n)), still_waiting with
  | [], _ => (0%nat, n)
  | _, None => (0%nat, n)
  | rids, Some keep =>
      let stale := base.filter (fun r => r ∉ keep) rids in
      (length stale,
       fold_left (fun n r =>
         delete_wait_backup (set_eng n (set_waiting (eng n) (dict_del r (waiting (eng n))))) r)
         stale n)
  end.

Definition reset_engine (n : node) : node :=
  fold_left redis_unregister (dict_keys (waiting (eng n))) (set_eng n init_sched).

End Waits.

Arguments config CB : clear implicits.
Arguments node CB : clear implicits.

(** ** Lemmas on claiming and resuming *)

Section WaitLemmas.
Context {CB : Type}.
Implicit Types (n : node CB) (cfg : config CB) (rs : list (string * wait_entry CB)).

(** The item [_enqueue_resume] builds for a local wait. *)
Definition resume_item cfg (re : string * wait_entry CB) : option (ScheduledItem CB) :=
  match new_item (env_max_dispatch_retries cfg) (we_eu_id re.2)
          (str_or (Some (we_tenant_id re.2)) "system")
          (str_or (Some (we_priority re.2)) PRIORITY_NORMAL) (we_callback re.2)
          (Some re.1) (we_eu_type re.2) with
  | Ok it => Some it
  | Err _ => None
  end.

Lemma enqueue_entry_spec cfg now n rid e :
  enqueue_entry cfg now n rid e
  = match resume_item cfg (rid, e) with
    | None => (Err ValueError, n)
    | Some it => if forward_resumes cfg && forward_ok cfg it
                 then (Ok tt, add_forwarded n it)
                 else (Ok tt, set_eng n (enqueue now (eng n) it))
    end.
Proof.
  unfold enqueue_entry, enqueue_resume, resume_item, new_item. simpl.
  by destruct (parse_priority _).
Qed.

Lemma claim_spec rs n :
  eng (claim n rs) = set_waiting (eng n) (dict_del_all (waiting (eng n)) (map fst rs)) /\
  redis (claim n rs) = (fun r => dict_del_all r (map fst rs)) <$> redis n /\
  db_up (claim n rs) = db_up n /\ wait_rows (claim n rs) = wait_rows n /\
  flow_runs (claim n rs) = flow_runs n /\ published (claim n rs) = published n /\
  forwarded (claim n rs) = forwarded n.
Proof.
  unfold claim. revert n. induction rs as [|[r e] rs IH]; intros n; simpl.
  - destruct n as [s rd ? ? ? ? ?], s, rd; simpl; done.
  - match goal with |- context [fold_left _ rs ?m] => destruct (IH m) as (-> & -> & -> & -> & -> & -> & ->) end.
    unfold redis_unregister. destruct n as [s [rd|] ? ? ? ? ?], s; simpl; done.
Qed.

Lemma resume_all_local cfg now rs n :
  forward_resumes cfg = false -> Forall (fun re => is_Some (resume_item cfg re)) rs ->
  exists n', resume_all cfg now n rs = (Ok tt, n') /\
    eng n' = fold_left (enqueue now) (omap (resume_item cfg) rs) (eng n) /\
    redis n' = redis n /\ db_up n' = db_up n /\
    wait_rows n' = (if db_up n then dict_del_all (wait_rows n) (map fst rs) else wait_rows n).
Proof.
  intros Hf. revert n. induction rs as [|[r e] rs IH]; intros n Hall; simpl.
  - exists n. repeat split. by destruct (db_up n).
  - apply Forall_cons in Hall as [[it Hit] Hall].
    rewrite enqueue_entry_spec, Hit, Hf. simpl.
    match goal with |- context [resume_all cfg now ?m rs] =>
      destruct (IH m Hall) as (n' & E1 & E2 & E3 & E4 & E5) end.
    exists n'. rewrite E1, E2, E3, E4, E5. unfold delete_wait_backup. simpl.
    destruct (db_up n) eqn:Hdb; simpl; by rewrite ?Hdb.
Qed.

(** Every operation on waits reaches the ready queues only by [sched_op]. *)
Lemma set_waiting_op (s : sched CB) w : sched_op s (set_waiting s w).
Proof.
  replace (set_waiting s w) with
    (set_buffer (set_waiting s w) (rehydration_complete s) (pre_rehydration_buffer s)).
  - constructor.
  - by destruct s.
Qed.

Lemma enqueue_resume_evolves cfg now n rid cb eu tenant pr ty :
  rtc sched_op (eng n) (eng (enqueue_resume cfg now n rid cb eu tenant pr ty).2).
Proof.
  unfold enqueue_resume. destruct (new_item _ _ _ _ _ _ _); simpl; [|done].
  case_bool; simpl; [done|]. apply rtc_once. constructor.
Qed.

Lemma delete_wait_backup_eng n rid : eng (delete_wait_backup n rid) = eng n.
Proof. unfold delete_wait_backup. by destruct (db_up n). Qed.

Lemma resume_all_evolves cfg now rs n : rtc sched_op (eng n) (eng (resume_all cfg now n rs).2).
Proof.
  revert n. induction rs as [|[r e] rs IH]; intros n; simpl; [done|].
  pose proof (enqueue_resume_evolves cfg now n r (we_callback e) (we_eu_id e) (we_tenant_id e)
    (we_priority e) (we_eu_type e)) as H.
  unfold enqueue_entry. destruct (enqueue_resume _ _ _ _ _ _ _ _ _) as [[]  n']; simpl in *; [|done].
  etrans; [exact H|]. rewrite <- (delete_wait_backup_eng n' r). apply IH.
Qed.

Lemma claim_evolves rs n : rtc sched_op (eng n) (eng (claim n rs)).
Proof. destruct (claim_spec rs n) as [-> _]. apply rtc_once, set_waiting_op. Qed.

Lemma unregister_if_exists_eng n rid : eng (unregister_if_exists n rid).2 = eng n.
Proof. unfold unregister_if_exists. by destruct (redis n). Qed.

Lemma cross_resume_one_evolves cfg now ev corr tg skip n rid spec :
  rtc sched_op (eng n) (eng (cross_resume_one cfg now ev corr tg skip n rid spec).2).
Proof.
  unfold cross_resume_one. case_decide; [done|]. case_bool; [done|]. case_bool; [done|].
  destruct (load_wait_entry_from_db n rid) as [row|]; [|done].
  case_decide; [done|]. case_bool; [done|].
  destruct (build_callback_from_spec cfg spec) as [cb|]; [|done].
  pose proof (unregister_if_exists_eng n rid) as He.
  destruct (unregister_if_exists n rid) as [won n1]; simpl in He. case_bool; simpl; [|by rewrite He].
  match goal with |- context [enqueue_resume cfg now n1 rid cb ?a ?b ?c ?d] =>
    pose proof (enqueue_resume_evolves cfg now n1 rid cb a b c d) as H';
    destruct (enqueue_resume cfg now n1 rid cb a b c d) as [r n2] end.
  simpl in *. by rewrite <- He.
Qed.

Lemma cross_resume_loop_evolves cfg now ev corr tg skip specs : forall n k,
  rtc sched_op (eng n) (eng (cross_resume_loop cfg now ev corr tg skip n specs k).2).
Proof.
  induction specs as [|[rid spec] specs IH]; intros n k; simpl; [done|].
  pose proof (cross_resume_one_evolves cfg now ev corr tg skip n rid spec) as H.
  destruct (cross_resume_one _ _ _ _ _ _ _ _ _) as [[[]|] n']; simpl in *; [etrans; eauto..|done].
Qed.

Lemma cross_tick_one_evolves cfg now n rid spec :
  rtc sched_op (eng n) (eng (cross_tick_one cfg now n rid spec).2).
Proof.
  unfold cross_tick_one. case_bool; [done|].
  destruct (load_wait_entry_from_db n rid) as [row|]; [|done].
  destruct (row_timeout_at row); [|done]. case_bool; [done|].
  pose proof (unregister_if_exists_eng n rid) as He.
  destruct (unregister_if_exists n rid) as [won n1]; simpl in He. case_bool; simpl; [|by rewrite He].
  destruct (build_callback_from_spec cfg spec) as [cb|]; simpl; [|by rewrite He].
  match goal with |- context [enqueue_resume cfg now n1 rid cb ?a ?b ?c ?d] =>
    pose proof (enqueue_resume_evolves cfg now n1 rid cb a b c d) as H';
    destruct (enqueue_resume cfg now n1 rid cb a b c d) as [[] n2] end;
  simpl in *; rewrite ?delete_wait_backup_eng, <- He; done.
Qed.

Lemma cross_tick_loop_evolves cfg now specs : forall n k,
  rtc sched_op (eng n) (eng (cross_tick_loop cfg now n specs k).2).
Proof.
  induction specs as [|[rid spec] specs IH]; intros n k; simpl; [done|].
  pose proof (cross_tick_one_evolves cfg now n rid spec) as H.
  destruct (cross_tick_one _ _ _ _ _) as [[[]|] n']; simpl in *; [etrans; eauto..|done].
Qed.

Lemma notify_event_evolves cfg now n ev corr tg b :
  rtc sched_op (eng n) (eng (notify_event cfg now n ev corr tg b).2).
Proof.
  unfold notify_event. case_bool.
  { case_decide; simpl; [done|]. apply rtc_once.
    replace (set_buffer (eng n) _ _) with (set_buffer (set_waiting (eng n) (waiting (eng n))) false
      (pre_rehydration_buffer (eng n) ++ [(ev, corr, tg)])) by (by destruct (eng n)).
    constructor. }
  cbv zeta. match goal with |- context [resume_all cfg now (claim n ?rs) ?rs] =>
    pose proof (resume_all_evolves cfg now rs (claim n rs)) as Hr;
    pose proof (claim_evolves rs n) as Hc;
    destruct (resume_all cfg now (claim n rs) rs) as [[] n'] end; simpl in *.
  - unfold cross_instance_resume.
    match goal with |- context [cross_resume_loop ?a ?b ?c ?d ?e ?f ?g ?h ?i] =>
      pose proof (cross_resume_loop_evolves a b c d e f h g i) as Hx;
      destruct (cross_resume_loop a b c d e f g h i) as [k n2] end.
    simpl in *. etrans; [exact Hc|]. etrans; [exact Hr|]. by destruct (b && bus_ok cfg).
  - etrans; eauto.
Qed.

Lemma tick_time_waits_evolves cfg now n :
  rtc sched_op (eng n) (eng (tick_time_waits cfg now n).2).
Proof.
  unfold tick_time_waits. cbv zeta. match goal with |- context [resume_all cfg now (claim n ?rs) ?rs] =>
    pose proof (resume_all_evolves cfg now rs (claim n rs)) as Hr;
    pose proof (claim_evolves rs n) as Hc;
    destruct (resume_all cfg now (claim n rs) rs) as [[] n'] end; simpl in *.
  - unfold cross_instance_tick.
    match goal with |- context [cross_tick_loop ?a ?b ?c ?d ?e] =>
      pose proof (cross_tick_loop_evolves a b d c e) as Hx;
      destruct (cross_tick_loop a b c d e) as [k n2] end.
    simpl in *. etrans; [exact Hc|]. etrans; [exact Hr|]. done.
  - etrans; eauto.
Qed.

Lemma persist_wait_backup_eng cfg now n rid : eng (persist_wait_backup cfg now n rid) = eng n.
Proof.
  unfold persist_wait_backup. destruct (dict_get rid (waiting (eng n))); [|done].
  case_decide; [done|]. destruct (db_up n); [|done]. by destruct (dict_get rid (flow_runs n)).
Qed.

Lemma register_wait_evolves cfg now n rid ev te eu cb pr corr tr ty wc :
  rtc sched_op (eng n) (eng (register_wait cfg now n rid ev te eu cb pr corr tr ty wc)).
Proof.
  unfold register_wait. cbv zeta. rewrite persist_wait_backup_eng.
  unfold redis_register. destruct (redis _); simpl; apply rtc_once, set_waiting_op.
Qed.
End WaitLemmas.

(** ** Claims *)

Section WaitClaims.
Context {CB : Type}.
Implicit Types (n : node CB) (cfg : config CB).

Definition registered (rid : string) (r : option (list (string * ResumeSpec))) : bool :=
  match r with Some d => dict_mem rid d | None => false end.

Definition redis_wf (r : option (list (string * ResumeSpec))) : Prop :=
  match r with Some d => dict_wf d | None => True end.

Lemma cross_instance_resume_no_redis cfg now n ev corr skip tg :
  redis n = None -> cross_instance_resume cfg now n ev corr skip tg = (0%nat, n).
Proof. unfold cross_instance_resume, get_all_specs. by intros ->. Qed.

(** What [notify_event] sends: the items of a list until the first that
    [ScheduledItem] refuses, and whether none was refused. *)
Fixpoint until_bad {A} (l : list (option A)) : list A * bool :=
  match l with
  | [] => ([], true)
  | None :: _ => ([], false)
  | Some x :: l' => let '(xs, ok) := until_bad l' in (x :: xs, ok)
  end.

(** A registration of the shared registry that an event resumes here: the
    run is none of [skip] and not waiting here, its backup row waits for the
    event and admits the correlation, and its callback can be rebuilt. *)
Definition takes cfg n (skip : list string) (ev : string) (corr tg : option string)
    (x : string * ResumeSpec) : bool :=
  bool_decide (x.1 ∉ skip) &&
  match tg with Some t => bool_decide (x.1 = t) | None => true end &&
  negb (dict_mem x.1 (waiting (eng n))) &&
  match load_wait_entry_from_db n x.1 with
  | Some row =>
      bool_decide (row_event_type row = ev) &&
      correlation_admits (row_correlation_id row) corr (bool_decide (is_Some tg)) &&
      is_Ok (build_callback_from_spec cfg x.2)
  | None => false
  end.

(** The item of such a resume, from the backup row and the specification. *)
Definition taken_item cfg n (x : string * ResumeSpec) : option (ScheduledItem CB) :=
  match load_wait_entry_from_db n x.1, build_callback_from_spec cfg x.2 with
  | Some row, Ok cb =>
      match new_item (env_max_dispatch_retries cfg) (str_or (row_eu_id row) (rs_eu_id x.2))
              (str_or (Some (str_or (Some (rs_tenant_id x.2)) "system")) "system")
              (str_or (Some (str_or (Some (row_priority row)) PRIORITY_NORMAL)) PRIORITY_NORMAL) cb
              (Some x.1) (str_or (rs_eu_type x.2) "flow") with
      | Ok it => Some it
      | Err _ => None
      end
  | _, _ => None
  end.

Definition forwards cfg (it : ScheduledItem CB) : bool := forward_resumes cfg && forward_ok cfg it.

(** Sending an item: to the dispatcher, or onto the queues here. *)
Definition send cfg (now : Z) n (it : ScheduledItem CB) : node CB :=
  if forwards cfg it then add_forwarded n it else set_eng n (enqueue now (eng n) it).

Lemma send_all cfg now its : forall n,
  let n' := fold_left (send cfg now) its n in
  eng n' = fold_left (enqueue now) (base.filter (fun it => forwards cfg it = false) its) (eng n) /\
  forwarded n' = forwarded n ++ base.filter (fun it => forwards cfg it = true) its /\
  redis n' = redis n /\ db_up n' = db_up n /\ wait_rows n' = wait_rows n /\ published n' = published n.
Proof.
  induction its as [|it its IH]; intros n; simpl.
  - by rewrite app_nil_r.
  - destruct (IH (send cfg now n it)) as (-> & -> & -> & -> & -> & ->).
    rewrite !filter_cons. unfold send. destruct (forwards cfg it); simpl; [|done].
    by rewrite <- app_assoc.
Qed.

Lemma send_waiting cfg now n it : waiting (eng (send cfg now n it)) = waiting (eng n).
Proof. unfold send. by destruct (forwards cfg it). Qed.

Lemma resume_all_sends cfg now rs : forall n,
  let '(its, ok) := until_bad (map (resume_item cfg) rs) in
  exists n', resume_all cfg now n rs = (if ok then Ok tt else Err ValueError, n') /\
    eng n' = eng (fold_left (send cfg now) its n) /\
    forwarded n' = forwarded (fold_left (send cfg now) its n) /\
    redis n' = redis n /\ db_up n' = db_up n /\ published n' = published n /\
    wait_rows n' = if db_up n then dict_del_all (wait_rows n) (map fst (take (length its) rs))
                   else wait_rows n.
Proof.
  induction rs as [|[r e] rs IH]; intros n; simpl.
  { eexists. split; [done|]. simpl. by destruct (db_up n). }
  rewrite enqueue_entry_spec. destruct (resume_item cfg (r, e)) as [it|].
  2:{ eexists. split; [done|]. simpl. by destruct (db_up n). }
  specialize (IH (delete_wait_backup (send cfg now n it) r)).
  destruct (until_bad _) as [its ok]. destruct IH as (n' & E & E1 & E2 & E3 & E4 & E5 & E6).
  assert (Hb : (if forward_resumes cfg && forward_ok cfg it then (Ok tt : result sched_error unit, add_forwarded n it)
     else (Ok tt, set_eng n (enqueue now (eng n) it))) = (Ok tt, send cfg now n it))
    by (unfold send, forwards; by destruct (_ && _)).
  rewrite Hb. exists n'. split; [exact E|]. simpl.
  destruct (send_all cfg now its (delete_wait_backup (send cfg now n it) r)) as (A1 & A2 & _).
  destruct (send_all cfg now its (send cfg now n it)) as (B1 & B2 & _).
  rewrite E1, E2, E3, E4, E5, E6, A1, A2, B1, B2.
  unfold delete_wait_backup, send. destruct (forwards cfg it), (db_up n) eqn:Hd; simpl; rewrite ?Hd; simpl; rewrite ?Hd; done.
Qed.

Lemma cross_resume_one_spec cfg now ev corr tg skip n rid spec d :
  redis n = Some d ->
  cross_resume_one cfg now ev corr tg skip n rid spec
  = if takes cfg n skip ev corr tg (rid, spec) then
      if dict_mem rid d then
        match taken_item cfg n (rid, spec) with
        | Some it => (Ok true, send cfg now (set_redis n (Some (dict_del rid d))) it)
        | None => (Err ValueError, set_redis n (Some (dict_del rid d)))
        end
      else (Ok false, set_redis n (Some (dict_del rid d)))
    else (Ok false, n).
Proof.
  intros Hd. unfold cross_resume_one, takes, taken_item. simpl.
  destruct (decide (rid ∈ skip)) as [Hs|Hs].
  { rewrite (bool_decide_eq_false_2 (rid ∉ skip)) by (intros []; done). done. }
  rewrite (bool_decide_eq_true_2 (rid ∉ skip)) by done. simpl.
  replace (match tg with Some t => bool_decide (rid <> t) | None => false end)
    with (negb (match tg with Some t => bool_decide (rid = t) | None => true end))
    by (destruct tg; [symmetry; apply bool_decide_not|done]).
  destruct (match tg with Some t => bool_decide (rid = t) | None => true end); simpl; [|done].
  destruct (dict_mem rid (waiting (eng n))); simpl; [done|].
  destruct (load_wait_entry_from_db n rid) as [row|]; [|done].
  destruct (decide (row_event_type row <> ev)) as [He|He].
  { by rewrite (bool_decide_eq_false_2 (row_event_type row = ev)). }
  apply dec_stable in He. rewrite (bool_decide_eq_true_2 (row_event_type row = ev)) by done. simpl.
  destruct (correlation_admits _ _ _); simpl; [|done].
  destruct (build_callback_from_spec cfg spec) as [cb|]; simpl; [|done].
  unfold unregister_if_exists. rewrite Hd. destruct (dict_mem rid d); [|done].
  unfold enqueue_resume, send, forwards, new_item. destruct (parse_priority _); [|done].
  by destruct (_ && _).
Qed.

(** The loop over the registry takes what can be taken when it starts: an
    iteration changes neither the waits nor the rows the others look at. *)
Lemma cross_resume_loop_takes cfg now ev corr tg skip specs : forall n k d,
  redis n = Some d -> NoDup (map fst specs) -> (forall x, x ∈ specs -> dict_mem x.1 d = true) ->
  let taken := base.filter (fun x => takes cfg n skip ev corr tg x = true) specs in
  let '(its, ok) := until_bad (map (taken_item cfg n) taken) in
  exists n', cross_resume_loop cfg now ev corr tg skip n specs k
      = ((if ok then k + length taken else 0)%nat, n') /\
    eng n' = eng (fold_left (send cfg now) its n) /\
    forwarded n' = forwarded (fold_left (send cfg now) its n) /\
    redis n' = Some (dict_del_all d (map fst (take (S (length its)) taken))) /\
    db_up n' = db_up n /\ published n' = published n /\ wait_rows n' = wait_rows n.
Proof.
  induction specs as [|[rid spec] specs IH]; intros n k d Hd Hnd Hin.
  { simpl. exists n. rewrite Nat.add_0_r. by repeat split. }
  simpl in Hnd. apply NoDup_cons in Hnd as [Hni Hnd].
  assert (Hm : dict_mem rid d = true) by (apply (Hin (rid, spec)); left).
  cbn [cross_resume_loop]. rewrite (cross_resume_one_spec _ _ _ _ _ _ _ _ _ d Hd), Hm.
  rewrite filter_cons. destruct (takes cfg n skip ev corr tg (rid, spec)) eqn:Ht; cycle 1.
  { rewrite decide_False by done. apply (IH n k d); [done..|]. intros x Hx. apply Hin. by right. }
  rewrite decide_True by done. cbn [map until_bad].
  destruct (taken_item cfg n (rid, spec)) as [it|] eqn:Eit.
  2:{ simpl. eexists. split; [done|]. by repeat split. }
  set (m := send cfg now (set_redis n (Some (dict_del rid d))) it).
  assert (Hmd : redis m = Some (dict_del rid d)) by (unfold m, send; by destruct (forwards cfg it)).
  assert (Hmf : eng m = eng (send cfg now n it) /\ forwarded m = forwarded (send cfg now n it) /\
     db_up m = db_up n /\ wait_rows m = wait_rows n /\ published m = published n)
    by (unfold m, send; by destruct (forwards cfg it)).
  destruct Hmf as (Me & Mf & Mu & Mr & Mp).
  assert (Hl : forall r, load_wait_entry_from_db m r = load_wait_entry_from_db n r)
    by (intros r; unfold load_wait_entry_from_db; by rewrite Mu, Mr).
  assert (Htk : forall x, takes cfg m skip ev corr tg x = takes cfg n skip ev corr tg x)
    by (intros x; unfold takes; by rewrite Hl, Me, send_waiting).
  assert (Hti : forall x, taken_item cfg m x = taken_item cfg n x)
    by (intros x; unfold taken_item; by rewrite Hl).
  assert (Hin' : forall x, x ∈ specs -> dict_mem x.1 (dict_del rid d) = true).
  { intros x Hx. unfold dict_mem. rewrite dict_get_del_ne; [apply Hin; by right|].
    intros ->. apply Hni. apply list_elem_of_fmap. by exists x. }
  specialize (IH m (S k) _ Hmd Hnd Hin'). cbv zeta in IH.
  rewrite (list_filter_iff _ (fun x => takes cfg n skip ev corr tg x = true)) in IH
    by (intros x; by rewrite Htk).
  rewrite (map_ext _ _ Hti) in IH.
  set (taken := base.filter _ specs) in *.
  destruct (until_bad (map (taken_item cfg n) taken)) as [its ok].
  destruct IH as (n' & E & E1 & E2 & E3 & E4 & E5 & E6).
  exists n'. split; [rewrite E; f_equal; destruct ok; simpl; lia|].
  destruct (send_all cfg now its m) as (A1 & A2 & _).
  destruct (send_all cfg now its (send cfg now n it)) as (B1 & B2 & _).
  rewrite E1, E2, E3, E4, E5, E6. cbn [fold_left].
  rewrite A1, A2, B1, B2, Me, Mf. by repeat split.
Qed.

Lemma until_bad_length {A B} (f : A -> option B) l :
  (until_bad (map f l)).2 = true -> length (until_bad (map f l)).1 = length l.
Proof.
  induction l as [|x l IH]; simpl; [done|]. destruct (f x); [|done].
  destruct (until_bad _); simpl in *. intros H. by rewrite IH.
Qed.

(** The part of [notify_event] that wakes the waits of this engine. *)
Lemma notify_local cfg now n ev corr tg local ok :
  dict_wf (waiting (eng n)) ->
  let woken := base.filter (fun re => wakes ev corr tg re = true) (waiting (eng n)) in
  until_bad (map (resume_item cfg) woken) = (local, ok) ->
  exists n', resume_all cfg now (claim n woken) woken = (if ok then Ok tt else Err ValueError, n') /\
    eng n' = fold_left (enqueue now) (base.filter (fun it => forwards cfg it = false) local)
               (set_waiting (eng n)
                  (base.filter (fun re => wakes ev corr tg re <> true) (waiting (eng n)))) /\
    waiting (eng n') = base.filter (fun re => wakes ev corr tg re <> true) (waiting (eng n)) /\
    forwarded n' = forwarded n ++ base.filter (fun it => forwards cfg it = true) local /\
    redis n' = (fun r => dict_del_all r (map fst woken)) <$> redis n /\
    db_up n' = db_up n /\ published n' = published n /\
    wait_rows n' = if db_up n then dict_del_all (wait_rows n) (map fst (take (length local) woken))
                   else wait_rows n.
Proof.
  intros Hwf woken El.
  destruct (claim_spec woken n) as (Ec & Er & Ed & Ew & _ & Ep & Eff).
  pose proof (resume_all_sends cfg now woken (claim n woken)) as H. rewrite El in H.
  destruct H as (n' & E & E1 & E2 & E3 & E4 & E5 & E6).
  destruct (send_all cfg now local (claim n woken)) as (A1 & A2 & _).
  pose proof (dict_del_all_filter (fun re => wakes ev corr tg re = true) _ Hwf) as Hdel.
  rewrite A1, Ec in E1. fold woken in Hdel. rewrite Hdel in E1.
  exists n'. rewrite E, E1, E2, E3, E4, E5, E6, A2, Er, Ed, Ew, Ep, Eff. repeat split; try done.
  generalize (base.filter (fun it => forwards cfg it = false) local). intros its. clear.
  match goal with |- waiting (fold_left _ _ (set_waiting ?s ?w)) = _ =>
    change w with (waiting (set_waiting s w)) at 2; generalize (set_waiting s w) end.
  induction its as [|it its IH]; intros s; [done|]. simpl. by rewrite IH.
Qed.

Lemma woken_keys n ev corr tg rid :
  dict_wf (waiting (eng n)) ->
  dict_mem rid (waiting (eng n))
  = bool_decide (rid ∈ map fst (base.filter (fun re => wakes ev corr tg re = true) (waiting (eng n)))) ||
    dict_mem rid (base.filter (fun re => wakes ev corr tg re <> true) (waiting (eng n))).
Proof.
  intros Hwf. apply eq_true_iff_eq. rewrite orb_true_iff, bool_decide_eq_true, !dict_mem_true.
  unfold dict_keys. rewrite !(list_elem_of_fmap fst). split.
  - intros (x & -> & Hx). destruct (decide (wakes ev corr tg x = true)).
    + left. exists x. split; [done|]. by apply list_elem_of_filter.
    + right. exists x. split; [done|]. by apply list_elem_of_filter.
  - by intros [(x & -> & [_ Hx]%list_elem_of_filter)|(x & -> & [_ Hx]%list_elem_of_filter)]; exists x.
Qed.

(** The part that takes over registered waits, on the state [n1] the first
    part left: what can be taken could be taken before. *)
Lemma notify_foreign cfg now n n1 ev corr tg foreign ok :
  dict_wf (waiting (eng n)) -> redis_wf (redis n) ->
  let woken := base.filter (fun re => wakes ev corr tg re = true) (waiting (eng n)) in
  let taken := base.filter (fun x => takes cfg n [] ev corr tg x = true) (get_all_specs n) in
  forall rows,
  waiting (eng n1) = base.filter (fun re => wakes ev corr tg re <> true) (waiting (eng n)) ->
  redis n1 = (fun r => dict_del_all r (map fst woken)) <$> redis n -> db_up n1 = db_up n ->
  wait_rows n1 = (if db_up n then dict_del_all (wait_rows n) (map fst (take rows woken))
                  else wait_rows n) ->
  until_bad (map (taken_item cfg n) taken) = (foreign, ok) ->
  exists n', cross_instance_resume cfg now n1 ev corr (map fst woken) tg
      = ((if ok then length taken else 0)%nat, n') /\
    eng n' = eng (fold_left (send cfg now) foreign n1) /\
    forwarded n' = forwarded (fold_left (send cfg now) foreign n1) /\
    redis n' = (fun r => dict_del_all r (map fst woken ++ map fst (take (S (length foreign)) taken)))
               <$> redis n /\
    db_up n' = db_up n1 /\ published n' = published n1 /\ wait_rows n' = wait_rows n1.
Proof.
  intros Hwf Hrw woken taken rows Ew Er Eu Erow Ef.
  unfold cross_instance_resume, get_all_specs. rewrite Er.
  destruct (redis n) as [d|] eqn:Ed; simpl in Er; cycle 1.
  { unfold taken, get_all_specs in Ef. rewrite Ed in Ef. simpl in Ef. injection Ef as <- <-.
    exists n1. by unfold taken, get_all_specs; rewrite Ed. }
  simpl. set (d1 := dict_del_all d (map fst woken)) in *.
  assert (Hwf1 : dict_wf d1) by (by apply dict_del_all_wf).
  pose proof (cross_resume_loop_takes cfg now ev corr tg (map fst woken) d1 n1 0 d1 Er Hwf1) as H.
  assert (Hmem : forall x, x ∈ d1 -> dict_mem x.1 d1 = true).
  { intros x Hx. apply dict_mem_true. apply list_elem_of_fmap. by exists x. }
  specialize (H Hmem). cbv zeta in H.
  assert (Hload : forall r, r ∉ map fst woken -> load_wait_entry_from_db n1 r = load_wait_entry_from_db n r).
  { intros r Hr. unfold load_wait_entry_from_db. rewrite Eu, Erow. destruct (db_up n); [|done].
    apply dict_get_del_all_ne. intros Hin. apply Hr.
    eapply elem_of_sublist; [exact Hin|]. apply (fmap_sublist fst), sublist_take. }
  assert (Hskip : forall x, takes cfg n1 (map fst woken) ev corr tg x = true <->
                            x.1 ∉ map fst woken /\ takes cfg n [] ev corr tg x = true).
  { intros x. unfold takes. rewrite (woken_keys n ev corr tg x.1 Hwf), Ew. fold woken.
    destruct (decide (x.1 ∈ map fst woken)) as [Hin|Hin].
    - rewrite (bool_decide_eq_false_2 (x.1 ∉ map fst woken)) by (intros []; done).
      split; [done|]. by intros [[] _].
    - rewrite (bool_decide_eq_true_2 (x.1 ∉ map fst woken)), (bool_decide_eq_false_2 (x.1 ∈ map fst woken)),
        (Hload _ Hin), (bool_decide_eq_true_2 (x.1 ∉ [])) by (done || apply not_elem_of_nil).
      simpl. tauto. }
  assert (Hnot : forall x, x.1 ∈ map fst woken -> takes cfg n [] ev corr tg x = false).
  { intros x Hx. unfold takes. rewrite (woken_keys n ev corr tg x.1 Hwf). fold woken.
    rewrite (bool_decide_eq_true_2 _ Hx). simpl. by rewrite andb_false_r. }
  assert (Htaken : base.filter (fun x => takes cfg n1 (map fst woken) ev corr tg x = true) d1 = taken).
  { rewrite (list_filter_iff _ (fun x => takes cfg n [] ev corr tg x = true)).
    - unfold taken, get_all_specs. rewrite Ed. simpl.
      apply dict_del_all_filter_out. intros x Hx Ht. by rewrite Hnot in Ht.
    - intros x. rewrite Hskip. split; [tauto|]. intros Ht. split; [|done]. intros Hin.
      by rewrite Hnot in Ht. }
  rewrite Htaken in H.
  assert (Hitem : map (taken_item cfg n1) taken = map (taken_item cfg n) taken).
  { apply map_ext_in. intros x Hx. apply list_elem_of_In in Hx. rewrite <- Htaken in Hx.
    apply list_elem_of_filter in Hx as [Hx _]. apply Hskip in Hx as [Hx _].
    unfold taken_item. by rewrite (Hload _ Hx). }
  rewrite Hitem, Ef in H. destruct H as (n' & E & E1 & E2 & E3 & E4 & E5 & E6).
  exists n'. rewrite E, E1, E2, E3, E4, E5, E6. repeat split; try done.
  simpl. unfold d1. f_equal. unfold dict_del_all. by rewrite fold_left_app.
Qed.

(** C1: [notify_event] on every path. Before rehydration the event is
    buffered, or dropped when the buffer is full. Afterwards it removes
    precisely the waits here that match the event, the run and the
    correlation, keeps the others in order, and takes from the Redis registry
    precisely the runs that do not wait here and whose backup row matches; it
    sends one item per wait, local ones first and in the order of
    registration, with the wait's own execution unit, tenant, priority and
    callback, to the queues or, where resumes are forwarded and the dispatch
    succeeds, to the dispatcher; it deletes the local backups, publishes the
    event once if it is to be broadcast and the bus works, and returns the
    number of waits. A priority that [ScheduledItem] refuses stops it there:
    at a local wait the call raises, nothing is taken over or published, and
    the matching waits are gone nevertheless; at a wait of the registry the
    call counts the local ones only. *)
Theorem notify_wakes_exactly cfg now n ev corr tg broadcast :
  dict_wf (waiting (eng n)) -> redis_wf (redis n) ->
  let woken := base.filter (fun re => wakes ev corr tg re = true) (waiting (eng n)) in
  let taken := base.filter (fun x => takes cfg n [] ev corr tg x = true) (get_all_specs n) in
  let '(local, local_ok) := until_bad (map (resume_item cfg) woken) in
  let '(foreign, foreign_ok) := until_bad (map (taken_item cfg n) taken) in
  let sent := local ++ (if local_ok then foreign else []) in
  let unregistered := map fst woken ++
    (if local_ok then map fst (take (S (length foreign)) taken) else []) in
  (rehydration_complete (eng n) = false ->
   notify_event cfg now n ev corr tg broadcast
   = (Ok 0%nat,
      if decide (max_pre_rehydration_buffer cfg <= length (pre_rehydration_buffer (eng n)))%nat then n
      else set_eng n (set_buffer (eng n) false
             (pre_rehydration_buffer (eng n) ++ [(ev, corr, tg)])))) /\
  (rehydration_complete (eng n) = true ->
   exists n', notify_event cfg now n ev corr tg broadcast
     = (if local_ok then Ok (length woken + if foreign_ok then length taken else 0)%nat
        else Err ValueError, n') /\
    eng n' = fold_left (enqueue now) (base.filter (fun it => forwards cfg it = false) sent)
               (set_waiting (eng n)
                  (base.filter (fun re => wakes ev corr tg re <> true) (waiting (eng n)))) /\
    forwarded n' = forwarded n ++ base.filter (fun it => forwards cfg it = true) sent /\
    redis n' = (fun r => dict_del_all r unregistered) <$> redis n /\
    wait_rows n' = (if db_up n
                    then dict_del_all (wait_rows n) (map fst (take (length local) woken))
                    else wait_rows n) /\
    published n' = published n ++
      (if local_ok && (broadcast && bus_ok cfg) then [(ev, corr, tg)] else [])).
Proof.
  intros Hwf Hrw woken taken.
  destruct (until_bad (map (resume_item cfg) woken)) as [local local_ok] eqn:El.
  destruct (until_bad (map (taken_item cfg n) taken)) as [foreign foreign_ok] eqn:Ef.
  intros sent unregistered. unfold notify_event. split; intros Hre; rewrite Hre; cbn [negb].
  { by case_decide. }
  cbv zeta. fold woken.
  destruct (notify_local cfg now n ev corr tg local local_ok Hwf El)
    as (n1 & E1 & Ee & Ew & Efw & Er & Eu & Ep & Erow). fold woken in E1, Er, Erow.
  rewrite E1. destruct local_ok; cycle 1.
  { exists n1. split; [done|]. unfold sent, unregistered.
    rewrite !app_nil_r, Ee, Efw, Er, Ep. by repeat split. }
  destruct (notify_foreign cfg now n n1 ev corr tg foreign foreign_ok Hwf Hrw _ Ew Er Eu Erow Ef)
    as (n2 & E2 & Ge & Gf & Gr & Gu & Gp & Grow). fold woken in E2. rewrite E2.
  eexists. split; [done|].
  destruct (send_all cfg now foreign n1) as (A1 & A2 & _). rewrite A1 in Ge. rewrite A2 in Gf.
  unfold sent, unregistered. rewrite !filter_app, fold_left_app, <- Ee.
  destruct (broadcast && bus_ok cfg); simpl;
    rewrite Ge, Gf, Gp, Ep, Grow, Efw, Gr, ?app_nil_r, <- app_assoc, Erow; by repeat split.
Qed.

(** A wake that names a run touches nothing else. *)
Definition only_run (t : string) (n n' : node CB) : Prop :=
  (forall p it, it ∈ queue (eng n') p -> it ∈ queue (eng n) p \/ run_id it = Some t) /\
  (forall r, r <> t -> dict_get r (waiting (eng n')) = dict_get r (waiting (eng n))) /\
  (forall r, r <> t -> dict_get r (get_all_specs n') = dict_get r (get_all_specs n)).

Lemma only_run_refl t n : only_run t n n.
Proof. repeat split; auto. Qed.

Lemma only_run_trans t n1 n2 n3 : only_run t n1 n2 -> only_run t n2 n3 -> only_run t n1 n3.
Proof.
  intros (A1 & A2 & A3) (B1 & B2 & B3). repeat split.
  - intros p it Hin. destruct (B1 p it Hin) as [H|H]; [exact (A1 p it H)|by right].
  - intros r Hr. rewrite B2, A2; done.
  - intros r Hr. rewrite B3, A3; done.
Qed.

Lemma queue_set_waiting (s : sched CB) w p : queue (set_waiting s w) p = queue s p.
Proof. by destruct p. Qed.

Lemma elem_of_enqueue now (s : sched CB) it p x :
  x ∈ queue (enqueue now s it) p -> x ∈ queue s p \/ run_id x = run_id it.
Proof.
  unfold enqueue. cbv zeta.
  assert (Hc : forall (s' : sched CB) a b c d, queue (set_counters s' a b c d) p = queue s' p)
    by (intros; by destruct p).
  rewrite Hc, queue_set_queue. case_decide; subst; [|by left].
  rewrite elem_of_app, list_elem_of_singleton. intros [?| ->]; [by left|by right].
Qed.

Lemma enqueue_resume_only cfg now n t cb eu te pr ty :
  only_run t n (enqueue_resume cfg now n t cb eu te pr ty).2.
Proof.
  unfold enqueue_resume, new_item. destruct (parse_priority _); simpl; [|apply only_run_refl].
  case_bool; simpl; [repeat split; auto|]. repeat split; [|done..].
  simpl. intros p' it Hin. by apply elem_of_enqueue in Hin.
Qed.

Lemma delete_wait_backup_only n t rid : only_run t n (delete_wait_backup n rid).
Proof. unfold delete_wait_backup. destruct (db_up n); repeat split; auto. Qed.

Lemma resume_all_only cfg now t rs : forall n,
  Forall (fun re : string * wait_entry CB => re.1 = t) rs ->
  only_run t n (resume_all cfg now n rs).2.
Proof.
  induction rs as [|[r e] rs IH]; intros n Hall; simpl; [apply only_run_refl|].
  apply Forall_cons in Hall as [Hr Hall]. simpl in Hr. subst r.
  unfold enqueue_entry. pose proof (enqueue_resume_only cfg now n t (we_callback e) (we_eu_id e)
    (we_tenant_id e) (we_priority e) (we_eu_type e)) as H.
  destruct (enqueue_resume _ _ _ _ _ _ _ _ _) as [[] n']; simpl in *; [|done].
  eapply only_run_trans; [exact H|]. eapply only_run_trans; [apply (delete_wait_backup_only _ _ t)|].
  by apply IH.
Qed.

Lemma claim_only n t rs :
  Forall (fun re : string * wait_entry CB => re.1 = t) rs -> only_run t n (claim n rs).
Proof.
  intros Hall. destruct (claim_spec rs n) as (Ec & Er & _).
  assert (Hni : forall r, r <> t -> r ∉ map fst rs).
  { intros r Hr Hin. apply list_elem_of_fmap in Hin as (re & -> & Hin).
    rewrite Forall_forall in Hall. by apply Hr, Hall. }
  unfold only_run, get_all_specs. rewrite Ec, Er. repeat split.
  - intros p it. rewrite queue_set_waiting. by left.
  - intros r Hr. simpl. by apply dict_get_del_all_ne, Hni.
  - intros r Hr. destruct (redis n); simpl; [|done]. by apply dict_get_del_all_ne, Hni.
Qed.

Lemma unregister_if_exists_only n t : only_run t n (unregister_if_exists n t).2.
Proof.
  unfold unregister_if_exists. destruct (redis n) as [r0|] eqn:Er; simpl; [|apply only_run_refl].
  unfold only_run, get_all_specs. simpl. rewrite Er. repeat split; auto.
  intros r Hr. apply dict_get_del_ne. congruence.
Qed.

Lemma cross_resume_one_only cfg now ev corr t skip n rid spec :
  only_run t n (cross_resume_one cfg now ev corr (Some t) skip n rid spec).2.
Proof.
  unfold cross_resume_one. case_decide; [apply only_run_refl|].
  case_bool; [apply only_run_refl|]. apply bool_decide_eq_false in Hif. apply dec_stable in Hif. subst rid.
  case_bool; [apply only_run_refl|].
  destruct (load_wait_entry_from_db n t) as [row|]; [|apply only_run_refl].
  case_decide; [apply only_run_refl|]. case_bool; [apply only_run_refl|].
  destruct (build_callback_from_spec cfg spec) as [cb|]; [|apply only_run_refl].
  pose proof (unregister_if_exists_only n t) as Hu.
  destruct (unregister_if_exists n t) as [won n1]; simpl in Hu. case_bool; [|exact Hu].
  match goal with |- context [enqueue_resume cfg now n1 t cb ?a ?b ?c ?d] =>
    pose proof (enqueue_resume_only cfg now n1 t cb a b c d) as Hq;
    destruct (enqueue_resume cfg now n1 t cb a b c d) as [r n2] end.
  eapply only_run_trans; [exact Hu|exact Hq].
Qed.

Lemma cross_resume_loop_only cfg now ev corr t skip specs : forall n k,
  only_run t n (cross_resume_loop cfg now ev corr (Some t) skip n specs k).2.
Proof.
  induction specs as [|[rid spec] specs IH]; intros n k; simpl; [apply only_run_refl|].
  pose proof (cross_resume_one_only cfg now ev corr t skip n rid spec) as H.
  destruct (cross_resume_one _ _ _ _ _ _ _ _ _) as [[[]|] n']; simpl in *;
    [eapply only_run_trans; eauto..|done].
Qed.

(** A run-scoped wake concerns that run only, on every path: whatever
    else is waiting here or registered by other instances, after
    [notify_event] with run [t] every newly queued item resumes [t], and no
    wait or Redis registration of another run has changed (also when the
    call raises or only buffers the event). *)
Lemma run_scoped_wake_is_scoped cfg now n ev corr t b :
  only_run t n (notify_event cfg now n ev corr (Some t) b).2.
Proof.
  unfold notify_event. case_bool.
  { case_decide; simpl; [apply only_run_refl|]. repeat split; auto. }
  cbv zeta. set (rs := base.filter _ _).
  assert (Hall : Forall (fun re : string * wait_entry CB => re.1 = t) rs).
  { apply Forall_forall. intros re Hin. apply list_elem_of_filter in Hin as [Hw _].
    unfold wakes in Hw. boolprop. done. }
  pose proof (resume_all_only cfg now t rs (claim n rs) Hall) as Hr.
  pose proof (claim_only n t rs Hall) as Hc.
  destruct (resume_all cfg now (claim n rs) rs) as [[] n'];
    [|eapply only_run_trans; [exact Hc|exact Hr]].
  unfold cross_instance_resume.
  pose proof (cross_resume_loop_only cfg now ev corr t (map fst rs) (get_all_specs n') n' 0) as Hx.
  destruct (cross_resume_loop _ _ _ _ _ _ _ _ _) as [k n2]. simpl in *.
  eapply only_run_trans; [exact Hc|]. eapply only_run_trans; [exact Hr|].
  eapply only_run_trans; [exact Hx|]. destruct (b && bus_ok cfg); repeat split; auto.
Qed.

(** ** Claims across instances *)

(** One instance's attempt to take over run [rid] from the shared registry:
    by an event, or by the time-wait tick. Each attempt runs with its own
    engine, settings and snapshot of the spec, on the registry as the
    previous attempts left it. *)
Inductive takeover :=
| ByEvent (cfg : config CB) (now : Z) (n : node CB) (ev : string) (corr tg : option string)
          (skip : list string) (spec : ResumeSpec)
| ByTick (cfg : config CB) (now : Z) (n : node CB) (spec : ResumeSpec).

Definition attempt (rid : string) (r : option (list (string * ResumeSpec))) (a : takeover)
    : result sched_error bool * node CB :=
  match a with
  | ByEvent cfg now n ev corr tg skip spec =>
      cross_resume_one cfg now ev corr tg skip (set_redis n r) rid spec
  | ByTick cfg now n spec => cross_tick_one cfg now (set_redis n r) rid spec
  end.

(** The items an engine has queued or forwarded for a run. *)
Definition items_for (rid : string) n : nat :=
  length (base.filter (fun it : ScheduledItem CB => run_id it = Some rid)
    (queue (eng n) High ++ queue (eng n) Normal ++ queue (eng n) Low ++ forwarded n)).

(** What the engine that registered the wait does to it: the local part of
    [notify_event] and of [tick_time_waits], which claims its waits without
    asking the registry whether they are still registered. *)
Inductive owner_wake :=
| OwnerEvent (cfg : config CB) (now : Z) (ev : string) (corr tg : option string)
| OwnerTick (cfg : config CB) (now : Z).

Definition owner_resumes (o : node CB) (w : owner_wake) : node CB :=
  match w with
  | OwnerEvent cfg now ev corr tg =>
      let rs := base.filter (fun re => wakes ev corr tg re = true) (waiting (eng o)) in
      (resume_all cfg now (claim o rs) rs).2
  | OwnerTick cfg now =>
      let rs := base.filter (fun re => time_due cfg now re = true) (waiting (eng o)) in
      (resume_all cfg now (claim o rs) rs).2
  end.

(** A race for run [rid] between its owner [o], whose [redis] is the registry
    all share, and any number of other instances; the list of its resumes, in
    order, one entry per item that is sent. *)
Inductive racer := Peer (a : takeover) | Owner (w : owner_wake).
Inductive resumption := TakenOver | Local.

Fixpoint race (rid : string) (o : node CB) (xs : list racer) : list resumption :=
  match xs with
  | [] => []
  | Peer a :: xs' =>
      let '(res, n') := attempt rid (redis o) a in
      match res with Ok true => [TakenOver] | _ => [] end ++ race rid (set_redis o (redis n')) xs'
  | Owner w :: xs' =>
      let o' := owner_resumes o w in
      repeat Local (items_for rid o' - items_for rid o) ++ race rid o' xs'
  end.











(** ** Buffering before rehydration *)

Definition buffer_event cfg now n (ev : string * option string * option string) : node CB :=
  let '(event_type, corr, rid) := ev in (notify_event cfg now n event_type corr rid true).2.

Lemma buffer_events cfg now (es : list (string * option string * option string)) : forall n,
  rehydration_complete (eng n) = false ->
  (length (pre_rehydration_buffer (eng n)) <= max_pre_rehydration_buffer cfg)%nat ->
  fold_left (buffer_event cfg now) es n
  = set_eng n (set_buffer (eng n) false
      (take (max_pre_rehydration_buffer cfg) (pre_rehydration_buffer (eng n) ++ es))).
Proof.
  induction es as [|[[ev corr] rid] es IH]; intros n Hre Hlen; simpl.
  - rewrite app_nil_r, take_ge by done. destruct n as [s ? ? ? ? ? ?], s; simpl in *. by subst.
  - unfold notify_event. rewrite Hre. cbn [negb]. case_decide as Hfull; cbn [snd].
    + rewrite IH by done. f_equal. f_equal.
      rewrite !take_app_le by lia. done.
    + rewrite IH; simpl; [|done|rewrite length_app; simpl; lia].
      rewrite <- app_assoc. done.
Qed.

(** Events are not lost to start-up: an engine that is not yet
    rehydrated buffers the events it is notified of (up to the buffer
    bound), and [mark_rehydration_complete] then has exactly the effect of
    notifying the rehydrated engine of those events in order. *)
Lemma buffered_events_replayed cfg now n es :
  rehydration_complete (eng n) = false -> pre_rehydration_buffer (eng n) = [] ->
  mark_rehydration_complete cfg now (fold_left (buffer_event cfg now) es n)
  = fold_left (replay cfg now) (take (max_pre_rehydration_buffer cfg) es)
      (set_eng n (set_buffer (eng n) true [])).
Proof.
  intros Hre Hb. rewrite buffer_events; [|done|rewrite Hb; simpl; lia].
  rewrite Hb. simpl. unfold mark_rehydration_complete. simpl. done.
Qed.

(** A wait with an unknown priority takes the waits behind it down with
    it: when the first matching wait carries a priority string that
    [ScheduledItem] rejects, [notify_event] raises after every matching wait
    has already been deleted from memory and from Redis, and none of them
    has been queued. *)
Lemma bad_priority_loses_woken_waits cfg now n ev corr tg b r0 e0 rest :
  rehydration_complete (eng n) = true -> dict_wf (waiting (eng n)) -> redis_wf (redis n) ->
  base.filter (fun re => wakes ev corr tg re = true) (waiting (eng n)) = (r0, e0) :: rest ->
  parse_priority (str_or (Some (we_priority e0)) PRIORITY_NORMAL) = None ->
  exists n', notify_event cfg now n ev corr tg b = (Err ValueError, n') /\
    (forall p, queue (eng n') p = queue (eng n) p) /\ forwarded n' = forwarded n /\
    (forall r, r ∈ r0 :: map fst rest ->
       dict_get r (waiting (eng n')) = None /\ registered r (redis n') = false).
Proof.
  intros Hre Hwf Hrw Hf Hp. unfold notify_event. rewrite Hre. cbn [negb]. cbv zeta. rewrite Hf.
  cbn [resume_all]. rewrite enqueue_entry_spec. unfold resume_item, new_item. cbn [fst snd].
  rewrite Hp. eexists. split; [done|].
  destruct (claim_spec ((r0, e0) :: rest) n) as (Ec & Er & _ & _ & _ & _ & Ef).
  split; [intros p; by rewrite Ec, queue_set_waiting|]. split; [done|].
  intros r Hin. rewrite Ec, Er. split; [exact (dict_get_del_all_in _ (r0 :: map fst rest) r Hwf Hin)|].
  unfold registered. destruct (redis n) as [d|]; simpl; [|done].
  unfold dict_mem. pose proof (dict_get_del_all_in d (r0 :: map fst rest) r Hrw Hin) as E.
  simpl in E. by rewrite E.
Qed.
End WaitClaims.

(** ** Invariants of a node and further claims *)

Section NodeInvariants.
Context {CB : Type}.
Implicit Types (n : node CB) (cfg : config CB).

Definition same_waits (s s' : sched CB) : Prop :=
  waiting s' = waiting s /\ pre_rehydration_buffer s' = pre_rehydration_buffer s /\
  rehydration_complete s' = rehydration_complete s.

Lemma same_waits_trans s1 s2 s3 : same_waits s1 s2 -> same_waits s2 s3 -> same_waits s1 s3.
Proof. unfold same_waits. intros (-> & -> & ->) (-> & -> & ->). done. Qed.

Lemma enqueue_resume_same cfg now n rid cb eu te pr ty :
  same_waits (eng n) (eng (enqueue_resume cfg now n rid cb eu te pr ty).2).
Proof. unfold enqueue_resume. destruct (new_item _ _ _ _ _ _ _); [|done]. by case_bool. Qed.

Lemma resume_all_same cfg now rs : forall n,
  same_waits (eng n) (eng (resume_all cfg now n rs).2).
Proof.
  induction rs as [|[r e] rs IH]; intros n; simpl; [done|]. unfold enqueue_entry.
  pose proof (enqueue_resume_same cfg now n r (we_callback e) (we_eu_id e) (we_tenant_id e)
    (we_priority e) (we_eu_type e)) as H.
  destruct (enqueue_resume _ _ _ _ _ _ _ _ _) as [[] n']; simpl in *; [|done].
  eapply same_waits_trans; [exact H|]. rewrite <- (delete_wait_backup_eng n' r). apply IH.
Qed.

Lemma cross_resume_loop_same cfg now ev corr tg skip specs : forall n k,
  same_waits (eng n) (eng (cross_resume_loop cfg now ev corr tg skip n specs k).2).
Proof.
  induction specs as [|[rid spec] specs IH]; intros n k; simpl; [done|].
  assert (H : same_waits (eng n) (eng (cross_resume_one cfg now ev corr tg skip n rid spec).2)).
  { unfold cross_resume_one. repeat (case_decide || case_bool; [done|]).
    destruct (load_wait_entry_from_db n rid) as [row|]; [|done].
    repeat (case_decide || case_bool; [done|]).
    destruct (build_callback_from_spec cfg spec) as [cb|]; [|done].
    pose proof (unregister_if_exists_eng n rid) as He.
    destruct (unregister_if_exists n rid) as [won n1]; simpl in He.
    rewrite <- He. case_bool; [|done].
    match goal with |- context [enqueue_resume cfg now n1 rid cb ?a ?b ?c ?d] =>
      pose proof (enqueue_resume_same cfg now n1 rid cb a b c d) as H';
      destruct (enqueue_resume cfg now n1 rid cb a b c d) as [r n2] end. exact H'. }
  destruct (cross_resume_one _ _ _ _ _ _ _ _ _) as [[[]|] n']; simpl in *;
    [eapply same_waits_trans; eauto..|done].
Qed.

Lemma cross_tick_loop_same cfg now specs : forall n k,
  same_waits (eng n) (eng (cross_tick_loop cfg now n specs k).2).
Proof.
  induction specs as [|[rid spec] specs IH]; intros n k; simpl; [done|].
  assert (H : same_waits (eng n) (eng (cross_tick_one cfg now n rid spec).2)).
  { unfold cross_tick_one. case_bool; [done|].
    destruct (load_wait_entry_from_db n rid) as [row|]; [|done].
    destruct (row_timeout_at row); [|done]. case_bool; [done|].
    pose proof (unregister_if_exists_eng n rid) as He.
    destruct (unregister_if_exists n rid) as [won n1]; simpl in He.
    rewrite <- He. case_bool; [|done].
    destruct (build_callback_from_spec cfg spec) as [cb|]; [|done].
    match goal with |- context [enqueue_resume cfg now n1 rid cb ?a ?b ?c ?d] =>
      pose proof (enqueue_resume_same cfg now n1 rid cb a b c d) as H';
      destruct (enqueue_resume cfg now n1 rid cb a b c d) as [[] n2] end;
    simpl in *; rewrite ?delete_wait_backup_eng; exact H'. }
  destruct (cross_tick_one _ _ _ _ _) as [[[]|] n']; simpl in *;
    [eapply same_waits_trans; eauto..|done].
Qed.

Definition node_wf cfg n : Prop :=
  conserved (eng n) /\ dict_wf (waiting (eng n)) /\
  (length (pre_rehydration_buffer (eng n)) <= max_pre_rehydration_buffer cfg)%nat.

Lemma claim_then_same_wf cfg n rs (n' : node CB) :
  node_wf cfg n -> rtc sched_op (eng n) (eng n') ->
  same_waits (eng (claim n rs)) (eng n') -> node_wf cfg n'.
Proof.
  intros (Hc & Hw & Hb) Hr (E1 & E2 & _). destruct (claim_spec rs n) as (Ec & _).
  rewrite Ec in E1, E2. simpl in E1, E2. unfold node_wf. rewrite E1, E2.
  split; [by eapply sched_ops_conserved|]. split; [by apply dict_del_all_wf|done].
Qed.

Lemma notify_event_wf cfg now n ev corr tg b :
  node_wf cfg n -> node_wf cfg (notify_event cfg now n ev corr tg b).2.
Proof.
  intros Hwf. pose proof (notify_event_evolves cfg now n ev corr tg b) as Hev.
  destruct (rehydration_complete (eng n)) eqn:Hre.
  - set (rs := base.filter (fun re => wakes ev corr tg re = true) (waiting (eng n))).
    eapply (claim_then_same_wf cfg n rs); [done|done|]. clear Hev.
    unfold notify_event. rewrite Hre. cbn [negb]. cbv zeta. fold rs.
    pose proof (resume_all_same cfg now rs (claim n rs)) as H.
    destruct (resume_all cfg now (claim n rs) rs) as [[] n']; [|done].
    unfold cross_instance_resume.
    pose proof (cross_resume_loop_same cfg now ev corr tg (map fst rs) (get_all_specs n') n' 0) as Hx.
    destruct (cross_resume_loop _ _ _ _ _ _ _ _ _) as [k n2]. simpl in *.
    eapply same_waits_trans; [exact H|]. by destruct (b && bus_ok cfg).
  - destruct Hwf as (Hc & Hw & Hb). split; [by eapply sched_ops_conserved|].
    unfold notify_event. rewrite Hre. cbn [negb]. case_decide; simpl; [done|].
    split; [done|]. rewrite length_app. simpl. lia.
Qed.

Lemma tick_time_waits_wf cfg now n :
  node_wf cfg n -> node_wf cfg (tick_time_waits cfg now n).2.
Proof.
  intros Hwf. pose proof (tick_time_waits_evolves cfg now n) as Hev.
  set (rs := base.filter (fun re => time_due cfg now re = true) (waiting (eng n))).
  eapply (claim_then_same_wf cfg n rs); [done|done|]. clear Hev.
  unfold tick_time_waits. cbv zeta. fold rs.
  pose proof (resume_all_same cfg now rs (claim n rs)) as H.
  destruct (resume_all cfg now (claim n rs) rs) as [[] n']; [|done].
  unfold cross_instance_tick.
  pose proof (cross_tick_loop_same cfg now (get_all_specs n') n' 0) as Hx.
  destruct (cross_tick_loop _ _ _ _ _) as [k n2]. by eapply same_waits_trans.
Qed.

Lemma register_wait_wf cfg now n rid ev te eu cb pr corr tr ty wc :
  node_wf cfg n -> node_wf cfg (register_wait cfg now n rid ev te eu cb pr corr tr ty wc).
Proof.
  intros (Hc & Hw & Hb). unfold node_wf, register_wait. cbv zeta.
  rewrite persist_wait_backup_eng. unfold redis_register.
  destruct (redis _); simpl; (split; [done|]; split; [by apply dict_set_wf|done]).
Qed.

Lemma cleanup_stale_waits_wf cfg n keep :
  node_wf cfg n -> node_wf cfg (cleanup_stale_waits n keep).2.
Proof.
  intros Hwf. unfold cleanup_stale_waits. destruct (dict_keys _) as [|r0 rs0]; [done|].
  destruct keep as [keep|]; [|done]. cbn [snd].
  generalize (base.filter (fun r => r ∉ keep) (r0 :: rs0)). intros st.
  revert n Hwf. induction st as [|r st IH]; intros n Hwf; simpl; [done|]. apply IH.
  destruct Hwf as (Hc & Hw & Hb). unfold node_wf. rewrite delete_wait_backup_eng. simpl.
  split; [done|]. split; [by apply dict_del_wf|done].
Qed.

Lemma mark_rehydration_complete_wf cfg now n :
  node_wf cfg n -> node_wf cfg (mark_rehydration_complete cfg now n).
Proof.
  intros (Hc & Hw & Hb). unfold mark_rehydration_complete.
  assert (H0 : node_wf cfg (set_eng n (set_buffer (eng n) true []))).
  { split; [done|]. split; [done|]. simpl. lia. }
  clear Hc Hw Hb. revert H0. generalize (set_eng n (set_buffer (eng n) true [])).
  induction (pre_rehydration_buffer (eng n)) as [|[[ev corr] rid] es IH]; intros m Hm; simpl; [done|].
  apply IH. by apply notify_event_wf.
Qed.

Lemma reset_engine_wf cfg n : node_wf cfg (reset_engine n).
Proof.
  unfold reset_engine. generalize (dict_keys (waiting (eng n))). intros rs.
  assert (H0 : node_wf cfg (set_eng n init_sched)).
  { split; [done|]. split; [constructor|]. simpl. lia. }
  revert H0. generalize (set_eng n init_sched). induction rs as [|r rs IH]; intros m Hm; simpl; [done|].
  apply IH. unfold redis_unregister. by destruct (redis m).
Qed.

(** One public call on a node. *)
Inductive node_op :=
| NEnqueue (it : ScheduledItem CB)
| NDequeue
| NRegister (rid : string) (ev : option string) (te eu : string) (cb : CB) (pr : string)
            (corr tr : option string) (ty : string) (wc : option (option wait_cond))
| NNotify (ev : string) (corr tg : option string) (broadcast : bool)
| NTick
| NRehydrated
| NCleanup (keep : option (list string))
| NReset.

Definition node_step cfg n (x : Z * node_op) : node CB :=
  let '(now, o) := x in
  match o with
  | NEnqueue it => set_eng n (enqueue now (eng n) it)
  | NDequeue => match dequeue_next (eng n) with Some (_, s) => set_eng n s | None => n end
  | NRegister rid ev te eu cb pr corr tr ty wc =>
      register_wait cfg now n rid ev te eu cb pr corr tr ty wc
  | NNotify ev corr tg b => (notify_event cfg now n ev corr tg b).2
  | NTick => (tick_time_waits cfg now n).2
  | NRehydrated => mark_rehydration_complete cfg now n
  | NCleanup keep => (cleanup_stale_waits n keep).2
  | NReset => reset_engine n
  end.

Lemma dequeue_next_wf cfg n it s :
  dequeue_next (eng n) = Some (it, s) -> node_wf cfg n -> node_wf cfg (set_eng n s).
Proof.
  intros Hd (Hc & Hw & Hb). split; [by eapply dequeue_conserved|].
  apply dequeue_first_Some in Hd as (p & _ & Hd). apply dequeue_from_Some in Hd as (q & _ & ->).
  done.
Qed.

#[local] Hint Resolve notify_event_wf tick_time_waits_wf register_wait_wf cleanup_stale_waits_wf
  mark_rehydration_complete_wf reset_engine_wf : py.

Lemma node_step_wf cfg n x : node_wf cfg n -> node_wf cfg (node_step cfg n x).
Proof.
  destruct x as [now []]; simpl; auto with py.
  - intros (Hc & Hw & Hb). split; [by apply enqueue_conserved|done].
  - destruct (dequeue_next (eng n)) as [[it s]|] eqn:Hd; [|done]. by apply (dequeue_next_wf cfg n it s).
Qed.

(** The engine's invariant holds after any history of public calls from
    a well-formed state: items enqueued = items handed out + items queued, no
    run waits twice, and the start-up buffer never exceeds its bound. *)
Lemma node_invariant cfg n (history : list (Z * node_op)) :
  node_wf cfg n -> node_wf cfg (fold_left (node_step cfg) history n).
Proof.
  revert n. induction history as [|x h IH]; intros n Hwf; simpl; [done|].
  apply IH. by apply node_step_wf.
Qed.

(** A timer fires exactly the time waits that are due: without Redis,
    [tick_time_waits] removes precisely the waits of type "time" whose
    trigger parses and is not after now, queues them in registration order,
    and keeps all others (event waits included). *)
Lemma tick_fires_exactly_due cfg now n :
  dict_wf (waiting (eng n)) -> redis n = None -> forward_resumes cfg = false ->
  let due := base.filter (fun re => time_due cfg now re = true) (waiting (eng n)) in
  Forall (fun re => is_Some (resume_item cfg re)) due ->
  exists n', tick_time_waits cfg now n = (Ok (length due), n') /\
    eng n' = fold_left (enqueue now) (omap (resume_item cfg) due)
               (set_waiting (eng n)
                  (base.filter (fun re => time_due cfg now re <> true) (waiting (eng n)))).
Proof.
  intros Hwf Hrd Hf due Hall. unfold tick_time_waits. cbv zeta. fold due.
  destruct (claim_spec due n) as (Ec & Er & _).
  destruct (resume_all_local cfg now due (claim n due) Hf Hall) as (n1 & -> & E2 & E3 & _).
  unfold cross_instance_tick, get_all_specs. rewrite E3, Er, Hrd. simpl.
  exists n1. rewrite Nat.add_0_r. split; [done|]. rewrite E2, Ec. f_equal. f_equal.
  apply (dict_del_all_filter (fun re => time_due cfg now re = true)). done.
Qed.

Lemma cross_resume_loop_skipped cfg now ev corr t skip specs : forall n k,
  t ∈ skip -> cross_resume_loop cfg now ev corr (Some t) skip n specs k = (k, n).
Proof.
  induction specs as [|[rid spec] specs IH]; intros n k Ht; simpl; [done|].
  unfold cross_resume_one. destruct (decide (rid ∈ skip)); [by apply IH|].
  rewrite bool_decide_true by (intros ->; done). by apply IH.
Qed.

(** What is registered can be woken: after [register_wait] for run
    [rid], a wake of event [ev] naming that run resumes it whatever
    correlation id the wake carries, once, through the registered callback:
    the call returns 1, the wait is gone, and exactly one item for the run is
    appended to the queue of the wait's priority (Redis or not). *)
Lemma registered_wait_woken cfg now now' n rid ev te eu cb pr corr tr ty corr' b p :
  rehydration_complete (eng n) = true -> dict_wf (waiting (eng n)) ->
  forward_resumes cfg = false ->
  parse_priority (str_or (Some pr) PRIORITY_NORMAL) = Some p ->
  exists n' it,
    notify_event cfg now' (register_wait cfg now n rid (Some ev) te eu cb pr corr tr ty None)
      ev corr' (Some rid) b = (Ok 1%nat, n') /\
    dict_get rid (waiting (eng n')) = None /\
    queue (eng n') p = queue (eng n) p ++ [it] /\
    run_callback it = cb /\ run_id it = Some rid /\ execution_unit_id it = eu.
Proof.
  intros Hre Hwf Hf Hp. set (n0 := register_wait _ _ _ _ _ _ _ _ _ _ _ _ _).
  set (e := WaitEntry (Some ev) te eu cb pr corr tr ty (Some (WaitCond (Some "event") (Some ev) TrNone))).
  assert (He0 : eng n0 = set_waiting (eng n) (dict_set rid e (waiting (eng n)))).
  { unfold n0, register_wait. cbv zeta. rewrite persist_wait_backup_eng.
    unfold redis_register. by destruct (redis _). }
  assert (Hwf0 : dict_wf (dict_set rid e (waiting (eng n)))) by (by apply dict_set_wf).
  assert (Hev : event_matches e ev = true).
  { unfold event_matches, entry_type, entry_event_name, e; simpl.
    destruct (decide (ev = "")) as [->|]; simpl.
    - reflexivity.
    - rewrite !bool_decide_true by (done || by left). done. }
  assert (Hrs : base.filter (fun re => wakes ev corr' (Some rid) re = true) (waiting (eng n0)) = [(rid, e)]).
  { rewrite He0. simpl. apply dict_filter_key; [done|apply dict_get_set_eq| |].
    - intros x Hx. unfold wakes in Hx. by boolprop.
    - unfold wakes. simpl. rewrite bool_decide_true by done. by rewrite Hev. }
  assert (Hre0 : rehydration_complete (eng n0) = true) by (rewrite He0; exact Hre).
  clearbody n0. unfold notify_event. rewrite Hre0.
  cbn [negb]. cbv zeta. rewrite Hrs.
  assert (Hit : is_Some (resume_item cfg (rid, e))).
  { unfold resume_item, new_item, e. simpl. rewrite Hp. by eexists. }
  destruct (resume_all_local cfg now' [(rid, e)] (claim n0 [(rid, e)]) Hf) as (n1 & -> & E2 & _);
    [by constructor|].
  unfold cross_instance_resume. rewrite cross_resume_loop_skipped by (by left).
  destruct (claim_spec [(rid, e)] n0) as (Ec & _). destruct Hit as [it Hit].
  rewrite Ec, He0 in E2. simpl in E2. rewrite Hit in E2. simpl in E2.
  unfold resume_item, new_item, e in Hit. simpl in Hit. rewrite Hp in Hit. injection Hit as <-.
  assert (Heng : forall m : node CB, eng (if b && bus_ok cfg then add_published m (ev, corr', Some rid) else m)
    = eng m) by (intros; by destruct (b && bus_ok cfg)).
  eexists _, (Item eu (str_or (Some te) "system") p cb (Some rid) ty (seq (eng n) + 1) now' 0
                   (env_max_dispatch_retries cfg)).
  split; [reflexivity|]. rewrite Heng, E2. simpl.
  split; [by apply dict_get_del_eq|]. split; [|done].
  by destruct p.
Qed.
End NodeInvariants.

(** ** Concrete instances *)

Definition demo_cfg : config Z :=
  Config 2 2 false (fun _ => true) true (fun _ => None) "instance-1"
         [(RESUME_HANDLER_EU, fun _ => 99)].

Definition empty_node (rehydrated : bool) : node Z :=
  Node (set_buffer init_sched rehydrated []) None true [] [] [] [].

Definition demo_register (n : node Z) (rid : string) (ev : option string) (pr : string)
    (wc : option (option wait_cond)) : node Z :=
  register_wait demo_cfg 1 n rid ev "tenant" rid 7 pr None None "flow" wc.

Definition demo_node : node Z :=
  demo_register
    (demo_register
       (demo_register (empty_node true) "r1" (Some "paid") "normal" None)
       "r2" (Some "shipped") "high" None)
    "r3" None "low" (Some (Some (WaitCond (Some "time") None (TrTime 100)))).

Ltac concrete_valid := vm_compute; repeat constructor; eauto.

Definition demo_spec : ResumeSpec := Spec RESUME_HANDLER_EU "r1" "tenant" "r1" (Some "flow").
Definition peer_node : node Z :=
  Node (set_buffer init_sched true []) None true
       [("r1", WaitRow "paid" None 1 None (Some 50) (Some "r1") "normal" "instance-1")]
       [("r1", None)] [] [].

(** Two instances: one holds "r1" in memory, both see the registry in which
    "r1" and a run of the other are registered. *)
Definition shared_node : node Z :=
  set_redis (Node (eng demo_node) None true
    [("r4", WaitRow "paid" None 1 None (Some 50) (Some "u4") "high" "instance-2")] [] [] [])
    (Some [("r1", demo_spec); ("r4", Spec RESUME_HANDLER_EU "r4" "tenant" "r4" (Some "flow"))]).

Lemma notify_wakes_exactly_witness :
  exists n', notify_event demo_cfg 5 shared_node "paid" None None true = (Ok 2%nat, n') /\
    map fst (waiting (eng n')) = ["r2"; "r3"] /\ redis n' = Some [] /\
    map run_id (queue (eng n') Normal) = [Some "r1"] /\
    map run_id (queue (eng n') High) = [Some "r4"] /\ published n' = [("paid", None, None)].
Proof.
  destruct (notify_wakes_exactly demo_cfg 5 shared_node "paid" None None true) as [_ H].
  - apply (bool_decide_unpack _). vm_compute. exact I.
  - simpl. apply (bool_decide_unpack _). vm_compute. exact I.
  - destruct (H eq_refl) as (n' & E1 & E2 & _ & E4 & _ & E6).
    exists n'. split; [exact E1|]. rewrite E2, E4, E6. vm_compute. repeat split.
Defined.

(** The owner and a peer on the same event: the peer takes the run over, and
    the owner resumes it again. *)
Example owner_resumes_again :
  race "r1" shared_node [Peer (ByEvent demo_cfg 5 peer_node "paid" None None [] demo_spec);
                         Owner (OwnerEvent demo_cfg 6 "paid" None None)] = [TakenOver; Local].
Proof. vm_compute. reflexivity. Qed.


Lemma buffered_events_replayed_witness :
  mark_rehydration_complete demo_cfg 5
    (fold_left (buffer_event demo_cfg 5) [("paid", None, None); ("shipped", None, None)]
       (demo_register (empty_node false) "r1" (Some "paid") "normal" None))
  = fold_left (replay demo_cfg 5) [("paid", None, None); ("shipped", None, None)]
      (demo_register (empty_node true) "r1" (Some "paid") "normal" None).
Proof.
  rewrite (buffered_events_replayed demo_cfg 5
    (demo_register (empty_node false) "r1" (Some "paid") "normal" None)); reflexivity.
Defined.

Definition poisoned_node : node Z :=
  demo_register (demo_register (empty_node true) "r1" (Some "paid") "urgent" None)
                "r2" (Some "paid") "normal" None.

Lemma bad_priority_loses_woken_waits_witness :
  exists n', notify_event demo_cfg 5 poisoned_node "paid" None None true = (Err ValueError, n') /\
    dict_get "r2" (waiting (eng n')) = None /\ (forall p, queue (eng n') p = []).
Proof.
  destruct (bad_priority_loses_woken_waits demo_cfg 5 poisoned_node "paid" None None true "r1"
    (WaitEntry (Some "paid") "tenant" "r1" 7 "urgent" None None "flow"
       (Some (WaitCond (Some "event") (Some "paid") TrNone)))
    [("r2", WaitEntry (Some "paid") "tenant" "r2" 7 "normal" None None "flow"
       (Some (WaitCond (Some "event") (Some "paid") TrNone)))]) as (n' & E1 & E2 & _ & E4).
  - reflexivity.
  - apply (bool_decide_unpack _). vm_compute. exact I.
  - exact I.
  - vm_compute. reflexivity.
  - vm_compute. reflexivity.
  - exists n'. split; [exact E1|]. split.
    + destruct (E4 "r2") as [E _]; [right; left|exact E].
    + intros p. rewrite E2. destruct p; reflexivity.
Defined.

Lemma node_invariant_witness :
  node_wf demo_cfg (fold_left (node_step demo_cfg)
    [(1, NNotify "early" None None true);
     (2, NRehydrated); (3, NEnqueue (demo_item "e" "t" High)); (4, NNotify "paid" None None true);
     (5, NTick); (6, NDequeue); (7, NCleanup (Some ["r2"])); (8, NReset)] demo_node).
Proof.
  apply node_invariant. split; [vm_compute; reflexivity|]. split; [|simpl; lia].
  apply (bool_decide_unpack _). vm_compute. exact I.
Defined.

Lemma tick_fires_exactly_due_witness :
  exists n', tick_time_waits demo_cfg 100 demo_node = (Ok 1%nat, n') /\
    map fst (waiting (eng n')) = ["r1"; "r2"].
Proof.
  destruct (tick_fires_exactly_due demo_cfg 100 demo_node) as (n' & E1 & E2).
  - apply (bool_decide_unpack _). vm_compute. exact I.
  - reflexivity.
  - reflexivity.
  - concrete_valid.
  - exists n'. split; [exact E1|]. rewrite E2. vm_compute. reflexivity.
Defined.

Lemma registered_wait_woken_witness :
  exists n' it,
    notify_event demo_cfg 9 (register_wait demo_cfg 8 demo_node "r9" (Some "paid") "tenant" "u9" 42
      "high" (Some "corr-a") None "flow" None) "paid" (Some "corr-b") (Some "r9") true
    = (Ok 1%nat, n') /\
    dict_get "r9" (waiting (eng n')) = None /\
    queue (eng n') High = queue (eng demo_node) High ++ [it] /\
    run_callback it = 42 /\ run_id it = Some "r9" /\ execution_unit_id it = "u9".
Proof.
  apply (registered_wait_woken demo_cfg 8 9 demo_node).
  - reflexivity.
  - apply (bool_decide_unpack _). vm_compute. exact I.
  - reflexivity.
  - reflexivity.
Defined.
