(* ===== verification/RetryPolicy.v ===== *)
(** * Retry policy and failure classification (src/AINDY/core/retry_policy.py)

    Policies, their resolution, the backoff delay (in milliseconds, with the
    random jitter as an argument) and the classification every retry loop
    consults. The Prometheus counter of [record_retry_classification] is left
    out. *)

From S2P Require Import Prelude PyStr PyVal.

Definition MAX_BACKOFF_MS : Z := 10000.
Definition MAX_JITTER_MS : Z := 50.

Record RetryPolicy := Policy {
  max_attempts : Z;
  backoff_ms : Z;
  exponential_backoff : bool;
  high_risk_immediate_fail : bool;
  execution_guarantee : string
}.

Definition FLOW_NODE_DEFAULT : RetryPolicy := Policy 3 200 true false "AT_LEAST_ONCE".
Definition AGENT_LOW_MEDIUM : RetryPolicy := Policy 3 200 true false "AT_LEAST_ONCE".
Definition AGENT_HIGH_RISK : RetryPolicy := Policy 1 0 false true "EXACTLY_ONCE".
Definition ASYNC_JOB_DEFAULT : RetryPolicy := Policy 1 500 true false "AT_LEAST_ONCE".
Definition NODUS_SCHEDULED_DEFAULT : RetryPolicy := Policy 3 300 true false "AT_LEAST_ONCE".
Definition NO_RETRY : RetryPolicy := Policy 1 0 false false "AT_LEAST_ONCE".

Definition RISK_TO_AGENT_POLICY : list (string * RetryPolicy) :=
  [("low", AGENT_LOW_MEDIUM); ("medium", AGENT_LOW_MEDIUM); ("high", AGENT_HIGH_RISK)].

Definition or_str (o : option string) (d : string) : string :=
  match o with Some s => if decide (s = "") then d else s | None => d end.

Definition resolve_retry_policy (execution_type risk_level : option string)
    (node_max_retries job_max_retries : option Z) : RetryPolicy :=
  let etype := str_strip (str_lower (or_str execution_type "")) in
  if decide (etype = "flow") then
    match node_max_retries with
    | Some m => Policy (Z.max 1 m) (backoff_ms FLOW_NODE_DEFAULT)
                       (exponential_backoff FLOW_NODE_DEFAULT) false "AT_LEAST_ONCE"
    | None => FLOW_NODE_DEFAULT
    end
  else if decide (etype = "agent") then
    let risk := str_strip (str_lower (or_str risk_level "high")) in
    default AGENT_HIGH_RISK (dict_get risk RISK_TO_AGENT_POLICY)
  else if decide (etype = "job") then ASYNC_JOB_DEFAULT
  else if decide (etype = "nodus") then
    match job_max_retries with
    | Some m => Policy (Z.max 1 m) (backoff_ms NODUS_SCHEDULED_DEFAULT)
                       (exponential_backoff NODUS_SCHEDULED_DEFAULT) false "AT_LEAST_ONCE"
    | None => NODUS_SCHEDULED_DEFAULT
    end
  else NO_RETRY.

(** [_retry_delay_seconds], in milliseconds; [jitter] is the draw of
    [random.randint(0, _MAX_JITTER_MS)]. *)
Definition retry_delay_ms (policy : RetryPolicy) (attempt_number jitter : Z) : Z :=
  if (attempt_number <=? 0) || (backoff_ms policy <=? 0) then 0
  else
    let multiplier := if exponential_backoff policy then 2 ^ attempt_number else 1 in
    Z.min (backoff_ms policy * multiplier + jitter) MAX_BACKOFF_MS.

(** ** Failure classification *)

Definition FAILURE_CLASSES : list string :=
  ["transient"; "cancelled"; "permission"; "not_found"; "invalid"; "fatal"; "unknown"].
Definition RETRYABLE_CLASSES : list string := ["transient"].
Definition FAILURE_CLASS_KEY : string := "failure_class".

Definition SUBSTRING_CLASSES : list (string * string) :=
  [("permission", "permission"); ("unauthorized", "permission"); ("forbidden", "permission");
   ("blocked by policy", "permission"); ("not found", "not_found"); ("404", "not_found");
   ("401", "permission"); ("403", "permission"); ("invalid", "invalid")].

Record FailureRecord := Failure {
  fr_error : string;
  fr_class : string;
  classified_by : string;
  fr_attempt : Z;
  fr_site : string
}.

Definition retryable (r : FailureRecord) : bool := bool_decide (fr_class r ∈ RETRYABLE_CLASSES).

Definition as_dict (r : FailureRecord) : list (string * pyval) :=
  [("failure_class", VStr (fr_class r)); ("classified_by", VStr (classified_by r));
   ("attempt", VInt (fr_attempt r)); ("site", VStr (fr_site r))].

Fixpoint first_class (lower : string) (table : list (string * string)) : option string :=
  match table with
  | [] => None
  | (needle, klass) :: t => if str_in needle lower then Some klass else first_class lower t
  end.

Definition substring_class (message : string) : option string :=
  first_class (str_lower message) SUBSTRING_CLASSES.

Section Classify.
(** [str()] of a value that is not a string. *)
Variable render : pyval -> string.

Definition classify_failure (result_or_error : pyval) (site : string) (attempt : Z)
    : FailureRecord :=
  let '(declared, message) :=
    match result_or_error with
    | VDict d => (py_get FAILURE_CLASS_KEY d, py_get "error" d)
    | v => (VNone, v)
    end in
  let text := if is_None message then "" else py_str render message in
  let fallback :=
    match (if decide (text = "") then None else substring_class text) with
    | Some klass => Failure text klass "substring" attempt site
    | None => Failure text "transient" "default" attempt site
    end in
  match declared with
  | VStr c => if decide (c ∈ FAILURE_CLASSES) then Failure text c "site" attempt site else fallback
  | _ => fallback
  end.

Definition is_retryable_error (error : pyval) : bool :=
  retryable (classify_failure error "unknown" 1).

Definition decide_retry (result_or_error : pyval) (site : string) (attempt : Z)
    (attempts_allowed : bool) : bool * FailureRecord :=
  let record := classify_failure result_or_error site attempt in
  (attempts_allowed && retryable record, record).

(** ** Claims *)

Lemma first_class_in lower table c :
  first_class lower table = Some c -> exists needle, (needle, c) ∈ table /\ str_in needle lower = true.
Proof.
  induction table as [|[nd k] t IH]; simpl; [done|]. destruct (str_in nd lower) eqn:E.
  - intros [= <-]. exists nd. split; [by left|done].
  - intros H. destruct (IH H) as (n & ? & ?). exists n. split; [by right|done].
Qed.

Lemma substring_class_known text c :
  substring_class text = Some c -> c ∈ FAILURE_CLASSES /\ c <> "transient".
Proof.
  intros H. apply first_class_in in H as (nd & Hin & _).
  unfold SUBSTRING_CLASSES in Hin. unfold FAILURE_CLASSES.
  repeat (apply elem_of_cons in Hin as [[= -> ->]|Hin]; [split; [set_solver|done]|]).
  by apply not_elem_of_nil in Hin.
Qed.

(** The classification is total and decides retries by class alone:
    every failure (a result dict, a bare error of any type, or nothing) gets
    one of the declared classes; a class the raising site declared is
    returned unchanged whatever the error text says; and a retry happens
    exactly when attempts remain and the class is "transient": the class
    can veto a retry but never force one. *)
Lemma classification_decides (v : pyval) (site : string) (attempt : Z) (allowed : bool) :
  let r := classify_failure v site attempt in
  fr_class r ∈ FAILURE_CLASSES /\
  (forall d c, v = VDict d -> py_get FAILURE_CLASS_KEY d = VStr c -> c ∈ FAILURE_CLASSES ->
     fr_class r = c /\ classified_by r = "site") /\
  ((decide_retry v site attempt allowed).1 = true <-> allowed = true /\ fr_class r = "transient").
Proof.
  cbv zeta. split; [|split].
  - unfold classify_failure. cbv zeta.
    assert (Hfb : forall text a s, fr_class
      match (if decide (text = "") then None else substring_class text) with
      | Some klass => Failure text klass "substring" a s
      | None => Failure text "transient" "default" a s
      end ∈ FAILURE_CLASSES).
    { intros text a s. case_decide; simpl; [by left|].
      destruct (substring_class text) as [c|] eqn:E; simpl; [|by left].
      by apply substring_class_known in E as [? _]. }
    destruct v as [| | | | | |d];
      try (match goal with |- context [decide (?t = "")] => exact (Hfb t attempt site) end).
    destruct (py_get FAILURE_CLASS_KEY d) as [| | | |c| |]; try apply Hfb.
    case_decide; [done|apply Hfb].
  - intros d c -> Hc Hin. unfold classify_failure. rewrite Hc. by rewrite decide_True.
  - unfold decide_retry, retryable, RETRYABLE_CLASSES. simpl.
    rewrite andb_true_iff, bool_decide_eq_true, list_elem_of_singleton. done.
Qed.
End Classify.

(** Resolution is total and fails safe: every combination of arguments
    gives a policy with at least one attempt, a non-negative delay and a
    known guarantee; an agent step whose risk is not exactly low or medium
    (absent, empty and misspelled included) gets one attempt with immediate
    failure; an unknown execution type gets no retry. *)
Lemma resolve_retry_policy_safe et risk node_m job_m :
  let p := resolve_retry_policy et risk node_m job_m in
  let etype := str_strip (str_lower (or_str et "")) in
  1 <= max_attempts p /\ 0 <= backoff_ms p /\
  (etype = "agent" ->
     str_strip (str_lower (or_str risk "high")) ∉ ["low"; "medium"] -> p = AGENT_HIGH_RISK) /\
  (etype ∉ ["flow"; "agent"; "job"; "nodus"] -> p = NO_RETRY).
Proof.
  cbv zeta. unfold resolve_retry_policy. set (etype := str_strip (str_lower (or_str et ""))).
  set (r := str_strip (str_lower (or_str risk "high"))).
  destruct (decide (etype = "flow")) as [->|Hf].
  { destruct node_m; simpl; (split; [lia|split; [lia|split; [done|set_solver]]]). }
  destruct (decide (etype = "agent")) as [->|Ha].
  { cbv zeta. unfold RISK_TO_AGENT_POLICY. simpl.
    repeat case_decide; subst; simpl; (split; [lia|split; [lia|split; [|set_solver]]]);
      intros _ Hr; try done; exfalso; apply Hr; set_solver. }
  destruct (decide (etype = "job")) as [->|Hj].
  { simpl. split; [lia|split; [lia|split; [done|set_solver]]]. }
  destruct (decide (etype = "nodus")) as [->|Hn].
  { destruct job_m; simpl; (split; [lia|split; [lia|split; [done|set_solver]]]). }
  simpl. split; [lia|split; [lia|split; [done|done]]].
Qed.

Lemma resolve_retry_policy_safe_witness :
  resolve_retry_policy (Some " Agent ") (Some "extreme") None None = AGENT_HIGH_RISK /\
  resolve_retry_policy (Some "cron") None (Some 9) (Some 9) = NO_RETRY.
Proof.
  split.
  - apply (resolve_retry_policy_safe (Some " Agent ") (Some "extreme") None None);
      [reflexivity|]. apply (bool_decide_unpack _). vm_compute. exact I.
  - apply (resolve_retry_policy_safe (Some "cron") None (Some 9) (Some 9)).
    apply (bool_decide_unpack _). vm_compute. exact I.
Defined.

(** The backoff is bounded and never shrinks: for every draw of the
    jitter each delay lies between 0 and the ten-second cap, and under
    exponential backoff with a base of at least 25 ms (all shipped policies)
    a later attempt never waits less than an earlier one, whatever the two
    jitters are. *)
Lemma retry_delay_bounded_monotone p a b j1 j2 :
  0 <= j1 <= MAX_JITTER_MS -> 0 <= j2 <= MAX_JITTER_MS -> a < b ->
  0 <= retry_delay_ms p a j1 <= MAX_BACKOFF_MS /\
  (exponential_backoff p = true -> MAX_JITTER_MS <= 2 * backoff_ms p ->
   retry_delay_ms p a j1 <= retry_delay_ms p b j2).
Proof.
  intros H1 H2 Hab. unfold MAX_JITTER_MS, MAX_BACKOFF_MS in *.
  assert (Hb : forall n j, 0 <= j -> 0 <= retry_delay_ms p n j <= 10000).
  { intros n j Hj. unfold retry_delay_ms, MAX_BACKOFF_MS. case_bool; [lia|]. boolprop.
    destruct (exponential_backoff p); [|lia].
    pose proof (Z.pow_pos_nonneg 2 n ltac:(lia) ltac:(lia)). nia. }
  split; [apply Hb; lia|]. intros He Hbase. specialize (Hb b j2 ltac:(lia)).
  unfold retry_delay_ms, MAX_BACKOFF_MS in *. rewrite He in *.
  destruct ((a <=? 0) || (backoff_ms p <=? 0)) eqn:Ea; [lia|].
  apply orb_false_iff in Ea as [Ea1 Ea2]. apply Z.leb_gt in Ea1, Ea2.
  destruct ((b <=? 0) || (backoff_ms p <=? 0)) eqn:Eb.
  { apply orb_true_iff in Eb as [Eb|Eb]; apply Z.leb_le in Eb; lia. }
  assert (Hp : 2 * 2 ^ a <= 2 ^ b).
  { rewrite <- Z.pow_succ_r by lia. apply Z.pow_le_mono_r; lia. }
  assert (Hp2 : 2 <= 2 ^ a).
  { replace 2 with (2 ^ 1) at 1 by lia. apply Z.pow_le_mono_r; lia. }
  apply Z.min_le_compat_r. nia.
Qed.

Lemma retry_delay_bounded_monotone_witness :
  retry_delay_ms FLOW_NODE_DEFAULT 1 50 <= retry_delay_ms FLOW_NODE_DEFAULT 2 0.
Proof.
  apply (retry_delay_bounded_monotone FLOW_NODE_DEFAULT 1 2 50 0); vm_compute; done.
Defined.
