(* ===== verification/ConditionCodes.v ===== *)
(** * Run-status classification (src/AINDY/kernel/condition_codes.py)

    The two lifecycles (FlowRun and AgentRun), their stored strings, which
    statuses are final, and the maps reconcilers use to reflect one lifecycle
    onto the other. *)

From S2P Require Import Prelude.

Inductive FlowRunStatus := F_RUNNING | F_EXECUTING | F_WAITING | F_SUCCESS | F_FAILED | F_COMPLETED.

Definition flow_value (s : FlowRunStatus) : string :=
  match s with
  | F_RUNNING => "running" | F_EXECUTING => "executing" | F_WAITING => "waiting"
  | F_SUCCESS => "success" | F_FAILED => "failed" | F_COMPLETED => "completed"
  end.

Inductive AgentRunStatus :=
| A_PENDING_APPROVAL | A_APPROVED | A_AWAITING_DELEGATION | A_EXECUTING | A_WAITING
| A_DELEGATED | A_COMPLETED | A_FAILED | A_CANCELLED | A_VERIFY_FAILED.

Definition agent_value (s : AgentRunStatus) : string :=
  match s with
  | A_PENDING_APPROVAL => "pending_approval" | A_APPROVED => "approved"
  | A_AWAITING_DELEGATION => "awaiting_delegation" | A_EXECUTING => "executing"
  | A_WAITING => "waiting" | A_DELEGATED => "delegated" | A_COMPLETED => "completed"
  | A_FAILED => "failed" | A_CANCELLED => "cancelled" | A_VERIFY_FAILED => "verify_failed"
  end.

Definition AGENT_TERMINAL_STATUSES : list string :=
  map agent_value [A_COMPLETED; A_FAILED; A_CANCELLED; A_VERIFY_FAILED].
Definition FLOW_TERMINAL_STATUSES : list string :=
  map flow_value [F_SUCCESS; F_FAILED; F_COMPLETED].
Definition AGENT_ACTIVE_STATUSES : list string :=
  map agent_value [A_PENDING_APPROVAL; A_APPROVED; A_AWAITING_DELEGATION; A_EXECUTING;
                   A_DELEGATED; A_WAITING].
Definition FLOW_ACTIVE_STATUSES : list string :=
  map flow_value [F_RUNNING; F_EXECUTING; F_WAITING].

Definition FLOW_TO_AGENT_STATUS : list (string * string) :=
  [(flow_value F_RUNNING, agent_value A_EXECUTING);
   (flow_value F_EXECUTING, agent_value A_EXECUTING);
   (flow_value F_WAITING, agent_value A_WAITING);
   (flow_value F_SUCCESS, agent_value A_COMPLETED);
   (flow_value F_COMPLETED, agent_value A_COMPLETED);
   (flow_value F_FAILED, agent_value A_FAILED)].

Definition AGENT_TO_FLOW_STATUS : list (string * string) :=
  [(agent_value A_PENDING_APPROVAL, flow_value F_RUNNING);
   (agent_value A_APPROVED, flow_value F_RUNNING);
   (agent_value A_AWAITING_DELEGATION, flow_value F_RUNNING);
   (agent_value A_EXECUTING, flow_value F_EXECUTING);
   (agent_value A_DELEGATED, flow_value F_EXECUTING);
   (agent_value A_WAITING, flow_value F_WAITING);
   (agent_value A_COMPLETED, flow_value F_SUCCESS);
   (agent_value A_FAILED, flow_value F_FAILED);
   (agent_value A_CANCELLED, flow_value F_FAILED);
   (agent_value A_VERIFY_FAILED, flow_value F_FAILED)].

Definition is_agent_terminal (status : option string) : bool :=
  match status with Some s => bool_decide (s ∈ AGENT_TERMINAL_STATUSES) | None => false end.

Definition is_flow_terminal (status : option string) : bool :=
  match status with Some s => bool_decide (s ∈ FLOW_TERMINAL_STATUSES) | None => false end.

Definition flow_status_to_agent (flow_status : option string) : string :=
  match flow_status with
  | None => agent_value A_FAILED
  | Some s => default (agent_value A_FAILED) (dict_get s FLOW_TO_AGENT_STATUS)
  end.

Definition agent_status_to_flow (agent_status : option string) : string :=
  match agent_status with
  | None => flow_value F_FAILED
  | Some s => default (flow_value F_FAILED) (dict_get s AGENT_TO_FLOW_STATUS)
  end.

(** ** Claims *)

Lemma flow_to_agent_total s :
  flow_status_to_agent s ∈ AGENT_TERMINAL_STATUSES ++ AGENT_ACTIVE_STATUSES.
Proof.
  destruct s as [s|]; [|vm_compute; set_solver]. unfold flow_status_to_agent, FLOW_TO_AGENT_STATUS.
  simpl dict_get. repeat case_decide; simpl; apply (bool_decide_unpack _); vm_compute; exact I.
Qed.

(** The two lifecycles agree on what is finished: every status is
    terminal or active and not both; for every FlowRun status its AgentRun
    image is terminal exactly when the flow status is, and conversely; and
    going to the other lifecycle and back neither finishes an active run nor
    revives a finished one. *)
Lemma status_maps_preserve_finality :
  (forall f, is_flow_terminal (Some (flow_value f)) = negb (bool_decide (flow_value f ∈ FLOW_ACTIVE_STATUSES))
     /\ is_agent_terminal (Some (flow_status_to_agent (Some (flow_value f))))
        = is_flow_terminal (Some (flow_value f))
     /\ is_flow_terminal (Some (agent_status_to_flow (Some (flow_status_to_agent (Some (flow_value f))))))
        = is_flow_terminal (Some (flow_value f))) /\
  (forall a, is_agent_terminal (Some (agent_value a))
             = negb (bool_decide (agent_value a ∈ AGENT_ACTIVE_STATUSES))
     /\ is_flow_terminal (Some (agent_status_to_flow (Some (agent_value a))))
        = is_agent_terminal (Some (agent_value a))
     /\ is_agent_terminal (Some (flow_status_to_agent (Some (agent_status_to_flow (Some (agent_value a))))))
        = is_agent_terminal (Some (agent_value a))).
Proof. split; intros []; repeat split; vm_compute; reflexivity. Qed.
