(* ===== verification/ExecutionUnits.v ===== *)
(** * Execution units (src/AINDY/core/execution_unit_service.py, core/wait_condition.py)

    The record every flow, agent run and job leaves, its status machine, and the
    condition a waiting unit is parked on. The table is keyed by the unit's id;
    [parse_uuid] is [_coerce_uuid] of the id a caller passes, and each call reads
    the clock once. Database errors, which every method logs and answers with
    False, and the view builders over foreign rows (all but their status maps)
    are not modelled. *)

From S2P Require Import Prelude PyStr PyVal ConditionCodes.

Local Open Scope string_scope.
Local Open Scope Z_scope.
Local Open Scope list_scope.

(** ** Wait conditions *)

Definition WAIT_TYPE_EVENT : string := "event".
Definition WAIT_TYPE_TIME : string := "time".
Definition WAIT_TYPE_EXTERNAL : string := "external".
Definition VALID_TYPES : list string := [WAIT_TYPE_EVENT; WAIT_TYPE_TIME; WAIT_TYPE_EXTERNAL].

(** [trigger_at] is a UTC instant in microseconds; [event_name] and
    [correlation_id] keep whatever value a stored condition has. *)
Record WaitCondition := WaitC {
  wt_type : string;
  wt_trigger_at : option Z;
  wt_event_name : pyval;
  wt_correlation_id : pyval
}.

(** [__post_init__]; [None] is the ValueError. *)
Definition make_condition (c : WaitCondition) : option WaitCondition :=
  if decide (wt_type c ∈ VALID_TYPES) then Some c else None.

Definition opt_str (o : option string) : pyval := match o with Some s => VStr s | None => VNone end.

Section Serialisation.
(** [isoformat], and [fromisoformat] of the text read back as UTC. *)
Variable iso : Z -> string.
Variable parse_iso : string -> option Z.
Variable render : pyval -> string.

Definition to_dict (c : WaitCondition) : list (string * pyval) :=
  [("type", VStr (wt_type c));
   ("trigger_at", match wt_trigger_at c with Some t => VStr (iso t) | None => VNone end);
   ("event_name", wt_event_name c);
   ("correlation_id", wt_correlation_id c)].

Definition parse_utc_datetime (v : pyval) : option Z :=
  match v with VNone => None | _ => parse_iso (py_str render v) end.

Definition from_dict (d : list (string * pyval)) : option WaitCondition :=
  match d with
  | [] => make_condition (WaitC WAIT_TYPE_EVENT None VNone VNone)
  | _ => make_condition (WaitC (py_str render (py_or (py_get "type" d) (VStr WAIT_TYPE_EVENT)))
           (parse_utc_datetime (py_get "trigger_at" d))
           (py_or (py_get "event_name" d) VNone) (py_or (py_get "correlation_id" d) VNone))
  end.

(** A valid condition whose name and correlation are absent or not empty reads
    back as written, when [parse_iso] reads what [iso] writes. *)
Lemma condition_roundtrip c :
  (forall t, wt_trigger_at c = Some t -> parse_iso (iso t) = Some t) ->
  wt_type c ∈ VALID_TYPES ->
  (forall v, v = wt_event_name c \/ v = wt_correlation_id c -> py_truth v = true \/ v = VNone) ->
  from_dict (to_dict c) = Some c.
Proof.
  intros Hiso Hty Hv. destruct c as [ty [at_|] ev co]; simpl in *.
  all: unfold from_dict, to_dict, make_condition, py_get; simpl.
  all: assert (Hn : py_or (VStr ty) (VStr WAIT_TYPE_EVENT) = VStr ty)
    by (unfold VALID_TYPES in Hty; repeat (apply elem_of_cons in Hty as [->|Hty]; [done|]); by apply not_elem_of_nil in Hty).
  all: rewrite !Hn; simpl; rewrite decide_True by done.
  all: destruct (Hv ev (or_introl eq_refl)) as [E1| ->], (Hv co (or_intror eq_refl)) as [E2| ->];
    unfold py_or; rewrite ?E1, ?E2; simpl; rewrite ?(Hiso at_ eq_refl); done.
Qed.
End Serialisation.

Definition for_event (name : string) (corr : option string) : WaitCondition := WaitC WAIT_TYPE_EVENT None (VStr name) (opt_str corr).
Definition for_time (at_ : Z) (corr : option string) : WaitCondition := WaitC WAIT_TYPE_TIME (Some at_) VNone (opt_str corr).
Definition for_external (name : string) (corr : option string) : WaitCondition :=
  WaitC WAIT_TYPE_EXTERNAL None (VStr name) (opt_str corr).

Definition is_event_based (c : WaitCondition) : bool :=
  bool_decide (wt_type c = WAIT_TYPE_EVENT \/ wt_type c = WAIT_TYPE_EXTERNAL).
Definition is_time_based (c : WaitCondition) : bool := bool_decide (wt_type c = WAIT_TYPE_TIME).
Definition resume_event (c : WaitCondition) : pyval := if is_event_based c then wt_event_name c else VNone.

(** ** Units *)

Definition STATUS_TRANSITIONS : list (string * list string) :=
  [("pending", ["executing"; "failed"]);
   ("executing", ["waiting"; "resumed"; "completed"; "failed"]);
   ("waiting", ["resumed"; "executing"; "failed"]);
   ("resumed", ["executing"; "failed"]);
   ("completed", []); ("failed", []); ("refused", [])].

Record ExecutionUnit := EU {
  eu_type : string;
  eu_status : string;
  eu_user_id : option string;
  eu_source_type : option string;
  eu_source_id : option string;
  eu_parent_id : option string;
  eu_flow_run_id : option string;
  eu_correlation_id : option string;
  eu_memory_context_ids : list string;
  eu_output_memory_ids : list string;
  eu_wait_condition : option (list (string * pyval));
  eu_extra : pyval;
  eu_env_spec : pyval;
  eu_env_applied : pyval;
  eu_env_evidence_class : pyval;
  eu_created_at : Z;
  eu_updated_at : Z;
  eu_completed_at : option Z
}.

Definition units : Type := list (string * ExecutionUnit).

Section Service.
Variable parse_uuid : string -> option string.

(** The row a method finds. *)
Definition find_unit (id : string) (t : units) : option (string * ExecutionUnit) :=
  match parse_uuid id with
  | Some k => match dict_get k t with Some u => Some (k, u) | None => None end
  | None => None
  end.

Definition create (now : Z) (fresh ty : string) (user source_type source_id parent flow_run corr : option string)
    (extra : pyval) (status : string) (env_spec env_applied env_evidence_class : pyval) (t : units) : units :=
  dict_set fresh
    (EU ty status (user ≫= parse_uuid) source_type source_id (parent ≫= parse_uuid) flow_run corr [] [] None
       extra env_spec env_applied env_evidence_class now now None) t.

Definition set_status (now : Z) (new : string) (u : ExecutionUnit) : ExecutionUnit :=
  EU (eu_type u) new (eu_user_id u) (eu_source_type u) (eu_source_id u) (eu_parent_id u) (eu_flow_run_id u) (eu_correlation_id u)
    (eu_memory_context_ids u) (eu_output_memory_ids u) (eu_wait_condition u) (eu_extra u) (eu_env_spec u) (eu_env_applied u)
    (eu_env_evidence_class u) (eu_created_at u) now
    (if decide (new ∈ ["completed"; "failed"]) then Some now else eu_completed_at u).

Definition allowed (u : ExecutionUnit) : list string := default [] (dict_get (eu_status u) STATUS_TRANSITIONS).

Definition update_status (now : Z) (id new : string) (t : units) : units * bool :=
  match find_unit id t with
  | None => (t, false)
  | Some (k, u) => if decide (new ∈ allowed u) then (dict_set k (set_status now new u) t, true) else (t, false)
  end.

Definition RUN_TO_UNIT_TERMINAL : list (string * string) :=
  [("completed", "completed"); ("failed", "failed"); ("verify_failed", "failed"); ("cancelled", "failed");
   ("refused", "failed")].

Definition finalize_for_run_status (now : Z) (id run_status : string) (t : units) : units * bool :=
  match dict_get run_status RUN_TO_UNIT_TERMINAL with
  | None => (t, false)
  | Some target =>
      match find_unit id t with
      | None => (t, false)
      | Some (k, u) => if decide (eu_status u ∈ ["completed"; "failed"; "refused"]) then (t, false)
                       else update_status now id target t
      end
  end.

Definition set_wait (now : Z) (c : option (list (string * pyval))) (u : ExecutionUnit) : ExecutionUnit :=
  EU (eu_type u) (eu_status u) (eu_user_id u) (eu_source_type u) (eu_source_id u) (eu_parent_id u) (eu_flow_run_id u)
    (eu_correlation_id u) (eu_memory_context_ids u) (eu_output_memory_ids u) c (eu_extra u) (eu_env_spec u) (eu_env_applied u)
    (eu_env_evidence_class u) (eu_created_at u) now (eu_completed_at u).

Definition set_wait_condition (now : Z) (id : string) (c : option (list (string * pyval))) (t : units) : units * bool :=
  match find_unit id t with
  | None => (t, false)
  | Some (k, u) => (dict_set k (set_wait now c u) t, true)
  end.

Definition resume_execution_unit (now : Z) (id : string) (t : units) : units * bool :=
  match find_unit id t with
  | Some (_, u) =>
      if decide (eu_status u ∈ ["resumed"; "executing"; "completed"]) then (t, true)
      else
        let '(t, ok) := update_status now id "resumed" t in
        if ok then
          let t := match find_unit id t with
                   | Some (k, u) => match eu_wait_condition u with
                                    | Some _ => dict_set k (set_wait now None u) t
                                    | None => t
                                    end
                   | None => t
                   end in
          update_status now id "executing" t
        else (t, false)
  | None => (t, false)
  end.

Definition set_links (now : Z) (flow_run : option string) (ctx out : list string) (u : ExecutionUnit) : ExecutionUnit :=
  EU (eu_type u) (eu_status u) (eu_user_id u) (eu_source_type u) (eu_source_id u) (eu_parent_id u) flow_run (eu_correlation_id u) ctx out
    (eu_wait_condition u) (eu_extra u) (eu_env_spec u) (eu_env_applied u)
    (eu_env_evidence_class u) (eu_created_at u) now (eu_completed_at u).

Definition link_flow_run (now : Z) (id flow_run : string) (t : units) : units * bool :=
  match find_unit id t with
  | None => (t, false)
  | Some (k, u) => (dict_set k (set_links now (Some flow_run) (eu_memory_context_ids u) (eu_output_memory_ids u) u) t, true)
  end.

Definition link_memory_context (now : Z) (id : string) (ids : list string) (t : units) : units * bool :=
  match find_unit id t with
  | None => (t, false)
  | Some (k, u) => (dict_set k (set_links now (eu_flow_run_id u) ids (eu_output_memory_ids u) u) t, true)
  end.

Definition append_output_memory (now : Z) (id mid : string) (t : units) : units * bool :=
  match find_unit id t with
  | None => (t, false)
  | Some (k, u) =>
      let current := eu_output_memory_ids u in
      let current := if decide (mid ∈ current) then current else current ++ [mid] in
      (dict_set k (set_links now (eu_flow_run_id u) (eu_memory_context_ids u) current u) t, true)
  end.

(** Newest first. *)
Definition get_by_source (source_type source_id : string) (t : units) : option (string * ExecutionUnit) :=
  fold_left (fun acc ku => match acc with
                           | Some (k, u) => if eu_created_at u <? eu_created_at ku.2 then Some ku else acc
                           | None => Some ku
                           end)
    (base.filter (fun ku : string * ExecutionUnit =>
       eu_source_type ku.2 = Some source_type /\ eu_source_id ku.2 = Some source_id) t) None.

(** ** The status maps of the views *)

Definition map_agent_status (s : string) : string :=
  default "pending" (dict_get s [("pending_approval", "pending"); ("approved", "pending"); ("executing", "executing");
    ("completed", "completed"); ("failed", "failed"); ("rejected", "failed")]).

Definition map_flow_status (s : string) : string :=
  default "pending" (dict_get s [("running", "executing"); ("waiting", "waiting"); ("success", "completed");
    ("failed", "failed")]).

Definition map_job_status (s : string) : string :=
  default "pending" (dict_get s [("pending", "pending"); ("queued", "pending"); ("deferred", "pending");
    ("ignored", "pending"); ("running", "executing"); ("success", "completed"); ("completed", "completed");
    ("failed", "failed"); ("error", "failed")]).

(** ** The service as a step relation *)

Inductive eu_step : units -> units -> Prop :=
| step_create now fresh ty us st si pa fl co ex status es ea ec t :
    dict_get fresh t = None -> eu_step t (create now fresh ty us st si pa fl co ex status es ea ec t)
| step_update now id new t : eu_step t (update_status now id new t).1
| step_finalize now id rs t : eu_step t (finalize_for_run_status now id rs t).1
| step_resume now id t : eu_step t (resume_execution_unit now id t).1
| step_wait now id c t : eu_step t (set_wait_condition now id c t).1
| step_flow now id fl t : eu_step t (link_flow_run now id fl t).1
| step_memory now id ids t : eu_step t (link_memory_context now id ids t).1
| step_output now id mid t : eu_step t (append_output_memory now id mid t).1.

(** The status machine: one allowed transition. *)
Definition transition (s s' : string) : Prop := s' ∈ default [] (dict_get s STATUS_TRANSITIONS).

Definition TERMINAL : list string := ["completed"; "failed"; "refused"].

(** ** Lemmas *)

Lemma find_unit_Some id t k u : find_unit id t = Some (k, u) -> dict_get k t = Some u.
Proof.
  unfold find_unit. destruct (parse_uuid id) as [k'|]; [|done].
  destruct (dict_get k' t) eqn:E; [|done]. by intros [= <- <-].
Qed.

(** A completion time is set only on a unit that ended. *)
Definition ended_ok (u : ExecutionUnit) : Prop :=
  eu_completed_at u <> None -> eu_status u ∈ ["completed"; "failed"].

(** What the service does to a unit: its status moves along the machine, its
    creation time stays, and a completion time appears only at an end. *)
Definition moves (u u' : ExecutionUnit) : Prop :=
  rtc transition (eu_status u) (eu_status u') /\ eu_created_at u' = eu_created_at u /\ (ended_ok u -> ended_ok u').

Definition evolves (t t' : units) : Prop :=
  forall i u, dict_get i t = Some u -> exists u', dict_get i t' = Some u' /\ moves u u'.

Lemma moves_refl u : moves u u.
Proof. split_and!; [apply rtc_refl|done|done]. Qed.

Lemma evolves_refl t : evolves t t.
Proof. intros i u H. exists u. split; [done|apply moves_refl]. Qed.

Lemma evolves_trans t1 t2 t3 : evolves t1 t2 -> evolves t2 t3 -> evolves t1 t3.
Proof.
  intros H1 H2 i u Hu. destruct (H1 i u Hu) as (u2 & Hu2 & A1 & A2 & A3).
  destruct (H2 i u2 Hu2) as (u3 & Hu3 & B1 & B2 & B3). exists u3. split; [done|].
  split_and!; [by etrans|congruence|auto].
Qed.

Lemma evolves_set k u u' t : dict_get k t = Some u -> moves u u' -> evolves t (dict_set k u' t).
Proof.
  intros Hk Hm i v Hv. destruct (decide (k = i)) as [->|Hne].
  - exists u'. rewrite dict_get_set_eq. split; [done|]. by rewrite Hk in Hv; injection Hv as <-.
  - exists v. rewrite dict_get_set_ne by done. split; [done|apply moves_refl].
Qed.

Lemma terminal_stuck s s' : s ∈ TERMINAL -> ~ transition s s'.
Proof.
  unfold TERMINAL, transition. intros Hs Ht.
  repeat (apply elem_of_cons in Hs as [->|Hs]; [by apply not_elem_of_nil in Ht|]). by apply not_elem_of_nil in Hs.
Qed.

Lemma set_status_moves now new u : new ∈ allowed u -> moves u (set_status now new u).
Proof.
  intros Ha. split_and!; [by apply rtc_once|done|]. intros Hok. unfold ended_ok. simpl. case_decide as Hn; [done|].
  intros Hc. exfalso. apply (terminal_stuck (eu_status u) new); [|exact Ha].
  specialize (Hok Hc). unfold TERMINAL. set_solver.
Qed.

Lemma update_evolves now id new t : evolves t (update_status now id new t).1.
Proof.
  unfold update_status. destruct (find_unit id t) as [[k u]|] eqn:Hf; [|apply evolves_refl].
  case_decide as Ha; [|apply evolves_refl]. simpl. apply (evolves_set k u); [by eapply find_unit_Some|by apply set_status_moves].
Qed.

(** A write that leaves the status and the completion time alone. *)
Lemma keep_evolves id t (f : ExecutionUnit -> ExecutionUnit) k u :
  find_unit id t = Some (k, u) ->
  eu_status (f u) = eu_status u -> eu_created_at (f u) = eu_created_at u -> eu_completed_at (f u) = eu_completed_at u ->
  evolves t (dict_set k (f u) t).
Proof.
  intros Hf Hs Hc He. apply (evolves_set k u); [by eapply find_unit_Some|]. unfold moves, ended_ok.
  rewrite Hs, He. split_and!; [apply rtc_refl|done|done].
Qed.

Lemma resume_evolves now id t : evolves t (resume_execution_unit now id t).1.
Proof.
  unfold resume_execution_unit. destruct (find_unit id t) as [[k u]|]; [|apply evolves_refl].
  case_decide; [apply evolves_refl|]. pose proof (update_evolves now id "resumed" t) as H1.
  destruct (update_status now id "resumed" t) as [t1 []]; [|exact H1]. simpl in H1.
  eapply evolves_trans; [exact H1|]. eapply evolves_trans; [|apply update_evolves].
  destruct (find_unit id t1) as [[k1 u1]|] eqn:Hf; [|apply evolves_refl].
  destruct (eu_wait_condition u1); [|apply evolves_refl].
  by apply (keep_evolves id t1 (set_wait now None) k1 u1).
Qed.

Lemma step_evolves t t' : eu_step t t' -> evolves t t'.
Proof.
  destruct 1.
  - intros i u Hu. exists u. unfold create. rewrite dict_get_set_ne by congruence. split; [done|apply moves_refl].
  - apply update_evolves.
  - unfold finalize_for_run_status. destruct (dict_get rs _); [|apply evolves_refl].
    destruct (find_unit id t) as [[k u]|]; [|apply evolves_refl]. case_decide; [apply evolves_refl|apply update_evolves].
  - apply resume_evolves.
  - unfold set_wait_condition. destruct (find_unit id t) as [[k u]|] eqn:Hf; [|apply evolves_refl].
    by apply (keep_evolves id t (set_wait now c) k u).
  - unfold link_flow_run. destruct (find_unit id t) as [[k u]|] eqn:Hf; [|apply evolves_refl].
    by apply (keep_evolves id t (set_links now _ _ _) k u).
  - unfold link_memory_context. destruct (find_unit id t) as [[k u]|] eqn:Hf; [|apply evolves_refl].
    by apply (keep_evolves id t (set_links now _ _ _) k u).
  - unfold append_output_memory. destruct (find_unit id t) as [[k u]|] eqn:Hf; [|apply evolves_refl]. cbv zeta.
    by apply (keep_evolves id t (set_links now _ _ _) k u).
Qed.

Lemma steps_evolve t t' : rtc eu_step t t' -> evolves t t'.
Proof.
  induction 1 as [t|t1 t2 t3 H _ IH]; [apply evolves_refl|]. eapply evolves_trans; [by apply step_evolves|exact IH].
Qed.

Lemma terminal_rtc s s' : s ∈ TERMINAL -> rtc transition s s' -> s' = s.
Proof. intros Hs H. inversion H as [|a b c Ht]; subst; [done|]. exfalso. by eapply terminal_stuck. Qed.

Lemma refused_unreachable s s' : transition s s' -> s' <> "refused".
Proof.
  unfold transition. intros Ht ->. revert Ht. simpl. repeat case_decide; simpl; intros Ht;
    repeat (apply elem_of_cons in Ht as [Ht|Ht]; [discriminate Ht|]); by apply not_elem_of_nil in Ht.
Qed.

Lemma refused_rtc s s' : rtc transition s s' -> s' = "refused" -> s = "refused".
Proof.
  induction 1 as [s|s1 s2 s3 Hst _ IH]; [done|]. intros E. specialize (IH E).
  by apply refused_unreachable in Hst.
Qed.

Lemma find_unit_set id t k u v : find_unit id t = Some (k, u) -> find_unit id (dict_set k v t) = Some (k, v).
Proof.
  unfold find_unit. destruct (parse_uuid id) as [k'|]; [|done]. destruct (dict_get k' t); [|done].
  intros [= -> _]. by rewrite dict_get_set_eq.
Qed.

Lemma allowed_waiting u : eu_status u = "waiting" -> allowed u = ["resumed"; "executing"; "failed"].
Proof. unfold allowed. by intros ->. Qed.

Lemma allowed_resumed_only u :
  "resumed" ∈ allowed u -> eu_status u = "executing" \/ eu_status u = "waiting".
Proof.
  unfold allowed, STATUS_TRANSITIONS. simpl. repeat case_decide; simpl; auto; set_solver.
Qed.

Lemma allowed_terminal u : eu_status u ∈ TERMINAL -> allowed u = [].
Proof.
  unfold TERMINAL, allowed. intros Hs. by repeat (apply elem_of_cons in Hs as [->|Hs]; [done|]); apply not_elem_of_nil in Hs.
Qed.

(** Resuming a unit found in the table. *)
Lemma resume_spec now id t k u :
  find_unit id t = Some (k, u) ->
  let '(t', ok) := resume_execution_unit now id t in
  ok = bool_decide (eu_status u ∈ ["waiting"; "resumed"; "executing"; "completed"]) /\
  if decide (eu_status u = "waiting")
  then exists u', dict_get k t' = Some u' /\ eu_status u' = "executing" /\ eu_wait_condition u' = None
  else t' = t.
Proof.
  intros Hf. unfold resume_execution_unit. rewrite Hf.
  destruct (decide (eu_status u ∈ ["resumed"; "executing"; "completed"])) as [Hin|Hin].
  { rewrite bool_decide_true by set_solver. split; [done|]. rewrite decide_False; [done|].
    intros E. rewrite E in Hin. set_solver. }
  unfold update_status at 1. rewrite Hf. destruct (decide (eu_status u = "waiting")) as [Hw|Hw].
  - rewrite (allowed_waiting u Hw), Hw. simpl. rewrite (find_unit_set id t k u) by done. simpl.
    destruct (eu_wait_condition u) eqn:Hc; unfold update_status.
    + erewrite (find_unit_set id _ k) by (by apply (find_unit_set id t k u)). simpl.
      split; [done|]. eexists. by rewrite dict_get_set_eq.
    + rewrite (find_unit_set id t k u) by done. simpl. split; [done|]. eexists. by rewrite dict_get_set_eq.
  - rewrite decide_False by (intros Ha; apply allowed_resumed_only in Ha; set_solver).
    rewrite bool_decide_false by set_solver. done.
Qed.

Lemma finalize_terminal now id rs t k u :
  find_unit id t = Some (k, u) -> eu_status u ∈ TERMINAL -> finalize_for_run_status now id rs t = (t, false).
Proof.
  intros Hf Ht. unfold finalize_for_run_status. destruct (dict_get rs _); [|done]. rewrite Hf.
  by rewrite decide_True by exact Ht.
Qed.

Lemma run_target_terminal rs target : dict_get rs RUN_TO_UNIT_TERMINAL = Some target -> target ∈ TERMINAL.
Proof.
  unfold RUN_TO_UNIT_TERMINAL, TERMINAL. simpl. repeat case_decide; intros [= <-] || intros [=]; set_solver.
Qed.

(** Mirroring a run's status onto a unit found in the table. *)
Lemma finalize_spec now id rs t k u :
  find_unit id t = Some (k, u) ->
  let '(t', ok) := finalize_for_run_status now id rs t in
  match dict_get rs RUN_TO_UNIT_TERMINAL with
  | Some target => ok = bool_decide (target ∈ allowed u) /\ t' = if ok then dict_set k (set_status now target u) t else t
  | None => ok = false /\ t' = t
  end.
Proof.
  intros Hf. unfold finalize_for_run_status. destruct (dict_get rs RUN_TO_UNIT_TERMINAL) as [target|]; [|done].
  rewrite Hf. destruct (decide (eu_status u ∈ _)) as [Ht|Ht].
  - rewrite (allowed_terminal u Ht). by rewrite bool_decide_false by set_solver.
  - unfold update_status. rewrite Hf. destruct (decide (target ∈ allowed u)) as [Ha|Ha].
    + by rewrite bool_decide_true.
    + by rewrite bool_decide_false.
Qed.

(** ** Claims *)

(** The lifecycle of a unit: through any sequence of service calls a unit
    is never lost, its status only moves along the status machine, a completed,
    failed or refused unit keeps its status for ever, no unit becomes refused
    that was not created so, and a completion time is only ever set on a unit
    that ended. Resuming answers yes exactly for waiting units, which it leaves
    executing without a wait condition, and for those already past the wait,
    which it leaves alone; any other unit is refused unchanged. Mirroring a run's
    end answers yes exactly when the machine allows the unit that end, then moves
    the unit there, and no later mirror changes anything. *)
Lemma unit_lifecycle t t' :
  rtc eu_step t t' ->
  (forall i u, dict_get i t = Some u ->
     exists u', dict_get i t' = Some u' /\ rtc transition (eu_status u) (eu_status u') /\
       (eu_status u ∈ TERMINAL -> eu_status u' = eu_status u) /\
       (eu_status u' = "refused" -> eu_status u = "refused") /\
       (ended_ok u -> ended_ok u')) /\
  (forall now id k u, find_unit id t' = Some (k, u) ->
     let '(t'', ok) := resume_execution_unit now id t' in
     ok = bool_decide (eu_status u ∈ ["waiting"; "resumed"; "executing"; "completed"]) /\
     if decide (eu_status u = "waiting")
     then exists u', dict_get k t'' = Some u' /\ eu_status u' = "executing" /\ eu_wait_condition u' = None
     else t'' = t') /\
  (forall now id rs k u, find_unit id t' = Some (k, u) ->
     let '(t'', ok) := finalize_for_run_status now id rs t' in
     if ok
     then exists target, dict_get rs RUN_TO_UNIT_TERMINAL = Some target /\ target ∈ allowed u /\
          t'' = dict_set k (set_status now target u) t' /\
          forall now' rs', finalize_for_run_status now' id rs' t'' = (t'', false)
     else t'' = t' /\ forall target, dict_get rs RUN_TO_UNIT_TERMINAL = Some target -> target ∉ allowed u).
Proof.
  intros Hs. split_and!.
  - intros i u Hu. destruct (steps_evolve _ _ Hs i u Hu) as (u' & Hu' & H1 & _ & H3).
    exists u'. split_and!; [done|done| | |done].
    + intros Ht. by apply terminal_rtc.
    + by apply refused_rtc.
  - intros now id k u. apply resume_spec.
  - intros now id rs k u Hf. pose proof (finalize_spec now id rs t' k u Hf) as H.
    destruct (finalize_for_run_status now id rs t') as [t'' ok].
    destruct (dict_get rs RUN_TO_UNIT_TERMINAL) as [target|] eqn:Hr; [|by destruct H as [-> ->]].
    destruct H as [-> ->]. destruct (bool_decide_reflect (target ∈ allowed u)) as [Ha|Ha].
    + exists target. split_and!; [done..|]. intros now' rs'.
      eapply finalize_terminal; [by eapply find_unit_set|]. simpl. by eapply run_target_terminal.
    + split; [done|]. intros ? [= <-]. exact Ha.
Qed.
End Service.

(** A job that waits for an event, is resumed and completes. *)
Definition demo_units : units :=
  create Some 0 "u1" "job" None (Some "job_log") (Some "7") None None None VNone "executing" VNone VNone VNone [].

Notation waiting_units :=
  (update_status Some 2 "u1" "waiting"
     (set_wait_condition Some 1 "u1" (Some (to_dict (fun _ => "") (for_event "done" None))) demo_units).1).1.

Notation finished_units :=
  (finalize_for_run_status Some 4 "u1" "completed" (resume_execution_unit Some 3 "u1" waiting_units).1).1.

(** Witness of [unit_lifecycle] on the job's calls: it ends completed, and a
    cancellation that arrives late leaves it so. *)
Lemma unit_lifecycle_witness :
  (exists u', dict_get "u1" finished_units = Some u' /\ rtc transition "executing" (eu_status u')) /\
  finalize_for_run_status Some 5 "u1" "cancelled" finished_units = (finished_units, false) /\
  option_map eu_status (dict_get "u1" finished_units) = Some "completed".
Proof.
  assert (Hs : rtc (eu_step Some) demo_units finished_units).
  { eapply rtc_l; [apply step_wait|]. eapply rtc_l; [apply step_update|]. eapply rtc_l; [apply step_resume|].
    apply rtc_once. apply step_finalize. }
  destruct (unit_lifecycle Some _ _ Hs) as (H1 & _ & _). split_and!.
  - destruct (H1 "u1" _ eq_refl) as (u' & Hu & Hr & _). by exists u'.
  - vm_compute. reflexivity.
  - vm_compute. reflexivity.
Defined.

(** The flow view shows an executing and a completed run as pending. *)
Example flow_view_hides_execution :
  map_flow_status (flow_value F_EXECUTING) = "pending" /\ map_flow_status (flow_value F_COMPLETED) = "pending".
Proof. split; reflexivity. Qed.
