(* ===== verification/Syscalls.v ===== *)
(** * The syscall contract (src/AINDY/kernel/syscall_versioning.py, syscall_outcome.py,
      payload_identity.py; platform_layer/user_ids.py)

    Names and versions, schema validation, the outcome claims of handlers and
    the identity rule for payloads. Error texts are represented by the facts
    they report. *)

From S2P Require Import Prelude PyStr PyVal.
From Stdlib Require Import Ascii.

(** ** Names and versions (syscall_versioning.py) *)

Definition ABI_VERSIONS : list string := ["v1"].
Definition LATEST_STABLE_VERSION : string := "v1".
Definition SYSCALL_PREFIX : string := "sys.".

Record SyscallSpec := SSpec {
  ss_name : string;
  ss_version : string;
  ss_capability : string;
  ss_description : string;
  ss_input_schema : pyval;
  ss_output_schema : pyval;
  ss_stable : bool;
  ss_deprecated : bool;
  ss_deprecated_since : option string;
  ss_replacement : option string
}.

Definition full_name (s : SyscallSpec) : string :=
  "sys." +:+ ss_version s +:+ "." +:+ ss_name s.

Inductive name_error := BadPrefix | MissingVersion | EmptyVersion | EmptyAction.

Definition parse_syscall_name (name : string) : result name_error (string * string) :=
  if starts_with SYSCALL_PREFIX name then
    let rest := drop_str (String.length SYSCALL_PREFIX) name in
    match find_char "."%char rest with
    | None => Err MissingVersion
    | Some dot_idx =>
        let version := take_str dot_idx rest in
        let action := drop_str (S dot_idx) rest in
        if decide (version = "") then Err EmptyVersion
        else if decide (action = "") then Err EmptyAction
        else Ok (version, action)
    end
  else Err BadPrefix.

(** [sorted(..., reverse=True)[0]]: the greatest string. *)
Definition greatest (l : list string) : option string :=
  match l with
  | [] => None
  | x :: l' => Some (fold_left (fun a b => if String.leb a b then b else a) l' x)
  end.

Definition resolve_version (requested : string) (available : list string) (fallback : bool)
    : option string :=
  if decide (requested ∈ available) then Some requested
  else if fallback then greatest (base.filter (fun v => v ∈ available) ABI_VERSIONS)
  else None.

(** ** Schema validation (syscall_versioning.py) *)

Definition SCHEMA_TYPE_MAP : list (string * py_type) :=
  [("string", TyStr); ("str", TyStr); ("int", TyInt); ("integer", TyInt);
   ("float", TyFloat); ("number", TyFloat); ("bool", TyBool); ("boolean", TyBool);
   ("list", TyList); ("array", TyList); ("dict", TyDict); ("object", TyDict)].

(** A schema: [None] for the empty dict; otherwise its required fields and,
    per property, the declared type name if any. *)
Record schema := Schema {
  required : list string;
  properties : list (string * option string)
}.

Inductive schema_error :=
| MissingRequired (fname : string)
| WrongType (fname expected actual : string).

Definition check_required (payload : list (string * pyval)) (fname : string) : list schema_error :=
  match dict_get fname payload with
  | None | Some VNone => [MissingRequired fname]
  | Some _ => []
  end.

Definition check_property (payload : list (string * pyval)) (prop : string * option string)
    : list schema_error :=
  match dict_get prop.1 payload, prop.2 with
  | Some actual, Some tn =>
      if decide (tn = "") then []
      else match dict_get tn SCHEMA_TYPE_MAP with
           | None => []
           | Some t => if isinstance actual t then [] else [WrongType prop.1 tn (type_name actual)]
           end
  | _, _ => []
  end.

Definition validate_payload (sc : option schema) (payload : list (string * pyval))
    : list schema_error :=
  match sc with
  | None => []
  | Some sc => flat_map (check_required payload) (required sc)
               ++ flat_map (check_property payload) (properties sc)
  end.

(** ** Outcomes (syscall_outcome.py) *)

Definition OUTCOME_KEY : string := "_outcome".
Definition ENVELOPE_STATUS_SUCCESS : string := "success".
Definition ENVELOPE_STATUS_PARTIAL : string := "partial".
Definition ENVELOPE_STATUS_UNKNOWN : string := "unknown".
Definition ENVELOPE_STATUS_ERROR : string := "error".
Definition CLAIMABLE_STATUSES : list string := [ENVELOPE_STATUS_PARTIAL; ENVELOPE_STATUS_UNKNOWN].
Definition LEDGER_STATUS : list (string * string) :=
  [(ENVELOPE_STATUS_SUCCESS, "success"); (ENVELOPE_STATUS_PARTIAL, "partial");
   (ENVELOPE_STATUS_UNKNOWN, "unknown"); (ENVELOPE_STATUS_ERROR, "failed")].

Inductive refusal :=
| NotADict (ty : string) | BadStatus (v : pyval) | UnitsNotList (ty : string)
| PartialWithoutUnits | DetailNotString (ty : string).

Record ResolvedOutcome := Resolved {
  ro_status : string;
  ro_outcome : option (list (string * pyval));
  ro_refusal : option refusal
}.

Definition ledger_status (o : ResolvedOutcome) : option string :=
  dict_get (ro_status o) LEDGER_STATUS.

Definition partial_claim (units : list pyval) (detail : option string) : list (string * pyval) :=
  [("status", VStr ENVELOPE_STATUS_PARTIAL); ("units", VList units);
   ("detail", match detail with Some s => VStr s | None => VNone end)].

Definition unknown_claim (units : list pyval) (detail : option string) : list (string * pyval) :=
  [("status", VStr ENVELOPE_STATUS_UNKNOWN); ("units", VList units);
   ("detail", match detail with Some s => VStr s | None => VNone end)].

Definition resolve_outcome (data : list (string * pyval))
    : list (string * pyval) * ResolvedOutcome :=
  match dict_get OUTCOME_KEY data with
  | None => (data, Resolved ENVELOPE_STATUS_SUCCESS None None)
  | Some claim =>
      let payload := base.filter (fun kv : string * pyval => kv.1 <> OUTCOME_KEY) data in
      let refuse r := (payload, Resolved ENVELOPE_STATUS_ERROR None (Some r)) in
      match claim with
      | VDict c =>
          match py_get "status" c with
          | VStr status =>
              if decide (status ∈ CLAIMABLE_STATUSES) then
                let units := py_get "units" c in
                let detail := py_get "detail" c in
                match units with
                | VNone | VList _ =>
                    if bool_decide (status = ENVELOPE_STATUS_PARTIAL) && negb (py_truth units)
                    then refuse PartialWithoutUnits
                    else
                      match detail with
                      | VNone | VStr _ =>
                          (payload, Resolved status
                             (Some [("units", if py_truth units then units else VList []);
                                    ("detail", detail)]) None)
                      | _ => refuse (DetailNotString (type_name detail))
                      end
                | _ => refuse (UnitsNotList (type_name units))
                end
              else refuse (BadStatus (VStr status))
          | v => refuse (BadStatus v)
          end
      | v => refuse (NotADict (type_name v))
      end
  end.

Definition HELD_LEDGER_STATUSES : list string := ["partial"; "unknown"].
Definition HELD_KEY : string := "__held_outcome__".

Definition held_record_payload (data : pyval) (outcome : option (list (string * pyval))) : pyval :=
  VDict [(HELD_KEY, VDict (default [] outcome)); ("data", data)].

Record HeldOutcome := Held {
  h_status : string;
  h_data : pyval;
  h_outcome : option pyval
}.

Definition reconcile_required (h : HeldOutcome) : bool :=
  bool_decide (h_status h = ENVELOPE_STATUS_UNKNOWN).

(** [payload.get(k) or None] *)
Definition truthy_val (v : pyval) : option pyval := if py_truth v then Some v else None.

Definition held_outcome_from_record (status : string) (payload : pyval) : HeldOutcome :=
  match payload with
  | VDict d =>
      match dict_get HELD_KEY d with
      | Some o => Held status (py_get "data" d) (truthy_val o)
      | None => Held status payload None
      end
  | _ => Held status payload None
  end.

(** ** Payload identity (payload_identity.py, user_ids.py) *)

Definition PAYLOAD_USER_KEY : string := "user_id".
Definition FORWARDED_PAYLOAD_KEYS : list (string * string) :=
  [("sys.v1.job.submit", "payload"); ("sys.v1.flow.run", "initial_state");
   ("sys.v1.flow.execute_intent", "intent_data"); ("sys.v1.nodus.execute", "input_payload")].

Section Identity.
(** [str()] of a value that is not a string, and [uuid.UUID(text)]: the
    canonical spelling of a UUID, or [None] when the text is not one. *)
Variable render : pyval -> string.
Variable parse_uuid : string -> option string.

Definition parse_user_id (v : pyval) : option string :=
  match v with
  | VNone => None
  | _ => let s := py_str render v in
         match v with
         | VStr "" => None
         | _ => parse_uuid s
         end
  end.

Definition normalize_user (v : pyval) : string :=
  match parse_user_id v with
  | Some u => u
  | None => str_strip (py_str render v)
  end.

Definition payload_user_id_mismatch (payload user_id : pyval) : bool :=
  match payload with
  | VDict d =>
      match py_get PAYLOAD_USER_KEY d with
      | VNone => false
      | VStr "" => false
      | requested => bool_decide (normalize_user requested <> normalize_user user_id)
      end
  | _ => false
  end.

Definition forwarded_user_id_mismatch (syscall : string) (payload user_id : pyval) : bool :=
  match dict_get syscall FORWARDED_PAYLOAD_KEYS, payload with
  | Some key, VDict d => payload_user_id_mismatch (py_get key d) user_id
  | _, _ => false
  end.

Inductive identity_error := PayloadIdentityViolation.

Definition bind_payload_user_id (payload user_id : pyval) (syscall : string)
    : result identity_error (list (string * pyval)) :=
  let bound := match payload with VDict d => d | _ => [] end in
  if payload_user_id_mismatch (VDict bound) user_id
     || forwarded_user_id_mismatch syscall (VDict bound) user_id
  then Err PayloadIdentityViolation
  else match py_get PAYLOAD_USER_KEY bound with
       | VNone | VStr "" => Ok (dict_set PAYLOAD_USER_KEY (VStr (py_str render user_id)) bound)
       | _ => Ok bound
       end.
End Identity.

(** ** Claims *)

(** Parsing inverts naming: a name parses to version [v] and action [a]
    exactly when it is "sys." v "." a with a non-empty version that has no
    dot and a non-empty action (which may have dots); so the full name of a
    spec parses back to its version and name, and no name parses two ways. *)
Lemma parse_syscall_name_iff name v a :
  parse_syscall_name name = Ok (v, a) <->
  name = SYSCALL_PREFIX +:+ v +:+ "." +:+ a /\ v <> "" /\ no_char "."%char v = true /\ a <> "".
Proof.
  unfold parse_syscall_name. split.
  - destruct (starts_with SYSCALL_PREFIX name) eqn:Hs; [|done].
    apply starts_with_spec in Hs as [t ->]. rewrite drop_str_app. cbv zeta.
    destruct (find_char "."%char t) as [i|] eqn:Hi; [|done].
    apply find_char_Some in Hi as [Ht Hn].
    case_decide; [done|]. case_decide; [done|]. intros [= <- <-].
    split; [by rewrite Ht at 1|done].
  - intros (-> & Hv & Hn & Ha). rewrite starts_with_app, drop_str_app. cbv zeta.
    change ("." +:+ a) with (String "."%char a).
    rewrite find_char_app by done. rewrite take_str_app, decide_False by done.
    assert (Hd : drop_str (S (String.length v)) (v +:+ String "."%char a) = a).
    { clear. induction v as [|c v IH]; [reflexivity|]. rewrite app_str_cons. exact IH. }
    rewrite Hd. by rewrite decide_False.
Qed.

(** Validation accepts exactly the conforming payloads: no error is
    reported iff every required field is present and not None and every
    declared property that is present is an instance of its declared type
    (unknown type names check nothing). *)
Lemma validate_payload_iff sc payload :
  validate_payload (Some sc) payload = [] <->
  (forall f, f ∈ required sc -> exists v, dict_get f payload = Some v /\ v <> VNone) /\
  (forall f tn t v, (f, Some tn) ∈ properties sc -> tn <> "" -> dict_get tn SCHEMA_TYPE_MAP = Some t ->
     dict_get f payload = Some v -> isinstance v t = true).
Proof.
  unfold validate_payload. rewrite app_nil, !flat_map_nil.
  assert (Hreq : forall f, check_required payload f = [] <->
    exists v, dict_get f payload = Some v /\ v <> VNone).
  { intros f. unfold check_required. destruct (dict_get f payload) as [[]|]; naive_solver. }
  assert (Hprop : forall f tn, check_property payload (f, tn) = [] <->
    forall n t v, tn = Some n -> n <> "" -> dict_get n SCHEMA_TYPE_MAP = Some t ->
      dict_get f payload = Some v -> isinstance v t = true).
  { intros f tn. unfold check_property. cbn [fst snd]. split.
    - intros H n t v -> Hne Ht Hv. rewrite Hv, decide_False, Ht in H by done.
      by destruct (isinstance v t).
    - intros H. destruct (dict_get f payload) as [v|] eqn:Hv; [|done].
      destruct tn as [n|]; [|done]. case_decide; [done|].
      destruct (dict_get n SCHEMA_TYPE_MAP) as [t|] eqn:Ht; [|done]. by rewrite (H n t v). }
  split; intros [H1 H2]; split.
  - intros f Hf. by apply Hreq, H1.
  - intros f tn t v Hin. by apply (Hprop f (Some tn)); [apply H2|].
  - intros f Hf. by apply Hreq, H1.
  - intros [f tn] Hin. apply Hprop. intros n t v -> . by apply H2.
Qed.

(** An outcome is reported truthfully or refused: the reserved key
    never reaches the caller and every other key does; the status is success
    exactly when the handler made no claim; a "partial" always names at
    least one unit; a malformed claim is refused with status error and
    recorded in the ledger as failed; a well-formed one is recorded under
    its own status. *)
Lemma resolve_outcome_truthful data :
  let '(payload, o) := resolve_outcome data in
  payload = base.filter (fun kv : string * pyval => kv.1 <> OUTCOME_KEY) data /\
  (ro_status o = ENVELOPE_STATUS_SUCCESS <-> dict_get OUTCOME_KEY data = None) /\
  (ro_refusal o <> None <-> ro_status o = ENVELOPE_STATUS_ERROR) /\
  (ro_status o = ENVELOPE_STATUS_PARTIAL ->
     exists u us d, ro_outcome o = Some [("units", VList (u :: us)); ("detail", d)]) /\
  ledger_status o = Some (if decide (ro_status o = ENVELOPE_STATUS_ERROR) then "failed"
                          else ro_status o).
Proof.
  unfold resolve_outcome. destruct (dict_get OUTCOME_KEY data) as [claim|] eqn:Hk.
  2: { split; [|split; [done|split; [done|split; [done|done]]]].
       symmetry. apply list_filter_all. intros [k v] Hin. simpl. intros ->.
       apply dict_get_None in Hk. apply Hk. apply list_elem_of_fmap. by exists (OUTCOME_KEY, v). }
  cbv zeta.
  destruct claim as [| | | | | |c]; try (split; [done|split; [done|split; [done|split; done]]]).
  destruct (py_get "status" c) as [| | | |st| |];
    try (split; [done|split; [done|split; [done|split; done]]]).
  case_decide as Hst; [|split; [done|split; [done|split; [done|split; done]]]].
  assert (Hs : st = ENVELOPE_STATUS_PARTIAL \/ st = ENVELOPE_STATUS_UNKNOWN) by set_solver.
  destruct (py_get "units" c) as [| | | | |l|];
    try (split; [done|split; [done|split; [done|split; done]]]);
    destruct (py_get "detail" c) as [| | | |dt| |]; destruct Hs as [-> | ->]; simpl;
    try destruct l as [|u us]; simpl;
    (split; [done|split; [done|split; [done|split; [|done]]]]); intros; try done; eauto.
Qed.

(** A held effect replays what was recorded: a partial claim with at
    least one unit passes the dispatcher unchanged, and reading back the
    ledger row written for it gives the same data and the same outcome; an
    unknown outcome is marked for reconciliation and a partial one is not. *)
Lemma held_outcome_roundtrip data u us detail :
  OUTCOME_KEY ∉ dict_keys data ->
  let '(payload, o) :=
    resolve_outcome ((OUTCOME_KEY, VDict (partial_claim (u :: us) detail)) :: data) in
  payload = data /\ ro_status o = ENVELOPE_STATUS_PARTIAL /\
  held_outcome_from_record (ro_status o) (held_record_payload (VDict payload) (ro_outcome o))
  = Held ENVELOPE_STATUS_PARTIAL (VDict data) (VDict <$> ro_outcome o) /\
  reconcile_required (Held (ro_status o) (VDict payload) None) = false.
Proof.
  intros Hn. unfold resolve_outcome. simpl dict_get. cbv zeta.
  rewrite filter_cons, decide_False by (simpl; tauto).
  assert (Hf : base.filter (fun kv : string * pyval => kv.1 <> OUTCOME_KEY) data = data).
  { apply list_filter_all. intros [k v] Hin. simpl. intros ->.
    apply Hn. apply list_elem_of_fmap. by exists (OUTCOME_KEY, v). }
  rewrite Hf. by destruct detail.
Qed.

Lemma held_outcome_roundtrip_witness :
  (resolve_outcome ((OUTCOME_KEY, VDict (partial_claim [VStr "row-1 ok"; VStr "row-2 failed"] None))
     :: [("count", VInt 2)])).1 = [("count", VInt 2)].
Proof.
  pose proof (held_outcome_roundtrip [("count", VInt 2)] (VStr "row-1 ok") [VStr "row-2 failed"] None) as H.
  destruct (resolve_outcome _) as [p o]. apply H.
  apply (bool_decide_unpack _). vm_compute. exact I.
Defined.

(** A payload never chooses the user it acts on: for an authenticated
    caller [uid], binding either refuses (exactly when the payload, or the
    part of it the syscall forwards, names another user) or returns the
    payload with a user id that is the caller's and all other keys
    unchanged; the forwarded part of what it returns names nobody else. *)
Lemma bound_payload_is_the_callers render parse_uuid payload uid syscall :
  uid <> "" ->
  let mismatch p := payload_user_id_mismatch render parse_uuid p (VStr uid) in
  let fwd p := forwarded_user_id_mismatch render parse_uuid syscall p (VStr uid) in
  match bind_payload_user_id render parse_uuid payload (VStr uid) syscall with
  | Err _ => exists d, payload = VDict d /\ (mismatch payload = true \/ fwd payload = true)
  | Ok b =>
      normalize_user render parse_uuid (py_get PAYLOAD_USER_KEY b)
        = normalize_user render parse_uuid (VStr uid) /\
      fwd (VDict b) = false /\
      forall k, k <> PAYLOAD_USER_KEY ->
        py_get k b = py_get k (match payload with VDict d => d | _ => [] end)
  end.
Proof.
  intros Hu. cbv zeta. unfold bind_payload_user_id.
  set (bound := match payload with VDict d => d | _ => [] end).
  assert (Hfwd : forall v, forwarded_user_id_mismatch render parse_uuid syscall (VDict bound) (VStr uid) = false ->
    forwarded_user_id_mismatch render parse_uuid syscall (VDict (dict_set PAYLOAD_USER_KEY v bound)) (VStr uid) = false).
  { intros v. unfold forwarded_user_id_mismatch.
    destruct (dict_get syscall FORWARDED_PAYLOAD_KEYS) as [key|] eqn:Hk; [|done].
    rewrite py_get_set_ne; [done|]. intros <-. revert Hk. unfold FORWARDED_PAYLOAD_KEYS. simpl.
    repeat case_decide; done. }
  case_bool.
  - assert (Hnil : forwarded_user_id_mismatch render parse_uuid syscall (VDict []) (VStr uid) = false).
    { unfold forwarded_user_id_mismatch. by destruct (dict_get syscall FORWARDED_PAYLOAD_KEYS). }
    destruct payload as [| | | | | |d]; subst bound; rewrite ?Hnil in Hif; try done.
    apply orb_true_iff in Hif. eauto.
  - apply orb_false_iff in Hif as [Hm Hf].
    destruct (py_get PAYLOAD_USER_KEY bound) as [| | | |s0| |] eqn:Hg;
      [|unfold payload_user_id_mismatch in Hm; rewrite Hg in Hm; apply bool_decide_eq_false in Hm;
        apply dec_stable in Hm; rewrite Hg; done..| | |].
    all: try (unfold payload_user_id_mismatch in Hm; rewrite Hg in Hm; apply bool_decide_eq_false in Hm;
        apply dec_stable in Hm; rewrite Hg; done).
    + rewrite py_get_set_eq. split; [done|]. split; [by apply Hfwd|].
      intros k Hk. by rewrite py_get_set_ne.
    + destruct s0 as [|c s0].
      * rewrite py_get_set_eq. split; [done|]. split; [by apply Hfwd|].
        intros k Hk. by rewrite py_get_set_ne.
      * unfold payload_user_id_mismatch in Hm. rewrite Hg in Hm. apply bool_decide_eq_false in Hm.
        apply dec_stable in Hm. by rewrite Hg.
Qed.

Lemma bound_payload_is_the_callers_witness :
  exists b, bind_payload_user_id (fun _ => "") (fun _ => None)
    (VDict [("x", VInt 1); ("payload", VDict [("user_id", VStr " alice ")])]) (VStr "alice")
    "sys.v1.job.submit" = Ok b /\ py_get "user_id" b = VStr "alice" /\
    normalize_user (fun _ => "") (fun _ => None) (py_get PAYLOAD_USER_KEY b)
      = normalize_user (fun _ => "") (fun _ => None) (VStr "alice").
Proof.
  pose proof (bound_payload_is_the_callers (fun _ => "") (fun _ => None)
    (VDict [("x", VInt 1); ("payload", VDict [("user_id", VStr " alice ")])]) "alice"
    "sys.v1.job.submit" ltac:(discriminate)) as H.
  eexists. split; [reflexivity|]. split; [reflexivity|]. exact (proj1 H).
Defined.
