(* ===== verification/MemoryAddress.v ===== *)
(** * Memory address space and tenant isolation

    kernel/tenant_context.py and memory/memory_address_space.py: the one
    tenant-path rule, the tenant context built on it, path normalisation,
    parsing and building, the path of a write payload, and the tree of
    nodes.  Paths are ASCII strings; [uuid4] and [str()] of values that are
    not strings are parameters. *)

From S2P Require Import Prelude PyStr PyVal.
From Stdlib Require Import Ascii.

Local Open Scope string_scope.
Local Open Scope py_scope.

Definition slash : ascii := "/"%char.
Definition is_slash (c : ascii) : bool := if ascii_dec c slash then true else false.

Definition MAS_ROOT : string := "/memory".
Definition LEGACY_NAMESPACE : string := "_legacy".

Inductive mas_error := ValueError | PermissionError | TypeError_.
#[export] Instance mas_error_eq_dec : EqDecision mas_error.
Proof. solve_decision. Defined.

(** ** The tenant-path rule (tenant_context.py) *)

(** [re.sub("/+", "/", s)] *)
Fixpoint collapse (s : string) : string :=
  match s with
  | EmptyString => EmptyString
  | String c s' =>
      if ascii_dec c slash then
        match s' with
        | String d _ => if ascii_dec d slash then collapse s' else String c (collapse s')
        | EmptyString => String c EmptyString
        end
      else String c (collapse s')
  end.

(** [if s != MEMORY_ROOT and s.endswith("/"): s = s.rstrip("/")] *)
Definition drop_trailing (s : string) : string :=
  if bool_decide (s <> MAS_ROOT) && ends_with "/" s then rstrip is_slash s else s.

Definition tenant_owns_memory_path (path tenant_id : string) : bool :=
  let cleaned := drop_trailing (collapse (str_strip path)) in
  let root := MAS_ROOT +:+ "/" +:+ tenant_id in
  bool_decide (cleaned = root) || starts_with (root +:+ "/") cleaned.

Record TenantContext := TCtx {
  tenant_id : string;
  user_id : string;
  namespace : string;
  capability_scope : list string
}.

Definition memory_prefix (c : TenantContext) : string := MAS_ROOT +:+ "/" +:+ tenant_id c +:+ "/".

Definition validate_memory_path (c : TenantContext) (path : string) : bool :=
  tenant_owns_memory_path path (tenant_id c).

Definition assert_memory_path (c : TenantContext) (path : string) : result mas_error unit :=
  if validate_memory_path c path then Ok () else Err PermissionError.

Definition assert_same_tenant (c : TenantContext) (other : string) : result mas_error unit :=
  if decide (other = tenant_id c) then Ok () else Err PermissionError.

Definition has_capability (c : TenantContext) (cap : string) : bool :=
  bool_decide (cap ∈ capability_scope c).

Definition assert_capability (c : TenantContext) (cap : string) : result mas_error unit :=
  if has_capability c cap then Ok () else Err PermissionError.

(** [str(a or b or "")] on optional strings. *)
Definition first_truthy (a b : option string) : string :=
  match a with
  | Some (String _ _ as s) => s
  | _ => default "" b
  end.

Definition build_tenant_context (uid : option string) (caps : option (list string))
    (tid : option string) : TenantContext :=
  let resolved_tenant := first_truthy tid uid in
  TCtx resolved_tenant (default "" uid) ("tenant:" +:+ resolved_tenant) (default [] caps).

(** ** Paths (memory_address_space.py) *)

Definition normalize_path (path : string) : result mas_error string :=
  if decide (path = "") then Err ValueError
  else let cleaned := collapse (str_strip path) in
       if starts_with MAS_ROOT cleaned then Ok (drop_trailing cleaned) else Err ValueError.

Definition validate_tenant_path (path tenant_id : string) : result mas_error unit :=
  if tenant_owns_memory_path path tenant_id then Ok () else Err PermissionError.

Record parsed_path := Parsed {
  pp_tenant_id : option string;
  pp_namespace : option string;
  pp_addr_type : option string;
  pp_node_id : option string
}.

(** [segs[i] or None] when the list is long enough, [None] otherwise. *)
Definition seg (segs : list string) (i : nat) : option string :=
  match segs !! i with
  | Some (String _ _ as s) => Some s
  | _ => None
  end.

Definition parse_path (path : string) : result mas_error parsed_path :=
  let? p := normalize_path path in
  let segs := split_char slash p in
  Ok (Parsed (seg segs 2) (seg segs 3) (seg segs 4) (seg segs 5)).

(** The list as strings, [None] when a member is not one ([str.join] raises). *)
Fixpoint all_strs (l : list pyval) : option (list string) :=
  match l with
  | [] => Some []
  | VStr s :: l' => match all_strs l' with Some r => Some (s :: r) | None => None end
  | _ => None
  end.

Section Build.
Variable render : pyval -> string.

Definition build_path (tenant_id namespace addr_type node_id : pyval) : result mas_error string :=
  if negb (py_truth tenant_id) then Err ValueError
  else if py_truth addr_type && negb (py_truth namespace) then Err ValueError
  else if py_truth node_id && negb (py_truth namespace && py_truth addr_type) then Err ValueError
  else match all_strs (VStr MAS_ROOT :: tenant_id
                       :: (if py_truth namespace then [namespace] else [])
                       ++ (if py_truth addr_type then [addr_type] else [])
                       ++ (if py_truth node_id then [VStr (py_str render node_id)] else []))%list with
       | Some parts => Ok (join_char slash parts)
       | None => Err TypeError_
       end.

(** [uuid] is the value of [str(uuid.uuid4())]. *)
Definition generate_node_path (uuid : string) (tenant_id namespace addr_type : pyval)
    : result mas_error (string * string) :=
  let? full_path := build_path tenant_id namespace addr_type (VStr uuid) in
  Ok (full_path, uuid).

Definition derive_legacy_path (uuid : string) (node : list (string * pyval))
    : result mas_error string :=
  let user_id := py_or (py_get "user_id" node) (VStr "unknown") in
  let memory_type := py_or (py_or (py_get "memory_type" node) (py_get "node_type" node))
                           (VStr "insight") in
  let node_id := py_or (py_get "id" node) (VStr uuid) in
  build_path user_id (VStr LEGACY_NAMESPACE) memory_type node_id.

Definition opt_val (o : option string) (d : pyval) : pyval :=
  match o with Some s => VStr s | None => d end.

Definition path_from_write_payload (uuid : string) (payload : list (string * pyval))
    (tenant_id : string) : result mas_error (string * pyval * pyval) :=
  let node_type := default (VStr "general") (dict_get "node_type" payload) in
  let generate ns at_ :=
    let? gen := generate_node_path uuid (VStr tenant_id) ns at_ in
    Ok (gen.1, ns, at_) in
  if py_truth (py_get "path" payload) then
    match py_get "path" payload with
    | VStr path =>
        let? raw := normalize_path path in
        let? _ := validate_tenant_path raw tenant_id in
        let? parsed := parse_path raw in
        let ns := opt_val (pp_namespace parsed) (VStr "general") in
        let at_ := opt_val (pp_addr_type parsed) node_type in
        match pp_node_id parsed with
        | Some _ => Ok (raw, ns, at_)
        | None => generate ns at_
        end
    | _ => Err TypeError_
    end
  else
    generate (py_or (py_get "namespace" payload) (VStr "general"))
             (py_or (py_get "addr_type" payload) node_type).

Definition enrich_node_with_path (uuid : string) (node : list (string * pyval))
    : result mas_error (list (string * pyval)) :=
  if py_truth (py_get "path" node) then Ok node
  else let? p := derive_legacy_path uuid node in Ok (dict_set "path" (VStr p) node).
End Build.

(** [s.rfind(c)], [-1] as [None]. *)
Fixpoint rfind_char (c : ascii) (s : string) : option nat :=
  match s with
  | EmptyString => None
  | String a s' =>
      match rfind_char c s' with
      | Some i => Some (S i)
      | None => if ascii_dec a c then Some 0%nat else None
      end
  end.

Definition parent_path_of (path : string) : result mas_error string :=
  let? p := normalize_path path in
  match rfind_char slash p with
  | Some idx => if Nat.leb idx (String.length MAS_ROOT) then Ok MAS_ROOT else Ok (take_str idx p)
  | None => Ok MAS_ROOT
  end.

Definition is_exact (path : string) : bool := negb (str_in "*" path) && negb (str_in "**" path).

Definition is_wildcard (path : string) : result mas_error bool :=
  let? p := normalize_path path in Ok (ends_with "/*" p && negb (ends_with "/**" p)).

Definition is_recursive (path : string) : result mas_error bool :=
  let? p := normalize_path path in Ok (ends_with "/**" p).

Definition wildcard_prefix (path : string) : result mas_error string :=
  let? p := normalize_path path in
  if ends_with "/**" p then Ok (take_str (String.length p - 3) p)
  else if ends_with "/*" p then Ok (take_str (String.length p - 2) p)
  else parent_path_of p.

(** ** The node tree (build_tree, flatten_tree) *)

Definition mnode : Type := list (string * pyval).

Record tree_entry := Entry {
  te_node : mnode;
  te_children : list string
}.

Definition tree : Type := list (string * tree_entry).

(** The path of a node: [n.get("path") or derive_legacy_path(n)]; [uuid]
    supplies the fresh id of a node that has none. *)
Definition node_path (render : pyval -> string) (uuid : string) (n : mnode) : result mas_error string :=
  match py_get "path" n with
  | VStr (String _ _ as s) => Ok s
  | v => if py_truth v then Err TypeError_ else derive_legacy_path render uuid n
  end.

(** First loop of [build_tree]: [by_path] and [children_map]. *)
Fixpoint index_nodes (render : pyval -> string) (nodes : list (string * mnode))
    (by_path : tree) (children_map : list (string * list string))
    : result mas_error (tree * list (string * list string)) :=
  match nodes with
  | [] => Ok (by_path, children_map)
  | (uuid, n) :: nodes' =>
      let? path := node_path render uuid n in
      let? parent := parent_path_of path in
      index_nodes render nodes' (dict_set path (Entry n []) by_path)
        (dict_set parent (default [] (dict_get parent children_map) ++ [path])%list children_map)
  end.

(** Second loop: attach the children of the parents that are nodes. *)
Fixpoint attach_children (children_map : list (string * list string)) (by_path : tree) : tree :=
  match children_map with
  | [] => by_path
  | (parent, child_paths) :: cm =>
      attach_children cm
        (match dict_get parent by_path with
         | Some e => dict_set parent (Entry (te_node e) child_paths) by_path
         | None => by_path
         end)
  end.

(** Each node comes with the uuid that [derive_legacy_path] would draw. *)
Definition build_tree (render : pyval -> string) (nodes : list (string * mnode))
    : result mas_error tree :=
  let? idx := index_nodes render nodes [] [] in
  Ok (attach_children idx.2 idx.1).

(** [_walk]: visited paths and the result so far. The fuel bounds the depth
    of the recursion, which visits a new key of the tree at every level. *)
Fixpoint walk (fuel : nat) (t : tree) (path : string) (st : list string * list mnode)
    : list string * list mnode :=
  match fuel with
  | O => st
  | S f =>
      if decide (path ∈ st.1) then st
      else match dict_get path t with
           | None => st
           | Some e => foldl (fun st c => walk f t c st)
                         (path :: st.1, (st.2 ++ [te_node e])%list) (te_children e)
           end
  end.

Fixpoint roots_of (t : tree) (paths : list string) : result mas_error (list string) :=
  match paths with
  | [] => Ok []
  | p :: ps =>
      let? parent := parent_path_of p in
      let? rest := roots_of t ps in
      Ok (if dict_get parent t then rest else p :: rest)
  end.

Definition flatten_with (fuel : nat) (t : tree) : result mas_error (list mnode) :=
  let? roots := roots_of t (dict_keys t) in
  Ok (foldl (fun st p => walk fuel t p st) ([], []) (py_sorted roots ++ py_sorted (dict_keys t))%list).2.

Definition flatten_tree (t : tree) : result mas_error (list mnode) :=
  flatten_with (S (length t)) t.

(** ** Segments of a path *)

Fixpoint rend (l : list string) : string :=
  match l with [] => "" | s :: l' => String slash (s +:+ rend l') end.

Definition nonempty (l : list string) : list string := base.filter (fun s => s <> "") l.

(** The non-empty segments of a path that starts with a slash. *)
Definition segments (path : string) : option (list string) :=
  match split_char slash (str_strip path) with
  | "" :: xs => Some (nonempty xs)
  | _ => None
  end.

Lemma split_cons_ne c s : c <> slash -> exists y ys,
  split_char slash s = y :: ys /\ split_char slash (String c s) = String c y :: ys.
Proof.
  intros Hc. simpl. destruct (ascii_dec c slash); [done|].
  pose proof (split_char_nonempty slash s). destruct (split_char slash s) as [|y ys]; [done|].
  by exists y, ys.
Qed.

(** Collapsing and trimming keeps the first segment and the non-empty ones. *)
Lemma clean_segments s x xs :
  split_char slash s = x :: xs -> rstrip is_slash (collapse s) = x +:+ rend (nonempty xs).
Proof.
  revert x xs. induction s as [|c s IH]; intros x xs Hs.
  { injection Hs as <- <-. done. }
  destruct (ascii_dec c slash) as [->|Hc].
  - simpl in Hs. destruct (ascii_dec slash slash); [|done]. injection Hs as <- <-.
    rewrite app_str_nil_l. cbn [collapse]. destruct (ascii_dec slash slash); [|done].
    destruct s as [|d s]; [done|]. destruct (ascii_dec d slash) as [->|Hd].
    + rewrite (IH "" (split_char slash s)); [done|]. simpl. by destruct (ascii_dec slash slash).
    + destruct (split_cons_ne d s Hd) as (y & ys & _ & E). rewrite E in *.
      cbn [rstrip]. rewrite (IH _ _ eq_refl). unfold nonempty. rewrite filter_cons, decide_True by done.
      done.
  - destruct (split_cons_ne c s Hc) as (y & ys & E1 & E2). rewrite E2 in Hs. injection Hs as <- <-.
    cbn [collapse]. destruct (ascii_dec c slash); [done|]. cbn [rstrip]. rewrite (IH _ _ E1).
    unfold is_slash. destruct (ascii_dec c slash); [done|]. app_simp.
    by destruct (y +:+ rend (nonempty ys)).
Qed.

Lemma rstrip_id_slash s : ends_with "/" s = false -> rstrip is_slash s = s.
Proof.
  induction s as [|c s IH]; [done|]. intros H. destruct s as [|d s].
  - unfold ends_with in H. simpl in H. apply bool_decide_eq_false in H. simpl.
    unfold is_slash. by destruct (ascii_dec c slash) as [->|].
  - change (rstrip is_slash (String c (String d s))) with
      (match rstrip is_slash (String d s) with
       | "" => if is_slash c then "" else String c "" | r => String c r end).
    rewrite IH; [done|]. revert H. unfold ends_with. simpl. by rewrite Nat.sub_0_r.
Qed.

Lemma drop_trailing_rstrip s : drop_trailing s = rstrip is_slash s.
Proof.
  unfold drop_trailing. destruct (decide (s = MAS_ROOT)) as [->|Hne]; [done|].
  rewrite bool_decide_eq_true_2 by done. simpl. destruct (ends_with "/" s) eqn:E; [done|].
  symmetry. by apply rstrip_id_slash.
Qed.

Definition slash_free (s : string) : Prop := no_char slash s = true.

Lemma nonempty_slash_free l : Forall slash_free l -> Forall slash_free (nonempty l).
Proof.
  intros H. apply Forall_forall. intros x Hx. apply list_elem_of_filter in Hx as [_ Hx].
  by eapply Forall_forall in H.
Qed.

Lemma split_rend l : Forall slash_free l -> split_char slash (rend l) = "" :: l.
Proof.
  induction l as [|s l IH]; intros H; [done|]. apply Forall_cons in H as [Hs Hl].
  cbn [rend split_char]. destruct (ascii_dec slash slash); [|done]. f_equal.
  specialize (IH Hl). destruct l as [|s' l]; cbn [rend] in *.
  - rewrite app_str_nil_r. by apply split_no_char.
  - rewrite split_app by done. cbn [split_char] in IH.
    destruct (ascii_dec slash slash); [|done]. by injection IH as ->.
Qed.

Lemma segments_spec path l :
  segments path = Some l <->
  Forall slash_free l /\ Forall (fun s => s <> "") l /\
  rstrip is_slash (collapse (str_strip path)) = rend l.
Proof.
  unfold segments. pose proof (split_char_no_char slash (str_strip path)) as Hall.
  destruct (split_char slash (str_strip path)) as [|x xs] eqn:Hs; [by apply split_char_nonempty in Hs|].
  rewrite (clean_segments _ _ _ Hs). apply Forall_cons in Hall as [Hx Hxs].
  pose proof (nonempty_slash_free xs Hxs) as Hn.
  assert (Hne : Forall (fun s => s <> "") (nonempty xs)).
  { apply Forall_forall. intros y Hy. by apply list_elem_of_filter in Hy as [? _]. }
  split.
  - destruct x; [|done]. intros [= <-]. by rewrite app_str_nil_l.
  - intros (Hl & _ & E). assert (x = "") as ->.
    { destruct x as [|c x]; [done|]. destruct l as [|s l]; [done|]. exfalso. app_simp.
      injection E as -> _. done. }
    rewrite app_str_nil_l in E. f_equal.
    apply (f_equal (split_char slash)) in E. rewrite !split_rend in E by done. by injection E.
Qed.

Lemma rend_cons s l : rend (s :: l) = String slash (s +:+ rend l).
Proof. done. Qed.

(** The rule in terms of segments, for a tenant id without a slash. *)
Lemma owns_segments path t :
  slash_free t ->
  tenant_owns_memory_path path t = true <->
  exists rest, segments path = Some ("memory" :: t :: rest) /\ t <> "".
Proof.
  intros Ht. unfold tenant_owns_memory_path. rewrite drop_trailing_rstrip.
  set (c := rstrip is_slash (collapse (str_strip path))).
  assert (Hroot : MAS_ROOT +:+ "/" +:+ t = rend ["memory"; t]).
  { simpl. by rewrite app_str_nil_r. }
  rewrite Hroot, orb_true_iff, bool_decide_eq_true, starts_with_spec. split.
  - pose proof (split_char_no_char slash (str_strip path)) as Hall.
    destruct (split_char slash (str_strip path)) as [|x xs] eqn:Hs; [by apply split_char_nonempty in Hs|].
    assert (Hc : c = x +:+ rend (nonempty xs)) by apply (clean_segments _ _ _ Hs).
    apply Forall_cons in Hall as [Hx Hxs]. pose proof (nonempty_slash_free xs Hxs) as Hn.
    intros Hown. assert (exists rest, split_char slash c = "" :: "memory" :: t :: rest) as [rest Hrest].
    { destruct Hown as [-> | [u ->]].
      - exists []. rewrite split_rend; [done|]. by repeat constructor.
      - exists (split_char slash u). simpl. rewrite app_str_nil_r. rewrite app_str_assoc.
        change ("/" +:+ u) with (String slash u). rewrite split_app by done. done. }
    assert (x = "") as ->.
    { destruct x as [|ch x]; [done|]. exfalso. rewrite Hc in Hrest. simpl in Hx.
      destruct (ascii_dec ch slash); [done|]. app_simp. destruct (ascii_dec ch slash); [done|].
      destruct (split_char slash (x +:+ rend (nonempty xs))); done. }
    rewrite Hc, app_str_nil_l, split_rend in Hrest by done. injection Hrest as Hrest.
    exists rest. split.
    + unfold segments. by rewrite Hs, Hrest.
    + assert (Hin : t ∈ nonempty xs) by (rewrite Hrest; set_solver).
      by apply list_elem_of_filter in Hin as [? _].
  - intros (rest & Hseg & _). apply segments_spec in Hseg as (_ & _ & Hc).
    fold c in Hc. rewrite Hc. destruct rest as [|r rest]; [by left|]. right.
    exists (r +:+ rend rest). cbn [rend]. rewrite ?app_str_nil_r. app_simp. rewrite !app_str_assoc. done.
Qed.

(** ** Building and stripping *)

Fixpoint no_space (s : string) : bool :=
  match s with "" => true | String c s' => negb (is_space c) && no_space s' end.

(** A component of a path: not empty, without slash or white space. *)
Definition component (s : string) : Prop := s <> "" /\ slash_free s /\ no_space s = true.

Lemma rstrip_app p (s u : string) : rstrip p u <> "" -> rstrip p (s +:+ u) = s +:+ rstrip p u.
Proof.
  intros Hu. induction s as [|c s IH]; [done|]. rewrite !app_str_cons. cbn [rstrip]. rewrite IH.
  destruct (s +:+ rstrip p u) eqn:E; [|done]. exfalso. destruct s; [|done]. app_simp. done.
Qed.

Lemma rstrip_no_space s : no_space s = true -> rstrip is_space s = s.
Proof.
  induction s as [|c s IH]; [done|]. cbn [no_space rstrip]. intros H. boolprop. rewrite IH by done.
  destruct s; [|done]. by destruct (is_space c).
Qed.

(** A path that starts with a slash and ends with a component is not stripped. *)
Lemma strip_path s u : component u -> str_strip (String slash s +:+ u) = String slash s +:+ u.
Proof.
  intros (Hne & _ & Hsp). unfold str_strip. rewrite app_str_cons. cbn [lstrip].
  change (is_space slash) with false. cbv iota. rewrite <- app_str_cons.
  rewrite rstrip_app; rewrite rstrip_no_space; done.
Qed.

Lemma join_rend s l : join_char slash (s :: l) = s +:+ rend l.
Proof.
  revert s. induction l as [|s' l IH]; intros s; [by rewrite app_str_nil_r|].
  change (join_char slash (s :: s' :: l)) with (s +:+ String slash (join_char slash (s' :: l))).
  by rewrite IH.
Qed.

Lemma rend_app l1 l2 : rend (l1 ++ l2)%list = rend l1 +:+ rend l2.
Proof.
  induction l1 as [|s l IH]; [done|]. cbn [rend app]. rewrite IH. app_simp. by rewrite app_str_assoc.
Qed.

Lemma strip_rend l u : component u -> str_strip (rend (l ++ [u])%list) = rend (l ++ [u])%list.
Proof.
  intros Hu. rewrite rend_app. cbn [rend]. rewrite app_str_nil_r.
  change (String slash u) with (String slash "" +:+ u). rewrite <- app_str_assoc.
  destruct l as [|s l]; [by apply strip_path|]. cbn [rend]. rewrite app_str_cons. by apply strip_path.
Qed.

Lemma nonempty_components l : Forall component l -> nonempty l = l.
Proof.
  intros H. apply list_filter_all. intros x Hx. eapply Forall_forall in H; [|done]. by destruct H.
Qed.

Lemma components_slash_free l : Forall component l -> Forall slash_free l.
Proof. intros H. eapply Forall_impl; [exact H|]. by intros x (_ & ? & _). Qed.

Lemma normalize_rend l u :
  Forall component (l ++ [u]) ->
  normalize_path (rend ("memory" :: l ++ [u])%list) = Ok (rend ("memory" :: l ++ [u])%list).
Proof.
  intros Hall. assert (Hm : Forall component ("memory" :: l ++ [u])) by (constructor; [done|done]).
  assert (Hu : component u) by (apply Forall_app in Hall as [_ Hu]; by apply Forall_cons in Hu as [? _]).
  unfold normalize_path. rewrite decide_False by done.
  pose proof (strip_rend ("memory" :: l) u Hu) as Hst. cbn [app] in Hst. rewrite Hst.
  pose proof (split_rend _ (components_slash_free _ Hm)) as Hs.
  pose proof (clean_segments _ _ _ Hs) as Hc. rewrite nonempty_components, app_str_nil_l in Hc by done.
  cbv zeta. rewrite drop_trailing_rstrip, Hc.
  assert (starts_with MAS_ROOT (collapse (rend ("memory" :: l ++ [u])%list)) = true) as ->; [|done].
  apply starts_with_spec. clear.
  destruct (l ++ [u])%list as [|x xs] eqn:E; [by destruct l|]. cbn [rend].
  exists (collapse (String slash (x +:+ rend xs))). done.
Qed.

Lemma parse_rend l u :
  Forall component (l ++ [u]) ->
  parse_path (rend ("memory" :: l ++ [u])%list) =
  let segs := ("" :: "memory" :: l ++ [u])%list in
  Ok (Parsed (seg segs 2) (seg segs 3) (seg segs 4) (seg segs 5)).
Proof.
  intros Hall. unfold parse_path. rewrite normalize_rend by done. cbn [result_bind].
  rewrite split_rend; [done|]. constructor; [done|]. by apply components_slash_free.
Qed.

Lemma rfind_char_app c s u : no_char c u = true -> rfind_char c (s +:+ String c u) = Some (String.length s).
Proof.
  intros Hu. assert (rfind_char c u = None) as Hn.
  { clear s. induction u as [|a u IH]; [done|]. simpl in *. destruct (ascii_dec a c); [done|]. by rewrite IH. }
  induction s as [|a s IH]; app_simp.
  - rewrite Hn. by destruct (ascii_dec c c).
  - by rewrite IH.
Qed.

Lemma parent_rend l u :
  l <> [] -> Forall component (l ++ [u]) ->
  parent_path_of (rend ("memory" :: l ++ [u])%list) = Ok (rend ("memory" :: l)).
Proof.
  intros Hne Hall. unfold parent_path_of. rewrite normalize_rend by done. cbn [result_bind].
  apply Forall_app in Hall as [Hl Hu]. apply Forall_cons in Hu as [(_ & Hu & _) _].
  replace (rend ("memory" :: l ++ [u])%list) with (rend ("memory" :: l) +:+ String slash u).
  2: { pose proof (rend_app ("memory" :: l) [u]) as E. cbn [app] in E. rewrite E. cbn [rend].
       by rewrite app_str_nil_r. }
  rewrite rfind_char_app by done. destruct l as [|x l]; [done|].
  assert (Nat.leb (String.length (rend ("memory" :: x :: l))) (String.length MAS_ROOT) = false) as ->.
  { apply Nat.leb_gt. cbn [rend MAS_ROOT]. repeat (rewrite length_app_str || cbn [String.length]). unfold MAS_ROOT. cbn [String.length]. lia. }
  f_equal. apply take_str_app.
Qed.

Lemma py_truth_str s : py_truth (VStr s) = bool_decide (s <> "").
Proof. by destruct s. Qed.

Lemma build_components render t ns at_ id :
  Forall component [t; ns; at_; id] ->
  build_path render (VStr t) (VStr ns) (VStr at_) (VStr id) = Ok (rend ["memory"; t; ns; at_; id]) /\
  build_path render (VStr t) (VStr ns) (VStr at_) VNone = Ok (rend ["memory"; t; ns; at_]).
Proof.
  intros Hall. rewrite !Forall_cons in Hall.
  destruct Hall as ((Ht & _) & (Hns & _) & (Hat & _) & (Hid & _) & _).
  unfold build_path. rewrite !py_truth_str, !bool_decide_eq_true_2 by done.
  cbn [py_truth negb andb app all_strs py_str]. by rewrite !join_rend.
Qed.

(** ** Walking a tree *)

Section Walk.
Variable t : tree.
Hypothesis Hwf : dict_wf t.

Definition node_at (p : string) : option mnode := te_node <$> dict_get p t.

Definition walk_inv (st : list string * list mnode) : Prop :=
  NoDup st.1 /\ st.1 ⊆ dict_keys t /\ st.2 = omap node_at (reverse st.1).

Definition walk_step (f : nat) (st : list string * list mnode) (p : string) := walk f t p st.

Lemma walk_visit p e st :
  dict_get p t = Some e -> p ∉ st.1 -> walk_inv st -> walk_inv (p :: st.1, (st.2 ++ [te_node e])%list).
Proof.
  intros Hg Hn (Hnd & Hsub & Hres). split; [by constructor|]. split; simpl.
  - intros x Hx. apply elem_of_cons in Hx as [->|Hx]; [|by apply Hsub].
    apply dict_get_is_Some. by exists e.
  - rewrite reverse_cons, omap_app, Hres. f_equal. simpl. unfold node_at. by rewrite Hg.
Qed.

Lemma walk_ok f p st : walk_inv st -> walk_inv (walk f t p st) /\ st.1 ⊆ (walk f t p st).1.
Proof.
  revert p st. induction f as [|f IH]; intros p st Hi; [done|]. cbn [walk].
  case_decide as Hp; [done|]. destruct (dict_get p t) as [e|] eqn:Hg; [|done].
  pose proof (walk_visit p e st Hg Hp Hi) as Hi'.
  assert (Hc : forall l st', walk_inv st' -> walk_inv (foldl (fun st c => walk f t c st) st' l) /\
    st'.1 ⊆ (foldl (fun st c => walk f t c st) st' l).1).
  { induction l as [|c l IHl]; intros st' Hst'; [done|]. simpl.
    destruct (IH c st' Hst') as [H1 H2]. destruct (IHl _ H1) as [H3 H4]. split; [done|]. set_solver. }
  destruct (Hc (te_children e) _ Hi') as [H1 H2]. split; [done|]. simpl in H2. set_solver.
Qed.

Lemma walk_all_ok f l st :
  walk_inv st -> walk_inv (foldl (walk_step f) st l) /\ st.1 ⊆ (foldl (walk_step f) st l).1.
Proof.
  revert st. induction l as [|c l IHl]; intros st Hst; [done|]. simpl.
  destruct (walk_ok f c st Hst) as [H1 H2]. destruct (IHl _ H1) as [H3 H4]. split; [done|].
  unfold walk_step in *. set_solver.
Qed.

Lemma walk_visits f p st : walk_inv st -> p ∈ dict_keys t -> p ∈ (walk (S f) t p st).1.
Proof.
  intros Hi Hp. cbn [walk]. case_decide as Hv; [done|].
  destruct (dict_get p t) as [e|] eqn:Hg; [|by apply dict_get_None in Hg].
  destruct (walk_all_ok f (te_children e) _ (walk_visit p e st Hg Hv Hi)) as [_ Hs].
  apply Hs. by left.
Qed.

Lemma walk_all_visits f l st :
  walk_inv st -> l ⊆ dict_keys t -> l ⊆ (foldl (walk_step (S f)) st l).1.
Proof.
  revert st. induction l as [|p l IH]; intros st Hi Hl; [set_solver|]. simpl.
  pose proof (walk_ok (S f) p st Hi) as [Hi' _].
  pose proof (walk_all_ok (S f) l _ Hi') as [_ Hs].
  intros x Hx. apply elem_of_cons in Hx as [->|Hx].
  - apply Hs. apply walk_visits; [done|]. apply Hl. by left.
  - apply (IH _ Hi'); [set_solver|done].
Qed.

(** The fuel: every level of the recursion visits a new key. *)
Definition unvisited (vis : list string) : nat :=
  length (base.filter (fun k => k ∉ vis) (dict_keys t)).

Lemma unvisited_mono v1 v2 : v1 ⊆ v2 -> (unvisited v2 <= unvisited v1)%nat.
Proof.
  unfold unvisited. intros H. induction (dict_keys t) as [|k l IH]; [done|].
  rewrite !filter_cons. repeat case_decide; simpl; try lia. exfalso. set_solver.
Qed.

Lemma unvisited_visit p vis :
  p ∈ dict_keys t -> p ∉ vis -> (unvisited (p :: vis) < unvisited vis)%nat.
Proof.
  unfold unvisited. intros Hp Hn. induction (dict_keys t) as [|k l IH]; [by apply not_elem_of_nil in Hp|].
  assert (Hm : (length (base.filter (fun k => k ∉ p :: vis) l) <= length (base.filter (fun k => k ∉ vis) l))%nat).
  { clear. induction l as [|k l IH]; [done|]. rewrite !filter_cons.
    repeat case_decide; simpl; try lia. exfalso. set_solver. }
  rewrite !filter_cons. apply elem_of_cons in Hp as [->|Hp].
  - rewrite (decide_False (P := k ∉ k :: vis)) by set_solver. rewrite decide_True by done. simpl. lia.
  - specialize (IH Hp). repeat case_decide; simpl; try lia. exfalso. set_solver.
Qed.

Lemma walk_fuel f f' p st :
  walk_inv st -> (unvisited st.1 < f)%nat -> (unvisited st.1 < f')%nat -> walk f t p st = walk f' t p st.
Proof.
  revert f' p st. induction f as [|f IH]; intros f' p st Hi Hf Hf'; [lia|].
  destruct f' as [|f']; [lia|]. cbn [walk]. case_decide as Hp; [done|].
  destruct (dict_get p t) as [e|] eqn:Hg; [|done].
  pose proof (walk_visit p e st Hg Hp Hi) as Hi'.
  assert (Hin : p ∈ dict_keys t) by (apply dict_get_is_Some; by exists e).
  pose proof (unvisited_visit p st.1 Hin Hp) as Hlt.
  assert (Hb : (unvisited (p :: st.1, (st.2 ++ [te_node e])%list).1 < f)%nat /\
               (unvisited (p :: st.1, (st.2 ++ [te_node e])%list).1 < f')%nat) by (simpl; lia).
  revert Hi' Hb. generalize (p :: st.1, (st.2 ++ [te_node e])%list).
  induction (te_children e) as [|c l IHl]; intros st' Hi' [Hb1 Hb2]; [done|]. simpl.
  rewrite (IH f' c st') by done. destruct (walk_ok f' c st' Hi') as [H1 H2].
  pose proof (unvisited_mono _ _ H2). apply IHl; [done|]. lia.
Qed.

Lemma walk_all_fuel f f' l st :
  walk_inv st -> (unvisited st.1 < f)%nat -> (unvisited st.1 < f')%nat ->
  foldl (walk_step f) st l = foldl (walk_step f') st l.
Proof.
  revert st. induction l as [|c l IH]; intros st Hi Hf Hf'; [done|]. simpl.
  replace (walk_step f st c) with (walk_step f' st c) by (symmetry; by apply walk_fuel). destruct (walk_ok f' c st Hi) as [H1 H2].
  pose proof (unvisited_mono _ _ H2). apply IH; [done|unfold walk_step; lia..].
Qed.

Lemma omap_node_keys : omap node_at (dict_keys t) = te_node ∘ snd <$> t.
Proof.
  unfold node_at. clear - Hwf. unfold dict_wf, dict_keys in *.
  assert (H : forall l, l ⊆ t -> omap (fun p => te_node <$> dict_get p t) (map fst l) = te_node ∘ snd <$> l).
  { induction l as [|[k e] l IH]; intros Hl; [done|]. simpl.
    rewrite (dict_elem_get k e t); [|done|apply Hl; by left]. simpl. f_equal. apply IH. set_solver. }
  by apply H.
Qed.

Lemma walk_everything f ps :
  ps ⊆ dict_keys t -> dict_keys t ⊆ ps ->
  (foldl (walk_step (S f)) ([], []) ps).2 ≡ₚ (te_node ∘ snd <$> t).
Proof.
  intros H1 H2. assert (Hi : walk_inv ([], [])) by (split; [constructor|split; [set_solver|done]]).
  pose proof (walk_all_ok (S f) ps _ Hi) as [(Hnd & Hsub & Hres) _].
  pose proof (walk_all_visits f ps _ Hi H1) as Hv. rewrite Hres, <- omap_node_keys.
  apply omap_Permutation. rewrite reverse_Permutation.
  apply NoDup_Permutation; [done|exact Hwf|]. intros x. split; [apply Hsub|].
  intros Hx. by apply Hv, H2.
Qed.
End Walk.

Definition parent_ok (p : string) : Prop := is_Ok (parent_path_of p) = true.

Lemma roots_of_ok t ps : Forall parent_ok ps -> exists r, roots_of t ps = Ok r /\ r ⊆ ps.
Proof.
  induction ps as [|p ps IH]; intros H; [by exists []|]. apply Forall_cons in H as [Hp H].
  destruct (IH H) as (r & Hr & Hsub). simpl. unfold parent_ok in Hp.
  destruct (parent_path_of p) as [q|]; [|done]. simpl. rewrite Hr. simpl.
  destruct (dict_get q t); eexists; (split; [done|]); set_solver.
Qed.

(** Flattening lists every node of a tree once, with any fuel that is enough. *)
Lemma flatten_complete t :
  dict_wf t -> Forall parent_ok (dict_keys t) ->
  exists l, flatten_tree t = Ok l /\ l ≡ₚ (te_node ∘ snd <$> t) /\
            forall f, (length t < f)%nat -> flatten_with f t = Ok l.
Proof.
  intros Hwf Hok. destruct (roots_of_ok t _ Hok) as (r & Hr & Hsub).
  unfold flatten_tree, flatten_with. rewrite Hr. cbn [result_bind]. eexists. split; [done|]. split.
  - apply (walk_everything t Hwf).
    + intros x Hx. rewrite elem_of_app, !py_sorted_perm in Hx. destruct Hx; auto.
    + intros x Hx. rewrite elem_of_app, !py_sorted_perm. by right.
  - intros f Hf. do 2 f_equal.
    assert (Hi : walk_inv t ([], [])) by (split; [constructor|split; [set_solver|done]]).
    assert (Hu : (unvisited t [] <= length t)%nat).
    { unfold unvisited. etrans; [apply length_filter|]. unfold dict_keys. by rewrite length_map. }
    apply (walk_all_fuel t); [done|done|cbn [fst]; lia..].
Qed.

(** ** Building a tree *)

Definition keyed (kv : string * tree_entry) : string * mnode := (kv.1, te_node kv.2).

Lemma keyed_set t p e e' :
  dict_get p t = Some e -> te_node e' = te_node e -> map keyed (dict_set p e' t) = map keyed t.
Proof.
  intros Hg He. induction t as [|[k x] t IH]; [done|]. simpl in *. case_decide as Hk.
  - subst k. injection Hg as ->. simpl. unfold keyed. simpl. by rewrite He.
  - simpl. f_equal. by apply IH.
Qed.

Lemma attach_keyed cm t : map keyed (attach_children cm t) = map keyed t.
Proof.
  revert t. induction cm as [|[p cs] cm IH]; intros t; [done|]. simpl. rewrite IH.
  destruct (dict_get p t) as [e|] eqn:Hg; [|done]. by apply (keyed_set t p e).
Qed.

Lemma attach_get cm t p :
  dict_wf cm ->
  dict_get p (attach_children cm t) =
  (fun e => Entry (te_node e) (default (te_children e) (dict_get p cm))) <$> dict_get p t.
Proof.
  revert t. induction cm as [|[q cs] cm IH]; intros t Hwf; simpl.
  { destruct (dict_get p t) as [[]|]; done. }
  unfold dict_wf in Hwf. simpl in Hwf. apply NoDup_cons in Hwf as [Hq Hwf]. rewrite (IH _ Hwf).
  destruct (decide (p = q)) as [->|Hne].
  - apply dict_get_None in Hq. rewrite Hq.
    destruct (dict_get q t) as [e|] eqn:Hg; [|by rewrite Hg]. by rewrite dict_get_set_eq.
  - destruct (dict_get q t); [by rewrite dict_get_set_ne|done].
Qed.

Definition children_of (q : string) (paths : list string) : list string :=
  base.filter (fun p => parent_path_of p = Ok q) paths.

Definition has_path (render : pyval -> string) (un : string * mnode) (p : string) : Prop :=
  node_path render un.1 un.2 = Ok p /\ parent_ok p.

Lemma dict_set_new {V} k (v : V) (d : list (string * V)) :
  k ∉ dict_keys d -> dict_set k v d = (d ++ [(k, v)])%list.
Proof.
  induction d as [|[k' v'] d IH]; intros Hk; [done|]. simpl in *.
  apply not_elem_of_cons in Hk as [Hne Hk]. rewrite decide_False by done. by rewrite IH.
Qed.

Lemma index_nodes_spec render nodes paths by_path cm :
  Forall2 (has_path render) nodes paths ->
  NoDup (dict_keys by_path ++ paths) -> dict_wf cm ->
  exists cm', index_nodes render nodes by_path cm
    = Ok ((by_path ++ zip paths ((fun un => Entry un.2 []) <$> nodes))%list, cm') /\
  dict_wf cm' /\
  forall q, default [] (dict_get q cm') = (default [] (dict_get q cm) ++ children_of q paths)%list.
Proof.
  intros HF. revert by_path cm. induction HF as [|[u n] p nodes paths [Hp Hok] HF IH]; intros bp cm Hnd Hwf.
  { exists cm. simpl. rewrite !app_nil_r. split; [done|]. split; [done|]. intros q. by rewrite app_nil_r. }
  simpl in Hp. simpl. rewrite Hp. simpl. unfold parent_ok in Hok.
  destruct (parent_path_of p) as [q0|] eqn:Hpar; [|done]. simpl.
  apply NoDup_app in Hnd as (Hnd1 & Hdis & Hnd2). apply NoDup_cons in Hnd2 as [Hpn Hnd2].
  assert (Hpk : p ∉ dict_keys bp) by (intros Hin; apply (Hdis p Hin); by left).
  rewrite dict_set_new by done.
  destruct (IH (bp ++ [(p, Entry n [])])%list
    (dict_set q0 (default [] (dict_get q0 cm) ++ [p])%list cm)) as (cm' & Hidx & Hwf' & Hch).
  - unfold dict_keys. rewrite map_app. simpl. apply NoDup_app. split.
    + apply NoDup_app. split; [done|]. split; [set_solver|]. apply NoDup_singleton.
    + split; [|done]. intros x Hx. apply elem_of_app in Hx as [Hx|Hx]; set_solver.
  - by apply dict_set_wf.
  - exists cm'. rewrite Hidx. split; [by rewrite <- app_assoc|]. split; [done|].
    intros q. rewrite Hch. unfold children_of. rewrite filter_cons.
    destruct (decide (q = q0)) as [->|Hne].
    + rewrite dict_get_set_eq, decide_True by done. simpl. by rewrite <- app_assoc.
    + rewrite dict_get_set_ne by done. rewrite decide_False by congruence. done.
Qed.

Lemma zip_keyed (nodes : list (string * mnode)) paths :
  length nodes = length paths ->
  map keyed (zip paths ((fun un => Entry un.2 []) <$> nodes)) = zip paths (snd <$> nodes).
Proof.
  revert paths. induction nodes as [|[u n] nodes IH]; intros [|p paths] H; try done.
  simpl. f_equal. apply IH. by injection H.
Qed.

Lemma keyed_keys t : map fst (map keyed t) = dict_keys t.
Proof. unfold dict_keys. rewrite map_map. done. Qed.

Lemma keyed_nodes t : map snd (map keyed t) = te_node ∘ snd <$> t.
Proof. rewrite map_map. done. Qed.

(** A generated path belongs to the tenant whatever the namespace and type are. *)
Lemma generated_owned render t ns at_ uuid p :
  slash_free t -> component uuid ->
  build_path render (VStr t) ns at_ (VStr uuid) = Ok p -> tenant_owns_memory_path p t = true.
Proof.
  intros Ht Hu. unfold build_path. rewrite !py_truth_str.
  assert (bool_decide (uuid <> "") = true) as -> by (by destruct Hu as [? _]; apply bool_decide_eq_true).
  case_bool; [done|]. apply negb_false_iff, bool_decide_eq_true in Hif.
  case_bool; [done|]. case_bool; [done|]. simpl in Hif1. apply negb_false_iff, andb_true_iff in Hif1 as [-> ->].
  cbn [app all_strs py_str]. destruct ns as [| | | |ns| |]; try done. destruct at_ as [| | | |a| |]; try done.
  rewrite join_rend. intros Hp. assert (p = MAS_ROOT +:+ rend [t; ns; a; uuid]) as -> by congruence.
  apply owns_segments; [done|]. unfold segments.
  change (MAS_ROOT +:+ rend [t; ns; a; uuid]) with (rend ["memory"; t; ns; a; uuid]).
  pose proof (strip_rend ["memory"; t; ns; a] uuid Hu) as Hs. cbn [app] in Hs. rewrite Hs.
  change (rend ["memory"; t; ns; a; uuid]) with (String slash ("memory" +:+ String slash (t +:+ rend [ns; a; uuid]))).
  cbn [split_char]. destruct (ascii_dec slash slash); [|done]. rewrite split_app by done.
  change (rend [ns; a; uuid]) with (String slash (ns +:+ rend [a; uuid])). rewrite split_app by done.
  unfold nonempty. rewrite !filter_cons, !decide_True by done. eauto.
Qed.

(** ** Claims *)

(** Tenants are isolated: for tenant ids without a slash, a path is a
    tenant's exactly when it starts with a slash and its non-empty segments,
    after surrounding white space is dropped, begin with "memory" and that
    tenant id (so repeated and trailing slashes never matter); no path belongs
    to two tenants, a tenant whose id is a prefix of another gains nothing,
    and the empty tenant owns nothing. *)
Lemma tenant_paths_isolated path t1 t2 :
  slash_free t1 -> slash_free t2 ->
  (tenant_owns_memory_path path t1 = true <->
     exists rest, segments path = Some ("memory" :: t1 :: rest) /\ t1 <> "") /\
  (tenant_owns_memory_path path t1 = true -> tenant_owns_memory_path path t2 = true -> t1 = t2) /\
  tenant_owns_memory_path path "" = false.
Proof.
  intros H1 H2. split; [by apply owns_segments|]. split.
  - rewrite !owns_segments by done. intros (r1 & E1 & _) (r2 & E2 & _). congruence.
  - destruct (tenant_owns_memory_path path "") eqn:E; [|done].
    apply owns_segments in E as (? & _ & ?); done.
Qed.

Lemma tenant_paths_isolated_witness :
  tenant_owns_memory_path " //memory/t1//entities/ " "t1" = true /\
  tenant_owns_memory_path " //memory/t1//entities/ " "t12" = false /\
  exists rest, segments " //memory/t1//entities/ " = Some ("memory" :: "t1" :: rest).
Proof.
  destruct (tenant_paths_isolated " //memory/t1//entities/ " "t1" "t12" eq_refl eq_refl) as [H _].
  split; [vm_compute; reflexivity|]. split; [vm_compute; reflexivity|].
  destruct (proj1 H) as (rest & E & _); [vm_compute; reflexivity|]. by exists rest.
Defined.

(** Building a path and parsing it are inverse: for components without
    slash or white space, the built path parses back to the same tenant,
    namespace, type and node id, is its own normal form, belongs to the tenant
    it was built for, and its parent is the path built without the node id. *)
Lemma build_parse_roundtrip render t ns at_ id :
  Forall component [t; ns; at_; id] ->
  exists p, build_path render (VStr t) (VStr ns) (VStr at_) (VStr id) = Ok p /\
    parse_path p = Ok (Parsed (Some t) (Some ns) (Some at_) (Some id)) /\
    normalize_path p = Ok p /\ tenant_owns_memory_path p t = true /\
    parent_path_of p = build_path render (VStr t) (VStr ns) (VStr at_) VNone.
Proof.
  intros Hall. destruct (build_components render t ns at_ id Hall) as [Hb Hb'].
  rewrite Hb, Hb'. eexists. split; [done|].
  split; [|split; [|split]].
  - etrans; [exact (parse_rend [t; ns; at_] id Hall)|]. rewrite !Forall_cons in Hall.
    destruct Hall as ((Ht & _) & (Hns & _) & (Hat & _) & (Hid & _) & _). by destruct t, ns, at_, id.
  - exact (normalize_rend [t; ns; at_] id Hall).
  - assert (Hall' := Hall). rewrite !Forall_cons in Hall.
    destruct Hall as ((Ht & Hsf & _) & _ & _ & Hid & _).
    apply owns_segments; [done|]. exists [ns; at_; id]. split; [|done].
    apply segments_spec. split; [constructor; [done|by apply components_slash_free]|].
    split.
    + constructor; [done|]. eapply Forall_impl; [exact Hall'|]. by intros x [? _].
    + pose proof (normalize_rend [t; ns; at_] id Hall') as Hn. unfold normalize_path in Hn.
      rewrite decide_False in Hn by done. cbv zeta in Hn. case_bool; [|done].
      rewrite drop_trailing_rstrip in Hn. by injection Hn.
  - by apply (parent_rend [t; ns; at_] id).
Qed.

Lemma build_parse_roundtrip_witness :
  exists p, build_path (fun _ => "") (VStr "user-1") (VStr "entities") (VStr "updated") (VStr "n1") = Ok p /\
    parse_path p = Ok (Parsed (Some "user-1") (Some "entities") (Some "updated") (Some "n1")).
Proof.
  destruct (build_parse_roundtrip (fun _ => "") "user-1" "entities" "updated" "n1") as (p & H1 & H2 & _).
  - repeat constructor; done.
  - by exists p.
Defined.

(** A write lands in the writer's namespace: for a tenant id without a
    slash and a generated id that is a plain component, whatever path,
    namespace or type the payload supplies (slashes included), the path
    chosen for the write belongs to the tenant; a supplied path that does not
    is refused with a permission error. *)
Lemma write_path_is_the_tenants render uuid payload t :
  slash_free t -> component uuid ->
  (forall p ns at_, path_from_write_payload render uuid payload t = Ok (p, ns, at_) ->
     tenant_owns_memory_path p t = true) /\
  (forall s raw, py_get "path" payload = VStr s -> normalize_path s = Ok raw ->
     tenant_owns_memory_path raw t = false ->
     path_from_write_payload render uuid payload t = Err PermissionError).
Proof.
  intros Ht Hu.
  assert (Hgen : forall ns0 at0 p ns at_,
    (let? gen := generate_node_path render uuid (VStr t) ns0 at0 in Ok (gen.1, ns0, at0)) = Ok (p, ns, at_) ->
    tenant_owns_memory_path p t = true).
  { intros ns0 at0 p ns at_. unfold generate_node_path.
    destruct (build_path render (VStr t) ns0 at0 (VStr uuid)) as [q|] eqn:Hb; [|done].
    simpl. intros [= <- _ _]. by eapply generated_owned. }
  split.
  - intros p ns at_. unfold path_from_write_payload. case_bool; [|apply Hgen].
    destruct (py_get "path" payload) as [| | | |s| |]; try done.
    destruct (normalize_path s) as [raw|]; [|done]. cbn [result_bind]. unfold validate_tenant_path.
    destruct (tenant_owns_memory_path raw t) eqn:Hown; [|done]. cbn [result_bind].
    destruct (parse_path raw) as [pp|]; [|done]. cbn [result_bind].
    destruct (pp_node_id pp); [|apply Hgen]. by intros [= <- _ _].
  - intros s raw Hs Hn Hown. unfold path_from_write_payload. rewrite Hs, py_truth_str.
    assert (s <> "") by (intros ->; done). rewrite bool_decide_eq_true_2 by done.
    rewrite Hn. simpl. unfold validate_tenant_path. by rewrite Hown.
Qed.

Lemma write_path_is_the_tenants_witness :
  path_from_write_payload (fun _ => "") "id-1" [("namespace", VStr "../bob/x")] "alice"
    = Ok ("/memory/alice/../bob/x/general/id-1", VStr "../bob/x", VStr "general") /\
  tenant_owns_memory_path "/memory/alice/../bob/x/general/id-1" "alice" = true.
Proof.
  split; [vm_compute; reflexivity|].
  assert (Hu : component "id-1") by (split; [discriminate|split; reflexivity]).
  destruct (write_path_is_the_tenants (fun _ => "") "id-1" [("namespace", VStr "../bob/x")]
    "alice" eq_refl Hu) as [H _].
  apply (H _ (VStr "../bob/x") (VStr "general")). vm_compute. reflexivity.
Defined.

(** No node is lost or duplicated between [build_tree] and
    [flatten_tree]: for nodes with distinct paths under the root, both
    succeed, every node appears exactly once in the flattened list, each
    entry's children are exactly the paths whose parent it is, in order, and
    the recursion depth the model allows is enough (a larger one gives the same
    list). *)
Lemma build_flatten_complete render nodes paths :
  Forall2 (has_path render) nodes paths -> NoDup paths ->
  exists t l, build_tree render nodes = Ok t /\ flatten_tree t = Ok l /\ l ≡ₚ (snd <$> nodes) /\
    (forall p e, dict_get p t = Some e -> te_children e = children_of p paths) /\
    (forall f, (length t < f)%nat -> flatten_with f t = Ok l).
Proof.
  intros HF Hnd. assert (Hlen : length nodes = length paths) by (by eapply Forall2_length).
  destruct (index_nodes_spec render nodes paths [] [] HF) as (cm & Hidx & Hwf & Hch);
    [done|apply NoDup_nil_2|].
  unfold build_tree. rewrite Hidx. cbn [result_bind fst snd app].
  set (bp := zip paths ((fun un => Entry un.2 []) <$> nodes)).
  assert (Hk : map keyed (attach_children cm bp) = zip paths (snd <$> nodes)).
  { rewrite attach_keyed. by apply zip_keyed. }
  assert (Hkeys : dict_keys (attach_children cm bp) = paths).
  { rewrite <- keyed_keys, Hk. apply fst_zip. rewrite length_fmap. lia. }
  destruct (flatten_complete (attach_children cm bp)) as (l & Hl & Hperm & Hfuel).
  - unfold dict_wf. by rewrite Hkeys.
  - rewrite Hkeys. clear - HF. induction HF as [|un p nodes paths [_ H] HF IH]; by constructor.
  - exists (attach_children cm bp), l. split; [done|]. split; [done|]. split; [|split; [|done]].
    + rewrite Hperm, <- keyed_nodes, Hk. rewrite snd_zip; [done|]. rewrite length_fmap. lia.
    + intros p e Hg. rewrite attach_get in Hg by done.
      destruct (dict_get p bp) as [e0|] eqn:He0; [|done]. simpl in Hg. injection Hg as <-. simpl.
      assert (te_children e0 = []) as ->.
      { apply dict_get_elem in He0. apply elem_of_zip_r in He0.
        apply list_elem_of_fmap in He0 as (un & -> & _). done. }
      apply Hch.
Qed.

Lemma build_flatten_complete_witness :
  exists t l, build_tree (fun _ => "")
      [("u1", [("path", VStr "/memory/t1/e/u/n1")]); ("u2", [("path", VStr "/memory/t1/e/u")])] = Ok t /\
    flatten_tree t = Ok l /\ length l = 2%nat.
Proof.
  destruct (build_flatten_complete (fun _ => "")
    [("u1", [("path", VStr "/memory/t1/e/u/n1")]); ("u2", [("path", VStr "/memory/t1/e/u")])]
    ["/memory/t1/e/u/n1"; "/memory/t1/e/u"]) as (t & l & H1 & H2 & H3 & _).
  - repeat constructor; vm_compute; reflexivity.
  - apply (bool_decide_unpack _). vm_compute. exact I.
  - exists t, l. split; [done|]. split; [done|]. by rewrite H3.
Defined.

(** [normalize_path] checks the prefix "/memory" and not "/memory/": paths
    under another top-level directory with that prefix pass. *)
Example normalize_accepts_sibling_root :
  normalize_path "/memory2/x" = Ok "/memory2/x" /\ parse_path "/memory2/x" = Ok (Parsed (Some "x") None None None).
Proof. split; vm_compute; reflexivity. Qed.
