(* ===== verification/ResourceManager.v ===== *)
(** * Resource manager

    kernel/resource_manager.py: admission against the per-tenant concurrency
    limit, slot accounting, per-unit usage and quotas, declared ceilings and
    token reservation.

    The manager's dictionaries are the fields of [rm]. The concurrency
    counters live in Redis while the client is up and in the process
    otherwise; the usage mirror (RedisResourceBackend) is a second store,
    present or absent and up or down. An operation that meets a Redis error
    falls back as if the client were down, so availability is part of the state
    and the environment may change it between operations. Key expiry in Redis
    is not modelled. Times are [time.monotonic()] in whole units. *)

From S2P Require Import Prelude.

Local Open Scope string_scope.
Local Open Scope Z_scope.

Record config := Config {
  is_testing : bool;
  MAX_WALL_TIME_MS : Z;
  MAX_SYSCALLS_PER_EXECUTION : Z;
  MAX_CONCURRENT_PER_TENANT : Z;
  MAX_TOKENS_PER_EXECUTION : Z
}.

(** The shipped defaults. *)
Definition default_config : config := Config false 300000 100 5 0.

Definition EU_KEY_TTL_SECONDS : Z := 3600.
Definition TENANT_KEY_TTL_SECONDS : Z := 86400.
Definition EVICTION_SWEEP_INTERVAL_SECONDS : Z := 60.

Record UsageSnapshot := Snap {
  su_tenant : string;
  wall_time_ms : Z;
  memory_bytes : Z;
  syscall_count : Z;
  tokens : Z;
  limits : list (string * Z);
  created_at : Z
}.

Definition new_snapshot (tid : string) (now : Z) : UsageSnapshot := Snap tid 0 0 0 0 [] now.

(** RedisResourceBackend: one counter per key. *)
Record backend := Backend {
  b_cpu : list (string * Z);
  b_syscalls : list (string * Z);
  b_memory : list (string * Z);
  b_tokens : list (string * Z);
  b_tenant_tokens : list (string * Z);
  b_limits : list (string * list (string * Z))
}.

Record rm := RM {
  usage : list (string * UsageSnapshot);
  active_counts : list (string * Z);
  eu_tenant : list (string * string);
  pending_purge : list string;
  last_eviction_sweep : Z;
  tenant_tokens : list (string * (Z * Z));
  redis_up : bool;
  redis_counts : list (string * Z);
  backend_up : bool;
  shared : backend
}.

Definition counter (k : string) (d : list (string * Z)) : Z := default 0 (dict_get k d).

Definition set_usage u r := RM u (active_counts r) (eu_tenant r) (pending_purge r)
  (last_eviction_sweep r) (tenant_tokens r) (redis_up r) (redis_counts r) (backend_up r) (shared r).
Definition set_active a r := RM (usage r) a (eu_tenant r) (pending_purge r)
  (last_eviction_sweep r) (tenant_tokens r) (redis_up r) (redis_counts r) (backend_up r) (shared r).
Definition set_eu_tenant e r := RM (usage r) (active_counts r) e (pending_purge r)
  (last_eviction_sweep r) (tenant_tokens r) (redis_up r) (redis_counts r) (backend_up r) (shared r).
Definition set_purge p r := RM (usage r) (active_counts r) (eu_tenant r) p
  (last_eviction_sweep r) (tenant_tokens r) (redis_up r) (redis_counts r) (backend_up r) (shared r).
Definition set_sweep s r := RM (usage r) (active_counts r) (eu_tenant r) (pending_purge r)
  s (tenant_tokens r) (redis_up r) (redis_counts r) (backend_up r) (shared r).
Definition set_tenant_tokens t r := RM (usage r) (active_counts r) (eu_tenant r) (pending_purge r)
  (last_eviction_sweep r) t (redis_up r) (redis_counts r) (backend_up r) (shared r).
Definition set_redis c r := RM (usage r) (active_counts r) (eu_tenant r) (pending_purge r)
  (last_eviction_sweep r) (tenant_tokens r) (redis_up r) c (backend_up r) (shared r).
Definition set_shared b r := RM (usage r) (active_counts r) (eu_tenant r) (pending_purge r)
  (last_eviction_sweep r) (tenant_tokens r) (redis_up r) (redis_counts r) (backend_up r) b.

(** ** Store hygiene *)

(** [for eid in eids: _usage.pop(eid); _eu_tenant.pop(eid)] *)
Definition drop_units (eids : list string) (r : rm) : rm :=
  set_eu_tenant (dict_del_all (eu_tenant r) eids) (set_usage (dict_del_all (usage r) eids) r).

Definition sweep (now : Z) (r : rm) : rm :=
  let r := set_purge [] (drop_units (pending_purge r) r) in
  if now - last_eviction_sweep r <? EVICTION_SWEEP_INTERVAL_SECONDS then r
  else
    let expired := map fst (base.filter (fun kv : string * UsageSnapshot =>
                     created_at kv.2 < now - EU_KEY_TTL_SECONDS) (usage r)) in
    let stale := map fst (base.filter (fun kv : string * (Z * Z) =>
                   kv.2.2 < now - TENANT_KEY_TTL_SECONDS) (tenant_tokens r)) in
    let r := drop_units expired (set_sweep now r) in
    set_tenant_tokens (dict_del_all (tenant_tokens r) stale) r.

(** ** Admission and slots *)

(** The counter the concurrency limit is judged against. *)
Definition get_tenant_active (tid : string) (r : rm) : Z :=
  if redis_up r then counter tid (redis_counts r) else counter tid (active_counts r).

Definition can_execute (cfg : config) (now : Z) (tid : string) (r : rm) : rm * bool :=
  let r := sweep now r in
  if is_testing cfg then (r, true)
  else (r, negb (MAX_CONCURRENT_PER_TENANT cfg <=? get_tenant_active tid r)).

(** [if eu_id: ...]: [None] and the empty id have no snapshot. *)
Definition mark_started (now : Z) (tid : string) (eu_id : option string) (r : rm) : rm :=
  let r := if redis_up r
           then set_redis (dict_set tid (counter tid (redis_counts r) + 1) (redis_counts r)) r
           else set_active (dict_set tid (counter tid (active_counts r) + 1) (active_counts r)) r in
  match eu_id with
  | None | Some "" => r
  | Some eid =>
      let u := if dict_mem eid (usage r) then usage r
               else dict_set eid (new_snapshot tid now) (usage r) in
      set_eu_tenant (dict_set eid tid (eu_tenant r)) (set_usage u r)
  end.

Definition reset_tenant_quota (tid : string) (r : rm) : rm :=
  if redis_up r then set_redis (dict_set tid 0 (redis_counts r)) r
  else set_active (dict_set tid 0 (active_counts r)) r.

(** [_release_slot]: the counter before and after, as observed. *)
Definition release_slot (tid : string) (r : rm) : rm * Z * Z :=
  if redis_up r then
    let current := counter tid (redis_counts r) in
    let new_active := current - 1 in
    let r' := set_redis (dict_set tid new_active (redis_counts r)) r in
    if new_active <? 0 then (reset_tenant_quota tid r', current, 0)
    else (r', current, new_active)
  else
    let count := counter tid (active_counts r) in
    let r' := if 0 <? count then set_active (dict_set tid (count - 1) (active_counts r)) r else r in
    (r', count, counter tid (active_counts r')).

(** [_publish_capacity_freed]: is "resource_available" published? *)
Definition capacity_freed (cfg : config) (current new_active : Z) : bool :=
  (MAX_CONCURRENT_PER_TENANT cfg <=? current) && (new_active <? MAX_CONCURRENT_PER_TENANT cfg).

Definition mark_waiting (cfg : config) (tid : string) (r : rm) : rm * bool :=
  let '(r, current, new_active) := release_slot tid r in
  (r, capacity_freed cfg current new_active).

Definition add_purge (eu_id : option string) (r : rm) : rm :=
  match eu_id with
  | None | Some "" => r
  | Some eid => set_purge (if decide (eid ∈ pending_purge r) then pending_purge r
                           else pending_purge r ++ [eid])%list r
  end.

Definition mark_completed (cfg : config) (tid : string) (eu_id : option string) (r : rm) : rm * bool :=
  let '(r, current, new_active) := release_slot tid r in
  (add_purge eu_id r, capacity_freed cfg current new_active).

Definition reset_all_concurrency_counters (r : rm) : rm * nat :=
  let r := set_active [] r in
  if redis_up r then (set_redis [] r, length (redis_counts r)) else (r, 0%nat).

(** [owned_execution]: the block's effect on the manager is [body]; the slot
    is returned whether or not the block raised. *)
Definition owned_execution {A} (cfg : config) (now : Z) (tid : string) (eu_id fresh : string)
    (body : string -> rm -> rm * A) (r : rm) : rm * option A :=
  let eid := if decide (eu_id = "") then fresh else eu_id in
  let '(r, ok) := can_execute cfg now tid r in
  if ok then
    let '(r, a) := body eid (mark_started now tid (Some eid) r) in
    ((mark_completed cfg tid (Some eid) r).1, Some a)
  else (r, None).

(** ** Usage *)

Definition snapshot_or_new (eid tid : string) (now : Z) (r : rm) : UsageSnapshot :=
  default (new_snapshot tid now) (dict_get eid (usage r)).

Definition put_snapshot (eid : string) (s : UsageSnapshot) (r : rm) : rm :=
  set_usage (dict_set eid s (usage r)) r.

Definition record_cpu (now : Z) (eid : string) (ms : Z) (r : rm) : rm :=
  let s := snapshot_or_new eid "" now r in
  let r := put_snapshot eid (Snap (su_tenant s) (wall_time_ms s + ms) (memory_bytes s)
             (syscall_count s) (tokens s) (limits s) (created_at s)) r in
  if backend_up r then
    let b := shared r in
    set_shared (Backend (dict_set eid (counter eid (b_cpu b) + ms) (b_cpu b)) (b_syscalls b)
                  (b_memory b) (b_tokens b) (b_tenant_tokens b) (b_limits b)) r
  else r.

Definition record_memory (now : Z) (eid : string) (bytes : Z) (r : rm) : rm :=
  let s := snapshot_or_new eid "" now r in
  let r := put_snapshot eid (Snap (su_tenant s) (wall_time_ms s) (Z.max (memory_bytes s) bytes)
             (syscall_count s) (tokens s) (limits s) (created_at s)) r in
  if backend_up r then
    let b := shared r in
    let stored := dict_get eid (b_memory b) in
    set_shared (Backend (b_cpu b) (b_syscalls b)
                  (match stored with
                   | Some c => if c <? bytes then dict_set eid bytes (b_memory b) else b_memory b
                   | None => dict_set eid bytes (b_memory b)
                   end) (b_tokens b) (b_tenant_tokens b) (b_limits b)) r
  else r.

Definition record_syscall (now : Z) (eid : string) (count : Z) (r : rm) : rm :=
  let steps := Z.max 0 count in
  if steps =? 0 then r
  else
    let s := snapshot_or_new eid "" now r in
    let r := put_snapshot eid (Snap (su_tenant s) (wall_time_ms s) (memory_bytes s)
               (syscall_count s + steps) (tokens s) (limits s) (created_at s)) r in
    if backend_up r then
      let b := shared r in
      set_shared (Backend (b_cpu b) (dict_set eid (counter eid (b_syscalls b) + steps) (b_syscalls b))
                    (b_memory b) (b_tokens b) (b_tenant_tokens b) (b_limits b)) r
    else r.

Definition with_tokens (s : UsageSnapshot) (n : Z) : UsageSnapshot :=
  Snap (su_tenant s) (wall_time_ms s) (memory_bytes s) (syscall_count s) n (limits s) (created_at s).

(** [_backend_add_tokens]: the new shared value, [None] without a backend. *)
Definition backend_add_tokens (eid : string) (n : Z) (r : rm) : rm * option Z :=
  if backend_up r then
    let b := shared r in
    let v := counter eid (b_tokens b) + n in
    (set_shared (Backend (b_cpu b) (b_syscalls b) (b_memory b) (dict_set eid v (b_tokens b))
                   (b_tenant_tokens b) (b_limits b)) r, Some v)
  else (r, None).

Definition record_tokens (now : Z) (eid : string) (count : Z) (tid : string) (r : rm) : rm :=
  if count <=? 0 then r
  else
    let s := snapshot_or_new eid tid now r in
    (backend_add_tokens eid count (put_snapshot eid (with_tokens s (tokens s + count)) r)).1.

Definition record_usage (now : Z) (eid : string) (wall mem sys tok : Z) (r : rm) : rm :=
  record_tokens now eid tok ""
    (record_syscall now eid sys (record_memory now eid mem (record_cpu now eid wall r))).

(** ** Declared ceilings and quotas *)

(** The ceilings that are given and positive. *)
Definition positive_limits (l : list (string * option Z)) : list (string * Z) :=
  omap (fun kv : string * option Z =>
          match kv.2 with Some v => if 0 <? v then Some (kv.1, v) else None | None => None end) l.

Definition with_limits (s : UsageSnapshot) (l : list (string * Z)) : UsageSnapshot :=
  Snap (su_tenant s) (wall_time_ms s) (memory_bytes s) (syscall_count s) (tokens s)
       (dict_update (limits s) l) (created_at s).

Definition declare_limits (now : Z) (eid tid : string) (wall sys tok mem : option Z) (r : rm) : rm :=
  let l := positive_limits [("wall_time_ms", wall); ("syscalls", sys); ("tokens", tok);
                            ("memory_bytes", mem)] in
  match l with
  | [] => r
  | _ =>
      let r := put_snapshot eid (with_limits (snapshot_or_new eid tid now r) l) r in
      if backend_up r then
        let b := shared r in
        set_shared (Backend (b_cpu b) (b_syscalls b) (b_memory b) (b_tokens b) (b_tenant_tokens b)
          (dict_set eid (dict_update (default [] (dict_get eid (b_limits b))) l) (b_limits b))) r
      else r
  end.

(** Local first, else the shared copy, which is then cached. *)
Definition declared_limits (eid : string) (r : rm) : rm * list (string * Z) :=
  match dict_get eid (usage r) with
  | Some (Snap _ _ _ _ _ ((_ :: _) as l) _) => (r, l)
  | snap =>
      match (if backend_up r then default [] (dict_get eid (b_limits (shared r))) else []) with
      | [] => (r, [])
      | l => (match snap with Some s => put_snapshot eid (with_limits s l) r | None => r end, l)
      end
  end.

Definition global_limit (cfg : config) (dimension : string) : Z :=
  if decide (dimension = "wall_time_ms") then MAX_WALL_TIME_MS cfg
  else if decide (dimension = "syscalls") then MAX_SYSCALLS_PER_EXECUTION cfg
  else if decide (dimension = "tokens") then MAX_TOKENS_PER_EXECUTION cfg
  else 0.

(** [min(global, declared)], 0 = unlimited. *)
Definition narrow (global_cap declared : Z) : Z :=
  if (0 <? global_cap) && (0 <? declared) then Z.min global_cap declared
  else if global_cap =? 0 then declared else global_cap.

Definition effective_limit (cfg : config) (eid dimension : string) (r : rm) : rm * Z :=
  if decide (eid = "") then (r, narrow (global_limit cfg dimension) 0)
  else let '(r, l) := declared_limits eid r in
       (r, narrow (global_limit cfg dimension) (counter dimension l)).

Inductive quota := QuotaOk | WallTimeExceeded (used cap : Z) | SyscallsExceeded (used cap : Z).

Definition check_quota (cfg : config) (now : Z) (eid : string) (r : rm) : rm * quota :=
  let r := sweep now r in
  if is_testing cfg then (r, QuotaOk)
  else match dict_get eid (usage r) with
       | None => (r, QuotaOk)
       | Some s =>
           let wall := if backend_up r then counter eid (b_cpu (shared r)) else wall_time_ms s in
           let sys := if backend_up r then counter eid (b_syscalls (shared r)) else syscall_count s in
           let '(r, wall_cap) := effective_limit cfg eid "wall_time_ms" r in
           let '(r, syscall_cap) := effective_limit cfg eid "syscalls" r in
           if (0 <? wall_cap) && (wall_cap <? wall) then (r, WallTimeExceeded wall wall_cap)
           else if (0 <? syscall_cap) && (syscall_cap <? sys) then (r, SyscallsExceeded sys syscall_cap)
           else (r, QuotaOk)
       end.

(** ** Token reservation *)

Definition reserve_tokens (now : Z) (eid tid : string) (delta cap : Z) (r : rm) : rm * bool :=
  if (cap <=? 0) || (delta <=? 0) then (r, true)
  else
    let '(r, v) := backend_add_tokens eid delta r in
    match v with
    | Some v =>
        if cap <? v then ((backend_add_tokens eid (- delta) r).1, false)
        else let s := snapshot_or_new eid tid now r in
             (put_snapshot eid (with_tokens s (tokens s + delta)) r, true)
    | None =>
        let s := snapshot_or_new eid tid now r in
        if cap <? tokens s + delta then (put_snapshot eid s r, false)
        else (put_snapshot eid (with_tokens s (tokens s + delta)) r, true)
    end.

Definition release_tokens (eid : string) (delta : Z) (r : rm) : rm :=
  if delta <=? 0 then r
  else
    let r := match dict_get eid (usage r) with
             | Some s => put_snapshot eid (with_tokens s (Z.max 0 (tokens s - delta))) r
             | None => r
             end in
    (backend_add_tokens eid (- delta) r).1.

Definition backend_add_tenant_tokens (tid : string) (n : Z) (r : rm) : rm * option Z :=
  if backend_up r then
    let b := shared r in
    let v := counter tid (b_tenant_tokens b) + n in
    (set_shared (Backend (b_cpu b) (b_syscalls b) (b_memory b) (b_tokens b)
                   (dict_set tid v (b_tenant_tokens b)) (b_limits b)) r, Some v)
  else (r, None).

Definition tenant_window (now : Z) (tid : string) (r : rm) : Z * Z :=
  default (0, now) (dict_get tid (tenant_tokens r)).

Definition add_window (now : Z) (tid : string) (n : Z) (r : rm) : rm :=
  let '(current, started) := tenant_window now tid r in
  set_tenant_tokens (dict_set tid (current + n, started) (tenant_tokens r)) r.

Definition record_tenant_tokens (now : Z) (tid : string) (count : Z) (r : rm) : rm :=
  if bool_decide (tid = "") || (count <=? 0) then r
  else (backend_add_tenant_tokens tid count (add_window now tid count r)).1.

Definition get_tenant_tokens (tid : string) (r : rm) : Z :=
  if backend_up r then counter tid (b_tenant_tokens (shared r))
  else (default (0, 0) (dict_get tid (tenant_tokens r))).1.

Definition reserve_tenant_tokens (now : Z) (tid : string) (delta cap : Z) (r : rm) : rm * bool :=
  if (cap <=? 0) || (delta <=? 0) || bool_decide (tid = "") then (r, true)
  else
    let '(r, v) := backend_add_tenant_tokens tid delta r in
    match v with
    | Some v =>
        if cap <? v then ((backend_add_tenant_tokens tid (- delta) r).1, false)
        else (add_window now tid delta r, true)
    | None =>
        if cap <? (tenant_window now tid r).1 + delta then (r, false)
        else (add_window now tid delta r, true)
    end.

Definition release_tenant_tokens (now : Z) (tid : string) (delta : Z) (r : rm) : rm :=
  if (delta <=? 0) || bool_decide (tid = "") then r
  else
    let '(current, started) := tenant_window now tid r in
    let r := set_tenant_tokens (dict_set tid (Z.max 0 (current - delta), started) (tenant_tokens r)) r in
    (backend_add_tenant_tokens tid (- delta) r).1.

Definition seed_usage (now : Z) (eid : string) (n : Z) (r : rm) : rm :=
  let s := snapshot_or_new eid "" now r in
  put_snapshot eid (Snap (su_tenant s) (wall_time_ms s) (memory_bytes s) (Z.max 0 n) (tokens s)
                      (limits s) (created_at s)) r.

Definition purge_eu (eid : string) (r : rm) : rm :=
  let r := drop_units [eid] r in
  if backend_up r then
    let b := shared r in
    set_shared (Backend (dict_del eid (b_cpu b)) (dict_del eid (b_syscalls b)) (dict_del eid (b_memory b))
                  (dict_del eid (b_tokens b)) (b_tenant_tokens b) (dict_del eid (b_limits b))) r
  else r.

Definition reset (now : Z) (r : rm) : rm :=
  RM [] [] [] [] now [] (redis_up r) (redis_counts r) (backend_up r) (shared r).

(** ** Fixed-window rate limiting

    [rate_windows]: key to (bucket, count). *)

Definition RATE_WINDOWS_PRUNE : nat := 4096.

Definition rate_limit_hit (key : string) (limit window_secs now : Z) (w : list (string * (Z * Z)))
    : list (string * (Z * Z)) * (Z * bool) :=
  if (limit <=? 0) || (window_secs <=? 0) then (w, (0, false))
  else
    let bucket := now / window_secs in
    let count := match dict_get key w with
                 | Some (b, c) => if b =? bucket then c + 1 else 1
                 | None => 1
                 end in
    let w := dict_set key (bucket, count) w in
    let w := if Nat.ltb RATE_WINDOWS_PRUNE (length w)
             then base.filter (fun kv : string * (Z * Z) => ~ (kv.2.1 < bucket)) w else w in
    (w, (count, limit <? count)).

(** ** Lemmas on the counters *)

(** Two states agree on every concurrency counter. *)
Definition same_counts (r r' : rm) : Prop :=
  redis_up r' = redis_up r /\ redis_counts r' = redis_counts r /\ active_counts r' = active_counts r.

Lemma same_counts_refl r : same_counts r r.
Proof. done. Qed.

Lemma same_counts_trans r1 r2 r3 : same_counts r1 r2 -> same_counts r2 r3 -> same_counts r1 r3.
Proof. intros (? & ? & ?) (? & ? & ?). split; [congruence|]. split; congruence. Qed.

Lemma same_counts_active r r' t : same_counts r r' -> get_tenant_active t r' = get_tenant_active t r.
Proof. unfold get_tenant_active. by intros (-> & -> & ->). Qed.

Lemma sweep_counts now r : same_counts r (sweep now r).
Proof. unfold sweep. cbv zeta. by case_bool. Qed.

Lemma can_execute_counts cfg now t r : same_counts r (can_execute cfg now t r).1.
Proof. unfold can_execute. cbv zeta. case_bool; apply sweep_counts. Qed.

Lemma add_tokens_counts eid n r : same_counts r (backend_add_tokens eid n r).1.
Proof. unfold backend_add_tokens. cbv zeta. by case_bool. Qed.

Lemma record_usage_counts now eid w m s t r : same_counts r (record_usage now eid w m s t r).
Proof.
  unfold record_usage.
  assert (H1 : same_counts r (record_cpu now eid w r)) by (unfold record_cpu; cbv zeta; by case_bool).
  assert (H2 : forall r, same_counts r (record_memory now eid m r)) by (intros; unfold record_memory; cbv zeta; by case_bool).
  assert (H3 : forall r, same_counts r (record_syscall now eid s r)).
  { intros. unfold record_syscall. cbv zeta. case_bool; [done|]. by case_bool. }
  assert (H4 : forall r, same_counts r (record_tokens now eid t "" r)).
  { intros. unfold record_tokens. cbv zeta. case_bool; [done|]. eapply same_counts_trans; [|apply add_tokens_counts]. done. }
  eapply same_counts_trans; [apply H1|]. eapply same_counts_trans; [apply H2|].
  eapply same_counts_trans; [apply H3|]. apply H4.
Qed.

Lemma declared_limits_counts eid r : same_counts r (declared_limits eid r).1.
Proof.
  unfold declared_limits. destruct (dict_get eid (usage r)) as [[? ? ? ? ? [|] ?]|]; repeat case_match; done.
Qed.

Lemma effective_limit_counts cfg eid dim r : same_counts r (effective_limit cfg eid dim r).1.
Proof.
  unfold effective_limit. case_decide; [done|].
  pose proof (declared_limits_counts eid r). by destruct (declared_limits eid r).
Qed.

Lemma check_quota_counts cfg now eid r : same_counts r (check_quota cfg now eid r).1.
Proof.
  unfold check_quota. cbv zeta. case_bool; [apply sweep_counts|].
  destruct (dict_get eid (usage (sweep now r))) as [s|]; [|apply sweep_counts].
  destruct (effective_limit cfg eid "wall_time_ms" (sweep now r)) as [r1 w] eqn:E1.
  destruct (effective_limit cfg eid "syscalls" r1) as [r2 sy] eqn:E2.
  assert (same_counts r r2).
  { eapply same_counts_trans; [apply sweep_counts|].
    eapply same_counts_trans; [apply (effective_limit_counts cfg eid "wall_time_ms")|]. rewrite E1.
    pose proof (effective_limit_counts cfg eid "syscalls" r1) as H. by rewrite E2 in H. }
  repeat case_bool; done.
Qed.

Lemma reserve_tokens_counts now eid tid d cap r : same_counts r (reserve_tokens now eid tid d cap r).1.
Proof.
  unfold reserve_tokens. cbv zeta. case_bool; [done|]. pose proof (add_tokens_counts eid d r) as H.
  destruct (backend_add_tokens eid d r) as [r1 [v|]]; simpl in H; case_bool; try done.
  eapply same_counts_trans; [exact H|apply add_tokens_counts].
Qed.

Lemma release_tokens_counts eid d r : same_counts r (release_tokens eid d r).
Proof.
  unfold release_tokens. cbv zeta. case_bool; [done|]. eapply same_counts_trans; [|apply add_tokens_counts].
  by destruct (dict_get eid (usage r)).
Qed.

Lemma purge_eu_counts eid r : same_counts r (purge_eu eid r).
Proof. unfold purge_eu. cbv zeta. by case_bool. Qed.

Lemma counter_set t t' n d : counter t' (dict_set t n d) = if decide (t = t') then n else counter t' d.
Proof.
  unfold counter. case_decide as H; [subst; by rewrite dict_get_set_eq|by rewrite dict_get_set_ne].
Qed.

Lemma mark_started_active now t eu t' r :
  get_tenant_active t' (mark_started now t eu r)
  = get_tenant_active t' r + (if decide (t = t') then 1 else 0)
  /\ redis_up (mark_started now t eu r) = redis_up r.
Proof.
  unfold mark_started, get_tenant_active.
  destruct eu as [[|c eu]|]; destruct (redis_up r) eqn:E; simpl; rewrite ?E, counter_set;
    (split; [|done]); case_decide; subst; lia.
Qed.

(** Releasing a slot of a tenant that has one. *)
Lemma release_slot_active t t' r :
  0 < get_tenant_active t r ->
  let '(r', before, after) := release_slot t r in
  get_tenant_active t' r' = get_tenant_active t' r - (if decide (t = t') then 1 else 0)
  /\ redis_up r' = redis_up r
  /\ before = get_tenant_active t r /\ after = get_tenant_active t r - 1.
Proof.
  unfold release_slot, get_tenant_active. intros H. destruct (redis_up r) eqn:E.
  - assert (counter t (redis_counts r) - 1 <? 0 = false) as -> by (apply Z.ltb_ge; lia).
    simpl. rewrite E, counter_set. split; [case_decide; subst; lia|]. done.
  - assert (0 <? counter t (active_counts r) = true) as -> by (apply Z.ltb_lt; lia).
    simpl. rewrite E, !counter_set. split; [case_decide; subst; lia|]. by rewrite decide_True.
Qed.

Lemma add_purge_counts eu r : same_counts r (add_purge eu r).
Proof. by destruct eu as [[|]|]. Qed.

(** ** The slot protocol

    What the flow runner and [owned_execution] do with slots: admission is
    checked and, when granted, the slot taken; a slot is returned by parking or
    completing; every other operation of the manager may happen in between.
    [held] lists the tenants of the slots taken and not yet returned. *)

Section Slots.
Variable cfg : config.

Inductive slot_step : rm * list string -> rm * list string -> Prop :=
| step_admit now t eu r r1 held :
    can_execute cfg now t r = (r1, true) ->
    slot_step (r, held) (mark_started now t eu r1, t :: held)
| step_refuse now t r r1 held :
    can_execute cfg now t r = (r1, false) -> slot_step (r, held) (r1, held)
| step_wait t r held1 held2 :
    slot_step (r, (held1 ++ t :: held2)%list) ((mark_waiting cfg t r).1, (held1 ++ held2)%list)
| step_complete t eu r held1 held2 :
    slot_step (r, (held1 ++ t :: held2)%list) ((mark_completed cfg t eu r).1, (held1 ++ held2)%list)
| step_usage now eid w m s k r held :
    slot_step (r, held) (record_usage now eid w m s k r, held)
| step_quota now eid r held : slot_step (r, held) ((check_quota cfg now eid r).1, held)
| step_reserve now eid tid d cap r held :
    slot_step (r, held) ((reserve_tokens now eid tid d cap r).1, held)
| step_release eid d r held : slot_step (r, held) (release_tokens eid d r, held)
| step_purge eid r held : slot_step (r, held) (purge_eu eid r, held).

Definition holders (t : string) (held : list string) : Z :=
  Z.of_nat (length (base.filter (fun x => x = t) held)).

Lemma holders_cons t x held : holders t (x :: held) = holders t held + (if decide (x = t) then 1 else 0).
Proof.
  unfold holders. rewrite filter_cons. case_decide as H; simpl; [|lia]. lia.
Qed.

Lemma holders_mid t x h1 h2 :
  holders t (h1 ++ x :: h2)%list = holders t (h1 ++ h2)%list + (if decide (x = t) then 1 else 0).
Proof.
  unfold holders. rewrite !filter_app, filter_cons, !length_app. case_decide; simpl; lia.
Qed.

Lemma holders_nonneg t h : 0 <= holders t h.
Proof. unfold holders. lia. Qed.

Definition slots_ok (st : rm * list string) : Prop :=
  forall t, get_tenant_active t st.1 = holders t st.2 /\ holders t st.2 <= MAX_CONCURRENT_PER_TENANT cfg.

Lemma slots_same r r' held : same_counts r r' -> slots_ok (r, held) -> slots_ok (r', held).
Proof. intros Hs H t. simpl in *. rewrite (same_counts_active r r' t Hs). apply H. Qed.

Lemma slots_release t r h1 h2 :
  slots_ok (r, (h1 ++ t :: h2)%list) -> slots_ok ((release_slot t r).1.1, (h1 ++ h2)%list).
Proof.
  intros H t'. simpl. destruct (H t') as [Ha Hm]. simpl in *. rewrite holders_mid in *.
  assert (Hpos : 0 < get_tenant_active t r).
  { destruct (H t) as [E _]. simpl in E. rewrite E, holders_mid, decide_True by done.
    pose proof (holders_nonneg t (h1 ++ h2)). lia. }
  pose proof (release_slot_active t t' r Hpos) as Hr.
  destruct (release_slot t r) as [[r' b] a]. destruct Hr as (Hr & _). simpl. rewrite Hr, Ha.
  repeat case_decide; lia.
Qed.

Lemma slot_step_ok st st' : is_testing cfg = false -> slot_step st st' -> slots_ok st -> slots_ok st'.
Proof.
  intros Htest Hs Hok. destruct Hs as [now t eu r r1 held E|now t r r1 held E|t r h1 h2|t eu r h1 h2| | | | |];
    [| | | |by eapply slots_same; [apply record_usage_counts|]|by eapply slots_same; [apply check_quota_counts|]
     |by eapply slots_same; [apply reserve_tokens_counts|]|by eapply slots_same; [apply release_tokens_counts|]
     |by eapply slots_same; [apply purge_eu_counts|]].
  - pose proof (can_execute_counts cfg now t r) as Hc. rewrite E in Hc. simpl in Hc.
    pose proof (slots_same _ _ _ Hc Hok) as Hok1. unfold can_execute in E. cbv zeta in E.
    rewrite Htest in E. injection E as Er E.
    intros t'. simpl. rewrite holders_cons. destruct (mark_started_active now t eu t' r1) as [Ha _]. rewrite Ha.
    destruct (Hok1 t') as [H1 H2]. simpl in *. split; [case_decide; lia|].
    case_decide as Htt; [|lia]. subst t'. rewrite Er in E.
    apply negb_true_iff, Z.leb_gt in E. lia.
  - pose proof (can_execute_counts cfg now t r) as Hc. rewrite E in Hc. by eapply slots_same.
  - pose proof (slots_release t r h1 h2 Hok) as H. unfold mark_waiting.
    by destruct (release_slot t r) as [[r' b] a].
  - pose proof (slots_release t r h1 h2 Hok) as H. unfold mark_completed.
    destruct (release_slot t r) as [[r' b] a]. simpl in *. eapply slots_same; [apply add_purge_counts|done].
Qed.
End Slots.

(** ** Concurrent reservations

    With a shared backend a reservation is two atomic Redis operations: an
    INCRBY, and after comparing its answer with the cap either the grant or a
    compensating DECRBY. Callers interleave between the two, release granted
    reservations and record actual usage. [callers] lists the reservations
    counted by the shared counter in the order of their INCRBY, with the answer
    each got; [actual] is the usage recorded. *)

Section Reservations.
Variables (eid tid : string) (cap : Z).

Record caller := Caller { c_delta : Z; c_value : Z; c_granted : bool }.

Inductive reserve_step : rm * list caller * Z -> rm * list caller * Z -> Prop :=
| res_incr d r r' v cs a :
    0 < d -> backend_add_tokens eid d r = (r', Some v) ->
    reserve_step (r, cs, a) (r', (cs ++ [Caller d v false])%list, a)
| res_refuse d v r c1 c2 a :
    cap < v ->
    reserve_step (r, (c1 ++ Caller d v false :: c2)%list, a)
                 ((backend_add_tokens eid (- d) r).1, (c1 ++ c2)%list, a)
| res_grant now d v r c1 c2 a :
    v <= cap ->
    reserve_step (r, (c1 ++ Caller d v false :: c2)%list, a)
                 (put_snapshot eid (with_tokens (snapshot_or_new eid tid now r)
                    (tokens (snapshot_or_new eid tid now r) + d)) r,
                  (c1 ++ Caller d v true :: c2)%list, a)
| res_release d v r c1 c2 a :
    reserve_step (r, (c1 ++ Caller d v true :: c2)%list, a) (release_tokens eid d r, (c1 ++ c2)%list, a)
| res_record now n r cs a :
    0 < n -> reserve_step (r, cs, a) (record_tokens now eid n tid r, cs, a + n).

Fixpoint total (cs : list caller) : Z :=
  match cs with [] => 0 | c :: cs' => c_delta c + total cs' end.

Fixpoint granted (cs : list caller) : Z :=
  match cs with [] => 0 | c :: cs' => (if c_granted c then c_delta c else 0) + granted cs' end.

Fixpoint prefix_ok (acc : Z) (cs : list caller) : Prop :=
  match cs with
  | [] => True
  | c :: cs' => acc + c_delta c <= c_value c /\ prefix_ok (acc + c_delta c) cs'
  end.

Definition caller_ok (c : caller) : Prop := 0 < c_delta c /\ (c_granted c = true -> c_value c <= cap).

Definition reserve_inv (st : rm * list caller * Z) : Prop :=
  let '(r, cs, a) := st in
  backend_up r = true /\ 0 <= a /\ counter eid (b_tokens (shared r)) = a + total cs /\
  Forall caller_ok cs /\ prefix_ok 0 cs.

Lemma total_app c1 c2 : total (c1 ++ c2)%list = total c1 + total c2.
Proof. induction c1; simpl; lia. Qed.

Lemma prefix_mono acc acc' cs : acc' <= acc -> prefix_ok acc cs -> prefix_ok acc' cs.
Proof.
  revert acc acc'. induction cs as [|c cs IH]; intros acc acc' H; [done|]. simpl. intros [H1 H2].
  split; [lia|]. eapply IH; [|exact H2]. lia.
Qed.

Lemma prefix_remove acc c1 c c2 :
  0 <= c_delta c -> prefix_ok acc (c1 ++ c :: c2) -> prefix_ok acc (c1 ++ c2).
Proof.
  revert acc. induction c1 as [|x c1 IH]; intros acc Hd; simpl.
  - intros [_ H]. eapply prefix_mono; [|exact H]. lia.
  - intros [H1 H2]. split; [done|]. by apply IH.
Qed.

Lemma prefix_append acc cs c :
  acc + total cs + c_delta c <= c_value c -> prefix_ok acc cs -> prefix_ok acc (cs ++ [c]).
Proof.
  revert acc. induction cs as [|x cs IH]; intros acc H; simpl in *; [intros _; split; [lia|done]|].
  intros [H1 H2]. split; [done|]. apply IH; [lia|done].
Qed.

Lemma prefix_granted acc c1 d v b b' c2 :
  prefix_ok acc (c1 ++ Caller d v b :: c2) -> prefix_ok acc (c1 ++ Caller d v b' :: c2).
Proof.
  revert acc. induction c1 as [|x c1 IH]; intros acc; simpl; [done|]. intros [H1 H2]. split; auto.
Qed.

Lemma granted_bounded acc cs :
  Forall caller_ok cs -> prefix_ok acc cs -> granted cs = 0 \/ acc + granted cs <= cap.
Proof.
  revert acc. induction cs as [|c cs IH]; intros acc Hall Hp; [by left|].
  apply Forall_cons in Hall as [[Hd Hg] Hall]. destruct Hp as [Hv Hp]. simpl.
  destruct (IH _ Hall Hp) as [H0|Hle]; destruct (c_granted c); try lia.
Qed.

Lemma add_tokens_up d r :
  backend_up r = true ->
  exists r', backend_add_tokens eid d r = (r', Some (counter eid (b_tokens (shared r)) + d)) /\
    backend_up r' = true /\ counter eid (b_tokens (shared r')) = counter eid (b_tokens (shared r)) + d.
Proof.
  intros H. unfold backend_add_tokens. rewrite H. eexists. split; [done|]. simpl.
  split; [done|]. by rewrite counter_set, decide_True.
Qed.

Lemma total_remove c1 c c2 : total (c1 ++ c :: c2) = total (c1 ++ c2) + c_delta c.
Proof. rewrite !total_app. simpl. lia. Qed.

Lemma callers_remove c1 c c2 :
  Forall caller_ok (c1 ++ c :: c2) -> caller_ok c /\ Forall caller_ok (c1 ++ c2).
Proof. rewrite !Forall_app, Forall_cons. naive_solver. Qed.

(** Taking a reservation out of the shared counter. *)
Lemma reserve_remove r r' d v b c1 c2 a :
  reserve_inv (r, c1 ++ Caller d v b :: c2, a)%list ->
  backend_up r' = true -> counter eid (b_tokens (shared r')) = counter eid (b_tokens (shared r)) - d ->
  reserve_inv (r', c1 ++ c2, a)%list.
Proof.
  intros (Hup & Ha & Hc & Hall & Hp) Hup' Hc'. apply callers_remove in Hall as [[Hd _] Hall]. simpl in Hd.
  rewrite total_remove in Hc. simpl in Hc. split_and!; [done|done|lia|done|].
  eapply prefix_remove; [|exact Hp]. simpl. lia.
Qed.

Lemma reserve_step_inv st st' : reserve_step st st' -> reserve_inv st -> reserve_inv st'.
Proof.
  intros Hs Hi. destruct Hs as [d r r' v cs a Hd E|d v r c1 c2 a Hv|now d v r c1 c2 a Hv|d v r c1 c2 a|now n r cs a Hn].
  - destruct Hi as (Hup & Ha & Hc & Hall & Hp). destruct (add_tokens_up d r Hup) as (r2 & E2 & Hu2 & Hc2).
    rewrite E in E2. injection E2 as -> ->. split_and!; [done|done|rewrite Hc2, total_app; simpl; lia| |].
    + apply Forall_app. split; [done|]. constructor; [|done]. by split.
    + apply prefix_append; [simpl; lia|done].
  - destruct (add_tokens_up (- d) r) as (r2 & E2 & Hu2 & Hc2); [apply Hi|]. rewrite E2. simpl.
    eapply reserve_remove; [exact Hi|done|lia].
  - destruct Hi as (Hup & Ha & Hc & Hall & Hp). split_and!; [done|done| | |by eapply prefix_granted].
    + simpl. rewrite total_remove in *. done.
    + apply Forall_app in Hall as [H1 H2]. apply Forall_cons in H2 as [[Hd _] H2].
      apply Forall_app. split; [done|]. constructor; [|done]. by split.
  - assert (Hd : 0 < d) by (destruct Hi as (_ & _ & _ & Hall & _); by apply callers_remove in Hall as [[? _] _]).
    unfold release_tokens. assert (d <=? 0 = false) as -> by (apply Z.leb_gt; lia).
    set (r1 := match dict_get eid (usage r) with Some _ => _ | None => r end).
    assert (H1 : backend_up r1 = true /\ shared r1 = shared r).
    { destruct Hi as (Hup & _). unfold r1. by destruct (dict_get eid (usage r)). }
    destruct H1 as [Hu1 Hs1]. cbv zeta. destruct (add_tokens_up (- d) r1 Hu1) as (r2 & E2 & Hu2 & Hc2).
    rewrite E2. simpl. eapply reserve_remove; [exact Hi|done|rewrite Hc2, Hs1; lia].
  - destruct Hi as (Hup & Ha & Hc & Hall & Hp). unfold record_tokens.
    assert (n <=? 0 = false) as -> by (apply Z.leb_gt; lia). cbv zeta.
    set (r1 := put_snapshot _ _ r). destruct (add_tokens_up n r1) as (r2 & E2 & Hu2 & Hc2); [done|].
    rewrite E2. simpl. unfold r1 in Hc2. simpl in Hc2. split_and!; [done|lia|lia|done|done].
Qed.

(** A reservation made without interference is the two steps in a row. *)
Lemma reserve_tokens_is_steps now d r :
  0 < cap -> 0 < d -> backend_up r = true ->
  exists v, (reserve_tokens now eid tid d cap r).2 = bool_decide (v <= cap) /\
    rtc reserve_step (r, [], 0)
      ((reserve_tokens now eid tid d cap r).1,
       if (reserve_tokens now eid tid d cap r).2 then [Caller d v true] else [], 0).
Proof.
  intros Hcap Hd Hup. unfold reserve_tokens. cbv zeta.
  assert ((cap <=? 0) || (d <=? 0) = false) as -> by (apply orb_false_iff; split; apply Z.leb_gt; lia).
  destruct (add_tokens_up d r Hup) as (r2 & E2 & Hu2 & Hc2). rewrite E2.
  exists (counter eid (b_tokens (shared r)) + d). case_bool; boolprop; simpl.
  - split; [symmetry; apply bool_decide_eq_false; lia|]. eapply rtc_l; [by apply res_incr with (cs := [])|].
    apply rtc_once. by apply (res_refuse d _ r2 [] []).
  - split; [symmetry; apply bool_decide_eq_true; lia|]. eapply rtc_l; [by apply res_incr with (cs := [])|].
    apply rtc_once. by apply (res_grant now d _ r2 [] []).
Qed.
End Reservations.

(** ** Claims *)

(** C32: slots never leak: outside test mode and from empty counters, after any history of
    admissions, refusals, parkings, completions and usage operations in which an admission
    and the start it admits are one step, each tenant's counter equals the number of its
    slots taken and not returned and is at most the concurrency limit; and returning a slot
    announces capacity exactly when the tenant was at the limit. The limit is only kept
    that way: when two executions check before either starts it is exceeded, as
    [admission_race_overshoots] shows. *)
Theorem slots_track_holders cfg r0 st :
  is_testing cfg = false -> 0 <= MAX_CONCURRENT_PER_TENANT cfg ->
  (forall t, get_tenant_active t r0 = 0) ->
  rtc (slot_step cfg) (r0, []) st ->
  forall t, get_tenant_active t st.1 = holders t st.2 /\
    holders t st.2 <= MAX_CONCURRENT_PER_TENANT cfg /\
    (t ∈ st.2 -> forall eu,
       ((mark_waiting cfg t st.1).2 = true <-> holders t st.2 = MAX_CONCURRENT_PER_TENANT cfg) /\
       ((mark_completed cfg t eu st.1).2 = true <-> holders t st.2 = MAX_CONCURRENT_PER_TENANT cfg)).
Proof.
  intros Htest Hmax H0 Hr.
  assert (Hok : slots_ok cfg st).
  { assert (Hi : slots_ok cfg (r0, [])) by (intros t; rewrite H0; done).
    revert Hi. clear H0. induction Hr as [|x y z Hs Hr IH]; [done|]. intros Hi. apply IH.
    by eapply slot_step_ok. }
  intros t. destruct (Hok t) as [Ha Hm]. split; [done|]. split; [done|]. intros Hin eu.
  apply list_elem_of_split in Hin as (h1 & h2 & Hh). rewrite Hh, holders_mid, decide_True in * by done.
  pose proof (holders_nonneg t (h1 ++ h2)).
  assert (Hpos : 0 < get_tenant_active t st.1) by lia.
  pose proof (release_slot_active t t st.1 Hpos) as Hrel. unfold mark_waiting, mark_completed.
  destruct (release_slot t st.1) as [[r' b] a]. destruct Hrel as (_ & _ & -> & ->). simpl.
  unfold capacity_freed. rewrite andb_true_iff, Z.leb_le, Z.ltb_lt. lia.
Qed.

Definition empty_backend : backend := Backend [] [] [] [] [] [].
Definition empty_rm : rm := RM [] [] [] [] 0 [] false [] false empty_backend.

Lemma slots_track_holders_witness :
  let r := mark_started 1 "t" (Some "e1") empty_rm in
  get_tenant_active "t" r = 1 /\ holders "t" ["t"] = 1.
Proof.
  assert (H : rtc (slot_step default_config) (empty_rm, []) (mark_started 1 "t" (Some "e1") empty_rm, ["t"])).
  { apply rtc_once. apply step_admit. vm_compute. reflexivity. }
  destruct (slots_track_holders default_config empty_rm _ eq_refl ltac:(vm_compute; discriminate)
    (fun t => eq_refl) H "t") as [H1 _].
  split; [|vm_compute; reflexivity]. etrans; [exact H1|]. vm_compute. reflexivity.
Defined.

(** The limit is not enforced against concurrent starts: when a tenant
    has one slot left, two executions that both check admission before either
    starts are both admitted, and the tenant then runs one execution more than
    the limit. *)
Lemma admission_race_overshoots cfg now t eu1 eu2 r :
  is_testing cfg = false ->
  get_tenant_active t r = MAX_CONCURRENT_PER_TENANT cfg - 1 ->
  let '(r1, ok1) := can_execute cfg now t r in
  let '(r2, ok2) := can_execute cfg now t r1 in
  ok1 = true /\ ok2 = true /\
  get_tenant_active t (mark_started now t eu2 (mark_started now t eu1 r2))
    = MAX_CONCURRENT_PER_TENANT cfg + 1.
Proof.
  intros Htest Hn. unfold can_execute. rewrite Htest. cbv zeta.
  pose proof (sweep_counts now r) as H1. pose proof (sweep_counts now (sweep now r)) as H2.
  pose proof (same_counts_active _ _ t H1) as E1. pose proof (same_counts_active _ _ t H2) as E2.
  rewrite E2, E1, Hn.
  split; [apply negb_true_iff, Z.leb_gt; lia|]. split; [apply negb_true_iff, Z.leb_gt; lia|].
  destruct (mark_started_active now t eu2 t (mark_started now t eu1 (sweep now (sweep now r)))) as [-> _].
  destruct (mark_started_active now t eu1 t (sweep now (sweep now r))) as [-> _].
  rewrite E2, E1, Hn, decide_True by done. lia.
Qed.

Lemma admission_race_overshoots_witness :
  get_tenant_active "t" (mark_started 1 "t" (Some "e2") (mark_started 1 "t" (Some "e1")
    (can_execute (Config false 0 0 1 0) 1 "t" (can_execute (Config false 0 0 1 0) 1 "t" empty_rm).1).1)) = 2.
Proof.
  pose proof (admission_race_overshoots (Config false 0 0 1 0) 1 "t" (Some "e1") (Some "e2") empty_rm
    eq_refl eq_refl) as H. destruct H as (_ & _ & H). exact H.
Defined.

(** Token reservations never exceed their cap, however callers
    interleave: with the shared counter, in every reachable state the granted
    and unreleased reservations sum to at most the cap, and the counter is the
    usage recorded plus every counted reservation; and in process memory a
    reservation is granted exactly when usage plus reservation stays within the
    cap, and then it is added. *)
Lemma reservations_never_exceed_cap eid tid cap r0 st :
  0 <= cap -> backend_up r0 = true -> counter eid (b_tokens (shared r0)) = 0 ->
  rtc (reserve_step eid tid cap) (r0, [], 0) st ->
  granted st.1.2 <= cap /\
  counter eid (b_tokens (shared st.1.1)) = st.2 + total st.1.2 /\
  (forall now d r, backend_up r = false -> 0 < d -> 0 < cap ->
     let used := tokens (snapshot_or_new eid tid now r) in
     let '(r', ok) := reserve_tokens now eid tid d cap r in
     (ok = true <-> used + d <= cap) /\
     tokens (snapshot_or_new eid tid now r') = if ok then used + d else used).
Proof.
  intros Hcap Hup H0 Hr.
  assert (Hi : reserve_inv eid cap st).
  { assert (H : reserve_inv eid cap (r0, [], 0)) by (split_and!; simpl; [done|lia|lia|constructor|done]).
    revert H. clear Hup H0. induction Hr as [|x y z Hs Hr IH]; [done|]. intros H. apply IH.
    by eapply reserve_step_inv. }
  destruct st as [[r cs] a]. destruct Hi as (_ & _ & Hc & Hall & Hp). simpl.
  split; [destruct (granted_bounded cap 0 cs Hall Hp); lia|]. split; [done|].
  intros now d r' Hdown Hd Hc0. unfold reserve_tokens, backend_add_tokens. cbv zeta. rewrite Hdown.
  assert ((cap <=? 0) || (d <=? 0) = false) as -> by (apply orb_false_iff; split; apply Z.leb_gt; lia).
  case_bool; boolprop; (split; [split; [done|lia] || (split; [lia|done])|]);
    unfold snapshot_or_new at 1; simpl; by rewrite dict_get_set_eq.
Qed.

Definition shared_rm : rm := RM [] [] [] [] 0 [] false [] true empty_backend.

Lemma reservations_never_exceed_cap_witness :
  exists st, rtc (reserve_step "eu" "t" 10) (shared_rm, [], 0) st /\ granted st.1.2 = 7 /\ granted st.1.2 <= 10.
Proof.
  destruct (reserve_tokens_is_steps "eu" "t" 10 1 7 shared_rm) as (v & _ & H); [lia|lia|reflexivity|].
  eexists. split; [exact H|]. split; [vm_compute; reflexivity|].
  apply (reservations_never_exceed_cap "eu" "t" 10 shared_rm _ ltac:(lia) eq_refl eq_refl H).
Defined.

(** Quotas are enforced, and a declared ceiling only narrows: a unit in
    process memory is refused exactly when a positive effective ceiling on
    wall time or syscalls is exceeded; the effective ceiling is positive as
    soon as the global or the declared one is, and is at most each of the two
    that is positive. *)
Lemma quota_enforced cfg now eid r s :
  is_testing cfg = false -> backend_up r = false -> eid <> "" ->
  0 <= MAX_WALL_TIME_MS cfg -> 0 <= MAX_SYSCALLS_PER_EXECUTION cfg ->
  Forall (fun kv => 0 < kv.2) (limits s) ->
  dict_get eid (usage (sweep now r)) = Some s ->
  let cap g dim := narrow g (counter dim (limits s)) in
  let wall_cap := cap (MAX_WALL_TIME_MS cfg) "wall_time_ms" in
  let sys_cap := cap (MAX_SYSCALLS_PER_EXECUTION cfg) "syscalls" in
  ((check_quota cfg now eid r).2 <> QuotaOk <->
     (0 < wall_cap /\ wall_cap < wall_time_ms s) \/ (0 < sys_cap /\ sys_cap < syscall_count s)) /\
  (forall g d, 0 <= g -> 0 <= d ->
     (0 < g \/ 0 < d <-> 0 < narrow g d) /\ (0 < g -> narrow g d <= g) /\ (0 < d -> narrow g d <= d)).
Proof.
  intros Htest Hdown Hne Hw Hs Hlim Hsnap. cbv zeta. split.
  - assert (Hd : backend_up (sweep now r) = false) by (unfold sweep; by case_bool).
    unfold check_quota. rewrite Htest, Hsnap, Hd.
    assert (Hdl : declared_limits eid (sweep now r) = (sweep now r, limits s)).
    { unfold declared_limits. rewrite Hsnap, Hd. destruct s as [? ? ? ? ? [|] ?]; done. }
    assert (Heff : forall dim, effective_limit cfg eid dim (sweep now r)
      = (sweep now r, narrow (global_limit cfg dim) (counter dim (limits s)))).
    { intros dim. unfold effective_limit. by rewrite decide_False, Hdl. }
    rewrite !Heff. change (global_limit cfg "wall_time_ms") with (MAX_WALL_TIME_MS cfg).
    change (global_limit cfg "syscalls") with (MAX_SYSCALLS_PER_EXECUTION cfg). cbv zeta.
    set (wc := narrow (MAX_WALL_TIME_MS cfg) _). set (sc := narrow (MAX_SYSCALLS_PER_EXECUTION cfg) _).
    destruct ((0 <? wc) && (wc <? wall_time_ms s)) eqn:E1; [boolprop; simpl; split; [by left|intros _; discriminate]|].
    apply andb_false_iff in E1.
    destruct ((0 <? sc) && (sc <? syscall_count s)) eqn:E2; [boolprop; simpl; split; [by right|intros _; discriminate]|].
    apply andb_false_iff in E2. simpl. split; [done|].
    rewrite !Z.ltb_ge in E1, E2. lia.
  - intros g d Hg Hd. unfold narrow. repeat case_bool; boolprop; try lia.
Qed.

Lemma quota_enforced_witness :
  (check_quota default_config 1 "e" (record_usage 1 "e" 0 0 101 0 empty_rm)).2 <> QuotaOk.
Proof.
  assert (Hlim : Forall (fun kv : string * Z => 0 < kv.2) (limits (Snap "" 0 0 101 0 [] 1))) by constructor.
  pose proof (quota_enforced default_config 1 "e" (record_usage 1 "e" 0 0 101 0 empty_rm)
    (Snap "" 0 0 101 0 [] 1) eq_refl eq_refl ltac:(discriminate) ltac:(discriminate)
    ltac:(discriminate) Hlim eq_refl) as [H _].
  apply H. right. vm_compute. split; reflexivity.
Defined.
