(* ===== verification/EffectLedger.v ===== *)
(** * The effect ledger (src/AINDY/kernel/effect_ledger.py) and compensating undo
      (core/effect_compensation.py)

    One row per logical effect, keyed by its action id (the unique index of the
    table): a call claims the slot, replays what is recorded, holds an ambiguous
    outcome, or is told that another call is live. Times are seconds. A row a
    session has read may be stale by the time it writes: [resolve_seen] takes
    the row its SELECT returned and the table at its write, so that interleaved
    calls are sequences of such steps. A write changes the attributes that differ
    from what the session read (SQLAlchemy's unit of work). *)

From S2P Require Import Prelude PyStr PyVal Syscalls.

Local Open Scope string_scope.
Local Open Scope Z_scope.
Local Open Scope list_scope.
Local Open Scope py_scope.

(** ** Rows (db/models/effect_record.py) *)

Definition EFFECT_STATUSES : list string := ["pending"; "success"; "failed"; "partial"; "unknown"].
Definition TERMINAL_EFFECT_STATUSES : list string := ["success"; "failed"; "partial"; "unknown"].

Record effect_record := Effect {
  er_id : string;
  er_action_type : string;
  er_input_hash : string;
  er_execution : option string;
  er_tenant : option string;
  er_session : option string;
  er_status : string;
  er_result : pyval;
  er_created : Z;
  er_completed : option Z
}.

Definition ledger : Type := list (string * effect_record).

Definition STALE_PENDING_THRESHOLD_SECONDS : Z := 900.

(** ** Attribution *)

(** An explicit field wins over the ambient one. *)
Definition attributed (explicit ambient : option string) : option string :=
  match explicit with Some t => Some t | None => ambient end.

(** The ambient run: none, a scope that unlinks its effects, or a run id. *)
Inductive effect_run := NoRun | Unlinked | InRun (run_id : string).

Record unit_row := UnitRow {
  ur_id : string;
  ur_source_type : string;
  ur_source_id : string;
  ur_created : Z
}.

(** ORDER BY created_at DESC, first row. *)
Definition newest (us : list unit_row) : option unit_row :=
  fold_left (fun acc u => match acc with
                          | Some a => if ur_created a <? ur_created u then Some u else acc
                          | None => Some u
                          end) us None.

Definition linked_execution_id (parse_uuid : string -> option string) (units : list unit_row)
    (ambient : effect_run) (current_run execution_ref : option string) : option string :=
  let link ref :=
    match ref with
    | None | Some "" => None
    | Some r =>
        ur_id <$> newest (base.filter (fun u =>
          (ur_source_type u ∈ ["agent_run"; "flow_run"] /\ ur_source_id u = r) \/ parse_uuid r = Some (ur_id u)) units)
    end in
  match ambient with
  | Unlinked => None
  | InRun r => link (Some r)
  | NoRun => link (match current_run with None | Some "" => execution_ref | _ => current_run end)
  end.

(** ** Claiming *)

(** What the gate answers: replay the recorded result, the held outcome, go
    ahead (the slot is claimed), or another call is live. *)
Inductive gate :=
| Replay (payload : pyval)
| HeldReplay (h : HeldOutcome)
| Claimed
| Degraded.

(** What the caller passes along with the action id. *)
Record claim_args := ClaimArgs {
  ca_type : string;
  ca_hash : string;
  ca_tenant : option string;
  ca_session : option string;
  ca_link : option string;
  ca_fresh_id : string
}.

(** An assigned attribute is written when it differs from the value read. *)
Definition assign {A} `{EqDecision A} (read new current : A) : A :=
  if decide (read = new) then current else new.

Definition reclaimed (now : Z) (a : claim_args) (read current : effect_record) : effect_record :=
  Effect (er_id current) (er_action_type current) (er_input_hash current)
    (match er_execution read with None => assign None (ca_link a) (er_execution current) | Some _ => er_execution current end)
    (assign (er_tenant read) (ca_tenant a) (er_tenant current))
    (assign (er_session read) (ca_session a) (er_session current))
    (assign (er_status read) "pending" (er_status current))
    (er_result current)
    (assign (er_created read) now (er_created current))
    (assign (er_completed read) None (er_completed current)).

(** [read] is the row the caller's query returned; [tbl] the table as it is. *)
Definition resolve_existing_row (now : Z) (aid : string) (a : claim_args) (read : effect_record)
    (tbl : ledger) : gate * ledger :=
  if decide (er_status read = "success") then (Replay (er_result read), tbl)
  else if decide (er_status read ∈ HELD_LEDGER_STATUSES)
  then (HeldReplay (held_outcome_from_record (er_status read) (er_result read)), tbl)
  else if bool_decide (er_status read = "pending") && (now - STALE_PENDING_THRESHOLD_SECONDS <=? er_created read)
  then (Degraded, tbl)
  else (Claimed, match dict_get aid tbl with
                 | Some current => dict_set aid (reclaimed now a read current) tbl
                 | None => tbl
                 end).

Definition fresh_row (now : Z) (a : claim_args) : effect_record :=
  Effect (ca_fresh_id a) (ca_type a) (ca_hash a) (ca_link a) (ca_tenant a) (ca_session a) "pending" VNone now None.

(** After the opening SELECT returned [seen]: an INSERT that meets the unique
    index re-reads the row. *)
Definition resolve_seen (now : Z) (aid : string) (a : claim_args) (seen : option effect_record)
    (tbl : ledger) : gate * ledger :=
  match seen with
  | Some row => resolve_existing_row now aid a row tbl
  | None =>
      match dict_get aid tbl with
      | None => (Claimed, dict_set aid (fresh_row now a) tbl)
      | Some row => resolve_existing_row now aid a row tbl
      end
  end.

Definition resolve_effect_record (now : Z) (aid : string) (a : claim_args) (tbl : ledger) : gate * ledger :=
  resolve_seen now aid a (dict_get aid tbl) tbl.

(** ** Completing *)

Inductive ledger_error := BadCompletion (status : string) | EffectNotFound | EffectNotReconcilable (status : string)
                        | BadResolution (status : string).

Definition dict_or_none (v : pyval) : pyval := match v with VDict _ => v | _ => VNone end.

Definition with_outcome (status : string) (payload : pyval) (now : Z) (r : effect_record) : effect_record :=
  Effect (er_id r) (er_action_type r) (er_input_hash r) (er_execution r) (er_tenant r) (er_session r)
    status payload (er_created r) (Some now).

Definition complete_effect_record (now : Z) (aid status : string) (payload : pyval) (tbl : ledger)
    : result ledger_error ledger :=
  if decide (status ∈ TERMINAL_EFFECT_STATUSES) then
    Ok (match dict_get aid tbl with
        | Some r => dict_set aid (with_outcome status (dict_or_none payload) now r) tbl
        | None => tbl
        end)
  else Err (BadCompletion status).

(** ** Reconciliation *)

Definition RECONCILE_STATUSES : list string := ["success"; "failed"].

Definition count_unknown_effects (tbl : ledger) : Z :=
  Z.of_nat (length (base.filter (fun kr : string * effect_record => er_status kr.2 = "unknown") tbl)).

Definition reconcile_effect_record (now : Z) (aid status : string) (tbl : ledger) : result ledger_error ledger :=
  if decide (status ∈ RECONCILE_STATUSES) then
    match dict_get aid tbl with
    | None => Err EffectNotFound
    | Some r =>
        if decide (er_status r = "unknown") then
          let held := held_outcome_from_record (er_status r) (er_result r) in
          Ok (dict_set aid (with_outcome status (if decide (status = "success") then h_data held else VNone) now r) tbl)
        else Err (EffectNotReconcilable (er_status r))
    end
  else Err (BadResolution status).

(** ** Compensating undo (effect_compensation.py)

    The audit rows are [effect_reversals]; a compensator runs in a savepoint, so
    one that raises ([None]) leaves the application state as it was. *)

Definition UNDO_SYSCALL : string := "sys.v1.agent.undo".

Record reversal := Reversal {
  rv_effect : string;
  rv_run : string;
  rv_execution : string;
  rv_type : string;
  rv_status : string
}.

Record undo_summary := Summary {
  us_reversed : list string;
  us_already_reversed : list string;
  us_irreversible : list string;
  us_failed : list string;
  us_reversible : list string;
  us_error : bool
}.

Definition empty_summary : undo_summary := Summary [] [] [] [] [] false.

(** Newest first: ORDER BY created_at DESC, id DESC. *)
Definition newer (a b : effect_record) : Prop :=
  er_created b < er_created a \/ (er_created a = er_created b /\ String.leb (er_id b) (er_id a) = true).
#[export] Instance newer_dec a b : Decision (newer a b).
Proof. unfold newer. apply _. Defined.

Definition undo_records (eu : string) (tbl : ledger) : list effect_record :=
  merge_sort newer (base.filter (fun r =>
    er_execution r = Some eu /\ er_status r = "success" /\ er_action_type r <> UNDO_SYSCALL) (map snd tbl)).

Definition reversed_ids (rows : list reversal) : list string :=
  map rv_effect (base.filter (fun v => rv_status v = "reversed") rows).

Section Undo.
Context {A : Type}.

Record undo_state := UndoState {
  u_app : A;
  u_rows : list reversal;
  u_invoked : list string;
  u_summary : undo_summary
}.

Definition undo_one (lookup : string -> option (effect_record -> A -> option A)) (run eu : string)
    (report_only : bool) (already : list string) (st : undo_state) (rec : effect_record) : undo_state :=
  let '(UndoState app rows invoked (Summary rv al ir fl rb er)) := st in
  let row status := rows ++ [Reversal (er_id rec) run eu (er_action_type rec) status] in
  let ty := er_action_type rec in
  if decide (er_id rec ∈ already) then UndoState app rows invoked (Summary rv (al ++ [ty]) ir fl rb er)
  else match lookup ty with
       | None => if report_only then UndoState app rows invoked (Summary rv al (ir ++ [ty]) fl rb er)
                 else UndoState app (row "irreversible") invoked (Summary rv al (ir ++ [ty]) fl rb er)
       | Some compensate =>
           if report_only then UndoState app rows invoked (Summary rv al ir fl (rb ++ [ty]) er)
           else match compensate rec app with
                | Some app => UndoState app (row "reversed") (invoked ++ [er_id rec]) (Summary (rv ++ [ty]) al ir fl rb er)
                | None => UndoState app (row "failed") (invoked ++ [er_id rec]) (Summary rv al ir (fl ++ [ty]) rb er)
                end
       end.

(** [unit] is the run's execution unit, if it has one. *)
Definition undo_run_effects (lookup : string -> option (effect_record -> A -> option A)) (run : string)
    (unit : option string) (report_only : bool) (tbl : ledger) (rows : list reversal) (app : A) : undo_state :=
  match unit with
  | None => UndoState app rows [] (Summary [] [] [] [] [] true)
  | Some eu =>
      let records := undo_records eu tbl in
      let already := base.filter (fun i => i ∈ reversed_ids rows) (map er_id records) in
      fold_left (undo_one lookup run eu report_only already) records (UndoState app rows [] empty_summary)
  end.
End Undo.
Arguments undo_state : clear implicits.

(** ** Serial calls

    With the advisory lock held from claim to completion, the calls for one
    action id are serial. [Crashed]: the process died between claim and
    completion. A call that finds the slot live (left by a call that died) refuses
    if it is [AT_MOST_ONCE]; one that is [EXACTLY_ONCE] goes on and settles the row
    (syscall_dispatcher.py and tool_registry.py, where the gate is degraded). *)

Inductive ran := Completed (status : string) (payload : pyval) | Crashed.

Record call := Call {
  c_time : Z;
  c_args : claim_args;
  c_at_most_once : bool;      (* otherwise EXACTLY_ONCE *)
  c_ran : ran;
  c_end : Z
}.

(** The ledger after the handler of a claimed slot. *)
Definition after_run (aid : string) (c : call) (tbl : ledger) : ledger :=
  match c_ran c with
  | Completed status payload =>
      match complete_effect_record (c_end c) aid status payload tbl with
      | Ok tbl => tbl
      | Err _ => tbl
      end
  | Crashed => tbl
  end.

(** Whether the handler runs, and the ledger after the call. *)
Definition call_step (aid : string) (c : call) (tbl : ledger) : bool * ledger :=
  match resolve_effect_record (c_time c) aid (c_args c) tbl with
  | (Claimed, tbl) => (true, after_run aid c tbl)
  | (Degraded, tbl) => if c_at_most_once c then (false, tbl) else (true, after_run aid c tbl)
  | (Replay _, tbl) | (HeldReplay _, tbl) => (false, tbl)
  end.

Fixpoint run_calls (aid : string) (tbl : ledger) (cs : list call) : list bool :=
  match cs with
  | [] => []
  | c :: cs => let '(b, tbl) := call_step aid c tbl in b :: run_calls aid tbl cs
  end.

(** *** The contract: a slot is free, has landed, or is live since a time *)

Inductive slot := Free | Landed | Live (since : Z).

Definition landed (r : ran) : bool :=
  match r with
  | Completed s _ => bool_decide (s ∈ TERMINAL_EFFECT_STATUSES) && bool_decide (s <> "failed")
  | Crashed => false
  end.

(** After a call that ran on a slot live since [since]. *)
Definition slot_after (since : Z) (c : call) : slot :=
  match c_ran c with
  | Completed s _ => if decide (s = "failed") then Free
                     else if decide (s ∈ TERMINAL_EFFECT_STATUSES) then Landed
                     else Live since
  | Crashed => Live since
  end.

Definition slot_step (c : call) (s : slot) : bool * slot :=
  match s with
  | Free => (true, slot_after (c_time c) c)
  | Landed => (false, Landed)
  | Live t => if t <? c_time c - STALE_PENDING_THRESHOLD_SECONDS then (true, slot_after (c_time c) c)
              else if c_at_most_once c then (false, s) else (true, slot_after t c)
  end.

Fixpoint run_slot (s : slot) (cs : list call) : list bool :=
  match cs with
  | [] => []
  | c :: cs => let '(b, s) := slot_step c s in b :: run_slot s cs
  end.

Definition slot_of (row : option effect_record) : slot :=
  match row with
  | None => Free
  | Some r => if decide (er_status r ∈ ["success"; "partial"; "unknown"]) then Landed
              else if decide (er_status r = "pending") then Live (er_created r)
              else Free
  end.

(** Several calls whose opening SELECTs all returned [seen], writing in turn. *)
Fixpoint race (aid : string) (seen : option effect_record) (tbl : ledger) (cs : list (Z * claim_args))
    : list gate :=
  match cs with
  | [] => []
  | (t, a) :: cs => let '(g, tbl) := resolve_seen t aid a seen tbl in g :: race aid seen tbl cs
  end.

(** ** Lemmas *)

Lemma assign_same {A} `{EqDecision A} (read new : A) : assign read new read = new.
Proof. unfold assign. by case_decide. Qed.

Lemma complete_slot now aid s p tbl r :
  dict_get aid tbl = Some r -> s ∈ TERMINAL_EFFECT_STATUSES ->
  complete_effect_record now aid s p tbl = Ok (dict_set aid (with_outcome s (dict_or_none p) now r) tbl).
Proof. intros Hr Hs. unfold complete_effect_record. by rewrite decide_True, Hr. Qed.

(** A claim leaves a pending row dated now. *)
Lemma resolve_claims now aid a tbl tbl' :
  resolve_effect_record now aid a tbl = (Claimed, tbl') ->
  exists r, dict_get aid tbl' = Some r /\ er_status r = "pending" /\ er_created r = now.
Proof.
  unfold resolve_effect_record, resolve_seen. destruct (dict_get aid tbl) as [row|] eqn:Hr.
  - unfold resolve_existing_row. case_decide; [done|]. case_decide; [done|]. case_bool; [done|].
    intros [= <-]. rewrite Hr. eexists. split; [apply dict_get_set_eq|].
    simpl. by rewrite !assign_same.
  - intros [= <-]. eexists. split; [apply dict_get_set_eq|done].
Qed.

(** Whether it claims is decided by the slot. *)
Lemma resolve_by_slot now aid a tbl :
  match resolve_effect_record now aid a tbl with
  | (Claimed, _) => match slot_of (dict_get aid tbl) with
                    | Free => True
                    | Live t => t < now - STALE_PENDING_THRESHOLD_SECONDS
                    | Landed => False
                    end
  | (g, tbl') => tbl' = tbl /\
                 match slot_of (dict_get aid tbl) with
                 | Free => False
                 | Live t => g = Degraded /\ now - STALE_PENDING_THRESHOLD_SECONDS <= t
                 | Landed => g <> Degraded
                 end
  end.
Proof.
  unfold resolve_effect_record, resolve_seen. destruct (dict_get aid tbl) as [row|] eqn:Hr; [|done].
  unfold resolve_existing_row, slot_of, HELD_LEDGER_STATUSES.
  case_decide as H1. { split; [done|]. by rewrite decide_True by (rewrite H1; by left). }
  case_decide as H2. { split; [done|]. by rewrite decide_True by (right; exact H2). }
  rewrite (decide_False (P := er_status row ∈ ["success"; "partial"; "unknown"]))
    by (rewrite elem_of_cons; tauto).
  case_bool; boolprop.
  - split; [done|]. rewrite decide_True by done. split; [done|lia].
  - destruct (decide (er_status row = "pending")) as [H3|H3]; [|done]. rewrite bool_decide_true in Hif by done. simpl in Hif. boolprop. lia.
Qed.

Lemma after_run_slot aid c tbl r :
  dict_get aid tbl = Some r -> er_status r = "pending" -> slot_of (dict_get aid (after_run aid c tbl)) = slot_after (er_created r) c.
Proof.
  intros Hr Hp. assert (Hlive : slot_of (dict_get aid tbl) = Live (er_created r)) by (rewrite Hr; unfold slot_of; by rewrite Hp).
  unfold slot_after, after_run. destruct (c_ran c) as [s p|]; [|done].
  destruct (decide (s ∈ TERMINAL_EFFECT_STATUSES)) as [Hs|Hs].
  - rewrite (complete_slot _ _ _ _ _ r) by done. rewrite dict_get_set_eq. unfold TERMINAL_EFFECT_STATUSES in Hs.
    repeat (apply elem_of_cons in Hs as [->|Hs]; [reflexivity|]). by apply not_elem_of_nil in Hs.
  - assert (s <> "failed") by (intros ->; apply Hs; unfold TERMINAL_EFFECT_STATUSES; set_solver).
    unfold complete_effect_record. by rewrite !decide_False.
Qed.

Lemma live_row row t : slot_of row = Live t -> exists r, row = Some r /\ er_status r = "pending" /\ er_created r = t.
Proof.
  unfold slot_of. destruct row as [r|]; [|done]. case_decide; [done|]. case_decide; [|done]. intros [= <-]. by exists r.
Qed.

Lemma call_refines aid c tbl :
  let '(b, tbl') := call_step aid c tbl in
  slot_step c (slot_of (dict_get aid tbl)) = (b, slot_of (dict_get aid tbl')).
Proof.
  unfold call_step. pose proof (resolve_by_slot (c_time c) aid (c_args c) tbl) as Hs.
  destruct (resolve_effect_record (c_time c) aid (c_args c) tbl) as [g tbl'] eqn:E.
  destruct g; try (destruct Hs as [-> Hs]; destruct (slot_of (dict_get aid tbl)) as [| |t] eqn:El; try done; simpl).
  1,2: by destruct Hs.
  2: { rewrite (proj2 (Z.ltb_ge _ _)) by lia. destruct (live_row _ _ El) as (r & Hr & Hp & Hc).
       destruct (c_at_most_once c); [by rewrite El|]. by rewrite (after_run_slot _ _ _ r), Hc. }
  destruct (resolve_claims _ _ _ _ _ E) as (r & Hr & Hp & Hc). rewrite (after_run_slot _ _ _ r), Hc by done.
  destruct (slot_of _) as [| |t]; simpl; [done|done|]. by rewrite (proj2 (Z.ltb_lt _ _)).
Qed.

Lemma run_refines aid cs tbl : run_calls aid tbl cs = run_slot (slot_of (dict_get aid tbl)) cs.
Proof.
  revert tbl. induction cs as [|c cs IH]; intros tbl; [done|]. simpl.
  pose proof (call_refines aid c tbl) as H. destruct (call_step aid c tbl) as [b tbl'].
  rewrite H. by rewrite IH.
Qed.

Lemma landed_slot cs : Forall (fun b => b = false) (run_slot Landed cs).
Proof. induction cs; simpl; constructor; done. Qed.

Lemma slot_after_landed t c : landed (c_ran c) = true -> slot_after t c = Landed.
Proof.
  unfold landed, slot_after. destruct (c_ran c) as [s p|]; [|done]. intros H. boolprop.
  by rewrite decide_False, decide_True.
Qed.

(** *** Undo *)

Section UndoFacts.
Context {A : Type}.

Definition summary_size (s : undo_summary) : nat :=
  length (us_reversed s) + length (us_already_reversed s) + length (us_irreversible s) + length (us_failed s)
  + length (us_reversible s).

Lemma reversed_ids_app l l' : reversed_ids (l ++ l') = reversed_ids l ++ reversed_ids l'.
Proof. unfold reversed_ids. by rewrite filter_app, map_app. Qed.

(** One record: the summary counts it; nothing already reversed is invoked; at
    most its own id becomes reversed; a report changes nothing. *)
Lemma undo_one_spec lookup run eu (report : bool) already (st : undo_state A) rec :
  let st' := undo_one lookup run eu report already st rec in
  summary_size (u_summary st') = S (summary_size (u_summary st)) /\
  (exists inv, u_invoked st' = u_invoked st ++ inv /\ (inv = [] \/ (inv = [er_id rec] /\ er_id rec ∉ already))) /\
  (exists new, reversed_ids (u_rows st') = reversed_ids (u_rows st) ++ new /\
     (new = [] \/ (new = [er_id rec] /\ er_id rec ∉ already))) /\
  (report = true -> u_rows st' = u_rows st /\ u_app st' = u_app st /\ u_invoked st' = u_invoked st).
Proof.
  destruct st as [app rows inv [rv al ir fl rb er]]. unfold undo_one. cbv zeta. unfold summary_size.
  case_decide as Hin.
  { simpl. rewrite length_app. simpl. split_and!; [lia|exists []; rewrite app_nil_r; by auto..|done]. }
  destruct (lookup (er_action_type rec)) as [f|], report; try (destruct (f rec app)); simpl;
    rewrite ?length_app, ?reversed_ids_app; simpl;
    (split_and!; [lia| | |done]);
    try (eexists; split; [reflexivity|]; auto; fail);
    try (exists []; rewrite app_nil_r; by auto).
Qed.

Lemma undo_fold_spec lookup run eu report already records (st : undo_state A) :
  NoDup (map er_id records) -> NoDup (reversed_ids (u_rows st)) ->
  (forall rec, rec ∈ records -> er_id rec ∈ reversed_ids (u_rows st) -> er_id rec ∈ already) ->
  let st' := fold_left (undo_one lookup run eu report already) records st in
  NoDup (reversed_ids (u_rows st')) /\
  summary_size (u_summary st') = (summary_size (u_summary st) + length records)%nat /\
  (exists inv, u_invoked st' = u_invoked st ++ inv /\ forall i, i ∈ inv -> i ∈ map er_id records /\ i ∉ already) /\
  (report = true -> u_rows st' = u_rows st /\ u_app st' = u_app st /\ u_invoked st' = u_invoked st).
Proof.
  revert st. induction records as [|rec records IH]; intros st Hnd Hrev Hal; simpl.
  { split_and!; [done|lia|exists []; rewrite app_nil_r; split; [done|by intros i ?%not_elem_of_nil]|done]. }
  apply NoDup_cons in Hnd as [Hni Hnd].
  destruct (undo_one_spec lookup run eu report already st rec) as (Hs & (inv & Hi & Hi') & (new & Hn & Hn') & Hr).
  set (st1 := undo_one lookup run eu report already st rec) in *.
  destruct (IH st1) as (H1 & H2 & (inv2 & H3 & H4) & H5); [done| | |].
  - rewrite Hn. destruct Hn' as [->|[-> Hna]]; [by rewrite app_nil_r|].
    apply NoDup_app. split; [done|]. split; [|apply NoDup_singleton].
    intros i Hir ->%list_elem_of_singleton. apply Hna, Hal; [by left|done].
  - intros rec' Hin'. rewrite Hn, elem_of_app. intros [Hr'|Hr']; [apply Hal; [by right|done]|].
    destruct Hn' as [->|[-> _]]; [by apply not_elem_of_nil in Hr'|].
    apply list_elem_of_singleton in Hr'. exfalso. apply Hni. rewrite <- Hr'. apply list_elem_of_fmap. by exists rec'.
  - split_and!; [done|rewrite H2, Hs; lia| |].
    + exists (inv ++ inv2). split; [by rewrite H3, Hi, app_assoc|]. intros i. rewrite elem_of_app.
      intros [Hii|Hii]; [|destruct (H4 i Hii); split; [by right|done]].
      destruct Hi' as [->|[-> Hna]]; [by apply not_elem_of_nil in Hii|].
      apply list_elem_of_singleton in Hii as ->. split; [by left|done].
    + intros Hrt. destruct (H5 Hrt) as (-> & -> & ->). by apply Hr.
Qed.

Definition ids_unique (tbl : ledger) : Prop := NoDup (map (fun kr : string * effect_record => er_id kr.2) tbl).

Lemma undo_records_ids eu tbl : ids_unique tbl -> NoDup (map er_id (undo_records eu tbl)).
Proof.
  intros H. unfold undo_records.
  assert (Hp := merge_sort_Permutation newer (base.filter (fun r => er_execution r = Some eu /\ er_status r = "success" /\
     er_action_type r <> UNDO_SYSCALL) (map snd tbl))).
  apply (Permutation_map er_id) in Hp. rewrite Hp. clear Hp.
  unfold ids_unique in H. rewrite <- (map_map snd er_id) in H.
  eapply sublist_NoDup; [exact H|]. apply fmap_sublist, sublist_filter.
Qed.

(** An undo, and several of them one after the other on the same audit log. *)
Record undo_call := UndoCall {
  uc_lookup : string -> option (effect_record -> A -> option A);
  uc_run : string;
  uc_unit : option string;
  uc_ledger : ledger
}.

Definition undo (c : undo_call) (rows : list reversal) (app : A) : undo_state A :=
  undo_run_effects (uc_lookup c) (uc_run c) (uc_unit c) false (uc_ledger c) rows app.

Fixpoint undo_all (cs : list undo_call) (rows : list reversal) (app : A) : list (undo_state A) :=
  match cs with
  | [] => []
  | c :: cs => let st := undo c rows app in st :: undo_all cs (u_rows st) (u_app st)
  end.

Lemma undo_run_spec lookup run unit report tbl rows (app : A) :
  ids_unique tbl -> NoDup (reversed_ids rows) ->
  let st := undo_run_effects lookup run unit report tbl rows app in
  NoDup (reversed_ids (u_rows st)) /\
  summary_size (u_summary st) = match unit with Some eu => length (undo_records eu tbl) | None => O end /\
  (forall i, i ∈ u_invoked st -> i ∉ reversed_ids rows) /\
  (report = true -> u_rows st = rows /\ u_app st = app /\ u_invoked st = []).
Proof.
  intros Hids Hnd. destruct unit as [eu|]; simpl.
  2: { split_and!; [done|done|by intros i ?%not_elem_of_nil|done]. }
  set (already := base.filter _ _).
  destruct (undo_fold_spec lookup run eu report already (undo_records eu tbl) (UndoState app rows [] empty_summary))
    as (H1 & H2 & (inv & H3 & H4) & H5); simpl; [by apply undo_records_ids|done| |].
  { intros rec Hin Hr. apply list_elem_of_filter. split; [done|]. apply list_elem_of_fmap. by exists rec. }
  split_and!; [done|done| |done]. intros i. rewrite H3. simpl. intros Hi Hr. destruct (H4 i Hi) as [Hin Hna].
  apply Hna, list_elem_of_filter. done.
Qed.
End UndoFacts.

(** ** Claims *)

(** C16: an effect recorded as landed is never run again: for serial calls of one
    action (the advisory lock held from claim to completion, the gate able to read
    and write the ledger), [AT_MOST_ONCE] or [EXACTLY_ONCE], whatever the rows
    recorded before, the handlers run exactly when the contract of the slot says:
    the slot is free (never run, or the last run failed), or the last run was
    abandoned by a crash more than 900 seconds ago, or, for an [EXACTLY_ONCE] call
    only, more recently. In particular once a run is recorded as success, partial or
    unknown no later call runs its handler; a run that crashed before it was recorded
    may be repeated. *)
Theorem effect_runs_at_most_once aid tbl cs :
  run_calls aid tbl cs = run_slot (slot_of (dict_get aid tbl)) cs /\
  (forall pre c post, cs = pre ++ c :: post -> run_calls aid tbl cs !! length pre = Some true ->
     landed (c_ran c) = true ->
     Forall (fun b => b = false) (drop (S (length pre)) (run_calls aid tbl cs))).
Proof.
  split; [apply run_refines|]. intros pre c post -> . rewrite run_refines.
  generalize (slot_of (dict_get aid tbl)) as s. clear tbl.
  induction pre as [|d pre IH]; intros s; simpl.
  - destruct (slot_step c s) as [b s'] eqn:E. intros [= ->] Hl.
    assert (s' = Landed) as ->; [|apply landed_slot].
    destruct s as [| |t]; simpl in E; rewrite ?(slot_after_landed _ c Hl) in E; [by inversion E|done|].
    repeat case_bool; by inversion E.
  - destruct (slot_step d s) as [b s']. simpl. apply IH.
Qed.

(** The unique index makes first claims exclusive, and nothing makes
    reclaims exclusive: of any number of calls that all found no row, writing
    within 900 seconds of the first, exactly the first claims the slot and the
    others are told it is live; but of any number of calls that all read the same
    failed row, every one claims the slot and runs its handler. *)
Lemma claim_race aid tbl :
  (forall t a cs, dict_get aid tbl = None ->
     Forall (fun c : Z * claim_args => c.1 <= t + STALE_PENDING_THRESHOLD_SECONDS) cs ->
     race aid None tbl ((t, a) :: cs) = Claimed :: map (fun _ => Degraded) cs) /\
  (forall row cs, dict_get aid tbl = Some row -> er_status row = "failed" ->
     race aid (Some row) tbl cs = map (fun _ => Claimed) cs).
Proof.
  split.
  - intros t a cs Hn Hcs. simpl. rewrite Hn. f_equal. set (tbl' := dict_set _ _ _).
    assert (Hr : dict_get aid tbl' = Some (fresh_row t a)) by apply dict_get_set_eq. clearbody tbl'.
    induction Hcs as [|[t' a'] cs Ht Hcs IH]; [done|]. simpl in *. rewrite Hr.
    unfold resolve_existing_row. simpl. rewrite (proj2 (Z.leb_le _ _)) by lia. simpl. by rewrite IH.
  - intros row cs _ Hf. revert tbl. induction cs as [|[t a] cs IH]; intros tbl; [done|]. simpl.
    unfold resolve_existing_row. rewrite Hf. simpl. by rewrite IH.
Qed.

Definition demo_args : claim_args := ClaimArgs "sys.v1.memory.write" "h" (Some "u1") None (Some "eu") "id".
Definition demo_failed : effect_record := with_outcome "failed" VNone 10 (fresh_row 5 demo_args).

Lemma claim_race_witness :
  race "act" None [] [(100, demo_args); (101, demo_args); (1000, demo_args)] = [Claimed; Degraded; Degraded] /\
  race "act" (Some demo_failed) [("act", demo_failed)] [(100, demo_args); (101, demo_args)] = [Claimed; Claimed].
Proof.
  split.
  - apply (proj1 (claim_race "act" []) 100 demo_args [(101, demo_args); (1000, demo_args)]); [reflexivity|].
    repeat constructor; simpl; unfold STALE_PENDING_THRESHOLD_SECONDS; lia.
  - apply (proj2 (claim_race "act" [("act", demo_failed)]) demo_failed); reflexivity.
Defined.

(** A crash, a call too early, one that goes on all the same, a failure, an unknown
    outcome, and a late call. *)
Definition demo_before : list call :=
  [Call 0 demo_args true Crashed 0; Call 500 demo_args true Crashed 0; Call 501 demo_args false Crashed 0;
   Call 901 demo_args true (Completed "failed" VNone) 902].
Definition demo_landing : call := Call 903 demo_args true (Completed "unknown" VNone) 904.
Definition demo_after : list call := [Call 5000 demo_args false Crashed 0].

Lemma effect_runs_at_most_once_witness :
  let cs := demo_before ++ demo_landing :: demo_after in
  run_calls "act" [] cs = [true; false; true; true; true; false] /\
  Forall (fun b => b = false) (drop 5 (run_calls "act" [] cs)).
Proof.
  cbv zeta. split; [reflexivity|].
  apply (proj2 (effect_runs_at_most_once "act" [] (demo_before ++ demo_landing :: demo_after))
    demo_before demo_landing demo_after eq_refl); reflexivity.
Defined.

(** A call that was let through beside a live one and then fails overwrites the
    success the other call recorded, so the next call runs the effect again. *)
Example degraded_failure_reopens_slot :
  let '(g1, t1) := resolve_effect_record 0 "act" demo_args [] in
  let '(g2, t2) := resolve_effect_record 1 "act" demo_args t1 in
  match complete_effect_record 2 "act" "success" (VDict [("id", VInt 7)]) t2 with
  | Ok t3 => match complete_effect_record 3 "act" "failed" VNone t3 with
             | Ok t4 => g1 = Claimed /\ g2 = Degraded /\ (resolve_effect_record 4 "act" demo_args t4).1 = Claimed
             | Err _ => False
             end
  | Err _ => False
  end.
Proof. split_and!; reflexivity. Qed.

(** ** Reconciliation *)

Lemma filter_set_count (P : string * effect_record -> Prop) `{!forall x, Decision (P x)} aid r r' (tbl : ledger) :
  dict_get aid tbl = Some r -> P (aid, r) -> ~ P (aid, r') ->
  length (base.filter P tbl) = S (length (base.filter P (dict_set aid r' tbl))).
Proof.
  intros Hg Hp Hn. induction tbl as [|[k v] tbl IH]; [done|]. simpl in *. case_decide as Hk.
  - injection Hg as ->. subst k. rewrite (filter_cons P (aid, r)), (filter_cons P (aid, r')).
    by destruct (decide (P (aid, r))), (decide (P (aid, r'))).
  - rewrite (filter_cons P (k, v) tbl), (filter_cons P (k, v) (dict_set _ _ _)). 
    destruct (decide (P (k, v))); [cbn [length]; f_equal|]; by apply IH.
Qed.

(** Reconciliation settles an unknown effect and nothing else: it is
    accepted exactly for an existing row whose status is unknown and a verdict of
    success or failed; it then leaves every other row alone and one unknown
    effect less; after "success" the next call replays the data that was recorded
    with the unknown outcome, and after "failed" the next call claims the slot. *)
Lemma reconcile_settles_unknown now aid status tbl :
  (forall tbl', reconcile_effect_record now aid status tbl = Ok tbl' ->
     status ∈ RECONCILE_STATUSES /\
     (forall k, k <> aid -> dict_get k tbl' = dict_get k tbl) /\
     count_unknown_effects tbl = count_unknown_effects tbl' + 1 /\
     exists r, dict_get aid tbl = Some r /\ er_status r = "unknown" /\
       forall later a,
         (resolve_effect_record later aid a tbl').1 =
         if decide (status = "success") then Replay (h_data (held_outcome_from_record "unknown" (er_result r)))
         else Claimed) /\
  ((exists r, dict_get aid tbl = Some r /\ er_status r = "unknown") -> status ∈ RECONCILE_STATUSES ->
     exists tbl', reconcile_effect_record now aid status tbl = Ok tbl') /\
  (forall data outcome, h_data (held_outcome_from_record "unknown" (held_record_payload data outcome)) = data).
Proof.
  unfold reconcile_effect_record. split_and!.
  - intros tbl'. case_decide as Hs; [|done]. destruct (dict_get aid tbl) as [r|] eqn:Hr; [|done].
    case_decide as Hu; [|done]. cbv zeta. intros [= <-]. split_and!; [done|..].
    + intros k Hk. by apply dict_get_set_ne.
    + unfold count_unknown_effects. set (row := with_outcome _ _ _ _).
      pose proof (filter_set_count (fun kr => er_status kr.2 = "unknown") aid r row tbl Hr Hu) as Hc.
      rewrite Hc, Nat2Z.inj_succ; [reflexivity|]. simpl. intros ->. unfold RECONCILE_STATUSES in Hs. set_solver.
    + exists r. split_and!; [done|done|]. intros later a. unfold resolve_effect_record, resolve_seen.
      rewrite dict_get_set_eq. unfold resolve_existing_row, HELD_LEDGER_STATUSES. simpl. rewrite Hu.
      unfold RECONCILE_STATUSES in Hs. apply elem_of_cons in Hs as [->|Hs]; [reflexivity|].
      apply list_elem_of_singleton in Hs as ->. simpl. done.
  - intros (r & -> & Hu) Hs. rewrite decide_True by done. rewrite decide_True by done. eauto.
  - done.
Qed.

Lemma reconcile_settles_unknown_witness :
  let row := with_outcome "unknown" (held_record_payload (VDict [("id", VInt 7)]) None) 10 (fresh_row 5 demo_args) in
  exists tbl', reconcile_effect_record 20 "act" "success" [("act", row)] = Ok tbl' /\
    (resolve_effect_record 30 "act" demo_args tbl').1 = Replay (VDict [("id", VInt 7)]).
Proof.
  cbv zeta. set (row := with_outcome _ _ _ _).
  destruct (reconcile_settles_unknown 20 "act" "success" [("act", row)]) as (H1 & H2 & _).
  destruct H2 as [tbl' E]; [by exists row|by left|]. exists tbl'. split; [exact E|].
  destruct (H1 tbl' E) as (_ & _ & _ & r & Hr & _ & H). injection Hr as <-. rewrite H. reflexivity.
Defined.

(** Undo is re-entrant: through any sequence of undos (of any runs, with
    any compensators, some raising) on one audit log, no effect is ever marked
    reversed twice and no compensator is invoked for an effect already marked
    reversed; every successful effect of the run is accounted for in exactly one
    list of the summary; and a report changes nothing. *)
Lemma undo_never_reverses_twice {A} (cs : list (undo_call (A:=A))) rows (app : A) :
  Forall (fun c => ids_unique (uc_ledger c)) cs -> NoDup (reversed_ids rows) ->
  (forall i st, undo_all cs rows app !! i = Some st ->
     NoDup (reversed_ids (u_rows st)) /\
     (forall j e, (match i with O => Some rows | S i' => u_rows <$> undo_all cs rows app !! i' end) = Some j ->
        e ∈ u_invoked st -> e ∉ reversed_ids j) /\
     exists c, cs !! i = Some c /\
       summary_size (u_summary st) = match uc_unit c with
                                     | Some eu => length (undo_records eu (uc_ledger c)) | None => O end) /\
  (forall c, c ∈ cs ->
     let st := undo_run_effects (uc_lookup c) (uc_run c) (uc_unit c) true (uc_ledger c) rows app in
     u_rows st = rows /\ u_app st = app /\ u_invoked st = []).
Proof.
  intros Hids Hnd. split.
  - revert rows app Hnd. induction Hids as [|c cs Hc Hids IH]; intros rows app Hnd i st; [done|]. simpl.
    destruct (undo_run_spec (uc_lookup c) (uc_run c) (uc_unit c) false (uc_ledger c) rows app Hc Hnd)
      as (H1 & H2 & H3 & _).
    fold (undo c rows app) in H1, H2, H3. destruct i as [|i]; simpl.
    + intros [= <-]. split_and!; [done| |by exists c]. intros j e [= <-]. apply H3.
    + intros Hi. destruct (IH (u_rows (undo c rows app)) (u_app (undo c rows app)) H1 i st Hi) as (G1 & G2 & G3).
      split_and!; [done| |done]. intros j e Hj. apply G2. by destruct i.
  - intros c Hc. rewrite Forall_forall in Hids.
    by apply (undo_run_spec (uc_lookup c) (uc_run c) (uc_unit c) true (uc_ledger c) rows app (Hids c Hc) Hnd).
Qed.

(** The first undo fails on one effect, reverses the other; the second retries
    only the failed one. *)
Definition demo_effects : ledger :=
  [("a", with_outcome "success" VNone 3 (Effect "e1" "t.write" "h" (Some "eu") None None "pending" VNone 1 None));
   ("b", with_outcome "success" VNone 4 (Effect "e2" "t.send" "h" (Some "eu") None None "pending" VNone 2 None))].
Definition demo_undo (ok : bool) : undo_call (A:=Z) :=
  UndoCall (fun ty => if decide (ty = "t.send") then Some (fun _ n => if ok then Some (n + 10) else None)
                      else Some (fun _ n => Some (n + 1))) "r" (Some "eu") demo_effects.

Lemma undo_never_reverses_twice_witness :
  let sts := undo_all [demo_undo false; demo_undo true; demo_undo true] [] 0 in
  map u_invoked sts = [["e2"; "e1"]; ["e2"]; []] /\ map u_app sts = [1; 11; 11] /\
  (forall i st, sts !! i = Some st -> NoDup (reversed_ids (u_rows st))).
Proof.
  cbv zeta. split; [reflexivity|]. split; [reflexivity|]. intros i st Hst.
  refine (proj1 (proj1 (undo_never_reverses_twice [demo_undo false; demo_undo true; demo_undo true] [] 0 _ _) i st Hst)).
  - repeat constructor; unfold ids_unique; simpl; set_solver.
  - constructor.
Defined.
