(* ===== verification/Dispatcher.v ===== *)
(** * The syscall dispatcher (src/AINDY/kernel/syscall_dispatcher.py, with the
      registry of kernel/syscall_registry.py)

    Every syscall goes through [dispatch]: name and version, capability, tenant
    and payload identity, quota, input schema, the effect gate, the run's own
    authority, the handler, its outcome and output schema, the ledger, usage.

    A handler is application code: a function from the payload, the context and
    the whole [world] to a new world and what it returned or raised. It may
    dispatch nested calls, and it also stands for whatever other processes do
    while it runs. [env] holds what the environment answers during one dispatch
    (clock, flags, whether the quota backend, the ledger session and the final
    commit work, the state of the advisory lock). Error texts are the facts they
    report; metrics, logs and tracing spans are not modelled. *)

From S2P Require Import Prelude PyStr PyVal RetryPolicy Syscalls ResourceManager EffectLedger.
From Stdlib Require Import Ascii.

Local Open Scope string_scope.
Local Open Scope Z_scope.
Local Open Scope list_scope.
Local Open Scope py_scope.

Record SyscallContext := Ctx {
  cx_eu : string;
  cx_user : string;
  cx_caps : list string;
  cx_trace : string;
  cx_memory : list pyval;
  cx_metadata : list (string * pyval)
}.

Definition DEFAULT_NODUS_CAPABILITIES : list string :=
  ["memory.read"; "memory.write"; "memory.search"; "event.emit"; "execution.read"].
Definition AT_MOST_ONCE : string := "AT_MOST_ONCE".
Definition GATED_GUARANTEES : list string := ["EXACTLY_ONCE"; "AT_MOST_ONCE"].
Definition VALID_EXECUTION_GUARANTEES : list string := ["AT_LEAST_ONCE"; "EXACTLY_ONCE"; "AT_MOST_ONCE"].
Definition SYSCALL_VERSION_FALLBACK : bool := false.
Definition EU_MINTED_KEY : string := "_eu_minted".

Inductive dispatch_error :=
| UnknownVersion (v : string)
| UnknownSyscall
| PermissionDenied (capability : string)
| NoTenant
| IdentityMismatch
| BadCallMetadata (what : string)
| QuotaBackendDown
| QuotaExceeded (q : quota)
| InvalidInput (errors : list schema_error)
| AtMostOnceRefused (why : string)
| RunEnded (run status : string)
| HandlerFailed (message : string)
| ResultNotADict (ty : string)
| OutcomeRefused (r : refusal)
| InvalidOutput (errors : list schema_error).

(** [en_outcome] is [None] when the envelope has no such key; [en_warning] is the
    deprecation notice (since, replacement). *)
Record envelope := Envelope {
  en_status : string;
  en_data : list (string * pyval);
  en_outcome : option (option (list (string * pyval)));
  en_trace : string;
  en_eu : string;
  en_syscall : string;
  en_version : string;
  en_error : option dispatch_error;
  en_warning : option (option string * option string);
  en_class : option string
}.

(** What [dispatch] does: return an envelope or raise SyscallContractViolation. *)
Inductive answer := Answer (e : envelope) | ContractViolation.

Inductive handler_outcome :=
| HReturned (v : pyval)
| HUnknown (detail : option string) (units : list pyval)
| HCircuitOpen (message : string)
| HRaised (message : string).

Inductive lock_state := Acquired | LockTimeout | Unsupported.

(** What the environment answers during one dispatch. *)
Record env := Env {
  e_now : Z;
  e_duration_ms : Z;
  e_quota_up : bool;
  e_quota_fail_open : bool;
  e_identity_observe : bool;
  e_idempotency : bool;
  e_strict : bool;
  e_durable : bool;
  e_syscalls_only : bool;
  e_gate_up : bool;
  e_lock : lock_state;
  e_finalize_up : bool;
  e_current_run : option string;
  e_run_ended : string -> option string;
  e_units : list unit_row;
  e_effect_run : effect_run;
  e_session : option string;
  e_fresh_id : string
}.

Section Dispatcher.
Context {A : Type}.
Variable render : pyval -> string.
Variable parse_uuid : string -> option string.
Variable cfg : config.
Variable compute_action_id : string -> list (string * pyval) -> string -> string.
Variable input_hash : list (string * pyval) -> string.
Variable json_safe : pyval -> bool.
(** The text of an error, which the failure-class table reads. *)
Variable text : dispatch_error -> string.

Record world := World {
  w_rm : rm;
  w_ledger : ledger;
  w_events : list (string * string * option string);
  w_app : A
}.

Definition with_rm (r : rm) (w : world) : world := World r (w_ledger w) (w_events w) (w_app w).
Definition with_ledger (l : ledger) (w : world) : world := World (w_rm w) l (w_events w) (w_app w).
Definition emit_syscall_event (name status : string) (aid : option string) (w : world) : world :=
  World (w_rm w) (w_ledger w) (w_events w ++ [(name, status, aid)]) (w_app w).

Record SyscallEntry := Entry {
  se_handler : list (string * pyval) -> SyscallContext -> world -> world * handler_outcome;
  se_capability : string;
  se_input : option schema;
  se_output : option schema;
  se_stable : bool;
  se_deprecated : bool;
  se_deprecated_since : option string;
  se_replacement : option string;
  se_guarantee : string
}.

(** ** The registry: a flat view and a view by version *)

Record registry := Registry {
  reg_flat : list (string * SyscallEntry);
  reg_versioned : list (string * list (string * SyscallEntry))
}.

Definition split_key (key : string) : option (string * string) :=
  if starts_with "sys." key then
    let rest := drop_str 4 key in
    match find_char "."%char rest with
    | Some i => Some (take_str i rest, drop_str (S i) rest)
    | None => None
    end
  else None.

(** The version and action when both are non-empty. *)
Definition versioned_key (key : string) : option (string * string) :=
  match split_key key with
  | Some (v, a) => if decide (v <> "" /\ a <> "") then Some (v, a) else None
  | None => None
  end.

(** [same] is identity of handlers; [None] is the ValueError. *)
Definition reg_set (same : SyscallEntry -> SyscallEntry -> bool) (key : string) (value : SyscallEntry)
    (r : registry) : option registry :=
  if match dict_get key (reg_flat r) with Some e => same e value | None => true end then
    Some (Registry (dict_set key value (reg_flat r))
            (match versioned_key key with
             | Some (v, a) => dict_set v (dict_set a value (default [] (dict_get v (reg_versioned r)))) (reg_versioned r)
             | None => reg_versioned r
             end))
  else None.

Definition reg_del (key : string) (r : registry) : registry :=
  Registry (dict_del key (reg_flat r))
    (match versioned_key key with
     | Some (v, a) =>
         match dict_get v (reg_versioned r) with
         | Some actions => match dict_del a actions with
                           | [] => dict_del v (reg_versioned r)
                           | rest => dict_set v rest (reg_versioned r)
                           end
         | None => reg_versioned r
         end
     | None => reg_versioned r
     end).

Definition versions (r : registry) : list string := py_sorted (dict_keys (reg_versioned r)).

Definition register_syscall (same : SyscallEntry -> SyscallEntry -> bool) (name : string) (e : SyscallEntry)
    (r : registry) : option registry :=
  let guarantee := str_upper (se_guarantee e) in
  if starts_with "sys." name && bool_decide (guarantee ∈ VALID_EXECUTION_GUARANTEES) then
    reg_set same name
      (Entry (se_handler e) (se_capability e) (se_input e) (se_output e) (se_stable e) (se_deprecated e)
         (se_deprecated_since e) (se_replacement e) guarantee) r
  else None.

(** ** Envelopes *)

Definition message (e : dispatch_error) : string := match e with HandlerFailed m => m | _ => text e end.

Definition classified_failure_class (e : dispatch_error) (declared : option string) : string :=
  fr_class (classify_failure render
    (match declared with
     | Some c => VDict [("error", VStr (message e)); (FAILURE_CLASS_KEY, VStr c)]
     | None => VStr (message e)
     end) "syscall" 1).

Definition error_envelope (name : string) (ctx : SyscallContext) (err : dispatch_error) (version : string)
    (declared : option string) : envelope :=
  Envelope "error" [] (Some None) (cx_trace ctx) (cx_eu ctx) name version (Some err) None
    (Some (classified_failure_class err declared)).

(** ** Before the handler *)

Definition lookup_syscall (reg : registry) (name : string)
    : result (dispatch_error * string * string) (string * string * SyscallEntry) :=
  let find name version :=
    match dict_get name (reg_flat reg) with
    | Some entry => Ok (name, version, entry)
    | None => Err (UnknownSyscall, name, version)
    end in
  match parse_syscall_name name with
  | Err _ => find name "unknown"
  | Ok (parsed, action) =>
      match resolve_version parsed (versions reg) SYSCALL_VERSION_FALLBACK with
      | None => Err (UnknownVersion parsed, name, parsed)
      | Some resolved =>
          if decide (resolved = parsed) then find name parsed
          else find ("sys." +:+ resolved +:+ "." +:+ action) resolved
      end
  end.

Definition identity_mismatch (name : string) (payload : list (string * pyval)) (ctx : SyscallContext) : bool :=
  payload_user_id_mismatch render parse_uuid (VDict payload) (VStr (cx_user ctx))
  || forwarded_user_id_mismatch render parse_uuid name (VDict payload) (VStr (cx_user ctx)).

Definition call_metadata_error (ctx : SyscallContext) : option string :=
  match py_get "_extension_call" (cx_metadata ctx) with
  | VNone => None
  | VDict x =>
      let tenant := str_strip (py_str render (py_or (py_get "tenant_user_id" x) (VStr ""))) in
      let extension := str_strip (py_str render (py_or (py_get "extension_name" x) (VStr ""))) in
      if decide (tenant = "") then Some "missing tenant_user_id"
      else if decide (extension = "") then Some "missing extension_name"
      else if decide (tenant <> cx_user ctx) then Some "tenant mismatch"
      else None
  | _ => Some "not a dict"
  end.

(** Steps 2 to 2d: what refuses the call, with the class the path declares. *)
Definition guards (e : env) (w : world) (name : string) (payload : list (string * pyval)) (ctx : SyscallContext)
    (entry : SyscallEntry) : world * option (dispatch_error * string) :=
  if decide (se_capability entry ∈ cx_caps ctx) then
    if decide (cx_user ctx = "") then (w, Some (NoTenant, "permission"))
    else if negb (e_identity_observe e) && identity_mismatch name payload ctx
    then (w, Some (IdentityMismatch, "permission"))
    else match call_metadata_error ctx with
         | Some what => (w, Some (BadCallMetadata what, "invalid"))
         | None =>
             let '(w, refused) :=
               if e_quota_up e then
                 let '(r, q) := check_quota cfg (e_now e) (cx_eu ctx) (w_rm w) in
                 (with_rm r w, match q with QuotaOk => None | _ => Some (QuotaExceeded q, "transient") end)
               else (w, if e_quota_fail_open e then None else Some (QuotaBackendDown, "transient")) in
             match refused with
             | Some r => (w, Some r)
             | None =>
                 match validate_payload (se_input entry) payload with
                 | [] => (w, None)
                 | errors => (w, Some (InvalidInput errors, "invalid"))
                 end
             end
         end
  else (w, Some (PermissionDenied (se_capability entry), "permission")).

(** ** The effect gate *)

(** The last piece after a separator, when there is one. *)
Definition after_last (c : ascii) (s : string) : string := List.last (split_char c s) s.

Definition is_uuid (s : string) : bool := bool_decide (is_Some (parse_uuid s)).

Definition gate_scope_engaged (s : string) : bool :=
  is_uuid s || (bool_decide (s <> "") && is_uuid (after_last ":"%char (after_last "_"%char s))).

Definition guarantee_of (entry : SyscallEntry) : string := str_upper (se_guarantee entry).

Definition gate_engages (e : env) (ctx : SyscallContext) (entry : SyscallEntry) (orig_eu : string) : bool :=
  (bool_decide (guarantee_of entry ∈ GATED_GUARANTEES) || e_durable e)
  && bool_decide (orig_eu <> "")
  && gate_scope_engaged (cx_eu ctx)
  && (e_idempotency e || e_durable e || bool_decide (guarantee_of entry = AT_MOST_ONCE)).

Definition claim_of (e : env) (name : string) (payload : list (string * pyval)) (ctx : SyscallContext) : claim_args :=
  ClaimArgs name (input_hash payload)
    (attributed (if decide (cx_user ctx = "") then None else Some (cx_user ctx)) None)
    (e_session e)
    (linked_execution_id parse_uuid (e_units e) (e_effect_run e) (e_current_run e) (Some (cx_eu ctx)))
    (e_fresh_id e).

Definition envelope_outcome (h : HeldOutcome) : list (string * pyval) :=
  dict_update (match h_outcome h with Some (VDict d) => d | _ => [] end)
    [("held", VBool true); ("reconcile_required", VBool (reconcile_required h))].

Definition replay_envelope (name version : string) (ctx : SyscallContext) (payload : pyval) : envelope :=
  Envelope "success" (match payload with VDict d => d | _ => [] end) None (cx_trace ctx) (cx_eu ctx) name version
    None None None.

Definition held_envelope (name version : string) (ctx : SyscallContext) (h : HeldOutcome) : envelope :=
  Envelope (h_status h) (match h_data h with VDict d => d | _ => [] end) (Some (Some (envelope_outcome h)))
    (cx_trace ctx) (cx_eu ctx) name version None None
    (if decide (h_status h = ENVELOPE_STATUS_UNKNOWN) then Some "unknown" else None).

(** Run the handler, with the action id when its slot is claimed, or answer at once. *)
Inductive gated := Proceed (aid : option string) | AnswerNow (env : envelope).

Definition effect_gate (e : env) (w : world) (name version : string) (payload : list (string * pyval))
    (ctx : SyscallContext) (entry : SyscallEntry) (orig_eu : string) : world * gated :=
  if gate_engages e ctx entry orig_eu then
    let aid := compute_action_id name payload (cx_eu ctx) in
    let at_most_once := bool_decide (guarantee_of entry = AT_MOST_ONCE) in
    let refuse why := AnswerNow (error_envelope name ctx (AtMostOnceRefused why) version (Some "transient")) in
    if e_gate_up e then
      let timed_out := (e_strict e || at_most_once) && match e_lock e with LockTimeout => true | _ => false end in
      if timed_out && at_most_once then (w, refuse "lock")
      else
        let '(g, l) := resolve_effect_record (e_now e) aid (claim_of e name payload ctx) (w_ledger w) in
        let w := with_ledger l w in
        (w, match g with
            | Degraded => if at_most_once then refuse "live" else Proceed (Some aid)
            | Claimed => Proceed (Some aid)
            | Replay p => AnswerNow (replay_envelope name version ctx p)
            | HeldReplay h => AnswerNow (held_envelope name version ctx h)
            end)
    else (w, if at_most_once then refuse "gate" else Proceed None)
  else (w, Proceed None).

(** ** After the handler *)

Definition complete (e : env) (aid : option string) (status : string) (payload : pyval) (w : world) : world :=
  match aid with
  | Some a => match complete_effect_record (e_now e) a status payload (w_ledger w) with
              | Ok l => with_ledger l w
              | Err _ => w
              end
  | None => w
  end.

Definition fail_call (e : env) (w : world) (name version : string) (ctx : SyscallContext) (aid : option string)
    (err : dispatch_error) (declared : option string) : world * answer :=
  (complete e aid "failed" VNone (emit_syscall_event name "error" aid w),
   Answer (error_envelope name ctx err version declared)).

(** A handler that returned a dict. *)
Definition finish_call (e : env) (w : world) (name version : string) (ctx : SyscallContext) (entry : SyscallEntry)
    (aid : option string) (returned : list (string * pyval)) : world * answer :=
  let '(data, o) := resolve_outcome returned in
  match ro_refusal o with
  | Some r => fail_call e w name version ctx aid (OutcomeRefused r) (Some "fatal")
  | None =>
      let out_errors := if decide (ro_status o = ENVELOPE_STATUS_UNKNOWN) then []
                        else validate_payload (se_output entry) data in
      match (if se_stable entry then out_errors else []) with
      | _ :: _ => fail_call e w name version ctx aid (InvalidOutput out_errors) (Some "fatal")
      | [] =>
          let ledger := default "failed" (ledger_status o) in
          let payload := if decide (ledger ∈ HELD_LEDGER_STATUSES)
                         then held_record_payload (VDict data) (ro_outcome o) else VDict data in
          let payload := if json_safe payload then payload else VNone in
          let w := if e_finalize_up e then complete e aid ledger payload w else w in
          let w := with_rm (record_usage (e_now e) (cx_eu ctx)
                              (if e_syscalls_only e then 0 else e_duration_ms e) 0 1 0 (w_rm w)) w in
          let w := emit_syscall_event name (ro_status o) aid w in
          (w, Answer (Envelope (ro_status o) data (Some (ro_outcome o)) (cx_trace ctx) (cx_eu ctx) name version None
                        (if se_deprecated entry then Some (se_deprecated_since entry, se_replacement entry) else None)
                        (if decide (ro_status o = ENVELOPE_STATUS_UNKNOWN) then Some "unknown" else None)))
      end
  end.

Definition after_handler (e : env) (w : world) (name version : string) (ctx : SyscallContext) (entry : SyscallEntry)
    (aid : option string) (o : handler_outcome) : world * answer :=
  match o with
  | HUnknown detail units =>
      finish_call e w name version ctx entry aid [(OUTCOME_KEY, VDict (unknown_claim units detail))]
  | HCircuitOpen m => fail_call e w name version ctx aid (HandlerFailed ("HTTP_503:" +:+ m)) (Some "transient")
  | HRaised m => fail_call e w name version ctx aid (HandlerFailed m) None
  | HReturned (VDict d) => finish_call e w name version ctx entry aid d
  | HReturned v =>
      let '(w, ans) := fail_call e w name version ctx aid (ResultNotADict (type_name v)) (Some "fatal") in
      (w, match aid with Some _ => ContractViolation | None => ans end)
  end.

(** ** One dispatch *)

Definition run_ended (e : env) : option (string * string) :=
  match e_current_run e with
  | Some run => match e_run_ended e run with Some status => Some (run, status) | None => None end
  | None => None
  end.

Definition dispatch_inner (e : env) (reg : registry) (w : world) (name : string) (payload : list (string * pyval))
    (ctx : SyscallContext) (orig_eu : string) : world * answer :=
  match lookup_syscall reg name with
  | Err (err, name, version) => (w, Answer (error_envelope name ctx err version (Some "not_found")))
  | Ok (name, version, entry) =>
      let '(w, refused) := guards e w name payload ctx entry in
      match refused with
      | Some (err, declared) => (w, Answer (error_envelope name ctx err version (Some declared)))
      | None =>
          let '(w, g) := effect_gate e w name version payload ctx entry orig_eu in
          match g with
          | AnswerNow env => (w, Answer env)
          | Proceed aid =>
              match run_ended e with
              | Some (run, status) =>
                  fail_call e w name version ctx aid (RunEnded run status)
                    (Some (if decide (status = "cancelled") then "cancelled" else "permission"))
              | None =>
                  let '(w, o) := se_handler entry payload ctx w in
                  after_handler e w name version ctx entry aid o
              end
          end
      end
  end.

(** [ambient]: the trace and unit of an enclosing dispatch; [fresh_trace] and
    [fresh_eu] the ids minted for a root call that has none. The flag says
    whether this is the root. *)
Definition resolve_trace_context (ambient : option (string * string)) (fresh_trace fresh_eu : string)
    (ctx : SyscallContext) : SyscallContext * bool :=
  let set eu trace := Ctx eu (cx_user ctx) (cx_caps ctx) trace (cx_memory ctx) (cx_metadata ctx) in
  match ambient with
  | Some (trace, eu) =>
      if decide (trace <> "") then (set (if decide (eu = "") then cx_eu ctx else eu) trace, false)
      else (set (if decide (cx_eu ctx = "") then fresh_eu else cx_eu ctx)
                (if decide (cx_trace ctx = "") then fresh_trace else cx_trace ctx), true)
  | None => (set (if decide (cx_eu ctx = "") then fresh_eu else cx_eu ctx)
                 (if decide (cx_trace ctx = "") then fresh_trace else cx_trace ctx), true)
  end.

Definition minted (ctx : SyscallContext) : bool :=
  bool_decide (cx_eu ctx = "") || py_truth (py_get EU_MINTED_KEY (cx_metadata ctx)).

Definition dispatch (e : env) (reg : registry) (ambient : option (string * string)) (fresh_trace fresh_eu : string)
    (w : world) (name : string) (payload : list (string * pyval)) (ctx : SyscallContext) : world * answer :=
  let '(ctx', root) := resolve_trace_context ambient fresh_trace fresh_eu ctx in
  let '(w, ans) := dispatch_inner e reg w name payload ctx' (cx_eu ctx) in
  (if root && minted ctx then with_rm (purge_eu (cx_eu ctx') (w_rm w)) w else w, ans).

(** ** Lemmas *)

(** Nothing around the handler touches the application state. *)
Lemma guards_app e w name payload ctx entry : w_app (guards e w name payload ctx entry).1 = w_app w.
Proof.
  unfold guards. case_decide; [|done]. case_decide; [done|]. case_bool; [done|].
  destruct (call_metadata_error ctx); [done|]. destruct (e_quota_up e).
  - destruct (check_quota _ _ _ _) as [r []]; try done. by destruct (validate_payload _ _).
  - destruct (e_quota_fail_open e); [|done]. by destruct (validate_payload _ _).
Qed.

Lemma gate_app e w name version payload ctx entry orig :
  w_app (effect_gate e w name version payload ctx entry orig).1 = w_app w.
Proof.
  unfold effect_gate. case_bool; [|done]. cbv zeta. destruct (e_gate_up e); [|done].
  case_bool; [done|]. by destruct (resolve_effect_record _ _ _ _) as [[] l].
Qed.

Lemma complete_app e aid status payload w : w_app (complete e aid status payload w) = w_app w.
Proof. unfold complete. destruct aid; [|done]. by destruct (complete_effect_record _ _ _ _ _). Qed.

Lemma fail_call_app e w name version ctx aid err declared :
  w_app (fail_call e w name version ctx aid err declared).1 = w_app w.
Proof. unfold fail_call. simpl. by rewrite complete_app. Qed.

Lemma finish_call_app e w name version ctx entry aid d :
  w_app (finish_call e w name version ctx entry aid d).1 = w_app w.
Proof.
  unfold finish_call. destruct (resolve_outcome d) as [data o]. destruct (ro_refusal o); [apply fail_call_app|].
  cbv zeta. destruct (if se_stable entry then _ else _); [|apply fail_call_app]. simpl.
  destruct (e_finalize_up e); [apply complete_app|done].
Qed.

Lemma after_handler_app e w name version ctx entry aid o :
  w_app (after_handler e w name version ctx entry aid o).1 = w_app w.
Proof.
  destruct o as [v| | |]; simpl; try apply finish_call_app; try (unfold fail_call; simpl; by rewrite complete_app).
  destruct v; simpl; try apply finish_call_app; unfold fail_call; simpl; by rewrite complete_app.
Qed.

(** A dispatch either answers without the handler or runs it once. *)
Definition handled (e : env) (reg : registry) (w : world) (name : string) (payload : list (string * pyval))
    (ctx : SyscallContext) (orig : string) (w' : world) (ans : answer)
    (nm version : string) (entry : SyscallEntry) (w0 w1 : world) (aid : option string) : Prop :=
  lookup_syscall reg name = Ok (nm, version, entry) /\
  guards e w nm payload ctx entry = (w0, None) /\
  effect_gate e w0 nm version payload ctx entry orig = (w1, Proceed aid) /\
  run_ended e = None /\
  after_handler e (se_handler entry payload ctx w1).1 nm version ctx entry aid (se_handler entry payload ctx w1).2
    = (w', ans).

Lemma dispatch_cases e reg w name payload ctx orig w' ans :
  dispatch_inner e reg w name payload ctx orig = (w', ans) ->
  (w_app w' = w_app w /\
   exists env, ans = Answer env /\
     (en_status env = "error" \/
      exists nm version entry w0 w1,
        lookup_syscall reg name = Ok (nm, version, entry) /\ guards e w nm payload ctx entry = (w0, None) /\
        effect_gate e w0 nm version payload ctx entry orig = (w1, AnswerNow env))) \/
  exists nm version entry w0 w1 aid, handled e reg w name payload ctx orig w' ans nm version entry w0 w1 aid.
Proof.
  unfold dispatch_inner, handled. destruct (lookup_syscall reg name) as [[[nm ver] entry]|[[err nm] ver]] eqn:Hl.
  2: { intros [= <- <-]. left. split; [done|]. eexists. split; [done|by left]. }
  pose proof (guards_app e w nm payload ctx entry) as Hg.
  destruct (guards e w nm payload ctx entry) as [w0 [[err d]|]] eqn:Eg; simpl in Hg.
  { intros [= <- <-]. left. split; [done|]. eexists. split; [done|by left]. }
  pose proof (gate_app e w0 nm ver payload ctx entry orig) as Ha.
  destruct (effect_gate e w0 nm ver payload ctx entry orig) as [w1 [aid|env]] eqn:Ee; simpl in Ha.
  2: { intros [= <- <-]. left. split; [congruence|]. eexists. split; [done|]. right. by exists nm, ver, entry, w0, w1. }
  destruct (run_ended e) as [[run st]|] eqn:Er.
  { intros H. left. assert (w_app w' = w_app w1) as E.
    { rewrite <- (fail_call_app e w1 nm ver ctx aid (RunEnded run st)
        (Some (if decide (st = "cancelled") then "cancelled" else "permission"))). by rewrite H. }
    split; [congruence|]. unfold fail_call in H. injection H as <- <-. eexists. split; [done|by left]. }
  destruct (se_handler entry payload ctx w1) as [w2 o] eqn:Eh. intros H. right.
  exists nm, ver, entry, w0, w1, aid. rewrite Eh. done.
Qed.

Lemma guards_pass e w name payload ctx entry w0 :
  guards e w name payload ctx entry = (w0, None) ->
  se_capability entry ∈ cx_caps ctx /\ cx_user ctx <> "" /\
  (identity_mismatch name payload ctx = false \/ e_identity_observe e = true) /\
  call_metadata_error ctx = None /\
  ((e_quota_up e = true /\ (check_quota cfg (e_now e) (cx_eu ctx) (w_rm w)).2 = QuotaOk) \/
   (e_quota_up e = false /\ e_quota_fail_open e = true)) /\
  validate_payload (se_input entry) payload = [] /\ w_ledger w0 = w_ledger w.
Proof.
  unfold guards. case_decide as Hc; [|done]. case_decide as Hu; [done|]. destruct (_ && _) eqn:Hi; [done|].
  assert (Hid : identity_mismatch name payload ctx = false \/ e_identity_observe e = true).
  { destruct (e_identity_observe e); [by right|]. by left. }
  destruct (call_metadata_error ctx) eqn:Hm; [done|]. destruct (e_quota_up e).
  - destruct (check_quota _ _ _ _) as [r []] eqn:Hq; try done.
    destruct (validate_payload (se_input entry) payload) eqn:Hv; [|done]. intros [= <-].
    split_and!; try done. by left.
  - destruct (e_quota_fail_open e) eqn:Ho; [|done].
    destruct (validate_payload (se_input entry) payload) eqn:Hv; [|done]. intros [= <-].
    split_and!; try done. by right.
Qed.

(** When the gate is engaged and working, the handler proceeds only with the
    action's id, and what the slot allows decides the rest. *)
Lemma gate_proceeds e w name version payload ctx entry orig w1 aid :
  effect_gate e w name version payload ctx entry orig = (w1, Proceed aid) ->
  gate_engages e ctx entry orig = true -> guarantee_of entry = AT_MOST_ONCE \/ e_gate_up e = true ->
  let a := compute_action_id name payload (cx_eu ctx) in
  aid = Some a /\ e_gate_up e = true /\ is_Some (dict_get a (w_ledger w1)) /\
  (guarantee_of entry = AT_MOST_ONCE ->
     e_lock e <> LockTimeout /\
     resolve_effect_record (e_now e) a (claim_of e name payload ctx) (w_ledger w) = (Claimed, w_ledger w1)).
Proof.
  unfold effect_gate. intros H Hg Hor. rewrite Hg in H. cbv zeta in *.
  destruct (e_gate_up e) eqn:Hup.
  2: { destruct Hor as [Ha|]; [|done]. by rewrite (bool_decide_true _ Ha) in H. }
  pose proof (resolve_by_slot (e_now e) (compute_action_id name payload (cx_eu ctx)) (claim_of e name payload ctx)
    (w_ledger w)) as Hs.
  destruct ((e_strict e || _) && _ && _) eqn:Ht; [done|].
  destruct (resolve_effect_record _ _ _ _) as [g l] eqn:Er.
  destruct g; try done.
  - injection H as <- <-. simpl. split_and!; [done|done| |].
    + destruct (resolve_claims _ _ _ _ _ Er) as (r & -> & _). eauto.
    + intros Ha. rewrite (bool_decide_true _ Ha), orb_true_r in Ht. by destruct (e_lock e).
  - destruct (bool_decide (guarantee_of entry = AT_MOST_ONCE)) eqn:Ha; [done|]. injection H as <- <-.
    destruct Hs as [-> Hs]. split_and!; [done|done| |by boolprop].
    simpl. destruct (dict_get _ (w_ledger w)); [by eauto|done].
Qed.

(** What completing writes. *)
Lemma complete_row e a status payload w r :
  dict_get a (w_ledger w) = Some r -> status ∈ TERMINAL_EFFECT_STATUSES ->
  dict_get a (w_ledger (complete e (Some a) status payload w))
  = Some (with_outcome status (dict_or_none payload) (e_now e) r).
Proof.
  intros Hr Hs. unfold complete. rewrite (complete_slot _ _ _ _ _ r) by done. apply dict_get_set_eq.
Qed.

Lemma resolve_recorded now aid a l r status payload t :
  dict_get aid l = Some (with_outcome status payload t r) ->
  (status = "success" -> resolve_effect_record now aid a l = (Replay payload, l)) /\
  (status ∈ HELD_LEDGER_STATUSES ->
     resolve_effect_record now aid a l = (HeldReplay (held_outcome_from_record status payload), l)).
Proof.
  intros H. unfold resolve_effect_record, resolve_seen. rewrite H. unfold resolve_existing_row. simpl. split.
  - by intros ->.
  - intros Hs. rewrite decide_False by (unfold HELD_LEDGER_STATUSES in Hs; set_solver). by rewrite decide_True.
Qed.

Lemma resolve_outcome_statuses d :
  let o := (resolve_outcome d).2 in
  ro_status o = "success" \/ ro_status o = "partial" \/ ro_status o = "unknown" \/
  (ro_status o = "error" /\ is_Some (ro_refusal o)).
Proof.
  unfold resolve_outcome. destruct (dict_get OUTCOME_KEY d) as [claim|]; [|by left]. cbv zeta.
  destruct claim as [| | | | | |c]; try (do 3 right; simpl; by eauto).
  destruct (py_get "status" c) as [| | | |st| |]; try (do 3 right; simpl; by eauto).
  case_decide as Hst; [|do 3 right; simpl; by eauto].
  destruct (py_get "units" c) as [| | | | |l|]; try (do 3 right; simpl; by eauto);
    (case_bool; [do 3 right; simpl; by eauto|]); destruct (py_get "detail" c); try (do 3 right; simpl; by eauto);
    simpl; unfold CLAIMABLE_STATUSES in Hst; set_solver.
Qed.

(** The ledger answers the action with the envelope's status and data. *)
Definition dict_of (v : pyval) : list (string * pyval) := match v with VDict d => d | _ => [] end.

Definition recorded (l : ledger) (a : string) (env : envelope) : Prop :=
  forall now args, exists g, resolve_effect_record now a args l = (g, l) /\
    match g with
    | Replay p => en_status env = "success" /\ dict_of p = en_data env
    | HeldReplay h => h_status h = en_status env /\ dict_of (h_data h) = en_data env
    | _ => False
    end.

(** Only the action's own row matters. *)
Lemma recorded_row l l' a env : dict_get a l = dict_get a l' -> recorded l a env -> recorded l' a env.
Proof.
  intros He Hr now args. destruct (Hr now args) as (g & H & Hm).
  unfold resolve_effect_record, resolve_seen in *. rewrite <- He.
  destruct (dict_get a l) as [row|] eqn:Hg; [|injection H as <- _; done].
  exists g. unfold resolve_existing_row in *.
  destruct (decide (er_status row = "success")); [by injection H as <-|].
  destruct (decide (er_status row ∈ HELD_LEDGER_STATUSES)); [by injection H as <-|].
  destruct (bool_decide (er_status row = "pending") && _); [by injection H as <-|].
  injection H as <- _. done.
Qed.

Definition storable (env : envelope) : Prop :=
  json_safe (VDict (en_data env)) = true /\
  forall o, json_safe (held_record_payload (VDict (en_data env)) o) = true.

Lemma finish_recorded e w name version ctx entry a d w' env r :
  finish_call e w name version ctx entry (Some a) d = (w', Answer env) ->
  en_status env <> "error" -> dict_get a (w_ledger w) = Some r -> e_finalize_up e = true -> storable env ->
  recorded (w_ledger w') a env.
Proof.
  unfold finish_call. intros H Hs Hr Hf Hst. pose proof (resolve_outcome_statuses d) as Hro.
  destruct (resolve_outcome d) as [data o]. destruct (ro_refusal o) as [rf|].
  { injection H as <- <-. by simpl in Hs. }
  cbv zeta in H. destruct (if se_stable entry then _ else _).
  2: { injection H as <- <-. by simpl in Hs. }
  rewrite Hf in H. injection H as <- <-. destruct Hst as [Hj1 Hj2]. cbn [en_data en_status snd] in *.
  assert (Hst : ro_status o ∈ ["success"; "partial"; "unknown"]) by set_solver.
  assert (HL : default "failed" (ledger_status o) = ro_status o).
  { clear - Hst. unfold ledger_status. repeat (apply elem_of_cons in Hst as [->|Hst]; [done|]). by apply not_elem_of_nil in Hst. }
  rewrite HL. set (p0 := if decide (ro_status o ∈ HELD_LEDGER_STATUSES) then _ else _).
  assert (Hj : json_safe p0 = true) by (unfold p0; case_decide; auto). rewrite Hj.
  cbn [w_ledger with_rm emit_syscall_event].
  assert (Hrow := complete_row e a (ro_status o) p0 w r Hr ltac:(unfold TERMINAL_EFFECT_STATUSES; set_solver)).
  assert (Hd : dict_or_none p0 = p0) by (unfold p0; by case_decide). rewrite Hd in Hrow.
  intros now args. destruct (resolve_recorded now a args _ _ _ _ _ Hrow) as [R1 R2]. unfold p0 in *.
  destruct (decide (ro_status o ∈ HELD_LEDGER_STATUSES)) as [Hh|Hh].
  - eexists. split; [by apply R2|]. done.
  - assert (Hsu : ro_status o = "success") by (unfold HELD_LEDGER_STATUSES in Hh; set_solver).
    eexists. split; [by apply R1|]. done.
Qed.

Lemma gate_answer_recorded e w name version payload ctx entry orig w1 env :
  effect_gate e w name version payload ctx entry orig = (w1, AnswerNow env) -> en_status env <> "error" ->
  recorded (w_ledger w1) (compute_action_id name payload (cx_eu ctx)) env.
Proof.
  unfold effect_gate. case_bool; [|done]. cbv zeta. destruct (e_gate_up e).
  2: { case_bool; [|done]. intros [= <- <-]. by simpl. }
  case_bool. { intros [= <- <-]. by simpl. }
  set (a := compute_action_id name payload (cx_eu ctx)).
  unfold resolve_effect_record at 1, resolve_seen. destruct (dict_get a (w_ledger w)) as [row|] eqn:Hr; [|done].
  unfold resolve_existing_row at 1. destruct (decide (er_status row = "success")) as [H1|H1].
  { cbv beta iota. intros [= <- <-] _. intros now args. exists (Replay (er_result row)). simpl. split; [|done].
    unfold resolve_effect_record, resolve_seen. rewrite Hr. unfold resolve_existing_row. by rewrite H1. }
  destruct (decide (er_status row ∈ HELD_LEDGER_STATUSES)) as [H2|H2].
  { cbv beta iota. intros [= <- <-] _. intros now args. exists (HeldReplay (held_outcome_from_record (er_status row) (er_result row))).
    simpl. split; [|done].
    unfold resolve_effect_record, resolve_seen. rewrite Hr. unfold resolve_existing_row.
    by rewrite decide_False, decide_True. }
  destruct (bool_decide (er_status row = "pending") && _); [|done].
  destruct (bool_decide (guarantee_of entry = AT_MOST_ONCE)); [|done]. intros [= <- <-]. by simpl.
Qed.

Lemma recorded_gate e w name version payload ctx entry orig env :
  recorded (w_ledger w) (compute_action_id name payload (cx_eu ctx)) env ->
  gate_engages e ctx entry orig = true -> e_gate_up e = true -> e_lock e <> LockTimeout ->
  exists env', effect_gate e w name version payload ctx entry orig = (with_ledger (w_ledger w) w, AnswerNow env') /\
    en_status env' = en_status env /\ en_data env' = en_data env.
Proof.
  intros Hrec Hg Hup Hl. unfold effect_gate. rewrite Hg, Hup. cbv zeta.
  destruct (_ && bool_decide _) eqn:Ht. { boolprop. by destruct (e_lock e). }
  destruct (Hrec (e_now e) (claim_of e name payload ctx)) as (g & -> & Hm). destruct g; try done.
  - eexists. split; [reflexivity|]. simpl. destruct Hm. by split.
  - eexists. split; [reflexivity|]. simpl. destruct Hm. by split.
Qed.

Lemma resolve_trace_keeps ambient ft fe ctx :
  let c := (resolve_trace_context ambient ft fe ctx).1 in
  cx_user c = cx_user ctx /\ cx_caps c = cx_caps ctx /\ cx_metadata c = cx_metadata ctx.
Proof. unfold resolve_trace_context. destruct ambient as [[t u]|]; [case_decide|]; done. Qed.

Lemma dispatch_app e reg ambient ft fe w name payload ctx :
  let c := (resolve_trace_context ambient ft fe ctx).1 in
  let r := dispatch e reg ambient ft fe w name payload ctx in
  let r' := dispatch_inner e reg w name payload c (cx_eu ctx) in
  w_app r.1 = w_app r'.1 /\ w_ledger r.1 = w_ledger r'.1 /\ r.2 = r'.2.
Proof.
  unfold dispatch. destruct (resolve_trace_context _ _ _ _) as [c root]. cbv zeta.
  destruct (dispatch_inner _ _ _ _ _ _ _) as [w' ans]. by destruct (root && minted ctx).
Qed.

(** ** Claims *)

(** C15: no handler without authority: a dispatch either leaves the application
    state alone and answers with an envelope, or runs exactly one handler, once:
    the one registered under the name it resolved, for a context that holds its
    capability and names a user, with a payload that names no other user (unless
    the identity check is set to observe), consistent extension metadata, quota
    left (or the quota backend down where that is allowed), a payload that
    satisfies the input schema, and a run that has not ended. *)
Theorem handler_needs_authority e reg ambient ft fe w name payload ctx :
  let ctx' := (resolve_trace_context ambient ft fe ctx).1 in
  let '(w', ans) := dispatch e reg ambient ft fe w name payload ctx in
  (w_app w' = w_app w /\ exists env, ans = Answer env) \/
  exists nm version entry w1,
    lookup_syscall reg name = Ok (nm, version, entry) /\
    se_capability entry ∈ cx_caps ctx /\ cx_user ctx <> "" /\
    (identity_mismatch nm payload ctx' = false \/ e_identity_observe e = true) /\
    call_metadata_error ctx' = None /\
    ((check_quota cfg (e_now e) (cx_eu ctx') (w_rm w)).2 = QuotaOk \/
     (e_quota_up e = false /\ e_quota_fail_open e = true)) /\
    validate_payload (se_input entry) payload = [] /\
    run_ended e = None /\
    w_app w1 = w_app w /\ w_app w' = w_app (se_handler entry payload ctx' w1).1.
Proof.
  cbv zeta. pose proof (dispatch_app e reg ambient ft fe w name payload ctx) as Hd. cbv zeta in Hd.
  pose proof (resolve_trace_keeps ambient ft fe ctx) as (Hu & Hc & _).
  set (ctx' := (resolve_trace_context ambient ft fe ctx).1) in *.
  destruct (dispatch e reg ambient ft fe w name payload ctx) as [w' ans].
  destruct (dispatch_inner e reg w name payload ctx' (cx_eu ctx)) as [wi ai] eqn:Ei.
  simpl in Hd. destruct Hd as (-> & _ & ->).
  destruct (dispatch_cases _ _ _ _ _ _ _ _ _ Ei) as [[Ha [env [-> _]]]|Hh]; [left; eauto|].
  right. destruct Hh as (nm & ver & entry & w0 & w1 & aid & Hl & Hg & Hgt & Hr & Hah).
  destruct (guards_pass _ _ _ _ _ _ _ Hg) as (G1 & G2 & G3 & G4 & G5 & G6 & _).
  exists nm, ver, entry, w1. rewrite <- Hc, <- Hu. split_and!; try done.
  - destruct G5 as [[_ ?]|?]; [by left|by right].
  - pose proof (guards_app e w nm payload ctx' entry) as H1. rewrite Hg in H1.
    pose proof (gate_app e w0 nm ver payload ctx' entry (cx_eu ctx)) as H2. rewrite Hgt in H2. simpl in *. congruence.
  - rewrite <- (after_handler_app e (se_handler entry payload ctx' w1).1 nm ver ctx' entry aid
      (se_handler entry payload ctx' w1).2). by rewrite Hah.
Qed.

(** An [AT_MOST_ONCE] call that carries a gated scope never degrades: it
    runs its handler only with the ledger up, the lock not timed out, and the
    slot of its action claimed by this very call (never landed before, and not
    live within 900 seconds), the row pending and dated now while the handler
    runs; in every other case the application state is untouched and an envelope
    is returned. *)
Lemma at_most_once_never_degrades e reg w name payload ctx orig nm version entry :
  lookup_syscall reg name = Ok (nm, version, entry) -> guarantee_of entry = AT_MOST_ONCE ->
  orig <> "" -> gate_scope_engaged (cx_eu ctx) = true ->
  let a := compute_action_id nm payload (cx_eu ctx) in
  let '(w', ans) := dispatch_inner e reg w name payload ctx orig in
  (w_app w' = w_app w /\ exists env, ans = Answer env) \/
  (e_gate_up e = true /\ e_lock e <> LockTimeout /\
   match slot_of (dict_get a (w_ledger w)) with
   | Free => True
   | Live t => t < e_now e - STALE_PENDING_THRESHOLD_SECONDS
   | Landed => False
   end /\
   exists w1 r, dict_get a (w_ledger w1) = Some r /\ er_status r = "pending" /\ er_created r = e_now e /\
     w_app w1 = w_app w /\ w_app w' = w_app (se_handler entry payload ctx w1).1).
Proof.
  intros Hl Hamo Ho Hsc. cbv zeta. destruct (dispatch_inner e reg w name payload ctx orig) as [w' ans] eqn:Ei.
  destruct (dispatch_cases _ _ _ _ _ _ _ _ _ Ei) as [[Ha [env [-> _]]]|Hh]; [left; eauto|].
  right. destruct Hh as (nm' & ver' & entry' & w0 & w1 & aid & Hl' & Hg & Hgt & Hr & Hah).
  rewrite Hl in Hl'. injection Hl' as <- <- <-.
  assert (Heng : gate_engages e ctx entry orig = true).
  { unfold gate_engages. rewrite Hamo, Hsc. rewrite (bool_decide_true (orig <> "")) by done.
    rewrite (bool_decide_true (AT_MOST_ONCE ∈ _)) by (unfold GATED_GUARANTEES, AT_MOST_ONCE; set_solver).
    by rewrite (bool_decide_true (AT_MOST_ONCE = _)), !orb_true_r. }
  destruct (gate_proceeds _ _ _ _ _ _ _ _ _ _ Hgt Heng ltac:(by left)) as (-> & Hup & _ & Hcl).
  destruct (Hcl Hamo) as [Hlk Hres]. destruct (guards_pass _ _ _ _ _ _ _ Hg) as (_ & _ & _ & _ & _ & _ & Hled).
  split_and!; [done|done| |].
  - pose proof (resolve_by_slot (e_now e) (compute_action_id nm payload (cx_eu ctx)) (claim_of e nm payload ctx)
      (w_ledger w0)) as Hs. rewrite Hres, Hled in Hs. done.
  - destruct (resolve_claims _ _ _ _ _ Hres) as (r & H1 & H2 & H3). exists w1, r. split_and!; [done..| |].
    + pose proof (guards_app e w nm payload ctx entry) as G1. rewrite Hg in G1.
      pose proof (gate_app e w0 nm version payload ctx entry orig) as G2. rewrite Hgt in G2. simpl in *. congruence.
    + rewrite <- (after_handler_app e (se_handler entry payload ctx w1).1 nm version ctx entry
        (Some (compute_action_id nm payload (cx_eu ctx))) (se_handler entry payload ctx w1).2). by rewrite Hah.
Qed.

(** C18: a repeated call replays: when a gated dispatch ends in success, partial
    or unknown and its result was stored (the final commit worked and the result
    is JSON), then a later dispatch of the same call in the same scope, at any
    time and under any flags that engage the gate, answers with the same status
    and the same data without touching the application, provided nothing else
    wrote the action's row in between. *)
Theorem repeated_call_replays e1 e2 reg w1 w1' w2 w2g name payload ctx orig env1 nm version entry :
  lookup_syscall reg name = Ok (nm, version, entry) ->
  let a := compute_action_id nm payload (cx_eu ctx) in
  (forall w, dict_get a (w_ledger (se_handler entry payload ctx w).1) = dict_get a (w_ledger w)) ->
  gate_engages e1 ctx entry orig = true -> e_gate_up e1 = true -> e_finalize_up e1 = true ->
  dispatch_inner e1 reg w1 name payload ctx orig = (w1', Answer env1) ->
  en_status env1 <> "error" -> storable env1 ->
  dict_get a (w_ledger w2) = dict_get a (w_ledger w1') ->
  gate_engages e2 ctx entry orig = true -> e_gate_up e2 = true -> e_lock e2 <> LockTimeout ->
  guards e2 w2 nm payload ctx entry = (w2g, None) ->
  exists w2' env2, dispatch_inner e2 reg w2 name payload ctx orig = (w2', Answer env2) /\
    w_app w2' = w_app w2 /\ en_status env2 = en_status env1 /\ en_data env2 = en_data env1.
Proof.
  intros Hl a Hkeep He1 Hup1 Hfin Hd Hok Hst Hrow He2 Hup2 Hlk Hg2.
  assert (Hrec : recorded (w_ledger w1') a env1).
  { destruct (dispatch_cases _ _ _ _ _ _ _ _ _ Hd) as [[_ (env & [= <-] & [Herr|Hans])]|Hh]; [done| |].
    - destruct Hans as (nm' & ver' & entry' & w0 & wa & Hl' & Hg & Hgt). rewrite Hl in Hl'. injection Hl' as <- <- <-.
      unfold dispatch_inner in Hd. rewrite Hl, Hg, Hgt in Hd. injection Hd as ->. exact (gate_answer_recorded _ _ _ _ _ _ _ _ _ _ Hgt Hok).
    - destruct Hh as (nm' & ver' & entry' & w0 & wa & aid & Hl' & Hg & Hgt & Hr & Hah).
      rewrite Hl in Hl'. injection Hl' as <- <- <-.
      destruct (gate_proceeds _ _ _ _ _ _ _ _ _ _ Hgt He1 ltac:(by right)) as (-> & _ & [r Hrw] & _).
      fold a in Hrw, Hah. rewrite <- (Hkeep wa) in Hrw.
      destruct (se_handler entry payload ctx wa) as [wh o]. simpl in *.
      destruct o as [v|d u|m|m]; simpl in Hah.
      + destruct v; simpl in Hah; try done. exact (finish_recorded _ _ _ _ _ _ _ _ _ _ _ Hah Hok Hrw Hfin Hst).
      + exact (finish_recorded _ _ _ _ _ _ _ _ _ _ _ Hah Hok Hrw Hfin Hst).
      + injection Hah as _ <-. by simpl in Hok.
      + injection Hah as _ <-. by simpl in Hok. }
  destruct (guards_pass _ _ _ _ _ _ _ Hg2) as (_ & _ & _ & _ & _ & _ & Hled).
  destruct (recorded_gate e2 w2g nm version payload ctx entry orig env1) as (env2 & Hgt & H1 & H2);
    [|done|done|done|].
  { fold a. rewrite Hled. exact (recorded_row _ _ _ _ (eq_sym Hrow) Hrec). }
  pose proof (guards_app e2 w2 nm payload ctx entry) as Happ. rewrite Hg2 in Happ.
  eexists _, env2. unfold dispatch_inner. rewrite Hl, Hg2, Hgt. split_and!; [reflexivity| |done|done]. done.
Qed.
End Dispatcher.

(** ** Building contexts *)

Definition READ_VERBS : list string := ["get"; "list"; "count"; "read"; "query"; "fetch"].
Definition WRITE_VERBS : list string :=
  ["create"; "update"; "delete"; "ensure"; "init"; "write"; "store"; "observe"].

Definition has_verb (verbs : list string) (verb : string) : bool :=
  existsb (fun v => bool_decide (verb = v) || starts_with (v +:+ "_") verb) verbs.

Definition infer_dispatch_capability (name : string) : string :=
  match parse_syscall_name name with
  | Err _ => "event.emit"
  | Ok (_, action) =>
      let parts := split_char "."%char action in
      let domain := List.hd "" parts in
      let verb := List.last parts "" in
      if has_verb READ_VERBS verb then domain +:+ ".read"
      else if has_verb WRITE_VERBS verb then domain +:+ ".write"
      else action
  end.

Definition make_syscall_ctx_from_tool (fresh user run_id : string) (caps : option (list string)) (trace : string)
    (metadata : list (string * pyval)) : SyscallContext :=
  let eu := if decide (run_id = "") then fresh else run_id in
  Ctx eu user (default DEFAULT_NODUS_CAPABILITIES caps) (if decide (trace = "") then eu else trace) []
    (if decide (run_id = "") then dict_set EU_MINTED_KEY (VBool true) metadata else metadata).

Definition make_syscall_ctx_from_flow (render : pyval -> string) (context : list (string * pyval))
    (caps : option (list string)) : SyscallContext :=
  let get k := py_get k context in
  Ctx (py_str render (py_or (get "run_id") (VStr ""))) (py_str render (py_or (get "user_id") (VStr "")))
    (default DEFAULT_NODUS_CAPABILITIES caps)
    (py_str render (py_or (py_or (get "trace_id") (get "run_id")) (VStr ""))) []
    [("workflow_type", get "workflow_type"); ("flow_name", get "flow_name"); ("node_name", get "node_name")].

(** [clamp]: AINDY_CHILD_CONTEXT_CLAMP is not switched off. *)
Definition child_context (clamp : bool) (parent : SyscallContext) (caps : option (list string))
    (metadata : option (list (string * pyval))) : SyscallContext :=
  let requested := default (cx_caps parent) caps in
  Ctx (cx_eu parent) (cx_user parent)
    (if clamp then base.filter (fun c => c ∈ cx_caps parent) requested else requested)
    (cx_trace parent) (cx_memory parent) (default (cx_metadata parent) metadata).

(** A context reached from [root] by clamped child contexts. *)
Inductive descends (root : SyscallContext) : SyscallContext -> Prop :=
| descends_root : descends root root
| descends_child c caps md : descends root c -> descends root (child_context true c caps md).

(** Delegation only narrows: whatever its descendants ask for, they hold
    capabilities of the root only, act for its user and charge its unit. *)
Lemma delegation_narrows root c :
  descends root c ->
  cx_caps c ⊆ cx_caps root /\ cx_user c = cx_user root /\ cx_eu c = cx_eu root /\ cx_trace c = cx_trace root.
Proof.
  induction 1 as [|c caps md H (IH & Hu & He & Ht)]; [done|]. simpl. split_and!; [|done..].
  intros x Hx. apply list_elem_of_filter in Hx as [Hx _]. by apply IH.
Qed.

(** A root dispatch purges the unit it minted, whatever it answered. *)
Lemma minted_unit_reaped {A} render parse_uuid cfg compute input_hash json text e reg ft fe (w : world (A:=A)) name
    payload ctx :
  minted ctx = true ->
  let c := (resolve_trace_context None ft fe ctx).1 in
  dict_wf (usage (w_rm (dispatch_inner render parse_uuid cfg compute input_hash json text e reg w name payload c (cx_eu ctx)).1)) ->
  dict_get (cx_eu c) (usage (w_rm
    (dispatch render parse_uuid cfg compute input_hash json text e reg None ft fe w name payload ctx).1)) = None.
Proof.
  intros Hm. cbv zeta. unfold dispatch. destruct (resolve_trace_context None ft fe ctx) as [c root] eqn:Hr.
  assert (root = true) as -> by (unfold resolve_trace_context in Hr; by injection Hr).
  simpl. destruct (dispatch_inner _ _ _ _ _ _ _ _ _ _ _ _ _ _) as [w' ans]. simpl. intros Hwf. rewrite Hm. simpl.
  unfold purge_eu, drop_units. destruct (backend_up _); simpl; apply dict_get_del_eq; done.
Qed.

(** ** A concrete dispatcher: a counter *)

Definition count_handler (p : list (string * pyval)) (c : SyscallContext) (w : world (A:=Z)) : world * handler_outcome :=
  (World (w_rm w) (w_ledger w) (w_events w) (w_app w + 1), HReturned (VDict [("n", VInt (w_app w + 1))])).
Definition count_entry (guarantee : string) : SyscallEntry (A:=Z) :=
  Entry count_handler "count.write" None None true false None None guarantee.
Definition count_registry (guarantee : string) : registry (A:=Z) :=
  Registry [("sys.v1.count.add", count_entry guarantee)] [("v1", [("count.add", count_entry guarantee)])].
Definition demo_env (now : Z) : env :=
  Env now 5 true false false true false false false true Acquired true None (fun _ => None) [] NoRun None "row".
Definition demo_uuid (s : string) : option string := if decide (s = "u-1") then Some s else None.
Definition demo_ctx (eu : string) : SyscallContext := Ctx eu "alice" ["count.write"] "t" [] [].
Definition demo_start : world (A:=Z) := World empty_rm [] [] 0.
Notation demo_dispatch guarantee now eu w :=
  (dispatch_inner (A:=Z) (fun _ => ""%string) demo_uuid default_config (fun n _ s => n +:+ s) (fun _ => ""%string)
     (fun _ => true) (fun _ => ""%string) (demo_env now) (count_registry guarantee) w "sys.v1.count.add" [] (demo_ctx eu) eu).

Lemma at_most_once_never_degrades_witness :
  let '(w1, _) := demo_dispatch "AT_MOST_ONCE" 0 "run_u-1" demo_start in
  let '(w2, a2) := demo_dispatch "AT_MOST_ONCE" 1 "run_u-1" w1 in
  w_app w1 = 1 /\ w_app w2 = w_app w1.
Proof.
  pose proof (at_most_once_never_degrades (A:=Z) (fun _ => ""%string) demo_uuid default_config (fun n _ s => n +:+ s)
    (fun _ => ""%string) (fun _ => true) (fun _ => ""%string) (demo_env 1) (count_registry "AT_MOST_ONCE")
    (demo_dispatch "AT_MOST_ONCE" 0 "run_u-1" demo_start).1 "sys.v1.count.add" [] (demo_ctx "run_u-1") "run_u-1"
    "sys.v1.count.add" "v1" (count_entry "AT_MOST_ONCE") eq_refl eq_refl ltac:(discriminate) eq_refl) as H.
  cbv zeta in H. destruct (demo_dispatch "AT_MOST_ONCE" 0 "run_u-1" demo_start) as [w1 a1] eqn:E1.
  simpl in H. destruct (demo_dispatch "AT_MOST_ONCE" 1 "run_u-1" w1) as [w2 a2] eqn:E2.
  vm_compute in E1. injection E1 as <- _. split; [reflexivity|].
  destruct H as [[H _]|(_ & _ & H & _)]; [exact H|vm_compute in H; contradiction].
Defined.

Lemma repeated_call_replays_witness :
  let '(w1, _) := demo_dispatch "EXACTLY_ONCE" 0 "run_u-1" demo_start in
  exists w2 env2, demo_dispatch "EXACTLY_ONCE" 2000 "run_u-1" w1 = (w2, Answer env2) /\
    w_app w2 = 1 /\ en_status env2 = "success" /\ en_data env2 = [("n", VInt 1)].
Proof.
  destruct (demo_dispatch "EXACTLY_ONCE" 0 "run_u-1" demo_start) as [w1 a1] eqn:E1.
  assert (E1' := E1). vm_compute in E1'. injection E1' as Hw Ha. subst w1 a1.
  match type of E1 with _ = (?w, Answer ?env) => set (w1 := w) in *; set (env1 := env) in * end.
  destruct (repeated_call_replays (A:=Z) (fun _ => ""%string) demo_uuid default_config (fun n _ s => n +:+ s)
    (fun _ => ""%string) (fun _ => true) (fun _ => ""%string) (demo_env 0) (demo_env 2000) (count_registry "EXACTLY_ONCE")
    demo_start w1 w1 (with_rm (sweep 2000 (w_rm w1)) w1) "sys.v1.count.add" [] (demo_ctx "run_u-1") "run_u-1" env1 "sys.v1.count.add" "v1"
    (count_entry "EXACTLY_ONCE") eq_refl (fun _ => eq_refl) eq_refl eq_refl eq_refl E1 ltac:(discriminate)
    ltac:(split; [|intros ?]; reflexivity) eq_refl eq_refl eq_refl ltac:(discriminate) ltac:(vm_compute; reflexivity))
    as (w2 & env2 & H1 & H2 & H3 & H4).
  exists w2, env2. split; [exact H1|]. split; [exact H2|]. split; [exact H3|exact H4].
Defined.

(** The guarantee needs a scope that ends in a UUID: with the unit id of the
    module's own usage example the gate is not engaged and the handler of an
    [AT_MOST_ONCE] syscall runs for each of two identical calls. *)
Example at_most_once_ungated_scope :
  let w1 := (demo_dispatch "AT_MOST_ONCE" 0 "run-123" demo_start).1 in
  w_app (demo_dispatch "AT_MOST_ONCE" 1 "run-123" w1).1 = 2.
Proof. vm_compute. reflexivity. Qed.

(** The envelope of a replayed success has no outcome key. *)
Example replay_drops_outcome_key :
  let w1 := (demo_dispatch "EXACTLY_ONCE" 0 "run_u-1" demo_start).1 in
  match (demo_dispatch "EXACTLY_ONCE" 1 "run_u-1" w1).2 with
  | Answer env => en_status env = "success" /\ en_outcome env = None
  | ContractViolation => False
  end.
Proof. vm_compute. split; reflexivity. Qed.
