(* ===== verification/StateMerge.v ===== *)
(** * Merging the patches of a superstep

    runtime/flow_engine/state_merge.py: ordered (writer, patch) pairs are
    merged into the run's state, in place; cells with several writers are
    resolved by the policy the flow declares for them and an undeclared double
    write raises. Because the merge mutates the state before a later cell can
    raise, [merge_state] returns the state as it is left, with the error.

    [str()] of values that are not strings and addition with a float operand
    are parameters. *)

From S2P Require Import Prelude PyStr PyVal.
From Stdlib Require Import Ascii QArith.

Local Open Scope string_scope.
Local Open Scope Z_scope.
Local Open Scope list_scope.

Definition state : Type := list (string * pyval).
Definition patch : Type := list (string * pyval).

Definition POLICY_LAST_WRITE_WINS : string := "last_write_wins".
Definition POLICY_REDUCE : string := "reduce".
Definition POLICY_BARRIER : string := "barrier".
Definition POLICIES : list string := [POLICY_LAST_WRITE_WINS; POLICY_REDUCE; POLICY_BARRIER].
Definition STATE_POLICIES_KEY : string := "state_policies".

Inductive merge_error :=
| Undeclared (cell : string) (writers : list string)
| UnknownPolicy (cell name : string)
| UnknownReducer (cell op : string)
| BarrierWithoutWriters (cell : string)
| BarrierIncomplete (cell : string) (missing : list string)
| RaisedTypeError (cell : string).

Section Merge.
Variable render : pyval -> string.
Variable float_add : pyval -> pyval -> Q.

(** ** Reducers *)

(** [operator.add] *)
Definition py_add (a b : pyval) : option pyval :=
  match a, b with
  | VStr s, VStr t => Some (VStr (s +:+ t))
  | VList l, VList m => Some (VList (l ++ m))
  | (VBool _ | VInt _), (VBool _ | VInt _) =>
      match py_num a, py_num b with
      | Some x, Some y => Some (VInt (Qnum x + Qnum y))
      | _, _ => None
      end
  | _, _ => match py_num a, py_num b with
            | Some _, Some _ => Some (VFloat (float_add a b))
            | _, _ => None
            end
  end.

(** [max(a, b)] and [min(a, b)]: the first argument unless the second is
    strictly larger (smaller). *)
Definition py_max (a b : pyval) : option pyval :=
  match py_lt a b with Some true => Some b | Some false => Some a | None => None end.
Definition py_min (a b : pyval) : option pyval :=
  match py_lt b a with Some true => Some b | Some false => Some a | None => None end.

Definition py_and (a b : pyval) : option pyval := Some (VBool (py_truth a && py_truth b)).
Definition py_or_bool (a b : pyval) : option pyval := Some (VBool (py_truth a || py_truth b)).

Definition hashable (v : pyval) : bool :=
  match v with VList _ | VDict _ => false | _ => true end.

(** The elements [set(v)] iterates over; [None] where it raises. *)
Definition set_elements (v : pyval) : option (list pyval) :=
  match v with
  | VList l => if forallb hashable l then Some l else None
  | VStr s => Some (map (fun c => VStr (String c "")) (String.list_ascii_of_string s))
  | VDict d => Some (map (fun kv => VStr kv.1) d)
  | _ => None
  end.

Definition add_elem (acc : list pyval) (v : pyval) : list pyval :=
  if existsb (py_eq v) acc then acc else acc ++ [v].

(** Insertion sort by [py_lt]; [None] when two elements do not compare. *)
Fixpoint insert_val (v : pyval) (l : list pyval) : option (list pyval) :=
  match l with
  | [] => Some [v]
  | x :: l' => match py_lt v x with
               | Some true => Some (v :: l)
               | Some false => match insert_val v l' with Some r => Some (x :: r) | None => None end
               | None => None
               end
  end.

Definition sort_vals (l : list pyval) : option (list pyval) :=
  foldl (fun acc v => match acc with Some a => insert_val v a | None => None end) (Some []) l.

(** [sorted(set(a) | set(b))] *)
Definition py_union (a b : pyval) : option pyval :=
  match set_elements a, set_elements b with
  | Some x, Some y => match sort_vals (foldl add_elem [] (x ++ y)) with
                      | Some l => Some (VList l) | None => None end
  | _, _ => None
  end.

Definition REDUCERS : list (string * (pyval -> pyval -> option pyval)) :=
  [("sum", py_add); ("max", py_max); ("min", py_min); ("and", py_and); ("or", py_or_bool);
   ("union", py_union)].

(** [functools.reduce] on a non-empty list. *)
Fixpoint reduce_from (f : pyval -> pyval -> option pyval) (acc : pyval) (vs : list pyval) : option pyval :=
  match vs with
  | [] => Some acc
  | v :: vs' => match f acc v with Some a => reduce_from f a vs' | None => None end
  end.

Definition reduce (f : pyval -> pyval -> option pyval) (vs : list pyval) : option pyval :=
  match vs with [] => None | v :: vs' => reduce_from f v vs' end.

(** ** Resolution *)

(** [[str(w) for w in v]] *)
Definition str_items (v : pyval) : option (list string) :=
  match v with
  | VList l => Some (map (py_str render) l)
  | VStr s => Some (map (fun c => String c "") (String.list_ascii_of_string s))
  | VDict d => Some (map fst d)
  | _ => None
  end.

Definition resolve (cell : string) (writers : list string) (values : list pyval)
    (policy : option pyval) : result merge_error pyval :=
  match policy with
  | None | Some VNone => Err (Undeclared cell writers)
  | Some (VDict p) =>
      let name := py_str render (py_or (py_get "policy" p) (VStr "")) in
      if decide (name ∈ POLICIES) then
        if decide (name = POLICY_LAST_WRITE_WINS) then
          match last values with Some v => Ok v | None => Err (RaisedTypeError cell) end
        else if decide (name = POLICY_REDUCE) then
          let op_name := py_str render (py_or (py_get "op" p) (VStr "")) in
          match dict_get op_name REDUCERS with
          | None => Err (UnknownReducer cell op_name)
          | Some f => match reduce f values with
                      | Some v => Ok v
                      | None => Err (RaisedTypeError cell)
                      end
          end
        else
          match str_items (py_or (py_get "writers" p) (VList [])) with
          | None => Err (RaisedTypeError cell)
          | Some [] => Err (BarrierWithoutWriters cell)
          | Some expected =>
              match base.filter (fun w => w ∉ writers) expected with
              | [] => match last values with Some v => Ok v | None => Err (RaisedTypeError cell) end
              | missing => Err (BarrierIncomplete cell missing)
              end
          end
      else Err (UnknownPolicy cell name)
  | Some _ => Err (RaisedTypeError cell)
  end.

(** [_cells_by_writer]: cells in order of first appearance, each with its
    writers in declaration order. *)
Definition add_writer (writer : string) (seen : list (string * list string)) (cell : string) :=
  dict_set cell (default [] (dict_get cell seen) ++ [writer]) seen.

Definition cells_by_writer (patches : list (string * patch)) : list (string * list string) :=
  foldl (fun seen wp => foldl (add_writer wp.1) seen (dict_keys wp.2)) [] patches.

(** [[p[cell] for _, p in ordered if cell in p]] *)
Definition values_of (cell : string) (patches : list (string * patch)) : list pyval :=
  omap (fun wp : string * patch => dict_get cell wp.2) patches.

(** A cell with one writer takes its value; any other is resolved. *)
Definition cell_value (policies : list (string * pyval)) (patches : list (string * patch))
    (cell : string) (writers : list string) : result merge_error pyval :=
  let values := values_of cell patches in
  match writers, values with
  | [_], v :: _ => Ok v
  | _, _ => resolve cell writers values (dict_get cell policies)
  end.

Fixpoint merge_cells (policies : list (string * pyval)) (patches : list (string * patch))
    (cells : list (string * list string)) (st : state) : state * option merge_error :=
  match cells with
  | [] => (st, None)
  | (cell, writers) :: cells' =>
      match cell_value policies patches cell writers with
      | Ok v => merge_cells policies patches cells' (dict_set cell v st)
      | Err e => (st, Some e)
      end
  end.

Definition merge_state (st : state) (patches : list (string * patch)) (policies : list (string * pyval))
    : state * option merge_error :=
  match patches with
  | [] => (st, None)
  | [(_, p)] => (dict_update st p, None)
  | _ => merge_cells policies patches (cells_by_writer patches) st
  end.

(** [declared_policies]: the flow's own declaration, if it is a mapping. *)
Definition declared_policies (flow_policies : option pyval) : list (string * pyval) :=
  match flow_policies with Some (VDict d) => d | _ => [] end.

(** ** What the merge computes *)

Definition writers_of (cell : string) (patches : list (string * patch)) : list string :=
  map fst (base.filter (fun wp : string * patch => cell ∈ dict_keys wp.2) patches).

(** The value the merge gives a cell: none when nobody writes it. *)
Definition merged_value (policies : list (string * pyval)) (patches : list (string * patch))
    (cell : string) : option (result merge_error pyval) :=
  match values_of cell patches with
  | [] => None
  | [v] => Some (Ok v)
  | vs => Some (resolve cell (writers_of cell patches) vs (dict_get cell policies))
  end.

Definition patches_wf (patches : list (string * patch)) : Prop :=
  Forall (fun wp => dict_wf wp.2) patches.

Definition nonempty_opt {A} (l : list A) : option (list A) :=
  match l with [] => None | _ => Some l end.

Lemma add_writers_get w ks seen k :
  NoDup ks ->
  dict_get k (foldl (add_writer w) seen ks)
  = if decide (k ∈ ks) then Some (default [] (dict_get k seen) ++ [w]) else dict_get k seen.
Proof.
  revert seen. induction ks as [|x ks IH]; intros seen Hnd; [done|].
  apply NoDup_cons in Hnd as [Hx Hnd]. simpl. rewrite IH by done. unfold add_writer.
  destruct (decide (k = x)) as [->|Hne].
  - rewrite decide_False by done. rewrite dict_get_set_eq, decide_True by (by left). done.
  - rewrite !dict_get_set_ne by done. repeat case_decide; set_solver.
Qed.

Lemma add_writers_wf w ks seen : dict_wf seen -> dict_wf (foldl (add_writer w) seen ks).
Proof.
  revert seen. induction ks as [|x ks IH]; intros seen H; [done|]. simpl. apply IH. by apply dict_set_wf.
Qed.

Lemma cells_by_writer_spec patches :
  patches_wf patches ->
  dict_wf (cells_by_writer patches) /\
  forall k, dict_get k (cells_by_writer patches) = nonempty_opt (writers_of k patches).
Proof.
  unfold cells_by_writer.
  assert (H : forall seen, dict_wf seen -> patches_wf patches ->
    (forall k, dict_get k seen = nonempty_opt (default [] (dict_get k seen))) ->
    let r := foldl (fun seen wp => foldl (add_writer wp.1) seen (dict_keys wp.2)) seen patches in
    dict_wf r /\ forall k, dict_get k r = nonempty_opt (default [] (dict_get k seen) ++ writers_of k patches)).
  { induction patches as [|[w p] patches IH]; intros seen Hwf Hp Hs; cbv zeta; simpl.
    { split; [done|]. intros k. by rewrite app_nil_r. }
    apply Forall_cons in Hp as [Hp1 Hp]. simpl in Hp1.
    assert (Hget : forall k, dict_get k (foldl (add_writer w) seen (dict_keys p))
      = if decide (k ∈ dict_keys p) then Some (default [] (dict_get k seen) ++ [w]) else dict_get k seen).
    { intros k. by apply add_writers_get. }
    destruct (IH (foldl (add_writer w) seen (dict_keys p))) as [H1 H2].
    - by apply add_writers_wf.
    - done.
    - intros k. rewrite Hget. case_decide; [|apply Hs]. simpl. by destruct (default [] (dict_get k seen)).
    - split; [done|]. intros k. rewrite H2, Hget. unfold writers_of. rewrite filter_cons. simpl.
      case_decide; simpl; [|done]. by rewrite <- app_assoc. }
  intros Hp. destruct (H []) as [H1 H2]; [apply NoDup_nil_2|done|done|]. done.
Qed.

Lemma writers_values_length k patches : length (writers_of k patches) = length (values_of k patches).
Proof.
  unfold writers_of, values_of. induction patches as [|[w p] patches IH]; [done|].
  rewrite filter_cons. simpl. destruct (dict_get k p) as [v|] eqn:E.
  - rewrite decide_True; [simpl; by rewrite IH|]. apply dict_get_is_Some. by exists v.
  - rewrite decide_False; [done|]. by apply dict_get_None.
Qed.

Lemma cell_value_merged policies patches k :
  writers_of k patches <> [] ->
  Some (cell_value policies patches k (writers_of k patches)) = merged_value policies patches k.
Proof.
  intros Hne. unfold cell_value, merged_value. pose proof (writers_values_length k patches) as Hl.
  destruct (writers_of k patches) as [|w [|w2 ws]]; [done| |];
    destruct (values_of k patches) as [|v [|v2 vs]]; done.
Qed.

Definition all_resolve policies patches (cells : list (string * list string)) : Prop :=
  forall c ws, (c, ws) ∈ cells -> is_Ok (cell_value policies patches c ws) = true.

Lemma merge_cells_spec policies patches cells st :
  dict_wf cells ->
  let '(st', err) := merge_cells policies patches cells st in
  (err = None <-> all_resolve policies patches cells) /\
  (err = None -> forall k, dict_get k st' =
     match dict_get k cells with
     | Some ws => match cell_value policies patches k ws with Ok v => Some v | Err _ => None end
     | None => dict_get k st
     end).
Proof.
  revert st. induction cells as [|[c ws] cells IH]; intros st Hwf; simpl.
  { split; [|done]. split; [|done]. intros _ c ws Hin. by apply not_elem_of_nil in Hin. }
  unfold dict_wf in Hwf. simpl in Hwf. apply NoDup_cons in Hwf as [Hc Hwf].
  destruct (cell_value policies patches c ws) as [v|e] eqn:Hv.
  - specialize (IH (dict_set c v st) Hwf).
    destruct (merge_cells policies patches cells (dict_set c v st)) as [st' err]. destruct IH as [IH1 IH2].
    split.
    + rewrite IH1. unfold all_resolve. split.
      * intros H c' ws' Hin. apply elem_of_cons in Hin as [[= -> ->]|Hin]; [by rewrite Hv|auto].
      * intros H c' ws' Hin. apply H. by right.
    + intros He k. rewrite (IH2 He k). case_decide as Hk.
      * subst k. apply dict_get_None in Hc. rewrite Hc, Hv. by rewrite dict_get_set_eq.
      * by rewrite dict_get_set_ne by congruence.
  - split; [|done]. split; [done|]. intros H. specialize (H c ws). rewrite Hv in H. exfalso.
    assert (false = true) by (apply H; by left). done.
Qed.

Lemma merge_state_char st patches policies :
  patches_wf patches ->
  let '(st', err) := merge_state st patches policies in
  (err = None <-> forall k e, merged_value policies patches k <> Some (Err e)) /\
  (err = None -> forall k, dict_get k st' =
     match merged_value policies patches k with Some (Ok v) => Some v | _ => dict_get k st end).
Proof.
  intros Hp. unfold merge_state. destruct patches as [|[w p] [|wp patches]].
  { done. }
  { split.
    - split; [|done]. intros _ k e. unfold merged_value. simpl. by destruct (dict_get k p).
    - intros _ k. unfold merged_value. simpl. apply Forall_cons in Hp as [Hp _]. simpl in Hp.
      rewrite dict_get_update by done. by destruct (dict_get k p). }
  set (ps := (w, p) :: wp :: patches) in *.
  destruct (cells_by_writer_spec ps Hp) as [Hwf Hget].
  pose proof (merge_cells_spec policies ps (cells_by_writer ps) st Hwf) as H.
  destruct (merge_cells policies ps (cells_by_writer ps) st) as [st' err]. destruct H as [H1 H2].
  assert (Hnone : forall k, writers_of k ps = [] -> merged_value policies ps k = None).
  { intros k Hk. pose proof (writers_values_length k ps) as Hl. rewrite Hk in Hl.
    unfold merged_value. by destruct (values_of k ps). }
  split.
  - rewrite H1. unfold all_resolve. split.
    + intros H k e Hm. destruct (writers_of k ps) as [|w0 ws0] eqn:Hw; [by rewrite Hnone in Hm|].
      assert (Hne : writers_of k ps <> []) by (by rewrite Hw).
      rewrite <- cell_value_merged in Hm by done. injection Hm as Hm.
      specialize (H k (writers_of k ps)). rewrite Hm in H. assert (false = true); [|done]. apply H.
      apply dict_get_elem. rewrite Hget, Hw. done.
    + intros H c ws Hin. apply dict_elem_get in Hin; [|done]. rewrite Hget in Hin.
      destruct (writers_of c ps) as [|w0 ws0] eqn:Hw; [done|]. cbn [nonempty_opt] in Hin. injection Hin as <-.
      destruct (cell_value policies ps c (w0 :: ws0)) as [|e] eqn:Hv; [done|]. exfalso.
      apply (H c e). rewrite <- cell_value_merged by (by rewrite Hw). by rewrite Hw, Hv.
  - intros He k. rewrite (H2 He k), Hget.
    destruct (writers_of k ps) as [|w0 ws0] eqn:Hw; [by rewrite Hnone|]. cbn [nonempty_opt].
    assert (Hne : writers_of k ps <> []) by (by rewrite Hw).
    rewrite <- (cell_value_merged policies ps k Hne), Hw.
    destruct (cell_value policies ps k (w0 :: ws0)) as [|e] eqn:Hv; [done|]. exfalso.
    assert (Hall : all_resolve policies ps (cells_by_writer ps)) by (by apply H1).
    specialize (Hall k (w0 :: ws0)). rewrite Hv in Hall. assert (false = true); [|done]. apply Hall.
    apply dict_get_elem. by rewrite Hget, Hw.
Qed.

(** ** Order independence of reductions *)

Lemma reduce_from_total (f : pyval -> pyval -> option pyval) (g : pyval -> pyval -> pyval) (D : pyval -> Prop) :
  (forall a b, D a -> D b -> f a b = Some (g a b) /\ D (g a b)) ->
  forall vs a, D a -> Forall D vs -> reduce_from f a vs = Some (foldl g a vs).
Proof.
  intros Hf. induction vs as [|v vs IH]; intros a Ha Hvs; [done|].
  apply Forall_cons in Hvs as [Hv Hvs]. simpl. destruct (Hf a v Ha Hv) as [-> HD]. by apply IH.
Qed.

Lemma foldl_perm (g : pyval -> pyval -> pyval) (D : pyval -> Prop) :
  (forall a b, D a -> D b -> D (g a b)) ->
  (forall a b c, D a -> D b -> D c -> g (g a b) c = g (g a c) b) ->
  forall vs vs', vs ≡ₚ vs' -> forall a, D a -> Forall D vs -> foldl g a vs = foldl g a vs'.
Proof.
  intros HD Hc vs vs' Hp. induction Hp as [|x l l' Hp IH|x y l|l1 l2 l3 Hp1 IH1 Hp2 IH2]; intros a Ha Hvs.
  - done.
  - apply Forall_cons in Hvs as [Hx Hl]. simpl. apply IH; auto.
  - apply Forall_cons in Hvs as [Hy Hvs]. apply Forall_cons in Hvs as [Hx Hl]. simpl. by rewrite Hc.
  - rewrite IH1 by done. apply IH2; [done|]. by rewrite <- Hp1.
Qed.

(** A reducer that is total, commutative and associative on [D]. *)
Lemma reduce_perm (f : pyval -> pyval -> option pyval) (g : pyval -> pyval -> pyval) (D : pyval -> Prop) vs vs' :
  (forall a b, D a -> D b -> f a b = Some (g a b) /\ D (g a b)) ->
  (forall a b, D a -> D b -> g a b = g b a) ->
  (forall a b c, D a -> D b -> D c -> g (g a b) c = g a (g b c)) ->
  vs ≡ₚ vs' -> Forall D vs -> vs <> [] -> exists v, reduce f vs = Some v /\ reduce f vs' = Some v.
Proof.
  intros Hf Hcomm Hassoc Hp Hvs Hne.
  assert (HD : forall a b, D a -> D b -> D (g a b)) by (intros a b Ha Hb; by destruct (Hf a b Ha Hb)).
  assert (Hsw : forall a b c, D a -> D b -> D c -> g (g a b) c = g (g a c) b).
  { intros a b c Ha Hb Hc. rewrite !Hassoc, (Hcomm b c) by auto. done. }
  assert (Hvs' : Forall D vs') by (by rewrite <- Hp).
  assert (Hr : forall l, Forall D l -> reduce f l = match l with [] => None | x :: l' => Some (foldl g x l') end).
  { intros [|x l] Hl; [done|]. apply Forall_cons in Hl as [Hx Hl]. simpl. by apply (reduce_from_total f g D). }
  rewrite !Hr by done. destruct vs as [|x l]; [done|]. exists (foldl g x l). split; [done|].
  revert Hne Hvs Hvs'. clear Hr. remember (x :: l) as vs eqn:E. revert x l E.
  induction Hp as [|y l1 l2 Hp IH|y z l1|l1 l2 l3 Hp1 IH1 Hp2 IH2]; intros x l E Hne Hvs Hvs'; [done| | |].
  - injection E as E1 E2. subst. apply Forall_cons in Hvs as [Hx Hl]. f_equal. symmetry. by apply (foldl_perm g D).
  - injection E as E1 E2. subst. simpl. apply Forall_cons in Hvs as [Hy Hvs]. apply Forall_cons in Hvs as [Hz Hl].
    by rewrite Hcomm.
  - assert (Hl2 : Forall D l2) by (by rewrite <- Hp1). destruct l2 as [|x2 l2].
    { apply Permutation_nil_r in Hp1. by subst l1. }
    rewrite (IH2 x2 l2) by done. specialize (IH1 x l E Hne Hvs Hl2). by injection IH1 as ->.
Qed.

Definition is_int (v : pyval) : Prop := exists z, v = VInt z.

Definition int_of (v : pyval) : Z := match v with VInt z => z | _ => 0 end.

Lemma py_lt_int a b : py_lt (VInt a) (VInt b) = Some (a <? b).
Proof.
  simpl. f_equal. unfold Qle_bool. simpl. rewrite !Z.mul_1_r. destruct (a <? b) eqn:E; boolprop.
  - apply negb_true_iff, Z.leb_gt. done.
  - apply negb_false_iff, Z.leb_le. done.
Qed.

Lemma int_reducers_perm op f vs vs' :
  op ∈ ["sum"; "max"; "min"] -> dict_get op REDUCERS = Some f ->
  vs ≡ₚ vs' -> Forall is_int vs -> vs <> [] -> exists v, reduce f vs = Some v /\ reduce f vs' = Some v.
Proof.
  intros Hop Hf Hp Hvs Hne.
  assert (Hg : exists h : Z -> Z -> Z, (forall a b, f (VInt a) (VInt b) = Some (VInt (h a b))) /\
    (forall a b, h a b = h b a) /\ (forall a b c, h (h a b) c = h a (h b c))).
  { rewrite !elem_of_cons in Hop. destruct Hop as [-> | [-> | [-> |Hop]]]; [| | |by apply not_elem_of_nil in Hop];
      simpl in Hf; injection Hf as <-.
    - exists Z.add. split; [done|]. split; intros; lia.
    - exists Z.max. split; [|split; intros; lia]. intros a b. unfold py_max. rewrite py_lt_int.
      destruct (a <? b) eqn:E; boolprop; do 2 f_equal; lia.
    - exists Z.min. split; [|split; intros; lia]. intros a b. unfold py_min. rewrite py_lt_int.
      destruct (b <? a) eqn:E; boolprop; do 2 f_equal; lia. }
  destruct Hg as (h & Hh & Hc & Ha).
  apply (reduce_perm f (fun a b => VInt (h (int_of a) (int_of b))) is_int); try done.
  - intros a b [x ->] [y ->]. split; [apply Hh|by eexists].
  - intros a b [x ->] [y ->]. simpl. by rewrite Hc.
  - intros a b c [x ->] [y ->] [z ->]. simpl. by rewrite Ha.
Qed.

Lemma bool_reducers_perm op f vs vs' :
  op ∈ ["and"; "or"] -> dict_get op REDUCERS = Some f ->
  vs ≡ₚ vs' -> vs <> [] -> exists v, reduce f vs = Some v /\ reduce f vs' = Some v.
Proof.
  intros Hop Hf Hp Hne.
  rewrite !elem_of_cons in Hop. destruct Hop as [-> | [-> |Hop]]; [| |by apply not_elem_of_nil in Hop];
    simpl in Hf; injection Hf as <-.
  - apply (reduce_perm py_and (fun a b => VBool (py_truth a && py_truth b)) (fun _ => True)); try done.
    + intros. by rewrite andb_comm.
    + intros. simpl. by rewrite andb_assoc.
    + by apply Forall_forall.
  - apply (reduce_perm py_or_bool (fun a b => VBool (py_truth a || py_truth b)) (fun _ => True)); try done.
    + intros. by rewrite orb_comm.
    + intros. simpl. by rewrite orb_assoc.
    + by apply Forall_forall.
Qed.

(** Every cell with several writers is declared [reduce] with an operator
    that commutes on the values written. *)
Definition commuting_cell (policies : list (string * pyval)) (patches : list (string * patch))
    (k : string) : Prop :=
  (length (values_of k patches) <= 1)%nat \/
  exists p op, dict_get k policies = Some (VDict p) /\
    py_get "policy" p = VStr POLICY_REDUCE /\ py_get "op" p = VStr op /\
    (op ∈ ["and"; "or"] \/ op ∈ ["sum"; "max"; "min"] /\ Forall is_int (values_of k patches)).

Lemma resolve_commuting policies k p op ws ws' vs vs' :
  dict_get k policies = Some (VDict p) ->
  py_get "policy" p = VStr POLICY_REDUCE -> py_get "op" p = VStr op ->
  op ∈ ["and"; "or"] \/ op ∈ ["sum"; "max"; "min"] /\ Forall is_int vs ->
  vs ≡ₚ vs' -> vs <> [] ->
  exists v, resolve k ws vs (dict_get k policies) = Ok v /\ resolve k ws' vs' (dict_get k policies) = Ok v.
Proof.
  intros Hk Hpol Hop Hcase Hp Hne. rewrite Hk. unfold resolve. rewrite Hpol, Hop.
  change (py_or (VStr POLICY_REDUCE) (VStr "")) with (VStr POLICY_REDUCE). cbn [py_str].
  rewrite decide_True by (apply (bool_decide_unpack _); by vm_compute).
  rewrite decide_False by done. rewrite decide_True by done.
  assert (Hor : py_or (VStr op) (VStr "") = VStr op) by (by destruct op).
  rewrite Hor. cbn [py_str]. cbv zeta.
  assert (Hf : exists f, dict_get op REDUCERS = Some f).
  { destruct Hcase as [Hin|[Hin _]]; rewrite !elem_of_cons in Hin;
      repeat (destruct Hin as [-> |Hin]; [by eexists|]); by apply not_elem_of_nil in Hin. }
  destruct Hf as [f Hf]. rewrite Hf.
  assert (Hv : exists v, reduce f vs = Some v /\ reduce f vs' = Some v).
  { destruct Hcase as [Hin|[Hin Hint]]; [by eapply bool_reducers_perm|by eapply int_reducers_perm]. }
  destruct Hv as (v & -> & ->). by exists v.
Qed.

Lemma merged_value_perm policies patches patches' k :
  patches ≡ₚ patches' -> commuting_cell policies patches k ->
  merged_value policies patches k = merged_value policies patches' k /\
  forall e, merged_value policies patches k <> Some (Err e).
Proof.
  intros Hp Hc. assert (Hv : values_of k patches ≡ₚ values_of k patches') by (by apply omap_Permutation).
  unfold merged_value. destruct (values_of k patches) as [|v [|v2 vs]] eqn:E.
  - apply Permutation_nil_l in Hv. rewrite <- Hv. done.
  - apply Permutation_singleton_l in Hv. rewrite <- Hv. done.
  - pose proof (Permutation_length Hv) as Hl.
    destruct (values_of k patches') as [|v' [|v2' vs']] eqn:E'; [done|done|].
    destruct Hc as [Hc|(p & op & Hk & Hpol & Hop & Hcase)]; [rewrite E in Hc; simpl in Hc; lia|].
    rewrite E in Hcase.
    destruct (resolve_commuting policies k p op (writers_of k patches) (writers_of k patches')
      _ _ Hk Hpol Hop Hcase Hv) as (x & -> & ->); done.
Qed.
End Merge.

(** ** Claims *)

(** The merge is determined cell by cell: it raises exactly when some
    cell with several writers cannot be resolved by its declared policy; when it
    succeeds a cell nobody wrote keeps its value, a cell with one writer takes
    that value without consulting any policy, and a cell with several takes the
    resolved one. A single patch is a plain dict update. *)
Lemma merge_state_spec render float_add st patches policies :
  patches_wf patches ->
  let '(st', err) := merge_state render float_add st patches policies in
  (err = None <-> forall k e, merged_value render float_add policies patches k <> Some (Err e)) /\
  (err = None -> forall k,
     (values_of k patches = [] -> dict_get k st' = dict_get k st) /\
     (forall v, values_of k patches = [v] -> dict_get k st' = Some v) /\
     (forall v v' vs, values_of k patches = v :: v' :: vs ->
        exists x, resolve render float_add k (writers_of k patches) (v :: v' :: vs) (dict_get k policies) = Ok x
                  /\ dict_get k st' = Some x)) /\
  (forall w p, patches = [(w, p)] -> st' = dict_update st p).
Proof.
  intros Hp. pose proof (merge_state_char render float_add st patches policies Hp) as H.
  destruct (merge_state render float_add st patches policies) as [st' err] eqn:E. destruct H as [H1 H2].
  split; [done|]. split.
  - intros He k. specialize (H2 He k). unfold merged_value in H2.
    split; [by intros Hv; rewrite Hv in H2|]. split; [by intros v Hv; rewrite Hv in H2|].
    intros v v' vs Hv. pose proof (proj1 H1 He k) as Hk. unfold merged_value in Hk. rewrite Hv in H2, Hk.
    destruct (resolve render float_add k _ _ _) as [x|e]; [by exists x|]. by specialize (Hk e).
  - intros w p ->. simpl in E. by injection E as <- _.
Qed.

Lemma merge_state_spec_witness :
  let ps := [("a", [("n", VInt 1); ("x", VStr "p")]); ("b", [("n", VInt 2)])] in
  let pol := [("n", VDict [("policy", VStr "reduce"); ("op", VStr "sum")])] in
  patches_wf ps /\
  merge_state (fun _ => "") (fun _ _ => 0%Q) [("n", VInt 9)] ps pol = ([("n", VInt 3); ("x", VStr "p")], None) /\
  dict_get "x" (merge_state (fun _ => "") (fun _ _ => 0%Q) [("n", VInt 9)] ps pol).1 = Some (VStr "p").
Proof.
  cbv zeta.
  assert (Hp : patches_wf [("a", [("n", VInt 1); ("x", VStr "p")]); ("b", [("n", VInt 2)])]).
  { repeat constructor; apply (bool_decide_unpack _); vm_compute; exact I. }
  split; [exact Hp|]. split; [vm_compute; reflexivity|].
  destruct (merge_state_spec (fun _ => "") (fun _ _ => 0%Q) [("n", VInt 9)] _
    [("n", VDict [("policy", VStr "reduce"); ("op", VStr "sum")])] Hp) as (_ & H & _).
  destruct (H eq_refl "x") as (_ & H2 & _). apply H2. vm_compute. reflexivity.
Defined.

(** Reductions do not depend on the order of the branches: when every
    contended cell declares [reduce] with "and" or "or", or with "sum", "max"
    or "min" over integers, merging the patches in any order succeeds and gives
    every cell the same value. *)
Lemma reduce_merge_order_free render float_add st patches patches' policies :
  patches_wf patches -> patches ≡ₚ patches' ->
  (forall k, commuting_cell policies patches k) ->
  exists s s', merge_state render float_add st patches policies = (s, None) /\
    merge_state render float_add st patches' policies = (s', None) /\
    forall k, dict_get k s = dict_get k s'.
Proof.
  intros Hwf Hp Hc. assert (Hwf' : patches_wf patches') by (unfold patches_wf; by rewrite <- Hp).
  pose proof (merge_state_char render float_add st patches policies Hwf) as H.
  pose proof (merge_state_char render float_add st patches' policies Hwf') as H'.
  destruct (merge_state render float_add st patches policies) as [s err].
  destruct (merge_state render float_add st patches' policies) as [s' err'].
  assert (Hm : forall k, merged_value render float_add policies patches k
    = merged_value render float_add policies patches' k /\
    forall e, merged_value render float_add policies patches k <> Some (Err e)).
  { intros k. by apply merged_value_perm. }
  destruct H as [H1 H2], H' as [H1' H2'].
  assert (He : err = None) by (apply H1; intros k e; apply Hm).
  assert (He' : err' = None).
  { apply H1'. intros k e. destruct (Hm k) as [Hk Hn]. rewrite <- Hk. apply Hn. }
  exists s, s'. split; [by rewrite He|]. split; [by rewrite He'|]. intros k.
  rewrite (H2 He), (H2' He'). by destruct (Hm k) as [-> _].
Qed.

Lemma reduce_merge_order_free_witness :
  exists s s', merge_state (fun _ => "") (fun _ _ => 0%Q) [] [("a", [("n", VInt 1)]); ("b", [("n", VInt 2)])]
      [("n", VDict [("policy", VStr "reduce"); ("op", VStr "sum")])] = (s, None) /\
    merge_state (fun _ => "") (fun _ _ => 0%Q) [] [("b", [("n", VInt 2)]); ("a", [("n", VInt 1)])]
      [("n", VDict [("policy", VStr "reduce"); ("op", VStr "sum")])] = (s', None) /\
    forall k, dict_get k s = dict_get k s'.
Proof.
  apply (reduce_merge_order_free (fun _ => "") (fun _ _ => 0%Q) []
    [("a", [("n", VInt 1)]); ("b", [("n", VInt 2)])]).
  - repeat constructor; apply (bool_decide_unpack _); vm_compute; exact I.
  - apply Permutation_swap.
  - intros k. unfold commuting_cell. destruct (decide (k = "n")) as [->|Hk].
    + right. exists [("policy", VStr "reduce"); ("op", VStr "sum")], "sum".
      split; [reflexivity|]. split; [reflexivity|]. split; [reflexivity|]. right.
      split; [apply (bool_decide_unpack _); vm_compute; exact I|].
      vm_compute. repeat constructor; by eexists.
    + left. unfold values_of. simpl. rewrite !decide_False by congruence. simpl. lia.
Defined.

(** "sum" is [operator.add], which concatenates strings and lists: the
    merged value of such a cell depends on the order of the branches. *)
Example sum_depends_on_order :
  let pol := [("log", VDict [("policy", VStr "reduce"); ("op", VStr "sum")])] in
  let a := ("a", [("log", VStr "A")]) in
  let b := ("b", [("log", VStr "B")]) in
  merge_state (fun _ => "") (fun _ _ => 0%Q) [] [a; b] pol = ([("log", VStr "AB")], None) /\
  merge_state (fun _ => "") (fun _ _ => 0%Q) [] [b; a] pol = ([("log", VStr "BA")], None).
Proof. split; vm_compute; reflexivity. Qed.
