(* ===== verification/FlowGraph.v ===== *)
(** * The flow graph: edges, predicates, fan-out groups, signature

    runtime/flow_engine/fan_out.py (the declared group and its join),
    registry.py (named predicates), node_executor.py (which nodes come next)
    and graph_signature.py (the canonical form a run's shape is hashed from).

    A flow's "edges" map a node to a list of edges or to one bare group. An
    edge is a node name, a dict with a target and a gate (a callable under
    "condition" or a predicate's name under "when"), or a group. Gates are
    functions of the state that may raise. The digest of the canonical form
    (JSON and SHA-256) is a parameter. *)

From S2P Require Import Prelude PyStr PyVal StateMerge.

Local Open Scope string_scope.
Local Open Scope Z_scope.
Local Open Scope list_scope.
Local Open Scope py_scope.

(** The exceptions of edge resolution: the runner catches [KeyError] and
    [ValueError]; the others escape it. *)
Inductive edge_error := EKeyError (what : string) | EValueError (what : string) | EOtherError (what : string).

Definition pred : Type := state -> result edge_error bool.

(** ** Fan-out groups (fan_out.py) *)

Definition JOIN_ALL : string := "all".
Definition JOIN_ANY : string := "any".
Definition JOIN_QUORUM : string := "quorum".
Definition JOIN_POLICIES : list string := [JOIN_ALL; JOIN_ANY; JOIN_QUORUM].

Record FanOutEdgeGroup := FanOut {
  targets : list string;
  join : string;
  quorum : option Z
}.

#[export] Instance group_eq_dec : EqDecision FanOutEdgeGroup.
Proof. solve_decision. Defined.

(** [FanOutEdgeGroup.__init__] *)
Definition make_group (ts : list string) (j : string) (q : option Z) : result edge_error FanOutEdgeGroup :=
  let j := str_lower (str_strip (if decide (j = "") then JOIN_ALL else j)) in
  let width := Z.of_nat (length ts) in
  if width <? 2 then Err (EValueError "targets")
  else if decide (NoDup ts) then
    if decide (j ∈ JOIN_POLICIES) then
      if decide (j = JOIN_QUORUM) then
        match q with
        | Some k => if (1 <=? k) && (k <=? width) then Ok (FanOut ts j q) else Err (EValueError "quorum")
        | None => Err (EValueError "quorum")
        end
      else match q with
           | None => Ok (FanOut ts j None)
           | Some _ => Err (EValueError "quorum")
           end
    else Err (EValueError "join")
  else Err (EValueError "duplicate").

Definition required_successes (g : FanOutEdgeGroup) : Z :=
  if decide (join g = JOIN_ANY) then 1
  else if decide (join g = JOIN_QUORUM) then default 0 (quorum g)
  else Z.of_nat (length (targets g)).

Record JoinOutcome := JOut {
  jo_required : Z;
  jo_succeeded : list string;
  jo_failed : list string
}.

Definition satisfied (o : JoinOutcome) : bool := jo_required o <=? Z.of_nat (length (jo_succeeded o)).
Definition partial (o : JoinOutcome) : bool :=
  satisfied o && negb (bool_decide (jo_failed o = [])).

Definition resolve_join (g : FanOutEdgeGroup) (statuses : list (string * string)) : JoinOutcome :=
  JOut (required_successes g)
    (base.filter (fun t => dict_get t statuses = Some "SUCCESS") (targets g))
    (base.filter (fun t => dict_get t statuses <> Some "SUCCESS") (targets g)).

(** ** Edges and flows *)

Record cond_edge := CondEdge {
  ce_target : option string;
  ce_condition : option pred;
  ce_when : option string
}.

Inductive edge := Plain (t : string) | Cond (c : cond_edge) | Group (g : FanOutEdgeGroup).

Inductive out_edges := EdgeList (l : list edge) | BareGroup (g : FanOutEdgeGroup).

Record flow := Flow {
  f_start : string;
  f_end : list string;
  f_edges : list (string * out_edges);
  f_node_max_retries : list (string * Z);
  f_policies : option pyval
}.

Definition DEFAULT_PREDICATE : string := "default".

(** PREDICATE_REGISTRY as the module leaves it. *)
Definition initial_predicates : list (string * pred) := [(DEFAULT_PREDICATE, fun _ => Ok true)].

(** [register_predicate]; [same] is [_same_predicate]. *)
Definition register_predicate (same : pred -> pred -> bool) (name : string) (fn : pred)
    (reg : list (string * pred)) : result edge_error (list (string * pred)) :=
  match dict_get name reg with
  | Some existing => if same existing fn then Ok (dict_set name fn reg) else Err (EValueError "rebound")
  | None => Ok (dict_set name fn reg)
  end.

Definition resolve_predicate (reg : list (string * pred)) (name : string) : result edge_error pred :=
  match dict_get name reg with Some p => Ok p | None => Err (EKeyError "UnknownPredicate") end.

Definition edge_predicate (reg : list (string * pred)) (e : cond_edge) : result edge_error pred :=
  match ce_condition e, ce_when e with
  | Some _, Some _ => Err (EValueError "both gates")
  | _, Some w => resolve_predicate reg w
  | Some c, None => Ok c
  | None, None => Err (EValueError "no gate")
  end.

(** What [resolve_next_node] returns: nothing, a node, or (when the first
    edge is a group) the group object itself. *)
Inductive next := NoNext | NextNode (t : string) | NextGroup (g : FanOutEdgeGroup).

#[export] Instance next_eq_dec : EqDecision next.
Proof. solve_decision. Defined.

(** The scan over conditional edges; an edge that is not a dict raises. *)
Fixpoint first_match (reg : list (string * pred)) (st : state) (edges : list edge) : result edge_error next :=
  match edges with
  | [] => Ok NoNext
  | Cond e :: edges' =>
      let? p := edge_predicate reg e in
      let? b := p st in
      if b then match ce_target e with
                | Some t => Ok (NextNode t)
                | None => Err (EKeyError "target")
                end
      else first_match reg st edges'
  | Plain _ :: _ => Err (EOtherError "AttributeError")
  | Group _ :: _ => Err (EOtherError "TypeError")
  end.

Definition next_of_list (reg : list (string * pred)) (st : state) (edges : list edge) : result edge_error next :=
  match edges with
  | [] => Ok NoNext
  | Cond _ :: _ => first_match reg st edges
  | Plain t :: _ => Ok (NextNode t)
  | Group g :: _ => Ok (NextGroup g)
  end.

Definition edges_of (f : flow) (node : string) : out_edges := default (EdgeList []) (dict_get node (f_edges f)).

Definition resolve_next_node (reg : list (string * pred)) (node : string) (st : state) (f : flow)
    : result edge_error next :=
  match edges_of f node with
  | BareGroup _ => Err (EOtherError "TypeError")
  | EdgeList l => next_of_list reg st l
  end.

Fixpoint first_group (l : list edge) : option FanOutEdgeGroup :=
  match l with [] => None | Group g :: _ => Some g | _ :: l' => first_group l' end.

Definition fan_out_group_for (node : string) (f : flow) : option FanOutEdgeGroup :=
  match edges_of f node with BareGroup g => Some g | EdgeList l => first_group l end.

Definition resolve_frontier (reg : list (string * pred)) (node : string) (st : state) (f : flow)
    : result edge_error (list string) :=
  match edges_of f node with
  | BareGroup g => Ok (targets g)
  | EdgeList l =>
      match first_group l with
      | Some g => match l with [_] => Ok (targets g) | _ => Err (EValueError "mixed") end
      | None =>
          let? n := next_of_list reg st l in
          Ok (match n with NextNode t => [t] | _ => [] end)
      end
  end.

(** ** The canonical form (graph_signature.py) *)

Definition SIGNATURE_VERSION : Z := 1.

Inductive cedge :=
| CPlain (t : string)
| CNamed (t w : string)
| CGated (t : string)
| CFan (ts : list string) (j : option string) (q : option Z).

Definition canonical_edge (e : edge) : cedge :=
  match e with
  | Group g =>
      let j := if decide (join g = "") then JOIN_ALL else join g in
      if decide (j = JOIN_ALL) then CFan (targets g) None None
      else CFan (targets g) (Some j) (quorum g)
  | Cond c => match ce_when c with
              | Some w => CNamed (default "" (ce_target c)) w
              | None => CGated (default "" (ce_target c))
              end
  | Plain t => CPlain t
  end.

(** A node's edges as a list: [raw if isinstance(raw, (list, tuple)) else [raw]]. *)
Definition raw_list (oe : out_edges) : list edge :=
  match oe with EdgeList l => l | BareGroup g => [Group g] end.

Definition canonical_edges (edges : list (string * out_edges)) : list (string * list cedge) :=
  map (fun source => (source, map canonical_edge (raw_list (default (EdgeList []) (dict_get source edges)))))
      (py_sorted (dict_keys edges)).

Record canonical := Canonical {
  c_version : Z;
  c_start : string;
  c_end : list string;
  c_edges : list (string * list cedge)
}.

Definition canonical_of (f : flow) : canonical :=
  Canonical SIGNATURE_VERSION (f_start f) (py_sorted (f_end f)) (canonical_edges (f_edges f)).

Definition flow_topology_signature (digest : canonical -> string) (f : flow) : string :=
  digest (canonical_of f).

Definition signatures_conflict (recorded current : option string) : bool :=
  match recorded, current with
  | Some (String _ _ as r), Some (String _ _ as c) => bool_decide (r <> c)
  | _, _ => false
  end.

(** ** Lemmas *)

(** A group the constructor accepts. *)
Definition valid_group (g : FanOutEdgeGroup) : Prop :=
  exists j q, make_group (targets g) j q = Ok g.

Lemma valid_group_spec g :
  valid_group g ->
  NoDup (targets g) /\ (2 <= length (targets g))%nat /\ join g ∈ JOIN_POLICIES /\
  (join g = JOIN_QUORUM -> exists k, quorum g = Some k /\ 1 <= k <= Z.of_nat (length (targets g))) /\
  (join g <> JOIN_QUORUM -> quorum g = None).
Proof.
  intros (j & q & H). unfold make_group in H. cbv zeta in H.
  set (jj := str_lower _) in H. case_bool; [done|]. boolprop. case_decide as Hnd; [|done].
  case_decide as Hj; [|done]. case_decide as Hq.
  - destruct q as [k|]; [|done]. case_bool; [|done]. boolprop. injection H as <-. simpl in *.
    split_and!; [done|lia|done|intros _; exists k; split; [done|lia]|done].
  - destruct q; [done|]. injection H as <-. simpl in *. split_and!; [done|lia|done|done|done].
Qed.

Lemma required_bounds g :
  valid_group g -> 1 <= required_successes g <= Z.of_nat (length (targets g)).
Proof.
  intros H. apply valid_group_spec in H as (_ & Hw & _ & Hq & _). unfold required_successes.
  case_decide; [lia|]. case_decide as Hj; [|lia]. destruct (Hq Hj) as (k & -> & Hk). done.
Qed.

Lemma filter_partition {A} (P : A -> Prop) `{!forall x, Decision (P x)} (l : list A) :
  base.filter P l ++ base.filter (fun x => ~ P x) l ≡ₚ l.
Proof.
  induction l as [|x l IH]; [done|]. rewrite !filter_cons.
  destruct (decide (P x)) as [HP|HP].
  - rewrite decide_False by tauto. simpl. by rewrite IH.
  - rewrite decide_True by done. rewrite <- Permutation_middle. by rewrite IH.
Qed.

(** The edges of a flow whose decisions are all data: no callable gates, and
    every target, group and predicate name given. *)
Definition data_edge (e : edge) : Prop :=
  match e with
  | Plain _ => True
  | Cond c => ce_condition c = None /\ ce_target c <> None /\ ce_when c <> None
  | Group g => valid_group g
  end.

Definition data_flow (f : flow) : Prop :=
  dict_wf (f_edges f) /\ forall n oe, dict_get n (f_edges f) = Some oe -> Forall data_edge (raw_list oe).

Lemma canonical_edge_inj e1 e2 :
  data_edge e1 -> data_edge e2 -> canonical_edge e1 = canonical_edge e2 -> e1 = e2.
Proof.
  assert (Hg : forall g, valid_group g -> canonical_edge (Group g) =
    if decide (join g = JOIN_ALL) then CFan (targets g) None None else CFan (targets g) (Some (join g)) (quorum g)).
  { intros g Hv. apply valid_group_spec in Hv as (_ & _ & Hj & _). unfold canonical_edge. cbv zeta.
    rewrite (decide_False (P := join g = "")); [done|]. intros E. rewrite E in Hj. vm_compute in Hj. set_solver. }
  destruct e1 as [t1|c1|g1], e2 as [t2|c2|g2]; intros H1 H2; simpl in H1, H2; rewrite ?Hg by done; try done.
  - intros [= ->]. done.
  - simpl. by destruct (ce_when c2).
  - case_decide; done.
  - simpl. by destruct (ce_when c1).
  - destruct c1 as [[u1|] [p1|] [w1|]], c2 as [[u2|] [p2|] [w2|]]; naive_solver.
  - simpl. destruct (ce_when c1); case_decide; done.
  - case_decide; done.
  - simpl. destruct (ce_when c2); case_decide; done.
  - destruct g1 as [t1 j1 q1], g2 as [t2 j2 q2]. simpl.
    apply valid_group_spec in H1 as (_ & _ & _ & _ & Hq1). apply valid_group_spec in H2 as (_ & _ & _ & _ & Hq2).
    simpl in *. repeat case_decide; intros [= ]; subst; try done.
    rewrite Hq1, Hq2 by done. done.
Qed.

Lemma canonical_list_inj l1 l2 :
  Forall data_edge l1 -> Forall data_edge l2 -> map canonical_edge l1 = map canonical_edge l2 -> l1 = l2.
Proof.
  revert l2. induction l1 as [|e1 l1 IH]; intros [|e2 l2] H1 H2 E; try done.
  apply Forall_cons in H1 as [He1 H1]. apply Forall_cons in H2 as [He2 H2].
  simpl in E. injection E as E1 E2. f_equal; [by apply canonical_edge_inj|by apply IH].
Qed.

Lemma canonical_edges_get edges n :
  dict_wf edges ->
  dict_get n (canonical_edges edges) = map canonical_edge ∘ raw_list <$> dict_get n edges.
Proof.
  intros Hwf. unfold canonical_edges.
  set (h := fun source => map canonical_edge (raw_list (default (EdgeList []) (dict_get source edges)))).
  assert (Hg : forall ks, dict_get n (map (fun source => (source, h source)) ks)
    = if decide (n ∈ ks) then Some (h n) else None).
  { induction ks as [|k ks IH]; [done|]. simpl. rewrite IH. destruct (decide (n = k)) as [->|Hne].
    - rewrite decide_True by (by left). by rewrite ?decide_True.
    - rewrite ?(decide_False (P := n = k)) by done. repeat case_decide; set_solver. }
  rewrite Hg. destruct (dict_get n edges) as [oe|] eqn:E.
  - rewrite decide_True; [unfold h; by rewrite E|]. rewrite py_sorted_perm. apply dict_get_is_Some. by exists oe.
  - rewrite decide_False; [done|]. rewrite py_sorted_perm. by apply dict_get_None.
Qed.

(** The frontier depends only on the node's edges as a list. *)
Definition frontier_of_list (reg : list (string * pred)) (st : state) (l : list edge) : result edge_error (list string) :=
  match first_group l with
  | Some g => match l with [_] => Ok (targets g) | _ => Err (EValueError "mixed") end
  | None => let? n := next_of_list reg st l in
            Ok (match n with NextNode t => [t] | _ => [] end)
  end.

Lemma frontier_raw reg n st f :
  resolve_frontier reg n st f = frontier_of_list reg st (raw_list (edges_of f n)).
Proof. unfold resolve_frontier. by destruct (edges_of f n). Qed.

Lemma same_canonical_raw f1 f2 n :
  data_flow f1 -> data_flow f2 -> canonical_of f1 = canonical_of f2 ->
  raw_list (edges_of f1 n) = raw_list (edges_of f2 n).
Proof.
  intros [Hw1 H1] [Hw2 H2] [= _ _ E]. apply (f_equal (dict_get n)) in E.
  rewrite !canonical_edges_get in E by done. unfold edges_of.
  destruct (dict_get n (f_edges f1)) as [o1|] eqn:E1, (dict_get n (f_edges f2)) as [o2|] eqn:E2; simpl in E; try done.
  injection E as E. by apply canonical_list_inj; [eapply H1|eapply H2|].
Qed.

(** ** Claims *)

(** The join decides by counting: a group the constructor accepts needs
    between one and all of its branches; whatever statuses come back, every
    branch is reported either succeeded or failed, each list in declaration
    order; the superstep proceeds exactly when enough succeeded (all of them
    under "all", one under "any", k under a quorum of k), and it is partial
    exactly when it proceeds past a failure. *)
Lemma join_counts_successes g statuses :
  valid_group g ->
  let o := resolve_join g statuses in
  1 <= jo_required o <= Z.of_nat (length (targets g)) /\
  jo_succeeded o ++ jo_failed o ≡ₚ targets g /\
  jo_succeeded o `sublist_of` targets g /\ jo_failed o `sublist_of` targets g /\
  (forall t, t ∈ jo_succeeded o <-> t ∈ targets g /\ dict_get t statuses = Some "SUCCESS") /\
  (join g = JOIN_ALL -> (satisfied o = true <-> jo_failed o = [])) /\
  (join g = JOIN_ANY -> (satisfied o = true <-> jo_succeeded o <> [])) /\
  (forall k, join g = JOIN_QUORUM -> quorum g = Some k ->
     (satisfied o = true <-> k <= Z.of_nat (length (jo_succeeded o)))) /\
  (partial o = true <-> satisfied o = true /\ jo_failed o <> []).
Proof.
  intros Hv. cbv zeta. pose proof (required_bounds g Hv) as Hb.
  pose proof (filter_partition (fun t => dict_get t statuses = Some "SUCCESS") (targets g)) as Hperm.
  pose proof (Permutation_length Hperm) as Hlen. rewrite length_app in Hlen.
  unfold satisfied, partial, resolve_join. simpl.
  split; [exact Hb|]. split; [exact Hperm|]. split; [apply sublist_filter|]. split; [apply sublist_filter|].
  split; [intros t; rewrite list_elem_of_filter; tauto|].
  set (S := base.filter (fun t => dict_get t statuses = Some "SUCCESS") (targets g)) in *.
  set (F := base.filter (fun t => dict_get t statuses <> Some "SUCCESS") (targets g)) in *.
  split; [|split; [|split]].
  - intros Hj. rewrite Z.leb_le. unfold required_successes. rewrite !decide_False by (by rewrite Hj).
    split; [|intros HF; rewrite HF in Hlen; simpl in Hlen; lia].
    intros Hle. destruct F; [done|]. simpl in Hlen. lia.
  - intros Hj. rewrite Z.leb_le. unfold required_successes. rewrite decide_True by done.
    destruct S; simpl; [split; [lia|done]|split; [done|lia]].
  - intros k Hj Hk. rewrite Z.leb_le. unfold required_successes.
    rewrite decide_False by (by rewrite Hj). rewrite decide_True by done. by rewrite Hk.
  - unfold satisfied. simpl. rewrite andb_true_iff, negb_true_iff, bool_decide_eq_false. done.
Qed.

Lemma join_counts_successes_witness :
  let g := FanOut ["a"; "b"; "c"] "quorum" (Some 2) in
  partial (resolve_join g [("a", "SUCCESS"); ("b", "FAILURE"); ("c", "SUCCESS")]) = true /\
  valid_group g.
Proof.
  cbv zeta.
  assert (Hv : valid_group (FanOut ["a"; "b"; "c"] "quorum" (Some 2))).
  { exists "Quorum ", (Some 2). vm_compute. reflexivity. }
  split; [|exact Hv].
  destruct (join_counts_successes _ [("a", "SUCCESS"); ("b", "FAILURE"); ("c", "SUCCESS")] Hv)
    as (_ & _ & _ & _ & _ & _ & _ & _ & H).
  apply H. vm_compute. split; [reflexivity|discriminate].
Defined.

(** The signature covers the routing: for flows whose decisions are data
    (named predicates, valid groups, no callable gates), equal canonical forms
    route every run alike: the same start, the same terminal nodes, and from
    every node and state, under every predicate registry, the same frontier or
    the same error, and the same group. So unless the digest collides on the
    two forms, a run whose recorded signature does not conflict with the current
    one is routed as it was planned; an absent signature never conflicts. *)
Lemma signature_covers_routing digest f1 f2 :
  data_flow f1 -> data_flow f2 ->
  (digest (canonical_of f1) = digest (canonical_of f2) -> canonical_of f1 = canonical_of f2) ->
  digest (canonical_of f1) <> "" -> digest (canonical_of f2) <> "" ->
  signatures_conflict (Some (flow_topology_signature digest f1))
    (Some (flow_topology_signature digest f2)) = false ->
  (forall s, signatures_conflict None s = false /\ signatures_conflict s None = false) /\
  f_start f1 = f_start f2 /\
  (forall n, n ∈ f_end f1 <-> n ∈ f_end f2) /\
  (forall reg n st, resolve_frontier reg n st f1 = resolve_frontier reg n st f2) /\
  (forall n, fan_out_group_for n f1 = fan_out_group_for n f2).
Proof.
  intros H1 H2 Hinj Hne1 Hne2 Hc. split; [by intros [[]|]|].
  assert (Hs : canonical_of f1 = canonical_of f2).
  { apply Hinj. unfold signatures_conflict, flow_topology_signature in Hc.
    destruct (digest (canonical_of f1)) eqn:E1, (digest (canonical_of f2)) eqn:E2; try done.
    apply bool_decide_eq_false in Hc. by apply dec_stable in Hc. }
  split; [by injection Hs|]. split; [|split].
  - intros n. injection Hs as _ He _. rewrite <- (py_sorted_perm (f_end f1)), <- (py_sorted_perm (f_end f2)).
    by rewrite He.
  - intros reg n st. rewrite !frontier_raw. by rewrite (same_canonical_raw f1 f2 n).
  - intros n. pose proof (same_canonical_raw f1 f2 n H1 H2 Hs) as E. unfold fan_out_group_for.
    assert (Hf : forall oe, match oe with BareGroup g => Some g | EdgeList l => first_group l end
      = first_group (raw_list oe)) by (by intros []).
    by rewrite !Hf, E.
Qed.

Lemma signature_covers_routing_witness :
  let g := FanOut ["b"; "c"] "all" None in
  let f1 := Flow "a" ["d"; "e"] [("a", BareGroup g); ("b", EdgeList [Plain "d"])] [] None in
  let f2 := Flow "a" ["e"; "d"] [("b", EdgeList [Plain "d"]); ("a", EdgeList [Group g])] [] None in
  resolve_frontier [] "a" [] f1 = resolve_frontier [] "a" [] f2 /\
  resolve_frontier [] "a" [] f1 = Ok ["b"; "c"].
Proof.
  cbv zeta. set (g := FanOut ["b"; "c"] "all" None).
  assert (Hg : valid_group g) by (exists "all", None; vm_compute; reflexivity).
  assert (H1 : data_flow (Flow "a" ["d"; "e"] [("a", BareGroup g); ("b", EdgeList [Plain "d"])] [] None)).
  { split; [apply (bool_decide_unpack _); vm_compute; exact I|]. intros n oe. simpl.
    repeat case_decide; intros [= <-]; by repeat constructor. }
  assert (H2 : data_flow (Flow "a" ["e"; "d"] [("b", EdgeList [Plain "d"]); ("a", EdgeList [Group g])] [] None)).
  { split; [apply (bool_decide_unpack _); vm_compute; exact I|]. intros n oe. simpl.
    repeat case_decide; intros [= <-]; by repeat constructor. }
  destruct (signature_covers_routing (fun _ => "digest") _ _ H1 H2) as (_ & _ & _ & H & _);
    [reflexivity|discriminate|discriminate|reflexivity|].
  split; [apply H|reflexivity].
Defined.

(** A list that mixes conditional edges with a plain fall-through raises an
    exception the runner does not catch. *)
Example mixed_edges_escape :
  resolve_frontier initial_predicates "a" []
    (Flow "a" ["c"] [("a", EdgeList [Cond (CondEdge (Some "b") (Some (fun _ => Ok false)) None); Plain "c"])] [] None)
  = Err (EOtherError "AttributeError").
Proof. reflexivity. Qed.
