(* ===== verification/FlowRunner.v ===== *)
(** * The flow runner

    runtime/flow_engine/runner.py, runner_steps.py, runner_completion.py,
    runner_failure.py and node_executor.py, with core/flow_history_fold.py,
    core/pending_request.py, event_router.py and the resume callback of
    core/flow_run_rehydration.py: one run driven node by node through its
    graph, with its history, its wait, its tenant slot and its outcome.

    The run's row, its FlowHistory, the resource manager, the events queued and
    the waits registered are the fields of [world]. A node body is application
    code: [nodes] maps a name to what the call returns or raises, a function of
    the attempt number and the state (an attempt number occurs once per node
    and resume, so this says nothing about two calls agreeing). Node bodies
    return patches and do not write the state; [_json_safe] is the identity on
    the values of the model. Result extraction, the clock, elapsed times and
    [str()] of non-strings are parameters. Error texts are cut to what tells the
    failures apart. The execution unit's row, memory capture and logging are not
    modelled. *)

From S2P Require Import Prelude PyStr PyVal RetryPolicy Syscalls ResourceManager StateMerge FlowGraph.
From Stdlib Require Import QArith.

Local Open Scope string_scope.
Local Open Scope Z_scope.
Local Open Scope list_scope.
Local Open Scope py_scope.

(** ** Data *)

Record flow_run := FRun {
  fr_status : string;
  fr_waiting_for : option string;
  fr_has_deadline : bool;
  fr_current_node : string;
  fr_state : state;
  fr_error : option string;
  fr_signature : option string
}.

(** A FlowHistory row. *)
Record hist := Hist {
  h_node : string;
  h_status : string;
  h_input : state;
  h_patch : pyval;
  h_seq : Z
}.

Inductive flow_event :=
| NodeStarted (node : string)
| NodeCompleted (node status : string)
| NodeFailed (node status : string)
| FlowWaiting (node event : string)
| ExecutionCompleted (partial_units : list pyval)
| ExecutionFailed (node error : string).

Record world := World {
  w_run : flow_run;
  w_history : list hist;
  w_rm : rm;
  w_holds_slot : bool;
  w_events : list flow_event;
  w_waits : list string
}.

Definition set_run (r : flow_run) (w : world) : world :=
  World r (w_history w) (w_rm w) (w_holds_slot w) (w_events w) (w_waits w).
Definition add_history (rows : list hist) (w : world) : world :=
  World (w_run w) (w_history w ++ rows) (w_rm w) (w_holds_slot w) (w_events w) (w_waits w).
Definition set_slot (m : rm) (held : bool) (w : world) : world :=
  World (w_run w) (w_history w) m held (w_events w) (w_waits w).
Definition emit (e : flow_event) (w : world) : world :=
  World (w_run w) (w_history w) (w_rm w) (w_holds_slot w) (w_events w ++ [e]) (w_waits w).
Definition register (ev : string) (w : world) : world :=
  World (w_run w) (w_history w) (w_rm w) (w_holds_slot w) (w_events w) (w_waits w ++ [ev]).

(** What [resume] returns; [Crashed]: an exception leaves the runner. *)
Inductive response :=
| RFailed (node error : string)
| RQuarantined
| RWaiting (event : string)
| RSkipped
| RHandoff (status : string)
| RSuccess (result : pyval) (partial_units : list pyval)
| Crashed.

Inductive node_outcome :=
| Raised (message : string)
| Returned (result : list (string * pyval)).

(** ** Pending requests (pending_request.py) *)

Definition PENDING_REQUEST_KEY : string := "__pending_request".
Definition RESUME_SCHEMA_KEY : string := "resume_schema".

Definition is_container (v : pyval) : bool := match v with VList _ | VDict _ => true | _ => false end.

(** [Err] is InvalidResumeSchema. *)
Definition build_pending_request (node event : string) (sch : pyval) : result string (option pyval) :=
  match sch with
  | VNone | VDict [] => Ok None
  | VDict d =>
      if forallb (fun k => match dict_get k d with Some v => is_container v | None => true end)
           ["required"; "properties"]
      then Ok (Some (VDict [("node", VStr node); ("event", VStr event); ("schema", VDict d)]))
      else Err "resume_schema"
  | _ => Err "resume_schema"
  end.

(** The declaration in the dialect of [validate_payload]; [None] outside it
    (a required name that is not a string, a property that is not a dict or
    whose type is a container, properties that are a list): there the validator
    raises or refuses. *)
Fixpoint required_names (l : list pyval) : option (list string) :=
  match l with
  | [] => Some []
  | VStr s :: l' => match required_names l' with Some r => Some (s :: r) | None => None end
  | _ => None
  end.

Fixpoint property_types (ps : list (string * pyval)) : option (list (string * option string)) :=
  match ps with
  | [] => Some []
  | (k, VDict q) :: ps' =>
      match property_types ps', py_get "type" q with
      | Some r, VStr t => Some ((k, Some t) :: r)
      | Some r, (VNone | VBool _ | VInt _ | VFloat _) => Some ((k, None) :: r)
      | _, _ => None
      end
  | _ => None
  end.

Definition schema_of (d : list (string * pyval)) : option schema :=
  match (match py_or (py_get "required" d) (VList []) with
         | VList l => required_names l
         | VDict r => Some (map fst r)
         | _ => None
         end),
        (match py_or (py_get "properties" d) (VDict []) with
         | VDict ps => property_types ps
         | _ => None
         end) with
  | Some req, Some props => Some (Schema req props)
  | _, _ => None
  end.

Inductive resume_check := Accepted | Untyped | Rejected (errors : list schema_error) | OutsideDialect.

Definition check_resume_payload (st : state) (payload : list (string * pyval)) : resume_check :=
  match py_get PENDING_REQUEST_KEY st with
  | VDict r =>
      match py_get "schema" r with
      | VDict ((_ :: _) as d) =>
          match schema_of d with
          | None => OutsideDialect
          | Some sc => match validate_payload (Some sc) payload with
                       | [] => Accepted
                       | errors => Rejected errors
                       end
          end
      | _ => Untyped
      end
  | _ => Untyped
  end.

(** ** History (flow_history_fold.py, _allocate_sequence_numbers) *)

Definition MERGED_STATUSES : list string := ["SUCCESS"; "WAIT"].

Definition patch_of (v : pyval) : option patch :=
  match v with
  | VDict d => Some d
  | _ => if py_truth v then None else Some []
  end.

Definition fold_flow_history_state (rows : list hist) : state :=
  match last rows with
  | None => []
  | Some row =>
      if decide (str_upper (h_status row) ∈ MERGED_STATUSES)
      then dict_update (h_input row) (default [] (patch_of (h_patch row)))
      else h_input row
  end.

Definition highest_seq (rows : list hist) : Z := foldr (fun r m => Z.max (h_seq r) m) 0 rows.

Definition allocate_sequence_numbers (rows : list hist) (count : nat) : list Z :=
  map (fun i => highest_seq rows + Z.of_nat i) (seq 1 count).

Section Runner.
Variable render : pyval -> string.
Variable float_add : pyval -> pyval -> Q.
Variable cfg : config.
Variable fl : flow.
Variable preds : list (string * pred).
Variable nodes : list (string * (Z -> state -> node_outcome)).
Variable blocked_nodes : list string.
Variable tenant : string.
Variable eu_id : option string.
Variable clock : nat -> Z.
Variable elapsed : string -> Z -> Z.
Variable extract : state -> result string pyval.
Variable digest : canonical -> string.

Definition now (w : world) : Z := clock (length (w_history w)).
Definition eu_str : string := default "" eu_id.
Definition counts : Type := list (string * Z).

(** ** Failure and slots *)

Definition release_slot_on_completion (w : world) : world :=
  if w_holds_slot w then set_slot (mark_completed cfg tenant eu_id (w_rm w)).1 false w else w.

Definition release_slot_on_wait (w : world) : world :=
  if w_holds_slot w then set_slot (mark_waiting cfg tenant (w_rm w)).1 false w else w.

Definition fail_execution (w : world) (node err : string) : world * response :=
  let r := w_run w in
  let w := set_run (FRun "failed" None false (fr_current_node r) (fr_state r) (Some err) (fr_signature r)) w in
  (emit (ExecutionFailed node err) (release_slot_on_completion w), RFailed node err).

(** The wait a run is parked on: row, deadline and scheduler registration. *)
Definition park (w : world) (st : state) (node event : string) : world :=
  let r := w_run w in
  set_run (FRun "waiting" (Some event) true node st (fr_error r) (fr_signature r)) w.

Definition check_resources (w : world) (st : state) (node : string) : world * option response :=
  let '(w, can_run) :=
    if w_holds_slot w then (w, true)
    else let '(m, ok) := can_execute cfg (now w) tenant (w_rm w) in
         if ok then (set_slot (mark_started (now w) tenant eu_id m) true w, true)
         else (set_slot m false w, false) in
  if can_run then
    let '(m, q) := check_quota cfg (now w) eu_str (w_rm w) in
    let w := set_slot m (w_holds_slot w) w in
    match q with
    | QuotaOk => (w, None)
    | _ => let '(w, resp) := fail_execution w node "RESOURCE_LIMIT_EXCEEDED" in (w, Some resp)
    end
  else
    (register "resource_available" (park w st node "resource_available"),
     Some (RWaiting "resource_available")).

(** ** Executing a node *)

Definition execute_node (attempts : counts) (node : string) (st : state) : counts * node_outcome :=
  if decide (node ∈ blocked_nodes) then (attempts, Raised "blocked by policy")
  else match dict_get node nodes with
       | None => (attempts, Raised "not in registry")
       | Some fn => let attempt := counter node attempts + 1 in
                    (dict_set node attempt attempts, fn attempt st)
       end.

Definition record_resource_usage (w : world) (exec_ms : Z) : world :=
  match eu_id with
  | None | Some "" => w
  | Some eid => set_slot (record_usage (now w) eid exec_ms 0 0 0 (w_rm w)) (w_holds_slot w) w
  end.

(** ** Fan-out supersteps *)

Record branch := Branch {
  br_node : string;
  br_result : option (list (string * pyval));
  br_raised : string
}.

(** Results in declaration order, whatever order the branches ran in. *)
Fixpoint run_fan_out_branches (attempts : counts) (ts : list string) (st : state) : counts * list branch :=
  match ts with
  | [] => (attempts, [])
  | t :: ts' =>
      let '(attempts, o) := execute_node attempts t st in
      let '(attempts, bs) := run_fan_out_branches attempts ts' st in
      (attempts, match o with
                 | Raised m => Branch t None m
                 | Returned r => Branch t (Some r) ""
                 end :: bs)
  end.

Definition branch_status (b : branch) : string :=
  match br_result b with
  | Some r => py_str render (default (VStr "FAILURE") (dict_get "status" r))
  | None => "FAILURE"
  end.

Definition branch_patch (b : branch) : pyval :=
  match br_result b with
  | Some r => py_or (py_get "output_patch" r) (VDict [])
  | None => VDict []
  end.

Definition branch_error (b : branch) : pyval :=
  let own := match br_result b with Some r => py_get "error" r | None => VStr (br_raised b) end in
  if py_truth own then own
  else match br_result b with Some _ => VNone | None => VStr (br_raised b) end.

(** The patches that land, or [None] when one is not a mapping. *)
Fixpoint landed (bs : list (string * string * pyval)) : option (list (string * patch)) :=
  match bs with
  | [] => Some []
  | (node, status, p) :: bs' =>
      if decide (status ∈ MERGED_STATUSES) then
        match patch_of p, landed bs' with
        | Some q, Some l => Some ((node, q) :: l)
        | _, _ => None
        end
      else landed bs'
  end.

(** [_merge_superstep]: the state as the merge leaves it, and whether it raised. *)
Definition merge_superstep (st : state) (bs : list (string * string * pyval)) : state * bool :=
  match landed bs with
  | None => (st, false)
  | Some l => let '(st', err) := merge_state render float_add st l (declared_policies (f_policies fl)) in
              (st', match err with None => true | Some _ => false end)
  end.

Definition join_label (g : FanOutEdgeGroup) : string :=
  if decide (join g = JOIN_QUORUM)
  then JOIN_QUORUM +:+ ":" +:+ match quorum g with Some k => render (VInt k) | None => "None" end
  else join g.

Definition PARTIALS_KEY : string := "_superstep_partials".

Definition partial_record (superstep : string) (g : FanOutEdgeGroup) (o : JoinOutcome) (bs : list branch) : pyval :=
  VDict [("superstep", VStr superstep); ("join", VStr (join_label g));
         ("succeeded", VList (map VStr (jo_succeeded o)));
         ("failed", VList (map (fun t =>
            VDict [("branch", VStr t);
                   ("error", match list_find (fun b => br_node b = t) bs with
                             | Some (_, b) => branch_error b | None => VNone end)]) (jo_failed o)))].

(** [list(state.get(k) or [])] with one record appended; [None] where [list] raises. *)
Definition add_partial (st : state) (rec : pyval) : option state :=
  match py_list (py_or (py_get PARTIALS_KEY st) (VList [])) with
  | Some l => Some (dict_set PARTIALS_KEY (VList (l ++ [rec])) st)
  | None => None
  end.

(** [resolve_next_node] for each succeeding branch. *)
Fixpoint successors (st : state) (ts : list string) : result edge_error (list next) :=
  match ts with
  | [] => Ok []
  | t :: ts' => let? n := resolve_next_node preds t st fl in
                let? ns := successors st ts' in Ok (n :: ns)
  end.

Inductive step_next := Next (t : string) | StepFail (msg : string) | StepCrash.

(** The common successor, when there is exactly one and it is a node. *)
Definition converge (ns : list next) : step_next :=
  match remove_dups ns with
  | [NextNode t] => Next t
  | [NextGroup _] => StepCrash
  | _ => StepFail "did not converge"
  end.

Definition history_rows (w : world) (input : state) (bs : list branch) : list hist :=
  zip_with (fun b n => Hist (br_node b) (branch_status b) input (branch_patch b) n) bs
    (allocate_sequence_numbers (w_history w) (length bs)).

Definition execute_superstep (w : world) (attempts : counts) (st : state) (ts : list string)
    : world * counts * state * step_next :=
  let g := default (FanOut ts JOIN_ALL None) (fan_out_group_for (fr_current_node (w_run w)) fl) in
  let '(attempts, bs) := run_fan_out_branches attempts ts st in
  if existsb (fun b => bool_decide (branch_status b = "WAIT")) bs
  then (w, attempts, st, StepFail "WAIT refused")
  else
    let w := add_history (history_rows w st bs) w in
    let '(st, merged) := merge_superstep st (map (fun b => (br_node b, branch_status b, branch_patch b)) bs) in
    if merged then
      let o := resolve_join g (map (fun b => (br_node b, branch_status b)) bs) in
      if satisfied o then
        match (if partial o then add_partial st (partial_record (fr_current_node (w_run w)) g o bs)
               else Some st) with
        | None => (w, attempts, st, StepFail "partials")
        | Some st =>
            match successors st (jo_succeeded o) with
            | Err _ => (w, attempts, st, StepFail "edge")
            | Ok ns => (w, attempts, st, converge ns)
            end
        end
      else (w, attempts, st, StepFail "join not satisfied")
    else (w, attempts, st, StepFail "merge conflict").

(** ** Completion *)

(** [_extract_async_handoff]: the status of a result that was only queued. *)
Definition extract_async_handoff (res : pyval) : option string :=
  match res with
  | VDict d =>
      match py_eq (py_get "_http_status" d) (VInt 202), py_get "_http_response" d with
      | true, VDict resp => Some (str_upper (py_str render (py_or (py_get "status" resp) (VStr "QUEUED"))))
      | _, _ =>
          let status := str_upper (py_str render (py_or (py_get "status" d) (VStr ""))) in
          if decide (status ∈ ["QUEUED"; "DEFERRED"]) then Some status else None
      end
  | _ => None
  end.

(** [_superstep_partial_units]; [None] where an entry is malformed and the
    loop raises. *)
Fixpoint failed_units (superstep join : pyval) (failed : list pyval) : option (list pyval) :=
  match failed with
  | [] => Some []
  | VDict f :: failed' =>
      match failed_units superstep join failed' with
      | Some r => Some (VDict [("superstep", superstep); ("join", join);
                               ("branch", py_get "branch" f); ("error", py_get "error" f)] :: r)
      | None => None
      end
  | _ => None
  end.

Fixpoint entry_units (entries : list pyval) : option (list pyval) :=
  match entries with
  | [] => Some []
  | VDict e :: entries' =>
      match py_list (py_or (py_get "failed" e) (VList [])), entry_units entries' with
      | Some fs, Some r => match failed_units (py_get "superstep" e) (py_get "join" e) fs with
                           | Some us => Some (us ++ r)
                           | None => None
                           end
      | _, _ => None
      end
  | _ => None
  end.

Definition superstep_partial_units (st : state) : option (list pyval) :=
  match py_list (py_or (py_get PARTIALS_KEY st) (VList [])) with
  | Some l => entry_units l
  | None => None
  end.

Definition maybe_finalize_completion (w : world) (st : state) (node : string) : world * option response :=
  if decide (node ∈ f_end fl) then
    let fail w := let '(w, resp) := fail_execution w node "Completion finalization failed" in (w, Some resp) in
    match extract st with
    | Err _ => fail w
    | Ok res =>
        let r := w_run w in
        match extract_async_handoff res with
        | Some status =>
            (set_run (FRun (str_lower status) None false node st (fr_error r) (fr_signature r)) w,
             Some (RHandoff status))
        | None =>
            let w := release_slot_on_completion w in
            let w := set_run (FRun "success" None false (fr_current_node r) st (fr_error r) (fr_signature r)) w in
            match superstep_partial_units st with
            | Some units => (emit (ExecutionCompleted units) w, Some (RSuccess res units))
            | None => fail w
            end
        end
    end
  else (w, None).

(** ** Node status *)

Inductive handled := HRetry | HRespond (r : response) | HAdvance.

(** [lift] a completion into the three-way answer of [_handle_node_status]. *)
Definition finalize (w : world) (st : state) (node : string) : world * state * handled :=
  let '(w, resp) := maybe_finalize_completion w st node in
  (w, st, match resp with Some r => HRespond r | None => HAdvance end).

Definition failing (w : world) (st : state) (node err : string) : world * state * handled :=
  let '(w, resp) := fail_execution w node err in (w, st, HRespond resp).

Definition handle_node_status (w : world) (attempts : counts) (st : state) (node : string)
    (res : list (string * pyval)) (status : string) : world * state * handled :=
  if decide (status = "SUCCESS") then finalize w (dict_del PENDING_REQUEST_KEY st) node
  else if decide (status = "RETRY") then
    let tried := counter node attempts in
    let policy := resolve_retry_policy (Some "flow") None (dict_get node (f_node_max_retries fl)) None in
    if (decide_retry render (VDict res) "flow_node" tried (tried <? max_attempts policy)).1
    then (w, st, HRetry)
    else failing w st node "failed after retries"
  else if decide (status = "FAILURE") then
    failing w st node (py_str render (default (VStr ("Node " +:+ node +:+ " failed")) (dict_get "error" res)))
  else if decide (status = "WAIT") then
    let wait_for := py_get "wait_for" res in
    if py_truth wait_for then
      let event := py_str render wait_for in
      match build_pending_request node event (py_get RESUME_SCHEMA_KEY res) with
      | Err e => failing w st node e
      | Ok pending =>
          let st := match pending with
                    | Some rec => dict_set PENDING_REQUEST_KEY rec st
                    | None => dict_del PENDING_REQUEST_KEY st
                    end in
          let w := register event (release_slot_on_wait (park w st node event)) in
          (emit (FlowWaiting node event) w, st, HRespond (RWaiting event))
      end
    else failing w st node "WAIT without wait_for"
  else finalize w st node.

(** ** The loop *)

Inductive step :=
| Continue (w : world) (attempts : counts) (st : state) (node : string)
| Done (w : world) (st : state) (resp : response).

Definition advance_to_next_node (w : world) (attempts : counts) (st : state) (node : string) : step :=
  let fail w st msg := let '(w, resp) := fail_execution w node msg in Done w st resp in
  let go w attempts st t :=
    if decide (t = "") then fail w st "No next node"
    else let r := w_run w in
         Continue (set_run (FRun (fr_status r) (fr_waiting_for r) (fr_has_deadline r) t st (fr_error r)
                              (fr_signature r)) w) attempts st t in
  match resolve_frontier preds node st fl with
  | Err (EOtherError _) => Done w st Crashed
  | Err _ => fail w st "cannot resolve the edge"
  | Ok [] => fail w st "No next node"
  | Ok [t] => go w attempts st t
  | Ok ts =>
      match execute_superstep w attempts st ts with
      | (w, attempts, st, Next t) => go w attempts st t
      | (w, attempts, st, StepFail msg) => fail w st msg
      | (w, attempts, st, StepCrash) => Done w st Crashed
      end
  end.

(** One iteration of the [while] loop of [resume]. *)
Definition iterate (w : world) (attempts : counts) (st : state) (node : string) : step :=
  let w := emit (NodeStarted node) w in
  let '(w, refused) := check_resources w st node in
  match refused with
  | Some resp => Done w st resp
  | None =>
      let '(attempts, o) := execute_node attempts node st in
      match o with
      | Raised msg =>
          let '(w, resp) := fail_execution (emit (NodeFailed node "raised") w) node msg in Done w st resp
      | Returned res =>
          let w := record_resource_usage w (elapsed node (counter node attempts)) in
          match dict_get "status" res with
          | Some (VStr status) =>
              let p := default (VDict []) (dict_get "output_patch" res) in
              let w := add_history
                [Hist node status st p (highest_seq (w_history w) + 1)] w in
              let w := emit (if decide (status ∈ MERGED_STATUSES) then NodeCompleted node status
                             else NodeFailed node status) w in
              let '(st, merged) := merge_superstep st [(node, status, p)] in
              if merged then
                match handle_node_status w attempts st node res status with
                | (w, st, HRetry) => Continue w attempts st node
                | (w, st, HRespond resp) => Done w st resp
                | (w, st, HAdvance) => advance_to_next_node w attempts st node
                end
              else Done w st Crashed
          | _ => Done w st Crashed
          end
      end
  end.

(** [None]: the loop is still running when the fuel is used up. *)
Fixpoint run_loop (fuel : nat) (w : world) (attempts : counts) (st : state) (node : string)
    : option (world * state * response) :=
  match fuel with
  | O => None
  | S f => match iterate w attempts st node with
           | Done w st resp => Some (w, st, resp)
           | Continue w attempts st node => run_loop f w attempts st node
           end
  end.

(** ** Entry points *)

(** [move_to_dead_letter]: only from [waiting]. *)
Definition move_to_dead_letter (w : world) (reason : string) : world :=
  let r := w_run w in
  if decide (fr_status r = "waiting")
  then set_run (FRun "dead_letter" None false (fr_current_node r) (fr_state r) (Some reason) (fr_signature r)) w
  else w.

(** [resume] of an existing run by a fresh runner; [claimed] says whether this
    instance's claim of a waiting row updated it; [trace] is the trace id
    written into a state that has none. *)
Definition resume (fuel : nat) (claimed : bool) (trace : string) (w : world)
    : option (world * state * response) :=
  let r := w_run w in
  if signatures_conflict (fr_signature r) (Some (flow_topology_signature digest fl))
  then Some (move_to_dead_letter w "flow topology changed", fr_state r, RQuarantined)
  else if bool_decide (fr_status r = "waiting") && negb claimed
  then Some (w, fr_state r, RSkipped)
  else
    let r := if decide (fr_status r = "waiting")
             then FRun "executing" None false (fr_current_node r) (fr_state r) (fr_error r) (fr_signature r)
             else r in
    let st := if py_truth (py_get "trace_id" (fr_state r)) then fr_state r
              else dict_set "trace_id" (VStr trace) (fr_state r) in
    let w := set_run (FRun (fr_status r) (fr_waiting_for r) (fr_has_deadline r) (fr_current_node r) st
                        (fr_error r) (fr_signature r)) w in
    run_loop fuel w [] st (fr_current_node r).

(** [start]: the row of a new run, and its first resume. *)
Definition start (fuel : nat) (trace root_event : string) (initial : state) (history : list hist) (m : rm)
    : option (world * state * response) :=
  let st := if py_truth (py_get "trace_id" initial) then initial
            else dict_set "trace_id" (VStr trace) initial in
  let st := if decide (root_event = "") then st else dict_set "root_event_id" (VStr root_event) st in
  let r := FRun "running" None false (f_start fl) st None (Some (flow_topology_signature digest fl)) in
  resume fuel true trace (World r history m false [] []).

(** The scheduler's callback ([build_flow_resume_callback]): it claims the
    row itself, then resumes. *)
Definition resume_callback (fuel : nat) (trace : string) (w : world) : option (world * state * response) :=
  let r := w_run w in
  if decide (fr_status r = "waiting") then
    resume fuel true trace
      (set_run (FRun "executing" (fr_waiting_for r) (fr_has_deadline r) (fr_current_node r) (fr_state r)
                  (fr_error r) (fr_signature r)) w)
  else Some (w, fr_state r, RSkipped).

(** [route_event] addressed to one run ([run_id] given): the payload is
    checked before anything is written; [Err] is ResumePayloadRejected, and
    [Ok false] a run that is not waiting. *)
Definition route_event (payload : list (string * pyval)) (w : world)
    : result (list schema_error) (world * bool) :=
  let r := w_run w in
  if decide (fr_status r = "waiting") then
    match check_resume_payload (fr_state r) payload with
    | Rejected errors => Err errors
    | OutsideDialect => Err []
    | _ => Ok (set_run (FRun (fr_status r) (fr_waiting_for r) (fr_has_deadline r) (fr_current_node r)
                          (dict_set "event" (VDict payload) (fr_state r)) (fr_error r) (fr_signature r)) w, true)
    end
  else Ok (w, false).

(** ** Slots along the loop *)

(** The counters differ from [m0] by the slot this runner holds, if any. *)
Definition slot_inv (m0 : rm) (w : world) : Prop :=
  0 <= get_tenant_active tenant m0 /\
  forall t, get_tenant_active t (w_rm w)
            = get_tenant_active t m0 + (if w_holds_slot w && bool_decide (t = tenant) then 1 else 0).

Lemma slot_inv_same m0 w w' :
  same_counts (w_rm w) (w_rm w') -> w_holds_slot w' = w_holds_slot w -> slot_inv m0 w -> slot_inv m0 w'.
Proof.
  intros Hs Hh [H0 H]. split; [done|]. intros t. rewrite (same_counts_active _ _ t Hs), Hh. apply H.
Qed.

Lemma slot_inv_release m0 w m' :
  slot_inv m0 w -> w_holds_slot w = true ->
  (forall t, get_tenant_active t m' = get_tenant_active t (w_rm w) - (if decide (tenant = t) then 1 else 0)) ->
  slot_inv m0 (set_slot m' false w).
Proof.
  intros [H0 H] Hh Hm. split; [done|]. intros t. simpl. rewrite Hm, H, Hh. simpl.
  destruct (decide (tenant = t)) as [->|Hne]; [rewrite bool_decide_eq_true_2 by done; lia|].
  rewrite bool_decide_eq_false_2 by congruence. lia.
Qed.

Lemma release_slot_counts m0 w :
  slot_inv m0 w -> w_holds_slot w = true ->
  forall t, get_tenant_active t (release_slot tenant (w_rm w)).1.1
            = get_tenant_active t (w_rm w) - (if decide (tenant = t) then 1 else 0).
Proof.
  intros [H0 H] Hh t. assert (Hpos : 0 < get_tenant_active tenant (w_rm w)).
  { rewrite H, Hh, bool_decide_eq_true_2 by done. simpl. lia. }
  pose proof (release_slot_active tenant t (w_rm w) Hpos) as Hr.
  destruct (release_slot tenant (w_rm w)) as [[r' b] a]. by destruct Hr as [? _].
Qed.

Lemma slot_completion m0 w :
  slot_inv m0 w -> slot_inv m0 (release_slot_on_completion w) /\ w_holds_slot (release_slot_on_completion w) = false.
Proof.
  intros Hi. unfold release_slot_on_completion. destruct (w_holds_slot w) eqn:Hh; [|done]. split; [|done].
  apply slot_inv_release; [done|done|]. intros t. rewrite <- (release_slot_counts m0 w Hi Hh).
  unfold mark_completed. destruct (release_slot tenant (w_rm w)) as [[r' b] a]. simpl.
  apply same_counts_active, add_purge_counts.
Qed.

Lemma slot_wait m0 w :
  slot_inv m0 w -> slot_inv m0 (release_slot_on_wait w) /\ w_holds_slot (release_slot_on_wait w) = false.
Proof.
  intros Hi. unfold release_slot_on_wait. destruct (w_holds_slot w) eqn:Hh; [|done]. split; [|done].
  apply slot_inv_release; [done|done|]. intros t. rewrite <- (release_slot_counts m0 w Hi Hh).
  unfold mark_waiting. by destruct (release_slot tenant (w_rm w)) as [[r' b] a].
Qed.

Lemma slot_fail m0 w node err :
  slot_inv m0 w ->
  slot_inv m0 (fail_execution w node err).1 /\ w_holds_slot (fail_execution w node err).1 = false /\
  exists n e, (fail_execution w node err).2 = RFailed n e.
Proof.
  intros Hi. unfold fail_execution. set (w1 := set_run _ w).
  assert (Hi1 : slot_inv m0 w1) by (eapply slot_inv_same; [| |exact Hi]; done).
  destruct (slot_completion m0 w1 Hi1) as [H1 H2]. split_and!; [|done|by eauto].
  eapply slot_inv_same; [| |exact H1]; done.
Qed.

(** Responses after which the runner must hold nothing. *)
Definition final_slot (w : world) (resp : response) : Prop :=
  match resp with
  | RHandoff _ => w_holds_slot w = true
  | Crashed => True
  | _ => w_holds_slot w = false
  end.

Lemma slot_fail_final m0 w node err :
  slot_inv m0 w ->
  slot_inv m0 (fail_execution w node err).1 /\ final_slot (fail_execution w node err).1 (fail_execution w node err).2.
Proof. intros Hi. destruct (slot_fail m0 w node err Hi) as (H1 & H2 & n & e & ->). done. Qed.

Lemma slot_check m0 w st node :
  slot_inv m0 w ->
  slot_inv m0 (check_resources w st node).1 /\
  match (check_resources w st node).2 with
  | Some resp => final_slot (check_resources w st node).1 resp
  | None => w_holds_slot (check_resources w st node).1 = true
  end.
Proof.
  intros Hi. unfold check_resources.
  set (adm := if w_holds_slot w then (w, true) else _).
  assert (Ha : slot_inv m0 adm.1 /\ w_holds_slot adm.1 = adm.2).
  { unfold adm. destruct (w_holds_slot w) eqn:Hh; [done|].
    pose proof (can_execute_counts cfg (now w) tenant (w_rm w)) as Hc.
    destruct (can_execute cfg (now w) tenant (w_rm w)) as [m ok]. simpl in Hc.
    destruct ok; simpl; (split; [|done]); destruct Hi as [H0 H]; (split; [done|]); intros t; simpl.
    - destruct (mark_started_active (now w) tenant eu_id t m) as [-> _].
      rewrite (same_counts_active _ _ t Hc), H, Hh. simpl.
      destruct (decide (tenant = t)) as [->|]; [rewrite bool_decide_eq_true_2 by done; lia|].
      rewrite bool_decide_eq_false_2 by congruence. lia.
    - rewrite (same_counts_active _ _ t Hc), H, Hh. done. }
  destruct adm as [w1 can_run]. simpl in Ha. destruct Ha as [Hi1 Hh1]. destruct can_run.
  - pose proof (check_quota_counts cfg (now w1) eu_str (w_rm w1)) as Hq.
    destruct (check_quota cfg (now w1) eu_str (w_rm w1)) as [m q]. simpl in Hq.
    assert (Hi2 : slot_inv m0 (set_slot m (w_holds_slot w1) w1)) by (by eapply slot_inv_same; [| |exact Hi1]).
    destruct q; [done| |];
      (pose proof (slot_fail_final m0 _ node "RESOURCE_LIMIT_EXCEEDED" Hi2) as Hf;
       destruct (fail_execution _ _ _) as [w2 resp]; done).
  - simpl. split; [|done]. eapply slot_inv_same; [| |exact Hi1]; done.
Qed.

Lemma slot_record m0 w ms :
  slot_inv m0 w ->
  slot_inv m0 (record_resource_usage w ms) /\ w_holds_slot (record_resource_usage w ms) = w_holds_slot w.
Proof.
  intros Hi. unfold record_resource_usage. destruct eu_id as [[|c e]|]; [done| |done]. split; [|done].
  eapply slot_inv_same; [| |exact Hi]; [|done]. simpl. apply record_usage_counts.
Qed.

Lemma slot_finalize m0 w st node :
  slot_inv m0 w -> w_holds_slot w = true ->
  let '(w', _, h) := finalize w st node in
  slot_inv m0 w' /\ match h with HRespond resp => final_slot w' resp | _ => True end.
Proof.
  intros Hi Hh. unfold finalize, maybe_finalize_completion. case_decide as Hend; [|done].
  assert (Hf : forall w1, slot_inv m0 w1 -> let '(w', resp) := (let '(w0, resp) :=
    fail_execution w1 node "Completion finalization failed" in (w0, Some resp)) in
    slot_inv m0 w' /\ match resp with Some resp => final_slot w' resp | None => True end).
  { intros w1 Hi1. pose proof (slot_fail_final m0 w1 node "Completion finalization failed" Hi1) as H1.
    by destruct (fail_execution w1 node "Completion finalization failed"). }
  cbv zeta. destruct (extract st) as [res|e].
  - destruct (extract_async_handoff res) as [status|].
    + split; [|done]. eapply slot_inv_same; [| |exact Hi]; done.
    + destruct (slot_completion m0 w Hi) as [H1 H2].
      set (w1 := set_run _ (release_slot_on_completion w)).
      assert (Hi1 : slot_inv m0 w1) by (eapply slot_inv_same; [| |exact H1]; done).
      destruct (superstep_partial_units st).
      * split; [|done]. eapply slot_inv_same; [| |exact Hi1]; done.
      * specialize (Hf w1 Hi1). destruct (fail_execution w1 _ _). done.
  - specialize (Hf w Hi). destruct (fail_execution w _ _). done.
Qed.

Lemma slot_failing m0 w st node err :
  slot_inv m0 w ->
  let '(w', _, h) := failing w st node err in
  slot_inv m0 w' /\ match h with HRespond resp => final_slot w' resp | _ => True end.
Proof.
  intros Hi. unfold failing. pose proof (slot_fail_final m0 w node err Hi). by destruct (fail_execution w node err).
Qed.

Lemma slot_handle m0 w attempts st node res status :
  slot_inv m0 w -> w_holds_slot w = true ->
  let '(w', _, h) := handle_node_status w attempts st node res status in
  slot_inv m0 w' /\ match h with HRespond resp => final_slot w' resp | _ => True end.
Proof.
  intros Hi Hh. unfold handle_node_status. case_decide; [by apply slot_finalize|].
  case_decide; [cbv zeta; case_bool; [done|by apply slot_failing]|].
  case_decide; [by apply slot_failing|]. case_decide; [|by apply slot_finalize].
  cbv zeta. case_bool; [|by apply slot_failing].
  destruct (build_pending_request _ _ _) as [pending|e]; [|by apply slot_failing].
  set (st1 := match pending with Some _ => _ | None => _ end).
  set (w1 := park w st1 node _).
  assert (Hi1 : slot_inv m0 w1) by (eapply slot_inv_same; [| |exact Hi]; done).
  destruct (slot_wait m0 w1 Hi1) as [Hs1 Hs2]. split; [|done].
  eapply slot_inv_same; [| |exact Hs1]; done.
Qed.

Definition step_slots (m0 : rm) (s : step) : Prop :=
  match s with
  | Continue w _ _ _ => slot_inv m0 w
  | Done w _ resp => slot_inv m0 w /\ final_slot w resp
  end.

Lemma superstep_world w attempts st ts :
  let '(w', _, _, _) := execute_superstep w attempts st ts in
  w_rm w' = w_rm w /\ w_holds_slot w' = w_holds_slot w /\ w_run w' = w_run w.
Proof.
  unfold execute_superstep. destruct (run_fan_out_branches attempts ts st) as [att bs].
  case_bool; [done|]. destruct (merge_superstep st _) as [st1 merged]. destruct merged; [|done].
  cbv zeta. case_bool; [|done]. destruct (if partial _ then _ else _) as [st2|]; [|done].
  by destruct (successors st2 _).
Qed.

Lemma slot_advance m0 w attempts st node :
  slot_inv m0 w -> step_slots m0 (advance_to_next_node w attempts st node).
Proof.
  intros Hi. unfold advance_to_next_node.
  assert (Hf : forall w1 st1 msg, slot_inv m0 w1 ->
    step_slots m0 (let '(w0, resp) := fail_execution w1 node msg in Done w0 st1 resp)).
  { intros w1 st1 msg Hi1. pose proof (slot_fail_final m0 w1 node msg Hi1). by destruct (fail_execution w1 node msg). }
  assert (Hgo : forall w1 att st1 t, slot_inv m0 w1 -> step_slots m0
    (if decide (t = "") then (let '(w0, resp) := fail_execution w1 node "No next node" in Done w0 st1 resp)
     else Continue (set_run (FRun (fr_status (w_run w1)) (fr_waiting_for (w_run w1)) (fr_has_deadline (w_run w1))
       t st1 (fr_error (w_run w1)) (fr_signature (w_run w1))) w1) att st1 t)).
  { intros w1 att st1 t Hi1. case_decide; [by apply Hf|]. simpl. eapply slot_inv_same; [| |exact Hi1]; done. }
  cbv zeta. destruct (resolve_frontier preds node st fl) as [[|t [|t2 ts]]|[]]; try (by apply Hf); try (by apply Hgo); [|done].
  pose proof (superstep_world w attempts st (t :: t2 :: ts)) as Hw.
  destruct (execute_superstep w attempts st (t :: t2 :: ts)) as [[[w1 att] st1] nx].
  destruct Hw as (Hrm & Hh & _).
  assert (Hi1 : slot_inv m0 w1) by (apply (slot_inv_same m0 w w1); [rewrite Hrm; apply same_counts_refl|done|done]).
  destruct nx; [by apply Hgo|by apply Hf|done].
Qed.

Lemma slot_iterate m0 w attempts st node : slot_inv m0 w -> step_slots m0 (iterate w attempts st node).
Proof.
  intros Hi. unfold iterate. cbv zeta. set (w0 := emit (NodeStarted node) w).
  assert (Hi0 : slot_inv m0 w0) by (eapply slot_inv_same; [| |exact Hi]; done).
  destruct (slot_check m0 w0 st node Hi0) as [Hi1 Hfin].
  destruct (check_resources w0 st node) as [w1 refused]. simpl in *. destruct refused as [resp|]; [done|].
  destruct (execute_node attempts node st) as [att o]. destruct o as [msg|res].
  - assert (Hi2 : slot_inv m0 (emit (NodeFailed node "raised") w1)) by (eapply slot_inv_same; [| |exact Hi1]; done).
    exact (slot_fail_final m0 _ node msg Hi2).
  - destruct (slot_record m0 w1 (elapsed node (counter node att)) Hi1) as [Hi2 Hh2].
    destruct (dict_get "status" res) as [[| | | |status| |]|]; try done.
    set (w2 := emit _ (add_history _ _)).
    assert (Hi3 : slot_inv m0 w2) by (eapply slot_inv_same; [| |exact Hi2]; done).
    assert (Hh3 : w_holds_slot w2 = true) by (unfold w2; simpl; congruence).
    destruct (merge_superstep st _) as [st1 merged]. destruct merged; [|done].
    pose proof (slot_handle m0 w2 att st1 node res status Hi3 Hh3) as Hs.
    destruct (handle_node_status w2 att st1 node res status) as [[w4 st4] h]. destruct Hs as [Hi4 Hf4].
    destruct h; [done|done|by apply slot_advance].
Qed.

Lemma slot_loop m0 fuel w attempts st node w' st' resp :
  slot_inv m0 w -> run_loop fuel w attempts st node = Some (w', st', resp) ->
  slot_inv m0 w' /\ final_slot w' resp.
Proof.
  revert w attempts st node. induction fuel as [|f IH]; intros w att st node Hi; [done|]. simpl.
  pose proof (slot_iterate m0 w att st node Hi) as Hs. destruct (iterate w att st node) as [w1 att1 st1 n1|w1 st1 r1].
  - apply IH, Hs.
  - intros [= <- <- <-]. exact Hs.
Qed.

(** ** History along the loop *)

Definition seqs_ok (rows : list hist) : Prop :=
  map h_seq rows = map Z.of_nat (seq 1 (length rows)).

Lemma highest_seq_ok rows : seqs_ok rows -> highest_seq rows = Z.of_nat (length rows).
Proof.
  unfold seqs_ok, highest_seq. intros H.
  assert (E : foldr (fun r m => Z.max (h_seq r) m) 0 rows = foldr Z.max 0 (map h_seq rows)).
  { clear. induction rows as [|r rows IH]; simpl; [done|]. by rewrite IH. }
  rewrite E, H. clear. generalize (length rows) as n.
  assert (Happ : forall l x, foldr Z.max 0 (l ++ [x]) = Z.max (foldr Z.max 0 l) (Z.max x 0)).
  { induction l as [|y l IH]; intros x; simpl; [lia|]. rewrite IH. lia. }
  induction n as [|n IH]; [done|]. rewrite seq_S, map_app. simpl. rewrite Happ, IH. lia.
Qed.

Lemma seqs_app rows new :
  seqs_ok rows -> map h_seq new = allocate_sequence_numbers rows (length new) -> seqs_ok (rows ++ new).
Proof.
  intros H Hn. unfold seqs_ok. rewrite map_app, length_app, seq_app, map_app, Hn, H. f_equal.
  unfold allocate_sequence_numbers. rewrite (highest_seq_ok rows H), Nat.add_comm.
  rewrite <- (fmap_add_seq (length rows) 1). rewrite map_map. apply map_ext. intros i. lia.
Qed.

Lemma history_rows_seqs w input bs :
  map h_seq (history_rows w input bs) = allocate_sequence_numbers (w_history w) (length (history_rows w input bs)).
Proof.
  unfold history_rows.
  assert (Hl : length (allocate_sequence_numbers (w_history w) (length bs)) = length bs)
    by (unfold allocate_sequence_numbers; by rewrite length_map, length_seq).
  rewrite length_zip_with, Hl, Nat.min_id. revert Hl.
  generalize (allocate_sequence_numbers (w_history w) (length bs)) as ns. clear.
  induction bs as [|b bs IH]; intros [|n ns] Hl; try done. simpl. f_equal. apply IH. by injection Hl.
Qed.

Lemma fail_history w node err : w_history (fail_execution w node err).1 = w_history w.
Proof. unfold fail_execution, release_slot_on_completion. simpl. by destruct (w_holds_slot w). Qed.

Lemma check_history w st node : w_history (check_resources w st node).1 = w_history w.
Proof.
  unfold check_resources. set (adm := if w_holds_slot w then _ else _).
  assert (Ha : w_history adm.1 = w_history w).
  { unfold adm. destruct (w_holds_slot w); [done|]. by destruct (can_execute _ _ _ _) as [m []]. }
  destruct adm as [w1 []]; simpl in Ha; [|done].
  destruct (check_quota _ _ _ _) as [m q]. destruct q; [done| |];
    (pose proof (fail_history (set_slot m (w_holds_slot w1) w1) node "RESOURCE_LIMIT_EXCEEDED") as Hf;
     destruct (fail_execution _ _ _); simpl in *; congruence).
Qed.

(** Equal except for the pending request. *)
Definition same_but_pending (s1 s2 : state) : Prop :=
  forall k, k <> PENDING_REQUEST_KEY -> dict_get k s1 = dict_get k s2.

(** The persisted state is the one the run stopped with. *)
Definition snapshot_ok (w : world) (st : state) (resp : response) : Prop :=
  match resp with
  | RWaiting _ | RSuccess _ _ | RHandoff _ => fr_state (w_run w) = st
  | _ => True
  end.

Lemma failing_keeps w st node err :
  let '(w', st', h) := failing w st node err in
  w_history w' = w_history w /\ st' = st /\ exists n e, h = HRespond (RFailed n e).
Proof.
  unfold failing. pose proof (fail_history w node err) as Hf.
  unfold fail_execution in *. simpl in *. eauto.
Qed.

Lemma finalize_keeps w st node :
  let '(w', st', h) := finalize w st node in
  w_history w' = w_history w /\ st' = st /\
  match h with HRetry => False | HRespond resp => snapshot_ok w' st' resp | HAdvance => w' = w end.
Proof.
  unfold finalize, maybe_finalize_completion. case_decide as Hend; [|done]. cbv zeta.
  destruct (extract st) as [res|e].
  - destruct (extract_async_handoff res); [done|].
    destruct (superstep_partial_units st).
    + simpl. unfold release_slot_on_completion. by destruct (w_holds_slot w).
    + unfold fail_execution, release_slot_on_completion. simpl.
      by destruct (w_holds_slot w) eqn:E; simpl; rewrite ?E.
  - unfold fail_execution, release_slot_on_completion. simpl. by destruct (w_holds_slot w).
Qed.

(** What the status handler keeps: the history, the state but for the pending
    request, the world unless it responds; and a retry has attempts left. *)
Definition retry_cap (node : string) : Z :=
  max_attempts (resolve_retry_policy (Some "flow") None (dict_get node (f_node_max_retries fl)) None).

Definition keeps (w : world) (attempts : counts) (st : state) (node : string)
    (r : world * state * handled) : Prop :=
  let '(w', st', h) := r in
  w_history w' = w_history w /\ same_but_pending st st' /\
  match h with
  | HRespond resp => snapshot_ok w' st' resp
  | HAdvance => w' = w
  | HRetry => w' = w /\ counter node attempts < retry_cap node
  end.

Lemma handle_keeps w attempts st node res status :
  keeps w attempts st node (handle_node_status w attempts st node res status).
Proof.
  unfold handle_node_status.
  assert (Hfin : forall st1, same_but_pending st st1 -> keeps w attempts st node (finalize w st1 node)).
  { intros st1 H1. pose proof (finalize_keeps w st1 node) as H. destruct (finalize w st1 node) as [[w' st'] h].
    destruct H as (Hh & -> & Hr). split; [done|]. split; [done|]. destruct h; [done|done|done]. }
  assert (Hfail : forall err, keeps w attempts st node (failing w st node err)).
  { intros err. pose proof (failing_keeps w st node err) as H. destruct (failing w st node err) as [[w' st'] h].
    destruct H as (Hh & -> & n & e & ->). split; [done|]. split; [by intros k _|done]. }
  case_decide as H1; [apply Hfin; intros k Hk; by rewrite dict_get_del_ne|].
  case_decide as H2.
  { cbv zeta. case_bool; [|apply Hfail]. split; [done|]. split; [by intros k _|]. split; [done|].
    unfold decide_retry in Hif. simpl in Hif. apply andb_true_iff in Hif as [Hif _]. by apply Z.ltb_lt in Hif. }
  case_decide as H3; [apply Hfail|]. case_decide as H4; [|apply Hfin; by intros k _].
  cbv zeta. case_bool; [|apply Hfail].
  destruct (build_pending_request _ _ _) as [pending|e]; [|apply Hfail].
  simpl. unfold release_slot_on_wait. simpl. destruct (w_holds_slot w); simpl; (split; [done|]); (split; [|done]);
    intros k Hk; destruct pending; simpl; by rewrite ?dict_get_set_ne, ?dict_get_del_ne by congruence.
Qed.

(** The history gives the state back, provided the last status is written in
    the case the engine compares (the fold compares it in upper case). *)
Definition last_canonical (rows : list hist) : Prop :=
  forall row, last rows = Some row -> str_upper (h_status row) = h_status row.

Definition folds_to (rows : list hist) (st : state) : Prop :=
  last_canonical rows -> same_but_pending (fold_flow_history_state rows) st.

Lemma merge_one st node status p :
  let '(st1, merged) := merge_superstep st [(node, status, p)] in
  forall rows n, str_upper status = status -> st1 = fold_flow_history_state (rows ++ [Hist node status st p n]).
Proof.
  unfold merge_superstep, landed, fold_flow_history_state.
  assert (Hl : forall rows n, last (rows ++ [Hist node status st p n]) = Some (Hist node status st p n))
    by (intros; apply last_snoc).
  destruct (decide (status ∈ MERGED_STATUSES)) as [Hin|Hin].
  - destruct (patch_of p) as [q|] eqn:Hq; simpl; intros rows n Hu; rewrite Hl; simpl; rewrite Hu;
      rewrite decide_True by done; by rewrite Hq.
  - simpl. intros rows n Hu. rewrite Hl. simpl. rewrite Hu. by rewrite decide_False.
Qed.

Lemma fail_response w node msg : (fail_execution w node msg).2 = RFailed node msg.
Proof. done. Qed.

Definition step_world (s : step) : world := match s with Continue w _ _ _ => w | Done w _ _ => w end.
Definition step_state (s : step) : state := match s with Continue _ _ st _ => st | Done _ st _ => st end.
Definition step_snapshot (s : step) : Prop :=
  match s with Continue _ _ _ _ => True | Done w st resp => snapshot_ok w st resp end.

(** The history only grows, with consecutive sequence numbers. *)
Definition grows (h h' : list hist) : Prop :=
  (exists rows, h' = h ++ rows) /\ (seqs_ok h -> seqs_ok h').

Lemma grows_refl h : grows h h.
Proof. split; [exists []; by rewrite app_nil_r|done]. Qed.

Lemma grows_trans h1 h2 h3 : grows h1 h2 -> grows h2 h3 -> grows h1 h3.
Proof.
  intros [[r1 E1] H1] [[r2 E2] H2]. split; [exists (r1 ++ r2); by rewrite E2, E1, app_assoc|auto].
Qed.

Lemma grows_append h new :
  map h_seq new = allocate_sequence_numbers h (length new) -> grows h (h ++ new).
Proof. intros H. split; [by exists new|]. intros Hok. by apply seqs_app. Qed.

Lemma superstep_grows w attempts st ts :
  let '(w', _, _, _) := execute_superstep w attempts st ts in grows (w_history w) (w_history w').
Proof.
  unfold execute_superstep. destruct (run_fan_out_branches attempts ts st) as [att bs].
  case_bool; [apply grows_refl|].
  assert (Hg : grows (w_history w) (w_history (add_history (history_rows w st bs) w))).
  { simpl. apply grows_append. apply history_rows_seqs. }
  destruct (merge_superstep st _) as [st1 merged]. destruct merged; [|done].
  cbv zeta. case_bool; [|done]. destruct (if partial _ then _ else _) as [st2|]; [|done].
  by destruct (successors st2 _).
Qed.

Lemma fail_step w st node msg :
  (let '(w0, resp) := fail_execution w node msg in Done w0 st resp)
  = Done (fail_execution w node msg).1 st (fail_execution w node msg).2.
Proof. by destruct (fail_execution w node msg). Qed.

Lemma advance_keeps w attempts st node :
  let s := advance_to_next_node w attempts st node in
  grows (w_history w) (w_history (step_world s)) /\ step_snapshot s /\
  (fan_out_group_for node fl = None -> w_history (step_world s) = w_history w /\ step_state s = st).
Proof.
  cbv zeta. unfold advance_to_next_node. cbv zeta.
  assert (Hfail : forall w1 st1 msg, grows (w_history w) (w_history w1) ->
    let s := (let '(w0, resp) := fail_execution w1 node msg in Done w0 st1 resp) in
    grows (w_history w) (w_history (step_world s)) /\ step_snapshot s /\
    w_history (step_world s) = w_history w1 /\ step_state s = st1).
  { intros w1 st1 msg Hg. cbv zeta. rewrite fail_step.
    cbn [step_world step_state step_snapshot]. rewrite fail_history, fail_response. done. }
  assert (Hgo : forall w1 att st1 t, grows (w_history w) (w_history w1) ->
    let s := (if decide (t = "") then (let '(w0, resp) := fail_execution w1 node "No next node" in Done w0 st1 resp)
     else Continue (set_run (FRun (fr_status (w_run w1)) (fr_waiting_for (w_run w1)) (fr_has_deadline (w_run w1))
       t st1 (fr_error (w_run w1)) (fr_signature (w_run w1))) w1) att st1 t) in
    grows (w_history w) (w_history (step_world s)) /\ step_snapshot s /\
    w_history (step_world s) = w_history w1 /\ step_state s = st1).
  { intros w1 att st1 t Hg. cbv zeta. case_decide; [by apply Hfail|]. done. }
  pose proof (grows_refl (w_history w)) as Hr.
  destruct (resolve_frontier preds node st fl) as [[|t [|t2 ts]]|[]] eqn:Hfr.
  - destruct (Hfail w st "No next node" Hr) as (H1 & H2 & H3). split_and!; auto.
  - destruct (Hgo w attempts st t Hr) as (H1 & H2 & H3). split_and!; auto.
  - pose proof (superstep_grows w attempts st (t :: t2 :: ts)) as Hg.
    assert (Hno : fan_out_group_for node fl <> None).
    { unfold resolve_frontier in Hfr. unfold fan_out_group_for.
      destruct (edges_of fl node) as [l|g]; [|done]. destruct (first_group l); [done|].
      destruct (next_of_list preds st l) as [[]|]; done. }
    destruct (execute_superstep w attempts st (t :: t2 :: ts)) as [[[w1 att] st1] nx]. destruct nx as [t'|msg|].
    + destruct (Hgo w1 att st1 t' Hg) as (H1 & H2 & _). split_and!; [exact H1|exact H2|done].
    + destruct (Hfail w1 st1 msg Hg) as (H1 & H2 & _). split_and!; [exact H1|exact H2|done].
    + split_and!; done.
  - destruct (Hfail w st "cannot resolve the edge" Hr) as (H1 & H2 & H3). split_and!; auto.
  - destruct (Hfail w st "cannot resolve the edge" Hr) as (H1 & H2 & H3). split_and!; auto.
  - split_and!; done.
Qed.

(** One iteration: either nothing was recorded and the state is unchanged, or
    (without a group at this node) folding the history gives the state. *)
Definition folded (w : world) (st : state) (s : step) : Prop :=
  (w_history (step_world s) = w_history w /\ step_state s = st) \/
  folds_to (w_history (step_world s)) (step_state s).

Lemma check_snapshot w st node resp :
  (check_resources w st node).2 = Some resp -> snapshot_ok (check_resources w st node).1 st resp.
Proof.
  unfold check_resources. destruct (if w_holds_slot w then _ else _) as [w1 []].
  - destruct (check_quota _ _ _ _) as [m []]; [done| |]; unfold fail_execution; simpl; by intros [= <-].
  - by intros [= <-].
Qed.

Lemma iterate_keeps w attempts st node :
  let s := iterate w attempts st node in
  grows (w_history w) (w_history (step_world s)) /\ step_snapshot s /\
  (fan_out_group_for node fl = None -> folded w st s).
Proof.
  cbv zeta. unfold iterate. cbv zeta. set (w0 := emit (NodeStarted node) w).
  pose proof (check_history w0 st node) as Hch. pose proof (check_snapshot w0 st node) as Hsn.
  destruct (check_resources w0 st node) as [w1 refused]. simpl in Hch.
  destruct refused as [resp|].
  { unfold folded. simpl. rewrite Hch. split_and!; [apply grows_refl|by apply Hsn|by left]. }
  destruct (execute_node attempts node st) as [att o]. destruct o as [msg|res].
  { rewrite fail_step. unfold folded. cbn [step_world step_state step_snapshot].
    rewrite fail_history, fail_response. simpl. rewrite Hch.
    split_and!; [apply grows_refl|done|]. by left. }
  assert (Hrec : forall ms, w_history (record_resource_usage w1 ms) = w_history w).
  { intros ms. unfold record_resource_usage. by destruct eu_id as [[|]|]. }
  set (w2 := record_resource_usage w1 _). assert (Hw2 : w_history w2 = w_history w) by apply Hrec.
  destruct (dict_get "status" res) as [[| | | |status| |]|];
    try (unfold folded; simpl; rewrite Hw2; split_and!; [apply grows_refl|done|by left]).
  set (row := Hist node status st _ _). set (w3 := emit _ (add_history [row] w2)).
  assert (Hw3 : w_history w3 = w_history w ++ [row]) by (unfold w3; simpl; by rewrite Hw2).
  assert (Hg3 : grows (w_history w) (w_history w3)).
  { rewrite Hw3. apply grows_append. unfold row. rewrite Hw2. done. }
  pose proof (merge_one st node status (default (VDict []) (dict_get "output_patch" res))) as Hm.
  destruct (merge_superstep st _) as [st1 merged]. specialize (Hm (w_history w) (highest_seq (w_history w2) + 1)).
  fold row in Hm. rewrite <- Hw3 in Hm.
  assert (Hupper : last_canonical (w_history w3) -> str_upper status = status)
    by (rewrite Hw3; intros Hc; apply (Hc row), last_snoc).
  destruct merged.
  2: { split_and!; [done|done|]. intros _. right. cbn [step_world step_state]. intros Hc. rewrite <- (Hm (Hupper Hc)). by intros k _. }
  pose proof (handle_keeps w3 att st1 node res status) as Hk.
  destruct (handle_node_status w3 att st1 node res status) as [[w4 st4] h]. destruct Hk as (Hh & Hs & Hr).
  assert (Hp : folds_to (w_history w4) st4) by
    (rewrite Hh; intros Hc; rewrite <- (Hm (Hupper Hc)); exact Hs).
  destruct h as [|resp|].
  - destruct Hr as [-> _]. split_and!; [done|done|]. intros _. by right.
  - split_and!; [cbn [step_world]; by rewrite Hh|done|]. intros _. by right.
  - subst w4. pose proof (advance_keeps w3 att st4 node) as (H1 & H2 & H3). split_and!.
    + by eapply grows_trans.
    + done.
    + intros Hno. destruct (H3 Hno) as [E1 E2]. right. by rewrite E1, E2.
Qed.

Definition no_groups : Prop := forall n, fan_out_group_for n fl = None.

Lemma loop_keeps fuel w attempts st node w' st' resp :
  run_loop fuel w attempts st node = Some (w', st', resp) ->
  grows (w_history w) (w_history w') /\ snapshot_ok w' st' resp /\
  (no_groups -> (w_history w' = w_history w /\ st' = st) \/
                folds_to (w_history w') st').
Proof.
  revert w attempts st node. induction fuel as [|f IH]; intros w att st node; [done|]. cbn [run_loop].
  pose proof (iterate_keeps w att st node) as (Hg & Hs & Hf).
  destruct (iterate w att st node) as [w1 att1 st1 n1|w1 st1 r1]; cbn [step_world step_state step_snapshot] in *.
  - intros Hr. destruct (IH _ _ _ _ Hr) as (Hg' & Hs' & Hf'). split; [by eapply grows_trans|]. split; [done|].
    intros Hno. destruct (Hf' Hno) as [[E1 E2]|Hp]; [|by right].
    destruct (Hf (Hno node)) as [[E3 E4]|Hp]; cbn [step_world step_state] in *.
    + left. by rewrite E1, E2, E3, E4.
    + right. by rewrite E1, E2.
  - intros [= <- <- <-]. split; [done|]. split; [done|]. intros Hno. by apply Hf.
Qed.

(** ** Termination *)

Definition edge_targets (e : edge) : list string :=
  match e with
  | Plain t => [t]
  | Cond c => match ce_target c with Some t => [t] | None => [] end
  | Group g => targets g
  end.

Definition out_targets (node : string) : list string := flat_map edge_targets (raw_list (edges_of fl node)).

(** Every edge goes down in [rank]. *)
Definition acyclic (rank : string -> nat) : Prop :=
  forall n t, t ∈ out_targets n -> (rank t < rank n)%nat.

Lemma next_in_targets st l t : next_of_list preds st l = Ok (NextNode t) -> t ∈ flat_map edge_targets l.
Proof.
  assert (Hfm : forall l, first_match preds st l = Ok (NextNode t) -> t ∈ flat_map edge_targets l).
  { clear l. induction l as [|e l IH]; [done|]. destruct e as [|c|]; try done. simpl.
    destruct (edge_predicate preds c) as [p|]; [|done]. simpl. destruct (p st) as [[]|]; [| |done]; simpl.
    - destruct (ce_target c); [|done]. intros [= ->]. apply elem_of_app. left. by left.
    - intros H. apply elem_of_app. right. by apply IH. }
  destruct l as [|[u|c|g] l]; try done.
  - simpl. intros [= ->]. by left.
  - apply Hfm.
Qed.

Lemma first_group_targets l g t : first_group l = Some g -> t ∈ targets g -> t ∈ flat_map edge_targets l.
Proof.
  induction l as [|[u|c|g'] l IH]; simpl; [done| | |].
  - intros H Ht. right. by apply IH.
  - intros H Ht. apply elem_of_app. right. by apply IH.
  - intros [= ->] Ht. apply elem_of_app. by left.
Qed.

Lemma group_in_targets node g t : fan_out_group_for node fl = Some g -> t ∈ targets g -> t ∈ out_targets node.
Proof.
  unfold fan_out_group_for, out_targets. destruct (edges_of fl node) as [l|g']; simpl.
  - apply first_group_targets.
  - intros [= ->] Ht. apply elem_of_app. by left.
Qed.

Lemma frontier_in_targets node st ts t :
  resolve_frontier preds node st fl = Ok ts -> t ∈ ts -> t ∈ out_targets node.
Proof.
  unfold resolve_frontier. pose proof (group_in_targets node) as Hg. unfold fan_out_group_for in Hg.
  unfold out_targets in *. destruct (edges_of fl node) as [l|g]; simpl raw_list in *.
  - destruct (first_group l) as [g|]; [destruct l as [|? [|]]; try done; intros [= <-]; by apply Hg|].
    destruct (next_of_list preds st l) as [[|u|]|] eqn:Hn; try done; simpl; intros [= <-] Ht.
    + by apply not_elem_of_nil in Ht.
    + apply list_elem_of_singleton in Ht as ->. by apply (next_in_targets st).
    + by apply not_elem_of_nil in Ht.
  - intros [= <-]. by apply Hg.
Qed.

Lemma successors_in st ts ns n :
  successors st ts = Ok ns -> n ∈ ns -> exists t, t ∈ ts /\ resolve_next_node preds t st fl = Ok n.
Proof.
  revert ns. induction ts as [|t ts IH]; intros ns; simpl.
  - intros [= <-] H. by apply not_elem_of_nil in H.
  - destruct (resolve_next_node preds t st fl) as [m|] eqn:Hm; [|done]. simpl.
    destruct (successors st ts) as [ms|]; [|done]. simpl. intros [= <-] H.
    apply elem_of_cons in H as [->|H]; [exists t; split; [by left|done]|].
    destruct (IH ms eq_refl H) as (t' & ? & ?). exists t'. split; [by right|done].
Qed.

(** A superstep continues at a successor of one of the node's targets. *)
Lemma superstep_next rank w attempts st ts w' att' st' t :
  acyclic rank -> (forall x, x ∈ ts -> x ∈ out_targets (fr_current_node (w_run w))) ->
  execute_superstep w attempts st ts = (w', att', st', Next t) ->
  (rank t < rank (fr_current_node (w_run w)))%nat.
Proof.
  intros Hac Hts. unfold execute_superstep. set (node := fr_current_node (w_run w)) in *.
  set (g := default _ _).
  assert (Hg : forall x, x ∈ targets g -> x ∈ out_targets node).
  { unfold g. intros x. destruct (fan_out_group_for node fl) as [g'|] eqn:E; simpl; [|apply Hts].
    by apply group_in_targets. }
  destruct (run_fan_out_branches attempts ts st) as [att bs]. case_bool; [done|].
  destruct (merge_superstep st _) as [st1 merged]. destruct merged; [|done]. cbv zeta. case_bool; [|done].
  destruct (if partial _ then _ else _) as [st2|]; [|done].
  destruct (successors st2 _) as [ns|] eqn:Hs; [|done]. intros [= _ _ _ Hc].
  unfold converge in Hc. destruct (remove_dups ns) as [|[|u|] [|]] eqn:Hd; try done. injection Hc as ->.
  assert (Hin : NextNode t ∈ ns) by (apply elem_of_remove_dups; rewrite Hd; by left).
  destruct (successors_in _ _ _ _ Hs Hin) as (b & Hb & Hn).
  assert (Hbt : b ∈ targets g) by (unfold resolve_join in Hb; simpl in Hb; by apply list_elem_of_filter in Hb as [_ ?]).
  assert (Ht : t ∈ out_targets b).
  { unfold out_targets. unfold resolve_next_node in Hn. destruct (edges_of fl b); [|done].
    by apply (next_in_targets st2). }
  pose proof (Hac node b (Hg b Hbt)). pose proof (Hac b t Ht). lia.
Qed.

Lemma advance_progress rank w attempts st node w' att' st' node' :
  acyclic rank -> fr_current_node (w_run w) = node ->
  advance_to_next_node w attempts st node = Continue w' att' st' node' ->
  fr_current_node (w_run w') = node' /\ (rank node' < rank node)%nat.
Proof.
  intros Hac Hcur. unfold advance_to_next_node. cbv zeta.
  destruct (resolve_frontier preds node st fl) as [[|t [|t2 ts]]|[]] eqn:Hfr; try done.
  - case_decide; [done|]. intros [= <- <- <- <-]. split; [done|].
    apply Hac. eapply frontier_in_targets; [exact Hfr|]. by left.
  - destruct (execute_superstep w attempts st (t :: t2 :: ts)) as [[[w1 att] st1] nx] eqn:Hss.
    destruct nx as [t'|msg|]; try done. case_decide; [done|]. intros [= <- <- <- <-]. split; [done|].
    rewrite <- Hcur. eapply superstep_next; [done| |exact Hss].
    intros x Hx. rewrite Hcur. by eapply frontier_in_targets.
Qed.

Lemma check_run w st node :
  (check_resources w st node).2 = None -> w_run (check_resources w st node).1 = w_run w.
Proof.
  unfold check_resources. set (adm := if w_holds_slot w then _ else _).
  assert (Ha : w_run adm.1 = w_run w).
  { unfold adm. destruct (w_holds_slot w); [done|]. by destruct (can_execute _ _ _ _) as [m []]. }
  destruct adm as [w1 []]; [|done]. by destruct (check_quota _ _ _ _) as [m []].
Qed.

Lemma iterate_progress rank w attempts st node w' att' st' node' :
  acyclic rank -> fr_current_node (w_run w) = node ->
  iterate w attempts st node = Continue w' att' st' node' ->
  fr_current_node (w_run w') = node' /\
  ((node' = node /\ counter node att' = counter node attempts + 1 /\ counter node att' < retry_cap node) \/
   (rank node' < rank node)%nat).
Proof.
  intros Hac Hcur. unfold iterate. cbv zeta. set (w0 := emit (NodeStarted node) w).
  pose proof (check_run w0 st node) as Hrun.
  destruct (check_resources w0 st node) as [w1 [resp|]]; [done|]. specialize (Hrun eq_refl). simpl in Hrun.
  assert (Hex : forall att res, execute_node attempts node st = (att, Returned res) ->
    counter node att = counter node attempts + 1).
  { intros att res. unfold execute_node. case_decide; [done|]. destruct (dict_get node nodes); [|done].
    intros [= <- _]. rewrite counter_set. by rewrite decide_True. }
  destruct (execute_node attempts node st) as [att [msg|res]] eqn:He; [done|].
  specialize (Hex att res eq_refl).
  set (w2 := record_resource_usage w1 _).
  assert (Hw2 : w_run w2 = w_run w).
  { transitivity (w_run w1); [|done]. unfold w2, record_resource_usage. by destruct eu_id as [[|]|]. }
  destruct (dict_get "status" res) as [[| | | |status| |]|]; try done.
  set (w3 := emit _ (add_history _ w2)).
  assert (Hw3 : fr_current_node (w_run w3) = node) by (unfold w3; simpl; by rewrite Hw2).
  destruct (merge_superstep st _) as [st1 []]; [|done].
  pose proof (handle_keeps w3 att st1 node res status) as Hk.
  destruct (handle_node_status w3 att st1 node res status) as [[w4 st4] h].
  destruct Hk as (_ & _ & Hr). destruct h as [|resp|]; [| done|].
  - destruct Hr as [-> Hr]. intros [= <- <- <- <-]. split; [done|]. left. split; [done|]. split; [done|done].
  - subst w4. intros Hadv. destruct (advance_progress rank _ _ _ _ _ _ _ _ Hac Hw3 Hadv) as [H1 H2].
    split; [done|]. by right.
Qed.

Lemma execute_counts attempts node st n :
  (forall n, 0 <= counter n attempts) -> 0 <= counter n (execute_node attempts node st).1.
Proof.
  intros H. unfold execute_node. case_decide; [apply H|]. destruct (dict_get node nodes); [|apply H].
  simpl. rewrite counter_set. case_decide; [specialize (H node); lia|apply H].
Qed.

Lemma branches_counts attempts ts st :
  (forall n, 0 <= counter n attempts) -> forall n, 0 <= counter n (run_fan_out_branches attempts ts st).1.
Proof.
  revert attempts. induction ts as [|t ts IH]; intros att H n; [apply H|]. simpl.
  pose proof (fun n => execute_counts att t st n H) as H1. destruct (execute_node att t st) as [att1 o].
  specialize (IH att1 H1 n). by destruct (run_fan_out_branches att1 ts st).
Qed.

Lemma advance_counts w att st node w' att' st' n' :
  (forall n, 0 <= counter n att) ->
  advance_to_next_node w att st node = Continue w' att' st' n' -> forall n, 0 <= counter n att'.
Proof.
  intros H. unfold advance_to_next_node. cbv zeta.
  destruct (resolve_frontier preds node st fl) as [[|t [|t2 ts]]|[]]; try done.
  - case_decide; [done|]. by intros [= _ <- _ _].
  - unfold execute_superstep. pose proof (branches_counts att (t :: t2 :: ts) st H) as Hb.
    destruct (run_fan_out_branches att (t :: t2 :: ts) st) as [att1 bs]. simpl in Hb.
    repeat (case_match; try done); intros; simplify_eq; done.
Qed.

Lemma iterate_counts w att st node w' att' st' n' :
  (forall n, 0 <= counter n att) ->
  iterate w att st node = Continue w' att' st' n' -> forall n, 0 <= counter n att'.
Proof.
  intros H. unfold iterate. cbv zeta. pose proof (fun n => execute_counts att node st n H) as He.
  destruct (check_resources _ st node) as [w1 [resp|]]; [done|].
  destruct (execute_node att node st) as [att1 [msg|res]]; [done|]. simpl in He.
  destruct (dict_get "status" res) as [[| | | |status| |]|]; try done.
  destruct (merge_superstep st _) as [st1 []]; [|done].
  destruct (handle_node_status _ att1 st1 node res status) as [[w4 st4] []]; [|done|by apply advance_counts].
  by intros [= _ <- _ _].
Qed.

(** Fuel that is enough: each rank costs at most [B + 1] iterations. *)
Definition loop_fuel (B : nat) (rank : string -> nat) (attempts : counts) (node : string) : nat :=
  (rank node * S B + (B - Z.to_nat (counter node attempts)) + 1)%nat.

Lemma loop_terminates B rank fuel w attempts st node :
  acyclic rank -> (forall n, retry_cap n <= Z.of_nat B) ->
  fr_current_node (w_run w) = node -> 0 <= counter node attempts ->
  (forall n, 0 <= counter n attempts) ->
  (loop_fuel B rank attempts node <= fuel)%nat ->
  exists r, run_loop fuel w attempts st node = Some r.
Proof.
  intros Hac HB. revert w attempts st node.
  induction fuel as [|f IH]; intros w att st node Hcur Hc Hall Hle; unfold loop_fuel in Hle; [lia|]. simpl.
  assert (Hatt : forall w' att' st' n', iterate w att st node = Continue w' att' st' n' ->
    forall n, 0 <= counter n att').
  { intros w' att' st' n' Hcont. by eapply iterate_counts. }
  destruct (iterate w att st node) as [w1 att1 st1 n1|w1 st1 r1] eqn:Hit; [|by eexists].
  specialize (Hatt _ _ _ _ eq_refl).
  destruct (iterate_progress rank _ _ _ _ _ _ _ _ Hac Hcur Hit) as [Hcur1 [(-> & E & Hlt)|Hlt]].
  - apply IH; [done|lia|done|]. unfold loop_fuel. specialize (HB node). lia.
  - apply IH; [done|done|done|]. unfold loop_fuel. nia.
Qed.

(** A run parked on a wait whose pending request gives [errs]. *)
Lemma parked_route w st1 node event (untyped : bool) errs :
  (forall payload, check_resume_payload st1 payload
     = match errs payload with [] => if untyped then Untyped else Accepted | e => Rejected e end) ->
  let w' := emit (FlowWaiting node event) (register event (release_slot_on_wait (park w st1 node event))) in
  w_holds_slot w' = false /\ fr_status (w_run w') = "waiting" /\ fr_waiting_for (w_run w') = Some event /\
  fr_current_node (w_run w') = node /\ fr_state (w_run w') = st1 /\
  forall payload, match route_event payload w' with
  | Ok (w'', injected) => errs payload = [] /\ injected = true /\ fr_status (w_run w'') = "waiting" /\
      py_get "event" (fr_state (w_run w'')) = VDict payload /\
      forall k, k <> "event" -> py_get k (fr_state (w_run w'')) = py_get k st1
  | Err e => e = errs payload /\ errs payload <> []
  end.
Proof.
  intros Hc. cbv zeta. set (w' := emit _ _).
  assert (Hr : w_run w' = w_run (park w st1 node event)).
  { unfold w', release_slot_on_wait. simpl. by destruct (w_holds_slot w). }
  split; [unfold w', release_slot_on_wait; simpl; by destruct (w_holds_slot w) eqn:E|].
  unfold route_event. rewrite Hr. cbn [park set_run w_run fr_status fr_waiting_for fr_current_node fr_state].
  split_and!; try done. intros payload. rewrite decide_True by done. rewrite Hc.
  destruct (errs payload) as [|e es]; [|done]. destruct untyped; simpl; split_and!; try done;
    try apply py_get_set_eq; intros k Hk; by apply py_get_set_ne.
Qed.

(** ** Claims *)

(** C21: a run returns the slot it takes: when a runner that holds nothing, of a tenant
    whose counter is not negative, resumes a run and the resume returns, whatever the nodes
    do, every tenant's counter is what it was before if the run ends waiting, failed,
    completed, skipped or quarantined. There are two exceptions: an asynchronous handoff
    leaves its tenant's counter one too high, and so does an exception that escapes the
    loop (as [mixed_edges_escape] of FlowGraph.v does) while the run still held its slot. *)
Theorem run_returns_its_slot fuel claimed trace w w' st' resp :
  w_holds_slot w = false -> 0 <= get_tenant_active tenant (w_rm w) ->
  resume fuel claimed trace w = Some (w', st', resp) ->
  match resp with
  | RHandoff _ => forall t, get_tenant_active t (w_rm w')
                    = get_tenant_active t (w_rm w) + (if decide (t = tenant) then 1 else 0)
  | Crashed => forall t, get_tenant_active t (w_rm w')
                 = get_tenant_active t (w_rm w) + (if decide (t = tenant) then if w_holds_slot w' then 1 else 0 else 0)
  | _ => forall t, get_tenant_active t (w_rm w') = get_tenant_active t (w_rm w)
  end.
Proof.
  intros Hh H0. unfold resume. cbv zeta. case_bool.
  { intros [= <- <- <-]. intros t. unfold move_to_dead_letter. by case_decide. }
  case_bool; [intros [= <- <- <-]; done|]. intros Hl.
  match type of Hl with run_loop _ ?w1 _ _ _ = _ => assert (Hi : slot_inv (w_rm w) w1) end.
  { split; [done|]. intros t. simpl. rewrite Hh. simpl. lia. }
  destruct (slot_loop _ _ _ _ _ _ _ _ _ Hi Hl) as [[_ Hs] Hf].
  destruct resp; simpl in Hf; intros t; try (rewrite Hs, Hf; simpl; lia).
  - rewrite Hs, Hf. simpl. by repeat case_bool_decide || case_decide.
  - rewrite Hs. destruct (w_holds_slot w'), (decide (t = tenant)) as [->|]; simpl; rewrite ?bool_decide_eq_true_2, ?bool_decide_eq_false_2 by done; lia.
Qed.

(** C22: a resume only appends to the history, with consecutive sequence numbers; a run
    that stops waiting, completed or handed off (not one that failed, was quarantined or
    crashed) has persisted the state it stopped with; and then, in a flow without fan-out
    groups, if the resume recorded any node and the status of the last one is in upper case
    (the fold reads others differently, see [fold_merges_lower_case_status]), folding the
    history gives that state back on every cell but the pending request. *)
Theorem history_records_the_run fuel claimed trace w w' st' resp :
  resume fuel claimed trace w = Some (w', st', resp) ->
  (exists rows, w_history w' = w_history w ++ rows) /\
  (seqs_ok (w_history w) -> seqs_ok (w_history w')) /\
  match resp with
  | RWaiting _ | RSuccess _ _ | RHandoff _ =>
      fr_state (w_run w') = st' /\
      (no_groups -> w_history w' <> w_history w ->
       last_canonical (w_history w') ->
       same_but_pending (fold_flow_history_state (w_history w')) (fr_state (w_run w')))
  | _ => True
  end.
Proof.
  unfold resume. cbv zeta. case_bool.
  { intros [= <- <- <-]. unfold move_to_dead_letter. case_decide; simpl;
      (split; [exists []; by rewrite app_nil_r|done]). }
  case_bool; [intros [= <- <- <-]; split; [exists []; by rewrite app_nil_r|done]|].
  intros Hl. destruct (loop_keeps _ _ _ _ _ _ _ _ Hl) as ([Hg1 Hg2] & Hs & Hf). simpl in *.
  split; [done|]. split; [done|]. destruct resp; try done; simpl in Hs; subst st';
    (split; [done|]); intros Hno Hne; destruct (Hf Hno) as [[? _]|?]; done.
Qed.

(** C23: runs of acyclic flows end: if every edge goes down in some rank and no
    node may be attempted more than [B] times, a resume returns within (rank of
    its node + 1) * (B + 1) iterations, whatever the nodes answer (retries,
    raised exceptions and lenient joins included). *)
Theorem acyclic_flow_terminates B rank fuel claimed trace w :
  acyclic rank -> (forall n, retry_cap n <= Z.of_nat B) ->
  (S (rank (fr_current_node (w_run w))) * S B <= fuel)%nat ->
  exists r, resume fuel claimed trace w = Some r.
Proof.
  intros Hac HB Hf. unfold resume. cbv zeta. case_bool; [by eexists|]. case_bool; [by eexists|].
  apply (loop_terminates B rank); [done|done| | | |].
  - simpl. by case_decide.
  - done.
  - done.
  - unfold loop_fuel. case_decide; simpl; lia.
Qed.

(** A typed wait is checked before it is answered: when a node waits for
    an event and declares a schema for the answer, the run is parked on that node
    and event with its slot returned; a payload addressed to the run is then
    accepted exactly when it validates against the declared schema, in which
    case it is stored under "event" and nothing else changes, and is refused
    with the validator's errors otherwise; without a declaration every payload
    is accepted. *)
Lemma typed_wait_contract w attempts st node res event sch :
  dict_wf st -> event <> "" -> py_get "wait_for" res = VStr event -> py_get RESUME_SCHEMA_KEY res = sch ->
  (sch = VNone \/ exists d sc, sch = VDict d /\ d <> [] /\ schema_of d = Some sc /\
     build_pending_request node event sch <> Err "resume_schema") ->
  let '(w', st', h) := handle_node_status w attempts st node res "WAIT" in
  h = HRespond (RWaiting event) /\ w_holds_slot w' = false /\
  fr_status (w_run w') = "waiting" /\ fr_waiting_for (w_run w') = Some event /\
  fr_current_node (w_run w') = node /\ fr_state (w_run w') = st' /\
  forall payload,
    let errors := match sch with
                  | VDict d => match schema_of d with
                               | Some sc => validate_payload (Some sc) payload | None => [] end
                  | _ => [] end in
    match route_event payload w' with
    | Ok (w'', injected) => errors = [] /\ injected = true /\ fr_status (w_run w'') = "waiting" /\
        py_get "event" (fr_state (w_run w'')) = VDict payload /\
        forall k, k <> "event" -> py_get k (fr_state (w_run w'')) = py_get k st'
    | Err e => e = errors /\ errors <> []
    end.
Proof.
  intros Hwf Hne Hw Hsch Hcase. unfold handle_node_status. rewrite !decide_False by done.
  rewrite decide_True by done.
  rewrite Hw, Hsch. assert (py_truth (VStr event) = true) as -> by (by destruct event). cbn [py_str]. cbv zeta.
  destruct Hcase as [-> | (d & sc & -> & Hd & Hsc & Hok)].
  - cbn [build_pending_request]. split; [done|]. apply (parked_route w _ node event true (fun _ => [])). intros payload.
    unfold check_resume_payload, py_get. by rewrite dict_get_del_eq.
  - assert (Hb : build_pending_request node event (VDict d)
      = Ok (Some (VDict [("node", VStr node); ("event", VStr event); ("schema", VDict d)]))).
    { destruct d as [|x d]; [done|]. unfold build_pending_request in *. by case_match. }
    rewrite Hb. split; [done|]. rewrite Hsc.
    apply (parked_route w _ node event false (fun payload => validate_payload (Some sc) payload)). intros payload.
    unfold check_resume_payload. rewrite py_get_set_eq.
    change (py_get "schema" [("node", VStr node); ("event", VStr event); ("schema", VDict d)]) with (VDict d).
    destruct d as [|x d]; [done|]. by rewrite Hsc.
Qed.

(** The signature guard strands the runs it catches on the scheduler's
    path: resuming a waiting run whose recorded signature conflicts moves it to
    the dead letters when [resume] is called on the waiting row, but the resume
    callback has already claimed the row, so the same conflict leaves the run
    "executing", with no wait, no slot and nothing driving it. *)
Lemma quarantine_strands_claimed_run fuel claimed trace w :
  fr_status (w_run w) = "waiting" ->
  signatures_conflict (fr_signature (w_run w)) (Some (flow_topology_signature digest fl)) = true ->
  (exists w1, resume fuel claimed trace w = Some (w1, fr_state (w_run w), RQuarantined) /\
     fr_status (w_run w1) = "dead_letter") /\
  (exists w2, resume_callback fuel trace w = Some (w2, fr_state (w_run w), RQuarantined) /\
     fr_status (w_run w2) = "executing" /\ w_waits w2 = w_waits w /\ w_rm w2 = w_rm w).
Proof.
  intros Hw Hc. unfold resume_callback. rewrite decide_True by done. unfold resume. simpl. rewrite Hc.
  unfold move_to_dead_letter. simpl. rewrite decide_True by done. split; eexists; (split; [done|]); done.
Qed.
End Runner.

(** ** Witnesses: a small flow a -> b and its run *)

Definition ok_node (k : string) (v : pyval) : string * (Z -> state -> node_outcome) :=
  (k, fun _ _ => Returned [("status", VStr "SUCCESS"); ("output_patch", VDict [(k, v)])]).

Definition demo_flow : flow := Flow "a" ["b"] [("a", EdgeList [Plain "b"])] [] None.
Definition demo_nodes := [ok_node "a" (VInt 1); ok_node "b" (VInt 2)].
Definition demo_world : world :=
  World (FRun "waiting" (Some "go") true "a" [("trace_id", VStr "t1")] None None) [] empty_rm false [] [].
Notation demo_resume f ns extract fuel w :=
  (resume (fun _ => ""%string) (fun _ _ => 0%Q) default_config f initial_predicates ns [] "t" (Some "eu"%string)
    (fun _ => 0%Z) (fun _ _ => 1%Z) extract (fun _ => "sig"%string) fuel true "trace" w).

Definition whole_state (st : state) : result string pyval := Ok (VDict st).
Definition queued (st : state) : result string pyval := Ok (VDict [("status", VStr "queued")]).

(** The result of a resume that returned. *)
Definition got (r : option (world * state * response)) : world * state * response :=
  default (demo_world, [], Crashed) r.

(** Evaluate a demo resume and name its result. *)
Ltac run_demo r w s p E :=
  let v := eval vm_compute in r in
  lazymatch v with
  | Some (?wv, ?sv, ?pv) =>
      pose (w := wv); pose (s := sv); pose (p := pv);
      assert (E : r = Some (w, s, p)) by (vm_compute; reflexivity)
  end.

Lemma run_returns_its_slot_witness :
  (exists w' st' resp, demo_resume demo_flow demo_nodes whole_state 9 demo_world = Some (w', st', resp) /\
     get_tenant_active "t" (w_rm w') = get_tenant_active "t" (w_rm demo_world)) /\
  (exists w' st' resp, demo_resume demo_flow demo_nodes queued 9 demo_world = Some (w', st', resp) /\
     get_tenant_active "t" (w_rm w') = get_tenant_active "t" (w_rm demo_world) + 1).
Proof.
  split.
  - run_demo (demo_resume demo_flow demo_nodes whole_state 9 demo_world) w' st' resp E.
    exists w', st', resp. split; [exact E|].
    exact (run_returns_its_slot _ _ _ _ _ _ _ _ _ _ _ _ _ _ _ _ demo_world w' st' resp eq_refl
      ltac:(vm_compute; discriminate) E "t").
  - run_demo (demo_resume demo_flow demo_nodes queued 9 demo_world) w' st' resp E.
    exists w', st', resp. split; [exact E|].
    exact (run_returns_its_slot _ _ _ _ _ _ _ _ _ _ _ _ _ _ _ _ demo_world w' st' resp eq_refl
      ltac:(vm_compute; discriminate) E "t").
Defined.

Lemma history_records_the_run_witness :
  exists w' st' resp, demo_resume demo_flow demo_nodes whole_state 9 demo_world = Some (w', st', resp) /\
    map h_seq (w_history w') = [1; 2] /\ seqs_ok (w_history w').
Proof.
  run_demo (demo_resume demo_flow demo_nodes whole_state 9 demo_world) w' st' resp E.
  exists w', st', resp. split; [exact E|].
  destruct (history_records_the_run _ _ _ _ _ _ _ _ _ _ _ _ _ _ _ _ demo_world w' st' resp E) as (_ & H & _).
  split; [vm_compute; reflexivity|]. apply H. vm_compute. reflexivity.
Defined.

Lemma acyclic_flow_terminates_witness :
  exists r, demo_resume demo_flow demo_nodes whole_state 12 demo_world = Some r.
Proof.
  apply (acyclic_flow_terminates (fun _ => "") (fun _ _ => 0%Q) default_config demo_flow initial_predicates
    demo_nodes [] "t" (Some "eu") (fun _ => 0) (fun _ _ => 1) whole_state (fun _ => "sig")
    3 (fun n => if decide (n = "a") then 1%nat else 0%nat)).
  - intros n t. unfold out_targets, edges_of. simpl. case_decide as Hn; simpl.
    + subst n. intros Ht. apply list_elem_of_singleton in Ht as ->. simpl. lia.
    + intros Ht. by apply not_elem_of_nil in Ht.
  - intros n. vm_compute. discriminate.
  - vm_compute. lia.
Defined.

Lemma typed_wait_contract_witness :
  let res := [("status", VStr "WAIT"); ("wait_for", VStr "approval");
              ("resume_schema", VDict [("required", VList [VStr "reviewer"])])] in
  let '(w', _, h) := handle_node_status (fun _ => "") default_config demo_flow "t" (Some "eu") whole_state
                       demo_world [] [] "a" res "WAIT" in
  h = HRespond (RWaiting "approval") /\ route_event [] w' = Err [MissingRequired "reviewer"].
Proof.
  cbv zeta.
  pose proof (typed_wait_contract (fun _ => "") default_config demo_flow "t" (Some "eu") whole_state
    demo_world [] [] "a" [("status", VStr "WAIT"); ("wait_for", VStr "approval");
              ("resume_schema", VDict [("required", VList [VStr "reviewer"])])] "approval"
    (VDict [("required", VList [VStr "reviewer"])])
    ltac:(apply (bool_decide_unpack _); vm_compute; exact I) ltac:(discriminate) eq_refl eq_refl) as H.
  assert (Hc : VDict [("required", VList [VStr "reviewer"])] = VNone \/
    exists d sc, VDict [("required", VList [VStr "reviewer"])] = VDict d /\ d <> [] /\ schema_of d = Some sc /\
      build_pending_request "a" "approval" (VDict [("required", VList [VStr "reviewer"])]) <> Err "resume_schema").
  { right. eexists _, _. split; [reflexivity|]. split; [discriminate|]. split; [reflexivity|discriminate]. }
  specialize (H Hc). destruct (handle_node_status _ _ _ _ _ _ _ _ _ _ _ _) as [[w' st'] h] eqn:E.
  destruct H as (Hh & _ & _ & _ & _ & _ & Hp). split; [exact Hh|]. specialize (Hp []).
  destruct (route_event [] w') as [[w'' b]|e]; [destruct Hp as [Hp _]; vm_compute in Hp; discriminate|].
  destruct Hp as [-> _]. vm_compute. reflexivity.
Defined.

Lemma quarantine_strands_claimed_run_witness :
  exists w2, resume_callback (fun _ => "") (fun _ _ => 0%Q) default_config demo_flow initial_predicates
    demo_nodes [] "t" (Some "eu") (fun _ => 0) (fun _ _ => 1) whole_state (fun _ => "sig") 9 "trace"
    (set_run (FRun "waiting" (Some "go") true "a" [] None (Some "old")) demo_world) = Some (w2, [], RQuarantined) /\
    fr_status (w_run w2) = "executing".
Proof.
  destruct (quarantine_strands_claimed_run (fun _ => "") (fun _ _ => 0%Q) default_config demo_flow initial_predicates
    demo_nodes [] "t" (Some "eu") (fun _ => 0) (fun _ _ => 1) whole_state (fun _ => "sig") 9 true "trace"
    (set_run (FRun "waiting" (Some "go") true "a" [] None (Some "old")) demo_world) eq_refl eq_refl)
    as (_ & w2 & H1 & H2 & _).
  exists w2. split; [exact H1|exact H2].
Defined.

(** Folding the history of a superstep keeps only the last branch's patch: the
    writes of the other branches, which are in the run's state, are lost. *)
Example fold_loses_fan_out_writes :
  let f := Flow "a" ["d"] [("a", BareGroup (FanOut ["b"; "c"] "all" None)); ("b", EdgeList [Plain "d"]);
                           ("c", EdgeList [Plain "d"])] [] None in
  let ns := [ok_node "a" (VInt 1); ok_node "b" (VInt 2); ok_node "c" (VInt 3);
             ("d", fun _ _ => Returned [("status", VStr "WAIT"); ("wait_for", VStr "e")])] in
  let '(w, st, _) := got (demo_resume f ns whole_state 9 demo_world) in
  dict_get "b" st = Some (VInt 2) /\
  dict_get "b" (fold_flow_history_state (take 3 (w_history w))) = None.
Proof. vm_compute. split; reflexivity. Qed.

(** The fold compares statuses in upper case and the engine does not: a node
    that answers "success" is not merged by the engine but is by the fold. *)
Example fold_merges_lower_case_status :
  let ns := [("a", fun (_ : Z) (_ : state) => Returned [("status", VStr "success"); ("output_patch", VDict [("x", VInt 1)])]);
             ok_node "b" (VInt 2)] in
  let '(w, _, _) := got (demo_resume demo_flow ns whole_state 9 demo_world) in
  dict_get "x" (fr_state (w_run w)) = None /\
  dict_get "x" (fold_flow_history_state (take 1 (w_history w))) = Some (VInt 1).
Proof. vm_compute. split; reflexivity. Qed.

(** The retry budget counts executions of the node, not retries: a node that
    succeeded twice in a loop has one retry less than it would have on its first
    visit. *)
Example retry_budget_spent_by_revisits :
  let f := Flow "a" ["z"] [("a", EdgeList [Plain "b"]); ("b", EdgeList [Plain "a"])] [] None in
  let flaky (n : Z) : node_outcome :=
    if n <? 3 then Returned [("status", VStr "SUCCESS")] else Returned [("status", VStr "RETRY")] in
  let ns := [("a", fun n (_ : state) => flaky n); ok_node "b" (VInt 1)] in
  (got (demo_resume f ns whole_state 9 demo_world)).2 = RFailed "a" "failed after retries" /\
  length (w_history (got (demo_resume f ns whole_state 9 demo_world)).1.1) = 5%nat.
Proof. vm_compute. split; reflexivity. Qed.
