(* ===== verification/Leadership.v ===== *)
(** * Background leadership (src/AINDY/platform_layer/leadership.py)

    The lease row that elects the one process running the maintenance jobs, the
    fence that refuses writes of a stale leader, and the elector each process
    runs. Every transaction is one step: the row lock the claim takes serialises
    claims on an existing row, and a claim whose SELECT saw no row is [DbRaced]
    when it commits (the unique index then refuses it if a row has appeared).
    Times are in the unit of the kernel clock; every process passes its own.
    The elector's thread and its waiting are not modelled: a round is a call. *)

From S2P Require Import Prelude.

Local Open Scope string_scope.
Local Open Scope Z_scope.
Local Open Scope list_scope.

Definition LEASE_NAME : string := "background_runner".
Definition LEASE_TTL_SECONDS : Z := 60.
Definition LEASE_HEARTBEAT_SECONDS : Z := 20.

(** ** The lease row *)

Record lease := Lease {
  ls_owner_id : string;
  ls_acquired_at : Z;
  ls_heartbeat_at : Z;
  ls_expires_at : option Z;
  ls_fence : option Z
}.

(** The table, with its unique [name]. *)
Definition leases : Type := list (string * lease).

Record LeaseHold := Hold { h_owner_id : string; h_fence : Z; h_expires_at : Z }.

(** [int(row.fence or 0)] *)
Definition fence_of (row : lease) : Z := default 0 (ls_fence row).

(** How the database answers a claim: as asked; as asked, but the SELECT ran
    before another process inserted its row; or with an exception. *)
Inductive db_outcome := DbOk | DbRaced | DbFault.

Definition expired (now : Z) (row : lease) : bool :=
  match ls_expires_at row with None => true | Some x => x <=? now end.

Definition insert_row (now expires : Z) (owner : string) : lease :=
  Lease owner now now (Some expires) (Some 1).
Definition renew_row (now expires : Z) (row : lease) : lease :=
  Lease (ls_owner_id row) (ls_acquired_at row) now (Some expires) (ls_fence row).
Definition takeover_row (now expires : Z) (owner : string) (row : lease) : lease :=
  Lease owner now now (Some expires) (Some (fence_of row + 1)).

(** [raced]: the SELECT found no row. *)
Definition claim_lease (now : Z) (owner name : string) (ttl : Z) (raced : bool) (t : leases) : leases * option LeaseHold :=
  let expires := now + ttl in
  match (if raced then None else dict_get name t) with
  | None =>
      if dict_mem name t then (t, None)
      else (dict_set name (insert_row now expires owner) t, Some (Hold owner 1 expires))
  | Some row =>
      if decide (ls_owner_id row = owner)
      then (dict_set name (renew_row now expires row) t, Some (Hold owner (fence_of row) expires))
      else if expired now row
      then (dict_set name (takeover_row now expires owner row) t, Some (Hold owner (fence_of row + 1) expires))
      else (t, None)
  end.

Definition try_acquire_lease (now : Z) (owner name : string) (ttl : Z) (raced : bool) (t : leases) : leases * bool :=
  let '(t, h) := claim_lease now owner name ttl raced t in (t, match h with Some _ => true | None => false end).

Inductive LeaseFenceLost := FenceLost (held : Z) (current : option Z).

Definition assert_lease_fence (expected : option Z) (name : string) (t : leases) : result LeaseFenceLost () :=
  match expected with
  | None => Ok ()
  | Some f =>
      let current := option_map fence_of (dict_get name t) in
      if decide (current = Some f) then Ok () else Err (FenceLost f current)
  end.

Definition release_lease (owner name : string) (t : leases) : leases :=
  match dict_get name t with
  | Some row => if decide (ls_owner_id row = owner) then dict_del name t else t
  | None => t
  end.

(** ** The elector of a process *)

Record elector := Elector {
  el_owner_id : string;
  el_name : string;
  el_ttl : Z;
  el_enabled : bool;
  el_is_leader : bool;
  el_hold : option LeaseHold
}.

Definition new_elector (owner name : string) (ttl : Z) (enabled : bool) : elector :=
  Elector owner name ttl enabled false None.

Definition set_hold (h : option LeaseHold) (e : elector) : elector :=
  Elector (el_owner_id e) (el_name e) (el_ttl e) (el_enabled e) (el_is_leader e) h.
Definition set_leader (b : bool) (e : elector) : elector :=
  Elector (el_owner_id e) (el_name e) (el_ttl e) (el_enabled e) b (el_hold e).

(** The property [fence]. *)
Definition el_fence (e : elector) : option Z :=
  match el_hold e with Some h => if el_is_leader e then Some (h_fence h) else None | None => None end.

(** [_attempt]; [None] is the exception of the claim, which leaves the hold. *)
Definition attempt (now : Z) (o : db_outcome) (e : elector) (t : leases) : leases * elector * option bool :=
  if el_enabled e then
    match o with
    | DbFault => (t, e, None)
    | _ =>
        let '(t, h) := claim_lease now (el_owner_id e) (el_name e) (el_ttl e)
                         (match o with DbRaced => true | _ => false end) t in
        (t, set_hold h e, Some (match h with Some _ => true | None => false end))
    end
  else (t, e, Some false).

(** The callback a transition calls. *)
Inductive callback := OnAcquire | OnLose.

Definition apply (acquired : bool) (e : elector) : elector * option callback :=
  if acquired && negb (el_is_leader e) then (set_leader true e, Some OnAcquire)
  else if negb acquired && el_is_leader e then (set_leader false e, Some OnLose)
  else (e, None).

Definition elect_once (now : Z) (o : db_outcome) (e : elector) (t : leases) : leases * elector * option callback :=
  let '(t, e, r) := attempt now o e t in
  let '(e, cb) := apply (default false r) e in
  (t, e, cb).

(** [stop]; a release that raises is logged and changes nothing. *)
Definition stop (release ok : bool) (e : elector) (t : leases) : leases * elector :=
  (if release && el_is_leader e && ok then release_lease (el_owner_id e) (el_name e) t else t, set_leader false e).

Definition background_leader_status (el : option elector) : bool :=
  match el with Some e => el_is_leader e | None => false end.
Definition background_leader_fence (el : option elector) : option Z :=
  match el with Some e => el_fence e | None => None end.

(** ** Processes sharing the table *)

Record cluster := Cluster { cl_leases : leases; cl_electors : list (string * elector) }.

Inductive action :=
| Elect (who : string) (now : Z) (o : db_outcome)
| Stop (who : string) (release ok : bool).

Definition run_action (a : action) (c : cluster) : cluster :=
  match a with
  | Elect i now o =>
      match dict_get i (cl_electors c) with
      | Some e => let '(t, e, _) := elect_once now o e (cl_leases c) in Cluster t (dict_set i e (cl_electors c))
      | None => c
      end
  | Stop i release ok =>
      match dict_get i (cl_electors c) with
      | Some e => let '(t, e) := stop release ok e (cl_leases c) in Cluster t (dict_set i e (cl_electors c))
      | None => c
      end
  end.

Definition run_actions (l : list action) (c : cluster) : cluster := fold_left (fun c a => run_action a c) l c.

(** Every process has its own owner id and leads nothing yet; the table may hold
    a row left by others. *)
Definition fresh (c : cluster) : Prop :=
  dict_wf (cl_leases c) /\
  forall i e, dict_get i (cl_electors c) = Some e -> el_owner_id e = i /\ el_is_leader e = false /\ el_hold e = None.

(** The clocks the rounds of a trace read, each related by [R] to the one before. *)
Fixpoint clocked (R : Z -> Z -> Prop) (c : Z) (l : list action) : Prop :=
  match l with
  | [] => True
  | Elect _ now _ :: l => R c now /\ clocked R now l
  | Stop _ _ _ :: l => clocked R c l
  end.

(** The clock after the trace. *)
Fixpoint last_time (c : Z) (l : list action) : Z :=
  match l with
  | [] => c
  | Elect _ now _ :: l => last_time now l
  | Stop _ _ _ :: l => last_time c l
  end.

Definition releases (a : action) : bool := match a with Stop _ release _ => release | Elect _ _ _ => false end.

(** ** Lemmas *)

(** What a claim does to the row of its name, and the hold it answers. *)
Inductive claim_case (now : Z) (owner : string) (ttl : Z) (raced : bool) :
    option lease -> option lease -> option LeaseHold -> Prop :=
| cc_insert :
    claim_case now owner ttl raced None (Some (insert_row now (now + ttl) owner)) (Some (Hold owner 1 (now + ttl)))
| cc_renew row :
    ls_owner_id row = owner ->
    claim_case now owner ttl raced (Some row) (Some (renew_row now (now + ttl) row))
      (Some (Hold owner (fence_of row) (now + ttl)))
| cc_takeover row :
    ls_owner_id row <> owner -> expired now row = true ->
    claim_case now owner ttl raced (Some row) (Some (takeover_row now (now + ttl) owner row))
      (Some (Hold owner (fence_of row + 1) (now + ttl)))
| cc_refused row :
    raced = true \/ (ls_owner_id row <> owner /\ expired now row = false) ->
    claim_case now owner ttl raced (Some row) (Some row) None.

Lemma claim_lease_spec now owner name ttl raced t t' h :
  claim_lease now owner name ttl raced t = (t', h) ->
  (forall n, n <> name -> dict_get n t' = dict_get n t) /\
  claim_case now owner ttl raced (dict_get name t) (dict_get name t') h.
Proof.
  unfold claim_lease, dict_mem. destruct (dict_get name t) as [row|] eqn:Hr.
  - destruct raced; [intros [= <- <-]; rewrite Hr; split; [done|constructor; by left]|].
    destruct (decide (ls_owner_id row = owner)) as [Ho|Ho]; [|destruct (expired now row) eqn:He]; intros [= <- <-].
    + split; [intros; by apply dict_get_set_ne|]. rewrite dict_get_set_eq. by constructor.
    + split; [intros; by apply dict_get_set_ne|]. rewrite dict_get_set_eq. by constructor.
    + split; [done|]. rewrite Hr. constructor. by right.
  - assert (E : (if raced then None else None) = (None : option lease)) by by destruct raced. rewrite E.
    intros [= <- <-]. split; [intros; by apply dict_get_set_ne|]. rewrite dict_get_set_eq. constructor.
Qed.

Lemma elect_once_spec now o e t t' e' cb :
  elect_once now o e t = (t', e', cb) ->
  el_owner_id e' = el_owner_id e /\ el_name e' = el_name e /\
  ((t' = t /\ el_is_leader e' = false /\ el_hold e' = el_hold e) \/
   exists raced h, claim_lease now (el_owner_id e) (el_name e) (el_ttl e) raced t = (t', h) /\
     el_hold e' = h /\ el_is_leader e' = match h with Some _ => true | None => false end).
Proof.
  unfold elect_once, attempt, apply. destruct (el_enabled e).
  - destruct o.
    1,2: destruct (claim_lease _ _ _ _ _ t) as [t1 h] eqn:Hc;
      destruct h, (el_is_leader e) eqn:Hl; simpl; rewrite ?Hl; simpl; intros [= <- <- <-];
      simpl; split_and!; try done; right; eexists _, _; (split; [exact Hc|done]).
    destruct (el_is_leader e) eqn:Hl; simpl; rewrite ?Hl; intros [= <- <- <-]; split_and!; try done; by left.
  - destruct (el_is_leader e) eqn:Hl; simpl; rewrite ?Hl; intros [= <- <- <-]; split_and!; try done; by left.
Qed.

Lemma release_lease_spec owner name t :
  dict_wf t ->
  dict_wf (release_lease owner name t) /\
  (forall n, n <> name -> dict_get n (release_lease owner name t) = dict_get n t) /\
  (forall row, dict_get name t = Some row -> ls_owner_id row <> owner -> dict_get name (release_lease owner name t) = Some row).
Proof.
  intros Hwf. unfold release_lease. destruct (dict_get name t) as [row|] eqn:Hr; [|by rewrite ?Hr].
  case_decide; split_and!; [by apply dict_del_wf|intros; by apply dict_get_del_ne|congruence|done|done|congruence].
Qed.

Lemma claim_lease_wf now owner name ttl raced t : dict_wf t -> dict_wf (claim_lease now owner name ttl raced t).1.
Proof.
  intros Hwf. unfold claim_lease. repeat case_match; simpl; auto using dict_set_wf.
Qed.

(** A property of the table and of each elector, relative to the clock, that
    every action keeps holds after a trace. *)
Section Invariant.
Variable R : Z -> Z -> Prop.
Variable P : Z -> leases -> elector -> Prop.

Definition holds_all (c : Z) (cl : cluster) : Prop :=
  dict_wf (cl_leases cl) /\
  forall i e, dict_get i (cl_electors cl) = Some e -> el_owner_id e = i /\ P c (cl_leases cl) e.

(** The acting process keeps the property for itself and for every other one. *)
Variable ok : action -> Prop.
Hypothesis P_elect : forall c now o t e t' e' cb i,
  ok (Elect i now o) -> R c now -> el_owner_id e = i -> elect_once now o e t = (t', e', cb) -> P c t e ->
  P now t' e' /\ forall e2, el_owner_id e2 <> i -> P c t e2 -> P now t' e2.
Hypothesis P_stop : forall c release b t e t' e' i,
  ok (Stop i release b) -> dict_wf t -> el_owner_id e = i -> stop release b e t = (t', e') -> P c t e ->
  P c t' e' /\ forall e2, el_owner_id e2 <> i -> P c t e2 -> P c t' e2.
Hypothesis P_time : forall c now t e, R c now -> P c t e -> P now t e.

Lemma holds_all_update c now t t' els i e e' :
  dict_wf t' -> el_owner_id e' = i -> P now t' e' ->
  (forall j e2, j <> i -> dict_get j els = Some e2 -> el_owner_id e2 = j /\ P c t e2) ->
  (forall e2, el_owner_id e2 <> i -> P c t e2 -> P now t' e2) ->
  dict_get i els = Some e -> holds_all now (Cluster t' (dict_set i e' els)).
Proof.
  intros Hwf Ho Hp Hall Hothers Hi. split; [done|]. simpl. intros j e2. destruct (decide (i = j)) as [<-|Hne].
  - rewrite dict_get_set_eq. by intros [= <-].
  - rewrite dict_get_set_ne by done. intros Hj. destruct (Hall j e2 (not_eq_sym Hne) Hj) as [Hoj Hpj].
    split; [done|]. apply Hothers; [congruence|done].
Qed.

Lemma run_actions_invariant l : forall c cl,
  Forall ok l -> clocked R c l -> holds_all c cl -> holds_all (last_time c l) (run_actions l cl).
Proof.
  induction l as [|a l IH]; intros c cl Hok Hc [Hwf Hall]; [done|]. apply Forall_cons in Hok as [Ha Hok].
  destruct a as [i now o|i release b]; simpl in *.
  - destruct Hc as [Hle Hc]. apply IH; [done|done|]. destruct cl as [t els]. simpl in *.
    destruct (dict_get i els) as [e|] eqn:Hi.
    + destruct (elect_once now o e t) as [[t' e'] cb] eqn:He. destruct (Hall i e Hi) as [Ho Hp].
      destruct (P_elect c now o t e t' e' cb i) as [H1 H2]; [done..|].
      eapply (holds_all_update c now t t' els i e e'); [|by apply elect_once_spec in He as [-> _]|done| |done|done].
      * apply elect_once_spec in He as (_ & _ & [(-> & _)|(r & h & Hcl & _)]); [done|].
        pose proof (claim_lease_wf now (el_owner_id e) (el_name e) (el_ttl e) r t Hwf) as W. by rewrite Hcl in W.
      * intros j e2 _. apply Hall.
    + split; [done|]. simpl. intros j e2 Hj. destruct (Hall j e2 Hj). split; [done|]. by eapply P_time.
  - apply IH; [done|done|]. destruct cl as [t els]. simpl in *.
    destruct (dict_get i els) as [e|] eqn:Hi; [|done].
    destruct (stop release b e t) as [t' e'] eqn:He. destruct (Hall i e Hi) as [Ho Hp].
    destruct (P_stop c release b t e t' e' i) as [H1 H2]; [done..|].
    unfold stop in He. injection He as <- <-.
    eapply (holds_all_update c c t _ els i e); [|done|done| |done|done].
    + case_match; [by apply release_lease_spec|done].
    + intros j e2 _. apply Hall.
Qed.
End Invariant.

(** ** One leader at a time *)

(** A leader whose hold has not expired owns the row, and the row lives as long. *)
Definition leads (c : Z) (e : elector) : Prop :=
  el_is_leader e = true /\ exists h, el_hold e = Some h /\ c < h_expires_at h.

Definition lead_inv (c : Z) (t : leases) (e : elector) : Prop :=
  el_is_leader e = true ->
  exists h row x, el_hold e = Some h /\
    (c < h_expires_at h ->
     dict_get (el_name e) t = Some row /\ ls_owner_id row = el_owner_id e /\
     ls_expires_at row = Some x /\ h_expires_at h <= x).

Lemma lead_inv_elect c now o t e t' e' cb i :
  c <= now -> el_owner_id e = i -> elect_once now o e t = (t', e', cb) -> lead_inv c t e ->
  lead_inv now t' e' /\ forall e2, el_owner_id e2 <> i -> lead_inv c t e2 -> lead_inv now t' e2.
Proof.
  intros Hle Ho He Hp. apply elect_once_spec in He as (Ho' & Hn' & [(-> & Hl & Hh)|(r & h & Hcl & Hh & Hl)]).
  - split; [intros Hl'; congruence|]. intros e2 _ H2 Hl2. destruct (H2 Hl2) as (h & row & x & Hh2 & H).
    exists h, row, x. split; [done|]. intros Hlt. apply H. lia.
  - apply claim_lease_spec in Hcl as [Hother Hc]. split.
    + unfold lead_inv. rewrite Hl, Hh, Hn', Ho'. inversion Hc as [H1 H2|row Hown H1 H2|row Hown Hex H1 H2|row Hr H1 H2]; [| | |done];
        intros _; do 3 eexists; (split; [done|]); intros _; simpl; (split_and!; [done| | |]); simpl; done || lia.
    + intros e2 Hne H2 Hl2. destruct (H2 Hl2) as (h2 & row2 & x & Hh2 & Hlive). exists h2, row2, x. split; [done|].
      intros Hlt. destruct Hlive as (Hrow & Howner & Hx & Hxle); [lia|]. split_and!; [|done..].
      destruct (decide (el_name e2 = el_name e)) as [Hn|Hn]; [|by rewrite Hother].
      rewrite Hn in *. rewrite Hrow in Hc.
      inversion Hc as [H1 H3|row Hown H1 H3|row Hown Hex H1 H3|row Hr H1 H3]; subst; [congruence| |done].
      unfold expired in Hex. rewrite Hx in Hex. boolprop. lia.
Qed.

Lemma lead_inv_stop c release b t e t' e' i :
  dict_wf t -> el_owner_id e = i -> stop release b e t = (t', e') -> lead_inv c t e ->
  lead_inv c t' e' /\ forall e2, el_owner_id e2 <> i -> lead_inv c t e2 -> lead_inv c t' e2.
Proof.
  intros Hwf Ho Hs _. unfold stop in Hs. injection Hs as <- <-. split; [done|].
  intros e2 Hne H2. case_match; [|done]. intros Hl2. destruct (H2 Hl2) as (h & row & x & Hh & Hlive).
  exists h, row, x. split; [done|]. intros Hlt. destruct (Hlive Hlt) as (Hrow & Howner & Hx).
  split_and!; [|done|apply Hx|apply Hx].
  destruct (release_lease_spec (el_owner_id e) (el_name e) t Hwf) as (_ & Hoth & Hkeep).
  destruct (decide (el_name e2 = el_name e)) as [Hn|Hn]; [|by rewrite Hoth].
  rewrite Hn in *. apply Hkeep; [done|congruence].
Qed.

(** ** The fence *)

(** A hold carries the fence of its claim: at most the row's, and equal to it
    exactly while the row is the process's own. *)
Definition fence_inv (t : leases) (e : elector) : Prop :=
  forall h, el_hold e = Some h ->
  exists row, dict_get (el_name e) t = Some row /\ h_fence h <= fence_of row /\
    (h_fence h = fence_of row <-> ls_owner_id row = el_owner_id e).

Lemma fence_insert now x owner : fence_of (insert_row now x owner) = 1.
Proof. done. Qed.
Lemma fence_renew now x row : fence_of (renew_row now x row) = fence_of row.
Proof. done. Qed.
Lemma fence_takeover now x owner row : fence_of (takeover_row now x owner row) = fence_of row + 1.
Proof. done. Qed.

Lemma fence_inv_elect now o t e t' e' cb i :
  el_owner_id e = i -> elect_once now o e t = (t', e', cb) -> fence_inv t e ->
  fence_inv t' e' /\ forall e2, el_owner_id e2 <> i -> fence_inv t e2 -> fence_inv t' e2.
Proof.
  intros Ho He Hp. apply elect_once_spec in He as (Ho' & Hn' & [(-> & Hl & Hh)|(r & h & Hcl & Hh & Hl)]).
  - split; [|done]. unfold fence_inv. by rewrite Hh, Hn', Ho'.
  - apply claim_lease_spec in Hcl as [Hother Hc]. split.
    + intros h1. rewrite Hh, Hn', Ho'.
      inversion Hc as [H1 H2|row Hown H1 H2|row Hown Hex H1 H2|row Hr H1 H2]; [| | |done];
        intros [= <-]; eexists; (split; [done|]);
        rewrite ?fence_insert, ?fence_renew, ?fence_takeover; simpl; (split; [lia|tauto]).
    + intros e2 Hne H2 h2 Hh2. destruct (H2 h2 Hh2) as (row & Hrow & Hle & Hiff).
      destruct (decide (el_name e2 = el_name e)) as [Hn|Hn]; [|exists row; by rewrite Hother].
      rewrite Hn in *. rewrite Hrow in Hc.
      inversion Hc as [H1 H3|row' Hown H1 H3|row' Hown Hex H1 H3|row' Hr H1 H3]; subst; eexists; (split; [done|]);
        rewrite ?fence_renew, ?fence_takeover; simpl; [by split| |by split].
      split; [lia|]. split; [lia|congruence].
Qed.

Lemma clocked_any c l : clocked (fun _ _ => True) c l.
Proof. revert c. induction l as [|[] l IH]; simpl; auto. Qed.

Lemma lead_inv_reached c0 c l :
  fresh c -> clocked Z.le c0 l -> holds_all lead_inv (last_time c0 l) (run_actions l c).
Proof.
  intros [Hwf Hf] Hc. apply (run_actions_invariant Z.le lead_inv (fun _ => True)).
  - intros; by eapply lead_inv_elect.
  - intros; by eapply lead_inv_stop.
  - intros c1 now t e Hle H Hl. destruct (H Hl) as (h & row & x & Hh & Hlive).
    exists h, row, x. split; [done|]. intros Hlt. apply Hlive. lia.
  - by apply Forall_forall.
  - done.
  - split; [done|]. intros i e Hi. destruct (Hf i e Hi) as (Ho & Hl & Hh). split; [done|].
    intros Hl'. congruence.
Qed.

Lemma fence_inv_reached c l :
  fresh c -> Forall (fun a => releases a = false) l ->
  holds_all (fun _ => fence_inv) (last_time 0 l) (run_actions l c).
Proof.
  intros [Hwf Hf] Hr. apply (run_actions_invariant (fun _ _ => True) (fun _ => fence_inv) (fun a => releases a = false)).
  - intros; by eapply fence_inv_elect.
  - intros c1 release b t e t' e' i Hno _ _ Hs Hp. simpl in Hno. subst release.
    unfold stop in Hs. simpl in Hs. injection Hs as <- <-. done.
  - done.
  - done.
  - apply clocked_any.
  - split; [done|]. intros i e Hi. destruct (Hf i e Hi) as (Ho & Hl & Hh). split; [done|].
    intros h Hh'. congruence.
Qed.

(** ** Claims *)

(** C36: one background leader at a time, and failover: through any sequence of
    election rounds, failed rounds, insert races, releases and stops, on clocks
    that do not go back (one order of times for all processes, so without skew
    between them), at most one process leads with a hold that has not expired; and a
    process that runs a round when the row is absent or expired becomes leader. *)
Theorem one_live_leader c0 c l :
  fresh c -> clocked Z.le c0 l ->
  let c' := run_actions l c in
  (forall i j ei ej, dict_get i (cl_electors c') = Some ei -> dict_get j (cl_electors c') = Some ej ->
     el_name ei = el_name ej -> leads (last_time c0 l) ei -> leads (last_time c0 l) ej -> i = j) /\
  (forall i e now, dict_get i (cl_electors c') = Some e -> el_enabled e = true ->
     (forall row, dict_get (el_name e) (cl_leases c') = Some row -> expired now row = true) ->
     let '(t', e', _) := elect_once now DbOk e (cl_leases c') in
     el_is_leader e' = true /\ option_map ls_owner_id (dict_get (el_name e) t') = Some i).
Proof.
  intros Hf Hc. destruct (lead_inv_reached c0 c l Hf Hc) as [_ Hall]. simpl. split.
  - intros i j ei ej Hi Hj Hn (Hli & hi & Hhi & Hlti) (Hlj & hj & Hhj & Hltj).
    destruct (Hall i ei Hi) as [Hoi Hpi]. destruct (Hall j ej Hj) as [Hoj Hpj].
    destruct (Hpi Hli) as (h1 & r1 & x1 & Hh1 & H1). destruct (Hpj Hlj) as (h2 & r2 & x2 & Hh2 & H2).
    destruct H1 as (Hr1 & Ho1 & _); [congruence|]. destruct H2 as (Hr2 & Ho2 & _); [congruence|].
    rewrite Hn in Hr1. congruence.
  - intros i e now Hi Hen Hex. destruct (Hall i e Hi) as [Ho _].
    set (t := cl_leases (run_actions l c)) in *.
    destruct (elect_once now DbOk e t) as [[t' e'] cb] eqn:He. revert He.
    unfold elect_once, attempt. rewrite Hen.
    destruct (claim_lease now (el_owner_id e) (el_name e) (el_ttl e) false t) as [t1 h] eqn:Hcl.
    apply claim_lease_spec in Hcl as [_ Hcc].
    inversion Hcc as [H1 H2|row Hown H1 H2|row Hown Hx H1 H2|row Hr H1 H2]; subst h.
    4: { destruct Hr as [?|[_ Hr]]; [done|]. rewrite (Hex row) in Hr; [done|by rewrite <- H1]. }
    all: unfold apply; simpl; destruct (el_is_leader e) eqn:Hl; simpl; intros [= <- <- <-];
      (split; [done|]); rewrite <- H2; simpl; congruence.
Qed.

(** The fence: without releases, whatever the processes' clocks say, the
    fenced check of a process that believes it leads passes exactly when the lease
    row is still its own; so no two processes pass it at the same time. *)
Lemma fenced_check_proves_leadership c l i e f :
  fresh c -> Forall (fun a => releases a = false) l ->
  dict_get i (cl_electors (run_actions l c)) = Some e ->
  background_leader_fence (Some e) = Some f ->
  assert_lease_fence (Some f) (el_name e) (cl_leases (run_actions l c)) = Ok () <->
  option_map ls_owner_id (dict_get (el_name e) (cl_leases (run_actions l c))) = Some i.
Proof.
  intros Hf Hr Hi Hfe. destruct (fence_inv_reached c l Hf Hr) as [_ Hall]. destruct (Hall i e Hi) as [Ho Hp].
  simpl in Hfe. unfold el_fence in Hfe. destruct (el_hold e) as [h|] eqn:Hh; [|done].
  destruct (Hp h Hh) as (row & Hrow & _ & Hiff). destruct (el_is_leader e); [|done]. injection Hfe as <-.
  unfold assert_lease_fence. rewrite Hrow. simpl. case_decide as Hd.
  - split; [|done]. intros _. f_equal. rewrite <- Ho. apply Hiff. congruence.
  - split; [done|]. intros [= E]. exfalso. apply Hd. f_equal. symmetry. apply Hiff. congruence.
Qed.

(** Two ways past the fence for a stale leader. A release deletes the row
    and the next claim starts again at fence 1, so a leader that held fence 1,
    was taken over and never noticed, passes the check under a third process's
    lease. And a process that has noticed it lost (or whose round failed) holds
    no fence at all, for which every check passes. *)
Lemma stale_leader_passes_fence :
  (forall a b c n1 n2 n3 ttl, a <> b -> n1 + ttl <= n2 ->
     let '(t1, ha) := claim_lease n1 a LEASE_NAME ttl false [] in
     let '(t2, _) := claim_lease n2 b LEASE_NAME ttl false t1 in
     let '(t3, _) := claim_lease n3 c LEASE_NAME ttl false (release_lease b LEASE_NAME t2) in
     option_map ls_owner_id (dict_get LEASE_NAME t3) = Some c /\
     assert_lease_fence (option_map h_fence ha) LEASE_NAME t3 = Ok ()) /\
  (forall now o e t,
     let '(_, e', _) := elect_once now o e t in
     el_is_leader e' = false -> forall name t', assert_lease_fence (background_leader_fence (Some e')) name t' = Ok ()).
Proof.
  split.
  - intros a b c n1 n2 n3 ttl Hab Hn. unfold claim_lease. simpl. rewrite decide_False by done.
    unfold expired at 1. simpl. destruct (n1 + ttl <=? n2) eqn:E; [|boolprop; lia].
    unfold release_lease. simpl. rewrite decide_True by done. done.
  - intros now o e t. destruct (elect_once now o e t) as [[t1 e'] cb]. intros Hl name t'.
    simpl. unfold el_fence. rewrite Hl. by destruct (el_hold e').
Qed.

(** Two processes: A leads and stalls, B takes over at 90. *)
Definition demo_cluster : cluster :=
  Cluster [] [("A", new_elector "A" LEASE_NAME 60 true); ("B", new_elector "B" LEASE_NAME 60 true)].
Definition demo_trace : list action :=
  [Elect "A" 0 DbOk; Elect "B" 1 DbRaced; Elect "A" 20 DbOk; Elect "B" 30 DbOk; Elect "B" 90 DbOk].

Lemma demo_fresh : fresh demo_cluster.
Proof.
  split; [apply NoDup_nil_2|]. simpl. intros i e. repeat (case_decide; [intros [= <-]; by subst|]). done.
Qed.

(** Witness of [one_live_leader]: after the take-over only B leads. *)
Lemma one_live_leader_witness :
  (exists ea eb, dict_get "A" (cl_electors (run_actions demo_trace demo_cluster)) = Some ea /\
     dict_get "B" (cl_electors (run_actions demo_trace demo_cluster)) = Some eb /\
     el_is_leader ea = true /\ leads 90 eb /\ ~ leads 90 ea).
Proof.
  destruct (one_live_leader 0 demo_cluster demo_trace demo_fresh ltac:(simpl; lia)) as [H _].
  do 2 eexists. split_and!; [vm_compute; reflexivity|vm_compute; reflexivity|reflexivity| |].
  - split; [reflexivity|]. eexists. split; [reflexivity|]. simpl. lia.
  - intros Ha. assert (E : "A" = "B").
    { eapply (H "A" "B"); [vm_compute; reflexivity|vm_compute; reflexivity|reflexivity|exact Ha|].
      split; [reflexivity|]. eexists. split; [reflexivity|]. simpl. lia. }
    discriminate E.
Defined.

(** Witness of [fenced_check_proves_leadership]: A's check is refused. *)
Lemma fenced_check_witness :
  exists ea, dict_get "A" (cl_electors (run_actions demo_trace demo_cluster)) = Some ea /\
    background_leader_fence (Some ea) = Some 1 /\
    assert_lease_fence (Some 1) LEASE_NAME (cl_leases (run_actions demo_trace demo_cluster)) <> Ok ().
Proof.
  eexists. split_and!; [vm_compute; reflexivity|reflexivity|].
  assert (Hn : Forall (fun a => releases a = false) demo_trace) by (repeat constructor).
  pose proof (fenced_check_proves_leadership demo_cluster demo_trace "A" _ 1 demo_fresh Hn eq_refl eq_refl) as H.
  intros E. apply H in E. vm_compute in E. discriminate E.
Defined.
