(* ===== verification/ResultPath.v ===== *)
(** * Result paths and post-conditions (src/AINDY/core/result_path.py, core/verifier.py)

    The dot paths that address a value inside a step result, and the verifier
    that checks the post-conditions a plan declares against the results of its
    steps. [render] is [str()] of a value that is not a string; the reason text
    of a failure is not modelled. [None] is MISSING for a path, and a TypeError
    where a function of the verifier raises. *)

From S2P Require Import Prelude PyStr PyVal.
From Stdlib Require Import Ascii.

Local Open Scope string_scope.
Local Open Scope Z_scope.
Local Open Scope list_scope.

(** ** Paths *)

Definition path_is_well_formed (v : pyval) : bool :=
  match v with
  | VStr p => bool_decide (p <> "") && forallb (fun part => bool_decide (part <> "")) (split_char "." p)
  | _ => false
  end.

(** One segment: a dict key, or an integer index into a list. *)
Definition step_path (cur : pyval) (part : string) : option pyval :=
  match cur with
  | VDict d => dict_get part d
  | VList l => match int_of_string part with Some i => py_index l i | None => None end
  | _ => None
  end.

Fixpoint resolve_parts (cur : pyval) (parts : list string) : option pyval :=
  match parts with
  | [] => Some cur
  | part :: parts' => match step_path cur part with Some v => resolve_parts v parts' | None => None end
  end.

Definition resolve_path (payload : pyval) (path : string) : option pyval :=
  resolve_parts payload (split_char "." path).

(** ** Post-conditions *)

(** A WAIT step carries [wait_for] and no [tool]. *)
Definition is_wait_step (step : pyval) : bool :=
  match step with
  | VDict d => negb (is_None (py_get "wait_for" d)) && negb (py_truth (py_get "tool" d))
  | _ => false
  end.

(** [plan.get("steps", [])] of a plan, iterated. *)
Definition plan_steps (plan : pyval) : option (list pyval) :=
  match plan with
  | VDict d => match dict_get "steps" d with Some v => py_list v | None => Some [] end
  | _ => Some []
  end.

Fixpoint collect_conditions (ordinal : Z) (steps : list pyval) : list (Z * list pyval) :=
  match steps with
  | [] => []
  | VDict d :: rest =>
      if is_wait_step (VDict d) then collect_conditions ordinal rest
      else
        let expects := py_get "expects" d in
        let more := collect_conditions (ordinal + 1) rest in
        if py_truth expects
        then (ordinal, match expects with VList l => l | _ => [expects] end) :: more
        else more
  | _ :: rest => collect_conditions ordinal rest
  end.

Definition extract_post_conditions (plan : pyval) : option (list (Z * list pyval)) :=
  option_map (collect_conditions 0) (plan_steps plan).

Definition COMPARISON_OPS : list string := ["eq"; "ne"; "contains"; "not_contains"; "gt"; "gte"; "lt"; "lte"].
Definition PRESENCE_OPS : list string := ["exists"; "not_exists"; "truthy"; "falsy"].

(** The comparison operators; a TypeError makes the condition fail. *)
Definition eval_comparison (op : string) (actual expected : pyval) : bool :=
  if decide (op = "eq") then py_eq actual expected
  else if decide (op = "ne") then negb (py_eq actual expected)
  else if decide (op = "contains") then default false (py_in expected actual)
  else if decide (op = "not_contains") then default false (option_map negb (py_in expected actual))
  else if decide (op = "gt") then default false (py_lt expected actual)
  else if decide (op = "gte") then default false (option_map negb (py_lt actual expected))
  else if decide (op = "lt") then default false (py_lt actual expected)
  else if decide (op = "lte") then default false (option_map negb (py_lt expected actual))
  else false.

Section Verifier.
Variable render : pyval -> string.

Definition eval_condition (condition : pyval) (step_result : option (list (string * pyval))) : bool :=
  match condition, step_result with
  | VDict c, Some r =>
      if dict_mem "status" c && negb (dict_mem "field" c) && negb (dict_mem "op" c)
      then py_eq (py_get "status" r) (py_get "status" c)
      else
        let op := match dict_get "op" c with Some v => py_str render v | None => "truthy" end in
        let field := py_get "field" c in
        let actual := if is_None field then Some (py_get "result" r)
                      else resolve_path (py_get "result" r) (py_str render field) in
        if decide (op = "exists") then match actual with Some _ => true | None => false end
        else if decide (op = "not_exists") then match actual with Some _ => false | None => true end
        else match actual with
             | None => false
             | Some v =>
                 if decide (op = "truthy") then py_truth v
                 else if decide (op = "falsy") then negb (py_truth v)
                 else if decide (op ∈ COMPARISON_OPS) then eval_comparison op v (py_get "value" c)
                 else false
             end
  | _, _ => false
  end.

(** A key of the dict of results; lists and dicts are not hashable. *)
Definition hashable (v : pyval) : bool := match v with VList _ | VDict _ => false | _ => true end.

(** [by_index]: the last result recorded under an index wins. *)
Fixpoint by_index (index : Z) (results : list pyval) : option (list (string * pyval)) :=
  match results with
  | [] => None
  | r :: rest =>
      match by_index index rest with
      | Some d => Some d
      | None => match r with
                | VDict d => if py_eq (py_get "step_index" d) (VInt index) then Some d else None
                | _ => None
                end
      end
  end.

Definition indices_hashable (results : list pyval) : bool :=
  forallb (fun r => match r with VDict d => hashable (py_get "step_index" d) | _ => true end) results.

Record verdict := Verdict { v_ok : bool; v_checked : Z; v_failures : list (Z * pyval) }.

Definition check_step (results : list pyval) (acc : Z * list (Z * pyval)) (ic : Z * list pyval) : Z * list (Z * pyval) :=
  let result := by_index ic.1 results in
  fold_left (fun acc condition =>
               (acc.1 + 1, if eval_condition condition result then acc.2 else acc.2 ++ [(ic.1, condition)]))
    ic.2 acc.

Definition verify_post_conditions (post_conditions : list (Z * list pyval)) (results : list pyval) : option verdict :=
  if indices_hashable results then
    let '(checked, failures) := fold_left (check_step results) post_conditions (0, []) in
    Some (Verdict (match failures with [] => true | _ => false end) checked failures)
  else None.

(** ** Lemmas *)

Lemma check_step_spec results acc ic :
  check_step results acc ic
  = (acc.1 + Z.of_nat (length ic.2),
     acc.2 ++ map (pair ic.1) (filter (fun c => ~ eval_condition c (by_index ic.1 results) = true) ic.2)).
Proof.
  destruct ic as [i conds]. unfold check_step. simpl. revert acc.
  induction conds as [|c conds IH]; intros acc; simpl.
  - rewrite app_nil_r, Z.add_0_r. by destruct acc.
  - rewrite IH. simpl. rewrite filter_cons. destruct (eval_condition c (by_index i results)).
    + rewrite decide_False by auto. f_equal. lia.
    + rewrite decide_True by auto. simpl. rewrite <- app_assoc. simpl. f_equal. lia.
Qed.

Lemma check_steps_spec results pc acc :
  fold_left (check_step results) pc acc
  = (acc.1 + Z.of_nat (length (flat_map snd pc)),
     acc.2 ++ flat_map (fun ic : Z * list pyval =>
        map (pair ic.1) (filter (fun c => ~ eval_condition c (by_index ic.1 results) = true) ic.2)) pc).
Proof.
  revert acc. induction pc as [|ic pc IH]; intros acc; simpl.
  - rewrite app_nil_r, Z.add_0_r. by destruct acc.
  - rewrite IH, check_step_spec. simpl. rewrite length_app, <- app_assoc. f_equal. lia.
Qed.

(** A condition only holds of a step that ran, as the status asked for or
    through a known operator. *)
Lemma eval_condition_closed condition r :
  eval_condition condition r = true ->
  exists c d, condition = VDict c /\ r = Some d /\
    ((dict_mem "status" c = true /\ py_eq (py_get "status" d) (py_get "status" c) = true) \/
     match dict_get "op" c with Some v => py_str render v | None => "truthy" end ∈ PRESENCE_OPS ++ COMPARISON_OPS).
Proof.
  destruct condition as [| | | | | |c]; try done. destruct r as [d|]; [|done]. intros H.
  exists c, d. split_and!; [done..|]. unfold eval_condition in H.
  destruct (dict_mem "status" c && negb (dict_mem "field" c) && negb (dict_mem "op" c)) eqn:Es.
  { boolprop. by left. }
  right. revert H. cbv zeta. generalize (match dict_get "op" c with Some v => py_str render v | None => "truthy" end).
  intros op H. destruct (decide (op ∈ PRESENCE_OPS ++ COMPARISON_OPS)) as [|Hn]; [done|exfalso].
  unfold PRESENCE_OPS in Hn. destruct (if is_None _ then _ else _) as [w|];
    rewrite !(decide_False (P := op = _)) in H by set_solver; [|done].
  by rewrite (decide_False (P := op ∈ COMPARISON_OPS)) in H by set_solver.
Qed.

(** Verification fails closed: the verdict is positive exactly when every
    declared condition holds of the last result recorded for its step, every
    condition is counted, and a failure is reported for each that does not. *)
Lemma verify_fails_closed pc results v :
  verify_post_conditions pc results = Some v ->
  v_checked v = Z.of_nat (length (flat_map snd pc)) /\
  (v_ok v = true <-> forall i conds c, (i, conds) ∈ pc -> c ∈ conds -> eval_condition c (by_index i results) = true) /\
  (forall i c, (i, c) ∈ v_failures v <->
     exists conds, (i, conds) ∈ pc /\ c ∈ conds /\ eval_condition c (by_index i results) = false).
Proof.
  unfold verify_post_conditions. case_bool; [|done]. rewrite check_steps_spec. simpl.
  set (F := flat_map _ pc). intros [= <-]. simpl.
  assert (HF : forall i c, (i, c) ∈ F <->
    exists conds, (i, conds) ∈ pc /\ c ∈ conds /\ eval_condition c (by_index i results) = false).
  { intros i c. unfold F. rewrite list_elem_of_In, in_flat_map. split.
    - intros ([j conds] & Hin & Hc). simpl in Hc. apply in_map_iff in Hc as (c' & [= <- <-] & Hc').
      apply list_elem_of_In, list_elem_of_filter in Hc' as [He Hc'].
      exists conds. apply list_elem_of_In in Hin. split_and!; [done..|]. by apply not_true_is_false.
    - intros (conds & Hin & Hc & He). exists (i, conds). split; [by apply list_elem_of_In|]. simpl.
      apply in_map_iff. exists c. split; [done|]. apply list_elem_of_In, list_elem_of_filter.
      split; [by rewrite He|done]. }
  split_and!; [lia| |exact HF]. split.
  - intros Hok i conds c Hin Hc. destruct (eval_condition c (by_index i results)) eqn:He; [done|].
    assert (Hf : (i, c) ∈ F) by (apply HF; by exists conds). destruct F; [by apply not_elem_of_nil in Hf|done].
  - intros Hall. destruct F as [|[i c] F'] eqn:EF; [done|].
    assert (Hf : (i, c) ∈ (i, c) :: F') by (by left). apply HF in Hf as (conds & Hin & Hc & He).
    by rewrite (Hall i conds c Hin Hc) in He.
Qed.
End Verifier.
