(* ===== verification/AgentPlan.v ===== *)
(** * Agent plans (src/AINDY/runtime/agent_plan_compiler.py)

    A plan is an ordered list of tool steps and waits. [split_agent_plan] cuts it
    into segments at the waits, [compile_agent_segment] turns a segment into the
    source of a Nodus workflow and the payload that carries the planner's values.
    The Nodus front end that parses the source is the parameter
    [compile_nodus_flow]; a plan is its dict ([None] being the empty one). *)

From S2P Require Import Prelude PyStr PyVal RetryPolicy ResultPath.
From stdpp Require Import pretty.
From Stdlib Require Import Ascii.

Local Open Scope string_scope.
Local Open Scope Z_scope.
Local Open Scope list_scope.

Definition WORKFLOW_NAME : string := "agent_plan".

Inductive plan_error :=
| NoSteps
| StepsNotIterable
| StepNotObject (index : Z)
| NoToolName (index : Z)
| ArgsNotObject (index : Z) (type_name : string)
| RiskNotString (index : Z)
| WaitNotString (position : Z)
| CorrelationNotString (position : Z)
| FlowRejected.

(** ** Splitting at the waits *)

Record wait_point := WaitPoint { wp_event_type : string; wp_correlation_key : option string }.

Record segment := Segment { seg_tool_steps : list pyval; seg_base_index : Z; seg_wait : option wait_point }.

(** [steps = (plan or {}).get("steps") or []], iterated. *)
Definition steps_of (plan : list (string * pyval)) : result plan_error (list pyval) :=
  let v := py_get "steps" plan in
  if py_truth v then match py_list v with Some l => Ok l | None => Err StepsNotIterable end else Err NoSteps.

(** The event and the correlation key of a wait step. *)
Definition read_wait (position : Z) (step : pyval) : result plan_error wait_point :=
  match step with
  | VDict d =>
      match py_get "wait_for" d with
      | VStr ev =>
          if decide (str_strip ev = "") then Err (WaitNotString position)
          else match py_get "correlation_key" d with
               | VNone => Ok (WaitPoint ev None)
               | VStr k => Ok (WaitPoint ev (Some k))
               | _ => Err (CorrelationNotString position)
               end
      | _ => Err (WaitNotString position)
      end
  | _ => Err (WaitNotString position)
  end.

Fixpoint split_steps (position : Z) (steps current : list pyval) (base_index tool_count : Z) :
    result plan_error (list segment) :=
  match steps with
  | [] => Ok [Segment current base_index None]
  | step :: rest =>
      if is_wait_step step then
        match read_wait position step with
        | Err e => Err e
        | Ok w =>
            match split_steps (position + 1) rest [] (base_index + tool_count) 0 with
            | Err e => Err e
            | Ok segs => Ok (Segment current base_index (Some w) :: segs)
            end
        end
      else split_steps (position + 1) rest (current ++ [step]) base_index (tool_count + 1)
  end.

Fixpoint expand_steps (steps : list pyval) (base : Z) (wait : option wait_point) : list segment :=
  match steps with
  | [] => []
  | [step] => [Segment [step] base wait]
  | step :: rest => Segment [step] base None :: expand_steps rest (base + 1) wait
  end.

Definition expand_segment (seg : segment) : list segment :=
  match seg_tool_steps seg with
  | [] | [_] => [seg]
  | steps => expand_steps steps (seg_base_index seg) (seg_wait seg)
  end.

Definition expand_to_step_segments (segs : list segment) : list segment := flat_map expand_segment segs.

(** [granular] is the setting AINDY_DURABLE_STEP_GRANULARITY. *)
Definition split_agent_plan (granular : bool) (plan : list (string * pyval)) : result plan_error (list segment) :=
  match steps_of plan with
  | Err e => Err e
  | Ok steps =>
      match split_steps 0 steps [] 0 0 with
      | Err e => Err e
      | Ok segs => Ok (if granular then expand_to_step_segments segs else segs)
      end
  end.

(** ** Compiling a segment *)

Definition step_result_key (index : Z) : string := "__step_" +:+ pretty index +:+ "_result".
Definition step_tool_key (index : Z) : string := "__step_" +:+ pretty index +:+ "_tool".
Definition step_args_key (index : Z) : string := "__step_" +:+ pretty index +:+ "_args".

(** [None] is the AttributeError of a risk level that is no string. *)
Definition resolve_max_attempts (risk_level : pyval) : option Z :=
  let attempts r := Z.max 1 (max_attempts (resolve_retry_policy (Some "agent") r None None)) in
  if py_truth risk_level then match risk_level with VStr s => Some (attempts (Some s)) | _ => None end
  else Some (attempts None).

Definition quote : string := String "034" EmptyString.
Definition newline : string := String "010" EmptyString.
Definition quoted (s : string) : string := quote +:+ s +:+ quote.
Definition line (s : string) : string := s +:+ newline.

Definition call_expr (index : Z) : string :=
  "call_tool(input_payload[" +:+ quoted (step_tool_key index) +:+ "], input_payload["
  +:+ quoted (step_args_key index) +:+ "], " +:+ pretty index +:+ ")".

Definition step_source (index max_attempts : Z) (prev_index : option Z) : string :=
  let after := match prev_index with Some p => " after step_" +:+ pretty p | None => "" end in
  let attempt_var := "__attempt_" +:+ pretty index in
  let result_var := "__result_" +:+ pretty index in
  line ("  step step_" +:+ pretty index +:+ after +:+ " {")
  +:+ line ("    let " +:+ attempt_var +:+ " = 1")
  +:+ line ("    let " +:+ result_var +:+ " = " +:+ call_expr index)
  +:+ line ("    while ((" +:+ result_var +:+ "[" +:+ quoted "success" +:+ "] != true) && ("
            +:+ attempt_var +:+ " < " +:+ pretty max_attempts +:+ ") && is_retryable_error(" +:+ result_var +:+ ")) {")
  +:+ line ("      " +:+ attempt_var +:+ " = " +:+ attempt_var +:+ " + 1")
  +:+ line ("      " +:+ result_var +:+ " = " +:+ call_expr index)
  +:+ line "    }"
  +:+ line ("    set_state(" +:+ quoted (step_result_key index) +:+ ", " +:+ result_var +:+ ")")
  +:+ line ("    if (" +:+ result_var +:+ "[" +:+ quoted "success" +:+ "] != true) {")
  +:+ line ("      throw " +:+ quoted ("agent step step_" +:+ pretty index +:+ " failed"))
  +:+ line "    }"
  +:+ "  }".

Record step_meta := StepMeta {
  sm_index : Z;
  sm_tool : string;
  sm_args : list (string * pyval);
  sm_risk_level : pyval;
  sm_description : pyval;
  sm_result_key : string;
  sm_max_attempts : Z
}.

(** One turn of the loop. *)
Definition compile_step (index : Z) (step : pyval) : result plan_error step_meta :=
  match step with
  | VDict d =>
      match py_get "tool" d with
      | VStr tool =>
          if decide (str_strip tool = "") then Err (NoToolName index)
          else
            let args := py_get "args" d in
            match args with
            | VNone | VDict _ =>
                let risk_level := match dict_get "risk_level" d with Some v => v | None => VStr "high" end in
                match resolve_max_attempts risk_level with
                | Some m =>
                    Ok (StepMeta index tool (match args with VDict a => a | _ => [] end) risk_level
                          (match dict_get "description" d with Some v => v | None => VStr "" end)
                          (step_result_key index) m)
                | None => Err (RiskNotString index)
                end
            | _ => Err (ArgsNotObject index (type_name args))
            end
      | _ => Err (NoToolName index)
      end
  | _ => Err (StepNotObject index)
  end.

(** The loop of [compile_agent_segment]: the payload, the metadata and the
    sources of the steps. *)
Fixpoint compile_steps (index : Z) (prev : option Z) (steps : list pyval) (payload : list (string * pyval)) :
    result plan_error (list (string * pyval) * list step_meta * list string) :=
  match steps with
  | [] => Ok (payload, [], [])
  | step :: rest =>
      match compile_step index step with
      | Err e => Err e
      | Ok m =>
          let payload := dict_set (step_args_key index) (VDict (sm_args m))
                           (dict_set (step_tool_key index) (VStr (sm_tool m)) payload) in
          match compile_steps (index + 1) (Some index) rest payload with
          | Err e => Err e
          | Ok (payload, metas, sources) =>
              Ok (payload, m :: metas, step_source index (sm_max_attempts m) prev :: sources)
          end
      end
  end.

Record compiled := Compiled {
  c_source : string;
  c_workflow_name : string;
  c_input_payload : list (string * pyval);
  c_steps : list step_meta
}.

Fixpoint join_lines (l : list string) : string :=
  match l with [] => "" | [s] => s | s :: l => line s +:+ join_lines l end.

Definition workflow_source (name : string) (sources : list string) : string :=
  line ("workflow " +:+ name +:+ " {") +:+ join_lines sources +:+ newline +:+ "}".

Section Compile.
(** Whether the Nodus front end accepts a source. *)
Variable compile_nodus_flow : string -> bool.

Definition compile_agent_segment (tool_steps : list pyval) (base_index : Z) (name : string) : result plan_error compiled :=
  match tool_steps with
  | [] => Err NoSteps
  | _ =>
      match compile_steps base_index None tool_steps [] with
      | Err e => Err e
      | Ok (payload, metas, sources) =>
          let source := workflow_source name sources in
          if compile_nodus_flow source then Ok (Compiled source name payload metas) else Err FlowRejected
      end
  end.

Definition compile_agent_plan (plan : list (string * pyval)) : result plan_error compiled :=
  match steps_of plan with
  | Err e => Err e
  | Ok steps => compile_agent_segment steps 0 WORKFLOW_NAME
  end.
End Compile.

(** ** What a plan asks for *)

(** The plan as a sequence: run a tool step, or wait for an event. *)
Inductive plan_event := RunTool (step : pyval) | WaitFor (event_type : pyval) (correlation_key : pyval).

Definition event_of (step : pyval) : plan_event :=
  if is_wait_step step
  then match step with VDict d => WaitFor (py_get "wait_for" d) (py_get "correlation_key" d) | _ => RunTool step end
  else RunTool step.

Definition wait_event (w : wait_point) : plan_event :=
  WaitFor (VStr (wp_event_type w)) (match wp_correlation_key w with Some k => VStr k | None => VNone end).

(** What executing the segments in order does. *)
Definition unroll (seg : segment) : list plan_event :=
  map RunTool (seg_tool_steps seg) ++ match seg_wait seg with Some w => [wait_event w] | None => [] end.

(** The steps of a segment with their plan indices. *)
Fixpoint number (base : Z) (steps : list pyval) : list (Z * pyval) :=
  match steps with [] => [] | s :: rest => (base, s) :: number (base + 1) rest end.

Definition indexed (seg : segment) : list (Z * pyval) := number (seg_base_index seg) (seg_tool_steps seg).

Definition tool_steps (steps : list pyval) : list pyval := base.filter (fun s => is_wait_step s = false) steps.

(** The skeleton of a segment: a function of the first index and the attempt
    budgets alone. *)
Fixpoint skeleton (index : Z) (prev : option Z) (budgets : list Z) : list string :=
  match budgets with
  | [] => []
  | m :: rest => step_source index m prev :: skeleton (index + 1) (Some index) rest
  end.

(** ** Lemmas *)

Lemma number_app base l1 l2 : number base (l1 ++ l2) = number base l1 ++ number (base + Z.of_nat (length l1)) l2.
Proof.
  revert base. induction l1 as [|s l1 IH]; intros base; simpl; [by rewrite Z.add_0_r|].
  rewrite IH. do 3 f_equal. lia.
Qed.

Lemma read_wait_event position step w : is_wait_step step = true -> read_wait position step = Ok w -> event_of step = wait_event w.
Proof.
  intros Hw. unfold event_of. rewrite Hw. destruct step as [| | | | | |d]; try done. simpl.
  destruct (py_get "wait_for" d); try done. case_decide; [done|].
  destruct (py_get "correlation_key" d); try done; by intros [= <-].
Qed.

Lemma split_steps_spec steps : forall position current base segs,
  split_steps position steps current base (Z.of_nat (length current)) = Ok segs ->
  flat_map unroll segs = map RunTool current ++ map event_of steps /\
  flat_map indexed segs = number base (current ++ tool_steps steps).
Proof.
  induction steps as [|step steps IH]; intros position current base segs; simpl.
  - intros [= <-]. simpl. unfold unroll, indexed. simpl. by rewrite !app_nil_r.
  - destruct (is_wait_step step) eqn:Hw.
    + destruct (read_wait position step) as [w|] eqn:Hr; [|done].
      destruct (split_steps _ steps [] _ 0) as [segs'|] eqn:Hs; [|done]. intros [= <-].
      apply (IH _ []) in Hs as [H1 H2]. simpl. rewrite H1, H2. unfold unroll, indexed. simpl. split.
      * rewrite <- app_assoc. simpl. by rewrite (read_wait_event _ _ _ Hw Hr).
      * unfold tool_steps. rewrite filter_cons, decide_False by congruence. by rewrite number_app.
    + intros Hs.
      replace (Z.of_nat (length current) + 1) with (Z.of_nat (length (current ++ [step]))) in Hs
        by (rewrite length_app; simpl; lia).
      apply IH in Hs as [H1 H2]. rewrite H1, H2. unfold event_of at 2. rewrite Hw, map_app. simpl.
      rewrite <- !app_assoc. simpl. split; [done|]. unfold tool_steps.
      by rewrite (filter_cons _ step steps), decide_True by done.
Qed.

Lemma expand_steps_spec steps base wait :
  steps <> [] ->
  flat_map unroll (expand_steps steps base wait) = unroll (Segment steps base wait) /\
  flat_map indexed (expand_steps steps base wait) = number base steps /\
  Forall (fun s => length (seg_tool_steps s) <= 1)%nat (expand_steps steps base wait).
Proof.
  revert base. induction steps as [|s [|s' steps] IH]; intros base Hne; [done| |].
  - simpl. unfold unroll, indexed. simpl. rewrite !app_nil_r. by repeat constructor.
  - change (expand_steps (s :: s' :: steps) base wait)
      with (Segment [s] base None :: expand_steps (s' :: steps) (base + 1) wait).
    destruct (IH (base + 1)) as (H1 & H2 & H3); [done|]. split_and!.
    + cbn [flat_map]. by rewrite H1.
    + cbn [flat_map]. by rewrite H2.
    + by constructor; [simpl; lia|].
Qed.

Lemma expand_segment_spec seg :
  flat_map unroll (expand_segment seg) = unroll seg /\ flat_map indexed (expand_segment seg) = indexed seg /\
  Forall (fun s => length (seg_tool_steps s) <= 1)%nat (expand_segment seg).
Proof.
  destruct seg as [[|s [|s' steps]] base wait]; unfold expand_segment; simpl seg_tool_steps; cbv iota.
  - simpl. rewrite !app_nil_r. split_and!; [done..|]. constructor; [simpl; lia|constructor].
  - simpl. rewrite !app_nil_r. split_and!; [done..|]. constructor; [simpl; lia|constructor].
  - by apply expand_steps_spec.
Qed.

Lemma expand_spec segs :
  flat_map unroll (expand_to_step_segments segs) = flat_map unroll segs /\
  flat_map indexed (expand_to_step_segments segs) = flat_map indexed segs /\
  Forall (fun s => length (seg_tool_steps s) <= 1)%nat (expand_to_step_segments segs).
Proof.
  unfold expand_to_step_segments. induction segs as [|seg segs (IH1 & IH2 & IH3)]; [done|]. simpl.
  destruct (expand_segment_spec seg) as (H1 & H2 & H3). rewrite !flat_map_app, H1, H2, IH1, IH2.
  split_and!; [done..|]. by apply Forall_app.
Qed.

(** The verifier numbers steps as the segments do. *)
Lemma collect_conditions_numbered steps ordinal :
  Forall (fun s => match s with VDict _ => True | _ => False end) steps ->
  collect_conditions ordinal steps
  = omap (fun ns : Z * pyval =>
      match ns.2 with
      | VDict d => let e := py_get "expects" d in
                   if py_truth e then Some (ns.1, match e with VList l => l | _ => [e] end) else None
      | _ => None
      end) (number ordinal (tool_steps steps)).
Proof.
  intros Hd. revert ordinal. induction Hd as [|step steps Hstep _ IH]; intros ordinal; [done|].
  destruct step as [| | | | | |d]; try done.
  change (collect_conditions ordinal (VDict d :: steps)) with
    (if is_wait_step (VDict d) then collect_conditions ordinal steps
     else let expects := py_get "expects" d in
          let more := collect_conditions (ordinal + 1) steps in
          if py_truth expects
          then (ordinal, match expects with VList l => l | _ => [expects] end) :: more else more).
  unfold tool_steps. rewrite filter_cons. destruct (is_wait_step (VDict d)) eqn:Hw.
  - rewrite decide_False by congruence. apply IH.
  - rewrite decide_True by done. cbv zeta. simpl. rewrite IH. by destruct (py_truth (py_get "expects" d)).
Qed.

Lemma string_app_split (s1 s2 k1 k2 : string) :
  String.length k1 = String.length k2 -> s1 +:+ k1 = s2 +:+ k2 -> s1 = s2 /\ k1 = k2.
Proof.
  revert s2. induction s1 as [|c s1 IH]; intros [|c2 s2] Hl H.
  - by rewrite !app_str_nil_l in H.
  - rewrite app_str_nil_l in H. subst k1. exfalso. rewrite app_str_cons in Hl. simpl in Hl.
    rewrite length_app_str in Hl. lia.
  - rewrite app_str_nil_l in H. subst k2. exfalso. rewrite app_str_cons in Hl. simpl in Hl.
    rewrite length_app_str in Hl. lia.
  - rewrite !app_str_cons in H. injection H as -> H. apply IH in H as [-> ->]; done.
Qed.

Lemma step_tool_key_inj i j : step_tool_key i = step_tool_key j -> i = j.
Proof.
  unfold step_tool_key. intros H. apply app_str_inj in H. apply string_app_split in H as [H _]; [|done].
  by apply (inj pretty) in H.
Qed.

Lemma step_args_key_inj i j : step_args_key i = step_args_key j -> i = j.
Proof.
  unfold step_args_key. intros H. apply app_str_inj in H. apply string_app_split in H as [H _]; [|done].
  by apply (inj pretty) in H.
Qed.

Lemma step_keys_differ i j : step_tool_key i <> step_args_key j.
Proof.
  unfold step_tool_key, step_args_key. intros H. apply app_str_inj in H.
  apply string_app_split in H as [_ H]; done.
Qed.

(** A compiled step is the planner's: its tool and its arguments. *)
Definition step_is (m : step_meta) (step : pyval) : Prop :=
  exists d, step = VDict d /\ py_get "tool" d = VStr (sm_tool m) /\ str_strip (sm_tool m) <> "" /\
    (py_get "args" d = VDict (sm_args m) \/ (py_get "args" d = VNone /\ sm_args m = [])).

Lemma attempts_agent r :
  Z.max 1 (max_attempts (resolve_retry_policy (Some "agent") r None None)) ∈ [1; 3].
Proof.
  unfold resolve_retry_policy. simpl. unfold RISK_TO_AGENT_POLICY. simpl.
  repeat case_decide; simpl; set_solver.
Qed.

Lemma compile_step_ok index step m :
  compile_step index step = Ok m ->
  step_is m step /\ sm_index m = index /\ sm_result_key m = step_result_key index /\ sm_max_attempts m ∈ [1; 3].
Proof.
  destruct step as [| | | | | |d]; try done. simpl. destruct (py_get "tool" d) as [| | | |tool| |] eqn:Ht; try done.
  destruct (decide (str_strip tool = "")) as [He|He]; [done|].
  set (risk := match dict_get "risk_level" d with Some v => v | None => VStr "high" end).
  assert (Hatt : forall a, resolve_max_attempts risk = Some a -> a ∈ [1; 3]).
  { intros a. unfold resolve_max_attempts. destruct (py_truth risk); [destruct risk; try done|];
      intros [= <-]; first [exact (attempts_agent None)|apply attempts_agent]. }
  destruct (py_get "args" d) as [| | | | | |a] eqn:Ha; try done;
    (destruct (resolve_max_attempts risk) as [k|]; [|done]); intros [= <-]; simpl;
    (split_and!; [|done|done|by apply Hatt]); exists d; (split_and!; [done..|]); auto.
Qed.

Lemma compile_steps_spec steps : forall index prev payload0 payload metas sources,
  compile_steps index prev steps payload0 = Ok (payload, metas, sources) ->
  sources = skeleton index prev (map sm_max_attempts metas) /\
  Forall2 (fun ns m => compile_step ns.1 ns.2 = Ok m) (number index steps) metas /\
  (forall i, i < index -> dict_get (step_tool_key i) payload = dict_get (step_tool_key i) payload0 /\
                          dict_get (step_args_key i) payload = dict_get (step_args_key i) payload0) /\
  (forall m, m ∈ metas -> dict_get (step_tool_key (sm_index m)) payload = Some (VStr (sm_tool m)) /\
                          dict_get (step_args_key (sm_index m)) payload = Some (VDict (sm_args m))).
Proof.
  induction steps as [|step steps IH]; intros index prev payload0 payload metas sources; simpl.
  - intros [= <- <- <-]. split_and!; [done|constructor|done|]. intros m Hm. by apply not_elem_of_nil in Hm.
  - destruct (compile_step index step) as [m|] eqn:Hm; [|done].
    destruct (compile_steps _ _ steps _) as [[[p ms] ss]|] eqn:Hs; [|done]. intros [= <- <- <-].
    apply IH in Hs as (H1 & H2 & H3 & H4). destruct (compile_step_ok _ _ _ Hm) as (_ & Hi & _).
    assert (Hkeep : forall i, i <> index ->
      dict_get (step_tool_key i) p = dict_get (step_tool_key i) (dict_set (step_args_key index) (VDict (sm_args m))
        (dict_set (step_tool_key index) (VStr (sm_tool m)) payload0)) ->
      dict_get (step_tool_key i) p = dict_get (step_tool_key i) payload0).
    { intros i Hne ->. rewrite dict_get_set_ne by (intros E; by apply (step_keys_differ i index)).
      apply dict_get_set_ne. intros E. by apply step_tool_key_inj in E. }
    split_and!.
    + simpl. by rewrite H1.
    + by constructor.
    + intros i Hlt. destruct (H3 i) as [Ht Ha]; [lia|]. split; [apply Hkeep; [lia|done]|].
      rewrite Ha. rewrite dict_get_set_ne by (intros E; apply step_args_key_inj in E; lia).
      apply dict_get_set_ne. intros E. by apply (step_keys_differ index i).
    + intros m' Hm'. apply elem_of_cons in Hm' as [->|Hm']; [|by apply H4].
      rewrite Hi. destruct (H3 index) as [Ht Ha]; [lia|]. rewrite Ht, Ha. split; [|apply dict_get_set_eq].
      rewrite dict_get_set_ne by (intros E; by apply (step_keys_differ index index)). apply dict_get_set_eq.
Qed.

(** ** Claims *)

(** Splitting keeps the plan: executing the segments in their order runs the
    plan's tool steps and waits its waits in the plan's order, with each segment
    or each step as its own resume point; every tool step carries its rank among
    the tool steps as its index, which is also the index under which the verifier
    looks for its result; and with step granularity no segment holds two steps. *)
Lemma split_preserves_plan granular plan segs :
  split_agent_plan granular plan = Ok segs ->
  exists steps, steps_of plan = Ok steps /\ steps <> [] /\
    flat_map unroll segs = map event_of steps /\
    flat_map indexed segs = number 0 (tool_steps steps) /\
    (granular = true -> Forall (fun s => length (seg_tool_steps s) <= 1)%nat segs) /\
    (Forall (fun s => match s with VDict _ => True | _ => False end) steps ->
     forall i conds, (i, conds) ∈ collect_conditions 0 steps -> exists d, (i, VDict d) ∈ flat_map indexed segs).
Proof.
  unfold split_agent_plan. destruct (steps_of plan) as [steps|] eqn:Hsteps; [|done].
  destruct (split_steps 0 steps [] 0 0) as [segs0|] eqn:Hs; [|done]. intros [= <-].
  apply (split_steps_spec steps 0 [] 0) in Hs as [H1 H2]. simpl in H1, H2.
  destruct (expand_spec segs0) as (E1 & E2 & E3).
  assert (F2 : flat_map indexed (if granular then expand_to_step_segments segs0 else segs0) = number 0 (tool_steps steps))
    by (destruct granular; congruence).
  exists steps. split_and!; [done| |destruct granular; congruence|done|by destruct granular|].
  - intros ->. unfold steps_of in Hsteps. destruct (py_truth (py_get "steps" plan)) eqn:Ht; [|done].
    destruct (py_get "steps" plan) as [| | | |s|l|d]; try done; simpl in *.
    + destruct s; [by vm_compute in Ht|done].
    + by destruct l.
    + by destruct d.
  - intros Hd i conds Hin. rewrite F2. rewrite collect_conditions_numbered in Hin by done.
    apply list_elem_of_omap in Hin as ([j step] & Hn & Hstep). simpl in Hstep.
    destruct step as [| | | | | |d]; try done. destruct (py_truth (py_get "expects" d)); [|done].
    injection Hstep as <- _. by exists d.
Qed.

(** A compiled segment carries the planner's values as data only: its
    source is determined by the first index and the attempt budgets (each one or
    three), whatever the tools, arguments, descriptions and risk texts are, and
    the payload gives every step its own tool and arguments under its own keys. *)
Lemma compiled_source_is_data_free cnf steps base name c :
  compile_agent_segment cnf steps base name = Ok c ->
  c_source c = workflow_source name (skeleton base None (map sm_max_attempts (c_steps c))) /\
  Forall (fun m => sm_max_attempts m ∈ [1; 3]) (c_steps c) /\
  Forall2 (fun ns m => sm_index m = ns.1 /\ step_is m ns.2) (number base steps) (c_steps c) /\
  Forall (fun m => dict_get (step_tool_key (sm_index m)) (c_input_payload c) = Some (VStr (sm_tool m)) /\
                   dict_get (step_args_key (sm_index m)) (c_input_payload c) = Some (VDict (sm_args m))) (c_steps c).
Proof.
  unfold compile_agent_segment. destruct steps as [|s0 rest]; [done|]. set (steps := s0 :: rest).
  destruct (compile_steps base None steps []) as [[[payload metas] sources]|] eqn:Hc; [|done].
  case_bool; [|done]. intros [= <-]. simpl.
  apply compile_steps_spec in Hc as (-> & H2 & _ & H4). split_and!; [done| | |].
  - apply Forall_forall. intros m Hm. clear -H2 Hm. induction H2 as [|ns m' l1 l2 Hs _ IH]; [by apply not_elem_of_nil in Hm|].
    apply elem_of_cons in Hm as [->|Hm]; [by apply compile_step_ok in Hs as (_ & _ & _ & ?)|auto].
  - eapply Forall2_impl; [exact H2|]. intros ns m Hs. by apply compile_step_ok in Hs as (? & ? & _).
  - apply Forall_forall. exact H4.
Qed.

(** Two tool steps around a wait. *)
Definition demo_plan : list (string * pyval) :=
  [("steps", VList
      [VDict [("tool", VStr "search"); ("args", VDict [("q", VStr "x")]); ("risk_level", VStr "low")];
       VDict [("wait_for", VStr "user.ok")];
       VDict [("tool", VStr "store"); ("expects", VDict [("status", VStr "success")])]])].

(** Witness of [split_preserves_plan]. *)
Lemma split_preserves_plan_witness :
  exists segs, split_agent_plan true demo_plan = Ok segs /\ flat_map indexed segs <> [] /\
    Forall (fun s => length (seg_tool_steps s) <= 1)%nat segs.
Proof.
  eexists. split_and!; [vm_compute; reflexivity|vm_compute; discriminate|].
  destruct (split_preserves_plan true demo_plan _ eq_refl) as (steps & _ & _ & _ & _ & H & _).
  by apply H.
Defined.

(** Witness of [compiled_source_is_data_free]: the first step of the plan. *)
Lemma compiled_source_witness :
  exists c, compile_agent_segment (fun _ => true)
              [VDict [("tool", VStr "search"); ("risk_level", VStr "low")]; VDict [("tool", VStr "store")]] 4 "w" = Ok c /\
    c_source c = workflow_source "w" (skeleton 4 None [3; 1]).
Proof.
  eexists. split; [vm_compute; reflexivity|].
  apply (compiled_source_is_data_free (fun _ => true)
           [VDict [("tool", VStr "search"); ("risk_level", VStr "low")]; VDict [("tool", VStr "store")]] 4 "w").
  vm_compute. reflexivity.
Defined.
