(* ===== verification/StepReferences.v ===== *)
(** * Step references (src/AINDY/agents/step_references.py)

    An argument of a plan step may be the result of an earlier step, or a field
    inside it. The plan-time check ([validate_plan_references], with the path
    check against a tool's declared result schema) and the run-time substitution
    ([resolve_step_references]). Error texts are the constructors below; [render]
    is [str()] of a value that is not a string, [tool_result_schema] the schema a
    registered tool declares. [None] of the plan-time check is an exception. *)

From S2P Require Import Prelude PyStr PyVal ResultPath AgentPlan.
From stdpp Require Import pretty.
From Stdlib Require Import Ascii.

Local Open Scope string_scope.
Local Open Scope Z_scope.
Local Open Scope list_scope.

Definition REFERENCE_KEY : string := "$from_step".
Definition PATH_KEY : string := "path".
Definition SCALAR_TYPES : list string := ["string"; "number"; "integer"; "boolean"; "null"].

(** The environment value of AINDY_PLAN_STEP_REFERENCES. *)
Definition step_references_enabled (env : string) : bool :=
  bool_decide (str_lower (str_strip env) ∉ ["0"; "false"; "no"; "off"]).

Definition looks_like_reference (v : pyval) : bool :=
  match v with VDict d => dict_mem REFERENCE_KEY d | _ => false end.

Fixpoint contains_reference (v : pyval) : bool :=
  match v with
  | VDict d => dict_mem REFERENCE_KEY d || existsb (fun kv => contains_reference kv.2) d
  | VList l => existsb contains_reference l
  | _ => false
  end.

(** ** The shape of a reference *)

Inductive ref_error :=
| ExtraKeys (keys : list string)
| BadTarget (target : pyval)
| NotEarlier (target own : Z)
| BadPath (path : pyval).

Definition target_errors (own_index : option Z) (target : pyval) : list ref_error :=
  match target with
  | VInt z =>
      if z <? 0 then [BadTarget target]
      else match own_index with Some own => if own <=? z then [NotEarlier z own] else [] | None => [] end
  | _ => [BadTarget target]
  end.

Definition reference_errors (ref : list (string * pyval)) (own_index : option Z) : list ref_error :=
  let extra := base.filter (fun k => k ∉ [REFERENCE_KEY; PATH_KEY]) (dict_keys ref) in
  (match extra with [] => [] | _ => [ExtraKeys (py_sorted extra)] end)
  ++ target_errors own_index (py_get REFERENCE_KEY ref)
  ++ match dict_get PATH_KEY ref with Some p => if path_is_well_formed p then [] else [BadPath p] | None => [] end.

(** Every reference of a value, with where it stands. *)
Fixpoint walk_references (v : pyval) (where_ : string) : list (string * list (string * pyval)) :=
  match v with
  | VDict d =>
      if dict_mem REFERENCE_KEY d then [(where_, d)]
      else (fix go (d : list (string * pyval)) :=
              match d with [] => [] | (k, x) :: d' => walk_references x (where_ +:+ "." +:+ k) ++ go d' end) d
  | VList l =>
      (fix go (i : Z) (l : list pyval) :=
         match l with [] => [] | x :: l' => walk_references x (where_ +:+ "." +:+ pretty i) ++ go (i + 1) l' end) 0 l
  | _ => []
  end.

(** ** Paths against a result schema *)

Definition is_index (part : string) : bool := match int_of_string part with Some _ => true | None => false end.

Inductive path_error :=
| NoSuchKey (here part : string)
| NotAnIndex (here part : string)
| ScalarNode (here kind part : string).

(** What one segment of the path meets at a schema node: the node below, no
    constraint from here on, or an error. *)
Inductive schema_step := Below (node : pyval) | Open | Refuse (e : path_error).

Definition as_dict (v : pyval) : option (list (string * pyval)) := match v with VDict d => Some d | _ => None end.

Definition declares_list (n : list (string * pyval)) : bool :=
  dict_mem "items" n || py_eq (py_get "type" n) (VStr "array").

Definition scalar_kind (n : list (string * pyval)) : option string :=
  match py_get "type" n with VStr kind => if decide (kind ∈ SCALAR_TYPES) then Some kind else None | _ => None end.

Definition step_schema (here : string) (node : pyval) (part : string) : schema_step :=
  match as_dict node with
  | None => Open
  | Some n =>
      match as_dict (py_get "properties" n) with
      | Some props =>
          match dict_get part props with
          | Some sub => Below sub
          | None => match py_get "additionalProperties" n with
                    | VBool true => Open
                    | VDict e => Below (VDict e)
                    | _ => Refuse (NoSuchKey here part)
                    end
          end
      | None =>
          if declares_list n then if is_index part then Below (py_get "items" n) else Refuse (NotAnIndex here part)
          else match scalar_kind n with Some kind => Refuse (ScalarNode here kind part) | None => Open end
      end
  end.

Fixpoint schema_parts (node : pyval) (walked parts : list string) : option path_error :=
  match parts with
  | [] => None
  | part :: parts' =>
      let joined := join_char "." walked in
      let here := if decide (joined = "") then "the result" else joined in
      match step_schema here node part with
      | Below node' => schema_parts node' (walked ++ [part]) parts'
      | Open => None
      | Refuse e => Some e
      end
  end.

Definition result_path_error (schema : pyval) (path : string) : option path_error :=
  schema_parts schema [] (split_char "." path).

(** ** Plan time *)

Inductive plan_ref_error :=
| ShapeError (ordinal : Z) (where_ : string) (e : ref_error)
| PathMissing (ordinal : Z) (where_ path : string) (target : Z) (tool : string) (e : path_error).

Section PlanTime.
Variable render : pyval -> string.
Variable tool_result_schema : string -> option (list (string * pyval)).

(** One reference of the step at [ordinal]; [None] is IndexError. *)
Definition check_reference (ordinal : Z) (tools : list string) (wr : string * list (string * pyval)) :
    option (list plan_ref_error) :=
  let '(where_, ref) := wr in
  match reference_errors ref (Some ordinal) with
  | [] =>
      match dict_get PATH_KEY ref, py_get REFERENCE_KEY ref with
      | Some (VStr path), VInt target =>
          match nth_error tools (Z.to_nat target) with
          | None => None
          | Some tool =>
              match tool_result_schema tool with
              | Some ((_ :: _) as schema) =>
                  match result_path_error (VDict schema) path with
                  | Some e => Some [PathMissing ordinal where_ path target tool e]
                  | None => Some []
                  end
              | _ => Some []
              end
          end
      | _, _ => Some []
      end
  | shape => Some (map (ShapeError ordinal where_) shape)
  end.

Fixpoint check_references (ordinal : Z) (tools : list string) (refs : list (string * list (string * pyval))) :
    option (list plan_ref_error) :=
  match refs with
  | [] => Some []
  | wr :: rest =>
      match check_reference ordinal tools wr, check_references ordinal tools rest with
      | Some e1, Some e2 => Some (e1 ++ e2)
      | _, _ => None
      end
  end.

Fixpoint validate_steps (tools : list string) (steps : list pyval) : option (list plan_ref_error) :=
  match steps with
  | [] => Some []
  | VDict d :: rest =>
      if is_wait_step (VDict d) then validate_steps tools rest
      else
        match check_references (Z.of_nat (length tools)) tools (walk_references (py_get "args" d) "args"),
              validate_steps (tools ++ [py_str render (py_or (py_get "tool" d) (VStr ""))]) rest with
        | Some e1, Some e2 => Some (e1 ++ e2)
        | _, _ => None
        end
  | _ :: rest => validate_steps tools rest
  end.

Definition validate_plan_references (plan : pyval) : option (list plan_ref_error) :=
  match plan with
  | VDict p =>
      let steps := py_get "steps" p in
      if py_truth steps then match py_list steps with Some l => validate_steps [] l | None => None end else Some []
  | _ => Some []
  end.
End PlanTime.

(** ** Run time *)

(** What a lookup answers for a step: its entry, nothing, or an exception. *)
Inductive lookup_answer := LEntry (entry : list (string * pyval)) | LNone | LRaised.

Inductive resolve_error :=
| BadShape (e : ref_error)
| Unreadable (target : Z)
| NoRecord (target : Z)
| NotSuccess (target : Z) (status : string)
| NoField (target : Z) (path : string).

Section RunTime.
Variable render : pyval -> string.
Variable lookup : Z -> lookup_answer.

(** One reference: its value, or the errors it adds. *)
Definition resolve_reference (where_ : string) (ref : list (string * pyval)) : pyval * list (string * resolve_error) :=
  match reference_errors ref None, py_get REFERENCE_KEY ref with
  | [], VInt target =>
      match lookup target with
      | LRaised => (VNone, [(where_, Unreadable target)])
      | LNone => (VNone, [(where_, NoRecord target)])
      | LEntry entry =>
          let status := py_str render (py_or (py_get "status" entry) (VStr "")) in
          if decide (status = "success") then
            let result := py_get "result" entry in
            match dict_get PATH_KEY ref with
            | None => (result, [])
            | Some p =>
                let path := py_str render p in
                match resolve_path result path with
                | Some v => (v, [])
                | None => (VNone, [(where_, NoField target path)])
                end
            end
          else (VNone, [(where_, NotSuccess target status)])
      end
  | shape, _ => (VNone, map (fun e => (where_, BadShape e)) shape)
  end.

(** [_resolve], returning the errors it appends. *)
Fixpoint resolve_value (v : pyval) (where_ : string) : pyval * list (string * resolve_error) :=
  match v with
  | VDict d =>
      if dict_mem REFERENCE_KEY d then resolve_reference where_ d
      else
        let r := (fix go (d : list (string * pyval)) : list (string * pyval) * list (string * resolve_error) :=
                    match d with
                    | [] => ([], [])
                    | (k, x) :: d' =>
                        let '(y, e) := resolve_value x (where_ +:+ "." +:+ k) in
                        let '(d'', e') := go d' in ((k, y) :: d'', e ++ e')
                    end) d in
        (VDict r.1, r.2)
  | VList l =>
      let r := (fix go (i : Z) (l : list pyval) : list pyval * list (string * resolve_error) :=
                  match l with
                  | [] => ([], [])
                  | x :: l' =>
                      let '(y, e) := resolve_value x (where_ +:+ "." +:+ pretty i) in
                      let '(l'', e') := go (i + 1) l' in (y :: l'', e ++ e')
                  end) 0 l in
      (VList r.1, r.2)
  | _ => (v, [])
  end.

Definition resolve_step_references (args : pyval) : pyval * list (string * resolve_error) := resolve_value args "args".
End RunTime.

(** The outcome of a step whose references do not resolve; [text] renders them. *)
Definition reference_failure (text : list (string * resolve_error) -> string) (errors : list (string * resolve_error)) :
    list (string * pyval) :=
  [("success", VBool false); ("result", VNone);
   ("error", VStr ("step reference could not be resolved: " +:+ text errors)); ("failure_class", VStr "invalid")].

(** ** Lookups *)

(** The flow state's step results; a later entry for an index wins. *)
Fixpoint entry_at (index : Z) (entries : list pyval) : option (list (string * pyval)) :=
  match entries with
  | [] => None
  | e :: rest =>
      match entry_at index rest with
      | Some d => Some d
      | None => match e with
                | VDict d => match py_get "step_index" d with
                             | VInt z => if z =? index then Some d else None
                             | VBool b => if (if b then 1 else 0) =? index then Some d else None
                             | _ => None
                             end
                | _ => None
                end
      end
  end.

Definition lookup_from_step_results (entries : list pyval) (index : Z) : lookup_answer :=
  match entry_at index entries with Some d => LEntry d | None => LNone end.

(** The guest's [__step_N_result]. *)
Definition lookup_from_guest_state (state : pyval) (index : Z) : lookup_answer :=
  match state with
  | VDict st =>
      match py_get (step_result_key index) st with
      | VDict e => LEntry [("status", VStr (if py_truth (py_get "success" e) then "success" else "failed"));
                           ("result", py_get "result" e)]
      | _ => LNone
      end
  | _ => LNone
  end.

(** The [agent_steps] rows of a run, by step index. *)
Definition lookup_from_agent_steps (rows : list (Z * (string * pyval))) (index : Z) : lookup_answer :=
  match dict_get index rows with
  | Some (status, result) => LEntry [("status", VStr status); ("result", result)]
  | None => LNone
  end.

(** ** Specifications *)

(** A value shaped by a schema node: objects with declared properties are closed
    unless they say otherwise, lists hold their items, scalars are no container,
    and a node that declares nothing allows everything. *)
Fixpoint conforms (v node : pyval) {struct v} : bool :=
  match as_dict node with
  | None => true
  | Some n =>
      match as_dict (py_get "properties" n) with
      | Some props =>
          match v with
          | VDict d =>
              forallb (fun kv => match kv with (k, x) =>
                match dict_get k props with
                | Some sub => conforms x sub
                | None => match py_get "additionalProperties" n with
                          | VBool true => true
                          | VDict e => conforms x (VDict e)
                          | _ => false
                          end
                end end) d
          | _ => false
          end
      | None =>
          if declares_list n
          then match v with VList l => forallb (fun x => conforms x (py_get "items" n)) l | _ => false end
          else match scalar_kind n with
               | Some _ => match v with VDict _ | VList _ => false | _ => true end
               | None => true
               end
      end
  end.

Section Spec.
Variable render : pyval -> string.
Variable lookup : Z -> lookup_answer.

(** The value of a reference, when it has one. *)
Definition ref_value (ref : list (string * pyval)) : option pyval :=
  match reference_errors ref None, py_get REFERENCE_KEY ref with
  | [], VInt target =>
      match lookup target with
      | LEntry entry =>
          if decide (py_str render (py_or (py_get "status" entry) (VStr "")) = "success")
          then match dict_get PATH_KEY ref with
               | None => Some (py_get "result" entry)
               | Some p => resolve_path (py_get "result" entry) (py_str render p)
               end
          else None
      | _ => None
      end
  | _, _ => None
  end.

(** All references replaced by their values, or nothing. *)
Fixpoint subst (v : pyval) : option pyval :=
  match v with
  | VDict d =>
      if dict_mem REFERENCE_KEY d then ref_value d
      else option_map VDict
             ((fix go (d : list (string * pyval)) : option (list (string * pyval)) :=
                 match d with
                 | [] => Some []
                 | (k, x) :: d' => match subst x, go d' with Some y, Some d'' => Some ((k, y) :: d'') | _, _ => None end
                 end) d)
  | VList l =>
      option_map VList
        ((fix go (l : list pyval) : option (list pyval) :=
            match l with
            | [] => Some []
            | x :: l' => match subst x, go l' with Some y, Some l'' => Some (y :: l'') | _, _ => None end
            end) l)
  | _ => Some v
  end.

(** ** Lemmas *)

(** Splits the pair the rest of a traversal returns. *)
Ltac case_rest := match goal with |- context [let '(_, _) := ?g in _] => destruct g as [? ?] end; simpl in *.

(** One element of a traversal, after the substitution of its value. *)
Ltac traverse_cons Hx IH :=
  match type of Hx with match ?o with _ => _ end => destruct o as [?|] end;
  [ rewrite Hx;
    match type of IH with match option_map _ ?o with _ => _ end => destruct o as [?|] end; simpl in *; case_rest;
    [by injection IH as -> ->|done]
  | match type of Hx with (?r).2 <> [] => let e := fresh "e" in destruct r as [? e]; simpl in Hx; case_rest; by destruct e end ].

Lemma resolve_reference_spec w ref :
  match ref_value ref with
  | Some v => resolve_reference render lookup w ref = (v, [])
  | None => (resolve_reference render lookup w ref).2 <> []
  end.
Proof.
  unfold ref_value, resolve_reference.
  assert (Hsh : reference_errors ref None = [] -> exists z, py_get REFERENCE_KEY ref = VInt z).
  { unfold reference_errors, target_errors. intros H. apply app_nil in H as [_ H]. apply app_nil in H as [H _].
    destruct (py_get REFERENCE_KEY ref); try done. eauto. }
  destruct (reference_errors ref None) as [|e es] eqn:Er.
  - destruct Hsh as [z ->]; [done|]. destruct (lookup z) as [entry| |]; [|done..].
    case_decide; [|done]. destruct (dict_get PATH_KEY ref) as [p|]; [|done].
    by destruct (resolve_path _ _).
  - by destruct (py_get REFERENCE_KEY ref).
Qed.

(** The run-time traversal computes the substitution: its value when every
    reference has one, some error otherwise. *)
Lemma resolve_value_spec v : forall w,
  match subst v with
  | Some v' => resolve_value render lookup v w = (v', [])
  | None => (resolve_value render lookup v w).2 <> []
  end.
Proof.
  induction v as [| | | | |l IH|d IH] using pyval_nested_ind; intros w; try done.
  - simpl. generalize 0 as i. induction IH as [|x l Hx _ IHl]; intros i; [done|].
    specialize (Hx (w +:+ "." +:+ pretty i)). specialize (IHl (i + 1)). traverse_cons Hx IHl.
  - simpl. destruct (dict_mem REFERENCE_KEY d); [apply resolve_reference_spec|].
    induction IH as [|[k x] d Hx _ IHd]; [done|]. simpl in Hx.
    specialize (Hx (w +:+ "." +:+ k)). traverse_cons Hx IHd.
Qed.

(** The errors are those of the references the walk finds, in its order. *)
Lemma resolve_value_errors v : forall w,
  (resolve_value render lookup v w).2
  = flat_map (fun wr => (resolve_reference render lookup wr.1 wr.2).2) (walk_references v w).
Proof.
  induction v as [| | | | |l IH|d IH] using pyval_nested_ind; intros w; try done.
  - simpl. generalize 0 as i. induction IH as [|x l Hx _ IHl]; intros i; [done|].
    rewrite flat_map_app, <- IHl, <- Hx.
    destruct (resolve_value render lookup x _) as [y e].
    by case_rest.
  - simpl. destruct (dict_mem REFERENCE_KEY d); [simpl; by rewrite app_nil_r|].
    induction IH as [|[k x] d Hx _ IHd]; [done|]. simpl in Hx.
    rewrite flat_map_app, <- IHd, <- Hx.
    destruct (resolve_value render lookup x _) as [y e].
    by case_rest.
Qed.
End Spec.

Lemma conforms_step v node here part w :
  conforms v node = true -> step_path v part = Some w ->
  match step_schema here node part with Below sub => conforms w sub = true | Open => True | Refuse _ => False end.
Proof.
  unfold step_schema. destruct v as [| | | | |l|d]; simpl; try done;
    (destruct (as_dict node) as [n|]; [|done]); (destruct (as_dict (py_get "properties" n)) as [props|]; [try done|]).
  - destruct (declares_list n); [|by destruct (scalar_kind n)]. intros Hall.
    unfold is_index. destruct (int_of_string part) as [i|]; [|done]. intros Hi. apply py_index_elem in Hi.
    apply (proj1 (forallb_forall _ _) Hall). by apply list_elem_of_In.
  - intros Hall Hg. apply dict_get_elem in Hg. apply list_elem_of_In in Hg.
    assert (H := proj1 (forallb_forall _ _) Hall _ Hg). simpl in H.
    destruct (dict_get part props); [done|]. by destruct (py_get "additionalProperties" n) as [|[]| | | | |].
  - destruct (declares_list n); [done|]. by destruct (scalar_kind n).
Qed.

Lemma schema_parts_sound parts : forall v node walked w,
  conforms v node = true -> resolve_parts v parts = Some w -> schema_parts node walked parts = None.
Proof.
  induction parts as [|part parts IH]; intros v node walked w Hc Hr; [done|]. simpl in *.
  destruct (step_path v part) as [x|] eqn:Hs; [|done].
  set (here := if decide (join_char "." walked = "") then _ else _).
  pose proof (conforms_step v node here part x Hc Hs) as H.
  destruct (step_schema here node part); [by eapply IH|done|done].
Qed.

(** A reference that passes the check of a step points to an earlier one, and
    passes again at run time. *)
Lemma reference_errors_nil ref own :
  reference_errors ref (Some own) = [] ->
  reference_errors ref None = [] /\ exists z, py_get REFERENCE_KEY ref = VInt z /\ 0 <= z < own.
Proof.
  unfold reference_errors, target_errors. intros H. apply app_nil in H as [-> H]. apply app_nil in H as [H ->].
  destruct (py_get REFERENCE_KEY ref) as [| |z| | | |]; try done.
  destruct (z <? 0) eqn:Hz; [done|]. destruct (own <=? z) eqn:Ho; [done|]. boolprop.
  split; [done|]. exists z. split; [done|lia].
Qed.

Section PlanLemmas.
Variable render : pyval -> string.
Variable schema_of : string -> option (list (string * pyval)).

Lemma check_reference_total tools wr : check_reference schema_of (Z.of_nat (length tools)) tools wr <> None.
Proof.
  destruct wr as [w ref]. unfold check_reference.
  destruct (reference_errors ref (Some (Z.of_nat (length tools)))) as [|e es] eqn:Er; [|done].
  apply reference_errors_nil in Er as (_ & z & -> & Hz).
  destruct (dict_get PATH_KEY ref) as [[]|]; try done.
  destruct (nth_error tools (Z.to_nat z)) as [tool|] eqn:Hn.
  - destruct (schema_of tool) as [[|kv sch]|]; try done. by destruct (result_path_error _ _).
  - apply nth_error_None in Hn. lia.
Qed.

Lemma check_reference_nil n tools w ref :
  check_reference schema_of n tools (w, ref) = Some [] -> reference_errors ref (Some n) = [].
Proof. unfold check_reference. by destruct (reference_errors ref (Some n)). Qed.

Lemma check_references_total tools refs : check_references schema_of (Z.of_nat (length tools)) tools refs <> None.
Proof.
  induction refs as [|wr refs IH]; [done|]. simpl. pose proof (check_reference_total tools wr).
  destruct (check_reference _ _ _ wr); [|done]. by destruct (check_references _ _ _ refs).
Qed.

Lemma check_references_nil n tools refs w ref :
  check_references schema_of n tools refs = Some [] -> (w, ref) ∈ refs -> reference_errors ref (Some n) = [].
Proof.
  induction refs as [|wr refs IH]; simpl; intros H Hin; [by apply not_elem_of_nil in Hin|].
  destruct (check_reference _ _ _ wr) as [e1|] eqn:H1; [|done].
  destruct (check_references _ _ _ refs) as [e2|]; [|done]. injection H as H. apply app_nil in H as [-> ->].
  apply elem_of_cons in Hin as [<-|Hin]; [by eapply check_reference_nil|by apply IH].
Qed.

Lemma validate_steps_total steps : forall tools, validate_steps render schema_of tools steps <> None.
Proof.
  induction steps as [|step steps IH]; intros tools; [done|]. destruct step as [| | | | | |d]; simpl; try apply IH.
  destruct (negb _ && negb _); [apply IH|]. pose proof (check_references_total tools (walk_references (py_get "args" d) "args")).
  destruct (check_references _ _ _ _); [|done]. specialize (IH (tools ++ [py_str render (py_or (py_get "tool" d) (VStr ""))])).
  by destruct (validate_steps _ _ _ steps).
Qed.

(** The steps the check counts. *)
Definition counted (steps : list pyval) : list pyval :=
  base.filter (fun s => is_Some (as_dict s) /\ is_wait_step s = false) steps.

Lemma validate_steps_nil steps : forall tools n d w ref,
  validate_steps render schema_of tools steps = Some [] ->
  (n, VDict d) ∈ number (Z.of_nat (length tools)) (counted steps) ->
  (w, ref) ∈ walk_references (py_get "args" d) "args" -> reference_errors ref (Some n) = [].
Proof.
  induction steps as [|step steps IH]; intros tools n d w ref Hv Hn Hw; [by apply not_elem_of_nil in Hn|].
  unfold counted in Hn. rewrite filter_cons in Hn.
  destruct step as [| | | | | |d0]; try (rewrite decide_False in Hn by (by intros [[? ?] _]); by eapply IH).
  change (validate_steps render schema_of tools (VDict d0 :: steps)) with
    (if is_wait_step (VDict d0) then validate_steps render schema_of tools steps
     else match check_references schema_of (Z.of_nat (length tools)) tools (walk_references (py_get "args" d0) "args"),
                validate_steps render schema_of (tools ++ [py_str render (py_or (py_get "tool" d0) (VStr ""))]) steps with
          | Some e1, Some e2 => Some (e1 ++ e2) | _, _ => None end) in Hv.
  destruct (is_wait_step (VDict d0)) eqn:Hwait.
  - rewrite decide_False in Hn by (intros [_ E]; congruence). by eapply IH.
  - rewrite decide_True in Hn by (split; [eauto|done]).
    destruct (check_references _ _ _ _) as [e1|] eqn:H1; [|done].
    destruct (validate_steps _ _ _ steps) as [e2|] eqn:H2; [|done]. injection Hv as Hv. apply app_nil in Hv as [-> ->].
    simpl in Hn. apply elem_of_cons in Hn as [[= -> ->]|Hn]; [by eapply check_references_nil|].
    eapply IH; [exact H2| |exact Hw]. rewrite length_app. simpl. by replace (Z.of_nat (length tools + 1)) with (Z.of_nat (length tools) + 1) by lia.
Qed.
End PlanLemmas.

(** ** Claims *)

(** References, from plan time to run time: the plan-time check of a list of
    steps never raises; in a plan it accepts, every reference of a tool step
    points to a strictly earlier tool step; and when those earlier steps succeeded
    with results in which the referenced paths exist, the step's arguments resolve
    without error, to the arguments with every reference replaced by its value. In
    every case the run-time traversal gives the substituted arguments, or errors
    for which the step is not run, and never a placeholder. *)
Lemma validated_references_resolve render schema_of p steps :
  py_get "steps" p = VList steps ->
  validate_plan_references render schema_of (VDict p) <> None /\
  (validate_plan_references render schema_of (VDict p) = Some [] ->
   forall n d, (n, VDict d) ∈ number 0 (counted steps) ->
     (forall w ref, (w, ref) ∈ walk_references (py_get "args" d) "args" ->
        exists z, py_get REFERENCE_KEY ref = VInt z /\ 0 <= z < n) /\
     (forall lookup,
        (forall w ref z, (w, ref) ∈ walk_references (py_get "args" d) "args" -> py_get REFERENCE_KEY ref = VInt z ->
           exists entry, lookup z = LEntry entry /\ py_get "status" entry = VStr "success" /\
             forall path, dict_get PATH_KEY ref = Some path -> resolve_path (py_get "result" entry) (py_str render path) <> None) ->
        exists v, subst render lookup (py_get "args" d) = Some v /\
                  resolve_step_references render lookup (py_get "args" d) = (v, []))) /\
  (forall lookup args,
     match subst render lookup args with
     | Some v => resolve_step_references render lookup args = (v, [])
     | None => (resolve_step_references render lookup args).2 <> []
     end).
Proof.
  intros Hp. unfold validate_plan_references. rewrite Hp. split_and!.
  - destruct steps as [|s0 rest]; [done|]. apply validate_steps_total.
  - intros Hv n d Hn. assert (Hv' : validate_steps render schema_of [] steps = Some []) by (by destruct steps).
    assert (Hrefs : forall w ref, (w, ref) ∈ walk_references (py_get "args" d) "args" ->
      reference_errors ref None = [] /\ exists z, py_get REFERENCE_KEY ref = VInt z /\ 0 <= z < n).
    { intros w ref Hw. apply reference_errors_nil. by eapply (validate_steps_nil render schema_of steps []). }
    split; [intros w ref Hw; by apply Hrefs in Hw as [_ ?]|]. intros lookup Hlk.
    assert (He : (resolve_step_references render lookup (py_get "args" d)).2 = []).
    { unfold resolve_step_references. rewrite resolve_value_errors. apply flat_map_nil. intros [w ref] Hw. simpl.
      destruct (Hrefs w ref Hw) as (Hsh & z & Hz & _). destruct (Hlk w ref z Hw Hz) as (entry & Hl & Hst & Hpath).
      unfold resolve_reference. rewrite Hsh, Hz, Hl, Hst. simpl.
      destruct (dict_get PATH_KEY ref) as [q|] eqn:Hq; [|done]. specialize (Hpath q eq_refl).
      by destruct (resolve_path _ _). }
    pose proof (resolve_value_spec render lookup (py_get "args" d) "args") as H.
    unfold resolve_step_references in *. destruct (subst render lookup (py_get "args" d)) as [v|]; [eauto|done].
  - intros lookup args. apply resolve_value_spec.
Qed.

(** C40: the check of a path against a result schema refuses only impossible
    paths: a path that resolves in some value of the declared shape is never
    refused. *)
Theorem schema_refusal_justified schema v path w :
  conforms v schema = true -> resolve_path v path = Some w -> result_path_error schema path = None.
Proof. unfold resolve_path, result_path_error. apply schema_parts_sound. Qed.

(** A search result and the schema that describes it. *)
Definition demo_schema : pyval :=
  VDict [("properties", VDict [("hits", VDict [("items", VDict [("properties", VDict [("id", VDict [("type", VStr "string")])])])])])].
Definition demo_result : pyval := VDict [("hits", VList [VDict [("id", VStr "a7")]])].
Definition demo_ref_plan : list (string * pyval) :=
  [("steps", VList
      [VDict [("tool", VStr "search")]; VDict [("wait_for", VStr "ok")];
       VDict [("tool", VStr "store");
              ("args", VDict [("key", VDict [("$from_step", VInt 0); ("path", VStr "hits.0.id")])])]])].

(** Witness of [schema_refusal_justified]; the schema does refuse other paths. *)
Lemma schema_refusal_witness :
  result_path_error demo_schema "hits.0.id" = None /\ result_path_error demo_schema "hits.0.name" <> None /\
  result_path_error demo_schema "hits.first" <> None.
Proof.
  split_and!.
  - apply (schema_refusal_justified demo_schema demo_result "hits.0.id" (VStr "a7")); reflexivity.
  - vm_compute. discriminate.
  - vm_compute. discriminate.
Defined.

(** Witness of [validated_references_resolve]. *)
Lemma validated_references_witness :
  let lookup := lookup_from_agent_steps [(0, ("success", demo_result))] in
  resolve_step_references (fun _ => "") lookup
    (VDict [("key", VDict [("$from_step", VInt 0); ("path", VStr "hits.0.id")])]) = (VDict [("key", VStr "a7")], []).
Proof.
  destruct (validated_references_resolve (fun _ => "") (fun t => if decide (t = "search") then as_dict demo_schema else None)
              demo_ref_plan _ eq_refl) as (_ & H & _).
  destruct (H eq_refl 1 _ ltac:(right; left)) as [_ Hr].
  destruct (Hr (lookup_from_agent_steps [(0, ("success", demo_result))])) as (v & Hv & Hres).
  - intros w ref z Hin Hz. simpl in Hin. apply list_elem_of_singleton in Hin as [= -> ->].
    injection Hz as <-. eexists. split_and!; [reflexivity|reflexivity|]. intros path [= <-]. vm_compute. discriminate.
  - vm_compute in Hv. injection Hv as <-. exact Hres.
Defined.
