(* ===== verification/Cancellation.v ===== *)
(** * Run cancellation (src/AINDY/kernel/cancellation.py)

    Whether a run has ended, read through a per-process cache: a terminal answer
    is kept for the life of the process, a live one for a bounded time. The read
    of the run's row is an argument of each call; the two critical sections of a
    call ([peek] before the read, [record] after it) are separate, so calls of
    several threads interleave. Times are in milliseconds of the monotonic clock. *)

From S2P Require Import Prelude ConditionCodes.

Local Open Scope string_scope.
Local Open Scope Z_scope.
Local Open Scope list_scope.

Definition DEFAULT_TTL : Z := 2000.

Definition TERMINAL_RUN_STATUSES : list string := AGENT_TERMINAL_STATUSES ++ ["refused"].

Record cache := Cache { ca_negative : list (string * Z); ca_terminal : list (string * string) }.

Definition reset_cancellation_cache (c : cache) : cache := Cache [] [].

(** What reading the row gives: its status, no row, or an exception. *)
Inductive status_read := ReadStatus (s : string) | ReadNoRow | ReadFailed.

(** The first critical section: an answer from the cache, if it has one. *)
Definition peek (now : Z) (key : string) (c : cache) : option (option string) :=
  match dict_get key (ca_terminal c) with
  | Some st => Some (Some st)
  | None => match dict_get key (ca_negative c) with
            | Some expires => if now <? expires then Some None else None
            | None => None
            end
  end.

(** The second one, after a read that did not raise. *)
Definition record (now ttl : Z) (key : string) (r : option string) (c : cache) : cache * option string :=
  match r with
  | Some st =>
      if decide (st ∈ TERMINAL_RUN_STATUSES)
      then (Cache (dict_del key (ca_negative c)) (dict_set key st (ca_terminal c)), Some st)
      else (Cache (dict_set key (now + Z.max 0 ttl) (ca_negative c)) (ca_terminal c), None)
  | None => (Cache (dict_set key (now + Z.max 0 ttl) (ca_negative c)) (ca_terminal c), None)
  end.

Definition run_terminal_status (now ttl : Z) (run_id : option string) (r : status_read) (c : cache) : cache * option string :=
  match run_id with
  | None => (c, None)
  | Some key =>
      if decide (key = "") then (c, None)
      else match peek now key c with
           | Some answer => (c, answer)
           | None => match r with
                     | ReadFailed => (c, None)
                     | ReadStatus s => record now ttl key (Some s) c
                     | ReadNoRow => record now ttl key None c
                     end
           end
  end.

Definition is_run_cancelled (now ttl : Z) (run_id : option string) (r : status_read) (c : cache) : cache * bool :=
  let '(c, st) := run_terminal_status now ttl run_id r c in (c, bool_decide (st = Some "cancelled")).

(** The run of the current execution span, from its attribution. *)
Definition current_run_id (attribution : option string) : option string :=
  match attribution with Some r => if decide (r = "") then None else Some r | None => None end.

(** ** Interleaved calls

    Whole calls, or the recording half of one whose read happened earlier. *)

Inductive cache_op :=
| Call (now ttl : Z) (key : string) (r : status_read)
| Record (now ttl : Z) (key : string) (r : option string).

Definition run_op (o : cache_op) (c : cache) : cache :=
  match o with
  | Call now ttl key r => (run_terminal_status now ttl (Some key) r c).1
  | Record now ttl key r => (record now ttl key r c).1
  end.

Definition run_ops (l : list cache_op) (c : cache) : cache := fold_left (fun c o => run_op o c) l c.

(** The statuses the reads behind the operations returned for a run. *)
Definition op_read (key : string) (o : cache_op) : option string :=
  match o with
  | Call _ _ k (ReadStatus s) => if decide (k = key) then Some s else None
  | Record _ _ k (Some s) => if decide (k = key) then Some s else None
  | _ => None
  end.

(** An operation that can make the cache trust a live answer for [key], until when. *)
Definition trusts_until (key : string) (o : cache_op) : option Z :=
  match o with
  | Call now ttl k r =>
      if decide (k = key) then
        match r with
        | ReadStatus s => if decide (s ∈ TERMINAL_RUN_STATUSES) then None else Some (now + Z.max 0 ttl)
        | ReadNoRow => Some (now + Z.max 0 ttl)
        | ReadFailed => None
        end
      else None
  | Record now ttl k r =>
      if decide (k = key) then
        match r with
        | Some s => if decide (s ∈ TERMINAL_RUN_STATUSES) then None else Some (now + Z.max 0 ttl)
        | None => Some (now + Z.max 0 ttl)
        end
      else None
  end.

(** ** Lemmas *)

Lemma record_keeps_terminal now ttl k r c key st :
  dict_get key (ca_terminal c) = Some st -> (forall s, r = Some s -> s ∈ TERMINAL_RUN_STATUSES -> k = key -> s = st) ->
  dict_get key (ca_terminal (record now ttl k r c).1) = Some st.
Proof.
  intros H Hs. unfold record. destruct r as [s|]; [|done]. case_decide as Ht; [|done]. simpl.
  destruct (decide (k = key)) as [->|Hne].
  - rewrite dict_get_set_eq. f_equal. by apply Hs.
  - by rewrite dict_get_set_ne.
Qed.

Lemma op_keeps_terminal o c key st :
  dict_get key (ca_terminal c) = Some st ->
  (forall s, op_read key o = Some s -> s ∈ TERMINAL_RUN_STATUSES -> s = st) ->
  dict_get key (ca_terminal (run_op o c)) = Some st.
Proof.
  intros H Hs. destruct o as [now ttl k r|now ttl k r]; simpl.
  - case_decide; [done|]. destruct (peek now k c) eqn:Hp; [done|]. destruct r as [s| |]; [|done|done].
    apply (record_keeps_terminal now ttl k (Some s) c); [done|]. intros s' [= <-] Ht ->. apply Hs; [|done]. simpl. by rewrite decide_True.
  - apply record_keeps_terminal; [done|]. intros s' -> Ht ->. apply Hs; [|done]. simpl. by rewrite decide_True.
Qed.

Lemma ops_keep_terminal l : forall c key st,
  dict_get key (ca_terminal c) = Some st ->
  (forall o s, o ∈ l -> op_read key o = Some s -> s ∈ TERMINAL_RUN_STATUSES -> s = st) ->
  dict_get key (ca_terminal (run_ops l c)) = Some st.
Proof.
  induction l as [|o l IH]; intros c key st H Hs; [done|]. simpl. apply IH.
  - apply op_keeps_terminal; [done|]. intros s. apply Hs. by left.
  - intros o' s Ho. apply Hs. by right.
Qed.

(** How long the cache trusts a live answer: as long as some operation said. *)
Definition trust_bound (key : string) (b : Z) (c : cache) : Prop :=
  forall x, dict_get key (ca_negative c) = Some x -> x <= b.

Lemma record_trust now ttl k r c key b :
  dict_wf (ca_negative c) -> trust_bound key b c ->
  (forall x, trusts_until key (Record now ttl k r) = Some x -> x <= b) ->
  dict_wf (ca_negative (record now ttl k r c).1) /\ trust_bound key b (record now ttl k r c).1.
Proof.
  unfold record, trust_bound. intros Hwf Hb Hx. simpl in Hx.
  assert (Hset : (k = key -> now + Z.max 0 ttl <= b) ->
    dict_wf (dict_set k (now + Z.max 0 ttl) (ca_negative c)) /\
    forall x, dict_get key (dict_set k (now + Z.max 0 ttl) (ca_negative c)) = Some x -> x <= b).
  { intros Hk. split; [by apply dict_set_wf|]. intros x. destruct (decide (k = key)) as [->|Hne].
    - rewrite dict_get_set_eq. intros [= <-]. auto.
    - rewrite dict_get_set_ne by done. apply Hb. }
  destruct r as [s|].
  - destruct (decide (s ∈ TERMINAL_RUN_STATUSES)) as [Ht|Ht]; simpl.
    + split; [by apply dict_del_wf|]. intros x. destruct (decide (k = key)) as [->|Hne].
      * by rewrite dict_get_del_eq.
      * rewrite dict_get_del_ne by done. apply Hb.
    + apply Hset. intros ->. apply Hx. by rewrite decide_True by done.
  - apply Hset. intros ->. apply Hx. by rewrite decide_True by done.
Qed.

Lemma op_trust o c key b :
  dict_wf (ca_negative c) -> trust_bound key b c -> (forall x, trusts_until key o = Some x -> x <= b) ->
  dict_wf (ca_negative (run_op o c)) /\ trust_bound key b (run_op o c).
Proof.
  intros Hwf Hb Hx. destruct o as [now ttl k r|now ttl k r]; simpl; [|by apply record_trust].
  case_decide; [done|]. destruct (peek now k c); [done|]. destruct r as [s| |]; [| |done].
  - apply (record_trust now ttl k (Some s)); done.
  - apply (record_trust now ttl k None); done.
Qed.

Lemma ops_trust l : forall c key b,
  dict_wf (ca_negative c) -> trust_bound key b c -> (forall o x, o ∈ l -> trusts_until key o = Some x -> x <= b) ->
  dict_wf (ca_negative (run_ops l c)) /\ trust_bound key b (run_ops l c).
Proof.
  induction l as [|o l IH]; intros c key b Hwf Hb Hx; [done|]. simpl.
  destruct (op_trust o c key b) as [H1 H2]; [done|done|intros x; apply Hx; by left|].
  apply IH; [done|done|]. intros o' x Ho. apply Hx. by right.
Qed.

(** ** Claims *)

(** An ended run is noticed, and stays noticed: (1) an answer "ended" is
    repeated by every later call, whatever the threads read and record in between,
    as long as the row's terminal status does not change to another; (2) once the
    last live answer has expired (a call's live answer lives for its ttl) a call
    whose read sees a terminal status reports it; (3) a read that fails is
    reported as a live run, and nothing is cached. *)
Lemma ended_run_noticed key l c now ttl r :
  key <> "" -> dict_wf (ca_negative c) ->
  (forall st, dict_get key (ca_terminal c) = Some st ->
     (forall o s, o ∈ l -> op_read key o = Some s -> s ∈ TERMINAL_RUN_STATUSES -> s = st) ->
     (run_terminal_status now ttl (Some key) r (run_ops l c)).2 = Some st) /\
  (forall b st, trust_bound key b c -> (forall o x, o ∈ l -> trusts_until key o = Some x -> x <= b) -> b <= now ->
     st ∈ TERMINAL_RUN_STATUSES -> r = ReadStatus st ->
     exists st', (run_terminal_status now ttl (Some key) r (run_ops l c)).2 = Some st' /\
       (dict_get key (ca_terminal (run_ops l c)) = None -> st' = st)) /\
  (peek now key (run_ops l c) = None ->
   run_terminal_status now ttl (Some key) ReadFailed (run_ops l c) = (run_ops l c, None)).
Proof.
  intros Hk Hwf. unfold run_terminal_status. rewrite !(decide_False (P := key = "")) by done. split_and!.
  - intros st Hst Hs. unfold peek. by rewrite (ops_keep_terminal l c key st Hst Hs).
  - intros b st Hb Hl Hnow Ht ->. destruct (ops_trust l c key b Hwf Hb Hl) as [_ Hb'].
    unfold peek. destruct (dict_get key (ca_terminal (run_ops l c))) as [st'|]; [by exists st'|].
    exists st. split; [|done]. unfold record. rewrite decide_True by done.
    destruct (dict_get key (ca_negative (run_ops l c))) as [x|] eqn:Hx; [|done].
    destruct (now <? x) eqn:Hlt; [|done]. apply Hb' in Hx. boolprop. lia.
  - by intros ->.
Qed.

(** Witness of [ended_run_noticed]: a run polled while live, cancelled, and
    polled again after the ttl. *)
Lemma ended_run_noticed_witness :
  (run_terminal_status 2600 2000 (Some "r") (ReadStatus "cancelled")
     (run_ops [Call 500 2000 "r" (ReadStatus "executing"); Call 600 2000 "r" ReadFailed] (Cache [] []))).2
  = Some "cancelled".
Proof.
  assert (Hk : "r" <> "") by discriminate.
  destruct (ended_run_noticed "r" [Call 500 2000 "r" (ReadStatus "executing"); Call 600 2000 "r" ReadFailed]
              (Cache [] []) 2600 2000 (ReadStatus "cancelled") Hk ltac:(apply NoDup_nil_2)) as (_ & H & _).
  destruct (H 2500 "cancelled") as (st & Hst & Hn); [done| |lia|apply (bool_decide_unpack _); vm_compute; exact I|done|].
  - intros o x Ho. apply elem_of_cons in Ho as [->|Ho]; [|apply list_elem_of_singleton in Ho as ->; done].
    simpl. intros [= <-]. lia.
  - rewrite (Hn eq_refl) in Hst. exact Hst.
Defined.
