(* ===== verification/Capabilities.v ===== *)
(** * Capability tokens (src/AINDY/agents/capability_service.py, authority_negotiation.py)

    The registry of tools and capabilities (its part of platform_layer/registry.py),
    which tools a plan may be granted, the execution token minted for a run, its
    validation, the check of a tool against it, and the one downgrade a denied tool
    may declare. The key ring is that of services/auth_service.py. Parameters:
    [hmac] (the keyed digest), [iso]/[parse_iso] (ISO dates; a naive date is UTC)
    and [render] ([str()] of a value that is not a string). The audit rows a mint
    writes are its argument [mapping_recorded]; metrics and events are left out.
    Times are in seconds. *)

From S2P Require Import Prelude PyStr PyVal Cancellation.
From stdpp Require Import pretty.
From Stdlib Require Import Ascii.

Local Open Scope string_scope.
Local Open Scope Z_scope.
Local Open Scope list_scope.

Definition TOKEN_TTL_HOURS : Z := 24.
Definition token_ttl : Z := TOKEN_TTL_HOURS * 3600.
Definition DEFAULT_AGENT_TYPE : string := "default".
Definition RISK_POLICY : list (string * string) :=
  [("low", "auto_allowed"); ("medium", "requires_approval"); ("high", "gated")].

(** ** The registry *)

Record tool_meta := ToolMeta { tm_risk : string; tm_degraded_variant : string; tm_on_denial : string }.

Record registry := Registry {
  rg_tools : list (string * tool_meta);
  rg_definitions : list string;
  rg_tool_capabilities : list (string * list string);
  rg_agent_capabilities : list (string * list string);
  rg_restricted : list string
}.

Definition register_tool_capabilities (tool : string) (names : list string) (r : registry) : registry :=
  Registry (rg_tools r) (rg_definitions r) (dict_set tool (sorted_set names) (rg_tool_capabilities r))
    (rg_agent_capabilities r) (rg_restricted r).

Definition register_agent_capabilities (agent : string) (names : list string) (r : registry) : registry :=
  Registry (rg_tools r) (rg_definitions r) (rg_tool_capabilities r)
    (dict_set agent (sorted_set names) (rg_agent_capabilities r)) (rg_restricted r).

Section WithRegistry.
Variable reg : registry.

Definition is_tool (t : string) : bool := dict_mem t (rg_tools reg).

Definition get_capabilities_for_tool (tool : string) : list string :=
  base.filter (fun c => c ∈ rg_definitions reg) (default [] (dict_get tool (rg_tool_capabilities reg))).

Definition get_capabilities_for_agent (agent : string) : list string :=
  let caps := default [] (dict_get agent (rg_agent_capabilities reg)) in
  let caps := match caps with
              | [] => if decide (agent = DEFAULT_AGENT_TYPE) then []
                      else default [] (dict_get DEFAULT_AGENT_TYPE (rg_agent_capabilities reg))
              | _ => caps
              end in
  base.filter (fun c => c ∈ rg_definitions reg) caps.

(** The strings of a list. *)
Definition strings_of (l : list pyval) : list string :=
  omap (fun v => match v with VStr s => Some s | _ => None end) l.

Definition normalize_tool_list (v : pyval) : list string :=
  match v with VList l => sorted_set (base.filter (fun t => is_tool t = true) (strings_of l)) | _ => [] end.

Definition normalize_capability_list (v : pyval) : list string :=
  match v with VList l => sorted_set (base.filter (fun c => c ∈ rg_definitions reg) (strings_of l)) | _ => [] end.

Definition get_policy_for_risk (risk : string) : string := default "gated" (dict_get (str_lower risk) RISK_POLICY).

Definition get_tool_required_capability (tool : string) : option string := head (get_capabilities_for_tool tool).

(** ** What a plan may be granted *)

(** [plan.get("steps", [])], iterated; [None] where it raises. *)
Definition steps_in (plan : list (string * pyval)) : option (list pyval) :=
  match dict_get "steps" plan with Some v => py_list v | None => Some [] end.

(** The loop over the steps of a plan; [None] is an exception. *)
Fixpoint required_loop (steps : list pyval) (caps : list string) : option (list string) :=
  match steps with
  | [] => Some (sorted_set caps)
  | VDict d :: rest =>
      match py_get "tool" d with
      | VStr tool => match get_capabilities_for_tool tool with
                     | [] => Some []
                     | tc => required_loop rest (caps ++ tc)
                     end
      | _ => required_loop rest caps
      end
  | _ => None
  end.

Definition get_plan_required_capabilities (plan : list (string * pyval)) (agent : string) : option (list string) :=
  match steps_in plan with
  | Some steps => required_loop steps (get_capabilities_for_agent agent)
  | None => None
  end.

(** The trust settings of a user. *)
Record trust_settings := Trust {
  ts_allowed_auto_grant_tools : pyval;
  ts_auto_execute_low : bool;
  ts_auto_execute_medium : bool
}.

Definition tool_risk (t : string) : string := match dict_get t (rg_tools reg) with Some m => tm_risk m | None => "" end.

Definition get_auto_grantable_tools (trust : option trust_settings) : list string :=
  match trust with
  | None => []
  | Some ts =>
      match normalize_tool_list (ts_allowed_auto_grant_tools ts) with
      | [] =>
          py_sorted (map fst (base.filter (fun tm : string * tool_meta =>
            tm.1 ∉ rg_restricted reg /\
            ((tm_risk tm.2 = "low" /\ ts_auto_execute_low ts = true) \/
             (tm_risk tm.2 = "medium" /\ ts_auto_execute_medium ts = true))) (rg_tools reg)))
      | explicit =>
          base.filter (fun t => t ∉ rg_restricted reg /\ get_policy_for_risk (tool_risk t) = "auto_allowed") explicit
      end
  end.

(** The tools a plan names; [None] when a step raises or names an unknown tool. *)
Fixpoint plan_tools (steps : list pyval) : option (list string) :=
  match steps with
  | [] => Some []
  | VDict d :: rest =>
      match py_get "tool" d with
      | VStr tool => if is_tool tool then option_map (cons tool) (plan_tools rest) else None
      | _ => plan_tools rest
      end
  | _ => None
  end.

Definition auto_grantable (trust : option trust_settings) (t : string) : bool :=
  bool_decide (t ∈ get_auto_grantable_tools trust /\ get_policy_for_risk (tool_risk t) = "auto_allowed").

Definition get_grantable_tools (plan : list (string * pyval)) (trust : option trust_settings) (mode : string) : list string :=
  match steps_in plan with
  | None => []
  | Some steps =>
      match plan_tools steps with
      | None => []
      | Some tools =>
          let unique := sorted_set tools in
          if decide (mode = "manual") then unique
          else if forallb (auto_grantable trust) unique then unique else []
      end
  end.

(** ** The key ring *)

Record key_ring := KeyRing { kr_active : string; kr_previous : option string; kr_previous_expires : option Z; kr_grace : Z }.

Definition rotate (now : Z) (new_key : string) (k : key_ring) : key_ring :=
  if decide (new_key = kr_active k) then k
  else KeyRing new_key (Some (kr_active k)) (Some (now + kr_grace k)) (kr_grace k).

(** The keys to verify with, and the ring after an expired key was dropped. *)
Definition verify_keys (now : Z) (k : key_ring) : key_ring * list string :=
  match kr_previous k, kr_previous_expires k with
  | Some p, Some x =>
      if decide (p = "") then (k, [kr_active k])
      else if now <? x then (k, [kr_active k; p])
      else (KeyRing (kr_active k) None None (kr_grace k), [kr_active k])
  | _, _ => (k, [kr_active k])
  end.

(** [_signing_keys], with the SECRET_KEY it falls back to. *)
Definition usable_keys (secret : string) (keys : list string) : list string :=
  match base.filter (fun k => k <> "") keys with [] => [secret] | ks => ks end.

Definition signing_key (secret : string) (k : key_ring) : string :=
  default "" (head (usable_keys secret [kr_active k])).

Definition verification_keys (secret : string) (now : Z) (k : key_ring) : list string :=
  usable_keys secret (verify_keys now k).2.

(** ** Tokens *)

Section Tokens.
Variable hmac : string -> string -> string.
Variable iso : Z -> string.
Variable parse_iso : string -> option Z.
Variable render : pyval -> string.

(** The claims the digest covers. *)
Record claims := Claims {
  cl_run_id : string;
  cl_user_id : string;
  cl_execution_token : string;
  cl_issued_at : string;
  cl_expires_at : string;
  cl_approval_mode : string;
  cl_granted_tools : list string;
  cl_allowed_capabilities : list string
}.

Definition token_payload (c : claims) : string :=
  join_char "|" [cl_run_id c; cl_user_id c; cl_execution_token c; cl_issued_at c; cl_expires_at c; cl_approval_mode c;
                 join_char "," (py_sorted (cl_granted_tools c)); join_char "," (py_sorted (cl_allowed_capabilities c))].

Definition token_hash (key : string) (c : claims) : string := hmac key (token_payload c).

Fixpoint is_ascii (s : string) : bool :=
  match s with EmptyString => true | String c s' => Nat.ltb (nat_of_ascii c) 128 && is_ascii s' end.

(** [None] is the TypeError of comparing a text that is not ASCII. *)
Definition token_hash_matches (keys : list string) (candidate : string) (c : claims) : option bool :=
  if is_ascii candidate then Some (existsb (fun key => bool_decide (token_hash key c = candidate)) keys) else None.

Definition token : Type := list (string * pyval).

Definition token_of (key : string) (c : claims) (agent : pyval) (extra_head extra_tail : token) : token :=
  [("run_id", VStr (cl_run_id c))] ++ extra_head ++
  [("user_id", VStr (cl_user_id c)); ("agent_type", agent); ("execution_token", VStr (cl_execution_token c));
   ("issued_at", VStr (cl_issued_at c)); ("expires_at", VStr (cl_expires_at c));
   ("granted_tools", VList (map VStr (cl_granted_tools c)));
   ("allowed_capabilities", VList (map VStr (cl_allowed_capabilities c)));
   ("approval_mode", VStr (cl_approval_mode c))] ++ extra_tail ++ [("token_hash", VStr (token_hash key c))].

(** The grants of a mint: tools and capabilities; [None] when nothing is minted. *)
Definition mint_grants (plan : list (string * pyval)) (trust : option trust_settings) (mode agent : string)
    (ceiling : option (list string)) : option (list string * list string) :=
  match steps_in plan with
  | None => None
  | Some steps =>
      let granted := get_grantable_tools plan trust mode in
      match granted, steps with
      | [], _ :: _ => None
      | _, _ =>
          match get_plan_required_capabilities plan agent with
          | None => None
          | Some allowed =>
              let '(allowed, granted) :=
                match ceiling with
                | None => (allowed, granted)
                | Some cs =>
                    (base.filter (fun c => c ∈ cs) allowed,
                     base.filter (fun t => get_capabilities_for_tool t = [] \/
                                           Exists (fun c => c ∈ cs) (get_capabilities_for_tool t)) granted)
                end in
              match allowed with
              | [] => None
              | _ => if bool_decide (mode = "auto") &&
                        negb (forallb (fun t => bool_decide (get_policy_for_risk (tool_risk t) = "auto_allowed")) granted)
                     then None else Some (granted, allowed)
              end
          end
      end
  end.

(** [fresh] is the UUID drawn for the execution token. *)
Definition mint_token (key : string) (now : Z) (fresh run_id user_id : string) (plan : list (string * pyval))
    (trust : option trust_settings) (mode agent : string) (ceiling : option (list string)) (parent : option string)
    (mapping_recorded : bool) : option token :=
  match mint_grants plan trust mode agent ceiling with
  | None => None
  | Some (granted, allowed) =>
      let c := Claims run_id user_id fresh (iso now) (iso (now + token_ttl)) mode granted allowed in
      Some (token_of key c (VStr (if decide (agent = "") then DEFAULT_AGENT_TYPE else agent))
              [("parent_run_id", match parent with Some p => if decide (p = "") then VNone else VStr p | None => VNone end)]
              [("mapping_recorded", VBool mapping_recorded)])
  end.

Definition token_is_expired (now : Z) (t : pyval) : bool :=
  match t with
  | VDict d =>
      let raw := py_get "expires_at" d in
      if py_truth raw then match parse_iso (py_str render raw) with Some x => x <=? now | None => true end else true
  | _ => true
  end.

(** A list of strings as the code passes it on; [None] where sorting it raises. *)
Definition str_list (v : pyval) : option (list string) :=
  if py_truth v then
    match py_list v with
    | Some l => let ss := strings_of l in if Nat.eqb (length ss) (length l) then Some ss else None
    | None => None
    end
  else Some [].

(** [None] also where it raises. *)
Definition refresh_token (key : string) (now : Z) (fresh : string) (t : pyval) : option token :=
  match t with
  | VDict d =>
      if py_truth (py_get "run_id" d) && py_truth (py_get "user_id" d) then
        match str_list (py_get "granted_tools" d), str_list (py_get "allowed_capabilities" d),
              py_or (py_get "approval_mode" d) (VStr "manual") with
        | Some granted, Some allowed, VStr mode =>
            Some (token_of key (Claims (py_str render (py_get "run_id" d)) (py_str render (py_get "user_id" d)) fresh
                                  (iso now) (iso (now + token_ttl)) mode granted allowed)
                    (py_or (py_get "agent_type" d) (VStr DEFAULT_AGENT_TYPE)) [] [])
        | _, _, _ => None
        end
      else None
  | _ => None
  end.

(** ** Validation *)

Inductive token_error :=
| MissingToken | RunMismatch | UserMismatch | MissingExecutionToken | InvalidApprovalMode | IncompleteToken
| InvalidExpiry | TokenExpired | HashMismatch | ValidationFailed
| ToolNotGranted (tool : string) | CapabilityNotGranted (c : string) | NoCapabilityMapping (tool : string)
| RunEnded (status : string).

Record validation := Valid { va_granted : list string; va_allowed : list string; va_execution_token : string; va_agent_type : string }.

(** [str(d.get(k, ""))] *)
Definition str_field (k : string) (d : token) : string :=
  match dict_get k d with Some v => py_str render v | None => "" end.

Definition presented (d : token) (run_id user_id : string) (mode : string) : claims :=
  Claims run_id user_id (str_field "execution_token" d) (py_str render (py_get "issued_at" d))
    (py_str render (py_get "expires_at" d)) mode (normalize_tool_list (py_get "granted_tools" d))
    (normalize_capability_list (py_get "allowed_capabilities" d)).

Definition validate_token (keys : list string) (now : Z) (t : pyval) (run_id user_id : string) : result token_error validation :=
  match t with
  | VDict d =>
      if decide (str_field "run_id" d <> run_id) then Err RunMismatch
      else if decide (str_field "user_id" d <> user_id) then Err UserMismatch
      else if decide (str_field "execution_token" d = "") then Err MissingExecutionToken
      else match py_get "approval_mode" d with
           | VList _ | VDict _ => Err ValidationFailed
           | VStr mode =>
               if decide (mode ∉ ["manual"; "auto"]) then Err InvalidApprovalMode
               else if negb (py_truth (py_get "issued_at" d)) || negb (py_truth (py_get "expires_at" d))
                       || is_None (py_get "token_hash" d) then Err IncompleteToken
               else match parse_iso (py_str render (py_get "expires_at" d)) with
                    | None => Err InvalidExpiry
                    | Some x =>
                        if x <=? now then Err TokenExpired
                        else let c := presented d run_id user_id mode in
                             match token_hash_matches keys (py_str render (py_get "token_hash" d)) c with
                             | None => Err ValidationFailed
                             | Some false => Err HashMismatch
                             | Some true =>
                                 Ok (Valid (cl_granted_tools c) (cl_allowed_capabilities c) (cl_execution_token c)
                                       (py_str render (py_or (py_get "agent_type" d) (VStr DEFAULT_AGENT_TYPE))))
                             end
                    end
           | _ => Err InvalidApprovalMode
           end
  | _ => Err MissingToken
  end.

Definition check_execution_capability (keys : list string) (now : Z) (t : pyval) (run_id user_id capability : string) :
    result token_error validation :=
  match validate_token keys now t run_id user_id with
  | Err e => Err e
  | Ok v => if decide (capability ∈ va_allowed v) then Ok v else Err (CapabilityNotGranted capability)
  end.

(** A refusal carries the tools the token was found to grant. *)
Definition refusal : Type := token_error * list string.

(** The first required capability that is not granted. *)
Definition first_missing (required allowed : list string) : option string :=
  head (base.filter (fun c => c ∉ allowed) required).

Definition check_against (v : validation) (tool : string) : result refusal validation :=
  let deny e := Err (e, va_granted v) in
  if decide (tool ∉ va_granted v) then deny (ToolNotGranted tool)
  else match first_missing (get_capabilities_for_tool tool) (va_allowed v) with
       | Some c => deny (CapabilityNotGranted c)
       | None =>
           match first_missing (get_capabilities_for_agent (if decide (va_agent_type v = "") then DEFAULT_AGENT_TYPE
                                                            else va_agent_type v)) (va_allowed v) with
           | Some c => deny (CapabilityNotGranted c)
           | None => match get_capabilities_for_tool tool with
                     | [] => if is_tool tool then deny (NoCapabilityMapping tool) else Ok v
                     | _ => Ok v
                     end
           end
       end.

(** [ended] is the terminal status the cancellation cache reports for the run. *)
Definition check_tool_capability (ended : option string) (keys : list string) (now : Z) (t : pyval)
    (run_id user_id tool : string) : result refusal validation :=
  match ended with
  | Some status => Err (RunEnded status, [])
  | None =>
      match validate_token keys now t run_id user_id with
      | Err e => Err (e, [])
      | Ok v => check_against v tool
      end
  end.

(** [_run_authority_ended]: the read, through the cache. *)
Definition run_authority_ended (now_ms ttl : Z) (run_id : string) (r : status_read) (c : cache) : cache * option string :=
  run_terminal_status now_ms ttl (Some run_id) r c.

Definition token_binds_run (keys : list string) (t : pyval) (run_id user_id : string) : bool :=
  match t with
  | VDict d =>
      if decide (str_field "run_id" d <> run_id \/ str_field "user_id" d <> user_id) then false
      else if is_None (py_get "token_hash" d) || bool_decide (str_field "execution_token" d = "") then false
      else match py_get "approval_mode" d, str_list (py_get "granted_tools" d), str_list (py_get "allowed_capabilities" d) with
           | VStr mode, Some granted, Some allowed =>
               default false (token_hash_matches keys (py_str render (py_get "token_hash" d))
                 (Claims run_id user_id (str_field "execution_token" d) (py_str render (py_get "issued_at" d))
                    (py_str render (py_get "expires_at" d)) mode granted allowed))
           | _, _, _ => false
           end
  | _ => false
  end.

(** ** Negotiating a denial *)

Inductive negotiation :=
| Disabled | NoVariant | ChainRefused (variant : string) | Succeeded (variant : string)
| VariantDenied (variant : string) (e : token_error) | RefusedNotGranted (variant : string) (e : token_error).

Definition degraded_variant (tool : string) : option string :=
  match dict_get tool (rg_tools reg) with
  | Some m => if decide (tm_degraded_variant m = "") then None else Some (tm_degraded_variant m)
  | None => None
  end.

Definition ON_DENIAL_WAIT : string := "wait".

Definition on_denial_waits (tool : string) : bool :=
  match dict_get tool (rg_tools reg) with Some m => bool_decide (tm_on_denial m = ON_DENIAL_WAIT) | None => false end.

Definition declares_denial_recovery (tool : string) : bool :=
  match degraded_variant tool with Some _ => true | None => on_denial_waits tool end.

Definition negotiate_capability_denial (enabled : bool) (ended : option string) (keys : list string) (now : Z) (t : pyval)
    (run_id user_id tool : string) : negotiation :=
  if enabled then
    match degraded_variant tool with
    | None => NoVariant
    | Some variant =>
        match degraded_variant variant with
        | Some _ => ChainRefused variant
        | None =>
            match check_tool_capability ended keys now t run_id user_id variant with
            | Ok _ => Succeeded variant
            | Err (e, granted) => if decide (variant ∈ granted) then VariantDenied variant e else RefusedNotGranted variant e
            end
        end
    end
  else Disabled.

Definition denial_gate_declared (enabled : bool) (tool : string) : bool := enabled && on_denial_waits tool.

Definition DECISIONS : list string := ["skip"; "abort"].

Definition read_gate_decision (payload : pyval) : option string * option string :=
  match payload with
  | VDict d =>
      let decision := str_lower (str_strip (py_str render (py_or (py_get "decision" d) (VStr "")))) in
      let note := py_get "note" d in
      (if decide (decision ∈ DECISIONS) then Some decision else None,
       if is_None note then None else Some (py_str render note))
  | _ => (None, None)
  end.
End Tokens.

(** ** Lemmas *)

Lemma capabilities_for_tool_defined t c : c ∈ get_capabilities_for_tool t -> c ∈ rg_definitions reg.
Proof. unfold get_capabilities_for_tool. by intros [H _]%list_elem_of_filter. Qed.

Lemma capabilities_for_agent_defined a c : c ∈ get_capabilities_for_agent a -> c ∈ rg_definitions reg.
Proof. unfold get_capabilities_for_agent. cbv zeta. by intros [H _]%list_elem_of_filter. Qed.

(** The tools a list of steps names. *)
Definition named_tools (steps : list pyval) : list string :=
  omap (fun s => match s with VDict d => match py_get "tool" d with VStr t => Some t | _ => None end | _ => None end) steps.

Lemma plan_tools_spec steps tools :
  plan_tools steps = Some tools -> tools = named_tools steps /\ Forall (fun t => is_tool t = true) tools.
Proof.
  revert tools. induction steps as [|step steps IH]; intros tools; simpl; [intros [= <-]; by split|].
  destruct step as [| | | | | |d]; try done. destruct (py_get "tool" d); try apply IH.
  destruct (is_tool s) eqn:Ht; [|done]. destruct (plan_tools steps) as [ts|]; [|done]. intros [= <-].
  destruct (IH ts eq_refl) as [-> H]. by split; [|constructor].
Qed.

Lemma grantable_spec plan trust mode :
  str_sorted (get_grantable_tools plan trust mode) /\
  forall t, t ∈ get_grantable_tools plan trust mode ->
    is_tool t = true /\ (exists steps, steps_in plan = Some steps /\ t ∈ named_tools steps) /\
    (mode <> "manual" -> auto_grantable trust t = true).
Proof.
  unfold get_grantable_tools. destruct (steps_in plan) as [steps|] eqn:Hs; [|split; [constructor|intros t H; by apply not_elem_of_nil in H]].
  destruct (plan_tools steps) as [tools|] eqn:Ht; [|split; [constructor|intros t H; by apply not_elem_of_nil in H]].
  apply plan_tools_spec in Ht as [-> Hall]. rewrite Forall_forall in Hall. cbv zeta.
  assert (Hin : forall t, t ∈ sorted_set (named_tools steps) -> is_tool t = true /\ t ∈ named_tools steps).
  { intros t. rewrite elem_of_sorted_set. intros H. split; [by apply Hall|done]. }
  destruct (decide (mode = "manual")) as [Hm|Hm].
  - split; [apply sorted_set_sorted|]. intros t Ht. destruct (Hin t Ht). split_and!; eauto.
  - destruct (forallb (auto_grantable trust) _) eqn:Hf; [|split; [constructor|intros t H; by apply not_elem_of_nil in H]].
    split; [apply sorted_set_sorted|]. intros t Ht. destruct (Hin t Ht). split_and!; eauto.
    intros _. apply (proj1 (forallb_forall _ _) Hf). by apply list_elem_of_In.
Qed.

Lemma required_loop_spec steps : forall caps allowed,
  required_loop steps caps = Some allowed ->
  str_sorted allowed /\
  forall c, c ∈ allowed -> c ∈ caps \/ exists t, t ∈ named_tools steps /\ c ∈ get_capabilities_for_tool t.
Proof.
  induction steps as [|step steps IH]; intros caps allowed; simpl.
  - intros [= <-]. split; [apply sorted_set_sorted|]. intros c. rewrite elem_of_sorted_set. by left.
  - destruct step as [| | | | | |d]; try done. destruct (py_get "tool" d) as [| | | |tool| |]; try apply IH.
    destruct (get_capabilities_for_tool tool) as [|c0 tc] eqn:Hc.
    + intros [= <-]. split; [constructor|]. intros c H. by apply not_elem_of_nil in H.
    + intros H. apply IH in H as [H1 H2]. split; [done|]. intros c Hin. apply H2 in Hin as [Hin|(t & Ht & Hct)].
      * apply elem_of_app in Hin as [Hin|Hin]; [by left|]. right. exists tool. split; [by left|by rewrite Hc].
      * right. exists t. split; [by right|done].
Qed.

Lemma mint_grants_spec plan trust mode agent ceiling granted allowed :
  mint_grants plan trust mode agent ceiling = Some (granted, allowed) ->
  exists steps, steps_in plan = Some steps /\ allowed <> [] /\ str_sorted granted /\ str_sorted allowed /\
    (forall t, t ∈ granted -> t ∈ get_grantable_tools plan trust mode) /\
    (forall c, c ∈ allowed -> c ∈ get_capabilities_for_agent agent \/
                              exists t, t ∈ named_tools steps /\ c ∈ get_capabilities_for_tool t) /\
    (forall cs c, ceiling = Some cs -> c ∈ allowed -> c ∈ cs).
Proof.
  unfold mint_grants. destruct (steps_in plan) as [steps|] eqn:Hs; [|done]. cbv zeta.
  destruct (grantable_spec plan trust mode) as [Hgs _]. unfold get_plan_required_capabilities. rewrite Hs.
  set (g := get_grantable_tools plan trust mode) in *. intros H.
  assert (H' : match required_loop steps (get_capabilities_for_agent agent) with
    | None => None
    | Some a => let '(a, g) := match ceiling with None => (a, g) | Some cs =>
         (base.filter (fun c => c ∈ cs) a,
          base.filter (fun t => get_capabilities_for_tool t = [] \/ Exists (fun c => c ∈ cs) (get_capabilities_for_tool t)) g) end in
       match a with [] => None | _ => if bool_decide (mode = "auto") &&
         negb (forallb (fun t => bool_decide (get_policy_for_risk (tool_risk t) = "auto_allowed")) g) then None else Some (g, a) end
    end = Some (granted, allowed)) by (by destruct g, steps). clear H.
  destruct (required_loop steps _) as [a|] eqn:Hr; [|done]. apply required_loop_spec in Hr as [Has Ha].
  exists steps. split; [done|]. destruct ceiling as [cs|].
  - destruct (base.filter (fun c => c ∈ cs) a) as [|c0 a'] eqn:Hfa; [done|].
    destruct (_ && _); [done|]. injection H' as <- <-. rewrite <- Hfa. split_and!.
    + by rewrite Hfa.
    + by apply filter_sorted.
    + by apply filter_sorted.
    + by intros t [_ H]%list_elem_of_filter.
    + intros c [_ H]%list_elem_of_filter. by apply Ha.
    + intros cs' c [= <-]. by intros [H _]%list_elem_of_filter.
  - destruct a as [|c0 a'] eqn:E; [done|]. rewrite <- E in *. destruct (_ && _); [done|]. injection H' as <- <-.
    split_and!; [by rewrite E|done..].
Qed.

Lemma strings_of_map l : strings_of (map VStr l) = l.
Proof. induction l as [|x l IH]; simpl; [done|]. unfold strings_of in *. simpl. by rewrite IH. Qed.

Lemma normalize_tools_id l : str_sorted l -> (forall t, t ∈ l -> is_tool t = true) -> normalize_tool_list (VList (map VStr l)) = l.
Proof. intros Hs Ht. simpl. rewrite strings_of_map, list_filter_all by done. by apply sorted_set_id. Qed.

Lemma normalize_capabilities_id l :
  str_sorted l -> (forall c, c ∈ l -> c ∈ rg_definitions reg) -> normalize_capability_list (VList (map VStr l)) = l.
Proof. intros Hs Ht. simpl. rewrite strings_of_map, list_filter_all by done. by apply sorted_set_id. Qed.
End WithRegistry.

#[local] Arguments normalize_tool_list : simpl never.
#[local] Arguments normalize_capability_list : simpl never.

(** ** Claims *)

Section Claims.
Context (reg : registry) (hmac : string -> string -> string) (iso : Z -> string) (parse_iso : string -> option Z)
  (render : pyval -> string).

(** Rotating the key keeps the old one verifiable for the grace period. *)
Lemma rotation_keeps_key secret ring n new now :
  kr_active ring <> "" -> now < n + kr_grace ring ->
  signing_key secret ring ∈ verification_keys secret now (rotate n new ring).
Proof.
  intros Hne Hlt. unfold signing_key, verification_keys, usable_keys, rotate, verify_keys.
  rewrite filter_cons, decide_True by done. simpl.
  destruct (decide (new = kr_active ring)) as [->|Hnew].
  - assert (Hin : kr_active ring ∈ base.filter (fun k => k <> "") (match kr_previous ring with
      | Some p => match kr_previous_expires ring with
                  | Some x => if decide (p = "") then (ring, [kr_active ring])
                              else if now <? x then (ring, [kr_active ring; p])
                              else (KeyRing (kr_active ring) None None (kr_grace ring), [kr_active ring])
                  | None => (ring, [kr_active ring]) end
      | None => (ring, [kr_active ring]) end).2).
    { apply list_elem_of_filter. split; [done|]. repeat case_match; simpl; by left. }
    destruct (base.filter _ _); [by apply not_elem_of_nil in Hin|done].
  - simpl. rewrite decide_False by done. destruct (now <? n + kr_grace ring) eqn:E; [|boolprop; lia]. simpl.
    assert (Hin : kr_active ring ∈ base.filter (fun k => k <> "") [new; kr_active ring]).
    { apply list_elem_of_filter. split; [done|]. right. by left. }
    destruct (base.filter _ _); [by apply not_elem_of_nil in Hin|done].
Qed.

(** A minted token is accepted for its run and user until it expires, under
    any keys that still include the signing key (so through a rotation within its
    grace period), and validation then gives exactly the granted tools and
    capabilities; it is refused for another run, for another user, and from its
    expiry on. *)
Lemma minted_token_validates secret ring keys now now' fresh run user plan trust mode agent ceiling parent mapping tok :
  let key := signing_key secret ring in
  mint_token reg hmac iso key now fresh run user plan trust mode agent ceiling parent mapping = Some tok ->
  fresh <> "" -> mode ∈ ["manual"; "auto"] -> iso now <> "" -> iso (now + token_ttl) <> "" ->
  parse_iso (iso (now + token_ttl)) = Some (now + token_ttl) -> (forall p, is_ascii (hmac key p) = true) ->
  (forall n new, kr_active ring <> "" -> now' < n + kr_grace ring -> key ∈ verification_keys secret now' (rotate n new ring)) /\
  (key ∈ keys -> now' < now + token_ttl ->
   exists v granted allowed, validate_token reg hmac parse_iso render keys now' (VDict tok) run user = Ok v /\
     mint_grants reg plan trust mode agent ceiling = Some (granted, allowed) /\ va_granted v = granted /\ va_allowed v = allowed) /\
  (now + token_ttl <= now' -> validate_token reg hmac parse_iso render keys now' (VDict tok) run user = Err TokenExpired) /\
  (forall run', run' <> run -> validate_token reg hmac parse_iso render keys now' (VDict tok) run' user = Err RunMismatch) /\
  (forall user', user' <> user -> validate_token reg hmac parse_iso render keys now' (VDict tok) run user' = Err UserMismatch).
Proof.
  cbv zeta. set (key := signing_key secret ring). unfold mint_token.
  destruct (mint_grants reg plan trust mode agent ceiling) as [[granted allowed]|] eqn:Hg; [|done].
  intros [= <-] Hfresh Hmode Hi Hx Hp Hascii.
  destruct (mint_grants_spec reg plan trust mode agent ceiling granted allowed Hg)
    as (steps & Hsteps & _ & Hgs & Has & Hgin & Hain & _).
  split; [intros n new Hne Hlt; by apply rotation_keeps_key|].
  unfold validate_token, presented, str_field, py_get, token_of. simpl.
  destruct (decide (run <> run)) as [?|_]; [done|]. destruct (decide (user <> user)) as [?|_]; [done|].
  destruct (decide (fresh = "")) as [?|_]; [done|]. destruct (decide (mode ∉ ["manual"; "auto"])) as [?|_]; [done|].
  rewrite !bool_decide_true by done. simpl. rewrite Hp. split_and!.
  - intros Hk Hlt. destruct (now + token_ttl <=? now') eqn:E; [boolprop; lia|].
    rewrite (normalize_tools_id reg granted), (normalize_capabilities_id reg allowed); try done.
    + unfold token_hash_matches, token_hash. rewrite Hascii.
      rewrite (proj2 (existsb_exists _ _)); [eauto 10|].
      exists key. split; [by apply list_elem_of_In|]. by apply bool_decide_eq_true.
    + intros c Hc. destruct (Hain c Hc) as [H|(t & _ & H)]; [by eapply capabilities_for_agent_defined|by eapply capabilities_for_tool_defined].
    + intros t Ht. apply Hgin in Ht. by apply (proj2 (grantable_spec reg plan trust mode)) in Ht as [? _].
  - intros Hle. destruct (now + token_ttl <=? now') eqn:E; [done|boolprop; lia].
  - intros run' Hne. by rewrite decide_True by done.
  - intros user' Hne. by rewrite decide_True by done.
Qed.

(** A mint stays within the authority asked for: every granted tool is a
    registered tool the plan names and every capability belongs to the agent or to
    a tool of the plan; a ceiling bounds the capabilities; and without manual
    approval each granted tool is one the user's trust settings allow, of a risk
    that may run unattended. *)
Lemma minted_authority_bounded plan trust mode agent ceiling granted allowed :
  mint_grants reg plan trust mode agent ceiling = Some (granted, allowed) ->
  exists steps, steps_in plan = Some steps /\
    (forall t, t ∈ granted -> t ∈ named_tools steps /\ is_tool reg t = true) /\
    (forall c, c ∈ allowed -> c ∈ rg_definitions reg /\
       (c ∈ get_capabilities_for_agent reg agent \/ exists t, t ∈ named_tools steps /\ c ∈ get_capabilities_for_tool reg t)) /\
    (forall cs c, ceiling = Some cs -> c ∈ allowed -> c ∈ cs) /\
    (mode <> "manual" -> forall t, t ∈ granted -> trust <> None /\ t ∈ get_auto_grantable_tools reg trust /\
       t ∉ rg_restricted reg /\ get_policy_for_risk (tool_risk reg t) = "auto_allowed").
Proof.
  intros H. destruct (mint_grants_spec reg plan trust mode agent ceiling granted allowed H)
    as (steps & Hsteps & _ & _ & _ & Hgin & Hain & Hceil).
  exists steps. split; [done|]. destruct (grantable_spec reg plan trust mode) as [_ Hgr].
  split_and!; [| |done|].
  - intros t Ht. destruct (Hgr t (Hgin t Ht)) as (Hi & (steps' & Hs' & Hn) & _). split; [|done]. congruence.
  - intros c Hc. specialize (Hain c Hc). split; [|done].
    destruct Hain as [Ha|(t & _ & Ha)]; [by eapply capabilities_for_agent_defined|by eapply capabilities_for_tool_defined].
  - intros Hm t Ht. destruct (Hgr t (Hgin t Ht)) as (_ & _ & Hauto). specialize (Hauto Hm).
    unfold auto_grantable in Hauto. apply bool_decide_eq_true in Hauto as [Hin Hrisk].
    assert (Hr : trust <> None /\ t ∉ rg_restricted reg).
    { unfold get_auto_grantable_tools in Hin. destruct trust as [ts|]; [|by apply not_elem_of_nil in Hin]. split; [done|].
      destruct (normalize_tool_list reg (ts_allowed_auto_grant_tools ts)) as [|e es].
      - rewrite py_sorted_perm in Hin. apply list_elem_of_fmap in Hin as (tm & -> & Hin).
        by apply list_elem_of_filter in Hin as [[? _] _].
      - by apply list_elem_of_filter in Hin as [[? _] _]. }
    destruct Hr. done.
Qed.

(** Names that the separators of the payload keep apart. *)
Definition plain_name (n : string) : Prop := n <> "" /\ no_char "," n = true /\ no_char "|" n = true.

Lemma join_names_inj l1 l2 : Forall plain_name l1 -> Forall plain_name l2 -> join_char "," l1 = join_char "," l2 -> l1 = l2.
Proof.
  assert (Hne : forall x l, plain_name x -> join_char "," (x :: l) <> "").
  { intros x l (Hx & _). destruct l; simpl; [done|]. by destruct x. }
  assert (Hc : forall l, Forall plain_name l -> Forall (fun s => no_char "," s = true) l).
  { intros l H. eapply Forall_impl; [exact H|]. by intros x (_ & ? & _). }
  intros H1 H2 Hj. destruct l1 as [|x l1], l2 as [|y l2]; [done| | |].
  - apply Forall_cons in H2 as [H2 _]. exfalso. by apply (Hne y l2 H2).
  - apply Forall_cons in H1 as [H1 _]. exfalso. by apply (Hne x l1 H1).
  - rewrite <- (split_join "," (x :: l1)), <- (split_join "," (y :: l2)); [by rewrite Hj|done|by apply Hc|done|by apply Hc].
Qed.

Lemma join_names_no_bar l : Forall plain_name l -> no_char "|" (join_char "," l) = true.
Proof.
  induction 1 as [|x l (Hx & _ & Hb) Hl IH]; [done|]. destruct l as [|y l]; [done|].
  change (join_char "," (x :: y :: l)) with (x +:+ String "," (join_char "," (y :: l))).
  apply count_char_0. apply count_char_0 in Hb, IH. rewrite count_char_app, Hb. cbn [count_char]. by rewrite IH.
Qed.

(** A token's claims are determined by the payload its digest covers. *)
Definition plain_claims (c : claims) : Prop :=
  Forall (fun s => no_char "|" s = true)
    [cl_run_id c; cl_user_id c; cl_execution_token c; cl_issued_at c; cl_expires_at c; cl_approval_mode c] /\
  Forall plain_name (cl_granted_tools c) /\ Forall plain_name (cl_allowed_capabilities c).

Lemma payload_inj c c' :
  plain_claims c -> Forall plain_name (cl_granted_tools c') -> Forall plain_name (cl_allowed_capabilities c') ->
  token_payload c = token_payload c' ->
  cl_run_id c = cl_run_id c' /\ cl_user_id c = cl_user_id c' /\ cl_execution_token c = cl_execution_token c' /\
  cl_issued_at c = cl_issued_at c' /\ cl_expires_at c = cl_expires_at c' /\ cl_approval_mode c = cl_approval_mode c' /\
  py_sorted (cl_granted_tools c) = py_sorted (cl_granted_tools c') /\
  py_sorted (cl_allowed_capabilities c) = py_sorted (cl_allowed_capabilities c').
Proof.
  intros (Hs & Hg & Ha) Hg' Ha' Hp. unfold token_payload in Hp.
  apply join_char_inj in Hp; [|done|].
  - injection Hp as -> -> -> -> -> -> Hp1 Hp2. split_and!; try done.
    + apply join_names_inj; [by rewrite py_sorted_perm|by rewrite py_sorted_perm|exact Hp1].
    + apply join_names_inj; [by rewrite py_sorted_perm|by rewrite py_sorted_perm|exact Hp2].
  - rewrite !Forall_cons in *. split_and!; try tauto.
    + apply join_names_no_bar. by rewrite py_sorted_perm.
    + apply join_names_no_bar. by rewrite py_sorted_perm.
Qed.

Lemma validate_token_ok keys now t run user v :
  validate_token reg hmac parse_iso render keys now t run user = Ok v ->
  exists d mode x key, t = VDict d /\ str_field render "run_id" d = run /\ str_field render "user_id" d = user /\
    parse_iso (py_str render (py_get "expires_at" d)) = Some x /\ now < x /\ key ∈ keys /\
    token_hash hmac key (presented reg render d run user mode) = py_str render (py_get "token_hash" d) /\
    va_granted v = cl_granted_tools (presented reg render d run user mode) /\
    va_allowed v = cl_allowed_capabilities (presented reg render d run user mode).
Proof.
  unfold validate_token. destruct t as [| | | | | |d]; try done.
  destruct (decide (str_field render "run_id" d <> run)) as [|Hr]; [done|].
  destruct (decide (str_field render "user_id" d <> user)) as [|Hu]; [done|].
  destruct (decide (str_field render "execution_token" d = "")); [done|].
  destruct (py_get "approval_mode" d) as [| | | |mode| |]; try done.
  destruct (decide (mode ∉ ["manual"; "auto"])); [done|]. destruct (_ || _ || _); [done|].
  destruct (parse_iso _) as [x|] eqn:Hx; [|done]. destruct (x <=? now) eqn:Hle; [done|]. cbv zeta.
  unfold token_hash_matches. destruct (is_ascii _); [|done].
  destruct (existsb _ keys) eqn:He; [|done]. apply existsb_exists in He as (key & Hk & He).
  apply bool_decide_eq_true in He. intros [= <-]. boolprop.
  exists d, mode, x, key. apply list_elem_of_In in Hk.
  split_and!; try done; by apply dec_stable.
Qed.

(** What a tool call needs: a check that passes has a live run, a token of
    this run and user that has not expired and carries a digest under a current
    key, a registered tool the token grants, and every capability the tool
    requires (at least one) among those the token allows. When digests do not
    collide, a token that carries the digest of minted claims is accepted only
    with those claims: the same tools and capabilities, neither more nor fewer.
    And a downgrade is only offered where the same check passes for the variant
    the denied tool declared. *)
Lemma tool_call_needs_token ended keys now t run user tool v :
  check_tool_capability reg hmac parse_iso render ended keys now t run user tool = Ok v ->
  ended = None /\ is_tool reg tool = true /\ get_capabilities_for_tool reg tool <> [] /\
  (forall c, c ∈ get_capabilities_for_tool reg tool -> c ∈ va_allowed v) /\
  (exists d mode x key, t = VDict d /\ str_field render "run_id" d = run /\ str_field render "user_id" d = user /\
     parse_iso (py_str render (py_get "expires_at" d)) = Some x /\ now < x /\ key ∈ keys /\
     token_hash hmac key (presented reg render d run user mode) = py_str render (py_get "token_hash" d) /\
     ((forall k1 k2 p1 p2, hmac k1 p1 = hmac k2 p2 -> p1 = p2) ->
      (forall n, is_tool reg n = true \/ n ∈ rg_definitions reg -> plain_name n) ->
      forall key0 c0, plain_claims c0 -> token_hash hmac key0 c0 = py_str render (py_get "token_hash" d) ->
        cl_run_id c0 = run /\ cl_user_id c0 = user /\ cl_approval_mode c0 = mode /\
        va_granted v = py_sorted (cl_granted_tools c0) /\ va_allowed v = py_sorted (cl_allowed_capabilities c0))) /\
  (forall enabled tool0 variant,
     negotiate_capability_denial reg hmac parse_iso render enabled ended keys now t run user tool0 = Succeeded variant ->
     degraded_variant reg tool0 = Some variant /\ degraded_variant reg variant = None /\
     exists v', check_tool_capability reg hmac parse_iso render ended keys now t run user variant = Ok v').
Proof.
  unfold check_tool_capability at 1. destruct ended; [done|].
  destruct (validate_token _ _ _ _ keys now t run user) as [v0|] eqn:Hv; [|done].
  unfold check_against. cbv zeta. destruct (decide (tool ∉ va_granted v0)) as [|Hg]; [done|]. apply dec_stable in Hg.
  destruct (first_missing (get_capabilities_for_tool reg tool) (va_allowed v0)) as [|] eqn:Hm; [done|].
  destruct (first_missing (get_capabilities_for_agent reg _) _); [done|]. intros Hok.
  apply validate_token_ok in Hv as (d & mode & x & key & Ht & Hr & Hu & Hx & Hlt & Hk & Hh & Hvg & Hva).
  assert (Htool : is_tool reg tool = true).
  { rewrite Hvg in Hg. simpl in Hg. unfold normalize_tool_list in Hg.
    destruct (py_get "granted_tools" d); try by apply not_elem_of_nil in Hg.
    rewrite elem_of_sorted_set in Hg. by apply list_elem_of_filter in Hg as [? _]. }
  assert (Hv : v = v0 /\ get_capabilities_for_tool reg tool <> []).
  { destruct (get_capabilities_for_tool reg tool); [by rewrite Htool in Hok|]. by injection Hok as <-. }
  destruct Hv as [-> Hcaps]. split_and!; [done|done|done| | |].
  - intros c Hc. unfold first_missing in Hm. destruct (decide (c ∈ va_allowed v0)) as [|Hn]; [done|exfalso].
    assert (Hf : c ∈ base.filter (fun c => c ∉ va_allowed v0) (get_capabilities_for_tool reg tool)) by (by apply list_elem_of_filter).
    destruct (base.filter _ _); [by apply not_elem_of_nil in Hf|done].
  - exists d, mode, x, key. split_and!; try done. intros Hinj Hplain key0 c0 Hc0 Hh0.
    assert (Hpay : token_payload c0 = token_payload (presented reg render d run user mode)).
    { unfold token_hash in Hh, Hh0. apply (Hinj key0 key). by rewrite Hh0, Hh. }
    assert (Hsort : py_sorted (va_granted v0) = va_granted v0 /\ py_sorted (va_allowed v0) = va_allowed v0 /\
      Forall plain_name (va_granted v0) /\ Forall plain_name (va_allowed v0)).
    { rewrite Hvg, Hva. simpl. unfold normalize_tool_list, normalize_capability_list.
      split_and!.
      - destruct (py_get "granted_tools" d); done || apply py_sorted_set.
      - destruct (py_get "allowed_capabilities" d); done || apply py_sorted_set.
      - destruct (py_get "granted_tools" d); try by apply Forall_nil. apply Forall_forall. intros n Hn.
        rewrite elem_of_sorted_set in Hn. apply list_elem_of_filter in Hn as [Hn _]. apply Hplain. by left.
      - destruct (py_get "allowed_capabilities" d); try by apply Forall_nil. apply Forall_forall. intros n Hn.
        rewrite elem_of_sorted_set in Hn. apply list_elem_of_filter in Hn as [Hn _]. apply Hplain. by right. }
    destruct Hsort as (S1 & S2 & P1 & P2). rewrite Hvg in S1, P1. rewrite Hva in S2, P2.
    apply payload_inj in Hpay as (E1 & E2 & _ & _ & _ & E6 & E7 & E8); [|done..].
    rewrite Hvg, Hva, <- S1, <- S2. done.
  - intros enabled tool0 variant. unfold negotiate_capability_denial. destruct enabled; [|done].
    destruct (degraded_variant reg tool0) as [vt|]; [|done]. destruct (degraded_variant reg vt) eqn:Hd; [done|].
    destruct (check_tool_capability reg hmac parse_iso render None keys now t run user vt) as [v'|[e g]] eqn:Hc.
    + intros [= <-]. split_and!; [done|done|]. by exists v'.
    + by destruct (decide (vt ∈ g)).
Qed.
End Claims.

(** ** Concrete runs *)

Module Toy.
(** A digest that does not collide: the bits of the payload, as text. *)
Definition bit (b : bool) : ascii := if b then "1" else "0".

Fixpoint bits (s : string) : string :=
  match s with
  | EmptyString => EmptyString
  | String (Ascii b0 b1 b2 b3 b4 b5 b6 b7) s' =>
      String (bit b0) (String (bit b1) (String (bit b2) (String (bit b3)
        (String (bit b4) (String (bit b5) (String (bit b6) (String (bit b7) (bits s'))))))))
  end.

Definition hmac (key p : string) : string := bits p.
Definition iso (z : Z) : string := pretty z.
Definition render (v : pyval) : string := "".

Lemma bits_ascii s : is_ascii (bits s) = true.
Proof. induction s as [|[[] [] [] [] [] [] [] []] s IH]; [done|exact IH..]. Qed.

Lemma bit_inj b b' : bit b = bit b' -> b = b'.
Proof. by destruct b, b'. Qed.

Lemma bits_inj s : forall s', bits s = bits s' -> s = s'.
Proof.
  induction s as [|[a0 a1 a2 a3 a4 a5 a6 a7] s IH]; intros [|[b0 b1 b2 b3 b4 b5 b6 b7] s']; try done.
  cbn [bits]. intros [= H0%bit_inj H1%bit_inj H2%bit_inj H3%bit_inj H4%bit_inj H5%bit_inj H6%bit_inj H7%bit_inj H8%IH].
  by subst.
Qed.

Lemma hmac_inj k1 k2 p1 p2 : hmac k1 p1 = hmac k2 p2 -> p1 = p2.
Proof. apply bits_inj. Qed.

Definition reg : registry :=
  Registry [("mail.send", ToolMeta "low" "mail.draft" ""); ("mail.draft", ToolMeta "low" "" "");
            ("db.drop", ToolMeta "high" "" "wait")]
    ["execute_flow"; "send"; "draft"; "network"]
    [("mail.send", ["network"; "send"]); ("mail.draft", ["draft"]); ("db.drop", [])]
    [("default", ["execute_flow"]); ("researcher", ["execute_flow"; "network"])] ["db.drop"].

Definition plan : list (string * pyval) :=
  [("steps", VList [VDict [("tool", VStr "mail.send")]; VDict [("tool", VStr "mail.draft")]])].

Definition trust : trust_settings := Trust (VList [VStr "mail.send"; VStr "mail.draft"; VStr "db.drop"]) true false.
Definition ring : key_ring := KeyRing "k1" None None 600.

(** The token minted for the plan, under a ceiling when one is given. *)
Definition minted (ceiling : option (list string)) : token :=
  default [] (mint_token reg hmac iso "k1" 1000 "tok" "r1" "u1" plan (Some trust) "auto" "default" ceiling None true).

Definition check (t : token) (tool : string) : result refusal validation :=
  check_tool_capability reg hmac int_of_string render None ["k1"] 2000 (VDict t) "r1" "u1" tool.
End Toy.

Lemma minted_token_validates_witness :
  exists v, validate_token Toy.reg Toy.hmac int_of_string Toy.render ["k2"; "k1"] 2000 (VDict (Toy.minted None)) "r1" "u1" = Ok v /\
    va_granted v = ["mail.draft"; "mail.send"].
Proof.
  destruct (minted_token_validates Toy.reg Toy.hmac Toy.iso int_of_string Toy.render "s" Toy.ring ["k2"; "k1"] 1000 2000 "tok"
    "r1" "u1" Toy.plan (Some Toy.trust) "auto" "default" None None true (Toy.minted None))
    as (_ & H & _).
  - vm_compute. reflexivity.
  - discriminate.
  - apply list_elem_of_In. simpl. auto.
  - vm_compute. discriminate.
  - vm_compute. discriminate.
  - vm_compute. reflexivity.
  - intros p. apply Toy.bits_ascii.
  - destruct H as (v & granted & allowed & Hv & Hg & Hva & _).
    + apply list_elem_of_In. vm_compute. auto.
    + vm_compute. reflexivity.
    + exists v. split; [exact Hv|]. rewrite Hva. vm_compute in Hg. by injection Hg as <- _.
Defined.

Lemma minted_authority_bounded_witness :
  exists steps, steps_in Toy.plan = Some steps /\ "mail.send" ∈ named_tools steps /\ "mail.send" ∉ rg_restricted Toy.reg.
Proof.
  destruct (minted_authority_bounded Toy.reg Toy.plan (Some Toy.trust) "auto" "default" None ["mail.draft"; "mail.send"]
    ["draft"; "execute_flow"; "network"; "send"]) as (steps & Hs & Hg & _ & _ & Ha).
  - vm_compute. reflexivity.
  - assert (Hin : "mail.send" ∈ ["mail.draft"; "mail.send"]) by (apply list_elem_of_In; simpl; auto).
    exists steps. split; [exact Hs|]. split; [exact (proj1 (Hg _ Hin))|].
    exact (proj1 (proj2 (proj2 (Ha ltac:(discriminate) _ Hin)))).
Defined.

(** The claims of the minted token, and that no name of the registry holds a separator. *)
Definition toy_claims : claims :=
  Claims "r1" "u1" "tok" "1000" "87400" "auto" ["mail.draft"; "mail.send"] ["draft"; "execute_flow"; "network"; "send"].

Lemma toy_names n : is_tool Toy.reg n = true \/ n ∈ rg_definitions Toy.reg -> plain_name n.
Proof.
  unfold is_tool, dict_mem. intros [H|H].
  - simpl in H. repeat (case_decide || case_match); simplify_eq; done.
  - apply list_elem_of_In in H. simpl in H. by repeat destruct H as [<-|H].
Qed.

Lemma tool_call_needs_token_witness :
  exists v, Toy.check (Toy.minted None) "mail.send" = Ok v /\
    va_granted v = ["mail.draft"; "mail.send"] /\ (forall c, c ∈ ["network"; "send"] -> c ∈ va_allowed v).
Proof.
  destruct (Toy.check (Toy.minted None) "mail.send") as [v|] eqn:Hc; [|vm_compute in Hc; discriminate].
  exists v. split; [reflexivity|].
  destruct (tool_call_needs_token Toy.reg Toy.hmac int_of_string Toy.render None ["k1"] 2000 (VDict (Toy.minted None)) "r1" "u1" "mail.send" v Hc)
    as (_ & _ & _ & Hcaps & (d & mode & x & key & Hd & _ & _ & _ & _ & _ & _ & Hmint) & _).
  split; [|exact Hcaps].
  destruct (Hmint Toy.hmac_inj toy_names "k1" toy_claims) as (_ & _ & _ & Hg & _).
  - vm_compute. repeat (constructor || split || discriminate).
  - injection Hd as <-. vm_compute. reflexivity.
  - rewrite Hg. vm_compute. reflexivity.
Defined.

(** The digest does not cover [agent_type]: a token altered there is still said to
    bind its run, and the capabilities the check asks for follow the altered field. *)
Example agent_type_unsigned :
  let t := Toy.minted None in
  let t' := dict_set "agent_type" (VStr "researcher") t in
  token_binds_run Toy.hmac Toy.render ["k1"] (VDict t') "r1" "u1" = true /\
  (exists v, Toy.check t' "mail.draft" = Ok v /\ va_agent_type v = "researcher") /\ t' <> t.
Proof. vm_compute. split; [reflexivity|]. split; [eexists; split; reflexivity|discriminate]. Qed.

(** Under a ceiling with one of a tool's two capabilities the tool stays granted,
    and every check of it is refused. *)
Example ceiling_keeps_unusable_tool :
  let t := Toy.minted (Some ["execute_flow"; "draft"; "send"]) in
  py_get "granted_tools" t = VList [VStr "mail.draft"; VStr "mail.send"] /\
  Toy.check t "mail.send" = Err (CapabilityNotGranted "network", ["mail.draft"; "mail.send"]) /\
  (exists v, Toy.check t "mail.draft" = Ok v).
Proof. vm_compute. split; [reflexivity|]. split; [reflexivity|]. eexists; reflexivity. Qed.

(** A ceiling without the agent's own capability mints a token no tool check accepts. *)
Example ceiling_without_agent_capability :
  let t := Toy.minted (Some ["draft"; "send"; "network"]) in
  t <> [] /\ map (Toy.check t) ["mail.draft"; "mail.send"] =
    [Err (CapabilityNotGranted "execute_flow", ["mail.draft"; "mail.send"]);
     Err (CapabilityNotGranted "execute_flow", ["mail.draft"; "mail.send"])].
Proof. vm_compute. split; [discriminate|reflexivity]. Qed.

(** A denied tool that declares a variant is offered it when the token grants it. *)
Example downgrade_offered :
  let t := Toy.minted (Some ["execute_flow"; "draft"; "send"]) in
  let negotiate := negotiate_capability_denial Toy.reg Toy.hmac int_of_string Toy.render true None ["k1"] 2000 (VDict t) "r1" "u1" in
  (negotiate "mail.send", negotiate "mail.draft", denial_gate_declared Toy.reg true "db.drop") = (Succeeded "mail.draft", NoVariant, true).
Proof. vm_compute. reflexivity. Qed.
