(* ===== verification/ExecEnv.v ===== *)
(** * Execution environments (src/AINDY/core/execution_environment.py, platform_layer/fs_guard.py)

    What an execution may see, do and use is declared as a spec and clamped to
    a floor. The spec and its parser, the floors, the clamp, the translation to
    the arguments of the guest runtime (runtime/nodus_worker.py) and of a tool's
    worker process, the check of the host's assurance, and the audit hook
    that enforces a filesystem scope inside a tool worker.

    A path is a string; [canonical] stands for [normcase(realpath(.))], which
    reads the file system. The interpreter's import roots and the devices that
    exist are arguments. [float()] of the text of a setting is an argument, a float being the
    rational it denotes, an infinity or not a number. Log messages are left out and the text of an error is a
    constructor. *)

From S2P Require Import Prelude PyStr PyVal.
From Stdlib Require Import QArith Qminmax Ascii.
Local Open Scope string_scope.
Local Open Scope Z_scope.
Local Open Scope list_scope.
Local Open Scope py_scope.

(** ** Vocabularies *)

Definition ASSURANCE_ORDER : list string := ["insecure-dev"; "container-grade-sandbox"; "strong-sandbox-tier"].
(** Most restrictive first. *)
Definition FILESYSTEM_ORDER : list string := ["none"; "readonly"; "scoped"; "host"].
Definition ENV_ORDER : list string := ["none"; "allowlist"; "inherit"].
Definition NETWORK_ORDER : list string := ["none"; "scoped"; "open"].

(** [order.index(x)]; [None] is ValueError. *)
Fixpoint index_of (x : string) (order : list string) : option nat :=
  match order with
  | [] => None
  | y :: order => if decide (x = y) then Some 0%nat else option_map S (index_of x order)
  end.

Definition assurance_rank (c : option string) : Z :=
  match index_of (default "None" c) ASSURANCE_ORDER with Some i => Z.of_nat i | None => -1 end.

(** ** The spec *)

Record visibility := Visibility { v_filesystem : string; v_roots : list string; v_env : string; v_env_allow : list string }.
Record authority := Authority { a_network : string; a_egress_scope : option string; a_subprocess : bool }.
Record resources := Resources { r_wall_time_ms : option Z; r_memory_bytes : option Z; r_syscalls : option Z; r_tokens : option Z }.
Record spec := Spec { s_visibility : visibility; s_authority : authority; s_resources : resources; s_min_assurance : string }.

Definition default_visibility : visibility := Visibility "host" [] "inherit" [].
Definition default_authority : authority := Authority "open" None true.
Definition default_resources : resources := Resources None None None None.
(** [ExecutionEnvironmentSpec()], which is also DEFAULT_HOST_FLOOR and TOOL_FLOOR. *)
Definition default_spec : spec := Spec default_visibility default_authority default_resources "insecure-dev".

Inductive env_error :=
| NotADict (type : string)
| SectionNotObject
| NotOneOf (key : string) (value : pyval)
| NotStrings (key : string)
| NotNonNegative (key : string)
| EgressNotString
| SubprocessNotBool
| ValueError
| Unsatisfiable (required available : string).

Definition vopt {A} (f : A -> pyval) (o : option A) : pyval := match o with Some a => f a | None => VNone end.

Definition to_dict (s : spec) : pyval :=
  let v := s_visibility s in let a := s_authority s in let r := s_resources s in
  VDict
    [("visibility", VDict [("filesystem", VStr (v_filesystem v)); ("filesystem_roots", VList (map VStr (v_roots v)));
                           ("env", VStr (v_env v)); ("env_allow", VList (map VStr (v_env_allow v)))]);
     ("authority", VDict [("network", VStr (a_network a)); ("egress_scope", vopt VStr (a_egress_scope a));
                          ("subprocess", VBool (a_subprocess a))]);
     ("resources", VDict [("wall_time_ms", vopt VInt (r_wall_time_ms r)); ("memory_bytes", vopt VInt (r_memory_bytes r));
                          ("syscalls", vopt VInt (r_syscalls r)); ("tokens", vopt VInt (r_tokens r))]);
     ("min_assurance", VStr (s_min_assurance s))].

(** ** from_dict *)

Definition section_of (raw : list (string * pyval)) (key : string) : result env_error (list (string * pyval)) :=
  match py_or (py_get key raw) (VDict []) with VDict d => Ok d | _ => Err SectionNotObject end.

(** [value not in order] for a value of any type *)
Definition enum_field (section : list (string * pyval)) (key : string) (order : list string) (dflt : string) : result env_error string :=
  match default (VStr dflt) (dict_get key section) with
  | VStr x => if decide (x ∈ order) then Ok x else Err (NotOneOf key (VStr x))
  | v => Err (NotOneOf key v)
  end.

Fixpoint all_strings (l : list pyval) : option (list string) :=
  match l with
  | [] => Some []
  | VStr s :: l => option_map (cons s) (all_strings l)
  | _ => None
  end.

Definition tuple_field (section : list (string * pyval)) (key : string) : result env_error (list string) :=
  match py_or (py_get key section) (VList []) with
  | VList l => match all_strings l with Some r => Ok r | None => Err (NotStrings key) end
  | _ => Err (NotStrings key)
  end.

Definition opt_int_field (section : list (string * pyval)) (key : string) : result env_error (option Z) :=
  match py_get key section with
  | VNone => Ok None
  | VInt z => if z <? 0 then Err (NotNonNegative key) else Ok (Some z)
  | _ => Err (NotNonNegative key)
  end.

Definition from_dict (raw : pyval) : result env_error spec :=
  match raw with
  | VDict d =>
      let? vis := section_of d "visibility" in
      let? auth := section_of d "authority" in
      let? res := section_of d "resources" in
      let? min_assurance := enum_field d "min_assurance" ASSURANCE_ORDER "insecure-dev" in
      let? egress := match py_get "egress_scope" auth with
                     | VNone => Ok None | VStr s => Ok (Some s) | _ => Err EgressNotString end in
      let? subprocess := match default (VBool true) (dict_get "subprocess" auth) with
                         | VBool b => Ok b | _ => Err SubprocessNotBool end in
      let? filesystem := enum_field vis "filesystem" FILESYSTEM_ORDER "host" in
      let? roots := tuple_field vis "filesystem_roots" in
      let? env := enum_field vis "env" ENV_ORDER "inherit" in
      let? env_allow := tuple_field vis "env_allow" in
      let? network := enum_field auth "network" NETWORK_ORDER "open" in
      let? wall := opt_int_field res "wall_time_ms" in
      let? mem := opt_int_field res "memory_bytes" in
      let? sysc := opt_int_field res "syscalls" in
      let? toks := opt_int_field res "tokens" in
      Ok (Spec (Visibility filesystem roots env env_allow) (Authority network egress subprocess)
               (Resources wall mem sysc toks) min_assurance)
  | _ => Err (NotADict (type_name raw))
  end.

(** ** Floors *)

Definition GUEST_FLOOR : spec :=
  Spec (Visibility "scoped" [] "none" []) (Authority "none" None false) default_resources "insecure-dev".

(** [_guest_memory_floor_bytes], given the stripped text of the setting and
    [float()]; [Err] is the exception [int()] raises on an infinity or NaN. *)
Definition guest_memory_floor_bytes (float_of : string -> option pyfloat) (raw : string) : result env_error (option Z) :=
  if decide (raw = "") then Ok None
  else match float_of raw with
       | None => Ok None
       | Some (Fin q) => if (Qnum q <=? 0) then Ok None else Ok (Some (Qnum (q * (1048576 # 1)) / Zpos (Qden (q * (1048576 # 1)))))
       | Some (Inf true) => Ok None
       | Some (Inf false) | Some NaN => Err ValueError
       end.

(** [guest_floor], with the memory ceiling read from the environment. *)
Definition guest_floor (memory : option Z) : spec :=
  match memory with
  | None => GUEST_FLOOR
  | Some m => Spec (s_visibility GUEST_FLOOR) (s_authority GUEST_FLOOR) (Resources None (Some m) None None) "insecure-dev"
  end.

Definition tool_floor : spec := default_spec.

(** ** The clamp *)

Definition narrower (order : list string) (declared floor : string) : result env_error (string * bool) :=
  match index_of declared order, index_of floor order with
  | Some d, Some f => Ok (nth (Nat.min d f) order "", bool_decide (f < d)%nat)
  | _, _ => Err ValueError
  end.

Definition narrower_int (declared floor : option Z) : option Z * bool :=
  match declared, floor with
  | None, _ => (floor, false)
  | _, None => (declared, false)
  | Some d, Some f => (Some (Z.min d f), f <? d)
  end.

(** [os.path.commonpath] of two paths on POSIX: the components without the empty
    ones and [.], both absolute or both relative (else ValueError). *)
Definition components (p : string) : list string :=
  base.filter (fun x => x <> "" /\ x <> ".") (split_char "/"%char p).

Fixpoint common_prefix (a b : list string) : list string :=
  match a, b with
  | x :: a, y :: b => if decide (x = y) then x :: common_prefix a b else []
  | _, _ => []
  end.

Definition commonpath (p q : string) : option string :=
  if Bool.eqb (starts_with "/" p) (starts_with "/" q)
  then Some ((if starts_with "/" p then "/" else "") +:+ join_char "/"%char (common_prefix (components p) (components q)))
  else None.

Definition path_within (path root : string) : bool := bool_decide (commonpath path root = Some root).

Section Clamp.
Context (canonical : string -> string).

Definition nonempty (roots : list string) : list string := base.filter (fun r => r <> "") roots.

Definition clamp_roots (mode : string) (declared : list string) (floor : spec) : list string * bool :=
  let roots := nonempty declared in
  if bool_decide (mode ∈ ["none"; "host"]) || bool_decide (roots = []) then (roots, false)
  else if decide (v_filesystem (s_visibility floor) = "host") then (roots, false)
  else
    let floor_roots := map canonical (nonempty (v_roots (s_visibility floor))) in
    let kept := base.filter (fun r => existsb (path_within (canonical r)) floor_roots) roots in
    (kept, negb (bool_decide (length kept = length roots))).

Definition flag (name : string) (w : bool) : list string := if w then [name] else [].

Definition clamp_to_floor (declared floor : spec) : result env_error (spec * list string) :=
  let dv := s_visibility declared in let da := s_authority declared in let dr := s_resources declared in
  let fv := s_visibility floor in let fa := s_authority floor in let fr := s_resources floor in
  let? (fs, w_fs) := narrower FILESYSTEM_ORDER (v_filesystem dv) (v_filesystem fv) in
  let '(roots, w_roots) := clamp_roots fs (v_roots dv) floor in
  let? (env, w_env) := narrower ENV_ORDER (v_env dv) (v_env fv) in
  let? (net, w_net) := narrower NETWORK_ORDER (a_network da) (a_network fa) in
  let subprocess := a_subprocess da && a_subprocess fa in
  let w_sub := a_subprocess da && negb (a_subprocess fa) in
  let '(wall, w_wall) := narrower_int (r_wall_time_ms dr) (r_wall_time_ms fr) in
  let '(mem, w_mem) := narrower_int (r_memory_bytes dr) (r_memory_bytes fr) in
  let '(sysc, w_sys) := narrower_int (r_syscalls dr) (r_syscalls fr) in
  let '(toks, w_tok) := narrower_int (r_tokens dr) (r_tokens fr) in
  let assurance := if assurance_rank (Some (s_min_assurance declared)) <? assurance_rank (Some (s_min_assurance floor))
                   then s_min_assurance floor else s_min_assurance declared in
  Ok (Spec (Visibility fs roots env (v_env_allow dv)) (Authority net (a_egress_scope da) subprocess)
           (Resources wall mem sysc toks) assurance,
      flag "visibility.filesystem" w_fs ++ flag "visibility.filesystem_roots" w_roots ++ flag "visibility.env" w_env
      ++ flag "authority.network" w_net ++ flag "authority.subprocess" w_sub ++ flag "resources.wall_time_ms" w_wall
      ++ flag "resources.memory_bytes" w_mem ++ flag "resources.syscalls" w_sys ++ flag "resources.tokens" w_tok).

(** ** The guest runtime *)

(** The arguments of the guest runtime; [None] of [k_allowed_paths] is Python's
    [None], no restriction. [k_max_memory] is [max_memory_mb], in bytes. *)
Record nodus_kwargs := NodusKwargs
  { k_allowed_paths : option (list string); k_subprocess : bool; k_network : bool; k_env : bool;
    k_max_memory : option Z; k_writable_paths : option (list string) }.

Definition nodus_runtime_kwargs (s : spec) (scratch : string) : nodus_kwargs :=
  let v := s_visibility s in
  NodusKwargs
    (if decide (v_filesystem v = "none") then Some []
     else if decide (v_filesystem v = "host") then None
     else Some (match nonempty (v_roots v) with [] => [scratch] | roots => roots end))
    (a_subprocess (s_authority s))
    (negb (bool_decide (a_network (s_authority s) = "none")))
    (negb (bool_decide (v_env v = "none")))
    (match r_memory_bytes (s_resources s) with Some m => if 0 <? m then Some m else None | None => None end)
    (if decide (v_filesystem v = "readonly") then Some [] else None).

(** The environment of one guest execution, from the [env_spec] of its payload:
    an unusable spec falls back to the floor. *)
Definition guest_environment (memory : option Z) (env_spec : pyval) (scratch : string) : nodus_kwargs :=
  let declared :=
    if py_truth env_spec
    then match (let? d := from_dict env_spec in clamp_to_floor d (guest_floor memory)) with
         | Ok (effective, _) => effective
         | Err _ => guest_floor memory
         end
    else guest_floor memory in
  nodus_runtime_kwargs declared scratch.

(** ** The worker of an isolated tool *)

Record worker_kwargs := WorkerKwargs
  { wk_env : option (list (string * string)); wk_cwd : option string; wk_timeout : option Q }.

Definition ESSENTIAL : list string := ["PATH"; "PYTHONPATH"; "PYTHONHOME"; "SYSTEMROOT"; "TEMP"; "TMP"].

Definition subprocess_confinement (environ : list (string * string)) (s : spec) (scratch : string) (default_timeout : Q) : worker_kwargs :=
  let v := s_visibility s in
  WorkerKwargs
    (if decide (v_env v ∈ ["none"; "allowlist"])
     then Some (base.filter (fun kv => kv.1 ∈ v_env_allow v \/ kv.1 ∈ ESSENTIAL) environ) else None)
    (if decide (v_filesystem v ∈ ["scoped"; "readonly"; "none"]) then Some scratch else None)
    (match r_wall_time_ms (s_resources s) with
     | Some ms => if ms =? 0 then None else Some (Qmin default_timeout (ms # 1000))
     | None => None
     end).

(** ** The host *)

(** What the sandbox runner of the host answers: the runner selected, the classes
    of the supported runners and the assurance ceiling; [None] when asking raised. *)
Definition host_answer : Type := option (string * list (string * string) * string).

Definition host_assurance (h : host_answer) : string * string :=
  match h with
  | Some (runner, supported, ceiling) =>
      let c := default "insecure-dev" (dict_get runner supported) in (c, c +:+ "/" +:+ ceiling)
  | None => ("insecure-dev", "insecure-dev/resolution-failed")
  end.

Definition RESOURCES_ENFORCED : list (string * (resources -> option Z)) :=
  [("wall_time_ms", r_wall_time_ms); ("syscalls", r_syscalls); ("tokens", r_tokens)].
Definition GUEST_RESOURCES_ENFORCED : list (string * (resources -> option Z)) :=
  RESOURCES_ENFORCED ++ [("memory_bytes", r_memory_bytes)].

Definition enforced_resources (s : spec) (guest : bool) : list string :=
  map fst (base.filter (fun d => is_Some (d.2 (s_resources s))) (if guest then GUEST_RESOURCES_ENFORCED else RESOURCES_ENFORCED)).

Record resolution := Resolution
  { rs_declared : spec; rs_effective : spec; rs_evidence : string; rs_host : string; rs_widened : list string }.

Definition resolve_environment (h : host_answer) (declared floor : spec) : result env_error resolution :=
  let? (effective, widened) := clamp_to_floor declared floor in
  let '(host_class, evidence) := host_assurance h in
  if assurance_rank (Some host_class) <? assurance_rank (Some (s_min_assurance effective))
  then Err (Unsatisfiable (s_min_assurance effective) host_class)
  else Ok (Resolution declared effective evidence host_class widened).
End Clamp.

(** ** The filesystem guard of a tool worker *)

Record fs_decision := FsDecision { fd_mode : string; fd_roots : list string; fd_scratch : option string }.

Definition FS_MODES : list string := ["none"; "readonly"; "scoped"].

(** [if self.scratch]: an empty path is no scratch root. *)
Definition scratch_roots (d : fs_decision) : list string :=
  match fd_scratch d with Some s => if decide (s = "") then [] else [s] | None => [] end.

Definition readable (d : fs_decision) : list string :=
  if decide (fd_mode d = "none") then [] else fd_roots d ++ scratch_roots d.

Definition writable (d : fs_decision) : list string :=
  if decide (fd_mode d <> "scoped") then [] else fd_roots d ++ scratch_roots d.

Definition fs_to_payload (d : fs_decision) : pyval :=
  VDict [("mode", VStr (fd_mode d)); ("roots", VList (map VStr (fd_roots d))); ("scratch", vopt VStr (fd_scratch d))].

(** [FilesystemDecision.from_payload] on the dict of a payload. [None] is an unreadable
    decision; a [roots] that cannot be iterated is taken as unreadable too. *)
Definition fs_from_payload (render : pyval -> string) (raw : pyval) : option fs_decision :=
  match raw with
  | VDict d =>
      let mode := py_str render (py_or (py_get "mode" d) (VStr "")) in
      if decide (mode ∈ FS_MODES)
      then match py_list (py_or (py_get "roots" d) (VList [])) with
           | Some l => Some (FsDecision mode (map (py_str render) (base.filter (fun v => py_truth v = true) l))
                       (if py_truth (py_get "scratch" d) then Some (py_str render (py_get "scratch" d)) else None))
           | None => None
           end
      else None
  | _ => None
  end.

Definition resolve_filesystem_decision (s : spec) (scratch : option string) : option fs_decision :=
  if decide (v_filesystem (s_visibility s) ∈ FS_MODES)
  then Some (FsDecision (v_filesystem (s_visibility s)) (v_roots (s_visibility s)) scratch)
  else None.

(** An argument of an audit event: a path (str, bytes or path object), an integer
    (a descriptor or flags), or None. *)
Inductive harg := HNone | HInt (z : Z) | HStr (s : string).

Definition READ_EVENTS : list string := ["os.listdir"; "os.scandir"].

(** The mutating events with the positions of their paths. *)
Definition WRITE_EVENTS : list (string * list nat) :=
  [("os.remove", [0]); ("os.rmdir", [0]); ("os.mkdir", [0]); ("os.rename", [0; 1]); ("os.link", [0; 1]);
   ("os.symlink", [0; 1]); ("os.truncate", [0]); ("os.chmod", [0]); ("os.chown", [0]); ("os.chflags", [0]);
   ("os.utime", [0]); ("os.setxattr", [0]); ("os.removexattr", [0]); ("shutil.rmtree", [0]); ("shutil.copyfile", [1]);
   ("shutil.copymode", [1]); ("shutil.copystat", [1]); ("shutil.move", [1])]%nat.

(** O_WRONLY, O_RDWR, O_CREAT, O_EXCL, O_TRUNC and O_APPEND of Linux. *)
Definition WRITE_FLAGS : Z := 1 + 2 + 64 + 128 + 512 + 1024.

Definition is_write_open (mode flags : harg) : bool :=
  match mode with
  | HStr m => str_in "w" m || str_in "a" m || str_in "x" m || str_in "+" m
  | _ => false
  end
  || match flags with HInt z => negb (Z.land z WRITE_FLAGS =? 0) | _ => false end.

Section Guard.
Context (canonical : string -> string).
(** [_import_roots()] and the devices that exist, canonical. *)
Context (code_roots always : list string).

Definition within (p : string) (roots : list string) : bool := existsb (path_within p) roots.

(** [_check]; [false] is PermissionError. *)
Definition fs_check (d : fs_decision) (path : harg) (write : bool) : bool :=
  match path with
  | HNone | HInt _ => true
  | HStr s =>
      let p := canonical s in
      if write then within p (map canonical (writable d))
      else within p (map canonical (readable d)) || within p code_roots || bool_decide (p ∈ always)
  end.

(** [_hook] *)
Definition fs_hook (d : fs_decision) (event : string) (args : list harg) : bool :=
  if decide (event = "open") then
    fs_check d (nth 0 args HNone) (is_write_open (nth 1 args HNone) (nth 2 args HNone))
  else if decide (event ∈ READ_EVENTS) then fs_check d (nth 0 args HNone) false
  else match dict_get event WRITE_EVENTS with
       | Some positions => forallb (fun i => match args !! i with Some a => fs_check d a true | None => true end) positions
       | None => true
       end.

(** [install_process_fs_guard]: the first decision of a process stays. *)
Definition install_process_fs_guard (d : fs_decision) (installed : option fs_decision) : option fs_decision :=
  match installed with Some d' => Some d' | None => Some d end.
End Guard.

(** ** Axes of the spec

    Each axis is ordered by how much it allows; its clamp is the meet. *)

Class Axis {A} (valid : A -> Prop) (le : A -> A -> Prop) (meet : A -> A -> A) := {
  axis_refl x : valid x -> le x x;
  axis_trans x y z : le x y -> le y z -> le x z;
  axis_meet_valid x y : valid x -> valid y -> valid (meet x y);
  axis_meet_l x y : valid x -> valid y -> le (meet x y) x;
  axis_meet_r x y : valid x -> valid y -> le (meet x y) y;
  axis_meet_glb x y z : valid x -> valid y -> le z x -> le z y -> le z (meet x y) }.

Definition mode_le (order : list string) (x y : string) : Prop :=
  exists i j, index_of x order = Some i /\ index_of y order = Some j /\ (i <= j)%nat.
Definition mode_meet (order : list string) (x y : string) : string :=
  match narrower order x y with Ok (z, _) => z | Err _ => x end.

(** A missing ceiling is the most permissive. *)
Definition ceiling_le (x y : option Z) : Prop :=
  match y with None => True | Some b => exists a, x = Some a /\ a <= b end.
Definition ceiling_meet (x y : option Z) : option Z := (narrower_int x y).1.

(** A stronger assurance allows fewer hosts. *)
Definition assurance_le (x y : string) : Prop := assurance_rank (Some y) <= assurance_rank (Some x).
Definition assurance_meet (x y : string) : string :=
  if assurance_rank (Some x) <? assurance_rank (Some y) then y else x.

Definition bool_le (x y : bool) : Prop := implb x y = true.

Lemma index_of_Some x order i : index_of x order = Some i -> nth i order "" = x /\ (i < length order)%nat.
Proof.
  revert i; induction order as [|y order IH]; intros i; simpl; [done|].
  destruct (decide (x = y)) as [->|]; [intros [= <-]; split; [done|lia]|].
  destruct (index_of x order) as [j|]; [|done]. intros [= <-]. destruct (IH j eq_refl). split; [done|lia].
Qed.

Lemma index_of_elem x order : x ∈ order <-> is_Some (index_of x order).
Proof.
  induction order as [|y order IH]; simpl.
  - split; [by intros ?%not_elem_of_nil|by intros []].
  - rewrite elem_of_cons, IH. destruct (decide (x = y)) as [->|Hn]; [split; [by eexists|by left]|].
    destruct (index_of x order); simpl; split; try (intros []; done); try (intros _; by eexists); intros _; right; by eexists.
Qed.

Lemma index_of_nth order i : NoDup order -> (i < length order)%nat -> index_of (nth i order "") order = Some i.
Proof.
  intros Hn; revert i; induction Hn as [|y order Hy Hn IH]; intros i Hi; simpl in *; [lia|].
  destruct i as [|i]; simpl; [by rewrite decide_True|].
  rewrite decide_False, IH; [done|lia|]. intros <-. apply Hy, list_elem_of_In, nth_In. lia.
Qed.

(** The clamp of a mode in terms of positions. *)
Lemma narrower_spec order x y : NoDup order -> x ∈ order -> y ∈ order ->
  exists i j, index_of x order = Some i /\ index_of y order = Some j /\
    narrower order x y = Ok (nth (Nat.min i j) order "", bool_decide (j < i)%nat) /\
    index_of (nth (Nat.min i j) order "") order = Some (Nat.min i j) /\ nth (Nat.min i j) order "" ∈ order.
Proof.
  intros Hn [i Hi]%index_of_elem [j Hj]%index_of_elem. exists i, j. unfold narrower. rewrite Hi, Hj.
  pose proof (index_of_Some _ _ _ Hi) as [_ ?]. pose proof (index_of_Some _ _ _ Hj) as [_ ?].
  repeat split_and!; [done..| |].
  - apply index_of_nth; [done|lia].
  - apply list_elem_of_In, nth_In. lia.
Qed.

#[export] Instance mode_axis order : NoDup order -> Axis (fun x => x ∈ order) (mode_le order) (mode_meet order).
Proof.
  intros Hn; split; unfold mode_le, mode_meet.
  - intros x [i Hi]%index_of_elem. exists i, i. done.
  - intros x y z (i & j & Hi & Hj & ?) (j' & k & Hj' & Hk & ?). exists i, k. assert (j = j') by congruence. split_and!; [done..|lia].
  - intros x y Hx Hy. destruct (narrower_spec order x y Hn Hx Hy) as (i & j & _ & _ & -> & _ & H). done.
  - intros x y Hx Hy. destruct (narrower_spec order x y Hn Hx Hy) as (i & j & Hi & Hj & -> & Hmin & _).
    exists (Nat.min i j), i. split_and!; [done..|lia].
  - intros x y Hx Hy. destruct (narrower_spec order x y Hn Hx Hy) as (i & j & Hi & Hj & -> & Hmin & _).
    exists (Nat.min i j), j. split_and!; [done..|lia].
  - intros x y z Hx Hy (k & i & Hk & Hi & ?) (k' & j & Hk' & Hj & ?).
    destruct (narrower_spec order x y Hn Hx Hy) as (i' & j' & Hi' & Hj' & -> & Hmin & _).
    exists k, (Nat.min i' j'). assert (k = k' /\ i = i' /\ j = j') as (-> & -> & ->) by (split_and!; congruence).
    split_and!; [done..|lia].
Qed.

#[export] Instance ceiling_axis : Axis (fun _ => True) ceiling_le ceiling_meet.
Proof.
  split; unfold ceiling_le, ceiling_meet; try done.
  - intros [x|] _; [by exists x|done].
  - intros x [y|] [z|]; try done; [|by intros _ (? & ? & ?)].
    intros (a & -> & ?) (b & [= <-] & ?). exists a. split; [done|lia].
  - intros [x|] [y|] _ _; simpl; try done; eexists; (split; [done|lia]).
  - intros [x|] [y|] _ _; simpl; try done; eexists; (split; [done|lia]).
  - intros [x|] [y|] z _ _ Hx Hy; simpl; try done. destruct Hx as (a & -> & ?). destruct Hy as (b & [= <-] & ?).
    exists a. split; [done|lia].
Qed.

#[export] Instance assurance_axis : Axis (fun x => x ∈ ASSURANCE_ORDER) assurance_le assurance_meet.
Proof.
  split; unfold assurance_le, assurance_meet; intros; try lia; try (destruct (Z.ltb_spec (assurance_rank (Some x)) (assurance_rank (Some y))); first [done|lia]).
Qed.

#[export] Instance bool_axis : Axis (fun _ => True) bool_le andb.
Proof. split; unfold bool_le; intros; repeat match goal with b : bool |- _ => destruct b end; done. Qed.

(** ** Specs in order *)

Record wf_spec (s : spec) : Prop := {
  wf_filesystem : v_filesystem (s_visibility s) ∈ FILESYSTEM_ORDER;
  wf_env : v_env (s_visibility s) ∈ ENV_ORDER;
  wf_network : a_network (s_authority s) ∈ NETWORK_ORDER;
  wf_assurance : s_min_assurance s ∈ ASSURANCE_ORDER;
  wf_resources : Forall (fun f => forall z, f (s_resources s) = Some z -> 0 <= z)
                   [r_wall_time_ms; r_memory_bytes; r_syscalls; r_tokens] }.

(** [s ⊑ t]: [s] confines at least as much as [t] on every ordered axis. *)
#[export] Instance spec_le : SqSubsetEq spec := fun s t =>
  mode_le FILESYSTEM_ORDER (v_filesystem (s_visibility s)) (v_filesystem (s_visibility t)) /\
  mode_le ENV_ORDER (v_env (s_visibility s)) (v_env (s_visibility t)) /\
  mode_le NETWORK_ORDER (a_network (s_authority s)) (a_network (s_authority t)) /\
  bool_le (a_subprocess (s_authority s)) (a_subprocess (s_authority t)) /\
  Forall (fun f => ceiling_le (f (s_resources s)) (f (s_resources t))) [r_wall_time_ms; r_memory_bytes; r_syscalls; r_tokens] /\
  assurance_le (s_min_assurance s) (s_min_assurance t).

Lemma orders_nodup : NoDup FILESYSTEM_ORDER /\ NoDup ENV_ORDER /\ NoDup NETWORK_ORDER /\ NoDup ASSURANCE_ORDER.
Proof. split_and!; apply (bool_decide_unpack _); by vm_compute. Qed.

#[export] Instance filesystem_axis : Axis (fun x => x ∈ FILESYSTEM_ORDER) (mode_le FILESYSTEM_ORDER) (mode_meet FILESYSTEM_ORDER).
Proof. apply mode_axis, orders_nodup. Qed.
#[export] Instance env_axis : Axis (fun x => x ∈ ENV_ORDER) (mode_le ENV_ORDER) (mode_meet ENV_ORDER).
Proof. apply mode_axis, orders_nodup. Qed.
#[export] Instance network_axis : Axis (fun x => x ∈ NETWORK_ORDER) (mode_le NETWORK_ORDER) (mode_meet NETWORK_ORDER).
Proof. apply mode_axis, orders_nodup. Qed.

Create HintDb axes.
#[export] Hint Resolve wf_filesystem wf_env wf_network wf_assurance : axes.

(** The clamped spec, axis by axis. *)
Definition meet_spec canonical (s t : spec) : spec :=
  Spec (Visibility (mode_meet FILESYSTEM_ORDER (v_filesystem (s_visibility s)) (v_filesystem (s_visibility t)))
                   (clamp_roots canonical (mode_meet FILESYSTEM_ORDER (v_filesystem (s_visibility s)) (v_filesystem (s_visibility t)))
                      (v_roots (s_visibility s)) t).1
                   (mode_meet ENV_ORDER (v_env (s_visibility s)) (v_env (s_visibility t))) (v_env_allow (s_visibility s)))
       (Authority (mode_meet NETWORK_ORDER (a_network (s_authority s)) (a_network (s_authority t))) (a_egress_scope (s_authority s))
                  (a_subprocess (s_authority s) && a_subprocess (s_authority t)))
       (Resources (ceiling_meet (r_wall_time_ms (s_resources s)) (r_wall_time_ms (s_resources t)))
                  (ceiling_meet (r_memory_bytes (s_resources s)) (r_memory_bytes (s_resources t)))
                  (ceiling_meet (r_syscalls (s_resources s)) (r_syscalls (s_resources t)))
                  (ceiling_meet (r_tokens (s_resources s)) (r_tokens (s_resources t))))
       (assurance_meet (s_min_assurance s) (s_min_assurance t)).

(** The declared spec asks for something the floor refuses. *)
Definition ceiling_widens (d f : option Z) : Prop := exists a b, d = Some a /\ f = Some b /\ b < a.

Definition widens canonical (d f : spec) (field : string) : Prop :=
  field = "visibility.filesystem" /\ ~ mode_le FILESYSTEM_ORDER (v_filesystem (s_visibility d)) (v_filesystem (s_visibility f)) \/
  field = "visibility.filesystem_roots" /\
    (clamp_roots canonical (v_filesystem (s_visibility (meet_spec canonical d f))) (v_roots (s_visibility d)) f).1 <> nonempty (v_roots (s_visibility d)) \/
  field = "visibility.env" /\ ~ mode_le ENV_ORDER (v_env (s_visibility d)) (v_env (s_visibility f)) \/
  field = "authority.network" /\ ~ mode_le NETWORK_ORDER (a_network (s_authority d)) (a_network (s_authority f)) \/
  field = "authority.subprocess" /\ ~ bool_le (a_subprocess (s_authority d)) (a_subprocess (s_authority f)) \/
  field = "resources.wall_time_ms" /\ ceiling_widens (r_wall_time_ms (s_resources d)) (r_wall_time_ms (s_resources f)) \/
  field = "resources.memory_bytes" /\ ceiling_widens (r_memory_bytes (s_resources d)) (r_memory_bytes (s_resources f)) \/
  field = "resources.syscalls" /\ ceiling_widens (r_syscalls (s_resources d)) (r_syscalls (s_resources f)) \/
  field = "resources.tokens" /\ ceiling_widens (r_tokens (s_resources d)) (r_tokens (s_resources f)).

Lemma narrower_meet order x y : NoDup order -> x ∈ order -> y ∈ order ->
  exists w, narrower order x y = Ok (mode_meet order x y, w) /\ (w = true <-> ~ mode_le order x y).
Proof.
  intros Hn Hx Hy. unfold mode_meet. destruct (narrower_spec order x y Hn Hx Hy) as (i & j & Hi & Hj & -> & _).
  eexists. split; [done|]. rewrite bool_decide_eq_true. unfold mode_le. split.
  - intros ? (i' & j' & ? & ? & ?). assert (i = i' /\ j = j') as [-> ->] by (split; congruence). lia.
  - intros Hle. destruct (decide (j < i)%nat); [done|]. exfalso. apply Hle. exists i, j. split_and!; [done..|lia].
Qed.

Lemma narrower_int_meet d f : exists w, narrower_int d f = (ceiling_meet d f, w) /\ (w = true <-> ceiling_widens d f).
Proof.
  unfold ceiling_meet, ceiling_widens.
  destruct d as [d|], f as [f|]; simpl; eexists; (split; [done|]); try (split; [done|]; intros (?&?&?&?&?); done).
  rewrite Z.ltb_lt. split; [by eexists _, _|]. by intros (?&?&[= <-]&[= <-]&?).
Qed.

Lemma filter_length_eq {A} (P : A -> Prop) `{!forall x, Decision (P x)} l :
  length (base.filter P l) = length l <-> base.filter P l = l.
Proof.
  split; [|by intros ->]. intros Hl. apply list_filter_all.
  revert Hl. induction l as [|a l IH]; [by intros _ x ?%not_elem_of_nil|].
  rewrite filter_cons. pose proof (length_filter P l).
  destruct (decide (P a)); simpl; intros Hl x Hx; [|lia]. apply elem_of_cons in Hx as [->|Hx]; [done|].
  apply IH; [lia|done].
Qed.

Lemma clamp_roots_flag canonical mode roots f :
  (clamp_roots canonical mode roots f).2 = true <-> (clamp_roots canonical mode roots f).1 <> nonempty roots.
Proof.
  unfold clamp_roots. destruct (_ || _); [by split|]. destruct (decide _); [by split|]. simpl.
  rewrite negb_true_iff, bool_decide_eq_false, filter_length_eq. done.
Qed.

Lemma elem_of_flag x name w : x ∈ flag name w <-> x = name /\ w = true.
Proof. destruct w; simpl; rewrite ?list_elem_of_singleton, ?elem_of_nil; naive_solver. Qed.

Lemma clamp_to_floor_spec canonical d f : wf_spec d -> wf_spec f ->
  exists widened, clamp_to_floor canonical d f = Ok (meet_spec canonical d f, widened) /\
    forall x, x ∈ widened <-> widens canonical d f x.
Proof.
  intros [Df De Dn _ _] [Ff Fe Fn _ _]. unfold clamp_to_floor, widens.
  destruct (narrower_meet _ _ _ (proj1 orders_nodup) Df Ff) as (w1 & -> & H1). cbn [result_bind].
  set (m := mode_meet FILESYSTEM_ORDER _ _) in *.
  destruct (clamp_roots canonical m (v_roots (s_visibility d)) f) as [roots w2] eqn:Hr.
  pose proof (clamp_roots_flag canonical m (v_roots (s_visibility d)) f) as H2. rewrite Hr in H2.
  destruct (narrower_meet _ _ _ (proj1 (proj2 orders_nodup)) De Fe) as (w3 & -> & H3).
  cbn [result_bind].
  destruct (narrower_meet _ _ _ (proj1 (proj2 (proj2 orders_nodup))) Dn Fn) as (w4 & -> & H4). cbn [result_bind].
  destruct (narrower_int_meet (r_wall_time_ms (s_resources d)) (r_wall_time_ms (s_resources f))) as (w5 & -> & H5).
  destruct (narrower_int_meet (r_memory_bytes (s_resources d)) (r_memory_bytes (s_resources f))) as (w6 & -> & H6).
  destruct (narrower_int_meet (r_syscalls (s_resources d)) (r_syscalls (s_resources f))) as (w7 & -> & H7).
  destruct (narrower_int_meet (r_tokens (s_resources d)) (r_tokens (s_resources f))) as (w8 & -> & H8).
  eexists. split.
  - unfold meet_spec. fold m. rewrite Hr. done.
  - intros x. rewrite !elem_of_app, !elem_of_flag. unfold meet_spec. cbn [s_visibility v_filesystem]. fold m. rewrite Hr.
    cbn [fst snd] in *.
    rewrite H1, H2, H3, H4, H5, H6, H7, H8.
    assert (a_subprocess (s_authority d) && negb (a_subprocess (s_authority f)) = true <->
            ~ bool_le (a_subprocess (s_authority d)) (a_subprocess (s_authority f))) as ->; [|done].
    unfold bool_le. destruct (a_subprocess (s_authority d)), (a_subprocess (s_authority f)); simpl; naive_solver.
Qed.

Lemma ceiling_meet_nonneg d f : (forall z, d = Some z -> 0 <= z) -> (forall z, f = Some z -> 0 <= z) ->
  forall z, ceiling_meet d f = Some z -> 0 <= z.
Proof.
  intros Hd Hf z Hz. unfold ceiling_meet in Hz. destruct d as [d|], f as [f|]; simplify_eq/=; auto. apply Z.min_glb; auto.
Qed.

Lemma meet_wf canonical d f : wf_spec d -> wf_spec f -> wf_spec (meet_spec canonical d f).
Proof.
  intros Hd Hf. pose proof (wf_resources _ Hd) as Rd. pose proof (wf_resources _ Hf) as Rf.
  rewrite !Forall_cons in Rd, Rf. split; simpl; [apply (axis_meet_valid (Axis := filesystem_axis))| |
    apply (axis_meet_valid (Axis := network_axis))|apply (axis_meet_valid (Axis := assurance_axis))|]; eauto with axes.
  - apply (axis_meet_valid (Axis := env_axis)); eauto with axes.
  - rewrite !Forall_cons. simpl. split_and!; [apply ceiling_meet_nonneg; tauto..|constructor].
Qed.

Lemma meet_spec_glb canonical d f : wf_spec d -> wf_spec f ->
  let e := meet_spec canonical d f in e ⊑ d /\ e ⊑ f /\ forall s, s ⊑ d -> s ⊑ f -> s ⊑ e.
Proof.
  intros Hd Hf e. unfold sqsubseteq, spec_le. rewrite !Forall_cons. unfold e. cbn -[mode_meet mode_le ceiling_meet assurance_meet andb].
  split; [|split].
  1: split_and!; try (apply axis_meet_l; eauto with axes); constructor.
  1: split_and!; try (apply axis_meet_r; eauto with axes); constructor.
  intros s (A1 & A2 & A3 & A4 & A5 & A6) (B1 & B2 & B3 & B4 & B5 & B6). rewrite !Forall_cons in A5, B5. rewrite !Forall_cons.
  destruct A5 as (? & ? & ? & ? & _), B5 as (? & ? & ? & ? & _).
  split_and!; try (apply axis_meet_glb; eauto with axes); constructor.
Qed.

(** ** Paths *)

Lemma common_prefix_spec a b : common_prefix a b = b <-> b `prefix_of` a.
Proof.
  revert b; induction a as [|x a IH]; intros [|y b]; simpl.
  - split; [by exists []|done].
  - split; [done|]. by intros [? [=]].
  - split; [by eexists|done].
  - destruct (decide (x = y)) as [->|Hn].
    + split.
      * intros [= Hb]. apply prefix_cons. by apply IH.
      * intros Hb%prefix_cons_inv_2. f_equal. by apply IH.
    + split; [done|]. intros Hb. by apply prefix_cons_inv_1 in Hb.
Qed.

(** A path without redundant separators. *)
Definition normal (r : string) : string := (if starts_with "/" r then "/" else "") +:+ join_char "/"%char (components r).

Lemma components_clean r : Forall (fun x => x <> "" /\ x <> "." /\ no_char "/"%char x = true) (components r).
Proof.
  apply Forall_forall. intros x [[? ?] Hx]%list_elem_of_filter. split_and!; [done..|].
  pose proof (split_char_no_char "/"%char r) as Hno. rewrite Forall_forall in Hno. by apply Hno.
Qed.

Lemma clean_filter l : Forall (fun x => x <> "" /\ x <> "." /\ no_char "/"%char x = true) l ->
  base.filter (fun x => x <> "" /\ x <> ".") l = l.
Proof. intros H. apply list_filter_all. rewrite Forall_forall in H. intros x Hx. destruct (H x Hx) as (? & ? & ?). done. Qed.

Lemma components_join (abs : bool) l : Forall (fun x => x <> "" /\ x <> "." /\ no_char "/"%char x = true) l ->
  components ((if abs then "/" else "") +:+ join_char "/"%char l) = l.
Proof.
  intros Hl. unfold components.
  assert (base.filter (fun x => x <> "" /\ x <> ".") (split_char "/"%char (join_char "/"%char l)) = l) as E.
  { destruct l as [|x l]; [done|]. rewrite split_join; [by apply clean_filter|done|].
    eapply Forall_impl; [exact Hl|]. by intros ? (? & ? & ?). }
  destruct abs; [|exact E]. simpl. rewrite filter_cons, decide_False; [exact E|]. by intros [? _].
Qed.

Lemma path_within_spec p r : path_within p r = true <->
  starts_with "/" p = starts_with "/" r /\ normal r = r /\ components r `prefix_of` components p.
Proof.
  unfold path_within, commonpath, normal. rewrite bool_decide_eq_true.
  destruct (Bool.eqb (starts_with "/" p) (starts_with "/" r)) eqn:E; [|split; [done|]; intros (H & _); rewrite H, eqb_reflx in E; done].
  apply eqb_prop in E. rewrite E. split.
  - intros [= H]. split; [done|].
    assert (common_prefix (components p) (components r) = components r) as Hc.
    { rewrite <- H at 2. symmetry. apply components_join.
      pose proof (components_clean r) as C. revert C. generalize (components p), (components r). intros a; induction a as [|x a IH]; intros [|y b] C; simpl; try done.
      destruct (decide (x = y)) as [->|]; [|done]. apply Forall_cons in C as [? ?]. constructor; auto. }
    split; [|by apply common_prefix_spec]. by rewrite Hc in H.
  - intros (_ & Hn & Hp). apply common_prefix_spec in Hp. rewrite Hp. by f_equal.
Qed.

Lemma path_within_trans p q r : path_within p q = true -> path_within q r = true -> path_within p r = true.
Proof.
  rewrite !path_within_spec. intros (? & _ & ?) (? & ? & ?). split_and!; [congruence|done|]. by etrans.
Qed.

(** ** The clamp is the meet *)

(** The paths the guest runtime opens under a spec, [p] canonical. *)
Definition reaches (canonical : string -> string) (s : spec) (scratch p : string) : Prop :=
  match k_allowed_paths (nodus_runtime_kwargs s scratch) with
  | None => True
  | Some roots => exists r, r ∈ roots /\ path_within p (canonical r) = true
  end.

Lemma existsb_elem {A} (f : A -> bool) l : existsb f l = true <-> exists x, x ∈ l /\ f x = true.
Proof. rewrite existsb_exists. setoid_rewrite list_elem_of_In. done. Qed.

Lemma nonempty_idemp l : nonempty (nonempty l) = nonempty l.
Proof. apply list_filter_all. by intros x [? _]%list_elem_of_filter. Qed.

(** A root that survives a bounded floor is a declared root inside a floor root. *)
Lemma clamp_roots_kept canonical mode roots f r : mode <> "none" -> mode <> "host" ->
  v_filesystem (s_visibility f) <> "host" -> r ∈ (clamp_roots canonical mode roots f).1 ->
  r ∈ nonempty roots /\ exists fr, fr ∈ nonempty (v_roots (s_visibility f)) /\ path_within (canonical r) (canonical fr) = true.
Proof.
  intros Hm1 Hm2 Hf. unfold clamp_roots. rewrite bool_decide_false by set_solver. simpl.
  destruct (bool_decide_reflect (nonempty roots = [])) as [->|]; [by intros ?%not_elem_of_nil|].
  rewrite decide_False by done. simpl. intros [Hk Hr]%list_elem_of_filter. split; [done|].
  apply Is_true_true, existsb_elem in Hk as (x & (fr & -> & Hfr)%list_elem_of_fmap & ?). by exists fr.
Qed.

Lemma clamp_reach canonical d f scratch p : wf_spec d -> wf_spec f ->
  reaches canonical (meet_spec canonical d f) scratch p ->
  v_filesystem (s_visibility f) = "host" \/
  v_filesystem (s_visibility f) <> "none" /\
    (path_within p (canonical scratch) = true \/
     exists r, r ∈ nonempty (v_roots (s_visibility f)) /\ path_within p (canonical r) = true).
Proof.
  intros Hd Hf. unfold reaches, nodus_runtime_kwargs. cbn [k_allowed_paths].
  set (e := meet_spec canonical d f).
  assert (mode_le FILESYSTEM_ORDER (v_filesystem (s_visibility e)) (v_filesystem (s_visibility f))) as (i & j & Hi & Hj & Hij).
  { apply (axis_meet_r (Axis := filesystem_axis)); eauto with axes. }
  destruct (decide (v_filesystem (s_visibility f) = "host")) as [|Hh]; [by left|].
  destruct (decide _) as [He|He]; [by intros (? & ?%not_elem_of_nil & _)|].
  destruct (decide _) as [He2|He2].
  { rewrite He2 in Hi. injection Hi as <-. exfalso. apply Hh. apply index_of_Some in Hj as [<- Hl]. simpl in Hl.
    by assert (j = 3)%nat as -> by lia. }
  intros (r & Hr & Hp). right. split.
  { intros Hn. rewrite Hn in Hj. injection Hj as <-. apply He. apply index_of_Some in Hi as [<- _]. by assert (i = 0)%nat as -> by lia. }
  destruct (nonempty (v_roots (s_visibility e))) as [|r0 rs] eqn:Hroots.
  { apply list_elem_of_singleton in Hr as ->. by left. }
  right. assert (r ∈ v_roots (s_visibility e)) as Hre by (rewrite <- Hroots in Hr; by apply list_elem_of_filter in Hr as [_ ?]).
  apply clamp_roots_kept in Hre as (_ & fr & Hfr & Hw); [|done..]. exists fr. split; [done|]. by eapply path_within_trans.
Qed.

(** On every ordered axis the clamped spec is the greatest spec that confines
    at least as much as the declared spec and as the floor; it is well formed, so
    clamping always returns. The reported fields are exactly those where the
    declared spec asked for more than the floor, and the paths the guest runtime
    opens under the clamped spec lie in the floor's roots or the scratch root
    (unless the floor is the whole host). *)
Lemma clamp_is_meet canonical declared floor : wf_spec declared -> wf_spec floor ->
  exists e widened,
    clamp_to_floor canonical declared floor = Ok (e, widened) /\ wf_spec e /\
    (e ⊑ declared /\ e ⊑ floor /\ forall s, s ⊑ declared -> s ⊑ floor -> s ⊑ e) /\
    (forall field, field ∈ widened <-> widens canonical declared floor field) /\
    forall scratch p, reaches canonical e scratch p ->
      v_filesystem (s_visibility floor) = "host" \/
      v_filesystem (s_visibility floor) <> "none" /\
        (path_within p (canonical scratch) = true \/
         exists r, r ∈ nonempty (v_roots (s_visibility floor)) /\ path_within p (canonical r) = true).
Proof.
  intros Hd Hf. destruct (clamp_to_floor_spec canonical declared floor Hd Hf) as (w & Hc & Hw).
  exists (meet_spec canonical declared floor), w. split_and!; [done|by apply meet_wf|by apply meet_spec_glb..|done|].
  intros scratch p. by apply clamp_reach.
Qed.

(** ** Parsing *)

Lemma all_strings_map l : all_strings (map VStr l) = Some l.
Proof. induction l as [|x l IH]; simpl; [done|]. by rewrite IH. Qed.

Lemma opt_int_vopt d k o : py_get k d = vopt VInt o -> (forall z, o = Some z -> 0 <= z) -> opt_int_field d k = Ok o.
Proof.
  unfold opt_int_field. intros -> Ho. destruct o as [z|]; simpl; [|done].
  rewrite (proj2 (Z.ltb_ge z 0)) by by apply Ho. done.
Qed.

Lemma tuple_strings d k l : py_get k d = VList (map VStr l) -> tuple_field d k = Ok l.
Proof.
  unfold tuple_field, py_or. intros ->. destruct l as [|x l]; [done|].
  change (py_truth (VList (map VStr (x :: l)))) with true. cbv iota. by rewrite all_strings_map.
Qed.

Lemma from_to_dict s : wf_spec s -> from_dict (to_dict s) = Ok s.
Proof.
  intros [Hf He Hn Ha Hr]. rewrite !Forall_cons in Hr. destruct Hr as (R1 & R2 & R3 & R4 & _).
  destruct s as [[fs roots env allow] [net egress sub] [wall mem sysc toks] minr].
  unfold from_dict, to_dict, enum_field, section_of, py_or, py_get. simpl in *. rewrite !decide_True by done.
  rewrite !(tuple_strings _ _ roots), !(tuple_strings _ _ allow) by done.
  rewrite !(opt_int_vopt _ _ wall), !(opt_int_vopt _ _ mem), !(opt_int_vopt _ _ sysc), !(opt_int_vopt _ _ toks) by done.
  by destruct egress.
Qed.

Lemma enum_field_elem d k order dflt x : enum_field d k order dflt = Ok x -> x ∈ order.
Proof. unfold enum_field. destruct (default _ _); try done. by destruct (decide _); [intros [= <-]|]. Qed.

Lemma opt_int_nonneg d k o : opt_int_field d k = Ok o -> forall z, o = Some z -> 0 <= z.
Proof.
  unfold opt_int_field. destruct (py_get k d); try done; [by intros [= <-]|].
  destruct (Z.ltb_spec z 0); [done|]. intros [= <-] z' [= <-]. done.
Qed.

Lemma from_dict_wf raw s : from_dict raw = Ok s -> wf_spec s.
Proof.
  unfold from_dict. destruct raw; try done.
  repeat match goal with |- result_bind ?m _ = _ -> _ => let E := fresh "E" in destruct m eqn:E; [cbn [result_bind]|done] end.
  intros [= <-]. split; simpl; try (by eapply enum_field_elem). rewrite !Forall_cons. simpl.
  split_and!; [by eapply opt_int_nonneg..|constructor].
Qed.

(** A spec written to a dict reads back as itself, and whatever dict is read
    (from a caller, a row or a tool's registration) gives a well-formed spec or an
    error. *)
Lemma spec_roundtrip s raw : wf_spec s ->
  from_dict (to_dict s) = Ok s /\ forall s', from_dict raw = Ok s' -> wf_spec s' /\ from_dict (to_dict s') = Ok s'.
Proof.
  intros Hs. split; [by apply from_to_dict|]. intros s' Hs'%from_dict_wf. split; [done|]. by apply from_to_dict.
Qed.

(** ** The guest *)

Lemma guest_floor_wf memory : (forall m, memory = Some m -> 0 <= m) -> wf_spec (guest_floor memory).
Proof.
  intros Hm. split; destruct memory; simpl; try (apply (bool_decide_unpack _); by vm_compute);
    rewrite !Forall_cons; simpl; split_and!; try done; constructor.
Qed.

Lemma default_wf : wf_spec default_spec.
Proof. split; try (apply (bool_decide_unpack _); by vm_compute); rewrite !Forall_cons; simpl; split_and!; try done; constructor. Qed.

(** What the declared spec of a payload becomes. *)
Lemma guest_effective canonical memory env_spec scratch : (forall m, memory = Some m -> 0 <= m) ->
  guest_environment canonical memory env_spec scratch = nodus_runtime_kwargs (guest_floor memory) scratch \/
  exists d, from_dict env_spec = Ok d /\ wf_spec d /\
    guest_environment canonical memory env_spec scratch = nodus_runtime_kwargs (meet_spec canonical d (guest_floor memory)) scratch.
Proof.
  intros Hm. unfold guest_environment. destruct (py_truth env_spec); [|by left].
  destruct (from_dict env_spec) as [d|] eqn:Hd; cbn [result_bind]; [|by left]. right. exists d.
  pose proof (from_dict_wf _ _ Hd) as Wd. destruct (clamp_to_floor_spec canonical d _ Wd (guest_floor_wf _ Hm)) as (w & -> & _). done.
Qed.

Lemma guest_meet_kwargs canonical memory d scratch : wf_spec d ->
  let k := nodus_runtime_kwargs (meet_spec canonical d (guest_floor memory)) scratch in
  (k_allowed_paths k = Some [] \/ k_allowed_paths k = Some [scratch]) /\
  k_subprocess k = false /\ k_network k = false /\ k_env k = false.
Proof.
  intros [Hf He Hn _ _] k.
  assert (v_filesystem (s_visibility (guest_floor memory)) = "scoped" /\ v_roots (s_visibility (guest_floor memory)) = [] /\
          a_network (s_authority (guest_floor memory)) = "none" /\ v_env (s_visibility (guest_floor memory)) = "none" /\
          a_subprocess (s_authority (guest_floor memory)) = false) as (F1 & F2 & F3 & F4 & F5) by by destruct memory.
  assert (mode_meet NETWORK_ORDER (a_network (s_authority d)) "none" = "none") as M1.
  { unfold NETWORK_ORDER in Hn |- *. set_unfold in Hn. by destruct Hn as [-> | [-> | [-> | []]]]. }
  assert (mode_meet ENV_ORDER (v_env (s_visibility d)) "none" = "none") as M2.
  { unfold ENV_ORDER in He |- *. set_unfold in He. by destruct He as [-> | [-> | [-> | []]]]. }
  unfold k, nodus_runtime_kwargs, meet_spec. cbn -[mode_meet clamp_roots nonempty]. rewrite F1, F3, F4, F5, M1, M2.
  split_and!; [|by destruct (a_subprocess (s_authority d))|done..].
  set (m := mode_meet FILESYSTEM_ORDER (v_filesystem (s_visibility d)) "scoped").
  assert (m <> "host") as Hm.
  { unfold m. unfold FILESYSTEM_ORDER in Hf |- *. set_unfold in Hf. by destruct Hf as [-> | [-> | [-> | [-> | []]]]]. }
  destruct (decide (m = "none")) as [|Hm0]; [by left|]. rewrite decide_False by done. right.
  destruct (nonempty (clamp_roots canonical m (v_roots (s_visibility d)) (guest_floor memory)).1) as [|r rs] eqn:E; [done|].
  exfalso. assert (r ∈ (clamp_roots canonical m (v_roots (s_visibility d)) (guest_floor memory)).1) as Hr.
  { eapply list_elem_of_filter. unfold nonempty in E. rewrite E. left. }
  apply clamp_roots_kept in Hr as (_ & fr & Hfr & _); [|done|done|by rewrite F1]. rewrite F2 in Hfr. by apply not_elem_of_nil in Hfr.
Qed.

(** C28: whatever [env_spec] a payload carries (malformed ones included), the guest
    runtime is given no path or only its scratch directory, no subprocess, no
    network and no environment; and under an operator's memory ceiling it runs
    with a ceiling no higher, unless the spec declares a ceiling of zero bytes. *)
Theorem guest_confined canonical memory env_spec scratch : (forall m, memory = Some m -> 0 <= m) ->
  let k := guest_environment canonical memory env_spec scratch in
  (k_allowed_paths k = Some [] \/ k_allowed_paths k = Some [scratch]) /\
  k_subprocess k = false /\ k_network k = false /\ k_env k = false /\
  forall m, memory = Some m -> 0 < m ->
    (exists m', k_max_memory k = Some m' /\ 0 < m' <= m) \/
    (exists d, from_dict env_spec = Ok d /\ r_memory_bytes (s_resources d) = Some 0).
Proof.
  intros Hm k. destruct (guest_effective canonical memory env_spec scratch Hm) as [E | (d & Hd & Wd & E)]; unfold k; rewrite E.
  - split_and!; [by right; destruct memory|by destruct memory..|]. intros m -> Hpos. left. exists m. simpl.
    rewrite (proj2 (Z.ltb_lt 0 m) Hpos). split; [done|lia].
  - destruct (guest_meet_kwargs canonical memory d scratch Wd) as (H1 & H2 & H3 & H4). split_and!; [done..|].
    intros m -> Hpos. unfold nodus_runtime_kwargs, meet_spec. cbn -[ceiling_meet Z.ltb].
    destruct (r_memory_bytes (s_resources d)) as [z|] eqn:Hz.
    + assert (0 <= z) as Hz0 by (pose proof (wf_resources _ Wd) as R; rewrite !Forall_cons in R; destruct R as (_ & R & _); auto).
      destruct (decide (z = 0)) as [->|]; [right; by exists d|]. left. exists (Z.min z m). unfold ceiling_meet. cbn -[Z.ltb Z.min].
      rewrite (proj2 (Z.ltb_lt 0 (Z.min z m))) by lia. split; [done|lia].
    + left. exists m. unfold ceiling_meet. cbn -[Z.ltb]. rewrite (proj2 (Z.ltb_lt 0 m) Hpos). split; [done|lia].
Qed.

(** ** The worker of a tool *)

(** [touches event args write s]: the audit event reads or writes the path [s]. *)
Inductive touches : string -> list harg -> bool -> string -> Prop :=
| TouchOpen args s : nth 0 args HNone = HStr s ->
    touches "open" args (is_write_open (nth 1 args HNone) (nth 2 args HNone)) s
| TouchRead event args s : event ∈ READ_EVENTS -> nth 0 args HNone = HStr s -> touches event args false s
| TouchWrite event args positions i s : dict_get event WRITE_EVENTS = Some positions -> i ∈ positions ->
    args !! i = Some (HStr s) -> touches event args true s.

(** The three groups of events are disjoint. *)
Lemma events_disjoint : "open" ∉ READ_EVENTS /\ Forall (fun e => e <> "open" /\ e ∉ READ_EVENTS) (dict_keys WRITE_EVENTS).
Proof. split; apply (bool_decide_unpack _); by vm_compute. Qed.

Lemma hook_checks canonical code always d event args write s :
  touches event args write s -> fs_hook canonical code always d event args = true ->
  fs_check canonical code always d (HStr s) write = true.
Proof.
  pose proof events_disjoint as [Hr Hw]. rewrite Forall_forall in Hw.
  intros [args' s' Hs | event' args' s' He Hs | event' args' ps i s' Hp Hi Hs]; unfold fs_hook.
  - rewrite decide_True by done. by rewrite Hs.
  - rewrite decide_False by congruence. rewrite decide_True by done. by rewrite Hs.
  - destruct (Hw event') as [? ?]; [by apply dict_get_is_Some; rewrite Hp|].
    rewrite !decide_False by done. rewrite Hp. intros Hall. rewrite forallb_forall in Hall.
    specialize (Hall i). rewrite Hs in Hall. by apply Hall, list_elem_of_In.
Qed.

Lemma within_map (canonical : string -> string) (p : string) (roots : list string) : within p (map canonical roots) = true <-> exists r, r ∈ roots /\ path_within p (canonical r) = true.
Proof.
  unfold within. rewrite existsb_elem. split.
  - intros (x & (r & -> & Hr)%list_elem_of_fmap & ?). by exists r.
  - intros (r & Hr & ?). exists (canonical r). split; [by apply list_elem_of_fmap_2|done].
Qed.

(** Under the tool floor the filesystem axis and its roots stand as declared. *)
Lemma tool_meet canonical d : wf_spec d ->
  v_filesystem (s_visibility (meet_spec canonical d tool_floor)) = v_filesystem (s_visibility d) /\
  v_roots (s_visibility (meet_spec canonical d tool_floor)) = nonempty (v_roots (s_visibility d)).
Proof.
  intros [Hf _ _ _ _]. split.
  - simpl. unfold FILESYSTEM_ORDER in Hf |- *. set_unfold in Hf. by destruct Hf as [-> | [-> | [-> | [-> | []]]]].
  - cbn [meet_spec s_visibility v_roots]. unfold clamp_roots. destruct (_ || _); [done|]. by rewrite decide_True.
Qed.

Lemma elem_scratch_roots r d : r ∈ scratch_roots d -> fd_scratch d = Some r.
Proof.
  unfold scratch_roots. destruct (fd_scratch d) as [s|]; [|by intros ?%not_elem_of_nil].
  destruct (decide _); [by intros ?%not_elem_of_nil|]. by intros ->%list_elem_of_singleton.
Qed.

(** In a tool's worker, with the decision resolved from the tool's declared spec
    clamped to the tool floor, every path an admitted event writes lies in a
    declared root or the scratch root and the declared mode is scoped; every path
    an admitted event reads lies there too (and the mode is not none), or in the
    interpreter's import roots, or is one of the three devices. *)
Lemma worker_scope_enforced canonical code always declared effective widened scratch d event args write s :
  wf_spec declared -> clamp_to_floor canonical declared tool_floor = Ok (effective, widened) ->
  resolve_filesystem_decision effective scratch = Some d ->
  fs_hook canonical code always d event args = true -> touches event args write s ->
  let scoped := exists r, (r ∈ nonempty (v_roots (s_visibility declared)) \/ scratch = Some r) /\
                          path_within (canonical s) (canonical r) = true in
  let mode := v_filesystem (s_visibility declared) in
  if write then mode = "scoped" /\ scoped
  else mode <> "none" /\ scoped \/ within (canonical s) code = true \/ canonical s ∈ always.
Proof.
  intros Wd Hc Hd Hh Ht scoped mode. destruct (clamp_to_floor_spec canonical declared tool_floor Wd default_wf) as (w & Hc' & _).
  rewrite Hc' in Hc. injection Hc as <- _. destruct (tool_meet canonical declared Wd) as [M1 M2].
  unfold resolve_filesystem_decision in Hd. rewrite M1, M2 in Hd. destruct (decide _) as [Hm|]; [|done]. injection Hd as <-.
  pose proof (hook_checks _ _ _ _ _ _ _ _ Ht Hh) as Hk.
  assert (forall p, within p (map canonical (nonempty (v_roots (s_visibility declared)) ++ scratch_roots (FsDecision mode (nonempty (v_roots (s_visibility declared))) scratch))) = true ->
            exists r, (r ∈ nonempty (v_roots (s_visibility declared)) \/ scratch = Some r) /\ path_within p (canonical r) = true) as Hin.
  { intros p (r & [Hr|Hr%elem_scratch_roots]%elem_of_app & ?)%within_map; exists r; auto. }
  destruct write; simpl in Hk; unfold writable, readable in Hk; simpl in Hk.
  - destruct (decide (v_filesystem (s_visibility declared) <> "scoped")) as [|Hs%dec_stable]; [done|]. split; [done|]. by apply Hin.
  - rewrite !orb_true_iff, bool_decide_eq_true in Hk. destruct Hk as [[Hk|Hk]|Hk]; [left|by right; left|by right; right].
    destruct (decide (v_filesystem (s_visibility declared) = "none")); [done|]. split; [done|]. by apply Hin.
Qed.

(** ** Concrete environments *)

Module ToyEnv.
(** A canonicalisation for a file system without links. *)
Definition canonical (p : string) : string := normal p.
Definition narrow_floor : spec := Spec (Visibility "scoped" ["/srv/a"] "allowlist" ["LANG"]) (Authority "scoped" None true)
                                       (Resources (Some 1000) None None None) "container-grade-sandbox".
Definition declared : spec := Spec (Visibility "host" ["/srv/a/x"; "/etc"] "inherit" ["SECRET_KEY"]) default_authority
                                   (Resources (Some 5000) (Some 7) None None) "insecure-dev".
Definition scoped_tool : spec := Spec (Visibility "scoped" ["/srv/a"] "none" []) default_authority default_resources "insecure-dev".
End ToyEnv.

Ltac wf_toy := split; try (apply (bool_decide_unpack _); by vm_compute); rewrite !Forall_cons; simpl;
  split_and!; try (intros ? [= <-]; lia); try done; constructor.

Lemma declared_wf : wf_spec ToyEnv.declared.
Proof. wf_toy. Qed.
Lemma narrow_floor_wf : wf_spec ToyEnv.narrow_floor.
Proof. wf_toy. Qed.
Lemma scoped_tool_wf : wf_spec ToyEnv.scoped_tool.
Proof. wf_toy. Qed.

Lemma clamp_is_meet_witness :
  exists e widened, clamp_to_floor ToyEnv.canonical ToyEnv.declared ToyEnv.narrow_floor = Ok (e, widened) /\
    v_roots (s_visibility e) = ["/srv/a/x"] /\ e ⊑ ToyEnv.narrow_floor /\
    "visibility.filesystem_roots" ∈ widened /\ "resources.memory_bytes" ∉ widened.
Proof.
  destruct (clamp_is_meet ToyEnv.canonical ToyEnv.declared ToyEnv.narrow_floor declared_wf narrow_floor_wf)
    as (e & w & Hc & _ & (_ & Hle & _) & _). exists e, w. split; [exact Hc|].
  injection Hc as <- <-. split; [vm_compute; reflexivity|]. split; [exact Hle|].
  split; apply (bool_decide_unpack _); vm_compute; exact I.
Defined.

Lemma spec_roundtrip_witness : from_dict (to_dict ToyEnv.declared) = Ok ToyEnv.declared /\
  from_dict (VDict [("visibility", VDict [("env", VStr "none")])]) = Ok (Spec (Visibility "host" [] "none" []) default_authority default_resources "insecure-dev").
Proof.
  split; [|vm_compute; reflexivity].
  exact (proj1 (spec_roundtrip ToyEnv.declared VNone declared_wf)).
Defined.

Lemma guest_confined_witness :
  let k := guest_environment ToyEnv.canonical (Some 1048576) (to_dict ToyEnv.declared) "/tmp/x" in
  k_subprocess k = false /\ exists m, k_max_memory k = Some m /\ 0 < m <= 1048576.
Proof.
  destruct (guest_confined ToyEnv.canonical (Some 1048576) (to_dict ToyEnv.declared) "/tmp/x") as (_ & H & _ & _ & Hm).
  - intros m [= <-]. lia.
  - split; [exact H|]. destruct (Hm 1048576 eq_refl) as [Hk | (d & Hd & Hz)]; [lia|exact Hk|].
    exfalso. vm_compute in Hd. injection Hd as <-. discriminate Hz.
Defined.

Lemma worker_scope_witness :
  fs_hook ToyEnv.canonical ["/usr/lib"] [] (FsDecision "scoped" ["/srv/a"] (Some "/tmp/s")) "open" [HStr "/srv/a/f"; HStr "w"; HNone] = true /\
  v_filesystem (s_visibility ToyEnv.scoped_tool) = "scoped" /\
  fs_hook ToyEnv.canonical ["/usr/lib"] [] (FsDecision "scoped" ["/srv/a"] (Some "/tmp/s")) "os.rename" [HStr "/srv/a/f"; HStr "/etc/f"] = false.
Proof.
  assert (fs_hook ToyEnv.canonical ["/usr/lib"] [] (FsDecision "scoped" ["/srv/a"] (Some "/tmp/s")) "open" [HStr "/srv/a/f"; HStr "w"; HNone] = true) as H
    by (vm_compute; reflexivity).
  split; [exact H|]. split; [|vm_compute; reflexivity].
  pose proof (worker_scope_enforced ToyEnv.canonical ["/usr/lib"] [] ToyEnv.scoped_tool
    (meet_spec ToyEnv.canonical ToyEnv.scoped_tool tool_floor) [] (Some "/tmp/s") (FsDecision "scoped" ["/srv/a"] (Some "/tmp/s"))
    "open" [HStr "/srv/a/f"; HStr "w"; HNone] true "/srv/a/f" scoped_tool_wf eq_refl eq_refl H (TouchOpen [HStr "/srv/a/f"; HStr "w"; HNone] "/srv/a/f" eq_refl)) as Hw.
  exact (proj1 Hw).
Defined.

(** A declared ceiling of zero bytes removes the operator's ceiling. *)
Example zero_memory_is_unbounded :
  k_max_memory (guest_environment ToyEnv.canonical (Some 1048576) VNone "/tmp/x") = Some 1048576 /\
  k_max_memory (guest_environment ToyEnv.canonical (Some 1048576)
    (VDict [("resources", VDict [("memory_bytes", VInt 0)])]) "/tmp/x") = None.
Proof. vm_compute. done. Qed.

(** The clamp passes the declared variables through, also under a floor that
    names the allowed ones, and [env = none] still hands them to the worker. *)
Example env_allow_not_clamped :
  match clamp_to_floor ToyEnv.canonical ToyEnv.declared ToyEnv.narrow_floor with
  | Ok (e, widened) => v_env (s_visibility e) = "allowlist" /\ v_env_allow (s_visibility e) = ["SECRET_KEY"] /\ "visibility.env_allow" ∉ widened
  | Err _ => False
  end.
Proof. split_and!; [done..|]. apply (bool_decide_unpack _); by vm_compute. Qed.

Example env_none_passes_variables :
  wk_env (subprocess_confinement [("PATH", "/bin"); ("SECRET_KEY", "s"); ("HOME", "/h")]
            (Spec (Visibility "host" [] "none" ["SECRET_KEY"]) default_authority default_resources "insecure-dev") "/tmp/x" (120 # 1))
  = Some [("PATH", "/bin"); ("SECRET_KEY", "s")].
Proof. reflexivity. Qed.

(** An event without a path, such as a listing of the current directory, passes in
    every mode; changing the directory raises no event the hook looks at. *)
Example listing_without_path_passes :
  fs_hook ToyEnv.canonical [] [] (FsDecision "none" [] None) "os.listdir" [HNone] = true /\
  fs_hook ToyEnv.canonical [] [] (FsDecision "none" [] None) "os.chdir" [HStr "/etc"] = true /\
  fs_hook ToyEnv.canonical [] [] (FsDecision "none" [] None) "os.listdir" [HStr "/etc"] = false.
Proof. vm_compute. done. Qed.

(** A memory setting that is not a number makes every guest execution fail instead
    of being ignored as an invalid one is. *)
Example nan_memory_floor_raises :
  guest_memory_floor_bytes (fun _ => Some NaN) "nan" = Err ValueError /\ guest_memory_floor_bytes (fun _ => None) "x" = Ok None.
Proof. done. Qed.
