(* ===== verification/Egress.v ===== *)
(** * Capability policies and the egress guard (src/AINDY/agents/capability_policy.py, platform_layer/egress_guard.py)

    A capability may bound the recipients and the hosts its calls name and the
    rate of its calls. The policies and how they are loaded, the scan of a call's
    arguments for addresses and URLs with the two regular expressions, the
    allow lists, rates over the resource manager's window; and the socket guard:
    the decision it enforces and its checks of name resolutions and connections.

    Strings are bytes, so the case folding and the character classes of the
    regular expressions are those of ASCII. [ip_address], which tells an IP literal
    from a name, and the validity of a bracketed host are arguments; so is what the
    operating system resolves a name to. *)

From S2P Require Import Prelude PyStr PyVal ResourceManager.
From Stdlib Require Import Ascii.
Local Open Scope string_scope.
Local Open Scope Z_scope.
Local Open Scope list_scope.

(** ** Policies *)

Record policy := Policy { p_recipients : option (list string); p_domains : option (list string); p_rate : option string }.
(** [CAPABILITY_POLICIES] *)
Definition policies : Type := list (string * policy).

Definition register_capability_policy (capability : string) (p : policy) (ps : policies) : policies := dict_set capability p ps.
Definition get_capability_policy (capability : string) (ps : policies) : option policy := dict_get capability ps.
Definition has_capability_policies (ps : policies) : bool := match ps with [] => false | _ => true end.

Definition str_list (render : pyval -> string) (v : pyval) : option (list string) :=
  match v with VList l => Some (map (py_str render) l) | _ => None end.

Definition policy_of_spec (render : pyval -> string) (spec : list (string * pyval)) : policy :=
  Policy (str_list render (py_get "recipients" spec)) (str_list render (py_get "domains" spec))
         (match py_get "rate" spec with VStr s => Some s | _ => None end).

(** [load_capability_policies_from_env] on the parsed setting; [None] is text that
    is not JSON. An unset variable is the empty object. *)
Definition load_capability_policies (render : pyval -> string) (data : option pyval) (ps : policies) : policies * Z :=
  match data with
  | Some (VDict d) =>
      foldl (fun acc cs => match cs.2 with
                           | VDict spec => (register_capability_policy cs.1 (policy_of_spec render spec) acc.1, acc.2 + 1)
                           | _ => acc
                           end) (ps, 0) d
  | _ => (ps, 0)
  end.

(** ** The targets of a call *)

(** [_iter_strings]: keys are not scanned. *)
Fixpoint iter_strings (v : pyval) : list string :=
  match v with
  | VStr s => [s]
  | VDict d => flat_map (fun kv => iter_strings kv.2) d
  | VList l => flat_map iter_strings l
  | _ => []
  end.

Fixpoint span (p : ascii -> bool) (l : list ascii) : list ascii * list ascii :=
  match l with
  | [] => ([], [])
  | c :: l' => if p c then let '(a, b) := span p l' in (c :: a, b) else ([], l)
  end.

Definition in_range (lo hi : nat) (c : ascii) : bool := (lo <=? nat_of_ascii c)%nat && (nat_of_ascii c <=? hi)%nat.
Definition is_alpha (c : ascii) : bool := in_range 65 90 c || in_range 97 122 c.
Definition is_alnum (c : ascii) : bool := is_alpha c || in_range 48 57 c.
Definition is_domain_char (c : ascii) : bool := is_alnum c || bool_decide (c ∈ ["."; "-"]%char).
Definition is_local_char (c : ascii) : bool := is_alnum c || bool_decide (c ∈ ["."; "_"; "%"; "+"; "-"]%char).

(** The longest [[A-Za-z0-9.\-]+\.[A-Za-z]{2,}] of a run of domain characters: how
    many of its characters match, trying the dots from the right. *)
Fixpoint top_level (k : nat) (dom : list ascii) : option nat :=
  match k with
  | O => None
  | S k' =>
      let run := length (span is_alpha (drop (S k) dom)).1 in
      if bool_decide (dom !! k = Some "."%char) && (2 <=? run)%nat then Some (S k + run)%nat else top_level k' dom
  end.

(** [_EMAIL_RE] at the head of the text: the match and the text after it. *)
Definition email_at (l : list ascii) : option (list ascii * list ascii) :=
  match span is_local_char l with
  | (c :: loc, "@"%char :: r) =>
      let dom := (span is_domain_char r).1 in
      match top_level (length dom) dom with
      | Some n => Some ((c :: loc) ++ "@"%char :: take n r, drop n r)
      | None => None
      end
  | _ => None
  end.

Definition is_url_char (c : ascii) : bool :=
  negb (is_space c) && negb (bool_decide (nat_of_ascii c ∈ [34; 39; 60; 62])%nat).

(** [_URL_RE] at the head of the text, letters of the scheme in either case. *)
Definition strip_prefix (p : string) (l : list ascii) : option (list ascii) :=
  let n := String.length p in
  if decide (map lower_ascii (take n l) = String.list_ascii_of_string p) then Some (drop n l) else None.

Definition url_at (l : list ascii) : option (list ascii * list ascii) :=
  match (match strip_prefix "https://" l with Some r => Some r | None => strip_prefix "http://" l end) with
  | Some r =>
      match span is_url_char r with
      | ([], _) => None
      | (u, rest) => Some (take (length l - length r) l ++ u, rest)
      end
  | None => None
  end.

(** [findall]: the matches from left to right, each search starting after the
    previous match. *)
Fixpoint findall_from (at_ : list ascii -> option (list ascii * list ascii)) (fuel : nat) (l : list ascii) : list string :=
  match fuel with
  | O => []
  | S fuel =>
      match l with
      | [] => []
      | _ :: l' => match at_ l with
                   | Some (m, rest) => String.string_of_list_ascii m :: findall_from at_ fuel rest
                   | None => findall_from at_ fuel l'
                   end
      end
  end.

Definition findall (at_ : list ascii -> option (list ascii * list ascii)) (s : string) : list string :=
  findall_from at_ (String.length s) (String.list_ascii_of_string s).

Definition extract_recipients (args : pyval) : list string :=
  remove_dups (map str_lower (flat_map (findall email_at) (iter_strings args))).

(** [s.partition(c)]: before and after the first [c]. *)
Definition before_char (c : ascii) (s : string) : string := match find_char c s with Some i => take_str i s | None => s end.
Definition after_char (c : ascii) (s : string) : string := match find_char c s with Some i => drop_str (S i) s | None => "" end.
(** [s.rpartition(c)[2]] *)
Definition after_last (c : ascii) (s : string) : string := List.last (split_char c s) "".

Section Hosts.
(** Whether the text between brackets is an IPv6 or future address. *)
Context (bracketed_ok : string -> bool).

(** [urlparse(url).hostname] of a URL the expression matched, with [or ""]; [None] is
    the ValueError of a malformed bracketed host. *)
Definition url_hostname (url : string) : option string :=
  let rest := drop_str 2 (after_char ":"%char url) in
  let netloc := before_char "#"%char (before_char "?"%char (before_char "/"%char rest)) in
  let opens := str_in "[" netloc in
  let closes := str_in "]" netloc in
  let hostinfo := after_last "@"%char netloc in
  if negb (Bool.eqb opens closes) then None
  else if opens && negb (bracketed_ok (before_char "]"%char (after_char "["%char netloc))) then None
  else
    let host := if str_in "[" hostinfo then before_char "]"%char (after_char "["%char hostinfo)
                else before_char ":"%char hostinfo in
    Some (str_lower host).

Fixpoint collect {A} (l : list (option A)) : option (list A) :=
  match l with
  | [] => Some []
  | Some x :: l => option_map (cons x) (collect l)
  | None :: _ => None
  end.

Definition extract_domains (args : pyval) : option (list string) :=
  option_map (fun hosts => remove_dups (base.filter (fun h => h <> "") hosts))
    (collect (map url_hostname (flat_map (findall url_at) (iter_strings args)))).
End Hosts.

(** ** Allow lists *)

Definition recipient_allowed (recipient : string) (allowlist : list string) : bool :=
  let recipient := str_lower recipient in
  existsb (fun e =>
    let entry := str_lower e in
    let domain := if starts_with "@" entry then drop_str 1 entry else entry in
    bool_decide (entry = recipient)
    || negb (str_in "@" entry) && ends_with ("@" +:+ domain) recipient
    || starts_with "@" entry && ends_with entry recipient) allowlist.

Definition is_dot (c : ascii) : bool := bool_decide (c = "."%char).

Definition domain_allowed (domain : string) (allowlist : list string) : bool :=
  let domain := str_lower domain in
  existsb (fun e =>
    let entry := lstrip is_dot (str_lower e) in
    bool_decide (domain = entry) || ends_with ("." +:+ entry) domain) allowlist.

Inductive kind := Recipient | Domain.
Record violation := Violation { vi_capability : string; vi_kind : kind; vi_value : string }.

Definition bounded (p : policy) : bool :=
  match p_recipients p, p_domains p with None, None => false | _, _ => true end.

Definition policy_violations (recipients domains : list string) (cp : string * policy) : list violation :=
  match p_recipients cp.2 with
  | Some allow => map (Violation cp.1 Recipient) (base.filter (fun r => recipient_allowed r allow = false) recipients)
  | None => []
  end
  ++ match p_domains cp.2 with
     | Some allow => map (Violation cp.1 Domain) (base.filter (fun d => domain_allowed d allow = false) domains)
     | None => []
     end.

(** [enforce_capability_policy]: the violations, none being permission; the outer
    [None] is the exception of a malformed URL. *)
Definition enforce_capability_policy (bracketed_ok : string -> bool) (ps : policies) (capabilities : list string) (args : pyval) :
    option (list violation) :=
  let bound := base.filter (fun cp => bounded cp.2 = true)
                 (omap (fun c => (fun p => (c, p)) <$> get_capability_policy c ps) capabilities) in
  match bound with
  | [] => Some []
  | _ => match extract_domains bracketed_ok args with
         | None => None
         | Some domains => Some (flat_map (policy_violations (extract_recipients args) domains) bound)
         end
  end.

(** ** Rates *)

Definition RATE_PERIODS : list (string * Z) :=
  [("s", 1); ("sec", 1); ("second", 1); ("seconds", 1);
   ("m", 60); ("min", 60); ("minute", 60); ("minutes", 60);
   ("h", 3600); ("hr", 3600); ("hour", 3600); ("hours", 3600);
   ("d", 86400); ("day", 86400); ("days", 86400)].

Definition parse_rate (rate : string) : option (Z * Z) :=
  if str_in "/" rate then
    match dict_get (str_lower (str_strip (after_char "/"%char rate))) RATE_PERIODS, int_of_string (before_char "/"%char rate) with
    | Some window, Some limit => if limit <=? 0 then None else Some (limit, window)
    | _, _ => None
    end
  else None.

Record rate_violation := RateViolation { rv_capability : string; rv_limit : Z; rv_window : Z; rv_count : Z }.

Definition rated (ps : policies) (capabilities : list string) : list (string * (Z * Z)) :=
  omap (fun c => match get_capability_policy c ps with
                 | Some p => match p_rate p with
                             | Some r => if decide (r = "") then None else (fun lw => (c, lw)) <$> parse_rate r
                             | None => None
                             end
                 | None => None
                 end) capabilities.

(** [enforce_capability_rate]: every rated capability records a hit, whatever the
    others answered. *)
Definition enforce_capability_rate (ps : policies) (capabilities : list string) (scope : string) (now : Z)
    (w : list (string * (Z * Z))) : list (string * (Z * Z)) * list rate_violation :=
  foldl (fun acc c =>
    let '(cap, (limit, window)) := c in
    let '(w, (count, exceeded)) := rate_limit_hit ("cap:" +:+ cap +:+ ":" +:+ scope) limit window now acc.1 in
    (w, if exceeded then acc.2 ++ [RateViolation cap limit window count] else acc.2)) (w, []) (rated ps capabilities).

(** ** The egress decision *)

Record decision := Decision { d_mode : string; d_domains : list string }.

Definition normal_domains (l : list string) : list string := sorted_set (map str_lower (base.filter (fun d => d <> "") l)).

Definition enforces (d : decision) : bool := negb (bool_decide (d_mode d = "open")).

Definition resolve_egress_decision (network_mode : string) (policy_domains : list string) : decision :=
  let mode := if decide (network_mode = "") then "open" else network_mode in
  let domains := normal_domains policy_domains in
  if decide (mode = "none") then Decision "none" []
  else match domains with
       | [] => if decide (mode = "scoped") then Decision "scoped" [] else Decision "open" []
       | _ => Decision "scoped" domains
       end.

Definition decision_to_payload (d : decision) : pyval := VDict [("mode", VStr (d_mode d)); ("domains", VList (map VStr (d_domains d)))].

(** [EgressDecision.from_payload]; a [domains] that cannot be iterated counts as unreadable. *)
Definition decision_from_payload (render : pyval -> string) (raw : pyval) : option decision :=
  match raw with
  | VDict d =>
      let mode := py_str render (py_or (py_get "mode" d) (VStr "open")) in
      if decide (mode ∈ ["none"; "scoped"; "open"])
      then match py_list (py_or (py_get "domains" d) (VList [])) with
           | Some l => Some (Decision mode (sorted_set (map str_lower (map (py_str render) (base.filter (fun v => py_truth v = true) l)))))
           | None => None
           end
      else None
  | _ => None
  end.

(** The allow list a decision installs: [None] leaves the guard inert, the empty
    list denies everything. *)
Definition decision_allowlist (d : decision) : option (list string) :=
  if enforces d then Some (if bool_decide (d_mode d = "none") then [] else d_domains d) else None.

(** ** The socket guard *)

(** An active scope: its allow list and the addresses resolved in it. *)
Record scope := Scope { sc_allow : list string; sc_resolved : list string }.
(** The scope of the context and that of the process. *)
Record guard := Guard { g_context : option scope; g_process : option scope }.

Definition active (g : guard) : option scope := match g_context g with Some s => Some s | None => g_process g end.

(** Entering [egress_decision_scope] around a call in this process; leaving it puts
    the previous scope back. An inert decision leaves the context as it is. *)
Definition enter_scope (d : decision) (g : guard) : guard :=
  match decision_allowlist d with
  | Some allow => Guard (Some (Scope (map str_lower allow) [])) (g_process g)
  | None => g
  end.

(** [install_process_egress] *)
Definition install_process_egress (d : decision) (g : guard) : guard * string :=
  match decision_allowlist d with
  | Some allow => (Guard (g_context g) (Some (Scope allow [])), "socket_guard:worker")
  | None => (g, "none")
  end.

Definition set_active (s : scope) (g : guard) : guard :=
  match g_context g with Some _ => Guard (Some s) (g_process g) | None => Guard None (Some s) end.

Inductive net_answer := Denied | Failed | Resolved (ips : list string) | Connected.

(** [_guarded_getaddrinfo]; [answer] is what the resolver gives, [None] an error. *)
Definition guarded_getaddrinfo (host : string) (answer : option (list string)) (g : guard) : guard * net_answer :=
  match active g with
  | Some s =>
      if bool_decide (host <> "") && negb (domain_allowed (str_lower host) (sc_allow s)) then (g, Denied)
      else match answer with
           | Some ips => (set_active (Scope (sc_allow s) (sc_resolved s ++ base.filter (fun ip => ip <> "") ips)) g, Resolved ips)
           | None => (g, Failed)
           end
  | None => match answer with Some ips => (g, Resolved ips) | None => (g, Failed) end
  end.

Section Sockets.
(** [ipaddress.ip_address(host)] does not raise. *)
Context (is_ip : string -> bool).

(** [_check_connect_allowed]; [inet] tells an internet socket. *)
Definition check_connect_allowed (inet : bool) (host : string) (g : guard) : bool :=
  match active g with
  | None => true
  | Some s =>
      if negb inet || bool_decide (host = "") then true
      else if is_ip host then bool_decide (host ∈ sc_resolved s) else true
  end.

(** What the code under a scope does with sockets. *)
Inductive net_op := GetAddrInfo (host : string) (answer : option (list string)) | Connect (inet : bool) (host : string).

Definition net_step (g : guard) (o : net_op) : guard * net_answer :=
  match o with
  | GetAddrInfo host answer => guarded_getaddrinfo host answer g
  | Connect inet host => (g, if check_connect_allowed inet host g then Connected else Denied)
  end.

Fixpoint net_run (g : guard) (ops : list net_op) : list (net_op * net_answer) :=
  match ops with
  | [] => []
  | o :: ops => let '(g, a) := net_step g o in (o, a) :: net_run g ops
  end.
End Sockets.

(** ** Host names by their labels *)

Lemma str_lower_idemp s : str_lower (str_lower s) = str_lower s.
Proof.
  induction s as [|c s IH]; simpl; [done|]. rewrite IH. f_equal. by destruct c as [[] [] [] [] [] [] [] []].
Qed.

Definition labels (host : string) : list string := split_char "."%char host.

Lemma ends_with_spec p s : ends_with p s = true <-> exists t, s = t +:+ p.
Proof.
  unfold ends_with. rewrite andb_true_iff, Nat.leb_le, bool_decide_eq_true. split.
  - intros [Hl Hd]. exists (take_str (String.length s - String.length p) s). revert Hl Hd.
    generalize (String.length p) as n. intros n Hl <-. revert n Hl.
    induction s as [|c s IH]; intros n Hl; simpl; [done|].
    destruct (S (String.length s) - n)%nat as [|m] eqn:E; simpl; [done|]. rewrite app_str_cons. f_equal.
    assert (String.length s - n = m)%nat as <- by lia. apply IH. lia.
  - intros [t ->]. rewrite length_app_str. split; [lia|].
    replace (String.length t + String.length p - String.length p)%nat with (String.length t) by lia. apply drop_str_app.
Qed.

Lemma split_cons_app c (s t : string) : split_char c (s +:+ String c t) = split_char c s ++ split_char c t.
Proof.
  induction s as [|a s IH]; simpl.
  - by destruct (ascii_dec c c).
  - destruct (ascii_dec a c); [by rewrite IH|].
    rewrite IH. pose proof (split_char_nonempty c s). by destruct (split_char c s).
Qed.

Lemma join_app c x k l : l <> [] -> join_char c ((x :: k) ++ l) = join_char c (x :: k) +:+ String c (join_char c l).
Proof.
  intros Hl. revert x. induction k as [|y k IH]; intros x; [by destruct l|].
  transitivity (x +:+ String c (join_char c ((y :: k) ++ l))); [done|]. rewrite IH.
  transitivity ((x +:+ String c (join_char c (y :: k))) +:+ String c (join_char c l)); [|done].
  by rewrite app_str_assoc.
Qed.

Lemma labels_suffix entry host :
  host = entry \/ ends_with ("." +:+ entry) host = true <-> labels entry `suffix_of` labels host.
Proof.
  rewrite ends_with_spec. split.
  - intros [->|[t ->]]; [done|]. exists (labels t). apply split_cons_app.
  - intros [k Hk]. unfold labels in Hk. destruct k as [|x k].
    + left. rewrite <- (join_split "."%char host), <- (join_split "."%char entry). by f_equal.
    + right. exists (join_char "."%char (x :: k)). rewrite <- (join_split "."%char host), Hk.
      rewrite <- (join_split "."%char entry) at 2. apply join_app, split_char_nonempty.
Qed.

(** An allow list admits a host exactly when one of its entries, without leading
    dots, is the host or a parent domain of it. *)
Lemma domain_allowed_spec host allow : domain_allowed host allow = true <->
  exists e, e ∈ allow /\ labels (lstrip is_dot (str_lower e)) `suffix_of` labels (str_lower host).
Proof.
  unfold domain_allowed. rewrite existsb_exists. setoid_rewrite <- list_elem_of_In.
  setoid_rewrite orb_true_iff. setoid_rewrite bool_decide_eq_true. setoid_rewrite labels_suffix. done.
Qed.

(** A recipient list admits an address it names, and every address at a domain it
    names with or without a leading at sign. *)
Lemma recipient_allowed_spec r allow : recipient_allowed r allow = true <->
  exists e, e ∈ allow /\ (str_lower e = str_lower r \/
    exists user domain, str_lower r = user +:+ "@" +:+ domain /\
      (str_lower e = "@" +:+ domain \/ str_lower e = domain /\ str_in "@" domain = false)).
Proof.
  unfold recipient_allowed. rewrite existsb_exists. setoid_rewrite <- list_elem_of_In.
  apply exist_proper. intros e. apply and_iff_compat_l. generalize (str_lower e), (str_lower r). clear. intros e r.
  rewrite !orb_true_iff, !andb_true_iff, bool_decide_eq_true, negb_true_iff, !ends_with_spec. split.
  - intros [[->|[He [t ->]]]|[(d & ->)%starts_with_spec [t ->]]]; [by left|right..].
    + destruct (starts_with "@" e) eqn:E; [apply starts_with_spec in E as [d ->]; done|].
      exists t, e. split; [done|]. by right.
    + exists t, d. split; [done|]. by left.
  - intros [->|(u & d & -> & [->|[-> He]])]; [by left; left|..].
    + right. split; [done|]. by exists u.
    + left. right. split; [done|]. exists u. destruct (starts_with "@" d) eqn:E; [|done].
      apply starts_with_spec in E as [x ->]. done.
Qed.

(** ** The scan finds the targets *)

Notation chars := String.list_ascii_of_string.

Lemma chars_app s t : chars (s +:+ t) = chars s ++ chars t.
Proof. induction s as [|a s IH]; simpl; [done|]. f_equal. exact IH. Qed.

Lemma length_chars s : length (chars s) = String.length s.
Proof. induction s as [|a s IH]; simpl; [done|]. by f_equal. Qed.

Lemma span_app p a b : Forall (fun c => p c = true) a -> match b with c :: _ => p c = false | [] => True end -> span p (a ++ b) = (a, b).
Proof.
  intros Ha Hb. induction Ha as [|c a Hc Ha IH]; simpl; [|by rewrite Hc, IH].
  destruct b as [|c b]; simpl; [done|]. by rewrite Hb.
Qed.

Lemma span_all p a : Forall (fun c => p c = true) a -> span p a = (a, []).
Proof. intros Ha. rewrite <- (app_nil_r a) at 1. by apply span_app. Qed.

(** A text that is one address. *)
Definition is_address (s : string) : Prop := exists loc d tld,
  chars s = loc ++ "@"%char :: d ++ "."%char :: tld /\ loc <> [] /\ d <> [] /\ (2 <= length tld)%nat /\
  Forall (fun c => is_local_char c = true) loc /\ Forall (fun c => is_domain_char c = true) d /\ Forall (fun c => is_alpha c = true) tld.

Lemma alpha_domain c : is_alpha c = true -> is_domain_char c = true.
Proof. unfold is_domain_char, is_alnum. by intros ->. Qed.

Lemma top_level_found d tld k : d <> [] -> (2 <= length tld)%nat -> Forall (fun c => is_alpha c = true) tld -> (length d <= k)%nat ->
  top_level k (d ++ "."%char :: tld) = Some (length (d ++ "."%char :: tld)).
Proof.
  intros Hd Ht Ha. induction k as [|k IH]; intros Hk; [destruct d; simpl in *; [done|lia]|]. cbn [top_level].
  destruct (decide (S k = length d)) as [E|E].
  - rewrite E. rewrite bool_decide_eq_true_2 by (rewrite lookup_app_r, Nat.sub_diag by lia; done). rewrite andb_true_l.
    replace (S (length d)) with (length (d ++ ["."%char])) by (rewrite length_app; simpl; lia).
    replace (d ++ "."%char :: tld) with ((d ++ ["."%char]) ++ tld) by by rewrite <- app_assoc.
    rewrite drop_app_length, span_all by done. cbn [fst]. rewrite (proj2 (Nat.leb_le 2 _)) by done. f_equal. by rewrite (length_app _ tld).
  - rewrite bool_decide_eq_false_2; [simpl; apply IH; lia|].
    rewrite lookup_app_r by lia. destruct (S k - length d)%nat as [|j] eqn:Ej; [lia|]. simpl. intros Hj.
    apply list_elem_of_lookup_2 in Hj. rewrite Forall_forall in Ha. by apply Ha in Hj.
Qed.

Lemma email_found s : is_address s -> email_at (chars s) = Some (chars s, []).
Proof.
  intros (loc & d & tld & -> & Hl & Hd & Ht & Fl & Fd & Ft). unfold email_at. rewrite span_app by done.
  destruct loc as [|c loc]; [done|].
  assert (Forall (fun c => is_domain_char c = true) (d ++ "."%char :: tld)) as Hall.
  { apply Forall_app. split; [done|]. constructor; [done|]. eapply Forall_impl; [exact Ft|]. apply alpha_domain. }
  rewrite (span_all _ _ Hall). cbv zeta. simpl fst. rewrite top_level_found by (done || rewrite length_app; lia).
  by rewrite firstn_all, drop_all.
Qed.

Lemma findall_whole at_ s : s <> "" -> at_ (chars s) = Some (chars s, []) -> findall at_ s = [s].
Proof.
  intros Hs Hat. unfold findall. destruct s as [|c s]; [done|]. cbn [String.length findall_from chars] in *. rewrite Hat.
  assert (findall_from at_ (String.length s) [] = []) as -> by by destruct (String.length s).
  by rewrite <- (String.string_of_list_ascii_of_string (String c s)).
Qed.

Lemma address_extracted args s : s ∈ iter_strings args -> is_address s -> str_lower s ∈ extract_recipients args.
Proof.
  intros Hs Ha. unfold extract_recipients. apply elem_of_remove_dups, list_elem_of_fmap_2, list_elem_of_In, in_flat_map.
  exists s. split; [by apply list_elem_of_In|]. rewrite findall_whole; [by left| |by apply email_found].
  intros ->. destruct Ha as ([|] & ? & ? & Hc & ?); simpl in Hc; discriminate.
Qed.

(** A text that is one URL of a plain host, its path, query or fragment after it. *)
Definition is_url (s host : string) : Prop := exists scheme tail,
  s = scheme +:+ host +:+ tail /\ scheme ∈ ["http://"; "https://"] /\ host <> "" /\
  Forall (fun c => is_domain_char c = true) (chars host) /\ Forall (fun c => is_url_char c = true) (chars tail) /\
  match tail with String c _ => c ∈ ["/"; "?"; "#"]%char | EmptyString => True end.

Lemma domain_url_char c : is_domain_char c = true -> is_url_char c = true.
Proof. destruct c as [[] [] [] [] [] [] [] []]; vm_compute; congruence. Qed.

Lemma url_found s host : is_url s host -> url_at (chars s) = Some (chars s, []).
Proof.
  intros (scheme & tail & -> & Hs & Hh & Fh & Ft & _). rewrite !chars_app.
  assert (Forall (fun c => is_url_char c = true) (chars host ++ chars tail)) as Hall.
  { apply Forall_app. split; [|done]. eapply Forall_impl; [exact Fh|]. apply domain_url_char. }
  assert (chars host ++ chars tail <> []) as Hne by (destruct host; done).
  revert Hall Hne. generalize (chars host ++ chars tail). intros l Hall Hne. unfold url_at.
  set_unfold in Hs. destruct Hs as [-> | [-> | []]].
  - assert (strip_prefix "https://" (chars "http://" ++ l) = None) as ->.
    { unfold strip_prefix. rewrite decide_False; [done|]. simpl. intros [=]. }
    unfold strip_prefix. rewrite decide_True by done. change (drop (String.length "http://") (chars "http://" ++ l)) with l. rewrite (span_all _ _ Hall).
    replace (length (chars "http://" ++ l) - length l)%nat with 7%nat by (rewrite length_app; simpl; lia). by destruct l.
  - unfold strip_prefix. rewrite decide_True by done. change (drop (String.length "https://") (chars "https://" ++ l)) with l. rewrite (span_all _ _ Hall).
    replace (length (chars "https://" ++ l) - length l)%nat with 8%nat by (rewrite length_app; simpl; lia). by destruct l.
Qed.

Lemma before_no_char c s : no_char c s = true -> before_char c s = s.
Proof. intros H%find_char_None. unfold before_char. by rewrite H. Qed.

Lemma before_char_eq c a t : no_char c a = true -> before_char c (a +:+ String c t) = a.
Proof. intros H. unfold before_char. rewrite find_char_app by done. apply take_str_app. Qed.

(** Cutting at another character keeps the first one. *)
Lemma before_char_ne c c' a t : c <> c' -> no_char c a = true ->
  exists t', before_char c (a +:+ String c' t) = a +:+ String c' t'.
Proof.
  intros Hc Ha. destruct (no_char c t) eqn:E.
  - exists t. apply before_no_char. revert Ha. clear -Hc E. induction a as [|x a IH]; simpl.
    + by destruct (ascii_dec c' c); [congruence|].
    + by destruct (ascii_dec x c).
  - destruct (find_char c t) as [i|] eqn:Ei; [|apply find_char_None in Ei; congruence].
    apply find_char_Some in Ei as [Et Hu]. revert Et Hu. generalize (take_str i t) as u, (drop_str (S i) t) as v. intros u v -> Hu. exists u.
    replace (a +:+ String c' (u +:+ String c v)) with ((a +:+ String c' u) +:+ String c v) by by rewrite app_str_assoc.
    apply before_char_eq. revert Ha. clear -Hc Hu. induction a as [|x a IH]; simpl.
    + by destruct (ascii_dec c' c); [congruence|].
    + by destruct (ascii_dec x c).
Qed.

Lemma domain_no_char c s : is_domain_char c = false -> Forall (fun c => is_domain_char c = true) (chars s) -> no_char c s = true.
Proof.
  intros Hc. induction s as [|a s IH]; simpl; [done|]. intros [Ha Hs]%Forall_cons.
  destruct (ascii_dec a c); [congruence|auto].
Qed.

Lemma str_in_no_char c s : no_char c s = true -> str_in (String c "") s = false.
Proof.
  induction s as [|a s IH]; simpl; [done|]. destruct (ascii_dec a c); [done|]. intros H. rewrite IH by done.
  destruct (ascii_dec c a); [congruence|done].
Qed.

Lemma cut_tail host tail : Forall (fun c => is_domain_char c = true) (chars host) ->
  match tail with String c _ => c ∈ ["/"; "?"; "#"]%char | EmptyString => True end ->
  before_char "#"%char (before_char "?"%char (before_char "/"%char (host +:+ tail))) = host.
Proof.
  intros Hh Ht.
  assert (no_char "/"%char host = true /\ no_char "?"%char host = true /\ no_char "#"%char host = true) as (N1 & N2 & N3)
    by (split_and!; by apply domain_no_char).
  destruct tail as [|c t].
  - rewrite app_str_nil_r, (before_no_char "/"%char host), (before_no_char "?"%char host) by done. by apply before_no_char.
  - set_unfold in Ht. destruct Ht as [-> | [-> | [-> | []]]].
    + rewrite before_char_eq by done. rewrite (before_no_char "?"%char host) by done. by apply before_no_char.
    + destruct (before_char_ne "/"%char "?"%char host t) as [t' ->]; [done..|].
      rewrite before_char_eq by done. by apply before_no_char.
    + destruct (before_char_ne "/"%char "#"%char host t) as [t' ->]; [done..|].
      destruct (before_char_ne "?"%char "#"%char host t') as [t'' ->]; [done..|]. by apply before_char_eq.
Qed.

Lemma url_hostname_found ok s host : is_url s host -> url_hostname ok s = Some (str_lower host).
Proof.
  intros (scheme & tail & -> & Hs & Hh & Fh & _ & Ht). unfold url_hostname.
  assert (drop_str 2 (after_char ":"%char (scheme +:+ host +:+ tail)) = host +:+ tail) as ->.
  { set_unfold in Hs. by destruct Hs as [-> | [-> | []]]. }
  rewrite (cut_tail host tail Fh Ht).
  assert (forall c, is_domain_char c = false -> str_in (String c "") host = false) as Hin.
  { intros c Hc. apply str_in_no_char, domain_no_char; done. }
  rewrite !Hin by done. cbn [Bool.eqb negb andb]. unfold after_last. rewrite split_no_char by (by apply domain_no_char). cbn [List.last].
  rewrite Hin by done. rewrite before_no_char by (by apply domain_no_char). done.
Qed.

Lemma collect_elem {A} (l : list (option A)) r x : collect l = Some r -> Some x ∈ l -> x ∈ r.
Proof.
  revert r. induction l as [|[y|] l IH]; intros r; simpl; [by intros _ ?%not_elem_of_nil| |done].
  destruct (collect l) as [r'|]; [|done]. intros [= <-]. rewrite !elem_of_cons. intros [[= ->]|?]; [by left|]. right. by apply IH.
Qed.

Lemma url_extracted ok args ds s host : extract_domains ok args = Some ds -> s ∈ iter_strings args -> is_url s host -> str_lower host ∈ ds.
Proof.
  unfold extract_domains. destruct (collect _) as [hosts|] eqn:E; [|done]. intros [= <-] Hs Hu.
  apply elem_of_remove_dups, list_elem_of_filter. pose proof (url_hostname_found ok s host Hu) as Hh. split.
  - destruct Hu as (? & ? & _ & _ & Hne & _). destruct host; done.
  - eapply collect_elem; [exact E|]. rewrite <- Hh. apply list_elem_of_fmap_2, list_elem_of_In, in_flat_map. exists s.
    split; [by apply list_elem_of_In|]. rewrite findall_whole; [by left| |by eapply url_found].
    destruct Hu as (scheme & tail & -> & Hsc & _). set_unfold in Hsc. by destruct Hsc as [-> | [-> | []]].
Qed.

(** ** Policies bound the targets *)

Lemma enforce_nil ok ps caps args : enforce_capability_policy ok ps caps args = Some [] ->
  forall c p, c ∈ caps -> get_capability_policy c ps = Some p -> bounded p = true ->
  exists ds, extract_domains ok args = Some ds /\
    (forall allow, p_recipients p = Some allow -> forall r, r ∈ extract_recipients args -> recipient_allowed r allow = true) /\
    (forall allow, p_domains p = Some allow -> forall d, d ∈ ds -> domain_allowed d allow = true).
Proof.
  unfold enforce_capability_policy. intros He c p Hc Hp Hb.
  assert ((c, p) ∈ base.filter (fun cp : string * policy => bounded cp.2 = true)
            (omap (fun c => (fun p => (c, p)) <$> get_capability_policy c ps) caps)) as Hin.
  { apply list_elem_of_filter. split; [done|]. apply list_elem_of_omap. exists c. by rewrite Hp. }
  revert He Hin. generalize (base.filter (fun cp : string * policy => bounded cp.2 = true)
            (omap (fun c => (fun p => (c, p)) <$> get_capability_policy c ps) caps)). intros bound He Hin.
  destruct bound as [|b bound]; [by apply not_elem_of_nil in Hin|].
  destruct (extract_domains ok args) as [ds|]; [|done]. exists ds. split; [done|]. injection He as He.
  change (flat_map (policy_violations (extract_recipients args) ds) (b :: bound) = []) in He.
  rewrite flat_map_nil in He. specialize (He _ Hin). unfold policy_violations in He. apply app_nil in He as [H1 H2]. simpl in *.
  split; intros allow Ha x Hx; [rewrite Ha in H1; apply map_eq_nil in H1|rewrite Ha in H2; apply map_eq_nil in H2];
    apply not_false_iff_true; intros Hf; eapply not_elem_of_nil; [rewrite <- H1|rewrite <- H2]; apply list_elem_of_filter; done.
Qed.

(** When the policy check lets a call through, then for every capability the call
    needs that has a policy, and every text anywhere in the arguments: a text
    that is an address is named by the recipient list or is at a domain it names, and
    a text that is a URL has a host that is an entry of the domain list or a
    subdomain of one (never a name that merely ends with the same letters). *)
Lemma policy_bounds_targets ok ps caps args :
  enforce_capability_policy ok ps caps args = Some [] ->
  forall c p s, c ∈ caps -> get_capability_policy c ps = Some p -> s ∈ iter_strings args ->
  (forall allow, p_recipients p = Some allow -> is_address s ->
     exists e, e ∈ allow /\ (str_lower e = str_lower s \/
       exists user domain, str_lower s = user +:+ "@" +:+ domain /\
         (str_lower e = "@" +:+ domain \/ str_lower e = domain /\ str_in "@" domain = false))) /\
  (forall allow host, p_domains p = Some allow -> is_url s host ->
     exists e, e ∈ allow /\ labels (lstrip is_dot (str_lower e)) `suffix_of` labels (str_lower host)).
Proof.
  intros He c p s Hc Hp Hs. split.
  - intros allow Ha Hadr. destruct (enforce_nil ok ps caps args He c p Hc Hp) as (ds & _ & Hr & _); [unfold bounded; by rewrite Ha|].
    specialize (Hr allow Ha _ (address_extracted _ _ Hs Hadr)). apply recipient_allowed_spec in Hr. by rewrite str_lower_idemp in Hr.
  - intros allow host Hd Hu. destruct (enforce_nil ok ps caps args He c p Hc Hp) as (ds & Hds & _ & Hr).
    { unfold bounded. rewrite Hd. by destruct (p_recipients p). }
    specialize (Hr allow Hd _ (url_extracted _ _ _ _ _ Hds Hs Hu)). apply domain_allowed_spec in Hr. by rewrite str_lower_idemp in Hr.
Qed.

(** ** The guard confines what runs under it *)

Definition names (allow : list string) (host : string) : Prop :=
  exists e, e ∈ allow /\ labels (lstrip is_dot (str_lower e)) `suffix_of` labels (str_lower host).

Lemma names_spec allow host : domain_allowed (str_lower host) (map str_lower allow) = true <-> names allow host.
Proof.
  rewrite domain_allowed_spec. unfold names. rewrite str_lower_idemp. split.
  - intros (x & (e & -> & He)%list_elem_of_fmap & Hs). rewrite str_lower_idemp in Hs. by exists e.
  - intros (e & He & Hs). exists (str_lower e). rewrite str_lower_idemp. split; [by apply list_elem_of_fmap_2|done].
Qed.

(** The address was answered to an admitted resolution of the history. *)
Definition vouched (allow : list string) (h : list (net_op * net_answer)) (ip : string) : Prop :=
  exists host answer ips, (GetAddrInfo host answer, Resolved ips) ∈ h /\ ip ∈ ips /\ (host = "" \/ names allow host).

Lemma vouched_mono allow h h' ip : vouched allow h ip -> h ⊆ h' -> vouched allow h' ip.
Proof. intros (host & answer & ips & ? & ? & ?) Hs. exists host, answer, ips. auto. Qed.

(** An active scope with the allow list, all of whose addresses are vouched for. *)
Definition guarded (allow : list string) (h : list (net_op * net_answer)) (g : guard) : Prop :=
  exists s, active g = Some s /\ (forall host, domain_allowed (str_lower host) (sc_allow s) = true <-> names allow host) /\
    forall ip, ip ∈ sc_resolved s -> vouched allow h ip.

Lemma active_set s g s0 : active g = Some s0 -> active (set_active s g) = Some s.
Proof. unfold active, set_active. by destruct (g_context g). Qed.

(** What an answer given under the scope says: a resolution that answers is of a permitted
    name (or of no name); an internet socket that connects to an address literal connects
    to one answered before. Sockets of other families, and an internet socket given a host
    name or an empty host, are passed on as they are (_check_connect_allowed). *)
Definition answer_ok (is_ip : string -> bool) (allow : list string) (h : list (net_op * net_answer)) (o : net_op) (a : net_answer) : Prop :=
  match o, a with
  | GetAddrInfo host _, Resolved _ => host = "" \/ names allow host
  | Connect true host, Connected => host = "" \/ is_ip host = false \/ vouched allow h host
  | _, _ => True
  end.

Lemma net_step_guarded is_ip allow h g o : guarded allow h g ->
  let '(g', a) := net_step is_ip g o in guarded allow ((o, a) :: h) g' /\ answer_ok is_ip allow h o a.
Proof.
  intros (s & Hs & Ha & Hr).
  assert (forall a, guarded allow ((o, a) :: h) g) as Hsame.
  { intros a. exists s. split_and!; [done..|]. intros ip Hip. eapply vouched_mono; [by apply Hr|]. by apply list_subseteq_cons. }
  destruct o as [host answer|inet host]; simpl.
  - unfold guarded_getaddrinfo. rewrite Hs.
    destruct (bool_decide _ && _) eqn:E; [by split|]. destruct answer as [ips|]; [|by split].
    assert (host = "" \/ names allow host) as Hn.
    { apply andb_false_iff in E as [E|E]; [left; by apply bool_decide_eq_false, dec_stable in E|].
      right. apply Ha. by apply negb_false_iff in E. }
    split; [|done]. eexists. split; [by eapply active_set|]. simpl. split; [done|].
    intros ip [Hip|[_ Hip]%list_elem_of_filter]%elem_of_app.
    + eapply vouched_mono; [by apply Hr|]. by apply list_subseteq_cons.
    + exists host, (Some ips), ips. split; [left|done].
  - split; [done|]. unfold check_connect_allowed. rewrite Hs. destruct inet; [|done]. simpl.
    destruct (bool_decide_reflect (host = "")) as [->|]; [by left|]. destruct (is_ip host) eqn:E; [|by right; left].
    destruct (bool_decide_reflect (host ∈ sc_resolved s)); [|done]. right. right. by apply Hr.
Qed.

Lemma net_run_guarded is_ip allow ops : forall h g, guarded allow h g ->
  forall pre o a post, net_run is_ip g ops = pre ++ (o, a) :: post -> answer_ok is_ip allow (pre ++ h) o a.
Proof.
  induction ops as [|o ops IH]; intros h g Hg pre o' a' post; simpl; [by destruct pre|].
  pose proof (net_step_guarded is_ip allow h g o Hg) as Hstep. destruct (net_step is_ip g o) as [g' a]. destruct Hstep as [Hg' Ha].
  destruct pre as [|p pre]; simpl; intros [= <- Hrun].
  - by subst.
  - specialize (IH _ _ Hg' _ _ _ _ Hrun). destruct o' as [host ans|[] host], a'; simpl in *; auto.
    destruct IH as [?|[?|IH]]; [auto|auto|]. right. right. eapply vouched_mono; [exact IH|]. intros x. rewrite !elem_of_app, !elem_of_cons, elem_of_app. tauto.
Qed.

(** A decision entered around a call of this process, or installed in a worker. *)
Definition under (d : decision) (g g' : guard) : Prop :=
  g' = enter_scope d g \/ g_context g = None /\ g' = (install_process_egress d g).1.

Lemma under_guarded d g g' allow : decision_allowlist d = Some allow -> under d g g' -> str_lower <$> allow = allow -> guarded allow [] g'.
Proof.
  intros Hd Hu Hl. destruct Hu as [-> | [Hc ->]]; [unfold enter_scope|unfold install_process_egress]; rewrite Hd; eexists.
  - split; [done|]. simpl. split; [|by intros ? ?%not_elem_of_nil]. intros host. apply names_spec.
  - split; [unfold active; by rewrite Hc|]. simpl. split; [|by intros ? ?%not_elem_of_nil].
    intros host. rewrite <- names_spec. change (map str_lower allow) with (str_lower <$> allow). by rewrite Hl.
Qed.

Lemma normal_domains_lower l : str_lower <$> normal_domains l = normal_domains l.
Proof.
  assert (forall x, x ∈ normal_domains l -> str_lower x = x) as H.
  { intros x. unfold normal_domains. rewrite elem_of_sorted_set. intros (y & -> & _)%list_elem_of_fmap. apply str_lower_idemp. }
  revert H. generalize (normal_domains l). intros k H. rewrite <- (list_fmap_id k) at 2. apply list_fmap_ext.
  intros i x Hx. apply H. by eapply list_elem_of_lookup_2.
Qed.

(** What a network mode and the domains of the policies resolve to. *)
Lemma resolved_allowlist mode domains : mode ∈ ["none"; "scoped"; "open"] ->
  decision_allowlist (resolve_egress_decision mode domains)
  = if decide (mode = "none") then Some []
    else if decide (mode = "open" /\ normal_domains domains = []) then None else Some (normal_domains domains).
Proof.
  unfold resolve_egress_decision, decision_allowlist, enforces. intros Hm. set_unfold in Hm.
  destruct Hm as [-> | [-> | [-> | []]]]; simpl; [done|..]; destruct (normal_domains domains) eqn:E; simpl; rewrite ?E; try done.
Qed.

(** C30: a tool runs unguarded only when its network mode is open and no policy names
    a domain. Otherwise, whatever its code does with sockets under the scope (in
    this process, or in a worker with the decision installed), every name it
    resolves is an entry of the policies' domains or a subdomain of one (and none
    in mode none), and every address literal it connects an internet socket to was
    answered by a permitted resolution in the same scope, an empty name being always
    permitted (it answers the loopback addresses, see [loopback_vouched]). Connecting to a
    host name or an empty host is not confined: such a call is passed on without a
    resolution the guard sees (see [hostname_connect_unguarded]). *)
Theorem egress_confined is_ip mode domains g g' ops :
  mode ∈ ["none"; "scoped"; "open"] ->
  let d := resolve_egress_decision mode domains in
  under d g g' ->
  match decision_allowlist d with
  | None => mode = "open" /\ forall x, x ∈ domains -> x = ""
  | Some allow =>
      (mode = "none" -> allow = []) /\ (forall x, x ∈ allow -> exists y, y ∈ domains /\ x = str_lower y) /\
      forall pre o a post, net_run is_ip g' ops = pre ++ (o, a) :: post -> answer_ok is_ip allow pre o a
  end.
Proof.
  intros Hm d Hu. destruct (decision_allowlist d) as [allow|] eqn:Hd.
  - pose proof Hd as Hd'. unfold d in Hd'. rewrite resolved_allowlist in Hd' by done.
    assert (allow = [] \/ mode <> "none" /\ allow = normal_domains domains) as Hall.
    { destruct (decide (mode = "none")); [left; congruence|]. destruct (decide _); [done|]. right. split; [done|congruence]. }
    split_and!.
    + intros ->. by destruct Hall as [|[? _]].
    + intros x Hx. destruct Hall as [->|[_ ->]]; [by apply not_elem_of_nil in Hx|].
      unfold normal_domains in Hx. rewrite elem_of_sorted_set in Hx. apply list_elem_of_fmap in Hx as (y & -> & [_ Hy]%list_elem_of_filter). by exists y.
    + intros pre o a post Hrun. rewrite <- (app_nil_r pre). eapply net_run_guarded; [|exact Hrun]. eapply under_guarded; [done..|].
      destruct Hall as [->|[_ ->]]; [done|apply normal_domains_lower].
  - unfold d in Hd. rewrite resolved_allowlist in Hd by done. destruct (decide (mode = "none")); [done|].
    destruct (decide _) as [[Ho Hn]|]; [|done]. split; [done|]. intros x Hx. destruct (decide (x = "")); [done|]. exfalso.
    assert (str_lower x ∈ normal_domains domains) as Hin.
    { unfold normal_domains. rewrite elem_of_sorted_set. apply list_elem_of_fmap_2, list_elem_of_filter. done. }
    rewrite Hn in Hin. by apply not_elem_of_nil in Hin.
Qed.

(** ** Rates *)

Lemma parse_rate_positive r limit window : parse_rate r = Some (limit, window) -> 0 < limit /\ 0 < window.
Proof.
  unfold parse_rate. destruct (str_in _ _); [|done]. destruct (dict_get _ _) as [w|] eqn:E; [|done].
  destruct (int_of_string _) as [l|]; [|done]. destruct (Z.leb_spec l 0); [done|]. intros [= <- <-]. split; [done|].
  apply dict_get_elem, (list_elem_of_fmap_2 snd) in E. revert E.
  assert (Forall (fun z => 0 < z) (RATE_PERIODS.*2)) as Hp by (apply (bool_decide_unpack _); by vm_compute).
  rewrite Forall_forall in Hp. apply Hp.
Qed.

(** A hit in a window counts one more than the hits of the window before it. *)
Lemma rate_hit_counts key limit window now w : 0 < limit -> 0 < window -> (length w < RATE_WINDOWS_PRUNE)%nat ->
  let '(w', (count, exceeded)) := rate_limit_hit key limit window now w in
  dict_get key w' = Some (now / window, count) /\ exceeded = bool_decide (limit < count) /\
  count = match dict_get key w with Some (b, c) => if b =? now / window then c + 1 else 1 | None => 1 end.
Proof.
  intros Hl Hw Hlen. unfold rate_limit_hit. rewrite !(proj2 (Z.leb_gt _ _)) by done. cbn [orb]. cbv zeta.
  match goal with |- context [dict_set key ?x w] => set (x0 := x) end.
  assert (length (dict_set key x0 w) <= S (length w))%nat as Hs.
  { generalize x0. intros x. clear. induction w as [|[k v] w IH]; simpl; [lia|]. destruct (decide _); simpl; lia. }
  rewrite (proj2 (Nat.ltb_ge _ _)) by lia. rewrite dict_get_set_eq. split; [done|]. split; [|done].
  apply eq_true_iff_eq. by rewrite Z.ltb_lt, bool_decide_eq_true.
Qed.

(** ** Concrete policies *)

Module ToyEgress.
Definition mail : policy := Policy (Some ["@example.com"; "boss@corp.org"]) None (Some "2/minute").
Definition web : policy := Policy None (Some ["example.com"]) None.
Definition ps : policies := [("send", mail); ("fetch", web)].
(** Dotted quads; enough for the addresses used here. *)
Definition is_ip (h : string) : bool := bool_decide (h ∈ ["10.0.0.1"; "93.184.216.34"; "127.0.0.1"]).
Definition good : pyval := VDict [("to", VStr "Ann@Example.com"); ("links", VList [VStr "https://docs.example.com/a?b"])].
Definition bad : pyval := VDict [("to", VStr "ann@evil.com"); ("links", VList [VStr "see https://badexample.com/ now"])].
Definition ops : list net_op :=
  [Connect true "10.0.0.1"; GetAddrInfo "evil.com" (Some ["10.0.0.1"]); GetAddrInfo "www.example.com" (Some ["93.184.216.34"]);
   Connect true "93.184.216.34"; Connect true "10.0.0.1"].
End ToyEgress.

Lemma good_address : is_address "Ann@Example.com".
Proof. exists (chars "Ann"), (chars "Example"), (chars "com"). split_and!; try done; repeat constructor. Qed.

Lemma good_url : is_url "https://docs.example.com/a?b" "docs.example.com".
Proof. exists "https://", "/a?b". split_and!; try done; try (repeat constructor); apply (bool_decide_unpack _); by vm_compute. Qed.

Lemma policy_bounds_witness :
  enforce_capability_policy (fun _ => true) ToyEgress.ps ["send"; "fetch"] ToyEgress.good = Some [] /\
  (exists e, e ∈ ["example.com"] /\ labels (lstrip is_dot (str_lower e)) `suffix_of` labels "docs.example.com") /\
  enforce_capability_policy (fun _ => true) ToyEgress.ps ["send"; "fetch"] ToyEgress.bad
  = Some [Violation "send" Recipient "ann@evil.com"; Violation "fetch" Domain "badexample.com"].
Proof.
  split; [vm_compute; reflexivity|]. split; [|vm_compute; reflexivity].
  exact (proj2 (policy_bounds_targets (fun _ => true) ToyEgress.ps ["send"; "fetch"] ToyEgress.good eq_refl "fetch" ToyEgress.web
    "https://docs.example.com/a?b" ltac:(right; left) eq_refl ltac:(right; left)) ["example.com"] "docs.example.com" eq_refl good_url).
Defined.

Lemma egress_confined_witness :
  let g := enter_scope (resolve_egress_decision "open" ["Example.com"]) (Guard None None) in
  map snd (net_run ToyEgress.is_ip g ToyEgress.ops) = [Denied; Denied; Resolved ["93.184.216.34"]; Connected; Denied] /\
  names ["example.com"] "www.example.com".
Proof.
  set (g := enter_scope (resolve_egress_decision "open" ["Example.com"]) (Guard None None)).
  split; [vm_compute; reflexivity|].
  pose proof (egress_confined ToyEgress.is_ip "open" ["Example.com"] (Guard None None) g ToyEgress.ops
    ltac:(right; right; left) (or_introl eq_refl)) as H.
  destruct H as (_ & _ & H).
  destruct (H [(Connect true "10.0.0.1", Denied); (GetAddrInfo "evil.com" (Some ["10.0.0.1"]), Denied)]
    (GetAddrInfo "www.example.com" (Some ["93.184.216.34"])) (Resolved ["93.184.216.34"])
    [(Connect true "93.184.216.34", Connected); (Connect true "10.0.0.1", Denied)] eq_refl) as [Hn|Hn]; [discriminate Hn|exact Hn].
Defined.

(** A connection to a name is not checked. *)
Example hostname_connect_unguarded :
  check_connect_allowed ToyEgress.is_ip true "evil.com" (enter_scope (Decision "none" []) (Guard None None)) = true.
Proof. reflexivity. Qed.

(** Nor is the resolution of an empty name, whose answers are then vouched for. *)
Example loopback_vouched :
  map snd (net_run ToyEgress.is_ip (enter_scope (Decision "none" []) (Guard None None))
             [GetAddrInfo "" (Some ["127.0.0.1"]); Connect true "127.0.0.1"]) = [Resolved ["127.0.0.1"]; Connected].
Proof. reflexivity. Qed.

(** A handle is never taken for a recipient. *)
Example handle_not_checked :
  enforce_capability_policy (fun _ => true) [("dm", Policy (Some ["@alice"]) None None)] ["dm"] (VDict [("to", VStr "@mallory")]) = Some [].
Proof. reflexivity. Qed.

(** An empty entry of a domain list admits every host written with its final dot. *)
Example empty_entry_admits : domain_allowed "evil.com." [""] = true /\ domain_allowed "evil.com" [""] = false.
Proof. split; reflexivity. Qed.

(** Past 4096 counters, a hit of a short window drops the live counter of a long one:
    bucket numbers of windows of different lengths are compared. *)
Example prune_drops_live_window :
  let w := ("cap:send:u", (0, 7)) :: map (fun i => (String (ascii_of_nat (i / 64)) (String (ascii_of_nat (i mod 64)) ""), (500, 1))) (seq 0 4096) in
  let '(w1, (n1, _)) := rate_limit_hit "cap:send:u" 10 86400 500 w in
  let '(w2, _) := rate_limit_hit "other" 10 1 500 w in
  n1 = 8 /\ dict_get "cap:send:u" w2 = None.
Proof. vm_compute. done. Qed.
