(* ===== verification/TokenMeter.v ===== *)
(** * Token meter

    platform_layer/token_meter.py and the replay of a worker's ledger in
    runtime/nodus_runtime_adapter.py. Every answer of a model provider is
    observed once: in the process that owns the run the tokens are charged to the
    unit and the tenant the current span declares; in a guest worker, inside a
    deferral scope, the call is only appended to a bounded ledger that the reply
    carries, and the parent records it under the run's identity.

    A context variable is a field of [meter] and a scope is a function of the
    value outside it. The Prometheus client is a parameter: whether a counter
    accepts an increment. Spans and logs are left out. *)

From S2P Require Import Prelude PyStr PyVal ResourceManager.
From Stdlib Require Import QArith.

Local Open Scope string_scope.
Local Open Scope Z_scope.
Local Open Scope list_scope.

(** ** Who a call belongs to *)

(** [a if a else b] on strings that may be missing. *)
Definition or_str (a b : option string) : option string :=
  match a with None | Some "" => b | Some _ => a end.
(** [v or None] *)
Definition given (a : option string) : option string := or_str a None.

(** [(tenant_id, run_id)] *)
Definition attribution : Type := option string * option string.

Definition llm_attribution_scope (tenant_id run_id : option string) (outer : attribution) : attribution :=
  (or_str tenant_id outer.1, or_str run_id outer.2).

(** The tenant of a unit's snapshot, [None] when the unit is unknown or has none. *)
Definition snapshot_tenant (unit : string) (r : rm) : option string :=
  given (su_tenant <$> dict_get unit (usage r)).

Definition is_given (a : option string) : bool := match given a with Some _ => true | None => false end.

Definition label_of (run unit tenant : option string) : string :=
  if is_given run then "run" else if is_given unit then "unit" else if is_given tenant then "tenant" else "none".

(** Tenant, key of the unit charged and label; [bound] is the execution unit bound
    to the span. *)
Definition resolve_llm_subject (a : attribution) (bound : option string) (r : rm)
    : option string * option string * string :=
  let '(tenant, run) := a in
  let unit := given bound in
  let tenant := match given tenant, unit with None, Some u => snapshot_tenant u r | _, _ => tenant end in
  (tenant, or_str run unit, label_of run unit tenant).

(** ** The ledger of a worker *)

Record LlmUsageRecord := Usage {
  u_provider : string; u_model : string; u_prompt : Z; u_completion : Z;
  u_started : Z; u_duration : Z; u_tool : option string; u_outcome : string }.

Record bucket := Bucket { k_calls : Z; k_prompt : Z; k_completion : Z }.

Record LlmUsageLedger := Ledger {
  max_records : Z; records : list LlmUsageRecord;
  tail : list ((string * string) * bucket); dropped_unreadable : Z }.

Definition DEFAULT_LLM_LEDGER_MAX : Z := 256.

(** The value of AINDY_NODUS_LLM_LEDGER_MAX, if set. *)
Definition ledger_max_records (raw : option string) : Z :=
  match raw with
  | Some s => if decide (str_strip s = "") then DEFAULT_LLM_LEDGER_MAX
              else match int_of_string s with Some n => Z.max 1 n | None => DEFAULT_LLM_LEDGER_MAX end
  | None => DEFAULT_LLM_LEDGER_MAX
  end.

Definition new_ledger (max : Z) : LlmUsageLedger := Ledger max [] [] 0.

Definition append (u : LlmUsageRecord) (l : LlmUsageLedger) : LlmUsageLedger :=
  if Z.of_nat (length (records l)) <? max_records l
  then Ledger (max_records l) (records l ++ [u]) (tail l) (dropped_unreadable l)
  else
    let key := (u_provider u, u_model u) in
    let b := default (Bucket 0 0 0) (dict_get key (tail l)) in
    Ledger (max_records l) (records l)
      (dict_set key (Bucket (k_calls b + 1) (k_prompt b + u_prompt u) (k_completion b + u_completion u)) (tail l))
      (dropped_unreadable l).

Definition drop_unreadable (l : LlmUsageLedger) : LlmUsageLedger :=
  Ledger (max_records l) (records l) (tail l) (dropped_unreadable l + 1).

Definition opt_str (s : option string) : pyval := match s with Some s => VStr s | None => VNone end.

Definition record_as_dict (u : LlmUsageRecord) : pyval :=
  VDict [("provider", VStr (u_provider u)); ("model", VStr (u_model u)); ("prompt_tokens", VInt (u_prompt u));
         ("completion_tokens", VInt (u_completion u)); ("started_at_ms", VInt (u_started u));
         ("duration_ms", VInt (u_duration u)); ("tool", opt_str (u_tool u)); ("outcome", VStr (u_outcome u))].

Definition bucket_as_dict (kb : (string * string) * bucket) : pyval :=
  VDict [("provider", VStr kb.1.1); ("model", VStr kb.1.2); ("calls", VInt (k_calls kb.2));
         ("prompt_tokens", VInt (k_prompt kb.2)); ("completion_tokens", VInt (k_completion kb.2))].

Definition ledger_as_dict (l : LlmUsageLedger) : pyval :=
  VDict [("records", VList (map record_as_dict (records l))); ("tail", VList (map bucket_as_dict (tail l)));
         ("unreadable", VInt (dropped_unreadable l))].

Definition ledger_len (l : LlmUsageLedger) : Z :=
  Z.of_nat (length (records l)) + foldr Z.add 0 (map (fun kb => k_calls kb.2) (tail l)).

(** ** Usage of a response *)

(** The usage attribute of a response: its fields (attributes of an object, keys
    of a dict), or nothing. *)
Definition response : Type := option (list (string * pyval)).

(** [int(v)] of a number. *)
Definition int_of_number (v : pyval) : option Z :=
  match v with
  | VBool b => Some (Z.b2z b)
  | VInt z => Some z
  | VFloat q => Some (Z.quot (Qnum q) (Zpos (Qden q)))
  | _ => None
  end.

(** The first of the names that holds a number. *)
Fixpoint usage_int (names : list string) (usage : list (string * pyval)) : option Z :=
  match names with
  | [] => None
  | name :: names => match int_of_number (py_get name usage) with Some z => Some z | None => usage_int names usage end
  end.

Definition extract_token_usage (r : response) : option (Z * Z) :=
  match r with
  | None => None
  | Some usage =>
      match usage_int ["prompt_tokens"; "input_tokens"] usage, usage_int ["completion_tokens"; "output_tokens"] usage with
      | None, None => None
      | prompt, completion => Some (default 0 prompt, default 0 completion)
      end
  end.

(** ** The meter of a process *)

Section Meter.
(** Whether [Counter.inc(n)] of the metrics client accepts the amount. *)
Variable inc_ok : Z -> bool.

Record meter := Meter {
  mt_ledger : option LlmUsageLedger;                     (* the deferral scope, if one is entered *)
  mt_tool : option string;
  mt_attribution : attribution;
  mt_unit : option string;                               (* the bound execution unit *)
  mt_rm : rm;
  mt_tokens : list ((string * string * string) * Z);     (* provider, model, kind *)
  mt_unreadable : list ((string * string) * Z);
  mt_calls : list ((string * string) * Z) }.             (* provider, attributed *)

Definition set_rm (r : rm) (m : meter) : meter :=
  Meter (mt_ledger m) (mt_tool m) (mt_attribution m) (mt_unit m) r (mt_tokens m) (mt_unreadable m) (mt_calls m).
Definition set_ledger (l : option LlmUsageLedger) (m : meter) : meter :=
  Meter l (mt_tool m) (mt_attribution m) (mt_unit m) (mt_rm m) (mt_tokens m) (mt_unreadable m) (mt_calls m).
Definition set_tokens t (m : meter) : meter :=
  Meter (mt_ledger m) (mt_tool m) (mt_attribution m) (mt_unit m) (mt_rm m) t (mt_unreadable m) (mt_calls m).
Definition set_unreadable u (m : meter) : meter :=
  Meter (mt_ledger m) (mt_tool m) (mt_attribution m) (mt_unit m) (mt_rm m) (mt_tokens m) u (mt_calls m).
Definition set_calls c (m : meter) : meter :=
  Meter (mt_ledger m) (mt_tool m) (mt_attribution m) (mt_unit m) (mt_rm m) (mt_tokens m) (mt_unreadable m) c.

Definition total {K} `{EqDecision K} (k : K) (d : list (K * Z)) : Z := default 0 (dict_get k d).
Definition bump {K} `{EqDecision K} (k : K) (n : Z) (d : list (K * Z)) : list (K * Z) := dict_set k (total k d + n) d.

(** The two increments of the token counter; the first that is refused raises. *)
Definition count_tokens (provider model : string) (prompt completion : Z) (m : meter) : meter * bool :=
  if inc_ok prompt then
    let m := set_tokens (bump (provider, model, "prompt") prompt (mt_tokens m)) m in
    if inc_ok completion
    then (set_tokens (bump (provider, model, "completion") completion (mt_tokens m)) m, true)
    else (m, false)
  else (m, false).

Definition attribute_usage (now : Z) (provider : string) (tokens : Z) (tenant run unit : option string) (m : meter) : meter :=
  let '(amb_tenant, amb_key, amb_label) := resolve_llm_subject (mt_attribution m) (mt_unit m) (mt_rm m) in
  let '(tenant, key, label) :=
    if is_given tenant || is_given run || is_given unit
    then (or_str tenant amb_tenant, or_str run (or_str unit amb_key),
          if is_given run then "run" else if is_given unit then "unit" else amb_label)
    else (amb_tenant, amb_key, amb_label) in
  let r := match given key with Some k => record_tokens now k tokens (default "" tenant) (mt_rm m) | None => mt_rm m end in
  let r := match given tenant with Some t => record_tenant_tokens now t tokens r | None => r end in
  set_calls (bump (provider, label) 1 (mt_calls m)) (set_rm r m).

Definition record_llm_usage (metrics : bool) (now : Z) (provider model : string) (prompt completion : Z)
    (tenant run unit : option string) (m : meter) : meter :=
  if metrics then
    match count_tokens provider (if decide (model = "") then "unknown" else model) prompt completion m with
    | (m, true) => attribute_usage now provider (prompt + completion) tenant run unit m
    | (m, false) => m
    end
  else m.

(** One completed call as the client reports it. *)
Record observation := Obs {
  ob_provider : string; ob_model : string; ob_response : response; ob_started : Z; ob_duration : Z; ob_now : Z }.

Definition model_label (o : observation) : string := if decide (ob_model o = "") then "unknown" else ob_model o.

Definition usage_record (tool : option string) (o : observation) (usage : Z * Z) : LlmUsageRecord :=
  Usage (ob_provider o) (model_label o) usage.1 usage.2
    (if ob_started o =? 0 then ob_now o else ob_started o) (ob_duration o) tool "ok".

Definition observe_llm_usage (metrics : bool) (o : observation) (m : meter) : meter :=
  let label := (ob_provider o, model_label o) in
  match mt_ledger m with
  | Some l =>
      set_ledger (Some match extract_token_usage (ob_response o) with
                       | None => drop_unreadable l
                       | Some usage => append (usage_record (mt_tool m) o usage) l
                       end) m
  | None =>
      if metrics then
        match extract_token_usage (ob_response o) with
        | None => set_unreadable (bump label 1 (mt_unreadable m)) m
        | Some (prompt, completion) =>
            match count_tokens (ob_provider o) (model_label o) prompt completion m with
            | (m, true) => attribute_usage (ob_now o) (ob_provider o) (prompt + completion) None None None m
            | (m, false) => set_unreadable (bump label 1 (mt_unreadable m)) m
            end
        end
      else m
  end.

(** ** The parent's replay *)

(** [int(v or 0)]; [None] is an exception. *)
Definition int_or_zero (v : pyval) : option Z :=
  if py_truth v then match v with VStr s => int_of_string s | _ => int_of_number v end else Some 0.

(** [str(v or dflt)] *)
Definition str_or (render : pyval -> string) (v : pyval) (dflt : string) : string :=
  if py_truth v then py_str render v else dflt.

(** [list(ledger.get(k) or [])]; iterating a dict gives its keys and a string its
    characters, none of which is a dict. *)
Definition items_of (k : string) (d : list (string * pyval)) : option (list pyval) :=
  if py_truth (py_get k d) then py_list (py_get k d) else Some [].

(** Whom a guest execution is charged to: the fields of its context. *)
Record guest_context := Guest { g_run : option string; g_unit : option string; g_user : option string }.

Section Replay.
Variable render : pyval -> string.
Variable metrics : bool.
Variables (now : Z) (ctx : guest_context).

(** One item of the ledger; [None] when the conversion of a field raises. *)
Definition replay_item (d : list (string * pyval)) (m : meter) : option meter :=
  match int_or_zero (py_get "prompt_tokens" d), int_or_zero (py_get "completion_tokens" d) with
  | Some prompt, Some completion =>
      Some (record_llm_usage metrics now (str_or render (py_get "provider" d) "unknown")
              (str_or render (py_get "model" d) "unknown") prompt completion
              (given (g_user ctx)) (given (g_run ctx)) (given (g_unit ctx)) m)
  | _, _ => None
  end.

Fixpoint replay_records (l : list pyval) (m : meter) (count : Z) : meter * Z * bool :=
  match l with
  | [] => (m, count, true)
  | VDict d :: l => match replay_item d m with
                    | Some m => replay_records l m (count + 1)
                    | None => (m, count, false)
                    end
  | _ :: l => replay_records l m count
  end.

Fixpoint replay_tail (l : list pyval) (m : meter) (count : Z) : meter * Z :=
  match l with
  | [] => (m, count)
  | VDict d :: l => match replay_item d m with
                    | Some m => match int_or_zero (py_get "calls" d) with
                                | Some calls => replay_tail l m (count + calls)
                                | None => (m, count)
                                end
                    | None => (m, count)
                    end
  | _ :: l => replay_tail l m count
  end.

(** Returns the number of calls recorded. *)
Definition apply_deferred_llm_usage (ledger : pyval) (m : meter) : meter * Z :=
  match ledger with
  | VDict d =>
      match items_of "records" d with
      | None => (m, 0)
      | Some recs =>
          let '(m, count, ok) := replay_records recs m 0 in
          if ok then match items_of "tail" d with
                     | None => (m, count)
                     | Some buckets => replay_tail buckets m count
                     end
          else (m, count)
      end
  | _ => (m, 0)
  end.
End Replay.

(** The scope a worker enters around a script, and the ledger it leaves. *)
Definition llm_usage_deferral_scope (metrics : bool) (max : Z) (calls : list observation) (m : meter) : LlmUsageLedger :=
  default (new_ledger max) (mt_ledger (fold_left (fun m o => observe_llm_usage metrics o m) calls (set_ledger (Some (new_ledger max)) m))).
End Meter.

(** ** What a counter says *)

(** Tokens charged to a unit: the shared counter while the backend is up, the
    process's own otherwise. *)
Definition unit_used (k : string) (r : rm) : Z :=
  if backend_up r then counter k (b_tokens (shared r)) else default 0 (tokens <$> dict_get k (usage r)).

Lemma counter_dict_set k k' n d : counter k' (dict_set k n d) = if decide (k = k') then n else counter k' d.
Proof. apply counter_set. Qed.

Lemma total_bump {K} `{EqDecision K} (k k' : K) n d : total k' (bump k n d) = total k' d + (if decide (k = k') then n else 0).
Proof.
  unfold bump, total. destruct (decide (k = k')) as [-> |Hne]; [by rewrite dict_get_set_eq|].
  rewrite dict_get_set_ne by done. lia.
Qed.

(** Adding to the shared counter, and to the process's snapshot. *)
Lemma backend_add_used k n k' r :
  unit_used k' (backend_add_tokens k n r).1 = unit_used k' r + (if backend_up r && bool_decide (k = k') then n else 0).
Proof.
  unfold backend_add_tokens, unit_used. destruct (backend_up r) eqn:Hb; simpl; [|rewrite Hb; lia].
  rewrite Hb, counter_dict_set. destruct (decide (k = k')) as [-> |]; [rewrite bool_decide_eq_true_2 by done|rewrite bool_decide_eq_false_2 by done]; lia.
Qed.

Lemma put_used k s k' r :
  unit_used k' (put_snapshot k s r) = if backend_up r then unit_used k' r else if decide (k = k') then tokens s else unit_used k' r.
Proof.
  unfold unit_used, put_snapshot. simpl. destruct (backend_up r); [done|].
  destruct (decide (k = k')) as [-> |]; [by rewrite dict_get_set_eq|by rewrite dict_get_set_ne].
Qed.

Lemma snapshot_tokens k tid now r : backend_up r = false -> tokens (snapshot_or_new k tid now r) = unit_used k r.
Proof. intros Hb. unfold unit_used, snapshot_or_new. rewrite Hb. by destruct (dict_get k (usage r)). Qed.

Lemma record_tokens_used now k n tid k' r : 0 <= n ->
  unit_used k' (record_tokens now k n tid r) = unit_used k' r + (if decide (k = k') then n else 0).
Proof.
  intros Hn. unfold record_tokens. destruct (Z.leb_spec n 0); [destruct (decide _); lia|].
  rewrite backend_add_used, put_used. simpl. destruct (backend_up r) eqn:Hb; simpl.
  - destruct (decide (k = k')) as [-> |]; [rewrite bool_decide_eq_true_2 by done|rewrite bool_decide_eq_false_2 by done]; lia.
  - rewrite snapshot_tokens by done. destruct (decide (k = k')) as [-> |]; lia.
Qed.

Lemma record_tenant_unit now t n k r : unit_used k (record_tenant_tokens now t n r) = unit_used k r.
Proof.
  unfold record_tenant_tokens. destruct (_ || _); [done|]. unfold backend_add_tenant_tokens, add_window, unit_used.
  destruct (tenant_window now t r) as [c s]. simpl. by destruct (backend_up r) eqn:Hb; simpl; rewrite Hb.
Qed.

Lemma record_tokens_tenant now k n tid t r : get_tenant_tokens t (record_tokens now k n tid r) = get_tenant_tokens t r.
Proof.
  unfold record_tokens. destruct (n <=? 0); [done|]. unfold backend_add_tokens, get_tenant_tokens. simpl.
  by destruct (backend_up r) eqn:Hb; simpl; rewrite Hb.
Qed.

Lemma record_tenant_used now t n t' r : t <> "" -> 0 <= n ->
  get_tenant_tokens t' (record_tenant_tokens now t n r) = get_tenant_tokens t' r + (if decide (t = t') then n else 0).
Proof.
  intros Ht Hn. unfold record_tenant_tokens. rewrite bool_decide_eq_false_2 by done. simpl.
  destruct (Z.leb_spec n 0); [destruct (decide _); lia|].
  unfold backend_add_tenant_tokens, add_window, get_tenant_tokens, tenant_window. simpl.
  destruct (dict_get t (tenant_tokens r)) as [[c s]|] eqn:Hg; simpl; destruct (backend_up r) eqn:Hb; simpl; rewrite Hb; simpl;
    rewrite ?counter_dict_set; destruct (decide (t = t')) as [<-|];
    rewrite ?dict_get_set_eq, ?dict_get_set_ne, ?Hg by done; simpl; lia.
Qed.

Lemma record_backend_up now k n tid r : backend_up (record_tokens now k n tid r) = backend_up r.
Proof. unfold record_tokens. destruct (n <=? 0); [done|]. unfold backend_add_tokens. simpl. by destruct (backend_up r) eqn:Hb. Qed.

Lemma record_tenant_backend_up now t n r : backend_up (record_tenant_tokens now t n r) = backend_up r.
Proof.
  unfold record_tenant_tokens. destruct (_ || _); [done|]. unfold backend_add_tenant_tokens, add_window.
  destruct (tenant_window now t r) as [c s]. simpl. by destruct (backend_up r) eqn:Hb.
Qed.

(** ** A ledger and what it stands for *)

(** The label a replayed provider or model is counted under. *)
Definition shown (s : string) : string := if decide (s = "") then "unknown" else s.

Lemma shown_shown s : shown (shown s) = shown s.
Proof. unfold shown. destruct (decide (s = "")) as [->|]; [done|by rewrite decide_False]. Qed.

(** The entries the parent replays: label, calls, prompt and completion tokens. *)
Record entry := Entry { n_key : string * string; n_calls : Z; n_prompt : Z; n_completion : Z }.

Definition entries (l : LlmUsageLedger) : list entry :=
  map (fun u => Entry (u_provider u, u_model u) 1 (u_prompt u) (u_completion u)) (records l) ++
  map (fun kb => Entry kb.1 (k_calls kb.2) (k_prompt kb.2) (k_completion kb.2)) (tail l).

(** The readable usage of a call. *)
Definition observed (o : observation) : option entry :=
  (fun usage => Entry (ob_provider o, model_label o) 1 usage.1 usage.2) <$> extract_token_usage (ob_response o).

Definition sum {A} (f : A -> Z) (l : list A) : Z := foldr (fun x a => f x + a) 0 l.

Lemma sum_cons {A} (f : A -> Z) x l : sum f (x :: l) = f x + sum f l.
Proof. done. Qed.

Lemma sum_nil {A} (f : A -> Z) : sum f [] = 0.
Proof. done. Qed.

Lemma sum_app {A} (f : A -> Z) l1 l2 : sum f (l1 ++ l2) = sum f l1 + sum f l2.
Proof. unfold sum. induction l1 as [|x l1 IH]; simpl; lia. Qed.

Lemma sum_map {A B} (f : B -> Z) (g : A -> B) l : sum f (map g l) = sum (fun x => f (g x)) l.
Proof. unfold sum. induction l as [|x l IH]; simpl; lia. Qed.

Lemma sum_dict_set {K V} `{EqDecision K} (f : K * V -> Z) k v (d : list (K * V)) :
  sum f (dict_set k v d) = sum f d + f (k, v) - match dict_get k d with Some w => f (k, w) | None => 0 end.
Proof.
  unfold sum. induction d as [|[k' w] d IH]; simpl; [lia|]. destruct (decide (k = k')) as [<-|]; simpl; [lia|].
  rewrite IH. destruct (dict_get k d); lia.
Qed.

(** A weight of entries that is linear in the counts of each label: the total of
    the calls or of the tokens, of all labels or of one. *)
Record weight := Weight { w_on : string * string -> bool; w_calls : Z; w_prompt : Z; w_completion : Z }.

Definition weigh (w : weight) (e : entry) : Z :=
  if w_on w (n_key e) then w_calls w * n_calls e + w_prompt w * n_prompt e + w_completion w * n_completion e else 0.

Lemma append_weight w u l :
  sum (weigh w) (entries (append u l)) = sum (weigh w) (entries l) + weigh w (Entry (u_provider u, u_model u) 1 (u_prompt u) (u_completion u)).
Proof.
  unfold entries, append. destruct (_ <? _); simpl.
  - rewrite map_app, !sum_app. cbn [map]. rewrite sum_cons, sum_nil. lia.
  - rewrite !sum_app, !sum_map, sum_dict_set. simpl.
    destruct (dict_get _ (tail l)) as [b|]; unfold weigh; simpl; destruct (w_on w _); lia.
Qed.

Lemma new_weight w max : sum (weigh w) (entries (new_ledger max)) = 0.
Proof. done. Qed.

Lemma length_omap_le {A B} (f : A -> option B) (l : list A) : (length (omap f l) <= length l)%nat.
Proof. induction l as [|x l IH]; csimpl; [done|]. destruct (f x); csimpl; lia. Qed.

Section Conservation.
Context (inc_ok : Z -> bool).
Hypothesis inc_nonneg : forall n, 0 <= n -> inc_ok n = true.

(** *** The worker *)

(** The ledger after some calls, in a deferral scope. *)
Lemma deferral_ledger metrics calls : forall l m, mt_ledger m = Some l -> exists l',
  mt_ledger (fold_left (fun m o => observe_llm_usage inc_ok metrics o m) calls m) = Some l' /\
  max_records l' = max_records l /\
  (forall w, sum (weigh w) (entries l') = sum (weigh w) (entries l) + sum (weigh w) (omap observed calls)) /\
  dropped_unreadable l' = dropped_unreadable l + Z.of_nat (length calls - length (omap observed calls)) /\
  (Z.of_nat (length (records l)) <= Z.max 0 (max_records l) -> Z.of_nat (length (records l')) <= Z.max 0 (max_records l)).
Proof.
  induction calls as [|o calls IH]; intros l m Hm.
  { exists l. csimpl. split_and!; try done; [intros w; lia|lia]. }
  cbn [fold_left]. unfold observe_llm_usage at 2. rewrite Hm.
  assert (length (omap observed calls) <= length calls)%nat as Hlen by apply length_omap_le.
  destruct (extract_token_usage (ob_response o)) as [usage|] eqn:Hu.
  - destruct (IH (append (usage_record (mt_tool m) o usage) l) (set_ledger (Some (append (usage_record (mt_tool m) o usage) l)) m))
      as (l' & Hl & Hmax & Hw & Hd & Hb); [done|].
    assert (observed o = Some (Entry (ob_provider o, model_label o) 1 usage.1 usage.2)) as Ho by (unfold observed; by rewrite Hu).
    exists l'. split; [done|]. split_and!.
    + rewrite Hmax. unfold append. by destruct (_ <? _).
    + intros w. rewrite Hw, append_weight. csimpl. rewrite Ho, sum_cons. unfold usage_record. simpl. lia.
    + rewrite Hd. csimpl. rewrite Ho. csimpl. replace (dropped_unreadable (append _ l)) with (dropped_unreadable l); [lia|].
      unfold append. by destruct (_ <? _).
    + intros Hr. unfold append in Hb. destruct (Z.ltb_spec (Z.of_nat (length (records l))) (max_records l)); simpl in Hb; [|by apply Hb].
      apply Hb. rewrite length_app. simpl. lia.
  - destruct (IH (drop_unreadable l) (set_ledger (Some (drop_unreadable l)) m)) as (l' & Hl & Hmax & Hw & Hd & Hb); [done|].
    assert (observed o = None) as Ho by (unfold observed; by rewrite Hu).
    exists l'. split; [done|]. split_and!; [done| | |done].
    + intros w. rewrite Hw. csimpl. by rewrite Ho.
    + rewrite Hd. csimpl. rewrite Ho. csimpl. lia.
Qed.
(** *** The parent *)

Section Replayed.
Context (render : pyval -> string) (now : Z) (ctx : guest_context).

Definition replay_entry (m : meter) (e : entry) : meter :=
  record_llm_usage inc_ok true now (shown (n_key e).1) (shown (n_key e).2) (n_prompt e) (n_completion e)
    (given (g_user ctx)) (given (g_run ctx)) (given (g_unit ctx)) m.

Lemma int_or_zero_int z : int_or_zero (VInt z) = Some z.
Proof. unfold int_or_zero. simpl. destruct (z =? 0) eqn:E; simpl; [apply Z.eqb_eq in E; by subst|done]. Qed.

Lemma str_or_str s : str_or render (VStr s) "unknown" = shown s.
Proof. unfold str_or, shown. simpl. by destruct s. Qed.

Lemma replay_records_entries us : forall m n,
  replay_records inc_ok render true now ctx (map record_as_dict us) m n =
  (fold_left replay_entry (map (fun u => Entry (u_provider u, u_model u) 1 (u_prompt u) (u_completion u)) us) m,
   n + Z.of_nat (length us), true).
Proof.
  induction us as [|u us IH]; intros m n; [simpl; do 2 f_equal; lia|]. cbn [map replay_records record_as_dict fold_left].
  unfold replay_item, py_get. simpl. rewrite !int_or_zero_int, !str_or_str, IH. unfold replay_entry at 3. simpl. do 2 f_equal. lia.
Qed.

Lemma replay_tail_entries kbs : forall m n,
  replay_tail inc_ok render true now ctx (map bucket_as_dict kbs) m n =
  (fold_left replay_entry (map (fun kb => Entry kb.1 (k_calls kb.2) (k_prompt kb.2) (k_completion kb.2)) kbs) m,
   n + sum (fun kb => k_calls kb.2) kbs).
Proof.
  induction kbs as [|kb kbs IH]; intros m n; [simpl; f_equal; lia|]. cbn [map replay_tail bucket_as_dict fold_left]. rewrite sum_cons.
  unfold replay_item, py_get. simpl. rewrite !int_or_zero_int, !str_or_str, IH. unfold replay_entry at 3. simpl. f_equal. lia.
Qed.

Lemma py_list_or k (l : list pyval) d : dict_get k d = Some (VList l) -> items_of k d = Some l.
Proof. intros H. unfold items_of, py_get. rewrite H. by destruct l. Qed.

(** Replaying the dict of a ledger records its entries one by one. *)
Lemma replay_ledger l m :
  apply_deferred_llm_usage inc_ok render true now ctx (ledger_as_dict l) m =
  (fold_left replay_entry (entries l) m, sum n_calls (entries l)).
Proof.
  unfold apply_deferred_llm_usage, ledger_as_dict. rewrite (py_list_or "records" (map record_as_dict (records l))) by done.
  rewrite (py_list_or "tail" (map bucket_as_dict (tail l))) by done. rewrite replay_records_entries.
  rewrite replay_tail_entries. unfold entries. rewrite fold_left_app, sum_app, !sum_map. f_equal. simpl. f_equal.
  unfold sum. induction (records l) as [|u us IH]; simpl length in *; cbn [foldr]; lia.
Qed.

Context (k : string).
Hypothesis subject : or_str (g_run ctx) (g_unit ctx) = Some k.
Hypothesis subject_named : k <> "".

Lemma count_tokens_ok p md x y m : 0 <= x -> 0 <= y -> exists m', count_tokens inc_ok p md x y m = (m', true) /\
  mt_rm m' = mt_rm m /\ mt_attribution m' = mt_attribution m /\ mt_unit m' = mt_unit m /\
  forall c, total c (mt_tokens m') = total c (mt_tokens m) + (if decide ((p, md, "prompt") = c) then x else 0)
                                     + (if decide ((p, md, "completion") = c) then y else 0).
Proof.
  intros Hx Hy. unfold count_tokens. rewrite !inc_nonneg by done. eexists. split; [done|]. split_and!; try done.
  intros c. simpl. rewrite !total_bump. done.
Qed.

Lemma attribute_explicit p n m : 0 <= n ->
  let m' := attribute_usage now p n (given (g_user ctx)) (given (g_run ctx)) (given (g_unit ctx)) m in
  mt_tokens m' = mt_tokens m /\
  (forall k', unit_used k' (mt_rm m') = unit_used k' (mt_rm m) + if decide (k = k') then n else 0) /\
  (forall t, given (g_user ctx) = Some t -> forall t', get_tenant_tokens t' (mt_rm m') = get_tenant_tokens t' (mt_rm m) + if decide (t = t') then n else 0).
Proof.
  intros Hn. unfold attribute_usage. destruct (resolve_llm_subject _ _ _) as [[at_ ak] al].
  assert (is_given (given (g_user ctx)) || is_given (given (g_run ctx)) || is_given (given (g_unit ctx)) = true) as Hgiven.
  { unfold is_given, given. destruct (g_run ctx) as [[|]|], (g_unit ctx) as [[|]|], (g_user ctx) as [[|]|]; simpl in *; try done; congruence. }
  assert (given (or_str (given (g_run ctx)) (or_str (given (g_unit ctx)) ak)) = Some k) as Hk.
  { unfold given. destruct (g_run ctx) as [[|]|]; simpl in *; [|by injection subject as <-|];
      destruct (g_unit ctx) as [[|]|]; simpl in *; try done; try congruence; destruct k; congruence. }
  rewrite Hgiven. cbn zeta iota. rewrite Hk. split_and!; [done|..].
  - intros k'. simpl. destruct (given (or_str _ at_)); rewrite ?record_tenant_unit, record_tokens_used; done.
  - intros t Ht t'. rewrite Ht. assert (t <> "") as Hne.
    { destruct (g_user ctx) as [[|]|]; simpl in Ht; try done. by injection Ht as <-. }
    destruct t as [|ch t]; [done|]. simpl. rewrite record_tenant_used, record_tokens_tenant; done.
Qed.

(** What one replayed entry adds to a label of the counter. *)
Definition kind_weight (c : string * string * string) : weight :=
  Weight (fun key => bool_decide ((shown key.1, shown key.2) = c.1)) 0
    (if decide (c.2 = "prompt") then 1 else 0) (if decide (c.2 = "completion") then 1 else 0).
Definition all_tokens : weight := Weight (fun _ => true) 0 1 1.

Definition nonneg (e : entry) : Prop := 0 <= n_prompt e /\ 0 <= n_completion e.

Lemma replay_entry_effect e m : nonneg e ->
  (forall c, total c (mt_tokens (replay_entry m e)) = total c (mt_tokens m) + weigh (kind_weight c) e) /\
  (forall k', unit_used k' (mt_rm (replay_entry m e)) = unit_used k' (mt_rm m) + if decide (k = k') then weigh all_tokens e else 0) /\
  (forall t, given (g_user ctx) = Some t -> forall t',
     get_tenant_tokens t' (mt_rm (replay_entry m e)) = get_tenant_tokens t' (mt_rm m) + if decide (t = t') then weigh all_tokens e else 0).
Proof.
  intros [Hp Hc]. unfold replay_entry, record_llm_usage. destruct e as [[p md] n x y]. cbn [n_prompt n_completion n_key fst snd] in *.
  change (if decide (shown md = "") then "unknown" else shown md) with (shown (shown md)). rewrite shown_shown.
  destruct (count_tokens_ok (shown p) (shown md) x y m Hp Hc) as (m' & -> & Hrm & _ & _ & Ht).
  destruct (attribute_explicit (shown p) (x + y) m') as (Htok & Hu & Hten); [lia|].
  assert (weigh all_tokens (Entry (p, md) n x y) = x + y) as Hw by (unfold weigh; simpl; lia). split_and!.
  - intros [[cp cm] ck]. rewrite Htok, Ht. unfold weigh, kind_weight. cbn [w_on w_calls w_prompt w_completion n_key n_calls n_prompt n_completion fst snd].
    case_bool_decide as Heq; [injection Heq as <- <-|rewrite !decide_False by congruence; lia].
    destruct (decide (ck = "prompt")) as [->|]; [rewrite decide_True, decide_False by congruence; simpl; lia|].
    rewrite decide_False by congruence. destruct (decide (ck = "completion")) as [->|]; [rewrite decide_True by done|rewrite decide_False by congruence]; lia.
  - intros k'. by rewrite Hu, Hrm, Hw.
  - intros t Hu' t'. by rewrite (Hten t Hu'), Hrm, Hw.
Qed.

Lemma replay_entries_effect es : forall m, Forall nonneg es ->
  let m' := fold_left replay_entry es m in
  (forall c, total c (mt_tokens m') = total c (mt_tokens m) + sum (weigh (kind_weight c)) es) /\
  (forall k', unit_used k' (mt_rm m') = unit_used k' (mt_rm m) + if decide (k = k') then sum (weigh all_tokens) es else 0) /\
  (forall t, given (g_user ctx) = Some t -> forall t',
     get_tenant_tokens t' (mt_rm m') = get_tenant_tokens t' (mt_rm m) + if decide (t = t') then sum (weigh all_tokens) es else 0).
Proof.
  induction es as [|e es IH]; intros m Hf; cbn [fold_left].
  { split_and!; intros; rewrite ?sum_nil; try destruct (decide _); lia. }
  apply Forall_cons in Hf as [He Hes]. destruct (IH (replay_entry m e) Hes) as (I1 & I2 & I3).
  destruct (replay_entry_effect e m He) as (E1 & E2 & E3). split_and!.
  - intros c. rewrite I1, E1, sum_cons. lia.
  - intros k'. rewrite I2, E2, sum_cons. destruct (decide _); lia.
  - intros t Ht t'. rewrite (I3 t Ht), (E3 t Ht), sum_cons. destruct (decide _); lia.
Qed.

End Replayed.

Lemma append_nonneg u l : 0 <= u_prompt u -> 0 <= u_completion u -> Forall nonneg (entries l) -> Forall nonneg (entries (append u l)).
Proof.
  intros Hp Hc Hl. unfold entries in *. apply Forall_app in Hl as [Hr Ht]. unfold append. destruct (_ <? _); simpl.
  - rewrite map_app. apply Forall_app. split; [apply Forall_app; split; [done|]|done]. by repeat constructor.
  - apply Forall_app. split; [done|]. apply Forall_fmap. pose proof (proj1 (Forall_fmap _ _ _) Ht) as Ht'. clear Ht. rename Ht' into Ht. apply Forall_forall.
    intros kb Hkb. rewrite Forall_forall in Ht. apply dict_elem_set in Hkb as [-> |Hkb]; [|exact (Ht _ Hkb)].
    destruct (dict_get (u_provider u, u_model u) (tail l)) as [b|] eqn:Hg; simpl; unfold nonneg; simpl; [|lia].
    apply dict_get_elem, Ht in Hg as [Hg1 Hg2]. simpl in *. lia.
Qed.

Lemma deferral_nonneg metrics calls : Forall nonneg (omap observed calls) -> forall l m, mt_ledger m = Some l -> Forall nonneg (entries l) ->
  exists l', mt_ledger (fold_left (fun m o => observe_llm_usage inc_ok metrics o m) calls m) = Some l' /\ Forall nonneg (entries l').
Proof.
  induction calls as [|o calls IH]; intros Hf l m Hm Hl; [by exists l|]. cbn [fold_left]. unfold observe_llm_usage at 2. rewrite Hm.
  revert Hf. csimpl. unfold observed at 1. destruct (extract_token_usage (ob_response o)) as [usage|]; csimpl; intros Hf.
  - apply Forall_cons in Hf as [[Hp Hc] Hf]. eapply IH; [done..|]. by apply append_nonneg.
  - eapply IH; done.
Qed.
End Conservation.

(** In a deferral scope nothing but the ledger changes. *)
Lemma deferral_silent inc_ok metrics calls : forall l m, mt_ledger m = Some l ->
  let m' := fold_left (fun m o => observe_llm_usage inc_ok metrics o m) calls m in
  mt_rm m' = mt_rm m /\ mt_tokens m' = mt_tokens m /\ mt_unreadable m' = mt_unreadable m /\ mt_calls m' = mt_calls m /\
  mt_attribution m' = mt_attribution m /\ mt_unit m' = mt_unit m.
Proof.
  induction calls as [|o calls IH]; intros l m Hm; [done|]. cbn [fold_left].
  assert (exists l', observe_llm_usage inc_ok metrics o m = set_ledger (Some l') m) as [l' ->]
    by (unfold observe_llm_usage; rewrite Hm; eauto).
  by apply (IH l' (set_ledger (Some l') m)).
Qed.

Definition tokens_of (e : entry) : Z := n_prompt e + n_completion e.

Lemma sum_ext {A} (f g : A -> Z) l : (forall x, f x = g x) -> sum f l = sum g l.
Proof. intros H. unfold sum. induction l as [|x l IH]; simpl; [done|]. by rewrite IH, H. Qed.

Lemma sum_ones {A} (f : A -> Z) l : Forall (fun x => f x = 1) l -> sum f l = Z.of_nat (length l).
Proof. induction 1 as [|x l Hx _ IH]; [done|]. rewrite sum_cons, Hx, IH. simpl length. lia. Qed.

(** What a guest spends is charged once, in the parent, whatever the bound of the
    ledger: replaying the reply of a worker adds exactly the tokens of the readable
    answers to the run (or unit) and the tenant of the execution, and to the counter
    of each provider, model and kind; it reports as many calls as were readable, the
    ledger counts the others and keeps at most its maximum of records, and nothing
    was charged in the worker. *)
Lemma guest_usage_conserved inc_ok render now ctx k max calls w p p' n :
  (forall x, 0 <= x -> inc_ok x = true) -> or_str (g_run ctx) (g_unit ctx) = Some k -> k <> "" ->
  Forall nonneg (omap observed calls) ->
  let l := llm_usage_deferral_scope inc_ok true max calls w in
  apply_deferred_llm_usage inc_ok render true now ctx (ledger_as_dict l) p = (p', n) ->
  let seen := omap observed calls in
  n = Z.of_nat (length seen) /\ dropped_unreadable l = Z.of_nat (length calls) - Z.of_nat (length seen) /\
  Z.of_nat (length (records l)) <= Z.max 0 max /\
  (forall c, total c (mt_tokens p') = total c (mt_tokens p) + sum (weigh (kind_weight c)) seen) /\
  (forall u, unit_used u (mt_rm p') = unit_used u (mt_rm p) + if decide (k = u) then sum tokens_of seen else 0) /\
  (forall t u, given (g_user ctx) = Some t ->
     get_tenant_tokens u (mt_rm p') = get_tenant_tokens u (mt_rm p) + if decide (t = u) then sum tokens_of seen else 0) /\
  (let w' := fold_left (fun m o => observe_llm_usage inc_ok true o m) calls (set_ledger (Some (new_ledger max)) w) in
   mt_rm w' = mt_rm w /\ mt_tokens w' = mt_tokens w).
Proof.
  intros Hinc Hk Hne Hseen l Happ seen. set (m0 := set_ledger (Some (new_ledger max)) w).
  destruct (deferral_ledger inc_ok true calls (new_ledger max) m0 eq_refl) as (l1 & Hl1 & Hmax & Hw & Hd & Hb).
  destruct (deferral_nonneg inc_ok true calls Hseen (new_ledger max) m0 eq_refl) as (l2 & Hl2 & Hnn); [done|].
  assert (l2 = l1) as -> by congruence. assert (l = l1) as Hl by (unfold l, llm_usage_deferral_scope; fold m0; by rewrite Hl1).
  rewrite Hl, replay_ledger in Happ. injection Happ as <- <-. rewrite Hl.
  destruct (replay_entries_effect inc_ok Hinc now ctx k Hk Hne (entries l1) p Hnn) as (R1 & R2 & R3).
  assert (forall f wt, (forall e, f e = weigh wt e) -> sum f (entries l1) = sum f seen) as Hsum.
  { intros f wt Hf. rewrite !(sum_ext f (weigh wt)) by done. rewrite Hw, new_weight. done. }
  assert (forall e, weigh all_tokens e = tokens_of e) as Hall by (intros e; unfold weigh, tokens_of; simpl; lia).
  assert (sum (weigh all_tokens) (entries l1) = sum tokens_of seen) as Htok.
  { rewrite (Hsum _ all_tokens) by done. by apply sum_ext. }
  pose proof (length_omap_le observed calls) as Hlen. split_and!.
  - rewrite (Hsum n_calls (Weight (fun _ => true) 1 0 0)); [|intros e; unfold weigh; simpl; lia]. apply sum_ones.
    apply Forall_forall. intros e He. apply list_elem_of_omap in He as (o & _ & Ho). unfold observed in Ho.
    destruct (extract_token_usage _); [by injection Ho as <-|done].
  - rewrite Hd. simpl. unfold seen. lia.
  - apply Hb. simpl. lia.
  - intros c. rewrite R1. by rewrite (Hsum _ (kind_weight c)).
  - intros u. by rewrite R2, Htok.
  - intros t u Ht. by rewrite (R3 t Ht), Htok.
  - destruct (deferral_silent inc_ok true calls (new_ledger max) m0 eq_refl) as (S1 & S2 & _). split; [exact S1|exact S2].
Qed.

Module ToyMeter.
Definition answer (i o : Z) : response := Some [("input_tokens", VInt i); ("output_tokens", VInt o)].
Definition call (model : string) (r : response) : observation := Obs "anthropic" model r 0 5 1000.
Definition calls : list observation :=
  [call "m1" (answer 10 3); call "m2" (answer 7 1); call "m1" (answer 20 2); call "m2" None; call "m1" (answer 1 1)].
Definition idle : meter := Meter None None (None, None) None empty_rm [] [] [].
Definition ctx : guest_context := Guest (Some "run1") (Some "eu1") (Some "u1").
Definition ledger : LlmUsageLedger := llm_usage_deferral_scope (fun n => 0 <=? n) true 1 calls idle.
Definition replayed : meter * Z := apply_deferred_llm_usage (fun n => 0 <=? n) (fun _ => "") true 9 ctx (ledger_as_dict ledger) idle.
End ToyMeter.

Lemma guest_usage_witness :
  ToyMeter.replayed.2 = 4 /\ unit_used "run1" (mt_rm ToyMeter.replayed.1) = 45 /\
  total ("anthropic", "m1", "prompt") (mt_tokens ToyMeter.replayed.1) = 31 /\ length (records ToyMeter.ledger) = 1%nat.
Proof.
  destruct (guest_usage_conserved (fun n => 0 <=? n) (fun _ => "") 9 ToyMeter.ctx "run1" 1 ToyMeter.calls ToyMeter.idle ToyMeter.idle
    ToyMeter.replayed.1 ToyMeter.replayed.2) as (Hn & _ & _ & Hc & Hu & _).
  - intros x Hx. by apply Z.leb_le.
  - done.
  - done.
  - repeat constructor; done.
  - vm_compute. reflexivity.
  - split; [rewrite Hn; reflexivity|]. split; [rewrite (Hu "run1"); reflexivity|].
    split; [rewrite Hc; reflexivity|vm_compute; reflexivity].
Defined.
