(* ===== verification/LlmCalls.v ===== *)
(** * Calls to language models

    platform_layer/llm_budget.py and llm_client.py: a metered call reserves its
    estimate against the budgets of its subject, passes the provider's circuit
    breaker, and is metered; a chain of providers fails over on errors.

    A provider is what one call of it does: how it ends and the answers its
    client observed on the way ([attempt]). The resource manager and the counters
    are those of the meter of the process; the availability of the budget store is
    part of the environment of a call. *)

From Stdlib Require Import Ascii.
From S2P Require Import Prelude PyStr PyVal CircuitBreaker ResourceManager TokenMeter.

Local Open Scope string_scope.
Local Open Scope Z_scope.
Local Open Scope list_scope.

(** ** Errors *)

(** [LLMBudgetExceededError] (a budget that is full, or a store that cannot say),
    [LLMCircuitOpenError] and [LLMCallError] are errors of the seam; a failure
    to find the subject in production propagates as it is, and so does a
    [BaseException] of the provider. *)
Inductive llm_error :=
| BudgetExceeded (scope subject : string) (used reserved cap : Z)
| BudgetStoreDown (subject : string) (reserved cap : Z)
| LLMCircuitOpen
| LLMCallFailed
| SubjectLookupFailed
| CallCancelled.

(** [isinstance(exc, LLMCallError)] *)
Definition is_call_error (e : llm_error) : bool :=
  match e with SubjectLookupFailed | CallCancelled => false | _ => true end.
Definition is_budget_refusal (e : llm_error) : bool :=
  match e with BudgetExceeded _ _ _ _ _ | BudgetStoreDown _ _ _ => true | _ => false end.

(** An exception with its [__cause__] and [__context__]. *)
Inductive exc (E : Type) := Exc (e : E) (cause context : option (exc E)).
Arguments Exc {E} e cause context.

Fixpoint find_budget_refusal {E} (is_refusal : E -> bool) (depth : nat) (x : option (exc E)) : option E :=
  match depth, x with
  | S depth, Some (Exc e cause context) =>
      if is_refusal e then Some e
      else find_budget_refusal is_refusal depth (match cause with Some _ => cause | None => context end)
  | _, _ => None
  end.

(** ** The estimate *)

Definition DEFAULT_RESERVE_TOKENS : Z := 2048.
Definition CHARS_PER_TOKEN : Z := 4.

(** [default_reserve] is the value of AINDY_LLM_BUDGET_DEFAULT_RESERVE, 2048 when it
    is not set; [text_length] is the length of the arguments as JSON, [None] when they cannot be
    encoded. *)
Definition estimate_reservation (default_reserve : Z) (max_tokens : pyval) (text_length : option Z) : Z :=
  let completion :=
    if py_truth max_tokens
    then default default_reserve
           (match max_tokens with VStr s => int_of_string s | v => int_of_number v end)
    else default_reserve in
  let prompt := match text_length with Some n => n / CHARS_PER_TOKEN | None => 0 end in
  Z.max 1 (completion + prompt).

(** ** The reservation *)

Record budget_env := BudgetEnv {
  be_cfg : config;
  be_tenant_cap : Z;
  be_now : Z;
  be_fail_open : bool;       (* development or test *)
  be_lookup_up : bool;       (* subject and ceiling can be read *)
  be_unit_store : bool;
  be_tenant_store : bool }.

Record held := Held { h_unit : option string; h_tenant : option string }.

Definition release (e : budget_env) (reserve : Z) (h : held) (r : rm) : rm :=
  let r := match h_unit h with Some k => release_tokens k reserve r | None => r end in
  match h_tenant h with Some t => release_tenant_tokens (be_now e) t reserve r | None => r end.

(** The reservation of the tenant's window, after the unit's: what is held, and the
    error if the call is refused. *)
Definition reserve_window (e : budget_env) (tenant key : option string) (reserve exec_cap : Z) (unit : option string) (r : rm)
    : rm * held * option llm_error :=
  match given tenant with
  | Some t =>
      if 0 <? be_tenant_cap e then
        if be_tenant_store e then
          let '(r, ok) := reserve_tenant_tokens (be_now e) t reserve (be_tenant_cap e) r in
          if ok then (r, Held unit (Some t), None)
          else (r, Held unit None, Some (BudgetExceeded "tenant" t (get_tenant_tokens t r) reserve (be_tenant_cap e)))
        else if be_fail_open e then (r, Held unit None, None)
        else (r, Held unit None, Some (BudgetStoreDown (default "" (or_str key tenant)) reserve
                                         (if exec_cap =? 0 then be_tenant_cap e else exec_cap)))
      else (r, Held unit None, None)
  | None => (r, Held unit None, None)
  end.

Definition reserve_budgets (e : budget_env) (tenant key : option string) (reserve exec_cap : Z) (r : rm)
    : rm * held * option llm_error :=
  match given key with
  | Some k =>
      if 0 <? exec_cap then
        if be_unit_store e then
          let '(r, ok) := reserve_tokens (be_now e) k (default "" tenant) reserve exec_cap r in
          if ok then reserve_window e tenant key reserve exec_cap (Some k) r
          else (r, Held None None, Some (BudgetExceeded "execution" k (default 0 (tokens <$> dict_get k (usage r))) reserve exec_cap))
        else if be_fail_open e then (r, Held None None, None)
        else (r, Held None None, Some (BudgetStoreDown k reserve exec_cap))
      else reserve_window e tenant key reserve exec_cap None r
  | None => reserve_window e tenant key reserve exec_cap None r
  end.

(** The ceiling of the execution that is charged. *)
Definition execution_cap (e : budget_env) (key : option string) (r : rm) : rm * Z :=
  match given key with Some k => effective_limit (be_cfg e) k "tokens" r | None => (r, 0) end.

(** [llm_budget_reservation] up to its [yield]; a refusal has already released what
    was held. *)
Definition enter_reservation (e : budget_env) (a : attribution) (bound : option string) (reserve : Z) (r : rm)
    : rm * (llm_error + held) :=
  if be_lookup_up e then
    let '(tenant, key, _) := resolve_llm_subject a bound r in
    let '(r, exec_cap) := execution_cap e key r in
    if (exec_cap <=? 0) && (be_tenant_cap e <=? 0) then (r, inr (Held None None))
    else if negb (is_given tenant) && negb (is_given key) then (r, inr (Held None None))
    else match reserve_budgets e tenant key reserve exec_cap r with
         | (r, h, Some err) => (release e reserve h r, inl err)
         | (r, h, None) => (r, inr h)
         end
  else if be_fail_open e then (r, inr (Held None None)) else (r, inl SubjectLookupFailed).

(** ** One provider *)

(** What a call of a provider does: how it ends, the answers its client observed,
    and the clock before and after. *)
Record attempt := Attempt { at_outcome : fn_outcome string; at_seen : list observation; at_start : Z; at_end : Z }.

Record llm_world := LlmWorld { lw_meter : meter; lw_breakers : list (string * breaker) }.

Definition METERED_METHODS : list string := ["chat"; "messages_create"; "chat_completion_response"].

Definition failure_threshold : Z := 5.
Definition recovery_timeout_secs : Z := 60.
Definition breaker_of (p : string) (bs : list (string * breaker)) : breaker :=
  default (init_breaker failure_threshold recovery_timeout_secs) (dict_get p bs).

Section Client.
Context (inc_ok : Z -> bool) (metrics : bool).

Definition observe_all (l : list observation) (m : meter) : meter :=
  fold_left (fun m o => observe_llm_usage inc_ok metrics o m) l m.

(** Returns also whether the provider was called. *)
Definition guarded_call (p : string) (a : attempt) (w : llm_world) : llm_world * bool * (llm_error + string) :=
  let '(out, called, b) := CircuitBreaker.call (breaker_of p (lw_breakers w)) (at_outcome a) (at_start a) (at_end a) in
  let m := if called then observe_all (at_seen a) (lw_meter w) else lw_meter w in
  (LlmWorld m (dict_set p b (lw_breakers w)), called,
   match out with
   | Ok v => inr v
   | Err Rejected => inl LLMCircuitOpen
   | Err FnRaised => inl LLMCallFailed
   | Err FnCancelled => inl CallCancelled
   end).

Definition call_with_breaker (e : budget_env) (reserve : Z) (method p : string) (a : attempt) (w : llm_world)
    : llm_world * bool * (llm_error + string) :=
  if decide (method ∈ METERED_METHODS) then
    let m := lw_meter w in
    match enter_reservation e (mt_attribution m) (mt_unit m) reserve (mt_rm m) with
    | (r, inl err) => (LlmWorld (set_rm r m) (lw_breakers w), false, inl err)
    | (r, inr h) =>
        let '(w, called, out) := guarded_call p a (LlmWorld (set_rm r m) (lw_breakers w)) in
        (LlmWorld (set_rm (release e reserve h (mt_rm (lw_meter w))) (lw_meter w)) (lw_breakers w), called, out)
    end
  else guarded_call p a w.

(** ** The chain *)

(** [FallbackLLMClient._try_chain]; the providers called, in order. *)
Fixpoint try_chain (e : budget_env) (reserve : Z) (method : string) (chain : list (string * attempt)) (last : llm_error) (w : llm_world)
    : llm_world * list string * (llm_error + string) :=
  match chain with
  | [] => (w, [], inl last)
  | (p, a) :: chain =>
      let '(w, called, out) := call_with_breaker e reserve method p a w in
      let mine := if called then [p] else [] in
      match out with
      | inr v => (w, mine, inr v)
      | inl err =>
          if is_call_error err
          then let '(w, rest, out) := try_chain e reserve method chain err w in (w, mine ++ rest, out)
          else (w, mine, inl err)
      end
  end.
End Client.

(** ** Which providers *)

Definition provider_name (s : string) : string := str_lower (str_strip s).

(** The names of the factories are the keys of [factories]. *)
Fixpoint known_once {F} (factories : list (string * F)) (seen : list string) (raw : list string) : list string :=
  match raw with
  | [] => []
  | entry :: raw =>
      let name := provider_name entry in
      if bool_decide (name <> "") && dict_mem name factories && bool_decide (name ∉ seen)
      then name :: known_once factories (name :: seen) raw
      else known_once factories seen raw
  end.

Definition resolve_provider_chain {F} (factories : list (string * F)) (primary fallbacks : string) (providers : list string) : list string :=
  let raw := match providers with
             | [] => (if decide (primary = "") then "openai" else primary) :: split_char "," fallbacks
             | _ => providers
             end in
  match known_once factories [] raw with [] => ["openai"] | chain => chain end.

Definition register_llm_provider {F} (name : string) (f : F) (factories : list (string * F)) : list (string * F) :=
  dict_set (provider_name name) f factories.

(** A factory that cannot build its client raises. *)
Definition get_llm_client {C} (factories : list (string * option C)) (provider : string) : option C :=
  match dict_get (provider_name (if decide (provider = "") then "openai" else provider)) factories with
  | Some (Some c) => Some c
  | _ => None
  end.

(** The clients of the chain that can be built; without any, the default's alone
    ([None]: building it raises). *)
Definition get_llm_client_chain {C} (factories : list (string * option C)) (primary fallbacks : string) (providers : list string)
    : option (list C) :=
  match omap (get_llm_client factories) (resolve_provider_chain factories primary fallbacks providers) with
  | [] => (fun c => [c]) <$> get_llm_client factories "openai"
  | clients => Some clients
  end.

(** ** The subject of a call does not change while it runs *)

Lemma resolve_usage a bound r r' : usage r' = usage r -> resolve_llm_subject a bound r' = resolve_llm_subject a bound r.
Proof. intros H. unfold resolve_llm_subject, snapshot_tenant. by rewrite H. Qed.

(** Writing the snapshot of the unit that is charged, made for the tenant that is
    charged if there was none. *)
Lemma resolve_put a bound r tenant key label k s now : resolve_llm_subject a bound r = (tenant, key, label) ->
  given key = Some k -> su_tenant s = su_tenant (snapshot_or_new k (default "" tenant) now r) ->
  resolve_llm_subject a bound (put_snapshot k s r) = resolve_llm_subject a bound r.
Proof.
  intros Hres Hk Hs. unfold resolve_llm_subject in *. destruct a as [ten run].
  destruct (given ten) as [t|] eqn:Ht; [done|]. destruct (given bound) as [u|] eqn:Hu; [|done].
  assert (snapshot_tenant u (put_snapshot k s r) = snapshot_tenant u r) as ->; [|done].
  unfold snapshot_tenant, put_snapshot. simpl. destruct (decide (k = u)) as [->|]; [|by rewrite dict_get_set_ne].
  rewrite dict_get_set_eq. simpl. rewrite Hs. unfold snapshot_or_new.
  destruct (dict_get u (usage r)) as [s0|] eqn:Hg; [done|]. injection Hres as <- _ _. unfold snapshot_tenant. by rewrite Hg.
Qed.

Lemma resolve_record a bound r tenant key label k n now : resolve_llm_subject a bound r = (tenant, key, label) ->
  given key = Some k -> resolve_llm_subject a bound (record_tokens now k n (default "" tenant) r) = resolve_llm_subject a bound r.
Proof.
  intros Hres Hk. unfold record_tokens. destruct (n <=? 0); [done|].
  rewrite (resolve_usage _ _ (put_snapshot _ _ _)) by (unfold backend_add_tokens; by destruct (backend_up _)).
  by eapply resolve_put.
Qed.

Lemma record_tenant_usage now t n r : usage (record_tenant_tokens now t n r) = usage r.
Proof.
  unfold record_tenant_tokens. destruct (_ || _); [done|]. unfold backend_add_tenant_tokens, add_window.
  destruct (tenant_window now t r). simpl. by destruct (backend_up r).
Qed.

Lemma resolve_reserve a bound r tenant key label k d cap now : resolve_llm_subject a bound r = (tenant, key, label) ->
  given key = Some k -> resolve_llm_subject a bound (reserve_tokens now k (default "" tenant) d cap r).1 = resolve_llm_subject a bound r.
Proof.
  intros Hres Hk. unfold reserve_tokens. destruct (_ || _); [done|]. unfold backend_add_tokens. destruct (backend_up r) eqn:Hb; simpl.
  - set (r1 := set_shared _ r). assert (resolve_llm_subject a bound r1 = resolve_llm_subject a bound r) as H1 by (by apply resolve_usage).
    destruct (cap <? _); simpl; [rewrite Hb; by apply resolve_usage|].
    rewrite (resolve_put a bound r1 tenant key label k _ now); [done|congruence|done|done].
  - destruct (cap <? _); simpl; by eapply resolve_put.
Qed.

Lemma reserve_tenant_usage now t d cap r : usage (reserve_tenant_tokens now t d cap r).1 = usage r.
Proof.
  unfold reserve_tenant_tokens. destruct (_ || _); [done|]. unfold backend_add_tenant_tokens, add_window.
  destruct (backend_up r) eqn:Hb; simpl; destruct (cap <? _); simpl; rewrite ?Hb; simpl; try done.
  - by destruct (tenant_window now t _).
  - by destruct (tenant_window now t r).
Qed.

Lemma execution_cap_same e key r : let r' := (execution_cap e key r).1 in
  (forall k, unit_used k r' = unit_used k r) /\ (forall t, get_tenant_tokens t r' = get_tenant_tokens t r) /\
  backend_up r' = backend_up r /\ forall a bound, resolve_llm_subject a bound r' = resolve_llm_subject a bound r.
Proof.
  unfold execution_cap. destruct (given key) as [k|]; [|done]. unfold effective_limit. destruct (decide (k = "")); [done|].
  assert (forall r', (declared_limits k r).1 = r' -> (forall k', unit_used k' r' = unit_used k' r) /\
    (forall t, get_tenant_tokens t r' = get_tenant_tokens t r) /\ backend_up r' = backend_up r /\
    forall a bound, resolve_llm_subject a bound r' = resolve_llm_subject a bound r) as H.
  2: { destruct (declared_limits k r) as [r' l]. by apply H. }
  intros r' <-. unfold declared_limits. destruct (dict_get k (usage r)) as [s|] eqn:Hg; simpl.
  2: { by destruct (if backend_up r then _ else _). }
  destruct s as [tid wall mem sys tok [|x l] created]; [|done]. destruct (if backend_up r then _ else _) as [|y l']; [done|]. simpl.
  split_and!; [|done..|].
  - intros k'. rewrite put_used. unfold unit_used. destruct (backend_up r); [done|].
    destruct (decide (k = k')) as [<-|]; [by rewrite Hg|done].
  - intros [ten run] bound. unfold resolve_llm_subject, snapshot_tenant, put_snapshot. simpl.
    destruct (given ten); [done|]. destruct (given bound) as [u|]; [|done].
    destruct (decide (k = u)) as [<-|]; [by rewrite dict_get_set_eq, Hg|by rewrite dict_get_set_ne].
Qed.

(** ** What an operation adds to the counters *)

(** From [r] to [r'], the counter of every unit and of every tenant moved by this much. *)
Definition shifts (r r' : rm) (du dt : string -> Z) : Prop :=
  backend_up r' = backend_up r /\ (forall k, unit_used k r' = unit_used k r + du k) /\
  (forall t, get_tenant_tokens t r' = get_tenant_tokens t r + dt t).

(** [n] for one name, if any, and nothing for the others. *)
Definition at_name (o : option string) (n : Z) (k : string) : Z := if decide (o = Some k) then n else 0.

Lemma at_name_None n k : at_name None n k = 0.
Proof. unfold at_name. by rewrite decide_False. Qed.

Lemma at_name_add o n n' k : at_name o n k + at_name o n' k = at_name o (n + n') k.
Proof. unfold at_name. destruct (decide _); lia. Qed.

Lemma at_name_zero o k : at_name o 0 k = 0.
Proof. unfold at_name. by destruct (decide _). Qed.

Lemma shifts_refl r : shifts r r (fun _ => 0) (fun _ => 0).
Proof. split_and!; [done|intros; lia..]. Qed.

Lemma shifts_trans r1 r2 r3 du dt du' dt' : shifts r1 r2 du dt -> shifts r2 r3 du' dt' ->
  shifts r1 r3 (fun k => du k + du' k) (fun t => dt t + dt' t).
Proof.
  intros (B & U & T) (B' & U' & T'). split_and!; [congruence| |]; intros x.
  - rewrite U', U. lia.
  - rewrite T', T. lia.
Qed.

Lemma shifts_ext r r' du dt du' dt' : (forall k, du k = du' k) -> (forall t, dt t = dt' t) -> shifts r r' du dt -> shifts r r' du' dt'.
Proof. intros Hu Ht (B & U & T). split_and!; [done| |]; intros x; [by rewrite U, Hu|by rewrite T, Ht]. Qed.

Lemma backend_add_tenant_same k n r : let r' := (backend_add_tokens k n r).1 in
  backend_up r' = backend_up r /\ forall t, get_tenant_tokens t r' = get_tenant_tokens t r.
Proof. unfold backend_add_tokens, get_tenant_tokens. by destruct (backend_up r) eqn:Hb; simpl; rewrite ?Hb. Qed.

Lemma reserve_tokens_shifts now k tid d cap r r' ok : 0 < d -> 0 < cap -> reserve_tokens now k tid d cap r = (r', ok) ->
  shifts r r' (at_name (if ok then Some k else None) d) (fun _ => 0) /\ (ok = true -> unit_used k r + d <= cap).
Proof.
  intros Hd Hc. unfold reserve_tokens. rewrite (proj2 (Z.leb_gt cap 0)), (proj2 (Z.leb_gt d 0)) by done. cbn [orb].
  destruct (backend_up r) eqn:Hb.
  - unfold backend_add_tokens. rewrite Hb. cbn iota zeta. set (v := counter k (b_tokens (shared r)) + d).
    set (r1 := set_shared _ r). assert (backend_up r1 = true) as Hb1 by done.
    assert (forall k', unit_used k' r1 = unit_used k' r + at_name (Some k) d k') as Hu1.
    { intros k'. unfold unit_used, at_name, r1. simpl. rewrite Hb, counter_dict_set.
      destruct (decide (k = k')) as [->|]; [by rewrite decide_True|rewrite decide_False by congruence; lia]. }
    destruct (Z.ltb_spec cap v); intros [= <- <-].
    + split; [|done]. simpl. rewrite Hb. simpl. split_and!; [by rewrite ?Hb|..].
      * intros k'. rewrite at_name_None. unfold unit_used. simpl. rewrite Hb, !counter_dict_set.
        destruct (decide (k = k')) as [->|]; [|lia]. rewrite decide_True by done. unfold v. lia.
      * intros t. unfold get_tenant_tokens. simpl. rewrite Hb. lia.
    + split; [|intros _; unfold unit_used; rewrite Hb; unfold v in *; lia]. split_and!; [by rewrite Hb|..].
      * intros k'. rewrite put_used, Hb1. apply Hu1.
      * intros t. unfold get_tenant_tokens. simpl. rewrite Hb. lia.
  - unfold backend_add_tokens. rewrite Hb. cbn iota zeta. rewrite (snapshot_tokens k tid now r Hb).
    destruct (Z.ltb_spec cap (unit_used k r + d)); intros [= <- <-].
    + split; [|done]. split_and!; [done| |intros t; unfold get_tenant_tokens; simpl; rewrite Hb; lia].
      intros k'. rewrite put_used, Hb, at_name_None. destruct (decide (k = k')) as [<-|]; [rewrite (snapshot_tokens k tid now r Hb)|]; lia.
    + split; [|done]. split_and!; [done| |intros t; unfold get_tenant_tokens; simpl; rewrite Hb; lia].
      intros k'. rewrite put_used, Hb. simpl. unfold at_name. destruct (decide (k = k')) as [<-|]; [by rewrite decide_True|].
      rewrite decide_False by congruence. lia.
Qed.

Lemma reserve_tenant_shifts now t d cap r r' ok : 0 < d -> 0 < cap -> t <> "" -> reserve_tenant_tokens now t d cap r = (r', ok) ->
  shifts r r' (fun _ => 0) (at_name (if ok then Some t else None) d) /\ (ok = true -> get_tenant_tokens t r + d <= cap).
Proof.
  intros Hd Hc Ht. unfold reserve_tenant_tokens.
  rewrite (proj2 (Z.leb_gt cap 0)), (proj2 (Z.leb_gt d 0)), bool_decide_eq_false_2 by done. cbn [orb].
  unfold backend_add_tenant_tokens. destruct (backend_up r) eqn:Hb; cbn iota zeta.
  - set (v := counter t (b_tenant_tokens (shared r)) + d). destruct (Z.ltb_spec cap v).
    + simpl. rewrite Hb. intros [= <- <-]. split; [|done]. split_and!; [simpl; by rewrite ?Hb|..]; intros x.
      * unfold unit_used. simpl. rewrite Hb. lia.
      * rewrite at_name_None. unfold get_tenant_tokens. simpl. rewrite Hb, !counter_dict_set.
        destruct (decide (t = x)) as [<-|]; [rewrite decide_True by done; unfold v|]; lia.
    + unfold add_window. simpl. destruct (tenant_window now t _) as [c s]. intros [= <- <-].
      split; [|intros _; unfold get_tenant_tokens; rewrite Hb; unfold v in *; lia].
      split_and!; [simpl; by rewrite ?Hb|..]; intros x.
      * unfold unit_used. simpl. rewrite Hb. lia.
      * unfold get_tenant_tokens, at_name. simpl. rewrite Hb, counter_dict_set.
        destruct (decide (t = x)) as [<-|]; [by rewrite decide_True|rewrite decide_False by congruence; lia].
  - assert (forall x, get_tenant_tokens x r = (tenant_window now x r).1) as Hw.
    { intros x. unfold get_tenant_tokens, tenant_window. rewrite Hb. by destruct (dict_get x (tenant_tokens r)). }
    destruct (Z.ltb_spec cap ((tenant_window now t r).1 + d)).
    + intros [= <- <-]. split; [|done]. eapply shifts_ext; [| |apply shifts_refl]; intros x; by rewrite ?at_name_None.
    + unfold add_window. destruct (tenant_window now t r) as [c s] eqn:Hts. intros [= <- <-].
      split; [|intros _; rewrite Hw, Hts; simpl in *; lia]. split_and!; [done|..]; intros x.
      * unfold unit_used. simpl. rewrite Hb. lia.
      * unfold get_tenant_tokens at 1, at_name. simpl. rewrite Hb. destruct (decide (t = x)) as [<-|].
        { rewrite dict_get_set_eq, decide_True, Hw, Hts by done. done. }
        rewrite dict_get_set_ne, decide_False by congruence. unfold get_tenant_tokens. rewrite Hb. lia.
Qed.

Lemma release_tokens_shifts k d r : 0 < d -> d <= unit_used k r -> shifts r (release_tokens k d r) (at_name (Some k) (- d)) (fun _ => 0).
Proof.
  intros Hd Hu. unfold release_tokens. rewrite (proj2 (Z.leb_gt d 0)) by done. set (r1 := match _ with Some _ => _ | None => _ end).
  assert (backend_up r1 = backend_up r /\ (forall t, get_tenant_tokens t r1 = get_tenant_tokens t r) /\
          forall k', unit_used k' r1 = if backend_up r then unit_used k' r else unit_used k' r + at_name (Some k) (- d) k') as (B & T & U).
  { unfold r1. destruct (dict_get k (usage r)) as [s|] eqn:Hg; (split; [done|]; split; [done|]); intros k'.
    - rewrite put_used. destruct (backend_up r) eqn:Hb; [done|]. unfold unit_used in Hu. rewrite Hb, Hg in Hu. simpl in Hu.
      unfold at_name. simpl. destruct (decide (k = k')) as [<-|]; [rewrite decide_True by done|rewrite decide_False by congruence; lia].
      unfold unit_used. rewrite Hb, Hg. simpl. lia.
    - destruct (backend_up r) eqn:Hb; [done|]. unfold unit_used in Hu. rewrite Hb, Hg in Hu. simpl in Hu. lia. }
  destruct (backend_add_tenant_same k (- d) r1) as [B1 T1]. split_and!; [congruence| |intros t; rewrite T1, T; lia].
  intros k'. rewrite backend_add_used, U, B. destruct (backend_up r); cbn [andb]; [|lia]. unfold at_name.
  case_bool_decide; [rewrite decide_True by congruence|rewrite decide_False by congruence]; lia.
Qed.

Lemma release_tenant_shifts now t d r : 0 < d -> t <> "" -> d <= get_tenant_tokens t r ->
  shifts r (release_tenant_tokens now t d r) (fun _ => 0) (at_name (Some t) (- d)).
Proof.
  intros Hd Ht Hu. unfold release_tenant_tokens. rewrite (proj2 (Z.leb_gt d 0)), bool_decide_eq_false_2 by done. cbn [orb].
  assert (backend_up r = false -> (tenant_window now t r).1 = get_tenant_tokens t r) as Hw.
  { intros Hb. unfold get_tenant_tokens, tenant_window. rewrite Hb. by destruct (dict_get t (tenant_tokens r)). }
  destruct (tenant_window now t r) as [c s]. unfold backend_add_tenant_tokens. simpl in *.
  destruct (backend_up r) eqn:Hb; split_and!; simpl; rewrite ?Hb; try done; intros x; unfold unit_used, get_tenant_tokens, at_name; simpl; rewrite ?Hb; try lia.
  - rewrite counter_dict_set. destruct (decide (t = x)) as [<-|]; [by rewrite decide_True|rewrite decide_False by congruence; lia].
  - destruct (decide (t = x)) as [<-|].
    + rewrite dict_get_set_eq, decide_True by done. simpl. specialize (Hw eq_refl). unfold get_tenant_tokens in *. rewrite Hb in *. lia.
    + rewrite dict_get_set_ne, decide_False by congruence. lia.
Qed.

Lemma release_shifts e d h r : 0 < d -> (forall k, h_unit h = Some k -> d <= unit_used k r) ->
  (forall t, h_tenant h = Some t -> t <> "" /\ d <= get_tenant_tokens t r) ->
  shifts r (release e d h r) (at_name (h_unit h) (- d)) (at_name (h_tenant h) (- d)).
Proof.
  intros Hd Hu Ht. unfold release. destruct h as [[k|] [t|]]; simpl in *.
  - destruct (Ht t eq_refl) as [Hne Hle]. pose proof (release_tokens_shifts k d r Hd (Hu k eq_refl)) as H1.
    eapply shifts_ext; [| |eapply shifts_trans; [exact H1|apply release_tenant_shifts; [done..|]]]; try (intros; simpl; lia).
    destruct H1 as (_ & _ & T). rewrite T. lia.
  - eapply shifts_ext; [| |apply release_tokens_shifts; auto]; intros; by rewrite ?at_name_None.
  - destruct (Ht t eq_refl) as [Hne Hle]. eapply shifts_ext; [| |by apply release_tenant_shifts]; intros; by rewrite ?at_name_None.
  - eapply shifts_ext; [| |apply shifts_refl]; intros; by rewrite ?at_name_None.
Qed.

Lemma given_ne a t : given a = Some t -> t <> "".
Proof. destruct a as [[|]|]; simpl; [done| |done]. by intros [= <-]. Qed.

(** What a stage of the reservation leaves: the estimate on what it holds, within
    the ceilings. *)
Record reserved (e : budget_env) (tenant key : option string) (d cap : Z) (r r' : rm) (h : held) (err : option llm_error) : Prop := {
  rs_shifts : shifts r r' (at_name (h_unit h) d) (at_name (h_tenant h) d);
  rs_unit k : h_unit h = Some k -> given key = Some k /\ unit_used k r + d <= cap;
  rs_tenant t : h_tenant h = Some t -> given tenant = Some t /\ get_tenant_tokens t r + d <= be_tenant_cap e;
  rs_held : err = None -> be_unit_store e = true -> be_tenant_store e = true ->
    (0 < cap -> h_unit h = given key) /\ (0 < be_tenant_cap e -> h_tenant h = given tenant) }.

Lemma reserve_window_spec e tenant key d cap unit r r' h err : 0 < d ->
  reserve_window e tenant key d cap unit r = (r', h, err) ->
  h_unit h = unit /\ shifts r r' (fun _ => 0) (at_name (h_tenant h) d) /\ usage r' = usage r /\
  (forall t, h_tenant h = Some t -> given tenant = Some t /\ get_tenant_tokens t r + d <= be_tenant_cap e) /\
  (err = None -> be_tenant_store e = true -> 0 < be_tenant_cap e -> h_tenant h = given tenant).
Proof.
  intros Hd. unfold reserve_window.
  assert (shifts r r (fun _ => 0) (at_name None d)) as H0 by (eapply shifts_ext; [| |apply shifts_refl]; intros; by rewrite ?at_name_None).
  destruct (given tenant) as [t|] eqn:Ht; [|by intros [= <- <- <-]].
  destruct (Z.ltb_spec 0 (be_tenant_cap e)); [|intros [= <- <- <-]; split_and!; try done; simpl; lia].
  destruct (be_tenant_store e); [|destruct (be_fail_open e); by intros [= <- <- <-]].
  pose proof (reserve_tenant_usage (be_now e) t d (be_tenant_cap e) r) as Hus.
  destruct (reserve_tenant_tokens _ _ _ _ r) as [r1 ok] eqn:Hr. simpl in Hus.
  destruct (reserve_tenant_shifts _ _ _ _ _ _ _ Hd H (given_ne _ _ Ht) Hr) as [Hs Hle].
  destruct ok; intros [= <- <- <-]; split_and!; try done. intros x [= <-]. split; [done|]. by apply Hle.
Qed.

Lemma reserve_budgets_spec e tenant key d cap r r' h err : 0 < d ->
  reserve_budgets e tenant key d cap r = (r', h, err) -> reserved e tenant key d cap r r' h err.
Proof.
  intros Hd. unfold reserve_budgets. destruct (given key) as [k|] eqn:Hk.
  2: { intros H. destruct (reserve_window_spec _ _ _ _ _ _ _ _ _ _ Hd H) as (Hu & Hs & _ & Ht & Hn).
       split; rewrite ?Hu; [eapply shifts_ext; [| |exact Hs]; intros; by rewrite ?at_name_None|done|done|].
       intros He _ Hst. split; [by rewrite Hk|auto]. }
  destruct (Z.ltb_spec 0 cap) as [Hc|Hc].
  2: { intros H. destruct (reserve_window_spec _ _ _ _ _ _ _ _ _ _ Hd H) as (Hu & Hs & _ & Ht & Hn).
       split; rewrite ?Hu; [eapply shifts_ext; [| |exact Hs]; intros; by rewrite ?at_name_None|done|done|].
       intros He _ Hst. split; [lia|auto]. }
  assert (shifts r r (at_name None d) (at_name None d)) as H0 by (eapply shifts_ext; [| |apply shifts_refl]; intros; by rewrite ?at_name_None).
  destruct (be_unit_store e) eqn:Hst; [|destruct (be_fail_open e); intros [= <- <- <-]; split; simpl; try done; congruence].
  destruct (reserve_tokens _ _ _ _ _ r) as [r1 ok] eqn:Hr.
  destruct (reserve_tokens_shifts _ _ _ _ _ _ _ _ Hd Hc Hr) as [Hs Hle]. destruct ok.
  - intros H. destruct (reserve_window_spec _ _ _ _ _ _ _ _ _ _ Hd H) as (Hu & Hs' & _ & Ht & Hn). split; rewrite ?Hu.
    + eapply shifts_ext; [| |eapply shifts_trans; [exact Hs|exact Hs']]; intros; simpl; lia.
    + intros x [= <-]. split; [done|]. by apply Hle.
    + intros t Hht. destruct (Ht t Hht) as [Hg Hb]. split; [done|]. destruct Hs as (_ & _ & T). rewrite T in Hb. lia.
    + intros He _ Hts. split; [by rewrite Hk|auto].
  - intros [= <- <- <-]. by split.
Qed.

Lemma reserve_budgets_resolve a bound e tenant key label d cap r r' h err : 0 < d ->
  resolve_llm_subject a bound r = (tenant, key, label) -> reserve_budgets e tenant key d cap r = (r', h, err) ->
  resolve_llm_subject a bound r' = (tenant, key, label).
Proof.
  intros Hd Hres. unfold reserve_budgets.
  assert (forall u r1, reserve_window e tenant key d cap u r1 = (r', h, err) -> resolve_llm_subject a bound r1 = (tenant, key, label) ->
    resolve_llm_subject a bound r' = (tenant, key, label)) as Hwin.
  { intros u r1 H Hr1. destruct (reserve_window_spec _ _ _ _ _ _ _ _ _ _ Hd H) as (_ & _ & Hu & _).
    by rewrite (resolve_usage _ _ r1). }
  destruct (given key) as [k|] eqn:Hk; [|intros; by eapply Hwin]. destruct (0 <? cap); [|intros; by eapply Hwin].
  destruct (be_unit_store e); [|destruct (be_fail_open e); by intros [= <- <- <-]].
  pose proof (resolve_reserve a bound r tenant key label k d cap (be_now e) Hres Hk) as Hr.
  destruct (reserve_tokens _ _ _ _ _ r) as [r1 []]; simpl in Hr; [intros; eapply Hwin; [done|congruence]|].
  intros [= <- <- <-]. congruence.
Qed.

(** Entering a reservation: a refusal leaves every counter as it was; an admission
    leaves the estimate on what it holds, which stays within the ceilings. *)
Lemma enter_reservation_spec e a bound d r r' res : 0 < d ->
  (forall k, 0 <= unit_used k r) -> (forall t, 0 <= get_tenant_tokens t r) ->
  enter_reservation e a bound d r = (r', res) ->
  let '(tenant, key, label) := resolve_llm_subject a bound r in
  match res with
  | inl _ => shifts r r' (fun _ => 0) (fun _ => 0)
  | inr h => resolve_llm_subject a bound r' = resolve_llm_subject a bound r /\
      exists err, reserved e tenant key d (execution_cap e key r).2 r r' h err /\ (be_lookup_up e = true -> err = None)
  end.
Proof.
  intros Hd Hu0 Ht0. unfold enter_reservation. destruct (resolve_llm_subject a bound r) as [[tenant key] label] eqn:Hres.
  assert (forall cap, reserved e tenant key d cap r r (Held None None) (Some LLMCallFailed)) as Hnone.
  { intros cap. split; simpl; [apply shifts_refl|done..]. }
  destruct (be_lookup_up e) eqn:Hup; [|destruct (be_fail_open e); intros [= <- <-]; [|apply shifts_refl]; split; [done|by exists (Some LLMCallFailed)]].
  destruct (execution_cap_same e key r) as (Eu & Et & Eb & Er). destruct (execution_cap e key r) as [r1 cap] eqn:Hcap. simpl in *.
  assert (forall du dt r2, shifts r1 r2 du dt -> shifts r r2 du dt) as Hshift.
  { intros du dt r2 (B & U & T). split_and!; [congruence|intros k; rewrite U, Eu; done|intros t; rewrite T, Et; done]. }
  assert (forall h err r2, reserved e tenant key d cap r1 r2 h err -> reserved e tenant key d cap r r2 h err) as Hreserved.
  { intros h err r2 [S U T H]. split; [by apply Hshift| | |done]; intros x Hx; [rewrite <- Eu; auto|rewrite <- Et; auto]. }
  destruct ((cap <=? 0) && (be_tenant_cap e <=? 0)) eqn:Hz.
  { intros [= <- <-]. split; [by rewrite Er|]. exists None. split; [|done]. apply andb_prop in Hz as [Hz1 Hz2].
    apply Hreserved. split; simpl; [apply shifts_refl|done|done|lia]. }
  destruct (negb (is_given tenant) && negb (is_given key)) eqn:Hn.
  { intros [= <- <-]. split; [by rewrite Er|]. exists None. split; [|done]. apply Hreserved.
    unfold is_given in Hn. destruct (given tenant) eqn:Ht, (given key) eqn:Hk; try done.
    split; simpl; [apply shifts_refl|done|done|by rewrite Ht, Hk]. }
  destruct (reserve_budgets e tenant key d cap r1) as [[r2 h] [err|]] eqn:Hrb; intros [= <- <-].
  - pose proof (reserve_budgets_spec _ _ _ _ _ _ _ _ _ Hd Hrb) as [S U T _]. apply Hshift.
    eapply shifts_ext; [| |eapply shifts_trans; [exact S|apply release_shifts; [done|..]]].
    + intros k. simpl. rewrite at_name_add. replace (d + - d) with 0 by lia. apply at_name_zero.
    + intros k. simpl. rewrite at_name_add. replace (d + - d) with 0 by lia. apply at_name_zero.
    + intros k Hk. destruct S as (_ & SU & _). rewrite SU, Hk, Eu. unfold at_name. rewrite decide_True by done. specialize (Hu0 k). lia.
    + intros t Hh. destruct (T t Hh) as [Hg _]. split; [by eapply given_ne|]. destruct S as (_ & _ & ST). rewrite ST, Hh, Et.
      unfold at_name. rewrite decide_True by done. specialize (Ht0 t). lia.
  - split; [rewrite <- (Er a bound) in Hres; by eapply reserve_budgets_resolve|].
    exists None. split; [|done]. apply Hreserved. by apply reserve_budgets_spec.
Qed.

(** ** Metering in the process *)

Section Metered.
Context (inc_ok : Z -> bool).
Hypothesis inc_nonneg : forall n, 0 <= n -> inc_ok n = true.

(** The tokens of the readable answers. *)
Definition spent (l : list observation) : Z := sum tokens_of (omap observed l).

Definition usage_nonneg (l : list observation) : Prop := Forall nonneg (omap observed l).

Lemma attribute_ambient now p n m tenant key label : 0 <= n ->
  resolve_llm_subject (mt_attribution m) (mt_unit m) (mt_rm m) = (tenant, key, label) ->
  let m' := attribute_usage now p n None None None m in
  mt_ledger m' = mt_ledger m /\ mt_attribution m' = mt_attribution m /\ mt_unit m' = mt_unit m /\
  resolve_llm_subject (mt_attribution m') (mt_unit m') (mt_rm m') = (tenant, key, label) /\
  shifts (mt_rm m) (mt_rm m') (at_name (given key) n) (at_name (given tenant) n).
Proof.
  intros Hn Hres. unfold attribute_usage. rewrite Hres. cbn zeta iota. cbn [is_given given or_str orb].
  set (r1 := match given key with Some k => _ | None => _ end).
  assert (resolve_llm_subject (mt_attribution m) (mt_unit m) r1 = (tenant, key, label)) as Hr1.
  { unfold r1. destruct (given key) as [k|] eqn:Hk; [|done]. by rewrite (resolve_record _ _ _ tenant key label). }
  assert (shifts (mt_rm m) r1 (at_name (given key) n) (fun _ => 0)) as Hs1.
  { unfold r1. destruct (given key) as [k|] eqn:Hk; [|apply shifts_refl].
    split_and!; [by rewrite record_backend_up|..]; intros x; [|rewrite record_tokens_tenant; lia].
    rewrite record_tokens_used by done. unfold at_name. destruct (decide (k = x)) as [->|]; [by rewrite decide_True|by rewrite decide_False by congruence]. }
  split_and!; [done..| |].
  - simpl. destruct (given tenant); [|done]. by rewrite (resolve_usage _ _ r1) by apply record_tenant_usage.
  - simpl. destruct (given tenant) as [t|] eqn:Ht; [|done].
    eapply shifts_ext; [| |eapply (shifts_trans _ _ _ _ _ (fun _ => 0) (at_name (Some t) n)); [exact Hs1|]]; try (intros; simpl; lia).
    split_and!; [by rewrite record_tenant_backend_up|..]; intros x; [rewrite record_tenant_unit; lia|].
    rewrite record_tenant_used by (done || by eapply given_ne). unfold at_name.
    destruct (decide (t = x)) as [->|]; [by rewrite decide_True|by rewrite decide_False by congruence].
Qed.

Definition spent_by (o : observation) : Z := match observed o with Some e => tokens_of e | None => 0 end.

Lemma observe_one o m tenant key label : mt_ledger m = None -> (forall e, observed o = Some e -> nonneg e) ->
  resolve_llm_subject (mt_attribution m) (mt_unit m) (mt_rm m) = (tenant, key, label) ->
  let m' := observe_llm_usage inc_ok true o m in
  mt_ledger m' = None /\ mt_attribution m' = mt_attribution m /\ mt_unit m' = mt_unit m /\
  resolve_llm_subject (mt_attribution m') (mt_unit m') (mt_rm m') = (tenant, key, label) /\
  shifts (mt_rm m) (mt_rm m') (at_name (given key) (spent_by o)) (at_name (given tenant) (spent_by o)).
Proof.
  intros Hm Hf Hres. unfold observe_llm_usage, spent_by, observed in *. rewrite Hm.
  destruct (extract_token_usage (ob_response o)) as [[x y]|] eqn:Hu; simpl in *.
  2: { split_and!; try done. eapply shifts_ext; [| |apply shifts_refl]; intros z; by rewrite at_name_zero. }
  destruct (Hf _ eq_refl) as [Hx Hy]. simpl in Hx, Hy.
  destruct (count_tokens_ok inc_ok inc_nonneg (ob_provider o) (model_label o) x y m Hx Hy) as (m1 & Hc & Hrm & Ha & Hun & _).
  rewrite Hc. assert (mt_ledger m1 = None) as Hl1.
  { unfold count_tokens in Hc. rewrite !inc_nonneg in Hc by done. by injection Hc as <-. }
  destruct (attribute_ambient (ob_now o) (ob_provider o) (x + y) m1 tenant key label) as (A1 & A2 & A3 & A4 & A5); [lia|congruence|].
  rewrite Hrm in A5. split_and!; [congruence..|done|done].
Qed.

Lemma spent_cons o l : spent (o :: l) = spent_by o + spent l.
Proof. unfold spent, spent_by. csimpl. by destruct (observed o). Qed.

Lemma observe_all_spec l : forall m tenant key label, mt_ledger m = None -> usage_nonneg l ->
  resolve_llm_subject (mt_attribution m) (mt_unit m) (mt_rm m) = (tenant, key, label) ->
  let m' := observe_all inc_ok true l m in
  mt_ledger m' = None /\ mt_attribution m' = mt_attribution m /\ mt_unit m' = mt_unit m /\
  shifts (mt_rm m) (mt_rm m') (at_name (given key) (spent l)) (at_name (given tenant) (spent l)).
Proof.
  unfold observe_all. induction l as [|o l IH]; intros m tenant key label Hm Hf Hres; cbn [fold_left].
  { split_and!; try done. eapply shifts_ext; [| |apply shifts_refl]; intros z; by rewrite at_name_zero. }
  assert ((forall e, observed o = Some e -> nonneg e) /\ usage_nonneg l) as [Ho Hl].
  { revert Hf. unfold usage_nonneg. csimpl. destruct (observed o) as [e|]; [|done]. intros Hf. apply Forall_cons in Hf as [He Hf].
    split; [|done]. by intros e' [= <-]. }
  destruct (observe_one o m tenant key label Hm Ho Hres) as (A1 & A2 & A3 & A4 & A5).
  destruct (IH _ _ _ _ A1 Hl A4) as (I1 & I2 & I3 & I4). split_and!; [done|congruence|congruence|].
  eapply shifts_ext; [| |eapply shifts_trans; [exact A5|exact I4]]; intros z; simpl; by rewrite at_name_add, spent_cons.
Qed.
End Metered.

Lemma estimate_pos dr mt tl : 0 < estimate_reservation dr mt tl.
Proof. unfold estimate_reservation. lia. Qed.

Lemma spent_nonneg l : usage_nonneg l -> 0 <= spent l.
Proof.
  unfold usage_nonneg, spent. induction 1 as [|x es [Hp Hc] _ IH]; [done|]. rewrite sum_cons. unfold tokens_of at 1. lia.
Qed.

Section Net.
Context (inc_ok : Z -> bool).
Hypothesis inc_nonneg : forall n, 0 <= n -> inc_ok n = true.

Definition rm_of (w : llm_world) : rm := mt_rm (lw_meter w).

Lemma guarded_call_spec p a w w' called out tenant key label : mt_ledger (lw_meter w) = None -> usage_nonneg (at_seen a) ->
  resolve_llm_subject (mt_attribution (lw_meter w)) (mt_unit (lw_meter w)) (rm_of w) = (tenant, key, label) ->
  guarded_call inc_ok true p a w = (w', called, out) ->
  let paid := if called then spent (at_seen a) else 0 in
  shifts (rm_of w) (rm_of w') (at_name (given key) paid) (at_name (given tenant) paid) /\
  match out with inl err => is_budget_refusal err = false /\ err <> SubjectLookupFailed | inr _ => True end.
Proof.
  intros Hl Hn Hres. unfold guarded_call. destruct (CircuitBreaker.call _ _ _ _) as [[o c] b].
  intros [= <- <- <-]. split; [|by destruct o as [|[]]].
  destruct c; simpl.
  - by destruct (observe_all_spec inc_ok inc_nonneg (at_seen a) (lw_meter w) tenant key label Hl Hn Hres) as (_ & _ & _ & H).
  - eapply shifts_ext; [| |apply shifts_refl]; intros z; by rewrite at_name_zero.
Qed.

Lemma guarded_called p a w w' called v metrics : guarded_call inc_ok metrics p a w = (w', called, inr v) -> called = true /\ at_outcome a = FReturn v.
Proof.
  unfold guarded_call, CircuitBreaker.call. destruct (enter_call _ _) as [[]?], (at_outcome a); intros; simplify_eq; done.
Qed.

(** The counters and the ceilings around one call of a provider that adds [du] and
    [dt] itself. *)
Lemma call_shifts metrics e d method p a w w' called out tenant key label du dt : 0 < d ->
  (forall k, 0 <= unit_used k (rm_of w)) -> (forall t, 0 <= get_tenant_tokens t (rm_of w)) ->
  resolve_llm_subject (mt_attribution (lw_meter w)) (mt_unit (lw_meter w)) (rm_of w) = (tenant, key, label) ->
  (forall c k, 0 <= du c k) -> (forall c t, 0 <= dt c t) -> (forall k, du false k = 0) -> (forall t, dt false t = 0) ->
  (forall r w1 c o, resolve_llm_subject (mt_attribution (lw_meter w)) (mt_unit (lw_meter w)) r = (tenant, key, label) ->
     guarded_call inc_ok metrics p a (LlmWorld (set_rm r (lw_meter w)) (lw_breakers w)) = (w1, c, o) -> shifts r (rm_of w1) (du c) (dt c)) ->
  call_with_breaker inc_ok metrics e d method p a w = (w', called, out) ->
  shifts (rm_of w) (rm_of w') (du called) (dt called) /\
  (called = true -> method ∈ METERED_METHODS -> be_lookup_up e = true -> be_unit_store e = true -> be_tenant_store e = true ->
    let cap := (execution_cap e key (rm_of w)).2 in
    (forall k, given key = Some k -> 0 < cap -> unit_used k (rm_of w) + d <= cap) /\
    (forall t, given tenant = Some t -> 0 < be_tenant_cap e -> get_tenant_tokens t (rm_of w) + d <= be_tenant_cap e)).
Proof.
  intros Hd Hu0 Ht0 Hres Hdu Hdt Hdu0 Hdt0 Hbody. unfold call_with_breaker.
  assert (LlmWorld (set_rm (rm_of w) (lw_meter w)) (lw_breakers w) = w) as Hw by (by destruct w as [[]]).
  destruct (decide (method ∈ METERED_METHODS)) as [Hm|Hm]; [|intros H; split; [|done]; rewrite <- Hw in H at 1; by eapply Hbody].
  destruct (enter_reservation _ _ _ _ _) as [r1 [err|h]] eqn:He; pose proof (enter_reservation_spec _ _ _ _ _ _ _ Hd Hu0 Ht0 He) as H;
    fold (rm_of w) in H; rewrite Hres in H.
  { intros [= <- <- <-]. split; [|done]. eapply shifts_ext; [| |exact H]; auto. }
  destruct H as (Hr1 & err & [S U T Hh] & Herr). destruct (guarded_call _ _ _ _ _) as [[w1 c] o] eqn:Hg. intros [= <- <- <-].
  pose proof (shifts_trans _ _ _ _ _ _ _ S (Hbody _ _ _ _ Hr1 Hg)) as HS. split.
  - unfold rm_of at 2. simpl. eapply shifts_ext; [| |eapply shifts_trans; [exact HS|apply release_shifts; [done|..]]].
    + intros k. simpl. pose proof (at_name_add (h_unit h) d (- d) k) as E. replace (d + - d) with 0 in E by lia. rewrite at_name_zero in E. lia.
    + intros k. simpl. pose proof (at_name_add (h_tenant h) d (- d) k) as E. replace (d + - d) with 0 in E by lia. rewrite at_name_zero in E. lia.
    + intros k Hk. destruct HS as (_ & HU & _). fold (rm_of w1). rewrite HU, Hk. unfold at_name. rewrite decide_True by done.
      specialize (Hu0 k). specialize (Hdu c k). lia.
    + intros t Ht. split; [by eapply given_ne, T|]. destruct HS as (_ & _ & HT). fold (rm_of w1). rewrite HT, Ht. unfold at_name.
      rewrite decide_True by done. specialize (Ht0 t). specialize (Hdt c t). lia.
  - intros _ _ Hup Hus Hts. destruct (Hh (Herr Hup) Hus Hts) as [Hk Ht]. split; intros x Hx Hc.
    + apply U. by rewrite Hk.
    + apply T. by rewrite Ht.
Qed.

(** A refusal does not reach the provider or its breaker. *)
Lemma refusal_stops metrics e d method p a w w' called out : call_with_breaker inc_ok metrics e d method p a w = (w', called, out) ->
  match out with
  | inl err => is_budget_refusal err = true \/ err = SubjectLookupFailed -> called = false /\ lw_breakers w' = lw_breakers w
  | inr v => called = true /\ at_outcome a = FReturn v
  end.
Proof.
  assert (forall w w' called err, guarded_call inc_ok metrics p a w = (w', called, inl err) -> is_budget_refusal err = false /\ err <> SubjectLookupFailed) as Hg.
  { intros w1 w2 c err. unfold guarded_call. destruct (CircuitBreaker.call _ _ _ _) as [[o c'] b]. destruct o as [|[]]; intros [= _ _ <-]; done. }
  unfold call_with_breaker. destruct (decide _).
  - destruct (enter_reservation _ _ _ _ _) as [r1 [err|h]]; [by intros [= <- <- <-]|].
    destruct (guarded_call _ _ _ _ _) as [[w1 c] o] eqn:H. intros [= <- <- <-]. destruct o as [err|v]; [|by eapply guarded_called].
    destruct (Hg _ _ _ _ H). intros []; congruence.
  - intros H. destruct out as [err|v]; [|by eapply guarded_called]. destruct (Hg _ _ _ _ H). intros []; congruence.
Qed.

End Net.

(** C31: reserve, call, reconcile. For a call of a provider outside a guest worker, with
    counters and reported usage that are not negative, and where what is available (the
    look-up of the caps, the stores of the counters) does not change during the call (see
    [release_without_reservation] for what happens otherwise): whatever the call does and
    however it ends, the budgets of its run (or unit) and of its tenant move by the tokens
    of the answers observed and nothing else moves. A call of a metered method that is
    made, with the caps found and both stores up, had room for its estimate under every
    ceiling that applies. A refused call charges nothing, calls nothing and leaves the
    circuit breakers alone. *)
Theorem budget_nets_to_actual inc_ok e default_reserve max_tokens text method p a w w' called out tenant key label :
  (forall n, 0 <= n -> inc_ok n = true) -> mt_ledger (lw_meter w) = None -> usage_nonneg (at_seen a) ->
  (forall k, 0 <= unit_used k (rm_of w)) -> (forall t, 0 <= get_tenant_tokens t (rm_of w)) ->
  resolve_llm_subject (mt_attribution (lw_meter w)) (mt_unit (lw_meter w)) (rm_of w) = (tenant, key, label) ->
  let estimate := estimate_reservation default_reserve max_tokens text in
  call_with_breaker inc_ok true e estimate method p a w = (w', called, out) ->
  let paid := if called then spent (at_seen a) else 0 in
  shifts (rm_of w) (rm_of w') (at_name (given key) paid) (at_name (given tenant) paid) /\
  (called = true -> method ∈ METERED_METHODS -> be_lookup_up e = true -> be_unit_store e = true -> be_tenant_store e = true ->
    let cap := (execution_cap e key (rm_of w)).2 in
    (forall k, given key = Some k -> 0 < cap -> unit_used k (rm_of w) + estimate <= cap) /\
    (forall t, given tenant = Some t -> 0 < be_tenant_cap e -> get_tenant_tokens t (rm_of w) + estimate <= be_tenant_cap e)) /\
  match out with
  | inl err => is_budget_refusal err = true \/ err = SubjectLookupFailed -> called = false /\ lw_breakers w' = lw_breakers w
  | inr v => called = true /\ at_outcome a = FReturn v
  end.
Proof.
  intros Hi Hl Hn Hu Ht Hres estimate H paid.
  edestruct (call_shifts inc_ok true e estimate method p a w w' called out tenant key label
    (fun c => at_name (given key) (if c then spent (at_seen a) else 0)) (fun c => at_name (given tenant) (if c then spent (at_seen a) else 0)))
    as [H1 H2]; [apply estimate_pos|done|done|done|..|exact H|].
  1,2: intros c x; pose proof (spent_nonneg _ Hn); unfold at_name; destruct (decide _), c; lia.
  1,2: intros x; apply at_name_zero.
  - intros r w1 c o Hr Hg. by destruct (guarded_call_spec inc_ok Hi _ _ (LlmWorld (set_rm r (lw_meter w)) (lw_breakers w)) _ _ _ _ _ _ Hl Hn Hr Hg).
  - split; [exact H1|]. split; [exact H2|]. by apply (refusal_stops inc_ok true e estimate method p a w).
Qed.

(** ** Calls inside a guest *)

Fixpoint run_calls inc_ok metrics (e : budget_env) (d : Z) (method : string) (calls : list (string * attempt)) (w : llm_world) : llm_world * list bool :=
  match calls with
  | [] => (w, [])
  | (p, a) :: calls =>
      let '(w, called, _) := call_with_breaker inc_ok metrics e d method p a w in
      let '(w, rest) := run_calls inc_ok metrics e d method calls w in
      (w, called :: rest)
  end.

Lemma call_keeps_ledger inc_ok metrics e d method p a w l : mt_ledger (lw_meter w) = Some l ->
  exists l', mt_ledger (lw_meter (call_with_breaker inc_ok metrics e d method p a w).1.1) = Some l'.
Proof.
  intros Hl. assert (forall w, (exists l, mt_ledger (lw_meter w) = Some l) ->
    exists l', mt_ledger (lw_meter (guarded_call inc_ok metrics p a w).1.1) = Some l') as Hg.
  { intros w1 [l1 H1]. unfold guarded_call. destruct (CircuitBreaker.call _ _ _ _) as [[o []] b]; simpl; [|eauto].
    unfold observe_all. generalize dependent l1. generalize (lw_meter w1). induction (at_seen a) as [|x xs IH]; intros m l1 H1; simpl; [eauto|].
    unfold observe_llm_usage at 2. rewrite H1. by eapply IH. }
  unfold call_with_breaker. destruct (decide _); [|by apply Hg; eauto].
  destruct (enter_reservation _ _ _ _ _) as [r1 [err|h]]; [by exists l|].
  pose proof (Hg (LlmWorld (set_rm r1 (lw_meter w)) (lw_breakers w)) (ex_intro _ l Hl)) as H.
  destruct (guarded_call _ _ _ _ _) as [[w1 c] o]. exact H.
Qed.

(** Inside a deferral scope no call moves a budget, however much it spends: the
    charge is only made when the parent replays the ledger, after the script. *)
Lemma guest_spend_invisible inc_ok metrics e d method calls : 0 < d -> forall w l, mt_ledger (lw_meter w) = Some l ->
  (forall k, 0 <= unit_used k (rm_of w)) -> (forall t, 0 <= get_tenant_tokens t (rm_of w)) ->
  shifts (rm_of w) (rm_of (run_calls inc_ok metrics e d method calls w).1) (fun _ => 0) (fun _ => 0).
Proof.
  intros Hd. induction calls as [|[p a] calls IH]; intros w l Hl Hu Ht; simpl; [apply shifts_refl|].
  pose proof (call_keeps_ledger inc_ok metrics e d method p a w l Hl) as [l' Hl'].
  destruct (resolve_llm_subject (mt_attribution (lw_meter w)) (mt_unit (lw_meter w)) (rm_of w)) as [[tenant key] label] eqn:Hres.
  destruct (call_with_breaker _ _ _ _ _ _ _ w) as [[w1 called] out] eqn:Hc. simpl in Hl'.
  edestruct (call_shifts inc_ok metrics e d method p a w w1 called out tenant key label (fun _ _ => 0) (fun _ _ => 0)) as [Hs _]; try done.
  { intros r w2 c o _ Hg. unfold guarded_call in Hg. destruct (CircuitBreaker.call _ _ _ _) as [[o' c'] b].
    injection Hg as <- <- _. unfold rm_of. simpl. destruct c'; [|apply shifts_refl]. unfold observe_all.
    destruct (deferral_silent inc_ok metrics (at_seen a) l (set_rm r (lw_meter w)) Hl) as (-> & _). apply shifts_refl. }
  pose proof (IH w1 l' Hl') as H. destruct (run_calls _ _ _ _ _ calls w1) as [w2 rest]. simpl in *.
  eapply shifts_ext; [| |eapply shifts_trans; [exact Hs|apply H]]; try done; intros x; destruct Hs as (_ & HU & HT);
    [rewrite HU; specialize (Hu x)|rewrite HT; specialize (Ht x)]; lia.
Qed.

(** ** The chain *)

(** The answer of a chain is the answer of the last provider called; the providers
    after it were not called. *)
Lemma chain_answer inc_ok metrics e d method chain : forall last w w' called v,
  try_chain inc_ok metrics e d method chain last w = (w', called, inr v) ->
  exists pre p a post, chain = pre ++ (p, a) :: post /\ at_outcome a = FReturn v /\
    exists earlier, called = earlier ++ [p] /\ earlier ⊆ map fst pre.
Proof.
  induction chain as [|[p a] chain IH]; intros last w w' called v; simpl; [done|].
  destruct (call_with_breaker _ _ _ _ _ _ _ w) as [[w1 c] [err|u]] eqn:Hc.
  - destruct (is_call_error err); [|done]. destruct (try_chain _ _ _ _ _ chain err w1) as [[w2 rest] out] eqn:Ht. intros [= <- <- ->].
    destruct (IH _ _ _ _ _ Ht) as (pre & p' & a' & post & -> & Ho & earlier & -> & Hsub).
    exists ((p, a) :: pre), p', a', post. split_and!; [done..|]. exists ((if c then [p] else []) ++ earlier).
    split; [by rewrite app_assoc|]. destruct c; simpl; set_solver.
  - intros [= <- <- <-]. apply refusal_stops in Hc as [-> Ho]. exists [], p, a, chain. split_and!; [done..|]. by exists [].
Qed.

Lemma known_once_spec {F} (factories : list (string * F)) raw : forall seen,
  NoDup (known_once factories seen raw) /\ forall p, p ∈ known_once factories seen raw -> p ∉ seen /\ p ∈ dict_keys factories.
Proof.
  induction raw as [|x raw IH]; intros seen; simpl; [split; [constructor|set_solver]|].
  destruct (bool_decide (provider_name x <> "") && _ && _) eqn:Hb; [|apply IH].
  apply andb_prop in Hb as [[_ Hk]%andb_prop Hs]. apply dict_mem_true in Hk. apply bool_decide_eq_true in Hs.
  destruct (IH (provider_name x :: seen)) as [Hn Hin]. split; [|set_solver]. constructor; [|done]. intros H. by apply Hin in H as [H _]; set_solver.
Qed.

(** The chain names each provider once, and only providers with a factory unless
    it is the default alone. *)
Lemma provider_chain_wf {F} (factories : list (string * F)) primary fallbacks providers :
  let chain := resolve_provider_chain factories primary fallbacks providers in
  NoDup chain /\ chain <> [] /\ (chain = ["openai"] \/ chain ⊆ dict_keys factories).
Proof.
  unfold resolve_provider_chain. set (raw := match providers with [] => _ | _ => _ end).
  destruct (known_once_spec factories raw []) as [Hn Hin]. destruct (known_once factories [] raw) as [|x l].
  - split; [|by auto]. constructor; [set_solver|constructor].
  - split_and!; [done|done|]. right. intros p Hp. by apply Hin.
Qed.

(** ** Concrete calls *)

Module ToyLlm.
Definition inc (n : Z) : bool := 0 <=? n.
Definition env : budget_env := BudgetEnv (Config false 0 0 0 100) 0 7 false true true true.
Definition manager (backend : bool) : rm := RM [] [] [] [] 0 [] false [] backend empty_backend.
Definition meter_of (ledger : option LlmUsageLedger) (r : rm) : meter := Meter ledger None (Some "u1", Some "run1") None r [] [] [].
Definition start (ledger : option LlmUsageLedger) (backend : bool) : llm_world := LlmWorld (meter_of ledger (manager backend)) [].
Definition answered (i o : Z) : attempt := Attempt (FReturn "text") [ToyMeter.call "m1" (ToyMeter.answer i o)] 0 1.
Definition estimate : Z := estimate_reservation DEFAULT_RESERVE_TOKENS (VInt 40) (Some 40).
Definition once (w : llm_world) : llm_world * bool * (llm_error + string) :=
  call_with_breaker inc true env estimate "chat" "openai" (answered 60 30) w.
End ToyLlm.

Import ToyLlm.

Lemma budget_nets_witness :
  let '(w1, called1, _) := once (start None true) in
  let '(w2, called2, out2) := once w1 in
  called1 = true /\ unit_used "run1" (rm_of w1) = 90 /\
  called2 = false /\ out2 = inl (BudgetExceeded "execution" "run1" 90 50 100) /\ unit_used "run1" (rm_of w2) = 90.
Proof.
  destruct (budget_nets_to_actual inc env DEFAULT_RESERVE_TOKENS (VInt 40) (Some 40) "chat" "openai" (answered 60 30) (start None true)
    (once (start None true)).1.1 (once (start None true)).1.2 (once (start None true)).2 (Some "u1") (Some "run1") "run") as [(_ & Hu & _) _].
  - intros n Hn. by apply Z.leb_le.
  - reflexivity.
  - repeat constructor; done.
  - intros k. done.
  - intros t. done.
  - reflexivity.
  - vm_compute. reflexivity.
  - pose proof (Hu "run1") as H. vm_compute in H. vm_compute. repeat split.
Defined.

(** Five calls of 90 tokens each in one guest execution pass a budget of 100: the
    reservations are taken back and nothing is charged before the reply. *)
Example guest_loop_not_refused :
  let calls := replicate 5 ("openai", answered 60 30) in
  let '(w, called) := run_calls inc true env estimate "chat" calls (start (Some (new_ledger 256)) true) in
  called = [true; true; true; true; true] /\ unit_used "run1" (rm_of w) = 0 /\
  match mt_ledger (lw_meter w) with Some l => sum tokens_of (entries l) = 450 | None => False end.
Proof. vm_compute. repeat split. Qed.

(** The backend is down when the estimate is reserved and up when it is released:
    the shared counter goes below zero, and the next reservation of 140 passes the
    ceiling of 100. *)
Example release_without_reservation :
  let r1 := reserve_tokens 0 "run1" "u1" 50 100 (manager false) in
  let r2 := release_tokens "run1" 50 (RM (usage r1.1) [] [] [] 0 [] false [] true empty_backend) in
  r1.2 = true /\ unit_used "run1" r2 = -50 /\ (reserve_tokens 0 "run1" "u1" 140 100 r2).2 = true.
Proof. vm_compute. repeat split. Qed.
