(* ===== verification/WorkerPool.v ===== *)
(** * The pool of warm guest workers

    runtime/nodus_worker_pool.py, the serve loop of runtime/nodus_worker.py and the
    choice between pool and fresh process in runtime/nodus_runtime_adapter.py.

    The pool's fields are those of the class; the sections under its condition
    variable are atomic operations, and callers, the background pre-warm, a drain
    and the processes themselves interleave as [event]s. A process is its
    life, the requests it served and the answers in its pipe that nobody has read,
    each named by its request. Gauges and logs are left out. *)

From S2P Require Import Prelude PyStr PyVal.

Local Open Scope string_scope.
Local Open Scope Z_scope.
Local Open Scope list_scope.

(** ** Framing *)

(** [struct.pack(">I", n)]: four bytes, most significant first; out of range raises. *)
Definition pack_u32 (n : Z) : option (list Z) :=
  if (0 <=? n) && (n <? 2 ^ 32)
  then Some [Z.land (Z.shiftr n 24) 255; Z.land (Z.shiftr n 16) 255; Z.land (Z.shiftr n 8) 255; Z.land n 255]
  else None.

Definition unpack_u32 (bytes : list Z) : option Z :=
  match bytes with
  | [a; b; c; d] => Some (Z.lor (Z.shiftl a 24) (Z.lor (Z.shiftl b 16) (Z.lor (Z.shiftl c 8) d)))
  | _ => None
  end.

Definition write_frame (body : list Z) : option (list Z) :=
  (fun header => header ++ body) <$> pack_u32 (Z.of_nat (length body)).

(** A pipe delivers what is left of the stream in chunks: the sizes [chunks] asks
    for, at least one byte while any is left, an empty read at the end. *)
Definition read_chunk (want : nat) (ask : nat) (stream : list Z) : list Z * list Z :=
  let n := Nat.min want (Nat.max 1 ask) in (take n stream, drop n stream).

(** [_read_exact]: reads until [n] bytes are there; [None] at the end of the stream. *)
Fixpoint read_exact (fuel : nat) (n : nat) (chunks : nat -> nat) (stream : list Z) : option (list Z * list Z) :=
  match n, fuel with
  | O, _ => Some ([], stream)
  | _, O => None
  | _, S fuel =>
      match read_chunk n (chunks (length stream)) stream with
      | ([], _) => None
      | (chunk, rest) =>
          match read_exact fuel (n - length chunk) chunks rest with
          | Some (more, rest) => Some (chunk ++ more, rest)
          | None => None
          end
      end
  end.

Definition read_frame (chunks : nat -> nat) (stream : list Z) : option (list Z * list Z) :=
  match read_exact 4 4 chunks stream with
  | Some (header, rest) =>
      match unpack_u32 header with
      | Some n => read_exact (Z.to_nat n) (Z.to_nat n) chunks rest
      | None => None
      end
  | None => None
  end.

(** ** Settings *)

Definition int_setting (raw : string) (dflt : Z) (accept : Z -> bool) : Z :=
  match int_of_string (str_strip raw) with Some n => if accept n then n else dflt | None => dflt end.
(** [_pool_size], [_max_requests]: the value of the variable, empty when not set. *)
Definition pool_size (raw : string) : Z := int_setting raw 4 (fun n => 1 <=? n).
Definition max_requests (raw : string) : Z := int_setting raw 500 (fun n => 0 <=? n).
(** In milliseconds. *)
Definition acquire_timeout (raw : string) : Z :=
  match int_of_string (str_strip raw) with Some n => Z.max 0 n | None => 2000 end.
Definition warm_pool_enabled (raw : string) : bool :=
  bool_decide (str_lower (str_strip raw) ∉ ["0"; "false"; "no"; "off"]).

(** ** State *)

Record proc := Proc { p_alive : bool; p_requests : Z; p_unread : list Z }.

Record pool := Pool {
  idle : list nat;             (* handed out from the end *)
  size : Z;
  closing : bool;
  stats : list (string * Z) }.

Record sys := Sys {
  the_pool : pool;
  procs : list (nat * proc);
  next : nat;                   (* the next process *)
  busy : list (nat * nat);      (* caller and the worker it checked out *)
  warming : list nat;           (* workers the pre-warm is loading *)
  lost : list nat }.            (* checked out and never returned *)

Definition set_pool (p : pool) (s : sys) : sys := Sys p (procs s) (next s) (busy s) (warming s) (lost s).
Definition set_idle (l : list nat) (n : Z) (s : sys) : sys := set_pool (Pool l n (closing (the_pool s)) (stats (the_pool s))) s.
Definition set_busy b (s : sys) : sys := Sys (the_pool s) (procs s) (next s) b (warming s) (lost s).
Definition set_warming w (s : sys) : sys := Sys (the_pool s) (procs s) (next s) (busy s) w (lost s).
Definition set_lost l (s : sys) : sys := Sys (the_pool s) (procs s) (next s) (busy s) (warming s) l.
Definition set_proc (w : nat) (p : proc) (s : sys) : sys :=
  Sys (the_pool s) (dict_set w p (procs s)) (next s) (busy s) (warming s) (lost s).

Definition dead : proc := Proc false 0 [].
Definition proc_of (w : nat) (s : sys) : proc := default dead (dict_get w (procs s)).

Definition metric (event : string) (s : sys) : sys :=
  let p := the_pool s in
  set_pool (Pool (idle p) (size p) (closing p) (dict_set event (default 0 (dict_get event (stats p)) + 1) (stats p))) s.

Definition kill (w : nat) (s : sys) : sys :=
  let p := proc_of w s in set_proc w (Proc false (p_requests p) (p_unread p)) s.

(** [WarmNodusWorker()] *)
Definition spawn (s : sys) : sys * nat :=
  (Sys (the_pool s) (dict_set (next s) (Proc true 0 []) (procs s)) (S (next s)) (busy s) (warming s) (lost s), next s).

(** ** Operations *)

Section Pool.
(** [_pool_size()] and [_max_requests()]. *)
Context (cap limit : Z).

Definition fit (w : nat) (s : sys) : bool :=
  p_alive (proc_of w s) && ((limit =? 0) || (p_requests (proc_of w s) <? limit)).

(** The inner loop of [_checkout] on the idle workers, the last one first: the
    first that is fit, the rest killed on the way. *)
Fixpoint reap (stack : list nat) (s : sys) : sys * option nat :=
  match stack with
  | [] => (set_idle [] (size (the_pool s)) s, None)
  | w :: stack =>
      if fit w s then (set_idle (rev stack) (size (the_pool s)) s, Some w)
      else reap stack (set_idle (rev stack) (size (the_pool s) - 1) (kill w s))
  end.

Inductive checkout_answer := Got (w : nat) | Draining | Saturated | SpawnFailed.

(** One turn of the loop of [_checkout]; after [Saturated] the caller waits and turns
    again, or spills. *)
Definition checkout (caller : nat) (spawn_ok : bool) (s : sys) : sys * checkout_answer :=
  if closing (the_pool s) then (metric "spilled" s, Draining)
  else
    let '(s, found) := reap (rev (idle (the_pool s))) s in
    match found with
    | Some w => (set_busy ((caller, w) :: busy s) s, Got w)
    | None =>
        if size (the_pool s) <? cap then
          if spawn_ok then
            let '(s, w) := spawn s in
            let s := metric "spawned" (set_idle (idle (the_pool s)) (size (the_pool s) + 1) s) in
            (set_busy ((caller, w) :: busy s) s, Got w)
          else (s, SpawnFailed)
        else (s, Saturated)
    end.

Definition checkin (w : nat) (healthy : bool) (s : sys) : sys :=
  let p := the_pool s in
  if healthy && fit w s then set_idle (idle p ++ [w]) (size p) s
  else
    let s := if healthy && negb (limit =? 0) && (limit <=? p_requests (proc_of w s)) then metric "recycled" s
             else if negb healthy then metric "crashed" s else s in
    let s := kill w s in
    set_idle (idle (the_pool s)) (size (the_pool s) - 1) s.

(** How [WarmNodusWorker.execute] ends: a reply is read; the worker died or closed its
    pipe; no reply in time (which may still be written later); or any other
    exception, such as a reader thread that cannot be started or a reply that is not
    JSON. *)
Inductive exec_end := Replied | Crashed | TimedOut (late : bool) | OtherError.

(** The request runs and the first unread answer is taken. *)
Definition worker_execute (w : nat) (request : Z) (e : exec_end) (s : sys) : sys * option Z :=
  let p := proc_of w s in
  match e with
  | Replied =>
      match p_unread p ++ [request] with
      | answer :: rest => (set_proc w (Proc (p_alive p) (p_requests p + 1) rest) s, Some answer)
      | [] => (s, None)
      end
  | Crashed => (set_proc w (Proc false (p_requests p) (p_unread p)) s, None)
  | TimedOut late => (set_proc w (Proc (p_alive p) (p_requests p) (if late then p_unread p ++ [request] else p_unread p)) s, None)
  | OtherError => (s, None)
  end.

Inductive exec_answer := Result (request : Z) | WorkerCrashed | Timeout | Raised | PoolBusy.

(** [execute] from the worker it checked out to its return or exception. *)
Definition finish (caller : nat) (request : Z) (e : exec_end) (s : sys) : sys * option exec_answer :=
  match dict_get caller (busy s) with
  | None => (s, None)
  | Some w =>
      let '(s, answer) := worker_execute w request e s in
      let s := set_busy (dict_del caller (busy s)) s in
      match e, answer with
      | Replied, Some a => (metric "served" (checkin w true s), Some (Result a))
      | Crashed, _ => (checkin w false s, Some WorkerCrashed)
      | TimedOut _, _ => (checkin w false s, Some Timeout)
      | _, _ => (set_lost (w :: lost s) s, Some Raised)
      end
  end.

(** One worker of [prewarm]: spawned under the lock, loaded outside it, then kept if
    it is well. *)
Definition prewarm_start (spawn_ok : bool) (s : sys) : sys :=
  if closing (the_pool s) || (cap <=? size (the_pool s)) then s
  else if spawn_ok then
    let '(s, w) := spawn s in
    let s := metric "spawned" (set_idle (idle (the_pool s)) (size (the_pool s) + 1) s) in
    set_warming (w :: warming s) s
  else s.

Definition prewarm_end (w : nat) (request : Z) (e : exec_end) (s : sys) : sys :=
  if decide (w ∈ warming s) then
    let '(s, answer) := worker_execute w request e s in
    let s := set_warming (filter (fun v => v <> w) (warming s)) s in
    let healthy := match answer with Some _ => p_alive (proc_of w s) | None => false end in
    if healthy then set_idle (idle (the_pool s) ++ [w]) (size (the_pool s)) s
    else let s := kill w s in set_idle (idle (the_pool s)) (size (the_pool s) - 1) s
  else s.

Definition kill_idle (s : sys) : sys :=
  let l := idle (the_pool s) in
  let s := foldr kill s l in
  set_idle [] (size (the_pool s) - Z.of_nat (length l)) s.

(** [drain]: new checkouts are refused from its start; after the wait, whether or not
    it was long enough, the idle workers are killed. *)
Definition drain_start (s : sys) : sys :=
  let p := the_pool s in set_pool (Pool (idle p) (size p) true (stats p)) s.
Definition drain_end : sys -> sys := kill_idle.
Definition shutdown : sys -> sys := kill_idle.

(** ** Interleaving *)

Inductive event :=
| Checkout (caller : nat) (spawn_ok : bool)
| Spill (caller : nat)
| Finish (caller : nat) (request : Z) (e : exec_end)
| PrewarmStart (spawn_ok : bool)
| PrewarmEnd (w : nat) (request : Z) (e : exec_end)
| DrainStart | DrainEnd | Shutdown
| Dies (w : nat).                      (* a process ends by itself *)

(** A caller asks only when it holds no worker. *)
Definition step (ev : event) (s : sys) : sys :=
  match ev with
  | Checkout c ok => if dict_mem c (busy s) then s else (checkout c ok s).1
  | Spill c => metric "spilled" s
  | Finish c r e => (finish c r e s).1
  | PrewarmStart ok => prewarm_start ok s
  | PrewarmEnd w r e => prewarm_end w r e s
  | DrainStart => drain_start s
  | DrainEnd => drain_end s
  | Shutdown => shutdown s
  | Dies w => if dict_mem w (procs s) then kill w s else s
  end.

Definition run (evs : list event) (s : sys) : sys := fold_left (fun s ev => step ev s) evs s.
End Pool.

Definition new_pool : pool := Pool [] 0 false [("spawned", 0); ("recycled", 0); ("crashed", 0); ("spilled", 0); ("served", 0)].
Definition initial : sys := Sys new_pool [] 0 [] [] [].

(** ** The adapter *)

(** What a fresh process answers is a parameter of the execution. *)
Inductive script_answer := FromPool (request : Z) | PoolTimedOut | FromFresh.

(** The attempts at running the script, in order, and the answer. [started] says
    whether the warm worker had begun the script when its call failed. *)
Inductive warm_call := WarmResult (request : Z) | WarmTimeout | WarmBusy | WarmFault (started : bool).

Definition execute_script (warm_enabled : bool) (warm : warm_call) : nat * script_answer :=
  if warm_enabled then
    match warm with
    | WarmResult r => (1%nat, FromPool r)
    | WarmTimeout => (1%nat, PoolTimedOut)
    | WarmBusy => (1%nat, FromFresh)
    | WarmFault started => ((if started then 2 else 1)%nat, FromFresh)
    end
  else (1%nat, FromFresh).

(** ** The invariant *)

Definition held (s : sys) : list nat := map snd (busy s).
(** Every worker the pool answers for; those of the first three kinds have nothing
    unread in their pipe. *)
Definition sound (s : sys) : list nat := idle (the_pool s) ++ held s ++ warming s.
Definition owned (s : sys) : list nat := sound s ++ lost s.

Lemma dict_del_perm {K V} `{EqDecision K} (k : K) (v : V) d : dict_get k d = Some v -> map snd d ≡ₚ v :: map snd (dict_del k d).
Proof.
  induction d as [|[k' w] d IH]; simpl; [done|]. destruct (decide (k = k')) as [->|]; [by intros [= ->]|].
  intros H. simpl. rewrite IH by done. apply Permutation_swap.
Qed.

Section Invariant.
Context (cap limit : Z).

Record ok (own clean : list nat) (n : Z) (ps : list (nat * proc)) (nx : nat) : Prop := {
  ok_nodup : NoDup own;
  ok_size : n = Z.of_nat (length own);
  ok_cap : n <= cap;
  ok_next : Forall (fun w => w < nx)%nat own;
  ok_fresh w : (nx <= w)%nat -> dict_get w ps = None;
  ok_clean w : w ∈ clean -> p_unread (default dead (dict_get w ps)) = [];
  ok_alive w : p_alive (default dead (dict_get w ps)) = true -> w ∈ own }.

Lemma ok_perm own own' clean clean' n ps nx : own ≡ₚ own' -> clean' ⊆ clean -> ok own clean n ps nx -> ok own' clean' n ps nx.
Proof.
  intros Hp Hc [A B C D E F G]. split; try done; rewrite <- ?Hp; try done; [by intros w ?%Hc; apply F|]. intros w ?. rewrite <- Hp. by apply G.
Qed.

Lemma ok_spawn own clean n ps nx : n < cap -> ok own clean n ps nx -> ok (nx :: own) (nx :: clean) (n + 1) (dict_set nx (Proc true 0 []) ps) (S nx).
Proof.
  intros Hn [A B C D E F G]. assert (nx ∉ own) as Hnew by (intros Hin; rewrite Forall_forall in D; apply D in Hin; lia). split.
  - by constructor.
  - simpl. lia.
  - lia.
  - constructor; [lia|]. eapply Forall_impl; [exact D|]. simpl. lia.
  - intros w Hw. rewrite dict_get_set_ne by lia. apply E. lia.
  - intros w Hw. destruct (decide (nx = w)) as [<-|]; [by rewrite dict_get_set_eq|]. rewrite dict_get_set_ne by done. apply F. set_solver.
  - intros w. destruct (decide (nx = w)) as [<-|]; [set_solver|]. rewrite dict_get_set_ne by done. intros ?%G. set_solver.
Qed.

(** The process of an owned worker, or of any worker if it dies, may change. *)
Lemma ok_proc w p own clean clean' n ps nx : ok own clean n ps nx -> (p_alive p = true -> w ∈ own) -> (w < nx)%nat ->
  (forall v, v ∈ clean' -> v <> w -> v ∈ clean) -> (w ∈ clean' -> p_unread p = []) -> ok own clean' n (dict_set w p ps) nx.
Proof.
  intros [A B C D E F G] Hw Hlt Hc Hp. split; try done; intros v.
  - intros Hv. rewrite dict_get_set_ne by lia. by apply E.
  - intros Hv. destruct (decide (w = v)) as [<-|]; [rewrite dict_get_set_eq; by apply Hp|]. rewrite dict_get_set_ne by done. by apply F, Hc.
  - destruct (decide (w = v)) as [<-|]; [rewrite dict_get_set_eq; by apply Hw|]. rewrite dict_get_set_ne by done. apply G.
Qed.

Lemma ok_drop w p own clean clean' n ps nx : ok own clean n ps nx -> forall own', own ≡ₚ w :: own' -> clean' ⊆ clean -> w ∉ clean' ->
  p_alive p = false -> ok own' clean' (n - 1) (dict_set w p ps) nx.
Proof.
  intros [A B C D E F G] own' Hperm Hc Hw Hp. rewrite Hperm in A, B, D. apply NoDup_cons in A as [Hnot A]. apply Forall_cons in D as [Hlt D].
  split; try done.
  - simpl in B. lia.
  - lia.
  - intros v Hv. rewrite dict_get_set_ne by lia. by apply E.
  - intros v Hv. rewrite dict_get_set_ne by set_solver. by apply F, Hc.
  - intros v. destruct (decide (w = v)) as [<-|]; [rewrite dict_get_set_eq; simpl; congruence|].
    rewrite dict_get_set_ne by done. intros Hv%G. rewrite Hperm in Hv. set_solver.
Qed.

Definition inv (s : sys) : Prop :=
  ok (owned s) (sound s) (size (the_pool s)) (procs s) (next s) /\ dict_wf (busy s).

Lemma inv_metric ev s : inv s -> inv (metric ev s).
Proof. done. Qed.

(** A worker taken from the pool's books is not among the rest. *)
Lemma taken_fresh s s' w : inv s -> owned s ≡ₚ w :: owned s' -> w ∉ sound s'.
Proof.
  intros [Hok _] Hp. pose proof (ok_nodup _ _ _ _ _ Hok) as Hn. rewrite Hp in Hn. apply NoDup_cons in Hn as [Hn _].
  intros Hin. apply Hn. unfold owned. set_solver.
Qed.

Lemma inv_drop s s' w : inv s -> owned s ≡ₚ w :: owned s' -> sound s' ⊆ sound s -> busy s' = busy s \/ (exists c, busy s' = dict_del c (busy s)) ->
  procs s' = procs (kill w s) -> next s' = next s -> size (the_pool s') = size (the_pool s) - 1 -> inv s'.
Proof.
  intros Hinv Hp Hs Hb Hpr Hn Hsz. pose proof (taken_fresh _ _ _ Hinv Hp) as Hw. destruct Hinv as [Hok Hwf]. split.
  - rewrite Hpr, Hn, Hsz. by eapply ok_drop.
  - destruct Hb as [-> |[c ->]]; [done|by apply dict_del_wf].
Qed.

Lemma reap_spec stack : forall s, idle (the_pool s) = rev stack -> inv s ->
  let '(s', found) := reap limit stack s in
  busy s' = busy s /\ warming s' = warming s /\ lost s' = lost s /\ next s' = next s /\ closing (the_pool s') = closing (the_pool s) /\
  match found with
  | None => inv s' /\ idle (the_pool s') = []
  | Some w => fit limit w s' = true /\ ok (w :: owned s') (w :: sound s') (size (the_pool s')) (procs s') (next s')
  end.
Proof.
  induction stack as [|w stack IH]; intros s Hi Hinv; simpl in *.
  { split_and!; try done. destruct Hinv as [Hok Hwf]. split; [|done]. eapply ok_perm; [| |exact Hok]; unfold owned, sound; by rewrite Hi. }
  assert (owned s ≡ₚ w :: owned (set_idle (rev stack) 0 s)) as Hp.
  { unfold owned, sound, held. rewrite Hi. simpl. solve_Permutation. }
  destruct (fit limit w s) eqn:Hf.
  - split_and!; try done. destruct Hinv as [Hok _]. eapply ok_perm; [exact Hp| |exact Hok].
    unfold sound, held. rewrite Hi. simpl. set_solver.
  - specialize (IH (set_idle (rev stack) (size (the_pool s) - 1) (kill w s)) eq_refl). apply IH.
    eapply inv_drop; [exact Hinv|exact Hp| |by left|done|done|done]. unfold sound, held. rewrite Hi. simpl. set_solver.
Qed.

Lemma held_cons c w s : inv s -> dict_mem c (busy s) = false -> dict_wf ((c, w) :: busy s).
Proof. intros [_ Hwf] Hm. constructor; [by apply dict_mem_false|done]. Qed.

Lemma checkout_inv c spawn_ok s : inv s -> dict_mem c (busy s) = false ->
  let '(s', a) := checkout cap limit c spawn_ok s in inv s' /\
  match a with Got w => (c, w) ∈ busy s' /\ p_alive (proc_of w s') = true /\ p_unread (proc_of w s') = [] | _ => True end.
Proof.
  intros Hinv Hm. unfold checkout. destruct (closing (the_pool s)); [done|].
  pose proof (reap_spec (rev (idle (the_pool s))) s) as Hr. rewrite rev_involutive in Hr. specialize (Hr eq_refl Hinv).
  destruct (reap _ _ _) as [s1 [w|]]; destruct Hr as (Hb & Hw & Hl & Hnx & _ & Hr).
  - destruct Hr as [Hf Hok]. split; [split|].
    + eapply ok_perm; [| |exact Hok]; unfold owned, sound, held; simpl; [|set_solver]. solve_Permutation.
    + simpl. rewrite Hb. by eapply held_cons.
    + unfold fit in Hf. apply andb_prop in Hf as [Ha _]. split_and!; [set_solver|exact Ha|]. apply (ok_clean _ _ _ _ _ Hok). set_solver.
  - destruct Hr as [Hinv1 Hi]. destruct (Z.ltb_spec (size (the_pool s1)) cap) as [Hlt|]; [|done]. destruct spawn_ok; [|done].
    destruct Hinv1 as [Hok Hwf]. simpl. split; [split|].
    + simpl. eapply ok_perm; [| |apply (ok_spawn _ _ _ _ _ Hlt Hok)]; unfold owned, sound, held; simpl; [|set_solver].
      solve_Permutation.
    + simpl. constructor; [by rewrite Hb; apply dict_mem_false|done].
    + unfold proc_of. simpl. rewrite dict_get_set_eq. split_and!; [set_solver|done|done].
Qed.

(** A worker out of the books, in the hands of the call that took it. *)
Definition in_hand (w : nat) (s : sys) : Prop :=
  ok (w :: owned s) (sound s) (size (the_pool s)) (procs s) (next s) /\ dict_wf (busy s).

Lemma hand_lt w s : in_hand w s -> (w < next s)%nat.
Proof. intros [Hok _]. pose proof (ok_next _ _ _ _ _ Hok) as H. by apply Forall_cons in H as [H _]. Qed.

Lemma hand_fresh w s : in_hand w s -> w ∉ sound s.
Proof. intros [Hok _] Hin. pose proof (ok_nodup _ _ _ _ _ Hok) as H. apply NoDup_cons in H as [H _]. apply H. unfold owned. set_solver. Qed.

Lemma take_busy c w s : inv s -> dict_get c (busy s) = Some w -> in_hand w (set_busy (dict_del c (busy s)) s) /\ p_unread (proc_of w s) = [].
Proof.
  intros [Hok Hwf] Hg. pose proof (dict_del_perm _ _ _ Hg) as Hp. split; [split|].
  - eapply ok_perm; [| |exact Hok]; unfold owned, sound, held; simpl; rewrite Hp; [solve_Permutation|set_solver].
  - by apply dict_del_wf.
  - apply (ok_clean _ _ _ _ _ Hok). unfold sound, held. rewrite Hp. set_solver.
Qed.

Lemma execute_hand w r e s : in_hand w s -> in_hand w (worker_execute w r e s).1.
Proof.
  intros Hh. pose proof (hand_lt _ _ Hh). pose proof (hand_fresh _ _ Hh) as Hf. destruct Hh as [Hok Hwf].
  assert (forall p, ok (w :: owned s) (sound s) (size (the_pool s)) (dict_set w p (procs s)) (next s)) as Hset.
  { intros p. eapply ok_proc; [exact Hok|set_solver|done|set_solver|done]. }
  unfold worker_execute. destruct e; simpl; try (split; [apply Hset|done]); [|done]. destruct (p_unread (proc_of w s)); split; simpl; auto.
Qed.

Lemma execute_reply w r s : p_unread (proc_of w s) = [] -> exists s', worker_execute w r Replied s = (s', Some r) /\ p_unread (proc_of w s') = [].
Proof. intros H. unfold worker_execute. rewrite H. simpl. eexists. split; [done|]. unfold proc_of. simpl. by rewrite dict_get_set_eq. Qed.

Lemma drop_hand w s : in_hand w s -> inv (set_idle (idle (the_pool s)) (size (the_pool s) - 1) (kill w s)).
Proof. intros Hh. pose proof (hand_fresh _ _ Hh). destruct Hh as [Hok Hwf]. split; [|done]. by eapply ok_drop. Qed.

Lemma keep_hand w s : in_hand w s -> p_unread (proc_of w s) = [] -> inv (set_idle (idle (the_pool s) ++ [w]) (size (the_pool s)) s).
Proof.
  intros [[A B C D E F G] Hwf] Hu. split; [|done]. apply (ok_perm (w :: owned s) _ (w :: sound s)).
  - unfold owned, sound, held. simpl. solve_Permutation.
  - unfold sound, held. simpl. set_solver.
  - split; try done. intros v Hv. apply elem_of_cons in Hv as [->|Hv]; [exact Hu|by apply F].
Qed.

Lemma checkin_inv w healthy s : in_hand w s -> (healthy = true -> p_unread (proc_of w s) = []) -> inv (checkin limit w healthy s).
Proof.
  intros Hh Hu. unfold checkin. destruct (healthy && fit limit w s) eqn:Hf.
  - apply andb_prop in Hf as [Hhe _]. apply keep_hand; auto.
  - destruct (healthy && _ && _); [by apply (drop_hand w (metric "recycled" s))|]. destruct (negb healthy); [by apply (drop_hand w (metric "crashed" s))|].
    exact (drop_hand w s Hh).
Qed.

Lemma finish_spec c r e s : inv s -> let '(s', a) := finish limit c r e s in inv s' /\ (forall x, a = Some (Result x) -> x = r).
Proof.
  intros Hinv. unfold finish. destruct (dict_get c (busy s)) as [w|] eqn:Hg; [|done].
  destruct (take_busy c w s Hinv Hg) as [Hh Hu].
  assert (in_hand w (set_busy (dict_del c (busy (worker_execute w r e s).1)) (worker_execute w r e s).1)) as Hx.
  { pose proof (execute_hand w r e _ Hh) as H. unfold worker_execute in *. destruct e; try exact H.
    change (proc_of w (set_busy _ s)) with (proc_of w s) in H. destruct (p_unread (proc_of w s)); exact H. }
  destruct e; [destruct (execute_reply w r s Hu) as (s1 & He & Hu1); rewrite He in *|..].
  - simpl in *. split; [|by intros x [= <-]]. apply inv_metric. by apply checkin_inv.
  - simpl in *. split; [|done]. by apply checkin_inv.
  - simpl in *. split; [|done]. by apply checkin_inv.
  - simpl in *. split; [|done]. destruct Hx as [Hok Hwf]. split; [|done].
    eapply ok_perm; [| |exact Hok]; unfold owned, sound, held; simpl; [solve_Permutation|set_solver].
Qed.

Lemma prewarm_start_inv spawn_ok s : inv s -> inv (prewarm_start cap spawn_ok s).
Proof.
  intros Hinv. unfold prewarm_start. destruct (closing _ || _) eqn:Hc; [done|]. destruct spawn_ok; [|done].
  apply orb_false_elim in Hc as [_ Hc]. apply Z.leb_gt in Hc. destruct Hinv as [Hok Hwf]. split; [|done]. simpl.
  eapply ok_perm; [| |apply (ok_spawn _ _ _ _ _ Hc Hok)]; unfold owned, sound, held; simpl; [solve_Permutation|set_solver].
Qed.

Lemma filter_perm (w : nat) l : NoDup l -> w ∈ l -> l ≡ₚ w :: filter (fun v => v <> w) l.
Proof.
  intros Hn Hw. apply NoDup_Permutation; [done| |].
  - constructor; [rewrite list_elem_of_filter; tauto|by apply NoDup_filter].
  - intros x. rewrite elem_of_cons, list_elem_of_filter. destruct (decide (x = w)) as [->|]; tauto.
Qed.

Lemma take_warming w s : inv s -> w ∈ warming s -> in_hand w (set_warming (filter (fun v => v <> w) (warming s)) s) /\ p_unread (proc_of w s) = [].
Proof.
  intros [Hok Hwf] Hw. pose proof (ok_nodup _ _ _ _ _ Hok) as Hn. unfold owned, sound in Hn.
  assert (NoDup (warming s)) as Hnw by (rewrite !NoDup_app in Hn; tauto). pose proof (filter_perm w _ Hnw Hw) as Hp. split; [split|].
  - eapply ok_perm; [| |exact Hok]; unfold owned, sound, held; simpl; [rewrite Hp at 1; solve_Permutation|].
    intros x. rewrite !elem_of_app, list_elem_of_filter. tauto.
  - done.
  - apply (ok_clean _ _ _ _ _ Hok). unfold sound. set_solver.
Qed.

Lemma prewarm_end_inv w r e s : inv s -> inv (prewarm_end w r e s).
Proof.
  intros Hinv. unfold prewarm_end. destruct (decide (w ∈ warming s)) as [Hw|]; [|done]. destruct (take_warming w s Hinv Hw) as [Hh Hu].
  assert (in_hand w (set_warming (filter (fun v => v <> w) (warming (worker_execute w r e s).1)) (worker_execute w r e s).1)) as Hx.
  { pose proof (execute_hand w r e _ Hh) as H. unfold worker_execute in *. destruct e; try exact H.
    change (proc_of w (set_warming _ s)) with (proc_of w s) in H. destruct (p_unread (proc_of w s)); exact H. }
  destruct e; [destruct (execute_reply w r s Hu) as (s1 & He & Hu1); rewrite He in *; clear He|..]; cbn [worker_execute fst] in *; try exact (drop_hand w _ Hx).
  set (s2 := set_warming _ s1) in *. destruct (p_alive (proc_of w s2)); [exact (keep_hand w s2 Hx Hu1)|exact (drop_hand w s2 Hx)].
Qed.

Lemma kill_inv w s : inv s -> (w < next s)%nat -> inv (kill w s).
Proof.
  intros [Hok Hwf] Hlt. split; [|done]. eapply ok_proc; [exact Hok|done|done|auto|]. intros Hw. by apply (ok_clean _ _ _ _ _ Hok).
Qed.

Lemma foldr_kill l s : Forall (fun w => w < next s)%nat l -> let s' := foldr kill s l in
  the_pool s' = the_pool s /\ next s' = next s /\ busy s' = busy s /\ warming s' = warming s /\ lost s' = lost s /\
  forall v, p_unread (proc_of v s') = p_unread (proc_of v s) /\ (p_alive (proc_of v s') = true -> v ∉ l /\ p_alive (proc_of v s) = true) /\
    ((next s <= v)%nat -> dict_get v (procs s') = dict_get v (procs s)).
Proof.
  induction 1 as [|w l Hw _ IH]; simpl.
  { split_and!; try reflexivity. intros v. split_and!; [done|intros Ha; split; [by intros ?%elem_of_nil|done]|done]. }
  destruct IH as (H1 & H2 & H3 & H4 & H5 & H6). split_and!; try done. intros v. destruct (H6 v) as (U & A & N). unfold proc_of in *. simpl.
  destruct (decide (w = v)) as [<-|Hne].
  - rewrite !dict_get_set_eq. simpl. split_and!; [done|done|lia].
  - rewrite !dict_get_set_ne by done. split_and!; [done| |done]. intros Ha. destruct (A Ha). split; [set_solver|done].
Qed.

(** Killing the idle workers and taking them off the books. *)
Lemma kill_idle_inv s : inv s -> inv (kill_idle s) /\ idle (the_pool (kill_idle s)) = [] /\ owned (kill_idle s) = held s ++ warming s ++ lost s.
Proof.
  intros [[A B C D E F G] Hwf]. unfold owned, sound in A, B, D. rewrite <- !app_assoc in *. rewrite !length_app in B.
  apply NoDup_app in A as (_ & Hdis & Hnd). apply Forall_app in D as [Hidle D].
  destruct (foldr_kill _ s Hidle) as (H1 & H2 & H3 & H4 & H5 & H6).
  assert (owned (kill_idle s) = held s ++ warming s ++ lost s) as Ho.
  { unfold kill_idle, owned, sound, held. simpl. by rewrite H3, H4, H5, <- app_assoc. }
  split; [split; [|simpl; by rewrite H3]|done]. rewrite Ho. unfold kill_idle. simpl. rewrite H1, H2. split; try done.
  - rewrite !length_app. unfold held in *. lia.
  - lia.
  - intros w Hw. destruct (H6 w) as (_ & _ & ->); auto.
  - intros w Hw. destruct (H6 w) as (U & _ & _). unfold proc_of in U. rewrite U. apply F.
    unfold kill_idle, sound, held in *. simpl in Hw. rewrite H3, H4 in Hw. set_solver.
  - intros w Hw. destruct (H6 w) as (_ & Ha & _). destruct (Ha Hw) as [Hn Hal]. apply G in Hal. unfold owned, sound in Hal. set_solver.
Qed.

Lemma step_inv ev s : inv s -> inv (step cap limit ev s).
Proof.
  intros Hinv. destruct ev as [c spawn_ok|c|c r e|spawn_ok|w r e| | | |w]; simpl.
  - destruct (dict_mem c (busy s)) eqn:Hm; [done|]. pose proof (checkout_inv c spawn_ok s Hinv Hm) as H. destruct (checkout _ _ _ _ _). apply H.
  - by apply inv_metric.
  - pose proof (finish_spec c r e s Hinv) as H. destruct (finish _ _ _ _ _). apply H.
  - by apply prewarm_start_inv.
  - by apply prewarm_end_inv.
  - destruct Hinv. done.
  - by apply kill_idle_inv.
  - by apply kill_idle_inv.
  - destruct (dict_mem w (procs s)) eqn:Hm; [|done]. apply kill_inv; [done|]. destruct Hinv as [Hok _].
    destruct (decide (w < next s)%nat) as [|Hge]; [done|]. unfold dict_mem in Hm. by rewrite (ok_fresh _ _ _ _ _ Hok) in Hm by lia.
Qed.

Lemma run_inv evs : forall s, inv s -> inv (run cap limit evs s).
Proof. unfold run. induction evs as [|ev evs IH]; intros s Hs; simpl; [done|]. apply IH. by apply step_inv. Qed.

Lemma initial_inv : 0 <= cap -> inv initial.
Proof.
  intros Hc. split; [|constructor]. split; simpl; try done; constructor.
Qed.

(** A worker that died; it stays dead, and its number is not given again. *)
Definition gone (w : nat) (s : sys) : Prop := (w < next s)%nat /\ p_alive (proc_of w s) = false.

Lemma gone_set w v p s : gone w s -> (p_alive p = true -> p_alive (proc_of v s) = true) -> gone w (set_proc v p s).
Proof.
  intros [Hw Hd] Hp. split; [done|]. unfold proc_of in *. simpl.
  destruct (decide (v = w)) as [<-|]; [rewrite dict_get_set_eq; simpl|by rewrite dict_get_set_ne].
  destruct (p_alive p); [|done]. by rewrite (Hp eq_refl) in Hd.
Qed.

Lemma gone_kill w v s : gone w s -> gone w (kill v s).
Proof. intros H. by apply gone_set. Qed.

Lemma gone_spawn w s : gone w s -> gone w (spawn s).1.
Proof. intros [Hw Hd]. split; simpl; [lia|]. unfold proc_of in *. simpl. by rewrite dict_get_set_ne by lia. Qed.

Lemma gone_execute w v r e s : gone w s -> gone w (worker_execute v r e s).1.
Proof.
  intros H. unfold worker_execute. destruct e; [destruct (p_unread (proc_of v s) ++ [r])|..]; simpl; try done; by apply gone_set.
Qed.

Lemma gone_reap w st : forall s, gone w s -> gone w (reap limit st s).1.
Proof. induction st as [|v st IH]; intros s Hs; simpl; [done|]. destruct (fit _ _ _); [done|]. apply IH. by apply (gone_kill w v s). Qed.

Lemma gone_checkin w v healthy s : gone w s -> gone w (checkin limit v healthy s).
Proof.
  intros Hs. unfold checkin. destruct (healthy && fit limit v s); [done|].
  destruct (healthy && _ && _); [by apply (gone_kill w v s)|]. destruct (negb healthy); by apply (gone_kill w v s).
Qed.

Lemma gone_kill_all w l s : gone w s -> gone w (foldr kill s l).
Proof. intros H. induction l as [|v l IH]; simpl; [done|]. by apply gone_kill. Qed.

Lemma gone_step w ev s : gone w s -> gone w (step cap limit ev s).
Proof.
  intros Hs. destruct ev as [c spawn_ok|c|c r e|spawn_ok|v r e| | | |v]; cbn [step]; try done.
  - destruct (dict_mem c (busy s)); [done|]. unfold checkout. destruct (closing _); [done|].
    pose proof (gone_reap w (rev (idle (the_pool s))) s Hs) as H. destruct (reap _ _ _) as [s1 [v|]]; [done|]. simpl in H.
    destruct (_ <? _); [|done]. destruct spawn_ok; [|done]. by apply (gone_spawn w s1).
  - unfold finish. destruct (dict_get c (busy s)) as [v|]; [|done]. pose proof (gone_execute w v r e s Hs) as H.
    destruct (worker_execute v r e s) as [s1 a]. simpl in H. destruct e; [destruct a|..]; try done; by apply gone_checkin.
  - unfold prewarm_start. destruct (_ || _); [done|]. destruct spawn_ok; [|done]. by apply (gone_spawn w s).
  - unfold prewarm_end. destruct (decide _); [|done]. pose proof (gone_execute w v r e s Hs) as H.
    destruct (worker_execute v r e s) as [s1 [a|]]; simpl in H; [|by apply (gone_kill w v s1)].
    destruct (p_alive _); [done|]. by apply (gone_kill w v s1).
  - by apply (gone_kill_all w (idle (the_pool s)) s).
  - by apply (gone_kill_all w (idle (the_pool s)) s).
  - destruct (dict_mem v (procs s)); [by apply gone_kill|done].
Qed.

Lemma gone_run w evs : forall s, gone w s -> gone w (run cap limit evs s).
Proof. unfold run. induction evs as [|ev evs IH]; intros s Hs; simpl; [done|]. apply IH. by apply gone_step. Qed.
End Invariant.

(** ** What callers can rely on *)

(** However callers, the pre-warm, a drain and dying processes interleave, a
    worker is idle or held by one caller or lost, never two of these; the pool counts
    its workers right and owns at most its size, and every live process is one of
    them; a caller that gets a worker gets a live one with an empty pipe, never one
    that died before; and a reply is the answer to the caller's own request. *)
Lemma pool_serves_exclusively cap limit evs caller spawn_ok request e : 0 <= cap ->
  let s := run cap limit evs initial in
  NoDup (owned s) /\ size (the_pool s) = Z.of_nat (length (owned s)) /\ size (the_pool s) <= cap /\
  (forall w, p_alive (proc_of w s) = true -> w ∈ owned s) /\
  (forall w s', dict_mem caller (busy s) = false -> checkout cap limit caller spawn_ok s = (s', Got w) ->
     p_alive (proc_of w s') = true /\ p_unread (proc_of w s') = [] /\
     forall before after, evs = before ++ after -> ~ gone w (run cap limit before initial)) /\
  (forall s' answer, finish limit caller request e s = (s', Some (Result answer)) -> answer = request).
Proof.
  intros Hcap s. assert (inv cap s) as Hinv by (apply run_inv; by apply initial_inv). pose proof (proj1 Hinv) as [A B C D E F G].
  split_and!; try done.
  - intros w s' Hm Hc. pose proof (checkout_inv cap limit caller spawn_ok s Hinv Hm) as H. rewrite Hc in H. destruct H as (_ & _ & Ha & Hu).
    split_and!; [done|done|]. intros before after -> Hg. assert (gone w s') as [_ Hd]; [|congruence].
    apply (gone_run cap limit w after) in Hg. unfold run in Hg. rewrite <- fold_left_app in Hg. fold (run cap limit (before ++ after) initial) in Hg.
    fold s in Hg. pose proof (gone_step cap limit w (Checkout caller spawn_ok) s Hg) as H. cbn [step] in H. rewrite Hm, Hc in H. exact H.
  - intros s' answer Hf. pose proof (finish_spec cap limit caller request e s Hinv) as H. rewrite Hf in H. by apply (proj2 H).
Qed.

(** A pool whose workers are all back serves the next caller. *)
Lemma free_pool_serves cap limit s caller : 1 <= cap -> inv cap s -> closing (the_pool s) = false ->
  busy s = [] -> warming s = [] -> lost s = [] -> exists s' w, checkout cap limit caller true s = (s', Got w).
Proof.
  intros Hcap Hinv Hcl Hb Hw Hl. unfold checkout. rewrite Hcl.
  pose proof (reap_spec cap limit (rev (idle (the_pool s))) s) as Hr. rewrite rev_involutive in Hr. specialize (Hr eq_refl Hinv).
  destruct (reap _ _ _) as [s1 [w|]]; [by eauto|]. destruct Hr as (Hb1 & Hw1 & Hl1 & _ & _ & [Hok _] & Hi).
  pose proof (ok_size _ _ _ _ _ _ Hok) as Hs. unfold owned, sound, held in Hs. rewrite Hi, Hb1, Hw1, Hl1, Hb, Hw, Hl in Hs. simpl in Hs.
  rewrite (proj2 (Z.ltb_lt _ _)) by lia. by eauto.
Qed.

(** Lost workers are never returned: once there are as many as the pool's size, every
    caller is turned away for good. *)
Lemma lost_stays cap limit ev s : lost s `suffix_of` lost (step cap limit ev s).
Proof.
  assert (forall st s, lost (reap limit st s).1 = lost s) as Hreap.
  { clear s. induction st as [|v st IH]; intros s; simpl; [done|]. destruct (fit _ _ _); [done|]. by rewrite IH. }
  assert (forall l, lost (foldr kill s l) = lost s) as Hkill by (induction l; done).
  assert (forall v r e, lost (worker_execute v r e s).1 = lost s) as Hexec
    by (intros v r e; unfold worker_execute; destruct e; [destruct (p_unread _ ++ _)|..]; done).
  destruct ev as [c spawn_ok|c|c r e|spawn_ok|v r e| | | |v]; cbn [step]; try done.
  - destruct (dict_mem _ _); [done|]. unfold checkout. destruct (closing _); [done|]. pose proof (Hreap (rev (idle (the_pool s))) s) as H.
    destruct (reap _ _ _) as [s1 [v|]]; simpl in H; [by rewrite <- H|]. destruct (_ <? _); [|by rewrite <- H]. destruct spawn_ok; by rewrite <- H.
  - unfold finish. destruct (dict_get c (busy s)) as [v|]; [|done]. pose proof (Hexec v r e) as H. destruct (worker_execute v r e s) as [s1 a].
    simpl in H. rewrite <- H. assert (forall b h, lost (checkin limit v b h) = lost h) as Hc.
    { intros b h. unfold checkin. destruct (b && fit _ _ _); [done|]. destruct (b && _ && _); [done|]. by destruct (negb b). }
    destruct e; [destruct a|..]; simpl; rewrite ?Hc; try done; by exists [v].
  - unfold prewarm_start. destruct (_ || _); [done|]. by destruct spawn_ok.
  - unfold prewarm_end. destruct (decide _); [|done]. pose proof (Hexec v r e) as H. destruct (worker_execute v r e s) as [s1 [a|]]; simpl in H.
    + destruct (p_alive _); by rewrite <- H.
    + by rewrite <- H.
  - simpl. by rewrite Hkill.
  - simpl. by rewrite Hkill.
  - by destruct (dict_mem v (procs s)).
Qed.

Lemma lost_pool_refuses cap limit evs s caller spawn_ok : inv cap s -> cap <= Z.of_nat (length (lost s)) ->
  let a := (checkout cap limit caller spawn_ok (run cap limit evs s)).2 in a = Saturated \/ a = Draining.
Proof.
  intros Hinv Hl. assert (cap <= Z.of_nat (length (lost (run cap limit evs s)))) as Hl'.
  { clear -Hl. revert s Hl. unfold run. induction evs as [|ev evs IH]; intros s Hl; simpl; [done|]. apply IH.
    pose proof (suffix_length _ _ (lost_stays cap limit ev s)). lia. }
  apply (run_inv cap limit evs) in Hinv. revert Hinv Hl'. generalize (run cap limit evs s). clear. intros s Hinv Hl. unfold checkout.
  destruct (closing (the_pool s)); [by right|]. left. destruct Hinv as [[A B C D E F G] _]. unfold owned, sound in B. rewrite !length_app in B.
  assert (idle (the_pool s) = []) as -> by (apply nil_length_inv; lia). simpl. rewrite (proj2 (Z.ltb_ge _ _)) by lia. done.
Qed.

(** After a drain and with no worker in use, no process is left. *)
Lemma drained_pool_empty cap s : inv cap s -> busy s = [] -> warming s = [] -> lost s = [] ->
  forall w, p_alive (proc_of w (drain_end s)) = false.
Proof.
  intros Hinv Hb Hw Hl w. destruct (kill_idle_inv cap s Hinv) as ([Hok _] & _ & Ho).
  destruct (p_alive (proc_of w (drain_end s))) eqn:Ha; [|done]. apply (ok_alive _ _ _ _ _ _ Hok) in Ha. unfold drain_end in Ha.
  rewrite Ho in Ha. unfold held in Ha. rewrite Hb, Hw, Hl in Ha. by apply elem_of_nil in Ha.
Qed.

(** ** Frames *)

Lemma pack_unpack n : 0 <= n < 2 ^ 32 -> exists h, pack_u32 n = Some h /\ length h = 4%nat /\ unpack_u32 h = Some n.
Proof.
  intros Hn. unfold pack_u32. rewrite (proj2 (Z.leb_le _ _)), (proj2 (Z.ltb_lt _ _)) by lia. cbn [andb]. eexists. split_and!; [done..|].
  cbn [unpack_u32]. f_equal. apply Z.bits_inj'. intros i Hi. change 255 with (Z.ones 8).
  rewrite !Z.lor_spec. rewrite !Z.shiftl_spec, !Z.land_spec by lia.
  destruct (Z.ltb_spec i 8); [|destruct (Z.ltb_spec i 16); [|destruct (Z.ltb_spec i 24); [|destruct (Z.ltb_spec i 32)]]].
  all: rewrite ?(Z.testbit_neg_r _ (i - 24)), ?(Z.testbit_neg_r _ (i - 16)), ?(Z.testbit_neg_r _ (i - 8)) by lia.
  all: rewrite ?Z.shiftr_spec by lia.
  all: rewrite ?Z.ones_spec_low by lia; rewrite ?Z.ones_spec_high by lia; rewrite ?andb_true_r, ?andb_false_r, ?orb_false_r, ?orb_false_l; try done.
  all: try (f_equal; lia).
  symmetry. apply Z.testbit_false; [lia|]. rewrite Z.div_small; [done|]. split; [lia|].
  apply Z.lt_le_trans with (2 ^ 32); [lia|]. apply Z.pow_le_mono_r; lia.
Qed.

Lemma read_exact_all chunks n : forall fuel body rest, length body = n -> (n <= fuel)%nat ->
  read_exact fuel n chunks (body ++ rest) = Some (body, rest).
Proof.
  induction n as [n IH] using lt_wf_ind. intros fuel body rest Hl Hf.
  destruct n as [|n]; [destruct body; [by destruct fuel|done]|]. destruct fuel as [|fuel]; [lia|]. cbn [read_exact].
  unfold read_chunk. set (m := Nat.min (S n) _). assert (1 <= m <= S n)%nat as Hm by (unfold m; lia).
  rewrite take_app_le, drop_app_le by lia. destruct (take m body) as [|b l] eqn:Ht.
  { apply (f_equal length) in Ht. rewrite length_take in Ht. simpl in Ht. lia. }
  assert (length (b :: l) = m) as Hlen by (rewrite <- Ht, length_take; lia). rewrite Hlen.
  rewrite (IH (S n - m)%nat); [|lia|rewrite length_drop; lia|lia]. by rewrite <- Ht, take_drop.
Qed.

(** What is written as a frame is read back whole, however the pipe cuts it up, and
    the bytes after it are left for the next read; a body of 2^32 bytes or more cannot
    be written. *)
Lemma frame_roundtrip chunks body rest :
  match write_frame body with
  | Some bytes => read_frame chunks (bytes ++ rest) = Some (body, rest)
  | None => 2 ^ 32 <= Z.of_nat (length body)
  end.
Proof.
  unfold write_frame. destruct (Z.ltb_spec (Z.of_nat (length body)) (2 ^ 32)) as [Hlt|Hge].
  - destruct (pack_unpack (Z.of_nat (length body))) as (h & -> & Hh & Hu); [lia|]. simpl. unfold read_frame.
    rewrite <- app_assoc, read_exact_all by lia. rewrite Hu, Nat2Z.id. by apply read_exact_all.
  - unfold pack_u32. rewrite (proj2 (Z.ltb_ge _ _)), andb_false_r by lia. done.
Qed.

(** ** Concrete runs *)

Definition two_callers : list event :=
  [Checkout 1 true; Checkout 2 true; Finish 1 10 Replied; Checkout 3 true; Finish 2 20 Crashed; Finish 3 30 Replied; Checkout 4 true].

Lemma pool_exclusive_witness :
  let s := run 2 500 two_callers initial in
  busy s = [(4, 0)]%nat /\ size (the_pool s) = 1 /\ p_requests (proc_of 0 s) = 2 /\
  (finish 500 4 40 Replied s).2 = Some (Result 40).
Proof.
  destruct (pool_serves_exclusively 2 500 two_callers 4 true 40 Replied) as (_ & _ & _ & _ & _ & Hf); [lia|].
  split_and!; [vm_compute; reflexivity..|].
  destruct (finish 500 4 40 Replied (run 2 500 two_callers initial)) as [s' [[x| | | |]|]] eqn:H; try (vm_compute in H; discriminate H).
  cbn [snd]. by rewrite (Hf s' x eq_refl).
Defined.

(** An error other than a crash or a timeout (a reader thread that cannot be started, a
    reply that is not JSON) is not caught by the pool: the worker is
    neither returned nor replaced, and a pool of one refuses from then on. *)
Example bad_reply_wedges_pool :
  let s := run 1 500 [Checkout 1 true; Finish 1 10 OtherError] initial in
  busy s = [] /\ size (the_pool s) = 1 /\ (checkout 1 500 2 true s).2 = Saturated.
Proof. vm_compute. repeat split. Qed.

(** A worker that is busy when a drain times out is put back among the idle workers
    of the closed pool and its process stays. *)
Example drain_leaves_process :
  let s := run 1 500 [Checkout 1 true; DrainStart; DrainEnd; Finish 1 10 Replied] initial in
  idle (the_pool s) = [0]%nat /\ p_alive (proc_of 0 s) = true /\ (checkout 1 500 2 true s).2 = Draining.
Proof. vm_compute. repeat split. Qed.

(** A script whose warm worker crashes half-way is run a second time. *)
Example crash_runs_script_twice : execute_script true (WarmFault true) = (2%nat, FromFresh).
Proof. reflexivity. Qed.
