(* ===== verification/EventBus.v ===== *)
(** * The event bus

    kernel/event_bus.py: events are broadcast to the other instances over a Redis
    channel, and an instance that hears one wakes its own waits.

    [instance] is one process: its scheduler with the stores behind it ([node]), the
    fields of its [EventBus], and the state of its subscriber thread: whether it is
    subscribed, the messages Redis holds for its connection, and the event it has
    found must be buffered but has not appended yet. The channel delivers a message to
    the connections that are subscribed when it is published and to no other. A message
    is the value its JSON text parses to, [None] when it does not parse. *)

From S2P Require Import Prelude PyVal CircuitBreaker Scheduler SchedulerWaits.

Local Open Scope string_scope.
Local Open Scope Z_scope.
Local Open Scope list_scope.

(** Event type, correlation id and run id. *)
Definition event : Type := string * option string * option string.

Definition MAX_BUFFER_SIZE : nat := 1000.
Definition PUBLISH_FAILURE_THRESHOLD : Z := 3.
(** In milliseconds. *)
Definition RECONNECT_BASE_DELAY : Z := 1000.
Definition RECONNECT_MAX_DELAY : Z := 30000.

Record bus := Bus {
  bus_id : string;
  bus_enabled : bool;
  publish_breaker : breaker;
  has_client : bool;
  buffer : list event }.

Definition new_bus (id : string) (enabled : bool) (recovery_secs : Z) : bus :=
  Bus id enabled (init_breaker PUBLISH_FAILURE_THRESHOLD recovery_secs) false [].

(** [_get_instance_id] on the two variables of the environment and the host's name. *)
Definition get_instance_id (env_instance env_hostname : option string) (gethostname : string) : string :=
  let non_empty s := match s with Some "" | None => None | Some s => Some s end in
  match non_empty env_instance, non_empty env_hostname, non_empty (Some gethostname) with
  | Some s, _, _ | None, Some s, _ | None, None, Some s => s
  | None, None, None => "unknown-instance"
  end.

(** ** Publishing *)

Definition opt_text (s : option string) : pyval := match s with Some s => VStr s | None => VNone end.

Definition payload_of (source : string) (ev : event) : pyval :=
  VDict [("event_type", VStr ev.1.1); ("correlation_id", opt_text ev.1.2); ("run_id", opt_text ev.2);
         ("source_instance_id", VStr source)].

(** [redis_ok] says whether the one guarded operation succeeds; the answer is whether
    the message was handed to Redis. *)
Definition publish (t0 t1 : Z) (redis_ok : bool) (ev : event) (b : bus) : bus * bool :=
  if bus_enabled b then
    let '(out, _, br) := CircuitBreaker.call (publish_breaker b) (if redis_ok then FReturn tt else FException) t0 t1 in
    match out with
    | Ok _ => (Bus (bus_id b) true br true (buffer b), true)
    | Err Rejected => (Bus (bus_id b) true br (has_client b) (buffer b), false)
    | Err _ => (Bus (bus_id b) true br false (buffer b), false)
    end
  else (b, false).

Definition publishing_suspended (b : bus) : bool := bool_decide (b_state (publish_breaker b) = OPEN).

Definition propagation_mode (redis_connected subscriber_running : bool) (b : bus) : string :=
  if bus_enabled b then
    if publishing_suspended b then "local-only"
    else if redis_connected && subscriber_running then "cross-instance" else "local-only"
  else "disabled".

(** The delay after a lost connection and the one after it. *)
Definition next_delay (delay : Z) : Z := Z.min (delay * 2) RECONNECT_MAX_DELAY.

Section Bus.
Context {CB : Type}.
Context (cfg : SchedulerWaits.config CB).

Record instance := Instance {
  i_bus : bus;
  i_node : node CB;
  subscribed : bool;
  inbox : list (option pyval);
  appending : option event;
  (* what an observer has seen so far *)
  due : list event;            (* published by others while this one was subscribed *)
  notified : list event;       (* passed to the scheduler by the bus *)
  dropped : list event }.      (* lost with a connection or to a full buffer *)

Definition set_bus b (i : instance) : instance :=
  Instance b (i_node i) (subscribed i) (inbox i) (appending i) (due i) (notified i) (dropped i).
Definition set_buffer l (i : instance) : instance :=
  let b := i_bus i in set_bus (Bus (bus_id b) (bus_enabled b) (publish_breaker b) (has_client b) l) i.
Definition set_appending a (i : instance) : instance :=
  Instance (i_bus i) (i_node i) (subscribed i) (inbox i) a (due i) (notified i) (dropped i).
Definition set_inbox l (i : instance) : instance :=
  Instance (i_bus i) (i_node i) (subscribed i) l (appending i) (due i) (notified i) (dropped i).
Definition set_node n (i : instance) : instance :=
  Instance (i_bus i) n (subscribed i) (inbox i) (appending i) (due i) (notified i) (dropped i).
Definition set_connection up lost (i : instance) : instance :=
  Instance (i_bus i) (i_node i) up [] (appending i) (due i) (notified i) (lost ++ dropped i).

(** The scheduler is told of an event heard from the channel; an exception of it is
    logged, and what it did before stands. *)
Definition notify (now : Z) (ev : event) (i : instance) : instance :=
  let n := (notify_event cfg now (i_node i) ev.1.1 ev.1.2 ev.2 false).2 in
  Instance (i_bus i) n (subscribed i) (inbox i) (appending i) (due i) (notified i ++ [ev]) (dropped i).

(** ** Hearing *)

(** [v or None] of a field that holds text; [None] when it holds something else. *)
Definition text_field (v : pyval) : option (option string) :=
  match v with
  | VNone => Some None
  | VStr s => Some (if decide (s = "") then None else Some s)
  | _ => None
  end.

(** What [_handle_message] makes of a message: nothing to do; an event; a value that is
    not an object, whose [.get] raises; or fields that are not text, which no instance
    publishes and which are left out here. *)
Inductive heard := Ignored | Heard (ev : event) | NotAnObject | Untyped.

Definition parse_message (id : string) (data : option pyval) : heard :=
  match data with
  | None => Ignored
  | Some (VDict d) =>
      if py_eq (py_get "source_instance_id" d) (VStr id) then Ignored
      else match py_get "event_type" d with
           | VStr ty =>
               if decide (ty = "") then Ignored
               else match text_field (py_get "correlation_id" d), text_field (py_get "run_id" d) with
                    | Some corr, Some run => Heard (ty, corr, run)
                    | _, _ => Untyped
                    end
           | _ => Ignored
           end
  | Some _ => NotAnObject
  end.

(** The events a lost connection still held for this instance. *)
Definition heard_event (id : string) (data : option pyval) : option event :=
  match parse_message id data with Heard ev => Some ev | _ => None end.
Definition pending (i : instance) : list event := omap (heard_event (bus_id (i_bus i))) (inbox i).

(** The subscriber takes its next message. An engine that is not rehydrated makes it
    go on to buffer the event, which is a step of its own ([append_event]); a value
    that is not an object ends the connection. *)
Definition handle_message (now : Z) (i : instance) : instance :=
  match inbox i, appending i with
  | data :: rest, None =>
      let i := set_inbox rest i in
      match parse_message (bus_id (i_bus i)) data with
      | Ignored | Untyped => i
      | Heard ev => if rehydration_complete (eng (i_node i)) then notify now ev i else set_appending (Some ev) i
      | NotAnObject => set_connection false (pending i) i
      end
  | _, _ => i
  end.

Definition append_event (i : instance) : instance :=
  match appending i with
  | Some ev =>
      let i := set_appending None i in
      if decide (length (buffer (i_bus i)) < MAX_BUFFER_SIZE)%nat
      then set_buffer (buffer (i_bus i) ++ [ev]) i
      else Instance (i_bus i) (i_node i) (subscribed i) (inbox i) (appending i) (due i) (notified i) (ev :: dropped i)
  | None => i
  end.

(** [drain_buffered_events] *)
Definition drain (now : Z) (i : instance) : instance :=
  fold_left (fun i ev => notify now ev i) (buffer (i_bus i)) (set_buffer [] i).

(** ** Several instances *)

Record cluster := Cluster { members : list (string * instance) }.

(** [x or None] on the ids of an event. *)
Definition normal (ev : event) : event :=
  let or_none s := match s with Some "" | None => None | Some _ => s end in
  (ev.1.1, or_none ev.1.2, or_none ev.2).

(** A message reaches the inbox of every subscribed connection, the publisher's too;
    it is due to those with another instance id. *)
Definition receive (source : string) (ev : event) (i : instance) : instance :=
  if subscribed i then
    let d := if decide (bus_id (i_bus i) = source \/ ev.1.1 = "") then due i else due i ++ [normal ev] in
    Instance (i_bus i) (i_node i) true (inbox i ++ [Some (payload_of source ev)]) (appending i) d (notified i) (dropped i)
  else i.

Definition update (k : string) (f : instance -> instance) (c : cluster) : cluster :=
  Cluster (map (fun ki => if decide (ki.1 = k) then (ki.1, f ki.2) else ki) (members c)).

(** [publish_event] on an instance: wake the waits here, then tell the others; an
    engine that is not rehydrated, or that raises, returns before the second. *)
Definition emit (k : string) (now t0 t1 : Z) (redis_ok : bool) (ev : event) (c : cluster) : cluster :=
  match dict_get k (members c) with
  | None => c
  | Some i =>
      if rehydration_complete (eng (i_node i)) then
        match notify_event cfg now (i_node i) ev.1.1 ev.1.2 ev.2 false with
        | (Err _, n) => update k (set_node n) c
        | (Ok _, n) =>
            let '(b, ok) := publish t0 t1 redis_ok ev (i_bus i) in
            let c := update k (fun i => set_bus b (set_node n i)) c in
            if ok then Cluster (map (fun ki => (ki.1, receive (bus_id (i_bus i)) ev ki.2)) (members c)) else c
        end
      else update k (set_node (notify_event cfg now (i_node i) ev.1.1 ev.1.2 ev.2 true).2) c
  end.

Inductive action :=
| Emit (k : string) (now t0 t1 : Z) (redis_ok : bool) (ev : event)
| Hear (k : string) (now : Z)
| Append (k : string)
| Subscribe (k : string)
| Disconnect (k : string)               (* what the connection held is lost *)
| Rehydrated (k : string) (now : Z)      (* mark_rehydration_complete *)
| Drain (k : string) (now : Z)
| Garbage (k : string) (data : option pyval).   (* someone else writes to the channel *)

(** Another writer's message is only modelled when it is no event of an instance. *)
Definition garbage (data : option pyval) (i : instance) : instance :=
  match parse_message (bus_id (i_bus i)) data with
  | Heard _ => i
  | _ => if subscribed i then set_inbox (inbox i ++ [data]) i else i
  end.

Definition act (a : action) (c : cluster) : cluster :=
  match a with
  | Emit k now t0 t1 ok ev => emit k now t0 t1 ok ev c
  | Hear k now => update k (handle_message now) c
  | Append k => update k append_event c
  | Subscribe k => update k (fun i => if bus_enabled (i_bus i) then set_connection true (pending i) i else i) c
  | Disconnect k => update k (fun i => set_connection false (pending i) i) c
  | Rehydrated k now => update k (fun i => set_node (mark_rehydration_complete cfg now (i_node i)) i) c
  | Drain k now => update k (drain now) c
  | Garbage k data => update k (garbage data) c
  end.

Definition run (l : list action) (c : cluster) : cluster := fold_left (fun c a => act a c) l c.

(** ** What an instance is told *)

#[local] Arguments heard_event : simpl never.

(** Every event due to an instance is in exactly one place: passed to the scheduler,
    about to be buffered, buffered, held by the connection, or dropped. *)
Definition accounted (i : instance) : Prop :=
  due i ≡ₚ notified i ++ option_list (appending i) ++ buffer (i_bus i) ++ pending i ++ dropped i.

Lemma text_field_opt s : text_field (opt_text s) = Some (match s with Some "" | None => None | Some _ => s end).
Proof. by destruct s as [[|]|]. Qed.

Lemma parse_payload id source ev :
  parse_message id (Some (payload_of source ev)) = if decide (id = source \/ ev.1.1 = "") then Ignored else Heard (normal ev).
Proof.
  destruct ev as [[ty corr] run]. unfold parse_message, payload_of. cbn [py_get dict_get]. unfold py_get. simpl.
  case_bool_decide as Hid; [by rewrite decide_True by auto|].
  destruct (decide (ty = "")) as [->|Hty]; [by rewrite decide_True by auto|]. rewrite decide_False by (intros []; congruence).
  by rewrite !text_field_opt.
Qed.

Lemma accounted_receive source ev i : accounted i -> accounted (receive source ev i).
Proof.
  intros H. unfold receive. destruct (subscribed i); [|done]. unfold accounted, pending in *. simpl.
  rewrite omap_app. csimpl. unfold heard_event at 2. rewrite parse_payload. destruct (decide _); simpl; [by rewrite app_nil_r|].
  rewrite H. solve_Permutation.
Qed.

Lemma accounted_notify now ev i l : due i ≡ₚ ev :: notified i ++ l ->
  l ≡ₚ option_list (appending i) ++ buffer (i_bus i) ++ pending i ++ dropped i -> accounted (notify now ev i).
Proof.
  intros H Hl. unfold accounted, pending, notify in *. simpl. rewrite H, Hl, <- app_assoc. simpl. apply Permutation_middle.
Qed.

Lemma accounted_hear now i : accounted i -> accounted (handle_message now i).
Proof.
  intros H. unfold handle_message. destruct (inbox i) as [|data rest] eqn:Hin; [done|]. destruct (appending i) eqn:Hap; [done|].
  unfold accounted, pending in H. rewrite Hin, Hap in H. csimpl in H. unfold heard_event at 1 in H.
  change (bus_id (i_bus (set_inbox rest i))) with (bus_id (i_bus i)).
  destruct (parse_message (bus_id (i_bus i)) data) as [|ev| |] eqn:Hp; simpl in H.
  - unfold accounted, pending. simpl. by rewrite Hap.
  - destruct (rehydration_complete _).
    + eapply accounted_notify; simpl; [|reflexivity]. rewrite Hap, H. unfold pending. simpl. solve_Permutation.
    + unfold accounted, pending. simpl. rewrite H. solve_Permutation.
  - unfold accounted, pending, set_connection. simpl. rewrite Hap, H. unfold pending. simpl. solve_Permutation.
  - unfold accounted, pending. simpl. by rewrite Hap.
Qed.

Lemma accounted_append i : accounted i -> accounted (append_event i).
Proof.
  intros H. unfold append_event. destruct (appending i) as [ev|] eqn:Hap; [|done]. unfold accounted in H. rewrite Hap in H.
  destruct (decide _); unfold accounted, pending in *; simpl in *; rewrite H; solve_Permutation.
Qed.

Lemma accounted_connection up i : accounted i -> accounted (set_connection up (pending i) i).
Proof. intros H. unfold accounted in *. rewrite H. unfold pending. simpl. solve_Permutation. Qed.

Lemma accounted_drain now i : accounted i -> accounted (drain now i).
Proof.
  intros H. unfold drain. unfold accounted in H.
  assert (forall l i, due i ≡ₚ notified i ++ l ++ option_list (appending i) ++ buffer (i_bus i) ++ pending i ++ dropped i ->
    accounted (fold_left (fun i ev => notify now ev i) l i)) as Hfold.
  { clear. induction l as [|ev l IH]; intros i H; simpl; [exact H|]. apply IH. simpl. rewrite H. unfold pending. simpl. solve_Permutation. }
  apply Hfold. simpl. rewrite H. unfold pending. simpl. solve_Permutation.
Qed.

Lemma accounted_garbage data i : accounted i -> accounted (garbage data i).
Proof.
  intros H. unfold garbage. destruct (parse_message _ data) eqn:Hp; try done; destruct (subscribed i); try done;
    unfold accounted, pending in *; simpl; rewrite omap_app; csimpl; unfold heard_event at 2; rewrite Hp; simpl; by rewrite app_nil_r.
Qed.

(** Only the scheduler or the breaker of an instance changes. *)
Lemma accounted_same i i' : due i' = due i -> notified i' = notified i -> dropped i' = dropped i -> appending i' = appending i ->
  inbox i' = inbox i -> buffer (i_bus i') = buffer (i_bus i) -> bus_id (i_bus i') = bus_id (i_bus i) -> accounted i -> accounted i'.
Proof. intros H1 H2 H3 H4 H5 H6 H7. unfold accounted, pending. by rewrite H1, H2, H3, H4, H5, H6, H7. Qed.

Lemma publish_same t0 t1 ok ev b : let b' := (publish t0 t1 ok ev b).1 in bus_id b' = bus_id b /\ buffer b' = buffer b /\ bus_enabled b' = bus_enabled b.
Proof.
  unfold publish. destruct (bus_enabled b) eqn:He; [|done]. destruct (CircuitBreaker.call _ _ _ _) as [[[|[]] ?] ?]; done.
Qed.

Definition all_accounted (c : cluster) : Prop := Forall (fun ki => accounted ki.2) (members c).

Lemma update_accounted k f c : (forall i, accounted i -> accounted (f i)) -> all_accounted c -> all_accounted (update k f c).
Proof.
  intros Hf H. unfold all_accounted, update. simpl. apply Forall_fmap. eapply Forall_impl; [exact H|].
  intros ki Hki. simpl. destruct (decide _); simpl; auto.
Qed.

Lemma update_at k f c : (forall i, dict_get k (members c) = Some i -> accounted i -> accounted (f i)) -> dict_wf (members c) ->
  all_accounted c -> all_accounted (update k f c).
Proof.
  intros Hf Hwf H. unfold all_accounted, update. simpl. apply Forall_fmap. unfold all_accounted in H. rewrite Forall_forall in H |- *.
  intros [k' i] Hki. simpl. destruct (decide (k' = k)) as [->|]; simpl; [|by apply (H (k', i))].
  apply Hf; [by apply dict_elem_get|by apply (H (k, i))].
Qed.

Lemma update_keys k f c : map fst (members (update k f c)) = map fst (members c).
Proof. unfold update. simpl. rewrite map_map. apply map_ext. intros ki. by destruct (decide _). Qed.

Lemma receive_all_keys src ev (l : list (string * instance)) : map fst (map (fun ki => (ki.1, receive src ev ki.2)) l) = map fst l.
Proof. by rewrite map_map. Qed.

Lemma emit_keys k now t0 t1 ok ev c : map fst (members (emit k now t0 t1 ok ev c)) = map fst (members c).
Proof.
  unfold emit. destruct (dict_get _ _) as [i|]; [|done]. destruct (rehydration_complete _); [|apply update_keys].
  destruct (notify_event _ _ _ _ _ _ _) as [[] n]; [|apply update_keys]. destruct (publish _ _ _ _ _) as [b []]; [|apply update_keys].
  cbn [members]. by rewrite receive_all_keys, update_keys.
Qed.

Lemma emit_accounted k now t0 t1 ok ev c : dict_wf (members c) -> all_accounted c -> all_accounted (emit k now t0 t1 ok ev c).
Proof.
  intros Hwf H. unfold emit. destruct (dict_get _ _) as [i|] eqn:Hi; [|done].
  assert (forall n, all_accounted (update k (set_node n) c)) as Hnode.
  { intros n. apply update_accounted; [|done]. intros j. by apply accounted_same. }
  destruct (rehydration_complete _); [|apply Hnode].
  destruct (notify_event _ _ _ _ _ _ _) as [[] n]; [|apply Hnode].
  pose proof (publish_same t0 t1 ok ev (i_bus i)) as (Hid & Hbuf & _).
  destruct (publish t0 t1 ok ev (i_bus i)) as [b published]; simpl in Hid, Hbuf.
  assert (all_accounted (update k (fun i => set_bus b (set_node n i)) c)) as Hc.
  { apply update_at; [|done..]. intros j Hj. assert (j = i) as -> by congruence. by apply accounted_same. }
  destruct published; [|done]. unfold all_accounted in *. cbn [members]. apply Forall_fmap. eapply Forall_impl; [exact Hc|].
  intros [k' j]. apply accounted_receive.
Qed.

Lemma act_accounted a c : dict_wf (members c) -> all_accounted c -> dict_wf (members (act a c)) /\ all_accounted (act a c).
Proof.
  intros Hwf H. split.
  - unfold dict_wf, dict_keys in *. destruct a; cbn [act]; rewrite ?update_keys, ?emit_keys; done.
  - destruct a; simpl act; try (by apply emit_accounted); (apply update_accounted; [|done]); intros i.
    + apply accounted_hear.
    + apply accounted_append.
    + destruct (bus_enabled _); [apply accounted_connection|done].
    + apply accounted_connection.
    + by apply accounted_same.
    + apply accounted_drain.
    + apply accounted_garbage.
Qed.

Lemma run_accounted l : forall c, dict_wf (members c) -> all_accounted c -> all_accounted (run l c).
Proof.
  induction l as [|a l IH]; intros c Hwf H; [done|]. simpl. destruct (act_accounted a c Hwf H). by apply IH.
Qed.

(** A process that has just started. *)
Definition fresh (i : instance) : Prop :=
  subscribed i = false /\ inbox i = [] /\ appending i = None /\ buffer (i_bus i) = [] /\
  due i = [] /\ notified i = [] /\ dropped i = [].

Lemma fresh_accounted i : fresh i -> accounted i.
Proof. intros (_ & H1 & H2 & H3 & H4 & H5 & H6). unfold accounted, pending. by rewrite H1, H2, H3, H4, H5, H6. Qed.

(** However instances emit, hear, buffer, drain, lose and regain their connection,
    start up, and are sent rubbish, every event another instance published while an
    instance was subscribed is accounted for exactly once there: it was passed to the
    scheduler once, or is on its way (in the connection, in the subscriber's hands, in
    the buffer), or was lost with a connection or to a full buffer. So an instance with
    nothing on its way and nothing lost has told its scheduler of exactly the events due,
    none twice, none of its own, and none made up. *)
Lemma bus_delivers_once l c k i : dict_wf (members c) -> (forall k i, dict_get k (members c) = Some i -> fresh i) ->
  dict_get k (members (run l c)) = Some i ->
  due i ≡ₚ notified i ++ option_list (appending i) ++ buffer (i_bus i) ++ pending i ++ dropped i /\
  (appending i = None -> buffer (i_bus i) = [] -> inbox i = [] -> dropped i = [] -> notified i ≡ₚ due i).
Proof.
  intros Hwf Hfresh Hget. assert (all_accounted (run l c)) as H.
  { apply run_accounted; [done|]. apply Forall_forall. intros [k' j] Hj. apply fresh_accounted, (Hfresh k'). by apply dict_elem_get. }
  unfold all_accounted in H. rewrite Forall_forall in H. specialize (H (k, i) (dict_get_elem _ _ _ Hget)). unfold accounted in H. simpl in H. split; [exact H|].
  intros Ha Hb Hi Hd. symmetry. rewrite H. unfold pending. by rewrite Ha, Hb, Hi, Hd, !app_nil_r.
Qed.

(** ** A wait on another instance *)

Lemma update_get_eq k f c i : dict_get k (members c) = Some i -> dict_get k (members (update k f c)) = Some (f i).
Proof.
  unfold update. simpl. induction (members c) as [|[k' j] l IH]; simpl; [done|]. destruct (decide (k' = k)) as [->|]; simpl.
  - rewrite !decide_True by done. by intros [= ->].
  - rewrite !decide_False by congruence. exact IH.
Qed.

Lemma update_get_ne k k' f c : k <> k' -> dict_get k' (members (update k f c)) = dict_get k' (members c).
Proof.
  intros Hne. unfold update. simpl. induction (members c) as [|[k0 j] l IH]; simpl; [done|].
  destruct (decide (k0 = k)) as [->|]; simpl; destruct (decide _); congruence.
Qed.

Lemma receive_all_get src ev k (l : list (string * instance)) :
  dict_get k (map (fun ki => (ki.1, receive src ev ki.2)) l) = receive src ev <$> dict_get k l.
Proof. induction l as [|[k' j] l IH]; simpl; [done|]. destruct (decide _); [done|exact IH]. Qed.

Lemma publish_closed t0 t1 ev b : bus_enabled b = true -> b_state (publish_breaker b) = CLOSED -> (publish t0 t1 true ev b).2 = true.
Proof. intros He Hc. unfold publish, CircuitBreaker.call, enter_call. by rewrite He, Hc. Qed.

(** C39: A wait for a named event, with no condition and a valid priority, registered on an
    instance B, is woken by that event emitted for its run on another instance A: when B
    hears the message, the wait is gone and exactly one item with the registered callback
    joins the queue of the wait's priority. It needs that the event names the run; that A
    is rehydrated, its own notification does not raise, its bus is enabled with the breaker
    of publishing closed, and the publish succeeds; that the two buses have different ids;
    that B is subscribed and rehydrated with an empty inbox and no message half handled;
    and that resumes are not forwarded to a queue. *)
Theorem remote_wait_woken c ka kb ia ib now0 n rid ev te eu cb pr corr tr ty corr' p now t0 t1 now' :
  ka <> kb -> dict_get ka (members c) = Some ia -> dict_get kb (members c) = Some ib -> bus_id (i_bus ib) <> bus_id (i_bus ia) ->
  rehydration_complete (eng (i_node ia)) = true -> bus_enabled (i_bus ia) = true -> b_state (publish_breaker (i_bus ia)) = CLOSED ->
  (forall e, (notify_event cfg now (i_node ia) ev corr' (Some rid) false).1 <> Err e) ->
  subscribed ib = true -> inbox ib = [] -> appending ib = None ->
  i_node ib = register_wait cfg now0 n rid (Some ev) te eu cb pr corr tr ty None ->
  rehydration_complete (eng n) = true -> dict_wf (waiting (eng n)) -> forward_resumes cfg = false ->
  parse_priority (str_or (Some pr) PRIORITY_NORMAL) = Some p -> ev <> "" -> rid <> "" ->
  exists ib' it, dict_get kb (members (run [Emit ka now t0 t1 true (ev, corr', Some rid); Hear kb now'] c)) = Some ib' /\
    dict_get rid (waiting (eng (i_node ib'))) = None /\
    queue (eng (i_node ib')) p = queue (eng n) p ++ [it] /\ run_callback it = cb /\ run_id it = Some rid.
Proof.
  intros Hk Ha Hb Hid Hra Hea Hca Hok Hsub Hin Hap Hnode Hrn Hwf Hf Hp Hev Hrid.
  destruct (registered_wait_woken cfg now0 now' n rid ev te eu cb pr corr tr ty (normal (ev, corr', Some rid)).1.2 false p)
    as (n' & it & Hn & Hgone & Hq & Hcb & Hrun & _); try done.
  rewrite <- Hnode in Hn.
  simpl run. set (c1 := emit _ _ _ _ _ _ _).
  assert (dict_get kb (members c1) = Some (receive (bus_id (i_bus ia)) (ev, corr', Some rid) ib)) as Hc1.
  { unfold c1, emit. rewrite Ha, Hra. cbn [fst snd] in *. destruct (notify_event cfg now (i_node ia) _ _ _ _) as [[] na] eqn:Hna.
    - pose proof (publish_closed t0 t1 (ev, corr', Some rid) (i_bus ia) Hea Hca) as Hpub.
      destruct (publish _ _ _ _ _) as [ba pub]. simpl in Hpub. subst pub. cbn [members].
      by rewrite receive_all_get, update_get_ne, Hb.
    - by destruct (Hok e). }
  assert (rehydration_complete (eng (i_node ib)) = true) as Hrb.
  { rewrite Hnode. unfold register_wait. cbv zeta. rewrite persist_wait_backup_eng. unfold redis_register. by destruct (redis _). }
  assert ((normal (ev, corr', Some rid)).2 = Some rid) as Hnr by (simpl; by destruct rid).
  eexists _, it. split; [apply update_get_eq, Hc1|]. unfold receive. rewrite Hsub. unfold handle_message. cbn [inbox appending].
  rewrite Hin, Hap. cbn [app i_bus set_inbox]. rewrite parse_payload, decide_False by (simpl; intros []; done).
  assert ((normal (ev, corr', Some rid)).1.1 = ev) as Hty by done. destruct (normal (ev, corr', Some rid)) as [[ev' cr] tg].
  simpl in Hnr, Hty, Hn |- *. subst ev' tg. rewrite Hrb. simpl. rewrite Hn. done.
Qed.
End Bus.

(** ** Examples *)

Definition start (id : string) (n : node Z) : instance :=
  Instance (new_bus id true 60) n false [] None [] [] [].

Definition paid : event := ("paid", None, Some "r9").

Definition waiter (rehydrated : bool) : node Z :=
  register_wait demo_cfg 8 (empty_node rehydrated) "r9" (Some "paid") "tenant" "u9" 42 "high" None None "flow" None.

Definition pair_of (ida idb : string) (rehydrated : bool) : cluster :=
  Cluster [("p", start ida (empty_node true)); ("q", start idb (waiter rehydrated))].

Definition waits (k : string) (c : @cluster Z) : option (list string) :=
  (fun i => map fst (waiting (eng (i_node i)))) <$> dict_get k (members c).

Lemma bus_delivers_witness :
  (exists i, dict_get "q" (members (run demo_cfg [Subscribe "q"; Emit "p" 9 9 9 true paid; Emit "q" 9 9 9 true paid; Hear "q" 10; Hear "q" 10]
     (pair_of "a" "b" true))) = Some i /\ notified i ≡ₚ due i /\ due i = [paid]).
Proof.
  eexists. split; [vm_compute; reflexivity|]. split; [|reflexivity].
  refine (proj2 (bus_delivers_once demo_cfg [Subscribe "q"; Emit "p" 9 9 9 true paid; Emit "q" 9 9 9 true paid; Hear "q" 10; Hear "q" 10]
    (pair_of "a" "b" true) "q" _ _ _ _) _ _ _ _).
  - apply (bool_decide_unpack _). vm_compute. exact I.
  - intros k i. simpl. repeat (destruct (decide _); [intros [= <-]; by repeat split|]). done.
  - vm_compute. reflexivity.
  - reflexivity.
  - reflexivity.
  - reflexivity.
  - reflexivity.
Defined.

Definition listening : cluster := run demo_cfg [Subscribe "q"] (pair_of "a" "b" true).

Lemma remote_wait_witness :
  waits "q" listening = Some ["r9"] /\
  exists ib' it, dict_get "q" (members (run demo_cfg [Emit "p" 9 9 9 true ("paid", None, Some "r9"); Hear "q" 10] listening)) = Some ib' /\
    dict_get "r9" (waiting (eng (i_node ib'))) = None /\
    queue (eng (i_node ib')) High = queue (eng (empty_node true)) High ++ [it] /\ run_callback it = 42 /\ run_id it = Some "r9".
Proof.
  split; [reflexivity|].
  eapply (remote_wait_woken demo_cfg listening "p" "q" _ _ 8 (empty_node true) "r9" "paid" "tenant" "u9" 42 "high" None None "flow" None High);
    try reflexivity; try done.
  - apply (bool_decide_unpack _). vm_compute. exact I.
Defined.

(** The subscriber reads that the engine is not rehydrated; rehydration completes and
    the start-up drains the buffer; then the subscriber appends its event, and no later
    message or drain of the start-up delivers it: the wait stays. *)
Example event_stranded_in_buffer :
  let c := run demo_cfg [Subscribe "q"; Emit "p" 9 9 9 true paid; Hear "q" 10; Rehydrated "q" 10; Drain "q" 10; Append "q";
                         Emit "p" 11 11 11 true ("other", None, None); Hear "q" 12] (pair_of "a" "b" false) in
  waits "q" c = Some ["r9"] /\ (fun i => (buffer (i_bus i), map (fun e => e.1.1) (notified i))) <$> dict_get "q" (members c) = Some ([paid], ["other"]).
Proof. vm_compute. done. Qed.

(** An event emitted on an instance that is not rehydrated yet is replayed there when it
    is, and never published: the other instance's wait is not woken. *)
Example early_event_stays_local :
  let c := run demo_cfg [Subscribe "q"; Emit "p" 9 9 9 true paid; Rehydrated "p" 10; Hear "q" 11]
             (Cluster [("p", start "a" (empty_node false)); ("q", start "b" (waiter true))]) in
  waits "q" c = Some ["r9"] /\ due <$> dict_get "q" (members c) = Some [].
Proof. vm_compute. done. Qed.

(** A JSON value that is not an object ends the connection, and the events behind it
    are lost. *)
Example non_object_loses_events :
  let c := run demo_cfg [Subscribe "q"; Garbage "q" (Some (VInt 1)); Emit "p" 9 9 9 true paid; Hear "q" 10; Subscribe "q"; Hear "q" 11]
             (pair_of "a" "b" true) in
  waits "q" c = Some ["r9"] /\ dropped <$> dict_get "q" (members c) = Some [paid].
Proof. vm_compute. done. Qed.

(** Two processes with one instance id, the default of processes on one host, take each
    other's messages for their own. *)
Example same_host_deaf :
  let id := get_instance_id None (Some "host") "host" in
  let c := run demo_cfg [Subscribe "q"; Emit "p" 9 9 9 true paid; Hear "q" 10] (pair_of id id true) in
  waits "q" c = Some ["r9"].
Proof. vm_compute. done. Qed.
