(* ===== verification/Recovery.v ===== *)
(** * Recovery of stranded runs

    agents/stuck_run_service.py, agents/dead_letter_service.py, core/flow_continuation.py:
    the scan that start-up and the watchdog make over the run tables, the crash
    continuation it tries first, and the manual recovery of one agent run.

    [db] holds the committed rows. A row whose commit fails leaves the tables as they
    were ([fault]); the scan's snapshot is taken first and its rows are handled one by
    one, so other processes may write between them. Times are milliseconds. *)

From stdpp Require Import sorting pretty.
From S2P Require Import Prelude PyVal ConditionCodes StateMerge FlowRunner.

Local Open Scope string_scope.
Local Open Scope Z_scope.
Local Open Scope list_scope.

(** ** Tables *)

Record flow_row := FlowRow {
  f_name : string;
  f_type : option string;
  f_status : string;
  f_updated : Z;
  f_state : state;
  f_waiting_for : option string;
  f_deadline : option Z;
  f_error : option string;
  f_completed : option Z;
  f_dl_reason : option string;
  f_dl_at : option Z }.

(** A committed step of an agent run: its index, tool, status, result and error. *)
Record step_row := StepRow {
  s_run : string; s_index : Z; s_tool : string; s_status : string; s_result : pyval; s_error : option string }.

Record agent_row := AgentRow {
  a_user : string;
  a_flow : option string;
  a_status : string;
  a_started : option Z;
  a_completed : option Z;
  a_error : option string;
  a_steps : option (list step_row) }.   (* what [result] holds *)

Record db := Db {
  flows : list (string * flow_row);
  agents : list (string * agent_row);
  steps : list step_row;
  history : list (string * list hist) }.

Definition put_flow k r (d : db) : db := Db (dict_set k r (flows d)) (agents d) (steps d) (history d).
Definition put_agent k r (d : db) : db := Db (flows d) (dict_set k r (agents d)) (steps d) (history d).

Definition set_state st (r : flow_row) : flow_row :=
  FlowRow (f_name r) (f_type r) (f_status r) (f_updated r) st (f_waiting_for r) (f_deadline r) (f_error r) (f_completed r) (f_dl_reason r) (f_dl_at r).
(** An ORM update also moves [updated_at]. *)
Definition touch (now : Z) (r : flow_row) : flow_row :=
  FlowRow (f_name r) (f_type r) (f_status r) now (f_state r) (f_waiting_for r) (f_deadline r) (f_error r) (f_completed r) (f_dl_reason r) (f_dl_at r).
Definition set_flow_status s (r : flow_row) : flow_row :=
  FlowRow (f_name r) (f_type r) s (f_updated r) (f_state r) (f_waiting_for r) (f_deadline r) (f_error r) (f_completed r) (f_dl_reason r) (f_dl_at r).

Definition RECOVERY_ERROR_MSG : string := "Stuck run recovery: process terminated before completion".
Definition STUCK_FLOW_STATUSES : list string := [flow_value F_RUNNING; flow_value F_EXECUTING].
Definition ATTEMPTS_KEY : string := "__continuation_attempts".
Definition DEAD_LETTER_STATUS : string := "dead_letter".

Record settings := Settings {
  threshold_minutes : Z;
  wait_timeout_minutes : Z;
  continuation_enabled : bool;
  default_safe : bool;
  fold_repair : bool;
  max_attempts_setting : Z;
  registered_flows : list string;
  safe_flows : list string;
  unsafe_flows : list string }.

Definition minutes (m : Z) : Z := m * 60000.

Definition max_attempts (cfg : settings) : Z := Z.max 1 (max_attempts_setting cfg).

(** ** Marking rows *)

(** The five fields the recovery writes on a FlowRun. *)
Definition fail_flow (now : Z) (r : flow_row) : flow_row :=
  FlowRow (f_name r) (f_type r) (flow_value F_FAILED) now (f_state r) None None (Some RECOVERY_ERROR_MSG) (Some now) (f_dl_reason r) (f_dl_at r).

(** The committed steps of a run in the order of their index. *)
Definition step_le (x y : step_row) : Prop := s_index x <= s_index y.
#[export] Instance step_le_dec : RelDecision step_le.
Proof. intros x y. unfold step_le. apply _. Defined.
#[export] Instance step_le_trans : Transitive step_le.
Proof. intros x y z. unfold step_le. lia. Qed.
#[export] Instance step_le_total : Total step_le.
Proof. intros x y. unfold step_le. lia. Qed.

Definition completed_steps (run_id : string) (d : db) : list step_row :=
  merge_sort step_le (base.filter (fun s => s_run s = run_id) (steps d)).

Definition fail_agent (now : Z) (results : list step_row) (a : agent_row) : agent_row :=
  AgentRow (a_user a) (a_flow a) (agent_value A_FAILED) (a_started a) (Some now) (Some RECOVERY_ERROR_MSG) (Some results).

(** [.filter(AgentRun.flow_run_id == id).first()] *)
Definition linked_agent (flow_id : string) (d : db) : option (string * agent_row) :=
  List.find (fun ka => bool_decide (a_flow ka.2 = Some flow_id)) (agents d).

Definition recover_agent_run (now : Z) (flow_id : string) (r : flow_row) (d : db) : db :=
  let d' := put_flow flow_id (fail_flow now r) d in
  match linked_agent flow_id d with
  | None => d'
  | Some (k, a) => if is_agent_terminal (Some (a_status a)) then d' else put_agent k (fail_agent now (completed_steps k d) a) d'
  end.

Definition recover_generic_run (now : Z) (flow_id : string) (r : flow_row) (d : db) : db :=
  put_flow flow_id (fail_flow now r) d.

(** ** Crash continuation *)

Definition flow_continuation_permitted (cfg : settings) (flow_name : string) : bool :=
  if default_safe cfg then bool_decide (flow_name ∉ unsafe_flows cfg) else bool_decide (flow_name ∈ safe_flows cfg).

(** [int(state.get(_ATTEMPTS_KEY, 0))]; [None] where [int] raises or the value is none
    an instance writes. *)
Definition attempts_of (st : state) : option Z :=
  match dict_get ATTEMPTS_KEY st with
  | None => Some 0
  | Some (VInt z) => Some z
  | Some (VBool b) => Some (if b then 1 else 0)
  | Some _ => None
  end.

Definition dead_letter_reason (attempts : string) : string := "continuation_exhausted after " +:+ attempts +:+ " attempt(s)".

Definition dead_letter (now : Z) (attempts : Z) (r : flow_row) : flow_row :=
  FlowRow (f_name r) (f_type r) "failed" now (f_state r) (f_waiting_for r) (f_deadline r) (Some "Crash continuation exhausted — dead-lettered")
    (Some now) (Some (dead_letter_reason (pretty attempts))) (Some now).

Definition continuation_eligible (cfg : settings) (r : flow_row) : bool :=
  continuation_enabled cfg && negb (bool_decide (f_type r = Some "agent_execution")) &&
  bool_decide (f_name r ∈ registered_flows cfg) && flow_continuation_permitted cfg (f_name r).

(** [UPDATE ... SET status = 'executing' WHERE id = ? AND status IN ('running', 'executing')];
    whether a row matched. *)
Definition claim_flow (now : Z) (flow_id : string) (d : db) : bool * db :=
  match dict_get flow_id (flows d) with
  | Some r => if decide (f_status r ∈ STUCK_FLOW_STATUSES) then (true, put_flow flow_id (touch now (set_flow_status "executing" r)) d) else (false, d)
  | None => (false, d)
  end.

(** The snapshot to continue from: a lost one is rebuilt from the history when that is
    enabled. *)
Definition continuation_state (cfg : settings) (flow_id : string) (r : flow_row) (d : db) : state :=
  match f_state r with
  | [] => if fold_repair cfg then fold_flow_history_state (default [] (dict_get flow_id (history d))) else []
  | st => st
  end.

(** After the claim: the attempt is recorded, and the run is handed to a thread that
    resumes it. *)
Definition record_attempt (cfg : settings) (now : Z) (flow_id : string) (attempts : Z) (d : db) : bool * db :=
  match dict_get flow_id (flows d) with
  | None => (false, d)
  | Some r =>
      let st := dict_set ATTEMPTS_KEY (VInt (attempts + 1)) (continuation_state cfg flow_id r d) in
      (true, put_flow flow_id (touch now (set_state st r)) d)
  end.

(** [try_continue_flow_run]: whether the run was handled, the tables, and whether a
    re-drive was dispatched. *)
Definition try_continue (cfg : settings) (now : Z) (flow_id : string) (r : flow_row) (d : db) : bool * db * bool :=
  if continuation_eligible cfg r then
    match attempts_of (f_state r) with
    | None => (false, d, false)
    | Some attempts =>
        if max_attempts cfg <=? attempts then (true, put_flow flow_id (dead_letter now attempts r) d, false)
        else match claim_flow now flow_id d with
             | (false, d) => (false, d, false)
             | (true, d) => let '(ok, d) := record_attempt cfg now flow_id attempts d in (ok, d, ok)
             end
    end
  else (false, d, false).

(** ** The scan *)

(** What the database does when a row's changes are committed. *)
Inductive fault := Commits | CommitFails | RollbackFails.

Record stats := Stats { recovered : nat; dead_lettered : nat; continued : nat; redriven : list string }.
Definition no_stats : stats := Stats 0 0 0 [].

Definition count_recovered s := Stats (S (recovered s)) (dead_lettered s) (continued s) (redriven s).
Definition count_dead_lettered s := Stats (recovered s) (S (dead_lettered s)) (continued s) (redriven s).
Definition count_continued (dispatched : list string) s := Stats (recovered s) (dead_lettered s) (S (continued s)) (redriven s ++ dispatched).

(** One row of the snapshot, on the tables as they are now. An answer of [false] is the
    handler of a failed rollback raising, which ends the scan. A row that is gone makes
    its attributes raise, and is passed over. *)
Definition recover_row (cfg : settings) (now : Z) (continue_stranded : bool) (faults : string -> fault) (flow_id : string)
    (s : bool * db * stats) : bool * db * stats :=
  let '(going, d, st) := s in
  if going then
    match dict_get flow_id (flows d) with
    | None => (true, d, st)
    | Some r =>
        let '(handled, d', dispatched) := if continue_stranded then try_continue cfg now flow_id r d else (false, d, false) in
        if handled then (true, d', count_continued (if dispatched then [flow_id] else []) st)
        else match faults flow_id, dict_get flow_id (flows d') with
             | Commits, Some r' =>
                 (true, (if decide (f_type r' = Some "agent_execution") then recover_agent_run else recover_generic_run) now flow_id r' d', count_recovered st)
             | RollbackFails, _ => (false, d', st)
             | _, _ => (true, d', st)
             end
    end
  else s.

Definition mark_dead_letter (now : Z) (reason : string) (r : flow_row) : flow_row :=
  FlowRow (f_name r) (f_type r) DEAD_LETTER_STATUS now (f_state r) None None (Some reason) (Some now) (Some reason) (Some now).

Definition move_to_dead_letter (now : Z) (reason : string) (flow_id : string) (d : db) : bool * db :=
  match dict_get flow_id (flows d) with
  | Some r =>
      if decide (f_status r = "waiting") then (true, put_flow flow_id (mark_dead_letter now reason r) d) else (false, d)
  | None => (false, d)
  end.

Definition timeout_reason (cfg : settings) : string := "wait_timeout:" +:+ pretty (wait_timeout_minutes cfg) +:+ "m".

(** A failed rollback is reported by an event whose arguments are right here, so the scan
    goes on. *)
Definition dead_letter_row (cfg : settings) (now : Z) (faults : string -> fault) (flow_id : string) (s : db * stats) : db * stats :=
  let '(d, st) := s in
  match faults flow_id with
  | Commits => let '(moved, d) := move_to_dead_letter now (timeout_reason cfg) flow_id d in (d, if moved then count_dead_lettered st else st)
  | _ => s
  end.

Definition stale_before (bound : Z) (statuses : list string) (r : flow_row) : bool :=
  bool_decide (f_status r ∈ statuses) && (f_updated r <? bound).

Definition select (bound : Z) (statuses : list string) (d : db) : list string :=
  map fst (base.filter (fun kr => stale_before bound statuses kr.2 = true) (flows d)).

Definition scan (cfg : settings) (now staleness : Z) (include_waits continue_stranded : bool) (faults : string -> fault) (d : db) : db * stats :=
  let stuck := select (now - minutes staleness) STUCK_FLOW_STATUSES d in
  let waiting := if include_waits then select (now - minutes (wait_timeout_minutes cfg)) ["waiting"] d else [] in
  let '(going, d, st) := fold_left (fun s k => recover_row cfg now continue_stranded faults k s) stuck (true, d, no_stats) in
  if going then fold_left (fun s k => dead_letter_row cfg now faults k s) waiting (d, st) else (d, st).

Definition list_dead_lettered_runs (d : db) : list string :=
  map fst (base.filter (fun kr => f_status kr.2 = DEAD_LETTER_STATUS) (flows d)).

(** ** Manual recovery of one agent run *)

Inductive recovery_error := NotFound | Forbidden | WrongStatus | TooRecent | InternalError.

Definition error_code (e : recovery_error) : string :=
  match e with
  | NotFound => "not_found" | Forbidden => "forbidden" | WrongStatus => "wrong_status" | TooRecent => "too_recent"
  | InternalError => "internal_error"
  end.

(** What [recover_stuck_agent_run] gives: the run, an error in its answer, or an exception
    (the event of a failed rollback is called with arguments it does not take). *)
Inductive recovery := Recovered (a : agent_row) | Refused (e : recovery_error) | Raised.

Definition fail_linked_flow (now : Z) (flow_id : option string) (d : db) : db :=
  match flow_id with
  | Some k =>
      match dict_get k (flows d) with
      | Some r => if is_flow_terminal (Some (f_status r)) then d else put_flow k (fail_flow now r) d
      | None => d
      end
  | None => d
  end.

Definition too_recent (cfg : settings) (now : Z) (force : bool) (a : agent_row) : bool :=
  negb force && match a_started a with Some t => now - t <? minutes (threshold_minutes cfg) | None => false end.

Definition recover_stuck_agent_run (cfg : settings) (now : Z) (f : fault) (run_id user_id : string) (force : bool) (d : db) : recovery * db :=
  match dict_get run_id (agents d) with
  | None => (Refused NotFound, d)
  | Some a =>
      if decide (a_user a <> user_id) then (Refused Forbidden, d)
      else if is_agent_terminal (Some (a_status a)) then (Refused WrongStatus, d)
      else if too_recent cfg now force a then (Refused TooRecent, d)
      else match f with
           | Commits =>
               let a' := fail_agent now (completed_steps run_id d) a in
               (Recovered a', put_agent run_id a' (fail_linked_flow now (a_flow a) d))
           | CommitFails => (Refused InternalError, d)
           | RollbackFails => (Raised, d)
           end
  end.

(** [recover_agent_run_runtime]'s map to a response. *)
Definition http_status (e : recovery_error) : Z :=
  match e with NotFound => 404 | Forbidden => 403 | WrongStatus | TooRecent => 409 | InternalError => 500 end.

(** ** Manual recovery *)

#[local] Arguments is_flow_terminal : simpl never.
#[local] Arguments is_agent_terminal : simpl never.

Lemma completed_steps_spec k d :
  StronglySorted step_le (completed_steps k d) /\ completed_steps k d ≡ₚ base.filter (fun s => s_run s = k) (steps d).
Proof. split; [apply (StronglySorted_merge_sort step_le)|apply merge_sort_Permutation]. Qed.

Lemma fail_linked_flow_agents now fl d : agents (fail_linked_flow now fl d) = agents d.
Proof.
  unfold fail_linked_flow. destruct fl as [k|]; [|done]. destruct (dict_get k (flows d)) as [r|]; [|done].
  by destruct (is_flow_terminal (Some (f_status r))).
Qed.

(** The flow a recovered run is linked to is failed unless it is finished; no other row
    changes. *)
Lemma fail_linked_flow_get now fl d k : dict_get k (flows (fail_linked_flow now fl d)) =
  (fun r => if bool_decide (fl = Some k) && negb (is_flow_terminal (Some (f_status r))) then fail_flow now r else r) <$> dict_get k (flows d).
Proof.
  unfold fail_linked_flow. destruct fl as [k'|]; [|by destruct (dict_get k (flows d))].
  destruct (decide (k' = k)) as [->|Hne].
  - rewrite bool_decide_true by done. destruct (dict_get k (flows d)) as [r|] eqn:Hr; simpl; [|by rewrite Hr].
    destruct (is_flow_terminal (Some (f_status r))); simpl; [done|]. by rewrite dict_get_set_eq.
  - rewrite bool_decide_false by congruence. assert (forall o : option flow_row, o = (fun r => r) <$> o) as Hid by (by intros []).
    simpl. rewrite <- Hid. destruct (dict_get k' (flows d)) as [r|]; [|done]. destruct (is_flow_terminal (Some (f_status r))); [done|]. simpl. by apply dict_get_set_ne.
Qed.

(** What a manual recovery answers, on every branch. It refuses a run that does not
    exist, one of another user, a finished one, and one started less than the threshold ago
    unless forced, in that order of precedence and with these codes and responses (404, 403,
    409, 409, and 500 when the database fails), and a refusal changes nothing. Otherwise the
    run is failed with its committed steps in the order of their index as its result, its
    linked flow is failed too unless it is finished, and no other row changes. An exception
    escapes only when the rollback fails as well. *)
Lemma manual_recovery_answers cfg now f run_id user_id force d :
  let '(ans, d') := recover_stuck_agent_run cfg now f run_id user_id force d in
  let row := dict_get run_id (agents d) in
  (ans = Refused NotFound <-> row = None) /\
  (ans = Refused Forbidden <-> exists a, row = Some a /\ a_user a <> user_id) /\
  (ans = Refused WrongStatus <-> exists a, row = Some a /\ a_user a = user_id /\ a_status a ∈ AGENT_TERMINAL_STATUSES) /\
  (ans = Refused TooRecent <-> exists a t, row = Some a /\ a_user a = user_id /\ a_status a ∉ AGENT_TERMINAL_STATUSES /\
     force = false /\ a_started a = Some t /\ now - t < minutes (threshold_minutes cfg)) /\
  (ans = Raised -> f = RollbackFails) /\ (ans = Refused InternalError -> f = CommitFails) /\
  match ans with
  | Recovered a' =>
      exists a results, row = Some a /\ a_user a = user_id /\ a' = fail_agent now results a /\ a_status a' = "failed" /\
      StronglySorted step_le results /\ results ≡ₚ base.filter (fun s => s_run s = run_id) (steps d) /\
      (forall k, dict_get k (agents d') = if decide (k = run_id) then Some a' else dict_get k (agents d)) /\
      (forall k r, dict_get k (flows d) = Some r -> dict_get k (flows d') =
         Some (if bool_decide (a_flow a = Some k /\ f_status r ∉ FLOW_TERMINAL_STATUSES) then fail_flow now r else r))
  | _ => d' = d
  end.
Proof.
  unfold recover_stuck_agent_run. destruct (dict_get run_id (agents d)) as [a|] eqn:Ha.
  2: { split_and!; try done; split; intros H; destruct_and?; try done; by repeat destruct H as (? & H). }
  destruct (decide (a_user a <> user_id)) as [Hu|Hu].
  { split_and!; try done; split; intros H; try done; [by eexists|..]; repeat destruct H as (? & H); congruence. }
  apply dec_stable in Hu. unfold is_agent_terminal. destruct (bool_decide_reflect (a_status a ∈ AGENT_TERMINAL_STATUSES)) as [Ht|Ht].
  { split_and!; try done; split; intros H; try done; try (by eexists); repeat destruct H as (? & H); destruct_and?; simplify_eq; done. }
  destruct (too_recent cfg now force a) eqn:Hr.
  { split_and!; try done; split; intros H; try done; try (repeat destruct H as (? & H); destruct_and?; simplify_eq; done).
    unfold too_recent in Hr. destruct force; [done|]. destruct (a_started a) as [t|] eqn:Hs; [|done]. exists a, t. apply Z.ltb_lt in Hr. done. }
  assert (~ exists a0 t, Some a = Some a0 /\ a_user a0 = user_id /\ a_status a0 ∉ AGENT_TERMINAL_STATUSES /\
    force = false /\ a_started a0 = Some t /\ now - t < minutes (threshold_minutes cfg)) as Hnr.
  { intros (a0 & t & [= <-] & _ & _ & -> & Hs & Hlt). unfold too_recent in Hr. rewrite Hs in Hr. simpl in Hr. apply Z.ltb_ge in Hr. lia. }
  destruct f; (split_and!; try done; try (split; intros H; [done|]; try done; repeat destruct H as (? & H); simplify_eq; done)).
  destruct (completed_steps_spec run_id d) as [Hsort Hperm]. exists a, (completed_steps run_id d).
  split_and!; try done.
  - intros k. simpl. rewrite fail_linked_flow_agents. case_decide as Hk; [subst; apply dict_get_set_eq|by apply dict_get_set_ne].
  - intros k r Hk. simpl. rewrite fail_linked_flow_get, Hk. simpl. do 2 f_equal. unfold is_flow_terminal. repeat case_bool_decide; simpl; try done; exfalso; tauto.
Qed.

(** ** The scan *)

Definition redrives (cfg : settings) (cont : bool) (r : flow_row) : bool :=
  cont && continuation_eligible cfg r && match attempts_of (f_state r) with Some n => n <? max_attempts cfg | None => false end.
Definition exhausted (cfg : settings) (cont : bool) (r : flow_row) : bool :=
  cont && continuation_eligible cfg r && match attempts_of (f_state r) with Some n => max_attempts cfg <=? n | None => false end.

Definition continued_row (cfg : settings) (now : Z) (k : string) (h : list (string * list hist)) (r : flow_row) : flow_row :=
  let n := default 0 (attempts_of (f_state r)) in
  touch now (set_state (dict_set ATTEMPTS_KEY (VInt (n + 1)) (continuation_state cfg k r (Db [] [] [] h))) (touch now (set_flow_status "executing" r))).

(** What a scan makes of a stale row. *)
Definition scanned (cfg : settings) (now : Z) (cont : bool) (f : fault) (k : string) (h : list (string * list hist)) (r : flow_row) : flow_row :=
  if redrives cfg cont r then continued_row cfg now k h r
  else if exhausted cfg cont r then dead_letter now (default 0 (attempts_of (f_state r))) r
  else match f with Commits => fail_flow now r | _ => r end.

(** Agents only change by being failed when they were not finished. *)
Definition agent_step (x y : string * agent_row) : Prop :=
  x.1 = y.1 /\ a_flow x.2 = a_flow y.2 /\ (y = x \/ a_status y.2 = "failed").
Definition agents_le : relation (list (string * agent_row)) := Forall2 agent_step.

#[local] Instance agent_step_refl : Reflexive agent_step.
Proof. intros x. split_and!; auto. Qed.
#[local] Instance agent_step_trans : Transitive agent_step.
Proof.
  intros [] [] [] (? & ? & H1) (? & ? & H2). simpl in *. split_and!; simpl; try congruence.
  destruct H2 as [[= -> ->]|]; [|by right]. destruct H1 as [[= -> ->]|]; auto.
Qed.
#[local] Instance agents_le_preorder : PreOrder agents_le.
Proof. split; unfold agents_le; apply _. Qed.

Lemma agents_le_keys l l' : agents_le l l' -> dict_keys l = dict_keys l'.
Proof. induction 1 as [|x y l l' (H & _) _ IH]; [done|]. unfold dict_keys in *. simpl. congruence. Qed.

Lemma agents_le_find k l l' x : agents_le l l' -> List.find (fun ka => bool_decide (a_flow ka.2 = Some k)) l = Some x ->
  exists y, agent_step x y /\ List.find (fun ka => bool_decide (a_flow ka.2 = Some k)) l' = Some y.
Proof.
  induction 1 as [|x0 y0 l l' Hs _ IH]; simpl; [done|]. destruct Hs as (Hk & Hf & Hv). rewrite <- Hf.
  case_bool_decide; [|exact IH]. intros [= <-]. by exists y0.
Qed.

Lemma dict_set_agents_le k a a' l : dict_get k l = Some a -> a_flow a' = a_flow a -> a_status a' = "failed" -> agents_le l (dict_set k a' l).
Proof.
  intros Hg Hf Hs. induction l as [|[k0 a0] l IH]; simpl in *; [done|]. case_decide as Hk.
  - simplify_eq. constructor; [|reflexivity]. split_and!; simpl; auto.
  - constructor; [reflexivity|by apply IH].
Qed.

Lemma linked_agent_get k d ka a : dict_wf (agents d) -> linked_agent k d = Some (ka, a) -> dict_get ka (agents d) = Some a /\ a_flow a = Some k.
Proof.
  intros Hwf H. unfold linked_agent in H. apply find_some in H as [Hin Hp]. apply bool_decide_eq_true in Hp. split; [|done].
  apply dict_elem_get; [done|]. by apply list_elem_of_In.
Qed.

(** An agent execution that is failed takes its unfinished agent run with it. *)
Lemma recover_agent_run_spec now k r d : dict_wf (agents d) ->
  let d' := recover_agent_run now k r d in
  flows d' = dict_set k (fail_flow now r) (flows d) /\ history d' = history d /\ steps d' = steps d /\ agents_le (agents d) (agents d') /\
  (forall ka a, linked_agent k d = Some (ka, a) -> exists a', linked_agent k d' = Some (ka, a') /\ is_agent_terminal (Some (a_status a')) = true).
Proof.
  intros Hwf. unfold recover_agent_run. destruct (linked_agent k d) as [[ka a]|] eqn:Hl; [|done].
  destruct (is_agent_terminal (Some (a_status a))) eqn:Ht; simpl.
  { split_and!; try done. intros ? ? [= <- <-]. by exists a. }
  destruct (linked_agent_get _ _ _ _ Hwf Hl) as [Hget Hflow].
  assert (agents_le (agents d) (dict_set ka (fail_agent now (completed_steps ka d) a) (agents d))) as Hle by (eapply dict_set_agents_le; done).
  split_and!; try done. intros ? ? [= <- <-]. destruct (agents_le_find _ _ _ _ Hle Hl) as ([ka' a'] & (Hk & Hf & Hv) & Hy). simpl in *. subst ka'.
  exists a'. split; [exact Hy|]. apply find_some in Hy as [Hin _]. apply list_elem_of_In in Hin.
  apply dict_elem_get in Hin; [|unfold dict_wf; by rewrite <- (agents_le_keys _ _ Hle)]. rewrite dict_get_set_eq in Hin. by injection Hin as <-.
Qed.

Lemma claim_flow_hit now k r d : dict_get k (flows d) = Some r -> f_status r ∈ STUCK_FLOW_STATUSES ->
  claim_flow now k d = (true, put_flow k (touch now (set_flow_status "executing" r)) d).
Proof. intros H Hs. unfold claim_flow. by rewrite H, decide_True. Qed.

Lemma try_continue_spec cfg now k r d : dict_get k (flows d) = Some r -> f_status r ∈ STUCK_FLOW_STATUSES ->
  (redrives cfg true r = true /\ exists d', try_continue cfg now k r d = (true, d', true) /\ agents d' = agents d /\ history d' = history d /\
     steps d' = steps d /\ flows d' = dict_set k (continued_row cfg now k (history d) r) (dict_set k (touch now (set_flow_status "executing" r)) (flows d))) \/
  (redrives cfg true r = false /\ exhausted cfg true r = true /\
     try_continue cfg now k r d = (true, put_flow k (dead_letter now (default 0 (attempts_of (f_state r))) r) d, false)) \/
  (redrives cfg true r = false /\ exhausted cfg true r = false /\ try_continue cfg now k r d = (false, d, false)).
Proof.
  intros Hk Hs. unfold redrives, exhausted, try_continue. destruct (continuation_eligible cfg r); [|right; right; done]. simpl.
  destruct (attempts_of (f_state r)) as [n|] eqn:Ha; [|right; right; done]. simpl. destruct (Z.leb_spec (max_attempts cfg) n) as [Hn|Hn].
  - right. left. split; [by apply Z.ltb_ge|done].
  - left. split; [by apply Z.ltb_lt|]. rewrite (claim_flow_hit _ _ _ _ Hk Hs). unfold record_attempt. cbn [flows put_flow].
    rewrite dict_get_set_eq. eexists. split; [reflexivity|]. split_and!; try done. cbn [flows put_flow agents steps history].
    unfold continued_row. rewrite Ha. reflexivity.
Qed.

(** One row of the scan, on a row that is still stuck. *)
Lemma recover_row_spec cfg now cont faults k r d st :
  dict_wf (agents d) -> dict_get k (flows d) = Some r -> f_status r ∈ STUCK_FLOW_STATUSES -> faults k <> RollbackFails ->
  exists d' st', recover_row cfg now cont faults k (true, d, st) = (true, d', st') /\
    history d' = history d /\ steps d' = steps d /\ agents_le (agents d) (agents d') /\
    dict_get k (flows d') = Some (scanned cfg now cont (faults k) k (history d) r) /\
    (forall k', k' <> k -> dict_get k' (flows d') = dict_get k' (flows d)) /\
    redriven st' = redriven st ++ (if redrives cfg cont r then [k] else []) /\
    (f_type r = Some "agent_execution" -> faults k = Commits -> forall ka a, linked_agent k d = Some (ka, a) ->
       exists a', linked_agent k d' = Some (ka, a') /\ is_agent_terminal (Some (a_status a')) = true).
Proof.
  intros Hwf Hk Hs Hf. unfold recover_row. rewrite Hk.
  assert (f_type r = Some "agent_execution" -> redrives cfg cont r = false /\ exhausted cfg cont r = false) as Hagent.
  { intros Ht. unfold redrives, exhausted, continuation_eligible. rewrite Ht. split; rewrite ?andb_false_r; destruct cont, (continuation_enabled cfg); done. }
  assert (redrives cfg cont r = false -> exhausted cfg cont r = false -> exists d' st',
    match faults k with
    | Commits => (true, (if decide (f_type r = Some "agent_execution") then recover_agent_run else recover_generic_run) now k r d, count_recovered st)
    | CommitFails => (true, d, st)
    | RollbackFails => (false, d, st)
    end = (true, d', st') /\
    history d' = history d /\ steps d' = steps d /\ agents_le (agents d) (agents d') /\
    dict_get k (flows d') = Some (scanned cfg now cont (faults k) k (history d) r) /\
    (forall k', k' <> k -> dict_get k' (flows d') = dict_get k' (flows d)) /\
    redriven st' = redriven st ++ (if redrives cfg cont r then [k] else []) /\
    (f_type r = Some "agent_execution" -> faults k = Commits -> forall ka a, linked_agent k d = Some (ka, a) ->
       exists a', linked_agent k d' = Some (ka, a') /\ is_agent_terminal (Some (a_status a')) = true)) as Hfail.
  { intros Hr He. unfold scanned. rewrite Hr, He, app_nil_r. destruct (faults k) eqn:Hfk; [|by exists d, st|done].
    eexists _, _. split; [reflexivity|]. destruct (decide _) as [Ht|Ht].
    - destruct (recover_agent_run_spec now k r d Hwf) as (H1 & H2 & H3 & H4 & H5). rewrite H1. split_and!; try done.
      + apply dict_get_set_eq.
      + intros k' Hne. by apply dict_get_set_ne.
    - unfold recover_generic_run. cbn. split_and!; try done; [apply dict_get_set_eq|]. intros k' Hne. by apply dict_get_set_ne. }
  destruct cont.
  2: { rewrite Hk. simpl. by apply Hfail. }
  destruct (try_continue_spec cfg now k r d Hk Hs) as [(Hr & d' & -> & Ha & Hh & Hst & Hfl)|[(Hr & He & ->)|(Hr & He & ->)]].
  - eexists _, _. split; [reflexivity|]. rewrite Ha, Hh, Hst, Hfl, Hr. unfold scanned. rewrite Hr. split_and!; try done.
    + apply dict_get_set_eq.
    + intros k' Hne. by rewrite !dict_get_set_ne.
    + intros Ht. destruct (Hagent Ht). congruence.
  - eexists _, _. split; [reflexivity|]. rewrite Hr. unfold scanned. rewrite Hr, He. cbn. split_and!; try done.
    + apply dict_get_set_eq.
    + intros k' Hne. by rewrite !dict_get_set_ne.
    + intros Ht. destruct (Hagent Ht). congruence.
  - rewrite Hk. simpl. by apply Hfail.
Qed.

(** All rows of the snapshot. *)
Lemma recover_rows_spec cfg now cont faults ks : NoDup ks -> (forall k, faults k <> RollbackFails) -> forall d st,
  dict_wf (agents d) -> (forall k, k ∈ ks -> exists r, dict_get k (flows d) = Some r /\ f_status r ∈ STUCK_FLOW_STATUSES) ->
  exists d' st', fold_left (fun s k => recover_row cfg now cont faults k s) ks (true, d, st) = (true, d', st') /\
    agents_le (agents d) (agents d') /\
    (forall k, k ∉ ks -> dict_get k (flows d') = dict_get k (flows d)) /\
    (forall k r, k ∈ ks -> dict_get k (flows d) = Some r ->
       dict_get k (flows d') = Some (scanned cfg now cont (faults k) k (history d) r) /\
       (f_type r = Some "agent_execution" -> faults k = Commits -> forall ka a, linked_agent k d = Some (ka, a) ->
          exists a', linked_agent k d' = Some (ka, a') /\ is_agent_terminal (Some (a_status a')) = true)) /\
    (forall k, k ∈ redriven st' <-> k ∈ redriven st \/ (k ∈ ks /\ exists r, dict_get k (flows d) = Some r /\ redrives cfg cont r = true)).
Proof.
  intros Hnd Hf. induction ks as [|k ks IH]; intros d st Hwf Hks; cbn [fold_left].
  { exists d, st. split_and!; try done; [by intros ? ? ?%elem_of_nil|]. intros k. split; [by left|]. intros [?|[?%elem_of_nil _]]; done. }
  apply NoDup_cons in Hnd as [Hni Hnd]. destruct (Hks k) as (r & Hr & Hs); [by left|].
  destruct (recover_row_spec cfg now cont faults k r d st Hwf Hr Hs (Hf k)) as (d1 & st1 & -> & Hh & Hst & Hle & Hk & Hother & Hre & Hag).
  assert (dict_wf (agents d1)) as Hwf1 by (unfold dict_wf; by rewrite <- (agents_le_keys _ _ Hle)).
  destruct (IH Hnd d1 st1 Hwf1) as (d' & st' & E & Hle' & Hout & Hin & Hre').
  { intros k' Hk'. destruct (Hks k') as (r' & Hr' & Hs'); [by right|]. exists r'. rewrite Hother by (by intros ->). done. }
  exists d', st'. rewrite E. split_and!; try done.
  - by transitivity (agents d1).
  - intros k' [Hne Hk']%not_elem_of_cons. rewrite Hout by done. by apply Hother.
  - intros k' r' [->|Hk']%elem_of_cons Hr'.
    + assert (r' = r) as -> by congruence. split; [by rewrite Hout|]. intros Ht Hc ka a Hl. destruct (Hag Ht Hc ka a Hl) as (a' & Hl' & Ht').
      destruct (agents_le_find _ _ _ _ Hle' Hl') as ([ka2 a2] & (Hk2 & _ & Hv) & Hy). simpl in *. subst ka2. exists a2. split; [exact Hy|].
      destruct Hv as [[= ->]|Hv]; [done|]. by rewrite Hv.
    + assert (k' <> k) as Hne by (by intros ->). destruct (Hin k' r' Hk') as [H1 H2]; [by rewrite Hother|]. rewrite Hh in H1. split; [done|].
      intros Ht Hc ka a Hl. destruct (agents_le_find _ _ _ _ Hle Hl) as ([ka1 a1] & (Hk1 & _) & Hy). simpl in Hk1. subst ka1. by apply (H2 Ht Hc ka a1).
  - intros k'. rewrite Hre', Hre, elem_of_app. split.
    + intros [[?|Hx]|(Hx & r' & Hr' & Hd)]; [by left|right|right].
      * destruct (redrives cfg cont r) eqn:Hd; [|by apply elem_of_nil in Hx]. apply list_elem_of_singleton in Hx as ->. split; [by left|by exists r].
      * split; [by right|]. exists r'. rewrite Hother in Hr' by (by intros ->). done.
    + intros [?|(Hx & r' & Hr' & Hd)]; [by left; left|]. apply elem_of_cons in Hx as [->|Hx].
      * left. right. assert (r' = r) as -> by congruence. rewrite Hd. by left.
      * right. split; [done|]. exists r'. rewrite Hother by (by intros ->). done.
Qed.

Lemma dead_letters_spec cfg now faults ws : NoDup ws -> forall d st,
  (forall k, k ∈ ws -> exists r, dict_get k (flows d) = Some r /\ f_status r = "waiting") ->
  exists d' st', fold_left (fun s k => dead_letter_row cfg now faults k s) ws (d, st) = (d', st') /\
    agents d' = agents d /\ redriven st' = redriven st /\
    (forall k, k ∉ ws -> dict_get k (flows d') = dict_get k (flows d)) /\
    (forall k r, k ∈ ws -> dict_get k (flows d) = Some r ->
       dict_get k (flows d') = Some (match faults k with Commits => mark_dead_letter now (timeout_reason cfg) r | _ => r end)).
Proof.
  intros Hnd. induction ws as [|k ws IH]; intros d st Hws; cbn [fold_left].
  { exists d, st. split_and!; try done. by intros ? ? ?%elem_of_nil. }
  apply NoDup_cons in Hnd as [Hni Hnd]. destruct (Hws k) as (r & Hr & Hs); [by left|].
  assert (exists d1 st1, dead_letter_row cfg now faults k (d, st) = (d1, st1) /\ agents d1 = agents d /\ redriven st1 = redriven st /\
    (forall k', k' <> k -> dict_get k' (flows d1) = dict_get k' (flows d)) /\
    dict_get k (flows d1) = Some (match faults k with Commits => mark_dead_letter now (timeout_reason cfg) r | _ => r end)) as (d1 & st1 & -> & Ha & Hre & Ho & Hk).
  { unfold dead_letter_row, move_to_dead_letter. rewrite Hr, (decide_True _ _ Hs). destruct (faults k); try (by exists d, st).
    eexists _, _. split; [reflexivity|]. split_and!; try done; [|apply dict_get_set_eq]. intros k' Hne. by apply dict_get_set_ne. }
  destruct (IH Hnd d1 st1) as (d' & st' & E & Ha' & Hre' & Hout & Hin).
  { intros k' Hk'. destruct (Hws k') as (r' & Hr' & Hs'); [by right|]. exists r'. rewrite Ho by (by intros ->). done. }
  exists d', st'. rewrite E, Ha', Hre'. split_and!; try done.
  - intros k' [Hne Hk']%not_elem_of_cons. rewrite Hout by done. by apply Ho.
  - intros k' r' [->|Hk']%elem_of_cons Hr'; [rewrite Hout by done; by assert (r' = r) as -> by congruence|]. apply Hin; [done|]. rewrite Ho by (by intros ->). done.
Qed.

Lemma select_spec bound ss d : dict_wf (flows d) ->
  NoDup (select bound ss d) /\ forall k, k ∈ select bound ss d <-> exists r, dict_get k (flows d) = Some r /\ stale_before bound ss r = true.
Proof.
  intros Hwf. unfold select. split.
  - eapply sublist_NoDup; [exact Hwf|]. apply (fmap_sublist fst), sublist_filter.
  - intros k. change (map fst) with (fmap (M := list) (@fst string flow_row)). rewrite list_elem_of_fmap. split.
    + intros ([k' r] & -> & Hin). apply list_elem_of_filter in Hin as [Hs Hin]. exists r. split; [by apply dict_elem_get|done].
    + intros (r & Hr & Hs). exists (k, r). split; [done|]. apply list_elem_of_filter. split; [done|by apply dict_get_elem].
Qed.

Lemma stale_before_status bound ss r : stale_before bound ss r = true -> f_status r ∈ ss.
Proof. unfold stale_before. intros H. by boolprop. Qed.

(** A scan, unless a rollback fails. Every run that was active and stale is settled:
    failed, together with the unfinished agent run it executes; or, where a crash may be
    continued, dispatched again with one more attempt recorded and below the bound; only a
    row whose own commit failed stays as it was, and does not stop the others. Every timed-out
    wait is dead-lettered, and every other row is untouched. What is dispatched again are
    stale runs only. *)
Lemma scan_settles_stale_runs cfg now staleness waits cont faults d d' st :
  dict_wf (flows d) -> dict_wf (agents d) -> (forall k, faults k <> RollbackFails) ->
  scan cfg now staleness waits cont faults d = (d', st) ->
  (forall k r, dict_get k (flows d) = Some r -> exists r', dict_get k (flows d') = Some r' /\
     if stale_before (now - minutes staleness) STUCK_FLOW_STATUSES r then
       (f_status r' = "failed" /\ f_completed r' = Some now /\
          (f_type r = Some "agent_execution" -> forall ka a, linked_agent k d = Some (ka, a) ->
             exists a', dict_get ka (agents d') = Some a' /\ a_status a' ∈ AGENT_TERMINAL_STATUSES)) \/
       (cont = true /\ k ∈ redriven st /\ f_status r' = "executing" /\ f_updated r' = now /\
          exists n, attempts_of (f_state r) = Some n /\ n < max_attempts cfg /\ attempts_of (f_state r') = Some (n + 1)) \/
       (faults k = CommitFails /\ r' = r)
     else if waits && stale_before (now - minutes (wait_timeout_minutes cfg)) ["waiting"] r then
       (f_status r' = "dead_letter" /\ f_dl_reason r' = Some (timeout_reason cfg)) \/ (faults k = CommitFails /\ r' = r)
     else r' = r) /\
  (forall k, k ∈ redriven st -> exists r, dict_get k (flows d) = Some r /\ stale_before (now - minutes staleness) STUCK_FLOW_STATUSES r = true).
Proof.
  intros Hwf Hwfa Hf Hscan. unfold scan in Hscan.
  destruct (select_spec (now - minutes staleness) STUCK_FLOW_STATUSES d Hwf) as [Hnd Hsel].
  destruct (recover_rows_spec cfg now cont faults _ Hnd Hf d no_stats Hwfa) as (d1 & st1 & E & Hle & Hout & Hin & Hre).
  { intros k (r & Hr & Hs)%Hsel. exists r. split; [done|by eapply stale_before_status]. }
  rewrite E in Hscan. set (ws := if waits then _ else _) in Hscan.
  assert (NoDup ws /\ forall k, k ∈ ws <-> exists r, dict_get k (flows d) = Some r /\ waits && stale_before (now - minutes (wait_timeout_minutes cfg)) ["waiting"] r = true) as [Hndw Hws].
  { unfold ws. destruct waits; [by apply select_spec|]. split; [constructor|]. intros k. split; [by intros ?%elem_of_nil|]. by intros (? & _ & ?). }
  assert (forall k r, dict_get k (flows d) = Some r -> k ∈ ws -> k ∉ select (now - minutes staleness) STUCK_FLOW_STATUSES d /\ f_status r = "waiting") as Hdisj.
  { intros k r Hr (r0 & Hr0 & Hs)%Hws. assert (r0 = r) as -> by congruence. apply andb_true_iff in Hs as [_ Hs%stale_before_status].
    apply list_elem_of_singleton in Hs. split; [|done]. intros (r1 & Hr1 & Hs1%stale_before_status)%Hsel. assert (r1 = r) as -> by congruence.
    rewrite Hs in Hs1. repeat (apply elem_of_cons in Hs1 as [Hs1|Hs1]; [done|]). by apply elem_of_nil in Hs1. }
  destruct (dead_letters_spec cfg now faults ws Hndw d1 st1) as (d2 & st2 & E2 & Ha2 & Hre2 & Hout2 & Hin2).
  { intros k Hk. destruct (proj1 (Hws k) Hk) as (r & Hr & _). destruct (Hdisj k r Hr Hk). exists r. by rewrite Hout. }
  rewrite E2 in Hscan. injection Hscan as <- <-. split.
  - intros k r Hr. destruct (stale_before (now - minutes staleness) STUCK_FLOW_STATUSES r) eqn:Hst.
    + assert (k ∈ select (now - minutes staleness) STUCK_FLOW_STATUSES d) as Hk by (apply Hsel; by exists r).
      destruct (Hin k r Hk Hr) as [Hg Hag]. eexists. rewrite Hout2 by (intros Hw; by destruct (Hdisj k r Hr Hw)). split; [exact Hg|].
      unfold scanned. destruct (redrives cfg cont r) eqn:Hrd.
      * right. left. unfold redrives in Hrd. destruct cont; [|done]. apply andb_true_iff in Hrd as [He Hn].
        destruct (attempts_of (f_state r)) as [n|] eqn:Ha; [|done]. split_and!; try done.
        -- rewrite Hre2. apply Hre. right. split; [done|]. exists r. split; [done|]. unfold redrives. by rewrite He, Ha.
        -- exists n. split_and!; [done|by apply Z.ltb_lt|]. unfold continued_row. cbn [f_state touch set_state]. rewrite Ha. unfold attempts_of.
           by rewrite dict_get_set_eq.
      * destruct (exhausted cfg cont r) eqn:Hex.
        -- left. split_and!; try done. intros Ht. exfalso. unfold exhausted, continuation_eligible in Hex. rewrite Ht in Hex.
           by destruct cont, (continuation_enabled cfg).
        -- destruct (faults k) eqn:Hfk; [left|by right; right|by destruct (Hf k)]. split_and!; try done. intros Ht ka a Hl.
           destruct (Hag Ht eq_refl ka a Hl) as (a' & Hl' & Hterm). exists a'. rewrite Ha2. split.
           { apply (linked_agent_get k d1); [|done]. unfold dict_wf. by rewrite <- (agents_le_keys _ _ Hle). }
           unfold is_agent_terminal in Hterm. by apply bool_decide_eq_true in Hterm.
    + assert (k ∉ select (now - minutes staleness) STUCK_FLOW_STATUSES d) as Hk.
      { intros (r0 & Hr0 & Hs0)%Hsel. congruence. }
      destruct (waits && _) eqn:Hw.
      * assert (k ∈ ws) as Hkw by (apply Hws; by exists r). eexists. split; [apply Hin2; [done|by rewrite Hout]|].
        destruct (faults k) eqn:Hfk; [by left|by right|by destruct (Hf k)].
      * exists r. rewrite Hout2; [by rewrite Hout|]. intros (r0 & Hr0 & Hs0)%Hws. congruence.
  - intros k. rewrite Hre2, Hre. intros [?%elem_of_nil|(Hk & r & Hr & _)]; [done|]. by apply Hsel.
Qed.

(** ** Crash loops *)

(** What happens to the tables over the life of a deployment: a process boots and scans,
    the watchdog scans, a runner commits a node's patch. *)
Inductive event :=
| Boot (now staleness : Z) (waits : bool) (faults : string -> fault)
| Watchdog (now staleness : Z) (faults : string -> fault)
| Committed (k : string) (now : Z) (status : string) (patch : state).

Definition commit_node (now : Z) (status : string) (patch : state) (r : flow_row) : flow_row :=
  touch now (set_flow_status status (set_state (dict_update (f_state r) patch) r)).

Definition happen (cfg : settings) (s : db * list string) (e : event) : db * list string :=
  let '(d, log) := s in
  match e with
  | Boot now staleness waits faults => let '(d', st) := scan cfg now staleness waits true faults d in (d', log ++ redriven st)
  | Watchdog now staleness faults => let '(d', st) := scan cfg now staleness true false faults d in (d', log ++ redriven st)
  | Committed k now status patch =>
      match dict_get k (flows d) with Some r => (put_flow k (commit_node now status patch r) d, log) | None => s end
  end.

(** The counter in the snapshot is at least the number of times the run was dispatched. *)
Definition counted (cfg : settings) (k : string) (d : db) (log : list string) : Prop :=
  let n := Z.of_nat (count_occ String.string_dec log k) in
  match dict_get k (flows d) with
  | Some r => exists c, attempts_of (f_state r) = Some c /\ n <= c <= max_attempts cfg
  | None => n <= max_attempts cfg
  end.

Lemma counted_put cfg k k' r r' d log : dict_get k' (flows d) = Some r -> attempts_of (f_state r') = attempts_of (f_state r) ->
  counted cfg k d log -> counted cfg k (put_flow k' r' d) log.
Proof.
  intros Hr Ha. unfold counted. cbn [flows put_flow]. destruct (decide (k' = k)) as [->|Hne].
  - rewrite dict_get_set_eq, Hr, Ha. done.
  - by rewrite dict_get_set_ne.
Qed.

(** An agent run does not count. *)
Lemma counted_flows cfg k d d' log : flows d' = flows d -> counted cfg k d log -> counted cfg k d' log.
Proof. intros Hf. unfold counted. by rewrite Hf. Qed.

Lemma recover_flows now k r d : flows (recover_agent_run now k r d) = dict_set k (fail_flow now r) (flows d).
Proof. unfold recover_agent_run. destruct (linked_agent k d) as [[ka a]|]; [|done]. by destruct (is_agent_terminal (Some (a_status a))). Qed.

Lemma try_continue_counted cfg now k k' r d log : dict_get k' (flows d) = Some r -> counted cfg k d log ->
  let '(_, d', dispatched) := try_continue cfg now k' r d in counted cfg k d' (log ++ if dispatched then [k'] else []).
Proof.
  intros Hr Hc. unfold try_continue. destruct (continuation_eligible cfg r); [|by rewrite app_nil_r].
  destruct (attempts_of (f_state r)) as [n|] eqn:Ha; [|by rewrite app_nil_r]. destruct (Z.leb_spec (max_attempts cfg) n) as [Hn|Hn].
  { rewrite app_nil_r. by apply (counted_put _ _ _ r). }
  unfold claim_flow. rewrite Hr. destruct (decide _); [|by rewrite app_nil_r]. unfold record_attempt. cbn [flows put_flow].
  rewrite dict_get_set_eq. unfold counted in *. cbn [flows put_flow]. rewrite count_occ_app. destruct (decide (k' = k)) as [->|Hne].
  - rewrite dict_get_set_eq. rewrite Hr, Ha in Hc. destruct Hc as (c & [= <-] & Hc). exists (n + 1). cbn [count_occ]. destruct (String.string_dec k k); [|done]. split; [|lia].
    cbn [f_state touch set_state set_flow_status]. unfold attempts_of. by rewrite dict_get_set_eq.
  - rewrite !dict_get_set_ne by done. cbn [count_occ]. destruct (String.string_dec k' k); [done|]. by rewrite Nat.add_0_r.
Qed.

Lemma recover_row_counted cfg now cont faults k k' log s : counted cfg k s.1.2 (log ++ redriven s.2) ->
  let s' := recover_row cfg now cont faults k' s in counted cfg k s'.1.2 (log ++ redriven s'.2).
Proof.
  destruct s as [[[] d] st]; [|done]. cbn [fst snd]. intros Hc. unfold recover_row. destruct (dict_get k' (flows d)) as [r|] eqn:Hr; [|done].
  pose proof (try_continue_counted cfg now k k' r d _ Hr Hc) as Ht.
  assert (exists handled d' dispatched, (if cont then try_continue cfg now k' r d else (false, d, false)) = (handled, d', dispatched) /\
    counted cfg k d' ((log ++ redriven st) ++ (if dispatched then [k'] else [])) /\ (dispatched = true -> handled = true)) as (h & d' & disp & -> & Hd & Himp).
  { destruct cont; [|exists false, d, false; by rewrite app_nil_r]. destruct (try_continue cfg now k' r d) as [[h d'] disp] eqn:E.
    exists h, d', disp. split_and!; try done. intros ->. revert E. unfold try_continue. destruct (continuation_eligible _ _); [|done].
    destruct (attempts_of _); [|done]. destruct (_ <=? _); [done|]. destruct (claim_flow _ _ _) as [[] ?]; [|done]. destruct (record_attempt _ _ _ _ _). by intros [= ->]. }
  destruct h; [cbn [fst snd redriven count_continued]; by rewrite app_assoc|]. destruct disp; [by specialize (Himp eq_refl)|]. rewrite app_nil_r in Hd.
  destruct (faults k'), (dict_get k' (flows d')) as [r'|] eqn:Hr'; try done. cbn [fst snd redriven count_recovered].
  apply (counted_flows _ _ (put_flow k' (fail_flow now r') d')); [destruct (decide _); [apply recover_flows|done]|].
  by apply (counted_put _ _ _ r').
Qed.

Lemma dead_letter_row_counted cfg now faults k k' log s : counted cfg k s.1 (log ++ redriven s.2) ->
  let s' := dead_letter_row cfg now faults k' s in counted cfg k s'.1 (log ++ redriven s'.2).
Proof.
  destruct s as [d st]. cbn [fst snd]. intros Hc. unfold dead_letter_row, move_to_dead_letter. destruct (faults k'); try done.
  destruct (dict_get k' (flows d)) as [r|] eqn:Hr; [|done]. destruct (decide _); [|done]. by apply (counted_put _ _ _ r).
Qed.

Lemma scan_counted cfg now staleness waits cont faults k d log : counted cfg k d log ->
  let '(d', st) := scan cfg now staleness waits cont faults d in counted cfg k d' (log ++ redriven st).
Proof.
  intros Hc. unfold scan. set (ws := if waits then _ else _).
  assert (forall ks s, counted cfg k s.1.2 (log ++ redriven s.2) ->
    let s' := fold_left (fun s k => recover_row cfg now cont faults k s) ks s in counted cfg k s'.1.2 (log ++ redriven s'.2)) as Hrows.
  { induction ks as [|k' ks IH]; intros s Hs; [done|]. by apply IH, recover_row_counted. }
  assert (forall ks s, counted cfg k s.1 (log ++ redriven s.2) ->
    let s' := fold_left (fun s k => dead_letter_row cfg now faults k s) ks s in counted cfg k s'.1 (log ++ redriven s'.2)) as Hdead.
  { induction ks as [|k' ks IH]; intros s Hs; [done|]. by apply IH, dead_letter_row_counted. }
  specialize (Hrows (select (now - minutes staleness) STUCK_FLOW_STATUSES d) (true, d, no_stats)).
  destruct (fold_left _ _ (true, d, no_stats)) as [[going d1] st1]. cbn [fst snd redriven no_stats] in Hrows. rewrite app_nil_r in Hrows.
  specialize (Hrows Hc). destruct going; [|done]. specialize (Hdead ws (d1, st1) Hrows). by destruct (fold_left _ ws (d1, st1)).
Qed.

(** However often processes crash and boot, the watchdog scans and runners commit
    nodes, with database failures or without, a flow is dispatched again after a crash at
    most as often as the configured number of attempts, as long as no node writes the
    reserved counter. *)
Lemma continuations_bounded cfg es k d : (forall r, dict_get k (flows d) = Some r -> dict_get ATTEMPTS_KEY (f_state r) = None) ->
  Forall (fun e => match e with Committed _ _ _ patch => ATTEMPTS_KEY ∉ dict_keys patch | _ => True end) es ->
  Z.of_nat (count_occ String.string_dec (fold_left (happen cfg) es (d, [])).2 k) <= max_attempts cfg.
Proof.
  intros H0 Hes. assert (forall s, counted cfg k s.1 s.2 -> counted cfg k (fold_left (happen cfg) es s).1 (fold_left (happen cfg) es s).2) as Hall.
  { induction Hes as [|e es He _ IH]; intros [d0 log] Hc; [done|]. simpl. apply IH. cbn [fst snd] in Hc. destruct e as [now sl w fs|now sl fs|k' now stt patch]; simpl.
    - pose proof (scan_counted cfg now sl w true fs k d0 log Hc) as Hs. by destruct (scan _ _ _ _ _ _ _).
    - pose proof (scan_counted cfg now sl true false fs k d0 log Hc) as Hs. by destruct (scan _ _ _ _ _ _ _).
    - destruct (dict_get k' (flows d0)) as [r|] eqn:Hr; [|done]. apply (counted_put _ _ _ r); [done| |done].
      unfold attempts_of. simpl. by rewrite dict_get_update_notin. }
  specialize (Hall (d, [])). unfold counted in Hall. cbn [fst snd count_occ] in Hall. unfold max_attempts in *.
  destruct (dict_get k (flows (fold_left _ es (d, [])).1)) as [r|].
  - destruct Hall as (c & _ & Hc); [|lia]. destruct (dict_get k (flows d)) as [r0|] eqn:Hr0; [|lia]. exists 0. unfold attempts_of. rewrite (H0 r0) by done. split; [done|lia].
  - apply Hall. destruct (dict_get k (flows d)) as [r0|] eqn:Hr0; [|lia]. exists 0. unfold attempts_of. rewrite (H0 r0) by done. split; [done|lia].
Qed.

(** ** Examples *)

Definition demo_settings : settings := Settings 30 60 true false true 2 ["etl"] ["etl"] [].
Definition demo_flow (ty status : string) (updated : Z) : flow_row :=
  FlowRow "etl" (Some ty) status updated [("x", VInt 1)] None None None None None None.
Definition demo_agent (status : string) (started : option Z) : agent_row := AgentRow "u" (Some "f2") status started None None None.
Definition demo_db : db :=
  Db [("f1", demo_flow "flow" "running" 0); ("f2", demo_flow "agent_execution" "executing" 0); ("f3", demo_flow "flow" "waiting" 0);
      ("f4", demo_flow "flow" "running" 9000000)]
     [("a1", demo_agent "executing" (Some 0)); ("a2", demo_agent "rejected" None)]
     [StepRow "a1" 1 "mail" "failed" VNone None; StepRow "a1" 0 "search" "success" (VInt 3) None; StepRow "a2" 0 "x" "success" VNone None] [].
Definition all_commit : string -> fault := fun _ => Commits.
Definition hour : Z := 3600000.

Lemma manual_recovery_witness :
  (recover_stuck_agent_run demo_settings 1000 Commits "a1" "u" false demo_db).1 = Refused TooRecent /\
  (exists a' d', recover_stuck_agent_run demo_settings (2 * hour) Commits "a1" "u" false demo_db = (Recovered a', d') /\
     exists a results, a_flow a = Some "f2" /\ StronglySorted step_le results /\ a' = fail_agent (2 * hour) results a).
Proof.
  split.
  - pose proof (manual_recovery_answers demo_settings 1000 Commits "a1" "u" false demo_db) as H.
    destruct (recover_stuck_agent_run _ 1000 _ _ _ _ _) as [ans d']. destruct H as (_ & _ & _ & H & _). simpl. apply H.
    eexists _, 0. split; [reflexivity|]. repeat split; try reflexivity. apply (bool_decide_unpack _). vm_compute. exact I.
  - pose proof (manual_recovery_answers demo_settings (2 * hour) Commits "a1" "u" false demo_db) as H. eexists _, _.
    split; [vm_compute; reflexivity|]. change (recover_stuck_agent_run _ _ _ _ _ _ _) with
      (Recovered (fail_agent (2 * hour) (completed_steps "a1" demo_db) (demo_agent "executing" (Some 0))),
       put_agent "a1" (fail_agent (2 * hour) (completed_steps "a1" demo_db) (demo_agent "executing" (Some 0))) (fail_linked_flow (2 * hour) (Some "f2") demo_db)) in H.
    destruct H as (_ & _ & _ & _ & _ & _ & a & results & Ha & _ & Ha' & _ & Hs & _). exists a, results. injection Ha as <-.
    split; [reflexivity|]. split; [exact Hs|]. rewrite <- Ha'. vm_compute. reflexivity.
Defined.

Lemma scan_settles_witness :
  exists d' st, scan demo_settings (3 * hour) 30 true true all_commit demo_db = (d', st) /\ redriven st = ["f1"] /\
    list_dead_lettered_runs d' = ["f3"] /\
    (exists r', dict_get "f2" (flows d') = Some r' /\ exists a', dict_get "a1" (agents d') = Some a' /\ a_status a' ∈ AGENT_TERMINAL_STATUSES).
Proof.
  eexists _, _. split; [vm_compute; reflexivity|]. split; [reflexivity|]. split; [vm_compute; reflexivity|].
  edestruct (scan_settles_stale_runs demo_settings (3 * hour) 30 true true all_commit demo_db) as [H _].
  - apply (bool_decide_unpack _). vm_compute. exact I.
  - apply (bool_decide_unpack _). vm_compute. exact I.
  - discriminate.
  - vm_compute. reflexivity.
  - destruct (H "f2" (demo_flow "agent_execution" "executing" 0) eq_refl) as (r' & Hr' & Hcase). exists r'. split; [exact Hr'|].
    change (stale_before (3 * hour - minutes 30) STUCK_FLOW_STATUSES (demo_flow "agent_execution" "executing" 0)) with true in Hcase.
    destruct Hcase as [(_ & _ & H3)|[(_ & Hin & _)|(H1 & _)]].
    + exact (H3 eq_refl "a1" (demo_agent "executing" (Some 0)) eq_refl).
    + exfalso. apply list_elem_of_singleton in Hin. discriminate Hin.
    + discriminate H1.
Defined.

Definition crash_loop : list event :=
  [Boot hour 30 false all_commit; Committed "f1" hour "running" [("y", VInt 2)]; Boot (2 * hour) 30 false all_commit;
   Boot (3 * hour) 30 false all_commit; Boot (4 * hour) 30 false all_commit].

Lemma continuations_bounded_witness :
  (fold_left (happen demo_settings) crash_loop (demo_db, [])).2 = ["f1"; "f1"; "f4"] /\
  Z.of_nat (count_occ String.string_dec (fold_left (happen demo_settings) crash_loop (demo_db, [])).2 "f1") <= 2.
Proof.
  split; [vm_compute; reflexivity|]. apply (continuations_bounded demo_settings).
  - intros r Hr. injection Hr as <-. reflexivity.
  - repeat constructor. apply (bool_decide_unpack _). vm_compute. exact I.
Defined.

(** The claim of a continuation leaves the status it matches, so two instances whose
    snapshots hold the run both claim it: it runs twice at once. *)
Example claim_not_exclusive :
  let scan_of now s := recover_row demo_settings now true all_commit "f1" s in
  let '(_, d1, st1) := scan_of hour (true, demo_db, no_stats) in
  let '(_, _, st2) := scan_of hour (true, d1, no_stats) in
  (redriven st1, redriven st2) = (["f1"], ["f1"]).
Proof. reflexivity. Qed.

(** A run that ended between the snapshot and its turn is marked failed. *)
Example finished_run_overwritten :
  let d := put_flow "f1" (demo_flow "flow" "success" hour) demo_db in
  let '(_, d', _) := recover_row demo_settings (2 * hour) false all_commit "f1" (true, d, no_stats) in
  f_status <$> dict_get "f1" (flows d') = Some "failed".
Proof. reflexivity. Qed.

(** A run out of attempts is said to be dead-lettered, and is not among the runs listed
    as dead-lettered. *)
Example exhausted_not_listed :
  let r := set_state [(ATTEMPTS_KEY, VInt 2)] (demo_flow "flow" "running" 0) in
  let d := put_flow "f1" r demo_db in
  let '(_, d', _) := recover_row demo_settings hour true all_commit "f1" (true, d, no_stats) in
  (f_dl_reason <$> dict_get "f1" (flows d'), list_dead_lettered_runs d') = (Some (Some (dead_letter_reason "2")), []).
Proof. vm_compute. reflexivity. Qed.

(** A failed rollback of one row ends the scan: the rows behind it are not recovered. *)
Example failed_rollback_ends_scan :
  let '(d', st) := scan demo_settings (2 * hour) 30 true false (fun k => if decide (k = "f1") then RollbackFails else Commits) demo_db in
  (f_status <$> dict_get "f2" (flows d'), f_status <$> dict_get "f3" (flows d'), recovered st, dead_lettered st) = (Some "executing", Some "waiting", 0%nat, 0%nat).
Proof. vm_compute. reflexivity. Qed.

(** The dead letter of a timed-out agent execution leaves its agent run waiting. *)
Example timed_out_agent_left_waiting :
  let d := put_agent "a1" (demo_agent "waiting" (Some 0)) (put_flow "f2" (demo_flow "agent_execution" "waiting" 0) demo_db) in
  let '(d', _) := scan demo_settings (3 * hour) 30 true false all_commit d in
  (f_status <$> dict_get "f2" (flows d'), a_status <$> dict_get "a1" (agents d')) = (Some "dead_letter", Some "waiting").
Proof. vm_compute. reflexivity. Qed.

(** A rejected run is no finished run to the classification, so recovering it marks it
    failed; it never started, so it is not too recent either. *)
Example rejected_run_recovered :
  let '(ans, d') := recover_stuck_agent_run demo_settings 1 Commits "a2" "u" false demo_db in
  a_status <$> dict_get "a2" (agents d') = Some "failed".
Proof. vm_compute. reflexivity. Qed.

(** Nor is a dead letter a finished flow: recovering its agent run marks it failed. *)
Example dead_letter_overwritten :
  let d := put_flow "f2" (demo_flow "agent_execution" DEAD_LETTER_STATUS 0) demo_db in
  let '(_, d') := recover_stuck_agent_run demo_settings (2 * hour) Commits "a1" "u" false d in
  f_status <$> dict_get "f2" (flows d') = Some "failed".
Proof. vm_compute. reflexivity. Qed.
