(* ===== verification/AgentChain.v ===== *)
(** * The segment chain of an agent run

    runtime/nodus_execution_service.py (the nodus_vm backend), core/agent_run_rehydration.py,
    core/agent_continuation.py, the agent half of core/resume_reconstruction.py and the
    cancel syscall of kernel/syscall_registry.py: a plan is run one segment per call, parks
    at its waits and is resumed by a callback that claims the run.

    [world] is one agent run: its row, the scheduler's wait for it, the callbacks that were
    fired and have not run, and the calls of the chain in progress ([runner]). A call is cut
    where other processes can act: after its first look at the status, while the guest runs,
    after its second look, and at its commit. What a guest gives back is an input of the
    step ([guest]): the language it runs is a third-party package. [log] is what the chain
    has settled, in the terms of the plan. *)

From S2P Require Import Prelude PyStr PyVal ConditionCodes ResultPath RetryPolicy AgentPlan.
From stdpp Require Import pretty.

Local Open Scope string_scope.
Local Open Scope Z_scope.
Local Open Scope list_scope.

Definition AUTHORITY_DECISION_EVENT : string := "agent.authority.decision".

(** ** Results of a segment *)

Record entry := Entry {
  e_index : Z; e_tool : string; e_status : string; e_result : pyval; e_error : pyval; e_replayed : bool }.

Definition entry_val (e : entry) : pyval :=
  VDict ([("step_index", VInt (e_index e)); ("tool", VStr (e_tool e)); ("status", VStr (e_status e));
          ("result", e_result e); ("error", e_error e)] ++ if e_replayed e then [("replayed", VBool true)] else []).

Section Chain.
Variable render : pyval -> string.
Variable compile_nodus_flow : string -> bool.

Definition step_entry (meta : step_meta) (tool_result : pyval) : entry :=
  let d := match tool_result with
           | VDict d => d
           | v => [("success", VBool false); ("result", VNone); ("error", VStr (py_str render v))]
           end in
  let ok := py_truth (py_get "success" d) in
  let skipped := ok && py_truth (py_get "skipped" d) in
  Entry (sm_index meta) (sm_tool meta) (if skipped then "skipped" else if ok then "success" else "failed")
    (py_get "result" d) (py_get "error" d) (py_truth (py_get "replayed" d)).

(** [reconstruct_agent_step_results]: a step without a result did not run. *)
Definition reconstruct (metas : list step_meta) (output_state : list (string * pyval)) : list entry :=
  omap (fun m => match py_get (sm_result_key m) output_state with VNone => None | v => Some (step_entry m v) end) metas.

Definition any_failed (es : list entry) : bool := existsb (fun e => bool_decide (e_status e = "failed")) es.

(** What a segment's flow gives back: its output state, whether it succeeded, a gate it
    halted at; or an exception. *)
Inductive guest :=
| Returned (output_state : list (string * pyval)) (flow_ok : bool) (gate : bool) (flow_error : option string)
| Raised.

(** [_run_agent_segment_flow] on a compiled segment: the results, whether it failed, whether
    it halted at a gate. *)
Definition segment_outcome (metas : list step_meta) (output_state : list (string * pyval)) (flow_ok gate : bool) : list entry * bool * bool :=
  let es := reconstruct metas output_state in
  if flow_ok && gate then (es, false, true)
  else (es, any_failed es || negb flow_ok || negb (bool_decide (length es = length metas)), false).

(** ** State *)

(** [wait_state] of a parked run: the event it waits for, the segment to resume and whether
    that segment is continued. *)
Record park := Park { p_event : string; p_corr : option string; p_index : nat; p_cont : bool }.

Record run := Run {
  r_status : string;
  r_steps : list entry;          (* result["steps"] *)
  r_attempts : Z;                (* the counter a crash continuation keeps in [result] *)
  r_wait : option park;
  r_flow : bool;                 (* flow_run_id is set *)
  r_completed_steps : Z;
  r_error : option string;
  r_verdict : option verdict }.

(** The zero-argument callback a wait is registered with. *)
Record resume := Resume { rs_index : nat; rs_acc : list entry; rs_claim : string; rs_cont : bool; rs_log : list plan_event }.

Inductive phase :=
| Entered                        (* has not looked at the status *)
| InGuest
| Finished (es : list entry) (failed gate : bool) (error : option string)
| Deciding (es : list entry) (failed gate : bool) (error : option string) (status : string).   (* has looked again *)

Record runner := Runner { rn_index : nat; rn_acc : list entry; rn_cont : bool; rn_phase : phase }.

Record world := World {
  w_run : run;
  w_reg : option (string * resume);
  w_queue : list resume;
  w_runners : list runner;
  w_log : list plan_event }.

Definition set_run r (w : world) := World r (w_reg w) (w_queue w) (w_runners w) (w_log w).
Definition set_runners l (w : world) := World (w_run w) (w_reg w) (w_queue w) l (w_log w).
Definition add_log l (w : world) := World (w_run w) (w_reg w) (w_queue w) (w_runners w) (w_log w ++ l).
Definition register ev r (w : world) := World (w_run w) (Some (ev, r)) (w_queue w) (w_runners w) (w_log w).

Definition claim_row (r : run) : run :=
  Run "executing" (r_steps r) (r_attempts r) None (r_flow r) (r_completed_steps r) (r_error r) (r_verdict r).

Definition park_log (ev : string) (corr : option string) : list plan_event :=
  [WaitFor (VStr ev) (match corr with Some k => VStr k | None => VNone end)].

(** ** The chain *)

Variable plan : list (string * pyval).
Variable segs : list segment.

Definition total_tool_steps : nat := length (flat_map seg_tool_steps segs).

Definition succeeded (es : list entry) : Z := Z.of_nat (length (base.filter (fun e => e_status e = "success") es)).

Definition fail_message (es : list entry) (flow_error : option string) : string :=
  match List.find (fun e => bool_decide (e_status e = "failed")) es with
  | Some e =>
      if py_truth (e_error e) then "step " +:+ pretty (e_index e) +:+ " (" +:+ e_tool e +:+ ") failed: " +:+ py_str render (e_error e)
      else match flow_error with Some "" | None => "one or more agent steps failed" | Some m => m end
  | None => match flow_error with Some "" | None => "one or more agent steps failed" | Some m => m end
  end.

(** A call's last commit and what it registers. [None] is an exception, which the chain
    answers without touching the run. *)
Definition commit (n : runner) (es : list entry) (failed gate : bool) (error : option string) (status : string) (w : world) : option world :=
  match segs !! rn_index n with
  | None => None
  | Some seg =>
      let acc := rn_acc n ++ es in
      let row := w_run w in
      let flow := r_flow row || match seg_tool_steps seg with [] => false | _ => true end in
      let settled := map RunTool (seg_tool_steps seg) in
      if gate && bool_decide (status = "executing") then
        let r := Run "waiting" (rn_acc n) 0 (Some (Park AUTHORITY_DECISION_EVENT None (rn_index n) true)) flow (succeeded acc) (r_error row) (r_verdict row) in
        Some (register AUTHORITY_DECISION_EVENT (Resume (rn_index n) (rn_acc n) "waiting" true []) (set_run r w))
      else if failed then
        Some (set_run (Run "failed" acc 0 None flow (succeeded acc) (Some (fail_message es error)) (r_verdict row)) w)
      else match seg_wait seg with
           | Some wp =>
               let r := Run "waiting" acc 0 (Some (Park (wp_event_type wp) (wp_correlation_key wp) (S (rn_index n)) false)) flow (succeeded acc) (r_error row) (r_verdict row) in
               let rs := Resume (S (rn_index n)) acc "waiting" false (park_log (wp_event_type wp) (wp_correlation_key wp)) in
               Some (register (wp_event_type wp) rs (add_log settled (set_run r w)))
           | None =>
               if decide (length acc = total_tool_steps) then
                 match extract_post_conditions (VDict plan) with
                 | None => None
                 | Some pc =>
                     match verify_post_conditions render pc (map entry_val acc) with
                     | None => None
                     | Some v =>
                         if v_ok v
                         then Some (add_log settled (set_run (Run "completed" acc 0 None flow (succeeded acc) (r_error row) (Some v)) w))
                         else Some (add_log settled (set_run (Run "verify_failed" acc 0 None flow (succeeded acc)
                                (Some ("post-condition verification failed: " +:+ pretty (Z.of_nat (length (v_failures v))) +:+ " check(s) did not hold")) (Some v)) w))
                     end
                 end
               else Some (set_run (Run "failed" acc 0 None flow (succeeded acc) (Some "one or more agent steps did not run") (r_verdict row)) w)
           end
  end.

(** ** Callbacks *)

(** A fired callback claims the run, in one conditional update, and enters the chain. *)
Definition run_callback (rs : resume) (w : world) : world :=
  if decide (r_status (w_run w) = rs_claim rs) then
    World (claim_row (w_run w)) (w_reg w) (w_queue w) (w_runners w ++ [Runner (rs_index rs) (rs_acc rs) (rs_cont rs) Entered]) (w_log w ++ rs_log rs)
  else w.

Definition CANCELLABLE_AGENT_RUN_STATUSES : list string := ["pending_approval"; "approved"; "executing"; "waiting"; "delegated"].

(** The cancel syscall's conditional update. *)
Definition cancel (reason : string) (w : world) : world :=
  let r := w_run w in
  if decide (r_status r ∈ CANCELLABLE_AGENT_RUN_STATUSES)
  then set_run (Run "cancelled" (r_steps r) (r_attempts r) None (r_flow r) (r_completed_steps r)
         (Some (if decide (reason = "") then "cancelled" else "cancelled: " +:+ reason)) (r_verdict r)) w
  else w.

(** [rehydrate_waiting_agent_runs] on this run. *)
Definition rehydrate (w : world) : world :=
  match w_reg w, r_wait (w_run w) with
  | None, Some p =>
      if decide (r_status (w_run w) = "waiting") then
        if decide (p_index p < length segs)%nat then
          register (p_event p) (Resume (p_index p) (r_steps (w_run w)) "waiting" (p_cont p) (if p_cont p then [] else park_log (p_event p) (p_corr p))) w
        else w
      else w
  | _, _ => w
  end.

(** [_build_agent] of resume_reconstruction.py: what another process makes of the run's
    identifier; it does not carry the continuation flag. *)
Definition rebuild (w : world) : option resume :=
  let idx := match r_wait (w_run w) with Some p => p_index p | None => 0%nat end in
  if decide (idx < length segs)%nat
  then Some (Resume idx (r_steps (w_run w)) "waiting" false (match r_wait (w_run w) with Some p => if p_cont p then [] else park_log (p_event p) (p_corr p) | None => [] end))
  else None.

Fixpoint count_completed (l : list segment) (completed : nat) : nat :=
  match l with
  | [] => 0
  | s :: l => let n := length (seg_tool_steps s) in if decide (n <= completed)%nat then S (count_completed l (completed - n)) else 0
  end.

(** [continue_crashed_agent_runs] on this run, where its type may be continued. *)
Definition continue_crashed (max_attempts : Z) (w : world) : world :=
  let r := w_run w in
  if decide (r_status r = "executing") then
    if r_flow r then
      let idx := count_completed segs (length (r_steps r)) in
      if decide (idx < length segs)%nat then
        if max_attempts <=? r_attempts r
        then set_run (Run "failed" (r_steps r) (r_attempts r) (r_wait r) (r_flow r) (r_completed_steps r)
               (Some ("Crash continuation exhausted after " +:+ pretty (r_attempts r) +:+ " attempt(s)")) (r_verdict r)) w
        else World (Run "executing" (r_steps r) (r_attempts r + 1) (r_wait r) (r_flow r) (r_completed_steps r) (r_error r) (r_verdict r))
               (w_reg w) (w_queue w ++ [Resume idx (r_steps r) "executing" true []]) (w_runners w) (w_log w)
      else w
    else w
  else w.

(** ** Steps *)

Inductive action :=
| Start                               (* execute_agent_run_via_workflow, past its gate *)
| Look (j : nat)                      (* runner j's first look at the status *)
| Guest (j : nat) (g : guest)
| LookAgain (j : nat)
| Commit (j : nat)
| Fire (ev : string)                  (* the scheduler is told of an event *)
| RunCallback (j : nat)
| Cancel (reason : string)
| Crash                               (* the process dies *)
| Rehydrate
| Rebuild                             (* a worker rebuilds the callback from the run's id *)
| Continue (max_attempts : Z).

Definition drop_runner (j : nat) (w : world) : world := set_runners (delete j (w_runners w)) w.

Definition run_guest (n : runner) (g : guest) : option phase :=
  match segs !! rn_index n with
  | None => None
  | Some seg =>
      match seg_tool_steps seg with
      | [] => Some (Finished [] false false None)
      | steps =>
          match compile_agent_segment compile_nodus_flow steps (seg_base_index seg) ("agent_plan_seg" +:+ pretty (Z.of_nat (rn_index n))) with
          | Err _ => None
          | Ok c =>
              match g with
              | Raised => None
              | Returned out ok gate err => let '(es, failed, halted) := segment_outcome (c_steps c) out ok gate in Some (Finished es failed halted err)
              end
          end
      end
  end.

Definition set_phase (j : nat) (p : phase) (w : world) : world :=
  set_runners (alter (fun n => Runner (rn_index n) (rn_acc n) (rn_cont n) p) j (w_runners w)) w.

Definition act (w : world) (a : action) : world :=
  match a with
  | Start => if decide (r_status (w_run w) = "executing" /\ w_runners w = [] /\ w_log w = [])
             then set_runners [Runner 0 [] false Entered] w else w
  | Look j =>
      match w_runners w !! j with
      | Some (Runner _ _ _ Entered) => if decide (r_status (w_run w) = "cancelled") then drop_runner j w else set_phase j InGuest w
      | _ => w
      end
  | Guest j g =>
      match w_runners w !! j with
      | Some (Runner i acc c InGuest as n) => match run_guest n g with Some p => set_phase j p w | None => drop_runner j w end
      | _ => w
      end
  | LookAgain j =>
      match w_runners w !! j with
      | Some (Runner _ _ _ (Finished es f g e)) =>
          if decide (r_status (w_run w) = "cancelled") then drop_runner j w else set_phase j (Deciding es f g e (r_status (w_run w))) w
      | _ => w
      end
  | Commit j =>
      match w_runners w !! j with
      | Some (Runner i acc c (Deciding es f g e st) as n) => let w' := drop_runner j w in default w' (commit n es f g e st w')
      | _ => w
      end
  | Fire ev =>
      match w_reg w with
      | Some (ev', rs) => if decide (ev' = ev) then World (w_run w) None (w_queue w ++ [rs]) (w_runners w) (w_log w) else w
      | None => w
      end
  | RunCallback j =>
      match w_queue w !! j with
      | Some rs => run_callback rs (World (w_run w) (w_reg w) (delete j (w_queue w)) (w_runners w) (w_log w))
      | None => w
      end
  | Cancel reason => cancel reason w
  | Crash => World (w_run w) None [] [] (w_log w)
  | Rehydrate => rehydrate w
  | Rebuild => match rebuild w with Some rs => World (w_run w) (w_reg w) (w_queue w ++ [rs]) (w_runners w) (w_log w) | None => w end
  | Continue m => continue_crashed m w
  end.

Definition acts (l : list action) (w : world) : world := fold_left act l w.

(** ** The results of a run *)

Definition step_ok (e : entry) : Prop := e_status e ∈ ["success"; "skipped"].

(** [acc] are the results of the tool steps of the first [i] segments, in order, all
    successful or skipped. *)
Definition covers (acc : list entry) (i : nat) : Prop :=
  map e_index acc = map fst (flat_map indexed (take i segs)) /\ Forall step_ok acc.

Lemma step_entry_index m v : e_index (step_entry m v) = sm_index m.
Proof. by destruct v. Qed.

Lemma step_entry_status m v : e_status (step_entry m v) ∈ ["success"; "skipped"; "failed"].
Proof. unfold step_entry. cbn [e_status]. destruct (_ && _); [set_solver|]. destruct (py_truth _); set_solver. Qed.

Lemma reconstruct_length metas out : (length (reconstruct metas out) <= length metas)%nat.
Proof.
  unfold reconstruct. induction metas as [|m metas IH]; csimpl; [lia|]. destruct (py_get (sm_result_key m) out); simpl; lia.
Qed.

Lemma reconstruct_full metas out : length (reconstruct metas out) = length metas -> map e_index (reconstruct metas out) = map sm_index metas.
Proof.
  induction metas as [|m metas IH]; [done|]. unfold reconstruct. csimpl. fold (reconstruct metas out).
  pose proof (reconstruct_length metas out). destruct (py_get (sm_result_key m) out) eqn:E; simpl; intros Hl; try lia;
    (rewrite IH by lia); f_equal.
Qed.

Lemma reconstruct_ok metas out : any_failed (reconstruct metas out) = false -> Forall step_ok (reconstruct metas out).
Proof.
  intros H. apply Forall_forall. intros e He. unfold any_failed in H. assert (e_status e <> "failed") as Hnf.
  { intros Hf. apply not_true_iff_false in H. apply H. apply existsb_exists. exists e. split; [by apply list_elem_of_In|by apply bool_decide_eq_true]. }
  unfold reconstruct in He. apply list_elem_of_omap in He as (m & _ & Hm).
  assert (e_status e ∈ ["success"; "skipped"; "failed"]) as Hs.
  { destruct (py_get _ out); try done; injection Hm as <-; apply step_entry_status. }
  unfold step_ok. set_solver.
Qed.

(** A segment that neither failed nor halted gives a result for each of its steps. *)
Definition complete (i : nat) (es : list entry) : Prop :=
  exists seg, segs !! i = Some seg /\ map e_index es = map fst (indexed seg) /\ Forall step_ok es.

Lemma run_guest_complete n g es gate err : run_guest n g = Some (Finished es false gate err) -> gate = false -> complete (rn_index n) es.
Proof.
  unfold run_guest. destruct (segs !! rn_index n) as [seg|] eqn:Hs; [|done]. unfold complete. rewrite Hs.
  destruct (seg_tool_steps seg) as [|s0 rest] eqn:Hst.
  { intros [= <- <- <-] _. exists seg. unfold indexed. rewrite Hst. done. }
  destruct (compile_agent_segment _ _ _ _) as [c|] eqn:Hc; [|done]. destruct g as [out ok gt er|]; [|done].
  unfold segment_outcome. destruct (ok && gt); [by intros [= <- <- <-]|]. intros [= <- Hf <- <-] _. exists seg. split; [done|].
  apply orb_false_iff in Hf as [Hf Hl%negb_false_iff%bool_decide_eq_true]. apply orb_false_iff in Hf as [Hf _].
  split; [|by apply reconstruct_ok]. rewrite reconstruct_full by done. unfold indexed. rewrite Hst.
  apply compiled_source_is_data_free in Hc as (_ & _ & H2 & _). clear -H2. induction H2 as [|[] ? ? ? [] _ IH]; [done|]. simpl in *. congruence.
Qed.

Lemma covers_step acc i es : covers acc i -> complete i es -> covers (acc ++ es) (S i).
Proof.
  intros [H1 H2] (seg & Hs & H3 & H4). split; [|by apply Forall_app]. rewrite (take_S_r _ _ _ Hs), flat_map_app, !map_app. simpl.
  by rewrite app_nil_r, H1, H3.
Qed.

Lemma indexed_length seg : length (indexed seg) = length (seg_tool_steps seg).
Proof. unfold indexed. generalize (seg_base_index seg). induction (seg_tool_steps seg) as [|s l IH]; intros b; [done|]. simpl. by rewrite IH. Qed.

Lemma flat_indexed_length (l : list segment) : length (flat_map indexed l) = length (flat_map seg_tool_steps l).
Proof. induction l as [|s l IH]; [done|]. simpl. by rewrite !length_app, indexed_length, IH. Qed.

Lemma covers_length acc i : covers acc i -> length acc = length (flat_map seg_tool_steps (take i segs)).
Proof. intros [H _]. rewrite <- flat_indexed_length. apply (f_equal length) in H. by rewrite !length_map in H. Qed.

(** Results of all the tool steps there are cover all the segments. *)
Lemma covers_all acc i : covers acc i -> length acc = total_tool_steps -> covers acc (length segs).
Proof.
  intros Hc Hl. pose proof (covers_length _ _ Hc) as Hn. destruct Hc as [H1 H2]. split; [|done]. rewrite H1, firstn_all.
  rewrite <- (take_drop i segs) at 2. rewrite flat_map_app, map_app. assert (flat_map indexed (drop i segs) = []) as ->; [|by rewrite app_nil_r].
  apply nil_length_inv. rewrite flat_indexed_length. unfold total_tool_steps in Hl. rewrite <- (take_drop i segs), flat_map_app, length_app in Hl. lia.
Qed.

(** A crash continuation picks up at a segment its results cover. *)
Lemma count_completed_take l i : let n := count_completed l (length (flat_map seg_tool_steps (take i l))) in
  flat_map indexed (take n l) = flat_map indexed (take i l).
Proof.
  revert i. induction l as [|s l IH]; intros [|i]; try done.
  - change (flat_map indexed (take 0 (s :: l))) with (@nil (Z * pyval)). cbn [take flat_map length count_completed].
    case_decide as Hd; [|done]. cbn [take flat_map]. specialize (IH 0%nat). change (take 0 l) with (@nil segment) in IH. cbn [flat_map length] in IH.
    replace (0 - length (seg_tool_steps s))%nat with 0%nat by lia. cbn [firstn flat_map]. rewrite IH, app_nil_r.
    apply nil_length_inv. rewrite indexed_length. lia.
  - cbn [take flat_map count_completed]. rewrite length_app, decide_True by lia. cbn [take flat_map]. f_equal.
    replace (length (seg_tool_steps s) + length (flat_map seg_tool_steps (take i l)) - length (seg_tool_steps s))%nat
      with (length (flat_map seg_tool_steps (take i l))) by lia. apply IH.
Qed.

Lemma covers_continue acc i : covers acc i -> covers acc (count_completed segs (length acc)).
Proof. intros Hc. pose proof (covers_length _ _ Hc) as Hn. destruct Hc as [H1 H2]. split; [|done]. by rewrite Hn, count_completed_take. Qed.

(** ** A completed run did its plan *)

Definition runner_inv (n : runner) : Prop :=
  covers (rn_acc n) (rn_index n) /\
  match rn_phase n with
  | Finished es failed gate _ => failed = false -> gate = false -> complete (rn_index n) es
  | Deciding es failed gate _ st => (failed = false -> gate = false -> complete (rn_index n) es) /\ (gate = true -> st = "executing")
  | _ => True
  end.

Definition resume_inv (rs : resume) : Prop := covers (rs_acc rs) (rs_index rs).

Definition run_inv (r : run) : Prop :=
  (r_status r = "waiting" -> exists p, r_wait r = Some p /\ covers (r_steps r) (p_index p)) /\
  (r_status r = "executing" -> exists i, covers (r_steps r) i) /\
  (r_status r = "completed" -> covers (r_steps r) (length segs) /\
     exists pc v, extract_post_conditions (VDict plan) = Some pc /\ verify_post_conditions render pc (map entry_val (r_steps r)) = Some v /\ v_ok v = true).

Record world_inv (w : world) : Prop := {
  wi_run : run_inv (w_run w);
  wi_reg : forall ev rs, w_reg w = Some (ev, rs) -> resume_inv rs;
  wi_queue : Forall resume_inv (w_queue w);
  wi_runners : Forall runner_inv (w_runners w) }.

(** A worker only rebuilds the callback of a run that is parked, and a run whose guest
    halted at the authority gate is still executing, or was cancelled, when the call looks
    again. *)
Definition orderly (w : world) (a : action) : Prop :=
  match a with
  | Rebuild => r_status (w_run w) = "waiting"
  | LookAgain j => match w_runners w !! j with
                   | Some (Runner _ _ _ (Finished _ _ true _)) => r_status (w_run w) ∈ ["executing"; "cancelled"]
                   | _ => True
                   end
  | _ => True
  end.

Fixpoint orderly_acts (l : list action) (w : world) : Prop :=
  match l with [] => True | a :: l => orderly w a /\ orderly_acts l (act w a) end.

Lemma set_runners_inv l w : Forall runner_inv l -> world_inv w -> world_inv (set_runners l w).
Proof. intros Hl []. by constructor. Qed.

Lemma set_run_inv r w : run_inv r -> world_inv w -> world_inv (set_run r w).
Proof. intros Hr []. by constructor. Qed.

Lemma add_log_inv l w : world_inv w -> world_inv (add_log l w).
Proof. intros []. by constructor. Qed.

Lemma register_inv ev rs w : resume_inv rs -> world_inv w -> world_inv (register ev rs w).
Proof. intros Hrs []. constructor; try done. by intros ? ? [= <- <-]. Qed.

Lemma drop_runner_inv j w : world_inv w -> world_inv (drop_runner j w).
Proof. intros Hw. apply set_runners_inv; [|done]. apply Forall_delete, Hw. Qed.

Lemma set_phase_inv j p w n : w_runners w !! j = Some n -> runner_inv (Runner (rn_index n) (rn_acc n) (rn_cont n) p) -> world_inv w -> world_inv (set_phase j p w).
Proof.
  intros Hn Hp Hw. apply set_runners_inv; [|done]. apply Forall_alter; [apply Hw|]. intros x Hx. assert (x = n) as -> by congruence. done.
Qed.

(** Other statuses ask for nothing. *)
Lemma run_inv_other r : r_status r ∉ ["waiting"; "executing"; "completed"] -> run_inv r.
Proof. intros H. split_and!; intros E; rewrite E in H; set_solver. Qed.

Lemma commit_inv n es failed gate err st w w' : runner_inv (Runner (rn_index n) (rn_acc n) (rn_cont n) (Deciding es failed gate err st)) ->
  world_inv w -> commit n es failed gate err st w = Some w' -> world_inv w'.
Proof.
  intros [Hc [Hes Hex]] Hw. simpl in Hc, Hes. unfold commit. destruct (segs !! rn_index n) as [seg|] eqn:Hseg; [|done].
  destruct (gate && _) eqn:Hg.
  { intros [= <-]. apply register_inv; [done|]. apply set_run_inv; [|done]. split_and!; try done. intros _. eexists. split; [reflexivity|done]. }
  destruct failed; [intros [= <-]; apply set_run_inv; [|done]; apply run_inv_other; set_solver|].
  destruct gate; [by rewrite Hex in Hg|].
  assert (covers (rn_acc n ++ es) (S (rn_index n))) as Hcov by (apply covers_step; auto).
  destruct (seg_wait seg) as [wp|].
  { intros [= <-]. apply register_inv; [done|]. apply add_log_inv, set_run_inv; [|done]. split_and!; try done. intros _. eexists. split; [reflexivity|done]. }
  destruct (decide _) as [Hl|]; [|intros [= <-]; apply set_run_inv; [|done]; apply run_inv_other; set_solver].
  destruct (extract_post_conditions _) as [pc|] eqn:Hpc; [|done]. destruct (verify_post_conditions _ _ _) as [v|] eqn:Hvp; [|done].
  destruct (v_ok v) eqn:Hv; intros [= <-]; apply add_log_inv, set_run_inv; try done.
  split_and!; try done. intros _. simpl. split; [by eapply covers_all|by exists pc, v].
Qed.

Lemma claim_row_inv r : r_status r ∈ ["waiting"; "executing"] -> run_inv r -> run_inv (claim_row r).
Proof.
  intros Hs (Hw & He & _). split_and!; try done. intros _. simpl. apply elem_of_cons in Hs as [Hs|Hs%list_elem_of_singleton].
  - destruct (Hw Hs) as (p & _ & Hp). by exists (p_index p).
  - by apply He.
Qed.

Definition claims_ok (w : world) : Prop :=
  Forall (fun rs => rs_claim rs ∈ ["waiting"; "executing"]) (w_queue w) /\ forall ev rs, w_reg w = Some (ev, rs) -> rs_claim rs = "waiting".

Definition inv (w : world) : Prop := world_inv w /\ claims_ok w.

Lemma inv_runner w j n : world_inv w -> w_runners w !! j = Some n -> runner_inv n.
Proof. intros [_ _ _ H] Hn. rewrite Forall_forall in H. by eapply H, list_elem_of_lookup_2. Qed.

Lemma look_inv w j : inv w -> inv (act w (Look j)).
Proof.
  intros [Hw Hcl]. simpl. destruct (w_runners w !! j) as [n|] eqn:Hn; [|done]. pose proof (inv_runner _ _ _ Hw Hn) as [Hc _].
  destruct n as [i acc c []]; try done. destruct (decide _); (split; [|done]); [by apply drop_runner_inv|]. by eapply set_phase_inv.
Qed.

Lemma run_guest_finished n g p : run_guest n g = Some p -> exists es f gt e, p = Finished es f gt e.
Proof.
  unfold run_guest. destruct (segs !! _); [|done]. destruct (seg_tool_steps _); [intros [= <-]; eauto|].
  destruct (compile_agent_segment _ _ _ _); [|done]. destruct g; [|done]. destruct (segment_outcome _ _ _ _) as [[? ?] ?]. intros [= <-]. eauto.
Qed.

Lemma guest_inv w j g : inv w -> inv (act w (Guest j g)).
Proof.
  intros [Hw Hcl]. simpl. destruct (w_runners w !! j) as [n|] eqn:Hn; [|done]. pose proof (inv_runner _ _ _ Hw Hn) as [Hc _].
  destruct n as [i acc c []]; try done. destruct (run_guest _ g) as [p|] eqn:Hg; (split; [|done]); [|by apply drop_runner_inv].
  destruct (run_guest_finished _ _ _ Hg) as (es & f & gt & e & ->). eapply set_phase_inv; [done| |done]. split; [done|]. simpl. intros -> ->.
  by eapply (run_guest_complete (Runner i acc c InGuest)).
Qed.

Lemma look_again_inv w j : orderly w (LookAgain j) -> inv w -> inv (act w (LookAgain j)).
Proof.
  intros Ho [Hw Hcl]. simpl. simpl in Ho. destruct (w_runners w !! j) as [n|] eqn:Hn; [|done]. pose proof (inv_runner _ _ _ Hw Hn) as [Hc Hp].
  destruct n as [i acc c [| |es f gt e|]]; try done. destruct (decide _) as [|Hnc]; (split; [|done]); [by apply drop_runner_inv|].
  eapply set_phase_inv; [done| |done]. split; [done|]. simpl in *. split; [done|]. intros ->. set_solver.
Qed.

Lemma commit_claims n es f gt e st w w' : commit n es f gt e st w = Some w' -> claims_ok w -> claims_ok w'.
Proof.
  intros Hcm [H1 H2]. revert Hcm. unfold commit. destruct (segs !! _) as [seg|]; [|done].
  destruct (_ && _); [intros [= <-]; split; [done|by intros ? ? [= <- <-]]|]. destruct f; [by intros [= <-]|].
  destruct (seg_wait seg); [intros [= <-]; split; [done|by intros ? ? [= <- <-]]|]. destruct (decide _); [|by intros [= <-]].
  destruct (extract_post_conditions _); [|done]. destruct (verify_post_conditions _ _ _) as [v|]; [|done]. by destruct (v_ok v); intros [= <-].
Qed.

Lemma commit_act_inv w j : inv w -> inv (act w (Commit j)).
Proof.
  intros [Hw Hcl]. simpl. destruct (w_runners w !! j) as [n|] eqn:Hn; [|done]. pose proof (inv_runner _ _ _ Hw Hn) as Hnv.
  destruct n as [i acc c [| | |es f gt e st]]; try done. pose proof (drop_runner_inv j w Hw) as Hd.
  destruct (commit _ _ _ _ _ _ _) as [w'|] eqn:Hcm; simpl; [|by split]. split; [|by eapply commit_claims].
  by eapply (commit_inv (Runner i acc c (Deciding es f gt e st))).
Qed.

Lemma inv_parts w : inv w -> run_inv (w_run w) /\ (forall ev rs, w_reg w = Some (ev, rs) -> resume_inv rs /\ rs_claim rs = "waiting") /\
  Forall resume_inv (w_queue w) /\ Forall (fun rs => rs_claim rs ∈ ["waiting"; "executing"]) (w_queue w) /\ Forall runner_inv (w_runners w).
Proof. intros [[] []]. split_and!; eauto. Qed.

Lemma inv_intro w : run_inv (w_run w) -> (forall ev rs, w_reg w = Some (ev, rs) -> resume_inv rs /\ rs_claim rs = "waiting") ->
  Forall resume_inv (w_queue w) -> Forall (fun rs => rs_claim rs ∈ ["waiting"; "executing"]) (w_queue w) -> Forall runner_inv (w_runners w) -> inv w.
Proof. intros ? H ? ? ?. split; [constructor|split]; try done; intros ev rs He; by apply (H ev). Qed.

Lemma fire_inv w ev : inv w -> inv (act w (Fire ev)).
Proof.
  intros Hi. destruct (inv_parts _ Hi) as (Hr & Hreg & Hq & Hcl & Hrn). simpl. destruct (w_reg w) as [[ev' rs]|]; [|done].
  destruct (decide _); [|done]. destruct (Hreg ev' rs eq_refl) as [Hrs Hc].
  apply inv_intro; simpl; try done; (apply Forall_app; split; [done|]; constructor; [|done]); [done|]. rewrite Hc. set_solver.
Qed.

Lemma callback_inv w j : inv w -> inv (act w (RunCallback j)).
Proof.
  intros Hi. destruct (inv_parts _ Hi) as (Hr & Hreg & Hq & Hcl & Hrn). simpl. destruct (w_queue w !! j) as [rs|] eqn:Hj; [|done].
  pose proof (proj1 (Forall_forall _ _) Hq rs (list_elem_of_lookup_2 _ _ _ Hj)) as Hrs.
  pose proof (proj1 (Forall_forall _ _) Hcl rs (list_elem_of_lookup_2 _ _ _ Hj)) as Hclaim. simpl in Hclaim.
  unfold run_callback. cbn [w_run]. destruct (decide _) as [Hs|]; apply inv_intro; simpl; try done; try (by apply Forall_delete).
  - apply claim_row_inv; [by rewrite Hs|done].
  - apply Forall_app. split; [done|]. constructor; [|done]. by split.
Qed.

Lemma rehydrate_inv w : inv w -> inv (rehydrate w).
Proof.
  intros Hi. destruct (inv_parts _ Hi) as ((Hwt & _) & _). unfold rehydrate. destruct (w_reg w) as [[ev rs]|]; [done|].
  destruct (r_wait (w_run w)) as [p|] eqn:Hp; [|done]. destruct (decide _) as [Hs|]; [|done]. destruct (decide _); [|done]. destruct Hi as [Hw [H1 H2]].
  split; [|split; [done|by intros ? ? [= <- <-]]]. apply register_inv; [|done]. destruct (Hwt Hs) as (p' & Hp' & Hcv). by assert (p' = p) as -> by congruence.
Qed.

Lemma rebuild_inv w : r_status (w_run w) = "waiting" -> inv w -> inv (act w Rebuild).
Proof.
  intros Ho Hi. destruct (inv_parts _ Hi) as (Hr & Hreg & Hq & Hcl & Hrn). simpl in *. unfold rebuild. pose proof Hr as (Hwt & _).
  destruct (Hwt Ho) as (p & Hp & Hcv). rewrite Hp. destruct (decide _); [|done].
  apply inv_intro; simpl; try done; (apply Forall_app; split; [done|]; constructor; [|done]); [done|set_solver].
Qed.

Lemma continue_inv m w : inv w -> inv (continue_crashed m w).
Proof.
  intros Hi. destruct (inv_parts _ Hi) as (Hr & Hreg & Hq & Hcl & Hrn). pose proof Hr as (_ & He & _). unfold continue_crashed.
  destruct (decide _) as [Hs|]; [|done]. destruct (r_flow _); [|done]. destruct (decide _); [|done]. destruct (He Hs) as [i Hc].
  destruct (_ <=? _); apply inv_intro; simpl; try done.
  - split_and!; try done. intros _. by exists i.
  - apply Forall_app. split; [done|]. constructor; [|done]. by eapply covers_continue.
  - apply Forall_app. split; [done|]. constructor; [|done]. set_solver.
Qed.

Lemma act_inv w a : orderly w a -> inv w -> inv (act w a).
Proof.
  intros Ho Hi. destruct a as [|j|j g|j|j|ev|j|reason| | | |m].
  - simpl. destruct (decide _); [|done]. destruct Hi. split; [|done]. apply set_runners_inv; [|done]. constructor; [|constructor]. split; [by split|done].
  - by apply look_inv.
  - by apply guest_inv.
  - by apply look_again_inv.
  - by apply commit_act_inv.
  - by apply fire_inv.
  - by apply callback_inv.
  - simpl. unfold cancel. destruct (decide _); [|done]. destruct Hi. split; [|done]. apply set_run_inv; [|done]. apply run_inv_other. set_solver.
  - destruct Hi as [[] _]. split; [by constructor|by split].
  - by apply rehydrate_inv.
  - by apply rebuild_inv.
  - by apply continue_inv.
Qed.

Definition fresh (w : world) : Prop :=
  r_status (w_run w) = "executing" /\ r_steps (w_run w) = [] /\ w_reg w = None /\ w_queue w = [] /\ w_runners w = [] /\ w_log w = [].

Lemma fresh_inv w : fresh w -> inv w.
Proof.
  intros (H1 & H2 & H3 & H4 & H5 & _). split; [constructor|split]; rewrite ?H3, ?H4, ?H5; try done.
  split_and!; rewrite H1; try done. intros _. exists 0%nat. by rewrite H2.
Qed.

Lemma acts_inv l : forall w, orderly_acts l w -> inv w -> inv (acts l w).
Proof. induction l as [|a l IH]; intros w Ho Hi; [done|]. destruct Ho as [Ho Hl]. apply IH; [done|]. by apply act_inv. Qed.

(** ** The plan is followed *)

(** What executing the first [i] segments does. *)
Definition plan_prefix (i : nat) : list plan_event := flat_map unroll (take i segs).

Definition park_event (p : park) : list plan_event := if p_cont p then [] else park_log (p_event p) (p_corr p).

(** One process that runs one call at a time: waits are rehydrated when it boots, no other
    process rebuilds callbacks, and crashes are not continued, which is the default. *)
Definition single (w : world) (a : action) : Prop :=
  match a with Rebuild | Continue _ => False | Rehydrate => w_queue w = [] /\ w_runners w = [] | _ => True end.

Fixpoint single_acts (l : list action) (w : world) : Prop :=
  match l with [] => True | a :: l => single w a /\ single_acts l (act w a) end.

Definition pending (w : world) : option (list resume) :=
  match w_reg w, w_queue w with
  | None, [] => Some []
  | Some (_, rs), [] | None, [rs] => Some [rs]
  | _, _ => None
  end.

Record linear (w : world) : Prop := {
  li_wait : r_status (w_run w) = "waiting" -> w_runners w = [] /\ exists p, r_wait (w_run w) = Some p /\ w_log w ++ park_event p = plan_prefix (p_index p);
  li_pending : match pending w with
    | Some [] => True
    | Some (rs :: _) => w_runners w = [] /\ r_status (w_run w) <> "executing" /\ rs_claim rs = "waiting" /\ w_log w ++ rs_log rs = plan_prefix (rs_index rs)
    | None => False
    end;
  li_runner : match w_runners w with
    | [] => True
    | [n] => w_log w = plan_prefix (rn_index n) /\ pending w = Some [] /\ r_status (w_run w) ∈ ["executing"; "cancelled"]
    | _ => False
    end;
  li_prefix : w_log w `prefix_of` plan_prefix (length segs);
  li_done : r_status (w_run w) = "completed" -> exists i seg, segs !! i = Some seg /\ seg_wait seg = None /\ w_log w = plan_prefix (S i) /\
    length (flat_map seg_tool_steps (take (S i) segs)) = total_tool_steps }.

Lemma plan_prefix_S i seg : segs !! i = Some seg -> plan_prefix (S i) = plan_prefix i ++ unroll seg.
Proof. intros H. unfold plan_prefix. rewrite (take_S_r _ _ _ H), flat_map_app. simpl. by rewrite app_nil_r. Qed.

Lemma plan_prefix_le i : plan_prefix i `prefix_of` plan_prefix (length segs).
Proof.
  unfold plan_prefix. rewrite firstn_all. exists (flat_map unroll (drop i segs)). by rewrite <- flat_map_app, take_drop.
Qed.

Lemma log_prefix log l i : log ++ l = plan_prefix i -> log `prefix_of` plan_prefix (length segs).
Proof. intros H. transitivity (plan_prefix i); [by exists l|apply plan_prefix_le]. Qed.

Lemma linear_runner w j n : linear w -> w_runners w !! j = Some n -> j = 0%nat /\ w_runners w = [n] /\ w_log w = plan_prefix (rn_index n) /\ pending w = Some [] /\
  r_status (w_run w) ∈ ["executing"; "cancelled"].
Proof.
  intros [_ _ Hr _ _] Hn. destruct (w_runners w) as [|n0 [|]]; [done| |done]. destruct Hr as (? & ? & ?). destruct j as [|[|]]; [|done..]. by injection Hn as ->.
Qed.

(** A call that ends without a trace. *)
Lemma linear_drop w j n : linear w -> w_runners w !! j = Some n -> linear (drop_runner j w).
Proof.
  intros Hl Hn. destruct (linear_runner _ _ _ Hl Hn) as (-> & Hrn & Hlog & Hp & Hst). destruct Hl as [H1 H2 H3 H4 H5].
  unfold drop_runner. constructor; simpl; rewrite ?Hrn; simpl; try done.
  - intros Hs. by destruct (H1 Hs) as [? ?].
  - unfold pending in *. simpl. by rewrite Hp.
Qed.

Lemma linear_phase w j n p : linear w -> w_runners w !! j = Some n -> linear (set_phase j p w).
Proof.
  intros Hl Hn. destruct (linear_runner _ _ _ Hl Hn) as (-> & Hrn & Hlog & Hp & Hst). destruct Hl as [H1 H2 H3 H4 H5].
  unfold set_phase. constructor; simpl; rewrite ?Hrn; simpl; try done.
  - intros Hs. destruct (H1 Hs) as [Hx _]. congruence.
  - unfold pending in *. simpl. by rewrite Hp.
Qed.

(** The rest of the world around a run nobody drives. *)
Lemma linear_idle w : w_runners w = [] -> pending w = Some [] -> w_log w `prefix_of` plan_prefix (length segs) ->
  r_status (w_run w) ∉ ["waiting"; "completed"] -> linear w.
Proof.
  intros Hrn Hp Hl Hs. constructor; [|by rewrite Hp|by rewrite Hrn|done|]; intros E; rewrite E in Hs; set_solver.
Qed.

Lemma linear_parked w ev rs p : w_runners w = [] -> w_reg w = Some (ev, rs) -> w_queue w = [] -> r_status (w_run w) = "waiting" ->
  r_wait (w_run w) = Some p -> rs_claim rs = "waiting" -> rs_log rs = park_event p -> rs_index rs = p_index p ->
  w_log w ++ rs_log rs = plan_prefix (rs_index rs) -> linear w.
Proof.
  intros Hrn Hreg Hq Hs Hw Hc Hlog Hi Hl. assert (pending w = Some [rs]) as Hp by (unfold pending; by rewrite Hreg, Hq). constructor.
  - intros _. split; [done|]. exists p. by rewrite <- Hlog, <- Hi.
  - rewrite Hp, Hs. by split_and!.
  - by rewrite Hrn.
  - by eapply log_prefix.
  - by rewrite Hs.
Qed.

Lemma linear_commit w n es f gt e st w' : w_runners w = [] -> w_log w = plan_prefix (rn_index n) -> w_reg w = None -> w_queue w = [] ->
  runner_inv (Runner (rn_index n) (rn_acc n) (rn_cont n) (Deciding es f gt e st)) -> commit n es f gt e st w = Some w' -> linear w'.
Proof.
  intros Hrn Hlog Hreg Hq [Hc [Hes Hex]]. simpl in Hc, Hes. unfold commit. destruct (segs !! rn_index n) as [seg|] eqn:Hseg; [|done].
  assert (forall r, r_status r ∉ ["waiting"; "completed"] -> linear (set_run r w)) as Hother.
  { intros r Hr. apply linear_idle; try done; [unfold pending; simpl; by rewrite Hreg, Hq|]. simpl. rewrite Hlog. apply plan_prefix_le. }
  destruct (gt && _) eqn:Hg.
  { intros [= <-]. eapply linear_parked; simpl; try done. by rewrite app_nil_r. }
  destruct f; [intros [= <-]; apply Hother; set_solver|]. destruct gt; [by rewrite Hex in Hg|].
  pose proof (plan_prefix_S _ _ Hseg) as HS. unfold unroll in HS. destruct (seg_wait seg) as [wp|] eqn:Hwp.
  { intros [= <-]. eapply linear_parked; simpl; try done. cbn [rs_log rs_index]. rewrite Hlog, HS, <- app_assoc. done. }
  rewrite app_nil_r in HS. assert (covers (rn_acc n ++ es) (S (rn_index n))) as Hcov by (apply covers_step; auto).
  destruct (decide _) as [Hl|]; [|intros [= <-]; apply Hother; set_solver].
  destruct (extract_post_conditions _) as [pc|]; [|done]. destruct (verify_post_conditions _ _ _) as [v|]; [|done].
  assert (w_log w ++ map RunTool (seg_tool_steps seg) = plan_prefix (S (rn_index n))) as Hnew by (by rewrite Hlog, HS).
  destruct (v_ok v); intros [= <-].
  - constructor; simpl; try done; [unfold pending; simpl; by rewrite Hreg, Hq|by rewrite Hrn|rewrite Hnew; apply plan_prefix_le|].
    intros _. exists (rn_index n), seg. split_and!; try done. by rewrite <- (covers_length _ _ Hcov).
  - apply linear_idle; simpl; try done; [unfold pending; simpl; by rewrite Hreg, Hq|rewrite Hnew; apply plan_prefix_le|set_solver].
Qed.

Lemma pending_nil w : pending w = Some [] -> w_reg w = None /\ w_queue w = [].
Proof. unfold pending. destruct (w_reg w) as [[]|], (w_queue w) as [|? [|]]; done. Qed.

Lemma linear_callback w j : linear w -> linear (act w (RunCallback j)).
Proof.
  intros Hl. simpl. destruct (w_queue w !! j) as [rs|] eqn:Hj; [|done]. pose proof Hl as [H1 H2 H3 H4 H5].
  assert (w_reg w = None /\ w_queue w = [rs] /\ j = 0%nat) as (Hreg & Hq & ->).
  { unfold pending in H2. destruct (w_reg w) as [[]|], (w_queue w) as [|q0 [|]]; try done. destruct j as [|[|]]; try done. by injection Hj as ->. }
  assert (pending w = Some [rs]) as Hp by (unfold pending; by rewrite Hreg, Hq). rewrite Hp in H2. destruct H2 as (Hrn & Hne & Hc & Hlog).
  unfold run_callback. cbn [w_run w_reg w_queue w_runners w_log]. rewrite Hq, Hrn, Hc. destruct (decide _) as [Hs|Hs]; constructor; simpl; rewrite ?Hreg; try done.
  - split_and!; try done. set_solver.
  - by eapply log_prefix; rewrite app_nil_r.
Qed.

Lemma linear_act w a : single w a -> inv w -> linear w -> linear (act w a).
Proof.
  intros Hs Hi Hl. pose proof Hi as [Hw _]. destruct a as [|j|j g|j|j|ev|j|reason| | | |m]; try done.
  - simpl. destruct (decide _) as [(Hst & Hrn & Hlog)|]; [|done]. destruct Hl as [H1 H2 H3 H4 H5].
    assert (pending w = Some []) as Hp by (destruct (pending w) as [[|]|]; naive_solver).
    constructor; simpl; try done; [by rewrite Hst|unfold pending in *; simpl; by rewrite Hp|]. split_and!; try done. rewrite Hst. set_solver.
  - simpl. destruct (w_runners w !! j) as [[i acc c []]|] eqn:Hn; try done. destruct (decide _); [by eapply linear_drop|by eapply linear_phase].
  - simpl. destruct (w_runners w !! j) as [[i acc c []]|] eqn:Hn; try done. destruct (run_guest _ g); [by eapply linear_phase|by eapply linear_drop].
  - simpl. destruct (w_runners w !! j) as [[i acc c []]|] eqn:Hn; try done. destruct (decide _); [by eapply linear_drop|by eapply linear_phase].
  - simpl. destruct (w_runners w !! j) as [[i acc c [| | |es f gt e st]]|] eqn:Hn; try done. pose proof (inv_runner _ _ _ Hw Hn) as Hnv.
    destruct (linear_runner _ _ _ Hl Hn) as (-> & Hrn & Hlog & Hp & _). apply pending_nil in Hp as [Hreg Hq].
    destruct (commit _ _ _ _ _ _ _) as [w'|] eqn:Hcm; simpl; [|by eapply linear_drop].
    eapply (linear_commit _ (Runner i acc c (Deciding es f gt e st))); [..|exact Hcm]; simpl; try done. by rewrite Hrn.
  - simpl. destruct (w_reg w) as [[ev' rs]|] eqn:Hreg; [|done]. destruct (decide _); [|done]. pose proof Hl as [H1 H2 H3 H4 H5].
    unfold pending in H2. rewrite Hreg in H2. destruct (w_queue w) eqn:Hq; [|done]. destruct H2 as (Hrn & H2). constructor; simpl; try done. by rewrite Hrn.
  - by apply linear_callback.
  - simpl. unfold cancel. destruct (decide _); [|done]. destruct Hl as [H1 H2 H3 H4 H5]. constructor; simpl; try done.
    + unfold pending in *. simpl. destruct (w_reg w) as [[]|], (w_queue w) as [|? [|]]; naive_solver.
    + destruct (w_runners w) as [|n [|]]; try done. destruct H3 as (? & ? & ?). split_and!; try done. set_solver.
  - destruct Hl as [H1 H2 H3 H4 H5]. constructor; simpl; try done. intros E. by destruct (H1 E).
  - destruct Hs as [Hq Hrn]. simpl. unfold rehydrate. destruct (w_reg w) as [[]|] eqn:Hreg; [done|]. destruct (r_wait (w_run w)) as [p|] eqn:Hp; [|done].
    destruct (decide _) as [Hst|]; [|done]. destruct (decide _); [|done]. destruct (li_wait _ Hl Hst) as (_ & p' & Hp' & Hlog). assert (p' = p) as -> by congruence.
    by eapply linear_parked.
Qed.

Lemma linear_orderly w a : single w a -> linear w -> orderly w a.
Proof.
  intros Hs Hl. destruct a as [| | |j| | | | | | | |]; try done. simpl. destruct (w_runners w !! j) as [[i acc c []]|] eqn:Hn; try done.
  destruct gate; [|done]. by destruct (linear_runner _ _ _ Hl Hn) as (_ & _ & _ & _ & Hst).
Qed.

Lemma acts_linear l : forall w, single_acts l w -> inv w -> linear w -> linear (acts l w).
Proof.
  induction l as [|a l IH]; intros w Hs Hi Hl; [done|]. destruct Hs as [Ha Hs]. apply IH; [done| |by apply linear_act]. apply act_inv; [by apply linear_orderly|done].
Qed.

(** *** Which events have fired *)

Definition waited (e : plan_event) : option string := match e with WaitFor (VStr ev) _ => Some ev | _ => None end.
Definition fired (a : action) : option string := match a with Fire ev => Some ev | _ => None end.

(** The waits that are behind the chain, and the one whose callback is queued, were fired,
    in this order; a registration is under the event of its wait. *)
Record heard (f : list string) (w : world) : Prop := {
  he_log : omap waited (w_log w) `sublist_of` f;
  he_queue : forall rs, rs ∈ w_queue w -> omap waited (w_log w ++ rs_log rs) `sublist_of` f;
  he_reg : forall ev rs, w_reg w = Some (ev, rs) -> omap waited (rs_log rs) `sublist_of` [ev] }.

Lemma waited_settled seg : omap waited (map RunTool seg) = [].
Proof. by induction seg. Qed.

Lemma waited_park ev corr : omap waited (park_log ev corr) = [ev].
Proof. done. Qed.

Lemma commit_heard f n es failed gate err st w w' :
  w_queue w = [] -> heard f w -> commit n es failed gate err st w = Some w' -> heard f w'.
Proof.
  intros Hq [H1 H2 H3]. unfold commit. destruct (segs !! _) as [seg|]; [|done].
  assert (Hlog : omap waited (w_log w ++ map RunTool (seg_tool_steps seg)) `sublist_of` f)
    by (by rewrite omap_app, waited_settled, app_nil_r).
  destruct (_ && _).
  { intros [= <-]. constructor; simpl; try done. intros ev rs [= <- <-]. apply sublist_nil_l. }
  destruct failed; [intros [= <-]; by constructor|]. destruct (seg_wait seg) as [wp|].
  { intros [= <-]. constructor; simpl; try done; [rewrite Hq; by intros rs ?%not_elem_of_nil|]. intros ev rs [= <- <-]. done. }
  destruct (decide _); [|intros [= <-]; by constructor].
  destruct (extract_post_conditions _); [|done]. destruct (verify_post_conditions _ _ _) as [v|]; [|done].
  destruct (v_ok v); intros [= <-]; constructor; simpl; try done; rewrite Hq; by intros rs ?%not_elem_of_nil.
Qed.

Lemma heard_more f f' w : heard f w -> f `sublist_of` f' -> heard f' w.
Proof. intros [H1 H2 H3] Hs. constructor; try done; [by etrans|]. intros rs Hrs. etrans; [by apply H2|done]. Qed.

Lemma heard_act f w a : single w a -> linear w -> heard f w -> heard (f ++ option_list (fired a)) (act w a).
Proof.
  intros Hs Hl Hh. assert (Hf : heard (f ++ option_list (fired a)) w) by (eapply heard_more; [done|]; by apply sublist_inserts_r).
  destruct a as [|j|j g|j|j|ev|j|reason| | | |m]; try done; simpl in *; rewrite ?app_nil_r in *.
  - destruct (decide _); [|done]. by destruct Hh.
  - destruct (w_runners w !! j) as [[i acc c []]|]; try done. destruct (decide _); by destruct Hh.
  - destruct (w_runners w !! j) as [[i acc c []]|]; try done. destruct (run_guest _ g); by destruct Hh.
  - destruct (w_runners w !! j) as [[i acc c []]|]; try done. destruct (decide _); by destruct Hh.
  - destruct (w_runners w !! j) as [[i acc c [| | |es fl gt e st]]|] eqn:Hn; try done.
    destruct (linear_runner _ _ _ Hl Hn) as (_ & _ & _ & Hp & _). apply pending_nil in Hp as [_ Hq].
    assert (Hd : heard f (drop_runner j w)) by (by destruct Hh).
    destruct (commit _ _ _ _ _ _ _) as [w'|] eqn:Hcm; [|done]. eapply commit_heard; [|exact Hd|exact Hcm]. done.
  - destruct (w_reg w) as [[ev' rs]|] eqn:Hreg; [|done]. destruct (decide _) as [->|]; [|done]. destruct Hh as [H1 H2 H3].
    constructor; simpl; [apply Hf| |done]. intros rs' [Hrs|Hrs%list_elem_of_singleton]%elem_of_app; [by apply Hf|]. subst rs'.
    rewrite omap_app. apply sublist_app; [done|by apply (H3 ev)].
  - destruct (w_queue w !! j) as [rs|] eqn:Hj; [|done]. pose proof (list_elem_of_lookup_2 _ _ _ Hj) as Hin.
    pose proof Hl as [_ H2 _ _ _]. assert (Hq : w_queue w = [rs] /\ j = 0%nat).
    { unfold pending in H2. destruct (w_reg w) as [[]|], (w_queue w) as [|q0 [|]]; try done. destruct j as [|[|]]; try done. by injection Hj as ->. }
    destruct Hq as [Hq ->]. destruct Hh as [G1 G2 G3]. unfold run_callback. cbn [w_run w_reg w_queue w_runners w_log]. rewrite Hq.
    destruct (decide _); constructor; simpl; try done; [by apply G2|..]; by intros x ?%not_elem_of_nil.
  - unfold cancel. destruct (decide _); [|done]. by destruct Hh.
  - destruct Hh. constructor; simpl; try done. by intros x ?%not_elem_of_nil.
  - unfold rehydrate. destruct (w_reg w) as [[]|] eqn:Hreg; [done|]. destruct (r_wait (w_run w)) as [p|]; [|done].
    destruct (decide _); [|done]. destruct (decide _); [|done]. destruct Hh as [G1 G2 G3]. constructor; simpl; try done.
    intros ev rs [= <- <-]. simpl. destruct (p_cont p); [apply sublist_nil_l|done].
Qed.

Lemma acts_heard l : forall f w, single_acts l w -> inv w -> linear w -> heard f w -> heard (f ++ omap fired l) (acts l w).
Proof.
  induction l as [|a l IH]; intros f w Hs Hi Hl Hh; [by rewrite app_nil_r|]. destruct Hs as [Ha Hs].
  replace (f ++ omap fired (a :: l)) with ((f ++ option_list (fired a)) ++ omap fired l) by (rewrite <- app_assoc; csimpl; by destruct (fired a)).
  apply IH; [done| |by apply linear_act|by apply heard_act]. apply act_inv; [by apply linear_orderly|done].
Qed.

Lemma fresh_linear w : fresh w -> linear w.
Proof.
  intros (H1 & H2 & H3 & H4 & H5 & H6). apply linear_idle; [done|unfold pending; by rewrite H3, H4| |rewrite H1; set_solver].
  rewrite H6. apply prefix_nil.
Qed.

(** In the segments of a plan one without a wait is the last one, or a step before the next
    tool step. *)
Fixpoint waits_placed (l : list segment) : Prop :=
  match l with
  | [] => True
  | s :: rest => (seg_wait s = None -> match rest with [] => True | s' :: _ => seg_tool_steps s' <> [] end) /\ waits_placed rest
  end.

Lemma waits_placed_last l i seg : waits_placed l -> l !! i = Some seg -> seg_wait seg = None ->
  flat_map seg_tool_steps (drop (S i) l) = [] -> S i = length l.
Proof.
  revert i. induction l as [|s l IH]; intros i; [done|]. intros [H Hl] Hi Hw Hd. destruct i as [|i]; simpl in *.
  - injection Hi as ->. destruct l as [|s' l]; [done|]. specialize (H Hw). simpl in Hd. by apply app_eq_nil in Hd as [? _].
  - f_equal. by apply IH.
Qed.
End Chain.

(** C7: Whatever guests give back, whenever events fire, processes crash, waits are
    rehydrated, callbacks run late or twice, crashes are continued and the run is cancelled:
    a run that says completed has exactly one result for every tool step of its plan, in the
    plan's order, each a success or a step the operator skipped, and every post-condition the
    plan declares holds of them. Two interleavings are excluded ([orderly_acts]), and have
    to be: a callback rebuilt from the run's identifier while the run is not parked
    ([rebuild_while_executing]), and a call that halted at the authority gate and finds the
    run parked or ended by another call when it looks again ([gate_after_the_end]). *)
Theorem completed_run_did_plan render cnf granular plan segs l w :
  split_agent_plan granular plan = Ok segs -> fresh w -> orderly_acts render cnf plan segs l w ->
  let r := w_run (acts render cnf plan segs l w) in
  r_status r = "completed" ->
  exists steps pc, steps_of plan = Ok steps /\ map e_index (r_steps r) = map fst (number 0 (tool_steps steps)) /\
    Forall (fun e => e_status e ∈ ["success"; "skipped"]) (r_steps r) /\
    extract_post_conditions (VDict plan) = Some pc /\
    (forall i conds c, (i, conds) ∈ pc -> c ∈ conds -> eval_condition render c (by_index i (map entry_val (r_steps r))) = true).
Proof.
  intros Hsplit Hf Ho r Hs. destruct (acts_inv render cnf plan segs l w Ho (fresh_inv _ _ _ _ Hf)) as [[(_ & _ & Hd) _ _ _] _].
  destruct (Hd Hs) as ([Hc Hok] & pc & v & Hpc & Hv & Hvok). destruct (split_preserves_plan _ _ _ Hsplit) as (steps & Hst & _ & _ & Hix & _).
  exists steps, pc. rewrite firstn_all in Hc. split_and!; try done; [unfold r; by rewrite Hc, Hix|].
  by apply (verify_fails_closed _ _ _ _ Hv).
Qed.

Lemma split_steps_placed steps : forall pos cur base n segs, split_steps pos steps cur base n = Ok segs ->
  segs <> [] /\ Forall (fun s => seg_wait s <> None) (removelast segs).
Proof.
  induction steps as [|step steps IH]; intros pos cur base n segs; simpl.
  - intros [= <-]. by split.
  - destruct (is_wait_step step); [|apply IH]. destruct (read_wait pos step) as [wp|]; [|done].
    destruct (split_steps _ steps [] _ 0) as [segs'|] eqn:Hs; [|done]. intros [= <-]. apply IH in Hs as [Hne Hf]. split; [done|].
    destruct segs' as [|s' segs']; [done|]. by constructor.
Qed.

Lemma expand_steps_placed steps : forall base wait rest, steps <> [] -> (wait = None -> rest = []) -> waits_placed rest ->
  waits_placed (expand_steps steps base wait ++ rest).
Proof.
  induction steps as [|s [|s' steps] IH]; intros base wait rest Hne Hw Hr; [done| |].
  - simpl. split; [|done]. intros Hn. by rewrite (Hw Hn).
  - change (expand_steps (s :: s' :: steps) base wait) with (Segment [s] base None :: expand_steps (s' :: steps) (base + 1) wait).
    cbn [app waits_placed]. split; [|by apply IH]. intros _. by destruct steps.
Qed.

Lemma expand_segment_placed seg rest : (seg_wait seg = None -> rest = []) -> waits_placed rest -> waits_placed (expand_segment seg ++ rest).
Proof.
  intros Hw Hr. unfold expand_segment. destruct (seg_tool_steps seg) as [|s [|s' steps]]; [..|by apply expand_steps_placed];
    (simpl; split; [|done]; intros Hn; by rewrite (Hw Hn)).
Qed.

Lemma split_placed granular plan segs : split_agent_plan granular plan = Ok segs -> waits_placed segs.
Proof.
  unfold split_agent_plan. destruct (steps_of plan) as [steps|]; [|done]. destruct (split_steps 0 steps [] 0 0) as [l|] eqn:Hs; [|done].
  apply split_steps_placed in Hs as [_ Hf]. intros [= <-]. assert (waits_placed l /\ waits_placed (expand_to_step_segments l)) as [H1 H2]; [|by destruct granular].
  induction l as [|s l IH]; [done|]. assert (seg_wait s = None -> l = []) as Hlast.
  { intros Hn. destruct l as [|s' l]; [done|]. cbn [removelast] in Hf. by apply Forall_cons in Hf as [? _]. }
  assert (waits_placed l /\ waits_placed (expand_to_step_segments l)) as [H1 H2].
  { apply IH. destruct l as [|s' l]; [constructor|]. cbn [removelast] in Hf. by apply Forall_cons in Hf as [_ ?]. }
  split.
  - split; [|done]. intros Hn. by rewrite (Hlast Hn).
  - apply expand_segment_placed; [|done]. intros Hn. by rewrite (Hlast Hn).
Qed.

(** C9: With one process, which does not rebuild callbacks from identifiers nor continue
    crashed runs (the default): however guests answer, events fire, the process crashes and
    boots, and the run is cancelled, what the chain settles is the plan read in order: tool
    steps run in the plan's order, none again once its segment is settled; the waits that
    are behind it are, in their order, among the events that fired up to then, so that a
    step behind a wait runs only after the wait's event; and the log of a completed run is
    the whole plan. *)
Theorem chain_follows_plan render cnf granular plan segs l w :
  split_agent_plan granular plan = Ok segs -> fresh w -> single_acts render cnf plan segs l w ->
  let w' := acts render cnf plan segs l w in
  exists steps, steps_of plan = Ok steps /\ w_log w' `prefix_of` map event_of steps /\
    omap waited (w_log w') `sublist_of` omap fired l /\
    (r_status (w_run w') = "completed" -> w_log w' = map event_of steps).
Proof.
  intros Hsplit Hf Hs w'. destruct (split_preserves_plan _ _ _ Hsplit) as (steps & Hst & _ & Hu & _). exists steps. split; [done|].
  assert (plan_prefix segs (length segs) = map event_of steps) as Hall by (unfold plan_prefix; by rewrite firstn_all).
  pose proof (acts_linear render cnf plan segs l w Hs (fresh_inv _ _ _ _ Hf) (fresh_linear _ _ Hf)) as [_ _ _ Hp Hd]. fold w' in Hp, Hd. rewrite <- Hall.
  split; [done|]. split.
  { assert (H0 : heard [] w) by (destruct Hf as (_ & _ & H3 & H4 & _ & H6); constructor; rewrite ?H3, ?H4, ?H6; try done; by intros rs ?%not_elem_of_nil).
    apply (acts_heard render cnf plan segs l [] w Hs (fresh_inv _ _ _ _ Hf) (fresh_linear _ _ Hf) H0). }
  intros Hc. destruct (Hd Hc) as (i & seg & Hi & Hw & Hlog & Hn). rewrite Hlog. f_equal.
  eapply waits_placed_last; [by eapply split_placed|done..|]. apply nil_length_inv. unfold total_tool_steps in Hn.
  assert (length (flat_map seg_tool_steps segs) = length (flat_map seg_tool_steps (take (S i) segs)) + length (flat_map seg_tool_steps (drop (S i) segs)))%nat
    as E by (by rewrite <- length_app, <- flat_map_app, take_drop). lia.
Qed.

(** ** Examples *)

Definition render0 : pyval -> string := fun _ => "?".
Definition tool (name : string) : pyval := VDict [("tool", VStr name); ("risk_level", VStr "low")].
Definition wait_for (ev : string) : pyval := VDict [("wait_for", VStr ev)].
Definition started : world := World (Run "executing" [] 0 None false 0 None None) None [] [] [].
Definition segs_of (granular : bool) (steps : list pyval) : list segment :=
  match split_agent_plan granular [("steps", VList steps)] with Ok l => l | Err _ => [] end.
Definition play (granular : bool) (steps : list pyval) (l : list action) : world :=
  acts render0 (fun _ => true) [("steps", VList steps)] (segs_of granular steps) l started.

(** A guest whose steps with these indices succeed. *)
Definition succeeds (indices : list Z) : guest :=
  Returned (map (fun i => (step_result_key i, VDict [("success", VBool true); ("result", VInt i)])) indices) true false None.
(** A whole call of the chain. *)
Definition call (g : guest) : list action := [Look 0; Guest 0 g; LookAgain 0; Commit 0].

Definition demo_steps : list pyval := [tool "search"; wait_for "user.ok"; tool "store"].
Definition demo_run : list action :=
  [Start] ++ call (succeeds [0]) ++ [Crash; Rehydrate; Fire "other"; Fire "user.ok"; RunCallback 0] ++ call (succeeds [1]).

Lemma completed_run_witness :
  r_status (w_run (play false demo_steps demo_run)) = "completed" /\
  exists steps pc, steps_of [("steps", VList demo_steps)] = Ok steps /\
    map e_index (r_steps (w_run (play false demo_steps demo_run))) = map fst (number 0 (tool_steps steps)) /\
    extract_post_conditions (VDict [("steps", VList demo_steps)]) = Some pc.
Proof.
  split; [vm_compute; reflexivity|].
  destruct (completed_run_did_plan render0 (fun _ => true) false [("steps", VList demo_steps)] (segs_of false demo_steps) demo_run started)
    as (steps & pc & H1 & H2 & _ & H4 & _).
  - vm_compute. reflexivity.
  - repeat split; reflexivity.
  - vm_compute. repeat split.
  - vm_compute. reflexivity.
  - exists steps, pc. split; [exact H1|]. split; [exact H2|exact H4].
Defined.

Lemma chain_follows_witness :
  exists steps, steps_of [("steps", VList demo_steps)] = Ok steps /\ w_log (play false demo_steps demo_run) = map event_of steps /\
    omap waited (w_log (play false demo_steps demo_run)) `sublist_of` ["other"; "user.ok"].
Proof.
  destruct (chain_follows_plan render0 (fun _ => true) false [("steps", VList demo_steps)] (segs_of false demo_steps) demo_run started)
    as (steps & H1 & _ & H2 & H3).
  - vm_compute. reflexivity.
  - repeat split; reflexivity.
  - vm_compute. repeat split.
  - exists steps. split; [exact H1|]. split; [apply H3; vm_compute; reflexivity|exact H2].
Defined.

(** With a segment per step, a plan of two steps in a row fails after the first one: a
    segment without a wait is taken for the last. *)
Example step_granularity_fails_plan :
  let w := play true [tool "search"; tool "store"] ([Start] ++ call (succeeds [0])) in
  (r_status (w_run w), r_error (w_run w), w_runners w, w_reg w) = ("failed", Some "one or more agent steps did not run", [], None).
Proof. vm_compute. reflexivity. Qed.

(** An exception in the chain, here a step without a tool name, leaves the run executing
    with nothing to drive it. *)
Example chain_error_strands_run :
  let w := play false [VDict [("note", VStr "x")]] ([Start; Look 0; Guest 0 (succeeds [0])]) in
  (r_status (w_run w), w_runners w, w_reg w, w_queue w) = ("executing", [], None, []).
Proof. vm_compute. reflexivity. Qed.

(** A cancel between the second look and the commit is overwritten. *)
Example cancel_overwritten :
  let l := [Start; Look 0; Guest 0 (succeeds [0]); LookAgain 0; Cancel "stop"] in
  (r_status (w_run (play false [tool "search"] l)), r_status (w_run (play false [tool "search"] (l ++ [Commit 0])))) = ("cancelled", "completed").
Proof. vm_compute. reflexivity. Qed.

(** Two callbacks for one wait, of the live registration and of another process: the one
    that comes late claims the run at its next wait, runs a settled step again and leaves the
    next wait behind. *)
Definition two_waits : list pyval := [tool "a"; wait_for "e1"; tool "b"; wait_for "e2"; tool "c"].
Example late_callback_reruns_step :
  let w := play false two_waits ([Start] ++ call (succeeds [0]) ++ [Rebuild; Fire "e1"; RunCallback 1] ++ call (succeeds [1]) ++
                                 [RunCallback 0] ++ call (succeeds [1])) in
  w_log w = [RunTool (tool "a"); WaitFor (VStr "e1") VNone; RunTool (tool "b"); WaitFor (VStr "e1") VNone; RunTool (tool "b")].
Proof. vm_compute. reflexivity. Qed.

(** A crash between the claim of one wait and the next wait: the continuation counts the
    wait's segment, which has no tool steps, as done and runs the step behind it. *)
Example continuation_skips_wait :
  let w := play false [tool "a"; wait_for "e1"; wait_for "e2"; tool "b"]
    ([Start] ++ call (succeeds [0]) ++ [Fire "e1"; RunCallback 0; Crash; Continue 3; RunCallback 0] ++ call (succeeds [1])) in
  (r_status (w_run w), w_log w) = ("completed", [RunTool (tool "a"); WaitFor (VStr "e1") VNone; RunTool (tool "b")]).
Proof. vm_compute. reflexivity. Qed.

(** A process that boots while another one drives the run continues it as crashed: two
    calls run the segment at once. *)
Example continuation_drives_twice :
  let w := play false two_waits ([Start] ++ call (succeeds [0]) ++ [Fire "e1"; RunCallback 0; Look 0; Continue 3; RunCallback 0; Look 1]) in
  map (fun n => (rn_index n, rn_phase n)) (w_runners w) = [(1%nat, InGuest); (1%nat, InGuest)].
Proof. vm_compute. reflexivity. Qed.

(** A run parked at the authority gate is rehydrated to continue its segment; rebuilt from
    its identifier it would run the segment from the start. *)
Example rebuild_drops_continuation :
  let w := play false [tool "a"; tool "b"] ([Start] ++ call (Returned [(step_result_key 0, VDict [("success", VBool true)])] true true None)) in
  (rs_cont <$> rebuild (segs_of false [tool "a"; tool "b"]) w, (fun p => p_cont p) <$> r_wait (w_run w)) = (Some false, Some true).
Proof. vm_compute. reflexivity. Qed.

(** Two calls drive the last segment; one completes the run, the other halts at the
    authority gate with a step that failed and takes the run, which is no longer executing,
    for one it may complete. *)
Definition halts_failed (i : Z) : guest :=
  Returned [(step_result_key i, VDict [("success", VBool false); ("error", VStr "no")])] true true None.
Example gate_after_the_end :
  let w := play false [tool "a"; wait_for "e1"; tool "b"]
    ([Start] ++ call (succeeds [0]) ++ [Fire "e1"; RunCallback 0; Look 0; Continue 3; RunCallback 0; Look 1;
      Guest 0 (succeeds [1]); LookAgain 0; Commit 0; Guest 0 (halts_failed 1); LookAgain 0; Commit 0]) in
  (r_status (w_run w), map e_status (r_steps (w_run w))) = ("completed", ["success"; "failed"]).
Proof. vm_compute. reflexivity. Qed.

(** A callback rebuilt while the run executes starts from the first segment with the results
    there are; when it claims the run at a later wait, a plan of one segment per step
    completes with a step that ran twice and one that did not run. *)
Example rebuild_while_executing :
  let halts := Returned [] true true None in
  let w := play true [tool "a"; wait_for "e1"; tool "b"; tool "c"]
    ([Start] ++ call (succeeds [0]) ++ [Fire "e1"; RunCallback 0; Rebuild] ++ call halts ++ [RunCallback 0] ++ call (succeeds [0]) ++
     [Fire "e1"; RunCallback 0] ++ call (succeeds [1])) in
  (r_status (w_run w), map e_index (r_steps (w_run w))) = ("completed", [0; 0; 1]%Z).
Proof. vm_compute. reflexivity. Qed.
