(* ===== verification/Coordinator.v ===== *)
(** * The registry of agents, their ranking and their messages

    agents/agent_coordinator.py and agents/agent_message_bus.py: which agents are
    live, how an operation ranks them, whether a run stays local or is delegated and
    to whom, the ceiling of a delegate's capabilities, and the messages agents send,
    read and acknowledge through the table of system events.

    Scores and loads are rationals ([round4] is [round(x, 4)]); times are
    milliseconds. A query ordered by time keeps the order of the table among rows of
    one time. [parse_uuid] is the canonical text of what [uuid.UUID] accepts, and
    [render] is [str] of a value that is not a string. *)

From Stdlib Require Import QArith Qround Qminmax Qabs Lqa.
From S2P Require Import Prelude PyStr PyVal.

Local Open Scope string_scope.
Local Open Scope Z_scope.
Local Open Scope list_scope.

(** ** Sorting

    [list.sort] and [ORDER BY]: a stable insertion sort by a strict comparison. *)
Section Sort.
Context {A : Type} (before : A -> A -> bool).

Fixpoint sort_insert (x : A) (l : list A) : list A :=
  match l with
  | [] => [x]
  | y :: l' => if before y x then y :: sort_insert x l' else x :: l
  end.

Definition sort_by (l : list A) : list A := foldr sort_insert [] l.

Lemma sort_insert_perm x l : Permutation (sort_insert x l) (x :: l).
Proof.
  induction l as [|y l IH]; simpl; [done|]. destruct (before y x); [|done]. rewrite IH. solve_Permutation.
Qed.

Lemma sort_by_perm l : Permutation (sort_by l) l.
Proof. induction l as [|x l IH]; simpl; [done|]. by rewrite sort_insert_perm, IH. Qed.

Lemma sort_by_length l : length (sort_by l) = length l.
Proof. apply Permutation_length, sort_by_perm. Qed.

Lemma elem_of_sort_by x l : x ∈ sort_by l <-> x ∈ l.
Proof. by rewrite sort_by_perm. Qed.

End Sort.

(** ** The registry *)

Definition Qlt_bool (a b : Q) : bool := negb (Qle_bool b a).

Definition STALE_AGENT_MINUTES : Z := 10.
Definition minute_ms : Z := 60000.

Record agent := Agent {
  ag_capabilities : list string;
  ag_state : pyval;
  ag_load : Q;
  ag_health : string;
  ag_last_seen : option Z
}.

Definition agents : Type := list (string * agent).

Section Coordinator.
Variable parse_uuid : string -> option string.
Variable render : pyval -> string.

Definition clamp01 (q : Q) : Q := Qmax 0 (Qmin 1 q).

(** [capabilities or row.capabilities or []] and the like; [None] is the ValueError of
    an id that is no UUID. *)
Definition register_or_update_agent (now : Z) (agent_id : string) (capabilities : list string) (current : pyval)
    (load : Q) (health : string) (t : agents) : option agents :=
  match parse_uuid agent_id with
  | None => None
  | Some k =>
      let old := default (Agent [] (VDict []) 0 "healthy" None) (dict_get k t) in
      Some (dict_set k
        (Agent (match capabilities with [] => ag_capabilities old | _ => capabilities end)
           (py_or (py_or current (ag_state old)) (VDict []))
           (clamp01 load) (if decide (health = "") then "healthy" else health) (Some now)) t)
  end.

Definition is_stale (last_seen : option Z) (now : Z) : bool :=
  match last_seen with None => true | Some t => t <? now - STALE_AGENT_MINUTES * minute_ms end.

Record listed := Listed { li_id : string; li_agent : agent; li_stale : bool }.

Definition seen_later (x y : string * agent) : bool :=
  match ag_last_seen x.2, ag_last_seen y.2 with
  | Some a, Some b => b <? a
  | Some _, None => true
  | None, _ => false
  end.

Definition list_agents (include_stale : bool) (now : Z) (t : agents) : list listed :=
  base.filter (fun l => include_stale = true \/ li_stale l = false)
    (map (fun ka => Listed ka.1 ka.2 (is_stale (ag_last_seen ka.2) now)) (sort_by seen_later t)).

Definition count {A} (p : A -> bool) (l : list A) : Z := Z.of_nat (length (List.filter p l)).

Record agents_status := Status_ { st_total : Z; st_healthy : Z; st_degraded : Z; st_critical : Z }.

Definition get_agent_status (now : Z) (t : agents) : agents_status :=
  let l := list_agents true now t in
  let has h (x : listed) := bool_decide (ag_health (li_agent x) = h) in
  Status_ (Z.of_nat (length l))
    (count (fun x => has "healthy" x && negb (li_stale x)) l)
    (count (fun x => has "degraded" x && negb (li_stale x)) l)
    (count (fun x => has "critical" x || li_stale x) l).

(** ** System events, as far as agents read them *)

Record event := Event {
  ev_id : string;
  ev_type : string;
  ev_user : option string;
  ev_agent : option string;
  ev_trace : option string;
  ev_time : Z;
  ev_payload : list (string * pyval)
}.

Definition newer (x y : event) : bool := ev_time y <? ev_time x.

(** [user_id] as a filter: [None] is the ValueError, [Some None] no filter. *)
Definition user_filter (user : option string) : option (option string) :=
  match user with
  | None => Some None
  | Some u => if decide (u = "") then Some None else option_map Some (parse_uuid u)
  end.

Definition of_user (u : option string) (e : event) : bool :=
  match u with None => true | Some _ => bool_decide (ev_user e = u) end.

(** ** Ranking *)

Definition agent_performance_score (agent_id : string) (user : option string) (evs : list event) : option Q :=
  match parse_uuid agent_id, user_filter user with
  | Some a, Some u =>
      let rows := take 50 (sort_by newer (List.filter (fun e => bool_decide (ev_agent e = Some a) && of_user u e) evs)) in
      match rows with
      | [] => Some (1 # 2)
      | _ =>
          let successes := count (fun e => ends_with ".completed" (ev_type e) || bool_decide (ev_type e = "execution.completed")) rows in
          let failures := count (fun e => ends_with ".failed" (ev_type e) || starts_with "error." (ev_type e)) rows in
          let total := Z.max 1 (successes + failures) in
          Some (Qmax (1 # 10) (Qmin 1 ((inject_Z successes + (1 # 2)) / (inject_Z total + 1))%Q))
      end
  | _, _ => None
  end.

(** [round(x, 4)]: to the nearest multiple of a ten-thousandth, ties to even. *)
Definition round4 (q : Q) : Q :=
  let x := (q * 10000)%Q in
  let f := Qfloor x in
  let r := (x - inject_Z f)%Q in
  let n := if Qlt_bool r (1 # 2) then f else if Qlt_bool (1 # 2) r then f + 1 else if Z.even f then f else f + 1 in
  (inject_Z n / 10000)%Q.

Record candidate := Cand { ca_agent : listed; ca_score : Q; ca_overlap : Q; ca_performance : Q }.
Definition ca_id (c : candidate) : string := li_id (ca_agent c).
Definition ca_load (c : candidate) : Q := ag_load (li_agent (ca_agent c)).

Definition capability_overlap (required capabilities : list string) : Q :=
  match remove_dups required with
  | [] => match capabilities with [] => 0 | _ => 1 # 2 end
  | req => (inject_Z (count (fun c => bool_decide (c ∈ capabilities)) req) / inject_Z (Z.max 1 (Z.of_nat (length req))))%Q
  end.

Definition health_bonus (h : string) : Q :=
  if decide (h = "healthy") then 15 # 100 else if decide (h = "degraded") then 5 # 100 else 0.

Definition enrich_candidate (required : list string) (past : Q) (row : listed) : candidate :=
  let overlap := capability_overlap required (ag_capabilities (li_agent row)) in
  let score := (overlap * (45 # 100) + (1 - ag_load (li_agent row)) * (20 # 100) + past * (20 # 100)
                + health_bonus (ag_health (li_agent row)))%Q in
  Cand row (round4 (clamp01 score)) (round4 overlap) (round4 past).

Fixpoint enrich_all (required : list string) (user : option string) (evs : list event) (rows : list listed) : option (list candidate) :=
  match rows with
  | [] => Some []
  | row :: rest =>
      match agent_performance_score (li_id row) user evs, enrich_all required user evs rest with
      | Some past, Some cs => Some (enrich_candidate required past row :: cs)
      | _, _ => None
      end
  end.

Definition higher (x y : candidate) : bool := Qlt_bool (ca_score y) (ca_score x).

(** [strategy]: the ranking an application registers, when it answers a list. *)
Definition rank_candidate_agents (strategy : list candidate -> option (list candidate)) (now : Z) (required : list string)
    (user : option string) (evs : list event) (t : agents) : option (list candidate) :=
  match enrich_all required user evs (list_agents false now t) with
  | None => None
  | Some cs => Some (default (sort_by higher cs) (strategy cs))
  end.

(** ** Choosing between candidates *)

Definition Qor (q d : Q) : Q := if Qeq_bool q 0 then d else q.

Definition preferred (x y : candidate) : bool :=
  if Qlt_bool (ca_overlap y) (ca_overlap x) then true
  else if Qlt_bool (ca_overlap x) (ca_overlap y) then false
  else if Qlt_bool (Qor (ca_load x) 1) (Qor (ca_load y) 1) then true
  else if Qlt_bool (Qor (ca_load y) 1) (Qor (ca_load x) 1) then false
  else Qlt_bool (ca_performance y) (ca_performance x).

Definition close (a b : Q) : bool := Qle_bool (Qabs (a - b)) (5 # 100).

(** [None] is the ValueError of an empty list. *)
Definition resolve_conflict (cs : list candidate) : option candidate :=
  match cs with
  | [] => None
  | [c] => Some c
  | c0 :: _ => head (sort_by preferred (List.filter (fun c => close (ca_score c) (ca_score c0)) cs))
  end.

Inductive mode := Local_ | Collaborate | Delegate.

Definition mode_value (m : mode) : string :=
  match m with Local_ => "local" | Collaborate => "collaborate" | Delegate => "delegate" end.

Record decision := Decision_ { de_mode : mode; de_selected : option candidate; de_candidates : list candidate }.

Definition decide_on (local_agent_id : option string) (ranked : list candidate) : decision :=
  match resolve_conflict ranked with
  | None => Decision_ Local_ None []
  | Some best =>
      let is_local := match local_agent_id with
                      | Some l => bool_decide (l <> "") && bool_decide (ca_id best = l)
                      | None => false end in
      let m := if is_local then Local_ else
               match ranked with
               | r0 :: r1 :: _ => if close (ca_score r0) (ca_score r1) then Collaborate else Delegate
               | _ => Delegate
               end in
      Decision_ m (Some best) (take 3 ranked)
  end.

(** ** Messages *)

Definition MESSAGE_TYPES : list string :=
  ["operation_request"; "operation_result"; "memory_share"; "coordination_signal"; "operation_accept"; "operation_reject"].

Definition message_event_type (mt : string) : string := "agent.message." +:+ mt.
Definition ACK_EVENT : string := "agent.message.acknowledged".

Inductive bus_error := ValueError_ | MessageNotFoundError | MessageNotOwnedError | SystemEventEmissionError.

(** An id given for a column is a UUID or the row is refused; a row is required, so a
    refusal raises (in a mode that does not fail closed it is only logged: no row either). *)
Definition uuid_column (v : option string) : option (option string) :=
  match v with None => Some None | Some x => option_map Some (parse_uuid x) end.

Definition emit_system_event (now : Z) (fresh type : string) (user agent trace : option string) (payload : list (string * pyval))
    (evs : list event) : result bus_error (list event) :=
  match uuid_column user, uuid_column agent with
  | Some u, Some a => Ok (evs ++ [Event fresh type u a trace now payload])
  | _, _ => Err SystemEventEmissionError
  end.

(** [{"message_type": …, "sender_agent_id": …, "recipient_agent_id": …, **payload}] *)
Definition publish_message (now : Z) (fresh mt sender : string) (recipient user trace : option string)
    (payload : list (string * pyval)) (evs : list event) : result bus_error (list event) :=
  if decide (mt ∈ MESSAGE_TYPES) then
    emit_system_event now fresh (message_event_type mt) user (Some sender) trace
      (dict_update [("message_type", VStr mt); ("sender_agent_id", VStr sender);
                    ("recipient_agent_id", from_option VStr VNone recipient)] payload) evs
  else Err ValueError_.

Definition publish_operation_request (now : Z) (fresh sender recipient : string) (operation : pyval) (user trace : option string) :=
  publish_message now fresh "operation_request" sender (Some recipient) user trace [("operation", operation)].

Definition publish_operation_result (now : Z) (fresh sender : string) (recipient : option string) (res : pyval) (user trace : option string) :=
  publish_message now fresh "operation_result" sender recipient user trace [("result", res)].

Definition opt_text (o : option string) : pyval :=
  match o with Some s => if decide (s = "") then VNone else VStr s | None => VNone end.

Definition publish_operation_accept (now : Z) (fresh sender : string) (recipient : option string) (child : string)
    (request user trace : option string) :=
  publish_message now fresh "operation_accept" sender recipient user trace
    [("child_run_id", VStr child); ("request_message_id", opt_text request)].

Definition publish_operation_reject (now : Z) (fresh sender : string) (recipient : option string) (child : string)
    (reason request user trace : option string) :=
  publish_message now fresh "operation_reject" sender recipient user trace
    [("child_run_id", VStr child); ("reason", from_option VStr VNone reason); ("request_message_id", opt_text request)].

Definition publish_memory_share (now : Z) (fresh sender : string) (recipient : option string) (node : string) (user trace : option string) :=
  publish_message now fresh "memory_share" sender recipient user trace [("memory_node_id", VStr node)].

(** [str(payload.get(k) or "")] *)
Definition text_or_empty (k : string) (d : list (string * pyval)) : string :=
  py_str render (py_or (py_get k d) (VStr "")).

Definition recipient_is (agent_id : string) (e : event) : bool :=
  bool_decide (str_lower (text_or_empty "recipient_agent_id" (ev_payload e)) = str_lower agent_id).

Definition messages (types : list string) (u : option string) (evs : list event) : list event :=
  List.filter (fun e => bool_decide (ev_type e ∈ map message_event_type types) && of_user u e) evs.

Definition acks (u : option string) (evs : list event) : list event :=
  List.filter (fun e => bool_decide (ev_type e = ACK_EVENT) && bool_decide (is_Some (ev_agent e)) && of_user u e) evs.

Definition ack_ref (e : event) : option string :=
  let v := py_get "acknowledged_message_id" (ev_payload e) in
  if py_truth v then Some (py_str render v) else None.

Definition get_inbox (agent_id : string) (user message_type : option string) (include_acknowledged : bool) (limit : nat)
    (evs : list event) : option (list event) :=
  match user_filter user with
  | None => None
  | Some u =>
      let types := match message_type with
                   | Some mt => if decide (mt = "") then MESSAGE_TYPES else [mt]
                   | None => MESSAGE_TYPES end in
      let addressed := List.filter (recipient_is agent_id) (take (limit * 2) (sort_by newer (messages types u evs))) in
      let refs := omap ack_ref (take 200 (sort_by newer (acks u evs))) in
      let addressed := if include_acknowledged then addressed
                       else List.filter (fun e => bool_decide (ev_id e ∉ refs)) addressed in
      Some (take limit addressed)
  end.

Definition acknowledge_message (now : Z) (fresh message_id agent_id : string) (user : option string) (evs : list event) :
    result bus_error (list event) :=
  match parse_uuid message_id with
  | None => Err MessageNotFoundError
  | Some id =>
      match user_filter user with
      | None => Err ValueError_
      | Some u =>
          match List.find (fun e => bool_decide (ev_id e = id)) (messages MESSAGE_TYPES u evs) with
          | None => Err MessageNotFoundError
          | Some m =>
              if recipient_is agent_id m then
                emit_system_event now fresh ACK_EVENT user (Some agent_id) None
                  [("acknowledged_message_id", VStr message_id); ("agent_id", VStr agent_id)] evs
              else Err MessageNotOwnedError
          end
      end
  end.

(** [assign_operation] and [broadcast_operation]: the first candidates, each told of it. *)
Definition send_all (now : Z) (fresh : nat -> string) (sender : string) (operation : pyval) (user trace : option string)
    (cs : list candidate) (evs : list event) : result bus_error (list event) :=
  (foldr (fun ic (k : list event -> result bus_error (list event)) evs =>
     let? evs := publish_operation_request now (fresh (fst ic)) sender (ca_id (snd ic)) operation user trace evs in k evs)
    Ok (imap pair cs) evs)%py.

Definition assign_operation (now : Z) (fresh : nat -> string) (ranked : list candidate) (operation : pyval) (user trace sender : option string)
    (evs : list event) : result bus_error (list event * option candidate) :=
  match ranked with
  | [] => Ok (evs, None)
  | best :: _ =>
      match sender with
      | Some s => if decide (s = "") then Ok (evs, Some best)
                  else (let? evs := send_all now fresh s operation user trace [best] evs in Ok (evs, Some best))%py
      | None => Ok (evs, Some best)
      end
  end.

Definition broadcast_operation (now : Z) (fresh : nat -> string) (ranked : list candidate) (operation : pyval) (user trace sender : option string)
    (limit : nat) (evs : list event) : result bus_error (list event * list candidate) :=
  let cs := take limit ranked in
  match sender with
  | Some s => if decide (s = "") then Ok (evs, cs)
              else (let? evs := send_all now fresh s operation user trace cs evs in Ok (evs, cs))%py
  | None => Ok (evs, cs)
  end.

(** ** The ceiling of a delegate *)

(** [registered]: the capabilities of the registry row of the agent; both are read only
    when the selected agent carries none. *)
Definition delegate_capability_ceiling (parent_caps selected_caps : list string) (registered : option (list string)) : list string :=
  let delegate_caps := match selected_caps with [] => default [] registered | _ => selected_caps end in
  if decide (parent_caps = []) then sorted_set delegate_caps
  else if decide (delegate_caps = []) then sorted_set parent_caps
  else sorted_set (base.filter (fun c => c ∈ delegate_caps) parent_caps).

(** ** Conflicts *)

(** The newest ten shares of the last thirty seconds, a share by the same agent aside. *)
Definition detect_memory_write_conflict (now : Z) (user path : string) (agent_id : option string) (evs : list event) : option (option event) :=
  match parse_uuid user with
  | None => None
  | Some u =>
      let recent := take 10 (sort_by newer (List.filter (fun e =>
          bool_decide (ev_user e = Some u) && bool_decide (ev_type e = "agent.message.memory_share") && (now - 30000 <=? ev_time e)) evs)) in
      Some (List.find (fun e => bool_decide (py_get "memory_path" (ev_payload e) = VStr path) &&
        negb (match agent_id with Some a => bool_decide (a <> "") && bool_decide (ev_agent e = Some a) | None => false end)) recent)
  end.

(** ** The coordination graph

    The agents of the newest events with the edges of their messages; the registry's
    health and load replace what the events left unknown. *)
Definition graph_node : Type := option (string * Q).

Definition coordination_graph (user : option string) (limit : nat) (include_registry : bool) (now : Z) (t : agents)
    (evs : list event) : option (list (string * graph_node) * list (string * string * string)) :=
  match user_filter user with
  | None => None
  | Some u =>
      let rows := take limit (List.filter (of_user u) (sort_by newer (List.filter (fun e => bool_decide (is_Some (ev_agent e))) evs))) in
      let nodes := fold_left (fun ns e => dict_set (default "" (ev_agent e)) None ns) rows [] in
      let edges := omap (fun e => let r := py_get "recipient_agent_id" (ev_payload e) in
                                  if py_truth r then Some (default "" (ev_agent e), py_str render r, ev_type e) else None) rows in
      let registry := if include_registry then list_agents true now t else [] in
      Some (fold_left (fun ns (l : listed) => dict_set (li_id l) (Some (ag_health (li_agent l), ag_load (li_agent l))) ns) registry nodes, edges)
  end.
End Coordinator.

(** ** Choosing *)

Section Choice.
Context {A : Type} (before : A -> A -> bool).
Hypothesis before_asym : forall a b, before a b = true -> before b a = false.
Hypothesis before_weak : forall a b c, before a c = true -> before a b = true \/ before b c = true.

Lemma sort_insert_head x y l :
  head (sort_insert before y l) = Some x ->
  (x = y /\ forall z, head l = Some z -> before z y = false) \/ (head l = Some x /\ before x y = true).
Proof.
  destruct l as [|z l]; simpl; [intros [= ->]; by left|].
  destruct (before z y) eqn:E; simpl; intros [= ->]; [by right|]. left. split; [done|]. by intros w [= <-].
Qed.

Lemma before_chain a b c : before a b = false -> before b c = false -> before a c = false.
Proof.
  intros H1 H2. destruct (before a c) eqn:E; [|done]. destruct (before_weak a b c E); congruence.
Qed.

(** Nothing comes before the head of a sorted list. *)
Lemma sort_by_head l x : head (sort_by before l) = Some x -> x ∈ l /\ forall y, y ∈ l -> before y x = false.
Proof.
  revert x. induction l as [|a l IH]; simpl; intros x Hx; [done|].
  apply sort_insert_head in Hx as [[-> Hz]|[Hx Hb]].
  - split; [by left|]. intros y [->|Hy]%elem_of_cons; [destruct (before a a) eqn:E; [by rewrite <- (before_asym a a E)|done]|].
    destruct (sort_by before l) as [|z zs] eqn:E.
    + apply (elem_of_sort_by before) in Hy. rewrite E in Hy. by apply not_elem_of_nil in Hy.
    + destruct (IH z eq_refl) as [_ Hmin]. eapply before_chain; [by apply Hmin|by apply Hz].
  - destruct (IH x Hx) as [Hin Hmin]. split; [by right|]. intros y [->|Hy]%elem_of_cons; [|by apply Hmin].
    by apply before_asym.
Qed.
End Choice.

Lemma Qlt_bool_spec a b : Qlt_bool a b = true <-> (a < b)%Q.
Proof.
  unfold Qlt_bool. rewrite negb_true_iff, <- not_true_iff_false, Qle_bool_iff. split; [apply Qnot_le_lt|].
  intros H1 H2. by apply (Qlt_not_le a b).
Qed.

Lemma Qlt_bool_false a b : Qlt_bool a b = false <-> (b <= a)%Q.
Proof. unfold Qlt_bool. by rewrite negb_false_iff, Qle_bool_iff. Qed.

(** Comparing by one key and then by another. *)
Definition weak_order {A} (lt : A -> A -> bool) : Prop :=
  (forall a b, lt a b = true -> lt b a = false) /\ (forall a b c, lt a c = true -> lt a b = true \/ lt b c = true).

Definition lex {A} (lt1 lt2 : A -> A -> bool) (a b : A) : bool :=
  if lt1 a b then true else if lt1 b a then false else lt2 a b.

Lemma weak_order_key {A} (key : A -> Q) : weak_order (fun a b => Qlt_bool (key a) (key b)).
Proof.
  split.
  - intros a b H%Qlt_bool_spec. apply Qlt_bool_false. lra.
  - intros a b c H%Qlt_bool_spec. destruct (Qlt_bool (key a) (key b)) eqn:E; [by left|right].
    apply Qlt_bool_false in E. apply Qlt_bool_spec. lra.
Qed.

Lemma weak_order_flip {A} (lt : A -> A -> bool) : weak_order lt -> weak_order (fun a b => lt b a).
Proof. intros [Has Hw]. split; [intros a b; apply Has|]. intros a b c H. destruct (Hw c b a H); auto. Qed.

Lemma weak_order_lex {A} (lt1 lt2 : A -> A -> bool) : weak_order lt1 -> weak_order lt2 -> weak_order (lex lt1 lt2).
Proof.
  intros [As1 W1] [As2 W2]. unfold lex. split.
  - intros a b H. destruct (lt1 a b) eqn:E; [by rewrite (As1 _ _ E)|]. destruct (lt1 b a); [done|]. by apply As2.
  - intros a b c H. destruct (lt1 a b) eqn:Eab; [by left|]. destruct (lt1 b c) eqn:Ebc; [by right|].
    destruct (lt1 a c) eqn:Eac; [by destruct (W1 _ b _ Eac); congruence|]. destruct (lt1 c a) eqn:Eca; [done|].
    destruct (lt1 b a) eqn:Eba; [destruct (W1 _ c _ Eba); congruence|].
    destruct (lt1 c b) eqn:Ecb; [destruct (W1 _ a _ Ecb); congruence|]. by apply W2.
Qed.

Lemma preferred_order : weak_order preferred.
Proof.
  apply (weak_order_lex (fun a b => Qlt_bool (ca_overlap b) (ca_overlap a))
           (lex (fun a b => Qlt_bool (Qor (ca_load a) 1) (Qor (ca_load b) 1))
                (fun a b => Qlt_bool (ca_performance b) (ca_performance a)))).
  - apply (weak_order_flip (fun a b => Qlt_bool (ca_overlap a) (ca_overlap b))), weak_order_key.
  - apply weak_order_lex; [apply (weak_order_key (fun a => Qor (ca_load a) 1))|].
    apply (weak_order_flip (fun a b => Qlt_bool (ca_performance a) (ca_performance b))), weak_order_key.
Qed.

(** The candidate of a conflict is one whose score is within 0.05 of the first, and no
    other such candidate overlaps more, is less loaded at the same overlap (an unloaded
    one counting as fully loaded), or did better at the same overlap and load. *)
Lemma resolve_conflict_best c0 c1 cs c :
  resolve_conflict (c0 :: c1 :: cs) = Some c ->
  c ∈ c0 :: c1 :: cs /\ close (ca_score c) (ca_score c0) = true /\
  forall d, d ∈ c0 :: c1 :: cs -> close (ca_score d) (ca_score c0) = true -> preferred d c = false.
Proof.
  unfold resolve_conflict. intros H.
  apply (sort_by_head _ (proj1 preferred_order) (proj2 preferred_order)) in H as [Hin Hmin].
  apply list_elem_of_In, filter_In in Hin as [Hin Hc]. split_and!; [by apply list_elem_of_In|done|].
  intros d Hd Hdc. apply Hmin. apply list_elem_of_In, filter_In. split; [by apply list_elem_of_In|done].
Qed.

Lemma close_refl q : close q q = true.
Proof. unfold close. apply Qle_bool_iff. rewrite (Qabs_wd (q - q) 0) by ring. by compute. Qed.

Lemma resolve_conflict_some c cs : is_Some (resolve_conflict (c :: cs)).
Proof.
  destruct cs as [|c1 cs]; [by eexists|]. unfold resolve_conflict.
  destruct (sort_by preferred _) as [|x l] eqn:E; [|by eexists]. exfalso.
  assert (H : c ∈ sort_by preferred (List.filter (fun x => close (ca_score x) (ca_score c)) (c :: c1 :: cs))).
  { apply elem_of_sort_by. simpl. rewrite close_refl. by left. }
  rewrite E in H. by apply not_elem_of_nil in H.
Qed.

(** A run stays local exactly when no agent is live or the best is the local one;
    otherwise the selected agent is one of the ranked ones. *)
Lemma decide_on_selected local ranked m c l :
  decide_on local ranked = Decision_ m (Some c) l -> resolve_conflict ranked = Some c /\ c ∈ ranked.
Proof.
  unfold decide_on. destruct (resolve_conflict ranked) as [best|] eqn:E; [|done]. intros [= _ <- _]. split; [done|].
  destruct ranked as [|c0 [|c1 cs]]; [done| |].
  - injection E as <-. by left.
  - by apply resolve_conflict_best in E as (H & _).
Qed.

(** The ceiling of a delegate stays inside the parent's grant, when it has one, and
    inside what the delegate registered, when it registered anything. *)
Lemma ceiling_within_parent parent sel reg c :
  parent <> [] -> c ∈ delegate_capability_ceiling parent sel reg -> c ∈ parent.
Proof.
  unfold delegate_capability_ceiling. cbv zeta. intros Hp. rewrite decide_False by done.
  case_decide; rewrite elem_of_sorted_set; intros Hc; [done|]. by apply list_elem_of_filter in Hc as [_ ?].
Qed.

Lemma ceiling_within_delegate parent sel reg c :
  sel <> [] -> c ∈ delegate_capability_ceiling parent sel reg -> c ∈ sel.
Proof.
  unfold delegate_capability_ceiling. intros Hs. destruct sel as [|s0 sel]; [done|]. cbv zeta.
  case_decide; [by rewrite elem_of_sorted_set|]. rewrite decide_False by done.
  rewrite elem_of_sorted_set. intros Hc. by apply list_elem_of_filter in Hc as [? _].
Qed.

(** ** Acknowledging *)

Section Bus.
Context (parse_uuid : string -> option string) (render : pyval -> string).
Notation recipient_is := (recipient_is render).
Notation get_inbox := (get_inbox parse_uuid render).
Notation acknowledge_message := (acknowledge_message parse_uuid render).

Lemma user_filter_column user u c :
  user_filter parse_uuid user = Some u -> uuid_column parse_uuid user = Some c -> forall e, ev_user e = c -> of_user u e = true.
Proof.
  unfold user_filter, uuid_column, of_user. destruct user as [x|]; [|by intros [= <-]].
  case_decide; [by intros [= <-]|]. intros Hu Hc e He. destruct (parse_uuid x) as [k|]; [|done].
  simplify_eq/=. by apply bool_decide_eq_true.
Qed.

Lemma messages_ack types u evs e :
  types ⊆ MESSAGE_TYPES -> ev_type e = ACK_EVENT -> messages types u (evs ++ [e]) = messages types u evs.
Proof.
  intros Ht He. unfold messages. rewrite List.filter_app. simpl. rewrite bool_decide_eq_false_2, app_nil_r; [done|].
  rewrite He. intros (mt & Heq & Hmt)%list_elem_of_fmap. apply Ht in Hmt. revert Heq.
  unfold MESSAGE_TYPES in Hmt. repeat (apply elem_of_cons in Hmt as [->|Hmt]; [by vm_compute|]). by apply not_elem_of_nil in Hmt.
Qed.

Lemma messages_mono types u evs :
  types ⊆ MESSAGE_TYPES -> (length (messages types u evs) <= length (messages MESSAGE_TYPES u evs))%nat.
Proof.
  intros Ht. unfold messages. induction evs as [|e evs IH]; [done|]. cbn [List.filter].
  destruct (decide (ev_type e ∈ map message_event_type types)) as [Hin|Hin].
  - rewrite (bool_decide_eq_true_2 _ Hin), (bool_decide_eq_true_2 (_ ∈ map _ MESSAGE_TYPES)).
    + cbn [andb]. destruct (of_user u e); cbn [length]; lia.
    + apply list_elem_of_fmap in Hin as (mt & -> & Hmt). apply list_elem_of_fmap. exists mt. auto.
  - rewrite (bool_decide_eq_false_2 _ Hin). cbn [andb]. destruct (_ && _); cbn [length]; lia.
Qed.

(** The types an inbox reads. *)
Definition inbox_types (message_type : option string) : list string :=
  match message_type with
  | Some mt => if decide (mt = "") then MESSAGE_TYPES else [mt]
  | None => MESSAGE_TYPES
  end.

(** An inbox below the limits is what is addressed to the agent and not acknowledged. *)
Definition inbox_of (agent_id : string) (types : list string) (u : option string) (evs : list event) : list event :=
  List.filter (fun e => bool_decide (ev_id e ∉ omap (ack_ref render) (acks u evs)))
    (List.filter (recipient_is agent_id) (sort_by newer (messages types u evs))).

Lemma filter_ext_in {A} (p q : A -> bool) l : (forall x, p x = q x) -> List.filter p l = List.filter q l.
Proof. intros H. induction l as [|x l IH]; simpl; [done|]. by rewrite H, IH. Qed.

Lemma get_inbox_small agent_id user mt limit evs u :
  user_filter parse_uuid user = Some u -> inbox_types mt ⊆ MESSAGE_TYPES ->
  (length (messages MESSAGE_TYPES u evs) <= limit)%nat -> (length (acks u evs) <= 200)%nat ->
  get_inbox agent_id user mt false limit evs = Some (inbox_of agent_id (inbox_types mt) u evs).
Proof.
  intros Hu Ht Hl Ha. unfold Coordinator.get_inbox. rewrite Hu. fold (inbox_types mt).
  pose proof (messages_mono _ u evs Ht) as Hm. f_equal.
  rewrite (firstn_all2 (sort_by newer (messages _ _ _))) by (rewrite sort_by_length; lia).
  rewrite (firstn_all2 (sort_by newer (acks u evs))) by (rewrite sort_by_length; lia).
  rewrite firstn_all2.
  - unfold inbox_of. apply filter_ext_in. intros e. apply bool_decide_ext.
    by rewrite (sort_by_perm newer (acks u evs)).
  - etransitivity; [apply filter_length_le|]. etransitivity; [apply filter_length_le|]. rewrite sort_by_length. lia.
Qed.

Lemma acknowledge_inv now fresh mid a user evs evs' u :
  user_filter parse_uuid user = Some u -> acknowledge_message now fresh mid a user evs = Ok evs' ->
  exists m c ag, m ∈ messages MESSAGE_TYPES u evs /\ parse_uuid mid = Some (ev_id m) /\ recipient_is a m = true /\
    uuid_column parse_uuid user = Some c /\ parse_uuid a = Some ag /\
    evs' = evs ++ [Event fresh ACK_EVENT c (Some ag) None now [("acknowledged_message_id", VStr mid); ("agent_id", VStr a)]].
Proof.
  unfold Coordinator.acknowledge_message, emit_system_event. intros Hu. rewrite Hu.
  destruct (parse_uuid mid) as [id|]; [|done]. destruct (List.find _ _) as [m|] eqn:Hf; [|done].
  apply find_some in Hf as [Hin Hid%bool_decide_eq_true]. destruct (recipient_is a m) eqn:Hr; [|done].
  destruct (uuid_column parse_uuid user) as [c|]; [|done]. simpl. destruct (parse_uuid a) as [ag|]; simpl; [|done].
  intros [= <-]. exists m, c, ag. rewrite list_elem_of_In, Hid. done.
Qed.

(** An acknowledgement is accepted only from the agent the message is addressed to, and it takes exactly that message out of that agent's inbox: every other message stays in every inbox, and no other agent's inbox changes. (Below the limits of the queries: no more messages than the inbox shows, fewer than two hundred acknowledgements.) *)
Lemma acknowledge_exact now fresh mid a user u limit evs evs' :
  NoDup (map ev_id evs) -> user_filter parse_uuid user = Some u ->
  (length (messages MESSAGE_TYPES u evs) <= limit)%nat -> (length (acks u evs) < 200)%nat ->
  mid <> "" -> parse_uuid mid = Some mid ->
  acknowledge_message now fresh mid a user evs = Ok evs' ->
  (exists m, m ∈ messages MESSAGE_TYPES u evs /\ ev_id m = mid /\ recipient_is a m = true) /\
  forall b mt, inbox_types mt ⊆ MESSAGE_TYPES ->
    exists inbox, get_inbox b user mt false limit evs = Some inbox /\
      get_inbox b user mt false limit evs' = Some (List.filter (fun e => negb (bool_decide (ev_id e = mid))) inbox) /\
      (str_lower b <> str_lower a -> forall e, e ∈ inbox -> ev_id e <> mid).
Proof.
  intros Hnd Hu Hl Ha Hne Hp Hack.
  destruct (acknowledge_inv _ _ _ _ _ _ _ _ Hu Hack) as (m & c & ag & Hm & Hid & Hr & Hc & Hag & ->).
  assert (Hmid : ev_id m = mid) by congruence. split; [by exists m|]. intros b mt Ht.
  set (ack := Event fresh _ _ _ _ _ _). 
  assert (Hacks : acks u (evs ++ [ack]) = acks u evs ++ [ack]).
  { unfold acks. rewrite List.filter_app. simpl. rewrite (user_filter_column user u c Hu Hc ack eq_refl).
    done. }
  exists (inbox_of b (inbox_types mt) u evs). split_and!.
  - apply get_inbox_small; [done..|lia].
  - rewrite (get_inbox_small _ _ _ _ _ u) by (done || rewrite ?Hacks, ?messages_ack, ?length_app by done; simpl; lia). f_equal.
    unfold inbox_of. rewrite Hacks, messages_ack by done. rewrite omap_app.
    assert (Href : omap (ack_ref render) [ack] = [mid]).
    { simpl. unfold ack_ref, py_get. simpl. by destruct mid. }
    rewrite Href. generalize (List.filter (recipient_is b) (sort_by newer (messages (inbox_types mt) u evs))). intros l.
    induction l as [|e l IH]; simpl; [done|]. 
    destruct (decide (ev_id e ∈ omap (ack_ref render) (acks u evs))) as [Hin|Hin].
    + rewrite (bool_decide_eq_false_2 (ev_id e ∉ _)) by (rewrite elem_of_app; tauto).
      by rewrite (bool_decide_eq_false_2 (ev_id e ∉ _)) by tauto.
    + rewrite (bool_decide_eq_true_2 (ev_id e ∉ omap _ _)) by done. simpl. destruct (decide (ev_id e = mid)) as [E|E].
      * rewrite (bool_decide_eq_true_2 _ E), (bool_decide_eq_false_2 (ev_id e ∉ _)); [done|].
        rewrite elem_of_app, list_elem_of_singleton. tauto.
      * rewrite (bool_decide_eq_false_2 _ E), (bool_decide_eq_true_2 (ev_id e ∉ _)); [by rewrite IH|].
        rewrite elem_of_app, list_elem_of_singleton. tauto.
  - intros Hba e He Heq. unfold inbox_of in He. apply list_elem_of_In in He.
    apply filter_In in He as [[He Hrb]%filter_In _]. apply list_elem_of_In, elem_of_sort_by in He.
    apply list_elem_of_In, filter_In in He as [He _]. apply list_elem_of_In, filter_In in Hm as [Hm _].
    assert (e = m) as ->.
    { apply (NoDup_map_inj ev_id evs); [done|by apply list_elem_of_In..|congruence]. }
    unfold Coordinator.recipient_is in *. apply bool_decide_eq_true in Hrb, Hr. congruence.
Qed.
End Bus.

(** ** Examples *)

Definition demo_uuid (s : string) : option string := if decide (s = "") then None else Some (str_lower s).
Definition demo_render (v : pyval) : string := "?".
Definition share (n : string) (from to : string) (now : Z) (evs : list event) : list event :=
  match publish_operation_request demo_uuid now n from to (VStr "work") (Some "u1") None evs with Ok l => l | Err _ => evs end.
Definition demo_events : list event := share "m2" "a1" "a3" 20 (share "m1" "a1" "a2" 10 []).

Lemma acknowledge_witness :
  exists evs', acknowledge_message demo_uuid demo_render 30 "k1" "m1" "a2" (Some "u1") demo_events = Ok evs' /\
    get_inbox demo_uuid demo_render "a2" (Some "u1") None false 50 evs' = Some [] /\
    option_map (map ev_id) (get_inbox demo_uuid demo_render "a3" (Some "u1") None false 50 evs') = Some ["m2"].
Proof.
  destruct (acknowledge_message demo_uuid demo_render 30 "k1" "m1" "a2" (Some "u1") demo_events) as [evs'|] eqn:E;
    [|by vm_compute in E].
  exists evs'. split; [done|].
  destruct (acknowledge_exact demo_uuid demo_render 30 "k1" "m1" "a2" (Some "u1") (Some "u1") 50 demo_events evs')
    as [_ Hin]; [apply (bool_decide_unpack _); by vm_compute|done|vm_compute; lia|vm_compute; lia|done|done|done|].
  assert (Ht : inbox_types None ⊆ MESSAGE_TYPES) by done.
  destruct (Hin "a2" None Ht) as (i2 & H2 & H2' & _). destruct (Hin "a3" None Ht) as (i3 & H3 & H3' & _).
  rewrite H2', H3'. vm_compute in H2, H3. simplify_eq. by vm_compute.
Defined.

(** An agent that registered no load ranks behind a loaded one: its 0.0 reads as 1.0. *)
Definition demo_candidate (id : string) (load : Q) : candidate :=
  enrich_candidate ["mail"] (1 # 2) (Listed id (Agent ["mail"] (VDict []) load "healthy" (Some 0)) false).

Example idle_agent_ranks_last :
  option_map ca_id (resolve_conflict [demo_candidate "idle" 0; demo_candidate "busy" (1 # 5)]) = Some "busy".
Proof. by vm_compute. Qed.

(** Newer messages to other agents crowd a message out of the inbox it is addressed to. *)
Example crowded_inbox :
  option_map (map ev_id) (get_inbox demo_uuid demo_render "a2" (Some "u1") None false 1
    (share "m4" "a1" "a3" 30 demo_events)) = Some [].
Proof. by vm_compute. Qed.

(** An acknowledgement whose id is written in another case is accepted and has no effect. *)
Example acknowledged_in_other_case :
  match acknowledge_message demo_uuid demo_render 30 "k1" "M1" "a2" (Some "u1") demo_events with
  | Ok evs => option_map (map ev_id) (get_inbox demo_uuid demo_render "a2" (Some "u1") None false 50 evs)
  | Err _ => None
  end = Some ["m1"].
Proof. by vm_compute. Qed.

(** A share names the node it shares, the conflict check looks for a path: no share of
    a memory is ever a conflict. *)
Lemma memory_share_never_conflicts parse now fresh sender recipient node user trace evs evs' :
  publish_memory_share parse now fresh sender recipient node user trace evs = Ok evs' ->
  forall e, e ∈ evs' -> e ∈ evs \/ py_get "memory_path" (ev_payload e) = VNone.
Proof.
  unfold publish_memory_share, publish_message, emit_system_event. rewrite decide_True by (repeat constructor).
  destruct (uuid_column parse user), (uuid_column parse (Some sender)); simpl; try done. intros [= <-] e [He|He]%elem_of_app; [by left|].
  right. apply list_elem_of_singleton in He as ->. done.
Qed.
