(* ===== verification/AgentGuards.v ===== *)
(** * Admission of agent runs

    agents/runtime_guardrails.py, agents/agent_runtime/planning.py (what is done with a
    plan once a backend answered), the depth walk of core/next_action_dispatch.py and the
    conflict check of agents/agent_coordinator.py: what a new run, a replay, a delegation
    and a follow-up are checked against before a row is written.

    [runs] is the table agent_runs in the order its rows were inserted. The walks along
    parent_run_id and replayed_from_run_id are loops of the source; they take the number
    of rows as fuel, which is enough for every table ([parent_chain_total],
    [replay_guard_total]), cyclic ones included. Limits are [int_env] of the environment. *)

From Stdlib Require Import Ascii.
From S2P Require Import Prelude PyStr PyVal ConditionCodes ResultPath AgentPlan StepReferences Capabilities Coordinator.

Local Open Scope string_scope.
Local Open Scope Z_scope.
Local Open Scope list_scope.

Definition plan_t : Type := list (string * pyval).

Record run := Run {
  r_user : string;
  r_agent_type : string;
  r_replayed_from : option string;
  r_corr : string;
  r_trace : option string;
  r_goal : string;
  r_plan : option plan_t;
  r_risk : pyval;
  r_status : string;
  r_steps_total : Z;
  r_error : option string;
  r_token : pyval;
  r_parent : option string;
  r_spawned_by : option string;
  r_role : option string;
  r_created : Z;
  r_approved : option Z;
  r_started : option Z;
  r_completed : option Z
}.

Definition runs : Type := list (string * run).

Definition ACTIVE_AGENT_RUN_STATUSES : list string := ["pending_approval"; "approved"; "executing"; "delegated"; "waiting"].
Definition ACTIVE_JOB_STATUSES : list string := ["pending"; "running"; "deferred"].

Definition is_active (r : run) : bool := bool_decide (r_status r ∈ ACTIVE_AGENT_RUN_STATUSES).

(** [_int_env]: what is not an integer reads as the default. *)
Definition int_env (raw : option string) (default_ : Z) : Z :=
  match raw with None => default_ | Some s => default default_ (int_of_string s) end.

Record limits := Limits {
  max_runs_per_trace : Z;
  max_same_objective : Z;
  max_replay_depth : Z;
  max_delegation_depth : Z;
  max_child_runs : Z
}.

Definition limits_of (env : string -> option string) : limits :=
  Limits (int_env (env "AINDY_AGENT_MAX_RUNS_PER_TRACE") 6) (int_env (env "AINDY_AGENT_MAX_SAME_OBJECTIVE_PER_TRACE") 1)
    (int_env (env "AINDY_AGENT_MAX_REPLAY_DEPTH") 4) (int_env (env "AINDY_AGENT_MAX_DELEGATION_DEPTH") 3)
    (int_env (env "AINDY_AGENT_MAX_CHILD_RUNS_PER_PARENT") 8).

(** [" ".join(str(v or "").strip().lower().split())] *)
Fixpoint spaces_to_blank (s : string) : string :=
  match s with
  | EmptyString => EmptyString
  | String c s' => String (if is_space c then " "%char else c) (spaces_to_blank s')
  end.

Definition normalize_text (s : string) : string :=
  join_char " "%char (List.filter (fun w => negb (String.eqb w "")) (split_char " "%char (spaces_to_blank (str_lower (str_strip s))))).

Inductive violation :=
| trace_run_limit_exceeded | duplicate_trace_objective
| replay_lineage_cycle | replay_depth_exceeded
| delegation_parent_cycle | delegation_depth_exceeded | child_run_limit_exceeded | delegation_cycle_detected | duplicate_child_run.

#[export] Instance violation_eq_dec : EqDecision violation.
Proof. solve_decision. Defined.

(** The text of a violation, up to the ids and numbers it names. *)
Definition violation_message (v : violation) : string :=
  match v with
  | trace_run_limit_exceeded => "Agent run creation blocked: trace already has active run(s)"
  | duplicate_trace_objective => "Agent run creation blocked: the same objective is already active for trace"
  | replay_lineage_cycle => "Replay blocked: replay lineage contains a cycle."
  | replay_depth_exceeded => "Replay blocked: replay lineage depth reached limit"
  | delegation_parent_cycle => "Delegation blocked: parent chain contains a cycle."
  | delegation_depth_exceeded => "Delegation blocked: parent run is already at delegation depth"
  | child_run_limit_exceeded => "Delegation blocked: parent run already has child run(s)"
  | delegation_cycle_detected => "Delegation blocked: selected agent already appears in the ancestor delegation chain."
  | duplicate_child_run => "Delegation blocked: an active child run already exists for this parent, selected agent, and trace."
  end.

(** ** Creating a run *)

(** [user]: the normalised id; a caller without one, or without a trace, is not held back. *)
Definition enforce_run_creation_guardrails (lim : limits) (user : option string) (objective : string) (trace : option string)
    (rs : runs) : result violation unit :=
  match user, trace with
  | Some u, Some tr =>
      if decide (tr = "") then Ok tt else
      let active := List.filter (fun kr => bool_decide (r_user kr.2 = u) && bool_decide (r_trace kr.2 = Some tr) && is_active kr.2) rs in
      let n := Z.of_nat (length active) in
      if (0 <? max_runs_per_trace lim) && (max_runs_per_trace lim <=? n) then Err trace_run_limit_exceeded
      else
        let goal := normalize_text objective in
        if negb (bool_decide (goal = "")) && (0 <? max_same_objective lim) then
          let dups := count (fun kr : string * run => bool_decide (normalize_text (r_goal kr.2) = goal)) active in
          if max_same_objective lim <=? dups then Err duplicate_trace_objective else Ok tt
        else Ok tt
  | _, _ => Ok tt
  end.

(** ** Replaying a run *)

(** The loop of [enforce_replay_guardrails]; [None] is a loop cut short. *)
Fixpoint replay_walk (lim : limits) (parse_uuid : string -> option string) (fuel : nat) (rs : runs) (seen : list string) (depth : Z)
    (current : option (string * run)) : option (result violation unit) :=
  match fuel with
  | O => None
  | S fuel =>
      match current with
      | None => Some (Ok tt)
      | Some (k, r) =>
          if decide (k ∈ seen) then Some (Err replay_lineage_cycle) else
          match r_replayed_from r with
          | None => Some (Ok tt)
          | Some p =>
              if decide (p = "") then Some (Ok tt) else
              let depth := depth + 1 in
              if (0 <? max_replay_depth lim) && (max_replay_depth lim <=? depth) then Some (Err replay_depth_exceeded)
              else
                let id := default p (parse_uuid p) in
                replay_walk lim parse_uuid fuel rs (k :: seen) depth (option_map (pair id) (dict_get id rs))
          end
      end
  end.

Definition enforce_replay_guardrails (lim : limits) (parse_uuid : string -> option string) (k : string) (r : run) (rs : runs) :
    option (result violation unit) :=
  replay_walk lim parse_uuid (S (S (length rs))) rs [] 0 (Some (k, r)).

(** ** Delegating a run *)

(** The loop of [_load_parent_chain], from the run up to its root. *)
Fixpoint parent_walk (fuel : nat) (rs : runs) (seen : list string) (current : option (string * run)) :
    option (result violation (list (string * run))) :=
  match fuel with
  | O => None
  | S fuel =>
      match current with
      | None => Some (Ok [])
      | Some (k, r) =>
          if decide (k ∈ seen) then Some (Err delegation_parent_cycle) else
          match r_parent r with
          | None => Some (Ok [(k, r)])
          | Some p =>
              match parent_walk fuel rs (k :: seen) (option_map (pair p) (dict_get p rs)) with
              | Some (Ok chain) => Some (Ok ((k, r) :: chain))
              | other => other
              end
          end
      end
  end.

(** [chain.reverse()] *)
Definition load_parent_chain (k : string) (r : run) (rs : runs) : option (result violation (list (string * run))) :=
  match parent_walk (S (S (length rs))) rs [] (Some (k, r)) with
  | Some (Ok chain) => Some (Ok (rev chain))
  | other => other
  end.

Definition delegation_checks (lim : limits) (k : string) (selected : option string) (trace : option string)
    (chain : list (string * run)) (rs : runs) : result violation Z :=
  let current_depth := Z.max 0 (Z.of_nat (length chain) - 1) in
  if (0 <? max_delegation_depth lim) && (max_delegation_depth lim <=? current_depth) then Err delegation_depth_exceeded
  else
    let children := List.filter (fun kr : string * run => bool_decide (r_parent kr.2 = Some k)) rs in
    if (0 <? max_child_runs lim) && (max_child_runs lim <=? Z.of_nat (length children)) then Err child_run_limit_exceeded
    else
      match selected with
      | None => Ok current_depth
      | Some a =>
          if decide (Some a ∈ map (fun kr : string * run => r_spawned_by kr.2) chain) then Err delegation_cycle_detected
          else if existsb (fun kr : string * run => is_active kr.2 && bool_decide (r_spawned_by kr.2 = Some a) &&
                             match trace with
                             | None => true
                             | Some tr => bool_decide (tr = "") || bool_decide (default "" (r_trace kr.2) = tr)
                             end) children
          then Err duplicate_child_run
          else Ok current_depth
      end.

(** [selected]: [_normalize_uuid_string_or_none] of the agent's id. *)
Definition enforce_delegation_guardrails (lim : limits) (k : string) (r : run) (selected trace : option string) (rs : runs) :
    option (result violation Z) :=
  match load_parent_chain k r rs with
  | None => None
  | Some (Err v) => Some (Err v)
  | Some (Ok chain) => Some (delegation_checks lim k selected trace chain rs)
  end.

(** ** Follow-ups *)

(** [_completing_run_depth]: hops to the root, no more than one past the cap. *)
Fixpoint depth_walk (fuel : nat) (cap depth : Z) (rs : runs) (seen : list string) (parent_id : option string) : option Z :=
  match fuel with
  | O => None
  | S fuel =>
      match parent_id with
      | None => Some depth
      | Some p =>
          if cap <? depth then Some depth
          else if decide (p ∈ seen) then Some depth
          else
            let depth := depth + 1 in
            match dict_get p rs with
            | None => Some depth
            | Some parent => depth_walk fuel cap depth rs (p :: seen) (r_parent parent)
            end
      end
  end.

Definition completing_run_depth (r : run) (cap : Z) (rs : runs) : option Z :=
  depth_walk (S (S (length rs))) cap 0 rs [] (r_parent r).

(** The agent runs of [count_active_executions]; [flows] are those of the flow table. *)
Definition count_active_executions (flows : Z) (user : option string) (rs : runs) : Z :=
  flows + count (fun kr : string * run => bool_decide (r_status kr.2 ∈ ["approved"; "executing"; "pending_approval"]) &&
                   match user with None => true | Some u => bool_decide (r_user kr.2 = u) end) rs.

(** The newest twenty active runs of the user with the same objective, the agent's own aside. *)
Definition created_later (x y : string * run) : bool := r_created y.2 <? r_created x.2.

Definition detect_run_conflict (user objective : string) (agent_id : option string) (rs : runs) : option (string * string) :=
  let active := take 20 (sort_by created_later (List.filter (fun kr : string * run =>
      bool_decide (r_user kr.2 = user) && bool_decide (r_status kr.2 ∈ ["approved"; "executing"; "delegated"])) rs)) in
  option_map (fun kr : string * run => (kr.1, r_status kr.2))
    (List.find (fun kr : string * run =>
       bool_decide (str_lower (str_strip (r_goal kr.2)) = str_lower (str_strip objective)) &&
       negb (match agent_id with Some a => bool_decide (a <> "") && bool_decide (r_corr kr.2 = a) | None => false end)) active).

(** ** Autonomous jobs *)

Record job_row := JobRow { jr_name : string; jr_status : string; jr_user : option string; jr_source : string; jr_created : Z; jr_payload : list (string * pyval) }.

Definition job_later (x y : job_row) : bool := jr_created y <? jr_created x.

(** Among the newest twenty-five active jobs of that name and user, one with the same source and key. *)
Definition has_active_autonomous_duplicate (task_name : string) (user : option string) (source : string) (key : option string) (jobs : list job_row) : bool :=
  match key with
  | None => false
  | Some k =>
      if decide (k = "") then false else
      existsb (fun j => bool_decide (jr_source j = source) && py_eq (py_get "__runtime_submission_key" (jr_payload j)) (VStr k))
        (take 25 (sort_by job_later (List.filter (fun j => bool_decide (jr_name j = task_name) &&
           bool_decide (jr_status j ∈ ACTIVE_JOB_STATUSES) && bool_decide (jr_user j = user)) jobs)))
  end.

(** ** Plans *)

Definition RISK_ORDER : list (string * Z) := [("low", 0); ("medium", 1); ("high", 2)].

(** [risk_order.get(risk, d)]; [None] is the TypeError of a value that cannot be a key. *)
Definition risk_rank (d : Z) (risk : pyval) : option Z :=
  match risk with
  | VStr s => Some (default d (dict_get s RISK_ORDER))
  | VList _ | VDict _ => None
  | _ => Some d
  end.

(** The risks of the steps that are no waits; [None] where a step has no [get]. *)
Fixpoint step_risks (steps : list pyval) : option (list pyval) :=
  match steps with
  | [] => Some []
  | step :: rest =>
      if is_wait_step step then step_risks rest
      else match step with
           | VDict d => option_map (cons (default (VStr "high") (dict_get "risk_level" d))) (step_risks rest)
           | _ => None
           end
  end.

(** [max(risks, key=…)]: the first of the greatest. *)
Fixpoint max_from (best : pyval) (rank : Z) (risks : list pyval) : option pyval :=
  match risks with
  | [] => Some best
  | x :: rest =>
      match risk_rank 2 x with
      | None => None
      | Some n => if rank <? n then max_from x n rest else max_from best rank rest
      end
  end.

Definition max_risk (risks : list pyval) : option pyval :=
  match risks with
  | [] => Some (VStr "high")
  | x :: rest => match risk_rank 2 x with None => None | Some n => max_from x n rest end
  end.

(** The plan's own risk is raised to the greatest of its steps. *)
Definition raise_overall_risk (plan : plan_t) : option plan_t :=
  match dict_get "steps" plan, dict_get "overall_risk" plan with
  | Some steps, Some overall =>
      match py_list steps ≫= step_risks with
      | None => None
      | Some risks =>
          match max_risk risks with
          | None => None
          | Some m =>
              match risk_rank 0 overall, risk_rank 0 m with
              | Some a, Some b => Some (if a <? b then dict_set "overall_risk" m plan else plan)
              | _, _ => None
              end
          end
      end
  | _, _ => None
  end.

Definition AGENT_APPROVAL_EVENT : string := "agent.approval.granted".

Definition approval_wait : pyval :=
  VDict [("wait_for", VStr AGENT_APPROVAL_EVENT); ("description", VStr "Await human approval before the high-risk step")].

Section Planning.
Variable render : pyval -> string.
Variable tool_result_schema : string -> option (list (string * pyval)).

(** [str((step or {}).get("risk_level", "")).lower() == "high"] *)
Definition is_high (step : pyval) : option bool :=
  match step with
  | VDict d => Some (bool_decide (str_lower (py_str render (default (VStr "") (dict_get "risk_level" d))) = "high"))
  | v => if py_truth v then None else Some false
  end.

Fixpoint insert_approval (steps : list pyval) : option (list pyval) :=
  match steps with
  | [] => Some []
  | step :: rest =>
      if is_wait_step step then option_map (cons step) (insert_approval rest)
      else match is_high step with
           | None => None
           | Some true => Some (approval_wait :: step :: rest)
           | Some false => option_map (cons step) (insert_approval rest)
           end
  end.

(** [None] where it raises. *)
Definition apply_wait_policy (backend : string) (wait_before_high_risk : bool) (plan : plan_t) : option plan_t :=
  match py_list (py_or (py_get "steps" plan) (VList [])) with
  | None => None
  | Some steps =>
      if negb (bool_decide (backend = "nodus_vm"))
      then Some (dict_set "steps" (VList (List.filter (fun s => negb (is_wait_step s)) steps)) plan)
      else if wait_before_high_risk then option_map (fun l => dict_set "steps" (VList l) plan) (insert_approval steps)
      else Some plan
  end.

Definition DEFAULT_PLANNER_BACKEND : string := "runtime_local".
Definition DISABLED_PLANNER_BACKEND : string := "disabled".

Definition resolve_planner_backend_name (explicit context : string) : string :=
  if decide (str_strip explicit <> "") then str_strip explicit
  else if decide (str_strip context <> "") then str_strip context
  else DEFAULT_PLANNER_BACKEND.

Record planner := Planner {
  pl_system_prompt : string;
  pl_explicit_backend : string;
  pl_context_backend : string;
  pl_execution_backend : string;
  pl_wait_before_high_risk : bool;
  pl_step_references : bool
}.

(** [call name]: what the backend of that name gives back, [None] where there is none or it
    raises. [generate_plan] answers [None] for every exception. *)
Definition generate_plan (cfg : planner) (call : string -> option pyval) : option plan_t :=
  if decide (pl_system_prompt cfg = "") then None else
  let name := resolve_planner_backend_name (pl_explicit_backend cfg) (pl_context_backend cfg) in
  if decide (name = DISABLED_PLANNER_BACKEND) then None else
  match call name with
  | Some (VDict plan) =>
      match raise_overall_risk plan ≫= apply_wait_policy (pl_execution_backend cfg) (pl_wait_before_high_risk cfg) with
      | None => None
      | Some plan =>
          if pl_step_references cfg then
            match validate_plan_references render tool_result_schema (VDict plan) with Some [] => Some plan | _ => None end
          else Some plan
      end
  | _ => None
  end.
End Planning.

(** ** Approval *)

(** [trust]: the settings row of the owner. *)
Definition requires_approval (overall_risk : pyval) (trust : option trust_settings) : bool :=
  if bool_decide (overall_risk = VStr "high") then true
  else match trust with
       | None => true
       | Some ts =>
           if bool_decide (overall_risk = VStr "medium") then negb (ts_auto_execute_medium ts)
           else if bool_decide (overall_risk = VStr "low") then negb (ts_auto_execute_low ts)
           else true
       end.

(** ** The walks end *)

(** What a walk has seen are distinct keys of the table, so there are no more of them than rows. *)
Definition seen_ok (rs : runs) (seen : list string) : Prop := NoDup seen /\ forall s, s ∈ seen -> s ∈ dict_keys rs.

Lemma seen_length rs seen : seen_ok rs seen -> (length seen <= length rs)%nat.
Proof.
  intros [Hnd Hin]. pose proof (NoDup_submseteq seen (dict_keys rs) Hnd Hin) as Hs.
  apply submseteq_length in Hs. unfold dict_keys in Hs. by rewrite length_map in Hs.
Qed.

Lemma seen_cons rs seen k r : seen_ok rs seen -> k ∉ seen -> dict_get k rs = Some r -> seen_ok rs (k :: seen).
Proof.
  intros [Hnd Hin] Hk Hg. split; [by apply NoDup_cons|]. intros s [->|Hs]%elem_of_cons; [|by apply Hin].
  apply dict_get_is_Some. by rewrite Hg.
Qed.

Definition in_table (rs : runs) (cur : option (string * run)) : Prop :=
  match cur with None => True | Some (k, r) => dict_get k rs = Some r end.

Lemma in_table_next rs p : in_table rs (option_map (pair p) (dict_get p rs)).
Proof. unfold in_table. by destruct (dict_get p rs) eqn:E. Qed.

Lemma parent_walk_total rs fuel : forall seen cur,
  seen_ok rs seen -> in_table rs cur -> (S (length rs) < fuel + length seen)%nat -> is_Some (parent_walk fuel rs seen cur).
Proof.
  induction fuel as [|fuel IH]; intros seen cur Hs Hc Hf; simpl; [pose proof (seen_length _ _ Hs); lia|].
  destruct cur as [[k r]|]; [|by eexists]. case_decide; [by eexists|]. destruct (r_parent r) as [p|]; [|by eexists].
  destruct (IH (k :: seen) (option_map (pair p) (dict_get p rs))) as [[chain|v] ->]; [| | |by eexists..].
  - by apply (seen_cons rs seen k r).
  - apply in_table_next.
  - simpl. lia.
Qed.

Lemma parent_chain_total rs k r : dict_get k rs = Some r -> is_Some (load_parent_chain k r rs).
Proof.
  intros Hg. unfold load_parent_chain.
  destruct (parent_walk_total rs (S (S (length rs))) [] (Some (k, r))) as [[c|v] ->]; [| |simpl; lia|by eexists..].
  - split; [apply NoDup_nil_2|]. intros s Hs. by apply not_elem_of_nil in Hs.
  - done.
Qed.

Lemma replay_walk_total lim parse rs fuel : forall seen depth cur,
  seen_ok rs seen -> in_table rs cur -> (S (length rs) < fuel + length seen)%nat -> is_Some (replay_walk lim parse fuel rs seen depth cur).
Proof.
  induction fuel as [|fuel IH]; intros seen depth cur Hs Hc Hf; simpl; [pose proof (seen_length _ _ Hs); lia|].
  destruct cur as [[k r]|]; [|by eexists]. case_decide; [by eexists|]. destruct (r_replayed_from r) as [p|]; [|by eexists].
  case_decide; [by eexists|]. destruct (_ && _); [by eexists|]. apply IH; [by apply (seen_cons rs seen k r)|apply in_table_next|].
  simpl. lia.
Qed.

Lemma replay_guard_total lim parse rs k r : dict_get k rs = Some r -> is_Some (enforce_replay_guardrails lim parse k r rs).
Proof.
  intros Hg. apply replay_walk_total; [|done|simpl; lia].
  split; [apply NoDup_nil_2|]. intros s Hs. by apply not_elem_of_nil in Hs.
Qed.

Lemma depth_walk_total cap rs fuel : forall depth seen p,
  seen_ok rs seen -> (length rs < fuel + length seen)%nat -> is_Some (depth_walk fuel cap depth rs seen p).
Proof.
  induction fuel as [|fuel IH]; intros depth seen p Hs Hf; simpl; [pose proof (seen_length _ _ Hs); lia|].
  destruct p as [p|]; [|by eexists]. destruct (cap <? depth); [by eexists|]. case_decide; [by eexists|].
  destruct (dict_get p rs) as [r|] eqn:E; [|by eexists]. apply IH; [by apply (seen_cons rs seen p r)|]. simpl. lia.
Qed.

Lemma completing_depth_total r cap rs : is_Some (completing_run_depth r cap rs).
Proof.
  apply depth_walk_total; [|simpl; lia]. split; [apply NoDup_nil_2|]. intros s Hs. by apply not_elem_of_nil in Hs.
Qed.

(** ** Lineages

    [up] is the link a walk follows: the parent of a run or the run it replays. *)

Section Lineage.
Variable up : run -> option string.

Inductive depth_is (rs : runs) : string -> nat -> Prop :=
| depth_root k r : dict_get k rs = Some r -> up r = None -> depth_is rs k 0
| depth_child k r p n : dict_get k rs = Some r -> up r = Some p -> depth_is rs p n -> depth_is rs k (S n).

Lemma depth_is_inj rs k n m : depth_is rs k n -> depth_is rs k m -> n = m.
Proof.
  intros H. revert m. induction H as [k r Hg Hp|k r p n Hg Hp Hd IH]; intros m Hm; inversion Hm; simplify_eq; [done|].
  f_equal. by apply IH.
Qed.

Lemma depth_is_get rs k n : depth_is rs k n -> is_Some (dict_get k rs).
Proof. intros H. inversion H; by eexists. Qed.

(** Writing a row that keeps its link, or a new row, moves no depth. *)
Lemma depth_is_set rs k r k' n :
  (forall old, dict_get k rs = Some old -> up old = up r) -> depth_is rs k' n -> depth_is (dict_set k r rs) k' n.
Proof.
  intros Hk. induction 1 as [k' r' Hg Hp|k' r' p n Hg Hp Hd IH]; destruct (decide (k = k')) as [->|Hne].
  - apply (depth_root _ _ r); [apply dict_get_set_eq|]. by rewrite <- (Hk r').
  - apply (depth_root _ _ r'); [by rewrite dict_get_set_ne|done].
  - apply (depth_child _ _ r p); [apply dict_get_set_eq| |done]. by rewrite <- (Hk r').
  - apply (depth_child _ _ r' p); [by rewrite dict_get_set_ne|done..].
Qed.

(** Nor does linking a row that no other row links to. *)
Lemma depth_is_link rs k r k' n :
  (forall k0 r0, dict_get k0 rs = Some r0 -> up r0 <> Some k) -> k <> k' -> depth_is rs k' n -> depth_is (dict_set k r rs) k' n.
Proof.
  intros Hno Hne. induction 1 as [k' r' Hg Hp|k' r' p n Hg Hp Hd IH].
  - apply (depth_root _ _ r'); [by rewrite dict_get_set_ne|done].
  - apply (depth_child _ _ r' p); [by rewrite dict_get_set_ne|done|]. apply IH. intros <-. by apply (Hno k' r').
Qed.

(** Every run has a depth, at most [bound] where there is one. *)
Definition lineage (bound : option nat) (rs : runs) : Prop :=
  forall k r, dict_get k rs = Some r -> exists n, depth_is rs k n /\ forall b, bound = Some b -> (n <= b)%nat.

Lemma lineage_set bound rs k r old :
  dict_get k rs = Some old -> up old = up r -> lineage bound rs -> lineage bound (dict_set k r rs).
Proof.
  intros Hg Hup Hl k' r' Hg'. assert (is_Some (dict_get k' rs)) as [r0 Hr0].
  { destruct (decide (k = k')) as [->|Hne]; [by eexists|]. rewrite dict_get_set_ne in Hg' by done. by eexists. }
  destruct (Hl k' r0 Hr0) as (n & Hd & Hb). exists n. split; [|done]. apply depth_is_set; [|done]. congruence.
Qed.

Lemma lineage_insert bound rs k r :
  dict_get k rs = None -> (forall p, up r = Some p -> exists n, depth_is rs p n /\ forall b, bound = Some b -> (S n <= b)%nat) ->
  lineage bound rs -> lineage bound (dict_set k r rs).
Proof.
  intros Hg Hup Hl k' r' Hg'. destruct (decide (k = k')) as [<-|Hne].
  - rewrite dict_get_set_eq in Hg'. injection Hg' as <-. destruct (up r) as [p|] eqn:E.
    + destruct (Hup p eq_refl) as (n & Hd & Hb). exists (S n). split; [|done].
      apply (depth_child _ _ r p); [apply dict_get_set_eq|done|]. apply depth_is_set; [congruence|done].
    + exists O. split; [apply (depth_root _ _ r); [apply dict_get_set_eq|done]|]. intros; lia.
  - rewrite dict_get_set_ne in Hg' by done. destruct (Hl k' r' Hg') as (n & Hd & Hb). exists n. split; [|done].
    apply depth_is_set; [congruence|done].
Qed.

Lemma lineage_link bound rs k r p :
  (forall k0 r0, dict_get k0 rs = Some r0 -> up r0 <> Some k) -> p <> k -> up r = Some p ->
  (exists n, depth_is rs p n /\ forall b, bound = Some b -> (S n <= b)%nat) ->
  lineage bound rs -> lineage bound (dict_set k r rs).
Proof.
  intros Hno Hpk Hup (n & Hd & Hb) Hl k' r' Hg'. destruct (decide (k = k')) as [<-|Hne].
  - exists (S n). split; [|done]. apply (depth_child _ _ r p); [apply dict_get_set_eq|done|]. by apply depth_is_link.
  - rewrite dict_get_set_ne in Hg' by done. destruct (Hl k' r' Hg') as (m & Hm & Hbm). exists m. split; [|done]. by apply depth_is_link.
Qed.
End Lineage.

(** A run with a depth has a parent chain of that length, and the walk meets no cycle. *)
Lemma parent_walk_depth rs n : forall k r fuel seen,
  depth_is r_parent rs k n -> dict_get k rs = Some r -> (n < fuel)%nat ->
  (forall s m, s ∈ seen -> depth_is r_parent rs s m -> (n < m)%nat) -> (forall s, s ∈ seen -> exists m, depth_is r_parent rs s m) ->
  exists chain, parent_walk fuel rs seen (Some (k, r)) = Some (Ok chain) /\ length chain = S n.
Proof.
  induction n as [|n IH]; intros k r fuel seen Hd Hg Hf Hseen Hex; (destruct fuel as [|fuel]; [lia|]); simpl;
    rewrite decide_False by (intros Hk; destruct (Hex k Hk) as [m Hm]; specialize (Hseen k m Hk Hm);
      rewrite (depth_is_inj _ _ _ _ _ Hm Hd) in Hseen; lia); inversion Hd as [? ? Hg' Hp|? ? p ? Hg' Hp Hdp]; simplify_eq; rewrite Hp.
  - by exists [(k, r)].
  - destruct (depth_is_get _ _ _ _ Hdp) as [rp Hrp]. rewrite Hrp. simpl.
    destruct (IH p rp fuel (k :: seen) Hdp Hrp) as (chain & -> & Hl); [lia| | |].
    + intros s m [->|Hs]%elem_of_cons Hm; [rewrite (depth_is_inj _ _ _ _ _ Hm Hd); lia|]. specialize (Hseen s m Hs Hm). lia.
    + intros s [->|Hs]%elem_of_cons; [by eexists|by apply Hex].
    + exists ((k, r) :: chain). simpl. by rewrite Hl.
Qed.

Lemma parent_walk_more rs m fuel : forall seen cur x, parent_walk fuel rs seen cur = Some x -> parent_walk (fuel + m) rs seen cur = Some x.
Proof.
  induction fuel as [|fuel IH]; intros seen cur x; simpl; [done|]. destruct cur as [[k r]|]; [|done]. case_decide; [done|].
  destruct (r_parent r) as [p|]; [|done]. destruct (parent_walk fuel rs _ _) as [[c|v]|] eqn:E; try done; by rewrite (IH _ _ _ E).
Qed.

Lemma load_parent_chain_depth rs k r n :
  depth_is r_parent rs k n -> dict_get k rs = Some r -> exists chain, load_parent_chain k r rs = Some (Ok chain) /\ length chain = S n.
Proof.
  intros Hd Hg. unfold load_parent_chain.
  destruct (parent_walk_total rs (S (S (length rs))) [] (Some (k, r))) as [x Hx]; [|done|simpl; lia|].
  { split; [apply NoDup_nil_2|]. intros s Hs. by apply not_elem_of_nil in Hs. }
  destruct (parent_walk_depth rs n k r (S (S (length rs)) + S n) [] Hd Hg) as (chain & Hc & Hl);
    [lia|by intros s m Hs%not_elem_of_nil|by intros s Hs%not_elem_of_nil|].
  rewrite (parent_walk_more rs (S n) _ _ _ _ Hx) in Hc. injection Hc as ->. rewrite Hx. exists (rev chain). by rewrite length_rev.
Qed.

(** The delegation checks let a run through only below the depth limit. *)
Lemma delegation_checks_depth lim k sel tr chain rs d :
  delegation_checks lim k sel tr chain rs = Ok d -> 0 < max_delegation_depth lim -> Z.of_nat (length chain) - 1 < max_delegation_depth lim.
Proof.
  unfold delegation_checks. cbv zeta. intros H Hm. rewrite (proj2 (Z.ltb_lt 0 _) Hm) in H. simpl in H.
  destruct (max_delegation_depth lim <=? _) eqn:E; [done|]. apply Z.leb_gt in E. lia.
Qed.

(** The replay walk lets a run of depth [n] through exactly below the limit, when ids are
    written the way the table has them. *)
Lemma replay_walk_depth lim parse rs n : forall k r fuel seen d,
  (forall k r p, dict_get k rs = Some r -> r_replayed_from r = Some p -> p <> "" /\ parse p = Some p) ->
  depth_is r_replayed_from rs k n -> dict_get k rs = Some r ->
  (forall s m, s ∈ seen -> depth_is r_replayed_from rs s m -> (n < m)%nat) -> (forall s, s ∈ seen -> exists m, depth_is r_replayed_from rs s m) ->
  forall x, replay_walk lim parse fuel rs seen d (Some (k, r)) = Some x ->
  x = Ok tt /\ (0 < max_replay_depth lim -> d < max_replay_depth lim -> d + Z.of_nat n < max_replay_depth lim)
  \/ x = Err replay_depth_exceeded.
Proof.
  induction n as [|n IH]; intros k r fuel seen d Hids Hd Hg Hseen Hex x; (destruct fuel as [|fuel]; [done|]); simpl;
    rewrite decide_False by (intros Hk; destruct (Hex k Hk) as [m Hm]; specialize (Hseen k m Hk Hm);
      rewrite (depth_is_inj _ _ _ _ _ Hm Hd) in Hseen; lia); inversion Hd as [? ? Hg' Hp|? ? p ? Hg' Hp Hdp]; simplify_eq; rewrite Hp.
  - intros [= <-]. left. split; [done|]. lia.
  - destruct (Hids k r p Hg Hp) as [Hne Hpp]. rewrite decide_False by done. rewrite Hpp. simpl.
    destruct ((0 <? max_replay_depth lim) && (max_replay_depth lim <=? d + 1)) eqn:E; [intros [= <-]; by right|].
    destruct (depth_is_get _ _ _ _ Hdp) as [rp Hrp]. rewrite Hrp. simpl. intros Hx.
    destruct (IH p rp fuel (k :: seen) (d + 1) Hids Hdp Hrp) with (x := x) as [[-> Hb]| -> ]; [| |done| |by right].
    + intros s m [->|Hs]%elem_of_cons Hm; [rewrite (depth_is_inj _ _ _ _ _ Hm Hd); lia|]. specialize (Hseen s m Hs Hm). lia.
    + intros s [->|Hs]%elem_of_cons; [by eexists|by apply Hex].
    + left. split; [done|]. intros H1 H2. apply andb_false_iff in E. rewrite Z.ltb_ge, Z.leb_gt in E.
      specialize (Hb H1 ltac:(lia)). lia.
Qed.

(** The depth a follow-up is decided on, when it is below the cap. *)
Lemma depth_walk_depth rs cap n : forall fuel seen d p x,
  depth_is r_parent rs p n -> (forall s m, s ∈ seen -> depth_is r_parent rs s m -> (n < m)%nat) ->
  (forall s, s ∈ seen -> exists m, depth_is r_parent rs s m) ->
  depth_walk fuel cap d rs seen (Some p) = Some x -> x < cap -> d + Z.of_nat (S n) = x.
Proof.
  induction n as [|n IH]; intros fuel seen d p x Hd Hseen Hex; (destruct fuel as [|fuel]; [done|]); simpl;
    (destruct (cap <? d) eqn:Ec; [intros [= <-]; apply Z.ltb_lt in Ec; lia|]);
    rewrite decide_False by (intros Hk; destruct (Hex p Hk) as [m Hm]; specialize (Hseen p m Hk Hm);
      rewrite (depth_is_inj _ _ _ _ _ Hm Hd) in Hseen; lia); inversion Hd as [? r Hg Hp|? r q ? Hg Hp Hdq]; simplify_eq; rewrite Hg, ?Hp.
  - destruct fuel; simpl; [done|]. intros [= <-]. lia.
  - intros Hw Hx. rewrite <- (IH fuel (p :: seen) (d + 1) q x Hdq); [lia| | |done..].
    + intros s m [->|Hs]%elem_of_cons Hm; [rewrite (depth_is_inj _ _ _ _ _ Hm Hd); lia|]. specialize (Hseen s m Hs Hm). lia.
    + intros s [->|Hs]%elem_of_cons; [by eexists|by apply Hex].
Qed.
