(* ===== verification/NextAction.v ===== *)
(** * What is to happen after a run

    core/next_action.py: the decision a completion hook gives back, brought into the
    contract of the runtime, and the runtime's own decision where no hook gives one.

    A hook's answer is a value of [pyval] (an object with attributes is not one);
    [to_float] is [float] of a value, [None] where it raises. *)

From Stdlib Require Import QArith.
From S2P Require Import Prelude PyStr PyVal Coordinator.

Local Open Scope string_scope.
Local Open Scope list_scope.

Definition DONE : string := "done".
Definition RETRY : string := "retry".
Definition ESCALATE : string := "escalate".
Definition RECOMMEND : string := "recommend".
Definition TRIGGER_EXECUTION : string := "trigger_execution".

Definition VALID_ACTIONS : list string :=
  [DONE; RETRY; "ask_user"; ESCALATE; "schedule_follow_up"; "create_memory"; RECOMMEND; TRIGGER_EXECUTION].

Definition SUCCESS_STATUSES : list string := ["completed"; "success"; "verified"; "executed"].
Definition FAILURE_STATUSES : list string := ["failed"; "error"; "verify_failed"; "dead_letter"].

Definition next_action : Type := list (string * pyval).

Section Contract.
Variable to_float : pyval -> option Q.
Variable render : pyval -> string.

(** [dict(args or {})]; [None] where it raises (a list of pairs is not a value a hook gives). *)
Definition args_dict (args : pyval) : option (list (string * pyval)) :=
  match py_or args (VDict []) with VDict d => Some d | _ => None end.

(** [Err] is the exception of [args]; [Ok None] is an unknown verb. *)
Definition make_next_action (action : string) (reason args confidence : pyval) (source : string) : result unit (option next_action) :=
  if decide (action ∈ VALID_ACTIONS) then
    match args_dict args with
    | None => Err tt
    | Some d =>
        Ok (Some ([("action", VStr action); ("reason", reason); ("args", VDict d); ("source", VStr source)] ++
          match confidence with
          | VNone => []
          | v => match to_float v with Some q => [("confidence", VFloat (round4 q))] | None => [] end
          end))
    end
  else Ok None.

Definition coerce_next_action (value : pyval) (source : string) : result unit (option next_action) :=
  if py_truth value then
    match value with
    | VStr s => make_next_action (str_lower (str_strip s)) VNone VNone VNone source
    | VDict d =>
        make_next_action (str_lower (str_strip (py_str render (py_or (py_get "action" d) (VStr "")))))
          (py_get "reason" d) (py_get "args" d) (py_get "confidence" d) source
    | _ => Ok None
    end
  else Ok None.

(** The first answer that is a decision. *)
Fixpoint select_hook_next_action (hook_results : list pyval) : result unit (option next_action) :=
  match hook_results with
  | [] => Ok None
  | v :: rest =>
      match coerce_next_action v "completion_hook" with
      | Ok None => select_hook_next_action rest
      | other => other
      end
  end.

(** [_select_completion_hook_next_action] answers nothing where that raises. *)
Definition select_completion_hook_next_action (hook_results : list pyval) : option next_action :=
  match select_hook_next_action hook_results with Ok a => a | Err _ => None end.

Definition decision (action reason : string) : next_action :=
  [("action", VStr action); ("reason", VStr reason); ("args", VDict []); ("source", VStr "runtime_default")].

Definition default_next_action (status : string) (attempts_remaining : bool) : next_action :=
  let s := str_lower (str_strip status) in
  if decide (s ∈ SUCCESS_STATUSES) then decision DONE "run completed"
  else if decide (s ∈ FAILURE_STATUSES) then
    if attempts_remaining then decision RETRY "run failed; retries remain" else decision ESCALATE "run failed; no retries remain"
  else decision RECOMMEND ("non-terminal status=" +:+ s).

(** What a finished run records: a hook's decision, or the runtime's. *)
Definition chosen_action (status : string) (hook : option next_action) : option next_action :=
  if decide (status ∈ ["completed"; "failed"]) then Some (default (default_next_action status false) hook) else None.

(** A decision carries a valid verb and the source it was coerced with. *)
Lemma make_next_action_spec action reason args confidence source a :
  make_next_action action reason args confidence source = Ok (Some a) ->
  action ∈ VALID_ACTIONS /\ py_get "action" a = VStr action /\ py_get "source" a = VStr source.
Proof.
  unfold make_next_action. case_decide; [|done]. destruct (args_dict args); [|done]. by intros [= <-].
Qed.

(** The runtime's own decision never starts a run. *)
Lemma default_never_triggers status b : py_get "action" (default_next_action status b) <> VStr TRIGGER_EXECUTION.
Proof. unfold default_next_action. cbv zeta. repeat case_decide; [done|destruct b; done|done]. Qed.

(** So an action that starts a run is a hook's. *)
Lemma trigger_is_hooks status hook a :
  chosen_action status hook = Some a -> py_get "action" a = VStr TRIGGER_EXECUTION -> hook = Some a.
Proof.
  unfold chosen_action. case_decide; [|done]. intros [= <-]. destruct hook as [h|]; simpl; [done|].
  intros E. by apply default_never_triggers in E.
Qed.

Lemma select_hook_source l a : select_completion_hook_next_action l = Some a -> py_get "source" a = VStr "completion_hook".
Proof.
  unfold select_completion_hook_next_action. induction l as [|v l IH]; simpl; [done|].
  unfold coerce_next_action at 1. destruct (py_truth v); [|exact IH].
  destruct v; try exact IH.
  - destruct (make_next_action _ _ _ _ _) as [[b|]|] eqn:E; [|exact IH|done]. intros [= <-]. by apply make_next_action_spec in E as (_ & _ & ?).
  - destruct (make_next_action _ _ _ _ _) as [[b|]|] eqn:E; [|exact IH|done]. intros [= <-]. by apply make_next_action_spec in E as (_ & _ & ?).
Qed.
End Contract.
