(* ===== verification/AgentRuns.v ===== *)
(** * The lifecycle of agent runs

    agents/agent_runtime (creation.py, approvals.py, replay.py, execution.py), the
    delegation and its handshake in agents/agent_coordinator.py, the follow-ups of
    core/next_action_dispatch.py and the re-dispatch of platform_layer/scheduler_service.py:
    how a run comes to exist, is approved, delegated, and handed to the segment chain.

    [world] holds the committed tables. An operation of the source reads, decides and
    commits, and other processes act between its commits; each is cut there: a first half
    answers or leaves a [task], and later halves take the task up ([create_begin],
    [insert_run], [mint_run] are [create_run]; [execute_begin], [execute_finish],
    [execute_end] are [execute_run]). What the segment chain, cancellation and
    recovery do to a row afterwards is the step [AOther]; they never write the statuses of
    approval ([OWN_STATUSES]). [executions] is the history of calls of
    [execute_agent_run_via_nodus], with the token each was given.

    A malformed id raises in the database layer, and the operations then answer nothing.
    [parse_uuid] is the canonical text of what [uuid.UUID] accepts. *)

From Stdlib Require Import QArith Qminmax.
From stdpp Require Import pretty.
From S2P Require Import Prelude PyStr PyVal ConditionCodes ExecutionUnits AgentPlan StepReferences Capabilities Coordinator AgentGuards NextAction.

Local Open Scope string_scope.
Local Open Scope Z_scope.
Local Open Scope list_scope.

#[local] Arguments is_agent_terminal : simpl never.

Definition LOCAL_AGENT_ID : string := "00000000-0000-0000-0000-000000000001".

Record settings := Settings {
  s_limits : limits;
  s_handshake : bool;
  s_planner : planner;
  s_acting : bool;
  s_max_chain_setting : Z;
  s_max_active_setting : Z
}.

Definition s_max_chain (cfg : settings) : Z := Z.max 1 (s_max_chain_setting cfg).
Definition s_max_active (cfg : settings) : Z := Z.max 0 (s_max_active_setting cfg).

(** What a call reads of the world outside: the time, the signing key, the ids it draws,
    the owner's trust settings, whether the capability rows could be recorded and whether
    the required audit event could. *)
Record io := Io {
  io_now : Z;
  io_key : string;
  io_fresh : nat -> string;
  io_trust : option trust_settings;
  io_mapping : bool;
  io_event : bool
}.

(** A run that passed its checks and is not yet written. *)
Record prep := Prep {
  p_user : string;
  p_goal : string;
  p_plan : plan_t;
  p_risk : pyval;
  p_approved : bool;
  p_trace : option string;
  p_replayed : option string;
  p_follows : option string   (* the run a follow-up job will link it to *)
}.

(** What [execute_run] found out before it writes. *)
Inductive route :=
| XLocal (token : pyval)
| XBlocked (v : violation)
| XUndispatched
| XDelegate (selected : candidate) (m : mode).

Inductive task :=
| TInsert (p : prep)
| TMint (k : string) (p : prep)
| TLink (k parent : string)
| TReject (k : string)
| TExec (k : string) (user : string) (x : route)
| TRespond (k : string) (accept : bool) (reason : option string).

Record job := Job { j_objective : string; j_user : string; j_parent : string }.

Record world := World {
  w_runs : runs;
  w_agents : agents;
  w_events : list event;
  w_audit : list (string * string);
  w_units : units;
  w_jobs : list job;
  w_tasks : list task;
  w_executions : list (string * pyval)
}.

Definition set_runs rs (w : world) := World rs (w_agents w) (w_events w) (w_audit w) (w_units w) (w_jobs w) (w_tasks w) (w_executions w).
Definition set_agents a (w : world) := World (w_runs w) a (w_events w) (w_audit w) (w_units w) (w_jobs w) (w_tasks w) (w_executions w).
Definition set_events e (w : world) := World (w_runs w) (w_agents w) e (w_audit w) (w_units w) (w_jobs w) (w_tasks w) (w_executions w).
Definition set_units u (w : world) := World (w_runs w) (w_agents w) (w_events w) (w_audit w) u (w_jobs w) (w_tasks w) (w_executions w).
Definition set_jobs j (w : world) := World (w_runs w) (w_agents w) (w_events w) (w_audit w) (w_units w) j (w_tasks w) (w_executions w).
Definition set_tasks t (w : world) := World (w_runs w) (w_agents w) (w_events w) (w_audit w) (w_units w) (w_jobs w) t (w_executions w).
Definition put (k : string) (r : run) (w : world) := set_runs (dict_set k r (w_runs w)) w.
Definition add_task (t : task) (w : world) := set_tasks (w_tasks w ++ [t]) w.
Definition audit (k ty : string) (w : world) :=
  World (w_runs w) (w_agents w) (w_events w) (w_audit w ++ [(k, ty)]) (w_units w) (w_jobs w) (w_tasks w) (w_executions w).
Definition log_execution (k : string) (t : pyval) (w : world) :=
  World (w_runs w) (w_agents w) (w_events w) (w_audit w) (w_units w) (w_jobs w) (w_tasks w) (w_executions w ++ [(k, t)]).

(** ** Rows *)

Definition set_status (s : string) (r : run) : run :=
  Run (r_user r) (r_agent_type r) (r_replayed_from r) (r_corr r) (r_trace r) (r_goal r) (r_plan r) (r_risk r) s (r_steps_total r)
    (r_error r) (r_token r) (r_parent r) (r_spawned_by r) (r_role r) (r_created r) (r_approved r) (r_started r) (r_completed r).
Definition set_error (e : option string) (r : run) : run :=
  Run (r_user r) (r_agent_type r) (r_replayed_from r) (r_corr r) (r_trace r) (r_goal r) (r_plan r) (r_risk r) (r_status r) (r_steps_total r)
    e (r_token r) (r_parent r) (r_spawned_by r) (r_role r) (r_created r) (r_approved r) (r_started r) (r_completed r).
Definition set_token (t : pyval) (r : run) : run :=
  Run (r_user r) (r_agent_type r) (r_replayed_from r) (r_corr r) (r_trace r) (r_goal r) (r_plan r) (r_risk r) (r_status r) (r_steps_total r)
    (r_error r) t (r_parent r) (r_spawned_by r) (r_role r) (r_created r) (r_approved r) (r_started r) (r_completed r).
Definition set_parent (p : option string) (r : run) : run :=
  Run (r_user r) (r_agent_type r) (r_replayed_from r) (r_corr r) (r_trace r) (r_goal r) (r_plan r) (r_risk r) (r_status r) (r_steps_total r)
    (r_error r) (r_token r) p (r_spawned_by r) (r_role r) (r_created r) (r_approved r) (r_started r) (r_completed r).
Definition set_approved (t : Z) (r : run) : run :=
  Run (r_user r) (r_agent_type r) (r_replayed_from r) (r_corr r) (r_trace r) (r_goal r) (r_plan r) (r_risk r) (r_status r) (r_steps_total r)
    (r_error r) (r_token r) (r_parent r) (r_spawned_by r) (r_role r) (r_created r) (Some t) (r_started r) (r_completed r).
Definition set_completed (t : option Z) (r : run) : run :=
  Run (r_user r) (r_agent_type r) (r_replayed_from r) (r_corr r) (r_trace r) (r_goal r) (r_plan r) (r_risk r) (r_status r) (r_steps_total r)
    (r_error r) (r_token r) (r_parent r) (r_spawned_by r) (r_role r) (r_created r) (r_approved r) (r_started r) t.
Definition set_started (t : Z) (trace : option string) (plan : plan_t) (r : run) : run :=
  Run (r_user r) (r_agent_type r) (r_replayed_from r) (r_corr r) trace (r_goal r) (Some plan) (r_risk r) (r_status r) (r_steps_total r)
    (r_error r) (r_token r) (r_parent r) (r_spawned_by r) (r_role r) (r_created r) (r_approved r) (Some t) (r_completed r).

Section Runs.
Context (parse_uuid : string -> option string) (reg : registry) (hmac : string -> string -> string)
  (iso : Z -> string) (render : pyval -> string) (tool_result_schema : string -> option (list (string * pyval)))
  (strategy : list candidate -> option (list candidate)) (cfg : settings).

Definition find_run (run_id : string) (w : world) : option (string * run) :=
  match parse_uuid run_id with
  | Some k => option_map (pair k) (dict_get k (w_runs w))
  | None => None
  end.

Definition user_matches (left right : string) : bool :=
  match parse_uuid left, parse_uuid right with
  | Some a, Some b => bool_decide (a = b)
  | _, _ => bool_decide (left = right)
  end.

(** [str] of [_db_user_id] *)
Definition db_user_id (u : string) : string := default u (parse_uuid u).

Definition mint (i : io) (k user : string) (plan : plan_t) (mode agent : string) (ceiling : option (list string)) (parent : option string) : option token :=
  mint_token reg hmac iso (io_key i) (io_now i) (io_fresh i 2) k user plan (io_trust i) mode agent ceiling parent (io_mapping i).

(** ** Creating *)

Inductive begun := Refused (v : violation) | Nothing | Go (p : prep).

Definition steps_total (plan : plan_t) : Z :=
  match dict_get "steps" plan with Some (VList l) => Z.of_nat (length l) | Some (VDict d) => Z.of_nat (length d)
  | Some (VStr s) => Z.of_nat (String.length s) | _ => 0 end.

Definition prepare (i : io) (user goal : string) (plan : plan_t) (trace replayed follows : option string) : prep :=
  let risk := default (VStr "high") (dict_get "overall_risk" plan) in
  Prep user goal plan risk (negb (requires_approval risk (io_trust i))) trace replayed follows.

(** The checks of [create_run], up to the row. *)
Definition create_begin (i : io) (user objective : string) (trace : option string) (call : string -> option pyval)
    (follows : option string) (w : world) : begun :=
  match parse_uuid user with
  | None => Nothing
  | Some u =>
      match enforce_run_creation_guardrails (s_limits cfg) (Some u) objective trace (w_runs w) with
      | Err v => Refused v
      | Ok _ =>
          match generate_plan render tool_result_schema (s_planner cfg) call with
          | None => Nothing
          | Some plan => Go (prepare i u objective plan trace None follows)
          end
      end
  end.

(** [_create_run_from_plan], up to the row. *)
Definition create_from_plan_begin (i : io) (user objective : string) (plan : plan_t) (trace : option string) (original : string)
    (w : world) : begun :=
  if negb (pl_step_references (s_planner cfg)) ||
     match validate_plan_references render tool_result_schema (VDict plan) with Some [] => true | _ => false end
  then match parse_uuid user with
       | None => Nothing
       | Some u =>
           match enforce_run_creation_guardrails (s_limits cfg) (Some u) objective trace (w_runs w) with
           | Err v => Refused v
           | Ok _ => Go (prepare i u objective plan trace (Some original) None)
           end
       end
  else Nothing.

Definition replay_begin (i : io) (run_id user mode_ : string) (trace : option string) (call : string -> option pyval) (w : world) : begun :=
  match find_run run_id w with
  | None => Nothing
  | Some (k, r) =>
      if user_matches (r_user r) user then
        match enforce_replay_guardrails (s_limits cfg) parse_uuid k r (w_runs w) with
        | None => Nothing
        | Some (Err v) => Refused v
        | Some (Ok _) =>
            if decide (mode_ = "new_plan") then
              match generate_plan render tool_result_schema (s_planner cfg) call with
              | None => Nothing
              | Some plan => create_from_plan_begin i user (r_goal r) plan trace k w
              end
            else create_from_plan_begin i user (r_goal r) (default [] (r_plan r)) trace k w
        end
      else Nothing
  end.

Definition new_run (i : io) (p : prep) : run :=
  Run (p_user p) DEFAULT_AGENT_TYPE (p_replayed p) ("run_" +:+ io_fresh i 1) (p_trace p) (p_goal p) (Some (p_plan p)) (p_risk p)
    (if p_approved p then "approved" else "pending_approval") (steps_total (p_plan p)) None VNone None None None (io_now i) None None None.

(** What follows the last commit of a creation: its audit event, and a follow-up's link. *)
Definition created (i : io) (k : string) (p : prep) (w : world) : world :=
  match p_replayed p with
  | Some _ => if io_event i then audit k "REPLAY_CREATED" w else w
  | None =>
      let w := if io_event i then audit k "PLAN_CREATED" w else w in
      match p_follows p with Some parent => if io_event i then add_task (TLink k parent) w else w | None => w end
  end.

(** The first commit: the row, and the unit of a run that is no replay. *)
Definition insert_run (i : io) (p : prep) (w : world) : world :=
  let k := io_fresh i 0 in
  let w := put k (new_run i p) w in
  let w := match p_replayed p with
           | Some _ => w
           | None => set_units (create parse_uuid (io_now i) (io_fresh i 3) "agent" (Some (p_user p)) (Some "agent_run") (Some k) None None
               (Some (r_corr (new_run i p)))
               (VDict [("objective_preview", VStr (take_str 120 (p_goal p))); ("overall_risk", p_risk p)])
               "pending" VNone VNone VNone (w_units w)) w
           end in
  if p_approved p then add_task (TMint k p) w else created i k p w.

Definition AUTO_REFUSED : string := "Capability preflight failed for auto-approval; manual approval required.".

(** The second commit of an approved run: its token, or back to pending. *)
Definition mint_run (i : io) (k : string) (p : prep) (w : world) : world :=
  match dict_get k (w_runs w) with
  | None => w
  | Some r =>
      let r := match mint i k (p_user p) (p_plan p) "auto" (r_agent_type r) None None with
               | Some t => set_token (VDict t) r
               | None => set_error (Some AUTO_REFUSED) (set_status "pending_approval" r)
               end in
      created i k p (put k r w)
  end.

(** [_link_parent] *)
Definition link_parent (k parent : string) (w : world) : world :=
  match dict_get k (w_runs w) with
  | Some r => match r_parent r with None => put k (set_parent (Some parent) r) w | Some _ => w end
  | None => w
  end.

(** ** Approving and rejecting *)

Definition NOT_APPROVED : string := "Capability preflight failed; run not approved.".

(** The update of the status and the token commit together; the last component is the run
    the background thread will execute. *)
Definition approve_run (i : io) (run_id user : string) (w : world) : world * option (string * string) * option (string * string) :=
  match find_run run_id w with
  | None => (w, None, None)
  | Some (k, r) =>
      if user_matches (r_user r) user then
        if decide (r_status r = "pending_approval") then
          match mint i k (db_user_id user) (default [] (r_plan r)) "manual" (r_agent_type r) None None with
          | None => (put k (set_error (Some NOT_APPROVED) r) w, Some (k, r_status r), None)
          | Some t =>
              let r := set_error None (set_token (VDict t) (set_approved (io_now i) (set_status "approved" r))) in
              let w := put k r w in
              if io_event i then (audit k "APPROVED" w, Some (k, r_status r), Some (k, db_user_id user)) else (w, None, None)
          end
        else (w, Some (k, r_status r), None)
      else (w, None, None)
  end.

Definition reject_begin (run_id user : string) (w : world) : option string :=
  match find_run run_id w with
  | Some (k, r) => if user_matches (r_user r) user && bool_decide (r_status r = "pending_approval") then Some k else None
  | None => None
  end.

Definition reject_finish (i : io) (k : string) (w : world) : world :=
  match dict_get k (w_runs w) with
  | None => w
  | Some r =>
      let w := put k (set_completed (Some (io_now i)) (set_status "rejected" r)) w in
      if io_event i then audit k "REJECTED" w else w
  end.

(** ** Executing *)

(** The capabilities a token allows, as the coordinator reads them. *)
Definition token_allowed (t : pyval) : list string :=
  match t with
  | VDict d => match py_or (py_get "allowed_capabilities" d) (VList []) with VList l => strings_of l | _ => [] end
  | _ => []
  end.

(** [a or b] of two texts, nothing where neither is one. *)
Definition or_text (a b : option string) : option string :=
  let full o := match o with Some s => if decide (s = "") then None else Some s | None => None end in
  match full a with Some s => Some s | None => full b end.

Definition MISSING_TOKEN : string := "Missing scoped capability token.".

Definition local_load (r : run) : Q :=
  Qmin 1 (Qmax (1 # 10) (inject_Z (if decide (r_steps_total r = 0%Z) then 1 else r_steps_total r) / 10)%Q).

(** The objective and the checks of [dispatch_delegated_run], up to the child. *)
Definition delegate_begin (k : string) (r : run) (sel : candidate) (m : mode) (trace : option string) (w : world) : route :=
  if decide (r_goal r = "") then XUndispatched
  else match enforce_delegation_guardrails (s_limits cfg) k r (Some (default (ca_id sel) (parse_uuid (ca_id sel))))
               (or_text (r_trace r) trace) (w_runs w) with
       | Some (Err v) => XBlocked v
       | Some (Ok _) => XDelegate sel m
       | None => XUndispatched
       end.

(** [execute_run] up to what it decides; [caps] are the capabilities of the local tools. *)
Definition execute_begin (i : io) (run_id user : string) (caps : list string) (trace : option string) (w : world) : world :=
  match find_run run_id w with
  | None => w
  | Some (k, r) =>
      if negb (bool_decide (r_status r = "approved")) then w
      else if negb (user_matches (r_user r) user) then w
      else match r_token r with
           | VDict tok =>
               match register_or_update_agent parse_uuid (io_now i) LOCAL_AGENT_ID caps
                       (VDict [("run_id", VStr k); ("status", VStr "executing")]) (local_load r) "healthy" (w_agents w) with
               | None => w
               | Some ags =>
                   let w := set_agents ags w in
                   match rank_candidate_agents parse_uuid strategy (io_now i) (token_allowed (r_token r)) (Some (db_user_id user))
                           (w_events w) ags with
                   | None => w
                   | Some ranked =>
                       let d := decide_on (Some LOCAL_AGENT_ID) ranked in
                       match de_mode d, de_selected d with
                       | Local_, _ | _, None => add_task (TExec k (db_user_id user) (XLocal (r_token r))) w
                       | m, Some sel => add_task (TExec k (db_user_id user) (delegate_begin k r sel m trace w)) w
                       end
                   end
               end
           | _ =>
               let w := put k (set_error (Some MISSING_TOKEN) (set_completed (Some (io_now i)) (set_status "failed" r))) w in
               if io_event i then audit k "CAPABILITY_DENIED" w else w
           end
  end.

(** A run that could not be delegated fails. *)
Definition delegation_failed (i : io) (k : string) (r : run) (why : string) (w : world) : world :=
  let w := put k (set_error (Some why) (set_completed (Some (io_now i)) (set_status "failed" r))) w in
  if io_event i then audit k "DELEGATION_BLOCKED" w else w.

Definition child_run (i : io) (k : string) (r : run) (agent_id agent_type : string) (m : mode) (trace : option string) : run :=
  Run (r_user r) agent_type None ("run_" +:+ io_fresh i 1) (or_text (or_text (r_trace r) trace) (r_trace r)) (r_goal r)
    (r_plan r) (py_or (r_risk r) (VStr "high"))
    (if s_handshake cfg then agent_value A_AWAITING_DELEGATION else agent_value A_APPROVED)
    (r_steps_total r) None VNone (Some k) (Some agent_id) (Some (mode_value m)) (io_now i) None None None.

(** The child of a delegation with its token. *)
Definition delegate_child (i : io) (k : string) (r : run) (sel : candidate) (agent_id : string) (m : mode) (trace : option string)
    (ags : agents) : run :=
  let ty := take_str 64 (ca_id sel) in
  let child := child_run i k r agent_id ty m trace in
  let ceiling := delegate_capability_ceiling (token_allowed (r_token r)) (ag_capabilities (li_agent (ca_agent sel)))
                   (option_map ag_capabilities (dict_get agent_id ags)) in
  match mint i (io_fresh i 0) (r_user r) (default [] (r_plan r)) "manual" ty (Some ceiling) (Some k) with
  | Some t => set_token (VDict t) child
  | None => child
  end.

Definition UNDISPATCHED : string := "Delegation dispatch failed before a child run was created.".

Definition execute_finish (i : io) (k user : string) (x : route) (trace : option string) (memory : pyval) (w : world) : world :=
  match dict_get k (w_runs w) with
  | None => w
  | Some r =>
      match x with
      | XBlocked v => delegation_failed i k r (violation_message v) w
      | XUndispatched => delegation_failed i k r UNDISPATCHED w
      | XDelegate sel m =>
          match parse_uuid (ca_id sel) with
          | None => delegation_failed i k r UNDISPATCHED w
          | Some agent_id =>
              let child := delegate_child i k r sel agent_id m trace (w_agents w) in
              let with_child := put (io_fresh i 0) child w in
              let sender := Some (default LOCAL_AGENT_ID (r_spawned_by r)) in
              match rank_candidate_agents parse_uuid strategy (io_now i) (token_allowed (r_token child)) (Some user) (w_events w) (w_agents w) with
              | None => delegation_failed i k r UNDISPATCHED with_child
              | Some ranked =>
                  match assign_operation parse_uuid (io_now i) (fun n => io_fresh i (4 + n)) ranked
                          (VDict [("name", VStr (r_goal r)); ("child_run_id", VStr (io_fresh i 0)); ("parent_run_id", VStr k)])
                          (Some user) (r_trace child) sender (w_events w) with
                  | Err _ => delegation_failed i k r UNDISPATCHED w
                  | Ok (evs, _) =>
                      let w := set_events evs (put k (set_completed None (set_status "delegated" r)) with_child) in
                      if io_event i then audit k (match m with Delegate => "DELEGATION_DISPATCHED" | _ => "COLLABORATION_STARTED" end) w else w
                  end
              end
          end
      | XLocal token =>
          let tr := match or_text (r_trace r) trace with Some t => Some t | None => r_trace r end in
          let plan := dict_set "memory_context" memory (default [] (r_plan r)) in
          let w := put k (set_started (io_now i) tr plan (set_status "executing" r)) w in
          let w := match get_by_source "agent_run" k (w_units w) with
                   | Some (id, _) => set_units (update_status parse_uuid (io_now i) id "executing" (w_units w)).1 w
                   | None => w
                   end in
          if io_event i then log_execution k token (audit k "EXECUTION_STARTED" w) else w
      end
  end.

(** After the chain: the unit of the run is settled as the run is. *)
Definition execute_end (i : io) (k : string) (w : world) : world :=
  match dict_get k (w_runs w) with
  | None => w
  | Some r =>
      match get_by_source "agent_run" k (w_units w) with
      | Some (id, _) => set_units (finalize_for_run_status parse_uuid (io_now i) id (r_status r) (w_units w)).1 w
      | None => w
      end
  end.

(** ** The handshake of a delegation *)

Inductive response := NotFound | WrongStatus (s : string) | Answered.

Definition respond_begin (run_id : string) (w : world) : response * option string :=
  match find_run run_id w with
  | None => (NotFound, None)
  | Some (k, r) =>
      if decide (r_status r = agent_value A_AWAITING_DELEGATION) then (Answered, Some k) else (WrongStatus (r_status r), None)
  end.

Definition respond_finish (i : io) (k : string) (accept : bool) (reason responder : option string) (w : world) : world :=
  match dict_get k (w_runs w) with
  | None => w
  | Some child =>
      let who := default (default LOCAL_AGENT_ID (r_spawned_by child)) responder in
      let parent := r_parent child ≫= fun p => option_map (pair p) (dict_get p (w_runs w)) in
      let recipient := option_map (fun pr : string * run => default LOCAL_AGENT_ID (r_spawned_by pr.2)) parent in
      let w' :=
        if accept then put k (set_approved (io_now i) (set_status (agent_value A_APPROVED) child)) w
        else
          let w := put k (set_error (Some (match reason with Some s => if decide (s = "") then "Delegation rejected by delegate" else s
                                           | None => "Delegation rejected by delegate" end))
                           (set_completed (Some (io_now i)) (set_status (agent_value A_FAILED) child))) w in
          match parent with
          | Some (p, pr) => if is_agent_terminal (Some (r_status pr)) then w
                            else put p (set_error (Some "delegation_rejected") (set_completed (Some (io_now i)) (set_status (agent_value A_FAILED) pr))) w
          | None => w
          end in
      match (if accept then publish_operation_accept parse_uuid (io_now i) (io_fresh i 4) who recipient k None (Some (r_user child)) (r_trace child) (w_events w)
             else publish_operation_reject parse_uuid (io_now i) (io_fresh i 4) who recipient k reason None (Some (r_user child)) (r_trace child) (w_events w)) with
      | Err _ => w
      | Ok evs =>
          let w := set_events evs w' in
          if io_event i then audit k (if accept then "DELEGATION_ACCEPTED" else "DELEGATION_REJECTED") w else w
      end
  end.

(** ** Runs left approved *)

Definition ORPHANED_APPROVED_THRESHOLD_MINUTES : Z := 10.

(** Which runs the watchdog executes again; [leads] is the fence of the lease. *)
Definition orphaned_approved (now : Z) (leads : bool) (w : world) : list (string * string) :=
  if leads then
    map (fun kr : string * run => (kr.1, r_user kr.2))
      (take 50 (List.filter (fun kr : string * run => bool_decide (r_status kr.2 = agent_value A_APPROVED) &&
        match r_approved kr.2 with Some t => t <? now - ORPHANED_APPROVED_THRESHOLD_MINUTES * minute_ms | None => false end) (w_runs w)))
  else [].

(** ** Follow-ups *)

Inductive disposition := DEnqueued | DNoObjective | DChainDepth | DAdmission | DError.

(** [maybe_act_on_next_action]; [None] where no dispatch decision is made. [flows] are the
    active flows that admission counts. *)
Definition maybe_act (flows : Z) (k : string) (r : run) (user : string) (a : next_action) (w : world) : world * option disposition :=
  match a with [] => (w, None) | _ =>
  if negb (s_acting cfg) then (w, None)
  else if negb (bool_decide (py_get "action" a = VStr TRIGGER_EXECUTION)) then (w, None)
  else if bool_decide (py_or (py_get "source" a) (VStr "") = VStr "runtime_default") then (w, None)
  else
    match py_or (py_get "args" a) (VDict []) with
    | VDict d =>
    let objective := str_strip (py_str render (py_or (py_get "objective" d) (VStr ""))) in
    if decide (objective = "") then (w, Some DNoObjective)
    else match completing_run_depth r (s_max_chain cfg) (w_runs w) with
         | None => (w, Some DError)
         | Some depth =>
             if s_max_chain cfg <=? depth then (w, Some DChainDepth)
             else match parse_uuid user with
                  | None => (w, Some DError)
                  | Some u =>
                      if negb (s_max_active cfg =? 0) && (s_max_active cfg <=? count_active_executions flows (Some u) (w_runs w))
                      then (w, Some DAdmission)
                      else (set_jobs (w_jobs w ++ [Job objective user k]) w, Some DEnqueued)
                  end
         end
    | _ => (w, None)
    end
  end.

(** ** Steps *)

(** The statuses only the operations of this file write. *)
Definition OWN_STATUSES : list string := ["pending_approval"; "approved"; "awaiting_delegation"; "delegated"].

Inductive action :=
| ACreate (i : io) (user objective : string) (trace : option string) (call : string -> option pyval)
| AReplay (i : io) (run_id user mode_ : string) (trace : option string) (call : string -> option pyval)
| AFollow (j : nat) (i : io) (trace : option string) (call : string -> option pyval)
| AInsert (n : nat) (i : io)
| AMint (n : nat) (i : io)
| ALink (n : nat)
| AApprove (i : io) (run_id user : string)
| AReject (run_id user : string)
| ARejectWrite (n : nat) (i : io)
| AExecute (i : io) (run_id user : string) (caps : list string) (trace : option string)
| AExecuteWrite (n : nat) (i : io) (trace : option string) (memory : pyval)
| AEnd (i : io) (k : string)
| ARespond (run_id : string) (accept : bool) (reason : option string)
| ARespondWrite (n : nat) (i : io) (responder : option string)
| AAct (flows : Z) (run_id user : string) (a : next_action)
| ARefresh (i : io) (run_id : string)
| AOther (k status : string) (error : option string) (completed : option Z).

Definition drop_task (n : nat) (w : world) : world := set_tasks (delete n (w_tasks w)) w.

Definition begin_task (b : begun) (w : world) : world := match b with Go p => add_task (TInsert p) w | _ => w end.

Definition act (w : world) (a : action) : world :=
  match a with
  | ACreate i user objective trace call => begin_task (create_begin i user objective trace call None w) w
  | AReplay i run_id user mode_ trace call => begin_task (replay_begin i run_id user mode_ trace call w) w
  | AFollow j i trace call =>
      match w_jobs w !! j with
      | Some jb => let w := set_jobs (delete j (w_jobs w)) w in
                   begin_task (create_begin i (j_user jb) (j_objective jb) trace call (Some (j_parent jb)) w) w
      | None => w
      end
  | AInsert n i => match w_tasks w !! n with Some (TInsert p) => insert_run i p (drop_task n w) | _ => w end
  | AMint n i => match w_tasks w !! n with Some (TMint k p) => mint_run i k p (drop_task n w) | _ => w end
  | ALink n => match w_tasks w !! n with Some (TLink k parent) => link_parent k parent (drop_task n w) | _ => w end
  | AApprove i run_id user => (approve_run i run_id user w).1.1
  | AReject run_id user => match reject_begin run_id user w with Some k => add_task (TReject k) w | None => w end
  | ARejectWrite n i => match w_tasks w !! n with Some (TReject k) => reject_finish i k (drop_task n w) | _ => w end
  | AExecute i run_id user caps trace => execute_begin i run_id user caps trace w
  | AExecuteWrite n i trace memory =>
      match w_tasks w !! n with Some (TExec k user x) => execute_finish i k user x trace memory (drop_task n w) | _ => w end
  | AEnd i k => execute_end i k w
  | ARespond run_id accept reason =>
      match (respond_begin run_id w).2 with Some k => add_task (TRespond k accept reason) w | None => w end
  | ARespondWrite n i responder =>
      match w_tasks w !! n with Some (TRespond k accept reason) => respond_finish i k accept reason responder (drop_task n w) | _ => w end
  | AAct flows run_id user a =>
      match find_run run_id w with Some (k, r) => (maybe_act flows k r user a w).1 | None => w end
  | ARefresh i run_id =>
      match find_run run_id w with
      | Some (k, r) => match refresh_token hmac iso render (io_key i) (io_now i) (io_fresh i 2) (r_token r) with
                       | Some t => put k (set_token (VDict t) r) w
                       | None => w
                       end
      | None => w
      end
  | AOther k status error completed =>
      match dict_get k (w_runs w) with
      | Some r => if decide (status ∈ OWN_STATUSES) then w else put k (set_error error (set_completed completed (set_status status r))) w
      | None => w
      end
  end.

Definition acts (l : list action) (w : world) : world := fold_left act l w.
End Runs.

(** ** What a token says *)

(** The run, the user, the tools and the capabilities a token is for. *)
Definition grants_of (t : pyval) : option (string * string * list string * list string) :=
  match t with
  | VDict d => match py_get "run_id" d, py_get "user_id" d, py_get "granted_tools" d, py_get "allowed_capabilities" d with
               | VStr k, VStr u, VList g, VList a => Some (k, u, strings_of g, strings_of a)
               | _, _, _, _ => None
               end
  | _ => None
  end.

Section Tokens.
Context (reg : registry) (hmac : string -> string -> string) (iso : Z -> string) (render : pyval -> string).

Lemma mint_grants_required plan trust mode agent ceiling g a :
  mint_grants reg plan trust mode agent ceiling = Some (g, a) ->
  exists req, get_plan_required_capabilities reg plan agent = Some req /\ a ⊆ req.
Proof.
  unfold mint_grants. destruct (steps_in plan) as [steps|]; [|done]. cbv zeta.
  intros H. assert (H' : match get_plan_required_capabilities reg plan agent with
     | None => None
     | Some a0 => let '(a1, g1) := match ceiling with None => (a0, get_grantable_tools reg plan trust mode) | Some cs =>
         (base.filter (fun c => c ∈ cs) a0, base.filter (fun t => get_capabilities_for_tool reg t = [] \/
            Exists (fun c => c ∈ cs) (get_capabilities_for_tool reg t)) (get_grantable_tools reg plan trust mode)) end in
        match a1 with [] => None | _ => if bool_decide (mode = "auto") && negb (forallb (fun t =>
          bool_decide (get_policy_for_risk (tool_risk reg t) = "auto_allowed")) g1) then None else Some (g1, a1) end
     end = Some (g, a)) by (by destruct (get_grantable_tools reg plan trust mode), steps). clear H.
  destruct (get_plan_required_capabilities reg plan agent) as [req|]; [|done]. exists req. split; [done|].
  destruct ceiling as [cs|].
  - destruct (base.filter (fun c => c ∈ cs) req) as [|c0 a'] eqn:E; [done|]. destruct (_ && _); [done|]. injection H' as _ <-.
    rewrite <- E. by intros c [_ Hc]%list_elem_of_filter.
  - destruct req; [done|]. destruct (_ && _); [done|]. by injection H' as _ <-.
Qed.

(** An automatic grant needs every tool of the plan to be one the settings allow. *)
Lemma mint_auto_trusted plan trust agent g a steps :
  mint_grants reg plan trust "auto" agent None = Some (g, a) -> steps_in plan = Some steps ->
  forall t, t ∈ named_tools steps -> auto_grantable reg trust t = true.
Proof.
  unfold mint_grants. intros H Hs t Ht. rewrite Hs in H. cbv zeta in H.
  destruct steps as [|s0 ss]; [by apply not_elem_of_nil in Ht|].
  destruct (get_grantable_tools reg plan trust "auto") as [|g0 gs] eqn:Hg; [done|].
  unfold get_grantable_tools in Hg. rewrite Hs in Hg. destruct (plan_tools reg (s0 :: ss)) as [tools|] eqn:Hp; [|done].
  apply plan_tools_spec in Hp as [-> _]. cbv zeta in Hg. rewrite decide_False in Hg by done.
  destruct (forallb _ _) eqn:Hf; [|done]. apply (proj1 (forallb_forall _ _) Hf). apply list_elem_of_In. by rewrite elem_of_sorted_set.
Qed.

Lemma mint_token_grants key now fresh k u plan trust mode agent ceiling parent mapping t :
  mint_token reg hmac iso key now fresh k u plan trust mode agent ceiling parent mapping = Some t ->
  exists g a, mint_grants reg plan trust mode agent ceiling = Some (g, a) /\ grants_of (VDict t) = Some (k, u, g, a).
Proof.
  unfold mint_token. destruct (mint_grants reg plan trust mode agent ceiling) as [[g a]|]; [|done]. intros [= <-].
  exists g, a. split; [done|]. unfold grants_of, token_of, py_get. simpl. by rewrite !strings_of_map.
Qed.

Lemma str_list_strings l ss : str_list (VList l) = Some ss -> ss = strings_of l.
Proof. unfold str_list. destruct l as [|x l]; [by intros [= <-]|]. cbn [py_truth py_list]. simpl. case_match; [|done]. by intros [= <-]. Qed.

(** A refreshed token is for the same run, user, tools and capabilities. *)
Lemma refresh_keeps_grants key now fresh t t' k u g a :
  refresh_token hmac iso render key now fresh t = Some t' -> grants_of t = Some (k, u, g, a) -> grants_of (VDict t') = Some (k, u, g, a).
Proof.
  unfold refresh_token, grants_of at 1. destruct t as [| | | | | |d]; try done.
  destruct (_ && _); [|done]. destruct (py_get "run_id" d); try done. destruct (py_get "user_id" d); try done.
  destruct (py_get "granted_tools" d) as [| | | | |lg|]; try done.
  destruct (py_get "allowed_capabilities" d) as [| | | | |la|]; try (intros; done).
  destruct (str_list (VList lg)) as [sg|] eqn:Eg; [|done]. destruct (str_list (VList la)) as [sa|] eqn:Ea; [|done].
  apply str_list_strings in Eg as ->. apply str_list_strings in Ea as ->.
  destruct (py_or _ _) as [| | | |mode| |]; try done. intros [= <-] [= <- <- <- <-].
  unfold grants_of, token_of, py_get. simpl. by rewrite !strings_of_map.
Qed.

Lemma grants_allowed t k u g a : grants_of t = Some (k, u, g, a) -> token_allowed t = a.
Proof.
  unfold grants_of, token_allowed. destruct t as [| | | | | |d]; try done.
  destruct (py_get "run_id" d), (py_get "user_id" d), (py_get "granted_tools" d), (py_get "allowed_capabilities" d); try done.
  intros [= _ _ _ <-]. unfold py_or. simpl. by destruct l0.
Qed.

Lemma grants_dict t x : grants_of t = Some x -> exists d, t = VDict d.
Proof. destruct t; try done. by eexists. Qed.
End Tokens.

(** ** Authority

    What justifies a token: the approval of its owner or the owner's trust settings, for
    the run itself or for the run it was delegated from. *)

Section Authority.
Context (parse_uuid : string -> option string) (reg : registry) (hmac : string -> string -> string)
  (iso : Z -> string) (render : pyval -> string) (tool_result_schema : string -> option (list (string * pyval)))
  (strategy : list candidate -> option (list candidate)) (cfg : settings).
Hypothesis parse_canonical : forall s k, parse_uuid s = Some k -> parse_uuid k = Some k.

Notation act := (act parse_uuid reg hmac iso render tool_result_schema strategy cfg).
Notation acts := (acts parse_uuid reg hmac iso render tool_result_schema strategy cfg).
Notation mint := (mint reg hmac iso).

Definition steps_of_run (r : run) : option (list pyval) := steps_in (default [] (r_plan r)).

(** What no operation changes of a row: only a run without a parent is given one. *)
Definition identity (r r' : run) : Prop :=
  r_user r = r_user r' /\ r_agent_type r = r_agent_type r' /\ r_risk r = r_risk r' /\ steps_of_run r = steps_of_run r' /\
  r_spawned_by r = r_spawned_by r' /\ forall p, r_parent r = Some p -> r_parent r' = Some p.

(** Histories begin in [w0]. An action of the history [l] satisfied [P] in the world it met. *)
Context (w0 : world).

Definition happened (P : world -> action -> Prop) (l : list action) : Prop :=
  exists l1 a l2, l = l1 ++ a :: l2 /\ P (acts l1 w0) a.

(** The owner approved the run: the approval named it while it was pending. *)
Definition approved_by (l : list action) (k owner : string) : Prop :=
  happened (fun w a => exists i run_id u r, a = AApprove i run_id u /\ find_run parse_uuid run_id w = Some (k, r) /\
    r_user r = owner /\ r_status r = "pending_approval" /\ user_matches parse_uuid owner u = true) l.

(** The action prepares the run [p] with what [i] reads. *)
Definition begins (i : io) (p : prep) (w : world) (a : action) : Prop :=
  match a with
  | ACreate i' user objective trace call =>
      i' = i /\ create_begin parse_uuid render tool_result_schema cfg i' user objective trace call None w = Go p
  | AReplay i' run_id user mode_ trace call =>
      i' = i /\ replay_begin parse_uuid render tool_result_schema cfg i' run_id user mode_ trace call w = Go p
  | AFollow j i' trace call =>
      i' = i /\ exists jb, w_jobs w !! j = Some jb /\
        create_begin parse_uuid render tool_result_schema cfg i' (j_user jb) (j_objective jb) trace call (Some (j_parent jb))
          (set_jobs (delete j (w_jobs w)) w) = Go p
  | _ => False
  end.

(** The row [k] was written for [p]. *)
Definition inserted (l : list action) (k : string) (p : prep) : Prop :=
  happened (fun w a => exists n i, a = AInsert n i /\ w_tasks w !! n = Some (TInsert p) /\ io_fresh i 0 = k) l.

(** The owner's settings, as read when run [k] was created, let its risk pass, and as read
    when its token was minted, every tool of its plan. *)
Definition trusted (l : list action) (k : string) (r : run) : Prop :=
  exists p, p_user p = r_user r /\ p_risk p = r_risk r /\ steps_in (p_plan p) = steps_of_run r /\ inserted l k p /\
    (exists i, happened (begins i p) l /\ requires_approval (p_risk p) (io_trust i) = false) /\
    happened (fun w a => exists n i, a = AMint n i /\ w_tasks w !! n = Some (TMint k p) /\
      forall steps t, steps_of_run r = Some steps -> t ∈ named_tools steps -> auto_grantable reg (io_trust i) t = true) l.

(** Run [k] is the child of a delegation of run [p]. *)
Definition delegated_from (rs : runs) (k p : string) : Prop :=
  exists r, dict_get k rs = Some r /\ r_parent r = Some p /\ is_Some (r_spawned_by r).

(** [k0] is the run [k] itself or the one its delegation started from: it has the same owner
    and the same steps, what is granted is named by those steps, what is allowed is required
    by them, and [k0] was approved by its owner or by the owner's settings. *)
Definition sanctioned (l : list action) (rs : runs) (k : string) (r : run) (granted allowed : list string) : Prop :=
  exists k0 r0 steps req, rtc (delegated_from rs) k k0 /\ dict_get k0 rs = Some r0 /\ r_user r0 = r_user r /\
    steps_of_run r0 = Some steps /\ steps_of_run r = Some steps /\
    required_loop reg steps (get_capabilities_for_agent reg (r_agent_type r0)) = Some req /\
    granted ⊆ named_tools steps /\ allowed ⊆ req /\
    (approved_by l k0 (r_user r) \/ trusted l k0 r0).

Definition token_ok (l : list action) (rs : runs) (k : string) (r : run) (t : pyval) : Prop :=
  exists g a, grants_of t = Some (k, r_user r, g, a) /\ a <> [] /\ sanctioned l rs k r g a.

Definition prepared (i : io) (p : prep) : Prop :=
  parse_uuid (p_user p) = Some (p_user p) /\ p_approved p = negb (requires_approval (p_risk p) (io_trust i)).

Definition prep_ok (l : list action) (p : prep) : Prop := exists i, happened (begins i p) l /\ prepared i p.

Definition task_ok (l : list action) (rs : runs) (t : task) : Prop :=
  match t with
  | TInsert p => prep_ok l p
  | TMint k p => prep_ok l p /\ p_approved p = true /\ inserted l k p /\ exists r, dict_get k rs = Some r /\
      r_user r = p_user p /\ r_risk r = p_risk p /\ steps_of_run r = steps_in (p_plan p)
  | TExec k _ x => exists r, dict_get k rs = Some r /\ token_ok l rs k r (r_token r) /\
      forall tok, x = XLocal tok -> token_ok l rs k r tok
  | _ => True
  end.

Record inv (l : list action) (w : world) : Prop := {
  inv_users : forall k r, dict_get k (w_runs w) = Some r -> parse_uuid (r_user r) = Some (r_user r);
  inv_tokens : forall k r, dict_get k (w_runs w) = Some r -> r_token r = VNone \/ token_ok l (w_runs w) k r (r_token r);
  inv_tasks : forall t, t ∈ w_tasks w -> task_ok l (w_runs w) t;
  inv_executions : forall k t, (k, t) ∈ w_executions w -> exists r, dict_get k (w_runs w) = Some r /\ token_ok l (w_runs w) k r t
}.

(** *** Histories that grow *)

Lemma happened_mono P l l' : l `prefix_of` l' -> happened P l -> happened P l'.
Proof. intros [l3 ->] (l1 & a & l2 & -> & H). exists l1, a, (l2 ++ l3). split; [by rewrite <- app_assoc|done]. Qed.

Lemma happened_now (P : world -> action -> Prop) l a : P (acts l w0) a -> happened P (l ++ [a]).
Proof. intros H. by exists l, a, []. Qed.

Lemma prep_ok_mono l l' p : l `prefix_of` l' -> prep_ok l p -> prep_ok l' p.
Proof. intros Hl (i & Hh & Hp). exists i. split; [by eapply happened_mono|done]. Qed.

Lemma trusted_mono l l' k r r' : l `prefix_of` l' -> identity r r' -> trusted l k r -> trusted l' k r'.
Proof.
  intros Hl (Hu & _ & Hr & Hs & _) (p & Ep & Er & Es & Hi & (i & Hb & Hq) & Hm). exists p.
  split_and!; [congruence..| | |]; [by eapply happened_mono| |].
  - exists i. split; [by eapply happened_mono|done].
  - eapply happened_mono; [done|]. by rewrite <- Hs.
Qed.

(** *** Tables that grow *)

Definition grows (rs rs' : runs) : Prop :=
  forall k r, dict_get k rs = Some r -> exists r', dict_get k rs' = Some r' /\ identity r r'.

Lemma known_runs_refl rs : grows rs rs.
Proof. intros k r H. exists r. by split_and!. Qed.

Lemma grows_set rs k r' :
  (forall r, dict_get k rs = Some r -> identity r r') -> grows rs (dict_set k r' rs).
Proof.
  intros Hk k' r Hg. destruct (decide (k = k')) as [<-|Hne].
  - exists r'. split; [apply dict_get_set_eq|by apply Hk].
  - exists r. rewrite dict_get_set_ne by done. split; [done|by split_and!].
Qed.

Lemma delegated_from_grows rs rs' k k0 : grows rs rs' -> rtc (delegated_from rs) k k0 -> rtc (delegated_from rs') k k0.
Proof.
  intros Hg H. induction H as [|k p k0 (r & Hr & Hp & Hs) _ IH]; [done|]. eapply rtc_l; [|exact IH].
  destruct (Hg k r Hr) as (r' & Hr' & _ & _ & _ & _ & Es & Ep). exists r'. split_and!; [done|by apply Ep|by rewrite <- Es].
Qed.

Lemma sanctioned_mono l l' rs rs' k r r' g a :
  grows rs rs' -> l `prefix_of` l' -> identity r r' -> sanctioned l rs k r g a -> sanctioned l' rs' k r' g a.
Proof.
  intros Hg Hl (Hu & _ & _ & Hs & _) (k0 & r0 & steps & req & Hd & H0 & Hu0 & Hs0 & Hs1 & Hreq & Hgr & Hal & Hap).
  destruct (Hg k0 r0 H0) as (r0' & H0' & Hi). pose proof Hi as (Hu' & Ha' & Hr' & Hs' & _). exists k0, r0', steps, req.
  split_and!; [by eapply delegated_from_grows|done|congruence..|done|done|]. destruct Hap as [Hap|Hap]; [left|right].
  - rewrite <- Hu. by eapply happened_mono.
  - by eapply trusted_mono.
Qed.

Lemma token_ok_mono l l' rs rs' k r r' t :
  grows rs rs' -> l `prefix_of` l' -> identity r r' -> token_ok l rs k r t -> token_ok l' rs' k r' t.
Proof.
  intros Hg Hl Hi (g & a & Ht & Ha & Hs). exists g, a. destruct Hi as (Hu & Hi). rewrite <- Hu. split_and!; [done..|].
  eapply sanctioned_mono; [done..|by split|done].
Qed.

(** A table may change as long as rows keep their identity and a token stays one. *)
Definition advances (l : list action) (rs rs' : runs) : Prop :=
  grows rs rs' /\
  (forall k r', dict_get k rs' = Some r' -> parse_uuid (r_user r') = Some (r_user r')) /\
  (forall k r', dict_get k rs' = Some r' -> r_token r' = VNone \/ token_ok l rs' k r' (r_token r')) /\
  (forall k r r', dict_get k rs = Some r -> dict_get k rs' = Some r' -> r_token r <> VNone -> r_token r' <> VNone).

Lemma task_ok_mono l l' rs rs' t :
  advances l' rs rs' -> l `prefix_of` l' -> task_ok l rs t -> task_ok l' rs' t.
Proof.
  intros (Hg & _ & Htok & Hkeep) Hl. destruct t as [p|k p| | |k u x|]; simpl; try done.
  - by apply prep_ok_mono.
  - intros (Hp & Ha & Hi & r & H & Hu & Hr & Hs). split_and!; [by eapply prep_ok_mono|done|by eapply happened_mono|].
    destruct (Hg k r H) as (r' & H' & Iu & _ & Ir & Is & _). exists r'. split_and!; congruence.
  - intros (r & H & Hok & Hx). destruct (Hg k r H) as (r' & H' & Hi). exists r'. split_and!; [done| |].
    + destruct (Htok k r' H') as [E|]; [|done]. exfalso. apply (Hkeep k r r' H H'); [|done].
      destruct Hok as (g & a & Ht & _). apply grants_dict in Ht as [d ->]. done.
    + intros tok Ex. eapply token_ok_mono; [done..|by apply Hx].
Qed.

Lemma inv_advance l l' w w' :
  inv l w -> l `prefix_of` l' -> advances l' (w_runs w) (w_runs w') ->
  (forall t, t ∈ w_tasks w' -> t ∈ w_tasks w \/ task_ok l' (w_runs w') t) ->
  (forall k t, (k, t) ∈ w_executions w' -> (k, t) ∈ w_executions w \/ exists r, dict_get k (w_runs w') = Some r /\ token_ok l' (w_runs w') k r t) ->
  inv l' w'.
Proof.
  intros [Hu Htok Htask Hex] Hl Hadv Ht Hx. pose proof Hadv as (Hg & Hu' & Htok' & _). split; [done|done| |].
  - intros t Hin. destruct (Ht t Hin) as [Hold|]; [|done]. eapply task_ok_mono; [done..|by apply Htask].
  - intros k t Hin. destruct (Hx k t Hin) as [Hold|]; [|done]. destruct (Hex k t Hold) as (r & H & Hok).
    destruct (Hg k r H) as (r' & H' & Hi). exists r'. split; [done|]. by eapply token_ok_mono.
Qed.

Lemma inv_frame l w w' :
  w_runs w' = w_runs w -> w_tasks w' = w_tasks w -> w_executions w' = w_executions w -> inv l w -> inv l w'.
Proof. intros Hr Ht Hx [H1 H2 H3 H4]. split; rewrite ?Hr, ?Ht, ?Hx; done. Qed.

Lemma advances_refl l w : inv l w -> advances l (w_runs w) (w_runs w).
Proof. intros [Hu Ht _ _]. split_and!; [apply known_runs_refl|done|done|]. intros k r r' H H'. by simplify_eq. Qed.

Lemma inv_weaken l l' w : l `prefix_of` l' -> inv l w -> inv l' w.
Proof.
  intros Hl H. apply (inv_advance l l' w w); [done|done| |by left|by left]. split_and!; [apply known_runs_refl|apply H| |].
  - intros k r Hg. destruct (inv_tokens _ _ H k r Hg) as [?|Hok]; [by left|right].
    eapply token_ok_mono; [apply known_runs_refl|done| |done]. by split_and!.
  - intros k r r' Hg Hg'. by simplify_eq.
Qed.

Lemma inv_set_runs l w k r' :
  inv l w -> (forall r, dict_get k (w_runs w) = Some r -> identity r r' /\ (r_token r <> VNone -> r_token r' <> VNone)) ->
  parse_uuid (r_user r') = Some (r_user r') ->
  r_token r' = VNone \/ token_ok l (dict_set k r' (w_runs w)) k r' (r_token r') -> inv l (put k r' w).
Proof.
  intros H Hk Hu Ht. assert (Hg : grows (w_runs w) (dict_set k r' (w_runs w))) by (apply grows_set; intros r Hr; by apply Hk).
  apply (inv_advance l l w _ H); [done| |by left|by left]. simpl. split_and!; [done| | |].
  - intros k' r0. destruct (decide (k = k')) as [<-|Hne].
    + rewrite dict_get_set_eq. by intros [= <-].
    + rewrite dict_get_set_ne by done. apply H.
  - intros k' r0. destruct (decide (k = k')) as [<-|Hne].
    + rewrite dict_get_set_eq. by intros [= <-].
    + rewrite dict_get_set_ne by done. intros H0. destruct (inv_tokens _ _ H k' r0 H0) as [?|Hok]; [by left|right].
      eapply token_ok_mono; [done|done| |done]. by split_and!.
  - intros k' r0 r1 H0. destruct (decide (k = k')) as [<-|Hne].
    + rewrite dict_get_set_eq. intros [= <-]. by apply Hk.
    + rewrite dict_get_set_ne by done. intros H1. by simplify_eq.
Qed.

(** A row that keeps its identity and its token. *)
Lemma inv_put l w k r r' :
  inv l w -> dict_get k (w_runs w) = Some r -> identity r r' -> r_token r' = r_token r -> inv l (put k r' w).
Proof.
  intros H Hg Hi Ht. apply inv_set_runs; [done| | |].
  - intros r0 H0. simplify_eq. by rewrite Ht.
  - destruct Hi as [<- _]. by apply (inv_users _ _ H k).
  - rewrite Ht. destruct (inv_tokens _ _ H k r Hg) as [?|Hok]; [by left|right].
    eapply token_ok_mono; [|done|exact Hi|done]. apply grows_set. intros r0 H0. by simplify_eq.
Qed.

(** A row that is given a token. *)
Lemma inv_token l w k r r' :
  inv l w -> dict_get k (w_runs w) = Some r -> identity r r' -> token_ok l (dict_set k r' (w_runs w)) k r' (r_token r') ->
  inv l (put k r' w).
Proof.
  intros H Hg Hi Ht. apply inv_set_runs; [done| | |by right].
  - intros r0 H0. simplify_eq. split; [done|]. intros _. destruct Ht as (g & a & Hgr & _). by apply grants_dict in Hgr as [d ->].
  - destruct Hi as [<- _]. by apply (inv_users _ _ H k).
Qed.

Lemma inv_set_tasks l w ts :
  inv l w -> (forall t, t ∈ ts -> t ∈ w_tasks w \/ task_ok l (w_runs w) t) -> inv l (set_tasks ts w).
Proof. intros H Ht. apply (inv_advance l l w _ H); [done|exact (advances_refl l w H)|done|by left]. Qed.

Lemma inv_add_task l w t : inv l w -> task_ok l (w_runs w) t -> inv l (add_task t w).
Proof.
  intros H Ht. apply inv_set_tasks; [done|]. intros t' [Hin|Hin]%elem_of_app; [by left|]. apply list_elem_of_singleton in Hin as ->. by right.
Qed.

Lemma inv_drop_task l w n : inv l w -> inv l (drop_task n w).
Proof.
  intros H. apply inv_set_tasks; [done|]. intros t Ht. left. eapply elem_of_submseteq; [exact Ht|]. apply sublist_submseteq, sublist_delete.
Qed.

Lemma inv_log_execution l w k r t :
  inv l w -> dict_get k (w_runs w) = Some r -> token_ok l (w_runs w) k r t -> inv l (log_execution k t w).
Proof.
  intros H Hg Hok. apply (inv_advance l l w _ H); [done|exact (advances_refl l w H)|by left|]. simpl.
  intros k' t' [Hin|Hin]%elem_of_app; [by left|]. apply list_elem_of_singleton in Hin as [= -> ->]. right. by exists r.
Qed.

Ltac frame H := apply (inv_frame _ _ _ eq_refl eq_refl eq_refl) in H; exact H.

Lemma inv_audit l w (b : bool) k ty : inv l w -> inv l (if b then audit k ty w else w).
Proof. intros H. destruct b; [|done]. by apply (inv_frame _ w). Qed.

(** *** The operations *)

Lemma prepare_ok i user goal plan trace replayed follows :
  parse_uuid user = Some user -> prepared i (prepare i user goal plan trace replayed follows).
Proof. by intros Hu. Qed.

Lemma create_begin_ok i user objective trace call follows w p :
  create_begin parse_uuid render tool_result_schema cfg i user objective trace call follows w = Go p ->
  prepared i p /\ p_replayed p = None /\ p_follows p = follows.
Proof.
  unfold create_begin. destruct (parse_uuid user) as [u|] eqn:Hu; [|done].
  destruct (enforce_run_creation_guardrails _ _ _ _ _); [|done]. destruct (generate_plan _ _ _ _); [|done].
  intros [= <-]. split; [|done]. apply prepare_ok. by apply (parse_canonical user).
Qed.

Lemma create_from_plan_ok i user objective plan trace original w p :
  create_from_plan_begin parse_uuid render tool_result_schema cfg i user objective plan trace original w = Go p ->
  prepared i p /\ p_replayed p = Some original /\ p_follows p = None.
Proof.
  unfold create_from_plan_begin. destruct (_ || _); [|done]. destruct (parse_uuid user) as [u|] eqn:Hu; [|done].
  destruct (enforce_run_creation_guardrails _ _ _ _ _); [|done].
  intros [= <-]. split; [|done]. apply prepare_ok. by apply (parse_canonical user).
Qed.

Lemma replay_begin_ok i run_id user mode_ trace call w p :
  replay_begin parse_uuid render tool_result_schema cfg i run_id user mode_ trace call w = Go p ->
  prepared i p /\ p_follows p = None /\ exists k r, find_run parse_uuid run_id w = Some (k, r) /\ p_replayed p = Some k /\
    enforce_replay_guardrails (s_limits cfg) parse_uuid k r (w_runs w) = Some (Ok tt).
Proof.
  unfold replay_begin. destruct (find_run parse_uuid run_id w) as [[k r]|]; [|done]. destruct (user_matches _ _ _); [|done].
  destruct (enforce_replay_guardrails _ _ _ _ _) as [[[]|]|] eqn:He; [|done..]. case_decide.
  - destruct (generate_plan _ _ _ _); [|done]. intros (Hp & Hr & Hf)%create_from_plan_ok. split_and!; [done..|]. by exists k, r.
  - intros (Hp & Hr & Hf)%create_from_plan_ok. split_and!; [done..|]. by exists k, r.
Qed.

Lemma inv_begin l w b : inv l w -> (forall p, b = Go p -> prep_ok l p) -> inv l (begin_task b w).
Proof. intros H Hb. destruct b as [v| |p]; [done..|]. apply inv_add_task; [done|]. by apply Hb. Qed.

Lemma inv_created l i k p w : inv l w -> inv l (created i k p w).
Proof.
  intros H. unfold created. destruct (p_replayed p); [by apply inv_audit|]. cbv zeta.
  pose proof (inv_audit _ _ (io_event i) k "PLAN_CREATED" H) as H'. destruct (p_follows p); [|done].
  destruct (io_event i); [|done]. by apply inv_add_task.
Qed.

Definition fresh_id (w : world) (k : string) : Prop := dict_get k (w_runs w) = None /\ parse_uuid k = Some k /\ k <> "".

Lemma inv_insert_run l i p w :
  inserted l (io_fresh i 0) p -> inv l w -> prep_ok l p -> fresh_id w (io_fresh i 0) -> inv l (insert_run parse_uuid i p w).
Proof.
  intros Hin H Hp (Hf & _). pose proof Hp as (i0 & _ & Hu & _). unfold insert_run. cbv zeta.
  assert (H1 : inv l (put (io_fresh i 0) (new_run i p) w)).
  { apply inv_set_runs; [done| |done|by left]. intros r Hr. congruence. }
  set (w1 := put _ _ w) in *. set (w2 := match p_replayed p with Some _ => _ | None => _ end).
  assert (Hr2 : w_runs w2 = w_runs w1) by (unfold w2; by destruct (p_replayed p)).
  assert (H2 : inv l w2) by (unfold w2; destruct (p_replayed p); [done|by apply (inv_frame _ w1)]).
  destruct (p_approved p) eqn:Ea; [|by apply inv_created]. apply inv_add_task; [done|]. rewrite Hr2.
  split_and!; [done|done|done|]. exists (new_run i p). split; [apply dict_get_set_eq|done].
Qed.

(** What a run's own token allows is required by its plan. *)
Lemma minted_sanctioned l rs k r plan trust mode g a :
  mint_grants reg plan trust mode (r_agent_type r) None = Some (g, a) -> dict_get k rs = Some r -> steps_of_run r = steps_in plan ->
  approved_by l k (r_user r) \/ trusted l k r -> a <> [] /\ sanctioned l rs k r g a.
Proof.
  intros Hm Hg Hs Hap. destruct (mint_grants_spec reg _ _ _ _ _ _ _ Hm) as (steps & Hst & Hne & _).
  destruct (minted_authority_bounded reg _ _ _ _ _ _ _ Hm) as (steps' & Hst' & Hgr & _).
  destruct (mint_grants_required reg _ _ _ _ _ _ _ Hm) as (req & Hreq & Hal).
  unfold get_plan_required_capabilities in Hreq. rewrite Hst in Hreq. simplify_eq. split; [done|].
  exists k, r, steps, req. split_and!; [apply rtc_refl|done|done|congruence..|done| |done|done]. intros t Ht. by apply Hgr.
Qed.

Lemma inv_mint_run l n i k p w :
  happened (fun w a => a = AMint n i /\ w_tasks w !! n = Some (TMint k p)) l ->
  inv l w -> task_ok l (w_runs w) (TMint k p) -> inv l (mint_run reg hmac iso i k p w).
Proof.
  intros Hin H ((i0 & Hb & _ & Hp) & Ha & Hi & r & Hg & Hu & Hr & Hs). unfold mint_run. rewrite Hg. apply inv_created.
  destruct (mint _ _ _ _ _ _ _ _) as [t|] eqn:Em; [|by apply (inv_put _ _ _ r)].
  destruct (mint_token_grants _ _ _ _ _ _ _ _ _ _ _ _ _ _ _ _ Em) as (g & a & Hm & Hgr).
  apply (inv_token _ _ _ r); [done|done|done|]. exists g, a. simpl. rewrite Hu. split; [done|].
  apply (minted_sanctioned _ _ k _ (p_plan p) (io_trust i) "auto"); [done|apply dict_get_set_eq|done|]. right.
  exists p. split_and!; [done..| |].
  - exists i0. split; [done|]. rewrite Ha in Hp. symmetry in Hp. by apply negb_true_iff.
  - destruct Hin as (l1 & a1 & l2 & -> & -> & Ht). exists l1, (AMint n i), l2. split; [done|]. exists n, i. split_and!; [done..|].
    intros steps t' Hst Ht'. apply (mint_auto_trusted reg _ _ _ _ _ steps Hm); [|done]. by rewrite <- Hs.
Qed.

Lemma user_matches_owner owner u :
  parse_uuid owner = Some owner -> user_matches parse_uuid owner u = true -> db_user_id parse_uuid u = owner.
Proof.
  unfold user_matches, db_user_id. intros Ho. rewrite Ho. destruct (parse_uuid u) as [b|] eqn:Hu; intros E%bool_decide_eq_true.
  - by subst.
  - subst. congruence.
Qed.

Lemma find_run_inv run_id w k r : find_run parse_uuid run_id w = Some (k, r) -> parse_uuid run_id = Some k /\ dict_get k (w_runs w) = Some r.
Proof.
  unfold find_run. destruct (parse_uuid run_id) as [k'|]; [|done]. destruct (dict_get k' (w_runs w)) eqn:E; simpl; [|done].
  by intros [= <- <-].
Qed.

Lemma inv_approve l i run_id user w :
  happened (fun w' a => w' = w /\ a = AApprove i run_id user) l -> inv l w -> inv l (approve_run parse_uuid reg hmac iso i run_id user w).1.1.
Proof.
  intros Hin H. unfold approve_run. destruct (find_run parse_uuid run_id w) as [[k r]|] eqn:Hf; [|done].
  pose proof Hf as [Hk Hg]%find_run_inv. destruct (user_matches parse_uuid (r_user r) user) eqn:Hm; [|done].
  case_decide as Hst; [|done]. destruct (mint _ _ _ _ _ _ _ _) as [t|] eqn:Em; [|by apply (inv_put _ _ _ r)]. cbv zeta.
  destruct (mint_token_grants _ _ _ _ _ _ _ _ _ _ _ _ _ _ _ _ Em) as (g & a & Hmg & Hgr).
  rewrite (user_matches_owner (r_user r)) in Hgr by (done || by apply (inv_users _ _ H k)).
  match goal with |- context [put k ?x w] => set (r' := x) end.
  assert (H' : inv l (put k r' w)).
  { apply (inv_token _ _ _ r); [done|done|done|]. exists g, a. split; [done|].
    apply (minted_sanctioned _ _ k r' (default [] (r_plan r)) (io_trust i) "manual"); [done|apply dict_get_set_eq|done|].
    left. destruct Hin as (l1 & a1 & l2 & El & Ew & ->). exists l1, (AApprove i run_id user), l2. rewrite Ew.
    split; [done|]. by exists i, run_id, user, r. }
  destruct (io_event i); [by apply (inv_frame _ (put k r' w))|done].
Qed.

Lemma inv_failed l i k r why w : inv l w -> dict_get k (w_runs w) = Some r -> inv l (delegation_failed i k r why w).
Proof. intros H Hg. apply inv_audit. by apply (inv_put _ _ _ r). Qed.

Lemma inv_execute_begin l i run_id user caps trace w :
  inv l w -> inv l (execute_begin parse_uuid strategy cfg i run_id user caps trace w).
Proof.
  intros H. unfold execute_begin. destruct (find_run parse_uuid run_id w) as [[k r]|] eqn:Hf; [|done].
  apply find_run_inv in Hf as [Hk Hg]. destruct (negb (bool_decide _)); [done|]. destruct (negb _); [done|].
  destruct (r_token r) as [| | | | | |tok] eqn:Et; try (apply inv_audit; by apply (inv_put _ _ _ r)).
  destruct (register_or_update_agent _ _ _ _ _ _ _ _) as [ags|]; [|done]. cbv zeta.
  assert (H' : inv l (set_agents ags w)) by by apply (inv_frame _ w).
  destruct (rank_candidate_agents _ _ _ _ _ _ _) as [ranked|]; [|done].
  destruct (inv_tokens _ _ H k r Hg) as [E|Hok]; [congruence|]. rewrite Et in Hok.
  assert (Hx : forall u x, (forall t, x = XLocal t -> t = VDict tok) -> inv l (add_task (TExec k u x) (set_agents ags w))).
  { intros u x Hx. apply inv_add_task; [done|]. exists r. split_and!; [done|by rewrite Et|]. intros t Ht. by rewrite (Hx t Ht). }
  assert (Hd : forall sel m tr, forall t, delegate_begin parse_uuid cfg k r sel m tr (set_agents ags w) = XLocal t -> t = VDict tok).
  { intros sel m tr t. unfold delegate_begin. case_decide; [done|]. by destruct (enforce_delegation_guardrails _ _ _ _ _ _) as [[|]|]. }
  destruct (decide_on (Some LOCAL_AGENT_ID) ranked) as [m sel cs]. simpl.
  destruct m, sel; apply Hx; try (intros t [= <-]; done); apply Hd.
Qed.

(** The token of a delegated child allows nothing its parent's token does not. *)
Lemma delegate_child_within i k r sel agent_id m trace ags g a :
  grants_of (r_token (delegate_child reg hmac iso cfg i k r sel agent_id m trace ags)) = Some (io_fresh i 0, r_user r, g, a) ->
  token_allowed (r_token r) <> [] ->
  a <> [] /\ (forall c, c ∈ a -> c ∈ token_allowed (r_token r)) /\
  exists steps, steps_of_run r = Some steps /\ g ⊆ named_tools steps.
Proof.
  unfold delegate_child. cbv zeta. destruct (mint _ _ _ _ _ _ _ _) as [t|] eqn:Em; [|done]. cbn [set_token r_token]. intros Hgr Hne.
  destruct (mint_token_grants _ _ _ _ _ _ _ _ _ _ _ _ _ _ _ _ Em) as (g' & a' & Hm & Hgr'). rewrite Hgr' in Hgr. simplify_eq.
  destruct (mint_grants_spec reg _ _ _ _ _ _ _ Hm) as (steps & Hst & Hna & _ & _ & _ & _ & Hceil).
  destruct (minted_authority_bounded reg _ _ _ _ _ _ _ Hm) as (steps' & Hst' & Hnt & _). simplify_eq.
  split_and!; [done| |].
  - intros c Hc. eapply ceiling_within_parent; [done|]. by eapply Hceil.
  - exists steps. split; [done|]. intros x Hx. by apply Hnt.
Qed.

Lemma delegate_child_token i k r sel agent_id m trace ags :
  r_token (delegate_child reg hmac iso cfg i k r sel agent_id m trace ags) = VNone \/
  exists g a, grants_of (r_token (delegate_child reg hmac iso cfg i k r sel agent_id m trace ags)) = Some (io_fresh i 0, r_user r, g, a).
Proof.
  unfold delegate_child. cbv zeta. destruct (mint _ _ _ _ _ _ _ _) as [t|] eqn:Em; [right|by left].
  destruct (mint_token_grants _ _ _ _ _ _ _ _ _ _ _ _ _ _ _ _ Em) as (g & a & _ & Hgr). by exists g, a.
Qed.

Lemma delegate_child_identity i k r sel agent_id m trace ags :
  let c := delegate_child reg hmac iso cfg i k r sel agent_id m trace ags in
  r_user c = r_user r /\ steps_of_run c = steps_of_run r /\ r_parent c = Some k /\ r_replayed_from c = None /\
  r_spawned_by c = Some agent_id.
Proof. unfold delegate_child. cbv zeta. by destruct (mint _ _ _ _ _ _ _ _). Qed.

Lemma inv_child l i k r sel agent_id m trace w :
  inv l w -> dict_get k (w_runs w) = Some r -> token_ok l (w_runs w) k r (r_token r) -> fresh_id w (io_fresh i 0) ->
  inv l (put (io_fresh i 0) (delegate_child reg hmac iso cfg i k r sel agent_id m trace (w_agents w)) w).
Proof.
  intros H Hg Hok (Hf & _). destruct (delegate_child_identity i k r sel agent_id m trace (w_agents w)) as (Hu & Hs & Hpa & _ & Hsp).
  set (c := delegate_child _ _ _ _ _ _ _ _ _ _ _ _) in *. apply inv_set_runs; [done|congruence|rewrite Hu; by apply (inv_users _ _ H k)|].
  destruct (delegate_child_token i k r sel agent_id m trace (w_agents w)) as [E|(g & a & Hgr)]; [by left|right].
  destruct Hok as (gp & ap & Hgp & Hnp & k0 & r0 & steps & req & Hd & H0 & Hu0 & Hs0 & Hs1 & Hreq & _ & Hal & Hap).
  rewrite <- (grants_allowed _ _ _ _ _ Hgp) in Hnp, Hal.
  destruct (delegate_child_within _ _ _ _ _ _ _ _ _ _ Hgr Hnp) as (Hna & Hac & steps' & Hs' & Hgs). simplify_eq.
  exists g, a. rewrite Hu. split_and!; [done..|]. exists k0, r0, steps, req. split.
  { apply rtc_l with k; [exists c; rewrite dict_get_set_eq, Hsp; by split_and!|].
    eapply delegated_from_grows; [|exact Hd]. apply grows_set. intros r1 H1. congruence. }
  rewrite dict_get_set_ne by congruence. rewrite Hu, Hs. split_and!; try done. intros x Hx. by apply Hal, Hac.
Qed.

Lemma inv_execute_finish l i k user x trace memory w :
  inv l w -> task_ok l (w_runs w) (TExec k user x) -> fresh_id w (io_fresh i 0) ->
  inv l (execute_finish parse_uuid reg hmac iso strategy cfg i k user x trace memory w).
Proof.
  intros H (r & Hg & Hok & Hx) Hf. unfold execute_finish. rewrite Hg. destruct x as [token|v| |sel m].
  - cbv zeta. match goal with |- context [put k ?y w] => set (r' := y) end.
    assert (Hi : identity r r').
    { split_and!; try done. unfold steps_of_run, r'. simpl. unfold steps_in. by rewrite dict_get_set_ne. }
    assert (H1 : inv l (put k r' w)) by (by apply (inv_put _ _ _ r)).
    set (w2 := match get_by_source _ _ _ with Some _ => _ | None => _ end).
    assert (Hr2 : w_runs w2 = w_runs (put k r' w)) by (unfold w2; by destruct (get_by_source _ _ _) as [[]|]).
    assert (H2 : inv l w2).
    { unfold w2. destruct (get_by_source _ _ _) as [[id ?]|]; [|done]. by apply (inv_frame _ (put k r' w)). }
    destruct (io_event i); [|done]. assert (H3 : inv l (audit k "EXECUTION_STARTED" w2)) by by apply (inv_frame _ w2).
    apply (inv_log_execution _ _ _ r'); [done| |]; simpl; rewrite Hr2; [apply dict_get_set_eq|]. simpl.
    apply (token_ok_mono l l (w_runs w) _ k r); [|done|done|by apply Hx]. apply grows_set. intros r0 H0. by simplify_eq.
  - by apply inv_failed.
  - by apply inv_failed.
  - destruct (parse_uuid (ca_id sel)) as [agent_id|]; [|by apply inv_failed]. cbv zeta.
    pose proof (inv_child l i k r sel agent_id m trace w H Hg Hok Hf) as Hc.
    set (c := delegate_child _ _ _ _ _ _ _ _ _ _ _ _) in *. 
    assert (Hgk : dict_get k (w_runs (put (io_fresh i 0) c w)) = Some r).
    { simpl. rewrite dict_get_set_ne; [done|]. intros E. destruct Hf as [Hf _]. congruence. }
    destruct (rank_candidate_agents _ _ _ _ _ _ _) as [ranked|]; [|by apply inv_failed].
    destruct (assign_operation _ _ _ _ _ _ _ _ _) as [[evs ?]|]; [|by apply inv_failed].
    apply inv_audit. match goal with |- inv l (set_events evs ?x) => apply (inv_frame _ x); [done..|] end.
    by apply (inv_put _ _ _ r).
Qed.

Lemma inv_respond_finish l i k accept reason responder w :
  inv l w -> inv l (respond_finish parse_uuid i k accept reason responder w).
Proof.
  intros H. unfold respond_finish. destruct (dict_get k (w_runs w)) as [child|] eqn:Hg; [|done]. cbv zeta.
  match goal with |- context [set_events _ ?x] => set (w' := x) end.
  assert (H' : inv l w').
  { unfold w'. destruct accept; [by apply (inv_put _ _ _ child)|].
    match goal with |- context [put k ?y w] => set (c' := y) end.
    assert (H1 : inv l (put k c' w)) by (by apply (inv_put _ _ _ child)).
    destruct (r_parent child) as [p|]; simpl; [|done]. destruct (dict_get p (w_runs w)) as [pr|] eqn:Hp; simpl; [|done].
    destruct (is_agent_terminal (Some (r_status pr))); [done|]. destruct (decide (k = p)) as [<-|Hne].
    - simplify_eq. apply (inv_put _ _ _ c'); [done|apply dict_get_set_eq|done|done].
    - apply (inv_put _ _ _ pr); [done|simpl; by rewrite dict_get_set_ne|done|done]. }
  match goal with |- context [match ?x with Ok _ => _ | Err _ => _ end] => destruct x as [evs|] end; [|done]. apply inv_audit. by apply (inv_frame _ w').
Qed.

Lemma inv_maybe_act l flows k r user a w : inv l w -> inv l (maybe_act parse_uuid render cfg flows k r user a w).1.
Proof.
  intros H. unfold maybe_act. destruct a as [|x a]; [done|]. repeat (destruct (negb _) || destruct (bool_decide _)); try done.
  all: destruct (py_or _ _); try done; cbv zeta; case_decide; [done|]; destruct (completing_run_depth _ _ _); [|done]; destruct (_ <=? _); [done|];
    destruct (parse_uuid user); [|done]; destruct (_ && _); [done|]; by apply (inv_frame _ w).
Qed.

(** Ids drawn for new rows are new. *)
Definition fresh_ids (w : world) (a : action) : Prop :=
  match a with AInsert _ i | AExecuteWrite _ i _ _ => fresh_id w (io_fresh i 0) | _ => True end.

Lemma inv_act l a : inv l (acts l w0) -> fresh_ids (acts l w0) a -> inv (l ++ [a]) (act (acts l w0) a).
Proof.
  set (w := acts l w0). intros H0 Hf. assert (H : inv (l ++ [a]) w) by (eapply inv_weaken; [|exact H0]; by eexists).
  assert (Ha : forall P : world -> action -> Prop, P w a -> happened P (l ++ [a])) by (intros P HP; by apply happened_now).
  assert (Hbegin : forall i p, begins i p w a -> prepared i p -> prep_ok (l ++ [a]) p)
    by (intros i p Hb Hp; exists i; split; [by apply Ha|done]).
  assert (Htask : forall n t, w_tasks w !! n = Some t -> task_ok (l ++ [a]) (w_runs w) t).
  { intros n t Ht. apply H. by eapply list_elem_of_lookup_2. }
  pose proof (fun n => inv_drop_task _ _ n H) as Hd.
  destruct a as [i user objective trace call|i run_id user mode_ trace call|j i trace call|n i|n i|n|i run_id user|run_id user|n i|
    i run_id user caps trace|n i trace memory|i k|run_id accept reason|n i responder|flows run_id user a|i run_id|k status error completed]; simpl.
  - apply inv_begin; [done|]. intros p Hp. apply (Hbegin i); [done|]. by apply create_begin_ok in Hp as [? _].
  - apply inv_begin; [done|]. intros p Hp. apply (Hbegin i); [done|]. by apply replay_begin_ok in Hp as [? _].
  - destruct (w_jobs w !! j) as [jb|] eqn:Hj; [|done]. apply inv_begin; [by apply (inv_frame _ w)|]. intros p Hp.
    apply (Hbegin i); [split; [done|by exists jb]|]. by apply create_begin_ok in Hp as [? _].
  - destruct (w_tasks w !! n) as [[p| | | | |]|] eqn:Ht; try done. apply inv_insert_run; [|apply Hd|exact (Htask n _ Ht)|done].
    apply Ha. by exists n, i.
  - destruct (w_tasks w !! n) as [[|k p| | | |]|] eqn:Ht; try done. apply (inv_mint_run _ n); [by apply Ha|apply Hd|exact (Htask n _ Ht)].
  - destruct (w_tasks w !! n) as [[| |k p| | |]|] eqn:Ht; try done. unfold link_parent. simpl.
    destruct (dict_get k (w_runs w)) as [r|] eqn:Hg; [|apply Hd]. destruct (r_parent r) eqn:Hp; [apply Hd|].
    apply (inv_put _ _ _ r); [apply Hd|done| |done]. split_and!; [done..|]. intros q Hq. congruence.
  - apply inv_approve; [|done]. by apply Ha.
  - destruct (reject_begin _ _ _ _) as [k|]; [|done]. by apply inv_add_task.
  - destruct (w_tasks w !! n) as [[| | |k| |]|] eqn:Ht; try done. unfold reject_finish. simpl.
    destruct (dict_get k (w_runs w)) as [r|] eqn:Hg; [|apply Hd]. apply inv_audit. apply (inv_put _ _ _ r); [apply Hd|done..].
  - by apply inv_execute_begin.
  - destruct (w_tasks w !! n) as [[| | | |k u x|]|] eqn:Ht; try done. apply inv_execute_finish; [apply Hd|exact (Htask n _ Ht)|done].
  - unfold execute_end. destruct (dict_get k (w_runs w)); [|done]. destruct (get_by_source _ _ _) as [[id ?]|]; [|done]. by apply (inv_frame _ w).
  - destruct (snd _); [|done]. by apply inv_add_task.
  - destruct (w_tasks w !! n) as [[| | | | |k acc reason]|] eqn:Ht; try done. apply inv_respond_finish, Hd.
  - destruct (find_run parse_uuid run_id w) as [[k r]|]; [|done]. by apply inv_maybe_act.
  - destruct (find_run parse_uuid run_id w) as [[k r]|] eqn:Hk; [|done]. apply find_run_inv in Hk as [_ Hg].
    destruct (refresh_token _ _ _ _ _ _ _) as [t|] eqn:Et; [|done].
    destruct (inv_tokens _ _ H k r Hg) as [E|Hok]; [rewrite E in Et; done|].
    apply (inv_token _ _ _ r); [done|done|done|]. destruct Hok as (g & b & Hgr & Hne & Hs). exists g, b. simpl.
    split_and!; [by eapply refresh_keeps_grants|done|]. eapply sanctioned_mono; [|done| |exact Hs]; [|done].
    apply grows_set. intros r0 H1. by simplify_eq.
  - destruct (dict_get k (w_runs w)) as [r|] eqn:Hg; [|done]. case_decide; [done|]. by apply (inv_put _ _ _ r).
Qed.

(** A sequence of steps each of which is as [P] demands. *)
Fixpoint obeys (P : world -> action -> Prop) (w : world) (l : list action) : Prop :=
  match l with [] => True | a :: l => P w a /\ obeys P (act w a) l end.

Lemma obeys_app P w l1 l2 : obeys P w (l1 ++ l2) <-> obeys P w l1 /\ obeys P (acts l1 w) l2.
Proof. revert w. induction l1 as [|a l1 IH]; intros w; simpl; [tauto|]. rewrite IH. tauto. Qed.

Definition empty (w : world) : Prop := w_runs w = [] /\ w_tasks w = [] /\ w_jobs w = [] /\ w_executions w = [].

Lemma inv_reachable l : empty w0 -> obeys fresh_ids w0 l -> inv l (acts l w0).
Proof.
  intros (Hr & Ht & _ & Hx). induction l as [|a l IH] using rev_ind; intros Ho.
  - split; simpl; rewrite ?Hr, ?Ht, ?Hx; intros * Hin; try done; by apply not_elem_of_nil in Hin.
  - apply obeys_app in Ho as [Ho [Ha _]]. unfold AgentRuns.acts. rewrite fold_left_app. apply (inv_act l a); [by apply IH|done].
Qed.

(** C2: No agent run is handed to the segment chain without authority: through any interleaving of creations, replays, approvals, rejections, delegations, handshakes, follow-ups, token refreshes and changes by other components, starting with no runs and with new ids for new rows, every execution of a run is given a token for that run and its owner, whose tools are named and whose capabilities are required by the plan's steps; and the run itself, or the run at the start of the chain of delegations that led to it (which has the same owner and steps), was either pending when its owner approved it, or its risk passed the owner's trust settings as read when it was created and each of its tools the settings as read when its token was minted. *)
Theorem no_unapproved_execution l k t :
  empty w0 -> obeys fresh_ids w0 l -> (k, t) ∈ w_executions (acts l w0) ->
  exists r, dict_get k (w_runs (acts l w0)) = Some r /\ token_ok l (w_runs (acts l w0)) k r t.
Proof. intros H0 Ho Hin. by apply (inv_executions _ _ (inv_reachable l H0 Ho)). Qed.

(** C3: A delegation passes on its run's owner, plan and no more than its run's authority: whatever the delegate registered and however the steps of other calls interleave, the child's token, when it gets one, is for the child and its owner and allows only capabilities its parent's token allows. *)
Theorem delegation_never_escalates l n i trace memory k user sel m c :
  empty w0 -> obeys fresh_ids w0 (l ++ [AExecuteWrite n i trace memory]) ->
  w_tasks (acts l w0) !! n = Some (TExec k user (XDelegate sel m)) ->
  dict_get (io_fresh i 0) (w_runs (acts (l ++ [AExecuteWrite n i trace memory]) w0)) = Some c ->
  exists r, dict_get k (w_runs (acts l w0)) = Some r /\ r_parent c = Some k /\ r_user c = r_user r /\ steps_of_run c = steps_of_run r /\
    (r_token c = VNone \/
     exists g a, grants_of (r_token c) = Some (io_fresh i 0, r_user r, g, a) /\ a <> [] /\ forall x, x ∈ a -> x ∈ token_allowed (r_token r)).
Proof.
  intros H0 Ho Ht. apply obeys_app in Ho as [Ho [Hf _]]. pose proof (inv_reachable l H0 Ho) as H.
  unfold AgentRuns.acts in *. rewrite fold_left_app. cbn [fold_left AgentRuns.act]. set (w := fold_left act l w0) in *. rewrite Ht.
  destruct (inv_tasks _ _ H _ (list_elem_of_lookup_2 _ _ _ Ht)) as (r & Hg & (gp & ap & Hgp & Hnp & _) & _).
  destruct Hf as [Hf _]. change (dict_get (io_fresh i 0) (w_runs w) = None) in Hf.
  unfold execute_finish. simpl. rewrite Hg. unfold delegation_failed.
  assert (Hk : k <> io_fresh i 0) by congruence.
  assert (Hno : forall r', dict_get (io_fresh i 0) (dict_set k r' (w_runs w)) = Some c -> False).
  { intros r' E. rewrite dict_get_set_ne in E by done. congruence. }
  assert (Haudit : forall (b : bool) ty w', w_runs (if b then audit k ty w' else w') = w_runs w') by (by intros []).
  destruct (parse_uuid (ca_id sel)) as [agent_id|]; [|rewrite Haudit; intros Hc; by apply Hno in Hc]. cbv zeta.
  set (ch := delegate_child _ _ _ _ _ _ _ _ _ _ _ _).
  assert (Hch : c = ch -> exists r0, Some r = Some r0 /\ r_parent c = Some k /\ r_user c = r_user r0 /\ steps_of_run c = steps_of_run r0 /\
    (r_token c = VNone \/ exists g a, grants_of (r_token c) = Some (io_fresh i 0, r_user r0, g, a) /\ a <> [] /\
      forall x, x ∈ a -> x ∈ token_allowed (r_token r0))).
  { intros ->. destruct (delegate_child_identity i k r sel agent_id m trace (w_agents w)) as (Hu & Hs & Hp & _).
    exists r. split_and!; [done..|]. destruct (delegate_child_token i k r sel agent_id m trace (w_agents w)) as [E|(g & a & Hgr)]; [by left|right].
    exists g, a. split; [done|]. rewrite <- (grants_allowed _ _ _ _ _ Hgp) in Hnp.
    destruct (delegate_child_within _ _ _ _ _ _ _ _ _ _ Hgr Hnp) as (Hna & Hac & _). done. }
  destruct (rank_candidate_agents _ _ _ _ _ _ _) as [ranked|].
  - destruct (assign_operation _ _ _ _ _ _ _ _ _) as [[evs ?]|].
    + rewrite Haudit. simpl. rewrite dict_get_set_ne by done. rewrite dict_get_set_eq. intros [= <-]. by apply Hch.
    + rewrite Haudit. intros Hc. by apply Hno in Hc.
  - rewrite Haudit. simpl. rewrite dict_get_set_ne by done. rewrite dict_get_set_eq. intros [= <-]. by apply Hch.
Qed.

(** ** Lineage

    How deep runs nest under one another, by delegation and by follow-ups, and how long a
    chain of replays gets. *)
Hypothesis parse_empty : parse_uuid "" = None.

Definition D : Z := max_delegation_depth (s_limits cfg).
Definition R : Z := max_replay_depth (s_limits cfg).
Definition depth_bound : option nat := if 0 <? D then Some (Z.to_nat (Z.max D (s_max_chain cfg))) else None.
Definition replay_bound : option nat := if 0 <? R then Some (Z.to_nat R) else None.

(** There is room for a run below [k]. *)
Definition room (up : run -> option string) (bound : option nat) (rs : runs) (k : string) : Prop :=
  exists n, depth_is up rs k n /\ forall b, bound = Some b -> (S n <= b)%nat.

Notation roomy := (room r_parent depth_bound).
Notation replayable := (room r_replayed_from replay_bound).

Definition lineage_task (rs : runs) (t : task) : Prop :=
  match t with
  | TInsert p => (forall parent, p_follows p = Some parent -> roomy rs parent) /\
                 (forall o, p_replayed p = Some o -> replayable rs o /\ parse_uuid o = Some o)
  | TMint k p => is_Some (dict_get k rs) /\ forall parent, p_follows p = Some parent -> roomy rs parent /\ parent <> k
  | TLink k parent => is_Some (dict_get k rs) /\ roomy rs parent /\ parent <> k
  | TExec k _ (XDelegate _ _) => roomy rs k
  | _ => True
  end.

Record linv (w : world) : Prop := {
  linv_parents : lineage r_parent depth_bound (w_runs w);
  linv_replays : lineage r_replayed_from replay_bound (w_runs w);
  linv_ids : forall k r o, dict_get k (w_runs w) = Some r -> r_replayed_from r = Some o -> parse_uuid o = Some o;
  linv_tasks : forall t, t ∈ w_tasks w -> lineage_task (w_runs w) t;
  linv_jobs : forall j, j ∈ w_jobs w -> roomy (w_runs w) (j_parent j)
}.

Lemma linv_frame w w' : w_runs w' = w_runs w -> w_tasks w' = w_tasks w -> w_jobs w' = w_jobs w -> linv w -> linv w'.
Proof. intros Hr Ht Hj [H1 H2 H3 H4 H5]. split; rewrite ?Hr, ?Ht, ?Hj; done. Qed.

(** Writing a row keeps every room, when the row keeps its links or is new. *)
Definition keeps_links (rs : runs) (k : string) (r : run) : Prop :=
  forall old, dict_get k rs = Some old -> r_parent old = r_parent r /\ r_replayed_from old = r_replayed_from r.

Lemma room_set up bound rs k r k' :
  (forall old, dict_get k rs = Some old -> up old = up r) -> room up bound rs k' -> room up bound (dict_set k r rs) k'.
Proof. intros Hk (n & Hd & Hb). exists n. split; [by apply depth_is_set|done]. Qed.

Lemma is_Some_set (rs : runs) k r k' : is_Some (dict_get k' rs) -> is_Some (dict_get k' (dict_set k r rs)).
Proof. intros [x Hx]. destruct (decide (k = k')) as [<-|Hne]; [rewrite dict_get_set_eq; by eexists|rewrite dict_get_set_ne by done; by eexists]. Qed.

Lemma lineage_task_set rs k r t : keeps_links rs k r -> lineage_task rs t -> lineage_task (dict_set k r rs) t.
Proof.
  intros Hk. assert (H1 : forall k', roomy rs k' -> roomy (dict_set k r rs) k') by (intros k'; apply room_set; intros old H; by apply Hk).
  assert (H2 : forall k', replayable rs k' -> replayable (dict_set k r rs) k') by (intros k'; apply room_set; intros old H; by apply Hk).
  destruct t as [p|k' p|k' p| |k' u x|]; simpl; try done.
  - intros [Hf Hr]. split; [auto|]. intros o Ho. destruct (Hr o Ho); auto.
  - intros [Hs Hf]. split; [by apply is_Some_set|]. intros q Hq. destruct (Hf q Hq); auto.
  - intros (Hs & Hp & Hne). split_and!; [by apply is_Some_set|auto|done].
  - destruct x; auto.
Qed.

Lemma linv_put w k r old :
  linv w -> dict_get k (w_runs w) = Some old -> r_parent old = r_parent r -> r_replayed_from old = r_replayed_from r -> linv (put k r w).
Proof.
  intros [H1 H2 H3 H4 H5] Hg Hp Hr. assert (Hk : keeps_links (w_runs w) k r) by (intros o Ho; by simplify_eq). split; simpl.
  - by apply (lineage_set _ _ _ _ _ old).
  - by apply (lineage_set _ _ _ _ _ old).
  - intros k' r' o. destruct (decide (k = k')) as [<-|Hne]; [rewrite dict_get_set_eq; intros [= <-]; rewrite <- Hr; by apply (H3 k)|].
    rewrite dict_get_set_ne by done. apply H3.
  - intros t Ht. apply lineage_task_set; auto.
  - intros j Hj. apply room_set; [|auto]. intros o Ho. by apply Hk.
Qed.

Lemma linv_insert w k r :
  linv w -> dict_get k (w_runs w) = None -> (forall p, r_parent r = Some p -> roomy (w_runs w) p) ->
  (forall o, r_replayed_from r = Some o -> replayable (w_runs w) o /\ parse_uuid o = Some o) -> linv (put k r w).
Proof.
  intros [H1 H2 H3 H4 H5] Hg Hp Hr. assert (Hk : keeps_links (w_runs w) k r) by (intros o Ho; congruence). split; simpl.
  - by apply lineage_insert.
  - apply lineage_insert; [done| |done]. intros o Ho. by destruct (Hr o Ho).
  - intros k' r' o. destruct (decide (k = k')) as [<-|Hne]; [rewrite dict_get_set_eq; intros [= <-]; intros Ho; by destruct (Hr o Ho)|].
    rewrite dict_get_set_ne by done. apply H3.
  - intros t Ht. apply lineage_task_set; auto.
  - intros j Hj. apply room_set; [|auto]. intros o Ho. by apply Hk.
Qed.

Lemma linv_set_tasks w ts : linv w -> (forall t, t ∈ ts -> t ∈ w_tasks w \/ lineage_task (w_runs w) t) -> linv (set_tasks ts w).
Proof. intros [H1 H2 H3 H4 H5] Ht. split; [done..| |done]. intros t Hin. destruct (Ht t Hin); [by apply H4|done]. Qed.

Lemma linv_add_task w t : linv w -> lineage_task (w_runs w) t -> linv (add_task t w).
Proof.
  intros H Ht. apply linv_set_tasks; [done|]. intros t' [Hin|Hin]%elem_of_app; [by left|]. apply list_elem_of_singleton in Hin as ->. by right.
Qed.

Lemma linv_drop_task w n : linv w -> linv (drop_task n w).
Proof.
  intros H. apply linv_set_tasks; [done|]. intros t Ht. left. eapply elem_of_submseteq; [exact Ht|]. apply sublist_submseteq, sublist_delete.
Qed.

Lemma linv_audit w (b : bool) k ty : linv w -> linv (if b then audit k ty w else w).
Proof. intros H. destruct b; [|done]. by apply (linv_frame w). Qed.

(** What is decided on the way there is room for. *)
Lemma delegation_roomy k r sel tr w d :
  linv w -> dict_get k (w_runs w) = Some r ->
  enforce_delegation_guardrails (s_limits cfg) k r sel tr (w_runs w) = Some (Ok d) -> roomy (w_runs w) k.
Proof.
  intros H Hg. destruct (linv_parents _ H k r Hg) as (n & Hd & _).
  destruct (load_parent_chain_depth _ _ _ _ Hd Hg) as (chain & Hc & Hl). unfold enforce_delegation_guardrails. rewrite Hc.
  intros [= He]. exists n. split; [done|]. intros b. unfold depth_bound. destruct (0 <? D) eqn:Ed; [|done]. intros [= <-].
  apply Z.ltb_lt in Ed. apply delegation_checks_depth in He; [|done]. fold D in He. rewrite Hl in He. lia.
Qed.

Lemma replay_room k r w :
  linv w -> dict_get k (w_runs w) = Some r -> enforce_replay_guardrails (s_limits cfg) parse_uuid k r (w_runs w) = Some (Ok tt) ->
  replayable (w_runs w) k.
Proof.
  intros H Hg He. destruct (linv_replays _ H k r Hg) as (n & Hd & _). exists n. split; [done|].
  intros b. unfold replay_bound. destruct (0 <? R) eqn:Er; [|done]. intros [= <-]. apply Z.ltb_lt in Er.
  destruct (replay_walk_depth (s_limits cfg) parse_uuid (w_runs w) n k r (S (S (length (w_runs w)))) [] 0) with (x := @Ok violation unit tt)
    as [[_ Hb]|]; [|done|done|by intros s m Hs%not_elem_of_nil|by intros s Hs%not_elem_of_nil|done| |done].
  - intros k' r' o Hg' Ho. pose proof (linv_ids _ H k' r' o Hg' Ho) as Hp. split; [|done]. intros ->. congruence.
  - fold R in Hb. specialize (Hb Er Er). lia.
Qed.

Lemma follow_roomy r k w d :
  linv w -> dict_get k (w_runs w) = Some r -> completing_run_depth r (s_max_chain cfg) (w_runs w) = Some d -> d < s_max_chain cfg ->
  roomy (w_runs w) k.
Proof.
  intros H Hg Hd Hlt. destruct (linv_parents _ H k r Hg) as (n & Hn & _). exists n. split; [done|].
  assert (Hnd : Z.of_nat n = d).
  { unfold completing_run_depth in Hd. inversion Hn as [? ? Hg' Hp|? ? p m Hg' Hp Hdp]; simplify_eq; rewrite Hp in Hd.
    - by injection Hd as <-.
    - pose proof (depth_walk_depth _ _ _ _ _ _ _ _ Hdp (fun s m Hs => ltac:(by apply not_elem_of_nil in Hs))
        (fun s Hs => ltac:(by apply not_elem_of_nil in Hs)) Hd Hlt). lia. }
  intros b. unfold depth_bound. destruct (0 <? D) eqn:Ed; [|done]. intros [= <-]. lia.
Qed.

(** Linking a follow-up comes before anything is built on it: no row, task or job refers to
    it as the run it comes after. *)
Definition waits_on (t : task) (k : string) : Prop :=
  match t with
  | TInsert p | TMint _ p => p_follows p = Some k
  | TLink _ parent => parent = k
  | TExec k' _ (XDelegate _ _) => k' = k
  | _ => False
  end.

Definition unlinked (w : world) (k : string) : Prop :=
  (forall k' r, dict_get k' (w_runs w) = Some r -> r_parent r <> Some k) /\
  (forall t, t ∈ w_tasks w -> ~ waits_on t k) /\ (forall j, j ∈ w_jobs w -> j_parent j <> k).

Definition orderly (w : world) (a : action) : Prop :=
  fresh_ids w a /\
  match a with ALink n => forall k parent, w_tasks w !! n = Some (TLink k parent) -> unlinked w k | _ => True end.

Lemma linv_link w k parent :
  linv w -> unlinked w k -> lineage_task (w_runs w) (TLink k parent) -> linv (link_parent k parent w).
Proof.
  intros H (Hno & Hnt & Hnj) ([r Hg] & Hp & Hne). unfold link_parent. rewrite Hg. destruct (r_parent r) as [q|] eqn:Hq; [done|].
  destruct H as [H1 H2 H3 H4 H5]. set (r' := set_parent (Some parent) r).
  assert (Hroom : forall k', k' <> k -> roomy (w_runs w) k' -> roomy (dict_set k r' (w_runs w)) k').
  { intros k' Hk (n & Hd & Hb). exists n. split; [by apply depth_is_link|done]. }
  assert (Hrep : forall k', replayable (w_runs w) k' -> replayable (dict_set k r' (w_runs w)) k').
  { intros k'. apply room_set. intros old Ho. by simplify_eq. }
  split; simpl.
  - by apply (lineage_link _ _ _ _ _ parent).
  - by apply (lineage_set _ _ _ _ _ r).
  - intros k' r0 o. destruct (decide (k = k')) as [<-|Hk]; [rewrite dict_get_set_eq; intros [= <-]; exact (H3 k r o Hg)|].
    rewrite dict_get_set_ne by done. apply H3.
  - intros t Ht. specialize (H4 t Ht). specialize (Hnt t Ht). destruct t as [p|k' p|k' p| |k' u x|]; simpl in *; try done.
    + destruct H4 as [Hf Hr]. split; [|intros o Ho; destruct (Hr o Ho); auto]. intros q Hq'. apply Hroom; [congruence|auto].
    + destruct H4 as [Hs Hf]. split; [by apply is_Some_set|]. intros q Hq'. destruct (Hf q Hq'). split; [|done]. apply Hroom; [congruence|done].
    + destruct H4 as (Hs & Hpp & Hn). split_and!; [by apply is_Some_set|by apply Hroom|done].
    + destruct x; try done. by apply Hroom.
  - intros j Hj. apply Hroom; [by apply Hnj|auto].
Qed.

Lemma linv_created i k p w :
  linv w -> is_Some (dict_get k (w_runs w)) -> (forall parent, p_follows p = Some parent -> roomy (w_runs w) parent /\ parent <> k) ->
  linv (created i k p w).
Proof.
  intros H Hk Hf. unfold created. destruct (p_replayed p); [by apply linv_audit|]. cbv zeta.
  pose proof (linv_audit _ (io_event i) k "PLAN_CREATED" H) as H'. destruct (p_follows p) as [parent|]; [|done].
  destruct (io_event i); [|done]. apply linv_add_task; [done|]. destruct (Hf parent eq_refl). done.
Qed.

Lemma linv_begin w b : linv w -> (forall p, b = Go p -> lineage_task (w_runs w) (TInsert p)) -> linv (begin_task b w).
Proof. intros H Hb. destruct b as [v| |p]; [done..|]. apply linv_add_task; [done|]. by apply Hb. Qed.

Lemma linv_insert_run i p w :
  linv w -> lineage_task (w_runs w) (TInsert p) -> fresh_id w (io_fresh i 0) -> linv (insert_run parse_uuid i p w).
Proof.
  intros H [Hf Hr] (Hfr & _). unfold insert_run. cbv zeta.
  assert (H1 : linv (put (io_fresh i 0) (new_run i p) w)) by (by apply linv_insert).
  set (w1 := put _ _ w) in *. set (w2 := match p_replayed p with Some _ => _ | None => _ end).
  assert (Hr2 : w_runs w2 = w_runs w1) by (unfold w2; by destruct (p_replayed p)).
  assert (H2 : linv w2) by (unfold w2; destruct (p_replayed p); [done|by apply (linv_frame w1)]).
  assert (Hs : is_Some (dict_get (io_fresh i 0) (w_runs w2))) by (rewrite Hr2; simpl; rewrite dict_get_set_eq; by eexists).
  assert (Hfo : forall parent, p_follows p = Some parent -> roomy (w_runs w2) parent /\ parent <> io_fresh i 0).
  { intros parent Hp. specialize (Hf parent Hp). split.
    - rewrite Hr2. apply room_set; [|done]. intros old Ho. congruence.
    - destruct Hf as (n & Hd & _). apply depth_is_get in Hd as [x Hx]. intros ->. congruence. }
  destruct (p_approved p); [|by apply linv_created]. by apply linv_add_task.
Qed.

Lemma linv_mint_run i k p w : linv w -> lineage_task (w_runs w) (TMint k p) -> linv (mint_run reg hmac iso i k p w).
Proof.
  intros H [[r Hg] Hf]. unfold mint_run. rewrite Hg. cbv zeta.
  match goal with |- linv (created _ _ _ (put _ ?x _)) => set (r' := x) end.
  assert (Hl : r_parent r = r_parent r' /\ r_replayed_from r = r_replayed_from r') by (unfold r'; by destruct (mint _ _ _ _ _ _ _ _)).
  destruct Hl as [Hl1 Hl2]. apply linv_created; [by apply (linv_put _ _ _ r)|simpl; rewrite dict_get_set_eq; by eexists|].
  intros parent Hp. destruct (Hf parent Hp). split; [|done]. simpl. apply room_set; [|done]. intros old Ho. by simplify_eq.
Qed.

Lemma linv_approve i run_id user w : linv w -> linv (approve_run parse_uuid reg hmac iso i run_id user w).1.1.
Proof.
  intros H. unfold approve_run. destruct (find_run parse_uuid run_id w) as [[k r]|] eqn:Hf; [|done].
  apply find_run_inv in Hf as [Hk Hg]. destruct (user_matches _ _ _); [|done]. case_decide; [|done].
  destruct (mint _ _ _ _ _ _ _ _) as [t|]; [|by apply (linv_put _ _ _ r)]. cbv zeta.
  match goal with |- context [put k ?x w] => assert (H' : linv (put k x w)) by (by apply (linv_put _ _ _ r)) end.
  destruct (io_event i); [|done]. eapply linv_frame; [| | |exact H']; done.
Qed.

Lemma linv_failed i k r why w : linv w -> dict_get k (w_runs w) = Some r -> linv (delegation_failed i k r why w).
Proof. intros H Hg. apply linv_audit. by apply (linv_put _ _ _ r). Qed.

Lemma linv_execute_begin i run_id user caps trace w : linv w -> linv (execute_begin parse_uuid strategy cfg i run_id user caps trace w).
Proof.
  intros H. unfold execute_begin. destruct (find_run parse_uuid run_id w) as [[k r]|] eqn:Hf; [|done].
  apply find_run_inv in Hf as [Hk Hg]. destruct (negb (bool_decide _)); [done|]. destruct (negb _); [done|].
  destruct (r_token r) as [| | | | | |tok] eqn:Et; try (apply linv_audit; by apply (linv_put _ _ _ r)).
  destruct (register_or_update_agent _ _ _ _ _ _ _ _) as [ags|]; [|done]. cbv zeta.
  assert (H' : linv (set_agents ags w)) by by apply (linv_frame w).
  destruct (rank_candidate_agents _ _ _ _ _ _ _) as [ranked|]; [|done].
  assert (Hd : forall u sel m tr, linv (add_task (TExec k u (delegate_begin parse_uuid cfg k r sel m tr (set_agents ags w))) (set_agents ags w))).
  { intros u sel m tr. apply linv_add_task; [done|]. unfold delegate_begin. case_decide; [done|].
    destruct (enforce_delegation_guardrails _ _ _ _ _ _) as [[d|v]|] eqn:He; try done. by eapply delegation_roomy. }
  destruct (decide_on (Some LOCAL_AGENT_ID) ranked) as [m sel cs]. simpl.
  destruct m, sel; try apply Hd; by apply linv_add_task.
Qed.

Lemma linv_execute_finish i k user x trace memory w :
  linv w -> lineage_task (w_runs w) (TExec k user x) -> fresh_id w (io_fresh i 0) ->
  linv (execute_finish parse_uuid reg hmac iso strategy cfg i k user x trace memory w).
Proof.
  intros H Hx [Hf _]. unfold execute_finish. destruct (dict_get k (w_runs w)) as [r|] eqn:Hg; [|done].
  destruct x as [token|v| |sel m]; [|by apply linv_failed..|].
  - cbv zeta. match goal with |- context [put k ?y w] => assert (H1 : linv (put k y w)) by (by apply (linv_put _ _ _ r)) end.
    destruct (get_by_source _ _ _) as [[id ?]|]; destruct (io_event i); try done; (eapply linv_frame; [| | |exact H1]; done).
  - destruct (parse_uuid (ca_id sel)) as [agent_id|]; [|by apply linv_failed]. cbv zeta.
    destruct (delegate_child_identity i k r sel agent_id m trace (w_agents w)) as (_ & _ & Hp & Hr & _).
    set (c := delegate_child _ _ _ _ _ _ _ _ _ _ _ _) in *.
    assert (Hc : linv (put (io_fresh i 0) c w)).
    { apply linv_insert; [done|done|intros p; rewrite Hp; intros [= <-]; exact Hx|intros o; by rewrite Hr]. }
    assert (Hgk : dict_get k (w_runs (put (io_fresh i 0) c w)) = Some r) by (simpl; rewrite dict_get_set_ne; congruence).
    destruct (rank_candidate_agents _ _ _ _ _ _ _) as [ranked|]; [|by apply linv_failed].
    destruct (assign_operation _ _ _ _ _ _ _ _ _) as [[evs ?]|]; [|by apply linv_failed].
    apply linv_audit. match goal with |- linv (set_events evs ?y) => apply (linv_frame y); [done..|] end.
    by apply (linv_put _ _ _ r).
Qed.

Lemma linv_respond_finish i k accept reason responder w : linv w -> linv (respond_finish parse_uuid i k accept reason responder w).
Proof.
  intros H. unfold respond_finish. destruct (dict_get k (w_runs w)) as [child|] eqn:Hg; [|done]. cbv zeta.
  match goal with |- context [set_events _ ?x] => set (w' := x) end.
  assert (H' : linv w').
  { unfold w'. destruct accept; [by apply (linv_put _ _ _ child)|].
    match goal with |- context [put k ?y w] => set (c' := y) end.
    assert (H1 : linv (put k c' w)) by (by apply (linv_put _ _ _ child)).
    destruct (r_parent child) as [p|]; simpl; [|done]. destruct (dict_get p (w_runs w)) as [pr|] eqn:Hp; simpl; [|done].
    destruct (is_agent_terminal (Some (r_status pr))); [done|]. destruct (decide (k = p)) as [<-|Hne].
    - simplify_eq. apply (linv_put _ _ _ c'); [done|apply dict_get_set_eq|done|done].
    - apply (linv_put _ _ _ pr); [done|simpl; by rewrite dict_get_set_ne|done|done]. }
  match goal with |- context [match ?x with Ok _ => _ | Err _ => _ end] => destruct x as [evs|] end; [|done]. apply linv_audit.
  by apply (linv_frame w').
Qed.

Lemma linv_maybe_act flows k r user a w :
  linv w -> dict_get k (w_runs w) = Some r -> linv (maybe_act parse_uuid render cfg flows k r user a w).1.
Proof.
  intros H Hg. unfold maybe_act. destruct a as [|x a]; [done|]. destruct (negb (s_acting cfg)); [done|].
  destruct (negb (bool_decide _)); [done|]. destruct (bool_decide _); [done|]. destruct (py_or _ _) as [| | | | | |args]; try done. cbv zeta. case_decide; [done|].
  destruct (completing_run_depth _ _ _) as [d|] eqn:Hd; [|done]. destruct (s_max_chain cfg <=? d) eqn:El; [done|].
  apply Z.leb_gt in El. destruct (parse_uuid user); [|done]. destruct (_ && _); [done|].
  pose proof (follow_roomy _ _ _ _ H Hg Hd El) as Hr. destruct H as [H1 H2 H3 H4 H5]. split; try done. simpl.
  intros j [Hj|Hj]%elem_of_app; [by apply H5|]. apply list_elem_of_singleton in Hj as ->. done.
Qed.

Lemma linv_act w a : linv w -> orderly w a -> linv (act w a).
Proof.
  intros H [Hf Hlink].
  assert (Htask : forall n t, w_tasks w !! n = Some t -> lineage_task (w_runs w) t) by (intros n t Ht; apply H; by eapply list_elem_of_lookup_2).
  pose proof (fun n => linv_drop_task _ n H) as Hd.
  destruct a as [i user objective trace call|i run_id user mode_ trace call|j i trace call|n i|n i|n|i run_id user|run_id user|n i|
    i run_id user caps trace|n i trace memory|i k|run_id accept reason|n i responder|flows run_id user a|i run_id|k status error completed]; simpl.
  - apply linv_begin; [done|]. intros p Hp. apply create_begin_ok in Hp as (_ & Hr & Hfo). split; intros ?; rewrite ?Hr, ?Hfo; done.
  - apply linv_begin; [done|]. intros p Hp. apply replay_begin_ok in Hp as (_ & Hfo & k & r & Hk & Hr & He).
    split; intros ?; rewrite ?Hr, ?Hfo; [done|]. intros [= <-]. apply find_run_inv in Hk as [Hk Hg].
    split; [by eapply replay_room|by apply (parse_canonical run_id)].
  - destruct (w_jobs w !! j) as [jb|] eqn:Hj; [|done].
    assert (Hroom : roomy (w_runs w) (j_parent jb)) by (apply H; by eapply list_elem_of_lookup_2).
    apply linv_begin.
    + destruct H as [H1 H2 H3 H4 H5]. split; [done..|]. simpl. intros j' Hj'. apply H5. eapply elem_of_submseteq; [exact Hj'|]. apply sublist_submseteq, sublist_delete.
    + intros p Hp. apply create_begin_ok in Hp as (_ & Hr & Hfo). split; intros ?; rewrite ?Hr, ?Hfo; [by intros [= <-]|done].
  - destruct (w_tasks w !! n) as [[p| | | | |]|] eqn:Ht; try done. apply linv_insert_run; [apply Hd|exact (Htask n _ Ht)|done].
  - destruct (w_tasks w !! n) as [[|k p| | | |]|] eqn:Ht; try done. apply linv_mint_run; [apply Hd|exact (Htask n _ Ht)].
  - destruct (w_tasks w !! n) as [[| |k p| | |]|] eqn:Ht; try done. apply linv_link; [apply Hd| |exact (Htask n _ Ht)].
    destruct (Hlink k p eq_refl) as (Hl1 & Hl2 & Hl3). split_and!; [done| |done]. intros t Hin. apply Hl2.
    eapply elem_of_submseteq; [exact Hin|]. apply sublist_submseteq, sublist_delete.
  - by apply linv_approve.
  - destruct (reject_begin _ _ _ _) as [k|]; [|done]. by apply linv_add_task.
  - destruct (w_tasks w !! n) as [[| | |k| |]|] eqn:Ht; try done. unfold reject_finish. simpl.
    destruct (dict_get k (w_runs w)) as [r|] eqn:Hg; [|apply Hd]. apply linv_audit. apply (linv_put _ _ _ r); [apply Hd|done..].
  - by apply linv_execute_begin.
  - destruct (w_tasks w !! n) as [[| | | |k u x|]|] eqn:Ht; try done. apply linv_execute_finish; [apply Hd|exact (Htask n _ Ht)|done].
  - unfold execute_end. destruct (dict_get k (w_runs w)); [|done]. destruct (get_by_source _ _ _) as [[id ?]|]; [|done]. by apply (linv_frame w).
  - destruct (snd _); [|done]. by apply linv_add_task.
  - destruct (w_tasks w !! n) as [[| | | | |k acc reason]|] eqn:Ht; try done. apply linv_respond_finish, Hd.
  - destruct (find_run parse_uuid run_id w) as [[k r]|] eqn:Hk; [|done]. apply find_run_inv in Hk as [_ Hg]. by apply linv_maybe_act.
  - destruct (find_run parse_uuid run_id w) as [[k r]|] eqn:Hk; [|done]. apply find_run_inv in Hk as [_ Hg].
    destruct (refresh_token _ _ _ _ _ _ _) as [t|]; [|done]. by apply (linv_put _ _ _ r).
  - destruct (dict_get k (w_runs w)) as [r|] eqn:Hg; [|done]. case_decide; [done|]. by apply (linv_put _ _ _ r).
Qed.

(** Runs nest no deeper than the limits: however calls interleave, as long as a follow-up is linked to its parent before anything builds on it, every run has a parent chain that ends at a root, is never refused as a cycle, and is no longer than the greater of the delegation limit and the follow-up limit; chains of replays end too, are never refused as a cycle, and stay within the replay limit. *)
Lemma lineage_bounded w1 l k r :
  empty w1 -> obeys orderly w1 l -> dict_get k (w_runs (acts l w1)) = Some r ->
  (exists chain, load_parent_chain k r (w_runs (acts l w1)) = Some (Ok chain) /\
     (0 < D -> Z.of_nat (length chain) - 1 <= Z.max D (s_max_chain cfg))) /\
  (exists n, depth_is r_replayed_from (w_runs (acts l w1)) k n /\ (0 < R -> Z.of_nat n <= R)) /\
  (enforce_replay_guardrails (s_limits cfg) parse_uuid k r (w_runs (acts l w1)) = Some (Ok tt) \/
   enforce_replay_guardrails (s_limits cfg) parse_uuid k r (w_runs (acts l w1)) = Some (Err replay_depth_exceeded)).
Proof.
  intros (Hr & Ht & Hj & _) Ho. assert (H : linv (acts l w1)).
  { revert Ho. induction l as [|a l IH] using rev_ind; intros Ho.
    - split; simpl; unfold lineage; rewrite ?Hr, ?Ht, ?Hj; intros * Hin; try done; by apply not_elem_of_nil in Hin.
    - apply obeys_app in Ho as [Ho [Ha _]]. unfold AgentRuns.acts. rewrite fold_left_app. apply linv_act; [by apply IH|done]. }
  set (w := acts l w1) in *. clearbody w. intros Hg. split_and!.
  - destruct (linv_parents _ H k r Hg) as (n & Hd & Hb). destruct (load_parent_chain_depth _ _ _ _ Hd Hg) as (chain & Hc & Hl).
    exists chain. split; [done|]. intros HD. unfold depth_bound in Hb. rewrite (proj2 (Z.ltb_lt 0 D) HD) in Hb.
    specialize (Hb _ eq_refl). rewrite Hl. lia.
  - destruct (linv_replays _ H k r Hg) as (n & Hd & Hb). exists n. split; [done|]. intros HR. unfold replay_bound in Hb.
    rewrite (proj2 (Z.ltb_lt 0 R) HR) in Hb. specialize (Hb _ eq_refl). lia.
  - destruct (linv_replays _ H k r Hg) as (n & Hd & _). destruct (replay_guard_total (s_limits cfg) parse_uuid _ _ _ Hg) as [x Hx].
    rewrite Hx. destruct (replay_walk_depth (s_limits cfg) parse_uuid (w_runs w) n k r (S (S (length (w_runs w)))) [] 0) with (x := x)
      as [[-> _]| -> ]; [|done|done|by intros s m Hs%not_elem_of_nil|by intros s Hs%not_elem_of_nil|done|by left|by right].
    intros k' r' o Hg' Hro. pose proof (linv_ids _ H k' r' o Hg' Hro) as Hp. split; [|done]. intros ->. congruence.
Qed.
End Authority.

(** ** Concrete runs *)

Module Demo.
Definition uuid (s : string) : option string := if decide (s = "") then None else Some s.

Lemma uuid_canonical s k : uuid s = Some k -> uuid k = Some k.
Proof. unfold uuid. case_decide; [done|]. intros [= <-]. by rewrite decide_False. Qed.

Definition plan : pyval :=
  VDict [("steps", VList [VDict [("tool", VStr "mail.send"); ("risk_level", VStr "low")]]); ("overall_risk", VStr "low")].
Definition call (name : string) : option pyval := Some plan.
Definition cfg (handshake : bool) : settings :=
  Settings (limits_of (fun _ => None)) handshake (Planner "plan" "" "" "nodus_vm" false true) true 3 5.
Definition go (now : Z) (ids : string) (trust : option trust_settings) : io :=
  Io now "k1" (fun n => ids +:+ pretty n) trust true true.

Notation act := (act uuid Toy.reg Toy.hmac Toy.iso Toy.render (fun _ => None) (fun _ => None) (cfg false)).
Notation acts := (acts uuid Toy.reg Toy.hmac Toy.iso Toy.render (fun _ => None) (fun _ => None) (cfg false)).

Definition start (ags : agents) : world := World [] ags [] [] [] [] [] [].
Definition helper : agents := [("helper", Agent ["send"; "network"; "execute_flow"] (VDict []) (1 # 10) "healthy" (Some 0))].

(** A run that the owner's settings approve, and one the owner approves. *)
Definition auto_run : list action :=
  [ACreate (go 1 "a" (Some Toy.trust)) "u" "send mail" (Some "t1") call; AInsert 0 (go 1 "a" (Some Toy.trust)); AMint 0 (go 2 "a" (Some Toy.trust));
   AExecute (go 3 "b" None) "a0" "u" ["send"] None; AExecuteWrite 0 (go 4 "c" None) None VNone].
Definition manual_run : list action :=
  [ACreate (go 1 "a" None) "u" "send mail" (Some "t1") call; AInsert 0 (go 1 "a" None); AApprove (go 2 "m" None) "a0" "u";
   AExecute (go 3 "b" None) "a0" "u" ["send"] None; AExecuteWrite 0 (go 4 "c" None) None VNone].

Definition statuses (w : world) : list (string * string) := map (fun kr : string * run => (kr.1, r_status kr.2)) (w_runs w).

Example auto_run_executes : statuses (acts auto_run (start [])) = [("a0", "executing")] /\ length (w_executions (acts auto_run (start []))) = 1%nat.
Proof. by vm_compute. Qed.

Example manual_run_executes : statuses (acts manual_run (start [])) = [("a0", "executing")] /\ length (w_executions (acts manual_run (start []))) = 1%nat.
Proof. by vm_compute. Qed.

(** With an agent that suits the plan better, the run is delegated to it. *)
Example delegated : statuses (acts manual_run (start helper)) = [("a0", "delegated"); ("c0", "approved")].
Proof. by vm_compute. Qed.

(** What a row says, for the examples below. *)
Definition status_of (k : string) (w : world) : string := from_option r_status "" (dict_get k (w_runs w)).
Definition started (w : world) : list string := map fst (w_executions w).

Definition approved_run : list action := take 3 manual_run.
Definition execute_twice : list action :=
  [AExecute (go 3 "b" None) "a0" "u" ["send"] None; AExecute (go 3 "b" None) "a0" "u" ["send"] None;
   AExecuteWrite 0 (go 4 "c" None) None VNone; AExecuteWrite 0 (go 5 "d" None) None VNone].
End Demo.

Ltac fresh_step := cbn [fresh_ids]; first [exact I | (split; [|split]; [vm_compute; reflexivity|vm_compute; reflexivity|vm_compute; discriminate])].
Ltac run_steps := cbn [obeys Demo.manual_run take app]; repeat (split; [fresh_step|]); exact I.

Lemma no_unapproved_execution_witness :
  exists t r, ("a0", t) ∈ w_executions (Demo.acts Demo.manual_run (Demo.start [])) /\
    dict_get "a0" (w_runs (Demo.acts Demo.manual_run (Demo.start []))) = Some r /\
    token_ok Demo.uuid Toy.reg Toy.hmac Toy.iso Toy.render (fun _ => None) (fun _ => None) (Demo.cfg false) (Demo.start []) Demo.manual_run (w_runs (Demo.acts Demo.manual_run (Demo.start []))) "a0" r t.
Proof.
  assert (Hx : exists t, w_executions (Demo.acts Demo.manual_run (Demo.start [])) = [("a0", t)]) by (eexists; vm_compute; reflexivity).
  destruct Hx as [t Hx].
  destruct (no_unapproved_execution Demo.uuid Toy.reg Toy.hmac Toy.iso Toy.render (fun _ => None) (fun _ => None) (Demo.cfg false)
    Demo.uuid_canonical (Demo.start []) Demo.manual_run "a0" t) as (r & Hr & Ht).
  - split_and!; reflexivity.
  - run_steps.
  - rewrite Hx. apply list_elem_of_singleton. reflexivity.
  - exists t, r. split_and!; [rewrite Hx; apply list_elem_of_singleton; reflexivity|exact Hr|exact Ht].
Defined.

Lemma delegation_never_escalates_witness :
  exists c, dict_get "c0" (w_runs (Demo.acts Demo.manual_run (Demo.start Demo.helper))) = Some c /\ r_parent c = Some "a0" /\
    exists g a, grants_of (r_token c) = Some ("c0", "u", g, a) /\ a <> [].
Proof.
  assert (Hc : exists c, dict_get "c0" (w_runs (Demo.acts Demo.manual_run (Demo.start Demo.helper))) = Some c /\ r_token c <> VNone)
    by (eexists; split; [vm_compute; reflexivity|vm_compute; discriminate]).
  destruct Hc as (c & Ec & Hn).
  assert (Ht : exists u sel m, w_tasks (Demo.acts (take 4 Demo.manual_run) (Demo.start Demo.helper)) !! 0%nat = Some (TExec "a0" u (XDelegate sel m)))
    by (eexists _, _, _; vm_compute; reflexivity).
  destruct Ht as (u & sel & m & Et).
  destruct (delegation_never_escalates Demo.uuid Toy.reg Toy.hmac Toy.iso Toy.render (fun _ => None) (fun _ => None) (Demo.cfg false)
    Demo.uuid_canonical (Demo.start Demo.helper) (take 4 Demo.manual_run) 0 (Demo.go 4 "c" None) None VNone "a0" u sel m c)
    as (r & Hr & Hp & _ & _ & Ht); [split_and!; reflexivity|run_steps|exact Et|exact Ec|].
  assert (Hur : option_map r_user (dict_get "a0" (w_runs (Demo.acts (take 4 Demo.manual_run) (Demo.start Demo.helper)))) = Some "u")
    by (vm_compute; reflexivity).
  rewrite Hr in Hur. injection Hur as Hur. rewrite Hur in Ht.
  destruct Ht as [E|(g & a & Hg & Hne & _)]; [contradiction|]. exists c. split_and!; [exact Ec|exact Hp|]. exists g, a. split; [exact Hg|exact Hne].
Defined.

Lemma lineage_bounded_witness :
  exists c chain, dict_get "c0" (w_runs (Demo.acts Demo.manual_run (Demo.start Demo.helper))) = Some c /\
    load_parent_chain "c0" c (w_runs (Demo.acts Demo.manual_run (Demo.start Demo.helper))) = Some (Ok chain) /\ Z.of_nat (length chain) - 1 <= 3.
Proof.
  assert (Hc : exists c, dict_get "c0" (w_runs (Demo.acts Demo.manual_run (Demo.start Demo.helper))) = Some c) by (eexists; vm_compute; reflexivity).
  destruct Hc as (c & Ec).
  destruct (lineage_bounded Demo.uuid Toy.reg Toy.hmac Toy.iso Toy.render (fun _ => None) (fun _ => None) (Demo.cfg false)
    Demo.uuid_canonical eq_refl (Demo.start Demo.helper) Demo.manual_run "c0" c) as [(chain & Hc & Hl) _]; [split_and!; reflexivity| |exact Ec|].
  - cbn [obeys Demo.manual_run]. repeat (split; [split; [fresh_step|exact I]|]). exact I.
  - exists c, chain. split_and!; [exact Ec|exact Hc|]. apply Hl. reflexivity.
Defined.

(** ** What interleaving and labels allow *)

(** Two callers that both find the run approved both execute it. *)
Example executed_twice : Demo.started (Demo.acts (Demo.approved_run ++ Demo.execute_twice) (Demo.start [])) = ["a0"; "a0"].
Proof. by vm_compute. Qed.

(** Delegated by both, it has two children where the limit is one. *)
Example child_limit_passed :
  let cfg := Settings (Limits 6 1 4 3 1) false (s_planner (Demo.cfg false)) true 3 5 in
  Demo.statuses (acts Demo.uuid Toy.reg Toy.hmac Toy.iso Toy.render (fun _ => None) (fun _ => None) cfg
    (Demo.approved_run ++ Demo.execute_twice) (Demo.start Demo.helper)) = [("a0", "delegated"); ("c0", "approved"); ("d0", "approved")].
Proof. by vm_compute. Qed.

(** A rejection that read the run before its approval marks it rejected while it executes. *)
Example rejected_while_executing :
  let w := Demo.acts (take 2 Demo.manual_run ++ [AReject "a0" "u"] ++
    [AApprove (Demo.go 2 "m" None) "a0" "u"; AExecute (Demo.go 3 "b" None) "a0" "u" ["send"] None;
     AExecuteWrite 1 (Demo.go 4 "c" None) None VNone; ARejectWrite 0 (Demo.go 5 "e" None)]) (Demo.start []) in
  Demo.status_of "a0" w = "rejected" /\ Demo.started w = ["a0"].
Proof. by vm_compute. Qed.

(** A run approved by the settings, or a delegated child, that is never executed stays approved: the
    watchdog selects by the time of approval, which neither has. *)
Example approved_not_recovered :
  orphaned_approved 1000000000 true (Demo.acts (take 3 Demo.auto_run) (Demo.start [])) = [] /\
  Demo.status_of "a0" (Demo.acts (take 3 Demo.auto_run) (Demo.start [])) = "approved" /\
  orphaned_approved 1000000000 true (Demo.acts Demo.manual_run (Demo.start Demo.helper)) = [] /\
  orphaned_approved 1000000000 true (Demo.acts Demo.approved_run (Demo.start [])) = [("a0", "u")].
Proof. by vm_compute. Qed.

(** A step whose risk is none of the three labels counts as high when the greatest is sought and as
    low when it is compared: a plan with a high step after it keeps its own low risk. *)
Example unknown_risk_hides_high :
  let step r := VDict [("tool", VStr "mail.send"); ("risk_level", VStr r)] in
  option_map (py_get "overall_risk") (raise_overall_risk [("steps", VList [step "critical"; step "high"]); ("overall_risk", VStr "low")])
  = Some (VStr "low").
Proof. by vm_compute. Qed.

(** The request of a delegation goes to the first of the ranking, the child is the selected agent's. *)
Example request_sent_elsewhere :
  let idle := Agent ["send"; "network"; "execute_flow"] (VDict []) 0 "healthy" (Some 0) in
  let busy := Agent ["send"; "network"; "execute_flow"] (VDict []) (1 # 10) "healthy" (Some 0) in
  let w := Demo.acts Demo.manual_run (Demo.start [("idle", idle); ("busy", busy)]) in
  (dict_get "c0" (w_runs w) ≫= r_spawned_by) = Some "busy" /\
  map (fun e => py_get "recipient_agent_id" (ev_payload e)) (w_events w) = [VStr "idle"].
Proof. by vm_compute. Qed.

(** A child that awaits its delegate does not count as an active child of that agent. *)
Example awaiting_child_not_counted :
  let child s := match dict_get "c0" (w_runs (Demo.acts Demo.manual_run (Demo.start Demo.helper))) with
                 | Some c => [("c0", set_status s c)] | None => [] end in
  let parent := take 1 (w_runs (Demo.acts Demo.manual_run (Demo.start Demo.helper))) in
  match parent with
  | [(k, r)] => (enforce_delegation_guardrails (s_limits (Demo.cfg true)) k r (Some "helper") None (parent ++ child "awaiting_delegation"),
                 enforce_delegation_guardrails (s_limits (Demo.cfg true)) k r (Some "helper") None (parent ++ child "approved"))
  | _ => (None, None)
  end = (Some (Ok 0), Some (Err duplicate_child_run)).
Proof. by vm_compute. Qed.
