(* ===== verification/Tools.v ===== *)
(** * Tools of agents (src/AINDY/agents/tool_registry.py, tool_worker.py)

    The registry of tools with the checks of a registration and the sweep over
    declared fallbacks; and the execution of a tool through its gates: the
    argument contract, the capability token and the run's end (Capabilities,
    Cancellation), the policies and rates of its capabilities (Egress), the effect
    ledger with its lock (EffectLedger), the isolation class of the host
    (ExecEnv), the cancellation of the run, and the call of its function, in this
    process or in a worker.

    The application state the function acts on is a type parameter; the answers
    of the environment during one call are a record. The worker process is given
    by its fate: not started, lost while running, or answering. Plugin loading,
    suggestions, metrics, tracing spans and the deferral of observations to a
    parent process are left out. *)

From S2P Require Import Prelude PyStr PyVal Dispatcher Syscalls RetryPolicy EffectLedger Cancellation ResourceManager ExecEnv Egress Capabilities.
From Stdlib Require Import QArith.
Local Open Scope string_scope.
Local Open Scope Z_scope.
Local Open Scope list_scope.

Section Tools.
Context {A : Type}.
Variable render : pyval -> string.

(** ** The registry *)

(** What a function returns: a value that marshals as JSON, or one that does not. *)
Inductive returned := Json (v : pyval) | Opaque (is_dict : bool).
(** [Raises msg c]: an exception with the text [msg], [c] its [failure_class] attribute. *)
Inductive fn_outcome := Returns (r : returned) | Raises (msg : string) (class : option string).

Record tool_entry := Tool {
  te_fn : pyval -> string -> A -> A * fn_outcome;
  te_risk : string;
  te_guarantee : string;
  te_isolation : option string;
  te_env_spec : pyval;
  te_degraded_variant : option string;
  te_on_denial : string;
  te_args_schema : option (list (string * pyval));
  te_result_schema : option (list (string * pyval));
  te_effect_syscall : option string }.

Definition tools : Type := list (string * tool_entry).

Definition ON_DENIAL_KINDS : list string := ["fail"; "wait"].

Inductive registration_error :=
| UnknownIsolation | BadEnvSpec | BadVariant | VariantIsItself | UnknownOnDenial | UnknownGuarantee
| BadArgsSchema | BadResultSchema.

Definition string_list (v : pyval) : option (list string) := match v with VList l => all_strings l | _ => None end.

(** [_check_args_schema_shape] *)
Definition args_schema_shape (schema : pyval) : bool :=
  match schema with
  | VDict d =>
      match py_get "properties" d with
      | VNone => match py_get "required" d with VNone => true | r => bool_decide (is_Some (string_list r)) end
      | VDict props =>
          match py_get "required" d with
          | VNone => true
          | r => match string_list r with
                 | Some req => forallb (fun x => dict_mem x props) req
                 | None => false
                 end
          end
      | _ => false
      end
  | _ => false
  end.

(** [_check_result_schema_shape]: every node the walk of a path may meet. *)
Fixpoint result_schema_shape (schema : pyval) : bool :=
  match schema with
  | VDict d =>
      forallb (fun kv =>
        if decide (kv.1 = "properties") then
          match kv.2 with
          | VNone => true
          | VDict props => forallb (fun p => result_schema_shape p.2) props
          | _ => false
          end
        else if decide (kv.1 = "required") then is_None kv.2 || bool_decide (is_Some (string_list kv.2))
        else if decide (kv.1 = "items") then is_None kv.2 || result_schema_shape kv.2
        else if decide (kv.1 = "additionalProperties") then
          match kv.2 with VNone | VBool _ => true | VDict _ => result_schema_shape kv.2 | _ => false end
        else true) d
  | _ => false
  end.

(** The arguments of [register_tool] that are checked or kept. *)
Record declaration := Declaration {
  dc_fn : pyval -> string -> A -> A * fn_outcome;
  dc_risk : string;
  dc_guarantee : option string;
  dc_isolation : option string;
  dc_env_spec : pyval;
  dc_variant : pyval;
  dc_on_denial : string;
  dc_args_schema : pyval;
  dc_result_schema : pyval;
  dc_effect_syscall : option string }.

Definition dict_or_nothing (v : pyval) : option (list (string * pyval)) :=
  match v with VDict (kv :: d) => Some (kv :: d) | _ => None end.

Definition register_tool (name : string) (d : declaration) (ts : tools) : result registration_error tools :=
  let guarantee := str_upper (default "AT_LEAST_ONCE" (dc_guarantee d)) in
  if match dc_isolation d with Some i => bool_decide (i ∉ ASSURANCE_ORDER) | None => false end then Err UnknownIsolation
  else if negb (is_None (dc_env_spec d)) && negb (is_Ok (from_dict (dc_env_spec d))) then Err BadEnvSpec
  else match (match dc_variant d with
              | VNone => Ok None
              | VStr v => if decide (str_strip v = "") then Err BadVariant
                          else if decide (str_strip v = name) then Err VariantIsItself else Ok (Some (str_strip v))
              | _ => Err BadVariant
              end) with
       | Err e => Err e
       | Ok variant =>
           if decide (dc_on_denial d ∉ ON_DENIAL_KINDS) then Err UnknownOnDenial
           else if decide (guarantee ∉ VALID_EXECUTION_GUARANTEES) then Err UnknownGuarantee
           else if negb (is_None (dc_args_schema d)) && negb (args_schema_shape (dc_args_schema d)) then Err BadArgsSchema
           else if negb (is_None (dc_result_schema d)) && negb (result_schema_shape (dc_result_schema d)) then Err BadResultSchema
           else Ok (dict_set name (Tool (dc_fn d) (dc_risk d) guarantee (dc_isolation d) (dc_env_spec d) variant (dc_on_denial d)
                       (dict_or_nothing (dc_args_schema d)) (dict_or_nothing (dc_result_schema d)) (dc_effect_syscall d)) ts)
       end.

(** What the capability service reads of an entry. *)
Definition meta_of (t : tool_entry) : tool_meta :=
  ToolMeta (te_risk t) (default "" (te_degraded_variant t)) (te_on_denial t).

Definition get_tool_risk (name : string) (ts : tools) : string :=
  match dict_get name ts with Some t => te_risk t | None => "high" end.

(** ** Declared fallbacks *)

Inductive variant_problem :=
| VariantNotRegistered (tool variant : string)
| VariantChained (tool variant : string)
| VariantUnevaluable (tool variant : string)
| VariantNotNarrower (tool variant : string).

Definition check_variant (caps : string -> list string) (ts : tools) (name : string) : list variant_problem :=
  match dict_get name ts with
  | None => []
  | Some t =>
      match te_degraded_variant t with
      | None | Some "" => []
      | Some v =>
          match dict_get v ts with
          | None => [VariantNotRegistered name v]
          | Some target =>
              match te_degraded_variant target with
              | Some (String _ _) => [VariantChained name v]
              | _ =>
                  match caps name with
                  | [] => [VariantUnevaluable name v]
                  | own => if bool_decide (caps v ⊆ own /\ ~ own ⊆ caps v) then [] else [VariantNotNarrower name v]
                  end
              end
          end
      end
  end.

Definition validate_degraded_variants (caps : string -> list string) (ts : tools) : list variant_problem :=
  flat_map (check_variant caps ts) (py_sorted (dict_keys ts)).

(** ** The argument contract *)

(** The type a property declares; [None] is the exception of a property that is not
    an object or of a type that cannot be looked up. *)
Definition property_type (spec : pyval) : option (option string) :=
  match spec with
  | VDict d => match py_get "type" d with
               | VStr s => Some (Some s)
               | VList (_ :: _) | VDict (_ :: _) => None
               | _ => Some None
               end
  | _ => None
  end.

(** [validate_payload] on a declared schema. *)
Definition validate_declared (schema payload : list (string * pyval)) : option (list schema_error) :=
  let required := match py_get "required" schema with VList l => default [] (all_strings l) | _ => [] end in
  let props := match py_get "properties" schema with VDict d => d | _ => [] end in
  option_map (fun tys => flat_map (check_required payload) required ++ flat_map (check_property payload) tys)
    (collect (map (fun p => option_map (fun t => (p.1, t)) (property_type p.2))
                  (base.filter (fun p : string * pyval => dict_mem p.1 payload = true) props))).

Inductive args_error := NotAnObject (type : string) | Declared (e : schema_error).

Definition validate_tool_args (t : tool_entry) (args : pyval) : option (list args_error) :=
  match te_args_schema t with
  | None => Some []
  | Some schema =>
      option_map (fun errors =>
        match args with VDict _ | VNone => map Declared errors | _ => NotAnObject (type_name args) :: map Declared errors end)
        (validate_declared schema (match args with VDict d => d | _ => [] end))
  end.

(** ** The environment of an isolated tool *)

Definition effective_spec (canonical : string -> string) (t : tool_entry) : option spec :=
  if py_truth (te_env_spec t)
  then match (match from_dict (te_env_spec t) with Ok d => clamp_to_floor canonical d tool_floor | Err e => Err e end) with
       | Ok (effective, _) => Some effective
       | Err _ => None
       end
  else None.

Definition no_confinement : worker_kwargs := WorkerKwargs None None None.

Definition TOOL_WORKER_TIMEOUT : Q := 120 # 1.

(** [_worker_confinement]: the arguments of the worker process, and the scratch
    directory when one is kept. *)
Definition worker_confinement (canonical : string -> string) (environ : list (string * string)) (scratch : string) (t : tool_entry) :
    worker_kwargs * option string :=
  match effective_spec canonical t with
  | None => (no_confinement, None)
  | Some s =>
      match subprocess_confinement environ s scratch TOOL_WORKER_TIMEOUT with
      | WorkerKwargs None None None => (no_confinement, None)
      | k => (k, Some scratch)
      end
  end.

Definition filesystem_decision (canonical : string -> string) (t : tool_entry) (scratch : option string) : option fs_decision :=
  match effective_spec canonical t with Some s => resolve_filesystem_decision s scratch | None => None end.

Definition tool_network_mode (canonical : string -> string) (t : tool_entry) : string :=
  match effective_spec canonical t with Some s => a_network (s_authority s) | None => "open" end.

(** ** Envelopes *)

Inductive tool_error :=
| ToolNotFound | TokenRequired | RunIdRequired
| ArgsMismatch (errors : list args_error)
| CapabilityDenied (e : token_error)
| PolicyViolation (v : violation)
| RateExceeded (v : rate_violation)
| EnforcementFailed
| LockRefused | GateRefused | LiveRefused
| HeldError (status : string)
| IsolationRefused (declared host : string)
| RunCancelled
| ToolRaised (msg : string)
| WorkerNotStarted (msg : string)
| WorkerLost (how : string)
| WorkerError (msg : string).

Record tool_envelope := ToolEnvelope {
  tv_success : bool;
  tv_result : returned;
  tv_error : option tool_error;
  tv_class : option string;
  tv_cancelled : bool;
  tv_replay : bool;
  tv_egress : option (string * string) }.

Definition nothing : returned := Json VNone.
Definition refuse (e : tool_error) (class : string) : tool_envelope :=
  ToolEnvelope false nothing (Some e) (Some class) false false None.
Definition failed (e : tool_error) (class : option string) : tool_envelope := ToolEnvelope false nothing (Some e) class false false None.
Definition done_with (r : returned) : tool_envelope := ToolEnvelope true r None None false false None.
Definition with_egress (e : option (string * string)) (v : tool_envelope) : tool_envelope :=
  ToolEnvelope (tv_success v) (tv_result v) (tv_error v) (tv_class v) (tv_cancelled v) (tv_replay v) e.

Definition declared_failure_class (c : option string) : option string :=
  match c with Some x => if decide (x ∈ FAILURE_CLASSES) then Some x else None | None => None end.

(** ** The worker *)

(** [tool_worker.run_one] after its guards are installed: its reply. *)
Inductive worker_reply := ReplyOk (v : pyval) | ReplyError (msg : string) (class : option string).

Definition run_resolved (wts : tools) (tool : string) (args : pyval) (user : string) (app : A) : A * worker_reply :=
  match dict_get tool wts with
  | None => (app, ReplyError "not registered in this worker" None)
  | Some t =>
      match te_fn t args user app with
      | (app, Returns (Json v)) => (app, ReplyOk v)
      | (app, Returns (Opaque _)) => (app, ReplyError "does not marshal" None)
      | (app, Raises msg class) => (app, ReplyError msg class)
      end
  end.

(** What becomes of the worker: it cannot be started, it is lost while running
    (killed for a cancelled run or its budget, a non-zero exit or no readable output), having
    acted in some way, or it answers. *)
Inductive worker_fate :=
| CannotStart (msg : string)
| Lost (how : string) (class : string) (cancelled : bool) (acted : A -> A)
| Answers.

Definition mid_call_outcome (effectful : bool) (v : tool_envelope) : tool_envelope :=
  if effectful then ToolEnvelope (tv_success v) (tv_result v) (tv_error v) (Some "unknown") (tv_cancelled v) (tv_replay v) (tv_egress v)
  else v.

(** [_run_tool_out_of_process]. [Popen] has no [timeout] argument: a confinement that
    sets one makes the start fail. *)
Definition run_tool_out_of_process (kwargs : worker_kwargs) (fate : worker_fate) (wts : tools) (tool : string) (args : pyval) (user : string)
    (egress : option decision) (effectful : bool) (app : A) : A * tool_envelope :=
  match (match wk_timeout kwargs with Some _ => CannotStart "TypeError: unexpected keyword argument 'timeout'" | None => fate end) with
  | CannotStart msg => (app, refuse (WorkerNotStarted msg) "transient")
  | Lost how class cancelled acted =>
      (acted app, mid_call_outcome effectful (ToolEnvelope false nothing (Some (WorkerLost how)) (Some class) cancelled false None))
  | Answers =>
      let '(app, reply) := run_resolved wts tool args user app in
      let mechanism := option_map (fun d => (d_mode d, if enforces d then "socket_guard:worker" else "none")) egress in
      (app, with_egress mechanism
              match reply with
              | ReplyOk v => done_with (Json v)
              | ReplyError msg class => failed (WorkerError msg) (declared_failure_class class)
              end)
  end.

(** ** One call *)

Record tool_call := ToolCall {
  tc_tool : string;
  tc_args : pyval;
  tc_user : string;
  tc_run : option string;
  tc_token : option pyval;
  tc_step : option Z }.

Inductive lock_answer := LockAcquired | LockTimedOut | LockUnsupported | LockFailed.

(** What the environment answers during one call. *)
Record tool_env := ToolEnv {
  x_now : Z;
  x_now_ms : Z;
  x_cancel_ttl : Z;
  x_args_mode : string;
  x_durable : bool;
  x_idempotency : bool;
  x_strict : bool;
  x_isolation : bool;
  x_egress : bool;
  x_keys : list string;
  x_caps : registry;
  x_policies : policies;
  x_run_read : status_read;
  x_cancel_read : status_read;
  x_events_up : bool;
  x_lock : lock_answer;
  x_gate_up : bool;
  x_finalize_up : bool;
  x_units : list unit_row;
  x_session : option string;
  x_fresh_id : string;
  x_host : host_answer;
  x_canonical : string -> string;
  x_environ : list (string * string);
  x_scratch : string;
  x_worker_tools : tools;
  x_fate : worker_fate }.

Inductive tool_event := EvDenied (tool : string) | EvAllowed (tool : string) (aid : option string) | EvPolicyDenied (tool : string).

Record tool_world := ToolWorld {
  tw_ledger : ledger;
  tw_rates : list (string * (Z * Z));
  tw_cache : cache;
  tw_events : list tool_event;
  tw_app : A }.

Definition set_ledger (l : ledger) (w : tool_world) : tool_world := ToolWorld l (tw_rates w) (tw_cache w) (tw_events w) (tw_app w).
Definition set_rates (r : list (string * (Z * Z))) (w : tool_world) : tool_world := ToolWorld (tw_ledger w) r (tw_cache w) (tw_events w) (tw_app w).
Definition set_cache (c : cache) (w : tool_world) : tool_world := ToolWorld (tw_ledger w) (tw_rates w) c (tw_events w) (tw_app w).
Definition emit (v : tool_event) (w : tool_world) : tool_world := ToolWorld (tw_ledger w) (tw_rates w) (tw_cache w) (tw_events w ++ [v]) (tw_app w).
Definition set_app (a : A) (w : tool_world) : tool_world := ToolWorld (tw_ledger w) (tw_rates w) (tw_cache w) (tw_events w) a.

Variable parse_uuid : string -> option string.
Variable hmac : string -> string -> string.
Variable parse_iso : string -> option Z.
Variable compute_action_id : string -> pyval -> string -> string.
Variable input_hash : pyval -> string.
Variable bracketed_ok : string -> bool.

Definition truthy (s : option string) : bool := match s with Some r => bool_decide (r <> "") | None => false end.

(** [args or {}] *)
Definition args_or_empty (args : pyval) : pyval := py_or args (VDict []).

Definition tool_effect_scope (run : string) (step : option Z) : string :=
  match step with None => run | Some i => run +:+ "#step:" +:+ render (VInt i) end.

Definition is_at_most_once (t : tool_entry) : bool := bool_decide (str_upper (te_guarantee t) = AT_MOST_ONCE).
Definition is_gated (t : tool_entry) : bool := bool_decide (str_upper (te_guarantee t) ∈ GATED_GUARANTEES).

(** Whether the effect gate engages. *)
Definition engages (e : tool_env) (c : tool_call) (t : tool_entry) : bool :=
  (is_gated t || x_durable e) && truthy (tc_run c) && (x_idempotency e || x_durable e || is_at_most_once t).

Definition action_of (c : tool_call) : string :=
  compute_action_id (tc_tool c) (args_or_empty (tc_args c)) (tool_effect_scope (default "" (tc_run c)) (tc_step c)).

(** *** Authority *)

Definition denial_class (err : token_error) : string :=
  match err with RunEnded "cancelled" => "cancelled" | _ => "permission" end.

Definition domains_of_policies (ps : policies) (caps : list string) : list string :=
  flat_map (fun c => match get_capability_policy c ps with Some p => default [] (p_domains p) | None => [] end) caps.

(** The capability block: an early answer, or the domains the guard is to allow. *)
Definition authorize (e : tool_env) (c : tool_call) (run : string) (token : pyval) (aid : option string) (w : tool_world) :
    tool_world * (tool_envelope + list string) :=
  let '(cache, ended) := run_authority_ended (x_now_ms e) (x_cancel_ttl e) run (x_run_read e) (tw_cache w) in
  let w := set_cache cache w in
  let broken := inl (refuse EnforcementFailed "fatal") in
  if negb (x_events_up e) then (w, broken)
  else
    match check_tool_capability (x_caps e) hmac parse_iso render ended (x_keys e) (x_now e) token run (tc_user c) (tc_tool c) with
    | Err (err, _) =>
        (emit (EvDenied (tc_tool c)) w,
         inl (ToolEnvelope false nothing (Some (CapabilityDenied err)) (Some (denial_class err))
                (bool_decide (denial_class err = "cancelled")) false None))
    | Ok v =>
        let w := emit (EvAllowed (tc_tool c) aid) w in
        if has_capability_policies (x_policies e) then
          let caps := get_capabilities_for_tool (x_caps e) (tc_tool c) in
          match enforce_capability_policy bracketed_ok (x_policies e) caps (tc_args c) with
          | None => (w, broken)
          | Some (v :: _) => (emit (EvPolicyDenied (tc_tool c)) w, inl (refuse (PolicyViolation v) "permission"))
          | Some [] =>
              let '(rates, over) := enforce_capability_rate (x_policies e) caps (tc_user c) (x_now e) (tw_rates w) in
              let w := set_rates rates w in
              match over with
              | v :: _ => (emit (EvPolicyDenied (tc_tool c)) w, inl (refuse (RateExceeded v) "transient"))
              | [] => (w, inr (domains_of_policies (x_policies e) caps))
              end
          end
        else (w, inr [])
    end.

(** *** The effect gate *)

Definition claim_for (e : tool_env) (c : tool_call) (t : tool_entry) : claim_args :=
  ClaimArgs (tc_tool c) (input_hash (args_or_empty (tc_args c)))
    (if decide (tc_user c = "") then None else Some (tc_user c)) (x_session e)
    (linked_execution_id parse_uuid (x_units e)
       (if truthy (te_effect_syscall t) then Unlinked
        else if truthy (tc_run c) then InRun (default "" (tc_run c)) else NoRun) None None)
    (x_fresh_id e).

Definition held_answer (h : HeldOutcome) : tool_envelope :=
  ToolEnvelope false nothing (Some (HeldError (h_status h))) (Some (if decide (h_status h = "unknown") then "unknown" else "fatal")) false true None.

Definition replayed (cached : pyval) : tool_envelope :=
  ToolEnvelope true (Json (match cached with VDict d => py_get "result" d | _ => VNone end)) None None false true None.

(** An early answer, or whether the call holds the slot of its action. *)
Definition effect_boundary (e : tool_env) (c : tool_call) (t : tool_entry) (w : tool_world) : tool_world * (tool_envelope + bool) :=
  if engages e c t then
    let amo := is_at_most_once t in
    if (x_strict e || amo) && amo && match x_lock e with LockTimedOut | LockFailed => true | _ => false end
    then (w, inl (refuse LockRefused "transient"))
    else if x_gate_up e then
      let '(g, l) := resolve_effect_record (x_now e) (action_of c) (claim_for e c t) (tw_ledger w) in
      let w := set_ledger l w in
      (w, match g with
          | Degraded => if amo then inl (refuse LiveRefused "transient") else inr true
          | Claimed => inr true
          | Replay p => inl (replayed p)
          | HeldReplay h => inl (held_answer h)
          end)
    else (w, if amo then inl (refuse GateRefused "transient") else inr false)
  else (w, inr false).

(** [_finalize_tool_effect], for a call that holds its slot. *)
Definition finalize (e : tool_env) (c : tool_call) (status : string) (payload : pyval) (holds : bool) (w : tool_world) : tool_world :=
  if holds && x_finalize_up e then
    match complete_effect_record (x_now e) (action_of c) status payload (tw_ledger w) with
    | Ok l => set_ledger l w
    | Err _ => w
    end
  else w.

Definition success_payload (r : returned) : pyval :=
  VDict [("result", match r with Json v => v | Opaque _ => VNone end)].
Definition unknown_payload (detail : string) : pyval :=
  held_record_payload (VDict [("result", VNone)]) (Some (unknown_claim [] (Some detail))).

(** *** Running the function *)

Definition isolation_refusal (e : tool_env) (t : tool_entry) : option tool_envelope :=
  match te_isolation t with
  | None | Some "" => None
  | Some declared =>
      let host := (host_assurance (x_host e)).1 in
      if assurance_rank (Some declared) <=? assurance_rank (Some host) then None
      else Some (refuse (IsolationRefused declared host) "fatal")
  end.

Definition error_text (v : tool_envelope) : string :=
  match tv_error v with Some (WorkerLost how) => how | Some (WorkerError m) => m | Some (WorkerNotStarted m) => m | _ => "" end.

(** The isolated branch. *)
Definition run_isolated (e : tool_env) (c : tool_call) (t : tool_entry) (egress : option decision) (holds : bool) (w : tool_world) :
    tool_world * tool_envelope :=
  let '(kwargs, _) := worker_confinement (x_canonical e) (x_environ e) (x_scratch e) t in
  let '(app, v) := run_tool_out_of_process kwargs (x_fate e) (x_worker_tools e) (tc_tool c) (args_or_empty (tc_args c)) (tc_user c)
                     egress (is_gated t) (tw_app w) in
  let w := set_app app w in
  (if tv_success v then finalize e c "success" (success_payload (tv_result v)) holds w
   else if bool_decide (tv_class v = Some "unknown") then finalize e c "unknown" (unknown_payload (error_text v)) holds w
   else finalize e c "failed" VNone holds w, v).

(** The in-process branch. *)
Definition run_in_process (e : tool_env) (c : tool_call) (t : tool_entry) (egress : option decision) (holds : bool) (w : tool_world) :
    tool_world * tool_envelope :=
  let '(app, o) := te_fn t (tc_args c) (tc_user c) (tw_app w) in
  let w := set_app app w in
  match o with
  | Returns r =>
      (finalize e c "success" (success_payload r) holds w,
       with_egress (option_map (fun d => (d_mode d, if enforces d then "socket_guard" else "none")) egress) (done_with r))
  | Raises msg class =>
      let class := declared_failure_class class in
      (if bool_decide (class = Some "unknown") then finalize e c "unknown" (unknown_payload msg) holds w
       else finalize e c "failed" VNone holds w, failed (ToolRaised msg) class)
  end.

Definition isolated (e : tool_env) (t : tool_entry) : bool := truthy (te_isolation t) && x_isolation e.

Definition run_function (e : tool_env) (c : tool_call) (t : tool_entry) (domains : list string) (holds : bool) (w : tool_world) :
    tool_world * tool_envelope :=
  let egress := if x_egress e then Some (resolve_egress_decision (tool_network_mode (x_canonical e) t) domains) else None in
  match isolation_refusal e t with
  | Some v => (finalize e c "failed" VNone holds w, v)
  | None =>
      let '(cache, cancelled) := is_run_cancelled (x_now_ms e) (x_cancel_ttl e) (tc_run c) (x_cancel_read e) (tw_cache w) in
      let w := set_cache cache w in
      if cancelled
      then (finalize e c "failed" VNone holds w,
            ToolEnvelope false nothing (Some RunCancelled) (Some "cancelled") true false None)
      else if isolated e t then run_isolated e c t egress holds w else run_in_process e c t egress holds w
  end.

(** [execute_tool]; [None] is an exception that escapes it, from a declared schema
    whose properties are not objects. *)
Definition execute_tool (e : tool_env) (ts : tools) (c : tool_call) (w : tool_world) : tool_world * option tool_envelope :=
  match dict_get (tc_tool c) ts with
  | None => (w, Some (refuse ToolNotFound "not_found"))
  | Some t =>
      if truthy (tc_run c) && bool_decide (tc_token c = None) then (w, Some (refuse TokenRequired "permission"))
      else if bool_decide (tc_token c <> None) && negb (truthy (tc_run c)) then (w, Some (refuse RunIdRequired "invalid"))
      else
        match validate_tool_args t (tc_args c) with
        | None => (w, None)
        | Some errors =>
            if bool_decide (errors <> []) && bool_decide (x_args_mode e = "enforce")
            then (w, Some (refuse (ArgsMismatch errors) "invalid"))
            else
              let aid := if engages e c t then Some (action_of c) else None in
              let '(w, authority) := match tc_token c with
                                     | Some token => authorize e c (default "" (tc_run c)) token aid w
                                     | None => (w, inr [])
                                     end in
              match authority with
              | inl v => (w, Some v)
              | inr domains =>
                  match effect_boundary e c t w with
                  | (w, inl v) => (w, Some v)
                  | (w, inr holds) => let '(w, v) := run_function e c t domains holds w in (w, Some v)
                  end
              end
        end
  end.

(** ** Lemmas *)

Lemma not_subseteq_elem (l k : list string) : ~ l ⊆ k -> exists x, x ∈ l /\ x ∉ k.
Proof.
  intros H. destruct (decide (Exists (fun x => x ∉ k) l)) as [(x & ? & ?)%Exists_exists|Hn]; [by exists x|].
  exfalso. apply H. intros x Hx. destruct (decide (x ∈ k)); [done|]. exfalso. apply Hn, Exists_exists. by exists x.
Qed.

Lemma authorize_keeps e c run token aid w :
  tw_ledger (authorize e c run token aid w).1 = tw_ledger w /\ tw_app (authorize e c run token aid w).1 = tw_app w.
Proof.
  unfold authorize. destruct (run_authority_ended _ _ _ _ _) as [ch ended]. destruct (x_events_up e); simpl; [|done].
  destruct (check_tool_capability _ _ _ _ _ _ _ _ _ _ _) as [va|[err g]]; simpl; [|done].
  destruct (has_capability_policies _); [|done].
  destruct (enforce_capability_policy _ _ _ _) as [[|v vs]|]; simpl; try done.
  destruct (enforce_capability_rate _ _ _ _ _) as [rates [|v vs]]; done.
Qed.

Lemma authorize_pass e c run token aid w w' domains : authorize e c run token aid w = (w', inr domains) ->
  (exists va, check_tool_capability (x_caps e) hmac parse_iso render (run_authority_ended (x_now_ms e) (x_cancel_ttl e) run (x_run_read e) (tw_cache w)).2
     (x_keys e) (x_now e) token run (tc_user c) (tc_tool c) = Ok va) /\
  tw_cache w' = (run_authority_ended (x_now_ms e) (x_cancel_ttl e) run (x_run_read e) (tw_cache w)).1 /\
  let caps := get_capabilities_for_tool (x_caps e) (tc_tool c) in
  (has_capability_policies (x_policies e) = true ->
     enforce_capability_policy bracketed_ok (x_policies e) caps (tc_args c) = Some [] /\
     (enforce_capability_rate (x_policies e) caps (tc_user c) (x_now e) (tw_rates w)).2 = []) /\
  domains = (if has_capability_policies (x_policies e) then domains_of_policies (x_policies e) caps else []).
Proof.
  unfold authorize. destruct (run_authority_ended _ _ _ _ _) as [ch ended] eqn:Hr. destruct (x_events_up e); simpl; [|done].
  destruct (check_tool_capability _ _ _ _ _ _ _ _ _ _ _) as [va|[err g]] eqn:Hc; simpl; [|done].
  destruct (has_capability_policies _) eqn:Hp; [|intros [= <- <-]; split; [by exists va|done]].
  destruct (enforce_capability_policy _ _ _ _) as [[|v vs]|] eqn:He; simpl; try done.
  destruct (enforce_capability_rate _ _ _ _ _) as [rates [|v vs]] eqn:Hrate; [|done].
  intros [= <- <-]. split; [by exists va|]. done.
Qed.

Lemma boundary_app e c t w : tw_app (effect_boundary e c t w).1 = tw_app w.
Proof.
  unfold effect_boundary. destruct (engages e c t); [|done]. destruct (_ && _ && _); [done|].
  destruct (x_gate_up e); [|done]. by destruct (resolve_effect_record _ _ _ _) as [[] l].
Qed.

Lemma finalize_app e c status payload holds w : tw_app (finalize e c status payload holds w) = tw_app w.
Proof. unfold finalize. destruct (_ && _); [|done]. by destruct (complete_effect_record _ _ _ _ _). Qed.

(** The ledger rows other than the one of the call's action stay. *)
Definition only_row (aid : string) (l l' : ledger) : Prop := forall k, k <> aid -> dict_get k l' = dict_get k l.

Lemma resolve_only now aid a l : only_row aid l (resolve_effect_record now aid a l).2.
Proof.
  intros k Hk. unfold resolve_effect_record, resolve_seen, resolve_existing_row.
  destruct (dict_get aid l) as [r|]; [|by apply dict_get_set_ne].
  destruct (decide (er_status r = "success")); [done|]. destruct (decide (er_status r ∈ HELD_LEDGER_STATUSES)); [done|].
  destruct (_ && _); [done|]. simpl. by apply dict_get_set_ne.
Qed.

Lemma finalize_only e c status payload holds w : only_row (action_of c) (tw_ledger w) (tw_ledger (finalize e c status payload holds w)).
Proof.
  intros k Hk. unfold finalize, complete_effect_record. destruct (_ && _); [|done]. destruct (decide _); [|done].
  simpl. destruct (dict_get (action_of c) (tw_ledger w)); [|done]. by apply dict_get_set_ne.
Qed.

Lemma boundary_only e c t w : only_row (action_of c) (tw_ledger w) (tw_ledger (effect_boundary e c t w).1).
Proof.
  intros k Hk. unfold effect_boundary. destruct (engages e c t); [|done]. destruct (_ && _ && _); [done|].
  destruct (x_gate_up e); [|done]. pose proof (resolve_only (x_now e) (action_of c) (claim_for e c t) (tw_ledger w) k Hk) as H.
  by destruct (resolve_effect_record _ _ _ _) as [[] l].
Qed.

(** A slot that is finalized. *)
Lemma finalize_row e c status payload w r : x_finalize_up e = true -> status ∈ TERMINAL_EFFECT_STATUSES ->
  dict_get (action_of c) (tw_ledger w) = Some r ->
  exists r', dict_get (action_of c) (tw_ledger (finalize e c status payload true w)) = Some r' /\ er_status r' = status.
Proof.
  intros Hf Hs Hr. unfold finalize, complete_effect_record. rewrite Hf. simpl. rewrite decide_True by done. rewrite Hr. simpl.
  eexists. by rewrite dict_get_set_eq.
Qed.

(** The status the ledger records for an answer. *)
Definition settled_status (v : tool_envelope) : string :=
  if tv_success v then "success" else if bool_decide (tv_class v = Some "unknown") then "unknown" else "failed".

Lemma settled_terminal v : settled_status v ∈ TERMINAL_EFFECT_STATUSES.
Proof.
  unfold settled_status. destruct (tv_success v); [|destruct (bool_decide _)]; apply (bool_decide_unpack _); by vm_compute.
Qed.

(** Every branch finalizes the slot with the status of its answer. *)
Lemma run_function_cases e c t domains holds w : exists w0 payload,
  run_function e c t domains holds w = (finalize e c (settled_status (run_function e c t domains holds w).2) payload holds w0,
                                        (run_function e c t domains holds w).2) /\
  tw_ledger w0 = tw_ledger w.
Proof.
  unfold run_function. destruct (isolation_refusal e t) as [v|] eqn:Hi.
  { exists w, VNone. unfold isolation_refusal in Hi. repeat case_match; simplify_eq; done. }
  destruct (is_run_cancelled _ _ _ _ _) as [ch cancelled]. destruct cancelled; [by exists (set_cache ch w), VNone|].
  destruct (isolated e t).
  - unfold run_isolated. destruct (worker_confinement _ _ _ _) as [kw sc]. destruct (run_tool_out_of_process _ _ _ _ _ _ _ _ _) as [app v].
    exists (set_app app (set_cache ch w)). unfold settled_status. simpl. destruct (tv_success v); [by eexists|]. destruct (bool_decide _); by eexists.
  - unfold run_in_process. destruct (te_fn t _ _ _) as [app [r|msg cl]]; exists (set_app app (set_cache ch w)); unfold settled_status; simpl.
    + by eexists.
    + destruct (bool_decide _); by eexists.
Qed.

Lemma run_function_only e c t domains holds w :
  only_row (action_of c) (tw_ledger w) (tw_ledger (run_function e c t domains holds w).1).
Proof.
  destruct (run_function_cases e c t domains holds w) as (w0 & payload & -> & Hl). intros k Hk. simpl.
  rewrite finalize_only by done. by rewrite Hl.
Qed.

(** What the function did to the application, and what had to hold for it to run. *)
Definition function_effect (e : tool_env) (c : tool_call) (t : tool_entry) (app app' : A) : Prop :=
  if isolated e t
  then exists egress, let '(kw, _) := worker_confinement (x_canonical e) (x_environ e) (x_scratch e) t in
       app' = (run_tool_out_of_process kw (x_fate e) (x_worker_tools e) (tc_tool c) (args_or_empty (tc_args c)) (tc_user c) egress (is_gated t) app).1
  else app' = (te_fn t (tc_args c) (tc_user c) app).1.

(** The host gives the isolation class the tool declares. *)
Definition host_suffices (e : tool_env) (t : tool_entry) : Prop :=
  forall declared, te_isolation t = Some declared -> declared <> "" ->
    assurance_rank (Some declared) <= assurance_rank (Some (host_assurance (x_host e)).1).

Lemma isolation_refusal_None e t : isolation_refusal e t = None -> host_suffices e t.
Proof.
  unfold isolation_refusal. intros H declared Hd Hne. rewrite Hd in H. destruct declared; [done|].
  destruct (_ <=? _) eqn:Hle; [by apply Z.leb_le|done].
Qed.

Lemma run_function_app e c t domains holds w :
  let w' := (run_function e c t domains holds w).1 in
  tw_app w' = tw_app w \/
  host_suffices e t /\ (is_run_cancelled (x_now_ms e) (x_cancel_ttl e) (tc_run c) (x_cancel_read e) (tw_cache w)).2 = false /\
  function_effect e c t (tw_app w) (tw_app w').
Proof.
  unfold run_function, function_effect. destruct (isolation_refusal e t) as [v|] eqn:Hi; [left; simpl; by rewrite finalize_app|].
  destruct (is_run_cancelled _ _ _ _ _) as [ch cancelled]. destruct cancelled; [left; simpl; by rewrite finalize_app|]. right.
  split; [by apply isolation_refusal_None|]. split; [done|]. destruct (isolated e t).
  - set (eg := if x_egress e then _ else _). exists eg. unfold run_isolated. destruct (worker_confinement _ _ _ _) as [kw sc].
    simpl. destruct (run_tool_out_of_process _ _ _ _ _ _ _ _ _) as [app v]. simpl.
    destruct (tv_success v); [|destruct (bool_decide _)]; simpl; rewrite finalize_app; done.
  - unfold run_in_process. simpl. destruct (te_fn t _ _ _) as [app [r|msg cl]]; simpl; [by rewrite finalize_app|].
    destruct (bool_decide _); by rewrite finalize_app.
Qed.

(** *** Registered entries *)

Record wf_tool (name : string) (t : tool_entry) : Prop := {
  wt_guarantee : te_guarantee t ∈ VALID_EXECUTION_GUARANTEES;
  wt_isolation i : te_isolation t = Some i -> i ∈ ASSURANCE_ORDER;
  wt_env_spec : te_env_spec t = VNone \/ exists s, from_dict (te_env_spec t) = Ok s;
  wt_on_denial : te_on_denial t ∈ ON_DENIAL_KINDS;
  wt_variant v : te_degraded_variant t = Some v -> v <> "" /\ v <> name;
  wt_args d : te_args_schema t = Some d -> args_schema_shape (VDict d) = true;
  wt_result d : te_result_schema t = Some d -> result_schema_shape (VDict d) = true }.

Lemma shape_kept (shape : pyval -> bool) v d : negb (is_None v) && negb (shape v) = false ->
  dict_or_nothing v = Some d -> shape (VDict d) = true.
Proof.
  destruct v as [| | | | | |[|kv d']]; simpl; try done. intros H [= <-]. by apply negb_false_iff in H.
Qed.

(** Every entry a registration leaves is well formed. *)
Lemma register_wf name d ts ts' : register_tool name d ts = Ok ts' ->
  (forall n t, dict_get n ts = Some t -> wf_tool n t) -> forall n t, dict_get n ts' = Some t -> wf_tool n t.
Proof.
  unfold register_tool. destruct (match dc_isolation d with Some _ => _ | None => _ end) eqn:Hi; [done|].
  destruct (negb (is_None (dc_env_spec d)) && _) eqn:He; [done|].
  destruct (match dc_variant d with VStr _ => _ | _ => _ end) as [variant|] eqn:Hv; [|done].
  destruct (decide (dc_on_denial d ∉ _)) as [|Ho%dec_stable]; [done|]. destruct (decide (_ ∉ VALID_EXECUTION_GUARANTEES)) as [|Hg%dec_stable]; [done|].
  destruct (negb (is_None (dc_args_schema d)) && _) eqn:Ha; [done|]. destruct (negb (is_None (dc_result_schema d)) && _) eqn:Hr; [done|].
  intros [= <-] Hall n t. destruct (decide (n = name)) as [->|Hn]; [|rewrite dict_get_set_ne by done; apply Hall].
  rewrite dict_get_set_eq. intros [= <-]. split; simpl; try done.
  - intros i Hd. rewrite Hd in Hi. by apply bool_decide_eq_false, dec_stable in Hi.
  - destruct (is_None (dc_env_spec d)) eqn:Hn; [left; by apply is_None_true|right].
    destruct (from_dict (dc_env_spec d)) as [sp|]; [by exists sp|done].
  - intros v ->. destruct (dc_variant d); try done. destruct (decide (str_strip s = "")); [done|].
    destruct (decide (str_strip s = name)); [done|]. by injection Hv as <-.
  - intros dd. by apply (shape_kept args_schema_shape).
  - intros dd. by apply (shape_kept result_schema_shape).
Qed.

(** The gates a call passed when its function may have acted. *)
Record cleared (e : tool_env) (ts : tools) (c : tool_call) (t : tool_entry) (w : tool_world) : Prop := {
  cl_registered : dict_get (tc_tool c) ts = Some t;
  cl_args : x_args_mode e = "enforce" -> validate_tool_args t (tc_args c) = Some [];
  cl_token : truthy (tc_run c) = true -> exists token va, tc_token c = Some token /\
    check_tool_capability (x_caps e) hmac parse_iso render
      (run_authority_ended (x_now_ms e) (x_cancel_ttl e) (default "" (tc_run c)) (x_run_read e) (tw_cache w)).2
      (x_keys e) (x_now e) token (default "" (tc_run c)) (tc_user c) (tc_tool c) = Ok va;
  cl_policy : truthy (tc_run c) = true -> has_capability_policies (x_policies e) = true ->
    let caps := get_capabilities_for_tool (x_caps e) (tc_tool c) in
    enforce_capability_policy bracketed_ok (x_policies e) caps (tc_args c) = Some [] /\
    (enforce_capability_rate (x_policies e) caps (tc_user c) (x_now e) (tw_rates w)).2 = [];
  cl_slot : engages e c t = true -> is_at_most_once t = true ->
    x_gate_up e = true /\ (resolve_effect_record (x_now e) (action_of c) (claim_for e c t) (tw_ledger w)).1 = Claimed;
  cl_isolation : host_suffices e t;
  cl_running : (is_run_cancelled (x_now_ms e) (x_cancel_ttl e) (tc_run c) (x_cancel_read e)
      (if tc_token c then (run_authority_ended (x_now_ms e) (x_cancel_ttl e) (default "" (tc_run c)) (x_run_read e) (tw_cache w)).1
       else tw_cache w)).2 = false }.

Lemma boundary_pass e c t w w' holds : effect_boundary e c t w = (w', inr holds) ->
  tw_cache w' = tw_cache w /\
  (engages e c t = true -> is_at_most_once t = true ->
    x_gate_up e = true /\ (resolve_effect_record (x_now e) (action_of c) (claim_for e c t) (tw_ledger w)).1 = Claimed).
Proof.
  unfold effect_boundary. destruct (engages e c t); [|by intros [= <- _]]. destruct (_ && _ && _); [done|].
  destruct (x_gate_up e); [|destruct (is_at_most_once t); [done|by intros [= <- _]]].
  destruct (resolve_effect_record _ _ _ _) as [[] l]; simpl; try done.
  - by intros [= <- _].
  - destruct (is_at_most_once t); [done|]. by intros [= <- _].
Qed.

(** The stages of a call in order. *)
Lemma execute_cases e ts c w :
  let '(w', v) := execute_tool e ts c w in
  tw_app w' = tw_app w \/
  exists t, cleared e ts c t w /\ function_effect e c t (tw_app w) (tw_app w').
Proof.
  unfold execute_tool. destruct (dict_get (tc_tool c) ts) as [t|] eqn:Ht; [|by left].
  destruct (truthy (tc_run c) && _) eqn:Htok; [by left|]. destruct (bool_decide _ && negb _) eqn:Hrun; [by left|].
  destruct (validate_tool_args t (tc_args c)) as [errors|] eqn:Hargs; [|by left].
  destruct (bool_decide (errors <> []) && _) eqn:Hmode; [by left|].
  set (aid := if engages e c t then _ else _).
  destruct (match tc_token c with Some _ => _ | None => _ end) as [w1 authority] eqn:Hauth.
  assert (tw_ledger w1 = tw_ledger w /\ tw_app w1 = tw_app w) as [Hl1 Ha1].
  { destruct (tc_token c) as [token|]; [|by injection Hauth as <- _].
    pose proof (authorize_keeps e c (default "" (tc_run c)) token aid w) as H. by rewrite Hauth in H. }
  destruct authority as [v|domains]; [by left|].
  destruct (effect_boundary e c t w1) as [w2 [v|holds]] eqn:Hb.
  { left. pose proof (boundary_app e c t w1) as H. rewrite Hb in H. simpl in H. congruence. }
  pose proof (boundary_app e c t w1) as Ha2. rewrite Hb in Ha2. simpl in Ha2. apply boundary_pass in Hb as [Hc2 Hslot].
  pose proof (run_function_app e c t domains holds w2) as Hrf. cbv zeta in Hrf.
  destruct (run_function e c t domains holds w2) as [w3 v]. simpl in Hrf. rewrite Hc2, Ha2, Ha1 in Hrf. rewrite Hl1 in Hslot.
  destruct Hrf as [Hrf|(Hi & Hcn & Hf)]; [by left|]. right. exists t. split; [|done].
  assert (truthy (tc_run c) = true -> exists token, tc_token c = Some token /\ authorize e c (default "" (tc_run c)) token aid w = (w1, inr domains)) as Hcheck.
  { intros Hr. rewrite Hr in Htok. destruct (tc_token c) as [token|]; [by exists token|done]. }
  split; try done.
  - intros Hm. rewrite Hm in Hmode. rewrite (bool_decide_eq_true_2 (_ = _)) in Hmode by done. rewrite andb_true_r in Hmode.
    apply bool_decide_eq_false, dec_stable in Hmode. congruence.
  - intros (token & Htk & (Hva & _)%authorize_pass)%Hcheck. destruct Hva as [va Hva]. by exists token, va.
  - intros (token & Htk & (_ & _ & Hp & _)%authorize_pass)%Hcheck. exact Hp.
  - destruct (tc_token c) as [token|]; [|injection Hauth as <- _; done].
    apply authorize_pass in Hauth as (_ & Hch & _). by rewrite <- Hch.
Qed.

(** *** Settling the slot *)

Lemma boundary_holds e c t w w' holds : engages e c t = true -> x_gate_up e = true -> effect_boundary e c t w = (w', inr holds) ->
  holds = true /\ is_Some (dict_get (action_of c) (tw_ledger w')).
Proof.
  unfold effect_boundary. intros -> ->. destruct (_ && _ && _); [done|].
  destruct (resolve_effect_record _ _ _ _) as [g l] eqn:Hr. assert (g = Claimed \/ g = Degraded -> is_Some (dict_get (action_of c) l)) as Hl.
  { unfold resolve_effect_record, resolve_seen, resolve_existing_row in Hr. intros Hg.
    destruct (dict_get (action_of c) (tw_ledger w)) as [r|] eqn:E; [|injection Hr as _ <-; by rewrite dict_get_set_eq].
    destruct (decide (er_status r = "success")); [simplify_eq; by destruct Hg|].
    destruct (decide (er_status r ∈ HELD_LEDGER_STATUSES)); [simplify_eq; by destruct Hg|].
    destruct (_ && _); injection Hr as _ <-; [by rewrite E|]. simpl. by rewrite dict_get_set_eq. }
  destruct g; simpl; try done.
  - intros [= <- <-]. simpl. auto.
  - destruct (is_at_most_once t); [done|]. intros [= <- <-]. simpl. auto.
Qed.

(** The stages of a call that may change the ledger. *)
Lemma execute_stages e ts c w t : dict_get (tc_tool c) ts = Some t ->
  let '(w', v) := execute_tool e ts c w in
  (tw_ledger w' = tw_ledger w /\ tw_app w' = tw_app w) \/
  (exists w1 w2 v2, tw_ledger w1 = tw_ledger w /\ tw_app w1 = tw_app w /\ effect_boundary e c t w1 = (w2, inl v2) /\ w' = w2 /\ v = Some v2) \/
  (exists w1 w2 holds domains, tw_ledger w1 = tw_ledger w /\ tw_app w1 = tw_app w /\
     effect_boundary e c t w1 = (w2, inr holds) /\ w' = (run_function e c t domains holds w2).1 /\ v = Some (run_function e c t domains holds w2).2).
Proof.
  intros Ht. unfold execute_tool. rewrite Ht.
  destruct (truthy (tc_run c) && _); [by left|]. destruct (bool_decide _ && negb _); [by left|].
  destruct (validate_tool_args t (tc_args c)) as [errors|]; [|by left].
  destruct (bool_decide (errors <> []) && _); [by left|]. set (aid := if engages e c t then _ else _).
  destruct (match tc_token c with Some _ => _ | None => _ end) as [w1 authority] eqn:Hauth.
  assert (tw_ledger w1 = tw_ledger w /\ tw_app w1 = tw_app w) as [Hl1 Ha1].
  { destruct (tc_token c) as [token|]; [|by injection Hauth as <- _].
    pose proof (authorize_keeps e c (default "" (tc_run c)) token aid w) as H. by rewrite Hauth in H. }
  destruct authority as [v|domains]; [by left|].
  destruct (effect_boundary e c t w1) as [w2 [v|holds]] eqn:Hb; [right; left; by exists w1, w2, v|].
  destruct (run_function e c t domains holds w2) as [w3 v3] eqn:Hrf. right. right. exists w1, w2, holds, domains. by rewrite Hrf.
Qed.

Lemma execute_settles e ts c w t w' v : dict_get (tc_tool c) ts = Some t -> engages e c t = true ->
  x_gate_up e = true -> x_finalize_up e = true -> execute_tool e ts c w = (w', v) -> tw_app w' <> tw_app w ->
  exists v' r, v = Some v' /\ dict_get (action_of c) (tw_ledger w') = Some r /\ er_status r = settled_status v'.
Proof.
  intros Ht He Hg Hf Hx Happ. pose proof (execute_stages e ts c w t Ht) as Hs. rewrite Hx in Hs.
  destruct Hs as [[_ ?]|[(w1 & w2 & v2 & _ & Ha & Hb & -> & _)|(w1 & w2 & holds & domains & Hl & Ha & Hb & -> & ->)]]; [done| |].
  { pose proof (boundary_app e c t w1) as H. rewrite Hb in H. simpl in H. congruence. }
  destruct (boundary_holds e c t w1 w2 holds He Hg Hb) as [-> [r Hr]].
  destruct (run_function_cases e c t domains true w2) as (w0 & payload & Hrf & Hl0). rewrite <- Hl0 in Hr.
  set (st := settled_status (run_function e c t domains true w2).2) in *.
  destruct (finalize_row e c st payload w0 r Hf (settled_terminal _) Hr) as (r' & Hr' & Hs).
  exists (run_function e c t domains true w2).2, r'. rewrite Hrf. done.
Qed.

(** *** A landed effect *)

Definition landed_row (aid : string) (l : ledger) : Prop :=
  exists r, dict_get aid l = Some r /\ er_status r ∈ ["success"; "partial"; "unknown"].

Lemma landed_resolve now aid a l : landed_row aid l ->
  exists g, resolve_effect_record now aid a l = (g, l) /\ ((exists p, g = Replay p) \/ exists h, g = HeldReplay h).
Proof.
  intros (r & Hr & Hs). unfold resolve_effect_record, resolve_seen, resolve_existing_row. rewrite Hr.
  destruct (decide (er_status r = "success")); [eexists; split; [done|]; left; by eexists|].
  rewrite decide_True; [eexists; split; [done|]; right; by eexists|]. unfold HELD_LEDGER_STATUSES. set_solver.
Qed.

Lemma landed_boundary e c t w : landed_row (action_of c) (tw_ledger w) -> engages e c t = true ->
  x_gate_up e = true \/ is_at_most_once t = true ->
  exists w' v, effect_boundary e c t w = (w', inl v) /\ tw_ledger w' = tw_ledger w /\ tw_app w' = tw_app w.
Proof.
  intros Hl He Hg. unfold effect_boundary. rewrite He. destruct (_ && _ && _); [by eexists _, _|].
  destruct (x_gate_up e).
  - destruct (landed_resolve (x_now e) (action_of c) (claim_for e c t) _ Hl) as (g & -> & [[p ->] | [h ->]]); by eexists _, _.
  - destruct Hg as [ | -> ]; [done|]. by eexists _, _.
Qed.

Lemma execute_only e ts c w : only_row (action_of c) (tw_ledger w) (tw_ledger (execute_tool e ts c w).1).
Proof.
  intros k Hk. destruct (dict_get (tc_tool c) ts) as [t|] eqn:Ht; [|unfold execute_tool; by rewrite Ht].
  pose proof (execute_stages e ts c w t Ht) as Hs. destruct (execute_tool e ts c w) as [w' v]. simpl.
  destruct Hs as [[-> _]|[(w1 & w2 & v2 & Hl & _ & Hb & -> & _)|(w1 & w2 & holds & domains & Hl & _ & Hb & -> & _)]]; [done|..].
  - pose proof (boundary_only e c t w1 k Hk) as H. rewrite Hb, Hl in H. done.
  - rewrite run_function_only by done. pose proof (boundary_only e c t w1 k Hk) as H. rewrite Hb, Hl in H. done.
Qed.

(** Calls one after the other. *)
Fixpoint run_tools (ts : tools) (calls : list (tool_env * tool_call)) (w : tool_world) : tool_world :=
  match calls with [] => w | ec :: calls => run_tools ts calls (execute_tool ec.1 ts ec.2 w).1 end.

(** The call goes through the gate of its action. *)
Definition gated_call (ts : tools) (ec : tool_env * tool_call) : Prop :=
  exists t, dict_get (tc_tool ec.2) ts = Some t /\ engages ec.1 ec.2 t = true /\ (x_gate_up ec.1 = true \/ is_at_most_once t = true).

Lemma execute_landed e ts c w aid : landed_row aid (tw_ledger w) -> (action_of c = aid -> gated_call ts (e, c)) ->
  let w' := (execute_tool e ts c w).1 in
  dict_get aid (tw_ledger w') = dict_get aid (tw_ledger w) /\ (action_of c = aid -> tw_app w' = tw_app w).
Proof.
  intros Hl Hg w'. unfold w'. destruct (decide (action_of c = aid)) as [Ha|Ha].
  2: { split; [|done]. by apply execute_only. }
  destruct (Hg Ha) as (t & Ht & He & Hgate). simpl in *. rewrite <- Ha in Hl.
  pose proof (execute_stages e ts c w t Ht) as Hs. destruct (execute_tool e ts c w) as [w'' v]. simpl.
  destruct Hs as [[-> ->]|[(w1 & w2 & v2 & H1 & H2 & Hb & -> & _)|(w1 & w2 & holds & domains & H1 & H2 & Hb & -> & _)]]; [done|..].
  - destruct (landed_boundary e c t w1) as (w3 & v3 & Hb3 & L3 & A3); [by rewrite H1|done..|].
    rewrite Hb in Hb3. simplify_eq. split; [congruence|]. intros _. congruence.
  - destruct (landed_boundary e c t w1) as (w3 & v3 & Hb3 & L3 & A3); [by rewrite H1|done..|]. congruence.
Qed.

Lemma run_tools_landed ts aid calls : forall w, landed_row aid (tw_ledger w) ->
  Forall (fun ec => action_of ec.2 = aid -> gated_call ts ec) calls ->
  dict_get aid (tw_ledger (run_tools ts calls w)) = dict_get aid (tw_ledger w) /\
  forall pre ec post, calls = pre ++ ec :: post -> action_of ec.2 = aid ->
    tw_app (execute_tool ec.1 ts ec.2 (run_tools ts pre w)).1 = tw_app (run_tools ts pre w).
Proof.
  induction calls as [|[e c] calls IH]; intros w Hl Hf; simpl; [split; [done|by intros []]|].
  apply Forall_cons in Hf as [Hg Hf]. destruct (execute_landed e ts c w aid Hl Hg) as [Hrow Happ].
  destruct (IH (execute_tool e ts c w).1) as [IHrow IHapp]; [|done|].
  { destruct Hl as (r & Hr & Hs). exists r. split; [|done]. congruence. }
  split; [congruence|]. intros [|ec pre] ec' post [= <- Hc] Ha; simpl in *; [by apply Happ|]. by eapply IHapp.
Qed.

(** C14: the application is touched only by a call that passed every gate it is subject to:
    the tool is registered; under enforcement its arguments match the declared schema; a
    call for a run carries a token that the capability check accepts for this run, user
    and tool while the run has not ended, no policy of the tool's capabilities is
    violated and no rate exceeded; an AT_MOST_ONCE tool called for a run claimed the slot
    of its action in this call (a call without a run needs no token and has no slot, as
    [no_run_no_gate] shows); the host meets the declared isolation class; and the run, if
    there is one, is not cancelled. What it then did is one call of the tool's function, in
    this process, or what its worker did. *)
Theorem tool_effect_needs_clearance e ts c w w' v : execute_tool e ts c w = (w', v) ->
  tw_app w' = tw_app w \/
  exists t, cleared e ts c t w /\ function_effect e c t (tw_app w) (tw_app w').
Proof. intros Hx. pose proof (execute_cases e ts c w) as H. by rewrite Hx in H. Qed.

(** C17: a call whose gate engages and is up, that acted and whose final commit works,
    leaves the slot of its action settled with what its answer says: success, unknown or
    failed. Once it says success or unknown, no later call for the action touches the
    application, whatever other calls come in between, and the slot stays as it is;
    provided every later call for the action is itself gated, with its gate up or of an
    AT_MOST_ONCE tool (an EXACTLY_ONCE call whose gate is down runs without one). *)
Theorem tool_effect_at_most_once e ts c w t w' v calls :
  dict_get (tc_tool c) ts = Some t -> engages e c t = true -> x_gate_up e = true -> x_finalize_up e = true ->
  execute_tool e ts c w = (w', v) -> tw_app w' <> tw_app w ->
  exists v' r, v = Some v' /\ dict_get (action_of c) (tw_ledger w') = Some r /\ er_status r = settled_status v' /\
    (tv_success v' = true \/ tv_class v' = Some "unknown" ->
     Forall (fun ec => action_of ec.2 = action_of c -> gated_call ts ec) calls ->
     dict_get (action_of c) (tw_ledger (run_tools ts calls w')) = Some r /\
     forall pre ec post, calls = pre ++ ec :: post -> action_of ec.2 = action_of c ->
       tw_app (execute_tool ec.1 ts ec.2 (run_tools ts pre w')).1 = tw_app (run_tools ts pre w')).
Proof.
  intros Ht He Hg Hf Hx Ha. destruct (execute_settles e ts c w t w' v Ht He Hg Hf Hx Ha) as (v' & r & Hv & Hr & Hs).
  exists v', r. split_and!; [done..|]. intros Hl Hcalls.
  destruct (run_tools_landed ts (action_of c) calls w') as [H1 H2]; [|done|split; [congruence|done]].
  exists r. split; [done|]. rewrite Hs. unfold settled_status. destruct Hl as [-> | ->]; [by left|].
  destruct (tv_success v'); [by left|]. rewrite bool_decide_eq_true_2 by done. by right; right; left.
Qed.

(** When the start-up sweep finds no problem, a fallback that negotiation offers
    for a denied tool is a registered tool that declares no fallback of its own and
    needs strictly fewer capabilities, and the token was checked for it. *)
Lemma downgrade_lowers_authority ts reg enabled ended keys now token run user tool variant :
  rg_tools reg = map (fun kt => (kt.1, meta_of kt.2)) ts ->
  validate_degraded_variants (get_capabilities_for_tool reg) ts = [] ->
  negotiate_capability_denial reg hmac parse_iso render enabled ended keys now token run user tool = Succeeded variant ->
  (exists target, dict_get variant ts = Some target /\ (te_degraded_variant target = None \/ te_degraded_variant target = Some "")) /\
  get_capabilities_for_tool reg variant ⊆ get_capabilities_for_tool reg tool /\
  (exists cap, cap ∈ get_capabilities_for_tool reg tool /\ cap ∉ get_capabilities_for_tool reg variant) /\
  exists va, check_tool_capability reg hmac parse_iso render ended keys now token run user variant = Ok va.
Proof.
  intros Hreg Hv Hn. unfold negotiate_capability_denial in Hn. destruct enabled; [|done].
  destruct (degraded_variant reg tool) as [vn|] eqn:Hd; [|done]. destruct (degraded_variant reg vn); [done|].
  destruct (check_tool_capability _ _ _ _ _ _ _ _ _ _ vn) as [va|[err g]] eqn:Hc; [|by destruct (decide _)].
  injection Hn as ->. assert (forall k, dict_get k (rg_tools reg) = meta_of <$> dict_get k ts) as Hget.
  { intros k. rewrite Hreg. clear. induction ts as [|[k' t] ts IH]; simpl; [done|]. by destruct (decide _). }
  unfold degraded_variant in Hd. rewrite Hget in Hd. destruct (dict_get tool ts) as [t|] eqn:Ht; [|done]. simpl in Hd.
  destruct (decide (default "" (te_degraded_variant t) = "")) as [|Hne]; [done|]. injection Hd as Hd.
  assert (te_degraded_variant t = Some variant) as Htv by (destruct (te_degraded_variant t); simpl in *; congruence).
  assert (check_variant (get_capabilities_for_tool reg) ts tool = []) as Hck.
  { apply (proj1 (flat_map_nil _ _) Hv). rewrite py_sorted_perm. apply dict_get_is_Some. by rewrite Ht. }
  unfold check_variant in Hck. rewrite Ht, Htv in Hck. destruct variant as [|a s]; [done|].
  destruct (dict_get (String a s) ts) as [target|] eqn:Hg; [|done].
  destruct (te_degraded_variant target) as [[|]|] eqn:Htd; [|done|].
  all: destruct (get_capabilities_for_tool reg tool) as [|c0 own] eqn:Hown; [done|]; destruct (bool_decide _) eqn:Hsub; [|done];
    apply bool_decide_eq_true in Hsub as [Hs1 Hs2]; split_and!; [by eexists; split; [done|auto]|done| |by exists va];
    apply not_subseteq_elem; exact Hs2.
Qed.
End Tools.

(** ** Concrete calls *)

Module ToyTools.
(** The application counts the calls of a tool's function. *)
Definition tool (o : fn_outcome) (guarantee : string) (isolation : option string) (spec : pyval) (variant : option string) : tool_entry (A := Z) :=
  Tool (fun _ _ n => (n + 1, o)) "low" guarantee isolation spec variant "fail" None None None.

Definition ok : fn_outcome := Returns (Json (VStr "sent")).
Definition odd : fn_outcome := Returns (Opaque true).

Definition registry_of (send : tool_entry (A := Z)) : tools (A := Z) :=
  [("mail.send", send); ("mail.draft", tool ok "AT_LEAST_ONCE" None VNone None); ("db.drop", tool ok "AT_LEAST_ONCE" None VNone None)].

Definition plain : tools (A := Z) := registry_of (tool ok "AT_MOST_ONCE" None VNone (Some "mail.draft")).
Definition confined : tools (A := Z) := registry_of (tool ok "AT_MOST_ONCE" (Some "insecure-dev") (VDict [("resources", VDict [("wall_time_ms", VInt 5000)])]) None).
Definition isolated_odd : tools (A := Z) := registry_of (tool odd "AT_MOST_ONCE" (Some "insecure-dev") VNone None).

Definition env (now : Z) (ts : tools (A := Z)) (ps : policies) : tool_env (A := Z) :=
  ToolEnv now (now * 1000) 2000 "warn" false false false true false ["k1"] Toy.reg ps ReadNoRow ReadNoRow true LockAcquired true true
    [] None "id" None (fun p => p) [] "/tmp/s" ts Answers.

Definition call : tool_call := ToolCall "mail.send" (VDict [("to", VStr "ann@example.com")]) "u1" (Some "r1") (Some (VDict (Toy.minted None))) None.
Definition start : tool_world (A := Z) := ToolWorld [] [] (Cache [] []) [] 0.

Definition action (tool : string) (args : pyval) (scope : string) : string := tool +:+ "@" +:+ scope.
Definition execute (e : tool_env) (ts : tools (A := Z)) (c : tool_call) (w : tool_world) : tool_world * option tool_envelope :=
  execute_tool Toy.render (fun _ => None) Toy.hmac int_of_string action (fun _ => "h") (fun _ => true) e ts c w.
(** The calls of the function so far and the class of the answer. *)
Definition seen (r : tool_world (A := Z) * option tool_envelope) : Z * option string :=
  (tw_app r.1, match r.2 with Some v => if tv_success v then Some "success" else tv_class v | None => None end).
End ToyTools.

Import ToyTools.

Lemma tool_clearance_witness :
  tw_app (execute (env 2000 plain []) plain call start).1 = 1 /\
  exists t, dict_get "mail.send" plain = Some t /\ host_suffices (env 2000 plain []) t.
Proof.
  split; [vm_compute; reflexivity|].
  destruct (tool_effect_needs_clearance Toy.render (fun _ => None) Toy.hmac int_of_string action (fun _ => "h") (fun _ => true)
    (env 2000 plain []) plain call start (execute (env 2000 plain []) plain call start).1 (execute (env 2000 plain []) plain call start).2)
    as [H|(t & [Ht _ _ _ _ Hi _] & _)].
  - apply surjective_pairing.
  - exfalso. vm_compute in H. discriminate H.
  - exists t. split; [exact Ht|exact Hi].
Defined.

Lemma tool_at_most_once_witness :
  let w1 := (execute (env 2000 plain []) plain call start).1 in
  (exists r, dict_get "mail.send@r1" (tw_ledger w1) = Some r /\ er_status r = "success") /\
  seen (execute (env 5000 plain []) plain call w1) = (1, Some "success").
Proof.
  split; [|vm_compute; reflexivity].
  destruct (tool_effect_at_most_once Toy.render (fun _ => None) Toy.hmac int_of_string action (fun _ => "h") (fun _ => true)
    (env 2000 plain []) plain call start (tool ok "AT_MOST_ONCE" None VNone (Some "mail.draft"))
    (execute (env 2000 plain []) plain call start).1 (execute (env 2000 plain []) plain call start).2 [])
    as (v & r & Hv & Hr & Hs & _).
  - reflexivity.
  - reflexivity.
  - reflexivity.
  - reflexivity.
  - apply surjective_pairing.
  - vm_compute. discriminate.
  - exists r. split; [exact Hr|]. rewrite Hs. vm_compute in Hv. by injection Hv as <-.
Defined.

Definition fallback_reg : registry :=
  Registry (map (fun kt => (kt.1, meta_of kt.2)) plain) ["execute_flow"; "send"; "draft"; "network"]
    [("mail.send", ["draft"; "network"; "send"]); ("mail.draft", ["draft"]); ("db.drop", [])] [("default", ["execute_flow"])] [].

Lemma downgrade_witness :
  exists cap, cap ∈ get_capabilities_for_tool fallback_reg "mail.send" /\ cap ∉ get_capabilities_for_tool fallback_reg "mail.draft".
Proof.
  destruct (downgrade_lowers_authority Toy.render Toy.hmac int_of_string plain fallback_reg true None ["k1"] 2000
    (VDict (Toy.minted None)) "r1" "u1" "mail.send" "mail.draft") as (_ & _ & H & _).
  - reflexivity.
  - vm_compute. reflexivity.
  - vm_compute. reflexivity.
  - exact H.
Defined.

(** A tool whose declared environment bounds its time never runs when isolated: its
    worker cannot be started. *)
Example declared_budget_never_starts :
  seen (execute (env 2000 confined []) confined call start) = (0, Some "transient").
Proof. vm_compute. reflexivity. Qed.

(** A result that does not marshal is recorded as a failure although the worker's
    effect landed: the next call runs an AT_MOST_ONCE tool a second time. *)
Example unmarshalled_result_runs_again :
  let w1 := (execute (env 2000 isolated_odd []) isolated_odd call start).1 in
  tw_app w1 = 1 /\ (er_status <$> dict_get "mail.send@r1" (tw_ledger w1)) = Some "failed" /\
  tw_app (execute (env 2001 isolated_odd []) isolated_odd call w1).1 = 2.
Proof. vm_compute. done. Qed.

(** Without a run there is no slot: every call of an AT_MOST_ONCE tool runs it. *)
Example no_run_no_gate :
  let c := ToolCall "mail.send" (VDict []) "u1" None None None in
  let w1 := (execute (env 2000 plain []) plain c start).1 in
  tw_app w1 = 1 /\ tw_app (execute (env 2000 plain []) plain c w1).1 = 2.
Proof. vm_compute. done. Qed.

(** A policy with an empty domain list denies every URL of the arguments, and leaves
    the socket guard open. *)
Example empty_domain_policy_leaves_guard_open :
  let ps := [("fetch", Egress.Policy None (Some []) None)] in
  domains_of_policies ps ["fetch"] = [] /\
  decision_allowlist (resolve_egress_decision "open" (domains_of_policies ps ["fetch"])) = None /\
  enforce_capability_policy (fun _ => true) ps ["fetch"] (VStr "https://example.com/") = Some [Violation "fetch" Domain "example.com"].
Proof. vm_compute. done. Qed.

(** Two policies must both admit a host in the arguments; the guard admits the hosts
    of either. *)
Example guard_takes_the_union :
  let ps := [("a", Egress.Policy None (Some ["a.com"]) None); ("b", Egress.Policy None (Some ["b.com"]) None)] in
  enforce_capability_policy (fun _ => true) ps ["a"; "b"] (VStr "https://a.com/") = Some [Violation "b" Domain "a.com"] /\
  decision_allowlist (resolve_egress_decision "open" (domains_of_policies ps ["a"; "b"])) = Some ["a.com"; "b.com"].
Proof. vm_compute. done. Qed.

(** A schema whose property is not an object passes registration and makes every call
    that gives the property raise. *)
Example property_not_object_escapes :
  let schema := VDict [("properties", VDict [("to", VStr "string")])] in
  args_schema_shape schema = true /\
  validate_tool_args (Tool (fun _ _ (n : Z) => (n, ok)) "low" "AT_LEAST_ONCE" None VNone None "fail" (dict_or_nothing schema) None None)
    (VDict [("to", VStr "x")]) = None.
Proof. vm_compute. done. Qed.
