(* ===== verification/JobQueue.v ===== *)
(** * Queued jobs and what a queue promises (src/AINDY/core/distributed_queue.py)

    The message a job travels as, its JSON form, the capacity settings, and the
    interface of a queue backend: [QueueBackend] has the operations, [QueueLaws]
    what the code that uses a queue relies on. RedisQueue.v and MemoryQueue.v are
    the two backends; Worker.v is proved against the interface. A JSON text is
    identified with the value it denotes, so [RJson v] stands for [json.dumps(v)]
    and [RText s] for a text that is not JSON. Times are in milliseconds. *)

From S2P Require Import Prelude PyStr PyVal.

Local Open Scope string_scope.
Local Open Scope Z_scope.
Local Open Scope list_scope.

(** ** The message *)

Record payload := Payload {
  job_id : string;
  task_name : string;
  idempotency_key : string;
  context : list (string * pyval);
  retry_metadata : list (string * pyval);
  enqueued_at : string
}.

#[export] Instance payload_eq_dec : EqDecision payload.
Proof. solve_decision. Defined.

(** [__post_init__] *)
Definition post_init (p : payload) : payload :=
  if decide (idempotency_key p = "")
  then Payload (job_id p) (task_name p) (job_id p) (context p) (retry_metadata p) (enqueued_at p) else p.

Inductive raw := RJson (v : pyval) | RText (s : string).

#[export] Instance raw_eq_dec : EqDecision raw.
Proof. solve_decision. Defined.

Definition to_json (p : payload) : raw :=
  RJson (VDict [("job_id", VStr (job_id p)); ("task_name", VStr (task_name p));
                ("idempotency_key", VStr (idempotency_key p)); ("context", VDict (context p));
                ("retry_metadata", VDict (retry_metadata p)); ("enqueued_at", VStr (enqueued_at p))]).

(** [Undecodable]: reading the text raises. [Foreign]: a field is not of the type
    the dataclass declares, which Python does not check and nothing here writes. *)
Inductive decoded := Decoded (p : payload) | Undecodable | Foreign.

(** [from_json]; [fresh] is the time of day a message without [enqueued_at] gets. *)
Definition from_json (fresh : string) (r : raw) : decoded :=
  match r with
  | RJson (VDict d) =>
      match dict_get "job_id" d, dict_get "task_name" d with
      | Some j, Some t =>
          match j, t, default (VStr "") (dict_get "idempotency_key" d), default (VDict []) (dict_get "context" d),
                default (VDict []) (dict_get "retry_metadata" d), default (VStr fresh) (dict_get "enqueued_at" d) with
          | VStr j, VStr t, VStr i, VDict c, VDict m, VStr e => Decoded (post_init (Payload j t i c m e))
          | _, _, _, _, _, _ => Foreign
          end
      | _, _ => Undecodable
      end
  | _ => Undecodable
  end.

(** A payload as its constructor leaves it. *)
Definition wf_payload (p : payload) : Prop := post_init p = p.

Lemma post_init_wf p : wf_payload (post_init p).
Proof.
  unfold wf_payload, post_init. destruct (decide (idempotency_key p = "")) as [H|H].
  - cbn [idempotency_key]. destruct (decide (job_id p = "")) as [H'|]; [|done]. by rewrite H'.
  - by rewrite decide_False.
Qed.

Lemma from_to_json fresh p : wf_payload p -> from_json fresh (to_json p) = Decoded p.
Proof. intros H. destruct p. exact (f_equal Decoded H). Qed.

Lemma to_json_inj p q : to_json p = to_json q -> p = q.
Proof. destruct p, q. unfold to_json. simpl. by intros [= -> -> -> -> -> ->]. Qed.

(** ** Capacity settings *)

Section Settings.
Variable env : string -> option string.
Variable settings : string -> option pyval.

Definition safe_int_env (name : string) (dflt : Z) : Z :=
  match env name with
  | Some s => default dflt (int_of_string s)
  | None =>
      match settings name with
      | Some (VInt z) => z
      | Some (VBool b) => if b then 1 else 0
      | Some (VStr s) => default dflt (int_of_string s)
      | _ => dflt
      end
  end.

Definition queue_capacity_limit : Z :=
  Z.max 1 (safe_int_env "MAX_QUEUE_SIZE" (safe_int_env "AINDY_ASYNC_QUEUE_MAXSIZE" 100)).

Definition saturation_threshold : Z :=
  Z.max 1 (Z.min (safe_int_env "AINDY_QUEUE_SATURATION_THRESHOLD" queue_capacity_limit) queue_capacity_limit).

Lemma saturation_threshold_bounds : 1 <= saturation_threshold <= queue_capacity_limit.
Proof. unfold saturation_threshold, queue_capacity_limit. lia. Qed.
End Settings.

(** ** Errors *)

(** [Blocked]: the call has not returned (a put on a full queue waits for a slot). *)
Inductive queue_error := Saturated | ConnectionError | CircuitOpen | QueueFull | ForeignMessage | Blocked.

#[export] Instance queue_error_eq_dec : EqDecision queue_error.
Proof. solve_decision. Defined.

(** ** The interface *)

Class QueueBackend (S : Type) := {
  be_max : Z;
  be_enqueue : Z -> payload -> S -> S * result queue_error unit;
  be_enqueue_delayed : Z -> payload -> Z -> S -> S * result queue_error unit;
  be_dequeue : Z -> string -> S -> S * result queue_error (option payload);
  be_ack : Z -> string -> S -> S * result queue_error unit;
  be_fail : Z -> string -> string -> S -> S * result queue_error unit;
  be_requeue_stale : Z -> Z -> S -> S * result queue_error nat;
  (** what can be observed: the jobs waiting, next first; the delayed ones; the job in
      flight under an id and since when; the dead letters *)
  be_pending : S -> list payload;
  be_delayed : S -> list payload;
  be_inflight : S -> string -> option (payload * Z);
  be_dead : S -> list (string * option payload)
}.

(** How many jobs count against the capacity. *)
Definition be_load {S} `{QueueBackend S} (s : S) : Z := Z.of_nat (length (be_pending s)) + Z.of_nat (length (be_delayed s)).

(** The in-flight entries are left alone, but for the one of [j]. *)
Definition inflight_but {S} `{QueueBackend S} (j : string) (v : option (payload * Z)) (s s' : S) : Prop :=
  be_inflight s' j = v /\ forall j', j' <> j -> be_inflight s' j' = be_inflight s j'.

Class QueueLaws (S : Type) `{QueueBackend S} := {
  be_wf : S -> Prop;
  (** while every call gets its answer *)
  be_up : S -> Prop;

  law_enqueue : forall now p s, 0 <= now -> be_wf s -> be_up s -> wf_payload p ->
    let '(s', r) := be_enqueue now p s in
    be_wf s' /\ be_up s' /\ (forall j, be_inflight s' j = be_inflight s j) /\ be_delayed s' = be_delayed s /\ be_dead s' = be_dead s /\
    (r = if be_load s <? be_max then Ok () else Err Saturated) /\
    be_pending s' = (if be_load s <? be_max then be_pending s ++ [p] else be_pending s);

  law_enqueue_delayed : forall now p delay s, be_wf s -> be_up s -> wf_payload p ->
    let '(s', r) := be_enqueue_delayed now p delay s in
    be_wf s' /\ be_up s' /\ (forall j, be_inflight s' j = be_inflight s j) /\ be_pending s' = be_pending s /\ be_dead s' = be_dead s /\
    (r = if be_load s <? be_max then Ok () else Err Saturated) /\
    (forall q, q ∈ be_delayed s' <-> q ∈ be_delayed s \/ (be_load s < be_max /\ q = p));

  law_dequeue : forall now fresh s, 0 <= now -> be_wf s -> be_up s ->
    let '(s', r) := be_dequeue now fresh s in
    be_wf s' /\ be_up s' /\ be_delayed s' = be_delayed s /\ be_dead s' = be_dead s /\
    match be_pending s with
    | [] => r = Ok None /\ be_pending s' = [] /\ forall j, be_inflight s' j = be_inflight s j
    | p :: rest => r = Ok (Some p) /\ be_pending s' = rest /\ inflight_but (job_id p) (Some (p, now)) s s'
    end;

  law_ack : forall now j s, be_wf s -> be_up s ->
    let '(s', r) := be_ack now j s in
    be_wf s' /\ be_up s' /\ r = Ok () /\ be_pending s' = be_pending s /\ be_delayed s' = be_delayed s /\ be_dead s' = be_dead s /\
    inflight_but j None s s';

  law_fail : forall now j error s, be_wf s -> be_up s ->
    let '(s', r) := be_fail now j error s in
    be_wf s' /\ be_up s' /\ r = Ok () /\ be_pending s' = be_pending s /\ be_delayed s' = be_delayed s /\
    (j, option_map fst (be_inflight s j)) ∈ be_dead s' /\ (forall e, e ∈ be_dead s -> e ∈ be_dead s') /\
    inflight_but j None s s';

  (** a call that returns has put every stale job behind the waiting ones, and only those *)
  law_requeue_stale : forall now timeout s, be_wf s -> be_up s ->
    let '(s', r) := be_requeue_stale now timeout s in
    match r with
    | Err _ => True
    | Ok n => be_wf s' /\ be_up s' /\ be_delayed s' = be_delayed s /\ be_dead s' = be_dead s /\
        exists back, be_pending s' = be_pending s ++ back /\ length back = n /\
          (forall q, q ∈ back <-> exists j at_, be_inflight s j = Some (q, at_) /\ timeout < now - at_) /\
          (forall j, be_inflight s' j = match be_inflight s j with
                                        | Some (q, at_) => if timeout <? now - at_ then None else Some (q, at_)
                                        | None => None
                                        end)
    end
}.

(** ** What clients are answered *)

Inductive client_op := CEnqueue (p : payload) | CDequeue | CAck (j : string) | CFail (j error : string).

Section Client.
Context {S : Type} `{QueueBackend S}.

(** What a worker or a submitter sees of one operation. *)
Definition answer (now : Z) (o : client_op) (s : S) : S * result queue_error (option payload) :=
  let unit_answer (x : S * result queue_error unit) := (x.1, match x.2 with Ok _ => Ok None | Err e => Err e end) in
  match o with
  | CEnqueue p => unit_answer (be_enqueue now p s)
  | CDequeue => be_dequeue now "" s
  | CAck j => unit_answer (be_ack now j s)
  | CFail j error => unit_answer (be_fail now j error s)
  end.

Fixpoint answers (l : list (Z * client_op)) (s : S) : list (result queue_error (option payload)) :=
  match l with
  | [] => []
  | (now, o) :: l' => let '(s', r) := answer now o s in r :: answers l' s'
  end.
End Client.

Definition wf_client (x : Z * client_op) : Prop := 0 <= x.1 /\ match x.2 with CEnqueue p => wf_payload p | _ => True end.

(** The answers of a bounded queue, first in first out, that holds [q] beside [delayed]
    delayed jobs. *)
Fixpoint fifo_answers (max delayed : Z) (q : list payload) (l : list (Z * client_op)) : list (result queue_error (option payload)) :=
  match l with
  | [] => []
  | (_, CEnqueue p) :: l' =>
      if Z.of_nat (length q) + delayed <? max then Ok None :: fifo_answers max delayed (q ++ [p]) l'
      else Err Saturated :: fifo_answers max delayed q l'
  | (_, CDequeue) :: l' =>
      match q with [] => Ok None :: fifo_answers max delayed [] l' | p :: q' => Ok (Some p) :: fifo_answers max delayed q' l' end
  | (_, CAck _) :: l' | (_, CFail _ _) :: l' => Ok None :: fifo_answers max delayed q l'
  end.

(** A lawful backend gives them, as long as it is up. *)
Lemma lawful_fifo {S} `{QueueLaws S} l (s : S) :
  Forall wf_client l -> be_wf s -> be_up s -> answers l s = fifo_answers be_max (Z.of_nat (length (be_delayed s))) (be_pending s) l.
Proof.
  intros Hl. revert s. induction Hl as [|[now o] l [Hn Ho] Hl IH]; intros s Hw Hu; [done|]. simpl in Hn.
  destruct o as [p| |j|j error]; cbn [answers answer fifo_answers].
  - pose proof (law_enqueue now p s Hn Hw Hu Ho) as L. destruct (be_enqueue now p s) as [s' r]. destruct L as (Hw' & Hu' & _ & Hd & _ & -> & Hp).
    cbn [fst snd]. rewrite IH, Hd, Hp by done. unfold be_load. by destruct (_ <? _).
  - pose proof (law_dequeue now "" s Hn Hw Hu) as L. destruct (be_dequeue now "" s) as [s' r]. destruct L as (Hw' & Hu' & Hd & _ & L).
    rewrite IH, Hd by done. destruct (be_pending s) as [|q rest]; destruct L as (-> & -> & _); done.
  - pose proof (law_ack now j s Hw Hu) as L. destruct (be_ack now j s) as [s' r]. destruct L as (Hw' & Hu' & -> & Hp & Hd & _).
    cbn [fst snd]. by rewrite IH, Hd, Hp.
  - pose proof (law_fail now j error s Hw Hu) as L. destruct (be_fail now j error s) as [s' r]. destruct L as (Hw' & Hu' & -> & Hp & Hd & _).
    cbn [fst snd]. by rewrite IH, Hd, Hp.
Qed.
