(* ===== verification/RedisQueue.v ===== *)
(** * The Redis queue (RedisQueueBackend of src/AINDY/core/distributed_queue.py)

    The four keys of the queue are the state; the Lua scripts and the commands act
    on them as one step each. A call may fail: the environment carries the outcome
    of the attempts to come, and a failed attempt may or may not have reached the
    server ([ReplyLost] or [Unreached]). [run_redis_operation] retries it twice more
    and feeds the backend's own circuit breaker. [before] is the order in which the
    server keeps members of equal score. Log lines are left out; the reads of the
    metrics are kept, since they can raise. *)

From S2P Require Import Prelude PyStr PyVal JobQueue.

Local Open Scope string_scope.
Local Open Scope Z_scope.
Local Open Scope list_scope.

(** ** The server's keys *)

Record dead_letter := DeadLetter { dl_job_id : string; dl_payload_raw : raw; dl_error : string; dl_failed_at : Z }.

#[export] Instance dead_letter_eq_dec : EqDecision dead_letter.
Proof. solve_decision. Defined.

Record store := Store {
  st_queue : list raw;                       (** left end first *)
  st_inflight : list (string * (raw * Z));   (** payload and time of the dequeue *)
  st_delayed : list (raw * Z);               (** by score *)
  st_dead : list dead_letter
}.

Definition empty_store : store := Store [] [] [] [].

Definition on_queue (f : list raw -> list raw) (s : store) : store := Store (f (st_queue s)) (st_inflight s) (st_delayed s) (st_dead s).
Definition on_inflight (f : list (string * (raw * Z)) -> list (string * (raw * Z))) (s : store) : store :=
  Store (st_queue s) (f (st_inflight s)) (st_delayed s) (st_dead s).
Definition on_dead (f : list dead_letter -> list dead_letter) (s : store) : store :=
  Store (st_queue s) (st_inflight s) (st_delayed s) (f (st_dead s)).

Definition llen_z {A} (l : list A) : Z := Z.of_nat (length l).

Section Redis.
Variable before : raw -> raw -> bool.

Fixpoint zinsert (m : raw) (sc : Z) (z : list (raw * Z)) : list (raw * Z) :=
  match z with
  | [] => [(m, sc)]
  | (m', sc') :: z' => if (sc <? sc') || ((sc =? sc') && before m m') then (m, sc) :: z else (m', sc') :: zinsert m sc z'
  end.

Definition zadd (m : raw) (sc : Z) (z : list (raw * Z)) : list (raw * Z) :=
  zinsert m sc (base.filter (fun x : raw * Z => x.1 <> m) z).

Definition lpush (r : raw) (s : store) : store * Z := let s' := on_queue (cons r) s in (s', llen_z (st_queue s')).

(** The right end of the list. *)
Definition rpop (s : store) : store * option raw :=
  match last (st_queue s) with
  | None => (s, None)
  | Some r => (on_queue (fun q => take (pred (length q)) q) s, Some r)
  end.

Definition hset (j : string) (r : raw) (at_ : Z) (s : store) : store * unit := (on_inflight (dict_set j (r, at_)) s, ()).
Definition hget (j : string) (s : store) : store * option (raw * Z) := (s, dict_get j (st_inflight s)).
Definition hdel (j : string) (s : store) : store * bool := (on_inflight (dict_del j) s, dict_mem j (st_inflight s)).
Definition hgetall (s : store) : store * list (string * (raw * Z)) := (s, st_inflight s).
Definition lpush_dead (d : dead_letter) (s : store) : store * unit := (on_dead (cons d) s, ()).

(** The two admission scripts: -1 is a refusal. *)
Definition enqueue_with_capacity (max : Z) (r : raw) (s : store) : store * Z :=
  if max <=? llen_z (st_queue s) + llen_z (st_delayed s) then (s, -1) else lpush r s.

Definition enqueue_delayed_with_capacity (max : Z) (r : raw) (execute_at : Z) (s : store) : store * Z :=
  if max <=? llen_z (st_queue s) + llen_z (st_delayed s) then (s, -1)
  else (Store (st_queue s) (st_inflight s) (zadd r execute_at (st_delayed s)) (st_dead s),
        if decide (r ∈ map fst (st_delayed s)) then 0 else 1).

(** The promotion script. *)
Definition process_delayed (now : Z) (s : store) : store * Z :=
  let ready := take 100 (map fst (base.filter (fun x : raw * Z => x.2 <= now) (st_delayed s))) in
  (Store (rev ready ++ st_queue s) (st_inflight s) (base.filter (fun x : raw * Z => x.1 ∉ ready) (st_delayed s)) (st_dead s),
   llen_z ready).

(** ** Calls that may fail *)

Inductive attempt := Replied | ReplyLost | Unreached.

Record config := Config { cf_max : Z; cf_threshold : Z; cf_open_ms : Z }.
Variable cf : config.

Record renv := REnv {
  re_store : store;
  re_failure_count : Z;
  re_open_until : Z;
  re_attempts : list attempt   (** outcomes to come; [Replied] once they run out *)
}.

Definition M (A : Type) : Type := renv -> renv * result queue_error A.
Definition ret {A} (a : A) : M A := fun e => (e, Ok a).
Definition raise {A} (x : queue_error) : M A := fun e => (e, Err x).
Definition bind {A B} (m : M A) (k : A -> M B) : M B :=
  fun e => match m e with (e', Ok a) => k a e' | (e', Err x) => (e', Err x) end.
#[local] Notation "'let*' x ':=' m 'in' k" := (bind m (fun x => k)) (at level 10, x pattern, m at level 100, k at level 200).

(** One attempt of a command. *)
Definition attempt_once {A} (f : store -> store * A) (e : renv) : renv * option A :=
  let with_store s := REnv s (re_failure_count e) (re_open_until e) (tail (re_attempts e)) in
  match default Replied (head (re_attempts e)) with
  | Replied => (with_store (f (re_store e)).1, Some (f (re_store e)).2)
  | ReplyLost => (with_store (f (re_store e)).1, None)
  | Unreached => (with_store (re_store e), None)
  end.

(** [_redis_retry]: stop after [n] attempts. *)
Fixpoint attempts {A} (n : nat) (f : store -> store * A) (e : renv) : renv * option A :=
  match n with
  | O => (e, None)
  | S n' => match attempt_once f e with (e', Some r) => (e', Some r) | (e', None) => attempts n' f e' end
  end.

Definition check_circuit_breaker (now : Z) : M unit :=
  fun e => if now <? re_open_until e then (e, Err CircuitOpen) else (e, Ok ()).

Definition record_success (e : renv) : renv := REnv (re_store e) 0 0 (re_attempts e).

Definition record_failure (now : Z) (e : renv) : renv :=
  let n := re_failure_count e + 1 in
  REnv (re_store e) n (if cf_threshold cf <=? n then now + cf_open_ms cf else re_open_until e) (re_attempts e).

Definition run_redis_operation {A} (now : Z) (f : store -> store * A) : M A :=
  fun e => match attempts 3 f e with
           | (e', Some r) => (record_success e', Ok r)
           | (e', None) => (record_failure now e', Err ConnectionError)
           end.

(** A command issued without retries; its failure is not recorded. *)
Definition direct {A} (f : store -> A) : M A :=
  fun e => match attempt_once (fun s => (s, f s)) e with (e', Some r) => (e', Ok r) | (e', None) => (e', Err ConnectionError) end.

Definition assert_ready (now : Z) : M unit :=
  let* _ := check_circuit_breaker now in run_redis_operation now (fun s => (s, ())).

(** ** Metrics *)

Record metrics := Metrics { mt_queue_depth : Z; mt_in_flight : Z; mt_failed : Z; mt_delayed : Z; mt_dlq_depth : Z; mt_max : Z; mt_total : Z }.

Definition get_dlq_depth : M Z := direct (fun s => llen_z (st_dead s)).

Definition get_metrics : M metrics :=
  let* depth := direct (fun s => llen_z (st_queue s)) in
  let* delayed := direct (fun s => llen_z (st_delayed s)) in
  let* inflight := direct (fun s => llen_z (st_inflight s)) in
  let* failed := get_dlq_depth in
  let* dlq := get_dlq_depth in
  ret (Metrics depth inflight failed delayed dlq (cf_max cf) (depth + delayed)).

Definition refresh_queue_metrics : M unit := let* _ := get_metrics in ret ().

(** ** Operations *)

Definition enqueue (now : Z) (p : payload) : M unit :=
  let* _ := check_circuit_breaker now in
  let* r := run_redis_operation now (enqueue_with_capacity (cf_max cf) (to_json p)) in
  if r =? -1 then raise Saturated else refresh_queue_metrics.

Definition dequeue (now : Z) (fresh : string) : M (option payload) :=
  let* _ := check_circuit_breaker now in
  let* r := run_redis_operation now rpop in
  match r with
  | None => ret None
  | Some r =>
      match from_json fresh r with
      | Undecodable => ret None
      | Foreign => raise ForeignMessage
      | Decoded job =>
          let* _ := run_redis_operation now (hset (job_id job) r now) in
          let* _ := refresh_queue_metrics in ret (Some job)
      end
  end.

Definition ack (now : Z) (j : string) : M unit :=
  let* _ := run_redis_operation now (hdel j) in refresh_queue_metrics.

Definition fail (now : Z) (j : string) (error : string) : M unit :=
  let* entry := run_redis_operation now (hget j) in
  let* _ := run_redis_operation now (hdel j) in
  let payload_raw := match entry with Some (r, _) => r | None => RText "" end in
  let* _ := run_redis_operation now (lpush_dead (DeadLetter j payload_raw error now)) in
  refresh_queue_metrics.

Definition enqueue_delayed (now : Z) (p : payload) (delay : Z) : M unit :=
  let* r := run_redis_operation now (enqueue_delayed_with_capacity (cf_max cf) (to_json p) (now + delay)) in
  if r =? -1 then raise Saturated else refresh_queue_metrics.

Definition process_delayed_jobs (now : Z) : M Z :=
  let* n := run_redis_operation now (process_delayed now) in
  let* _ := refresh_queue_metrics in ret n.

(** One entry of the scan: delete it, and push its payload if the delete was ours. *)
Definition requeue_entry (now timeout : Z) (entry : string * (raw * Z)) : M bool :=
  let '(j, (r, at_)) := entry in
  if now - at_ <=? timeout then ret false
  else let* removed := run_redis_operation now (hdel j) in
       if (removed : bool) then let* _ := run_redis_operation now (lpush r) in ret true else ret false.

(** The loop; an entry that raises is skipped. *)
Fixpoint requeue_entries (now timeout : Z) (entries : list (string * (raw * Z))) (e : renv) : renv * nat :=
  match entries with
  | [] => (e, O)
  | entry :: rest =>
      let '(e1, r) := requeue_entry now timeout entry e in
      let '(e2, n) := requeue_entries now timeout rest e1 in
      (e2, match r with Ok true => S n | _ => n end)
  end.

Definition requeue_stale_jobs (now timeout : Z) : M nat :=
  let* entries := run_redis_operation now hgetall in
  fun e => let '(e', n) := requeue_entries now timeout entries e in (let* _ := refresh_queue_metrics in ret n) e'.

(** ** Dead letters *)

Definition peek_dead_letters (n : Z) : M (list dead_letter) :=
  direct (fun s => if n <=? 0 then st_dead s else take (Z.to_nat n) (st_dead s)).

(** [LREM key 1 d] *)
Fixpoint lrem1 (d : dead_letter) (l : list dead_letter) : list dead_letter :=
  match l with [] => [] | x :: l' => if decide (x = d) then l' else x :: lrem1 d l' end.

Definition remove_dead_letter (now : Z) (j : string) : M bool :=
  let* entries := run_redis_operation now (fun s => (s, st_dead s)) in
  match List.find (fun d => bool_decide (dl_job_id d = j)) entries with
  | None => ret false
  | Some d =>
      let* removed := run_redis_operation now (fun s => (on_dead (lrem1 d) s, bool_decide (d ∈ st_dead s))) in
      if (removed : bool) then let* _ := refresh_queue_metrics in ret true else ret false
  end.

Definition drain_dead_letters (now : Z) : M Z :=
  let* n := get_dlq_depth in
  if n <=? 0 then ret 0
  else let* _ := run_redis_operation now (fun s => (on_dead (fun _ => []) s, ())) in
       let* _ := refresh_queue_metrics in ret n.
End Redis.

(** ** Reasoning over calls that may fail

    [keeps P m]: whatever the attempts come to, [m] keeps [P] of the server's keys. *)

Definition keeps {A} (P : store -> Prop) (m : M A) : Prop := forall e, P (re_store e) -> P (re_store (m e).1).

Section Keeps.
Context (before : raw -> raw -> bool) (cf : config) (P : store -> Prop).

Lemma keeps_ret {A} (a : A) : keeps P (ret a).
Proof. by intros e H. Qed.

Lemma keeps_raise {A} x : keeps P (raise (A := A) x).
Proof. by intros e H. Qed.

Lemma keeps_bind {A B} (m : M A) (k : A -> M B) : keeps P m -> (forall a, keeps P (k a)) -> keeps P (bind m k).
Proof.
  intros Hm Hk e H. unfold bind. specialize (Hm e H). destruct (m e) as [e' [a|x]]; simpl in *; [by apply Hk|done].
Qed.

Lemma keeps_check now : keeps P (check_circuit_breaker now).
Proof. intros e H. unfold check_circuit_breaker. by destruct (_ <? _). Qed.

Lemma keeps_attempts {A} n (f : store -> store * A) :
  (forall s, P s -> P (f s).1) -> forall e, P (re_store e) -> P (re_store (attempts n f e).1).
Proof.
  intros Hf. induction n as [|n IH]; intros e H; [done|]. simpl. unfold attempt_once.
  destruct (default Replied (head (re_attempts e))); simpl; [by apply Hf|apply IH; simpl; by apply Hf|by apply IH].
Qed.

Lemma keeps_run {A} now (f : store -> store * A) : (forall s, P s -> P (f s).1) -> keeps P (run_redis_operation cf now f).
Proof.
  intros Hf e H. unfold run_redis_operation. pose proof (keeps_attempts 3 f Hf e H) as H'.
  by destruct (attempts 3 f e) as [e' [r|]].
Qed.

Lemma keeps_direct {A} (f : store -> A) : keeps P (direct f).
Proof.
  intros e H. unfold direct, attempt_once. by destruct (default Replied (head (re_attempts e))).
Qed.

Lemma keeps_refresh : keeps P (refresh_queue_metrics cf).
Proof.
  unfold refresh_queue_metrics, get_metrics, get_dlq_depth.
  repeat (apply keeps_bind; [repeat (apply keeps_bind; [apply keeps_direct|intros ?]); apply keeps_ret|intros ?]). apply keeps_ret.
Qed.
End Keeps.

Create HintDb redis.
#[export] Hint Resolve keeps_ret keeps_raise keeps_check keeps_direct keeps_refresh : redis.

(** Splits a sequence of calls into its commands. *)
Ltac keeps_calls :=
  repeat first [ apply keeps_ret | apply keeps_raise | apply keeps_check | apply keeps_direct | apply keeps_refresh
               | apply keeps_run; [] | apply keeps_bind; [|intros ?]
               | match goal with |- keeps _ (match ?x with _ => _ end) => destruct x end ].

(** While every attempt is answered, a call is its command. *)
Section Up.
Context (before : raw -> raw -> bool) (cf : config).

Definition up (e : renv) : Prop := re_attempts e = [].

Lemma run_up {A} now (f : store -> store * A) e :
  up e -> run_redis_operation cf now f e = (REnv (f (re_store e)).1 0 0 [], Ok (f (re_store e)).2).
Proof. unfold up. intros He. unfold run_redis_operation. simpl. unfold attempt_once. rewrite He. simpl. done. Qed.

Lemma refresh_up e : up e -> refresh_queue_metrics cf e = (e, Ok ()).
Proof. destruct e as [s n o a]. unfold up. simpl. by intros ->. Qed.

Lemma check_up now e : re_open_until e <= now -> check_circuit_breaker now e = (e, Ok ()).
Proof. intros Hn. unfold check_circuit_breaker. by rewrite (proj2 (Z.ltb_ge _ _) Hn). Qed.

Lemma up_env s n o : up (REnv s n o []).
Proof. done. Qed.
End Up.

(** ** The shape of the keys *)

Definition job_of (r : raw) : option payload := match from_json "" r with Decoded p => Some p | _ => None end.

#[global] Arguments job_of : simpl never.
#[global] Arguments to_json : simpl never.

Definition wf_raw (r : raw) : Prop := exists p, wf_payload p /\ r = to_json p.

Definition wf_entry (x : string * (raw * Z)) : Prop := exists p, wf_payload p /\ x.2.1 = to_json p /\ job_id p = x.1.

Record wf_store (s : store) : Prop := WfStore {
  wf_queue : Forall wf_raw (st_queue s);
  wf_delayed : Forall (fun x => wf_raw x.1) (st_delayed s);
  wf_members : NoDup (map fst (st_delayed s));
  wf_fields : dict_wf (st_inflight s);
  wf_inflight : Forall wf_entry (st_inflight s)
}.

Definition load (s : store) : Z := llen_z (st_queue s) + llen_z (st_delayed s).

Lemma job_of_to_json p : wf_payload p -> job_of (to_json p) = Some p.
Proof. intros H. unfold job_of. by rewrite from_to_json. Qed.

Lemma length_jobs l : Forall wf_raw l -> length (omap job_of l) = length l.
Proof. induction 1 as [|r l (p & Hp & ->) Hl IH]; [done|]. simpl. f_equal. exact IH. Qed.

Section Zset.
Context (before : raw -> raw -> bool).

Lemma zinsert_perm m sc z : zinsert before m sc z ≡ₚ (m, sc) :: z.
Proof.
  induction z as [|[m' sc'] z IH]; [done|]. cbn [zinsert]. destruct (_ || _); [done|]. rewrite IH. apply Permutation_swap.
Qed.

Lemma zadd_NoDup m sc z : NoDup (map fst z) -> NoDup (map fst (zadd before m sc z)).
Proof.
  intros H. unfold zadd. rewrite zinsert_perm. simpl. apply NoDup_cons. split.
  - intros Hin. apply list_elem_of_fmap in Hin as (x & -> & Hx). by apply list_elem_of_filter in Hx as [? _].
  - eapply sublist_NoDup; [exact H|]. apply (fmap_sublist fst), sublist_filter.
Qed.

Lemma zadd_elem m sc z x : x ∈ zadd before m sc z <-> x = (m, sc) \/ (x.1 <> m /\ x ∈ z).
Proof. unfold zadd. rewrite zinsert_perm, elem_of_cons, list_elem_of_filter. done. Qed.

Lemma zadd_length m sc z : llen_z (zadd before m sc z) <= llen_z z + 1.
Proof.
  unfold zadd, llen_z. rewrite zinsert_perm. cbn [length].
  pose proof (length_filter (fun x : raw * Z => x.1 <> m) z). lia.
Qed.
End Zset.

Lemma rpop_spec s :
  match st_queue s with
  | [] => rpop s = (s, None)
  | _ => exists q r, st_queue s = q ++ [r] /\ rpop s = (on_queue (fun _ => q) s, Some r)
  end.
Proof.
  unfold rpop. destruct (last (st_queue s)) as [r|] eqn:E.
  - apply last_Some in E as [q Hq]. rewrite Hq.
    destruct (q ++ [r]) eqn:Eq; [by apply app_nil in Eq as [_ ?]|]. exists q, r. split; [done|].
    f_equal. unfold on_queue. rewrite Hq, <- Eq, length_app. simpl. rewrite Nat.add_1_r. simpl. by rewrite take_app_length.
  - apply last_None in E. by rewrite E.
Qed.

(** ** Commands keep the shape *)

Section Shape.
Context (before : raw -> raw -> bool).

Lemma wf_lpush r s : wf_raw r -> wf_store s -> wf_store (lpush r s).1.
Proof. intros Hr []. constructor; try done. by apply Forall_cons. Qed.

Lemma wf_rpop s : wf_store s -> wf_store (rpop s).1 /\ forall r, (rpop s).2 = Some r -> wf_raw r.
Proof.
  intros [H1 H2 H3 H4 H5]. pose proof (rpop_spec s) as Hp. destruct (st_queue s) eqn:E.
  - rewrite Hp. split; [|done]. constructor; simpl; rewrite ?E; done.
  - destruct Hp as (q & r' & Hq & ->). cbn [fst snd]. rewrite Hq in H1. apply Forall_app in H1 as [H1 Hr].
    rewrite Forall_singleton in Hr. split; [by constructor|]. by intros r'' [= <-].
Qed.

Lemma wf_hset j r at_ p s :
  wf_payload p -> r = to_json p -> job_id p = j -> wf_store s -> wf_store (hset j r at_ s).1.
Proof.
  intros Hp -> <- []. constructor; try done; simpl; [by apply dict_set_wf|].
  apply Forall_forall. intros x [->|Hx]%dict_elem_set; [by exists p|]. by apply (proj1 (Forall_forall _ _) wf_inflight0).
Qed.

Lemma wf_hdel j s : wf_store s -> wf_store (hdel j s).1.
Proof.
  intros []. constructor; try done; simpl; [by apply dict_del_wf|].
  apply Forall_forall. intros x Hx%dict_elem_del. by apply (proj1 (Forall_forall _ _) wf_inflight0).
Qed.

Lemma wf_on_dead f s : wf_store s -> wf_store (on_dead f s).
Proof. by intros []. Qed.

Lemma wf_admit max r s : wf_raw r -> wf_store s -> wf_store (enqueue_with_capacity max r s).1.
Proof. intros Hr Hs. unfold enqueue_with_capacity. destruct (_ <=? _); [done|by apply wf_lpush]. Qed.

Lemma wf_admit_delayed max r at_ s : wf_raw r -> wf_store s -> wf_store (enqueue_delayed_with_capacity before max r at_ s).1.
Proof.
  intros Hr Hs. unfold enqueue_delayed_with_capacity. destruct (_ <=? _); [done|]. destruct Hs. constructor; try done; simpl.
  - apply Forall_forall. intros x [->|[_ Hx]]%zadd_elem; [done|]. by apply (proj1 (Forall_forall _ _) wf_delayed0).
  - by apply zadd_NoDup.
Qed.

Lemma ready_elem n (now : Z) (z : list (raw * Z)) r :
  r ∈ take n (map fst (base.filter (fun x : raw * Z => x.2 <= now) z)) -> r ∈ map fst z.
Proof.
  intros H. apply elem_of_take in H as (i & Hi & _). apply list_elem_of_lookup_2 in Hi.
  apply list_elem_of_fmap in Hi as (x & -> & Hx). apply list_elem_of_filter in Hx as [_ Hx]. apply list_elem_of_fmap. by exists x.
Qed.

Lemma wf_promote now s : wf_store s -> wf_store (process_delayed now s).1.
Proof.
  intros []. constructor; try done; simpl.
  - apply Forall_app. split; [|done]. apply Forall_forall. intros r Hr.
    rewrite list_elem_of_In, <- in_rev, <- list_elem_of_In in Hr. apply ready_elem in Hr. apply list_elem_of_fmap in Hr as (x & -> & Hx). by apply (proj1 (Forall_forall _ _) wf_delayed0).
  - apply Forall_forall. intros x [_ Hx]%list_elem_of_filter. by apply (proj1 (Forall_forall _ _) wf_delayed0).
  - eapply sublist_NoDup; [exact wf_members0|]. apply (fmap_sublist fst), sublist_filter.
Qed.

(** The promotion moves what it takes. *)
Lemma promote_load now s : wf_store s -> load (process_delayed now s).1 = load s.
Proof.
  intros [_ _ Hnd _ _]. unfold load, process_delayed, llen_z. cbn [fst st_queue st_delayed].
  set (ready := take 100 _). rewrite length_app, length_rev.
  assert (Hr : NoDup ready /\ forall r, r ∈ ready -> r ∈ map fst (st_delayed s)).
  { split; [|intros r; apply ready_elem]. apply (sublist_NoDup _ (map fst (base.filter (fun x : raw * Z => x.2 <= now) (st_delayed s)))).
    - eapply sublist_NoDup; [exact Hnd|]. apply (fmap_sublist fst), sublist_filter.
    - apply sublist_take. }
  destruct Hr as [Hr1 Hr2]. clearbody ready.
  enough (length ready + length (base.filter (fun x : raw * Z => x.1 ∉ ready) (st_delayed s)) = length (st_delayed s))%nat by lia.
  assert (Hp : base.filter (fun x => x ∈ ready) (map fst (st_delayed s)) ≡ₚ ready).
  { apply NoDup_Permutation; [by apply NoDup_filter|done|]. intros r. rewrite list_elem_of_filter. naive_solver. }
  rewrite <- (Permutation_length Hp). clear. induction (st_delayed s) as [|[m sc] z IH]; [done|].
  cbn [map]. rewrite !filter_cons. cbn [fst]. destruct (decide (m ∈ ready)).
  - rewrite decide_False by tauto. simpl in *. lia.
  - rewrite decide_True by done. simpl in *. lia.
Qed.
End Shape.

(** A call whose answer the rest depends on. *)
Lemma keeps_run_bind {A B} cf P now (f : store -> store * A) (k : A -> M B) :
  (forall s, P s -> P (f s).1) -> (forall s, P s -> keeps P (k (f s).2)) -> keeps P (bind (run_redis_operation cf now f) k).
Proof.
  intros Hf Hk.
  assert (H : forall n e, P (re_store e) ->
    P (re_store (attempts n f e).1) /\ forall r, (attempts n f e).2 = Some r -> keeps P (k r)).
  { induction n as [|n IH]; intros e He; [done|]. simpl. unfold attempt_once.
    destruct (default Replied (head (re_attempts e))); simpl.
    - split; [by apply Hf|]. intros r [= <-]. by apply Hk.
    - apply IH. simpl. by apply Hf.
    - by apply IH. }
  intros e He. unfold bind, run_redis_operation. destruct (H 3%nat e He) as [H1 H2].
  destruct (attempts 3 f e) as [e' [r|]]; simpl in *; [|done]. by apply H2.
Qed.

(** ** Runs of the queue *)

Inductive op :=
| Enqueue (p : payload) | EnqueueDelayed (p : payload) (delay : Z) | Dequeue | Ack (j : string) | Fail (j error : string)
| Promote | Requeue (timeout : Z) | RemoveDead (j : string) | DrainDead.

(** A step: the time, the operation, and what its attempts come to. *)
Definition step : Type := Z * op * list attempt.

Section Runs.
Context (before : raw -> raw -> bool) (cf : config).

Definition exec (now : Z) (o : op) : M unit :=
  match o with
  | Enqueue p => enqueue cf now p
  | EnqueueDelayed p d => enqueue_delayed before cf now p d
  | Dequeue => bind (dequeue cf now "") (fun _ => ret ())
  | Ack j => ack cf now j
  | Fail j error => fail cf now j error
  | Promote => bind (process_delayed_jobs cf now) (fun _ => ret ())
  | Requeue timeout => bind (requeue_stale_jobs cf now timeout) (fun _ => ret ())
  | RemoveDead j => bind (remove_dead_letter cf now j) (fun _ => ret ())
  | DrainDead => bind (drain_dead_letters cf now) (fun _ => ret ())
  end.

Definition run_step (e : renv) (st : step) : renv :=
  let '(now, o, a) := st in (exec now o (REnv (re_store e) (re_failure_count e) (re_open_until e) a)).1.

Definition run_steps (e : renv) (l : list step) : renv := fold_left run_step l e.

Definition wf_op (o : op) : Prop := match o with Enqueue p | EnqueueDelayed p _ => wf_payload p | _ => True end.

Lemma wf_raw_to_json p : wf_payload p -> wf_raw (to_json p).
Proof. by exists p. Qed.

(** Deleting entries and pushing their payloads, in any order of failures. *)
Lemma keeps_requeue_entries (P : store -> Prop) now timeout entries :
  (forall j s, P s -> P (hdel j s).1) ->
  (forall j r at_ s, (j, (r, at_)) ∈ entries -> P s -> P (lpush r s).1) ->
  forall e, P (re_store e) -> P (re_store (requeue_entries cf now timeout entries e).1).
Proof.
  intros Hd. induction entries as [|[j [r at_]] entries IH]; intros Hp e He; [done|]. cbn [requeue_entries].
  assert (H1 : keeps P (requeue_entry cf now timeout (j, (r, at_)))).
  { unfold requeue_entry. keeps_calls; intros s Hs; [by apply Hd|]. eapply Hp; [by left|done]. }
  specialize (H1 e He). destruct (requeue_entry cf now timeout (j, (r, at_)) e) as [e1 r1].
  specialize (IH (fun j' r' a' s Hin => Hp j' r' a' s (list_elem_of_further _ _ _ Hin)) e1 H1).
  by destruct (requeue_entries cf now timeout entries e1) as [e2 n].
Qed.

Lemma keeps_requeue (P : store -> Prop) now timeout :
  (forall j s, P s -> P (hdel j s).1) ->
  (forall j r at_ s s', (j, (r, at_)) ∈ st_inflight s -> P s -> P s' -> P (lpush r s').1) ->
  keeps P (requeue_stale_jobs cf now timeout).
Proof.
  intros Hd Hp. apply keeps_run_bind; [done|]. intros s Hs e He. cbn [snd hgetall].
  pose proof (keeps_requeue_entries P now timeout (st_inflight s) Hd) as Hk.
  destruct (requeue_entries cf now timeout (st_inflight s) e) as [e' n] eqn:E.
  assert (H : keeps P (bind (refresh_queue_metrics cf) (fun _ => ret n))) by keeps_calls. apply H.
  change e' with (e', n).1. rewrite <- E. apply Hk; [|done]. intros j r at_ s' Hj Hs'. by eapply Hp.
Qed.

Lemma dequeue_wf now fresh : keeps wf_store (dequeue cf now fresh).
Proof.
  apply keeps_bind; [apply keeps_check|intros _].
  apply keeps_run_bind; [intros s Hs; by apply wf_rpop|]. intros s Hs.
  destruct (rpop s).2 as [r|] eqn:Hr; [|apply keeps_ret]. apply (proj2 (wf_rpop s Hs)) in Hr as (p & Hp & ->).
  rewrite from_to_json by done. keeps_calls. intros s' Hs'. by eapply wf_hset.
Qed.

Lemma requeue_wf now timeout : keeps wf_store (requeue_stale_jobs cf now timeout).
Proof.
  apply keeps_requeue; [apply wf_hdel|]. intros j r at_ s s' Hj [_ _ _ _ Hin] Hs'. apply wf_lpush; [|done].
  apply (proj1 (Forall_forall _ _) Hin) in Hj as (p & Hp & Hr & _). by exists p.
Qed.

(** Whatever fails, the keys keep their shape. *)
Lemma exec_wf now o : wf_op o -> keeps wf_store (exec now o).
Proof.
  destruct o; intros Hop; cbn [exec];
    [| |apply keeps_bind; [apply dequeue_wf|intros _]| | | |apply keeps_bind; [apply requeue_wf|intros _]| |];
    keeps_calls; intros s Hs;
    first [by apply wf_hdel | by apply wf_promote | by apply wf_on_dead | done
          | by apply wf_admit; [apply wf_raw_to_json|] | by apply wf_admit_delayed; [apply wf_raw_to_json|]].
Qed.

Lemma run_steps_inv (P : store -> Prop) (Q : step -> Prop) l :
  (forall e st, Q st -> P (re_store e) -> P (re_store (run_step e st))) ->
  forall e, Forall Q l -> P (re_store e) -> P (re_store (run_steps e l)).
Proof. intros H. induction l as [|st l IH]; intros e Hl He; [done|]. apply Forall_cons in Hl as [Hst Hl]. simpl. by apply IH, H. Qed.

(** *** Capacity *)

Definition within (s : store) : Prop := wf_store s /\ load s <= cf_max cf.

Lemma admit_within p s : wf_payload p -> within s -> within (enqueue_with_capacity (cf_max cf) (to_json p) s).1.
Proof.
  intros Hp [Hw Hl]. split; [by apply wf_admit; [apply wf_raw_to_json|]|].
  unfold enqueue_with_capacity. destruct (cf_max cf <=? _) eqn:E; [done|]. boolprop. unfold load, llen_z in *. simpl in *. lia.
Qed.

Lemma admit_delayed_within p at_ s : wf_payload p -> within s -> within (enqueue_delayed_with_capacity before (cf_max cf) (to_json p) at_ s).1.
Proof.
  intros Hp [Hw Hl]. split; [by apply wf_admit_delayed; [apply wf_raw_to_json|]|].
  unfold enqueue_delayed_with_capacity. destruct (cf_max cf <=? _) eqn:E; [done|]. boolprop. unfold load in *. simpl.
  pose proof (zadd_length before (to_json p) at_ (st_delayed s)). lia.
Qed.

Lemma rpop_load s : load (rpop s).1 <= load s.
Proof.
  pose proof (rpop_spec s) as H. destruct (st_queue s) eqn:E; [by rewrite H|].
  destruct H as (q & r' & Hq & ->). unfold load, llen_z. simpl. rewrite E, Hq, length_app. simpl. lia.
Qed.

Lemma dequeue_within now fresh : keeps within (dequeue cf now fresh).
Proof.
  apply keeps_bind; [apply keeps_check|intros _]. apply keeps_run_bind.
  - intros s [Hw Hl]. split; [by apply wf_rpop|]. pose proof (rpop_load s). lia.
  - intros s [Hw _]. destruct (rpop s).2 as [r|] eqn:Hr; [|apply keeps_ret]. apply (proj2 (wf_rpop s Hw)) in Hr as (p & Hp & ->).
    rewrite from_to_json by done. keeps_calls. intros s' [Hs' Hl]. split; [by eapply wf_hset|done].
Qed.

(** Recovery pushes without asking for room. *)
Definition requeues (o : op) : bool := match o with Requeue _ => true | _ => false end.

Lemma exec_within now o : wf_op o -> requeues o = false -> keeps within (exec now o).
Proof.
  destruct o; intros Hop Hr; cbn [exec]; try done;
    [| |apply keeps_bind; [apply dequeue_within|intros _]| | | | |];
    keeps_calls; intros s Hs;
    first [ by apply admit_within | by apply admit_delayed_within | destruct Hs as [Hw Hl]; split;
      [first [by apply wf_hdel | by apply wf_promote | by apply wf_on_dead | done]|first [by rewrite promote_load | done]] ].
Qed.

(** *** No job is lost *)

(** The id of the job a wire text carries. *)
Definition key_of (r : raw) : option string := option_map job_id (job_of r).

Definition holds (j : string) (s : store) : Prop :=
  (exists r, key_of r = Some j /\ (r ∈ st_queue s \/ r ∈ map fst (st_delayed s))) \/ j ∈ dict_keys (st_inflight s).

Definition kept (j : string) (s : store) : Prop := wf_store s /\ holds j s.

Lemma key_of_to_json p : wf_payload p -> key_of (to_json p) = Some (job_id p).
Proof. intros H. unfold key_of. by rewrite job_of_to_json. Qed.

Lemma holds_lpush j r s : holds j s -> holds j (lpush r s).1.
Proof. intros [(r' & Hk & [H|H])|H]; [|left; exists r'; split; [done|by right]|by right]. left. exists r'. split; [done|]. left. by right. Qed.

Lemma holds_hdel j j' s : j' <> j -> holds j s -> holds j (hdel j' s).1.
Proof.
  intros Hne [H|H]; [by left|]. right. simpl. apply dict_get_is_Some. rewrite dict_get_del_ne by done. by apply dict_get_is_Some.
Qed.

Lemma holds_hset j j' r at_ s : holds j s -> holds j (hset j' r at_ s).1.
Proof.
  intros [H|H]; [by left|]. right. simpl. apply dict_get_is_Some. destruct (decide (j' = j)) as [->|Hne].
  - rewrite dict_get_set_eq. by eexists.
  - rewrite dict_get_set_ne by done. by apply dict_get_is_Some.
Qed.

Lemma holds_zadd j r at_ s : holds j s -> holds j (Store (st_queue s) (st_inflight s) (zadd before r at_ (st_delayed s)) (st_dead s)).
Proof.
  intros [(r' & Hk & [H|H])|H]; [left; exists r'; split; [done|by left]| |by right].
  left. exists r'. split; [done|]. right. simpl. apply list_elem_of_fmap in H as ([m sc] & -> & Hin). apply list_elem_of_fmap.
  destruct (decide (m = r)) as [->|Hne].
  - exists (r, at_). split; [done|]. apply zadd_elem. by left.
  - exists (m, sc). split; [done|]. apply zadd_elem. by right.
Qed.

Lemma holds_promote j now s : holds j s -> holds j (process_delayed now s).1.
Proof.
  intros [(r & Hk & [H|H])|H]; [| |by right].
  - left. exists r. split; [done|]. left. simpl. apply elem_of_app. by right.
  - left. exists r. split; [done|]. simpl. set (ready := take 100 _). destruct (decide (r ∈ ready)) as [Hin|Hn].
    + left. apply elem_of_app. left. apply list_elem_of_In, in_rev. rewrite rev_involutive. by apply list_elem_of_In.
    + right. apply list_elem_of_fmap in H as (x & -> & Hx). apply list_elem_of_fmap. exists x. split; [done|]. by apply list_elem_of_filter.
Qed.

(** The steps the guarantee is for: the job itself is not settled, and the calls of
    a dequeue or of a recovery are answered. *)
Definition safe_step (j : string) (st : step) : Prop :=
  let '(now, o, a) := st in
  wf_op o /\ match o with Ack j' | Fail j' _ => j' <> j | Dequeue | Requeue _ => a = [] | _ => True end.

Lemma dequeue_up now fresh e :
  re_open_until e <= now -> up e -> wf_store (re_store e) ->
  (st_queue (re_store e) = [] /\ dequeue cf now fresh e = (REnv (re_store e) 0 0 [], Ok None)) \/
  (exists q p, wf_payload p /\ st_queue (re_store e) = q ++ [to_json p] /\
     dequeue cf now fresh e = (REnv (hset (job_id p) (to_json p) now (on_queue (fun _ => q) (re_store e))).1 0 0 [], Ok (Some p))).
Proof.
  intros Hn Hup Hw. unfold dequeue, bind. rewrite check_up, run_up by done.
  pose proof (rpop_spec (re_store e)) as Hp. pose proof (proj2 (wf_rpop _ Hw)) as Hr.
  destruct (st_queue (re_store e)) eqn:E; [left; by rewrite Hp|right]. destruct Hp as (q & r' & Hq & Hrp). rewrite Hrp in *.
  destruct (Hr r' eq_refl) as (p & Hwp & ->). exists q, p. split_and!; [done|done|]. cbn [fst snd].
  rewrite from_to_json, run_up, refresh_up by done. done.
Qed.

Lemma kept_dequeue j now fresh e : up e -> kept j (re_store e) -> kept j (re_store (dequeue cf now fresh e).1).
Proof.
  intros Hup [Hw Hh]. split; [by apply dequeue_wf|].
  destruct (decide (now < re_open_until e)) as [Hlt|Hge].
  { unfold dequeue, bind, check_circuit_breaker. by rewrite (proj2 (Z.ltb_lt _ _) Hlt). }
  destruct (dequeue_up now fresh e ltac:(lia) Hup Hw) as [[_ ->]|(q & p & Hwp & Hq & ->)]; [done|].
  destruct (decide (job_id p = j)) as [<-|Hne].
  { right. simpl. apply dict_get_is_Some. rewrite dict_get_set_eq. by eexists. }
  apply holds_hset. destruct Hh as [(r & Hk & [H|H])|H]; [|left; exists r; split; [done|by right]|by right].
  left. exists r. split; [done|]. left. simpl. rewrite Hq in H. apply elem_of_app in H as [H|H]; [done|].
  apply list_elem_of_singleton in H as ->. rewrite key_of_to_json in Hk by done. by injection Hk.
Qed.

(** Recovery with answered calls: the stale entries leave the hash and enter the queue. *)
Lemma requeue_entries_up now timeout : forall entries e,
  up e -> NoDup (dict_keys entries) -> (forall j, j ∈ dict_keys entries -> j ∈ dict_keys (st_inflight (re_store e))) ->
  let stale := base.filter (fun x : string * (raw * Z) => timeout < now - x.2.2) entries in
  let '(e', n) := requeue_entries cf now timeout entries e in
  n = length stale /\ up e' /\ (re_open_until e = 0 -> re_open_until e' = 0) /\
  re_store e' = Store (rev (map (fun x : string * (raw * Z) => x.2.1) stale) ++ st_queue (re_store e))
                  (dict_del_all (st_inflight (re_store e)) (map fst stale)) (st_delayed (re_store e)) (st_dead (re_store e)).
Proof.
  induction entries as [|[j [r at_]] entries IH]; intros e Hup Hnd Hin; cbv zeta.
  { simpl. split_and!; [done|done|done|]. by destruct (re_store e). }
  cbn [requeue_entries]. unfold requeue_entry. simpl in Hnd. apply NoDup_cons in Hnd as [Hj Hnd]. rewrite filter_cons. simpl.
  destruct (now - at_ <=? timeout) eqn:E; boolprop.
  - rewrite decide_False by lia. specialize (IH e Hup Hnd (fun j' H => Hin j' (list_elem_of_further _ _ _ H))).
    cbv zeta in IH. simpl. by destruct (requeue_entries cf now timeout entries e) as [e' n].
  - rewrite decide_True by lia. unfold bind. rewrite run_up by done. cbn [snd hdel fst re_store].
    rewrite (proj2 (dict_mem_true j (st_inflight (re_store e)))) by (apply Hin; by left).
    rewrite run_up by done. cbn [ret]. set (e1 := REnv _ 0 0 []).
    assert (H1 : up e1) by done. specialize (IH e1 H1 Hnd).
    assert (H2 : forall j', j' ∈ dict_keys entries -> j' ∈ dict_keys (st_inflight (re_store e1))).
    { intros j' Hj'. simpl. apply dict_get_is_Some. rewrite dict_get_del_ne by congruence. apply dict_get_is_Some, Hin. by right. }
    specialize (IH H2). cbv zeta in IH. destruct (requeue_entries cf now timeout entries e1) as [e' n].
    destruct IH as (-> & Hup' & Ho & Hst). split_and!; [done|done|intros _; by apply Ho|]. rewrite Hst. simpl.
    by rewrite <- app_assoc.
Qed.

Lemma requeue_up now timeout e :
  up e -> wf_store (re_store e) ->
  let stale := base.filter (fun x : string * (raw * Z) => timeout < now - x.2.2) (st_inflight (re_store e)) in
  let '(e', r) := requeue_stale_jobs cf now timeout e in
  r = Ok (length stale) /\ up e' /\ re_open_until e' = 0 /\
  re_store e' = Store (rev (map (fun x : string * (raw * Z) => x.2.1) stale) ++ st_queue (re_store e))
                  (base.filter (fun x : string * (raw * Z) => ~ timeout < now - x.2.2) (st_inflight (re_store e)))
                  (st_delayed (re_store e)) (st_dead (re_store e)).
Proof.
  intros Hup [_ _ _ Hf _]. cbv zeta. unfold requeue_stale_jobs, bind at 1. rewrite run_up by done. cbn [snd hgetall fst].
  pose proof (requeue_entries_up now timeout (st_inflight (re_store e)) (REnv (re_store e) 0 0 []) (up_env _ _ _) Hf
    (fun j H => H)) as H. cbv zeta in H.
  destruct (requeue_entries cf now timeout (st_inflight (re_store e)) (REnv (re_store e) 0 0 [])) as [e' n].
  destruct H as (-> & Hup' & Ho & Hst). unfold bind. rewrite refresh_up by done. cbn [ret].
  split_and!; [done|done|by apply Ho|]. rewrite Hst. simpl. by rewrite dict_del_all_filter.
Qed.

Lemma kept_requeue j now timeout e : up e -> kept j (re_store e) -> kept j (re_store (requeue_stale_jobs cf now timeout e).1).
Proof.
  intros Hup [Hw Hh]. split; [by apply requeue_wf|]. pose proof (requeue_up now timeout e Hup Hw) as H. cbv zeta in H.
  destruct (requeue_stale_jobs cf now timeout e) as [e' r]. destruct H as (_ & _ & _ & Hst). simpl. rewrite Hst.
  destruct Hh as [(r' & Hk & [H|H])|H].
  - left. exists r'. split; [done|]. left. simpl. apply elem_of_app. by right.
  - left. exists r'. split; [done|]. by right.
  - apply list_elem_of_fmap in H as ([j' [r' at_]] & -> & Hin). destruct (decide (timeout < now - at_)) as [Hlt|Hge].
    + left. destruct Hw as [_ _ _ _ Hf]. destruct (proj1 (Forall_forall _ _) Hf _ Hin) as (p & Hp & Hr & Hj). simpl in Hr, Hj.
      subst. exists (to_json p). split; [by apply key_of_to_json|]. left. simpl. apply elem_of_app. left.
      apply list_elem_of_In, in_rev. rewrite rev_involutive. apply list_elem_of_In, list_elem_of_fmap.
      exists (job_id p, (to_json p, at_)). split; [done|]. by apply list_elem_of_filter.
    + right. simpl. apply list_elem_of_fmap. exists (j', (r', at_)). split; [done|]. by apply list_elem_of_filter.
Qed.

Lemma kept_admit j p s : wf_payload p -> kept j s -> kept j (enqueue_with_capacity (cf_max cf) (to_json p) s).1.
Proof.
  intros Hp [Hw Hh]. split; [by apply wf_admit; [apply wf_raw_to_json|]|]. unfold enqueue_with_capacity.
  destruct (_ <=? _); [done|by apply holds_lpush].
Qed.

Lemma kept_admit_delayed j p at_ s :
  wf_payload p -> kept j s -> kept j (enqueue_delayed_with_capacity before (cf_max cf) (to_json p) at_ s).1.
Proof.
  intros Hp [Hw Hh]. split; [by apply wf_admit_delayed; [apply wf_raw_to_json|]|]. unfold enqueue_delayed_with_capacity.
  destruct (_ <=? _); [done|by apply holds_zadd].
Qed.

Lemma kept_hdel j j' s : j' <> j -> kept j s -> kept j (hdel j' s).1.
Proof. intros Hne [Hw Hh]. split; [by apply wf_hdel|by apply holds_hdel]. Qed.

Lemma kept_promote j now s : kept j s -> kept j (process_delayed now s).1.
Proof. intros [Hw Hh]. split; [by apply wf_promote|by apply holds_promote]. Qed.

Lemma kept_on_dead j f s : kept j s -> kept j (on_dead f s).
Proof. intros [Hw Hh]. split; [by apply wf_on_dead|done]. Qed.

Lemma bind_ret_store {A} (m : M A) e : re_store (bind m (fun _ => ret ()) e).1 = re_store (m e).1.
Proof. unfold bind. by destruct (m e) as [e' [a|x]]. Qed.

Lemma keeps_at {A} (P : store -> Prop) (m : M A) e : keeps P m -> P (re_store e) -> P (re_store (m e).1).
Proof. intros H. apply H. Qed.

Lemma step_kept j e st : safe_step j st -> kept j (re_store e) -> kept j (re_store (run_step e st)).
Proof.
  destruct st as [[now o] a]. intros [Hop Ho] Hk. unfold run_step. set (e' := REnv _ _ _ a).
  change (re_store e) with (re_store e') in Hk.
  destruct o; cbn [exec]; try (rewrite bind_ret_store; first [by apply kept_dequeue | by apply kept_requeue]);
    apply (keeps_at (kept j) _ e'); try exact Hk; keeps_calls; intros s Hs;
    first [ by apply kept_admit | by apply kept_admit_delayed | by apply kept_hdel | by apply kept_promote | by apply kept_on_dead | done ].
Qed.
(** What holds of every outcome of a call and its continuation. *)
Lemma run_bind_post {A B} (P : store -> Prop) (Q : renv * result queue_error B -> Prop) now (f : store -> store * A) (k : A -> M B) e :
  (forall s, P s -> P (f s).1) -> (forall s e', P s -> re_store e' = (f s).1 -> Q (k (f s).2 e')) -> (forall e' x, Q (e', Err x)) ->
  P (re_store e) -> Q (bind (run_redis_operation cf now f) k e).
Proof.
  intros Hf Hk Herr. unfold bind, run_redis_operation. generalize 3%nat. intros n. revert e.
  induction n as [|n IH]; intros e He; [by apply Herr|]. cbn [attempts]. unfold attempt_once.
  destruct (default Replied (head (re_attempts e))); [by apply Hk|apply IH; by apply Hf|by apply IH].
Qed.

Lemma enqueue_accepted now p e :
  wf_store (re_store e) -> wf_payload p -> (enqueue cf now p e).2 = Ok () -> kept (job_id p) (re_store (enqueue cf now p e).1).
Proof.
  intros Hw Hp.
  pose (Q := fun o : renv * result queue_error unit => o.2 = Ok () -> kept (job_id p) (re_store o.1)).
  change (Q (enqueue cf now p e)).
  unfold enqueue. unfold bind at 1. unfold check_circuit_breaker. destruct (now <? re_open_until e); [done|].
  apply (run_bind_post wf_store Q); [| |done|done].
  - intros s Hs. by apply wf_admit; [apply wf_raw_to_json|].
  - intros s e' Hs He'. pose proof (wf_admit (cf_max cf) _ s (wf_raw_to_json p Hp) Hs) as Hw'. unfold enqueue_with_capacity in *.
    destruct (_ <=? _); [done|]. cbn [fst snd lpush] in *. rewrite (proj2 (Z.eqb_neq _ _)) by (unfold llen_z; lia).
    unfold Q. intros _. apply (keeps_at (kept (job_id p)) (refresh_queue_metrics cf) e'); [apply keeps_refresh|]. rewrite He'. split; [done|].
    left. exists (to_json p). split; [by apply key_of_to_json|]. left. by left.
Qed.
End Runs.

(** ** The interface *)

Section Instance_.
Context (before : raw -> raw -> bool) (cf : config).

#[export] Instance redis_backend : QueueBackend renv := {|
  be_max := cf_max cf;
  be_enqueue := enqueue cf;
  be_enqueue_delayed := enqueue_delayed before cf;
  be_dequeue := dequeue cf;
  be_ack := ack cf;
  be_fail := fail cf;
  be_requeue_stale := requeue_stale_jobs cf;
  be_pending := fun e => omap job_of (rev (st_queue (re_store e)));
  be_delayed := fun e => omap job_of (map fst (st_delayed (re_store e)));
  be_inflight := fun e j => match dict_get j (st_inflight (re_store e)) with
                            | Some (r, at_) => option_map (fun p => (p, at_)) (job_of r)
                            | None => None
                            end;
  be_dead := fun e => map (fun d => (dl_job_id d, job_of (dl_payload_raw d))) (st_dead (re_store e))
|}.

Lemma be_load_store e : wf_store (re_store e) -> be_load e = load (re_store e).
Proof.
  intros [Hq Hd _ _ _]. unfold be_load, load, llen_z. cbn [be_pending be_delayed redis_backend].
  rewrite !length_jobs, length_rev, length_map; [done| |].
  - by apply Forall_fmap.
  - apply Forall_rev in Hq || (rewrite <- reverse_rev in Hq). done.
Qed.

Lemma pending_push p q : wf_payload p -> omap job_of (rev (to_json p :: q)) = omap job_of (rev q) ++ [p].
Proof.
  intros Hp. cbn [rev]. rewrite omap_app. f_equal.
  change (match job_of (to_json p) with Some y => [y] | None => [] end = [p]). by rewrite job_of_to_json.
Qed.

Lemma elem_delayed (z : list (raw * Z)) p :
  Forall (fun x => wf_raw x.1) z -> p ∈ omap job_of (map fst z) <-> wf_payload p /\ to_json p ∈ map fst z.
Proof.
  intros Hz. rewrite list_elem_of_omap. split.
  - intros (r & Hr & Hj). apply list_elem_of_fmap in Hr as (x & -> & Hx).
    destruct (proj1 (Forall_forall _ _) Hz x Hx) as (p' & Hp' & Hx'). rewrite Hx', job_of_to_json in Hj by done.
    injection Hj as ->. split; [done|]. rewrite <- Hx'. apply list_elem_of_fmap. by exists x.
  - intros [Hp H]. exists (to_json p). by rewrite job_of_to_json.
Qed.

Definition redis_wf (e : renv) : Prop := wf_store (re_store e).
Definition redis_up (e : renv) : Prop := up e /\ re_open_until e = 0.

Lemma up_here s n : redis_up (REnv s n 0 []).
Proof. done. Qed.

#[local] Arguments omap : simpl never.

Lemma redis_enqueue_law now p e :
  0 <= now -> redis_wf e -> redis_up e -> wf_payload p ->
  let '(e', r) := enqueue cf now p e in
  redis_wf e' /\ redis_up e' /\ (forall j, be_inflight e' j = be_inflight e j) /\ be_delayed e' = be_delayed e /\ be_dead e' = be_dead e /\
  (r = if be_load e <? cf_max cf then Ok () else Err Saturated) /\
  be_pending e' = (if be_load e <? cf_max cf then be_pending e ++ [p] else be_pending e).
Proof.
  intros Hn Hw [Hu Ho] Hp. rewrite be_load_store by done. unfold enqueue, bind. rewrite check_up, run_up by (done || lia).
  unfold enqueue_with_capacity. fold (load (re_store e)).
  destruct (cf_max cf <=? load (re_store e)) eqn:E; boolprop.
  - simpl. rewrite (proj2 (Z.ltb_ge _ _)) by lia. done.
  - rewrite (proj2 (Z.ltb_lt _ _)) by lia. cbn [fst snd lpush]. rewrite (proj2 (Z.eqb_neq _ _)) by (unfold llen_z; lia).
    rewrite refresh_up by done. split_and!; try done; [by apply wf_lpush; [apply wf_raw_to_json|]|]. by apply pending_push.
Qed.

Lemma redis_enqueue_delayed_law now p delay e :
  redis_wf e -> redis_up e -> wf_payload p ->
  let '(e', r) := enqueue_delayed before cf now p delay e in
  redis_wf e' /\ redis_up e' /\ (forall j, be_inflight e' j = be_inflight e j) /\ be_pending e' = be_pending e /\ be_dead e' = be_dead e /\
  (r = if be_load e <? cf_max cf then Ok () else Err Saturated) /\
  (forall q, q ∈ be_delayed e' <-> q ∈ be_delayed e \/ (be_load e < cf_max cf /\ q = p)).
Proof.
  intros Hw [Hu Ho] Hp. rewrite be_load_store by done. unfold enqueue_delayed, bind. rewrite run_up by done.
  pose proof (wf_admit_delayed before (cf_max cf) (to_json p) (now + delay) (re_store e) (wf_raw_to_json p Hp) Hw) as Hw'.
  unfold enqueue_delayed_with_capacity in *. fold (load (re_store e)) in *.
  destruct (cf_max cf <=? load (re_store e)) eqn:E; boolprop.
  - simpl. rewrite (proj2 (Z.ltb_ge _ _)) by lia. split_and!; try done. intros q. split; [by left|]. intros [?|[? _]]; [done|lia].
  - rewrite (proj2 (Z.ltb_lt _ _)) by lia. cbn [fst snd] in *.
    match goal with |- context [?x =? -1] => replace (x =? -1) with false by (by destruct (decide _)) end.
    rewrite refresh_up by done. split_and!; try done. intros q. cbn [be_delayed redis_backend re_store].
    rewrite elem_delayed by apply Hw'. rewrite elem_delayed by apply Hw. cbn [st_delayed].
    rewrite !list_elem_of_fmap. setoid_rewrite zadd_elem. split.
    + intros [Hq (x & Hx & [->|[Hne Hin]])]; [|left; eauto]. right. split; [done|]. by apply to_json_inj.
    + intros [[Hq (x & Hx & Hin)]|[_ ->]].
      * split; [done|]. destruct (decide (x.1 = to_json p)) as [Heq|Hne]; [|eauto].
        exists (to_json p, now + delay). split; [by rewrite Hx, Heq|by left].
      * split; [done|]. exists (to_json p, now + delay). split; [done|by left].
Qed.

Lemma inflight_set j p at_ e s :
  wf_payload p -> st_inflight s = dict_set j (to_json p, at_) (st_inflight (re_store e)) ->
  inflight_but j (Some (p, at_)) e (REnv s 0 0 []).
Proof.
  intros Hp Hs. unfold inflight_but. cbn [be_inflight redis_backend re_store]. rewrite Hs. split.
  - rewrite dict_get_set_eq. by rewrite job_of_to_json.
  - intros j' Hne. by rewrite dict_get_set_ne by done.
Qed.

Lemma inflight_del j e s :
  redis_wf e -> st_inflight s = dict_del j (st_inflight (re_store e)) -> inflight_but j None e (REnv s 0 0 []).
Proof.
  intros [_ _ _ Hf _] Hs. unfold inflight_but. cbn [be_inflight redis_backend re_store]. rewrite Hs. split.
  - by rewrite dict_get_del_eq.
  - intros j' Hne. by rewrite dict_get_del_ne by done.
Qed.

Lemma redis_dequeue_law now fresh e :
  0 <= now -> redis_wf e -> redis_up e ->
  let '(e', r) := dequeue cf now fresh e in
  redis_wf e' /\ redis_up e' /\ be_delayed e' = be_delayed e /\ be_dead e' = be_dead e /\
  match be_pending e with
  | [] => r = Ok None /\ be_pending e' = [] /\ forall j, be_inflight e' j = be_inflight e j
  | p :: rest => r = Ok (Some p) /\ be_pending e' = rest /\ inflight_but (job_id p) (Some (p, now)) e e'
  end.
Proof.
  intros Hn Hw [Hu Ho]. pose proof (dequeue_wf cf now fresh e Hw) as Hw'.
  destruct (dequeue_up cf now fresh e ltac:(lia) Hu Hw) as [[Hq Hd]|(q & p & Hp & Hq & Hd)]; rewrite Hd in *.
  - cbn [be_pending redis_backend re_store]. rewrite Hq. done.
  - cbn [be_pending redis_backend re_store]. rewrite Hq, rev_app_distr. cbn [rev app].
    change (omap job_of (to_json p :: rev q)) with (match job_of (to_json p) with Some y => y :: omap job_of (rev q) | None => omap job_of (rev q) end).
    rewrite job_of_to_json by done. split_and!; try done. all: by apply inflight_set.
Qed.

Lemma redis_ack_law now j e :
  redis_wf e -> redis_up e ->
  let '(e', r) := ack cf now j e in
  redis_wf e' /\ redis_up e' /\ r = Ok () /\ be_pending e' = be_pending e /\ be_delayed e' = be_delayed e /\ be_dead e' = be_dead e /\
  inflight_but j None e e'.
Proof.
  intros Hw [Hu Ho]. unfold ack, bind. rewrite run_up, refresh_up by done.
  split_and!; try done; [by apply wf_hdel|by apply inflight_del..].
Qed.

Lemma entry_of e j r at_ : redis_wf e -> dict_get j (st_inflight (re_store e)) = Some (r, at_) -> exists p, wf_payload p /\ r = to_json p.
Proof.
  intros [_ _ _ _ Hf] H. apply dict_get_elem in H. apply (proj1 (Forall_forall _ _) Hf) in H as (p & Hp & Hr & _). by exists p.
Qed.

Lemma redis_fail_law now j error e :
  redis_wf e -> redis_up e ->
  let '(e', r) := fail cf now j error e in
  redis_wf e' /\ redis_up e' /\ r = Ok () /\ be_pending e' = be_pending e /\ be_delayed e' = be_delayed e /\
  (j, option_map fst (be_inflight e j)) ∈ be_dead e' /\ (forall d, d ∈ be_dead e -> d ∈ be_dead e') /\ inflight_but j None e e'.
Proof.
  intros Hw [Hu Ho]. unfold fail, bind. rewrite run_up by done. cbn [hget fst snd].
  rewrite !run_up, refresh_up by done. split_and!; try done.
  - by apply wf_on_dead, wf_hdel.
  - cbn [be_inflight be_dead redis_backend re_store]. simpl. destruct (dict_get j _) as [[r at_]|] eqn:E; [|by left].
    destruct (entry_of e j r at_ Hw E) as (p & Hp & ->). rewrite job_of_to_json by done. by left.
  - intros d Hd. by right.
  - by apply inflight_del.
Qed.

Lemma jobs_of_stale (l : list (string * (raw * Z))) q :
  Forall wf_entry l -> q ∈ omap job_of (map (fun x => x.2.1) l) <-> exists x, x ∈ l /\ x.2.1 = to_json q /\ wf_payload q.
Proof.
  intros Hl. rewrite list_elem_of_omap. split.
  - intros (r & Hr & Hj). apply list_elem_of_fmap in Hr as (x & -> & Hx).
    destruct (proj1 (Forall_forall _ _) Hl x Hx) as (p & Hp & Hx' & _). exists x. rewrite Hx', job_of_to_json in Hj by done.
    injection Hj as ->. done.
  - intros (x & Hx & Hr & Hq). exists (to_json q). split; [|by apply job_of_to_json]. rewrite <- Hr. apply list_elem_of_fmap. by exists x.
Qed.

Lemma redis_requeue_law now timeout e :
  redis_wf e -> redis_up e ->
  let '(e', r) := requeue_stale_jobs cf now timeout e in
  match r with
  | Err _ => True
  | Ok n => redis_wf e' /\ redis_up e' /\ be_delayed e' = be_delayed e /\ be_dead e' = be_dead e /\
      exists back, be_pending e' = be_pending e ++ back /\ length back = n /\
        (forall q, q ∈ back <-> exists j at_, be_inflight e j = Some (q, at_) /\ timeout < now - at_) /\
        (forall j, be_inflight e' j = match be_inflight e j with
                                      | Some (q, at_) => if timeout <? now - at_ then None else Some (q, at_)
                                      | None => None
                                      end)
  end.
Proof.
  intros Hw [Hu Ho]. pose proof (requeue_wf cf now timeout e Hw) as Hw'. pose proof (requeue_up cf now timeout e Hu Hw) as H.
  cbv zeta in H. destruct (requeue_stale_jobs cf now timeout e) as [e' r]. destruct H as (-> & Hu' & Ho' & Hst).
  set (stale := base.filter _ _) in *. assert (Hs : Forall wf_entry stale).
  { apply Forall_forall. intros x [_ Hx]%list_elem_of_filter. by apply (proj1 (Forall_forall _ _) (wf_inflight _ Hw)). }
  assert (Hd : dict_wf (st_inflight (re_store e))) by apply Hw.
  split_and!; [exact Hw'|by split| | |]; cbn [be_delayed be_dead be_pending be_inflight redis_backend]; rewrite Hst; try done.
  cbn [st_queue st_inflight]. exists (omap job_of (map (fun x : string * (raw * Z) => x.2.1) stale)). split_and!.
  - by rewrite rev_app_distr, rev_involutive, omap_app.
  - rewrite length_jobs, length_map; [done|]. apply Forall_fmap, Forall_forall. intros x Hx.
    destruct (proj1 (Forall_forall _ _) Hs x Hx) as (p & Hp & Hr & _). by exists p.
  - intros q. rewrite jobs_of_stale by done. split.
    + intros ([j [r at_]] & Hx & Hr & Hq). apply list_elem_of_filter in Hx as [Hlt Hx]. simpl in Hr, Hlt. subst r.
      exists j, at_. split; [|done]. by rewrite (dict_elem_get _ _ _ Hd Hx), job_of_to_json.
    + intros (j & at_ & Hi & Hlt). destruct (dict_get j _) as [[r at_']|] eqn:E; [|done].
      destruct (entry_of e j r at_' Hw E) as (p & Hp & ->). rewrite job_of_to_json in Hi by done. injection Hi as <- <-.
      exists (j, (to_json p, at_')). split_and!; [|done|done]. apply list_elem_of_filter. split; [done|]. by apply dict_get_elem.
  - intros j. destruct (dict_get j (st_inflight (re_store e))) as [[r at_]|] eqn:E.
    + destruct (entry_of e j r at_ Hw E) as (p & Hp & ->). rewrite job_of_to_json by done. cbn [option_map].
      destruct (timeout <? now - at_) eqn:El; boolprop.
      * match goal with |- match ?x with _ => _ end = _ => destruct x as [[r' at']|] eqn:E' end; [|done]. exfalso.
        apply dict_get_elem, list_elem_of_filter in E' as [Hn E']. apply (dict_elem_get _ _ _ Hd) in E'.
        rewrite E in E'. injection E' as <- <-. simpl in Hn. lia.
      * rewrite (dict_elem_get j (to_json p, at_)); [by rewrite job_of_to_json|by apply dict_filter_wf|].
        apply list_elem_of_filter. simpl. split; [lia|by apply dict_get_elem].
    + match goal with |- match ?x with _ => _ end = _ => destruct x as [[r' at']|] eqn:E' end; [|done]. exfalso.
      apply dict_get_elem, list_elem_of_filter in E' as [_ E']. apply (dict_elem_get _ _ _ Hd) in E'. congruence.
Qed.

#[export] Instance redis_laws : QueueLaws renv := {|
  be_wf := redis_wf;
  be_up := redis_up;
  law_enqueue := redis_enqueue_law;
  law_enqueue_delayed := redis_enqueue_delayed_law;
  law_dequeue := redis_dequeue_law;
  law_ack := redis_ack_law;
  law_fail := redis_fail_law;
  law_requeue_stale := redis_requeue_law
|}.
End Instance_.

(** ** Claims *)

Section Claims.
Context (before : raw -> raw -> bool) (cf : config).

(** The Redis queue stays within its capacity: whatever sequence of enqueues,
    delayed enqueues, dequeues, acknowledgements, failures, promotions and
    dead-letter operations runs, and whichever of their attempts fail or lose their
    reply, waiting and delayed jobs together never exceed the maximum. While calls are
    answered an enqueue is accepted exactly when there is room, and a refused one
    changes no key. *)
Lemma redis_capacity_bounded e l :
  within cf (re_store e) -> Forall (fun st : step => wf_op st.1.2 /\ requeues st.1.2 = false) l ->
  load (re_store (run_steps before cf e l)) <= cf_max cf /\
  forall e' now p, redis_wf e' -> redis_up e' -> 0 <= now -> wf_payload p ->
    (load (re_store e') < cf_max cf -> (enqueue cf now p e').2 = Ok () /\ load (re_store (enqueue cf now p e').1) = load (re_store e') + 1) /\
    (cf_max cf <= load (re_store e') -> (enqueue cf now p e').2 = Err Saturated /\ re_store (enqueue cf now p e').1 = re_store e').
Proof.
  intros He Hl. split.
  - apply (run_steps_inv before cf (within cf) _ l) with (e := e) in Hl; [by destruct Hl| |done].
    intros e' [[now o] a] [Hop Hr] Hw. unfold run_step. by apply (exec_within before cf now o Hop Hr).
  - intros e' now p Hw [Hu Ho] Hn Hp. unfold enqueue, bind. rewrite check_up, run_up by (done || lia).
    unfold enqueue_with_capacity. fold (load (re_store e')). destruct (cf_max cf <=? load (re_store e')) eqn:E; boolprop.
    + split; [lia|done].
    + split; [intros _|lia]. cbn [fst snd lpush]. rewrite (proj2 (Z.eqb_neq _ _)) by (unfold llen_z; lia).
      rewrite refresh_up by done. split; [done|]. unfold load, llen_z. simpl. lia.
Qed.

(** The Redis queue loses no job: an accepted job is on the queue, and a job that
    is on it (waiting, delayed or in flight) stays there through any further sequence
    of operations until it is acknowledged or failed itself, even when calls fail or
    lose their reply, as long as those of dequeues and of recovery scans are answered;
    and a failure that is answered leaves the job's payload in the dead letters. *)
Lemma redis_keeps_jobs j e l :
  kept j (re_store e) -> Forall (safe_step j) l ->
  holds j (re_store (run_steps before cf e l)) /\
  (forall e' now p, wf_store (re_store e') -> wf_payload p -> (enqueue cf now p e').2 = Ok () -> kept (job_id p) (re_store (enqueue cf now p e').1)) /\
  (forall e' now error r at_, up e' -> dict_get j (st_inflight (re_store e')) = Some (r, at_) ->
     DeadLetter j r error now ∈ st_dead (re_store (fail cf now j error e').1)).
Proof.
  intros He Hl. split_and!.
  - apply (run_steps_inv before cf (kept j) _ l (step_kept before cf j)) with (e := e) in Hl; [by destruct Hl|done].
  - intros e' now p Hw Hp. by apply enqueue_accepted.
  - intros e' now error r at_ Hu Hi. unfold fail, bind. rewrite run_up by done. cbn [hget fst snd re_store]. rewrite Hi.
    rewrite !run_up, refresh_up by done. by left.
Qed.
End Claims.

(** ** Concrete runs *)

Module ToyRedis.
Definition cf : config := Config 2 5 30000.
Definition before (a b : raw) : bool := false.
Definition job (j : string) : payload := post_init (Payload j "task" "" [] [] "t0").
Definition at_rest (s : store) : renv := REnv s 0 0 [].
Definition run (s : store) (l : list step) : store := re_store (run_steps before cf (at_rest s) l).
Definition one : store := run empty_store [(1000, Enqueue (job "a"), [])].
End ToyRedis.

Lemma wf_empty_store : wf_store empty_store.
Proof. constructor; constructor. Qed.

Lemma redis_capacity_bounded_witness :
  load (ToyRedis.run empty_store [(1, Enqueue (ToyRedis.job "a"), [ReplyLost; Unreached]); (2, EnqueueDelayed (ToyRedis.job "b") 50, []);
                                  (3, Enqueue (ToyRedis.job "c"), []); (90, Promote, []); (91, Dequeue, [ReplyLost])]) <= 2.
Proof.
  apply (redis_capacity_bounded ToyRedis.before ToyRedis.cf (ToyRedis.at_rest empty_store)).
  - split; [apply wf_empty_store|]. vm_compute. discriminate.
  - repeat constructor.
Defined.

Lemma redis_keeps_jobs_witness :
  holds "a" (ToyRedis.run ToyRedis.one [(2000, Dequeue, []); (2001, Ack "b", [Unreached]); (9000, Requeue 500, []); (9001, Enqueue (ToyRedis.job "c"), [ReplyLost])]).
Proof.
  apply (redis_keeps_jobs ToyRedis.before ToyRedis.cf "a" (ToyRedis.at_rest ToyRedis.one)).
  - split.
    + apply (exec_wf ToyRedis.before ToyRedis.cf 1000 (Enqueue (ToyRedis.job "a")) eq_refl (ToyRedis.at_rest empty_store)). apply wf_empty_store.
    + left. exists (to_json (ToyRedis.job "a")). split; [reflexivity|]. left. apply list_elem_of_In. simpl. auto.
  - repeat constructor; discriminate.
Defined.

(** Nothing left of the job on the queue. *)
Definition gone (s : store) : bool :=
  match st_queue s, st_inflight s, st_delayed s, st_dead s with [], [], [], [] => true | _, _, _, _ => false end.

(** A pop whose reply is lost takes the job: the retry finds an empty queue. *)
Example dequeue_reply_lost :
  gone (ToyRedis.run ToyRedis.one [(2000, Dequeue, [ReplyLost])]) = true /\
  (dequeue ToyRedis.cf 2000 "" (REnv ToyRedis.one 0 0 [ReplyLost])).2 = Ok None.
Proof. vm_compute. done. Qed.

(** So does a pop after which the in-flight entry cannot be written. *)
Example dequeue_entry_unwritten :
  gone (ToyRedis.run ToyRedis.one [(2000, Dequeue, [Replied; Unreached; Unreached; Unreached])]) = true.
Proof. vm_compute. done. Qed.

(** A recovery that deletes the entry and cannot push the payload. *)
Example recovery_push_failed :
  gone (ToyRedis.run ToyRedis.one [(2000, Dequeue, []); (9000, Requeue 500, [Replied; Replied; Unreached; Unreached; Unreached])]) = true.
Proof. vm_compute. done. Qed.

(** A failure whose dead letter cannot be written. *)
Example failure_unrecorded :
  gone (ToyRedis.run ToyRedis.one [(2000, Dequeue, []); (2001, Fail "a" "boom", [Replied; Replied; Unreached; Unreached; Unreached])]) = true.
Proof. vm_compute. done. Qed.

(** An enqueue whose reply is lost is made twice. *)
Example enqueue_twice :
  map key_of (st_queue (ToyRedis.run empty_store [(1000, Enqueue (ToyRedis.job "a"), [ReplyLost])])) = [Some "a"; Some "a"].
Proof. vm_compute. done. Qed.

(** Two recovery scans: the first requeues the stale job and a worker takes it; the
    second, still holding its old snapshot, deletes that worker's fresh entry and
    pushes the job again, so it is in progress untracked and waiting at once. *)
Example stale_snapshot_requeues_again :
  let s := ToyRedis.run ToyRedis.one [(2000, Dequeue, [])] in
  let snapshot := st_inflight s in
  let s' := ToyRedis.run s [(9000, Requeue 500, []); (9001, Dequeue, [])] in
  let '(e, n) := requeue_entries ToyRedis.cf 9000 500 snapshot (ToyRedis.at_rest s') in
  dict_keys (st_inflight s') = ["a"] /\ n = 1%nat /\
  st_inflight (re_store e) = [] /\ map key_of (st_queue (re_store e)) = [Some "a"].
Proof. vm_compute. done. Qed.

(** [peek_dead_letters 0] reads the whole list: the range it asks for ends at -1. *)
Example peek_zero_reads_all :
  let s := Store [] [] [] [DeadLetter "a" (RText "") "boom" 1; DeadLetter "b" (RText "") "boom" 2] in
  (peek_dead_letters 0 (ToyRedis.at_rest s)).2 = Ok (st_dead s).
Proof. vm_compute. done. Qed.
