(* ===== verification/MemoryQueue.v ===== *)
(** * The in-process queue (InMemoryQueueBackend of src/AINDY/core/distributed_queue.py)

    One operation is one step, except where the code can be seen half-way: the
    capacity check and the put of an enqueue are two definitions, a timer fires on
    its own, and a recovery that meets a full queue waits with the jobs it took.
    Locks make each step atomic. *)

From S2P Require Import Prelude PyStr PyVal JobQueue RedisQueue.

Local Open Scope string_scope.
Local Open Scope Z_scope.
Local Open Scope list_scope.

Record letter := Letter { lt_job_id : string; lt_payload : option payload; lt_error : string; lt_failed_at : Z }.

Record mem := Mem {
  m_q : list payload;                              (** next first *)
  m_inflight : list (string * (payload * Z));
  m_dlq : list letter;
  m_timers : list (Z * payload);                   (** timers that have not fired: when due, and the job *)
  m_delayed_count : Z;
  m_held : list payload                            (** jobs a recovery waiting for a slot has still to put *)
}.

Definition empty_mem : mem := Mem [] [] [] [] 0 [].

Section Memory.
Variable max : Z.

Definition pending_depth (s : mem) : Z := Z.of_nat (length (m_q s)) + m_delayed_count s.

Definition reject_if_full (s : mem) : result queue_error unit := if max <=? pending_depth s then Err Saturated else Ok ().

(** [queue.Queue] is unbounded for a size that is not positive. *)
Definition q_full (s : mem) : bool := (0 <? max) && (max <=? Z.of_nat (length (m_q s))).

Definition put (p : payload) (s : mem) : mem :=
  Mem (m_q s ++ [p]) (m_inflight s) (m_dlq s) (m_timers s) (m_delayed_count s) (m_held s).

Definition put_nowait (p : payload) (s : mem) : mem * result queue_error unit :=
  if q_full s then (s, Err QueueFull) else (put p s, Ok ()).

Definition enqueue (now : Z) (p : payload) (s : mem) : mem * result queue_error unit :=
  match reject_if_full s with Err x => (s, Err x) | Ok _ => put_nowait p s end.

Definition dequeue (now : Z) (fresh : string) (s : mem) : mem * result queue_error (option payload) :=
  match m_q s with
  | [] => (s, Ok None)
  | p :: q => (Mem q (dict_set (job_id p) (p, now) (m_inflight s)) (m_dlq s) (m_timers s) (m_delayed_count s) (m_held s), Ok (Some p))
  end.

Definition ack (now : Z) (j : string) (s : mem) : mem * result queue_error unit :=
  (Mem (m_q s) (dict_del j (m_inflight s)) (m_dlq s) (m_timers s) (m_delayed_count s) (m_held s), Ok ()).

Definition fail (now : Z) (j : string) (error : string) (s : mem) : mem * result queue_error unit :=
  (Mem (m_q s) (dict_del j (m_inflight s)) (m_dlq s ++ [Letter j (option_map fst (dict_get j (m_inflight s))) error now])
     (m_timers s) (m_delayed_count s) (m_held s), Ok ()).

Definition enqueue_delayed (now : Z) (p : payload) (delay : Z) (s : mem) : mem * result queue_error unit :=
  match reject_if_full s with
  | Err x => (s, Err x)
  | Ok _ => (Mem (m_q s) (m_inflight s) (m_dlq s) (m_timers s ++ [(now + delay, p)]) (m_delayed_count s + 1) (m_held s), Ok ())
  end.

(** [_fire] of the [i]-th timer: an exception of the put ends the timer's thread,
    the count goes down all the same. *)
Definition fire (i : nat) (s : mem) : mem * result queue_error unit :=
  match m_timers s !! i with
  | None => (s, Ok ())
  | Some (_, p) =>
      let s := Mem (m_q s) (m_inflight s) (m_dlq s) (take i (m_timers s) ++ drop (S i) (m_timers s)) (m_delayed_count s) (m_held s) in
      let '(s, r) := put_nowait p s in
      (Mem (m_q s) (m_inflight s) (m_dlq s) (m_timers s) (Z.max 0 (m_delayed_count s - 1)) (m_held s), r)
  end.

(** The puts of a recovery: a full queue stops it with the jobs left. *)
Fixpoint put_all (jobs : list payload) (s : mem) : mem :=
  match jobs with
  | [] => Mem (m_q s) (m_inflight s) (m_dlq s) (m_timers s) (m_delayed_count s) []
  | p :: rest => if q_full s then Mem (m_q s) (m_inflight s) (m_dlq s) (m_timers s) (m_delayed_count s) jobs else put_all rest (put p s)
  end.

Definition requeue_stale_jobs (now timeout : Z) (s : mem) : mem * result queue_error nat :=
  let stale := base.filter (fun x : string * (payload * Z) => timeout < now - x.2.2) (m_inflight s) in
  let s := Mem (m_q s) (dict_del_all (m_inflight s) (map fst stale)) (m_dlq s) (m_timers s) (m_delayed_count s) (m_held s) in
  let s := put_all (m_held s ++ map (fun x : string * (payload * Z) => x.2.1) stale) s in
  (s, match m_held s with [] => Ok (length stale) | _ => Err Blocked end).

(** A slot has come free for the waiting recovery. *)
Definition unblock (s : mem) : mem := put_all (m_held s) s.

Definition get_dlq_depth (s : mem) : Z := Z.of_nat (length (m_dlq s)).

Fixpoint del_letter (j : string) (l : list letter) : list letter :=
  match l with [] => [] | d :: l' => if decide (lt_job_id d = j) then l' else d :: del_letter j l' end.

Definition remove_dead_letter (j : string) (s : mem) : mem * bool :=
  (Mem (m_q s) (m_inflight s) (del_letter j (m_dlq s)) (m_timers s) (m_delayed_count s) (m_held s),
   existsb (fun d => bool_decide (lt_job_id d = j)) (m_dlq s)).

Definition drain_dead_letters (s : mem) : mem * Z :=
  (Mem (m_q s) (m_inflight s) [] (m_timers s) (m_delayed_count s) (m_held s), get_dlq_depth s).

Definition get_inflight_ids (s : mem) : list string := dict_keys (m_inflight s).

(** ** The interface *)

#[export] Instance memory_backend : QueueBackend mem := {|
  be_max := max;
  be_enqueue := enqueue;
  be_enqueue_delayed := enqueue_delayed;
  be_dequeue := dequeue;
  be_ack := ack;
  be_fail := fail;
  be_requeue_stale := requeue_stale_jobs;
  be_pending := m_q;
  be_delayed := fun s => map snd (m_timers s);
  be_inflight := fun s j => dict_get j (m_inflight s);
  be_dead := fun s => map (fun d => (lt_job_id d, lt_payload d)) (m_dlq s)
|}.

(** The count of delayed jobs is the number of timers, and entries are under their ids. *)
Record mem_wf (s : mem) : Prop := MemWf {
  wf_count : m_delayed_count s = Z.of_nat (length (m_timers s));
  wf_fields : dict_wf (m_inflight s);
  wf_ids : Forall (fun x : string * (payload * Z) => job_id x.2.1 = x.1) (m_inflight s)
}.

(** No recovery is waiting. *)
Definition mem_up (s : mem) : Prop := m_held s = [].

Lemma mem_load s : mem_wf s -> be_load s = pending_depth s.
Proof. intros [Hc _ _]. unfold be_load, pending_depth. cbn [be_pending be_delayed memory_backend]. rewrite length_map. lia. Qed.

Lemma room_not_full s : mem_wf s -> pending_depth s < max -> q_full s = false.
Proof.
  intros [Hc _ _] H. unfold q_full, pending_depth in *. apply andb_false_iff. right. apply Z.leb_gt. lia.
Qed.

Lemma mem_enqueue_law now p s :
  0 <= now -> mem_wf s -> mem_up s -> wf_payload p ->
  let '(s', r) := enqueue now p s in
  mem_wf s' /\ mem_up s' /\ (forall j, be_inflight s' j = be_inflight s j) /\ be_delayed s' = be_delayed s /\ be_dead s' = be_dead s /\
  (r = if be_load s <? max then Ok () else Err Saturated) /\
  be_pending s' = (if be_load s <? max then be_pending s ++ [p] else be_pending s).
Proof.
  intros _ Hw Hu _. rewrite mem_load by done. unfold enqueue, reject_if_full.
  destruct (max <=? pending_depth s) eqn:E; boolprop.
  - rewrite (proj2 (Z.ltb_ge _ _)) by lia. done.
  - rewrite (proj2 (Z.ltb_lt _ _)) by lia. unfold put_nowait. rewrite room_not_full by done.
    split_and!; try done. by destruct Hw.
Qed.

Lemma mem_enqueue_delayed_law now p delay s :
  mem_wf s -> mem_up s -> wf_payload p ->
  let '(s', r) := enqueue_delayed now p delay s in
  mem_wf s' /\ mem_up s' /\ (forall j, be_inflight s' j = be_inflight s j) /\ be_pending s' = be_pending s /\ be_dead s' = be_dead s /\
  (r = if be_load s <? max then Ok () else Err Saturated) /\
  (forall q, q ∈ be_delayed s' <-> q ∈ be_delayed s \/ (be_load s < max /\ q = p)).
Proof.
  intros Hw Hu _. rewrite mem_load by done. unfold enqueue_delayed, reject_if_full.
  destruct (max <=? pending_depth s) eqn:E; boolprop.
  - rewrite (proj2 (Z.ltb_ge _ _)) by lia. split_and!; try done. intros q. split; [by left|]. intros [?|[? _]]; [done|lia].
  - rewrite (proj2 (Z.ltb_lt _ _)) by lia. split_and!; try done.
    + destruct Hw. constructor; simpl; [rewrite length_app; simpl; lia|done|done].
    + intros q. cbn [be_delayed memory_backend m_timers]. rewrite map_app, elem_of_app. cbn [map snd]. rewrite list_elem_of_singleton. naive_solver.
Qed.

Lemma mem_dequeue_law now fresh s :
  0 <= now -> mem_wf s -> mem_up s ->
  let '(s', r) := dequeue now fresh s in
  mem_wf s' /\ mem_up s' /\ be_delayed s' = be_delayed s /\ be_dead s' = be_dead s /\
  match be_pending s with
  | [] => r = Ok None /\ be_pending s' = [] /\ forall j, be_inflight s' j = be_inflight s j
  | p :: rest => r = Ok (Some p) /\ be_pending s' = rest /\ inflight_but (job_id p) (Some (p, now)) s s'
  end.
Proof.
  intros _ Hw Hu. unfold dequeue. cbn [be_pending memory_backend]. destruct (m_q s) as [|p q] eqn:E; [done|].
  split_and!; try done.
  - destruct Hw. constructor; simpl; [done|by apply dict_set_wf|]. apply Forall_forall.
    intros x [->|Hx]%dict_elem_set; [done|]. by apply (proj1 (Forall_forall _ _) wf_ids0).
  - split; cbn [be_inflight memory_backend m_inflight]; [by rewrite dict_get_set_eq|]. intros j Hne. by rewrite dict_get_set_ne.
Qed.

Lemma mem_wf_del j s q d : mem_wf s -> mem_wf (Mem q (dict_del j (m_inflight s)) d (m_timers s) (m_delayed_count s) (m_held s)).
Proof.
  intros []. constructor; simpl; [done|by apply dict_del_wf|]. apply Forall_forall. intros x Hx%dict_elem_del.
  by apply (proj1 (Forall_forall _ _) wf_ids0).
Qed.

Lemma mem_inflight_del j s s' : mem_wf s -> m_inflight s' = dict_del j (m_inflight s) -> inflight_but j None s s'.
Proof.
  intros [_ Hf _] Hs. split; cbn [be_inflight memory_backend]; rewrite Hs; [by apply dict_get_del_eq|].
  intros j' Hne. by rewrite dict_get_del_ne.
Qed.

Lemma mem_ack_law now j s :
  mem_wf s -> mem_up s ->
  let '(s', r) := ack now j s in
  mem_wf s' /\ mem_up s' /\ r = Ok () /\ be_pending s' = be_pending s /\ be_delayed s' = be_delayed s /\ be_dead s' = be_dead s /\
  inflight_but j None s s'.
Proof. intros Hw Hu. split_and!; try done; [by apply mem_wf_del|by apply mem_inflight_del]. Qed.

Lemma mem_fail_law now j error s :
  mem_wf s -> mem_up s ->
  let '(s', r) := fail now j error s in
  mem_wf s' /\ mem_up s' /\ r = Ok () /\ be_pending s' = be_pending s /\ be_delayed s' = be_delayed s /\
  (j, option_map fst (be_inflight s j)) ∈ be_dead s' /\ (forall d, d ∈ be_dead s -> d ∈ be_dead s') /\ inflight_but j None s s'.
Proof.
  intros Hw Hu. unfold fail. split_and!; try done; [by apply mem_wf_del| | |by apply mem_inflight_del];
    cbn [be_dead memory_backend m_dlq]; rewrite map_app; [|intros d Hd]; apply elem_of_app; [right; by left|by left].
Qed.

(** What a recovery that returns has done. *)
Lemma put_all_spec jobs s :
  m_held (put_all jobs s) = [] -> put_all jobs s = Mem (m_q s ++ jobs) (m_inflight s) (m_dlq s) (m_timers s) (m_delayed_count s) [].
Proof.
  revert s. induction jobs as [|p jobs IH]; intros s; cbn [put_all]; [by rewrite app_nil_r|].
  destruct (q_full s); [done|]. intros H. rewrite IH by done. simpl. by rewrite <- app_assoc.
Qed.

Lemma mem_requeue_law now timeout s :
  mem_wf s -> mem_up s ->
  let '(s', r) := requeue_stale_jobs now timeout s in
  match r with
  | Err _ => True
  | Ok n => mem_wf s' /\ mem_up s' /\ be_delayed s' = be_delayed s /\ be_dead s' = be_dead s /\
      exists back, be_pending s' = be_pending s ++ back /\ length back = n /\
        (forall q, q ∈ back <-> exists j at_, be_inflight s j = Some (q, at_) /\ timeout < now - at_) /\
        (forall j, be_inflight s' j = match be_inflight s j with
                                      | Some (q, at_) => if timeout <? now - at_ then None else Some (q, at_)
                                      | None => None
                                      end)
  end.
Proof.
  intros Hw Hu. unfold requeue_stale_jobs. set (stale := base.filter _ _). set (s1 := Mem _ (dict_del_all _ _) _ _ _ _).
  set (s2 := put_all _ s1). destruct (m_held s2) eqn:Hh; [|done]. pose proof (put_all_spec _ _ Hh) as Hs2. fold s2 in Hs2.
  unfold mem_up in Hu. replace (m_held s1) with (m_held s) in Hs2 by done. rewrite Hu in Hs2. rewrite app_nil_l in Hs2.
  destruct Hw as [Hc Hf Hi]. split_and!; [| |by rewrite Hs2|by rewrite Hs2|].
  - rewrite Hs2. constructor; simpl; [done|by apply dict_del_all_wf|]. subst stale. rewrite dict_del_all_filter by done.
    apply Forall_forall. intros x [_ Hx]%list_elem_of_filter. by apply (proj1 (Forall_forall _ _) Hi).
  - unfold mem_up. by rewrite Hs2.
  - exists (map (fun x : string * (payload * Z) => x.2.1) stale). cbn [be_pending be_inflight memory_backend].
    split_and!; [by rewrite Hs2|by rewrite length_map| |].
    + intros q. rewrite list_elem_of_fmap. split.
      * intros ([j [q' at_]] & -> & Hx). apply list_elem_of_filter in Hx as [Hlt Hx]. exists j, at_.
        split; [by apply dict_elem_get|done].
      * intros (j & at_ & Hg & Hlt). exists (j, (q, at_)). split; [done|]. apply list_elem_of_filter. split; [done|by apply dict_get_elem].
    + intros j. rewrite Hs2. cbn [m_inflight s1]. destruct (dict_get j (m_inflight s)) as [[q at_]|] eqn:E.
      * destruct (timeout <? now - at_) eqn:El; boolprop.
        -- apply dict_get_del_all_in; [done|]. apply list_elem_of_fmap. exists (j, (q, at_)). split; [done|].
           apply list_elem_of_filter. split; [done|by apply dict_get_elem].
        -- rewrite dict_get_del_all_ne; [done|]. intros Hin. apply list_elem_of_fmap in Hin as ([j' [q' at']] & -> & Hx).
           apply list_elem_of_filter in Hx as [Hlt Hx]. apply (dict_elem_get _ _ _ Hf) in Hx. simpl in *. rewrite E in Hx.
           injection Hx as <- <-. lia.
      * rewrite dict_get_del_all_ne; [done|]. intros Hin. apply list_elem_of_fmap in Hin as ([j' v] & -> & Hx).
        apply list_elem_of_filter in Hx as [_ Hx]. apply (dict_elem_get _ _ _ Hf) in Hx. simpl in *. congruence.
Qed.

#[export] Instance memory_laws : QueueLaws mem := {|
  be_wf := mem_wf;
  be_up := mem_up;
  law_enqueue := mem_enqueue_law;
  law_enqueue_delayed := mem_enqueue_delayed_law;
  law_dequeue := mem_dequeue_law;
  law_ack := mem_ack_law;
  law_fail := mem_fail_law;
  law_requeue_stale := mem_requeue_law
|}.
End Memory.

(** ** Runs *)

Inductive mop :=
| MEnqueue (p : payload) | MDelayed (p : payload) (delay : Z) | MDequeue | MAck (j : string) | MFail (j error : string)
| MFire (i : nat) | MRequeue (timeout : Z) | MUnblock | MRemoveDead (j : string) | MDrain.

Section Runs.
Context (max : Z).

Definition exec_mem (x : Z * mop) (s : mem) : mem :=
  let '(now, o) := x in
  match o with
  | MEnqueue p => (enqueue max now p s).1
  | MDelayed p d => (enqueue_delayed max now p d s).1
  | MDequeue => (dequeue now "" s).1
  | MAck j => (ack now j s).1
  | MFail j error => (fail now j error s).1
  | MFire i => (fire max i s).1
  | MRequeue timeout => (requeue_stale_jobs max now timeout s).1
  | MUnblock => unblock max s
  | MRemoveDead j => (remove_dead_letter j s).1
  | MDrain => (drain_dead_letters s).1
  end.

Definition run_mem (l : list (Z * mop)) (s : mem) : mem := fold_left (fun s x => exec_mem x s) l s.

Definition requeues_mem (x : Z * mop) : bool := match x.2 with MRequeue _ => true | _ => false end.

Definition in_bounds (s : mem) : Prop := Z.of_nat (length (m_q s)) <= max.

Lemma put_all_bounds jobs s : 1 <= max -> in_bounds s -> in_bounds (put_all max jobs s).
Proof.
  intros Hm. revert s. induction jobs as [|p jobs IH]; intros s H; cbn [put_all]; [done|].
  destruct (q_full max s) eqn:E; [done|]. apply IH. unfold q_full in E. apply andb_false_iff in E as [E|E]; boolprop; [lia|].
  unfold in_bounds, put. simpl. rewrite length_app. simpl. lia.
Qed.

Lemma put_nowait_bounds p s : 1 <= max -> in_bounds s -> in_bounds (put_nowait max p s).1.
Proof.
  intros Hm H. unfold put_nowait. destruct (q_full max s) eqn:E; [done|]. unfold q_full in E.
  apply andb_false_iff in E as [E|E]; boolprop; [lia|]. unfold in_bounds, put. simpl. rewrite length_app. simpl. lia.
Qed.

Lemma exec_bounds x s : 1 <= max -> in_bounds s -> in_bounds (exec_mem x s).
Proof.
  destruct x as [now o]. intros Hm H. destruct o; simpl; try done.
  - unfold enqueue. destruct (reject_if_full max s); [by apply put_nowait_bounds|done].
  - unfold enqueue_delayed. by destruct (reject_if_full max s).
  - unfold dequeue. destruct (m_q s) as [|p q] eqn:E; [done|]. unfold in_bounds in *. rewrite E in H. simpl in *. lia.
  - unfold fire. destruct (m_timers s !! i) as [[d p]|]; [|done].
    set (s1 := Mem _ _ _ _ _ _). pose proof (put_nowait_bounds p s1 Hm H) as Hp. by destruct (put_nowait max p s1).
  - unfold requeue_stale_jobs. cbn [fst]. by apply put_all_bounds.
  - by apply put_all_bounds.
Qed.

(** What holds while no recovery runs. *)
Definition quiet (s : mem) : Prop := mem_wf s /\ pending_depth s <= max /\ m_held s = [].

Lemma fire_ok i d p s :
  1 <= max -> quiet s -> m_timers s !! i = Some (d, p) ->
  (fire max i s).2 = Ok () /\ m_q (fire max i s).1 = m_q s ++ [p] /\ quiet (fire max i s).1.
Proof.
  intros Hm (Hw & Hd & Hh) Hi. unfold fire. rewrite Hi. set (s1 := Mem _ _ _ _ _ _).
  pose proof (lookup_lt_Some _ _ _ Hi) as Hlt. destruct Hw as [Hc Hf Hids]. unfold pending_depth in Hd.
  assert (Hfull : q_full max s1 = false) by (unfold q_full; apply andb_false_iff; right; apply Z.leb_gt; simpl; lia).
  unfold put_nowait. rewrite Hfull. split_and!; [done|done|]. split_and!; [constructor; simpl; try done| |done].
  - rewrite length_app, length_take, length_drop. lia.
  - unfold pending_depth. simpl. rewrite length_app. simpl. lia.
Qed.

Lemma exec_quiet x s : 1 <= max -> requeues_mem x = false -> quiet s -> quiet (exec_mem x s).
Proof.
  destruct x as [now o]. intros Hm Hr H. pose proof H as (Hw & Hd & Hh). destruct o; simpl; try done.
  - unfold enqueue, reject_if_full. destruct (max <=? pending_depth s) eqn:E; [done|]. boolprop.
    unfold put_nowait. rewrite room_not_full by done. split_and!; [by destruct Hw| |done].
    unfold pending_depth in *. simpl. rewrite length_app. simpl. lia.
  - unfold enqueue_delayed, reject_if_full. destruct (max <=? pending_depth s) eqn:E; [done|]. boolprop.
    split_and!; [|unfold pending_depth in *; simpl; lia|done]. destruct Hw. constructor; simpl; [rewrite length_app; simpl; lia|done|done].
  - unfold dequeue. destruct (m_q s) as [|p q] eqn:E; [done|].
    destruct Hw as [Hc Hf Hids]. split_and!; [|unfold pending_depth in *; rewrite E in Hd; simpl in *; lia|done].
    constructor; simpl; [done|by apply dict_set_wf|]. apply Forall_forall.
    intros x [->|Hx]%dict_elem_set; [done|]. by apply (proj1 (Forall_forall _ _) Hids).
  - split_and!; [by apply mem_wf_del|done|done].
  - split_and!; [by apply mem_wf_del|done|done].
  - destruct (m_timers s !! i) as [[d p]|] eqn:Hi; [by destruct (fire_ok i d p s Hm H Hi) as (_ & _ & ?)|]. unfold fire. by rewrite Hi.
  - unfold unblock. rewrite Hh. simpl. split_and!; [by destruct Hw|done|done].
  - split_and!; [by destruct Hw|done|done].
  - split_and!; [by destruct Hw|done|done].
Qed.

Lemma run_mem_inv (P : mem -> Prop) l : (forall x s, x ∈ l -> P s -> P (exec_mem x s)) -> forall s, P s -> P (run_mem l s).
Proof.
  induction l as [|x l IH]; intros H s Hs; [done|]. simpl. apply IH; [intros y t Hy; apply H; by right|]. apply H; [by left|done].
Qed.

(** Bounds of the in-process queue: whatever runs, never more jobs wait than the
    maximum; and as long as no recovery scan has run, waiting and delayed jobs
    together are within it, the count of delayed jobs is the number of live timers,
    and every timer that fires does put its job on the queue. *)
Lemma memory_queue_bounded l s :
  1 <= max -> quiet s ->
  in_bounds (run_mem l s) /\
  (Forall (fun x => requeues_mem x = false) l ->
   let s' := run_mem l s in
   pending_depth s' <= max /\ m_delayed_count s' = Z.of_nat (length (m_timers s')) /\
   forall i d p, m_timers s' !! i = Some (d, p) -> (fire max i s').2 = Ok () /\ m_q (fire max i s').1 = m_q s' ++ [p]).
Proof.
  intros Hm Hq. split.
  - apply (run_mem_inv in_bounds); [intros x t _; by apply exec_bounds|]. destruct Hq as ([Hc _ _] & Hd & _).
    unfold in_bounds, pending_depth in *. lia.
  - intros Hl. cbv zeta. assert (H : quiet (run_mem l s)).
    { apply run_mem_inv; [|done]. intros x t Hx Ht. apply exec_quiet; [done| |done]. by apply (proj1 (Forall_forall _ _) Hl). }
    split_and!; [by destruct H as (_ & ? & _)|by destruct H as ([? _ _] & _)|].
    intros i d p Hi. by destruct (fire_ok i d p _ Hm H Hi) as (? & ? & _).
Qed.
End Runs.

(** ** The two backends *)

(** C35: the Redis queue and the in-process queue are interchangeable for their clients:
    with the same capacity, the same jobs waiting in the same order and equally many
    delayed ones, while Redis answers every call and no recovery is waiting for a slot, any
    sequence of enqueues, dequeues, acknowledgements and failures gets from both the
    answers of one bounded queue, first in first out: the same jobs in the same order, and
    the same refusals at capacity. *)
Theorem backends_agree before cf l (e : renv) (s : mem) :
  redis_wf e -> redis_up e -> mem_wf s -> mem_up s ->
  omap job_of (rev (st_queue (re_store e))) = m_q s -> length (st_delayed (re_store e)) = length (m_timers s) -> Forall wf_client l ->
  answers (H := redis_backend before cf) l e = fifo_answers (cf_max cf) (Z.of_nat (length (m_timers s))) (m_q s) l /\
  answers (H := memory_backend (cf_max cf)) l s = fifo_answers (cf_max cf) (Z.of_nat (length (m_timers s))) (m_q s) l.
Proof.
  intros Hwe Hue Hws Hus Hq Hd Hl. split.
  - rewrite (lawful_fifo (H0 := redis_laws before cf)) by done. cbn [be_pending be_delayed be_max redis_backend]. rewrite Hq, length_jobs, length_map, Hd; [done|].
    destruct Hwe as [_ Hdel _ _ _]. by apply Forall_fmap.
  - rewrite (lawful_fifo (H0 := memory_laws (cf_max cf))) by done. cbn [be_pending be_delayed be_max memory_backend]. by rewrite length_map.
Qed.

(** ** Concrete runs *)

Lemma quiet_empty max : 1 <= max -> quiet max empty_mem.
Proof. intros H. split_and!; [constructor; constructor|unfold pending_depth; simpl; lia|done]. Qed.

Lemma memory_queue_bounded_witness :
  m_delayed_count (run_mem 2 [(1, MEnqueue (ToyRedis.job "a")); (2, MDelayed (ToyRedis.job "b") 50); (3, MEnqueue (ToyRedis.job "c")); (60, MFire 0)] empty_mem) = 0 /\
  m_timers (run_mem 2 [(1, MEnqueue (ToyRedis.job "a")); (2, MDelayed (ToyRedis.job "b") 50); (3, MEnqueue (ToyRedis.job "c")); (60, MFire 0)] empty_mem) = [].
Proof.
  destruct (memory_queue_bounded 2 [(1, MEnqueue (ToyRedis.job "a")); (2, MDelayed (ToyRedis.job "b") 50); (3, MEnqueue (ToyRedis.job "c")); (60, MFire 0)]
    empty_mem) as [_ H]; [lia|apply quiet_empty; lia|]. destruct H as (_ & Hc & _); [by repeat constructor|].
  split; [rewrite Hc|]; vm_compute; reflexivity.
Defined.

Lemma backends_agree_witness :
  answers (H := redis_backend ToyRedis.before ToyRedis.cf)
    [(1, CEnqueue (ToyRedis.job "a")); (2, CEnqueue (ToyRedis.job "b")); (3, CEnqueue (ToyRedis.job "c")); (4, CDequeue); (5, CAck "a"); (6, CDequeue)]
    (ToyRedis.at_rest empty_store) =
  [Ok None; Ok None; Err Saturated; Ok (Some (ToyRedis.job "a")); Ok None; Ok (Some (ToyRedis.job "b"))].
Proof.
  etrans; [apply (backends_agree ToyRedis.before ToyRedis.cf _ _ empty_mem)|].
  - apply wf_empty_store.
  - done.
  - constructor; constructor.
  - done.
  - done.
  - done.
  - repeat constructor; vm_compute; discriminate.
  - vm_compute. reflexivity.
Defined.

(** A recovery that meets a full queue waits: its jobs are neither waiting nor in flight. *)
Example recovery_blocks_on_full_queue :
  let s := run_mem 1 [(1, MEnqueue (ToyRedis.job "a")); (2, MDequeue); (3, MEnqueue (ToyRedis.job "b"))] empty_mem in
  let '(s', r) := requeue_stale_jobs 1 9000 500 s in
  r = Err Blocked /\ map job_id (m_q s') = ["b"] /\ m_inflight s' = [] /\ map job_id (m_held s') = ["a"].
Proof. vm_compute. done. Qed.

(** After a recovery a timer can find the queue full: its job is dropped. *)
Example timer_drops_job_after_recovery :
  let s := run_mem 1 [(1, MEnqueue (ToyRedis.job "a")); (2, MDequeue); (3, MDelayed (ToyRedis.job "b") 50); (9000, MRequeue 500)] empty_mem in
  let '(s', r) := fire 1 0 s in
  r = Err QueueFull /\ map job_id (m_q s') = ["a"] /\ m_timers s' = [] /\ m_delayed_count s' = 0.
Proof. vm_compute. done. Qed.

(** Two threads that both pass the capacity check before either puts: the timer's job
    is dropped when it fires. *)
Example check_then_put_overfills :
  let s := run_mem 2 [(1, MDelayed (ToyRedis.job "d") 50)] empty_mem in
  (reject_if_full 2 s, reject_if_full 2 s) = (Ok (), Ok ()) /\
  let s2 := (put_nowait 2 (ToyRedis.job "b") (put_nowait 2 (ToyRedis.job "a") s).1).1 in
  pending_depth s2 = 3 /\ (fire 2 0 s2).2 = Err QueueFull /\ map job_id (m_q (fire 2 0 s2).1) = ["a"; "b"].
Proof. vm_compute. done. Qed.
