(* ===== verification/Worker.v ===== *)
(** * Queued jobs and their workers

    src/AINDY/worker/worker_loop.py (taking, claiming, running and settling a job;
    draining dead letters; the worker's health), the job's own lifecycle in
    src/AINDY/platform_layer/async_job_service.py ([_execute_job_inline],
    [_schedule_job_retry]), the distributed half of
    src/AINDY/core/execution_dispatcher.py, the resume descriptor of
    src/AINDY/core/resume_reconstruction.py, and the stale-row sweeps of
    scheduler_service.py and job_recovery.py.

    The queue is any [QueueBackend]. What happens outside is an argument of a step:
    whether the database answers the claim, what the handler does, whether a resume
    can be rebuilt. [w_ran] records the handler invocations. Events, metrics, logs and
    trace variables are left out. Times are in milliseconds. *)

From S2P Require Import Prelude PyStr PyVal JobQueue RedisQueue MemoryQueue.

Local Open Scope string_scope.
Local Open Scope Z_scope.
Local Open Scope list_scope.

(** ** Resume descriptors *)

Definition RESUME_TASK_NAME : string := "__resume__".
Definition RESUME_CONTEXT_KEY : string := "resume".

Section Resume.
Variable render : pyval -> string.

Definition resume_context (run_id : string) (eu_type : string) : pyval :=
  VDict [("run_id", VStr run_id); ("eu_type", VStr (str_lower eu_type))].

Definition read_resume_context (context : list (string * pyval)) : option (string * string) :=
  match py_get RESUME_CONTEXT_KEY context with
  | VDict raw =>
      let run_id := py_str render (py_or (py_get "run_id" raw) (VStr "")) in
      let eu_type := str_lower (py_str render (py_or (py_get "eu_type" raw) (VStr ""))) in
      if decide (run_id = "" \/ eu_type = "") then None else Some (run_id, eu_type)
  | _ => None
  end.
End Resume.

(** ** Configuration *)

Section Flags.
Variable env : string -> option string.

Definition TRUE_WORDS : list string := ["1"; "true"; "yes"].

(** [os.getenv(name, "false").lower() in {"1", "true", "yes"}] *)
Definition flag (name : string) : bool := bool_decide (str_lower (default "false" (env name)) ∈ TRUE_WORDS).

Definition in_test_mode : bool := flag "TESTING" || flag "TEST_MODE".

Definition async_heavy_execution_enabled : bool :=
  if flag "TESTING" then false else if flag "TEST_MODE" then false else flag "AINDY_ASYNC_HEAVY_EXECUTION".

Definition resolve_execution_mode (is_prod : bool) : string :=
  match env "EXECUTION_MODE" with
  | Some raw => if decide (raw = "") then if is_prod then "distributed" else "thread" else str_lower (str_strip raw)
  | None => if is_prod then "distributed" else "thread"
  end.

Definition SCHEDULER_ASYNC_DISPATCH_DEFAULT : bool := true.

Definition async_scheduler_dispatch_enabled (is_prod : bool) : bool :=
  let raw := str_strip (default "" (env "AINDY_ASYNC_SCHEDULER_DISPATCH")) in
  let word := bool_decide (str_lower raw ∈ TRUE_WORDS) in
  if decide (resolve_execution_mode is_prod = "distributed") then if decide (raw = "") then false else word
  else if decide (raw <> "") then word
  else if in_test_mode then false else SCHEDULER_ASYNC_DISPATCH_DEFAULT.

(** Distributed mode never moves the scheduler's work off its thread unless told to. *)
Lemma distributed_dispatch_is_opt_in is_prod :
  resolve_execution_mode is_prod = "distributed" -> async_scheduler_dispatch_enabled is_prod = true ->
  exists raw, env "AINDY_ASYNC_SCHEDULER_DISPATCH" = Some raw /\ str_lower (str_strip raw) ∈ TRUE_WORDS.
Proof.
  intros Hm. unfold async_scheduler_dispatch_enabled. rewrite decide_True by done.
  destruct (env "AINDY_ASYNC_SCHEDULER_DISPATCH") as [raw|]; simpl; [|done]. destruct (decide _); [done|].
  intros H%bool_decide_eq_true. by exists raw.
Qed.

(** Which backend [get_queue] builds. [redis_ready]: the server answered the readiness
    check; [require_redis]: AINDY_REQUIRE_REDIS. *)
Inductive backend_choice := UseMemory (degraded : bool) | UseRedis | RefuseStart.

Definition get_queue (redis_url : string) (is_prod redis_ready require_redis : bool) : backend_choice :=
  if flag "TESTING" || flag "TEST_MODE" then UseMemory false
  else if decide (redis_url = "") then
    if is_prod then RefuseStart
    else if decide (resolve_execution_mode is_prod = "distributed") then RefuseStart else UseMemory false
  else if redis_ready then UseRedis
  else if require_redis then RefuseStart else UseMemory true.

(** [attempt_queue_backend_reconnect] of the current choice. *)
Definition attempt_queue_backend_reconnect (redis_url : string) (redis_ready : bool) (current : option backend_choice) : option backend_choice * bool :=
  if decide (redis_url = "") then (current, false)
  else match current with
       | Some (UseMemory true) => if redis_ready then (Some UseRedis, true) else (current, false)
       | _ => (current, false)
       end.

(** Outside tests a process-local queue serves production or distributed mode only as
    the fallback from a configured Redis that did not answer. *)
Lemma memory_queue_only_as_fallback redis_url is_prod redis_ready require_redis d :
  in_test_mode = false -> (is_prod = true \/ resolve_execution_mode is_prod = "distributed") ->
  get_queue redis_url is_prod redis_ready require_redis = UseMemory d ->
  d = true /\ redis_url <> "" /\ redis_ready = false /\ require_redis = false.
Proof.
  unfold in_test_mode, get_queue. intros -> Hmode. destruct (decide (redis_url = "")) as [->|Hne].
  - destruct is_prod; [done|]. destruct Hmode as [|Hmode]; [done|]. by rewrite decide_True.
  - destruct redis_ready, require_redis; try done. by intros [= <-].
Qed.
End Flags.

(** ** Dispatch mode *)

Inductive ExecutionMode := INLINE | ASYNC.

Definition ASYNC_EU_TYPES : list string := ["flow"; "agent"; "nodus"; "job"].

(** [hint] is [extra.get("async_hint")] where [extra] is a dict. *)
Definition decide_mode (hint : pyval) (heavy_enabled : bool) (eu_type priority : string) : ExecutionMode :=
  match hint with
  | VBool true => ASYNC
  | _ =>
      if negb heavy_enabled then INLINE
      else match hint with
           | VBool false => INLINE
           | _ => if decide (str_lower priority = "high") then ASYNC
                  else if decide (str_lower eu_type ∈ ASYNC_EU_TYPES) then ASYNC else INLINE
           end
  end.

(** Where [dispatch] sends the work: on the caller's thread, to the queue, or to the pool. *)
Inductive route := RunInline | ToQueue | ToThreadPool.

Definition dispatch (hint : pyval) (heavy_enabled : bool) (eu_type priority mode : string) : route :=
  match decide_mode hint heavy_enabled eu_type priority with
  | INLINE => RunInline
  | ASYNC => if decide (mode = "distributed") then ToQueue else ToThreadPool
  end.

(** ** Job rows *)

Record row := Row {
  jl_status : string;
  jl_attempt_count : Z;
  jl_max_attempts : Z;
  jl_task_name : string;
  jl_user_id : option string;
  jl_error : option string;
  jl_created_at : Z
}.

Definition set_row (st : string) (n : Z) (err : option string) (r : row) : row :=
  Row st n (jl_max_attempts r) (jl_task_name r) (jl_user_id r) err (jl_created_at r).

(** ** Retry backoff *)

(** [read] is the row's attempt count, when the row could be read. *)
Definition compute_retry_delay (base_ms max_ms : Z) (read : option Z) : Z :=
  let attempt := match read with Some n => Z.max 1 (if n =? 0 then 1 else n) | None => 1 end in
  Z.min (base_ms * 2 ^ (attempt - 1)) max_ms.

Lemma retry_delay_bounds base max_ms read : 0 < base -> 0 <= max_ms -> 0 <= compute_retry_delay base max_ms read <= max_ms.
Proof.
  intros Hb Hm. unfold compute_retry_delay. cbv zeta. set (k := (_ - 1)).
  assert (0 <= 2 ^ k) by (apply Z.pow_nonneg; lia). nia.
Qed.

(** ** Errors and what happens outside *)

Inductive job_error :=
| QueueError (x : queue_error) | UndistributableWork | BadContext | NotReconstructible | Escaped (msg : string).

(** What becomes of a handler: it returns, it raises and the failure is recorded, or
    the record of it fails as well and the exception escapes. *)
Inductive outcome := Returns | Raises (msg : string) | Unrecorded (msg : string).

(** How the database answers a worker: as asked, the claim fails, or the read of the job does. *)
Inductive db_answer := DbOk | ClaimFails | FetchFails.

(** What becomes of a resume. *)
Inductive rebuild := Rebuilt | NotRebuilt | CallbackRaises (msg : string).

(** [int(v)] of a context value. *)
Definition py_int (v : pyval) : option Z :=
  match v with
  | VInt z => Some z
  | VBool b => Some (if b then 1 else 0)
  | VFloat q => Some (Z.quot (QArith_base.Qnum q) (Z.pos (QArith_base.Qden q)))
  | VStr s => int_of_string s
  | _ => None
  end.

Section Worker.
Context {S : Type} `{QueueBackend S}.
Variable render : pyval -> string.
Variable registered : string -> bool.
Variable base_ms max_ms : Z.
(** [str(exc)] *)
Variable text : job_error -> string.

Record world := World {
  w_queue : S;
  w_rows : list (string * row);
  w_ran : list string;                   (** handler invocations, by job id *)
  w_resumed : list (string * string)     (** resumes run *)
}.

Definition with_queue (q : S) (w : world) : world := World q (w_rows w) (w_ran w) (w_resumed w).
Definition put_row (j : string) (r : row) (w : world) : world := World (w_queue w) (dict_set j r (w_rows w)) (w_ran w) (w_resumed w).
Definition note_run (j : string) (w : world) : world := World (w_queue w) (w_rows w) (w_ran w ++ [j]) (w_resumed w).
Definition note_resume (x : string * string) (w : world) : world := World (w_queue w) (w_rows w) (w_ran w) (w_resumed w ++ [x]).

(** A queue operation on the world. *)
Definition on_queue {A} (f : S -> S * result queue_error A) (w : world) : world * result job_error A :=
  let '(q, r) := f (w_queue w) in (with_queue q w, match r with Ok a => Ok a | Err x => Err (QueueError x) end).

(** ** Enqueueing *)

(** The trace variables and the time of day at the enqueue. *)
Record ambient := Ambient { am_trace_id : string; am_eu_id : string; am_user_id : string; am_clock : string }.

Definition is_retry (ctx : list (string * pyval)) : bool := py_truth (default (VBool false) (dict_get "retry" ctx)).

Definition distributed_payload (am : ambient) (ctx : list (string * pyval)) : result job_error payload :=
  let resume := read_resume_context render ctx in
  match resume, py_truth (py_get "log_id" ctx) with
  | None, false => Err UndistributableWork
  | _, _ =>
      let job := match resume with Some (run_id, _) => run_id | None => py_str render (py_get "log_id" ctx) end in
      let '(operation, task) :=
        match resume with
        | Some (_, eu_type) => ("resume:" +:+ eu_type, RESUME_TASK_NAME)
        | None =>
            let op := py_str render (py_or (py_get "operation_name" ctx) (default (VStr "") (dict_get "task_name" ctx))) in
            (op, py_str render (py_or (py_get "task_name" ctx) (VStr op)))
        end in
      match py_int (default (VInt 0) (dict_get "attempt_count" ctx)), py_int (default (VInt 1) (dict_get "max_attempts" ctx)) with
      | Some attempt_count, Some max_attempts =>
          Ok (post_init (Payload job task ""
            (match resume with Some _ => [(RESUME_CONTEXT_KEY, py_get RESUME_CONTEXT_KEY ctx)] | None => [] end ++
             [("trace_id", VStr (am_trace_id am)); ("eu_id", VStr (am_eu_id am));
              ("user_id", VStr (py_str render (py_or (py_get "user_id" ctx) (VStr (am_user_id am)))));
              ("operation_name", VStr operation)])
            [("attempt_count", VInt attempt_count); ("max_attempts", VInt max_attempts); ("is_retry", VBool (is_retry ctx))]
            (am_clock am)))
      | _, _ => Err BadContext
      end
  end.

Definition enqueue_distributed (now : Z) (am : ambient) (ctx : list (string * pyval)) (w : world) : world * result job_error unit :=
  match distributed_payload am ctx with
  | Err x => (w, Err x)
  | Ok p =>
      let delay := compute_retry_delay base_ms max_ms (option_map jl_attempt_count (dict_get (job_id p) (w_rows w))) in
      if is_retry ctx && (0 <? delay) then on_queue (be_enqueue_delayed now p delay) w
      else on_queue (be_enqueue now p) w
  end.

(** ** One attempt of a job *)

(** [_schedule_job_retry] in distributed mode. *)
Definition schedule_job_retry (now : Z) (am : ambient) (j : string) (user : option string) (w : world) : world * result job_error unit :=
  enqueue_distributed now am
    [("log_id", VStr j); ("retry", VBool true); ("user_id", match user with Some u => VStr u | None => VNone end)] w.

(** The [except] branch of [_execute_job_inline]: [n] is the number of this attempt. *)
Definition settle_failure (retryable : bool) (now : Z) (am : ambient) (j : string) (n : Z) (msg : string) (w : world) :
    world * result job_error unit :=
  match dict_get j (w_rows w) with
  | None => (w, Ok ())
  | Some r =>
      let count := Z.max (jl_attempt_count r) n in
      if retryable && (count <? jl_max_attempts r)
      then schedule_job_retry now am j (jl_user_id r) (put_row j (set_row "pending" count (Some msg) r) w)
      else (put_row j (set_row "failed" count (Some msg) r) w, Ok ())
  end.

Definition execute_job_inline (now : Z) (am : ambient) (j task : string) (o : outcome) (w : world) : world * result job_error unit :=
  match dict_get j (w_rows w) with
  | None => (w, Ok ())
  | Some r =>
      let n := jl_attempt_count r + 1 in
      if registered task then
        let w := note_run j w in
        match o with
        | Returns => (put_row j (set_row "success" n (jl_error r) r) w, Ok ())
        | Raises msg => settle_failure true now am j n msg w
        | Unrecorded msg => (w, Err (Escaped msg))
        end
      else settle_failure false now am j n ("handler '" +:+ task +:+ "' is not registered") w
  end.

(** ** The worker *)

(** The update that claims a row, with the number of rows it changed. *)
Definition try_claim_job (j : string) (w : world) : world * bool :=
  match dict_get j (w_rows w) with
  | Some r => if decide (jl_status r = "pending") then (put_row j (set_row "running" (jl_attempt_count r) (jl_error r) r) w, true)
              else (w, false)
  | None => (w, false)
  end.

Definition fetch_job_data (j : string) (w : world) : option string := option_map jl_task_name (dict_get j (w_rows w)).

Definition run_resume (now : Z) (p : payload) (resume : string * string) (rb : rebuild) (w : world) : world * result job_error unit :=
  match rb with
  | NotRebuilt => on_queue (be_fail now (job_id p) (text NotReconstructible)) w
  | CallbackRaises msg => (note_resume resume w, Err (Escaped msg))
  | Rebuilt => on_queue (be_ack now (job_id p)) (note_resume resume w)
  end.

(** The body of the [try]: a resume, a job another worker has, or the job itself. *)
Definition run_job (now : Z) (am : ambient) (db : db_answer) (o : outcome) (rb : rebuild) (p : payload) (w : world) :
    world * result job_error unit :=
  let acked w := on_queue (be_ack now (job_id p)) w in
  match read_resume_context render (context p) with
  | Some resume => run_resume now p resume rb w
  | None =>
      let '(w, claimed) := match db with ClaimFails => (w, false) | _ => try_claim_job (job_id p) w end in
      if negb claimed then acked w
      else match db, fetch_job_data (job_id p) w with
           | FetchFails, _ => (w, Err (Escaped "fetch"))
           | _, None => acked w
           | _, Some task =>
               match execute_job_inline now am (job_id p) task o w with
               | (w, Ok _) => acked w
               | (w, Err x) => (w, Err x)
               end
           end
  end.

(** The [except] branch: what escapes goes to the dead letters. *)
Definition settle_raised (now : Z) (p : payload) (m : world * result job_error unit) : world * result job_error bool :=
  match m with
  | (w, Ok _) => (w, Ok true)
  | (w, Err x) => match on_queue (be_fail now (job_id p) (text x)) w with
                  | (w, Ok _) => (w, Ok true)
                  | (w, Err y) => (w, Err y)
                  end
  end.

(** [slot] is false when the process is told to stop while it waits for a slot. *)
Definition process_one_job (now : Z) (am : ambient) (slot : bool) (db : db_answer) (o : outcome) (rb : rebuild) (w : world) :
    world * result job_error bool :=
  match on_queue (be_dequeue now (am_clock am)) w with
  | (w, Err x) => (w, Err x)
  | (w, Ok None) => (w, Ok false)
  | (w, Ok (Some p)) =>
      if slot then settle_raised now p (run_job now am db o rb p w)
      else match on_queue (be_enqueue now p) w with
           | (w, Ok _) => (w, Ok false)
           | (w, Err x) => (w, Err x)
           end
  end.

(** ** Submitting *)

(** The distributed path of [_submit_async_job_inner], for a fresh id. [recorded]: the
    events written for a failed submission committed the row's failure with them. *)
Definition submit_job (now : Z) (am : ambient) (j task : string) (user : option string) (max_attempts : Z) (recorded : bool) (w : world) :
    world * result job_error unit :=
  let r := Row "pending" 0 max_attempts task user None now in
  match enqueue_distributed now am
          [("log_id", VStr j); ("task_name", VStr task); ("user_id", match user with Some u => VStr u | None => VNone end)] (put_row j r w) with
  | (w, Ok _) => (w, Ok ())
  | (w, Err x) => (if recorded then put_row j (set_row "failed" 0 (Some (text x)) r) w else w, Err x)
  end.

(** Its inline path (as a test environment or SQLite takes it in distributed mode, where
    a retry is enqueued): the guard after the attempt marks any row that is not settled. *)
Definition submit_inline (now : Z) (am : ambient) (j task : string) (user : option string) (max_attempts : Z) (o : outcome) (w : world) :
    world * result job_error unit :=
  let '(w, r) := execute_job_inline now am j task o (put_row j (Row "pending" 0 max_attempts task user None now) w) in
  (match dict_get j (w_rows w) with
   | Some row => if decide (jl_status row ∈ ["success"; "failed"]) then w
                 else put_row j (set_row "success" (jl_attempt_count row) (jl_error row) row) w
   | None => w
   end, r).

(** ** Sweeps *)

(** [_cleanup_stale_logs]: pending rows older than an hour. *)
Definition cleanup_stale_logs (now : Z) (w : world) : world :=
  World (w_queue w)
    (map (fun x : string * row => (x.1, if bool_decide (jl_status x.2 = "pending") && (jl_created_at x.2 <? now - 3600000)
                                        then set_row "failed" (jl_attempt_count x.2) (Some "stale") x.2 else x.2)) (w_rows w))
    (w_ran w) (w_resumed w).

(** [recover_orphaned_thread_jobs]: at most 500 rows, back to pending; each is then run
    by a thread of its own. Thread mode only. *)
Definition ORPHAN_STATUSES : list string := ["pending"; "running"].

Definition orphans (w : world) : list string :=
  take 500 (map fst (base.filter (fun x : string * row => jl_status x.2 ∈ ORPHAN_STATUSES) (w_rows w))).

Definition recover_orphaned_thread_jobs (mode : string) (w : world) : world * list string :=
  if decide (mode = "thread") then
    (fold_left (fun w j => match dict_get j (w_rows w) with
                           | Some r => put_row j (set_row "pending" (jl_attempt_count r) (jl_error r) r) w
                           | None => w
                           end) (orphans w) w, orphans w)
  else (w, []).
End Worker.

(** ** Runs of the system *)

Arguments World {S} _ _ _ _.
Arguments w_queue {S} _.
Arguments w_rows {S} _.
Arguments w_ran {S} _.
Arguments w_resumed {S} _.

(** One thing that happens: a worker takes and settles a job; a worker dies with a job
    taken, or claimed and perhaps begun; a recovery scan; a submission; the hourly
    sweep; the replay of a dead letter. *)
Inductive wstep :=
| Work (am : ambient) (slot : bool) (db : db_answer) (o : outcome) (rb : rebuild)
| CrashTaken (am : ambient)
| CrashClaimed (am : ambient) (begun : bool)
| Recover (timeout : Z)
| Submit (am : ambient) (j task : string) (user : option string) (max_attempts : Z) (recorded : bool)
| Cleanup
| Replay (p : payload).

Section Steps.
Context {S : Type} `{QueueBackend S} (render : pyval -> string) (registered : string -> bool) (base_ms max_ms : Z) (text : job_error -> string).

(** A submission draws a fresh id. *)
Definition exec_step (now : Z) (st : wstep) (w : world (S := S)) : world (S := S) :=
  match st with
  | Work am slot db o rb => (process_one_job render registered base_ms max_ms text now am slot db o rb w).1
  | CrashTaken am => (on_queue (be_dequeue now (am_clock am)) w).1
  | CrashClaimed am begun =>
      match on_queue (be_dequeue now (am_clock am)) w with
      | (w, Ok (Some p)) =>
          match read_resume_context render (context p) with
          | Some _ => w
          | None => let '(w, claimed) := try_claim_job (job_id p) w in
                    if claimed && begun then note_run (job_id p) w else w
          end
      | (w, _) => w
      end
  | Recover timeout => (on_queue (be_requeue_stale now timeout) w).1
  | Submit am j task user max_attempts recorded =>
      if dict_mem j (w_rows w) then w
      else (submit_job render base_ms max_ms text now am j task user max_attempts recorded w).1
  | Cleanup => cleanup_stale_logs now w
  | Replay p => (on_queue (be_enqueue now p) w).1
  end.

Definition exec_steps (l : list (Z * wstep)) (w : world (S := S)) : world (S := S) := fold_left (fun w x => exec_step x.1 x.2 w) l w.

(** How often the handler of [j] has been called. *)
Definition runs (j : string) (w : world (S := S)) : Z := Z.of_nat (length (base.filter (fun k => k = j) (w_ran w))).

(** The attempts a row is worth: one even where none is asked for. *)
Definition budget (r : row) : Z := Z.max 1 (jl_max_attempts r).

(** What a row promises of the [n] calls made for it. *)
Definition row_ok (n : Z) (r : row) : Prop :=
  0 <= n <= budget r /\
  (jl_status r = "pending" -> n <= jl_attempt_count r < budget r) /\
  (jl_status r = "running" -> jl_attempt_count r < budget r).

Definition rows_ok (w : world (S := S)) : Prop :=
  dict_wf (w_rows w) /\ forall j, match dict_get j (w_rows w) with Some r => row_ok (runs j w) r | None => runs j w = 0 end.

Lemma runs_note j k w : runs j (note_run k w) = runs j w + if decide (k = j) then 1 else 0.
Proof.
  unfold runs, note_run. simpl. rewrite filter_app, length_app, filter_cons, filter_nil. destruct (decide (k = j)); simpl; lia.
Qed.

(** The queue's part leaves the rows and the calls alone. *)
Lemma on_queue_rows {A} (f : S -> S * result queue_error A) w :
  w_rows (on_queue f w).1 = w_rows w /\ w_ran (on_queue f w).1 = w_ran w /\ w_resumed (on_queue f w).1 = w_resumed w.
Proof. unfold on_queue. by destruct (f (w_queue w)). Qed.

Lemma runs_eq j (w w' : world (S := S)) : w_ran w' = w_ran w -> runs j w' = runs j w.
Proof. unfold runs. by intros ->. Qed.

Lemma rows_ok_same (w w' : world (S := S)) : w_rows w' = w_rows w -> w_ran w' = w_ran w -> rows_ok w -> rows_ok w'.
Proof. unfold rows_ok, runs. by intros -> ->. Qed.

(** Storing one row: only its own promise has to be shown. *)
Lemma rows_ok_put j r w : rows_ok w -> row_ok (runs j w) r -> rows_ok (put_row j r w).
Proof.
  intros [Hd Hr] Hrow. split; [by apply dict_set_wf|]. intros j'. simpl. destruct (decide (j = j')) as [<-|Hne].
  - by rewrite dict_get_set_eq.
  - rewrite dict_get_set_ne by done. apply Hr.
Qed.

Lemma enqueue_distributed_rows now am ctx w :
  w_rows (enqueue_distributed render base_ms max_ms now am ctx w).1 = w_rows w /\
  w_ran (enqueue_distributed render base_ms max_ms now am ctx w).1 = w_ran w.
Proof.
  unfold enqueue_distributed. destruct (distributed_payload render am ctx) as [p|]; [|done]. cbv zeta.
  destruct (_ && _); match goal with |- context [on_queue ?f ?v] => destruct (on_queue_rows f v) as (? & ? & _) end; done.
Qed.

(** The rows and calls after an attempt of a job whose row is [r]: the row is settled
    or ready for another try, with one more attempt on it, or left as it was. *)
Lemma execute_rows now am j task o w r :
  dict_get j (w_rows w) = Some r ->
  let w' := (execute_job_inline render registered base_ms max_ms now am j task o w).1 in
  (exists b, w_ran w' = w_ran w ++ (if (b : bool) then [j] else [])) /\
  exists r', w_rows w' = w_rows w /\ r' = r \/
             w_rows w' = dict_set j r' (w_rows w) /\ jl_max_attempts r' = jl_max_attempts r /\
             jl_attempt_count r' = jl_attempt_count r + 1 /\
             (jl_status r' = "success" \/ jl_status r' = "failed" \/
              (jl_status r' = "pending" /\ jl_attempt_count r + 1 < jl_max_attempts r)).
Proof.
  intros Hg. unfold execute_job_inline. rewrite Hg. cbv zeta.
  assert (Hs : forall b w0 msg, w_rows w0 = w_rows w ->
    let w' := (settle_failure render base_ms max_ms b now am j (jl_attempt_count r + 1) msg w0).1 in
    w_ran w' = w_ran w0 /\ exists r', w_rows w' = dict_set j r' (w_rows w) /\ jl_max_attempts r' = jl_max_attempts r /\
      jl_attempt_count r' = jl_attempt_count r + 1 /\
      (jl_status r' = "success" \/ jl_status r' = "failed" \/ (jl_status r' = "pending" /\ jl_attempt_count r + 1 < jl_max_attempts r))).
  { intros b w0 msg Hw0. unfold settle_failure. rewrite Hw0, Hg. rewrite Z.max_r by lia.
    destruct (b && (jl_attempt_count r + 1 <? jl_max_attempts r)) eqn:E.
    - unfold schedule_job_retry. match goal with |- context [enqueue_distributed _ _ _ _ _ ?c ?v] =>
        destruct (enqueue_distributed_rows now am c v) as [H1 H2] end. cbv zeta. rewrite H1, H2. split; [done|].
      eexists. simpl. rewrite Hw0. split; [done|]. boolprop. split_and!; [done|done|]. right. right. done.
    - cbv zeta. split; [done|]. eexists. simpl. rewrite Hw0. split; [done|]. split_and!; [done|done|]. right. by left. }
  destruct (registered task).
  - destruct o as [|msg|msg].
    + split; [by exists true|]. eexists. right. simpl. split; [done|]. split_and!; [done|done|]. by left.
    + destruct (Hs true (note_run j w) msg eq_refl) as [H1 (r' & H2)]. split; [exists true; by rewrite H1|].
      exists r'. by right.
    + split; [by exists true|]. exists r. by left.
  - destruct (Hs false w ("handler '" +:+ task +:+ "' is not registered") eq_refl) as [H1 (r' & H2)].
    split; [exists false; rewrite H1; by rewrite app_nil_r|]. exists r'. by right.
Qed.

(** [w'] differs from [w] in the row of [j], now [r], and the calls [l] made. *)
Definition touched (j : string) (r : row) (l : list string) (w w' : world (S := S)) : Prop :=
  (forall k, dict_get k (w_rows w') = if decide (j = k) then Some r else dict_get k (w_rows w)) /\
  (dict_wf (w_rows w) -> dict_wf (w_rows w')) /\ w_ran w' = w_ran w ++ l.

Definition same_rows (w w' : world (S := S)) : Prop := w_rows w' = w_rows w /\ w_ran w' = w_ran w.

Lemma touched_put j r w : touched j r [] w (put_row j r w).
Proof.
  split_and!; [|by apply dict_set_wf|by rewrite app_nil_r]. intros k. simpl. destruct (decide (j = k)) as [<-|Hne].
  - by rewrite dict_get_set_eq.
  - by rewrite dict_get_set_ne.
Qed.

Lemma touched_same j r l w w' w'' : touched j r l w w' -> same_rows w' w'' -> touched j r l w w''.
Proof. intros (H1 & H2 & H3) [E1 E2]. unfold touched. by rewrite E1, E2. Qed.

(** What an attempt may leave of a pending row. *)
Definition next_row (r r' : row) : Prop :=
  jl_max_attempts r' = jl_max_attempts r /\
  (jl_status r' = "running" /\ jl_attempt_count r' = jl_attempt_count r \/
   jl_attempt_count r' = jl_attempt_count r + 1 /\
   (jl_status r' = "success" \/ jl_status r' = "failed" \/ (jl_status r' = "pending" /\ jl_attempt_count r + 1 < jl_max_attempts r))).

(** A job is attempted only from a pending row, and once. *)
Lemma attempt_cases now am db o rb p w :
  let w' := (run_job render registered base_ms max_ms text now am db o rb p w).1 in
  same_rows w w' \/
  exists r r' b, dict_get (job_id p) (w_rows w) = Some r /\ jl_status r = "pending" /\ next_row r r' /\
    touched (job_id p) r' (if (b : bool) then [job_id p] else []) w w'.
Proof.
  cbv zeta. unfold run_job. destruct (read_resume_context render (context p)) as [resume|].
  { left. unfold run_resume, same_rows.
    destruct rb; try match goal with |- context [on_queue ?f ?v] => destruct (on_queue_rows f v) as (-> & -> & _) end; done. }
  set (claim := match db with ClaimFails => (w, false) | _ => try_claim_job (job_id p) w end).
  assert (Hack : forall v, same_rows v (on_queue (be_ack now (job_id p)) v).1).
  { intros v. destruct (on_queue_rows (be_ack now (job_id p)) v) as (E1 & E2 & _). by split. }
  assert (Hclaim : claim = (w, false) \/ exists r, dict_get (job_id p) (w_rows w) = Some r /\ jl_status r = "pending" /\
    claim = (put_row (job_id p) (set_row "running" (jl_attempt_count r) (jl_error r) r) w, true)).
  { unfold claim, try_claim_job. destruct db; try by left.
    all: destruct (dict_get (job_id p) (w_rows w)) as [r|] eqn:Hg; [|by left]; destruct (decide (jl_status r = "pending")); [right; by exists r|by left]. }
  destruct Hclaim as [->|(r & Hg & Hp & ->)]; [left; apply Hack|]. right. cbn [negb].
  set (r1 := set_row "running" _ _ r). pose proof (touched_put (job_id p) r1 w) as H1. set (w1 := put_row (job_id p) r1 w) in *.
  assert (Hnext : next_row r r1) by (split; [done|by left]).
  assert (Hg1 : dict_get (job_id p) (w_rows w1) = Some r1) by (simpl; apply dict_get_set_eq).
  destruct db; unfold fetch_job_data; rewrite ?Hg1; cbn [option_map];
    try (exists r, r1, false; split_and!; try done; first [exact H1 | eapply touched_same; [exact H1|apply Hack]]; fail).
  all: destruct (execute_rows now am (job_id p) (jl_task_name r1) o w1 r1 Hg1) as [(b & Hran) (r' & Hr')];
    set (ex := execute_job_inline _ _ _ _ _ _ _ _ _ _) in *;
    assert (Hex : exists r'', next_row r r'' /\ touched (job_id p) r'' (if b then [job_id p] else []) w ex.1).
  1, 3: destruct Hr' as [[E ->]|(E & Hm & Hc & Hst)];
    [ exists r1; split; [done|]; destruct H1 as (A & B & C); unfold touched; rewrite E, Hran, C, app_nil_r; done
    | exists r'; split; [split; [done|by right]|]; split_and!; [|intros Hd; rewrite E; by apply dict_set_wf, dict_set_wf|by rewrite Hran];
      intros k; rewrite E; destruct (decide (job_id p = k)) as [<-|Hne]; [by rewrite dict_get_set_eq|];
      rewrite dict_get_set_ne by done; simpl; by rewrite dict_get_set_ne ].
  all: destruct Hex as (r'' & Hn & Ht); exists r, r'', b; split_and!; try done;
    destruct ex as [w2 [u|x]]; [eapply touched_same; [exact Ht|apply Hack]|exact Ht].
Qed.

Lemma process_cases now am slot db o rb w :
  let w' := exec_step now (Work am slot db o rb) w in
  same_rows w w' \/
  exists j r r' b, dict_get j (w_rows w) = Some r /\ jl_status r = "pending" /\ next_row r r' /\
    touched j r' (if (b : bool) then [j] else []) w w'.
Proof.
  cbv zeta. cbn [exec_step]. unfold process_one_job. destruct (on_queue_rows (be_dequeue now (am_clock am)) w) as (E1 & E2 & _).
  destruct (on_queue (be_dequeue now (am_clock am)) w) as [w1 [[p|]|x]]; simpl in E1, E2; try by left.
  destruct slot.
  - pose proof (attempt_cases now am db o rb p w1) as Hc. cbv zeta in Hc. unfold settle_raised.
    destruct (run_job render registered base_ms max_ms text now am db o rb p w1) as [w2 [u|x]].
    + cbn [fst] in *. destruct Hc as [[F1 F2]|(r & r' & b & Hc)]; [left; split; congruence|]. right.
      exists (job_id p), r, r', b. unfold touched in *. by rewrite <- E1, <- E2.
    + destruct (on_queue_rows (be_fail now (job_id p) (text x)) w2) as (F1 & F2 & _).
      destruct (on_queue (be_fail now (job_id p) (text x)) w2) as [w3 [u|y]]; cbn [fst] in *;
      (destruct Hc as [[G1 G2]|(r & r' & b & Hg & Hp & Hn & Ht)]; [left; split; congruence|]; right;
       exists (job_id p), r, r', b; rewrite <- E1; split_and!; [done|done|done|];
       apply (touched_same _ _ _ _ _ w3) in Ht; [|done]; unfold touched in *; by rewrite <- E1, <- E2).
  - destruct (on_queue_rows (be_enqueue now p) w1) as (F1 & F2 & _).
    left. destruct (on_queue (be_enqueue now p) w1) as [w2 [u|x]]; cbn [fst] in *; split; congruence.
Qed.

Lemma crash_cases now am begun w :
  let w' := exec_step now (CrashClaimed am begun) w in
  same_rows w w' \/
  exists j r r' b, dict_get j (w_rows w) = Some r /\ jl_status r = "pending" /\ next_row r r' /\
    touched j r' (if (b : bool) then [j] else []) w w'.
Proof.
  cbv zeta. cbn [exec_step]. destruct (on_queue_rows (be_dequeue now (am_clock am)) w) as (E1 & E2 & _).
  destruct (on_queue (be_dequeue now (am_clock am)) w) as [w1 [[p|]|x]]; simpl in E1, E2; try by left.
  destruct (read_resume_context render (context p)); [by left|]. unfold try_claim_job. rewrite E1.
  destruct (dict_get (job_id p) (w_rows w)) as [r|] eqn:Hg; [|by left].
  destruct (decide (jl_status r = "pending")) as [Hp|]; [|by left]. right.
  set (r' := set_row "running" _ _ r). exists (job_id p), r, r', begun. split_and!; [done|done|split; [done|by left]|].
  destruct (touched_put (job_id p) r' w1) as (A & B & C). cbn [andb]. unfold touched. rewrite <- E1, <- E2.
  destruct begun; split_and!; try done.
Qed.

(** A submission adds one row, with no attempt on it. *)
Lemma submit_cases now am j task user m recorded w :
  dict_get j (w_rows w) = None ->
  exists r, touched j r [] w (submit_job render base_ms max_ms text now am j task user m recorded w).1 /\
    jl_attempt_count r = 0 /\ jl_max_attempts r = m /\ (jl_status r = "pending" \/ jl_status r = "failed").
Proof.
  intros Hg. unfold submit_job. set (r := Row "pending" 0 m task user None now). set (ctx := [_; _; _]).
  destruct (enqueue_distributed_rows now am ctx (put_row j r w)) as [E1 E2].
  destruct (enqueue_distributed render base_ms max_ms now am ctx (put_row j r w)) as [w' [u|x]]; cbn [fst] in *.
  { exists r. split_and!; try done; [|by left]. eapply touched_same; [apply touched_put|done]. }
  destruct recorded.
  - exists (set_row "failed" 0 (Some (text x)) r). split_and!; [|done|done|by right].
    destruct (touched_put j r w) as (A & B & C). split_and!.
    + intros k. simpl. destruct (decide (j = k)) as [<-|Hne]; [by rewrite dict_get_set_eq|]. rewrite dict_get_set_ne, E1, A by done.
      by rewrite decide_False.
    + intros Hd. apply dict_set_wf. rewrite E1. by apply B.
    + simpl. rewrite E2. by rewrite app_nil_r.
  - exists r. split_and!; try done; [|by left]. eapply touched_same; [apply touched_put|done].
Qed.

Lemma cleanup_get now (w : world (S := S)) k :
  dict_get k (w_rows (cleanup_stale_logs now w)) =
  option_map (fun r => if bool_decide (jl_status r = "pending") && (jl_created_at r <? now - 3600000)
                       then set_row "failed" (jl_attempt_count r) (Some "stale") r else r) (dict_get k (w_rows w)).
Proof.
  simpl. induction (w_rows w) as [|[k' r] rows IH]; [done|]. simpl. by destruct (decide (k = k')).
Qed.

Lemma cleanup_wf now (w : world (S := S)) : dict_wf (w_rows w) -> dict_wf (w_rows (cleanup_stale_logs now w)).
Proof. unfold dict_wf, dict_keys. simpl. by rewrite map_map. Qed.

(** A row that a step has changed keeps its promise. *)
Lemma rows_ok_touched j r' l w w' n :
  rows_ok w -> touched j r' l w w' -> (forall k, k ∈ l -> k = j) -> n = Z.of_nat (length l) -> row_ok (runs j w + n) r' -> rows_ok w'.
Proof.
  intros [Hd Hr] (A & B & C) Hl -> Hok. split; [by apply B|]. intros k.
  assert (Hk : runs k w' = runs k w + if decide (j = k) then Z.of_nat (length l) else 0).
  { unfold runs. rewrite C, filter_app, length_app. clear - Hl. destruct (decide (j = k)) as [<-|Hne].
    - rewrite (list_filter_all (fun x => x = j) l Hl). lia.
    - enough (base.filter (fun x => x = k) l = []) as -> by (simpl; lia). destruct (base.filter _ l) as [|x l'] eqn:E; [done|].
      assert (Hx : x ∈ base.filter (fun x => x = k) l) by (rewrite E; by left). apply list_elem_of_filter in Hx as [-> Hx].
      by apply Hl in Hx. }
  rewrite A, Hk. destruct (decide (j = k)) as [<-|Hne]; [done|]. rewrite Z.add_0_r. apply Hr.
Qed.

Lemma attempt_ok j r r' (b : bool) w w' :
  rows_ok w -> dict_get j (w_rows w) = Some r -> jl_status r = "pending" -> next_row r r' ->
  touched j r' (if b then [j] else []) w w' -> rows_ok w'.
Proof.
  intros Hok Hg Hp [Hm Hst] Ht. apply (rows_ok_touched j r' (if b then [j] else []) w w' (if b then 1 else 0) Hok Ht).
  - destruct b; intros k Hk; [by apply list_elem_of_singleton in Hk|by apply not_elem_of_nil in Hk].
  - by destruct b.
  - destruct Hok as [_ Hr]. specialize (Hr j). rewrite Hg in Hr. destruct Hr as (Hb & Hpend & _). specialize (Hpend Hp).
    assert (Hbud : budget r' = budget r) by (unfold budget; by rewrite Hm). unfold row_ok. rewrite Hbud.
    destruct Hst as [[E Hc]|[Hc [E|[E|[E Hlt]]]]]; rewrite E, Hc; split_and!; try done;
      try (destruct b; lia); intros _; try (split; destruct b; unfold budget in *; lia); lia.
Qed.

Lemma exec_step_ok now st w : rows_ok w -> rows_ok (exec_step now st w).
Proof.
  intros Hok. destruct st as [am slot db o rb|am|am begun|timeout|am j task user m recorded| |p].
  - destruct (process_cases now am slot db o rb w) as [[E1 E2]|(j & r & r' & b & Hg & Hp & Hn & Ht)]; [by eapply rows_ok_same|by eapply attempt_ok].
  - cbn [exec_step]. destruct (on_queue_rows (be_dequeue now (am_clock am)) w) as (? & ? & _). by eapply rows_ok_same.
  - destruct (crash_cases now am begun w) as [[E1 E2]|(j & r & r' & b & Hg & Hp & Hn & Ht)]; [by eapply rows_ok_same|by eapply attempt_ok].
  - cbn [exec_step]. destruct (on_queue_rows (be_requeue_stale now timeout) w) as (? & ? & _). by eapply rows_ok_same.
  - cbn [exec_step]. unfold dict_mem. destruct (dict_get j (w_rows w)) as [r0|] eqn:Hg; [done|].
    destruct (submit_cases now am j task user m recorded w Hg) as (r & Ht & Hc & Hm & Hst).
    eapply (rows_ok_touched j r [] w _ 0); [done|exact Ht|by intros k Hk%not_elem_of_nil|done|].
    destruct Hok as [_ Hr]. specialize (Hr j). rewrite Hg in Hr. rewrite Hr. unfold row_ok, budget. rewrite Hc, Hm.
    split_and!; [lia|lia|intros _; lia|]. intros E. destruct Hst; congruence.
  - cbn [exec_step]. destruct Hok as [Hd Hr]. split; [by apply cleanup_wf|]. intros k. rewrite cleanup_get.
    specialize (Hr k). change (runs k (cleanup_stale_logs now w)) with (runs k w).
    destruct (dict_get k (w_rows w)) as [r|]; [|done]. simpl. destruct (_ && _); [|done].
    destruct Hr as (Hb & _ & _). split; [exact Hb|]. split; intros [=].
  - cbn [exec_step]. destruct (on_queue_rows (be_enqueue now p) w) as (? & ? & _). by eapply rows_ok_same.
Qed.

(** While a row is running, nothing else touches it. *)
Lemma exec_step_running now st w j r :
  dict_get j (w_rows w) = Some r -> jl_status r = "running" ->
  dict_get j (w_rows (exec_step now st w)) = Some r /\ runs j (exec_step now st w) = runs j w.
Proof.
  intros Hg Hs.
  assert (Hsame : forall w', same_rows w w' -> dict_get j (w_rows w') = Some r /\ runs j w' = runs j w).
  { intros w' [E1 E2]. rewrite E1. split; [done|by apply runs_eq]. }
  assert (Htouch : forall k r' (l : list string) w', k <> j -> (forall x, x ∈ l -> x = k) -> touched k r' l w w' ->
    dict_get j (w_rows w') = Some r /\ runs j w' = runs j w).
  { intros k r' l w' Hne Hl (A & _ & C). rewrite A, decide_False by done. split; [done|]. unfold runs. rewrite C, filter_app, length_app.
    enough (base.filter (fun x => x = j) l = []) as -> by (simpl; lia). destruct (base.filter _ l) as [|x l'] eqn:E; [done|].
    assert (Hx : x ∈ base.filter (fun x => x = j) l) by (rewrite E; by left). apply list_elem_of_filter in Hx as [-> Hx].
    by apply Hl in Hx. }
  assert (Hatt : forall w', same_rows w w' \/ (exists k r0 r' b, dict_get k (w_rows w) = Some r0 /\ jl_status r0 = "pending" /\ next_row r0 r' /\
    touched k r' (if (b : bool) then [k] else []) w w') -> dict_get j (w_rows w') = Some r /\ runs j w' = runs j w).
  { intros w' [?|(k & r0 & r' & b & Hk & Hp & _ & Ht)]; [by apply Hsame|].
    apply (Htouch k r' (if b then [k] else [])); [| |done].
    - intros ->. rewrite Hg in Hk. injection Hk as ->. congruence.
    - destruct b; intros x Hx; [by apply list_elem_of_singleton in Hx|by apply not_elem_of_nil in Hx]. }
  destruct st as [am slot db o rb|am|am begun|timeout|am k task user m recorded| |p].
  - apply Hatt, process_cases.
  - apply Hsame. cbn [exec_step]. destruct (on_queue_rows (be_dequeue now (am_clock am)) w) as (? & ? & _). by split.
  - apply Hatt, crash_cases.
  - apply Hsame. cbn [exec_step]. destruct (on_queue_rows (be_requeue_stale now timeout) w) as (? & ? & _). by split.
  - cbn [exec_step]. unfold dict_mem. destruct (dict_get k (w_rows w)) as [r0|] eqn:Hk; [done|].
    destruct (submit_cases now am k task user m recorded w Hk) as (r' & Ht & _).
    apply (Htouch k r' []); [congruence|by intros x Hx%not_elem_of_nil|done].
  - cbn [exec_step]. rewrite cleanup_get, Hg. simpl. rewrite bool_decide_false by congruence. done.
  - apply Hsame. cbn [exec_step]. destruct (on_queue_rows (be_enqueue now p) w) as (? & ? & _). by split.
Qed.
End Steps.

(** ** Over a lawful queue *)

Section Lawful.
Context {S : Type} `{QueueLaws S} (render : pyval -> string) (registered : string -> bool) (base_ms max_ms : Z) (text : job_error -> string).

(** The queue works and the world is otherwise the same. *)
Record sound (w w' : world (S := S)) : Prop := Sound {
  so_wf : be_wf (w_queue w');
  so_up : be_up (w_queue w');
  so_rows : w_rows w' = w_rows w;
  so_ran : w_ran w' = w_ran w;
  so_resumed : w_resumed w' = w_resumed w
}.

Definition good (w : world (S := S)) : Prop := be_wf (w_queue w) /\ be_up (w_queue w).

Lemma ack_world now j w :
  good w ->
  let '(w', r) := on_queue (be_ack now j) w in
  r = Ok () /\ sound w w' /\ be_pending (w_queue w') = be_pending (w_queue w) /\ be_delayed (w_queue w') = be_delayed (w_queue w) /\
  be_dead (w_queue w') = be_dead (w_queue w) /\ be_inflight (w_queue w') j = None.
Proof.
  intros [Hw Hu]. unfold on_queue. pose proof (law_ack now j (w_queue w) Hw Hu) as Hl.
  destruct (be_ack now j (w_queue w)) as [q r]. destruct Hl as (? & ? & -> & ? & ? & ? & [? _]). by split_and!.
Qed.

Lemma fail_world now j error w :
  good w ->
  let '(w', r) := on_queue (be_fail now j error) w in
  r = Ok () /\ sound w w' /\ be_pending (w_queue w') = be_pending (w_queue w) /\ be_delayed (w_queue w') = be_delayed (w_queue w) /\
  (j, option_map fst (be_inflight (w_queue w) j)) ∈ be_dead (w_queue w') /\ be_inflight (w_queue w') j = None.
Proof.
  intros [Hw Hu]. unfold on_queue. pose proof (law_fail now j error (w_queue w) Hw Hu) as Hl.
  destruct (be_fail now j error (w_queue w)) as [q r]. destruct Hl as (? & ? & -> & ? & ? & ? & _ & [? _]). by split_and!.
Qed.

Lemma dequeue_world now fresh w p rest :
  0 <= now -> good w -> be_pending (w_queue w) = p :: rest ->
  let '(w', r) := on_queue (be_dequeue now fresh) w in
  r = Ok (Some p) /\ sound w w' /\ be_pending (w_queue w') = rest /\ be_delayed (w_queue w') = be_delayed (w_queue w) /\
  be_dead (w_queue w') = be_dead (w_queue w) /\ be_inflight (w_queue w') (job_id p) = Some (p, now).
Proof.
  intros Hn [Hw Hu] Hp. unfold on_queue. pose proof (law_dequeue now fresh (w_queue w) Hn Hw Hu) as Hl.
  destruct (be_dequeue now fresh (w_queue w)) as [q r]. rewrite Hp in Hl. destruct Hl as (? & ? & ? & ? & -> & ? & [? _]). by split_and!.
Qed.

(** The message of a retry is for the same job. *)
Definition retry_context (j : string) (user : option string) : list (string * pyval) :=
  [("log_id", VStr j); ("retry", VBool true); ("user_id", match user with Some u => VStr u | None => VNone end)].

Lemma retry_payload am j user :
  j <> "" -> exists q, distributed_payload render am (retry_context j user) = Ok q /\ job_id q = j /\ wf_payload q.
Proof.
  intros Hj. unfold distributed_payload. change (read_resume_context render (retry_context j user)) with (@None (string * string)).
  change (py_truth (py_get "log_id" (retry_context j user))) with (bool_decide (j <> "")). rewrite bool_decide_true by done. eexists. split; [reflexivity|]. split; [|apply post_init_wf].
  unfold post_init. by destruct (decide _).
Qed.

(** Scheduling a retry: the message is on the queue, or the queue is full and nothing changed. *)
Lemma retry_world now am j user w :
  0 <= now -> j <> "" -> good w ->
  let '(w', r) := schedule_job_retry render base_ms max_ms now am j user w in
  sound w w' /\ be_dead (w_queue w') = be_dead (w_queue w) /\
  be_inflight (w_queue w') j = be_inflight (w_queue w) j /\
  (exists extra, be_pending (w_queue w') = be_pending (w_queue w) ++ extra) /\
  (if be_load (w_queue w) <? be_max
   then r = Ok () /\ exists q, job_id q = j /\ (q ∈ be_pending (w_queue w') \/ q ∈ be_delayed (w_queue w'))
   else r = Err (QueueError Saturated)).
Proof.
  intros Hn Hj [Hw Hu]. unfold schedule_job_retry, enqueue_distributed. fold (retry_context j user).
  destruct (retry_payload am j user Hj) as (q & -> & Hq & Hwq). cbv zeta. destruct (_ && _).
  - unfold on_queue. set (delay := compute_retry_delay _ _ _). pose proof (law_enqueue_delayed now q delay (w_queue w) Hw Hu Hwq) as Hl.
    destruct (be_enqueue_delayed now q delay (w_queue w)) as [q' r]. destruct Hl as (? & ? & Hi & Hp & Hd & -> & Hdel).
    split_and!; [done|done|apply Hi|exists []; by rewrite app_nil_r|].
    destruct (be_load (w_queue w) <? be_max) eqn:E; [|done]. split; [done|]. exists q. split; [done|]. right.
    apply Hdel. right. boolprop. done.
  - unfold on_queue. pose proof (law_enqueue now q (w_queue w) Hn Hw Hu Hwq) as Hl.
    destruct (be_enqueue now q (w_queue w)) as [q' r]. destruct Hl as (? & ? & Hi & Hdl & Hd & -> & Hp).
    split_and!; [done|done|apply Hi| |].
    + simpl. rewrite Hp. destruct (_ <? _); [by exists [q]|exists []; by rewrite app_nil_r].
    + destruct (be_load (w_queue w) <? be_max) eqn:E; [|done]. split; [done|]. exists q. split; [done|]. left. simpl. rewrite Hp.
      apply elem_of_app. right. by left.
Qed.

(** The queue after part of a worker's step on job [j]: nothing of the front of it moved. *)
Record forward (j : string) (w w' : world (S := S)) : Prop := Forward {
  fw_good : good w';
  fw_pending : exists extra, be_pending (w_queue w') = be_pending (w_queue w) ++ extra;
  fw_dead : be_dead (w_queue w') = be_dead (w_queue w);
  fw_inflight : be_inflight (w_queue w') j = be_inflight (w_queue w) j
}.

Lemma forward_same j w w' : good w -> w_queue w' = w_queue w -> forward j w w'.
Proof. intros Hg Hq. constructor; unfold good; rewrite Hq; try done. exists []. by rewrite app_nil_r. Qed.

(** What an attempt comes to, by what the handler did and the attempts left. *)
Definition attempted (j task : string) (o : outcome) (r : row) (load : Z) (w w' : world (S := S)) (x : result job_error unit) : Prop :=
  let n := jl_attempt_count r + 1 in
  if registered task then
    w_ran w' = w_ran w ++ [j] /\
    match o with
    | Returns => x = Ok () /\ w_rows w' = dict_set j (set_row "success" n (jl_error r) r) (w_rows w)
    | Raises msg =>
        if n <? jl_max_attempts r then
          w_rows w' = dict_set j (set_row "pending" n (Some msg) r) (w_rows w) /\
          (if load <? be_max
           then x = Ok () /\ exists q, job_id q = j /\ (q ∈ be_pending (w_queue w') \/ q ∈ be_delayed (w_queue w'))
           else x = Err (QueueError Saturated))
        else x = Ok () /\ w_rows w' = dict_set j (set_row "failed" n (Some msg) r) (w_rows w)
    | Unrecorded msg => x = Err (Escaped msg) /\ w_rows w' = w_rows w
    end
  else w_ran w' = w_ran w /\ x = Ok () /\ exists msg, w_rows w' = dict_set j (set_row "failed" n (Some msg) r) (w_rows w).

Lemma execute_world now am j task o w r :
  0 <= now -> j <> "" -> good w -> dict_get j (w_rows w) = Some r ->
  let '(w', x) := execute_job_inline render registered base_ms max_ms now am j task o w in
  forward j w w' /\ attempted j task o r (be_load (w_queue w)) w w' x.
Proof.
  intros Hn Hj Hg Hr. unfold execute_job_inline, attempted. rewrite Hr. destruct (registered task).
  - destruct o as [|msg|msg].
    + split; [by apply forward_same|done].
    + unfold settle_failure. cbn [note_run w_rows]. rewrite Hr, Z.max_r by lia. cbn [andb].
      destruct (jl_attempt_count r + 1 <? jl_max_attempts r) eqn:E.
      * set (w1 := put_row j _ _). pose proof (retry_world now am j (jl_user_id r) w1 Hn Hj Hg) as Hl.
        destruct (schedule_job_retry render base_ms max_ms now am j (jl_user_id r) w1) as [w' x].
        destruct Hl as ([? ? Hrows Hran _] & Hd & Hi & Hp & Hx). split; [by constructor|]. rewrite Hrows, Hran. done.
      * split; [by apply forward_same|done].
    + split; [by apply forward_same|done].
  - unfold settle_failure. rewrite Hr, Z.max_r by lia. cbn [andb]. split; [by apply forward_same|]. split; [done|]. split; [done|]. by eexists.
Qed.

(** The settled queue: the job is no longer in flight, the rest of the queue has moved up. *)
Record settled (j : string) (rest : list payload) (w' : world (S := S)) : Prop := Settled {
  sd_good : good w';
  sd_pending : exists extra, be_pending (w_queue w') = rest ++ extra;
  sd_inflight : be_inflight (w_queue w') j = None
}.

Lemma settle_ack now j rest w w1 :
  forward j w w1 -> be_pending (w_queue w) = rest ->
  let '(w', r) := on_queue (be_ack now j) w1 in
  r = Ok () /\ settled j rest w' /\ sound w1 w' /\ be_dead (w_queue w') = be_dead (w_queue w) /\
  be_pending (w_queue w') = be_pending (w_queue w1) /\ be_delayed (w_queue w') = be_delayed (w_queue w1).
Proof.
  intros [Hg Hp Hd Hi] Hr. pose proof (ack_world now j w1 Hg) as Hl. destruct (on_queue (be_ack now j) w1) as [w' r].
  destruct Hl as (-> & Hs & Hp' & Hdl & Hd' & Hi'). split_and!; [done| |done|congruence|done|done].
  constructor; [by destruct Hs|rewrite Hp'; by rewrite <- Hr|done].
Qed.

Lemma settle_dead now j error rest w w1 (p : payload) (t : Z) :
  forward j w w1 -> be_pending (w_queue w) = rest -> be_inflight (w_queue w) j = Some (p, t) ->
  let '(w', r) := on_queue (be_fail now j error) w1 in
  r = Ok () /\ settled j rest w' /\ sound w1 w' /\ (j, Some p) ∈ be_dead (w_queue w') /\
  be_pending (w_queue w') = be_pending (w_queue w1) /\ be_delayed (w_queue w') = be_delayed (w_queue w1).
Proof.
  intros [Hg Hp Hd Hi] Hr Ht. pose proof (fail_world now j error w1 Hg) as Hl. destruct (on_queue (be_fail now j error) w1) as [w' r].
  destruct Hl as (-> & Hs & Hp' & Hdl & Hd' & Hi'). rewrite Hi, Ht in Hd'. split_and!; [done| |done|done|done|done].
  constructor; [by destruct Hs|rewrite Hp'; by rewrite <- Hr|done].
Qed.

Lemma attempted_after j task o r load w w1 w' y :
  attempted j task o r load w w1 y -> sound w1 w' -> be_pending (w_queue w') = be_pending (w_queue w1) ->
  be_delayed (w_queue w') = be_delayed (w_queue w1) -> attempted j task o r load w w' y.
Proof. intros Ha [_ _ Hr Hn _] Hp Hd. unfold attempted in *. by rewrite Hr, Hn, Hp, Hd. Qed.

Definition undisturbed (w w' : world (S := S)) : Prop :=
  w_rows w' = w_rows w /\ w_ran w' = w_ran w /\ be_dead (w_queue w') = be_dead (w_queue w).

(** What a worker makes of the job it has taken. *)
Definition job_verdict (db : db_answer) (o : outcome) (rb : rebuild) (p : payload) (load : Z) (w w' : world (S := S)) : Prop :=
  let dead := (job_id p, Some p) ∈ be_dead (w_queue w') in
  match read_resume_context render (context p) with
  | Some resume =>
      w_rows w' = w_rows w /\ w_ran w' = w_ran w /\
      match rb with
      | Rebuilt => be_dead (w_queue w') = be_dead (w_queue w) /\ w_resumed w' = w_resumed w ++ [resume]
      | _ => dead
      end
  | None =>
      match dict_get (job_id p) (w_rows w), db with
      | Some r, ClaimFails => undisturbed w w'
      | Some r, _ =>
          if decide (jl_status r = "pending") then
            let r1 := set_row "running" (jl_attempt_count r) (jl_error r) r in
            let w1 := put_row (job_id p) r1 w in
            match db with
            | FetchFails => w_rows w' = w_rows w1 /\ w_ran w' = w_ran w /\ dead
            | _ => exists y, attempted (job_id p) (jl_task_name r) o r1 load w1 w' y /\
                     if is_Ok y then be_dead (w_queue w') = be_dead (w_queue w) else dead
            end
          else undisturbed w w'
      | None, _ => undisturbed w w'
      end
  end.

(** The world once the worker holds the job. *)
Record taken (now : Z) (p : payload) (rest : list payload) (w w0 : world (S := S)) : Prop := Taken {
  tk_good : good w0;
  tk_rows : w_rows w0 = w_rows w;
  tk_ran : w_ran w0 = w_ran w;
  tk_resumed : w_resumed w0 = w_resumed w;
  tk_pending : be_pending (w_queue w0) = rest;
  tk_delayed : be_delayed (w_queue w0) = be_delayed (w_queue w);
  tk_dead : be_dead (w_queue w0) = be_dead (w_queue w);
  tk_inflight : be_inflight (w_queue w0) (job_id p) = Some (p, now)
}.

Lemma resume_settles now p rest resume rb w w0 :
  taken now p rest w w0 ->
  let '(w', x) := settle_raised text now p (run_resume text now p resume rb w0) in
  x = Ok true /\ settled (job_id p) rest w' /\ w_rows w' = w_rows w /\ w_ran w' = w_ran w /\
  match rb with
  | Rebuilt => be_dead (w_queue w') = be_dead (w_queue w) /\ w_resumed w' = w_resumed w ++ [resume]
  | _ => (job_id p, Some p) ∈ be_dead (w_queue w')
  end.
Proof.
  intros [Hg Hrows Hran Hres Hp _ Hd Hi]. unfold settle_raised, run_resume.
  assert (Hf0 : forward (job_id p) w0 w0) by (by apply forward_same).
  assert (Hf : forward (job_id p) w0 (note_resume resume w0)) by (by apply forward_same). destruct rb as [| |msg].
  - pose proof (settle_ack now (job_id p) rest w0 _ Hf Hp) as Hl. destruct (on_queue _ (note_resume resume w0)) as [w' r].
    destruct Hl as (-> & Hs & [_ _ E1 E2 E3] & E4 & _). split_and!; try done; simpl in *; congruence.
  - pose proof (settle_dead now (job_id p) (text NotReconstructible) rest w0 w0 p now Hf0 Hp Hi) as Hl.
    destruct (on_queue _ w0) as [w' r]. destruct Hl as (-> & Hs & [_ _ E1 E2 E3] & E4 & _). split_and!; try done; congruence.
  - pose proof (settle_dead now (job_id p) (text (Escaped msg)) rest w0 _ p now Hf Hp Hi) as Hl.
    destruct (on_queue _ (note_resume resume w0)) as [w' r]. destruct Hl as (-> & Hs & [_ _ E1 E2 E3] & E4 & _).
    split_and!; try done; simpl in *; congruence.
Qed.

(** A job that is not claimed is acknowledged. *)
Lemma skip_settles now p rest w w0 :
  taken now p rest w w0 ->
  let '(w', x) := settle_raised text now p (on_queue (be_ack now (job_id p)) w0) in
  x = Ok true /\ settled (job_id p) rest w' /\ undisturbed w w'.
Proof.
  intros [Hg Hrows Hran Hres Hp _ Hd Hi]. unfold settle_raised. assert (Hf0 : forward (job_id p) w0 w0) by (by apply forward_same).
  pose proof (settle_ack now (job_id p) rest w0 w0 Hf0 Hp) as Hl. destruct (on_queue _ w0) as [w' r].
  destruct Hl as (-> & Hs & [_ _ E1 E2 E3] & E4 & _). unfold undisturbed. split_and!; try done; congruence.
Qed.

(** A claimed job is attempted, then acknowledged or dead-lettered. *)
Lemma claimed_settles now am o p rest w w0 r1 :
  0 <= now -> job_id p <> "" -> taken now p rest w w0 ->
  let w1 := put_row (job_id p) r1 w0 in
  let '(w', x) := settle_raised text now p (match execute_job_inline render registered base_ms max_ms now am (job_id p) (jl_task_name r1) o w1 with
                                            | (w2, Ok _) => on_queue (be_ack now (job_id p)) w2
                                            | (w2, Err e) => (w2, Err e)
                                            end) in
  x = Ok true /\ settled (job_id p) rest w' /\
  exists y, attempted (job_id p) (jl_task_name r1) o r1 (Z.of_nat (length rest) + Z.of_nat (length (be_delayed (w_queue w))))
              (put_row (job_id p) r1 w) w' y /\
    if is_Ok y then be_dead (w_queue w') = be_dead (w_queue w) else (job_id p, Some p) ∈ be_dead (w_queue w').
Proof.
  intros Hn Hj [Hg Hrows Hran Hres Hp Hdel Hd Hi]. cbv zeta. set (w1 := put_row (job_id p) r1 w0).
  assert (Hg1 : dict_get (job_id p) (w_rows w1) = Some r1) by (simpl; apply dict_get_set_eq).
  pose proof (execute_world now am (job_id p) (jl_task_name r1) o w1 r1 Hn Hj Hg Hg1) as Hl.
  destruct (execute_job_inline _ _ _ _ _ _ _ _ _ _) as [w2 y]. destruct Hl as [[G (ex & P) D I] Ha].
  assert (Hf : forward (job_id p) w0 w2) by (constructor; [done|by exists ex|exact D|exact I]).
  assert (Hv : attempted (job_id p) (jl_task_name r1) o r1 (Z.of_nat (length rest) + Z.of_nat (length (be_delayed (w_queue w))))
            (put_row (job_id p) r1 w) w2 y).
  { unfold attempted, be_load in *. simpl in *. by rewrite Hrows, Hran, Hp, Hdel in Ha. }
  unfold settle_raised. destruct y as [u|e].
  - pose proof (settle_ack now (job_id p) rest w0 w2 Hf Hp) as Hl. destruct (on_queue _ w2) as [w' x].
    destruct Hl as (-> & Hs & Hso & Hd' & Hp' & Hdl). split_and!; [done|done|]. exists (Ok u). split; [by eapply attempted_after|].
    simpl. congruence.
  - pose proof (settle_dead now (job_id p) (text e) rest w0 w2 p now Hf Hp Hi) as Hl. destruct (on_queue _ w2) as [w' x].
    destruct Hl as (-> & Hs & Hso & Hd' & Hp' & Hdl). split_and!; [done|done|]. exists (Err e). by split; [eapply attempted_after|].
Qed.

Lemma process_settles now am db o rb w p rest :
  0 <= now -> good w -> be_pending (w_queue w) = p :: rest -> job_id p <> "" ->
  let '(w', x) := process_one_job render registered base_ms max_ms text now am true db o rb w in
  x = Ok true /\ settled (job_id p) rest w' /\
  job_verdict db o rb p (Z.of_nat (length rest) + Z.of_nat (length (be_delayed (w_queue w)))) w w'.
Proof.
  intros Hn Hg Hp Hj. unfold process_one_job. pose proof (dequeue_world now (am_clock am) w p rest Hn Hg Hp) as Hl.
  destruct (on_queue (be_dequeue now (am_clock am)) w) as [w0 r0]. destruct Hl as (-> & [Hw0 Hu0 Hrows Hran Hres] & Hp0 & Hdel0 & Hdead0 & Hi0).
  assert (Ht : taken now p rest w w0) by done. unfold run_job, job_verdict. cbv zeta.
  destruct (read_resume_context render (context p)) as [resume|].
  { pose proof (resume_settles now p rest resume rb w w0 Ht) as Hs. by destruct (settle_raised _ _ _ _). }
  pose proof (skip_settles now p rest w w0 Ht) as Hskip. unfold try_claim_job. rewrite Hrows.
  destruct (dict_get (job_id p) (w_rows w)) as [r|] eqn:Hr; [|by destruct db; cbn [negb]; destruct (settle_raised _ _ _ _)].
  destruct (decide (jl_status r = "pending")) as [Hpend|]; [|by destruct db; cbn [negb]; destruct (settle_raised _ _ _ _)].
  set (r1 := set_row "running" (jl_attempt_count r) (jl_error r) r).
  assert (Hg1 : dict_get (job_id p) (w_rows (put_row (job_id p) r1 w0)) = Some r1) by (simpl; apply dict_get_set_eq).
  destruct db; cbn [negb].
  - unfold fetch_job_data. rewrite Hg1. cbn [option_map].
    pose proof (claimed_settles now am o p rest w w0 r1 Hn Hj Ht) as Hs. by destruct (settle_raised _ _ _ _).
  - by destruct (settle_raised _ _ _ _).
  - assert (Hf1 : forward (job_id p) w0 (put_row (job_id p) r1 w0)) by (by apply forward_same).
    pose proof (settle_dead now (job_id p) (text (Escaped "fetch")) rest w0 _ p now Hf1 Hp0 Hi0) as Hl. unfold settle_raised.
    destruct (on_queue _ (put_row (job_id p) r1 w0)) as [w' x]. destruct Hl as (-> & Hs & [_ _ E1 E2 _] & Hd & _).
    split_and!; try done; [rewrite E1; simpl; by rewrite Hrows|rewrite E2; simpl; congruence].
Qed.

(** *** The jobs ahead *)

Lemma runs_app (j : string) (w w' : world (S := S)) l :
  w_ran w' = w_ran w ++ l -> runs j w' = runs j w + Z.of_nat (length (base.filter (fun k => k = j) l)).
Proof. intros E. unfold runs. rewrite E, filter_app, length_app. lia. Qed.

(** Settling one job leaves the row and the calls of any other alone. *)
Lemma verdict_other db o rb p load w w' j :
  job_verdict db o rb p load w w' -> job_id p <> j ->
  dict_get j (w_rows w') = dict_get j (w_rows w) /\ runs j w' = runs j w.
Proof.
  intros Hv Hne. unfold job_verdict, undisturbed in Hv. cbv zeta in Hv.
  assert (Hcase : (exists r l, (w_rows w' = w_rows w \/ w_rows w' = dict_set (job_id p) r (w_rows w) \/
      exists r0, w_rows w' = dict_set (job_id p) r (dict_set (job_id p) r0 (w_rows w))) /\ w_ran w' = w_ran w ++ l /\ (l = [] \/ l = [job_id p]))).
  { assert (Hsame : w_rows w' = w_rows w -> w_ran w' = w_ran w -> exists r l, (w_rows w' = w_rows w \/ w_rows w' = dict_set (job_id p) r (w_rows w) \/
      exists r0, w_rows w' = dict_set (job_id p) r (dict_set (job_id p) r0 (w_rows w))) /\ w_ran w' = w_ran w ++ l /\ (l = [] \/ l = [job_id p])).
    { intros E1 E2. exists (Row "" 0 0 "" None None 0), []. rewrite app_nil_r. auto. }
    destruct (read_resume_context render (context p)); [destruct Hv as (? & ? & _); by apply Hsame|].
    destruct (dict_get (job_id p) (w_rows w)) as [r|]; [|destruct Hv as (? & ? & _); by apply Hsame].
    destruct db; [| destruct Hv as (? & ? & _); by apply Hsame|];
      (destruct (decide (jl_status r = "pending")); [|destruct Hv as (? & ? & _); by apply Hsame]).
    - destruct Hv as (y & Ha & _). unfold attempted in Ha. cbn [put_row w_rows w_ran] in Ha. destruct (registered _).
      + destruct Ha as [E Ha]. destruct o as [|msg|msg].
        * destruct Ha as [_ Ha]. eexists _, _. split; [right; right; eexists; exact Ha|]. split; [exact E|by right].
        * destruct (_ <? _); [destruct Ha as [Ha _]|destruct Ha as [_ Ha]];
            eexists _, _; (split; [right; right; eexists; exact Ha|]); (split; [exact E|by right]).
        * destruct Ha as [_ Ha]. eexists _, _. split; [right; left; exact Ha|]. split; [exact E|by right].
      + destruct Ha as (E & _ & msg & Ha). eexists _, []. split; [right; right; eexists; exact Ha|].
        rewrite app_nil_r. split; [exact E|by left].
    - destruct Hv as (E1 & E2 & _). eexists _, []. split; [right; left; exact E1|]. rewrite app_nil_r. split; [exact E2|by left]. }
  destruct Hcase as (r & l & Hrows & Hran & Hl). split.
  - destruct Hrows as [E|[E|(r0 & E)]]; rewrite E; [done|by rewrite dict_get_set_ne|by rewrite !dict_get_set_ne].
  - rewrite (runs_app j w w' l Hran). destruct Hl as [->| ->]; [simpl; lia|]. rewrite filter_cons_False, filter_nil by done. simpl. lia.
Qed.

(** A claimed job with a handler has one more call. *)
Lemma verdict_runs o rb p load w w' r :
  job_verdict DbOk o rb p load w w' -> read_resume_context render (context p) = None ->
  dict_get (job_id p) (w_rows w) = Some r -> jl_status r = "pending" -> registered (jl_task_name r) = true ->
  runs (job_id p) w' = runs (job_id p) w + 1.
Proof.
  intros Hv Hres Hg Hp Hr. unfold job_verdict in Hv. rewrite Hres, Hg in Hv. rewrite decide_True in Hv by done. cbv zeta in Hv.
  destruct Hv as (y & Ha & _). unfold attempted in Ha. rewrite Hr in Ha. destruct Ha as [E _].
  rewrite (runs_app (job_id p) w w' [job_id p] E). rewrite filter_cons_True, filter_nil by done. simpl. lia.
Qed.

(** A worker at work, with the database answering. *)
Definition at_work (x : Z * wstep) : Prop := 0 <= x.1 /\ exists am o rb, x.2 = Work am true DbOk o rb.

Notation steps := (exec_steps render registered base_ms max_ms text).

Lemma fifo_runs j r p post : forall pre w l,
  good w -> be_pending (w_queue w) = pre ++ p :: post -> job_id p = j -> j <> "" -> read_resume_context render (context p) = None ->
  (forall q, q ∈ pre -> job_id q <> j /\ job_id q <> "") ->
  dict_get j (w_rows w) = Some r -> jl_status r = "pending" -> registered (jl_task_name r) = true ->
  length l = Datatypes.S (length pre) -> Forall at_work l -> runs j (steps l w) = runs j w + 1.
Proof.
  intros pre. revert post. induction pre as [|q pre IH]; intros post w l Hg Hp Hj Hne Hres Hpre Hr Hs Hreg Hlen Hl.
  - destruct l as [|[now st] [|? ?]]; try done. apply Forall_cons in Hl as [[Hn (am & o & rb & Hst)] _]. simpl in Hst, Hn. subst st.
    cbn [exec_steps fold_left exec_step fst snd]. simpl in Hp. subst j.
    pose proof (process_settles now am DbOk o rb w p post Hn Hg Hp Hne) as Hset.
    destruct (process_one_job _ _ _ _ _ _ _ _ _ _ _ _) as [w' x]. destruct Hset as (_ & _ & Hv). by eapply verdict_runs.
  - destruct l as [|[now st] l]; [done|]. apply Forall_cons in Hl as [[Hn (am & o & rb & Hst)] Hl]. simpl in Hst, Hn. subst st.
    cbn [exec_steps fold_left exec_step fst snd]. destruct (Hpre q) as [Hqj Hq0]; [by left|]. simpl in Hp.
    pose proof (process_settles now am DbOk o rb w q (pre ++ p :: post) Hn Hg Hp Hq0) as Hset.
    destruct (process_one_job _ _ _ _ _ _ _ _ _ _ _ _) as [w' x]. destruct Hset as (_ & [Hg' (extra & Hp') _] & Hv).
    destruct (verdict_other _ _ _ _ _ _ _ j Hv Hqj) as [Hr' Hrun].
    change (runs j (steps l w') = runs j w + 1). rewrite <- Hrun. apply (IH (post ++ extra)); try done.
    + rewrite Hp'. by rewrite <- app_assoc.
    + intros q' Hq'. apply Hpre. by right.
    + by rewrite Hr'.
    + simpl in Hlen. lia.
Qed.

Lemma split_at_job j (l : list payload) (p : payload) :
  p ∈ l -> job_id p = j -> exists pre q post, l = pre ++ q :: post /\ job_id q = j /\ forall x, x ∈ pre -> job_id x <> j.
Proof.
  induction l as [|x l IH]; [by intros Hn%not_elem_of_nil|]. intros Hin Hj. destruct (decide (job_id x = j)) as [Hx|Hx].
  - exists [], x, l. split_and!; [done|done|]. by intros y Hy%not_elem_of_nil.
  - apply elem_of_cons in Hin as [<-|Hin]; [done|]. destruct (IH Hin Hj) as (pre & q & post & -> & Hq & Hpre).
    exists (x :: pre), q, post. split_and!; [done|done|]. intros y [->|Hy]%elem_of_cons; [done|by apply Hpre].
Qed.

(** A worker told to stop while it waits for a slot: the job it took goes to the back of the
    queue, or is refused at capacity, and its entry stays in flight. *)
Definition put_back (now : Z) (p : payload) (rest : list payload) (w w' : world (S := S)) (x : result job_error bool) : Prop :=
  let room := Z.of_nat (length rest) + Z.of_nat (length (be_delayed (w_queue w))) <? be_max in
  x = (if room then Ok false else Err (QueueError Saturated)) /\ sound w w' /\
  be_pending (w_queue w') = (if room then rest ++ [p] else rest) /\ be_inflight (w_queue w') (job_id p) = Some (p, now) /\
  be_delayed (w_queue w') = be_delayed (w_queue w) /\ be_dead (w_queue w') = be_dead (w_queue w).

Lemma stop_puts_back now am db o rb w p rest :
  0 <= now -> good w -> be_pending (w_queue w) = p :: rest -> wf_payload p ->
  let '(w', x) := process_one_job render registered base_ms max_ms text now am false db o rb w in put_back now p rest w w' x.
Proof.
  intros Hn Hg Hp Hwf. unfold process_one_job. pose proof (dequeue_world now (am_clock am) w p rest Hn Hg Hp) as Hl.
  destruct (on_queue (be_dequeue now (am_clock am)) w) as [w0 r0]. destruct Hl as (-> & [Hw0 Hu0 Hrows Hran Hres] & Hp0 & Hdel0 & Hdead0 & Hi0).
  unfold on_queue. pose proof (law_enqueue now p (w_queue w0) Hn Hw0 Hu0 Hwf) as Hl.
  destruct (be_enqueue now p (w_queue w0)) as [q r]. destruct Hl as (Hwq & Huq & Hiq & Hdq & Hdd & -> & Hpq).
  unfold be_load in Hpq |- *. rewrite Hp0, Hdel0 in *. unfold put_back. cbv zeta. destruct (_ <? _); split_and!; try done; simpl; congruence.
Qed.

(** C33: a worker that takes a job with an id from a lawful queue that is up settles it:
    afterwards the job is no longer in flight and the queue has moved up by one. A job
    whose row is not pending (or cannot be claimed) is dropped without a call of its
    handler and without touching its row. A claimed one is run once, and its row says what
    became of it: success; failure, when its attempts are used up or no handler is
    registered; or pending again with its retry on the queue. Whatever escapes as an
    exception, a retry that found the queue full included, leaves the job's message in the
    dead letters. A resume is run and acknowledged when it can be rebuilt and dead-lettered
    otherwise. Only a worker told to stop while it waits for a slot does not settle it: the
    job goes to the back of the queue, or is refused at capacity, no row changes, and its
    entry stays in flight. *)
Theorem worker_settles_job now am slot db o rb w p rest :
  0 <= now -> good w -> be_pending (w_queue w) = p :: rest -> job_id p <> "" -> wf_payload p ->
  let '(w', x) := process_one_job render registered base_ms max_ms text now am slot db o rb w in
  if slot then
    x = Ok true /\ settled (job_id p) rest w' /\
    job_verdict db o rb p (Z.of_nat (length rest) + Z.of_nat (length (be_delayed (w_queue w)))) w w'
  else put_back now p rest w w' x.
Proof. intros Hn Hg Hp Hj Hwf. destruct slot; [by apply process_settles|by apply stop_puts_back]. Qed.

(** C34: a worker that dies with a job it has taken but not claimed loses nothing, over
    any lawful queue: once the visibility timeout has passed, a recovery scan that
    returns puts the job back, and after as many further worker steps as there are
    messages up to the job's own, its handler has been called exactly once more. *)
Theorem lost_worker_recovered now timeout w w1 n j p t r :
  good w -> be_inflight (w_queue w) j = Some (p, t) -> job_id p = j -> timeout < now - t ->
  dict_get j (w_rows w) = Some r -> jl_status r = "pending" -> registered (jl_task_name r) = true ->
  on_queue (be_requeue_stale now timeout) w = (w1, Ok n) ->
  (forall q, q ∈ be_pending (w_queue w1) -> job_id q <> "" /\ (job_id q = j -> read_resume_context render (context q) = None)) ->
  be_inflight (w_queue w1) j = None /\
  exists k, (k < length (be_pending (w_queue w1)))%nat /\
    forall l, length l = Datatypes.S k -> Forall at_work l -> runs j (steps l w1) = runs j w + 1.
Proof.
  intros [Hw Hu] Hi Hj Ht Hr Hs Hreg Hrec Hq. pose proof (law_requeue_stale now timeout (w_queue w) Hw Hu) as Hl.
  unfold on_queue in Hrec. destruct (be_requeue_stale now timeout (w_queue w)) as [q x].
  destruct x as [n'|]; [|by injection Hrec]. injection Hrec as <- <-. destruct Hl as (Hw' & Hu' & _ & _ & back & Hp & _ & Hback & Hin).
  split. { simpl. rewrite Hin, Hi. by rewrite (proj2 (Z.ltb_lt _ _)) by lia. }
  assert (Hpin : p ∈ be_pending q). { rewrite Hp. apply elem_of_app. right. apply Hback. by exists j, t. }
  destruct (split_at_job j (be_pending q) p Hpin Hj) as (pre & p' & post & Hsplit & Hj' & Hpre).
  exists (length pre). split; [cbn [with_queue w_queue]; rewrite Hsplit, length_app; simpl; lia|]. intros l Hlen Hl.
  change (runs j w) with (runs j (with_queue q w)).
  assert (Hp' : p' ∈ be_pending q) by (rewrite Hsplit; apply elem_of_app; right; by left).
  destruct (Hq p' Hp') as [Hne Hres]. apply (fifo_runs j r p' post pre); try done; [congruence|by apply Hres|].
  intros x Hx. split; [by apply Hpre|]. apply Hq. simpl. rewrite Hsplit. apply elem_of_app. by left.
Qed.
End Lawful.

Section Claims.
Context {S : Type} `{QueueBackend S} (render : pyval -> string) (registered : string -> bool) (base_ms max_ms : Z) (text : job_error -> string).

(** A job's handler is called at most as often as the job has attempts, over any
    queue whatsoever, however often messages are duplicated, replayed or recovered and
    wherever workers die: in every reachable state the calls made for a job are within
    its maximum of attempts, or one where that maximum is not positive. *)
Lemma job_runs_bounded l w j r :
  rows_ok w -> dict_get j (w_rows (exec_steps render registered base_ms max_ms text l w)) = Some r ->
  runs j (exec_steps render registered base_ms max_ms text l w) <= Z.max 1 (jl_max_attempts r).
Proof.
  intros Hok Hg. assert (H' : rows_ok (exec_steps render registered base_ms max_ms text l w)).
  { clear Hg. revert w Hok. induction l as [|x l IH]; intros w Hok; [done|]. cbn [exec_steps fold_left]. apply IH. by apply exec_step_ok. }
  destruct H' as [_ Hr]. specialize (Hr j). rewrite Hg in Hr. by destruct Hr as ([_ ?] & _).
Qed.

(** A claimed job is left alone: while its row says running, no further step of any
    worker, recovery scan, replay, sweep or submission calls its handler or changes
    the row, over any queue whatsoever. So no two workers run one job at once; and a
    job whose worker died after the claim is not run again either, since a recovered
    message only meets the same row. *)
Lemma claimed_job_left_alone l w j r :
  dict_get j (w_rows w) = Some r -> jl_status r = "running" ->
  let w' := exec_steps render registered base_ms max_ms text l w in
  dict_get j (w_rows w') = Some r /\ runs j w' = runs j w.
Proof.
  revert w. induction l as [|[now st] l IH]; intros w Hg Hs; [done|]. cbv zeta. cbn [exec_steps fold_left fst snd].
  destruct (exec_step_running render registered base_ms max_ms text now st w j r Hg Hs) as [Hg' Hrun].
  destruct (IH _ Hg' Hs) as [H1 H2]. split; [exact H1|]. unfold exec_steps in H2. by rewrite H2.
Qed.
End Claims.

(** ** Dead letters *)

(** A dead letter as the drain reads it: its id and what can be made of its payload. *)
Inductive drained := NoPayload | Unreadable | Item (p : payload).

Section Drain.
Context {S : Type} `{QueueBackend S}.

(** The loop of [drain_dead_letters] with [requeue]: how many were put back, and the
    ids of those that were not. *)
Fixpoint drain_loop (now : Z) (items : list (string * drained)) (s : S) : S * (nat * list string) :=
  match items with
  | [] => (s, (O, []))
  | (j, d) :: rest =>
      let '(s1, ok) := match d with
                       | Item p => let '(s1, r) := be_enqueue now p s in (s1, is_Ok r)
                       | _ => (s, false)
                       end in
      let '(s2, (n, errors)) := drain_loop now rest s1 in
      (s2, if (ok : bool) then (Datatypes.S n, errors) else (n, j :: errors))
  end.
End Drain.

Definition drain_limit (max_items : Z) : nat := Z.to_nat (Z.max 0 (Z.min max_items 100)).

(** Over the in-process queue: the letters leave the store before they are put back. *)
Definition drain_memory (max now max_items : Z) (requeue : bool) (s : mem) : mem * (nat * (nat * list string)) :=
  let letters := take (drain_limit max_items) (m_dlq s) in
  if requeue then
    let s := Mem (m_q s) (m_inflight s) (drop (drain_limit max_items) (m_dlq s)) (m_timers s) (m_delayed_count s) (m_held s) in
    let '(s, r) := drain_loop (H := memory_backend max) now
                     (map (fun d => (lt_job_id d, match lt_payload d with Some p => Item p | None => NoPayload end)) letters) s in
    (s, (length letters, r))
  else (s, (length letters, (O, []))).

(** Over Redis. *)
Definition redis_item (fresh : string) (d : dead_letter) : string * drained :=
  (dl_job_id d, if decide (dl_payload_raw d = RText "") then NoPayload
                else match from_json fresh (dl_payload_raw d) with Decoded p => Item p | _ => Unreadable end).

Definition drain_redis (before : raw -> raw -> bool) (cf : config) (now : Z) (fresh : string) (max_items : Z) (requeue : bool) (e : renv) :
    renv * result queue_error (nat * (nat * list string)) :=
  let limit := drain_limit max_items in
  if Nat.eqb limit 0 then (e, Ok (O, (O, [])))
  else match peek_dead_letters (Z.of_nat limit) e with
       | (e, Err x) => (e, Err x)
       | (e, Ok letters) =>
           let trimmed := match requeue, letters with
                          | true, _ :: _ => run_redis_operation cf now (fun s => (on_dead (drop limit) s, ())) e
                          | _, _ => (e, Ok ())
                          end in
           match trimmed with
           | (e, Err x) => (e, Err x)
           | (e, Ok _) =>
               if requeue then
                 let '(e, r) := drain_loop (H := redis_backend before cf) now (map (redis_item fresh) letters) e in (e, Ok (length letters, r))
               else (e, Ok (length letters, (O, [])))
           end
       end.

Section DrainLaw.
Context {S : Type} `{QueueLaws S}.

(** With room for them, every letter that has a payload is put back, in order. *)
Lemma drain_loop_room now items : forall s,
  0 <= now -> be_wf s -> be_up s -> Forall (fun x : string * drained => match x.2 with Item p => wf_payload p | _ => True end) items ->
  be_load s + Z.of_nat (length items) <= be_max ->
  let '(s', (n, errors)) := drain_loop now items s in
  be_pending s' = be_pending s ++ omap (fun x : string * drained => match x.2 with Item p => Some p | _ => None end) items /\
  errors = omap (fun x : string * drained => match x.2 with Item p => None | _ => Some x.1 end) items.
Proof.
  induction items as [|[j d] items IH]; intros s Hn Hw Hu Hf Hroom; [by rewrite app_nil_r|].
  apply Forall_cons in Hf as [Hp Hf]. cbn [drain_loop]. destruct d as [| |p]; simpl in Hroom.
  1, 2: specialize (IH s Hn Hw Hu Hf ltac:(lia)); destruct (drain_loop now items s) as [s2 [n errors]];
    destruct IH as [-> ->]; done.
  pose proof (law_enqueue now p s Hn Hw Hu Hp) as Hl. destruct (be_enqueue now p s) as [s1 r].
  destruct Hl as (Hw1 & Hu1 & _ & Hd & _ & -> & Hpe). rewrite (proj2 (Z.ltb_lt _ _)) in * by lia.
  assert (Hroom1 : be_load s1 + Z.of_nat (length items) <= be_max).
  { unfold be_load in *. rewrite Hpe, Hd, length_app. simpl. lia. }
  specialize (IH s1 Hn Hw1 Hu1 Hf Hroom1). destruct (drain_loop now items s1) as [s2 [n errors]]. destruct IH as [-> ->].
  simpl. rewrite Hpe. by rewrite <- app_assoc.
Qed.
End DrainLaw.

(** ** The worker's health and its failure window *)

Record health := Health { wh_state : string; wh_heartbeat : Z; wh_first_iteration : bool; wh_active_jobs : Z }.

Definition set_worker_state (st : string) (h : health) : health := Health st (wh_heartbeat h) (wh_first_iteration h) (wh_active_jobs h).

Definition record_worker_heartbeat (now : Z) (iteration_completed : bool) (h : health) : health :=
  if iteration_completed && negb (wh_first_iteration h)
  then Health (if decide (wh_state h = "DRAINING") then wh_state h else "READY") now true (wh_active_jobs h)
  else Health (wh_state h) now (wh_first_iteration h) (wh_active_jobs h).

Definition increment_active_jobs (h : health) : health := Health (wh_state h) (wh_heartbeat h) (wh_first_iteration h) (wh_active_jobs h + 1).
Definition decrement_active_jobs (h : health) : health := Health (wh_state h) (wh_heartbeat h) (wh_first_iteration h) (Z.max 0 (wh_active_jobs h - 1)).

Lemma heartbeat_keeps_draining now b h : wh_state h = "DRAINING" -> wh_state (record_worker_heartbeat now b h) = "DRAINING".
Proof. intros E. unfold record_worker_heartbeat. rewrite E. by destruct (b && _). Qed.

Definition FAILURE_WINDOW : Z := 300.

Fixpoint prune_failure_window (now : Z) (w : list Z) : list Z :=
  match w with [] => [] | t :: w' => if t <? now - FAILURE_WINDOW then prune_failure_window now w' else w end.

Definition record_job_failure (now threshold : Z) (w : list Z) : list Z * bool :=
  let w := prune_failure_window now (w ++ [now]) in (w, threshold <=? Z.of_nat (length w)).

(** ** Concrete runs *)

Module ToyWorker.
Definition am : ambient := Ambient "trace" "" "" "t1".
Definition text (e : job_error) : string := "error".
Definition render (v : pyval) : string := "".
Definition step := exec_step (H := memory_backend 2) render (fun _ => true) 1000 30000 text.
Definition steps := exec_steps (H := memory_backend 2) render (fun _ => true) 1000 30000 text.
Definition start : world (S := mem) := World empty_mem [] [] [].
(** One job of two attempts, submitted. *)
Definition submitted : world (S := mem) := steps [(10, Submit am "a" "task" None 2 true)] start.
Definition work (o : outcome) : wstep := Work am true DbOk o Rebuilt.
Definition status (j : string) (w : world (S := mem)) : option string := option_map jl_status (dict_get j (w_rows w)).
End ToyWorker.

Lemma rows_ok_start : rows_ok (S := mem) ToyWorker.start.
Proof. split; [constructor|]. done. Qed.

Lemma job_runs_bounded_witness :
  let l := [(10, Submit ToyWorker.am "a" "task" None 2 true); (20, ToyWorker.work (Raises "x")); (30, Replay (ToyRedis.job "a")); (40, ToyWorker.work Returns)] in
  runs (S := mem) "a" (ToyWorker.steps l ToyWorker.start) <= 2.
Proof.
  cbv zeta. unfold ToyWorker.steps. set (l := [_; _; _; _]).
  set (w' := exec_steps _ _ _ _ _ l _). destruct (dict_get "a" (w_rows w')) as [r|] eqn:Hg; [|vm_compute in Hg; discriminate].
  assert (Hm : Z.max 1 (jl_max_attempts r) = 2) by (vm_compute in Hg; injection Hg as <-; reflexivity). rewrite <- Hm.
  apply (job_runs_bounded (H := memory_backend 2) ToyWorker.render (fun _ => true) 1000 30000 ToyWorker.text l ToyWorker.start "a" r).
  - apply rows_ok_start.
  - exact Hg.
Defined.

Lemma claimed_job_left_alone_witness :
  let w := ToyWorker.steps [(20, CrashClaimed ToyWorker.am true)] ToyWorker.submitted in
  let w' := ToyWorker.steps [(900000, Recover 300000); (900010, ToyWorker.work Returns)] w in
  ToyWorker.status "a" w' = Some "running" /\ runs (S := mem) "a" w' = 1 /\ m_q (w_queue w') = [] /\ m_inflight (w_queue w') = [].
Proof.
  cbv zeta. set (w := ToyWorker.steps [(20, CrashClaimed ToyWorker.am true)] ToyWorker.submitted).
  destruct (dict_get "a" (w_rows w)) as [r|] eqn:Hg; [|vm_compute in Hg; discriminate].
  assert (Hs : jl_status r = "running") by (vm_compute in Hg; injection Hg as <-; reflexivity).
  destruct (claimed_job_left_alone (H := memory_backend 2) ToyWorker.render (fun _ => true) 1000 30000 ToyWorker.text
    [(900000, Recover 300000); (900010, ToyWorker.work Returns)] w "a" r Hg Hs) as [H1 H2].
  split_and!; [unfold ToyWorker.status, ToyWorker.steps; rewrite H1; simpl; by rewrite Hs| |vm_compute; reflexivity|vm_compute; reflexivity].
  unfold ToyWorker.steps. rewrite H2. vm_compute. reflexivity.
Defined.

Lemma good_toy : good (S := mem) (H0 := memory_laws 2) ToyWorker.submitted.
Proof. split; [|done]. vm_compute. constructor; simpl; [done|repeat constructor|repeat constructor]. Qed.

Lemma worker_settles_job_witness :
  ToyWorker.status "a" (ToyWorker.step 20 (ToyWorker.work Returns) ToyWorker.submitted) = Some "success" /\
  be_inflight (QueueBackend := memory_backend 2) (w_queue (ToyWorker.step 20 (ToyWorker.work Returns) ToyWorker.submitted)) "a" = None.
Proof.
  destruct (m_q (w_queue ToyWorker.submitted)) as [|p rest] eqn:Hq; [vm_compute in Hq; discriminate|].
  assert (Hj : job_id p = "a") by (vm_compute in Hq; injection Hq as <- _; reflexivity).
  pose proof (worker_settles_job (H0 := memory_laws 2) ToyWorker.render (fun _ => true) 1000 30000 ToyWorker.text 20 ToyWorker.am true DbOk Returns Rebuilt
    ToyWorker.submitted p rest ltac:(lia) good_toy Hq ltac:(rewrite Hj; discriminate) ltac:(vm_compute in Hq; injection Hq as <- _; reflexivity)) as Hs.
  unfold ToyWorker.step, ToyWorker.work. cbn [exec_step]. destruct (process_one_job _ _ _ _ _ _ _ _ _ _ _ _) as [w' x] eqn:E.
  destruct Hs as (_ & [_ _ Hi] & _). rewrite Hj in Hi. split; [|exact Hi]. cbn [fst].
  change w' with (w', x).1. rewrite <- E. vm_compute. reflexivity.
Defined.

Lemma lost_worker_recovered_witness :
  let w := ToyWorker.steps [(20, CrashTaken ToyWorker.am)] ToyWorker.submitted in
  let w1 := ToyWorker.step 900000 (Recover 300000) w in
  exists k, (k < 1)%nat /\ forall l, length l = S k -> Forall at_work l -> runs (S := mem) "a" (ToyWorker.steps l w1) = 1.
Proof.
  cbv zeta. set (w := ToyWorker.steps [(20, CrashTaken ToyWorker.am)] ToyWorker.submitted).
  set (w1 := ToyWorker.step 900000 (Recover 300000) w).
  destruct (be_inflight (QueueBackend := memory_backend 2) (w_queue w) "a") as [[p t]|] eqn:Hi; [|vm_compute in Hi; discriminate].
  destruct (dict_get "a" (w_rows w)) as [r|] eqn:Hg; [|vm_compute in Hg; discriminate].
  assert (Hp : job_id p = "a" /\ t = 20) by (vm_compute in Hi; injection Hi as <- <-; split; reflexivity).
  assert (Hr : jl_status r = "pending") by (vm_compute in Hg; injection Hg as <-; reflexivity).
  destruct (lost_worker_recovered (H0 := memory_laws 2) ToyWorker.render (fun _ => true) 1000 30000 ToyWorker.text 900000 300000 w w1 1 "a" p t r)
    as [_ (k & Hk & Hl)].
  - split; [|reflexivity]. vm_compute. constructor; simpl; repeat constructor; by intros ?%not_elem_of_nil.
  - exact Hi.
  - apply Hp.
  - destruct Hp as [_ ->]. lia.
  - exact Hg.
  - exact Hr.
  - reflexivity.
  - vm_compute. reflexivity.
  - intros q Hq. apply list_elem_of_In in Hq. vm_compute in Hq. destruct Hq as [<-|[]]. split; [discriminate|reflexivity].
  - exists k. split; [exact Hk|]. intros l H1 H2. unfold ToyWorker.steps. rewrite (Hl l H1 H2). vm_compute. reflexivity.
Defined.

(** A claim the database does not answer is taken for a job someone else has: the
    message is acknowledged, the handler is not called, the row stays pending. *)
Example unanswered_claim_drops_job :
  let w := ToyWorker.step 20 (Work ToyWorker.am true ClaimFails Returns Rebuilt) ToyWorker.submitted in
  ToyWorker.status "a" w = Some "pending" /\ w_ran w = [] /\ m_q (w_queue w) = [] /\ m_inflight (w_queue w) = [] /\ m_dlq (w_queue w) = [].
Proof. vm_compute. done. Qed.

(** A worker told to stop puts its job back without acknowledging it: the entry stays in
    flight and a later recovery scan puts it back a second time. *)
Example stopping_duplicates_message :
  let w := ToyWorker.steps [(20, Work ToyWorker.am false DbOk Returns Rebuilt); (900000, Recover 300000)] ToyWorker.submitted in
  map job_id (m_q (w_queue w)) = ["a"; "a"].
Proof. vm_compute. done. Qed.

(** A job dead-lettered with its row still running: its replay is acknowledged without a call. *)
Example replay_does_not_run :
  let w := ToyWorker.step 20 (ToyWorker.work (Unrecorded "db down")) ToyWorker.submitted in
  let w' := ToyWorker.steps [(30, Replay (ToyRedis.job "a")); (40, ToyWorker.work Returns)] w in
  map lt_job_id (m_dlq (w_queue w)) = ["a"] /\ w_ran w' = w_ran w /\ ToyWorker.status "a" w' = Some "running" /\
  m_q (w_queue w') = [] /\ m_inflight (w_queue w') = [].
Proof. vm_compute. done. Qed.

(** A drain takes the letters off the store first: on a full queue they are gone. *)
Example drain_loses_letters :
  let s := Mem [ToyRedis.job "x"; ToyRedis.job "y"] [] [Letter "a" (Some (ToyRedis.job "a")) "boom" 1] [] 0 [] in
  let '(s', (inspected, (requeued, errors))) := drain_memory 2 10 50 true s in
  (inspected, requeued, errors) = (1%nat, 0%nat, ["a"]) /\ m_dlq s' = [] /\ map job_id (m_q s') = ["x"; "y"].
Proof. vm_compute. done. Qed.

(** The guard after an inline attempt turns a failed attempt that has a retry left into a success. *)
Example inline_failure_recorded_as_success :
  let '(w, r) := submit_inline (H := memory_backend 2) ToyWorker.render (fun _ => true) 1000 30000 10 ToyWorker.am "a" "task" None 2 (Raises "boom") ToyWorker.start in
  r = Ok () /\ ToyWorker.status "a" w = Some "success" /\ option_map jl_error (dict_get "a" (w_rows w)) = Some (Some "boom").
Proof. vm_compute. done. Qed.
