(* ===== verification/Sandbox.v ===== *)
(** * Sandbox runners and the deployment policy for plugins

    platform_layer/sandbox_runner.py, deployment_contract.py, sandbox_certification.py:
    which runner a plugin host is started with, what image it launches and with which
    arguments, what the launch attests, and what a deployment profile demands before
    third-party code is admitted.

    [settings] holds the settings the code reads, [machine] what it asks of the machine
    ([platform.system()], [shutil.which], the probe of the container backend). Reasons of
    a refusal are constructors; their texts are not modelled. [format_g] renders a CPU
    quota as the [:g] format does. *)

From Stdlib Require Import QArith Ascii.
From stdpp Require Import pretty.
From S2P Require Import Prelude PyStr.

Local Open Scope string_scope.
Local Open Scope Z_scope.
Local Open Scope list_scope.
Local Open Scope py_scope.

(** ** Runners and profiles *)

Inductive runner_kind := RUNNER_INSECURE_DEV_SUBPROCESS | RUNNER_CONTAINERIZED_OCI | RUNNER_STRONG_SANDBOX_VM.

#[export] Instance runner_kind_eq_dec : EqDecision runner_kind.
Proof. solve_decision. Defined.

Definition runner_value (k : runner_kind) : string :=
  match k with
  | RUNNER_INSECURE_DEV_SUBPROCESS => "insecure_dev_subprocess"
  | RUNNER_CONTAINERIZED_OCI => "containerized_oci"
  | RUNNER_STRONG_SANDBOX_VM => "strong_sandbox_vm"
  end.

Definition RUNNER_SELECTION_AUTO : string := "auto".

Definition assurance_class (k : runner_kind) : string :=
  match k with
  | RUNNER_INSECURE_DEV_SUBPROCESS => "insecure-dev"
  | RUNNER_CONTAINERIZED_OCI => "container-grade-sandbox"
  | RUNNER_STRONG_SANDBOX_VM => "strong-sandbox-tier"
  end.

Definition SINGLE_INSTANCE : string := "single-instance".
Definition DISTRIBUTED_API : string := "distributed-api".
Definition DISTRIBUTED_WORKER : string := "distributed-worker".
Definition HOSTILE_THIRD_PARTY : string := "hostile-third-party".
Definition SUPPORTED_DEPLOYMENT_PROFILES : list string :=
  [SINGLE_INSTANCE; DISTRIBUTED_API; DISTRIBUTED_WORKER; HOSTILE_THIRD_PARTY].

Definition PLATFORM_LINUX : string := "linux".

(** ** Settings and machine *)

(** The settings that identify the image of a runner and say how far it is trusted. *)
Record image_settings := ImageSettings {
  is_image : string;
  is_digest : string;
  is_source : string;
  is_issuer : string;
  is_signing : string;
  is_base : string;
  is_required_base : string;
  is_trusted_sources : string;
  is_trusted_issuers : string;
  is_require_signature : bool }.

Record container_settings := ContainerSettings {
  cs_runtime : string;
  cs_identity : image_settings;
  cs_mount_path : string;
  cs_workdir : string;
  cs_no_new_privileges : bool;
  cs_drop_all : bool;
  cs_disable_network : bool;
  cs_read_only_rootfs : bool;
  cs_pids : Z;
  cs_memory : string;
  cs_cpu : Q;
  cs_cpu_shares : Z;
  cs_seccomp : string;
  cs_apparmor : string;
  cs_selinux : string;
  cs_writable_tmp : bool;
  cs_tmpfs_size : string }.

Record strong_settings := StrongSettings {
  ss_launcher : string;
  ss_identity : image_settings;
  ss_mount_path : string;
  ss_workdir : string;
  ss_memory : string;
  ss_cpu : Q;
  ss_pids : Z }.

Record settings := Settings {
  st_runner : string;             (* AINDY_PLUGIN_SANDBOX_RUNNER *)
  st_profile : string;            (* AINDY_DEPLOYMENT_PROFILE *)
  st_execution_mode : string;
  st_redis_url : string;
  st_cache_backend : string;
  st_event_bus : string;          (* AINDY_EVENT_BUS_ENABLED *)
  st_requires_redis : bool;
  st_private_targets : option string;   (* AINDY_ALLOW_PRIVATE_EXTENSION_TARGETS *)
  st_container : container_settings;
  st_strong : strong_settings }.

Record machine := Machine {
  m_system : string;              (* platform.system() *)
  m_python : string;              (* sys.executable *)
  m_which : string -> bool;
  m_linux_backend : string -> bool }.

(** [str(value or d).strip() or d] *)
Definition or_default (d value : string) : string :=
  let t := str_strip (if bool_decide (value = "") then d else value) in
  if bool_decide (t = "") then d else t.

(** [str(value or "").strip() or None] *)
Definition stripped (value : string) : option string :=
  let t := str_strip value in if bool_decide (t = "") then None else Some t.

Definition normalized_platform_system (m : machine) : string := str_lower (str_strip (m_system m)).

Definition is_linux (m : machine) : bool := bool_decide (normalized_platform_system m = PLATFORM_LINUX).

(** ** Identity of an image *)

Definition is_hex (c : ascii) : bool :=
  let n := nat_of_ascii c in ((48 <=? n) && (n <=? 57))%nat || ((97 <=? n) && (n <=? 102))%nat.

Fixpoint all_hex (s : string) : bool :=
  match s with EmptyString => true | String c s' => is_hex c && all_hex s' end.

(** OCI_DIGEST_PATTERN *)
Definition oci_digest (d : string) : bool :=
  starts_with "sha256:" d && (String.length (drop_str 7 d) =? 64)%nat && all_hex (drop_str 7 d).

(** [s.rsplit("@", 1)] where [s] holds an at sign. *)
Definition rsplit_at (s : string) : string * string :=
  match rev (split_char "@" s) with
  | [] => ("", "")
  | d :: rest => (join_char "@" (rev rest), d)
  end.

Inductive identity_issue := BAD_REFERENCE_DIGEST | BAD_CONFIGURED_DIGEST | DIGEST_MISMATCH.

#[export] Instance identity_issue_eq_dec : EqDecision identity_issue.
Proof. solve_decision. Defined.

Record identity := Identity {
  id_reference : option string;
  id_configured_digest : option string;
  id_embedded_digest : option string;
  id_launch : option string;
  id_digest : option string;
  id_pinned : bool;
  id_verification : string;
  id_issues : list identity_issue }.

Definition classify_oci_runtime_identity (reference digest : string) : identity :=
  let configured := str_strip reference in
  let override := stripped digest in
  let '(base, embedded, i1) :=
    if bool_decide (configured <> "") && negb (no_char "@" configured)
    then let '(b, d) := rsplit_at configured in
         if oci_digest d then (b, Some d, []) else (b, None, [BAD_REFERENCE_DIGEST])
    else (configured, None, []) in
  let i2 := match override with Some d => if oci_digest d then [] else [BAD_CONFIGURED_DIGEST] | None => [] end in
  let i3 := match override, embedded with
            | Some d, Some e => if bool_decide (d = e) then [] else [DIGEST_MISMATCH]
            | _, _ => [] end in
  let issues := i1 ++ i2 ++ i3 in
  let effective := match override with Some d => Some d | None => embedded end in
  let '(launch, verification, pinned) :=
    if bool_decide (configured = "") then (None, "missing-reference", false)
    else match effective with
         | Some d => (Some (base +:+ "@" +:+ d),
                      (if override then "configured-digest" else "digest-in-reference"), bool_decide (issues = []))
         | None => (Some configured, "mutable-reference", false)
         end in
  Identity (stripped reference) override embedded launch effective pinned verification issues.

(** ** Trust in an image *)

Definition normalize_csv_values (raw : string) : list string :=
  List.filter (fun s => bool_decide (s <> "")) (map str_strip (split_char "," raw)).

Definition SIGNING_STATUSES : list string :=
  ["signature-verified"; "signature-present"; "unsigned"; "unverified"; "verification-failed"; "unsupported"].

Definition normalize_signing_status (raw : string) : string :=
  let v := str_lower (str_strip raw) in
  if bool_decide (v ∈ SIGNING_STATUSES) then v else "unverified".

Inductive trust_issue := NOT_PINNED | BASE_MISMATCH | SOURCE_UNTRUSTED | ISSUER_UNTRUSTED | NOT_SIGNED.

#[export] Instance trust_issue_eq_dec : EqDecision trust_issue.
Proof. solve_decision. Defined.

Record trust := Trust {
  tr_source_trusted : bool;
  tr_issuer_trusted : bool;
  tr_signature_verified : bool;
  tr_compatible : bool;
  tr_production_safe : bool;      (* accepted_for_production_safe_profiles *)
  tr_hostile : bool;              (* accepted_for_hostile_profiles *)
  tr_status : string;
  tr_issues : list trust_issue }.

Definition listed (value : option string) (trusted : list string) : bool :=
  match trusted with
  | [] => true
  | _ => match value with Some v => bool_decide (v ∈ trusted) | None => false end
  end.

Definition evaluate_runtime_identity_trust (i : image_settings) (r : identity) (require_source : bool) : trust :=
  let sources := normalize_csv_values (is_trusted_sources i) in
  let issuers := normalize_csv_values (is_trusted_issuers i) in
  let pinned := id_pinned r in
  let source_trusted := listed (stripped (is_source i)) sources in
  let issuer_trusted := listed (stripped (is_issuer i)) issuers in
  let required := stripped (is_required_base i) in
  let compatible := match required with None => true | Some b => bool_decide (stripped (is_base i) = Some b) end in
  let signed := bool_decide (normalize_signing_status (is_signing i) = "signature-verified") in
  let sig_ok := if is_require_signature i then signed else true in
  let issues :=
    (if pinned then [] else [NOT_PINNED]) ++
    (if compatible then [] else [BASE_MISMATCH]) ++
    (if bool_decide (sources <> []) && negb source_trusted then [SOURCE_UNTRUSTED] else []) ++
    (if bool_decide (issuers <> []) && negb issuer_trusted then [ISSUER_UNTRUSTED] else []) ++
    (if is_require_signature i && negb signed then [NOT_SIGNED] else []) in
  let safe := pinned && compatible && source_trusted && issuer_trusted && sig_ok in
  let hostile := pinned && compatible && signed && issuer_trusted &&
                 (if require_source || bool_decide (sources <> []) then source_trusted else true) in
  let status :=
    if hostile then "trusted-signed-pinned-compatible"
    else if safe then "trusted-pinned-compatible"
    else if pinned && compatible then "pinned-compatible-untrusted"
    else if pinned then "pinned-incompatible-or-untrusted"
    else id_verification r in
  Trust source_trusted issuer_trusted signed compatible safe hostile status issues.

Definition no_image : image_settings := ImageSettings "" "" "" "" "" "" "" "" "" false.

Definition container_identity (st : settings) : identity :=
  classify_oci_runtime_identity (is_image (cs_identity (st_container st))) (is_digest (cs_identity (st_container st))).
Definition container_trust (st : settings) : trust :=
  evaluate_runtime_identity_trust (cs_identity (st_container st)) (container_identity st) false.
Definition strong_identity (st : settings) : identity :=
  classify_oci_runtime_identity (is_image (ss_identity (st_strong st))) (is_digest (ss_identity (st_strong st))).
Definition strong_trust (st : settings) : trust :=
  evaluate_runtime_identity_trust (ss_identity (st_strong st)) (strong_identity st) true.

Definition runner_identity (st : settings) (k : runner_kind) : identity :=
  match k with
  | RUNNER_INSECURE_DEV_SUBPROCESS => classify_oci_runtime_identity "" ""
  | RUNNER_CONTAINERIZED_OCI => container_identity st
  | RUNNER_STRONG_SANDBOX_VM => strong_identity st
  end.

Definition runner_trust (st : settings) (k : runner_kind) : trust :=
  match k with
  | RUNNER_INSECURE_DEV_SUBPROCESS => evaluate_runtime_identity_trust no_image (runner_identity st k) false
  | RUNNER_CONTAINERIZED_OCI => container_trust st
  | RUNNER_STRONG_SANDBOX_VM => strong_trust st
  end.

(** ** What a runner launches *)

Section launch.
Context (format_g : Q -> string) (resolve : string -> string).

Definition Qpos (q : Q) : bool := 0 <? Qnum q.

Inductive launch_refusal := NO_IMAGE | IDENTITY_INVALID | TRUST_INVALID | NOT_LINUX | RUNTIME_MISSING.

#[export] Instance launch_refusal_eq_dec : EqDecision launch_refusal.
Proof. solve_decision. Defined.

Definition ensure_container_runtime_ready (st : settings) (m : machine) : result launch_refusal unit :=
  if bool_decide (id_reference (container_identity st) = None) then Err NO_IMAGE
  else if bool_decide (id_issues (container_identity st) <> []) then Err IDENTITY_INVALID
  else if bool_decide (tr_issues (container_trust st) <> []) then Err TRUST_INVALID
  else if negb (m_which m (or_default "docker" (cs_runtime (st_container st)))) then Err RUNTIME_MISSING
  else Ok tt.

Definition ensure_strong_sandbox_ready (st : settings) (m : machine) : result launch_refusal unit :=
  if bool_decide (id_reference (strong_identity st) = None) then Err NO_IMAGE
  else if bool_decide (id_issues (strong_identity st) <> []) then Err IDENTITY_INVALID
  else if bool_decide (tr_issues (strong_trust st) <> []) then Err TRUST_INVALID
  else if negb (is_linux m) then Err NOT_LINUX
  else if negb (m_which m (or_default "aindy-sandbox-vm" (ss_launcher (st_strong st)))) then Err RUNTIME_MISSING
  else Ok tt.

Definition supports_seccomp (m : machine) (runtime : string) : bool :=
  is_linux m && bool_decide (runtime ∈ ["docker"; "podman"]).
Definition supports_apparmor (m : machine) (runtime : string) : bool :=
  is_linux m && bool_decide (runtime = "docker").
Definition supports_selinux_label (m : machine) (runtime : string) : bool :=
  is_linux m && bool_decide (runtime ∈ ["docker"; "podman"]).

Definition flag (b : bool) (args : list string) : list string := if b then args else [].

Definition worker_command : list string := ["python"; "-m"; "AINDY.platform_layer.extension_worker"; "--host"].

(** [os.getenv(name)] is truthy: set and not empty. *)
Definition container_child_env (st : settings) : list (string * string) :=
  ("PYTHONIOENCODING", "utf-8") ::
  match st_private_targets st with
  | Some v => if bool_decide (v = "") then [] else [("AINDY_ALLOW_PRIVATE_EXTENSION_TARGETS", v)]
  | None => []
  end.

Definition container_flags (st : settings) (m : machine) (runtime : string) : list string :=
  let c := st_container st in
  flag (cs_disable_network c) ["--network"; "none"] ++
  flag (cs_read_only_rootfs c) ["--read-only"] ++
  flag (cs_drop_all c) ["--cap-drop"; "ALL"] ++
  flag (cs_no_new_privileges c) ["--security-opt"; "no-new-privileges"] ++
  flag (0 <? cs_pids c) ["--pids-limit"; pretty (cs_pids c)] ++
  flag (bool_decide (str_strip (cs_memory c) <> "")) ["--memory"; str_strip (cs_memory c)] ++
  flag (Qpos (cs_cpu c)) ["--cpus"; format_g (cs_cpu c)] ++
  flag (0 <? cs_cpu_shares c) ["--cpu-shares"; pretty (cs_cpu_shares c)] ++
  flag (bool_decide (str_strip (cs_seccomp c) <> "") && supports_seccomp m runtime)
       ["--security-opt"; "seccomp=" +:+ str_strip (cs_seccomp c)] ++
  flag (bool_decide (str_strip (cs_apparmor c) <> "") && supports_apparmor m runtime)
       ["--security-opt"; "apparmor=" +:+ str_strip (cs_apparmor c)] ++
  flag (bool_decide (str_strip (cs_selinux c) <> "") && supports_selinux_label m runtime)
       ["--security-opt"; "label=" +:+ str_strip (cs_selinux c)] ++
  flag (cs_writable_tmp c) ["--mount"; "type=tmpfs,dst=/tmp,tmpfs-size=" +:+ or_default "64m" (cs_tmpfs_size c)].

Definition container_process_args (st : settings) (m : machine) (plugin_root : string) : result launch_refusal (list string) :=
  let? _ := ensure_container_runtime_ready st m in
  let c := st_container st in
  let runtime := or_default "docker" (cs_runtime c) in
  Ok ([runtime; "run"; "--rm"; "-i"; "--mount";
       "type=bind,src=" +:+ resolve plugin_root +:+ ",dst=" +:+ or_default "/plugin-root" (cs_mount_path c) +:+ ",readonly";
       "--workdir"; or_default "/tmp" (cs_workdir c)] ++
      container_flags st m runtime ++
      flat_map (fun kv => ["--env"; kv.1 +:+ "=" +:+ kv.2]) (container_child_env st) ++
      default "" (id_launch (container_identity st)) :: worker_command).

Definition strong_process_args (st : settings) (m : machine) (plugin_root : string) : result launch_refusal (list string) :=
  let? _ := ensure_strong_sandbox_ready st m in
  let c := st_strong st in
  Ok ([or_default "aindy-sandbox-vm" (ss_launcher c); "run"; "--image"; default "" (id_launch (strong_identity st));
       "--mount-readonly"; resolve plugin_root +:+ ":" +:+ or_default "/plugin-root" (ss_mount_path c);
       "--deny-host-paths"; "--network-deny-default"; "--tmpfs"; "/tmp"; "--workdir"; or_default "/work" (ss_workdir c)] ++
      flag (bool_decide (str_strip (ss_memory c) <> "")) ["--memory"; str_strip (ss_memory c)] ++
      flag (Qpos (ss_cpu c)) ["--cpus"; format_g (ss_cpu c)] ++
      flag (0 <? ss_pids c) ["--pids-limit"; pretty (ss_pids c)] ++
      "--" :: worker_command).

Definition process_args (st : settings) (m : machine) (k : runner_kind) (plugin_root : string) : result launch_refusal (list string) :=
  match k with
  | RUNNER_INSECURE_DEV_SUBPROCESS => Ok [m_python m; "-m"; "AINDY.platform_layer.extension_worker"; "--host"]
  | RUNNER_CONTAINERIZED_OCI => container_process_args st m plugin_root
  | RUNNER_STRONG_SANDBOX_VM => strong_process_args st m plugin_root
  end.
End launch.

(** ** What a launch attests *)

(** The arguments that follow an occurrence of a flag. *)
Fixpoint flag_values (name : string) (args : list string) : list string :=
  match args with
  | a :: (b :: _) as rest => (if bool_decide (a = name) then [b] else []) ++ flag_values name rest
  | _ => []
  end.

(** [name in args] and the argument after its first occurrence is [v]. *)
Definition flag_is (name v : string) (args : list string) : bool :=
  match flag_values name args with b :: _ => bool_decide (b = v) | [] => false end.

Record attestation := Attestation {
  at_status : string;
  at_backend_verified : bool;
  at_identity_verified : bool;
  at_mount_verified : bool;
  at_host_paths_verified : bool;
  at_network_verified : bool;
  at_limits : list string;
  at_limits_verified : bool;
  at_controls : list string;
  at_properties_verified : list (string * bool) }.

Definition default_launch_attestation : attestation :=
  Attestation "not-started" false false false false false [] false [] [].

Definition STRONG_SANDBOX_REQUIRED_ASSURANCE_PROPERTIES : list (string * string) :=
  [("boundary_type", "dedicated-vm-sandbox"); ("process_separation_model", "vm-kernel-boundary");
   ("mount_mediation_model", "sandbox-launcher-mediated-read-only"); ("network_mediation_model", "sandbox-launcher-deny-default");
   ("runtime_identity_model", "pinned-sandbox-runtime"); ("session_verification_model", "launch-plus-post-launch-runtime-probe")].

Definition named_if (name : string) (b : bool) : list string := if b then [name] else [].

Definition container_verified_controls (args : list string) : list string :=
  let opts := flag_values "--security-opt" args in
  sorted_set (
    named_if "disable_network" (flag_is "--network" "none" args) ++
    named_if "read_only_rootfs" (bool_decide ("--read-only" ∈ args)) ++
    named_if "drop_all_capabilities" (flag_is "--cap-drop" "ALL" args) ++
    named_if "no_new_privileges" (bool_decide ("no-new-privileges" ∈ opts)) ++
    named_if "pids_limit" (bool_decide ("--pids-limit" ∈ args)) ++
    named_if "seccomp_profile" (existsb (starts_with "seccomp=") opts) ++
    named_if "apparmor_profile" (existsb (starts_with "apparmor=") opts) ++
    named_if "selinux_label" (existsb (starts_with "label=") opts)).

Definition container_launch_attestation (st : settings) (args : list string) : attestation :=
  let launch := id_launch (container_identity st) in
  let binds := List.filter (str_in "type=bind") (flag_values "--mount" args) in
  let mount := existsb (str_in "readonly") binds in
  let limits :=
    flat_map (fun fl => named_if fl.2 (bool_decide (fl.1 ∈ args)))
      [("--memory", "memory_limit"); ("--cpus", "cpu_limit"); ("--cpu-shares", "cpu_shares"); ("--pids-limit", "process_limit")] in
  Attestation "launch-observed" true (bool_decide (launch <> None)) mount (length binds =? 1)%nat true limits true
    (container_verified_controls args)
    [("boundary_type", true); ("process_separation_model", true); ("mount_mediation_model", mount);
     ("network_mediation_model", true); ("runtime_identity_model", bool_decide (launch <> None)); ("session_verification_model", true)].

Definition strong_launch_attestation (st : settings) (args : list string) : attestation :=
  let launch := id_launch (strong_identity st) in
  let has f := bool_decide (f ∈ args) in
  let limits :=
    flat_map (fun fl => named_if fl.2 (has fl.1)) [("--memory", "memory_limit"); ("--cpus", "cpu_limit"); ("--pids-limit", "process_limit")] in
  Attestation "launch-observed" true (bool_decide (launch <> None)) (has "--mount-readonly") (has "--deny-host-paths")
    (has "--network-deny-default") limits (bool_decide (limits <> []))
    (sorted_set (named_if "read_only_plugin_mount" (has "--mount-readonly") ++
                 named_if "launcher_network_deny_default" (has "--network-deny-default") ++
                 named_if "launcher_host_path_denial" (has "--deny-host-paths")))
    [("boundary_type", true); ("process_separation_model", true); ("mount_mediation_model", has "--mount-readonly");
     ("network_mediation_model", has "--network-deny-default"); ("runtime_identity_model", bool_decide (launch <> None));
     ("session_verification_model", true)].

Definition launch_attestation (st : settings) (k : runner_kind) (args : list string) : attestation :=
  match k with
  | RUNNER_INSECURE_DEV_SUBPROCESS => default_launch_attestation
  | RUNNER_CONTAINERIZED_OCI => container_launch_attestation st args
  | RUNNER_STRONG_SANDBOX_VM => strong_launch_attestation st args
  end.

(** ** What the machine supports *)

Record platform_entry := PlatformEntry {
  pe_container : bool;            (* support_levels.container_sandbox *)
  pe_strong : bool;               (* support_levels.strong_sandbox, high_assurance_hostile_workload_support *)
  pe_highest : string;
  pe_production_safe : bool }.

Definition platform_matrix_entry (linux runtime_available strong_available linux_backend : bool) : platform_entry :=
  let strong := linux && strong_available in
  PlatformEntry runtime_available strong
    (if strong then assurance_class RUNNER_STRONG_SANDBOX_VM
     else if runtime_available then assurance_class RUNNER_CONTAINERIZED_OCI
     else assurance_class RUNNER_INSECURE_DEV_SUBPROCESS)
    ((linux && runtime_available) || (runtime_available && linux_backend)).

Definition current_environment (st : settings) (m : machine) : platform_entry :=
  let runtime := or_default "docker" (cs_runtime (st_container st)) in
  platform_matrix_entry (is_linux m) (m_which m runtime)
    (m_which m (or_default "aindy-sandbox-vm" (ss_launcher (st_strong st)))) (m_linux_backend m runtime).

Definition strong_supported (st : settings) (m : machine) : bool :=
  is_linux m && m_which m (or_default "aindy-sandbox-vm" (ss_launcher (st_strong st))).

(** [resource_limits.enforcement] of a runner's metadata. *)
Definition limit_enforcement (st : settings) (m : machine) (k : runner_kind) : string :=
  match k with
  | RUNNER_INSECURE_DEV_SUBPROCESS => "none"
  | RUNNER_CONTAINERIZED_OCI =>
      if m_which m (or_default "docker" (cs_runtime (st_container st))) then "container-runtime-hard-limits" else "unavailable"
  | RUNNER_STRONG_SANDBOX_VM =>
      if strong_supported st m && bool_decide (id_launch (strong_identity st) <> None) && bool_decide (id_issues (strong_identity st) = [])
      then "sandbox-runtime-hard-limits" else "unavailable"
  end.

Definition STRONG_CONTROLS : list string :=
  ["dedicated_vm_boundary"; "read_only_plugin_mount"; "launcher_network_deny_default"; "launcher_host_path_denial";
   "minimal_environment"; "sandbox_runtime_limits"].

(** [inspect_container_kernel_controls]: the requested controls the environment supports. *)
Definition container_active_controls (st : settings) (m : machine) : list string :=
  let c := st_container st in
  let runtime := or_default "docker" (cs_runtime c) in
  let found := m_which m runtime in
  let basic := is_linux m || m_linux_backend m runtime in
  sorted_set (
    named_if "no_new_privileges" (cs_no_new_privileges c && (basic && found)) ++
    named_if "drop_all_capabilities" (cs_drop_all c && (basic && found)) ++
    named_if "disable_network" (cs_disable_network c && found) ++
    named_if "read_only_rootfs" (cs_read_only_rootfs c && found) ++
    named_if "pids_limit" ((0 <? cs_pids c) && (basic && found)) ++
    named_if "seccomp_profile" (bool_decide (str_strip (cs_seccomp c) <> "") && (supports_seccomp m runtime && found)) ++
    named_if "apparmor_profile" (bool_decide (str_strip (cs_apparmor c) <> "") && (supports_apparmor m runtime && found)) ++
    named_if "selinux_label" (bool_decide (str_strip (cs_selinux c) <> "") && (supports_selinux_label m runtime && found))).

Definition strong_active_controls (st : settings) (m : machine) : list string :=
  if strong_supported st m && bool_decide (id_launch (strong_identity st) <> None) && bool_decide (id_issues (strong_identity st) = [])
  then STRONG_CONTROLS else [].

(** ** Live verification of a worker, and certification *)

(** The parts of a post-launch verification other code reads. *)
Record verification := Verification {
  vf_status : string;
  vf_scope : string;
  vf_checked_at : option Z;
  vf_fields : list string;
  vf_failures : list string;
  vf_worker : string;             (* worker_instance_id, stripped *)
  vf_sandbox : string;            (* session_continuity.sandbox_instance_id, stripped *)
  vf_import_guard : bool;
  vf_filesystem_guard : bool;
  vf_network_guard : bool;
  vf_channel_hidden : bool }.

Definition LIVE_SCOPE : string := "live-worker-self-report-over-authenticated-rpc".

Definition no_verification (status : string) : verification :=
  Verification status LIVE_SCOPE None [] [] "" "" false false false false.

Definition strong_sandbox_live_evidence_fields : list string :=
  ["session_continuity.worker_instance_id"; "session_continuity.sandbox_instance_id"; "isolation_state.import_guard_active";
   "isolation_state.filesystem_guard_active"; "isolation_state.network_guard_active"; "boundary_metadata.runtime_api_channel_hidden";
   "mount_network_state.artifact_read_access"; "mount_network_state.artifact_write_blocked"; "mount_network_state.writable_temp_scope";
   "mount_network_state.host_path_access_blocked"; "mount_network_state.network_policy.socket_guard_active";
   "mount_network_state.network_policy.deny_by_default_outbound"; "mount_network_state.network_policy.private_target_blocking";
   "mount_network_state.network_policy.expected_boundary_mode"].

Definition unless (name : string) (b : bool) : list string := if b then [] else [name].

Definition verified_attestation_fields (a : attestation) : list string :=
  named_if "backend_identity" (at_backend_verified a) ++ named_if "runtime_identity" (at_identity_verified a) ++
  named_if "mount_mode" (at_mount_verified a) ++ named_if "resource_limit_mode" (at_limits_verified a).

Definition ATTESTED_FIELDS : list string := ["backend_identity"; "runtime_identity"; "mount_mode"; "resource_limit_mode"].

(** The tier the runtime can justify, with the requirements it is missing. *)
Definition runner_certification_tier (st : settings) (m : machine) (k : runner_kind) (a : attestation) (v : verification) : option string * list string :=
  let env := current_environment st m in
  let attested := flat_map (fun f => unless ("verified." +:+ f) (bool_decide (f ∈ verified_attestation_fields a))) ATTESTED_FIELDS in
  match k with
  | RUNNER_INSECURE_DEV_SUBPROCESS => (Some "contained-process-certified", [])
  | RUNNER_CONTAINERIZED_OCI =>
      let missing :=
        unless "platform_support.container_sandbox" (pe_container env) ++
        unless "launch_attestation.status" (bool_decide (at_status a = "launch-observed")) ++
        unless "resource_limits.enforcement" (bool_decide (limit_enforcement st m k = "container-runtime-hard-limits")) ++
        unless "runtime_identity.trust_chain" (tr_production_safe (runner_trust st k)) ++ attested in
      (if bool_decide (missing = []) then Some "container-sandbox-certified" else None, missing)
  | RUNNER_STRONG_SANDBOX_VM =>
      let missing :=
        unless "platform_support.strong_sandbox" (pe_strong env) ++
        unless "launch_attestation.status" (bool_decide (at_status a = "launch-observed")) ++
        unless "resource_limits.enforcement" (bool_decide (limit_enforcement st m k = "sandbox-runtime-hard-limits")) ++
        unless "runtime_identity.trust_chain" (tr_hostile (runner_trust st k)) ++
        flat_map (fun kv => unless ("launch_attestation.assurance_properties.active." +:+ kv.1) (bool_decide (at_properties_verified a <> [])) ++
                            unless ("launch_attestation.assurance_properties.verified." +:+ kv.1)
                              (default false (dict_get kv.1 (at_properties_verified a))))
          STRONG_SANDBOX_REQUIRED_ASSURANCE_PROPERTIES ++
        unless "post_launch_verification.status" (bool_decide (vf_status v = "passed")) ++
        unless "post_launch_verification.verification_scope" (bool_decide (vf_scope v = LIVE_SCOPE)) ++
        unless "post_launch_verification.checked_at" (bool_decide (vf_checked_at v <> None)) ++
        unless "post_launch_verification.worker_instance_id" (bool_decide (vf_worker v <> "")) ++
        flat_map (fun f => unless ("post_launch_verified." +:+ f) (bool_decide (f ∈ vf_fields v))) strong_sandbox_live_evidence_fields ++
        unless "hardening_controls.active_controls"
          (forallb (fun c => bool_decide (c ∈ strong_active_controls st m))
             ["dedicated_vm_boundary"; "read_only_plugin_mount"; "minimal_environment"; "sandbox_runtime_limits"]) ++
        unless "verified.read_only_plugin_mount" (bool_decide ("read_only_plugin_mount" ∈ at_controls a)) ++ attested in
      (if bool_decide (missing = []) then Some "strong-sandbox-certified" else None, missing)
  end.

(** What a third-party worker lacks under the hostile profile. *)
Definition hostile_third_party_attestation_violations (st : settings) (m : machine) (k : runner_kind) (a : attestation) (v : verification) : list string :=
  unless "runner_type" (bool_decide (k = RUNNER_STRONG_SANDBOX_VM)) ++
  unless "assurance_class" (bool_decide (assurance_class k = "strong-sandbox-tier")) ++
  unless "runtime_identity.pinned" (id_pinned (runner_identity st k)) ++
  unless "runtime_identity.trust_chain" (tr_hostile (runner_trust st k)) ++
  unless "launch_attestation.status" (bool_decide (at_status a = "launch-observed")) ++
  unless "launch_attestation.backend_identity" (at_backend_verified a) ++
  unless "launch_attestation.runtime_identity" (at_identity_verified a) ++
  unless "mount_isolation.artifact_mount" (at_mount_verified a) ++
  unless "effective_resource_limits.enforcement" (bool_decide (limit_enforcement st m k = "sandbox-runtime-hard-limits")) ++
  unless "launch_attestation.resource_limit_mode" (at_limits_verified a) ++
  unless "post_launch_verification.status" (bool_decide (vf_status v = "passed")) ++
  unless "post_launch_verification.session_continuity.worker_instance_id" (bool_decide (vf_worker v <> "")) ++
  unless "post_launch_verification.session_continuity.sandbox_instance_id" (bool_decide (vf_sandbox v <> "")) ++
  unless "post_launch_verification.isolation_state.import_guard_active" (vf_import_guard v) ++
  unless "post_launch_verification.isolation_state.filesystem_guard_active" (vf_filesystem_guard v) ++
  unless "post_launch_verification.isolation_state.network_guard_active" (vf_network_guard v) ++
  unless "post_launch_verification.boundary_metadata.runtime_api_channel_hidden" (vf_channel_hidden v).

(** ** Profiles *)

Inductive policy_refusal :=
| UNSUPPORTED_RUNNER | UNSUPPORTED_PROFILE | WRONG_ROLE_PROFILE
| AUTO_RUNNER | DEV_RUNNER | NOT_STRONG | NO_CONTAINER_IMAGE | NO_STRONG_IMAGE | UNPINNED | UNTRUSTED
| NO_CONTAINER_SUPPORT | NO_STRONG_SUPPORT | NO_HOSTILE_SUPPORT | WEAK_CLASS | NOT_HOSTILE_TRUSTED | NO_HARD_LIMITS
| BAD_DEPLOYMENT (errors : list string).

Definition runner_of (s : string) : option runner_kind :=
  List.find (fun k => bool_decide (runner_value k = s)) [RUNNER_INSECURE_DEV_SUBPROCESS; RUNNER_CONTAINERIZED_OCI; RUNNER_STRONG_SANDBOX_VM].

(** [str(explicit or settings.AINDY_PLUGIN_SANDBOX_RUNNER or "auto").strip()] *)
Definition requested_runner (st : settings) (explicit : string) : string :=
  str_strip (if bool_decide (explicit <> "") then explicit else if bool_decide (st_runner st <> "") then st_runner st else RUNNER_SELECTION_AUTO).

Definition resolve_sandbox_runner_type (st : settings) (explicit : string) : result policy_refusal runner_kind :=
  let requested := requested_runner st explicit in
  if bool_decide (requested <> "") && bool_decide (requested <> RUNNER_SELECTION_AUTO)
  then match runner_of requested with Some k => Ok k | None => Err UNSUPPORTED_RUNNER end
  else if bool_decide (str_strip (st_profile st) ∈ [DISTRIBUTED_API; DISTRIBUTED_WORKER]) then Ok RUNNER_CONTAINERIZED_OCI
  else if bool_decide (str_lower (st_execution_mode st) = "distributed") then Ok RUNNER_CONTAINERIZED_OCI
  else Ok RUNNER_INSECURE_DEV_SUBPROCESS.

Definition get_requested_deployment_profile (st : settings) : result policy_refusal (option string) :=
  let v := str_strip (st_profile st) in
  if bool_decide (v = "") then Ok None
  else if bool_decide (v ∈ SUPPORTED_DEPLOYMENT_PROFILES) then Ok (Some v) else Err UNSUPPORTED_PROFILE.

Definition infer_api_deployment_profile (st : settings) : string :=
  if bool_decide (st_execution_mode st = "distributed") then DISTRIBUTED_API else SINGLE_INSTANCE.

Definition resolve_api_deployment_profile (st : settings) : result policy_refusal string :=
  let? requested := get_requested_deployment_profile st in
  match requested with
  | None => Ok (infer_api_deployment_profile st)
  | Some p => if bool_decide (p ∈ [SINGLE_INSTANCE; DISTRIBUTED_API; HOSTILE_THIRD_PARTY]) then Ok p else Err WRONG_ROLE_PROFILE
  end.

Definition resolve_worker_deployment_profile (st : settings) : result policy_refusal string :=
  let? requested := get_requested_deployment_profile st in
  match requested with
  | None => Ok DISTRIBUTED_WORKER
  | Some p => if bool_decide (p = DISTRIBUTED_WORKER) then Ok p else Err WRONG_ROLE_PROFILE
  end.

Definition production_safe_plugin_sandbox_required (p : string) : bool :=
  bool_decide (p ∈ [DISTRIBUTED_API; DISTRIBUTED_WORKER; HOSTILE_THIRD_PARTY]).

Definition hostile_third_party_profile_required (p : string) : bool := bool_decide (p = HOSTILE_THIRD_PARTY).

Definition redis_required (st : settings) : bool :=
  match resolve_api_deployment_profile st with
  | Err _ => st_requires_redis st
  | Ok p => bool_decide (p = DISTRIBUTED_API)
  end.

(** [required_dependencies.redis] of a profile's contract. *)
Definition contract_requires_redis (p : string) : bool :=
  bool_decide (p ∈ [DISTRIBUTED_API; DISTRIBUTED_WORKER; HOSTILE_THIRD_PARTY]).

Record sandbox_policy := SandboxPolicy { sp_configured : string; sp_resolved : runner_kind }.

(** [selected_plugin_sandbox_policy]: what was configured and what it resolves to; the
    rest of the policy is read off the resolved runner. *)
Definition selected_plugin_sandbox_policy (st : settings) : result policy_refusal sandbox_policy :=
  let configured := or_default RUNNER_SELECTION_AUTO (st_runner st) in
  let? k := resolve_sandbox_runner_type st configured in Ok (SandboxPolicy configured k).

Definition image_configured (i : image_settings) : bool := bool_decide (str_strip (is_image i) <> "").

Definition pinned_identity_required (k : runner_kind) : bool :=
  bool_decide (k ∈ [RUNNER_CONTAINERIZED_OCI; RUNNER_STRONG_SANDBOX_VM]).

(** One guard of a policy: refuse for [why] when the condition holds. *)
Definition refuse_if (b : bool) (why : policy_refusal) : result policy_refusal unit := if b then Err why else Ok tt.

(** The guards that only a hostile profile adds. *)
Definition hostile_guards (st : settings) (m : machine) (k : runner_kind) : result policy_refusal unit :=
  let? _ := refuse_if (negb (bool_decide (assurance_class k = "strong-sandbox-tier"))) WEAK_CLASS in
  let? _ := refuse_if (negb (tr_hostile (runner_trust st k))) NOT_HOSTILE_TRUSTED in
  refuse_if (negb (bool_decide (limit_enforcement st m k = "sandbox-runtime-hard-limits"))) NO_HARD_LIMITS.

(** The policy a profile is held to at start-up. *)
Definition validate_plugin_sandbox_profile_policy (st : settings) (m : machine) (p : string) : result policy_refusal sandbox_policy :=
  let? policy := selected_plugin_sandbox_policy st in
  if negb (production_safe_plugin_sandbox_required p) then Ok policy
  else
    let k := sp_resolved policy in
    let? _ := refuse_if (bool_decide (sp_configured policy = RUNNER_SELECTION_AUTO)) AUTO_RUNNER in
    let? _ := refuse_if (bool_decide (k = RUNNER_INSECURE_DEV_SUBPROCESS)) DEV_RUNNER in
    let? _ := refuse_if (hostile_third_party_profile_required p && negb (bool_decide (k = RUNNER_STRONG_SANDBOX_VM))) NOT_STRONG in
    let? _ := refuse_if (bool_decide (k = RUNNER_CONTAINERIZED_OCI) && negb (image_configured (cs_identity (st_container st)))) NO_CONTAINER_IMAGE in
    let? _ := refuse_if (bool_decide (k = RUNNER_STRONG_SANDBOX_VM) && negb (image_configured (ss_identity (st_strong st)))) NO_STRONG_IMAGE in
    let? _ := refuse_if (pinned_identity_required k && negb (id_pinned (runner_identity st k))) UNPINNED in
    let? _ := refuse_if (negb (tr_production_safe (runner_trust st k))) UNTRUSTED in
    let? _ := refuse_if (bool_decide (k = RUNNER_CONTAINERIZED_OCI) && negb (pe_production_safe (current_environment st m))) NO_CONTAINER_SUPPORT in
    let? _ := refuse_if (bool_decide (k = RUNNER_STRONG_SANDBOX_VM) && negb (pe_strong (current_environment st m))) NO_STRONG_SUPPORT in
    if hostile_third_party_profile_required p
    then let? _ := refuse_if (negb (pe_strong (current_environment st m))) NO_HOSTILE_SUPPORT in
         let? _ := hostile_guards st m k in Ok policy
    else Ok policy.

(** The profile an API process acts under: the published one, else what the settings
    give; [None] where resolving it raises. *)
Definition active_profile (st : settings) (published : string) : option string :=
  let p := str_strip published in
  if bool_decide (p = "") || bool_decide (p = "unknown")
  then match resolve_api_deployment_profile st with Ok q => Some q | Err _ => None end
  else Some p.

(** The policy a third-party plugin is held to when its host is started. *)
Definition validate_external_third_party_plugin_runtime_policy (st : settings) (m : machine) (published : string) : result policy_refusal sandbox_policy :=
  let p := default SINGLE_INSTANCE (active_profile st published) in
  let? policy := selected_plugin_sandbox_policy st in
  let k := sp_resolved policy in
  let safe := production_safe_plugin_sandbox_required p in
  let? _ := refuse_if (safe && bool_decide (sp_configured policy = RUNNER_SELECTION_AUTO)) AUTO_RUNNER in
  let? _ := refuse_if (safe && bool_decide (k = RUNNER_INSECURE_DEV_SUBPROCESS)) DEV_RUNNER in
  let? _ := refuse_if (hostile_third_party_profile_required p && negb (bool_decide (k = RUNNER_STRONG_SANDBOX_VM))) NOT_STRONG in
  let? _ := refuse_if (bool_decide (k = RUNNER_CONTAINERIZED_OCI) && negb (image_configured (cs_identity (st_container st)))) NO_CONTAINER_IMAGE in
  let? _ := refuse_if (bool_decide (k = RUNNER_STRONG_SANDBOX_VM) && negb (image_configured (ss_identity (st_strong st)))) NO_STRONG_IMAGE in
  let? _ := refuse_if (pinned_identity_required k && safe && negb (id_pinned (runner_identity st k))) UNPINNED in
  let? _ := refuse_if (safe && negb (tr_production_safe (runner_trust st k))) UNTRUSTED in
  let? _ := refuse_if (bool_decide (k = RUNNER_CONTAINERIZED_OCI) && negb (pe_production_safe (current_environment st m)) && safe) NO_CONTAINER_SUPPORT in
  let? _ := refuse_if (bool_decide (k = RUNNER_STRONG_SANDBOX_VM) && safe && negb (pe_strong (current_environment st m))) NO_STRONG_SUPPORT in
  let? _ := refuse_if (hostile_third_party_profile_required p && negb (pe_strong (current_environment st m))) NO_HOSTILE_SUPPORT in
  if hostile_third_party_profile_required p
  then let? _ := hostile_guards st m k in Ok policy
  else Ok policy.

Definition EVENT_BUS_OFF : list string := ["0"; "false"; "no"; "off"].

(** The errors that make an API profile invalid, in their order. *)
Definition api_profile_errors (st : settings) (p : string) : list string :=
  (if bool_decide (p = SINGLE_INSTANCE)
   then unless "single-instance profile requires EXECUTION_MODE=thread" (bool_decide (st_execution_mode st = "thread"))
   else if bool_decide (p ∈ [DISTRIBUTED_API; HOSTILE_THIRD_PARTY])
   then unless (p +:+ " profile requires EXECUTION_MODE=distributed") (bool_decide (st_execution_mode st = "distributed")) ++
        unless (p +:+ " profile requires REDIS_URL for queue and event-bus coordination") (bool_decide (st_redis_url st <> ""))
   else []) ++
  (if bool_decide (p ∈ [DISTRIBUTED_API; HOSTILE_THIRD_PARTY])
   then unless (p +:+ " profile requires AINDY_EVENT_BUS_ENABLED=true") (bool_decide (str_lower (st_event_bus st) ∉ EVENT_BUS_OFF)) ++
        unless (p +:+ " profile does not permit AINDY_CACHE_BACKEND=memory") (bool_decide (str_lower (st_cache_backend st) <> "memory"))
   else []).

Definition validate_api_deployment_profile (st : settings) (m : machine) : result policy_refusal string :=
  let? p := resolve_api_deployment_profile st in
  let errors := api_profile_errors st p in
  if bool_decide (errors <> []) then Err (BAD_DEPLOYMENT errors)
  else let? _ := validate_plugin_sandbox_profile_policy st m p in Ok p.

Definition validate_worker_deployment_profile (st : settings) (m : machine) : result policy_refusal string :=
  let? p := resolve_worker_deployment_profile st in
  let errors :=
    unless "distributed-worker profile requires EXECUTION_MODE=distributed" (bool_decide (st_execution_mode st = "distributed")) ++
    unless "distributed-worker profile requires REDIS_URL for the durable queue backend" (bool_decide (st_redis_url st <> "")) in
  if bool_decide (errors <> []) then Err (BAD_DEPLOYMENT errors)
  else let? _ := validate_plugin_sandbox_profile_policy st m p in Ok p.

(** ** Facts *)

Lemma refuse_if_ok b why : refuse_if b why = Ok tt -> b = false.
Proof. destruct b; [done|done]. Qed.

Lemma result_bind_ok {A B} (x : result policy_refusal A) (k : A -> result policy_refusal B) b :
  result_bind x k = Ok b -> exists a, x = Ok a /\ k a = Ok b.
Proof. destruct x; [by eexists|done]. Qed.

Ltac passed H :=
  repeat (let u := fresh "u" in let E := fresh "Hpass" in
          apply result_bind_ok in H as (u & E & H); try (destruct u; apply refuse_if_ok in E)).

(** A pinned identity launches an image by a well-formed digest. *)
Lemma pinned_launch reference digest :
  id_pinned (classify_oci_runtime_identity reference digest) = true ->
  exists base d, oci_digest d = true /\ id_launch (classify_oci_runtime_identity reference digest) = Some (base +:+ "@" +:+ d).
Proof.
  unfold classify_oci_runtime_identity. cbv zeta.
  destruct (bool_decide (str_strip reference = "")) eqn:Hs.
  { destruct (_ && _); [destruct (rsplit_at _); destruct (oci_digest _)|]; done. }
  destruct (_ && _); [destruct (rsplit_at _) as [b d] eqn:E2; destruct (oci_digest d) eqn:E3|];
    destruct (stripped digest) as [o|] eqn:E4; simpl; try done; intros Hp; try (apply bool_decide_eq_true in Hp); try done.
  - destruct (oci_digest o) eqn:E5; [|done]. by exists b, o.
  - by exists b, d.
  - destruct (oci_digest o) eqn:E5; [|done]. by exists (str_strip reference), o.
Qed.

Lemma runner_identity_launch st k :
  id_pinned (runner_identity st k) = true ->
  exists base d, oci_digest d = true /\ id_launch (runner_identity st k) = Some (base +:+ "@" +:+ d).
Proof. destruct k; apply pinned_launch. Qed.

Lemma production_safe_trust st k :
  tr_production_safe (runner_trust st k) = true -> id_pinned (runner_identity st k) = true.
Proof. destruct k; simpl; intros H; boolprop; done. Qed.

Lemma hostile_trust st k :
  tr_hostile (runner_trust st k) = true ->
  id_pinned (runner_identity st k) = true /\ tr_signature_verified (runner_trust st k) = true /\
  tr_issuer_trusted (runner_trust st k) = true /\ tr_compatible (runner_trust st k) = true.
Proof. destruct k; simpl; intros H; repeat (apply andb_true_iff in H as [H ?]); done. Qed.

(** What holds once a third-party plugin passed the policy of its profile. *)
Lemma third_party_policy_facts st m published policy :
  validate_external_third_party_plugin_runtime_policy st m published = Ok policy ->
  let p := default SINGLE_INSTANCE (active_profile st published) in
  selected_plugin_sandbox_policy st = Ok policy /\
  (production_safe_plugin_sandbox_required p = true ->
   sp_resolved policy <> RUNNER_INSECURE_DEV_SUBPROCESS /\ tr_production_safe (runner_trust st (sp_resolved policy)) = true) /\
  (p = HOSTILE_THIRD_PARTY ->
   sp_resolved policy = RUNNER_STRONG_SANDBOX_VM /\ tr_hostile (strong_trust st) = true /\ is_linux m = true).
Proof.
  unfold validate_external_third_party_plugin_runtime_policy. cbv zeta. intros H.
  set (p := default SINGLE_INSTANCE (active_profile st published)) in *.
  passed H. rewrite Hpass. 
  split_and!; [destruct (hostile_third_party_profile_required p); [passed H|]; congruence| |].
  - intros Hs. rewrite Hs in *. simpl in *.
    assert (policy = u) as -> by (destruct (hostile_third_party_profile_required p); [passed H|]; congruence).
    split; [by apply bool_decide_eq_false in Hpass1|by apply negb_false_iff].
  - intros Hp. unfold hostile_third_party_profile_required in *. rewrite (bool_decide_eq_true_2 _ Hp) in *. simpl in *.
    passed H. simplify_eq. apply negb_false_iff, bool_decide_eq_true in Hpass2. rewrite Hpass2 in *.
    unfold hostile_guards in *. passed Hpass10. split; [done|].
    apply negb_false_iff in Hpass9. unfold current_environment in Hpass9. simpl in Hpass9. boolprop. split; [|done].
    exact Hpass12.
Qed.

(** Without an explicit runner a host gets the one the policy was checked for. *)
Lemma resolve_selected st : resolve_sandbox_runner_type st "" = resolve_sandbox_runner_type st (or_default RUNNER_SELECTION_AUTO (st_runner st)).
Proof.
  unfold resolve_sandbox_runner_type, requested_runner, or_default. simpl.
  set (r := if bool_decide (st_runner st = "") then RUNNER_SELECTION_AUTO else st_runner st).
  replace (if bool_decide (st_runner st <> "") then st_runner st else RUNNER_SELECTION_AUTO) with r
    by (unfold r; repeat case_bool_decide; done).
  destruct (decide (str_strip r = "")) as [E|E].
  - rewrite E. by vm_compute.
  - rewrite (bool_decide_eq_false_2 (str_strip r = "")) by done. rewrite (bool_decide_eq_true_2 (str_strip r <> "")) by done.
    by rewrite str_strip_idem, (bool_decide_eq_true_2 (str_strip r <> "")).
Qed.

(** The command of a confined worker: an image named by a well-formed digest, its code
    mounted read-only, and for the VM launcher no host paths and no network. *)
Definition confined_command (k : runner_kind) (args : list string) : Prop :=
  (exists base d, oci_digest d = true /\ (base +:+ "@" +:+ d) ∈ args) /\
  match k with
  | RUNNER_INSECURE_DEV_SUBPROCESS => False
  | RUNNER_CONTAINERIZED_OCI => exists src, "--mount" ∈ args /\ ("type=bind,src=" +:+ src +:+ ",readonly") ∈ args
  | RUNNER_STRONG_SANDBOX_VM => ["--mount-readonly"; "--deny-host-paths"; "--network-deny-default"] ⊆ args
  end.

Lemma pinned_confined fmt resolve st m k root args :
  k <> RUNNER_INSECURE_DEV_SUBPROCESS -> id_pinned (runner_identity st k) = true ->
  process_args fmt resolve st m k root = Ok args -> confined_command k args.
Proof.
  intros Hk (base & d & Hd & Hl)%runner_identity_launch H. destruct k; [done| |]; simpl in H, Hl.
  - unfold container_process_args in H. destruct (ensure_container_runtime_ready st m); [|done]. cbn [result_bind] in H.
    injection H as <-. rewrite Hl. simpl default. split; [exists base, d; split; [done|]|].
    + do 8 (apply elem_of_cons; right). repeat (rewrite elem_of_app || rewrite elem_of_cons). tauto.
    + exists (resolve root +:+ ",dst=" +:+ or_default "/plugin-root" (cs_mount_path (st_container st))).
      rewrite !app_str_assoc. split; [by do 4 (apply elem_of_cons; right); left|]. do 5 (apply elem_of_cons; right). left.
  - unfold strong_process_args in H. destruct (ensure_strong_sandbox_ready st m); [|done]. cbn in H.
    injection H as <-. rewrite Hl. simpl default. split; [exists base, d; split; [done|]; by do 3 right; left|].
    intros x Hx. rewrite !elem_of_cons in Hx. set_solver.
Qed.

(** A third-party plugin admitted under a production-safe profile is launched confined. *)
Lemma third_party_launch_confined fmt resolve st m published policy k root args :
  validate_external_third_party_plugin_runtime_policy st m published = Ok policy ->
  production_safe_plugin_sandbox_required (default SINGLE_INSTANCE (active_profile st published)) = true ->
  resolve_sandbox_runner_type st "" = Ok k ->
  process_args fmt resolve st m k root = Ok args -> confined_command k args.
Proof.
  intros (Hs & Hp & _)%third_party_policy_facts Hsafe Hk Ha. destruct (Hp Hsafe) as [Hd Ht].
  rewrite resolve_selected in Hk. unfold selected_plugin_sandbox_policy in Hs. rewrite Hk in Hs. simpl in Hs. injection Hs as <-.
  eapply pinned_confined; [exact Hd| |exact Ha]. by apply production_safe_trust.
Qed.

(** ** Concrete settings *)

Module Demo.
Definition digest : string := "sha256:0123456789abcdef0123456789abcdef0123456789abcdef0123456789abcdef".
Definition image : image_settings :=
  ImageSettings ("registry/worker@" +:+ digest) "" "registry" "issuer" "signature-verified" "" "" "registry" "issuer" true.
Definition container : container_settings :=
  ContainerSettings "docker" image "/plugin-root" "/tmp" true true true true 64 "256m" 1 256 "" "" "" true "64m".
Definition strong : strong_settings := StrongSettings "aindy-sandbox-vm" image "/plugin-root" "/work" "512m" 1 64.
Definition linux : machine := Machine "Linux" "/usr/bin/python" (fun _ => true) (fun _ => true).
Definition conf (runner profile mode : string) (c : container_settings) : settings :=
  Settings runner profile mode "redis://" "redis" "true" true None c strong.
Definition unlimited : container_settings :=
  ContainerSettings "docker" image "/plugin-root" "/tmp" true true true true 0 "" 0 0 "" "" "" true "64m".
Definition strong_conf : settings := conf "strong_sandbox_vm" HOSTILE_THIRD_PARTY "distributed" container.
Definition docker_conf : settings := conf "containerized_oci" DISTRIBUTED_API "distributed" container.
Definition fmt (q : Q) : string := pretty (Qnum q).
End Demo.

(** The contract of the hostile profile lists Redis as required; [redis_required] asks
    for it under the distributed API profile only. *)
Example hostile_profile_asks_no_redis :
  validate_api_deployment_profile Demo.strong_conf Demo.linux = Ok HOSTILE_THIRD_PARTY /\
  contract_requires_redis HOSTILE_THIRD_PARTY = true /\ redis_required Demo.strong_conf = false.
Proof. by vm_compute. Qed.

(** A container launched with no memory, CPU or process limit is certified as if its hard
    limits had been verified. *)
Example certified_without_limits :
  let st := Demo.conf "containerized_oci" DISTRIBUTED_API "distributed" Demo.unlimited in
  exists args, process_args Demo.fmt (fun p => p) st Demo.linux RUNNER_CONTAINERIZED_OCI "/p" = Ok args /\
    at_limits (launch_attestation st RUNNER_CONTAINERIZED_OCI args) = [] /\
    runner_certification_tier st Demo.linux RUNNER_CONTAINERIZED_OCI (launch_attestation st RUNNER_CONTAINERIZED_OCI args)
      (no_verification "not_applicable") = (Some "container-sandbox-certified", []).
Proof. eexists. vm_compute. split_and!; reflexivity. Qed.

(** The strong runner without limits is not. *)
Example strong_launch_attested :
  exists args, process_args Demo.fmt (fun p => p) Demo.strong_conf Demo.linux RUNNER_STRONG_SANDBOX_VM "/p" = Ok args /\
    at_limits (launch_attestation Demo.strong_conf RUNNER_STRONG_SANDBOX_VM args) = ["memory_limit"; "cpu_limit"; "process_limit"] /\
    at_controls (launch_attestation Demo.strong_conf RUNNER_STRONG_SANDBOX_VM args) =
      ["launcher_host_path_denial"; "launcher_network_deny_default"; "read_only_plugin_mount"].
Proof. eexists. vm_compute. split_and!; reflexivity. Qed.

(** A worker process publishes no API profile and its own profile is none of an API's:
    third-party code is then held to the single-instance policy. *)
Example worker_profile_not_enforced :
  let st := Demo.conf "insecure_dev_subprocess" DISTRIBUTED_WORKER "distributed" Demo.container in
  production_safe_plugin_sandbox_required DISTRIBUTED_WORKER = true /\
  validate_external_third_party_plugin_runtime_policy st Demo.linux "unknown" =
    Ok (SandboxPolicy "insecure_dev_subprocess" RUNNER_INSECURE_DEV_SUBPROCESS).
Proof. by vm_compute. Qed.
