(* ===== verification/PluginHost.v ===== *)
(** * Plugin hosts

    platform_layer/plugin_host.py and the JSON-RPC part of sandbox_runner.py: the
    supervised workers that run isolated plugin nodes.

    [ctx] is one host record under its lock together with what its operations touch: the
    clock, the random tokens drawn, and a log of the launches and requests. What the
    worker process does is [env]: the [n]-th interaction with a process takes its
    time, may fail to spawn or to take the command, brings lines on its standard output
    and may leave the process dead. The output lines are read from a queue that outlives
    the command that caused them. Times are microseconds; a terminated process is gone. *)

From Stdlib Require Import QArith.
From stdpp Require Import pretty.
From S2P Require Import Prelude PyStr PyVal Sandbox.

Local Open Scope string_scope.
Local Open Scope Z_scope.
Local Open Scope list_scope.
Local Open Scope py_scope.

Definition seconds (s : Z) : Z := s * 1000000.

(** ** Constants *)

Definition HEARTBEAT_TIMEOUT : Z := seconds 15.
Definition BACKOFF_BASE : Z := 5.
Definition BACKOFF_MAX : Z := 60.
Definition FAILURE_THRESHOLD : Z := 4.
Definition TIMEOUT_THRESHOLD : Z := 2.
Definition VIOLATION_THRESHOLD : Z := 2.
Definition QUARANTINE_SECONDS : Z := 300.
Definition CHANNEL_TTL : Z := seconds 30.

(** ** Processes and runners *)

Record proc := Proc {
  pr_args : list string;
  pr_exit : option Z;             (* poll() *)
  pr_queue : list (option pyval) }.   (* unread output lines; [None] is not JSON *)

Record runner := Runner {
  rn_kind : runner_kind;
  rn_attestation : attestation;
  rn_proc : option proc }.

Definition is_running (r : runner) : bool :=
  match rn_proc r with Some p => bool_decide (pr_exit p = None) | None => false end.
Definition returncode (r : runner) : option Z :=
  match rn_proc r with Some p => pr_exit p | None => None end.

(** ** A host record *)

Record failure := Failure { fl_at : Z; fl_kind : string; fl_error : string; fl_exit : option Z; fl_backoff : Z }.

Record host := Host {
  h_name : string;
  h_handler : string;
  h_root : string;
  h_owner : string;
  h_caps : list string;
  h_access : pyval;
  h_kind : runner_kind;
  h_instance : string;            (* sandbox_instance_id *)
  h_runner : option runner;
  h_state : string;
  h_launches : Z;
  h_restarts : Z;
  h_requests : Z;
  h_successes : Z;
  h_failures : Z;
  h_consecutive : Z;
  h_timeouts : Z;
  h_violations : Z;
  h_crashes : Z;
  h_error : option string;
  h_failure_kind : option string;
  h_exit_code : option Z;
  h_started : option Z;
  h_stopped : option Z;
  h_heartbeat : option Z;
  h_success_at : option Z;
  h_failure_at : option Z;
  h_circuit : option Z;           (* circuit_open_until *)
  h_quarantine : option Z;        (* quarantined_until *)
  h_provenance : list (string * pyval);
  h_verification : option verification;
  h_verified_worker : option string;
  h_recent : list failure }.      (* the last ten *)

Definition new_host name handler root owner caps access kind prov : host :=
  Host name handler root owner caps access kind "" None "stopped" 0 0 0 0 0 0 0 0 0 None None None None None None None None None None
    prov None None [].

Definition before (now : Z) (until : option Z) : bool := match until with Some t => now <? t | None => false end.
Definition quarantine_active (now : Z) (h : host) : bool := before now (h_quarantine h).
Definition circuit_open (now : Z) (h : host) : bool := before now (h_circuit h).
Definition heartbeat_fresh (now : Z) (h : host) : bool :=
  match h_heartbeat h with Some t => now - t <=? HEARTBEAT_TIMEOUT | None => false end.

Definition running (h : host) : bool := match h_runner h with Some r => is_running r | None => false end.

(** The lifecycle state of a snapshot, and whether it is healthy. *)
Definition lifecycle_state (now : Z) (h : host) : string :=
  if quarantine_active now h then "quarantined"
  else if circuit_open now h then "backoff"
  else if bool_decide (h_state h = "running") && running h && negb (heartbeat_fresh now h) then "heartbeat_lost"
  else if bool_decide (h_state h ∈ ["crashed"; "failed"; "heartbeat_lost"]) then h_state h
  else if running h then "running" else h_state h.

Definition healthy (now : Z) (h : host) : bool :=
  running h && heartbeat_fresh now h && bool_decide (lifecycle_state now h = "running").

(** ** Marking *)

(** [min(5 * 2 ** max(n - 1, 0), 60)] *)
Definition backoff_seconds (n : Z) : Z := Z.min (BACKOFF_BASE * 2 ^ Z.max (n - 1) 0) BACKOFF_MAX.

Definition push_recent (f : failure) (l : list failure) : list failure :=
  let l' := l ++ [f] in drop (length l' - 10) l'.

Definition count_if (b : bool) (n : Z) : Z := if b then n + 1 else n.

Definition mark_failure (now : Z) (state error kind : string) (exit_code : option Z) (h : host) : host :=
  let consecutive := h_consecutive h + 1 in
  let timeouts := count_if (bool_decide (kind = "timeout")) (h_timeouts h) in
  let violations := count_if (bool_decide (kind = "contract_violation")) (h_violations h) in
  let crashes := count_if (bool_decide (kind = "crash")) (h_crashes h) in
  let backoff := backoff_seconds consecutive in
  let quarantined := (FAILURE_THRESHOLD <=? consecutive) || (TIMEOUT_THRESHOLD <=? timeouts) || (VIOLATION_THRESHOLD <=? violations) in
  Host (h_name h) (h_handler h) (h_root h) (h_owner h) (h_caps h) (h_access h) (h_kind h) (h_instance h) (h_runner h)
    (if quarantined then "quarantined" else state)
    (h_launches h) (h_restarts h) (h_requests h) (h_successes h) (h_failures h + 1) consecutive timeouts violations crashes
    (Some error) (Some kind) (match exit_code with Some _ => exit_code | None => h_exit_code h end)
    (h_started h) (h_stopped h) (h_heartbeat h) (h_success_at h) (Some now)
    (Some (now + seconds backoff)) (if quarantined then Some (now + seconds QUARANTINE_SECONDS) else h_quarantine h)
    (h_provenance h) (h_verification h) (h_verified_worker h) (push_recent (Failure now kind error exit_code backoff) (h_recent h)).

Definition mark_success (now : Z) (h : host) : host :=
  Host (h_name h) (h_handler h) (h_root h) (h_owner h) (h_caps h) (h_access h) (h_kind h) (h_instance h) (h_runner h) "running"
    (h_launches h) (h_restarts h) (h_requests h + 1) (h_successes h + 1) (h_failures h) 0 0 (h_violations h) (h_crashes h)
    None None (h_exit_code h) (h_started h) (h_stopped h) (Some now) (Some now) (h_failure_at h) None None
    (h_provenance h) (h_verification h) (h_verified_worker h) (h_recent h).

Definition classify_failure (error : string) (crashed : bool) : string :=
  let cleaned := str_lower error in
  if crashed then "crash"
  else if str_in "timed out" cleaned then "timeout"
  else if str_in "invalid status" cleaned || str_in "non-dict" cleaned || str_in "must be a dict" cleaned then "contract_violation"
  else "runtime_failure".

(** Updates of single fields. *)
Definition set_runner (r : option runner) (h : host) : host :=
  Host (h_name h) (h_handler h) (h_root h) (h_owner h) (h_caps h) (h_access h) (h_kind h) (h_instance h) r (h_state h)
    (h_launches h) (h_restarts h) (h_requests h) (h_successes h) (h_failures h) (h_consecutive h) (h_timeouts h) (h_violations h) (h_crashes h)
    (h_error h) (h_failure_kind h) (h_exit_code h) (h_started h) (h_stopped h) (h_heartbeat h) (h_success_at h) (h_failure_at h)
    (h_circuit h) (h_quarantine h) (h_provenance h) (h_verification h) (h_verified_worker h) (h_recent h).
Definition set_h_state (s : string) (h : host) : host :=
  Host (h_name h) (h_handler h) (h_root h) (h_owner h) (h_caps h) (h_access h) (h_kind h) (h_instance h) (h_runner h) s
    (h_launches h) (h_restarts h) (h_requests h) (h_successes h) (h_failures h) (h_consecutive h) (h_timeouts h) (h_violations h) (h_crashes h)
    (h_error h) (h_failure_kind h) (h_exit_code h) (h_started h) (h_stopped h) (h_heartbeat h) (h_success_at h) (h_failure_at h)
    (h_circuit h) (h_quarantine h) (h_provenance h) (h_verification h) (h_verified_worker h) (h_recent h).
Definition clear_circuit (h : host) : host :=
  Host (h_name h) (h_handler h) (h_root h) (h_owner h) (h_caps h) (h_access h) (h_kind h) (h_instance h) (h_runner h) (h_state h)
    (h_launches h) (h_restarts h) (h_requests h) (h_successes h) (h_failures h) (h_consecutive h) (h_timeouts h) (h_violations h) (h_crashes h)
    (h_error h) (h_failure_kind h) (h_exit_code h) (h_started h) (h_stopped h) (h_heartbeat h) (h_success_at h) (h_failure_at h)
    None (h_quarantine h) (h_provenance h) (h_verification h) (h_verified_worker h) (h_recent h).
Definition count_restart (h : host) : host :=
  Host (h_name h) (h_handler h) (h_root h) (h_owner h) (h_caps h) (h_access h) (h_kind h) (h_instance h) (h_runner h) (h_state h)
    (h_launches h) (h_restarts h + 1) (h_requests h) (h_successes h) (h_failures h) (h_consecutive h) (h_timeouts h) (h_violations h) (h_crashes h)
    (h_error h) (h_failure_kind h) (h_exit_code h) (h_started h) (h_stopped h) (h_heartbeat h) (h_success_at h) (h_failure_at h)
    (h_circuit h) (h_quarantine h) (h_provenance h) (h_verification h) (h_verified_worker h) (h_recent h).
Definition set_alive (now : Z) (prov : list (string * pyval)) (h : host) : host :=
  Host (h_name h) (h_handler h) (h_root h) (h_owner h) (h_caps h) (h_access h) (h_kind h) (h_instance h) (h_runner h) "running"
    (h_launches h) (h_restarts h) (h_requests h) (h_successes h) (h_failures h) (h_consecutive h) (h_timeouts h) (h_violations h) (h_crashes h)
    (h_error h) (h_failure_kind h) (h_exit_code h) (h_started h) (h_stopped h) (Some now) (h_success_at h) (h_failure_at h)
    (h_circuit h) (h_quarantine h) prov (h_verification h) (h_verified_worker h) (h_recent h).
Definition set_verification (v : verification) (worker : option string) (h : host) : host :=
  Host (h_name h) (h_handler h) (h_root h) (h_owner h) (h_caps h) (h_access h) (h_kind h) (h_instance h) (h_runner h) (h_state h)
    (h_launches h) (h_restarts h) (h_requests h) (h_successes h) (h_failures h) (h_consecutive h) (h_timeouts h) (h_violations h) (h_crashes h)
    (h_error h) (h_failure_kind h) (h_exit_code h) (h_started h) (h_stopped h) (h_heartbeat h) (h_success_at h) (h_failure_at h)
    (h_circuit h) (h_quarantine h) (h_provenance h) (Some v) worker (h_recent h).
Definition configure handler root owner caps access kind prov (h : host) : host :=
  Host (h_name h) handler root owner caps access kind (h_instance h) (h_runner h) (h_state h)
    (h_launches h) (h_restarts h) (h_requests h) (h_successes h) (h_failures h) (h_consecutive h) (h_timeouts h) (h_violations h) (h_crashes h)
    (h_error h) (h_failure_kind h) (h_exit_code h) (h_started h) (h_stopped h) (h_heartbeat h) (h_success_at h) (h_failure_at h)
    (h_circuit h) (h_quarantine h) prov (h_verification h) (h_verified_worker h) (h_recent h).
Definition set_launching (now : Z) (instance : string) (r : runner) (h : host) : host :=
  Host (h_name h) (h_handler h) (h_root h) (h_owner h) (h_caps h) (h_access h) (h_kind h) instance (Some r) "starting"
    (h_launches h + 1) (h_restarts h) (h_requests h) (h_successes h) (h_failures h) (h_consecutive h) (h_timeouts h) (h_violations h) (h_crashes h)
    None (h_failure_kind h) None (Some now) None (h_heartbeat h) (h_success_at h) (h_failure_at h)
    (h_circuit h) (h_quarantine h) (h_provenance h) (h_verification h) (h_verified_worker h) (h_recent h).
Definition set_terminated (now : Z) (h : host) : host :=
  Host (h_name h) (h_handler h) (h_root h) (h_owner h) (h_caps h) (h_access h) (h_kind h) (h_instance h) None
    (if bool_decide (h_state h ∈ ["failed"; "crashed"; "quarantined"; "heartbeat_lost"]) then h_state h else "stopped")
    (h_launches h) (h_restarts h) (h_requests h) (h_successes h) (h_failures h) (h_consecutive h) (h_timeouts h) (h_violations h) (h_crashes h)
    (h_error h) (h_failure_kind h) None (h_started h) (Some now) (h_heartbeat h) (h_success_at h) (h_failure_at h)
    (h_circuit h) (h_quarantine h) (h_provenance h) (h_verification h) (h_verified_worker h) (h_recent h).

(** ** Operations *)

Record reply := Reply {
  rp_elapsed : Z;
  rp_spawn : option string;       (* why [Popen] raised *)
  rp_send : option string;        (* why the command could not be written *)
  rp_lines : list (option pyval); (* output lines arriving while it is waited for *)
  rp_exit : option Z;             (* the process is dead afterwards *)
  rp_kernel : option (bool * bool * bool) }.   (* seccomp, mount and network isolation read from /proc *)

(** What a worker is told of a request: who it is for, and the channel its runtime calls
    are bound to. *)
Record channel := Channel {
  ch_user : string;
  ch_run : string;
  ch_trace : string;
  ch_workflow : string;
  ch_flow : string;
  ch_name : string;
  ch_owner : string;
  ch_caps : list string;
  ch_id : string;
  ch_nonce : string;
  ch_token : string;
  ch_instance : string;
  ch_kind : runner_kind;
  ch_issued : Z;
  ch_expires : Z }.

Inductive event :=
| Launched (name owner : string) (kind : runner_kind) (args : list string)
| Verified (name instance : string) (v : verification)   (* what was written to post_launch_verification *)
| Requested (ch : channel).

Record exn := Exn { ex_text : string; ex_kind : option string }.

Record ctx := Ctx {
  c_now : Z;
  c_tick : nat;                   (* interactions so far *)
  c_tokens : nat;                 (* random tokens drawn so far *)
  c_kernel_seen : bool;
  c_log : list event;
  c_host : host }.

Definition with_host (f : host -> host) (c : ctx) : ctx :=
  Ctx (c_now c) (c_tick c) (c_tokens c) (c_kernel_seen c) (c_log c) (f (c_host c)).
Definition note (e : event) (c : ctx) : ctx :=
  Ctx (c_now c) (c_tick c) (c_tokens c) (c_kernel_seen c) (c_log c ++ [e]) (c_host c).
Definition elapse (d : Z) (c : ctx) : ctx :=
  Ctx (c_now c + Z.max 0 d) (S (c_tick c)) (c_tokens c) (c_kernel_seen c) (c_log c) (c_host c).
Definition draw (c : ctx) : ctx := Ctx (c_now c) (c_tick c) (S (c_tokens c)) (c_kernel_seen c) (c_log c) (c_host c).
Definition publish_observation (kind : runner_kind) (kernel : bool) (c : ctx) : ctx :=
  Ctx (c_now c) (c_tick c) (c_tokens c)
    (c_kernel_seen c || (bool_decide (kind = RUNNER_STRONG_SANDBOX_VM) && kernel)) (c_log c) (c_host c).

Definition M (A : Type) : Type := ctx -> ctx * result exn A.
Definition ret {A} (a : A) : M A := fun c => (c, Ok a).
Definition raise {A} (text : string) : M A := fun c => (c, Err (Exn text None)).
Definition bind {A B} (x : M A) (k : A -> M B) : M B :=
  fun c => let '(c', r) := x c in match r with Ok a => k a c' | Err e => (c', Err e) end.
Definition modify (f : ctx -> ctx) : M unit := fun c => (f c, Ok tt).
Definition read {A} (f : ctx -> A) : M A := fun c => (c, Ok (f c)).

Local Notation "x <- m ;; k" := (bind m (fun x => k)) (at level 100, m at next level, right associativity).
Local Notation "m ;; k" := (bind m (fun _ => k)) (at level 100, right associativity).

Definition lift {A} (o : option A) (text : string) : M A := match o with Some a => ret a | None => raise text end.

Section hosts.
Context (render : pyval -> string) (token : nat -> string) (env : nat -> reply).
Context (fmt : Q -> string) (resolve : string -> string).
Context (st : settings) (m : machine) (published : string).

(** [str(v or "").strip()] *)
Definition py_text (v : pyval) : string := str_strip (if py_truth v then py_str render v else "").

(** [v or {}] about to be asked for a key: [None] where that raises. *)
Definition as_dict (v : pyval) : option (list (string * pyval)) :=
  if py_truth v then match v with VDict d => Some d | _ => None end else Some [].

(** [response.get("error") or d] as text *)
Definition error_text (d : string) (r : list (string * pyval)) : string :=
  if py_truth (py_get "error" r) then py_str render (py_get "error" r) else d.

Definition response_of (v : pyval) : M (list (string * pyval)) :=
  match v with VDict d => ret d | _ => raise ("'" +:+ type_name v +:+ "' object has no attribute 'get'") end.

Definition text_of (k : string) (d : list (string * pyval)) : string :=
  if py_truth (py_get k d) then py_str render (py_get k d) else "".

(** [str(base.get(k) or base.get(k') or "")] *)
Definition text_or (k k' : string) (d : list (string * pyval)) : string :=
  if py_truth (py_get k d) then py_str render (py_get k d) else text_of k' d.

Definition prepare_context (rc : list (string * pyval)) : M channel :=
  c <- read (fun c => c) ;;
  modify (fun c => draw (draw (draw c))) ;;
  let h := c_host c in
  let n := c_tokens c in
  ret (Channel (text_of "user_id" rc) (text_or "run_id" "trace_id" rc) (text_or "trace_id" "run_id" rc)
         (text_of "workflow_type" rc) (text_of "flow_name" rc) (h_name h) (h_owner h) (h_caps h)
         (token n) (token (S n)) (token (S (S n))) (h_instance h) (h_kind h) (c_now c) (c_now c + CHANNEL_TTL)).

(** *** The JSON-RPC runner *)

Definition set_proc (p : option proc) (r : runner) : runner := Runner (rn_kind r) (rn_attestation r) p.

Definition send_command : M pyval :=
  o <- read (fun c => h_runner (c_host c)) ;;
  match o with
  | None => raise "plugin host process is not running"
  | Some r =>
      match rn_proc r with
      | None => raise "plugin host process is not running"
      | Some p =>
          match pr_exit p with
          | Some code => raise ("plugin host exited with code " +:+ pretty code)
          | None =>
              rp <- read (fun c => env (c_tick c)) ;;
              modify (elapse (rp_elapsed rp)) ;;
              let leave q := modify (with_host (set_runner (Some (set_proc (Some (Proc (pr_args p) (rp_exit rp) q)) r)))) in
              match rp_send rp with
              | Some why => leave (pr_queue p ++ rp_lines rp) ;; raise ("failed to send plugin host command: " +:+ why)
              | None =>
                  match pr_queue p ++ rp_lines rp with
                  | [] => leave [] ;;
                      match rp_exit rp with
                      | Some code => raise ("plugin host exited with code " +:+ pretty code)
                      | None => raise "plugin host command timed out"
                      end
                  | None :: q => leave q ;; raise "plugin host returned invalid JSON"
                  | Some v :: q => leave q ;; ret v
                  end
              end
          end
      end
  end.

Definition launch_refusal_text (why : launch_refusal) : string :=
  match why with
  | NO_IMAGE => "sandbox runner requires an image"
  | IDENTITY_INVALID => "sandbox runner runtime identity is invalid"
  | TRUST_INVALID => "sandbox runner runtime trust is invalid"
  | NOT_LINUX => "strong sandbox runner requires a Linux host"
  | RUNTIME_MISSING => "sandbox runner unavailable"
  end.

(** [_spawn_process]: the attestation is recorded before the process exists. *)
Definition spawn_process (r : runner) : M unit :=
  h <- read c_host ;;
  match process_args fmt resolve st m (rn_kind r) (h_root h) with
  | Err why => raise (launch_refusal_text why)
  | Ok args =>
      let r' := Runner (rn_kind r) (launch_attestation st (rn_kind r) args) None in
      modify (with_host (set_runner (Some r'))) ;;
      rp <- read (fun c => env (c_tick c)) ;;
      modify (elapse (rp_elapsed rp)) ;;
      match rp_spawn rp with
      | Some why => raise why
      | None =>
          modify (with_host (set_runner (Some (set_proc (Some (Proc args None [])) r')))) ;;
          modify (note (Launched (h_name h) (h_owner h) (rn_kind r) args))
      end
  end.

Definition runner_start (rc : list (string * pyval)) (r : runner) : M (list (string * pyval)) :=
  _ch <- prepare_context rc ;;
  spawn_process r ;;
  v <- send_command ;;
  response <- response_of v ;;
  if py_truth (py_get "ok" response) then ret response else raise (error_text "plugin host start failed" response).

(** [runner.shutdown(force)]: a graceful one asks the worker first. *)
Definition runner_shutdown (force : bool) (r : runner) : M unit :=
  match rn_proc r with
  | None => ret tt
  | Some p =>
      (fun c => ((if negb force && bool_decide (pr_exit p = None) then (send_command c).1 else c), Ok tt)) ;;
      modify (with_host (set_runner (Some (set_proc None r))))
  end.

(** *** Post-launch verification *)

Definition named (name : string) (b : bool) : list string * list string := if b then ([name], []) else ([], [name]).

Fixpoint collect (checks : list (list string * list string)) : list string * list string :=
  match checks with
  | [] => ([], [])
  | (v, f) :: rest => let '(vs, fs) := collect rest in (v ++ vs, f ++ fs)
  end.

Definition verified_flag (d : list (string * pyval)) (k : string) : option bool :=
  x ← as_dict (py_get k d); Some (py_truth (py_get "verified" x)).

(** Verified, or reported as not applicable. *)
Definition verified_or_na (d : list (string * pyval)) (k : string) : option bool :=
  x ← as_dict (py_get k d);
  Some (py_truth (py_get "verified" x) ||
        bool_decide ((if py_truth (py_get "status" x) then py_str render (py_get "status" x) else "") = "not_applicable")).

(** What a probe's answer verifies of a host, given the kernel evidence. *)
Definition check_probe (now : Z) (h : host) (probe : list (string * pyval)) (kernel : option (bool * bool * bool)) : option verification :=
  session ← dict_or (py_get "session_continuity" probe);
  isolation ← dict_or (py_get "isolation_state" probe);
  boundary ← dict_or (py_get "boundary_metadata" probe);
  mounts ← dict_or (py_get "mount_network_state" probe);
  network ← dict_or (py_get "network_policy" mounts);
  read_access ← verified_flag mounts "artifact_read_access";
  write_blocked ← verified_flag mounts "artifact_write_blocked";
  temp_scope ← verified_flag mounts "writable_temp_scope";
  paths_blocked ← verified_flag mounts "host_path_access_blocked";
  socket_guard ← verified_flag network "socket_guard_active";
  deny_default ← verified_or_na network "deny_by_default_outbound";
  private_blocked ← verified_or_na network "private_target_blocking";
  boundary_mode ← verified_flag network "expected_boundary_mode";
  let worker := py_text (py_get "worker_instance_id" probe) in
  let same k expected := let v := py_text (py_get k session) in named ("session_continuity." +:+ k) (bool_decide (v = expected) && bool_decide (v <> "")) in
  let guard k i := match kernel with Some e => i e | None => py_truth (py_get k isolation) end in
  let import_guard := guard "import_guard_active" (fun e => e.1.1) in
  let fs_guard := guard "filesystem_guard_active" (fun e => e.1.2) in
  let net_guard := guard "network_guard_active" (fun e => e.2) in
  let hidden := py_truth (py_get "runtime_api_channel_hidden" boundary) in
  let changed := match h_verified_worker h with
                 | Some w => if bool_decide (w <> "") && bool_decide (worker <> w) then ["session_continuity.worker_instance_changed"] else []
                 | None => [] end in
  let '(fields, failures) :=
    collect
      [named "session_continuity.worker_instance_id" (bool_decide (worker <> "")); ([], changed);
       same "extension_name" (h_name h); same "owner_class" (h_owner h); same "sandbox_instance_id" (h_instance h);
       named "session_continuity.started" (py_truth (py_get "started" session));
       named "isolation_state.import_guard_active" import_guard; named "isolation_state.filesystem_guard_active" fs_guard;
       named "isolation_state.network_guard_active" net_guard; named "boundary_metadata.runtime_api_channel_hidden" hidden;
       named "mount_network_state.artifact_read_access" read_access; named "mount_network_state.artifact_write_blocked" write_blocked;
       named "mount_network_state.writable_temp_scope" temp_scope; named "mount_network_state.host_path_access_blocked" paths_blocked;
       named "mount_network_state.network_policy.socket_guard_active" socket_guard;
       named "mount_network_state.network_policy.deny_by_default_outbound" deny_default;
       named "mount_network_state.network_policy.private_target_blocking" private_blocked;
       named "mount_network_state.network_policy.expected_boundary_mode" boundary_mode] in
  let scope := py_get "verification_scope" probe in
  Some (Verification (if bool_decide (failures = []) then "passed" else "failed")
          (if py_truth scope then py_str render scope else LIVE_SCOPE) (Some now) fields failures worker
          (py_text (py_get "sandbox_instance_id" session)) import_guard fs_guard net_guard hidden).

Definition verify_post_launch_state : M verification :=
  h <- read c_host ;;
  match h_runner h with
  | None =>
      now <- read c_now ;;
      let v := Verification "failed" LIVE_SCOPE (Some now) [] ["runner-unavailable"] "" "" false false false false in
      modify (with_host (set_verification v (h_verified_worker h))) ;; modify (note (Verified (h_name h) (h_instance h) v)) ;; ret v
  | Some _ =>
      rp <- read (fun c => env (c_tick c)) ;;
      v <- send_command ;;
      response <- response_of v ;;
      if negb (py_truth (py_get "ok" response)) then raise (error_text "plugin host probe failed" response)
      else
        probe <- lift (dict_or (py_get "probe" response)) "malformed probe" ;;
        h' <- read c_host ;;
        now <- read c_now ;;
        let kernel := if running h' then rp_kernel rp else None in
        v <- lift (check_probe now h' probe kernel) "malformed probe" ;;
        let worker := if bool_decide (vf_status v = "passed") && bool_decide (vf_worker v <> "") then Some (vf_worker v) else h_verified_worker h' in
        modify (with_host (set_verification v worker)) ;;
        modify (note (Verified (h_name h') (h_instance h') v)) ;;
        modify (publish_observation (h_kind h') (bool_decide (kernel <> None))) ;;
        ret v
  end.

Definition require_verified (v : verification) : M unit :=
  if bool_decide (vf_status v = "passed") then ret tt else raise "strong sandbox post-launch verification failed".

(** Strong sandboxes are verified live; the other runners are not probed. *)
Definition verify_if_strong : M unit :=
  h <- read c_host ;;
  if bool_decide (h_kind h = RUNNER_STRONG_SANDBOX_VM) then v <- verify_post_launch_state ;; require_verified v else ret tt.

(** *** Launching *)

(** The verification a snapshot attests. *)
Definition effective_verification (h : host) : verification :=
  match h_verification h with
  | Some v => v
  | None => no_verification (if bool_decide (h_kind h = RUNNER_STRONG_SANDBOX_VM) then "not_verified_yet" else "not_applicable")
  end.

Definition host_violations (h : host) : list string :=
  let a := match h_runner h with Some r => rn_attestation r | None => default_launch_attestation end in
  hostile_third_party_attestation_violations st m (h_kind h) a (effective_verification h).

(** The profile a launch is admitted under; the empty text where it cannot be resolved. *)
Definition launch_profile : string := default "" (active_profile st published).

Definition admit_hostile : M unit :=
  h <- read c_host ;;
  if bool_decide (h_owner h = "external-third-party") && hostile_third_party_profile_required launch_profile
     && bool_decide (host_violations h <> [])
  then (fun c => (c, Err (Exn "hostile-third-party sandbox admission failed" (Some "contract_violation"))))
  else ret tt.

(** [merged = dict(response.provenance or {}); merged.update(record.provenance)] *)
Definition merge_provenance (response : list (string * pyval)) (own : list (string * pyval)) : option (list (string * pyval)) :=
  d ← dict_or (py_get "provenance" response); Some (dict_update d own).

Definition launch_and_admit (rc : list (string * pyval)) (r : runner) : M unit :=
  response <- runner_start rc r ;;
  h <- read c_host ;;
  prov <- lift (merge_provenance response (h_provenance h)) "malformed provenance" ;;
  now <- read c_now ;;
  modify (with_host (set_alive now prov)) ;;
  verify_if_strong ;;
  admit_hostile.

(** [_terminate_record_process]: exceptions of the shutdown are swallowed. *)
Definition terminate (force : bool) : M unit :=
  h <- read c_host ;;
  match h_runner h with
  | None => ret tt
  | Some r => runner_shutdown force r ;; now <- read c_now ;; modify (with_host (set_terminated now))
  end.

Definition assert_not_quarantined : M unit :=
  h <- read c_host ;; now <- read c_now ;;
  if quarantine_active now h then raise "plugin host is quarantined" else ret tt.

Definition assert_not_in_backoff : M unit :=
  h <- read c_host ;; now <- read c_now ;;
  if circuit_open now h then raise "plugin host is in restart backoff" else ret tt.

(** Launch the worker and admit it, or leave it dead and the record marked. *)
Definition start_record (rc : list (string * pyval)) : M unit :=
  assert_not_quarantined ;;
  (fun c => let now := c_now c in
            let r := Runner (h_kind (c_host c)) default_launch_attestation None in
            let c1 := draw (with_host (set_launching now (token (c_tokens c)) r) c) in
            let '(c2, res) := launch_and_admit rc r c1 in
            match res with
            | Ok _ => (c2, Ok tt)
            | Err e =>
                let kind := match ex_kind e with Some k => k | None => classify_failure (ex_text e) false end in
                let c3 := with_host (mark_failure (c_now c2) "failed" (ex_text e) kind None) c2 in
                ((terminate true c3).1, Err e)
            end).

(** *** Serving requests *)

Definition exited_text (code : option Z) : string :=
  "plugin host exited with code " +:+ match code with Some c => pretty c | None => "None" end.

(** Note the crash of a worker found dead. *)
Definition mark_crash_if_dead : M unit :=
  modify (fun c => match h_runner (c_host c) with
                   | Some r => match returncode r with
                               | Some code => with_host (mark_failure (c_now c) "crashed" (exited_text (Some code)) "crash" (Some code)) c
                               | None => c end
                   | None => c end).

Definition ensure_running (rc : list (string * pyval)) : M unit :=
  h <- read c_host ;;
  if running h then ret tt
  else mark_crash_if_dead ;; modify (with_host count_restart) ;; start_record rc.

(** One request to the running worker. *)
Definition ask_worker (rc : list (string * pyval)) : M pyval :=
  ch <- prepare_context rc ;;
  modify (note (Requested ch)) ;;
  v <- send_command ;;
  response <- response_of v ;;
  if negb (py_truth (py_get "ok" response)) then raise (error_text "plugin host execution failed" response)
  else match py_get "result" response with
       | VDict d => verify_if_strong ;; modify (fun c => with_host (mark_success (c_now c)) c) ;; ret (VDict d)
       | _ => raise "plugin host returned a non-dict plugin result"
       end.

Definition mark_request_failure (e : exn) : M unit :=
  modify (fun c =>
    let h := c_host c in
    let crashed := match h_runner h with Some r => negb (is_running r) && bool_decide (returncode r <> None) | None => false end in
    with_host (mark_failure (c_now c) (if crashed then "crashed" else "failed") (ex_text e) (classify_failure (ex_text e) crashed)
                 (if crashed then match h_runner h with Some r => returncode r | None => None end else None)) c).

(** The loop of a request, with the retries it has left. *)
Fixpoint serve (rc : list (string * pyval)) (retries : nat) : M pyval :=
  ensure_running rc ;;
  (fun c => let '(c1, res) := ask_worker rc c in
            match res with
            | Ok v => (c1, Ok v)
            | Err e =>
                let c2 := (mark_request_failure e c1).1 in
                match retries with
                | O => (c2, Err e)
                | S n => if quarantine_active (c_now c2) (c_host c2) then (c2, Err e)
                         else (modify (with_host count_restart) ;; terminate true ;; start_record rc ;; serve rc n) c2
                end
            end).

Definition execute_record (rc : list (string * pyval)) : M pyval :=
  assert_not_quarantined ;; assert_not_in_backoff ;; serve rc 1.

(** *** Heartbeat, restart *)

Definition heartbeat_record : M unit :=
  h <- read c_host ;; now <- read c_now ;;
  if quarantine_active now h || circuit_open now h then ret tt
  else match h_runner h with
       | None => modify (with_host (set_h_state "stopped"))
       | Some r =>
           if negb (is_running r)
           then modify (with_host (fun h => set_runner None (mark_failure now "crashed" (exited_text (returncode r)) "crash" (returncode r) h)))
           else fun c =>
             let '(c1, res) :=
               (v <- send_command ;;
                response <- response_of v ;;
                (if py_truth (py_get "ok" response) then ret tt else raise (error_text "heartbeat failed" response)) ;;
                modify (fun c => with_host (fun h => set_alive (c_now c) (h_provenance h) h) c) ;;
                verify_if_strong) c in
             match res with
             | Ok _ => (c1, Ok tt)
             | Err e => (with_host (mark_failure (c_now c1) "heartbeat_lost" (ex_text e) (classify_failure (ex_text e) false) None) c1, Ok tt)
             end
       end.

Definition restart_record (rc : list (string * pyval)) : M unit :=
  assert_not_quarantined ;; modify (with_host clear_circuit) ;; modify (with_host count_restart) ;; terminate false ;; start_record rc.

(** *** The table of hosts *)

Record world := World {
  w_now : Z;
  w_tick : nat;
  w_tokens : nat;
  w_kernel_seen : bool;
  w_log : list event;
  w_hosts : list (string * host) }.

(** Run an operation on the record of [name] under its lock. *)
Definition on_record {A} (name : string) (h : host) (op : M A) (w : world) : world * result exn A :=
  let '(c, r) := op (Ctx (w_now w) (w_tick w) (w_tokens w) (w_kernel_seen w) (w_log w) h) in
  (World (c_now c) (c_tick c) (c_tokens c) (c_kernel_seen c) (c_log c) (dict_set name (c_host c) (w_hosts w)), r).

Definition unregistered (name : string) : exn := Exn ("plugin host '" +:+ name +:+ "' is not registered") None.

Record host_config := HostConfig {
  hc_handler : string;
  hc_root : string;
  hc_owner : string;
  hc_caps : list string;
  hc_access : pyval;
  hc_provenance : list (string * pyval);
  hc_runner : string;             (* runner_type, empty when absent *)
  hc_force : bool }.

Definition config_changed (h : host) (cfg : host_config) (k : runner_kind) : bool :=
  negb (bool_decide (h_handler h = hc_handler cfg) && bool_decide (h_root h = hc_root cfg) && bool_decide (h_owner h = hc_owner cfg)
        && bool_decide (h_caps h = hc_caps cfg) && py_eq (h_access h) (hc_access cfg) && bool_decide (h_kind h = k)
        && py_eq (VDict (h_provenance h)) (VDict (hc_provenance cfg))).

(** The part of [start_plugin_host] under the record's lock. *)
Definition start_under_lock (cfg : host_config) (k : runner_kind) (rc : list (string * pyval)) : M unit :=
  modify (fun c => if hc_force cfg && negb (quarantine_active (c_now c) (c_host c)) then with_host clear_circuit c else c) ;;
  assert_not_quarantined ;;
  h <- read c_host ;;
  let changed := config_changed h cfg k in
  (if changed then modify (with_host (configure (hc_handler cfg) (hc_root cfg) (hc_owner cfg) (hc_caps cfg) (hc_access cfg) k (hc_provenance cfg)))
   else ret tt) ;;
  (if (hc_force cfg || changed) && bool_decide (h_runner h <> None) then modify (with_host count_restart) ;; terminate false else ret tt) ;;
  h' <- read c_host ;;
  if running h' then ret tt
  else (if match h_runner h' with Some r => bool_decide (returncode r <> None) | None => false end
        then mark_crash_if_dead ;; modify (with_host count_restart) else ret tt) ;;
       start_record rc.

Definition policy_exn : exn := Exn "plugin runtime policy" None.

Definition start_plugin_host (name : string) (cfg : host_config) (rc : list (string * pyval)) (w : world) : world * result exn unit :=
  match (if bool_decide (hc_owner cfg = "external-third-party")
         then let? _ := validate_external_third_party_plugin_runtime_policy st m published in Ok tt else Ok tt) with
  | Err _ => (w, Err policy_exn)
  | Ok _ =>
      match resolve_sandbox_runner_type st (hc_runner cfg) with
      | Err _ => (w, Err policy_exn)
      | Ok k =>
          let h := match dict_get name (w_hosts w) with
                   | Some h => h
                   | None => new_host name (hc_handler cfg) (hc_root cfg) (hc_owner cfg) (hc_caps cfg) (hc_access cfg) k (hc_provenance cfg)
                   end in
          on_record name h (start_under_lock cfg k rc) w
      end
  end.

Definition execute_plugin_host (name : string) (rc : list (string * pyval)) (w : world) : world * result exn pyval :=
  match dict_get name (w_hosts w) with
  | None => (w, Err (unregistered name))
  | Some h => on_record name h (execute_record rc) w
  end.

Definition heartbeat_plugin_host (name : string) (w : world) : world * result exn unit :=
  match dict_get name (w_hosts w) with
  | None => (w, Err (unregistered name))
  | Some h => on_record name h heartbeat_record w
  end.

Definition restart_plugin_host (name : string) (rc : list (string * pyval)) (w : world) : world * result exn unit :=
  match dict_get name (w_hosts w) with
  | None => (w, Err (unregistered name))
  | Some h => on_record name h (restart_record rc) w
  end.

Definition set_hosts (hs : list (string * host)) (w : world) : world :=
  World (w_now w) (w_tick w) (w_tokens w) (w_kernel_seen w) (w_log w) hs.

Definition shutdown_plugin_host (name : string) (remove : bool) (w : world) : world * bool :=
  match dict_get name (w_hosts w) with
  | None => (w, false)
  | Some h =>
      let w' := (on_record name h (terminate false) w).1 in
      ((if remove then set_hosts (dict_del name (w_hosts w')) w' else w'), true)
  end.

(** The overall status of an inventory. *)
Definition inventory_status (w : world) : string :=
  let states := map (fun kh => lifecycle_state (w_now w) kh.2) (w_hosts w) in
  if existsb (fun s => bool_decide (s = "quarantined")) states then "unavailable"
  else if existsb (fun s => bool_decide (s ∈ ["crashed"; "failed"; "backoff"; "heartbeat_lost"])) states then "degraded" else "ok".

Definition shutdown_all_plugin_hosts (w : world) : world :=
  foldl (fun w name => (shutdown_plugin_host name true w).1) w (dict_keys (w_hosts w)).

(** *** Histories *)

Inductive act :=
| Start (name : string) (cfg : host_config) (rc : list (string * pyval))
| Execute (name : string) (rc : list (string * pyval))
| Heartbeat (name : string)
| Restart (name : string) (rc : list (string * pyval))
| Shutdown (name : string) (remove : bool)
| Dies (name : string) (code : Z)                        (* the worker exits by itself *)
| Prints (name : string) (lines : list (option pyval))   (* output arriving between requests *)
| Passes (d : Z).

Definition on_proc (f : proc -> proc) (h : host) : host :=
  match h_runner h with
  | Some r => match rn_proc r with
              | Some p => if bool_decide (pr_exit p = None) then set_runner (Some (set_proc (Some (f p)) r)) h else h
              | None => h end
  | None => h
  end.

Definition on_host (name : string) (f : host -> host) (w : world) : world :=
  match dict_get name (w_hosts w) with Some h => set_hosts (dict_set name (f h) (w_hosts w)) w | None => w end.

(** Registration names no runner and does not force a restart. *)
Definition registration (cfg : host_config) : host_config :=
  HostConfig (hc_handler cfg) (hc_root cfg) (hc_owner cfg) (hc_caps cfg) (hc_access cfg) (hc_provenance cfg) "" false.

Definition step (a : act) (w : world) : world :=
  match a with
  | Start name cfg rc => (start_plugin_host name (registration cfg) rc w).1
  | Execute name rc => (execute_plugin_host name rc w).1
  | Heartbeat name => (heartbeat_plugin_host name w).1
  | Restart name rc => (restart_plugin_host name rc w).1
  | Shutdown name remove => (shutdown_plugin_host name remove w).1
  | Dies name code => on_host name (on_proc (fun p => Proc (pr_args p) (Some code) (pr_queue p))) w
  | Prints name lines => on_host name (on_proc (fun p => Proc (pr_args p) (pr_exit p) (pr_queue p ++ lines))) w
  | Passes d => World (w_now w + Z.max 0 d) (w_tick w) (w_tokens w) (w_kernel_seen w) (w_log w) (w_hosts w)
  end.

Definition run (acts : list act) (w : world) : world := foldl (fun w a => step a w) w acts.

Definition boot (now : Z) : world := World now 0 0 false [] [].

End hosts.

(** ** Reasoning about operations *)

(** From [P], an operation ends in [Q] when it returns and in [R] when it raises. *)
Definition hoare {A} (P : ctx -> Prop) (op : M A) (Q : A -> ctx -> Prop) (R : ctx -> Prop) : Prop :=
  forall c, P c -> match op c with (c', Ok a) => Q a c' | (c', Err _) => R c' end.

Lemma hoare_ret {A} (a : A) (P : ctx -> Prop) Q R : (forall c, P c -> Q a c) -> hoare P (ret a) Q R.
Proof. intros H c Hc. by apply H. Qed.

Lemma hoare_raise {A} text (P : ctx -> Prop) (Q : A -> ctx -> Prop) R : (forall c, P c -> R c) -> hoare P (raise text) Q R.
Proof. intros H c Hc. by apply H. Qed.

Lemma hoare_modify f (P : ctx -> Prop) Q R : (forall c, P c -> Q tt (f c)) -> hoare P (modify f) Q R.
Proof. intros H c Hc. by apply H. Qed.

Lemma hoare_bind {A B} (x : M A) (k : A -> M B) P Q R S :
  hoare P x Q R -> (forall a, hoare (Q a) (k a) S R) -> hoare P (bind x k) S R.
Proof. intros Hx Hk c Hc. unfold bind. specialize (Hx c Hc). destruct (x c) as [c' [a|e]]; [by apply Hk|done]. Qed.

(** Reading fixes the value in the rest. *)
Lemma hoare_read {A B} (f : ctx -> A) (k : A -> M B) P S R :
  (forall a, hoare (fun c => P c /\ f c = a) (k a) S R) -> hoare P (bind (read f) k) S R.
Proof. intros H c Hc. by apply (H (f c)). Qed.

Lemma hoare_conseq {A} (op : M A) (P P' : ctx -> Prop) (Q Q' : A -> ctx -> Prop) (R R' : ctx -> Prop) :
  hoare P op Q R -> (forall c, P' c -> P c) -> (forall a c, Q a c -> Q' a c) -> (forall c, R c -> R' c) -> hoare P' op Q' R'.
Proof. intros H HP HQ HR c Hc. specialize (H c (HP c Hc)). destruct (op c) as [c' [a|e]]; [by apply HQ|by apply HR]. Qed.

Lemma hoare_lift {A} (o : option A) text (P R : ctx -> Prop) : (forall c, P c -> R c) -> hoare P (lift o text) (fun _ => P) R.
Proof. intros H. destruct o; [by apply hoare_ret|by apply hoare_raise]. Qed.

(** *** Who is served by which worker *)

Section safety.
Context (render : pyval -> string) (token : nat -> string) (env : nat -> reply).
Context (fmt : Q -> string) (resolve : string -> string).
Context (st : settings) (m : machine) (published : string).

Definition third_party (owner : string) : bool := bool_decide (owner = "external-third-party").

(** Not the launch of a worker of [name]. *)
Definition elsewhere (name : string) (e : event) : Prop := match e with Launched n _ _ _ => n <> name | _ => True end.
(** If a launch, then of a worker of [name]. *)
Definition mine (name : string) (e : event) : Prop := match e with Launched n _ _ _ => n = name | _ => True end.

(** The last worker launched for host [name] was launched by the command [args], and since
    then what [l2] holds has happened. *)
Definition launched_last (l : list event) (name owner : string) (k : runner_kind) (args : list string) (l2 : list event) : Prop :=
  (exists l1, l = l1 ++ Launched name owner k args :: l2) /\ Forall (elsewhere name) l2.

(** The evidence a log holds for the worker of a host: it is the last one launched for that
    host, a strong sandbox was verified live since, and a third-party one passed the policy
    of its profile and, under the hostile profile, showed no violation. *)
Definition evidence (l : list event) (name owner instance : string) (k : runner_kind) (args : list string) : Prop :=
  exists l2, launched_last l name owner k args l2 /\ (exists root, process_args fmt resolve st m k root = Ok args) /\
  (k = RUNNER_STRONG_SANDBOX_VM -> exists v, Verified name instance v ∈ l2 /\ vf_status v = "passed") /\
  (third_party owner && hostile_third_party_profile_required (launch_profile st published) = true ->
   exists a v, hostile_third_party_attestation_violations st m k a v = []).

Definition policed (h : host) : Prop :=
  resolve_sandbox_runner_type st "" = Ok (h_kind h) /\
  (third_party (h_owner h) = true -> exists policy, validate_external_third_party_plugin_runtime_policy st m published = Ok policy).

Definition worker_of (h : host) : option (runner_kind * list string) :=
  match h_runner h with Some r => match rn_proc r with Some p => Some (rn_kind r, pr_args p) | None => None end | None => None end.

Definition admitted (l : list event) (h : host) : Prop :=
  match worker_of h with Some (k, args) => k = h_kind h /\ evidence l (h_name h) (h_owner h) (h_instance h) k args | None => True end.

Definition served (l : list event) (ch : channel) : Prop :=
  (exists args, evidence l (ch_name ch) (ch_owner ch) (ch_instance ch) (ch_kind ch) args) /\
  resolve_sandbox_runner_type st "" = Ok (ch_kind ch) /\
  (third_party (ch_owner ch) = true -> exists policy, validate_external_third_party_plugin_runtime_policy st m published = Ok policy).

Definition good_log (l : list event) : Prop := forall l1 ch l2, l = l1 ++ Requested ch :: l2 -> served l1 ch.

Lemma launched_last_app l ext name owner k args l2 :
  Forall (elsewhere name) ext -> launched_last l name owner k args l2 -> launched_last (l ++ ext) name owner k args (l2 ++ ext).
Proof. intros He [[l1 ->] H2]. split; [exists l1; by rewrite <- app_assoc|by apply Forall_app]. Qed.

Lemma evidence_app l ext name owner i k args :
  Forall (elsewhere name) ext -> evidence l name owner i k args -> evidence (l ++ ext) name owner i k args.
Proof.
  intros He (l2 & H1 & H2 & H3 & H4). exists (l2 ++ ext). split_and!; [by apply launched_last_app|done| |done].
  intros Hk. destruct (H3 Hk) as (v & ? & ?). exists v. split; [|done]. apply elem_of_app. by left.
Qed.

Lemma good_log_app l e : good_log l -> match e with Requested ch => served l ch | _ => True end -> good_log (l ++ [e]).
Proof.
  intros Hl He l1 ch l2 E. destruct (decide (l2 = [])) as [->|Hn].
  - apply app_inj_tail in E as [-> ->]. done.
  - destruct (exists_last Hn) as (l2' & x & ->). rewrite app_comm_cons, app_assoc in E. apply app_inj_tail in E as [E _]. by eapply Hl.
Qed.

(** The log is good and the host policed; nothing is said of its worker. *)
Definition loose (c : ctx) : Prop := good_log (c_log c) /\ policed (c_host c).
(** At rest the worker is admitted too. *)
Definition rest (c : ctx) : Prop := loose c /\ admitted (c_log c) (c_host c).

(** Same log, same identity of the host, same worker. *)
Definition similar (c c' : ctx) : Prop :=
  c_log c' = c_log c /\ h_name (c_host c') = h_name (c_host c) /\ h_owner (c_host c') = h_owner (c_host c) /\
  h_kind (c_host c') = h_kind (c_host c) /\ h_instance (c_host c') = h_instance (c_host c) /\ worker_of (c_host c') = worker_of (c_host c).

Definition stable (I : ctx -> Prop) : Prop := forall c c', similar c c' -> I c -> I c'.

Lemma similar_refl c : similar c c.
Proof. done. Qed.

Lemma stable_loose : stable loose.
Proof. intros c c' (Hl & Hn & Ho & Hk & Hi & Hw). unfold loose, policed. by rewrite Hl, Ho, Hk. Qed.

Lemma stable_rest : stable rest.
Proof.
  intros c c' H [H1 H2]. split; [by eapply stable_loose|]. destruct H as (Hl & Hn & Ho & Hk & Hi & Hw).
  unfold admitted in *. by rewrite Hw, Hl, Hn, Ho, Hk, Hi.
Qed.

Lemma admitted_app l ext h : Forall (elsewhere (h_name h)) ext -> admitted l h -> admitted (l ++ ext) h.
Proof. unfold admitted. destruct (worker_of h) as [[k args]|]; [|done]. intros Hl [? ?]. split; [done|]. by apply evidence_app. Qed.

Lemma note_loose e c : loose c -> match e with Requested ch => served (c_log c) ch | _ => True end -> loose (note e c).
Proof. intros [H1 H2] He. split; [by apply good_log_app|done]. Qed.

Lemma note_rest e c : rest c -> match e with Requested ch => served (c_log c) ch | Verified _ _ _ => True | Launched _ _ _ _ => False end -> rest (note e c).
Proof.
  intros [H1 H2] He. split; [apply note_loose; [done|by destruct e]|]. apply admitted_app; [|exact H2]. constructor; [by destruct e|done].
Qed.

(** An operation that only keeps [I] and moves to similar states. *)
Definition quiet {A} (op : M A) : Prop := forall c, similar c (op c).1.

Lemma quiet_hoare {A} (op : M A) I : quiet op -> stable I -> hoare I op (fun _ => I) I.
Proof. intros Hq Hs c Hc. specialize (Hq c). destruct (op c) as [c' [a|e]]; by eapply Hs. Qed.

Lemma quiet_ret {A} (a : A) : quiet (ret a).
Proof. done. Qed.
Lemma quiet_raise {A} t : quiet (@raise A t).
Proof. done. Qed.
Lemma quiet_read {A} (f : ctx -> A) : quiet (read f).
Proof. done. Qed.
Lemma similar_trans c c' c'' : similar c c' -> similar c' c'' -> similar c c''.
Proof. unfold similar. intros. naive_solver congruence. Qed.
Lemma quiet_bind {A B} (x : M A) (k : A -> M B) : quiet x -> (forall a, quiet (k a)) -> quiet (bind x k).
Proof.
  intros Hx Hk c. unfold bind. specialize (Hx c). destruct (x c) as [c' [a|e]]; [|done].
  eapply similar_trans; [exact Hx|apply Hk].
Qed.
Lemma quiet_modify f : (forall c, similar c (f c)) -> quiet (modify f).
Proof. intros H c. apply H. Qed.
Lemma quiet_lift {A} (o : option A) t : quiet (lift o t).
Proof. destruct o; done. Qed.

Lemma quiet_send_command : quiet (send_command env).
Proof.
  intros c. unfold send_command, bind, read. destruct (h_runner (c_host c)) as [r|] eqn:Er; [|done].
  destruct (rn_proc r) as [p|] eqn:Ep; [|done]. destruct (pr_exit p) eqn:Ee; [done|].
  assert (forall q x, similar c (with_host (set_runner (Some (set_proc (Some (Proc (pr_args p) x q)) r))) (elapse (rp_elapsed (env (c_tick c))) c))) as Hs.
  { intros q x. unfold similar, worker_of. simpl. rewrite Er, Ep. done. }
  unfold modify. simpl. destruct (rp_send _); [apply Hs|]. destruct (pr_queue p ++ _) as [|[v|] q]; simpl; [destruct (rp_exit _)| |]; apply Hs.
Qed.

Lemma quiet_response_of v : quiet (response_of v).
Proof. destruct v; done. Qed.

Lemma quiet_prepare rc : quiet (prepare_context render token rc).
Proof. intros c. done. Qed.

(** Kept by writing down a verification as well. *)
Definition noted (I : ctx -> Prop) : Prop := forall c name i v, I c -> I (note (Verified name i v) c).

Lemma noted_loose : noted loose.
Proof. intros c name i v H. by apply note_loose. Qed.
Lemma noted_rest : noted rest.
Proof. intros c name i v H. by apply note_rest. Qed.

Definition verified_in (v : verification) (c : ctx) : Prop :=
  exists l, c_log c = l ++ [Verified (h_name (c_host c)) (h_instance (c_host c)) v].

Lemma verify_spec I : stable I -> noted I ->
  hoare I (verify_post_launch_state render env) (fun v c => I c /\ verified_in v c) I.
Proof.
  intros Hs Hn. unfold verify_post_launch_state. apply hoare_read. intros h. destruct (h_runner h) eqn:Er.
  2:{ apply hoare_read. intros now. set (v := Verification _ _ _ _ _ _ _ _ _ _ _).
      eapply hoare_bind with (Q := fun _ c => I c /\ h_name (c_host c) = h_name h /\ h_instance (c_host c) = h_instance h).
      { apply hoare_modify. intros c [[Hc Eh] En]. rewrite <- Eh. split; [eapply Hs; [|exact Hc]; done|done]. }
      intros _. eapply hoare_bind with (Q := fun _ c => I c /\ verified_in v c).
      { apply hoare_modify. intros c (Hc & En & Ei). split; [by apply Hn|]. unfold verified_in. simpl. rewrite En, Ei. by exists (c_log c). }
      intros _. by apply hoare_ret. }
  apply hoare_read. intros rp. eapply hoare_conseq; [|by intros c [[H _] _]|by intros a c H; exact H|by intros c H; exact H].
  eapply hoare_bind; [apply quiet_hoare; [apply quiet_send_command|done]|]. intros v0.
  eapply hoare_bind; [apply quiet_hoare; [apply quiet_response_of|done]|]. intros response.
  destruct (negb _); [by apply hoare_raise|].
  eapply hoare_bind; [by apply hoare_lift|]. intros probe. apply hoare_read. intros h'. apply hoare_read. intros now. simpl.
  eapply hoare_bind; [apply hoare_lift; by intros c [[? _] _]|]. intros v.
  eapply hoare_bind with (Q := fun _ c => I c /\ h_name (c_host c) = h_name h' /\ h_instance (c_host c) = h_instance h').
  { apply hoare_modify. intros c [[Hc Eh] _]. rewrite <- Eh. split; [eapply Hs; [|exact Hc]; done|done]. }
  intros _. eapply hoare_bind with (Q := fun _ c => I c /\ verified_in v c).
  { apply hoare_modify. intros c (Hc & En & Ei). split; [by apply Hn|]. unfold verified_in. simpl. rewrite En, Ei. by exists (c_log c). }
  intros _. eapply hoare_bind with (Q := fun _ c => I c /\ verified_in v c); [apply hoare_modify|intros _; by apply hoare_ret].
  intros c [Hc Hv]. split; [|done]. eapply Hs; [|exact Hc]. done.
Qed.

Lemma verify_if_strong_spec I : stable I -> noted I ->
  hoare I (verify_if_strong render env)
    (fun _ c => I c /\ (h_kind (c_host c) = RUNNER_STRONG_SANDBOX_VM -> exists v, verified_in v c /\ vf_status v = "passed")) I.
Proof.
  intros Hs Hn. unfold verify_if_strong. apply hoare_read. intros h. case_bool_decide as Hk.
  - eapply hoare_conseq; [|by intros c [H _]; exact H|by intros a c H; exact H|by intros c H; exact H].
    eapply hoare_bind; [by apply verify_spec|]. intros v. unfold require_verified. case_bool_decide.
    + apply hoare_ret. intros c [Hc Hv]. split; [done|]. intros _. by exists v.
    + apply hoare_raise. by intros c [Hc _].
  - apply hoare_ret. intros c [Hc <-]. by split.
Qed.

(** *** Launching *)

Definition launched (c : ctx) : Prop :=
  loose c /\ exists args, worker_of (c_host c) = Some (h_kind (c_host c), args) /\
    (exists root, process_args fmt resolve st m (h_kind (c_host c)) root = Ok args) /\
    exists l2, launched_last (c_log c) (h_name (c_host c)) (h_owner (c_host c)) (h_kind (c_host c)) args l2.

Lemma stable_launched : stable launched.
Proof.
  intros c c' H [H1 (args & H2)]. split; [by eapply stable_loose|]. exists args.
  destruct H as (Hl & Hn & Ho & Hk & Hi & Hw). by rewrite Hw, Hl, Hn, Ho, Hk.
Qed.

Lemma noted_launched : noted launched.
Proof.
  intros c name i v [H1 (args & H2 & H3 & H4)]. split; [by apply note_loose|]. exists args. split_and!; [done|done|]. destruct H4 as [l2 H4].
  exists (l2 ++ [Verified name i v]). apply (launched_last_app _ [_]); [by repeat constructor|done].
Qed.

Lemma launched_loose c : launched c -> loose c.
Proof. by intros [? _]. Qed.

Definition fresh_runner (r : runner) (c : ctx) : Prop := loose c /\ rn_kind r = h_kind (c_host c).

Lemma spawn_spec r : hoare (fresh_runner r) (spawn_process env fmt resolve st m r) (fun _ => launched) loose.
Proof.
  unfold spawn_process. apply hoare_read. intros h. destruct (process_args _ _ _ _ _ _) as [args|why] eqn:Ea.
  2:{ apply hoare_raise. by intros c [[? _] _]. }
  set (r' := Runner (rn_kind r) (launch_attestation st (rn_kind r) args) None).
  eapply hoare_bind with (Q := fun _ c => loose c /\ rn_kind r = h_kind (c_host c) /\ h_name (c_host c) = h_name h /\ h_owner (c_host c) = h_owner h).
  { apply hoare_modify. intros c [[Hc Hk] Eh]. rewrite <- Eh. split_and!; [|done|done|done]. destruct Hc as [? [? ?]]. by split. }
  intros _. apply hoare_read. intros rp.
  eapply hoare_bind with (Q := fun _ c => loose c /\ rn_kind r = h_kind (c_host c) /\ h_name (c_host c) = h_name h /\ h_owner (c_host c) = h_owner h).
  { apply hoare_modify. intros c [(Hc & ?) _]. split; [|done]. by destruct Hc. }
  intros _. destruct (rp_spawn rp); [apply hoare_raise; by intros c [? _]|].
  eapply hoare_bind with (Q := fun _ c => loose c /\ rn_kind r = h_kind (c_host c) /\ h_name (c_host c) = h_name h /\ h_owner (c_host c) = h_owner h /\
                                          worker_of (c_host c) = Some (rn_kind r, args)).
  { apply hoare_modify. intros c (Hc & Hk & Hn & Ho). destruct Hc as [? [? ?]]. by split_and!. }
  intros _. apply hoare_modify. intros c (Hc & Hk & Hn & Ho & Hw). split; [by apply note_loose|]. exists args. simpl.
  rewrite <- Hk, Hn, Ho. split_and!; [done|by exists (h_root h)|]. exists []. split; [by exists (c_log c)|constructor].
Qed.

Lemma runner_start_spec rc r : hoare (fresh_runner r) (runner_start render token env fmt resolve st m rc r) (fun _ => launched) loose.
Proof.
  unfold runner_start. eapply hoare_bind with (Q := fun _ => fresh_runner r).
  { intros c [Hc Hk]. simpl. split; [|done]. by destruct Hc. }
  intros _. eapply hoare_bind; [apply spawn_spec|]. intros ?.
  assert (forall {A} (op : M A), quiet op -> hoare launched op (fun _ => launched) loose) as Hq.
  { intros A op Hop. eapply hoare_conseq; [apply quiet_hoare; [exact Hop|apply stable_launched]|done|done|apply launched_loose]. }
  eapply hoare_bind; [apply Hq, quiet_send_command|]. intros v.
  eapply hoare_bind; [apply Hq, quiet_response_of|]. intros response. apply Hq. by destruct (py_truth _).
Qed.

Definition working (c : ctx) : Prop := rest c /\ worker_of (c_host c) <> None.

Lemma launch_and_admit_spec rc r :
  hoare (fresh_runner r) (launch_and_admit render token env fmt resolve st m published rc r) (fun _ => working) loose.
Proof.
  unfold launch_and_admit. eapply hoare_bind; [apply runner_start_spec|]. intros response.
  apply hoare_read. intros h. eapply hoare_conseq with (P := launched); [|by intros c [? _]|by intros a c H; exact H|by intros c H; exact H].
  eapply hoare_bind; [apply hoare_lift, launched_loose|].
  intros prov. apply hoare_read. intros now.
  eapply hoare_bind with (Q := fun _ => launched).
  { apply hoare_modify. intros c [Hc _]. eapply stable_launched; [|exact Hc]. done. }
  intros _. eapply hoare_bind; [eapply hoare_conseq; [apply verify_if_strong_spec; [apply stable_launched|apply noted_launched]|
    by intros c H; exact H|by intros a c H; exact H|apply launched_loose]|].
  intros ?. unfold admit_hostile. apply hoare_read. intros h'. destruct (_ && _ && _) eqn:E.
  { intros c [[[? _] _] _]. done. }
  apply hoare_ret. intros c [[[Hl (args & Hw & Hr & l2 & Hin)] Hv] <-]. split; [|by rewrite Hw].
  split; [done|]. unfold admitted. rewrite Hw. split; [done|]. exists l2. split_and!; [done|done| |].
  - intros Hk. destruct (Hv Hk) as (v & [l El] & ?). exists v. split; [|done]. destruct Hin as [[l1 E1] _]. rewrite E1 in El.
    destruct (decide (l2 = [])) as [->|Hne]; [by apply app_inj_tail in El as [_ ?]|].
    destruct (exists_last Hne) as (l2' & x & ->). rewrite app_comm_cons, app_assoc in El. apply app_inj_tail in El as [_ ->]. set_solver.
  - intros Hh. unfold third_party in Hh. rewrite Hh in E. simpl in E. apply bool_decide_eq_false, dec_stable in E. by do 2 eexists.
Qed.

Lemma rest_no_worker c : loose c -> worker_of (c_host c) = None -> rest c.
Proof. intros H1 H2. split; [done|]. unfold admitted. by rewrite H2. Qed.

Lemma loose_map (f : host -> host) c : h_owner (f (c_host c)) = h_owner (c_host c) -> h_kind (f (c_host c)) = h_kind (c_host c) ->
  loose c -> loose (with_host f c).
Proof. intros Ho Hk [H1 [H2 H3]]. split; [done|]. unfold policed. simpl. by rewrite Ho, Hk. Qed.

(** A terminated record has no worker. *)
Lemma terminate_spec force c : loose c ->
  let '(c', r) := terminate env force c in loose c' /\ worker_of (c_host c') = None /\ r = Ok tt.
Proof.
  intros Hc. unfold terminate, bind, read. destruct (h_runner (c_host c)) as [r|] eqn:Er.
  2:{ simpl. split_and!; [done| |done]. unfold worker_of. by rewrite Er. }
  unfold runner_shutdown. destruct (rn_proc r) as [p|] eqn:Ep; simpl.
  - set (c1 := if negb force && bool_decide (pr_exit p = None) then (send_command env c).1 else c). assert (loose c1) as H1.
    { unfold c1. destruct (negb force && _); [|done]. eapply stable_loose; [apply quiet_send_command|done]. }
    split_and!; [|done|done]. by apply loose_map; [..|apply loose_map].
  - split_and!; [|done|done]. by apply loose_map.
Qed.

Lemma start_record_spec rc : hoare rest (start_record render token env fmt resolve st m published rc) (fun _ => working) rest.
Proof.
  unfold start_record, assert_not_quarantined. eapply hoare_bind with (Q := fun _ => rest).
  { apply hoare_read. intros h. apply hoare_read. intros now. destruct (quarantine_active now h);
      [apply hoare_raise|apply hoare_ret]; by intros c [[? _] _]. }
  intros _ c Hc. set (r := Runner _ _ _). set (c1 := draw _).
  assert (fresh_runner r c1) as H1.
  { split; [|done]. destruct Hc as [Hc _]. unfold c1. destruct Hc as [? [? ?]]. by split. }
  pose proof (launch_and_admit_spec rc r c1 H1) as H2. destruct (launch_and_admit _ _ _ _ _ _ _ _ _ _ _) as [c2 [a|e]]; [done|].
  cbv zeta. set (c3 := with_host _ c2). assert (loose c3) as H3 by (by apply loose_map).
  pose proof (terminate_spec true c3 H3) as H4. destruct (terminate env true c3) as [c4 r4]. destruct H4 as (? & ? & _). by apply rest_no_worker.
Qed.

(** A failed launch leaves no worker. *)
Lemma start_record_failed rc c : rest c -> running (c_host c) = false ->
  match start_record render token env fmt resolve st m published rc c with (c', Err _) => running (c_host c') = false | _ => True end.
Proof.
  intros Hc Hr. unfold start_record, assert_not_quarantined, bind, read. destruct (quarantine_active _ _); [done|]. simpl.
  set (r := Runner _ _ _). set (c1 := draw _).
  assert (fresh_runner r c1) as H1.
  { split; [|done]. destruct Hc as [Hc _]. unfold c1. destruct Hc as [? [? ?]]. by split. }
  pose proof (launch_and_admit_spec rc r c1 H1) as H2. destruct (launch_and_admit _ _ _ _ _ _ _ _ _ _ _) as [c2 [a|e]]; [done|].
  cbv zeta. set (c3 := with_host _ c2). assert (loose c3) as H3 by (by apply loose_map).
  pose proof (terminate_spec true c3 H3) as H4. destruct (terminate env true c3) as [c4 r4]. destruct H4 as (_ & Hw & _). simpl.
  unfold running, worker_of, is_running in *. destruct (h_runner (c_host c4)) as [r'|]; [|done]. by destruct (rn_proc r').
Qed.

Lemma working_rest c : working c -> rest c.
Proof. by intros [? _]. Qed.

Lemma similar_map (f : host -> host) c :
  (h_name (f (c_host c)) = h_name (c_host c) /\ h_owner (f (c_host c)) = h_owner (c_host c) /\ h_kind (f (c_host c)) = h_kind (c_host c) /\
   h_instance (f (c_host c)) = h_instance (c_host c) /\ h_runner (f (c_host c)) = h_runner (c_host c)) -> similar c (with_host f c).
Proof. intros (? & ? & ? & ? & Hr). unfold similar, worker_of. simpl. by rewrite Hr. Qed.

Lemma quiet_mark_crash : quiet mark_crash_if_dead.
Proof.
  intros c. unfold mark_crash_if_dead, modify. simpl. destruct (h_runner (c_host c)) as [r|]; [|done].
  destruct (returncode r); [|done]. by apply similar_map.
Qed.

Lemma quiet_count_restart : quiet (modify (with_host count_restart)).
Proof. intros c. by apply similar_map. Qed.

Lemma ensure_running_spec rc : hoare rest (ensure_running render token env fmt resolve st m published rc) (fun _ => working) rest.
Proof.
  unfold ensure_running. apply hoare_read. intros h. destruct (running h) eqn:E.
  - apply hoare_ret. intros c [Hc Eh]. split; [done|]. rewrite Eh. unfold running, worker_of, is_running in *.
    destruct (h_runner h) as [r|]; [|done]. by destruct (rn_proc r).
  - eapply hoare_conseq with (P := rest); [|by intros c [? _]|by intros a c H; exact H|by intros c H; exact H].
    eapply hoare_bind with (Q := fun _ => rest); [apply quiet_hoare; [apply quiet_mark_crash|apply stable_rest]|]. intros _.
    eapply hoare_bind with (Q := fun _ => rest); [apply quiet_hoare; [apply quiet_count_restart|apply stable_rest]|]. intros _.
    apply start_record_spec.
Qed.

(** A request is sent for the worker the host has. *)
Lemma ask_worker_spec rc : hoare working (ask_worker render token env rc) (fun _ => rest) rest.
Proof.
  unfold ask_worker. eapply hoare_bind with
    (Q := fun ch c => working c /\ ch_name ch = h_name (c_host c) /\ ch_owner ch = h_owner (c_host c) /\ ch_kind ch = h_kind (c_host c) /\
                      ch_instance ch = h_instance (c_host c)).
  { intros c [Hc Hw]. simpl. split_and!; try done. }
  intros ch. eapply hoare_bind with (Q := fun _ => rest).
  { apply hoare_modify. intros c ([Hr Hw] & Hn & Ho & Hk & Hi). apply note_rest; [done|].
    destruct Hr as [[_ [Hp1 Hp2]] Ha]. unfold admitted in Ha. destruct (worker_of (c_host c)) as [[k args]|]; [|done].
    destruct Ha as [-> Ha]. unfold served. rewrite Hn, Ho, Hk, Hi. split_and!; [by exists args|done|done]. }
  intros _.
  eapply hoare_bind; [apply quiet_hoare; [apply quiet_send_command|apply stable_rest]|]. intros v.
  eapply hoare_bind; [apply quiet_hoare; [apply quiet_response_of|apply stable_rest]|]. intros response.
  destruct (negb _); [by apply hoare_raise|]. destruct (py_get "result" response); try by apply hoare_raise.
  eapply hoare_bind; [apply (verify_if_strong_spec rest); [apply stable_rest|apply noted_rest]|]. intros ?.
  eapply hoare_bind with (Q := fun _ => rest); [|intros _; by apply hoare_ret].
  apply hoare_modify. intros c [Hc _]. eapply stable_rest; [|exact Hc]. by apply similar_map.
Qed.

Lemma mark_request_failure_rest e c : rest c -> rest (mark_request_failure e c).1.
Proof. intros Hc. eapply stable_rest; [|exact Hc]. by apply similar_map. Qed.

Lemma terminate_hoare force : hoare rest (terminate env force) (fun _ => rest) rest.
Proof.
  intros c [Hc _]. pose proof (terminate_spec force c Hc) as H. destruct (terminate env force c) as [c' r].
  destruct H as (H1 & H2 & ->). by apply rest_no_worker.
Qed.

Lemma serve_spec rc retries : hoare rest (serve render token env fmt resolve st m published rc retries) (fun _ => rest) rest.
Proof.
  induction retries as [|n IH]; simpl; (eapply hoare_bind; [apply ensure_running_spec|]); intros ? c Hc; cbv beta in Hc;
    pose proof (ask_worker_spec rc c Hc) as H1; destruct (ask_worker _ _ _ _ c) as [c1 [v|e]]; try done;
    pose proof (mark_request_failure_rest e c1 H1) as H2; cbv zeta; try done.
  destruct (quarantine_active _ _); [done|].
  assert (hoare rest (modify (with_host count_restart) ;; terminate env true ;; start_record render token env fmt resolve st m published rc ;;
                      serve render token env fmt resolve st m published rc n) (fun _ => rest) rest) as H; [|by apply H].
  eapply hoare_bind with (Q := fun _ => rest); [apply quiet_hoare; [apply quiet_count_restart|apply stable_rest]|]. intros _.
  eapply hoare_bind with (Q := fun _ => rest); [apply terminate_hoare|]. intros _.
  eapply hoare_bind with (Q := fun _ => rest); [|intros _; apply IH].
  eapply hoare_conseq; [apply start_record_spec|done|intros ??; apply working_rest|done].
Qed.

Lemma not_quarantined_spec : hoare rest assert_not_quarantined (fun _ => rest) rest.
Proof.
  unfold assert_not_quarantined. apply hoare_read. intros h. apply hoare_read. intros now.
  destruct (quarantine_active now h); [apply hoare_raise|apply hoare_ret]; by intros c [[? _] _].
Qed.

Lemma execute_record_spec rc : hoare rest (execute_record render token env fmt resolve st m published rc) (fun _ => rest) rest.
Proof.
  unfold execute_record. eapply hoare_bind with (Q := fun _ => rest); [apply not_quarantined_spec|]. intros _.
  eapply hoare_bind with (Q := fun _ => rest).
  { apply hoare_read. intros h. apply hoare_read. intros now. destruct (circuit_open now h); [apply hoare_raise|apply hoare_ret]; by intros c [[? _] _]. }
  intros _. apply serve_spec.
Qed.

Lemma heartbeat_record_spec : hoare rest (heartbeat_record render env) (fun _ => rest) rest.
Proof.
  unfold heartbeat_record. apply hoare_read. intros h. apply hoare_read. intros now. destruct (_ || _).
  { apply hoare_ret. by intros c [[? _] _]. }
  destruct (h_runner h) as [r|] eqn:Er.
  2:{ apply hoare_modify. intros c [[Hc Eh] _]. eapply stable_rest; [|exact Hc]. by apply similar_map. }
  destruct (negb (is_running r)).
  { apply hoare_modify. intros c [[[Hc _] Eh] _]. apply rest_no_worker; [by apply loose_map|done]. }
  intros c [[Hc _] _].
  match goal with |- context [(bind (send_command env) ?k) c] => assert (hoare rest (bind (send_command env) k) (fun _ => rest) rest) as Hb end.
  { eapply hoare_bind; [apply quiet_hoare; [apply quiet_send_command|apply stable_rest]|]. intros v.
    eapply hoare_bind; [apply quiet_hoare; [apply quiet_response_of|apply stable_rest]|]. intros response.
    eapply hoare_bind with (Q := fun _ => rest); [destruct (py_truth _); [by apply hoare_ret|by apply hoare_raise]|]. intros _.
    eapply hoare_bind with (Q := fun _ => rest).
    { apply hoare_modify. intros c' Hc'. eapply stable_rest; [|exact Hc']. by apply similar_map. }
    intros _. eapply hoare_conseq; [apply (verify_if_strong_spec rest); [apply stable_rest|apply noted_rest]|done|by intros a c' [? _]|done]. }
  specialize (Hb c Hc). destruct (bind _ _ c) as [c1 [a|e]]; [done|]. eapply stable_rest; [|exact Hb]. by apply similar_map.
Qed.

Lemma restart_record_spec rc : hoare rest (restart_record render token env fmt resolve st m published rc) (fun _ => rest) rest.
Proof.
  unfold restart_record. eapply hoare_bind with (Q := fun _ => rest); [apply not_quarantined_spec|]. intros _.
  eapply hoare_bind with (Q := fun _ => rest).
  { apply hoare_modify. intros c Hc. eapply stable_rest; [|exact Hc]. by apply similar_map. }
  intros _. eapply hoare_bind with (Q := fun _ => rest); [apply quiet_hoare; [apply quiet_count_restart|apply stable_rest]|]. intros _.
  eapply hoare_bind with (Q := fun _ => rest); [apply terminate_hoare|]. intros _.
  eapply hoare_conseq; [apply start_record_spec|done|intros ??; apply working_rest|done].
Qed.

(** What a start may be asked for: the resolved runner, and the policy for third parties. *)
Definition allowed (cfg : host_config) (k : runner_kind) : Prop :=
  resolve_sandbox_runner_type st "" = Ok k /\
  (third_party (hc_owner cfg) = true -> exists policy, validate_external_third_party_plugin_runtime_policy st m published = Ok policy).

Lemma start_under_lock_spec cfg k rc : allowed cfg k ->
  hoare rest (start_under_lock render token env fmt resolve st m published cfg k rc) (fun _ => rest) rest.
Proof.
  intros Hcfg. unfold start_under_lock.
  eapply hoare_bind with (Q := fun _ => rest).
  { apply hoare_modify. intros c Hc. destruct (_ && _); [|done]. eapply stable_rest; [|exact Hc]. by apply similar_map. }
  intros _. eapply hoare_bind with (Q := fun _ => rest); [apply not_quarantined_spec|]. intros _.
  apply hoare_read. intros h. set (changed := config_changed h cfg k).
  eapply hoare_bind with (Q := fun _ c => loose c /\ (changed = false \/ h_runner h = None -> rest c) /\ h_runner (c_host c) = h_runner h).
  { destruct changed.
    - apply hoare_modify. intros c [[[Hl Hp] Ha] Eh]. assert (loose (with_host (configure (hc_handler cfg) (hc_root cfg) (hc_owner cfg) (hc_caps cfg)
        (hc_access cfg) k (hc_provenance cfg)) c)) as Hn by (by split).
      split_and!; [done| |simpl; by rewrite Eh]. intros [?|Hr]; [done|]. apply rest_no_worker; [done|]. unfold worker_of. simpl. by rewrite Eh, Hr.
    - apply hoare_ret. intros c [Hc Eh]. split_and!; [by destruct Hc|done|by rewrite Eh]. }
  intros _. eapply hoare_bind with (Q := fun _ => rest).
  { destruct (_ && _) eqn:E.
    - intros c (Hl & _ & _). unfold bind, modify. cbn [fst snd].
      pose proof (terminate_spec false (with_host count_restart c)) as Ht. destruct (terminate env false _) as [c' r].
      destruct Ht as (H1 & H2 & ->); [by apply loose_map|]. by apply rest_no_worker.
    - apply hoare_ret. intros c (_ & Hr & _). apply Hr. apply andb_false_iff in E as [E|E]; [left|right].
      + by apply orb_false_iff in E as [_ E].
      + by apply bool_decide_eq_false, dec_stable in E. }
  intros _. apply hoare_read. intros h'. destruct (running h').
  { apply hoare_ret. by intros c [? _]. }
  eapply hoare_conseq with (P := rest); [|by intros c [? _]|by intros a c H; exact H|by intros c H; exact H].
  eapply hoare_bind with (Q := fun _ => rest).
  { destruct (match h_runner h' with Some _ => _ | None => _ end); [|by apply hoare_ret].
    eapply hoare_bind with (Q := fun _ => rest); [apply quiet_hoare; [apply quiet_mark_crash|apply stable_rest]|]. intros _.
    apply quiet_hoare; [apply quiet_count_restart|apply stable_rest]. }
  intros _. eapply hoare_conseq; [apply start_record_spec|done|intros ??; apply working_rest|done].
Qed.

(** *** What an operation adds to the log *)

Definition is_request (e : event) : bool := match e with Requested _ => true | _ => false end.
Definition is_launch (e : event) : bool := match e with Launched _ _ _ _ => true | _ => false end.
Definition count (f : event -> bool) (l : list event) : nat := length (List.filter f l).

Lemma count_app f l l' : count f (l ++ l') = (count f l + count f l')%nat.
Proof. unfold count. by rewrite List.filter_app, length_app. Qed.

(** At most [a] requests and [b] launches, these of workers of this host. *)
Definition emits {A} (a b : nat) (op : M A) : Prop :=
  forall c, h_name (c_host (op c).1) = h_name (c_host c) /\
    exists l, c_log (op c).1 = c_log c ++ l /\ (count is_request l <= a)%nat /\ (count is_launch l <= b)%nat /\ Forall (mine (h_name (c_host c))) l.

Lemma nothing_new a b name (l l' : list event) :
  l' = l -> exists ext, l' = l ++ ext /\ (count is_request ext <= a)%nat /\ (count is_launch ext <= b)%nat /\ Forall (mine name) ext.
Proof. intros ->. exists []. rewrite app_nil_r. unfold count. simpl. split_and!; [done|lia|lia|done]. Qed.

Lemma emits_quiet {A} (op : M A) : quiet op -> emits 0 0 op.
Proof. intros H c. destruct (H c) as (E & -> & _). split; [done|]. by apply nothing_new. Qed.

Lemma emits_weaken {A} a b a' b' (op : M A) : emits a b op -> (a <= a')%nat -> (b <= b')%nat -> emits a' b' op.
Proof. intros H ?? c. destruct (H c) as (? & l & ? & ? & ? & ?). split; [done|]. exists l. split_and!; [done|lia|lia|done]. Qed.

Lemma emits_bind {A B} a b a' b' (x : M A) (k : A -> M B) : emits a b x -> (forall y, emits a' b' (k y)) -> emits (a + a') (b + b') (bind x k).
Proof.
  intros Hx Hk c. unfold bind. destruct (Hx c) as (Hn & l & E & H1 & H2 & H3). destruct (x c) as [c' [y|e]]; simpl in *.
  - destruct (Hk y c') as (Hn' & l' & E' & H1' & H2' & H3'). rewrite Hn in *. split; [done|]. exists (l ++ l'). rewrite !count_app, E', E, app_assoc.
    repeat split; [lia|lia|by apply Forall_app].
  - split; [done|]. exists l. repeat split; [done|lia|lia|done].
Qed.

Lemma emits_note e : is_launch e = false -> emits (count is_request [e]) 0 (modify (note e)).
Proof. intros He c. split; [done|]. exists [e]. split_and!; [done|lia|destruct e; simpl in *; done || (unfold count; simpl; lia)|constructor; by destruct e]. Qed.

Lemma emits_modify f : (forall c, c_log (f c) = c_log c /\ h_name (c_host (f c)) = h_name (c_host c)) -> emits 0 0 (modify f).
Proof. intros H c. destruct (H c) as [H1 H2]. split; [done|]. by apply nothing_new. Qed.

Lemma emits_seq {A B} a b (x : M A) (k : A -> M B) : emits 0 0 x -> (forall y, emits a b (k y)) -> emits a b (bind x k).
Proof. intros. by apply (emits_bind 0 0 a b). Qed.

Lemma emits_none {A} a b (op : M A) : emits 0 0 op -> emits a b op.
Proof. intros. eapply emits_weaken; [done|lia|lia]. Qed.

#[local] Hint Resolve quiet_ret quiet_raise quiet_read quiet_lift quiet_send_command quiet_response_of quiet_prepare
  quiet_mark_crash quiet_count_restart : core.

Ltac emit := repeat
  lazymatch goal with
  | |- emits _ _ (bind _ _) => apply emits_seq; [|intros ?]
  | |- emits _ _ (modify (note _)) => apply emits_note; done
  | |- emits _ _ (modify _) => first [apply emits_modify; done | apply emits_quiet; solve [auto]]
  | |- emits _ _ _ => apply emits_quiet; solve [auto]
  end.

Lemma verify_emits : emits 0 0 (verify_post_launch_state render env).
Proof.
  unfold verify_post_launch_state. emit. destruct (h_runner y).
  - emit. destruct (negb _); emit.
  - emit.
Qed.

Lemma verify_if_strong_emits : emits 0 0 (verify_if_strong render env).
Proof.
  unfold verify_if_strong. emit. case_bool_decide; emit; [apply verify_emits|]. unfold require_verified. case_bool_decide; emit.
Qed.

Lemma terminate_emits force : emits 0 0 (terminate env force).
Proof.
  unfold terminate. emit. destruct (h_runner y) as [r|]; emit. unfold runner_shutdown. destruct (rn_proc r); emit.
  intros c. simpl. destruct (quiet_send_command c) as (El & En & _).
  split; [by destruct (_ && _)|]. apply nothing_new. by destruct (_ && _).
Qed.

Lemma launch_emits rc r : emits 0 1 (launch_and_admit render token env fmt resolve st m published rc r).
Proof.
  unfold launch_and_admit, runner_start. apply (emits_bind 0 1 0 0).
  - apply emits_seq; [emit|intros ?]. apply (emits_bind 0 1 0 0).
    + intros c. unfold spawn_process, bind, read, modify. simpl.
      destruct (process_args _ _ _ _ _ _) as [args|]; [|split; [done|by apply nothing_new]].
      simpl. destruct (rp_spawn _); simpl; (split; [done|]); [by apply nothing_new|].
      eexists [_]. split; [done|]. unfold count. simpl. split_and!; [lia|lia|by repeat constructor].
    + intros ?. emit. destruct (py_truth _); emit.
  - intros response. emit; [apply verify_if_strong_emits|]. unfold admit_hostile. emit. destruct (_ && _ && _); [|emit].
    intros c. split; [done|by apply nothing_new].
Qed.

Lemma start_record_emits rc : emits 0 1 (start_record render token env fmt resolve st m published rc).
Proof.
  unfold start_record, assert_not_quarantined. emit; [destruct (quarantine_active _ _); emit|].
  intros c. destruct (launch_emits rc (Runner (h_kind (c_host c)) default_launch_attestation None)
    (draw (with_host (set_launching (c_now c) (token (c_tokens c)) (Runner (h_kind (c_host c)) default_launch_attestation None)) c)))
    as (Hn & l & E & H1 & H2 & H3). cbn [c_host draw with_host h_name set_launching] in Hn, H3.
  cbv zeta. destruct (launch_and_admit _ _ _ _ _ _ _ _ _ _ _) as [c2 [a|e]]; cbn [fst] in E, Hn |- *; [split; [done|by exists l]|].
  match goal with |- context [terminate env true ?x] => destruct (terminate_emits true x) as (Hn' & l' & E' & H1' & H2' & H3') end.
  cbn [c_host with_host h_name mark_failure] in Hn', H3'. split; [congruence|].
  exists (l ++ l'). rewrite E', !count_app, app_assoc. cbn [c_log with_host]. rewrite E.
  split_and!; [done|lia|lia|]. apply Forall_app. split; [done|by rewrite <- Hn].
Qed.

Lemma ensure_running_emits rc : emits 0 1 (ensure_running render token env fmt resolve st m published rc).
Proof. unfold ensure_running. emit. destruct (running y); [apply emits_none; emit|]. emit. apply start_record_emits. Qed.

Lemma ask_worker_emits rc : emits 1 0 (ask_worker render token env rc).
Proof.
  unfold ask_worker. apply emits_seq; [emit|intros ?]. apply (emits_bind 1 0 0 0); [by apply emits_note|]. intros _. emit.
  destruct (negb _); [emit|]. destruct (py_get "result" _); emit. apply verify_if_strong_emits.
Qed.

Lemma serve_emits rc n : emits (n + 1) (2 * n + 1) (serve render token env fmt resolve st m published rc n).
Proof.
  induction n as [|n IH].
  - simpl. apply (emits_bind 0 1 1 0); [apply ensure_running_emits|]. intros _ c. destruct (ask_worker_emits rc c) as (Hn & l & E & H).
    destruct (ask_worker _ _ _ _ c) as [c1 [v|e]]; (split; [done|by exists l]).
  - apply emits_weaken with (a := (0 + (1 + (n + 1)))%nat) (b := (1 + (2 * n + 2))%nat); [|lia|lia].
    cbn [serve]. apply emits_bind; [apply ensure_running_emits|]. intros _ c. destruct (ask_worker_emits rc c) as (Hn & l & E & H1 & H2 & H3).
    destruct (ask_worker _ _ _ _ c) as [c1 [v|e]]; [split; [done|]; exists l; split_and!; [done|lia|lia|done]|]. cbv zeta.
    set (c2 := (mark_request_failure e c1).1). assert (c_log c2 = c_log c ++ l) as E2 by done. assert (h_name (c_host c2) = h_name (c_host c)) as Hn2 by done.
    destruct (quarantine_active _ _); [split; [done|]; exists l; split_and!; [done|lia|lia|done]|].
    assert (emits (n + 1) (1 + (2 * n + 1)) (modify (with_host count_restart) ;; terminate env true ;;
      start_record render token env fmt resolve st m published rc ;; serve render token env fmt resolve st m published rc n)) as H.
    { apply emits_seq; [emit|intros ?]. apply emits_seq; [apply terminate_emits|intros ?]. apply (emits_bind 0 1 (n + 1) (2 * n + 1)); [apply start_record_emits|]. intros _. apply IH. }
    destruct (H c2) as (Hn' & l' & E' & H1' & H2' & H3'). split; [congruence|]. exists (l ++ l'). rewrite E', E2, !count_app, app_assoc.
    split_and!; [done|lia|lia|]. apply Forall_app. split; [done|by rewrite <- Hn2].
Qed.

Lemma execute_record_emits rc : emits 2 3 (execute_record render token env fmt resolve st m published rc).
Proof.
  unfold execute_record, assert_not_quarantined, assert_not_in_backoff. apply emits_seq; [emit; destruct (quarantine_active _ _); emit|intros ?].
  apply emits_seq; [emit; destruct (circuit_open _ _); emit|intros ?]. apply (serve_emits rc 1).
Qed.

Lemma heartbeat_emits : emits 0 0 (heartbeat_record render env).
Proof.
  unfold heartbeat_record. emit. destruct (_ || _); [emit|]. destruct (h_runner y) as [r|]; [|emit]. destruct (negb _); [emit|].
  intros c. match goal with |- context [(bind (send_command env) ?k) c] => assert (emits 0 0 (bind (send_command env) k)) as H end.
  { emit; [destruct (py_truth _); emit|]. apply verify_if_strong_emits. }
  destruct (H c) as (Hn & l & E & H1). destruct (bind _ _ c) as [c1 [a|e]]; (split; [done|by exists l]).
Qed.

Lemma restart_emits rc : emits 0 1 (restart_record render token env fmt resolve st m published rc).
Proof.
  unfold restart_record, assert_not_quarantined. apply emits_seq; [emit; destruct (quarantine_active _ _); emit|intros ?].
  do 2 (apply emits_seq; [emit|intros ?]). apply emits_seq; [apply terminate_emits|intros ?]. apply start_record_emits.
Qed.

Lemma start_under_lock_emits cfg k rc : emits 0 1 (start_under_lock render token env fmt resolve st m published cfg k rc).
Proof.
  unfold start_under_lock, assert_not_quarantined. apply emits_seq; [apply emits_modify; intros c; by destruct (hc_force cfg && _)|intros ?].
  apply emits_seq; [emit; destruct (quarantine_active _ _); emit|intros ?]. apply emits_seq; [emit|intros h]. cbv zeta.
  apply emits_seq; [destruct (config_changed h cfg k); emit|intros ?].
  apply emits_seq; [destruct (_ && _); emit; apply terminate_emits|intros ?]. apply emits_seq; [emit|intros h'].
  destruct (running h'); [apply emits_none; emit|].
  apply emits_seq; [destruct (match h_runner h' with Some _ => _ | None => _ end); emit|intros ?]. apply start_record_emits.
Qed.

(** *** Worlds *)

Definition inv (w : world) : Prop :=
  good_log (w_log w) /\ forall name h, dict_get name (w_hosts w) = Some h -> h_name h = name /\ policed h /\ admitted (w_log w) h.

Lemma inv_on_record {A} name h (op : M A) a b w :
  inv w -> h_name h = name -> policed h -> admitted (w_log w) h -> hoare rest op (fun _ => rest) rest ->
  emits a b op -> inv (on_record name h op w).1.
Proof.
  intros [Hl Hh] Hname Hp Ha Hop Hgrow. unfold on_record. set (c0 := Ctx _ _ _ _ _ _).
  assert (rest c0) as H0 by done. specialize (Hop c0 H0). destruct (Hgrow c0) as (Hn & l & El & _ & _ & Hm).
  simpl in Hm. rewrite Hname in Hm. destruct (op c0) as [c r]. simpl in El, Hn |- *. assert (rest c) as [[H1 H2] H3] by (destruct r; exact Hop). split; [done|].
  simpl. intros name' h' E. destruct (decide (name' = name)) as [->|Hne].
  - rewrite dict_get_set_eq in E. injection E as <-. split_and!; [congruence|done|done].
  - rewrite dict_get_set_ne in E by done. destruct (Hh _ _ E) as (Hn' & ? & ?). split_and!; [done|done|]. rewrite El. apply admitted_app; [|done].
    eapply Forall_impl; [exact Hm|]. intros [n ? ? ?| |]; try done. simpl. intros ->. congruence.
Qed.

Lemma policed_new name cfg k : allowed cfg k ->
  policed (new_host name (hc_handler cfg) (hc_root cfg) (hc_owner cfg) (hc_caps cfg) (hc_access cfg) k (hc_provenance cfg)).
Proof. intros [? ?]. by split. Qed.

Lemma admitted_on_proc l (f : proc -> proc) h : (forall p, pr_args (f p) = pr_args p) ->
  h_name (on_proc f h) = h_name h /\ (policed h -> policed (on_proc f h)) /\ (admitted l h -> admitted l (on_proc f h)).
Proof.
  intros Hf. unfold on_proc. destruct (h_runner h) as [r|] eqn:Er; [|done]. destruct (rn_proc r) as [p|] eqn:Ep; [|done].
  case_bool_decide; [|done]. split_and!; [done|done|]. unfold admitted, worker_of. simpl. rewrite Er, Ep. simpl. by rewrite Hf.
Qed.

Lemma inv_on_host name f w : inv w ->
  (forall h, h_name (f h) = h_name h /\ (policed h -> policed (f h)) /\ (admitted (w_log w) h -> admitted (w_log w) (f h))) -> inv (on_host name f w).
Proof.
  intros [Hl Hh] Hf. unfold on_host. destruct (dict_get name (w_hosts w)) as [h|] eqn:E; [|done]. split; [done|]. simpl.
  intros name' h' E'. destruct (decide (name' = name)) as [->|Hne].
  - rewrite dict_get_set_eq in E'. simplify_eq. destruct (Hh _ _ E) as (? & ? & ?), (Hf h) as (? & ? & ?). split_and!; [congruence|auto|auto].
  - rewrite dict_get_set_ne in E' by done. by apply Hh in E'.
Qed.

Lemma dict_get_del_Some (name name' : string) (d : list (string * host)) h :
  dict_wf d -> dict_get name' (dict_del name d) = Some h -> dict_get name' d = Some h.
Proof.
  intros Hwf H. destruct (decide (name' = name)) as [->|Hne]; [by rewrite dict_get_del_eq in H|by rewrite dict_get_del_ne in H].
Qed.

Lemma inv_start name cfg rc w : inv w -> inv (start_plugin_host render token env fmt resolve st m published name (registration cfg) rc w).1.
Proof.
  intros Hw. unfold start_plugin_host.
  assert (forall k, resolve_sandbox_runner_type st (hc_runner (registration cfg)) = Ok k ->
          (if bool_decide (hc_owner (registration cfg) = "external-third-party")
           then result_bind (validate_external_third_party_plugin_runtime_policy st m published) (fun _ => Ok tt) else Ok tt) = Ok tt ->
          allowed (registration cfg) k) as Hall.
  { intros k Hk Hp. split; [exact Hk|]. unfold third_party. intros H%bool_decide_eq_true. rewrite bool_decide_eq_true_2 in Hp by done.
    destruct (validate_external_third_party_plugin_runtime_policy st m published) as [policy|]; [by exists policy|done]. }
  destruct (if bool_decide _ then _ else _) as [[]|] eqn:Ep; [|done].
  destruct (resolve_sandbox_runner_type st _) as [k|] eqn:Ek; [|done].
  specialize (Hall k eq_refl eq_refl). destruct (dict_get name (w_hosts w)) as [h|] eqn:E.
  - destruct (proj2 Hw _ _ E) as (? & ? & ?). eapply inv_on_record; [done|done|done|done|by apply start_under_lock_spec|apply start_under_lock_emits].
  - eapply inv_on_record; [done|done|by apply policed_new|done|by apply start_under_lock_spec|apply start_under_lock_emits].
Qed.

Lemma inv_step a w : inv w -> dict_wf (w_hosts w) ->
  inv (step render token env fmt resolve st m published a w) /\ dict_wf (w_hosts (step render token env fmt resolve st m published a w)).
Proof.
  assert (forall A name h (op : M A) w', dict_wf (w_hosts w') -> dict_wf (w_hosts (on_record name h op w').1)) as Hset.
  { intros A name h op w' H. unfold on_record. destruct (op _) as [c r]. by apply dict_set_wf. }
  intros Hw Hwf. destruct a as [name cfg rc|name rc|name|name rc|name remove|name code|name lines|d]; simpl.
  - split; [by apply inv_start|]. unfold start_plugin_host. destruct (if bool_decide _ then _ else _); [|done].
    destruct (resolve_sandbox_runner_type _ _); [|done]. by apply Hset.
  - unfold execute_plugin_host. destruct (dict_get name _) as [h|] eqn:E; [|done]. destruct (proj2 Hw _ _ E) as (? & ? & ?). split; [|by apply Hset].
    eapply inv_on_record; [done|done|done|done|apply execute_record_spec|apply execute_record_emits].
  - unfold heartbeat_plugin_host. destruct (dict_get name _) as [h|] eqn:E; [|done]. destruct (proj2 Hw _ _ E) as (? & ? & ?). split; [|by apply Hset].
    eapply inv_on_record; [done|done|done|done|apply heartbeat_record_spec|apply heartbeat_emits].
  - unfold restart_plugin_host. destruct (dict_get name _) as [h|] eqn:E; [|done]. destruct (proj2 Hw _ _ E) as (? & ? & ?). split; [|by apply Hset].
    eapply inv_on_record; [done|done|done|done|apply restart_record_spec|apply restart_emits].
  - unfold shutdown_plugin_host. destruct (dict_get name _) as [h|] eqn:E; [|done]. destruct (proj2 Hw _ _ E) as (? & ? & ?).
    assert (inv (on_record name h (terminate env false) w).1) as Hi.
    { eapply inv_on_record; [done|done|done|done|apply terminate_hoare|apply terminate_emits]. }
    cbn [fst]. destruct remove; [|split; [done|by apply Hset]]. split; [|apply (dict_del_wf name); by apply Hset]. split; [apply Hi|].
    intros name' h' E'. apply (proj2 Hi name' h'). eapply dict_get_del_Some; [by apply Hset|exact E'].
  - split; [by apply inv_on_host; [done|intros h; apply admitted_on_proc]|]. unfold on_host. destruct (dict_get _ _); [|done]. by apply dict_set_wf.
  - split; [by apply inv_on_host; [done|intros h; apply admitted_on_proc]|]. unfold on_host. destruct (dict_get _ _); [|done]. by apply dict_set_wf.
  - done.
Qed.

Lemma inv_run acts w : inv w -> dict_wf (w_hosts w) -> inv (run render token env fmt resolve st m published acts w).
Proof.
  revert w. induction acts as [|a acts IH]; intros w Hw Hwf; simpl; [done|]. destruct (inv_step a w Hw Hwf). by apply IH.
Qed.

Lemma inv_boot now : inv (boot now).
Proof. split; [|done]. intros l1 ch l2 E. by destruct l1. Qed.

(** *** A request either succeeds or leaves the host refusing requests *)

(** Requests are refused now. *)
Definition blocked (c : ctx) : Prop := quarantine_active (c_now c) (c_host c) = true \/ circuit_open (c_now c) (c_host c) = true.

(** The output of a host's worker that nobody has read. *)
Definition unread (h : host) : list (option pyval) :=
  match h_runner h with Some r => match rn_proc r with Some p => pr_queue p | None => [] end | None => [] end.

(** A line [v] of the workers' output: unread in [h0] before interaction [t0], or printed in
    an interaction from there up to [t]. *)
Definition said (h0 : host) (t0 t : nat) (v : pyval) : Prop :=
  Some v ∈ unread h0 \/ exists i, (t0 <= i < t)%nat /\ Some v ∈ rp_lines (env i).

(** [v] is the result that such a line, an answer that says it is fine, carries. *)
Definition answered (h0 : host) (t0 t : nat) (v : pyval) : Prop :=
  exists response d, said h0 t0 t (VDict response) /\ py_truth (py_get "ok" response) = true /\ py_get "result" response = VDict d /\ v = VDict d.

(** What the record of a host says at [now] when a request of [h0] has just succeeded: the
    failures are forgotten, but for the contract violations. *)
Definition settled (h0 : host) (now : Z) (h : host) : Prop :=
  h_state h = "running" /\ h_successes h = h_successes h0 + 1 /\ h_consecutive h = 0 /\ h_timeouts h = 0 /\ h_violations h0 <= h_violations h /\
  h_error h = None /\ h_failure_kind h = None /\ h_circuit h = None /\ h_quarantine h = None /\
  h_heartbeat h = Some now /\ h_success_at h = Some now.


Lemma backoff_bounds n : 1 <= n -> 5 <= backoff_seconds n <= 60.
Proof.
  intros Hn. unfold backoff_seconds, BACKOFF_BASE, BACKOFF_MAX. rewrite Z.max_l by lia.
  assert (1 <= 2 ^ (n - 1)) by (apply Z.lt_pred_le; apply Z.pow_pos_nonneg; lia). lia.
Qed.

Section keeping.
Context (h0 : host) (t0 : nat).

(** While the request of [h0] that began at [t0] is served: failures in a row are never
    negative, no success is counted, no violation forgotten, and what is unread was said. *)
Definition counted (c : ctx) : Prop :=
  0 <= h_consecutive (c_host c) /\ h_successes (c_host c) = h_successes h0 /\ h_violations h0 <= h_violations (c_host c) /\
  (t0 <= c_tick c)%nat /\ forall v, Some v ∈ unread (c_host c) -> said h0 t0 (c_tick c) v.

Lemma said_later t t' v : (t <= t')%nat -> said h0 t0 t v -> said h0 t0 t' v.
Proof. intros Ht [?|(i & Hi & ?)]; [by left|]. right. exists i. split; [lia|done]. Qed.

Lemma mark_failure_counted now state error kind code c : counted c -> counted (with_host (mark_failure now state error kind code) c).
Proof.
  intros (H1 & H2 & H3 & H4). split_and!; [simpl; lia|exact H2| |apply H4|apply H4]. simpl. unfold count_if. case_bool_decide; lia.
Qed.

Lemma mark_failure_blocked now state error kind code c : counted c -> now = c_now c -> blocked (with_host (mark_failure now state error kind code) c).
Proof.
  intros [Hc _] ->. right. unfold circuit_open, before. simpl. apply Z.ltb_lt.
  pose proof (backoff_bounds (h_consecutive (c_host c) + 1)). unfold seconds. lia.
Qed.

Definition keeps_count {A} (op : M A) : Prop := forall c, counted c -> counted (op c).1.

Lemma keeps_count_bind {A B} (x : M A) (k : A -> M B) : keeps_count x -> (forall a, keeps_count (k a)) -> keeps_count (bind x k).
Proof. intros Hx Hk c Hc. unfold bind. specialize (Hx c Hc). destruct (x c) as [c' [a|e]]; [by apply Hk|done]. Qed.
Lemma keeps_count_modify f : (forall c, counted c -> counted (f c)) -> keeps_count (modify f).
Proof. intros H c Hc. by apply H. Qed.
Lemma keeps_count_pure {A} (op : M A) : (forall c, (op c).1 = c) -> keeps_count op.
Proof. intros H c. by rewrite H. Qed.
Lemma keeps_count_hoare {A} (op : M A) : keeps_count op -> hoare counted op (fun _ => counted) counted.
Proof. intros Hop c Hc. specialize (Hop c Hc). by destruct (op c) as [c' [a|e]]. Qed.

(** Time passes, and the worker is another or has other output. *)
Lemma counted_elapse d r c :
  counted c -> (forall v, Some v ∈ unread (set_runner r (c_host c)) -> said h0 t0 (S (c_tick c)) v) -> counted (with_host (set_runner r) (elapse d c)).
Proof. intros (H1 & H2 & H3 & H4 & _) Hr. split_and!; [exact H1|exact H2|exact H3|simpl; lia|exact Hr]. Qed.

(** What [send_command] reads was said, and what it leaves unread too. *)
Lemma send_command_heard : hoare counted (send_command env) (fun v c => counted c /\ said h0 t0 (c_tick c) v) counted.
Proof.
  intros c Hc. unfold send_command, bind, read. destruct (h_runner (c_host c)) as [r|] eqn:Er; [|done]. destruct (rn_proc r) as [p|] eqn:Ep; [|done].
  destruct (pr_exit p); [done|].
  assert (forall v, Some v ∈ pr_queue p ++ rp_lines (env (c_tick c)) -> said h0 t0 (S (c_tick c)) v) as Hq.
  { intros v [Hv|Hv]%elem_of_app; [|right; exists (c_tick c); destruct Hc as (_ & _ & _ & ? & _); split; [lia|done]].
    apply said_later with (c_tick c); [lia|]. apply Hc. unfold unread. by rewrite Er, Ep. }
  unfold modify. cbv beta iota zeta. destruct (rp_send _); [by apply counted_elapse|].
  destruct (pr_queue p ++ _) as [|[v|] q]; cbv beta iota zeta.
  - assert (counted (with_host (set_runner (Some (set_proc (Some (Proc (pr_args p) (rp_exit (env (c_tick c))) [])) r))) (elapse (rp_elapsed (env (c_tick c))) c)))
      as Hn by (apply counted_elapse; [done|]; intros ? Hv; by apply not_elem_of_nil in Hv). by destruct (rp_exit _).
  - split; [apply counted_elapse; [done|]; intros ? Hv; apply Hq; by right|apply Hq; by left].
  - apply counted_elapse; [done|]. intros ? Hv. apply Hq. by right.
Qed.

Lemma keeps_count_send : keeps_count (send_command env).
Proof. intros c Hc. pose proof (send_command_heard c Hc) as H. destruct (send_command env c) as [c' [v|e]]; [by destruct H|done]. Qed.

Lemma keeps_count_lift {A} (o : option A) t : keeps_count (lift o t).
Proof. destruct o; by apply keeps_count_pure. Qed.
Lemma keeps_count_response v : keeps_count (response_of v).
Proof. destruct v; by apply keeps_count_pure. Qed.

(** Changes to a record that leave the counters and the worker alone. *)
Lemma keeps_count_host f : (forall h, h_consecutive (f h) = h_consecutive h /\ h_successes (f h) = h_successes h /\
  h_violations (f h) = h_violations h /\ h_runner (f h) = h_runner h) -> keeps_count (modify (with_host f)).
Proof.
  intros H c (H1 & H2 & H3 & H4 & H5). destruct (H (c_host c)) as (E1 & E2 & E3 & E4). unfold counted, unread in *. simpl. by rewrite E1, E2, E3, E4.
Qed.

(** The worker is gone, or new. *)
Lemma counted_no_output f c : (forall h, h_consecutive (f h) = h_consecutive h /\ h_successes (f h) = h_successes h /\
  h_violations (f h) = h_violations h /\ unread (f h) = []) -> counted c -> counted (with_host f c).
Proof.
  intros H (H1 & H2 & H3 & H4 & H5). destruct (H (c_host c)) as (E1 & E2 & E3 & E4). unfold counted. simpl. rewrite E1, E2, E3, E4.
  split_and!; try done. intros v Hv. by apply not_elem_of_nil in Hv.
Qed.

Ltac counting := repeat
  lazymatch goal with
  | |- keeps_count (bind _ _) => apply keeps_count_bind; [|intros ?]
  | |- keeps_count (modify (with_host _)) => apply keeps_count_host; intros ?; by split_and!
  | |- keeps_count (modify _) => apply keeps_count_modify; by intros ? ?
  | |- keeps_count (send_command _) => apply keeps_count_send
  | |- keeps_count (response_of _) => apply keeps_count_response
  | |- keeps_count (lift _ _) => apply keeps_count_lift
  | |- keeps_count (if ?b then _ else _) => destruct b
  | |- keeps_count (ret _) => apply keeps_count_pure; intros ?; reflexivity
  | |- keeps_count (raise _) => apply keeps_count_pure; intros ?; reflexivity
  | |- keeps_count (read _) => apply keeps_count_pure; intros ?; reflexivity
  end.

Lemma keeps_count_verify : keeps_count (verify_if_strong render env).
Proof. unfold verify_if_strong, verify_post_launch_state, require_verified. counting. Qed.

Lemma keeps_count_terminate force : keeps_count (terminate env force).
Proof.
  unfold terminate, runner_shutdown. counting. destruct (h_runner a) as [r|]; counting.
  - destruct (rn_proc r); counting; [|].
    + intros c Hc. simpl. destruct (_ && _); [by apply keeps_count_send|done].
    + apply keeps_count_modify. intros c Hc. by apply counted_no_output.
  - apply keeps_count_modify. intros c Hc. by apply counted_no_output.
Qed.

Lemma keeps_count_launch rc r : keeps_count (launch_and_admit render token env fmt resolve st m published rc r).
Proof.
  unfold launch_and_admit, runner_start, spawn_process, admit_hostile. counting; try apply keeps_count_verify.
  - by intros c Hc.
  - destruct (process_args _ _ _ _ _ _); counting.
    + apply keeps_count_modify. intros c Hc. by apply counted_no_output.
    + apply keeps_count_modify. intros c (H1 & H2 & H3 & H4 & H5). split_and!; [done|done|done|simpl; lia|]. intros v Hv.
      apply said_later with (c_tick c); [simpl; lia|by apply H5].
    + destruct (rp_spawn _); counting. apply keeps_count_modify. intros c Hc. by apply counted_no_output.
  - by apply keeps_count_pure.
Qed.

Lemma keeps_count_start rc : keeps_count (start_record render token env fmt resolve st m published rc).
Proof.
  unfold start_record, assert_not_quarantined. counting. intros c Hc. cbv zeta.
  match goal with |- context [launch_and_admit _ _ _ _ _ _ _ _ rc ?r ?x] =>
    assert (counted x) as Hx by (by apply (counted_no_output (set_launching (c_now c) (token (c_tokens c)) r) c));
    pose proof (keeps_count_launch rc r x Hx) as H1;
    destruct (launch_and_admit _ _ _ _ _ _ _ _ rc r x) as [c2 [?|e]] end; [done|].
  by apply keeps_count_terminate, mark_failure_counted.
Qed.

End keeping.

Lemma verify_later c : 0 <= h_consecutive (c_host c) -> (c_tick c <= c_tick (verify_if_strong render env c).1)%nat.
Proof.
  intros Hc. apply (keeps_count_verify (c_host c) (c_tick c) c). split_and!; [done|done|done|done|]. intros v Hv. by left.
Qed.

Lemma terminate_true_now c : c_now (terminate env true c).1 = c_now c.
Proof. unfold terminate, bind, read. destruct (h_runner (c_host c)) as [r|]; [|done]. unfold runner_shutdown. by destruct (rn_proc r). Qed.

Lemma terminate_true_times c : h_circuit (c_host (terminate env true c).1) = h_circuit (c_host c) /\
  h_quarantine (c_host (terminate env true c).1) = h_quarantine (c_host c).
Proof. unfold terminate, bind, read. destruct (h_runner (c_host c)) as [r|]; [|done]. unfold runner_shutdown. by destruct (rn_proc r). Qed.

Section settling.
Context (h0 : host) (t0 : nat).
Local Notation counted := (counted h0 t0).

Lemma start_record_blocks rc : hoare counted (start_record render token env fmt resolve st m published rc) (fun _ => counted) blocked.
Proof.
  intros c Hc. pose proof (keeps_count_start h0 t0 rc c Hc) as Hk. unfold start_record, assert_not_quarantined, bind, read in *.
  destruct (quarantine_active (c_now c) (c_host c)) eqn:Eq; [by left|]. cbv zeta in *. cbn [ret] in *.
  match goal with |- context [launch_and_admit _ _ _ _ _ _ _ _ rc ?r ?x] =>
    assert (counted x) as Hx by (by apply (counted_no_output h0 t0 (set_launching (c_now c) (token (c_tokens c)) r) c));
    pose proof (keeps_count_launch h0 t0 rc r x Hx) as H1;
    destruct (launch_and_admit _ _ _ _ _ _ _ _ rc r x) as [c2 [?|e]] end; [done|].
  match goal with |- blocked (terminate env true ?x).1 =>
    pose proof (mark_failure_blocked h0 t0 (c_now c2) "failed" (ex_text e)
      (match ex_kind e with Some k => k | None => classify_failure (ex_text e) false end) None c2 H1 eq_refl) as Hb;
    destruct (terminate_true_times x) as [E1 E2]; pose proof (terminate_true_now x) as E3 end.
  unfold blocked, quarantine_active, circuit_open in *. by rewrite E1, E2, E3.
Qed.

Lemma ensure_running_blocks rc : hoare counted (ensure_running render token env fmt resolve st m published rc) (fun _ => counted) blocked.
Proof.
  unfold ensure_running. apply hoare_read. intros h. destruct (running h); [apply hoare_ret; by intros c [? _]|].
  eapply hoare_bind with (Q := fun _ => counted).
  { apply hoare_modify. intros c [Hc _]. destruct (h_runner (c_host c)) as [r|]; [|done].
    destruct (returncode r); [by apply mark_failure_counted|done]. }
  intros _. eapply hoare_bind with (Q := fun _ => counted); [by apply hoare_modify|]. intros _. apply start_record_blocks.
Qed.

(** A request that succeeds. *)
Definition success (v : pyval) (c : ctx) : Prop := settled h0 (c_now c) (c_host c) /\ answered h0 t0 (c_tick c) v.

Lemma ask_worker_settles rc : hoare counted (ask_worker render token env rc) success counted.
Proof.
  unfold ask_worker. eapply hoare_bind with (Q := fun _ => counted); [by intros c Hc|]. intros ch.
  eapply hoare_bind with (Q := fun _ => counted); [by apply hoare_modify|]. intros _.
  eapply hoare_bind; [apply send_command_heard|]. intros v.
  destruct v as [| | | | | |response]; try (by intros c [? _]).
  eapply hoare_bind with (Q := fun x c => counted c /\ said h0 t0 (c_tick c) (VDict x)); [by apply hoare_ret|]. intros response'.
  destruct (negb _) eqn:Eok; [apply hoare_raise; by intros c [? _]|]. apply negb_false_iff in Eok.
  destruct (py_get "result" response') as [| | | | | |d] eqn:Ed; try (by apply hoare_raise; intros c [? _]).
  eapply hoare_bind with (Q := fun _ c => counted c /\ said h0 t0 (c_tick c) (VDict response')).
  { intros c [Hc Hs]. pose proof (keeps_count_verify h0 t0 c Hc) as Hk. pose proof (verify_later c (proj1 Hc)) as Ht.
    destruct (verify_if_strong render env c) as [c' [a|e]]; [|done]. split; [done|]. by apply said_later with (c_tick c). }
  intros _. eapply hoare_bind with (Q := fun _ => success (VDict d)); [|intros _; by apply hoare_ret].
  apply hoare_modify. intros c [(H1 & H2 & H3 & _) Hs]. split; [|by exists response', d].
  unfold settled. simpl. split_and!; try done. by rewrite H2.
Qed.

Lemma serve_settles rc n : hoare counted (serve render token env fmt resolve st m published rc n) success blocked.
Proof.
  induction n as [|n IH]; simpl; (eapply hoare_bind with (Q := fun _ => counted); [apply ensure_running_blocks|]); intros _ c Hc;
    pose proof (ask_worker_settles rc c Hc) as H1; destruct (ask_worker _ _ _ _ c) as [c1 [v|e]]; try done;
    assert (blocked (mark_request_failure e c1).1) as Hb by (by eapply mark_failure_blocked);
    assert (counted (mark_request_failure e c1).1) as Hn by (by apply mark_failure_counted); cbv zeta; [done|].
  destruct (quarantine_active _ _); [done|].
  match goal with |- context [(bind (modify (with_host count_restart)) ?k) ?x] =>
    assert (hoare counted (bind (modify (with_host count_restart)) k) success blocked) as H; [|exact (H x Hn)] end.
  eapply hoare_bind with (Q := fun _ => counted); [by apply hoare_modify|]. intros _.
  eapply hoare_bind with (Q := fun _ => counted).
  { intros c' Hc'. pose proof (keeps_count_terminate h0 t0 true c' Hc') as Ht.
    unfold terminate, bind, read in *. destruct (h_runner (c_host c')) as [r|]; [|done]. unfold runner_shutdown in *. by destruct (rn_proc r). }
  intros _. eapply hoare_bind with (Q := fun _ => counted); [apply start_record_blocks|]. intros _. apply IH.
Qed.

End settling.

Lemma execute_record_unfold rc c :
  execute_record render token env fmt resolve st m published rc c =
  if quarantine_active (c_now c) (c_host c) then (c, Err (Exn "plugin host is quarantined" None))
  else if circuit_open (c_now c) (c_host c) then (c, Err (Exn "plugin host is in restart backoff" None))
  else serve render token env fmt resolve st m published rc 1 c.
Proof.
  unfold execute_record, assert_not_quarantined, assert_not_in_backoff. unfold bind at 1 2 3. unfold read.
  destruct (quarantine_active _ _); [done|]. unfold ret. unfold bind at 1 2 3. by destruct (circuit_open _ _).
Qed.

(** ** Properties *)

(** C8: However hosts are started, asked, restarted, probed and shut down, and whatever
    their workers do, answer and print: a request for third-party code under a
    production-safe profile goes to the worker that was launched last for its host, by a
    command that names its image by a sha256 digest and mounts the code read-only; where
    that is a strong sandbox, it was verified live, for the very instance, between its
    launch and the request; and under the hostile profile the runner is the strong one, on
    Linux, from a signed image of a trusted issuer. *)
Theorem third_party_requests_confined now acts l1 ch l2 :
  w_log (run render token env fmt resolve st m published acts (boot now)) = l1 ++ Requested ch :: l2 ->
  ch_owner ch = "external-third-party" ->
  production_safe_plugin_sandbox_required (default SINGLE_INSTANCE (active_profile st published)) = true ->
  (exists args since, launched_last l1 (ch_name ch) (ch_owner ch) (ch_kind ch) args since /\ confined_command (ch_kind ch) args /\
     (ch_kind ch = RUNNER_STRONG_SANDBOX_VM -> exists v, Verified (ch_name ch) (ch_instance ch) v ∈ since /\ vf_status v = "passed")) /\
  (active_profile st published = Some HOSTILE_THIRD_PARTY ->
   ch_kind ch = RUNNER_STRONG_SANDBOX_VM /\ is_linux m = true /\
   tr_signature_verified (strong_trust st) = true /\ tr_issuer_trusted (strong_trust st) = true).
Proof.
  intros El Ho Hs. destruct (inv_run acts (boot now) (inv_boot now) ltac:(constructor)) as [Hl _].
  destruct (Hl _ _ _ El) as [(args & since & Hin & (root & Ha) & Hv & _) [Hk Hp]].
  destruct Hp as [policy Hp]; [by unfold third_party; apply bool_decide_eq_true|].
  split_and!; [exists args, since; split_and!; [done|by eapply third_party_launch_confined|done]|].
  intros Hh. pose proof (third_party_policy_facts _ _ _ _ Hp) as (Hsel & _ & Hhost). rewrite Hh in Hhost. destruct Hhost as (Hr & Ht & Hlin); [done|].
  rewrite resolve_selected in Hk. unfold selected_plugin_sandbox_policy in Hsel. rewrite Hk in Hsel. simpl in Hsel.
  assert (ch_kind ch = RUNNER_STRONG_SANDBOX_VM) as Hkind by (injection Hsel as <-; exact Hr).
  destruct (hostile_trust st RUNNER_STRONG_SANDBOX_VM Ht) as (_ & ? & ? & _). done.
Qed.

(** C38: A request to a plugin host whose count of failures in a row is not negative sends
    workers at most two requests and launches at most three. A host in quarantine or backoff
    answers with an error and is left as it was. An answer is the dict under "result" of a
    line, whose "ok" holds, that the host's workers printed while the request was served or
    had left unread before; the record then says running, with one success more, no failures
    or timeouts in a row, no error, backoff or quarantine, and a heartbeat now, but keeps its
    contract violations. Every failure leaves the host refusing requests, in backoff or
    quarantine. *)
Theorem request_settles_or_blocks name rc w h :
  dict_get name (w_hosts w) = Some h -> 0 <= h_consecutive h ->
  exists w' r l h', execute_plugin_host render token env fmt resolve st m published name rc w = (w', r) /\
    w_log w' = w_log w ++ l /\ dict_get name (w_hosts w') = Some h' /\
    (count is_request l <= 2)%nat /\ (count is_launch l <= 3)%nat /\
    (quarantine_active (w_now w) h = true \/ circuit_open (w_now w) h = true -> l = [] /\ h' = h /\ w_now w' = w_now w /\ is_Ok r = false) /\
    match r with
    | Ok v => answered h (w_tick w) (w_tick w') v /\ settled h (w_now w') h'
    | Err _ => quarantine_active (w_now w') h' = true \/ circuit_open (w_now w') h' = true
    end.
Proof.
  intros E Hc. unfold execute_plugin_host. rewrite E. unfold on_record.
  set (c0 := Ctx (w_now w) (w_tick w) (w_tokens w) (w_kernel_seen w) (w_log w) h).
  destruct (execute_record_emits rc c0) as (_ & l & El & H1 & H2 & _).
  assert (match execute_record render token env fmt resolve st m published rc c0 with
          | (c', Ok v) => success h (w_tick w) v c' | (c', Err _) => blocked c' end) as Hr.
  { rewrite execute_record_unfold. destruct (quarantine_active (c_now c0) (c_host c0)) eqn:Eq; [by left|].
    destruct (circuit_open (c_now c0) (c_host c0)) eqn:Ec; [by right|]. apply (serve_settles h (w_tick w)).
    split_and!; [done|done|done|done|]. intros v Hv. by left. }
  assert (quarantine_active (w_now w) h = true \/ circuit_open (w_now w) h = true ->
          exists e, execute_record render token env fmt resolve st m published rc c0 = (c0, Err e)) as Hbl.
  { rewrite execute_record_unfold. cbn [c0 c_now c_host]. intros [->| ->]; [by eexists|]. destruct (quarantine_active (w_now w) h); by eexists. }
  destruct (execute_record render token env fmt resolve st m published rc c0) as [c' r]. cbn [fst] in El.
  eexists _, r, l, (c_host c'). split; [reflexivity|]. simpl. rewrite dict_get_set_eq. split_and!; [done|done|done|done| |].
  - intros Hb. destruct (Hbl Hb) as [e [= -> ->]]. simpl in El. split_and!; [|done|done|done].
    destruct l; [done|]. apply (f_equal length) in El. rewrite length_app in El. simpl in El. lia.
  - destruct r as [v|e]; [|exact Hr]. by destruct Hr.
Qed.
End safety.

(** ** Concrete hosts *)

Module HostDemo.
Definition render (v : pyval) : string := type_name v.
Definition token (n : nat) : string := "t" +:+ pretty (Z.of_nat n).
Definition yes : pyval := VDict [("verified", VBool true)].

(** The probe of a worker in whose sandbox every check holds. *)
Definition probe (worker name owner instance : string) : pyval :=
  VDict [("worker_instance_id", VStr worker); ("verification_scope", VStr LIVE_SCOPE);
    ("session_continuity", VDict [("extension_name", VStr name); ("owner_class", VStr owner); ("sandbox_instance_id", VStr instance); ("started", VBool true)]);
    ("isolation_state", VDict [("import_guard_active", VBool true); ("filesystem_guard_active", VBool true); ("network_guard_active", VBool true)]);
    ("boundary_metadata", VDict [("runtime_api_channel_hidden", VBool true)]);
    ("mount_network_state", VDict
      [("artifact_read_access", yes); ("artifact_write_blocked", yes); ("writable_temp_scope", yes); ("host_path_access_blocked", yes);
       ("network_policy", VDict [("socket_guard_active", yes); ("deny_by_default_outbound", yes); ("private_target_blocking", yes); ("expected_boundary_mode", yes)])])].

(** A line that answers any command. *)
Definition answer (worker instance : string) (result : string) : option pyval :=
  Some (VDict [("ok", VBool true); ("provenance", VDict [("module_name", VStr "plug")]); ("result", VDict [("status", VStr result)]);
               ("probe", probe worker "p" "external-third-party" instance)]).
Definition fine (line : option pyval) : reply := Reply 1000 None None [line] None None.
Definition silent : reply := Reply (seconds 30) None None [] None None.
Definition failing (text : string) : reply := fine (Some (VDict [("ok", VBool false); ("error", VStr text)])).

Definition cfg (owner : string) : host_config :=
  HostConfig "plug:run" "/plugins" owner ["memory.read"] (VDict []) [("extension_id", VStr "x")] "" false.

(** One launch of a strong sandbox, then everything answered by the same worker. *)
Definition steady (n : nat) : reply := fine (answer "w1" (token 0) "SUCCESS").
(** A restarted host: from the fifth interaction on another process answers. *)
Definition restarted (n : nat) : reply := if (n <? 4)%nat then steady n else fine (answer "w2" (token 4) "SUCCESS").
End HostDemo.

Lemma third_party_requests_confined_witness :
  let st := Demo.strong_conf in
  let w := run HostDemo.render HostDemo.token HostDemo.steady Demo.fmt (fun p => p) st Demo.linux "hostile-third-party"
             [Start "p" (HostDemo.cfg "external-third-party") []; Execute "p" []] (boot 0) in
  exists l1 ch l2, w_log w = l1 ++ Requested ch :: l2 /\
    exists args since, launched_last l1 (ch_name ch) (ch_owner ch) (ch_kind ch) args since /\ confined_command (ch_kind ch) args /\
    exists v, Verified (ch_name ch) (ch_instance ch) v ∈ since /\ vf_status v = "passed".
Proof.
  cbv zeta. set (w := run _ _ _ _ _ _ _ _ _ _).
  assert (exists e1 e2 ch e3, w_log w = [e1; e2] ++ Requested ch :: [e3] /\ ch_owner ch = "external-third-party" /\
          ch_kind ch = RUNNER_STRONG_SANDBOX_VM) as (e1 & e2 & ch & e3 & El & Ho & Hk)
    by (do 4 eexists; vm_compute; split_and!; reflexivity).
  exists [e1; e2], ch, [e3]. split; [exact El|].
  destruct (third_party_requests_confined HostDemo.render HostDemo.token HostDemo.steady Demo.fmt (fun p => p) Demo.strong_conf Demo.linux
    "hostile-third-party" 0 [Start "p" (HostDemo.cfg "external-third-party") []; Execute "p" []] [e1; e2] ch [e3] El Ho) as ((args & since & H1 & H2 & H3) & _);
    [vm_compute; reflexivity|]. exists args, since. split_and!; [exact H1|exact H2|by apply H3].
Defined.

Lemma request_settles_or_blocks_witness :
  let w := run HostDemo.render HostDemo.token HostDemo.steady Demo.fmt (fun p => p) Demo.docker_conf Demo.linux "distributed-api"
             [Start "p" (HostDemo.cfg "first-party-app") []] (boot 0) in
  exists h w' r l h', dict_get "p" (w_hosts w) = Some h /\
    execute_plugin_host HostDemo.render HostDemo.token HostDemo.steady Demo.fmt (fun p => p) Demo.docker_conf Demo.linux "distributed-api" "p" [] w = (w', r) /\
    w_log w' = w_log w ++ l /\ dict_get "p" (w_hosts w') = Some h' /\ (count is_request l <= 2)%nat.
Proof.
  set (w := run _ _ _ _ _ _ _ _ _ _).
  edestruct (request_settles_or_blocks HostDemo.render HostDemo.token HostDemo.steady Demo.fmt (fun p => p) Demo.docker_conf Demo.linux "distributed-api" "p" [] w)
    as (w' & r & l & h' & H1 & H2 & H3 & H4 & _); [vm_compute; reflexivity|vm_compute; discriminate|].
  eexists _, w', r, l, h'. split; [vm_compute; reflexivity|]. by split_and!.
Defined.

(** A strong sandbox cannot be restarted: the new process reports its own worker id, which
    differs from the one verified first, so its verification fails and it is killed. *)
Example strong_host_never_restarts :
  let w := run HostDemo.render HostDemo.token HostDemo.restarted Demo.fmt (fun p => p) Demo.strong_conf Demo.linux "hostile-third-party"
             [Start "p" (HostDemo.cfg "external-third-party") []; Restart "p" []] (boot 0) in
  exists h, dict_get "p" (w_hosts w) = Some h /\ h_verified_worker h = Some "w1" /\ running h = false /\ h_state h = "failed" /\
    exists v, h_verification h = Some v /\ vf_failures v = ["session_continuity.worker_instance_changed"].
Proof. eexists. vm_compute. split_and!; try reflexivity. eexists. split; reflexivity. Qed.

(** The answer of a request that timed out stays in the queue and answers the next one. *)
Example late_answer_answers_next_request :
  let env n := if (n <? 2)%nat then HostDemo.fine (HostDemo.answer "w1" "t0" "SUCCESS")
               else if (n =? 2)%nat then HostDemo.failing "boom"              (* first attempt fails *)
               else if (n <? 5)%nat then HostDemo.fine (HostDemo.answer "w1" "t0" "SUCCESS")   (* relaunched *)
               else if (n =? 5)%nat then HostDemo.silent                       (* second attempt times out *)
               else HostDemo.fine (HostDemo.answer "w1" "t0" "NEW") in
  let go := run HostDemo.render HostDemo.token env Demo.fmt (fun p => p) Demo.docker_conf Demo.linux "distributed-api" in
  let w := go [Start "p" (HostDemo.cfg "first-party-app") []; Execute "p" [("user_id", VStr "alice")];
               Prints "p" [HostDemo.answer "w1" "t0" "FOR-ALICE"]; Passes (seconds 20)] (boot 0) in
  (execute_plugin_host HostDemo.render HostDemo.token env Demo.fmt (fun p => p) Demo.docker_conf Demo.linux "distributed-api" "p"
     [("user_id", VStr "bob")] w).2 = Ok (VDict [("status", VStr "FOR-ALICE")]).
Proof. vm_compute. reflexivity. Qed.

(** Contract violations are never forgiven: once there were two, any later failure
    quarantines the host, whatever succeeded in between. *)
Lemma violations_never_reset now h : h_violations (mark_success now h) = h_violations h.
Proof. done. Qed.

Lemma old_violations_quarantine now state error kind code h :
  2 <= h_violations h -> h_state (mark_failure now state error kind code h) = "quarantined".
Proof.
  intros H. simpl. assert ((VIOLATION_THRESHOLD <=? count_if (bool_decide (kind = "contract_violation")) (h_violations h)) = true) as ->.
  { apply Z.leb_le. unfold VIOLATION_THRESHOLD, count_if. case_bool_decide; lia. }
  by rewrite orb_true_r.
Qed.

(** Registering a node again with the same configuration restarts its worker: the launch
    merged the worker's provenance into the record, which then differs. *)
Example same_configuration_restarts :
  let go := run HostDemo.render HostDemo.token HostDemo.steady Demo.fmt (fun p => p) Demo.docker_conf Demo.linux "distributed-api" in
  let w := go [Start "p" (HostDemo.cfg "first-party-app") []; Start "p" (HostDemo.cfg "first-party-app") []] (boot 0) in
  exists h, dict_get "p" (w_hosts w) = Some h /\ h_restarts h = 1 /\ h_launches h = 2.
Proof. eexists. vm_compute. split_and!; reflexivity. Qed.

(** A failed live verification at a heartbeat leaves the worker running: after the backoff
    the next request is sent to it before it is verified again. *)
Example unverified_worker_keeps_serving :
  let bad := HostDemo.fine (HostDemo.answer "w1" "other" "SUCCESS") in
  let env n := if (n <? 3)%nat then HostDemo.steady n else if (n <? 5)%nat then bad else HostDemo.steady n in
  let go := run HostDemo.render HostDemo.token env Demo.fmt (fun p => p) Demo.strong_conf Demo.linux "hostile-third-party" in
  let w := go [Start "p" (HostDemo.cfg "external-third-party") []; Heartbeat "p"] (boot 0) in
  exists h, dict_get "p" (w_hosts w) = Some h /\ h_state h = "heartbeat_lost" /\ running h = true /\
    count is_launch (w_log (go [Start "p" (HostDemo.cfg "external-third-party") []; Heartbeat "p"; Passes (seconds 6); Execute "p" []] (boot 0))) = 1%nat.
Proof. eexists. vm_compute. split_and!; reflexivity. Qed.
