(* ===== verification/ExtensionWorker.v ===== *)
(** * The process a plugin runs in

    Models platform_layer/extension_worker.py and extension_runtime_api.py: the channel
    that authenticates a command and is spent by it, the bridge through which plugin code
    calls the runtime, the guards on imports, files and sockets, the loading of the
    plugin, the live probes, and the session that serves the host's commands.

    Plugin code is an arbitrary finite program ([prog]): a tree of calls, each with what
    the program does for every answer. What the operating system and the kernel answer,
    the clock, the resolver and the file system are functions of the number of
    interactions so far. Real paths are lists of components; the file a path leads to is
    the same when it is checked and when it is opened. Code that changes the worker's
    modules by introspection is outside [prog]; the findings at the end name what it can
    reach. Error texts are cut where they quote values. *)

From S2P Require Import Prelude PyStr PyVal Sandbox PluginHost.
From Stdlib Require Import Ascii QArith Qabs.
From stdpp Require Import pretty.
Local Open Scope Z_scope.
Local Open Scope string_scope.
Local Open Scope list_scope.

Definition dict : Type := list (string * pyval).

(** ** Plugin code *)

(** [x_exit]: an exit of the interpreter, which [except Exception] does not catch. *)
Record pyexn := PyExn { x_class : string; x_text : string; x_exit : bool }.

Definition Denied (text : string) : pyexn := PyExn "PermissionError" text false.
Definition Invalid (text : string) : pyexn := PyExn "ValueError" text false.
Definition TypeFault (text : string) : pyexn := PyExn "TypeError" text false.
Definition Failure (text : string) : pyexn := PyExn "RuntimeError" text false.

(** The address argument of a socket call: a tuple with its first element, a text, or
    something else. *)
Inductive target := TTuple (first : pyval) | TText (s : string) | TOther.

Inductive call :=
| Import (package : string) (level : nat) (name : string)
| FsCall (fn : string) (paths : list string) (mode : string) (flags : Z)
| Connect (t : target)
| CreateConnection (t : target)
| InvokeApi (operation : string) (payload : pyval)
| MemoryRead (query limit tags : pyval)
| MemoryWrite (content tags node_type : pyval)
| FlowRun (flow_name initial_state : pyval)
| EventEmit (event_type payload : pyval)
| ToolInvoke (tool_name args : pyval)
| GetExecutionMetadata
| RequireCapability (capability : string).

Inductive prog :=
| Return (v : pyval)
| Throw (e : pyexn)
| Call (c : call) (k : result pyexn pyval -> prog)
| Trusted (caller : string) (body : prog) (k : result pyexn pyval -> prog).   (* [_run_trusted_runtime_operation], from a module of that name *)

Inductive param_kind := POSITIONAL_ONLY | POSITIONAL_OR_KEYWORD | VAR_POSITIONAL | KEYWORD_ONLY | VAR_KEYWORD.
#[export] Instance param_kind_eq_dec : EqDecision param_kind.
Proof. solve_decision. Defined.

Record param := Param { pa_name : string; pa_kind : param_kind; pa_default : bool }.

Inductive attribute := NotCallable | Function (ps : list param) (code : pyval -> dict -> prog).

Record plugin_module := PluginModule { pm_body : prog; pm_attr : string -> option attribute }.

(** ** The worker *)

Record fs_guard := FsGuard { fg_root : list string; fg_temp : list string }.
Record net_guard := NetGuard { ng_outbound : bool; ng_private : bool }.

Record dispatch_call := DispatchCall {
  dc_name : string;
  dc_payload : dict;
  dc_user : string;
  dc_capability : string;
  dc_trace : string;
  dc_unit : string;
  dc_meta : dict }.

Inductive effect :=
| Received                                   (* a command line *)
| Authenticated (auth : dict)
| FsGuarded (g : fs_guard)
| NetGuarded (g : net_guard)
| Started (extension owner instance : string)
| Imported (package : string) (level : nat) (name : string)
| FsDone (fn : string) (paths : list string) (mode : string) (flags : Z)
| Connected (t : target)
| Dispatched (at_ : Q) (d : dispatch_call)
| ToolInvoked (at_ : Q) (tool : string) (args : dict) (user : string).

(** [host_state] *)
Record session := Session {
  hs_handler : option string;
  hs_root : option string;
  hs_callable : option (pyval -> dict -> prog);
  hs_extension : option string;
  hs_owner : option string;
  hs_instance : option string;
  hs_provenance : dict;
  hs_started_at : pyval;
  hs_requests : Z;
  hs_guards : bool;
  hs_import0 : nat;       (* [original_import]: how many guards were around it *)
  hs_fs0 : option nat;    (* the depth of [filesystem_guard_originals], once it is recorded *)
  hs_net0 : nat;
  hs_temp : option (list string);
  hs_outbound : bool }.

Definition new_session : session :=
  Session None None None None None None [] VNone 0 false 0 None 0 None false.

Record wk := Wk {
  k_tick : nat;
  k_seen : list string;   (* [_SEEN_RUNTIME_CHANNEL_NONCES] *)
  k_hidden : dict;        (* [_RUNTIME_API_CONTEXT.value] *)
  k_bridge : bool;        (* [_RUNTIME_API_BRIDGE] is the worker's *)
  k_trusted : bool;
  k_import : nat;         (* guards around [__import__] *)
  k_fs : list fs_guard;
  k_net : list net_guard;
  k_host : session;
  k_log : list effect }.

Definition boot_worker : wk := Wk 0 [] [] false false 0 [] [] new_session [].

Definition tick (w : wk) : wk :=
  Wk (S (k_tick w)) (k_seen w) (k_hidden w) (k_bridge w) (k_trusted w) (k_import w) (k_fs w) (k_net w) (k_host w) (k_log w).
Definition log (e : effect) (w : wk) : wk :=
  Wk (k_tick w) (k_seen w) (k_hidden w) (k_bridge w) (k_trusted w) (k_import w) (k_fs w) (k_net w) (k_host w) (k_log w ++ [e]).
Definition set_channel (seen : list string) (hidden : dict) (bridge : bool) (w : wk) : wk :=
  Wk (k_tick w) seen hidden bridge (k_trusted w) (k_import w) (k_fs w) (k_net w) (k_host w) (k_log w).
Definition set_trusted (b : bool) (w : wk) : wk :=
  Wk (k_tick w) (k_seen w) (k_hidden w) (k_bridge w) b (k_import w) (k_fs w) (k_net w) (k_host w) (k_log w).
Definition set_guards (i : nat) (fs : list fs_guard) (net : list net_guard) (w : wk) : wk :=
  Wk (k_tick w) (k_seen w) (k_hidden w) (k_bridge w) (k_trusted w) i fs net (k_host w) (k_log w).
Definition set_session (f : session -> session) (w : wk) : wk :=
  Wk (k_tick w) (k_seen w) (k_hidden w) (k_bridge w) (k_trusted w) (k_import w) (k_fs w) (k_net w) (f (k_host w)) (k_log w).

Definition io (A : Type) : Type := wk -> wk * result pyexn A.
Definition done {A} (a : A) : io A := fun w => (w, Ok a).
Definition throw {A} (e : pyexn) : io A := fun w => (w, Err e).
Definition andthen {A B} (x : io A) (k : A -> io B) : io B :=
  fun w => let '(w', r) := x w in match r with Ok a => k a w' | Err e => (w', Err e) end.
Definition upd (f : wk -> wk) : io unit := fun w => (f w, Ok tt).
Definition ask {A} (f : wk -> A) : io A := fun w => (w, Ok (f w)).
Definition need {A} (o : option A) (e : pyexn) : io A := match o with Some a => done a | None => throw e end.
Definition refuse_when (b : bool) (e : pyexn) : io unit := if b then throw e else done tt.

Local Notation "x <- m ;; k" := (andthen m (fun x => k)) (at level 100, m at next level, right associativity).
Local Notation "m ;; k" := (andthen m (fun _ => k)) (at level 100, right associativity).

Record ip_class := IpClass {
  is_private : bool; is_loopback : bool; is_link_local : bool; is_multicast : bool; is_reserved : bool }.

(** What is around the worker. *)
Record surroundings := Surroundings {
  e_render : pyval -> string;
  e_float : string -> option pyfloat;
  e_instance : string;                          (* [_WORKER_INSTANCE_ID] *)
  e_clock : nat -> Q;
  e_answer : nat -> result pyexn pyval;         (* of the call that is let through *)
  e_addresses : nat -> list target;             (* what a name resolves to *)
  e_ip : string -> option ip_class;             (* [ipaddress.ip_address]; [None] is ValueError *)
  e_realpath : string -> list string;
  e_tempdir : nat -> list string;               (* [tempfile.mkdtemp] *)
  e_runtime_roots : list (list string);         (* [sys.base_prefix], [sys.prefix] *)
  e_allow_private : bool;                       (* AINDY_ALLOW_PRIVATE_EXTENSION_TARGETS *)
  e_is_file : string -> list string -> bool;    (* under a root *)
  e_module : string -> list string -> plugin_module;
  e_probe_paths : list (list string) }.         (* the working directory, the root's parent, the home directory *)

Section worker.
Context (E : surroundings).

Definition text (v : pyval) : string := if py_truth v then py_str (e_render E) v else "".
Definition stext (v : pyval) : string := str_strip (text v).

(** ** The channel *)

Definition AUTH_CLOCK_SKEW : Q := 5.
Definition AUTH_VERSION : string := "2026-05-22".

Definition float_field (k : string) (c : dict) : io pyfloat :=
  need (py_float (e_float E) (py_or (py_get k c) (VFloat 0))) (Invalid "could not convert to float").

Definition validate_runtime_auth_timing (c : dict) : io unit :=
  issued_at <- float_field "issued_at" c ;;
  expires_at <- float_field "expires_at" c ;;
  now <- ask (fun w => Fin (e_clock E (k_tick w))) ;;
  refuse_when (float_le issued_at (Fin 0) || float_le expires_at (Fin 0) || float_le expires_at issued_at)
    (Denied "INVALID_EXTENSION_CHANNEL: runtime channel timing is invalid") ;;
  refuse_when (float_lt now (float_add issued_at (- AUTH_CLOCK_SKEW))) (Denied "INVALID_EXTENSION_CHANNEL: runtime channel is not yet valid") ;;
  refuse_when (float_lt (float_add expires_at AUTH_CLOCK_SKEW) now) (Denied "EXPIRED_EXTENSION_CHANNEL: runtime channel has expired").

Definition BOUND_KEYS : list string := ["user_id"; "run_id"; "trace_id"; "extension_name"; "owner_class"].

(** [(plugin_context.get("runtime_api") or {}).get(...)] *)
Definition api_descriptor (plugin_context : dict) : io dict :=
  need (as_dict (py_get "runtime_api" plugin_context)) (PyExn "AttributeError" "object has no attribute 'get'" false).

Definition no_attribute : pyexn := PyExn "AttributeError" "object has no attribute 'get'" false.

Fixpoint bound (keys : list string) (plugin_context auth : dict) : io unit :=
  match keys with
  | [] => done tt
  | k :: keys' =>
      refuse_when (bool_decide (stext (py_get k plugin_context) <> stext (py_get k auth)))
        (Denied ("BINDING_MISMATCH: runtime channel " +:+ k)) ;;
      bound keys' plugin_context auth
  end.

(** What an already started session is bound to. *)
Definition host_bound (h : session) (auth : dict) : io unit :=
  let mismatch (o : option string) k := match o with Some x => bool_decide (x <> "") && bool_decide (x <> stext (py_get k auth)) | None => false end in
  refuse_when (mismatch (hs_instance h) "sandbox_instance_id") (Denied "SANDBOX_INSTANCE_MISMATCH: runtime channel sandbox instance") ;;
  refuse_when (mismatch (hs_extension h) "extension_name") (Denied "EXTENSION_BINDING_MISMATCH: runtime channel extension") ;;
  refuse_when (mismatch (hs_owner h) "owner_class") (Denied "OWNER_BINDING_MISMATCH: runtime channel owner").

Definition consume_nonce (nonce : string) : io unit :=
  let key := e_instance E +:+ ":" +:+ nonce in
  seen <- ask k_seen ;;
  refuse_when (bool_decide (key ∈ seen)) (Denied "REPLAYED_EXTENSION_CHANNEL: runtime channel nonce has already been used") ;;
  upd (fun w => set_channel (key :: seen) (k_hidden w) (k_bridge w) w).

Definition validate_runtime_auth_binding (plugin_context auth : dict) : io dict :=
  let channel_id := stext (py_get "runtime_channel_id" auth) in
  let nonce := stext (py_get "runtime_channel_nonce" auth) in
  let sandbox := stext (py_get "sandbox_instance_id" auth) in
  refuse_when (bool_decide (channel_id = "") || bool_decide (stext (py_get "runtime_channel_token" auth) = "") || bool_decide (nonce = ""))
    (Denied "UNAUTHENTICATED_EXTENSION_CHANNEL: runtime channel binding is incomplete") ;;
  refuse_when (bool_decide (sandbox = "")) (Denied "INVALID_EXTENSION_CHANNEL: sandbox instance binding is missing") ;;
  refuse_when (bool_decide (text (py_get "auth_version" auth) <> AUTH_VERSION)) (Denied "INVALID_EXTENSION_CHANNEL: runtime channel auth_version is unsupported") ;;
  validate_runtime_auth_timing auth ;;
  api <- api_descriptor plugin_context ;;
  bound BOUND_KEYS plugin_context auth ;;
  refuse_when (bool_decide (stext (py_get "sandbox_instance_id" api) <> sandbox)) (Denied "BINDING_MISMATCH: runtime channel sandbox_instance_id") ;;
  refuse_when (bool_decide (stext (py_get "runtime_channel_id" api) <> channel_id)) (Denied "BINDING_MISMATCH: runtime channel_id") ;;
  h <- ask k_host ;;
  host_bound h auth ;;
  consume_nonce nonce ;;
  done (dict_set "_worker_instance_id" (VStr (e_instance E)) auth).

Definition extract_plugin_context (context : pyval) : io dict :=
  payload <- need (dict_or context) (TypeFault "cannot convert to dict") ;;
  plugin_context <- need (dict_or (py_get "plugin_context" payload)) (TypeFault "cannot convert to dict") ;;
  auth <- need (dict_or (py_get "runtime_api_auth" payload)) (TypeFault "cannot convert to dict") ;;
  validated <- validate_runtime_auth_binding plugin_context auth ;;
  upd (fun w => set_channel (k_seen w) validated true w) ;;
  upd (log (Authenticated auth)) ;;
  done plugin_context.

Definition clear_runtime_channel (w : wk) : wk := set_channel (k_seen w) [] false w.

(** ** The bridge *)

Definition require_authenticated_runtime_context : io dict :=
  c <- ask k_hidden ;;
  refuse_when (negb (py_truth (py_get "runtime_channel_id" c)) || negb (py_truth (py_get "runtime_channel_token" c)))
    (Denied "UNAUTHENTICATED_EXTENSION_CHANNEL: sandboxed plugin runtime calls require a worker-authenticated channel") ;;
  refuse_when (bool_decide (text (py_get "_worker_instance_id" c) <> e_instance E))
    (Denied "UNAUTHENTICATED_EXTENSION_CHANNEL: runtime channel is not valid for this worker instance") ;;
  validate_runtime_auth_timing c ;;
  done c.

Definition require_runtime_tenant : io string :=
  c <- require_authenticated_runtime_context ;;
  let user := stext (py_get "user_id" c) in
  refuse_when (bool_decide (user = "")) (Denied "TENANT_VIOLATION: extension runtime call requires a tenant-scoped user_id") ;;
  done user.

(** [[str(item) for item in list(context.get("granted_capabilities") or [])]] *)
Definition granted (c : dict) : io (list string) :=
  l <- need (py_list (py_or (py_get "granted_capabilities" c) (VList []))) (TypeFault "object is not iterable") ;;
  done (map (py_str (e_render E)) l).

Definition not_granted (capability : string) : pyexn := Denied ("Extension capability '" +:+ capability +:+ "' not granted").

Definition require_runtime_capability (capability : string) : io unit :=
  c <- require_authenticated_runtime_context ;;
  g <- granted c ;;
  refuse_when (bool_decide (capability ∉ g)) (not_granted capability).

Definition extension_call_metadata (operation : string) : io dict :=
  c <- require_authenticated_runtime_context ;;
  user <- require_runtime_tenant ;;
  done [("surface", VStr "extension-runtime-api"); ("operation", VStr operation); ("tenant_user_id", VStr user);
        ("extension_name", VStr (stext (py_get "extension_name" c))); ("owner_class", VStr (stext (py_get "owner_class" c)));
        ("runtime_channel_id", VStr (text (py_get "runtime_channel_id" c))); ("sandbox_instance_id", VStr (text (py_get "sandbox_instance_id" c)));
        ("runner_type", VStr (text (py_get "runner_type" c))); ("runtime_channel_authenticated", VBool true)].

Definition extension_source_label : io string :=
  c <- require_authenticated_runtime_context ;;
  let name := stext (py_get "extension_name" c) in
  done (if bool_decide (name <> "") then "extension:" +:+ name else "extension-runtime-api").

Fixpoint own_tenant (keys : list string) (user : string) (args : dict) : io dict :=
  match keys with
  | [] => done args
  | k :: keys' =>
      if dict_mem k args then
        let v := stext (py_get k args) in
        refuse_when (bool_decide (v <> "") && bool_decide (v <> user)) (Denied ("TENANT_VIOLATION: extension tool call may not set " +:+ k)) ;;
        own_tenant keys' user (dict_set k (VStr user) args)
      else own_tenant keys' user args
  end.

Definition sanitize_tool_args (args : pyval) : io dict :=
  sanitized <- need (dict_or args) (TypeFault "cannot convert to dict") ;;
  user <- require_runtime_tenant ;;
  own_tenant ["user_id"; "tenant_id"] user sanitized.

Definition runtime_execution_metadata : io dict :=
  c <- require_authenticated_runtime_context ;;
  g <- granted c ;;
  let field k := (k, VStr (text (py_get k c))) in
  done (map field ["user_id"; "run_id"; "trace_id"; "extension_name"; "owner_class"; "runtime_channel_id"; "sandbox_instance_id"]
        ++ [("granted_capabilities", VList (map VStr g)); ("channel_type", VStr "worker-authenticated-rpc")]).

(** [_run_trusted_runtime_operation] of the worker's own calls *)
Definition run_trusted {A} (x : io A) : io A :=
  fun w => let '(w', r) := x (set_trusted true w) in (set_trusted (k_trusted w) w', r).

(** The answer of the next interaction. *)
Definition answered : io pyval := fun w => (tick w, e_answer E (k_tick w)).

Definition first_text (k k' : string) (c : dict) : string := text (py_or (py_get k c) (py_get k' c)).

(** The syscalls of the bridge: their names, capabilities, and payloads of a request. *)
Definition syscall_payload (operation : string) (request : dict) : io dict :=
  if decide (operation = "memory.read") then
    limit <- need (py_int (py_or (py_get "limit" request) (VInt 5))) (TypeFault "int() argument") ;;
    tags <- need (py_list (py_or (py_get "tags" request) (VList []))) (TypeFault "object is not iterable") ;;
    done [("query", VStr (text (py_get "query" request))); ("limit", VInt limit); ("tags", VList tags)]
  else if decide (operation = "memory.write") then
    tags <- need (py_list (py_or (py_get "tags" request) (VList []))) (TypeFault "object is not iterable") ;;
    source <- extension_source_label ;;
    done [("content", VStr (text (py_get "content" request))); ("tags", VList tags);
          ("node_type", VStr (text (py_or (py_get "node_type" request) (VStr "insight")))); ("source", VStr source)]
  else if decide (operation = "flow.run") then
    initial_state <- need (dict_or (py_get "initial_state" request)) (TypeFault "cannot convert to dict") ;;
    done [("flow_name", VStr (text (py_get "flow_name" request))); ("initial_state", VDict initial_state)]
  else
    payload <- need (dict_or (py_get "payload" request)) (TypeFault "cannot convert to dict") ;;
    done [("event_type", VStr (text (py_get "event_type" request))); ("payload", VDict payload)].

Definition BRIDGED : list (string * string) :=
  [("memory.read", "memory.read"); ("memory.write", "memory.write"); ("flow.run", "flow.run"); ("event.emit", "event.emit")].

Definition dispatch_operation (operation capability : string) (request c : dict) : io pyval :=
  require_runtime_capability capability ;;
  user <- require_runtime_tenant ;;
  run_trusted
    (payload <- syscall_payload operation request ;;
     meta <- extension_call_metadata operation ;;
     upd (fun w => log (Dispatched (e_clock E (k_tick w))
       (DispatchCall ("sys.v1." +:+ operation) payload user capability (first_text "trace_id" "run_id" c)
          (first_text "run_id" "trace_id" c) [("_extension_call", VDict meta)])) w) ;;
     answered).

Definition invoke_tool (request : dict) : io pyval :=
  require_runtime_capability "tool.invoke" ;;
  user <- require_runtime_tenant ;;
  args <- sanitize_tool_args (py_get "args" request) ;;
  run_trusted
    (upd (fun w => log (ToolInvoked (e_clock E (k_tick w)) (text (py_get "tool_name" request)) args user) w) ;;
     v <- answered ;;
     result <- need (match v with VDict d => Some d | _ => None end) no_attribute ;;
     if py_truth (py_get "success" result)
     then done (match py_get "result" result with VDict d => VDict d | value => VDict [("result", value)] end)
     else throw (Failure (if py_truth (py_get "error" result) then text (py_get "error" result) else "tool failed"))).

Definition runtime_api_bridge (operation : string) (payload : pyval) : io pyval :=
  request <- need (dict_or payload) (TypeFault "cannot convert to dict") ;;
  c <- require_authenticated_runtime_context ;;
  if decide (operation = "capabilities.list") then g <- granted c ;; done (VList (map VStr g))
  else if decide (operation = "execution.metadata") then d <- runtime_execution_metadata ;; done (VDict d)
  else match dict_get operation BRIDGED with
       | Some capability => dispatch_operation operation capability request c
       | None =>
           if decide (operation = "tool.invoke") then invoke_tool request
           else throw (Denied "unsupported extension runtime operation")
       end.

(** ** The runtime API of a plugin *)

Definition invoke_runtime_api (operation : string) (payload : pyval) : io pyval :=
  bridge <- ask k_bridge ;;
  refuse_when (negb bridge) (Denied "UNAUTHENTICATED_EXTENSION_CHANNEL: sandboxed plugin runtime calls require a worker-authenticated channel") ;;
  d <- need (dict_or payload) (TypeFault "cannot convert to dict") ;;
  runtime_api_bridge operation (VDict d).

Definition get_granted_capabilities : io (list string) :=
  v <- invoke_runtime_api "capabilities.list" VNone ;;
  l <- need (match v with VList l => Some l | _ => None end) (Failure "extension runtime API returned invalid capabilities payload") ;;
  done (map (py_str (e_render E)) l).

Definition expect_dict (what : string) (v : pyval) : io pyval :=
  match v with VDict d => done (VDict d) | _ => throw (Failure ("extension runtime API returned invalid " +:+ what +:+ " payload")) end.

Definition get_execution_metadata : io pyval :=
  v <- invoke_runtime_api "execution.metadata" VNone ;; expect_dict "execution metadata" v.

Definition require_capability (capability : string) : io unit :=
  g <- get_granted_capabilities ;; refuse_when (bool_decide (capability ∉ g)) (not_granted capability).

Definition api_call (operation : string) (payload : io dict) : io pyval :=
  require_capability operation ;;
  p <- payload ;;
  v <- invoke_runtime_api operation (VDict p) ;;
  expect_dict operation v.

Definition list_of (v : pyval) : io (list pyval) := need (py_list (py_or v (VList []))) (TypeFault "object is not iterable").
Definition dict_of (v : pyval) : io dict := need (dict_or v) (TypeFault "cannot convert to dict").

Definition memory_read (query limit tags : pyval) : io pyval :=
  api_call "memory.read"
    (n <- need (py_int limit) (TypeFault "int() argument") ;; l <- list_of tags ;;
     done [("query", query); ("limit", VInt n); ("tags", VList l)]).

Definition memory_write (content tags node_type : pyval) : io pyval :=
  api_call "memory.write" (l <- list_of tags ;; done [("content", content); ("tags", VList l); ("node_type", node_type)]).

Definition flow_run (flow_name initial_state : pyval) : io pyval :=
  api_call "flow.run" (d <- dict_of initial_state ;; done [("flow_name", flow_name); ("initial_state", VDict d)]).

Definition event_emit (event_type payload : pyval) : io pyval :=
  api_call "event.emit" (d <- dict_of payload ;; done [("event_type", event_type); ("payload", VDict d)]).

Definition tool_invoke (tool_name args : pyval) : io pyval :=
  api_call "tool.invoke" (d <- dict_of args ;; done [("tool_name", tool_name); ("args", VDict d)]).

Definition CAP_OUTBOUND_HTTP : string := "outbound.http".

Definition outbound_http_enabled : io bool :=
  g <- get_granted_capabilities ;; done (bool_decide (CAP_OUTBOUND_HTTP ∈ g)).

(** ** The guards *)

Definition ALLOWED_RUNTIME_IMPORTS : list string :=
  ["AINDY"; "AINDY.platform_layer"; "AINDY.platform_layer.extension_runtime_api"].

Definition runtime_name (name : string) : bool := starts_with "AINDY" name || starts_with "runtime" name.

(** [guarded_import] sees the name of the import statement, not the module it resolves to. *)
Definition import_allowed (trusted : bool) (name : string) : bool :=
  negb (runtime_name name) || trusted || bool_decide (name ∈ ALLOWED_RUNTIME_IMPORTS)
  || starts_with "AINDY.platform_layer.extension_runtime_api" name.

(** [importlib._bootstrap._resolve_name]: a relative import drops the last components of
    its package. *)
Definition absolute_name (package : string) (level : nat) (name : string) : string :=
  match level with
  | O => name
  | S n =>
      let parts := split_char "."%char package in
      let base := join_char "."%char (take (length parts - n) parts) in
      if bool_decide (name = "") then base else base +:+ "." +:+ name
  end.

Definition import_module (package : string) (level : nat) (name : string) : io pyval :=
  w <- ask (fun w => w) ;;
  refuse_when ((0 <? k_import w)%nat && negb (import_allowed (k_trusted w) name))
    (Denied "plugin runtime import blocked: not an allowed extension API module") ;;
  upd (log (Imported package level name)) ;;
  answered.

Definition PRIVATE_HOST_ALIASES : list string := ["localhost"; "127.0.0.1"; "::1"].

Definition extract_host (t : target) : option string :=
  match t with
  | TTuple v => Some (stext v)
  | TText s => Some (str_strip s)
  | TOther => None
  end.

Definition inner_address (c : ip_class) : bool :=
  is_private c || is_loopback c || is_link_local c || is_multicast c || is_reserved c.

Definition target_permitted (g : net_guard) (t : target) : bool :=
  ng_outbound g &&
  match extract_host t with
  | None => true
  | Some host =>
      if bool_decide (host = "") then true
      else
        let lowered := str_lower host in
        if bool_decide (lowered ∈ PRIVATE_HOST_ALIASES) && negb (ng_private g) then false
        else match e_ip E lowered with
             | None => true
             | Some c => negb (inner_address c && negb (ng_private g))
             end
  end.

Definition net_denied (g : net_guard) : pyexn :=
  if ng_outbound g then Denied "Outbound target blocked by extension network policy: private/loopback targets are denied"
  else Denied "Extension capability 'outbound.http' not granted".

(** The guards around a call, the last installed first. *)
Fixpoint net_checks (gs : list net_guard) (t : target) : io unit :=
  match gs with
  | [] => done tt
  | g :: gs' => refuse_when (negb (target_permitted g t)) (net_denied g) ;; net_checks gs' t
  end.

(** [plugin]: the call is plugin code's, not a probe's. *)
Definition connect (plugin : bool) (t : target) : io pyval :=
  gs <- ask k_net ;;
  net_checks gs t ;;
  (if plugin then upd (log (Connected t)) else done tt) ;;
  answered.

(** [socket.create_connection] connects to the addresses in turn and goes on after an
    [OSError], of which [PermissionError] is one. *)
Fixpoint connect_first (plugin : bool) (addresses : list target) (err : pyexn) : io pyval :=
  match addresses with
  | [] => throw err
  | t :: rest =>
      fun w => let '(w', r) := connect plugin t w in
               match r with
               | Ok v => (w', Ok v)
               | Err e => if bool_decide (x_class e ∈ ["OSError"; "PermissionError"; "TimeoutError"; "ConnectionRefusedError"])
                          then connect_first plugin rest e w' else (w', Err e)
               end
  end.

Definition create_connection (plugin : bool) (t : target) : io pyval :=
  gs <- ask k_net ;;
  net_checks gs t ;;
  addresses <- ask (fun w => e_addresses E (k_tick w)) ;;
  connect_first plugin addresses (PyExn "OSError" "getaddrinfo returns an empty list" false).

(** [root == path or root in path.parents] *)
Fixpoint under_root (root path : list string) : bool :=
  match root, path with
  | [], _ => true
  | x :: root', y :: path' => bool_decide (x = y) && under_root root' path'
  | _ :: _, [] => false
  end.

Definition path_is_within_allowed_roots (g : fs_guard) (path : list string) : bool :=
  under_root (fg_root g) path || existsb (fun root => under_root root path) (e_runtime_roots E).

Definition path_is_within_temp_root (g : fs_guard) (path : list string) : bool := under_root (fg_temp g) path.

Definition writes (mode : string) : bool :=
  let m := if bool_decide (mode = "") then "r" else mode in existsb (fun f => str_in f m) ["w"; "a"; "x"; "+"].

Definition ensure_allowed (g : fs_guard) (file mode : string) : io unit :=
  let resolved := e_realpath E file in
  refuse_when (writes mode && negb (path_is_within_temp_root g resolved)) (Denied "Filesystem write blocked by extension filesystem policy") ;;
  refuse_when (negb (path_is_within_allowed_roots g resolved) && negb (path_is_within_temp_root g resolved))
    (Denied "Filesystem path blocked by extension filesystem policy: only approved read-only roots are allowed").

(** O_WRONLY, O_RDWR, O_APPEND, O_CREAT, O_TRUNC *)
Definition WRITE_FLAGS : list Z := [1; 2; 1024; 64; 512].
Definition flags_mode (flags : Z) : string := if existsb (fun f => negb (Z.land flags f =? 0)%Z) WRITE_FLAGS then "w" else "r".

Definition MODE_FUNCTIONS : list string := ["builtins.open"; "io.open"; "Path.open"].
Definition READ_FUNCTIONS : list string := ["os.listdir"; "os.scandir"].
Definition WRITE_FUNCTIONS : list string :=
  ["Path.mkdir"; "Path.unlink"; "Path.rmdir"; "Path.touch"; "Path.write_text"; "Path.write_bytes"].
Definition PAIR_FUNCTIONS : list string := ["Path.rename"; "Path.replace"].

Definition GUARDED_FUNCTIONS : list string :=
  MODE_FUNCTIONS ++ ["os.open"] ++ READ_FUNCTIONS ++ WRITE_FUNCTIONS ++ PAIR_FUNCTIONS.

(** What the wrapper of a function checks: the path it is called on, and the target of a
    rename. Functions without a wrapper are not checked. *)
Definition fs_checked (fn : string) (paths : list string) (mode : string) (flags : Z) : list (string * string) :=
  let m := if decide (fn ∈ MODE_FUNCTIONS) then Some mode
           else if decide (fn = "os.open") then Some (flags_mode flags)
           else if decide (fn ∈ READ_FUNCTIONS) then Some "r"
           else if decide (fn ∈ WRITE_FUNCTIONS ++ PAIR_FUNCTIONS) then Some "w"
           else None in
  match m with
  | None => []
  | Some m => map (fun p => (p, m)) (take (if decide (fn ∈ PAIR_FUNCTIONS) then 2 else 1) paths)
  end.

Fixpoint ensure_all (g : fs_guard) (checks : list (string * string)) : io unit :=
  match checks with
  | [] => done tt
  | (p, m) :: rest => ensure_allowed g p m ;; ensure_all g rest
  end.

Fixpoint fs_checks (gs : list fs_guard) (checks : list (string * string)) : io unit :=
  match gs with
  | [] => done tt
  | g :: gs' => ensure_all g checks ;; fs_checks gs' checks
  end.

Definition fs_call (plugin : bool) (fn : string) (paths : list string) (mode : string) (flags : Z) : io pyval :=
  gs <- ask k_fs ;;
  fs_checks gs (fs_checked fn paths mode flags) ;;
  (if plugin then upd (log (FsDone fn paths mode flags)) else done tt) ;;
  answered.

(** ** Running plugin code *)

Definition run_call (c : call) : io pyval :=
  match c with
  | Import package level name => import_module package level name
  | FsCall fn paths mode flags => fs_call true fn paths mode flags
  | Connect t => connect true t
  | CreateConnection t => create_connection true t
  | InvokeApi operation payload => invoke_runtime_api operation payload
  | MemoryRead query limit tags => memory_read query limit tags
  | MemoryWrite content tags node_type => memory_write content tags node_type
  | FlowRun flow_name initial_state => flow_run flow_name initial_state
  | EventEmit event_type payload => event_emit event_type payload
  | ToolInvoke tool_name args => tool_invoke tool_name args
  | GetExecutionMetadata => get_execution_metadata
  | RequireCapability capability => require_capability capability ;; done VNone
  end.

Definition ALLOWED_BOOTSTRAP_CALLERS : list string := ["AINDY.platform_layer.extension_worker"; "__main__"].

Fixpoint run_prog (p : prog) (w : wk) : wk * result pyexn pyval :=
  match p with
  | Return v => (w, Ok v)
  | Throw e => (w, Err e)
  | Call c k => let '(w', r) := run_call c w in run_prog (k r) (tick w')
  | Trusted caller body k =>
      if decide (caller ∈ ALLOWED_BOOTSTRAP_CALLERS) then
        let '(w', r) := run_trusted (run_prog body) w in run_prog (k r) w'
      else run_prog (k (Err (Denied "extension runtime channel bootstrap is restricted to the extension worker"))) w
  end.

(** ** Loading *)

Definition is_alpha_ (c : ascii) : bool :=
  let n := nat_of_ascii c in (65 <=? n)%nat && (n <=? 90)%nat || (97 <=? n)%nat && (n <=? 122)%nat || (n =? 95)%nat.
Definition is_word (c : ascii) : bool := is_alpha_ c || (let n := nat_of_ascii c in (48 <=? n)%nat && (n <=? 57)%nat).
Definition isidentifier (s : string) : bool :=
  match String.list_ascii_of_string s with [] => false | c :: l => is_alpha_ c && forallb is_word l end.

(** [handler.rsplit(":", 1)] *)
Definition rsplit_colon (handler : string) : string * string :=
  let parts := split_char ":"%char handler in
  (join_char ":"%char (removelast parts), List.last parts "").

Definition resolve_plugin_source (handler root : string) : result pyexn (string * string * list string) :=
  if negb (str_in ":" handler) then Err (Invalid "plugin handler must be 'module:function'")
  else
    let '(module_part, func_name) := rsplit_colon handler in
    if str_in ".." module_part || starts_with "." module_part then Err (Invalid "plugin handler contains illegal path component")
    else
      let parts := split_char "."%char module_part in
      if negb (forallb isidentifier parts) then Err (Invalid "plugin handler module must use Python identifiers")
      else if negb (isidentifier func_name) then Err (Invalid "plugin handler function name must be an identifier")
      else
        let package_init := parts ++ ["__init__.py"] in
        let module_file := removelast parts ++ [List.last parts "" +:+ ".py"] in
        if e_is_file E root package_init then Ok (module_part, func_name, package_init)
        else if e_is_file E root module_file then Ok (module_part, func_name, module_file)
        else Err (Invalid "plugin module was not found").

Definition positional (p : param) : bool := bool_decide (pa_kind p = POSITIONAL_ONLY \/ pa_kind p = POSITIONAL_OR_KEYWORD).

Definition validate_plugin_callable (ps : list param) : io unit :=
  let required := filter (fun p => positional p && negb (pa_default p)) ps in
  refuse_when (bool_decide (length required < 2)%nat && negb (existsb (fun p => bool_decide (pa_kind p = VAR_POSITIONAL)) ps))
    (Invalid "plugin node must accept at least (state, context)") ;;
  refuse_when (bool_decide (2 < length required)%nat) (Invalid "plugin node requires unsupported positional arguments").

Definition PLUGIN_MODULE_NAMESPACE : string := "AINDY.plugins.nodes".

Definition source_text (root : string) (source : list string) : string := join_char "/"%char (root :: source).

(** The module's body runs when it is loaded. *)
Definition load_plugin_callable (handler root : string) : io ((pyval -> dict -> prog) * dict) :=
  match resolve_plugin_source handler root with
  | Err e => throw e
  | Ok (module_part, func_name, source) =>
      let module := e_module E root source in
      run_prog (pm_body module) ;;
      match pm_attr module func_name with
      | None => throw (Invalid "function not found in plugin module")
      | Some NotCallable => throw (Invalid "attribute is not callable")
      | Some (Function ps code) =>
          validate_plugin_callable ps ;;
          done (code, [("module_name", VStr module_part); ("function_name", VStr func_name);
                       ("qualified_name", VStr (PLUGIN_MODULE_NAMESPACE +:+ "." +:+ module_part));
                       ("source_path", VStr (source_text root source))])
      end
  end.

Definition VALID_STATUSES : list string := ["SUCCESS"; "RETRY"; "FAILURE"; "WAIT"].

Definition validate_response_contract (v : pyval) : io dict :=
  match v with
  | VDict d =>
      match py_get "status" d with
      | VStr s => if decide (s ∈ VALID_STATUSES) then done d else throw (Invalid "plugin node returned invalid status")
      | VList _ | VDict _ => throw (TypeFault "unhashable type")
      | _ => throw (Invalid "plugin node returned invalid status")
      end
  | _ => throw (Invalid "plugin node result must be a dict")
  end.

(** ** Probes *)

Definition verdict (status : string) (verified : bool) : pyval := VDict [("status", VStr status); ("verified", VBool verified)].

(** Run [x] and say what came of it; an exit of the interpreter goes on. *)
Definition observe {A} (x : io A) (k : result pyexn A -> io pyval) : io pyval :=
  fun w => let '(w', r) := x w in
           match r with
           | Err e => if x_exit e then (w', Err e) else k (Err e) w'
           | Ok a => k (Ok a) w'
           end.

(** A call that has to succeed, and one that the guards have to refuse. *)
Definition should_pass {A} (x : io A) : io pyval :=
  observe x (fun r => done (match r with Ok _ => verdict "passed" true | Err _ => verdict "failed" false end)).

Definition should_be_denied {A} (x : io A) : io pyval :=
  observe x (fun r => done (match r with
                            | Err e => if decide (x_class e = "PermissionError") then verdict "passed" true else verdict "failed" false
                            | Ok _ => verdict "failed" false
                            end)).

Definition probe_artifact_read_access (h : session) : io pyval :=
  let source := stext (py_get "source_path" (hs_provenance h)) in
  if decide (source = "") then done (verdict "unverified" false)
  else should_pass (fs_call false "builtins.open" [source] "r" 0).

(** [probe_file]: the path of a new name under a directory. *)
Definition probe_artifact_write_blocked (probe_file : list string -> string) (h : session) : io pyval :=
  should_be_denied (fs_call false "builtins.open" [probe_file (e_realpath E (default "" (hs_root h)))] "x" 0).

Definition probe_writable_temp_scope (probe_file : list string -> string) (h : session) : io pyval :=
  match hs_temp h with
  | None => done (verdict "unverified" false)
  | Some temp =>
      let f := probe_file temp in
      should_pass (fs_call false "builtins.open" [f] "w" 0 ;; fs_call false "builtins.open" [f] "r" 0 ;;
                   fs_call false "Path.unlink" [f] "" 0)
  end.

Definition probe_host_path_access_blocked (path_text : list string -> string) (h : session) : io pyval :=
  let g := FsGuard (e_realpath E (default "" (hs_root h))) [] in
  match List.find (fun p => negb (path_is_within_allowed_roots g p)) (e_probe_paths E) with
  | None => done (verdict "unverified" false)
  | Some p => should_be_denied (fs_call false "os.listdir" [path_text p] "r" 0)
  end.

Definition probe_network_policy (h : session) : io pyval :=
  outbound <- done (hs_outbound h) ;;
  deny <- (if outbound then done (verdict "not_applicable" false)
           else should_be_denied (create_connection false (TTuple (VStr "example.com")))) ;;
  inner <- (if outbound && negb (e_allow_private E) then should_be_denied (create_connection false (TTuple (VStr "127.0.0.1")))
            else if outbound then done (verdict "not_applicable" false)
            else done (verdict "passed" true)) ;;
  done (VDict [("socket_guard_active", verdict "passed" true); ("deny_by_default_outbound", deny);
               ("private_target_blocking", inner); ("expected_boundary_mode", verdict "passed" true)]).

Definition vtext (o : option string) : pyval := match o with Some s => VStr s | None => VNone end.

(** A guard is reported where the function is not the recorded original; before the
    session starts there is no record for files, and nothing is the missing one. *)
Definition host_probe_payload (probe_file path_text : list string -> string) : io pyval :=
  w <- ask (fun w => w) ;;
  let h := k_host w in
  let import_active := negb (k_import w =? hs_import0 h)%nat in
  let fs_active := match hs_fs0 h with Some n => negb (length (k_fs w) =? n)%nat | None => true end in
  let net_active := negb (length (k_net w) =? hs_net0 h)%nat in
  read <- probe_artifact_read_access h ;;
  write <- probe_artifact_write_blocked probe_file h ;;
  temp <- probe_writable_temp_scope probe_file h ;;
  paths <- probe_host_path_access_blocked path_text h ;;
  network <- probe_network_policy h ;;
  done (VDict
    [("worker_instance_id", VStr (e_instance E)); ("verification_scope", VStr LIVE_SCOPE);
     ("session_continuity", VDict
        [("started", VBool (match hs_callable h with Some _ => true | None => false end)); ("started_at", py_or (hs_started_at h) VNone);
         ("request_count", VInt (hs_requests h)); ("handler", vtext (hs_handler h)); ("plugin_root", vtext (hs_root h));
         ("extension_name", vtext (hs_extension h)); ("owner_class", vtext (hs_owner h)); ("sandbox_instance_id", vtext (hs_instance h))]);
     ("isolation_state", VDict
        [("import_guard_active", VBool import_active); ("filesystem_guard_active", VBool fs_active); ("network_guard_active", VBool net_active);
         ("guards_installed", VBool (hs_guards h)); ("environment_stripped", VBool true); ("runtime_modules_pruned", VBool true)]);
     ("boundary_metadata", VDict
        [("runtime_api_channel_hidden", VBool true); ("private_targets_allowed", VBool (e_allow_private E)); ("provenance", VDict (hs_provenance h))]);
     ("mount_network_state", VDict
        [("artifact_read_access", read); ("artifact_write_blocked", write); ("writable_temp_scope", temp);
         ("host_path_access_blocked", paths); ("network_policy", network)])]).

(** ** The session *)

Definition set_import0 (n : nat) (h : session) : session :=
  Session (hs_handler h) (hs_root h) (hs_callable h) (hs_extension h) (hs_owner h) (hs_instance h) (hs_provenance h) (hs_started_at h)
    (hs_requests h) (hs_guards h) n (hs_fs0 h) (hs_net0 h) (hs_temp h) (hs_outbound h).
Definition set_fs0 (n : nat) (temp : list string) (h : session) : session :=
  Session (hs_handler h) (hs_root h) (hs_callable h) (hs_extension h) (hs_owner h) (hs_instance h) (hs_provenance h) (hs_started_at h)
    (hs_requests h) (hs_guards h) (hs_import0 h) (Some n) (hs_net0 h) (Some temp) (hs_outbound h).
Definition set_net0 (n : nat) (h : session) : session :=
  Session (hs_handler h) (hs_root h) (hs_callable h) (hs_extension h) (hs_owner h) (hs_instance h) (hs_provenance h) (hs_started_at h)
    (hs_requests h) (hs_guards h) (hs_import0 h) (hs_fs0 h) n (hs_temp h) (hs_outbound h).
Definition set_guarded (outbound : bool) (h : session) : session :=
  Session (hs_handler h) (hs_root h) (hs_callable h) (hs_extension h) (hs_owner h) (hs_instance h) (hs_provenance h) (hs_started_at h)
    (hs_requests h) true (hs_import0 h) (hs_fs0 h) (hs_net0 h) (hs_temp h) outbound.
Definition set_started (handler root : string) (code : pyval -> dict -> prog) (extension owner instance : string) (prov : dict) (at_ : pyval) (h : session) : session :=
  Session (Some handler) (Some root) (Some code) (Some extension) (Some owner) (Some instance) prov at_
    (hs_requests h) (hs_guards h) (hs_import0 h) (hs_fs0 h) (hs_net0 h) (hs_temp h) (hs_outbound h).
Definition count_request (h : session) : session :=
  Session (hs_handler h) (hs_root h) (hs_callable h) (hs_extension h) (hs_owner h) (hs_instance h) (hs_provenance h) (hs_started_at h)
    (hs_requests h + 1) (hs_guards h) (hs_import0 h) (hs_fs0 h) (hs_net0 h) (hs_temp h) (hs_outbound h).

Definition install_import_guard : io unit :=
  upd (fun w => set_session (set_import0 (k_import w)) (set_guards (S (k_import w)) (k_fs w) (k_net w) w)).

Definition install_filesystem_guard (root : string) : io unit :=
  upd (fun w =>
    let g := FsGuard (e_realpath E root) (e_tempdir E (k_tick w)) in
    log (FsGuarded g) (set_session (set_fs0 (length (k_fs w)) (fg_temp g)) (set_guards (k_import w) (g :: k_fs w) (k_net w) (tick w)))).

Definition install_network_guard (outbound : bool) : io unit :=
  upd (fun w =>
    let g := NetGuard outbound (e_allow_private E) in
    log (NetGuarded g) (set_session (set_net0 (length (k_net w))) (set_guards (k_import w) (k_fs w) (g :: k_net w) w))).

Definition install_guards (root : string) : io unit :=
  installed <- ask (fun w => hs_guards (k_host w)) ;;
  if installed then done tt
  else
    install_import_guard ;;
    install_filesystem_guard root ;;
    outbound <- outbound_http_enabled ;;
    install_network_guard outbound ;;
    outbound' <- outbound_http_enabled ;;
    upd (set_session (set_guarded outbound')).

Definition ok_with (fields : dict) : pyval := VDict (("ok", VBool true) :: fields).
Definition host_error (message : string) : pyval := VDict [("ok", VBool false); ("error", VStr message)].

Definition start_command (payload : dict) : io pyval :=
  let handler := stext (py_get "handler" payload) in
  let root := stext (py_get "plugin_root" payload) in
  if decide (handler = "" \/ root = "") then done (host_error "plugin host start requires handler and plugin_root")
  else
    plugin_context <- extract_plugin_context (py_or (py_get "context" payload) (VDict [])) ;;
    install_guards root ;;
    loaded <- load_plugin_callable handler root ;;
    api <- api_descriptor plugin_context ;;
    let extension := stext (py_get "extension_name" plugin_context) in
    let owner := stext (py_get "owner_class" plugin_context) in
    let instance := stext (py_get "sandbox_instance_id" api) in
    upd (set_session (set_started handler root loaded.1 extension owner instance loaded.2 (py_or (py_get "started_at" payload) (VStr "")))) ;;
    upd (log (Started extension owner instance)) ;;
    done (ok_with [("provenance", VDict loaded.2)]).

Definition execute_command (payload : dict) : io pyval :=
  h <- ask k_host ;;
  match hs_callable h with
  | None => done (host_error "plugin host has not been started")
  | Some code =>
      plugin_context <- extract_plugin_context (py_or (py_get "context" payload) (VDict [])) ;;
      v <- run_prog (code (py_or (py_get "state" payload) (VDict [])) plugin_context) ;;
      result <- validate_response_contract v ;;
      upd (set_session count_request) ;;
      h' <- ask k_host ;;
      done (ok_with [("result", VDict result); ("provenance", VDict (hs_provenance h'))])
  end.

Definition session_started (w : wk) : bool := match hs_callable (k_host w) with Some _ => true | None => false end.

Definition command (probe_file path_text : list string -> string) (name : string) (payload : dict) : io pyval :=
  if decide (name = "start") then start_command payload
  else if decide (name = "heartbeat") then
    w <- ask (fun w => w) ;;
    done (ok_with [("request_count", VInt (hs_requests (k_host w))); ("started", VBool (session_started w))])
  else if decide (name = "probe") then
    w <- ask (fun w => w) ;;
    p <- host_probe_payload probe_file path_text ;;
    done (ok_with [("started", VBool (session_started w)); ("probe", p)])
  else if decide (name = "execute") then execute_command payload
  else done (host_error "unsupported host command").

(** A line of the host: its JSON value, or nothing where it is not JSON. *)
Inductive outcome := Answered (v : pyval) | Closed (v : pyval) | Died (e : pyexn).

Definition serve_line (probe_file path_text : list string -> string) (line : option pyval) (w : wk) : wk * outcome :=
  let w := log Received (tick w) in
  match line with
  | None => (w, Answered (host_error "invalid JSON request"))
  | Some (VDict payload) =>
      let name := stext (py_get "command" payload) in
      if decide (name = "shutdown") then (clear_runtime_channel w, Closed (ok_with [("status", VStr "shutting_down")]))
      else
        let '(w', r) := command probe_file path_text name payload w in
        match r with
        | Ok v => (clear_runtime_channel w', Answered v)
        | Err e => if x_exit e then (clear_runtime_channel w', Died e)
                   else (clear_runtime_channel w', Answered (host_error (x_class e +:+ ": " +:+ x_text e)))
        end
  | Some _ => (w, Died no_attribute)
  end.

(** [_handle_host_session] on the lines it is sent. *)
Fixpoint handle_host_session (probe_file path_text : list string -> string) (lines : list (option pyval)) (w : wk) : wk * list outcome :=
  match lines with
  | [] => (w, [])
  | line :: rest =>
      let '(w', o) := serve_line probe_file path_text line w in
      match o with
      | Answered _ => let '(w'', os) := handle_host_session probe_file path_text rest w' in (w'', o :: os)
      | _ => (w', [o])
      end
  end.

End worker.

Lemma andthen_ok {A B} (x : io A) (k : A -> io B) w w' b :
  andthen x k w = (w', Ok b) -> exists a w1, x w = (w1, Ok a) /\ k a w1 = (w', Ok b).
Proof. unfold andthen. destruct (x w) as [w1 [a | e]]; intros H; [by exists a, w1 | done]. Qed.

Lemma refuse_ok b e w w' u : refuse_when b e w = (w', Ok u) -> b = false /\ w' = w.
Proof. destruct b; cbn; intros [=]; done. Qed.

Lemma need_ok {A} (o : option A) e w w' a : need o e w = (w', Ok a) -> o = Some a /\ w' = w.
Proof. destruct o; cbn; intros [=]; by subst. Qed.

Ltac invert_io :=
  repeat match goal with
  | H : andthen _ _ _ = (_, Ok _) |- _ => apply andthen_ok in H as (? & ? & ? & H)
  | H : refuse_when _ _ _ = (_, Ok _) |- _ => apply refuse_ok in H as [? ->]
  | H : need _ _ _ = (_, Ok _) |- _ => apply need_ok in H as [? ->]
  | H : ask _ _ = (_, Ok _) |- _ => injection H as <- <-
  | H : done _ _ = (_, Ok _) |- _ => injection H as <- <-
  end.

(** ** What a session's log may hold *)

Section safety.
Context (E : surroundings).

(** The channel of the command being served: the last one authenticated since its line
    was received. *)
Definition current_auth (l : list effect) : option dict :=
  foldl (fun o e => match e with Received => None | Authenticated a => Some a | _ => o end) None l.

Definition caps_of (auth : dict) : list string :=
  match py_list (py_or (py_get "granted_capabilities" auth) (VList [])) with
  | Some l => map (py_str (e_render E)) l
  | None => []
  end.

(** The channel is live at [t], within the skew of the clocks. *)
Definition live (t : Q) (auth : dict) : Prop :=
  exists issued expires,
    py_float (e_float E) (py_or (py_get "issued_at" auth) (VFloat 0)) = Some issued /\
    py_float (e_float E) (py_or (py_get "expires_at" auth) (VFloat 0)) = Some expires /\
    float_le expires issued = false /\
    float_lt (Fin t) (float_add issued (- AUTH_CLOCK_SKEW)) = false /\
    float_lt (float_add expires AUTH_CLOCK_SKEW) (Fin t) = false.

Definition acts_for (auth : dict) (t : Q) (user capability : string) : Prop :=
  user = stext E (py_get "user_id" auth) /\ user <> "" /\ capability ∈ caps_of auth /\ live t auth.

Definition nonce_of (auth : dict) : string := stext E (py_get "runtime_channel_nonce" auth).

(** A path a guard lets through for a mode. *)
Definition confined (g : fs_guard) (path mode : string) : Prop :=
  let p := e_realpath E path in
  path_is_within_temp_root g p = true \/ (writes mode = false /\ path_is_within_allowed_roots E g p = true).

(** [Some x] of what a session was started with binds the channels that follow. *)
Definition binds (x : string) (auth : dict) (k : string) : Prop := x <> "" -> stext E (py_get k auth) = x.

Definition lawful (l : list effect) (e : effect) : Prop :=
  match e with
  | Dispatched t d =>
      exists auth, current_auth l = Some auth /\ acts_for auth t (dc_user d) (dc_capability d) /\
        exists operation, dc_name d = "sys.v1." +:+ operation /\ dict_get operation BRIDGED = Some (dc_capability d)
  | ToolInvoked t tool args user =>
      exists auth, current_auth l = Some auth /\ acts_for auth t user "tool.invoke" /\
        forall k, k ∈ ["user_id"; "tenant_id"] -> dict_mem k args = true -> py_get k args = VStr user
  | Authenticated auth =>
      (forall auth', Authenticated auth' ∈ l -> nonce_of auth' <> nonce_of auth) /\
      (forall extension owner instance, Started extension owner instance ∈ l ->
         binds extension auth "extension_name" /\ binds owner auth "owner_class" /\ binds instance auth "sandbox_instance_id")
  | NetGuarded g =>
      ng_private g = e_allow_private E /\
      (ng_outbound g = true -> exists auth, current_auth l = Some auth /\ CAP_OUTBOUND_HTTP ∈ caps_of auth)
  | FsDone fn paths mode flags =>
      (exists g, FsGuarded g ∈ l) /\
      forall g p m, FsGuarded g ∈ l -> (p, m) ∈ fs_checked fn paths mode flags -> confined g p m
  | Connected t => (exists g, NetGuarded g ∈ l) /\ forall g, NetGuarded g ∈ l -> target_permitted E g t = true
  | _ => True
  end.

Definition lawful_log (l : list effect) : Prop := forall l1 e l2, l = l1 ++ e :: l2 -> lawful l1 e.

Lemma lawful_snoc l e : lawful_log l -> lawful l e -> lawful_log (l ++ [e]).
Proof.
  intros Hl He l1 e' l2 Heq. destruct l2 as [ | x l2] using rev_ind.
  - apply app_inj_tail in Heq as [-> ->]. done.
  - rewrite app_comm_cons, app_assoc in Heq. apply app_inj_tail in Heq as [-> ->]. by eapply Hl.
Qed.

Lemma current_auth_snoc l e :
  current_auth (l ++ [e]) = match e with Received => None | Authenticated a => Some a | _ => current_auth l end.
Proof. unfold current_auth. by rewrite foldl_app. Qed.

(** Effects plugin code has on its own: they change neither the channel nor the guards. *)
Definition plugin_effect (e : effect) : bool :=
  match e with Imported _ _ _ | FsDone _ _ _ _ | Connected _ | Dispatched _ _ | ToolInvoked _ _ _ _ => true | _ => false end.

Lemma current_auth_plugin l l' : forallb plugin_effect l' = true -> current_auth (l ++ l') = current_auth l.
Proof.
  induction l' as [ | e l' IH] using rev_ind; [by rewrite app_nil_r | ].
  rewrite forallb_app, andb_true_iff. cbn. intros [H He]. rewrite app_assoc, current_auth_snoc. destruct e; try done; by apply IH.
Qed.

(** The worker between two states of running code. *)
Record framed (w w' : wk) : Prop := Framed {
  fr_seen : k_seen w' = k_seen w;
  fr_hidden : k_hidden w' = k_hidden w;
  fr_bridge : k_bridge w' = k_bridge w;
  fr_fs : k_fs w' = k_fs w;
  fr_net : k_net w' = k_net w;
  fr_host : k_host w' = k_host w;
  fr_log : exists l, k_log w' = k_log w ++ l /\ forallb plugin_effect l = true }.

Lemma framed_refl w : framed w w.
Proof. split; try done. exists []. by rewrite app_nil_r. Qed.

Lemma framed_trans w w' w'' : framed w w' -> framed w' w'' -> framed w w''.
Proof.
  intros [? ? ? ? ? ? [l [Hl ?]]] [? ? ? ? ? ? [l' [Hl' ?]]]. split; try congruence.
  exists (l ++ l'). rewrite Hl', Hl, app_assoc, forallb_app. split; [done | ]. by apply andb_true_iff.
Qed.

Record inv (w : wk) : Prop := Inv {
  i_log : lawful_log (k_log w);
  i_hidden : k_hidden w = [] \/
             exists auth, current_auth (k_log w) = Some auth /\ k_hidden w = dict_set "_worker_instance_id" (VStr (e_instance E)) auth;
  i_seen : forall auth, Authenticated auth ∈ k_log w -> e_instance E +:+ ":" +:+ nonce_of auth ∈ k_seen w;
  i_fs : forall g, FsGuarded g ∈ k_log w <-> g ∈ k_fs w;
  i_net : forall g, NetGuarded g ∈ k_log w <-> g ∈ k_net w;
  i_guards : hs_guards (k_host w) = true -> k_fs w <> [] /\ k_net w <> [];
  i_callable : hs_callable (k_host w) <> None -> hs_guards (k_host w) = true;
  i_started : forall x o i, Started x o i ∈ k_log w ->
    (x <> "" -> hs_extension (k_host w) = Some x) /\ (o <> "" -> hs_owner (k_host w) = Some o) /\ (i <> "" -> hs_instance (k_host w) = Some i) }.

Definition kept (e : effect) : bool := match e with Received | Authenticated _ | FsGuarded _ | NetGuarded _ | Started _ _ _ => true | _ => false end.

Lemma elem_of_framed w w' e : framed w w' -> kept e = true -> e ∈ k_log w' <-> e ∈ k_log w.
Proof.
  intros [_ _ _ _ _ _ [l [-> Hl]]] He. rewrite elem_of_app. split; [intros [H | H]; [done | ] | by left].
  exfalso. apply list_elem_of_In in H. rewrite forallb_forall in Hl. apply Hl in H. by destruct e.
Qed.

Lemma framed_inv w w' : inv w -> framed w w' -> lawful_log (k_log w') -> inv w'.
Proof.
  intros I F L. pose proof F as F'. destruct I, F' as [Hs Hh Hb Hf Hn Ho [l [Hl Hp]]].
  split; rewrite ?Hs, ?Hh, ?Hf, ?Hn, ?Ho; try done.
  - destruct i_hidden0 as [ | (auth & Hc & ->)]; [by left | right]. exists auth. by rewrite Hl, (current_auth_plugin _ _ Hp).
  - intros auth H. apply i_seen0. by apply (elem_of_framed w w') in H.
  - intros g. rewrite <- i_fs0. by apply (elem_of_framed w w').
  - intros g. rewrite <- i_net0. by apply (elem_of_framed w w').
  - intros x o i H. apply i_started0. by apply (elem_of_framed w w') in H.
Qed.

(** What running a computation from [P] leaves: a framed lawful state, and [Q] of the
    value it returns. *)
Definition calm {A} (P : wk -> Prop) (x : io A) (Q : A -> wk -> Prop) : Prop :=
  forall w, P w -> framed w (x w).1 /\ lawful_log (k_log (x w).1) /\ match (x w).2 with Ok a => Q a (x w).1 | Err _ => True end.

Definition lawful_state (P : wk -> Prop) : Prop := forall w, P w -> lawful_log (k_log w).

Lemma calm_bind {A B} (x : io A) (k : A -> io B) P Q R :
  calm P x Q -> (forall a, calm (Q a) (k a) R) -> calm P (andthen x k) R.
Proof.
  intros Hx Hk w HP. destruct (Hx w HP) as (Hf & Hl & Hr). unfold andthen.
  destruct (x w) as [w' [a | e]]; cbn in *; [ | done].
  destruct (Hk a w' Hr) as (? & ? & ?). split; [by eapply framed_trans | done].
Qed.

Lemma calm_weaken {A} (x : io A) (P P' : wk -> Prop) (Q Q' : A -> wk -> Prop) :
  calm P x Q -> (forall w, P' w -> P w) -> (forall a w, Q a w -> Q' a w) -> calm P' x Q'.
Proof.
  intros H HP HQ w Hw. destruct (H w (HP w Hw)) as (? & ? & Hr). split; [done | split; [done | ]]. destruct ((x w).2); auto.
Qed.

(** Computations that only look. *)
Definition reader {A} (x : io A) : Prop := forall w, (x w).1 = w.

Lemma reader_done {A} (a : A) : reader (done a).
Proof. done. Qed.
Lemma reader_throw {A} e : reader (@throw A e).
Proof. done. Qed.
Lemma reader_ask {A} (f : wk -> A) : reader (ask f).
Proof. done. Qed.
Lemma reader_need {A} (o : option A) e : reader (need o e).
Proof. by destruct o. Qed.
Lemma reader_refuse b e : reader (refuse_when b e).
Proof. by destruct b. Qed.
Lemma reader_bind {A B} (x : io A) (k : A -> io B) : reader x -> (forall a, reader (k a)) -> reader (andthen x k).
Proof.
  intros Hx Hk w. unfold andthen. specialize (Hx w). destruct (x w) as [w' [a | e]]; cbn in *; subst; [apply Hk | done].
Qed.

Lemma reader_calm {A} (x : io A) P : reader x -> lawful_state P -> calm P x (fun a w => P w /\ x w = (w, Ok a)).
Proof.
  intros Hx HP w Hw. specialize (Hx w). destruct (x w) as [w' r] eqn:Hxw; cbn in *; subst w'.
  split; [apply framed_refl | split; [by apply HP | ]]. destruct r; [done | done].
Qed.

(** *** The channel and the bridge *)

Ltac reader :=
  repeat first
    [ apply reader_done | apply reader_throw | apply reader_ask | apply reader_need | apply reader_refuse
    | match goal with |- reader (andthen _ _) => apply reader_bind; [ | intros ?] end | assumption ].

Lemma reader_timing c : reader (validate_runtime_auth_timing E c).
Proof. unfold validate_runtime_auth_timing, float_field. reader. Qed.

Lemma timing_ok c w w' u : validate_runtime_auth_timing E c w = (w', Ok u) -> live (e_clock E (k_tick w)) c.
Proof.
  unfold validate_runtime_auth_timing, float_field. intros H. invert_io.
  exists x, x1. rewrite !orb_false_iff in *. destruct_and!. done.
Qed.

Lemma reader_authenticated : reader (require_authenticated_runtime_context E).
Proof. unfold require_authenticated_runtime_context. pose proof reader_timing. reader; auto. Qed.

Lemma authenticated_ok w w' c : require_authenticated_runtime_context E w = (w', Ok c) ->
  w' = w /\ c = k_hidden w /\ py_truth (py_get "runtime_channel_id" c) = true /\ live (e_clock E (k_tick w)) c.
Proof.
  intros H. pose proof (reader_authenticated w) as Hr. rewrite H in Hr; cbn in Hr. subst w'.
  unfold require_authenticated_runtime_context in H. invert_io.
  match goal with Ht : validate_runtime_auth_timing _ _ _ = _ |- _ => apply timing_ok in Ht end.
  rewrite orb_false_iff in *. destruct_and!. repeat split; try done. by destruct (py_truth _).
Qed.

Lemma reader_granted c : reader (granted E c).
Proof. unfold granted. reader. Qed.

Lemma granted_ok c w w' g : granted E c w = (w', Ok g) -> w' = w /\ g = caps_of c.
Proof. unfold granted, caps_of. intros H. invert_io. by rewrite H0. Qed.

Lemma reader_tenant : reader (require_runtime_tenant E).
Proof. unfold require_runtime_tenant. pose proof reader_authenticated. reader; auto. Qed.

Lemma tenant_ok w w' user : require_runtime_tenant E w = (w', Ok user) ->
  w' = w /\ user = stext E (py_get "user_id" (k_hidden w)) /\ user <> "" /\ live (e_clock E (k_tick w)) (k_hidden w) /\
  py_truth (py_get "runtime_channel_id" (k_hidden w)) = true.
Proof.
  unfold require_runtime_tenant. intros H. invert_io.
  match goal with Ha : require_authenticated_runtime_context _ _ = _ |- _ => apply authenticated_ok in Ha as (-> & -> & ? & ?) end.
  repeat split; try done. by case_bool_decide.
Qed.

Lemma reader_capability c : reader (require_runtime_capability E c).
Proof. unfold require_runtime_capability. pose proof reader_authenticated. pose proof reader_granted. reader; auto. Qed.

Lemma capability_ok c w w' u : require_runtime_capability E c w = (w', Ok u) -> w' = w /\ c ∈ caps_of (k_hidden w).
Proof.
  unfold require_runtime_capability. intros H. invert_io.
  match goal with Ha : require_authenticated_runtime_context _ _ = _ |- _ => apply authenticated_ok in Ha as (-> & -> & ? & ?) end.
  match goal with Ha : granted _ _ _ = _ |- _ => apply granted_ok in Ha as [-> ->] end.
  split; [done | ]. apply bool_decide_eq_false in H. by apply dec_stable.
Qed.

Lemma hidden_get k auth : k <> "_worker_instance_id" -> py_get k (dict_set "_worker_instance_id" (VStr (e_instance E)) auth) = py_get k auth.
Proof. intros H. by apply py_get_set_ne. Qed.

Lemma hidden_live t auth : live t (dict_set "_worker_instance_id" (VStr (e_instance E)) auth) -> live t auth.
Proof. unfold live. by rewrite !hidden_get. Qed.

Lemma hidden_caps auth : caps_of (dict_set "_worker_instance_id" (VStr (e_instance E)) auth) = caps_of auth.
Proof. unfold caps_of. by rewrite hidden_get. Qed.

(** A tenant found while a capability is held acts for the channel being served. *)
Lemma acting w user capability :
  inv w -> require_runtime_tenant E w = (w, Ok user) -> capability ∈ caps_of (k_hidden w) ->
  exists auth, current_auth (k_log w) = Some auth /\ acts_for auth (e_clock E (k_tick w)) user capability.
Proof.
  intros I Hu Hc. apply tenant_ok in Hu as (_ & Hu & Hne & Hl & Hid).
  destruct (i_hidden w I) as [He | (auth & Hcur & He)]; rewrite He in *; [done | ].
  exists auth. split; [done | ]. rewrite hidden_get in Hu by done. rewrite hidden_caps in Hc. apply hidden_live in Hl. done.
Qed.

Lemma acting_user w user : inv w -> require_runtime_tenant E w = (w, Ok user) ->
  exists auth, current_auth (k_log w) = Some auth /\ user = stext E (py_get "user_id" auth).
Proof.
  intros I Hu. apply tenant_ok in Hu as (_ & Hu & _ & _ & Hid).
  destruct (i_hidden w I) as [He | (auth & Hcur & He)]; rewrite He in *; [done | ].
  exists auth. split; [done | ]. by rewrite hidden_get in Hu.
Qed.

Lemma inv_lawful P : (forall w, P w -> inv w) -> lawful_state P.
Proof. intros H w Hw. by apply i_log, H. Qed.

Lemma log_framed e w : plugin_effect e = true -> framed w (log e w).
Proof. intros H. split; try done. exists [e]. cbn. by rewrite H. Qed.

Lemma calm_answered P : lawful_state P -> calm P (answered E) (fun _ _ => True).
Proof.
  intros H w Hw. cbn. split; [ | split; [by apply (H w) | by destruct (e_answer E (k_tick w))]].
  split; try done. exists []. by rewrite app_nil_r.
Qed.

Lemma calm_log e (P : wk -> Prop) : (forall w, P w -> inv w /\ plugin_effect (e w) = true /\ lawful (k_log w) (e w)) ->
  calm P (upd (fun w => log (e w) w)) (fun _ => inv).
Proof.
  intros H w Hw. destruct (H w Hw) as (I & He & Hl). cbn.
  assert (Hg : lawful_log (k_log w ++ [e w])) by (apply lawful_snoc; [apply I | done]).
  split; [by apply log_framed | split; [done | ]]. by eapply framed_inv; [ | apply log_framed | ].
Qed.

(** Trust does not matter to what is kept. *)
Lemma inv_trusted b w : inv w -> inv (set_trusted b w).
Proof. by intros []; split. Qed.

Lemma framed_trusted w w' b : framed (set_trusted true w) w' -> framed w (set_trusted b w').
Proof. by intros []; split. Qed.

Lemma calm_trusted {A} (x : io A) P Q : calm P x Q -> (forall w, P w -> P (set_trusted true w)) -> calm P (run_trusted x) (fun _ _ => True).
Proof.
  intros H HP w Hw. destruct (H _ (HP w Hw)) as (Hf & Hl & _). unfold run_trusted.
  destruct (x (set_trusted true w)) as [w' r]; cbn in *. split; [by apply framed_trusted | split; [done | by destruct r]].
Qed.

Lemma reader_payload operation request : reader (syscall_payload E operation request).
Proof. unfold syscall_payload, extension_source_label. pose proof reader_authenticated. repeat case_decide; reader; auto. Qed.

Lemma reader_metadata operation : reader (extension_call_metadata E operation).
Proof. unfold extension_call_metadata. pose proof reader_authenticated. pose proof reader_tenant. reader; auto. Qed.

(** A state in which [user] may act with [capability]. *)
Definition cleared_to_act (user capability : string) (w : wk) : Prop :=
  inv w /\ exists auth, current_auth (k_log w) = Some auth /\ acts_for auth (e_clock E (k_tick w)) user capability.

Lemma cleared_lawful user capability : lawful_state (cleared_to_act user capability).
Proof. apply inv_lawful. by intros w []. Qed.

Lemma cleared_trusted user capability w : cleared_to_act user capability w -> cleared_to_act user capability (set_trusted true w).
Proof. intros [I H]. split; [by apply inv_trusted | done]. Qed.

Lemma calm_clearance {A} capability (k : string -> io A) Q :
  (forall user, calm (cleared_to_act user capability) (k user) Q) ->
  calm inv (andthen (require_runtime_capability E capability) (fun _ => andthen (require_runtime_tenant E) k)) Q.
Proof.
  intros Hk. eapply calm_bind; [apply reader_calm; [apply reader_capability | by apply inv_lawful] | intros u; cbn].
  eapply calm_bind; [apply reader_calm; [apply reader_tenant | apply inv_lawful; by intros w []] | intros user; cbn].
  eapply calm_weaken; [apply Hk | | done]. intros w [[I Hc] Hu]. apply capability_ok in Hc as [_ Hc]. split; [done | by apply acting].
Qed.

Lemma calm_dispatch operation capability request c :
  dict_get operation BRIDGED = Some capability -> calm inv (dispatch_operation E operation capability request c) (fun _ _ => True).
Proof.
  intros Hop. unfold dispatch_operation. apply calm_clearance. intros user.
  eapply (calm_trusted _ _ (fun _ _ => True)); [ | apply cleared_trusted].
  eapply calm_bind; [apply reader_calm; [apply reader_payload | apply cleared_lawful] | intros payload; cbn].
  eapply calm_bind; [apply reader_calm; [apply reader_metadata | apply inv_lawful; by intros w [[]]] | intros meta; cbn].
  eapply calm_bind with (Q := fun _ => inv); [ | intros ?; apply calm_answered; by apply inv_lawful].
  apply (calm_log (fun w => Dispatched _ _)). intros w [[[I (auth & Hcur & Ha)] _] _].
  split; [done | split; [done | ]]. exists auth. split; [done | split; [done | ]]. by exists operation.
Qed.

Lemma own_tenant_keys keys user args w w' args' k : own_tenant E keys user args w = (w', Ok args') -> dict_mem k args' = dict_mem k args.
Proof.
  revert args w. induction keys as [ | k0 keys IH]; cbn; intros args w H; [by injection H as _ <- | ].
  destruct (dict_mem k0 args) eqn:Hm; [ | by eapply IH]. invert_io. erewrite IH by done.
  apply eq_bool_prop_intro. rewrite !Is_true_true, !dict_mem_true, dict_keys_set. by rewrite Hm.
Qed.

Lemma own_tenant_ok keys user args w w' args' k : own_tenant E keys user args w = (w', Ok args') ->
  dict_mem k args = true -> k ∈ keys \/ py_get k args = VStr user -> py_get k args' = VStr user.
Proof.
  revert args w. induction keys as [ | k0 keys IH]; cbn; intros args w H Hk Hin.
  - injection H as _ <-. destruct Hin as [Hin | ]; [by apply elem_of_nil in Hin | done].
  - destruct (dict_mem k0 args) eqn:Hm.
    + invert_io. eapply IH; [done | | ].
      * rewrite dict_mem_true, dict_keys_set, Hm. by apply dict_mem_true.
      * destruct (decide (k = k0)) as [-> | Hne]; [right; by rewrite py_get_set_eq | ].
        rewrite py_get_set_ne by done. rewrite elem_of_cons in Hin. tauto.
    + eapply IH; [done | done | ]. destruct (decide (k = k0)) as [-> | Hne]; [congruence | ]. rewrite elem_of_cons in Hin. tauto.
Qed.

(** Properties that running code keeps, and code that keeps them. *)
Definition steady_state (P : wk -> Prop) : Prop :=
  (forall w, P w -> inv w) /\ (forall w w', P w -> framed w w' -> lawful_log (k_log w') -> P w') /\ (forall b w, P w -> P (set_trusted b w)).

Lemma steady_inv : steady_state inv.
Proof. split; [done | split; [apply framed_inv | intros; by apply inv_trusted]]. Qed.

(** Both guards are in place. *)
Definition guarded_state (w : wk) : Prop := inv w /\ k_fs w <> [] /\ k_net w <> [].

Lemma steady_guarded : steady_state guarded_state.
Proof.
  split; [by intros w [] | split].
  - intros w w' (I & Hf & Hn) F L. split; [by eapply framed_inv | ]. by rewrite (fr_fs w w' F), (fr_net w w' F).
  - intros b w (I & Hf & Hn). split; [by apply inv_trusted | done].
Qed.

Definition tame {A} (P : wk -> Prop) (x : io A) : Prop := calm P x (fun _ => P).

Section tame.
Context (P : wk -> Prop) (HP : steady_state P).

Lemma steady_lawful : lawful_state P.
Proof. apply inv_lawful. apply HP. Qed.

Lemma steady_framed w w' : P w -> framed w w' -> lawful_log (k_log w') -> P w'.
Proof. apply HP. Qed.

Lemma tame_calm {A} (x : io A) Q : calm inv x Q -> tame P x.
Proof.
  intros H w Hw. destruct (H w) as (Hf & Hl & _); [by apply HP | ]. split; [done | split; [done | ]].
  destruct ((x w).2); [ | done]. by eapply steady_framed.
Qed.

Lemma tame_bind {A B} (x : io A) (k : A -> io B) : tame P x -> (forall a, tame P (k a)) -> tame P (andthen x k).
Proof. apply calm_bind. Qed.

Lemma tame_reader {A} (x : io A) : reader x -> tame P x.
Proof. intros H. eapply calm_weaken; [by apply reader_calm, steady_lawful | done | by intros ? ? []]. Qed.

Lemma tame_answered : tame P (answered E).
Proof. eapply tame_calm, calm_answered, inv_lawful. done. Qed.

Lemma tame_trusted {A} (x : io A) : tame P x -> tame P (run_trusted x).
Proof.
  intros H w Hw. destruct (calm_trusted x P _ H ltac:(intros; by apply HP) w Hw) as (Hf & Hl & _).
  split; [done | split; [done | ]]. destruct ((run_trusted x w).2); [ | done]. by eapply steady_framed.
Qed.

Lemma tame_tick {A} (x : io A) w : tame P x -> P w -> P (tick (x w).1).
Proof.
  intros H Hw. destruct (H w Hw) as (Hf & Hl & _). eapply steady_framed; [by eapply steady_framed | | done].
  split; try done. exists []. by rewrite app_nil_r.
Qed.

End tame.

Ltac tame HP :=
  repeat first
    [ match goal with |- tame _ (andthen _ _) => apply tame_bind; [ | intros ?] end
    | apply tame_answered; exact HP
    | apply tame_reader; [exact HP | solve [reader; eauto]]
    | assumption
    | solve [eauto] ].

Lemma reader_own_tenant keys user args : reader (own_tenant E keys user args).
Proof.
  revert args. induction keys as [ | k keys IH]; cbn; intros args; [reader | ].
  destruct (dict_mem k args); [ | done]. reader. apply IH.
Qed.

Lemma reader_sanitize args : reader (sanitize_tool_args E args).
Proof. unfold sanitize_tool_args. pose proof reader_tenant. pose proof reader_own_tenant. reader; auto. Qed.

Lemma sanitize_ok args w w' args' : sanitize_tool_args E args w = (w', Ok args') ->
  exists user, require_runtime_tenant E w = (w, Ok user) /\
    forall k, k ∈ ["user_id"; "tenant_id"] -> dict_mem k args' = true -> py_get k args' = VStr user.
Proof.
  unfold sanitize_tool_args. intros H. invert_io.
  match goal with Hu : require_runtime_tenant _ _ = (_, Ok ?u) |- _ => pose proof (tenant_ok _ _ _ Hu) as (-> & _); exists u end.
  split; [done | ]. intros k Hk Hm. rewrite (own_tenant_keys _ _ _ _ _ _ k H) in Hm. by eapply own_tenant_ok; [ | | left].
Qed.

Lemma tame_tool request : tame inv (invoke_tool E request).
Proof.
  apply (tame_calm inv steady_inv _ (fun _ _ => True)). apply calm_clearance. intros user.
  eapply calm_bind; [apply reader_calm; [apply reader_sanitize | apply cleared_lawful] | intros args; cbn].
  set (P := fun w => cleared_to_act user "tool.invoke" w /\ forall k, k ∈ ["user_id"; "tenant_id"] -> dict_mem k args = true -> py_get k args = VStr user).
  eapply (calm_weaken _ P _ (fun _ _ => True)); [ | | done].
  - eapply (calm_trusted _ _ (fun _ _ => True)); [ | intros w [H ?]; split; [by apply cleared_trusted | done]].
    eapply calm_bind with (Q := fun _ => inv).
    + apply (calm_log (fun w => ToolInvoked _ _ _ _)). intros w [[I (auth & Hcur & Ha)] Hk].
      split; [done | split; [done | ]]. by exists auth.
    + intros u. eapply calm_weaken with (Q := fun _ => inv); [ | done | done].
      match goal with |- calm inv ?x _ => change (tame inv x) end.
      tame steady_inv. destruct (py_truth _); [ | by tame steady_inv].
      destruct (py_get _ _); tame steady_inv.
  - intros w [Hc Hs]. split; [done | ]. apply sanitize_ok in Hs as (user' & Hu' & Hk).
    destruct Hc as [I (auth & Hcur & Hu & _)].
    destruct (acting_user w user' I Hu') as (auth' & Hcur' & ->). by simplify_eq.
Qed.

Lemma reader_execution_metadata : reader (runtime_execution_metadata E).
Proof. unfold runtime_execution_metadata. pose proof reader_authenticated. pose proof reader_granted. reader; auto. Qed.

Lemma tame_dispatch operation capability request c :
  dict_get operation BRIDGED = Some capability -> tame inv (dispatch_operation E operation capability request c).
Proof. intros H. eapply tame_calm; [apply steady_inv | by apply calm_dispatch]. Qed.

Lemma tame_bridge operation payload : tame inv (runtime_api_bridge E operation payload).
Proof.
  unfold runtime_api_bridge. pose proof reader_authenticated. pose proof reader_granted. pose proof reader_execution_metadata.
  tame steady_inv. repeat case_decide; [by tame steady_inv | by tame steady_inv | | ];
    (destruct (dict_get operation BRIDGED) eqn:Hb; [by apply tame_dispatch | ]); [apply tame_tool | by tame steady_inv].
Qed.

Section code.
Context (P : wk -> Prop) (HP : steady_state P).

Lemma tame_invoke operation payload : tame P (invoke_runtime_api E operation payload).
Proof. unfold invoke_runtime_api. tame HP. eapply tame_calm; [done | apply tame_bridge]. Qed.

Lemma tame_granted : tame P (get_granted_capabilities E).
Proof. unfold get_granted_capabilities. pose proof tame_invoke. tame HP. Qed.

Lemma tame_require capability : tame P (require_capability E capability).
Proof. unfold require_capability. pose proof tame_granted. tame HP. Qed.

Lemma tame_expect what v : tame P (expect_dict what v).
Proof. destruct v; apply tame_reader; done. Qed.

Lemma tame_api_call operation (payload : io dict) : reader payload -> tame P (api_call E operation payload).
Proof. intros H. unfold api_call. pose proof tame_require. pose proof tame_invoke. pose proof tame_expect. tame HP. Qed.

Lemma tame_outbound : tame P (outbound_http_enabled E).
Proof. unfold outbound_http_enabled. pose proof tame_granted. tame HP. Qed.

End code.

Lemma reader_net_checks gs t : reader (net_checks E gs t).
Proof. induction gs; cbn; reader. Qed.

Lemma net_checks_ok gs t w w' u : net_checks E gs t w = (w', Ok u) -> forall g, g ∈ gs -> target_permitted E g t = true.
Proof.
  revert w. induction gs as [ | g gs IH]; intros w H g' Hg'; [by apply elem_of_nil in Hg' | ]. cbn in H. invert_io.
  apply elem_of_cons in Hg' as [-> | Hg']; [by destruct (target_permitted E g t) | by eapply IH].
Qed.

Lemma reader_ensure_all g checks : reader (ensure_all E g checks).
Proof. induction checks as [ | [p m] checks IH]; cbn; unfold ensure_allowed; reader. Qed.

Lemma reader_fs_checks gs checks : reader (fs_checks E gs checks).
Proof. pose proof reader_ensure_all. induction gs; cbn; reader; auto. Qed.

Lemma ensure_allowed_ok g p m w w' u : ensure_allowed E g p m w = (w', Ok u) -> confined g p m.
Proof.
  unfold ensure_allowed, confined. intros H. invert_io.
  destruct (path_is_within_temp_root g _), (writes m), (path_is_within_allowed_roots E g _); cbn in *; auto; done.
Qed.

Lemma ensure_all_ok g checks w w' u : ensure_all E g checks w = (w', Ok u) -> forall p m, (p, m) ∈ checks -> confined g p m.
Proof.
  revert w. induction checks as [ | [p m] checks IH]; intros w H p' m' Hin; [by apply elem_of_nil in Hin | ]. cbn in H. invert_io.
  apply elem_of_cons in Hin as [[= -> ->] | Hin]; [by eapply ensure_allowed_ok | by eapply IH].
Qed.

Lemma fs_checks_ok gs checks w w' u : fs_checks E gs checks w = (w', Ok u) -> forall g p m, g ∈ gs -> (p, m) ∈ checks -> confined g p m.
Proof.
  revert w. induction gs as [ | g gs IH]; intros w H g' p m Hg' Hin; [by apply elem_of_nil in Hg' | ]. cbn in H. invert_io.
  apply elem_of_cons in Hg' as [-> | Hg']; [by eapply ensure_all_ok | by eapply IH].
Qed.

Lemma guarded_lawful : lawful_state guarded_state.
Proof. apply steady_lawful, steady_guarded. Qed.

Lemma tame_fs_call fn paths mode flags : tame guarded_state (fs_call E true fn paths mode flags).
Proof.
  unfold fs_call. eapply calm_bind; [apply reader_calm; [done | apply guarded_lawful] | intros gs; cbn].
  eapply calm_bind; [apply reader_calm; [apply reader_fs_checks | apply inv_lawful; by intros w [[]]] | intros u; cbn].
  eapply calm_bind with (Q := fun _ => guarded_state); [ | intros ?; apply tame_answered, steady_guarded].
  intros w [[HG [= <-]] Hc]. cbn.
  assert (Hl : lawful (k_log w) (FsDone fn paths mode flags)).
  { destruct HG as (I & Hf & _). split.
    - destruct (k_fs w) as [ | g gs] eqn:Hgs; [done | ]. exists g. apply (i_fs w I). rewrite Hgs. left.
    - intros g p m Hg Hin. apply (i_fs w I) in Hg. by eapply fs_checks_ok. }
  assert (L : lawful_log (k_log w ++ [FsDone fn paths mode flags])) by (apply lawful_snoc; [apply HG | done]).
  split; [by apply log_framed | split; [done | ]]. by eapply steady_framed; [apply steady_guarded | | apply log_framed | ].
Qed.

Lemma tame_connect t : tame guarded_state (connect E true t).
Proof.
  unfold connect. eapply calm_bind; [apply reader_calm; [done | apply guarded_lawful] | intros gs; cbn].
  eapply calm_bind; [apply reader_calm; [apply reader_net_checks | apply inv_lawful; by intros w [[]]] | intros u; cbn].
  eapply calm_bind with (Q := fun _ => guarded_state); [ | intros ?; apply tame_answered, steady_guarded].
  intros w [[HG [= <-]] Hc]. cbn.
  assert (Hl : lawful (k_log w) (Connected t)).
  { destruct HG as (I & _ & Hn). split.
    - destruct (k_net w) as [ | g gs] eqn:Hgs; [done | ]. exists g. apply (i_net w I). rewrite Hgs. left.
    - intros g Hg. apply (i_net w I) in Hg. by eapply net_checks_ok. }
  assert (L : lawful_log (k_log w ++ [Connected t])) by (apply lawful_snoc; [apply HG | done]).
  split; [by apply log_framed | split; [done | ]]. by eapply steady_framed; [apply steady_guarded | | apply log_framed | ].
Qed.

Lemma tame_connect_first addresses err : tame guarded_state (connect_first E true addresses err).
Proof.
  revert err. induction addresses as [ | t rest IH]; intros err; [by apply tame_reader, reader_throw; apply steady_guarded | ].
  intros w Hw. cbn [connect_first]. destruct (tame_connect t w Hw) as (Hf & Hl & Hr). destruct (connect E true t w) as [w' [v | e]]; cbn in *; [done | ].
  case_bool_decide; [ | done].
  assert (Hw' : guarded_state w') by (by eapply steady_framed; [apply steady_guarded | | | ]).
  destruct (IH e w' Hw') as (? & ? & ?). split; [by eapply framed_trans | done].
Qed.

Lemma tame_create t : tame guarded_state (create_connection E true t).
Proof.
  unfold create_connection. pose proof reader_net_checks. pose proof tame_connect_first. tame steady_guarded.
Qed.

Lemma tame_import package level name : tame guarded_state (import_module E package level name).
Proof.
  unfold import_module. tame steady_guarded. intros w Hw. cbn.
  assert (L : lawful_log (k_log w ++ [Imported package level name])) by (apply lawful_snoc; [apply Hw | done]).
  split; [by apply log_framed | split; [done | ]]. by eapply steady_framed; [apply steady_guarded | | apply log_framed | ].
Qed.

Lemma tame_run_call c : tame guarded_state (run_call E c).
Proof.
  pose proof steady_guarded as HG. destruct c; cbn [run_call].
  - apply tame_import.
  - apply tame_fs_call.
  - apply tame_connect.
  - apply tame_create.
  - by apply tame_invoke.
  - apply tame_api_call; [done | ]. unfold list_of. reader.
  - apply tame_api_call; [done | ]. unfold list_of. reader.
  - apply tame_api_call; [done | ]. unfold dict_of. reader.
  - apply tame_api_call; [done | ]. unfold dict_of. reader.
  - apply tame_api_call; [done | ]. unfold dict_of. reader.
  - unfold get_execution_metadata. pose proof (tame_invoke guarded_state HG). pose proof (tame_expect guarded_state HG). tame HG.
  - pose proof (tame_require guarded_state HG). tame HG.
Qed.

(** Whatever plugin code does. *)
Lemma tame_prog p : tame guarded_state (run_prog E p).
Proof.
  induction p as [v | e | c k IH | caller body IHb k IH].
  - by apply tame_reader; [apply steady_guarded | ].
  - by apply tame_reader; [apply steady_guarded | ].
  - intros w Hw. cbn [run_prog]. destruct (tame_run_call c w Hw) as (Hf & Hl & _).
    pose proof (tame_tick guarded_state steady_guarded _ w (tame_run_call c) Hw) as Hw'.
    destruct (run_call E c w) as [w' r]; cbn in *. destruct (IH r (tick w') Hw') as (Hf' & ? & ?).
    split; [ | done]. eapply framed_trans; [ | done]. eapply framed_trans; [done | ]. split; try done. exists []. by rewrite app_nil_r.
  - intros w Hw. cbn [run_prog]. case_decide; [ | by apply IH].
    destruct (tame_trusted guarded_state steady_guarded _ IHb w Hw) as (Hf & Hl & Hr).
    destruct (run_trusted (run_prog E body) w) as [w' r]; cbn in *.
    assert (Hw' : guarded_state w') by (by eapply steady_framed; [apply steady_guarded | | | ]).
    destruct (IH r w' Hw') as (Hf' & ? & ?). split; [by eapply framed_trans | done].
Qed.

Lemma tame_load handler root : tame guarded_state (load_plugin_callable E handler root).
Proof.
  unfold load_plugin_callable. pose proof tame_prog. destruct (resolve_plugin_source E handler root) as [[[m f] src] | e];
    [ | by apply tame_reader; [apply steady_guarded | ]].
  tame steady_guarded. destruct (pm_attr _ f) as [[ | ps code] | ]; [by tame steady_guarded | | by tame steady_guarded].
  unfold validate_plugin_callable. tame steady_guarded.
Qed.

(** *** Commands *)

(** [P] leads to [Q] of the value returned; the invariant survives an exception. *)
Definition triple {A} (P : wk -> Prop) (x : io A) (Q : A -> wk -> Prop) : Prop :=
  forall w, P w -> match (x w).2 with Ok a => Q a (x w).1 | Err _ => inv (x w).1 end.

Lemma triple_bind {A B} (x : io A) (k : A -> io B) P Q R :
  triple P x Q -> (forall a, triple (Q a) (k a) R) -> triple P (andthen x k) R.
Proof.
  intros Hx Hk w HP. specialize (Hx w HP). unfold andthen. destruct (x w) as [w' [a | e]]; cbn in *; [by apply Hk | done].
Qed.

Lemma triple_weaken {A} (x : io A) (P P' : wk -> Prop) (Q Q' : A -> wk -> Prop) :
  triple P x Q -> (forall w, P' w -> P w) -> (forall a w, Q a w -> Q' a w) -> triple P' x Q'.
Proof. intros H HP HQ w Hw. specialize (H w (HP w Hw)). destruct ((x w).2); auto. Qed.

Lemma triple_reader {A} (x : io A) P : reader x -> (forall w, P w -> inv w) -> triple P x (fun a w => P w /\ x w = (w, Ok a)).
Proof.
  intros Hx HP w Hw. specialize (Hx w). destruct (x w) as [w' [a | e]] eqn:Hxw; cbn in *; subst; [done | by apply HP].
Qed.

Lemma triple_upd (f : wk -> wk) (P : wk -> Prop) (Q : unit -> wk -> Prop) : (forall w, P w -> Q tt (f w)) -> triple P (upd f) Q.
Proof. intros H w Hw. by apply H. Qed.

Lemma triple_tame {A} (x : io A) (P P0 : wk -> Prop) :
  steady_state P -> (forall w, P w -> P0 w) -> tame P0 x -> triple P x (fun _ => P).
Proof.
  intros HP H0 H w Hw. destruct (H w (H0 w Hw)) as (Hf & Hl & _).
  assert (HP' : P (x w).1) by (by eapply (steady_framed P HP)). destruct ((x w).2); [done | by apply HP].
Qed.

(** A command is served for [auth], whose plugin context is [pc]. *)
Definition agrees (o : option string) (x : string) : Prop := match o with Some y => y <> "" -> x = y | None => True end.

Record serving (auth pc : dict) (w : wk) : Prop := Serving {
  sv_inv : inv w;
  sv_auth : current_auth (k_log w) = Some auth;
  sv_bound : forall k, k ∈ BOUND_KEYS -> stext E (py_get k pc) = stext E (py_get k auth);
  sv_instance : forall api, as_dict (py_get "runtime_api" pc) = Some api ->
                  stext E (py_get "sandbox_instance_id" api) = stext E (py_get "sandbox_instance_id" auth);
  sv_host : agrees (hs_extension (k_host w)) (stext E (py_get "extension_name" auth)) /\
            agrees (hs_owner (k_host w)) (stext E (py_get "owner_class" auth)) /\
            agrees (hs_instance (k_host w)) (stext E (py_get "sandbox_instance_id" auth)) }.

Lemma steady_serving auth pc : steady_state (serving auth pc).
Proof.
  split; [by intros w [] | split].
  - intros w w' [I Ha Hb Hi Hh] F L. split; try done.
    + by eapply framed_inv.
    + destruct (fr_log w w' F) as (l & -> & Hl). by rewrite current_auth_plugin.
    + by rewrite (fr_host w w' F).
  - intros b w []. split; try done. by apply inv_trusted.
Qed.

Definition serving_guarded (auth pc : dict) (w : wk) : Prop := serving auth pc w /\ guarded_state w.

Lemma steady_serving_guarded auth pc : steady_state (serving_guarded auth pc).
Proof.
  split; [by intros w [[]] | split].
  - intros w w' [Hs Hg] F L. split; [by eapply (steady_framed _ (steady_serving auth pc)) | by eapply (steady_framed _ steady_guarded)].
  - intros b w [Hs Hg]. split; [by apply steady_serving | by apply steady_guarded].
Qed.

Lemma run_reader {A B} (x : io A) (k : A -> io B) w :
  reader x -> andthen x k w = match (x w).2 with Ok a => k a w | Err e => (w, Err e) end.
Proof. intros Hx. unfold andthen. specialize (Hx w). by destruct (x w) as [w' [a | e]]; cbn in *; subst. Qed.

Lemma reader_bound keys pc auth : reader (bound E keys pc auth).
Proof. induction keys; cbn; reader. Qed.

Lemma reader_host_bound h auth : reader (host_bound E h auth).
Proof. unfold host_bound. reader. Qed.

Lemma bound_ok keys pc auth w w' u : bound E keys pc auth w = (w', Ok u) -> forall k, k ∈ keys -> stext E (py_get k pc) = stext E (py_get k auth).
Proof.
  revert w. induction keys as [ | k keys IH]; intros w H k' Hk; [by apply elem_of_nil in Hk | ]. cbn in H. invert_io.
  apply elem_of_cons in Hk as [-> | Hk]; [ | by eapply IH]. by apply bool_decide_eq_false, dec_stable in H0.
Qed.

Lemma mismatch_agrees (o : option string) x :
  match o with Some y => bool_decide (y <> "") && bool_decide (y <> x) | None => false end = false -> agrees o x.
Proof.
  destruct o as [y | ]; [ | done]. intros H Hy. rewrite andb_false_iff, !bool_decide_eq_false in H.
  destruct H as [H | H]; [done | ]. by apply dec_stable in H.
Qed.

Lemma host_bound_ok h auth w w' u : host_bound E h auth w = (w', Ok u) ->
  agrees (hs_extension h) (stext E (py_get "extension_name" auth)) /\
  agrees (hs_owner h) (stext E (py_get "owner_class" auth)) /\
  agrees (hs_instance h) (stext E (py_get "sandbox_instance_id" auth)).
Proof. unfold host_bound. intros H. invert_io. auto using mismatch_agrees. Qed.

(** What a validated channel has passed. *)
Definition channel_passed (P : wk -> Prop) (pc auth : dict) (w' : wk) : Prop :=
  let key := e_instance E +:+ ":" +:+ nonce_of auth in
  exists w, P w /\ w' = set_channel (key :: k_seen w) (k_hidden w) (k_bridge w) w /\ key ∉ k_seen w /\
    (forall k, k ∈ BOUND_KEYS -> stext E (py_get k pc) = stext E (py_get k auth)) /\
    (forall api, as_dict (py_get "runtime_api" pc) = Some api ->
       stext E (py_get "sandbox_instance_id" api) = stext E (py_get "sandbox_instance_id" auth)) /\
    agrees (hs_extension (k_host w)) (stext E (py_get "extension_name" auth)) /\
    agrees (hs_owner (k_host w)) (stext E (py_get "owner_class" auth)) /\
    agrees (hs_instance (k_host w)) (stext E (py_get "sandbox_instance_id" auth)).

Ltac pass HP :=
  eapply triple_bind;
    [ apply triple_reader; [solve [reader; auto] | let H := fresh in intros ? H; apply HP; repeat apply proj1 in H; exact H]
    | intros ?; cbv beta ].

Lemma validate_spec pc auth P : (forall w, P w -> inv w) ->
  triple P (validate_runtime_auth_binding E pc auth)
    (fun v w' => v = dict_set "_worker_instance_id" (VStr (e_instance E)) auth /\ channel_passed P pc auth w').
Proof.
  intros HP. unfold validate_runtime_auth_binding, consume_nonce, api_descriptor.
  pose proof reader_timing as Rt. pose proof reader_bound as Rb. pose proof reader_host_bound as Rh.
  do 10 pass HP.
  eapply triple_bind with (Q := fun _ => channel_passed P pc auth); [ | by intros u w Hw].
  do 2 pass HP. apply triple_upd. intros w H. destruct_and! H.
  repeat match goal with Hx : _ = (w, Ok _) |- _ => first [apply need_ok in Hx as [? _] | apply refuse_ok in Hx as [? _] | injection Hx as Hx] end.
  subst. exists w. split; [done | split; [done | ]].
  rewrite bool_decide_eq_false in *. split; [done | ]. split; [by eapply bound_ok | ].
  split; [ | by eapply host_bound_ok]. intros api Hapi. simplify_eq. by apply dec_stable.
Qed.

Lemma snoc_or {A} (e e' : A) l : e ∈ l ++ [e'] -> e ∈ l \/ e = e'.
Proof. intros H. apply elem_of_app in H as [ | H]; [by left | right]. by apply list_elem_of_singleton in H. Qed.

Lemma Started_agrees w x o i auth : inv w -> Started x o i ∈ k_log w ->
  agrees (hs_extension (k_host w)) (stext E (py_get "extension_name" auth)) ->
  agrees (hs_owner (k_host w)) (stext E (py_get "owner_class" auth)) ->
  agrees (hs_instance (k_host w)) (stext E (py_get "sandbox_instance_id" auth)) ->
  binds x auth "extension_name" /\ binds o auth "owner_class" /\ binds i auth "sandbox_instance_id".
Proof.
  intros I Hs He Ho Hi. destruct (i_started w I x o i Hs) as (Sx & So & Si). unfold binds. repeat split; intros H.
  - rewrite Sx in He by done. by apply He.
  - rewrite So in Ho by done. by apply Ho.
  - rewrite Si in Hi by done. by apply Hi.
Qed.

(** The state a validated channel is entered in. *)
Definition entered (auth : dict) (w : wk) : wk :=
  log (Authenticated auth)
    (set_channel ((e_instance E +:+ ":" +:+ nonce_of auth) :: k_seen w) (dict_set "_worker_instance_id" (VStr (e_instance E)) auth) true w).

Lemma entered_serving pc auth w w' : channel_passed inv pc auth w' -> w = set_channel (k_seen w') (dict_set "_worker_instance_id" (VStr (e_instance E)) auth) true w' ->
  serving auth pc (log (Authenticated auth) w).
Proof.
  intros (w0 & I & -> & Hn & Hb & Hi & He & Ho & Hx) ->. destruct I as [Il Ih Is If In Ig Ic Ist] eqn:HI.
  assert (L : lawful_log (k_log w0 ++ [Authenticated auth])).
  { apply lawful_snoc; [done | ]. split; [ | intros x o i Hs; by eapply (Started_agrees w0)].
    intros auth' Ha Heq. apply Hn. rewrite <- Heq. by apply Is. }
  split; cbn; [ | by rewrite current_auth_snoc | done | done | done].
  split; cbn; try done.
  - right. exists auth. by rewrite current_auth_snoc.
  - intros auth' Ha. apply snoc_or in Ha as [Ha | [= ->]]; [right; by apply Is | left].
  - intros g. rewrite <- If, elem_of_app. split; [intros [ | Hg]; [done | by apply list_elem_of_singleton in Hg] | by left].
  - intros g. rewrite <- In, elem_of_app. split; [intros [ | Hg]; [done | by apply list_elem_of_singleton in Hg] | by left].
  - intros x o i Hs. apply Ist. by apply snoc_or in Hs as [ | ].
Qed.

Lemma extract_spec context : triple inv (extract_plugin_context E context) (fun pc w => exists auth, serving auth pc w).
Proof.
  unfold extract_plugin_context. do 3 pass (fun (w : wk) (H : inv w) => H).
  match goal with |- triple ?P (andthen (validate_runtime_auth_binding _ ?pc ?auth) _) ?Q =>
    apply (triple_weaken _ inv P Q Q); [ | by intros w [[[]]] | done];
    eapply triple_bind; [by apply validate_spec | intros v; cbv beta] end.
  eapply triple_bind; [eapply triple_upd with (Q := fun _ w => serving _ _ (log (Authenticated _) w)) | intros u].
  - intros w' [-> Hp]. by eapply entered_serving.
  - eapply triple_bind with (Q := fun _ w => exists auth, serving auth _ w); [apply triple_upd | ].
    + intros w H. by eexists.
    + by intros [] w H.
Qed.

(** *** Guards *)

Lemma inv_session f w : inv w ->
  (hs_guards (f (k_host w)) = true -> k_fs w <> [] /\ k_net w <> []) -> (hs_callable (f (k_host w)) <> None -> hs_guards (f (k_host w)) = true) ->
  hs_extension (f (k_host w)) = hs_extension (k_host w) -> hs_owner (f (k_host w)) = hs_owner (k_host w) -> hs_instance (f (k_host w)) = hs_instance (k_host w) ->
  inv (set_session f w).
Proof. intros [] Hg Hc He Ho Hi. split; cbn; try done. by rewrite He, Ho, Hi. Qed.

Lemma serving_session auth pc f w : serving auth pc w -> inv (set_session f w) ->
  hs_extension (f (k_host w)) = hs_extension (k_host w) -> hs_owner (f (k_host w)) = hs_owner (k_host w) -> hs_instance (f (k_host w)) = hs_instance (k_host w) ->
  serving auth pc (set_session f w).
Proof. intros [] I He Ho Hi. split; cbn; try done. by rewrite He, Ho, Hi. Qed.

Lemma get_granted_ok w w' g : get_granted_capabilities E w = (w', Ok g) ->
  w' = w /\ g = caps_of (k_hidden w) /\ py_truth (py_get "runtime_channel_id" (k_hidden w)) = true.
Proof.
  unfold get_granted_capabilities, invoke_runtime_api, runtime_api_bridge. intros H. invert_io.
  match goal with Hd : context [decide ("capabilities.list" = "capabilities.list")] |- _ => rewrite decide_True in Hd by done end. invert_io.
  match goal with Ha : require_authenticated_runtime_context _ _ = _ |- _ => apply authenticated_ok in Ha as (-> & -> & ? & ?) end.
  match goal with Ha : granted _ _ _ = _ |- _ => apply granted_ok in Ha as [-> ->] end.
  simplify_eq. split; [done | split; [ | done]]. rewrite map_map. apply map_id.
Qed.

Lemma outbound_spec auth pc : triple (serving auth pc) (outbound_http_enabled E)
  (fun b w => serving auth pc w /\ (b = true -> CAP_OUTBOUND_HTTP ∈ caps_of auth)).
Proof.
  intros w Hw. unfold outbound_http_enabled.
  destruct (andthen _ _ w) as [w' [b | e]] eqn:H; cbn.
  - invert_io. match goal with Ha : get_granted_capabilities _ _ = _ |- _ => apply get_granted_ok in Ha as (-> & -> & Hid) end.
    split; [done | ]. rewrite bool_decide_eq_true. intros Hc.
    destruct (i_hidden w (sv_inv _ _ _ Hw)) as [He | (auth' & Hcur & He)]; rewrite He in *; [done | ].
    rewrite hidden_caps in Hc. rewrite (sv_auth _ _ _ Hw) in Hcur. by injection Hcur as ->.
  - destruct (tame_outbound inv steady_inv w (sv_inv _ _ _ Hw)) as (Hf & Hl & _). unfold outbound_http_enabled in *. rewrite H in *. cbn in *.
    eapply framed_inv; [ | done | done]. apply Hw.
Qed.

(** A new guard joins the log and the list of guards. *)
Lemma serving_fs_guard auth pc g f w : serving auth pc w -> (forall h, hs_guards (f h) = hs_guards h /\ hs_callable (f h) = hs_callable h /\
    hs_extension (f h) = hs_extension h /\ hs_owner (f h) = hs_owner h /\ hs_instance (f h) = hs_instance h) ->
  serving auth pc (log (FsGuarded g) (set_session f (set_guards (k_import w) (g :: k_fs w) (k_net w) (tick w)))) /\
  k_fs (log (FsGuarded g) (set_session f (set_guards (k_import w) (g :: k_fs w) (k_net w) (tick w)))) <> [].
Proof.
  intros [I Ha Hb Hi Hh] Hf. destruct (Hf (k_host w)) as (Eg & Ec & Ee & Eo & Ei). split; [ | done].
  split; cbn; rewrite ?Ee, ?Eo, ?Ei, ?current_auth_snoc; try done.
  destruct I as [Il Ih Is If In Ig Ic Ist]. split; cbn; rewrite ?Ee, ?Eo, ?Ei, ?Eg, ?Ec, ?current_auth_snoc; try done.
  - by apply lawful_snoc.
  - intros auth' H. apply snoc_or in H as [ | ]; [by apply Is | done].
  - intros g'. rewrite elem_of_cons, <- If, elem_of_app, list_elem_of_singleton. split; [intros [ | [= ->]] | intros [-> | ]]; auto.
  - intros g'. rewrite <- In, elem_of_app, list_elem_of_singleton. split; [by intros [ | ] | by left].
  - intros H. apply Ig in H as []. done.
  - intros x o i H. apply snoc_or in H as [ | ]; [by apply Ist | done].
Qed.

Lemma serving_net_guard auth pc g f w : serving auth pc w -> k_fs w <> [] -> ng_private g = e_allow_private E -> (ng_outbound g = true -> CAP_OUTBOUND_HTTP ∈ caps_of auth) ->
  (forall h, hs_guards (f h) = hs_guards h /\ hs_callable (f h) = hs_callable h /\
    hs_extension (f h) = hs_extension h /\ hs_owner (f h) = hs_owner h /\ hs_instance (f h) = hs_instance h) ->
  serving_guarded auth pc (log (NetGuarded g) (set_session f (set_guards (k_import w) (k_fs w) (g :: k_net w) w))).
Proof.
  intros [I Ha Hb Hi Hh] Hne Hpr Hcap Hf. destruct (Hf (k_host w)) as (Eg & Ec & Ee & Eo & Ei).
  match goal with |- serving_guarded _ _ ?w' => assert (I' : inv w') end.
  { destruct I as [Il Ih Is If In Ig Ic Ist]. split; cbn; rewrite ?Ee, ?Eo, ?Ei, ?Eg, ?Ec, ?current_auth_snoc; try done.
    - apply lawful_snoc; [done | ]. split; [done | ]. intros H. exists auth. auto.
    - intros auth' H. apply snoc_or in H as [ | ]; [by apply Is | done].
    - intros g'. rewrite <- If, elem_of_app, list_elem_of_singleton. split; [by intros [ | ] | by left].
    - intros g'. rewrite elem_of_cons, <- In, elem_of_app, list_elem_of_singleton. split; [intros [ | [= ->]] | intros [-> | ]]; auto.
    - intros x o i H. apply snoc_or in H as [ | ]; [by apply Ist | done]. }
  split; [ | by split]. split; cbn; rewrite ?Ee, ?Eo, ?Ei, ?current_auth_snoc; done.
Qed.

Lemma serving_guarded_session auth pc f w : serving_guarded auth pc w ->
  (hs_callable (f (k_host w)) <> None -> hs_guards (f (k_host w)) = true) ->
  hs_extension (f (k_host w)) = hs_extension (k_host w) -> hs_owner (f (k_host w)) = hs_owner (k_host w) -> hs_instance (f (k_host w)) = hs_instance (k_host w) ->
  serving_guarded auth pc (set_session f w).
Proof.
  intros [Hs (I & Hf & Hn)] Hc He Ho Hi. assert (I' : inv (set_session f w)) by (apply inv_session; auto).
  split; [by apply serving_session | by split].
Qed.

Lemma serving_import auth pc n i w : serving auth pc w -> serving auth pc (set_session (set_import0 n) (set_guards i (k_fs w) (k_net w) w)).
Proof. intros [[] ? ? ? ?]. by split. Qed.

Lemma install_spec auth pc root : triple (serving auth pc) (install_guards E root) (fun _ => serving_guarded auth pc).
Proof.
  unfold install_guards. pass (fun w (H : serving auth pc w) => sv_inv _ _ _ H). destruct a.
  - intros w [Hw [= Hg]]. cbn. split; [done | ]. split; [apply Hw | ]. by apply (i_guards w (sv_inv _ _ _ Hw)).
  - apply triple_bind with (Q := fun _ => serving auth pc).
    { apply triple_upd. intros w [Hw _]. by apply serving_import. }
    intros _. apply triple_bind with (Q := fun _ w => serving auth pc w /\ k_fs w <> []).
    { apply triple_upd. intros w Hw. by apply (serving_fs_guard auth pc (FsGuard _ _)). }
    intros _. apply triple_bind with (Q := fun b w => (serving auth pc w /\ k_fs w <> []) /\ (b = true -> CAP_OUTBOUND_HTTP ∈ caps_of auth)).
    { intros w [Hw Hf]. pose proof (outbound_spec auth pc w Hw) as H. destruct (tame_outbound inv steady_inv w (sv_inv _ _ _ Hw)) as (F & _).
      destruct (outbound_http_enabled E w) as [w' [b | e]]; cbn in *; [ | done]. destruct H as [Hs Hb]. by rewrite (fr_fs _ _ F). }
    intros outbound. apply triple_bind with (Q := fun _ => serving_guarded auth pc).
    { apply triple_upd. intros w [[Hw Hf] Hc]. by apply serving_net_guard. }
    intros _. apply triple_bind with (Q := fun _ => serving_guarded auth pc).
    { eapply triple_tame; [apply steady_serving_guarded | | apply (tame_outbound inv steady_inv)]. by intros w [[]]. }
    intros b. apply triple_upd. intros w Hw. by apply serving_guarded_session.
Qed.

(** *** Sessions *)

Lemma serving_started auth pc api code handler root prov at_ w :
  serving_guarded auth pc w -> hs_guards (k_host w) = true -> as_dict (py_get "runtime_api" pc) = Some api ->
  let x := stext E (py_get "extension_name" pc) in
  let o := stext E (py_get "owner_class" pc) in
  let i := stext E (py_get "sandbox_instance_id" api) in
  inv (log (Started x o i) (set_session (set_started handler root code x o i prov at_) w)).
Proof.
  intros [[I Ha Hb Hi (He & Ho & Hn)] _] Hg Hapi x o i.
  assert (Hx : x = stext E (py_get "extension_name" auth)) by (apply Hb; repeat constructor).
  assert (Ho' : o = stext E (py_get "owner_class" auth)) by (apply Hb; repeat constructor).
  assert (Hi' : i = stext E (py_get "sandbox_instance_id" auth)) by (by apply Hi).
  destruct I as [Il Ih Is If In Ig Ic Ist]. split; cbn; rewrite ?current_auth_snoc; try done.
  - by apply lawful_snoc.
  - intros auth' H. apply snoc_or in H as [ | ]; [by apply Is | done].
  - intros g. rewrite <- If, elem_of_app, list_elem_of_singleton. split; [by intros [ | ] | by left].
  - intros g. rewrite <- In, elem_of_app, list_elem_of_singleton. split; [by intros [ | ] | by left].
  - intros x' o' i' H. apply snoc_or in H as [H | [= -> -> ->]]; [ | done].
    destruct (Ist x' o' i' H) as (Sx & So & Si). rewrite Hx, Ho', Hi'. repeat split; intros Hne; f_equal.
    + rewrite Sx in He by done. by apply He.
    + rewrite So in Ho by done. by apply Ho.
    + rewrite Si in Hn by done. by apply Hn.
Qed.

Lemma guards_installed root w auth pc : serving auth pc w ->
  match (install_guards E root w).2 with Ok _ => hs_guards (k_host (install_guards E root w).1) = true | Err _ => True end.
Proof.
  intros Hw. destruct (install_guards E root w) as [w' [[] | e]] eqn:H; cbn; [ | done]. unfold install_guards in H.
  apply andthen_ok in H as (b & w0 & [= <- <-] & H). destruct (hs_guards (k_host w)) eqn:Hg; [by injection H as <- | ].
  invert_io. by injection H as <-.
Qed.

Lemma steady_started auth pc : steady_state (fun w => serving_guarded auth pc w /\ hs_guards (k_host w) = true).
Proof.
  split; [by intros w [[[]]] | split].
  - intros w w' [Hs Hg] F L. split; [by eapply (steady_framed _ (steady_serving_guarded auth pc)) | ]. by rewrite (fr_host _ _ F).
  - intros b w [Hs Hg]. split; [by apply steady_serving_guarded | done].
Qed.

Lemma start_spec payload : triple inv (start_command E payload) (fun _ => inv).
Proof.
  unfold start_command. case_decide; [by intros w Hw | ].
  apply triple_bind with (Q := fun pc w => exists auth, serving auth pc w); [apply extract_spec | intros pc].
  intros w [auth Hw]. revert w Hw.
  match goal with |- forall w, serving auth pc w -> match (?x w).2 with _ => _ end => change (triple (serving auth pc) x (fun _ => inv)) end.
  apply triple_bind with (Q := fun _ w => serving_guarded auth pc w /\ hs_guards (k_host w) = true).
  { intros w Hw. pose proof (install_spec auth pc (stext E (py_get "plugin_root" payload)) w Hw) as Hsp.
    pose proof (guards_installed (stext E (py_get "plugin_root" payload)) w auth pc Hw) as Hg.
    destruct (install_guards E _ w) as [w' [u | e]]; done. }
  intros _. apply triple_bind with (Q := fun _ w => serving_guarded auth pc w /\ hs_guards (k_host w) = true).
  { eapply triple_tame; [apply steady_started | | apply tame_load]. by intros w [[]]. }
  intros loaded. unfold api_descriptor. eapply triple_bind; [apply triple_reader; [reader | by intros w [[[]]]] | intros api; cbv beta].
  eapply triple_bind with (Q := fun _ w => inv (log (Started _ _ _) w)); [apply triple_upd | intros _].
  { intros w [[Hs Hg] Hapi]. apply need_ok in Hapi as [Hapi _]. by apply (serving_started auth pc api). }
  eapply triple_bind with (Q := fun _ => inv); [by apply triple_upd | by intros _ w Hw].
Qed.

(** What leaves the guards and the session's record alone. *)
Definition still {A} (x : io A) : Prop := forall w, k_fs (x w).1 = k_fs w /\ k_net (x w).1 = k_net w /\ k_host (x w).1 = k_host w.

Lemma still_bind {A B} (x : io A) (k : A -> io B) : still x -> (forall a, still (k a)) -> still (andthen x k).
Proof.
  intros Hx Hk w. unfold andthen. specialize (Hx w). destruct (x w) as [w' [a | e]]; cbn in *; [ | done].
  destruct (Hk a w') as (-> & -> & ->). done.
Qed.

Lemma still_reader {A} (x : io A) : reader x -> still x.
Proof. intros H w. by rewrite (H w). Qed.

Lemma still_extract context : still (extract_plugin_context E context).
Proof.
  pose proof reader_timing. pose proof reader_bound. pose proof reader_host_bound.
  unfold extract_plugin_context, validate_runtime_auth_binding, consume_nonce, api_descriptor.
  repeat first [ match goal with |- still (andthen _ _) => apply still_bind; [ | intros ?] end | apply still_reader; solve [reader; auto] | by intros w ].
Qed.

Lemma reader_contract v : reader (validate_response_contract v).
Proof. destruct v; try apply reader_throw. cbn. destruct (py_get _ _); try apply reader_throw. case_decide; reader. Qed.

Lemma execute_spec payload : triple inv (execute_command E payload) (fun _ => inv).
Proof.
  unfold execute_command. pass (fun (w : wk) (H : inv w) => H). destruct (hs_callable a) as [code | ] eqn:Hc; [ | by intros w []].
  apply triple_bind with (Q := fun pc w => exists auth, serving_guarded auth pc w).
  { intros w [Hw [= <-]]. destruct (i_guards w Hw) as [Hf Hn]; [apply (i_callable w Hw); by rewrite Hc | ].
    pose proof (extract_spec (py_or (py_get "context" payload) (VDict [])) w Hw) as H.
    destruct (still_extract (py_or (py_get "context" payload) (VDict [])) w) as (Ef & En & Eh).
    destruct (extract_plugin_context E _ w) as [w1 [pc | e]]; cbn in *; [ | done].
    destruct H as [auth Hs]. exists auth. split; [done | split; [apply Hs | by rewrite Ef, En]]. }
  intros pc w [auth Hw]. revert w Hw.
  match goal with |- forall w, serving_guarded auth pc w -> match (?x w).2 with _ => _ end => change (triple (serving_guarded auth pc) x (fun _ => inv)) end.
  apply triple_bind with (Q := fun _ => serving_guarded auth pc).
  { eapply triple_tame; [apply steady_serving_guarded | | apply tame_prog]. by intros w' []. }
  intros v. eapply triple_bind; [apply triple_reader; [apply reader_contract | by intros w' [[]]] | intros result; cbv beta].
  eapply triple_bind with (Q := fun _ => inv); [apply triple_upd | by intros _ w' Hw'].
  intros w' [[Hs' (I & Hf' & Hn')] _]. apply inv_session; try done. apply I.
Qed.

(** *** Probes *)

Lemma tame_observe {A} (x : io A) k : tame inv x -> (forall r, reader (k r)) -> tame inv (observe x k).
Proof.
  intros Hx Hk w Hw. unfold observe. destruct (Hx w Hw) as (Hf & Hl & Hr). destruct (x w) as [w' r]; cbn in *.
  assert (Hw' : inv w') by (by eapply framed_inv).
  assert (T : forall r', framed w (k r' w').1 /\ lawful_log (k_log (k r' w').1) /\ match (k r' w').2 with Ok _ => inv (k r' w').1 | Err _ => True end).
  { intros r'. destruct (tame_reader inv steady_inv _ (Hk r') w' Hw') as (Hf' & ? & ?). split; [by eapply framed_trans | done]. }
  destruct r as [a | e]; [ | destruct (x_exit e); [done | ]]; apply T.
Qed.

Lemma tame_pass {A} (x : io A) : tame inv x -> tame inv (should_pass x).
Proof. intros H. apply tame_observe; [done | ]. intros [ | ]; reader. Qed.

Lemma tame_denied {A} (x : io A) : tame inv x -> tame inv (should_be_denied x).
Proof. intros H. apply tame_observe; [done | ]. intros [ | ]; reader. Qed.

Lemma tame_probe_fs fn paths mode flags : tame inv (fs_call E false fn paths mode flags).
Proof. unfold fs_call. pose proof reader_fs_checks. tame steady_inv. Qed.

Lemma tame_probe_connect t : tame inv (connect E false t).
Proof. unfold connect. pose proof reader_net_checks. tame steady_inv. Qed.

Lemma tame_probe_addresses addresses err : tame inv (connect_first E false addresses err).
Proof.
  revert err. induction addresses as [ | t rest IH]; intros err; [by apply tame_reader, reader_throw; apply steady_inv | ].
  intros w Hw. cbn [connect_first]. destruct (tame_probe_connect t w Hw) as (Hf & Hl & Hr).
  destruct (connect E false t w) as [w' [v | e]]; cbn in *; [done | ]. case_bool_decide; [ | done].
  assert (Hw' : inv w') by (by eapply framed_inv). destruct (IH e w' Hw') as (? & ? & ?). split; [by eapply framed_trans | done].
Qed.

Lemma tame_probe_create t : tame inv (create_connection E false t).
Proof. unfold create_connection. pose proof reader_net_checks. pose proof tame_probe_addresses. tame steady_inv. Qed.

Lemma tame_probes probe_file path_text : tame inv (host_probe_payload E probe_file path_text).
Proof.
  pose proof tame_probe_fs. unfold host_probe_payload. tame steady_inv; [ | | | | ].
  - unfold probe_artifact_read_access. case_decide; [by tame steady_inv | by apply tame_pass].
  - by apply tame_denied.
  - unfold probe_writable_temp_scope. destruct (hs_temp _); [apply tame_pass | ]; by tame steady_inv.
  - unfold probe_host_path_access_blocked. destruct (List.find _ _); [by apply tame_denied | by tame steady_inv].
  - unfold probe_network_policy. pose proof tame_probe_create. tame steady_inv.
    all: repeat case_match; first [by apply tame_denied | by tame steady_inv].
Qed.

Lemma command_inv probe_file path_text name payload w : inv w -> inv (command E probe_file path_text name payload w).1.
Proof.
  assert (T : triple inv (command E probe_file path_text name payload) (fun _ => inv)).
  { unfold command. repeat case_decide; [apply start_spec | | | apply execute_spec | by intros w' Hw'].
    - by intros w' Hw'.
    - eapply triple_tame; [apply steady_inv | by intros w' Hw' | ]. pose proof (tame_probes probe_file path_text). tame steady_inv. }
  intros Hw. specialize (T w Hw). by destruct ((command E probe_file path_text name payload w).2).
Qed.

Lemma inv_clear w : inv w -> inv (clear_runtime_channel w).
Proof. intros []. split; cbn; try done. by left. Qed.

Lemma inv_received w : inv w -> k_hidden w = [] -> inv (log Received (tick w)).
Proof.
  intros [Il Ih Is If In Ig Ic Ist] He. split; cbn; try done.
  - by apply lawful_snoc.
  - by left.
  - intros auth H. apply snoc_or in H as [ | ]; [by apply Is | done].
  - intros g. rewrite <- If, elem_of_app, list_elem_of_singleton. split; [by intros [ | ] | by left].
  - intros g. rewrite <- In, elem_of_app, list_elem_of_singleton. split; [by intros [ | ] | by left].
  - intros x o i H. apply snoc_or in H as [ | ]; [by apply Ist | done].
Qed.

(** Between commands there is no channel. *)
Definition idle (w : wk) : Prop := inv w /\ k_hidden w = [].

Lemma serve_line_idle probe_file path_text line w : idle w -> idle (serve_line E probe_file path_text line w).1.
Proof.
  intros [I He]. pose proof (inv_received w I He) as I'. unfold serve_line.
  destruct line as [[ | | | | | | payload] | ]; try (by split).
  case_decide; [by split; [apply inv_clear | ] | ].
  pose proof (command_inv probe_file path_text (stext E (py_get "command" payload)) payload _ I') as I''.
  destruct (command E _ _ _ payload _) as [w' r]; cbn in *.
  destruct r as [v | e]; [ | destruct (x_exit e)]; by split; [apply inv_clear | ].
Qed.

Lemma session_idle probe_file path_text lines w : idle w -> idle (handle_host_session E probe_file path_text lines w).1.
Proof.
  revert w. induction lines as [ | line rest IH]; intros w Hw; [done | ]. cbn [handle_host_session].
  pose proof (serve_line_idle probe_file path_text line w Hw) as Hw'.
  destruct (serve_line E _ _ line w) as [w' o]; cbn in *. specialize (IH w' Hw').
  destruct o; [ | done | done]. by destruct (handle_host_session E _ _ rest w').
Qed.

Lemma boot_idle : idle boot_worker.
Proof.
  split; [ | done]. split; cbn; try done; try (by left).
  - by intros [ | ? ?] ? ? ?.
  - intros auth H. by apply elem_of_nil in H.
  - intros g. split; intros H; by apply elem_of_nil in H.
  - intros g. split; intros H; by apply elem_of_nil in H.
  - intros x o i H. by apply elem_of_nil in H.
Qed.

Lemma session_lawful probe_file path_text lines :
  lawful_log (k_log (handle_host_session E probe_file path_text lines boot_worker).1).
Proof. destruct (session_idle probe_file path_text lines _ boot_idle) as [I _]. apply I. Qed.

Lemma current_auth_elem l auth : current_auth l = Some auth -> Authenticated auth ∈ l.
Proof.
  induction l as [ | e l IH] using rev_ind; [done | ]. rewrite current_auth_snoc, elem_of_app. intros H.
  destruct e; try done; try (left; by apply IH). injection H as ->. right. by apply list_elem_of_singleton.
Qed.

(** C10: Whatever lines a worker is sent and whatever plugin code does with the answers it
    gets, every syscall the bridge dispatches and every tool it invokes is for the tenant of
    the channel authenticated by the command being served, while that channel is live, with
    a capability the host granted to it; the arguments of a tool name no other tenant. A
    channel's nonce authenticates one command, and once a session has started, only
    channels for its extension, owner and sandbox instance are accepted. *)
Theorem plugin_acts_for_its_channel probe_file path_text lines l1 e l2 :
  k_log (handle_host_session E probe_file path_text lines boot_worker).1 = l1 ++ e :: l2 ->
  match e with
  | Dispatched t d =>
      exists auth, current_auth l1 = Some auth /\ acts_for auth t (dc_user d) (dc_capability d) /\
        exists operation, dc_name d = "sys.v1." +:+ operation /\ dict_get operation BRIDGED = Some (dc_capability d)
  | ToolInvoked t tool args user =>
      exists auth, current_auth l1 = Some auth /\ acts_for auth t user "tool.invoke" /\
        forall k, k ∈ ["user_id"; "tenant_id"] -> dict_mem k args = true -> py_get k args = VStr user
  | Authenticated auth =>
      (forall auth', Authenticated auth' ∈ l1 -> nonce_of auth' <> nonce_of auth) /\
      (forall extension owner instance, Started extension owner instance ∈ l1 ->
         binds extension auth "extension_name" /\ binds owner auth "owner_class" /\ binds instance auth "sandbox_instance_id")
  | _ => True
  end.
Proof. intros H. apply session_lawful in H. by destruct e. Qed.

(** C24: Plugin code touches files and sockets only under the guards: the file and rename
    functions that are wrapped write only below the temporary directory of a guard and read
    only there, below the plugin's root or below the interpreter's directories; a
    connection is made only if some channel of the session granted outbound.http, and never
    to a private, loopback, link-local, multicast or reserved address given as such, unless
    the operator allows private targets. *)
Theorem guards_confine_plugin probe_file path_text lines l1 e l2 :
  k_log (handle_host_session E probe_file path_text lines boot_worker).1 = l1 ++ e :: l2 ->
  match e with
  | FsDone fn paths mode flags =>
      exists g, FsGuarded g ∈ l1 /\
        forall p m, (p, m) ∈ fs_checked fn paths mode flags ->
          under_root (fg_temp g) (e_realpath E p) = true \/
          (writes m = false /\ (under_root (fg_root g) (e_realpath E p) = true \/
             exists root, root ∈ e_runtime_roots E /\ under_root root (e_realpath E p) = true))
  | Connected t =>
      (exists auth, Authenticated auth ∈ l1 /\ CAP_OUTBOUND_HTTP ∈ caps_of auth) /\
      (e_allow_private E = false -> forall host c,
         extract_host E t = Some host -> host <> "" -> e_ip E (str_lower host) = Some c -> inner_address c = false)
  | _ => True
  end.
Proof.
  intros H. pose proof (session_lawful probe_file path_text lines) as L. pose proof (L l1 e l2 H) as He. destruct e; try done.
  - destruct He as [[g Hg] Hc]. exists g. split; [done | ]. intros p m Hpm. destruct (Hc g p m Hg Hpm) as [Ht | [Hw Hr]]; [by left | right].
    split; [done | ]. apply orb_true_iff in Hr as [Hr | Hr]; [by left | right].
    apply existsb_exists in Hr as (root & Hin & Hr). exists root. split; [by apply list_elem_of_In | done].
  - destruct He as [[g Hg] Hp]. specialize (Hp g Hg). unfold target_permitted in Hp. apply andb_true_iff in Hp as [Ho Hp].
    apply list_elem_of_split in Hg as (la & lb & ->). rewrite <- app_assoc in H. cbn in H.
    destruct (L _ _ _ H) as [Hpr Hca]. split.
    + destruct (Hca Ho) as (auth & Hcur & Hcap). exists auth. split; [ | done]. apply elem_of_app. left. by apply current_auth_elem.
    + intros Hfalse host c Hh Hne Hip. rewrite Hh in Hp. rewrite bool_decide_eq_false_2 in Hp by done.
      rewrite Hpr, Hfalse, Hip in Hp. destruct (bool_decide _); [done | ]. cbn in Hp. by destruct (inner_address c).
Qed.

End safety.


(** ** The host's half of the channel *)

(** [_prepare_context]: what the host writes into a command, of the channel it has drawn. *)
Definition stamp (t : Z) : pyval := VFloat (t # 1000000).

Definition plugin_context_of (ch : channel) : dict :=
  [("user_id", VStr (ch_user ch)); ("run_id", VStr (ch_run ch)); ("trace_id", VStr (ch_trace ch));
   ("workflow_type", VStr (ch_workflow ch)); ("flow_name", VStr (ch_flow ch)); ("extension_name", VStr (ch_name ch));
   ("owner_class", VStr (ch_owner ch)); ("granted_capabilities", VList (map VStr (ch_caps ch))); ("node_name", VStr (ch_name ch));
   ("runtime_api", VDict
      [("channel_type", VStr "worker-authenticated-rpc"); ("channel_version", VStr AUTH_VERSION); ("runtime_channel_id", VStr (ch_id ch));
       ("sandbox_instance_id", VStr (ch_instance ch)); ("expires_at", stamp (ch_expires ch))])].

Definition runtime_api_auth_of (ch : channel) : dict :=
  dict_update (plugin_context_of ch)
    [("auth_version", VStr AUTH_VERSION); ("runtime_channel_id", VStr (ch_id ch)); ("runtime_channel_token", VStr (ch_token ch));
     ("runtime_channel_nonce", VStr (ch_nonce ch)); ("issued_at", stamp (ch_issued ch)); ("expires_at", stamp (ch_expires ch));
     ("sandbox_instance_id", VStr (ch_instance ch)); ("runner_type", VStr (runner_value (ch_kind ch)))].

Definition channel_context (ch : channel) : pyval :=
  VDict [("plugin_context", VDict (plugin_context_of ch)); ("runtime_api_auth", VDict (runtime_api_auth_of ch))].

Section channel.
Context (E : surroundings) (token : nat -> string).
Hypothesis token_text : forall n, str_strip (token n) <> "".

Lemma stext_str s : stext E (VStr s) = str_strip s.
Proof. unfold stext, text. cbn. destruct (decide (s = "")) as [-> | H]; [done | ]. by rewrite bool_decide_eq_true_2. Qed.

Lemma stamp_float t : py_float (e_float E) (py_or (stamp t) (VFloat 0)) = Some (if (t =? 0)%Z then Fin 0 else Fin (t # 1000000)).
Proof. unfold py_or, stamp. cbn. by destruct (t =? 0)%Z. Qed.

Lemma andthen_run {A B} (x : io A) (k : A -> io B) w w' a : x w = (w', Ok a) -> andthen x k w = k a w'.
Proof. intros H. unfold andthen. by rewrite H. Qed.

(** The worker reads the clock within the channel's time, give or take the skew. *)
Definition in_time (issued expires : Z) (t : Q) : Prop :=
  ((issued # 1000000) - AUTH_CLOCK_SKEW <= t)%Q /\ (t <= (expires # 1000000) + AUTH_CLOCK_SKEW)%Q.

Lemma float_lt_fin p q : float_lt (Fin p) (Fin q) = false <-> (q <= p)%Q.
Proof. cbn. rewrite negb_false_iff. apply Qle_bool_iff. Qed.

Lemma timing_accepts c w issued expires :
  py_get "issued_at" c = stamp issued -> py_get "expires_at" c = stamp expires -> 0 < issued < expires ->
  in_time issued expires (e_clock E (k_tick w)) -> validate_runtime_auth_timing E c w = (w, Ok tt).
Proof.
  intros Hi Hx Hlt [Ht1 Ht2]. unfold validate_runtime_auth_timing, float_field.
  rewrite Hi, Hx, !stamp_float. destruct (Z.eqb_spec issued 0), (Z.eqb_spec expires 0); try lia.
  rewrite !(andthen_run _ _ _ _ _ eq_refl). cbn [float_add].
  assert (Hz : float_le (Fin (issued # 1000000)) (Fin 0) || float_le (Fin (expires # 1000000)) (Fin 0) || float_le (Fin (expires # 1000000)) (Fin (issued # 1000000)) = false).
  { rewrite !orb_false_iff. cbn. unfold Qle_bool. cbn. rewrite !Z.leb_gt. lia. }
  rewrite Hz. rewrite !(andthen_run _ _ _ _ _ eq_refl). 
  rewrite (proj2 (float_lt_fin _ _)) by done. rewrite !(andthen_run _ _ _ _ _ eq_refl).
  rewrite (proj2 (float_lt_fin _ _)) by done. done.
Qed.

Lemma agrees_no_mismatch (o : option string) x : agrees o x ->
  match o with Some y => bool_decide (y <> "") && bool_decide (y <> x) | None => false end = false.
Proof.
  destruct o as [y | ]; [ | done]. cbn. intros H. destruct (decide (y = "")) as [-> | Hy]; [done | ].
  rewrite (H Hy). rewrite andb_comm, bool_decide_eq_false_2; [done | by intros []].
Qed.

(** What the worker needs of its session to accept a channel. *)
Definition session_fits (h : session) (ch : channel) : Prop :=
  agrees (hs_extension h) (str_strip (ch_name ch)) /\ agrees (hs_owner h) (str_strip (ch_owner ch)) /\ agrees (hs_instance h) (str_strip (ch_instance ch)).

Definition channel_ids (ch : channel) : Prop :=
  str_strip (ch_id ch) <> "" /\ str_strip (ch_token ch) <> "" /\ str_strip (ch_nonce ch) <> "" /\ str_strip (ch_instance ch) <> "".

Definition nonce_key (ch : channel) : string := e_instance E +:+ ":" +:+ str_strip (ch_nonce ch).

Definition accepted (ch : channel) (w : wk) : wk :=
  log (Authenticated (runtime_api_auth_of ch))
    (set_channel (nonce_key ch :: k_seen w) (dict_set "_worker_instance_id" (VStr (e_instance E)) (runtime_api_auth_of ch)) true w).

Ltac go := rewrite (andthen_run _ _ _ _ _ eq_refl).

Lemma validate_run ch w (b : bool) :
  channel_ids ch -> 0 < ch_issued ch < ch_expires ch -> in_time (ch_issued ch) (ch_expires ch) (e_clock E (k_tick w)) ->
  session_fits (k_host w) ch -> b = bool_decide (nonce_key ch ∈ k_seen w) ->
  validate_runtime_auth_binding E (plugin_context_of ch) (runtime_api_auth_of ch) w =
  if b then (w, Err (Denied "REPLAYED_EXTENSION_CHANNEL: runtime channel nonce has already been used"))
  else (set_channel (nonce_key ch :: k_seen w) (k_hidden w) (k_bridge w) w,
        Ok (dict_set "_worker_instance_id" (VStr (e_instance E)) (runtime_api_auth_of ch))).
Proof.
  intros (Hid & Htok & Hn & Hi) Hlt Ht (He & Ho & Hs) ->. unfold validate_runtime_auth_binding, consume_nonce, api_descriptor, nonce_key.
  change (py_get "runtime_channel_id" (runtime_api_auth_of ch)) with (VStr (ch_id ch)).
  change (py_get "runtime_channel_token" (runtime_api_auth_of ch)) with (VStr (ch_token ch)).
  change (py_get "runtime_channel_nonce" (runtime_api_auth_of ch)) with (VStr (ch_nonce ch)).
  change (py_get "sandbox_instance_id" (runtime_api_auth_of ch)) with (VStr (ch_instance ch)).
  change (py_get "auth_version" (runtime_api_auth_of ch)) with (VStr AUTH_VERSION).
  rewrite !stext_str. rewrite !(bool_decide_eq_false_2 (_ = "")) by done. do 3 go.
  rewrite (andthen_run _ _ _ _ _ (timing_accepts (runtime_api_auth_of ch) w (ch_issued ch) (ch_expires ch) eq_refl eq_refl Hlt Ht)). go.
  assert (Hb : bound E BOUND_KEYS (plugin_context_of ch) (runtime_api_auth_of ch) w = (w, Ok tt)).
  { cbn -[stext runtime_api_auth_of plugin_context_of py_get].
    repeat match goal with |- context [py_get ?k (runtime_api_auth_of ch)] => change (py_get k (runtime_api_auth_of ch)) with (py_get k (plugin_context_of ch)) end.
    unfold refuse_when. rewrite !bool_decide_eq_false_2 by (by intros []). done. }
  rewrite (andthen_run _ _ _ _ _ Hb).
  change (py_get "sandbox_instance_id" _) with (VStr (ch_instance ch)). change (py_get "runtime_channel_id" _) with (VStr (ch_id ch)).
  rewrite !stext_str, !(bool_decide_eq_false_2 (_ <> _)) by (by intros []). do 3 go.
  assert (Hh : host_bound E (k_host w) (runtime_api_auth_of ch) w = (w, Ok tt)).
  { unfold host_bound.
    change (py_get "sandbox_instance_id" _) with (VStr (ch_instance ch)). change (py_get "extension_name" _) with (VStr (ch_name ch)).
    change (py_get "owner_class" _) with (VStr (ch_owner ch)). rewrite !stext_str.
    rewrite !agrees_no_mismatch by done. done. }
  rewrite (andthen_run _ _ _ _ _ Hh). unfold andthen, ask, refuse_when, upd, done. by destruct (bool_decide _).
Qed.

Lemma extract_run ch w :
  channel_ids ch -> 0 < ch_issued ch < ch_expires ch -> in_time (ch_issued ch) (ch_expires ch) (e_clock E (k_tick w)) ->
  session_fits (k_host w) ch ->
  extract_plugin_context E (channel_context ch) w =
  if bool_decide (nonce_key ch ∈ k_seen w) then (w, Err (Denied "REPLAYED_EXTENSION_CHANNEL: runtime channel nonce has already been used"))
  else (accepted ch w, Ok (plugin_context_of ch)).
Proof.
  intros Hids Hlt Ht Hf. unfold extract_plugin_context. do 3 go.
  pose proof (validate_run ch w _ Hids Hlt Ht Hf eq_refl) as Hv. destruct (bool_decide _); unfold andthen at 1; rewrite Hv; done.
Qed.

Lemma reader_ok {A} (x : io A) w w' a : reader x -> x w = (w', Ok a) -> w' = w.
Proof. intros Hr H. specialize (Hr w). by rewrite H in Hr. Qed.

Lemma extract_fresh ch w w' pc : extract_plugin_context E (channel_context ch) w = (w', Ok pc) -> nonce_key ch ∉ k_seen w.
Proof.
  unfold extract_plugin_context, validate_runtime_auth_binding, consume_nonce, api_descriptor. intros H. invert_io. simplify_eq.
  repeat match goal with
  | Hx : validate_runtime_auth_timing _ _ _ = _ |- _ => apply reader_ok in Hx; [ | apply reader_timing]
  | Hx : bound _ _ _ _ _ = _ |- _ => apply reader_ok in Hx; [ | apply reader_bound]
  | Hx : host_bound _ _ _ _ = _ |- _ => apply reader_ok in Hx; [ | apply reader_host_bound]
  end. subst.
  match goal with Hx : dict_or (channel_context ch) = Some _ |- _ => injection Hx as <- end.
  match goal with Hx : dict_or (py_get "runtime_api_auth" _) = Some _ |- _ => injection Hx as <- end.
  match goal with Hx : bool_decide (_ ∈ k_seen _) = false |- _ => apply bool_decide_eq_false in Hx as Hseen end.
  unfold nonce_key. by rewrite <- stext_str.
Qed.

(** The two ends of the channel agree: the context the host prepares for a command is
    accepted by the worker it was started in, within the channel's time, and then carries
    the tenant of the request and exactly the capabilities granted to the host; from then
    on the same context is refused. *)
Lemma host_channel_accepted_once rc c ch w :
  (prepare_context (e_render E) token rc c).2 = Ok ch ->
  str_strip (h_instance (c_host c)) <> "" -> 0 < c_now c ->
  in_time (c_now c) (c_now c + CHANNEL_TTL) (e_clock E (k_tick w)) -> session_fits (k_host w) ch -> nonce_key ch ∉ k_seen w ->
  exists w', extract_plugin_context E (channel_context ch) w = (w', Ok (plugin_context_of ch)) /\
    caps_of E (k_hidden w') = h_caps (c_host c) /\
    stext E (py_get "user_id" (k_hidden w')) = str_strip (text_of (e_render E) "user_id" rc) /\
    forall w2, k_seen w' ⊆ k_seen w2 -> exists e, (extract_plugin_context E (channel_context ch) w2).2 = Err e.
Proof.
  intros Hp Hi Hnow Ht Hf Hn. injection Hp as <-. eexists. split; [ | split; [ | split]].
  - rewrite extract_run; [by rewrite bool_decide_eq_false_2 | unfold channel_ids; cbn [ch_id ch_token ch_nonce ch_instance]; auto | cbn | done | done]. unfold CHANNEL_TTL, seconds. lia.
  - cbn [accepted k_hidden log set_channel]. rewrite hidden_caps. unfold caps_of.
    change (py_get "granted_capabilities" _) with (VList (map VStr (h_caps (c_host c)))). unfold py_or.
    destruct (h_caps (c_host c)) as [ | x l]; [done | ]. cbn [py_truth map py_list]. rewrite map_map. cbn. f_equal. apply map_id.
  - cbn [accepted k_hidden log set_channel]. rewrite hidden_get by done. apply stext_str.
  - intros w2 Hsub. destruct (extract_plugin_context E _ w2) as [w3 [pc | e]] eqn:H; [ | by exists e].
    apply extract_fresh in H. exfalso. apply H, Hsub. left.
Qed.

End channel.

(** ** Examples *)

Module WorkerDemo.
Definition answers (n : nat) : result pyexn pyval := Ok (VDict [("success", VBool true); ("result", VStr "found")]).
Definition private_ip (s : string) : option ip_class :=
  if decide (s = "10.0.0.5") then Some (IpClass true false false false false)
  else if decide (s = "93.184.216.34") then Some (IpClass false false false false false) else None.
Definition split_path (s : string) : list string := base.filter (fun c => c <> "") (split_char "/"%char s).
Definition join_path (l : list string) : string := "/" +:+ join_char "/"%char l.

(** Reads memory for the tenant, fetches a page, writes a scratch file and reads its own
    source; then tries what it may not do. *)
Definition code (state : pyval) (pc : dict) : prog :=
  Call (MemoryRead (VStr "notes") (VInt 3) VNone) (fun _ =>
  Call (Connect (TTuple (VStr "93.184.216.34"))) (fun _ =>
  Call (FsCall "builtins.open" ["/tmp/box/out"] "w" 0) (fun _ =>
  Call (FsCall "builtins.open" ["/plugins/demo.py"] "r" 0) (fun _ =>
  Call (ToolInvoke (VStr "search") (VDict [("user_id", VStr "u1")])) (fun _ =>
  Call (FsCall "builtins.open" ["/etc/passwd"] "r" 0) (fun _ =>
  Call (FsCall "Path.write_text" ["/plugins/demo.py"] "" 0) (fun _ =>
  Call (Connect (TTuple (VStr "10.0.0.5"))) (fun _ =>
  Call (ToolInvoke (VStr "search") (VDict [("user_id", VStr "u2")])) (fun _ =>
  Call (Import "AINDY.plugins.nodes" 0 "AINDY.kernel.syscall_dispatcher") (fun _ =>
  Return (VDict [("status", VStr "SUCCESS")]))))))))))).

Definition module (root : string) (source : list string) : plugin_module :=
  PluginModule (Return VNone) (fun f => if decide (f = "run")
    then Some (Function [Param "state" POSITIONAL_OR_KEYWORD false; Param "context" POSITIONAL_OR_KEYWORD false] code) else None).

Definition E : surroundings :=
  Surroundings HostDemo.render (fun _ => None) "w1" (fun _ => 100%Q) answers (fun _ => []) private_ip split_path (fun _ => ["tmp"; "box"])
    [["usr"; "lib"]] false (fun _ source => bool_decide (source = ["demo.py"])) module [["srv"]; ["home"]].

Definition host_record : PluginHost.host :=
  set_launching 0 "box1" (Runner RUNNER_CONTAINERIZED_OCI default_launch_attestation None)
    (new_host "demo" "demo:run" "/plugins" "external-third-party" ["memory.read"; "tool.invoke"; "outbound.http"] (VDict []) RUNNER_CONTAINERIZED_OCI []).
Definition host_ctx (n : nat) : ctx := Ctx 99000000 0 n false [] host_record.
Definition rc : dict := [("user_id", VStr "u1"); ("run_id", VStr "r1")].
Definition ch (n : nat) : option channel := match (prepare_context HostDemo.render HostDemo.token rc (host_ctx n)).2 with Ok c => Some c | Err _ => None end.
Definition context (n : nat) : pyval := match ch n with Some c => channel_context c | None => VNone end.

Definition start_line : option pyval :=
  Some (VDict [("command", VStr "start"); ("handler", VStr "demo:run"); ("plugin_root", VStr "/plugins"); ("context", context 0)]).
Definition execute_line (n : nat) : option pyval := Some (VDict [("command", VStr "execute"); ("context", context n)]).
Definition lines : list (option pyval) := [start_line; execute_line 3; execute_line 3; Some (VDict [("command", VStr "shutdown")])].
Definition served : wk * list outcome := handle_host_session E join_path join_path lines boot_worker.
Definition effects : list effect := k_log served.1.
End WorkerDemo.

Example served_effects :
  map (fun e => match e with Dispatched _ d => dc_name d | ToolInvoked _ t _ _ => t | Connected _ => "connect" | FsDone fn _ _ _ => fn | _ => "" end)
    (List.filter plugin_effect WorkerDemo.effects)
  = ["sys.v1.memory.read"; "connect"; "builtins.open"; "builtins.open"; "search"].
Proof. vm_compute. reflexivity. Qed.

Lemma plugin_acts_for_its_channel_witness :
  exists t d auth, default Received (WorkerDemo.effects !! 7%nat) = Dispatched t d /\ current_auth (take 7 WorkerDemo.effects) = Some auth /\
    acts_for WorkerDemo.E auth t (dc_user d) (dc_capability d).
Proof.
  assert (H : WorkerDemo.effects = take 7 WorkerDemo.effects ++ default Received (WorkerDemo.effects !! 7%nat) :: drop 8 WorkerDemo.effects)
    by (vm_compute; reflexivity).
  apply (plugin_acts_for_its_channel WorkerDemo.E WorkerDemo.join_path WorkerDemo.join_path WorkerDemo.lines) in H.
  destruct (default Received (WorkerDemo.effects !! 7%nat)) eqn:He; try (exfalso; vm_compute in He; discriminate He).
  destruct H as (auth & Hc & Ha & _). do 2 eexists. exists auth. split; [reflexivity | exact (conj Hc Ha)].
Defined.

Lemma guards_confine_plugin_witness :
  (exists t auth, default Received (WorkerDemo.effects !! 8%nat) = Connected t /\ Authenticated auth ∈ take 8 WorkerDemo.effects /\
    CAP_OUTBOUND_HTTP ∈ caps_of WorkerDemo.E auth) /\
  exists fn paths mode flags g, default Received (WorkerDemo.effects !! 9%nat) = FsDone fn paths mode flags /\ FsGuarded g ∈ take 9 WorkerDemo.effects.
Proof.
  split.
  - assert (H : WorkerDemo.effects = take 8 WorkerDemo.effects ++ default Received (WorkerDemo.effects !! 8%nat) :: drop 9 WorkerDemo.effects)
      by (vm_compute; reflexivity).
    apply (guards_confine_plugin WorkerDemo.E WorkerDemo.join_path WorkerDemo.join_path WorkerDemo.lines) in H.
    destruct (default Received (WorkerDemo.effects !! 8%nat)) eqn:He; try (exfalso; vm_compute in He; discriminate He).
    destruct H as [(auth & Ha & Hc) _]. eexists. exists auth. split; [reflexivity | exact (conj Ha Hc)].
  - assert (H : WorkerDemo.effects = take 9 WorkerDemo.effects ++ default Received (WorkerDemo.effects !! 9%nat) :: drop 10 WorkerDemo.effects)
      by (vm_compute; reflexivity).
    apply (guards_confine_plugin WorkerDemo.E WorkerDemo.join_path WorkerDemo.join_path WorkerDemo.lines) in H.
    destruct (default Received (WorkerDemo.effects !! 9%nat)) eqn:He; try (exfalso; vm_compute in He; discriminate He).
    destruct H as (g & Hg & _). do 4 eexists. exists g. split; [reflexivity | exact Hg].
Defined.

Lemma host_channel_accepted_once_witness :
  exists ch w', WorkerDemo.ch 0 = Some ch /\ extract_plugin_context WorkerDemo.E (channel_context ch) boot_worker = (w', Ok (plugin_context_of ch)) /\
    caps_of WorkerDemo.E (k_hidden w') = ["memory.read"; "tool.invoke"; "outbound.http"].
Proof.
  destruct (WorkerDemo.ch 0) as [ch | ] eqn:Hch; [ | vm_compute in Hch; discriminate Hch]. exists ch.
  assert (Htok : forall n, str_strip (HostDemo.token n) <> "").
  { intros n. unfold HostDemo.token. generalize (pretty (Z.of_nat n)). intros s H.
    change (rstrip is_space (String "t" s) = "") in H. cbn [rstrip] in H. destruct (rstrip is_space s); discriminate H. }
  destruct (host_channel_accepted_once WorkerDemo.E HostDemo.token Htok WorkerDemo.rc (WorkerDemo.host_ctx 0) ch boot_worker)
    as (w' & H1 & H2 & _).
  - vm_compute in Hch. injection Hch as <-. vm_compute. reflexivity.
  - vm_compute. discriminate.
  - reflexivity.
  - split; vm_compute; discriminate.
  - split; [done | split; done].
  - intros H. by apply elem_of_nil in H.
  - exists w'. split; [reflexivity | exact (conj H1 H2)].
Defined.

(** ** Divergences *)

(** The guard on imports reads the name of the import statement: a relative import from the
    plugin's package names a runtime module by other words. *)
Example relative_import_escapes :
  import_allowed false (absolute_name "AINDY.plugins.nodes" 3 "kernel.syscall_dispatcher") = false /\
  import_allowed false "kernel.syscall_dispatcher" = true /\
  absolute_name "AINDY.plugins.nodes" 3 "kernel.syscall_dispatcher" = "AINDY.kernel.syscall_dispatcher" /\
  import_allowed false "__main__" = true.
Proof. vm_compute. done. Qed.

(** Who calls the trusted entry is read from the caller's [__name__], which a module may
    assign: code that calls itself the worker imports the kernel. *)
Example renamed_caller_is_trusted :
  let p := Trusted "__main__" (Call (Import "" 0 "AINDY.kernel.syscall_dispatcher") (fun r => match r with Ok v => Return v | Err e => Throw e end))
             (fun r => match r with Ok v => Return v | Err e => Throw e end) in
  is_Ok (run_prog WorkerDemo.E p (set_guards 1 [] [] boot_worker)).2 = true.
Proof. vm_compute. done. Qed.

(** Functions of [os] that change files have no wrapper. *)
Example os_remove_unguarded :
  fs_checked "os.remove" ["/plugins/demo.py"] "" 0 = [] /\ "os.remove" ∉ GUARDED_FUNCTIONS /\
  is_Ok (fs_call WorkerDemo.E true "os.remove" ["/etc/passwd"] "" 0 (set_guards 1 [FsGuard ["plugins"] ["tmp"; "box"]] [] boot_worker)).2 = true.
Proof.
  split; [vm_compute; done | split; [ | vm_compute; done]].
  intros H. assert (Hb : bool_decide ("os.remove" ∈ GUARDED_FUNCTIONS) = true) by (by apply bool_decide_eq_true). vm_compute in Hb. discriminate Hb.
Qed.

(** With outbound.http granted, a local socket, and the empty host that means this machine,
    are not among the private targets. *)
Example local_sockets_permitted :
  target_permitted WorkerDemo.E (NetGuard true false) (TText "/var/run/docker.sock") = true /\
  target_permitted WorkerDemo.E (NetGuard true false) (TTuple (VStr "")) = true.
Proof. vm_compute. done. Qed.

(** Before a session has started, its probe reports the guard on files as active. *)
Example probe_before_start_claims_guard :
  exists d i, (host_probe_payload WorkerDemo.E WorkerDemo.join_path WorkerDemo.join_path boot_worker).2 = Ok (VDict d) /\
    as_dict (py_get "isolation_state" d) = Some i /\ py_get "filesystem_guard_active" i = VBool true /\ k_fs boot_worker = [].
Proof. do 2 eexists. split; [vm_compute; reflexivity | ]. split; [reflexivity | ]. vm_compute. done. Qed.

(** A line that is JSON but no object ends the worker instead of being answered. *)
Example list_line_kills_worker :
  (serve_line WorkerDemo.E WorkerDemo.join_path WorkerDemo.join_path (Some (VList [])) boot_worker).2 = Died no_attribute.
Proof. reflexivity. Qed.
