(* ===== verification/MemoryStore.v ===== *)
(** * The memory store and its syscalls

    Models db/dao/memory_node_dao.py, the owner scope and run scope of
    memory/memory_persistence.py and the memory handlers of kernel/syscall_registry.py
    over tables of nodes, links, edit history, trace memberships and causal edges.

    A query reads its table in the order of the list. What is outside is a record of
    parameters: embeddings and their distance, JSON containment of the database, the
    decay of age, rounding. Arithmetic on scores is exact. Statements of a healthy
    database succeed; a unique or not-null constraint that fails is an error, and a
    statement that fails leaves the tables as they were. A value that is not of the type
    the input schema or the column has is refused, and so is a link weight that is not
    finite. *)

From S2P Require Import Prelude PyStr PyVal UserIds MemoryAddress.
From Stdlib Require Import Ascii QArith Qminmax Lqa.
Local Open Scope string_scope.
Local Open Scope list_scope.
Local Open Scope Z_scope.
Local Open Scope py_scope.

(** ** Tables *)

Record node := Node {
  n_id : string;
  n_content : string;
  n_tags : pyval;
  n_type : string;
  n_source : option string;
  n_agent : option string;
  n_shared : bool;
  n_visibility : string;
  n_user : option string;
  n_run : option string;            (* [owner_run_id] *)
  n_source_event : option string;
  n_root_event : option string;
  n_depth : Z;
  n_impact : Q;
  n_memory_type : string;
  n_created : Z;
  n_updated : Z;
  n_extra : list (string * pyval);
  n_embedding : option (list Q);
  n_pending : bool;
  n_status : string;
  n_success : Z;
  n_failure : Z;
  n_usage : Z;
  n_outcome : option string;
  n_weight : Q;
  n_path : option string;
  n_namespace : option string;
  n_addr_type : option string;
  n_parent : option string }.

Record link := Link {
  l_source : string;
  l_target : string;
  l_type : string;
  l_strength : string;
  l_weight : Q }.

Record edit := Edit {
  h_node : string;
  h_by : string;
  h_change : string;
  h_previous : list (string * pyval) }.

Record store := Store {
  nodes : list node;
  links : list link;
  edits : list edit;
  memberships : list (string * string);   (* trace, node *)
  causes : list (string * string) }.      (* event, node *)

Definition set_nodes (ns : list node) (s : store) : store := Store ns (links s) (edits s) (memberships s) (causes s).
Definition set_links (ls : list link) (s : store) : store := Store (nodes s) ls (edits s) (memberships s) (causes s).
Definition set_edits (es : list edit) (s : store) : store := Store (nodes s) (links s) es (memberships s) (causes s).

Inductive mem_error := BadValue (text : string) | NotFound (text : string) | Address (e : mas_error) | BadType | Database (text : string).

Record surroundings := Surroundings {
  e_render : pyval -> string;
  e_private : bool;                            (* AINDY_DELEGATION_PRIVATE_MEMORY *)
  e_run : option string;                       (* the run the caller acts in *)
  e_trace : option string;                     (* [get_current_trace_id] *)
  e_now : Z;
  e_postgres : bool;
  e_pgvector : bool;                           (* the vector query succeeds *)
  e_contains : pyval -> pyval -> bool;         (* JSON containment of an array *)
  e_embed : string -> option (list Q);         (* [None] where it raises *)
  e_distance : list Q -> list Q -> Q;
  e_cosine : list Q -> list Q -> Q;
  e_recency : Z -> Z -> Q;                     (* of the time now and the time of creation *)
  e_round : Q -> Q;
  e_float : string -> option pyfloat;          (* [float] of a text *)
  e_uuid : string }.                           (* for a path generated in this call *)

Section dao.
Context (E : surroundings).

Definition run_uuid : option string := match e_run E with Some r => parse_uuid r | None => None end.

Definition apply_memory_owner_scope (owner : option string) (shared_fallback : bool) (n : node) : bool :=
  match owner with
  | Some u => bool_decide (n_user n = Some u)
  | None => if shared_fallback then bool_decide (n_visibility n ∈ ["shared"; "global"]) else true
  end &&
  (if e_private E then
     match run_uuid with
     | Some r => bool_decide (n_run n = None) || bool_decide (n_run n = Some r)
     | None => bool_decide (n_run n = None)
     end
   else true).

Definition owner_only_scope (user : string) (n : node) : bool :=
  match parse_user_id user with
  | None => if bool_decide (user <> "") then false else apply_memory_owner_scope None false n
  | Some u => apply_memory_owner_scope (Some u) false n
  end.

Definition shared_scope (user : string) (n : node) : bool := apply_memory_owner_scope (parse_user_id user) true n.

Definition resolve_owner_run_id (explicit : option string) (private_to_run : option bool) (visibility : string) : option string :=
  if negb (e_private E) then None
  else if bool_decide (private_to_run = Some false) then None
  else if bool_decide (visibility ∈ ["shared"; "global"]) then None
  else match explicit with Some r => parse_uuid r | None => run_uuid end.

(** [query.filter(p).first()] and [query.filter(p).limit(n).all()] *)
Definition select (p : node -> bool) (s : store) : list node := List.filter p (nodes s).
Definition first_row (p : node -> bool) (s : store) : option node := head (select p s).
Definition sql_limit {A} (n : Z) (rows : list A) : result mem_error (list A) :=
  if n <? 0 then Err (Database "LIMIT must not be negative") else Ok (take (Z.to_nat n) rows).
(** [l[:n]] *)
Definition slice {A} (n : Z) (l : list A) : list A :=
  if n <? 0 then take (length l - Z.to_nat (- n)) l else take (Z.to_nat n) l.

Definition get_model_by_id (node_id user : string) (s : store) : option node :=
  match parse_uuid node_id with
  | None => None
  | Some id => first_row (fun n => bool_decide (n_id n = id) && owner_only_scope user n) s
  end.

(** ** Writing *)

Definition VALID_NODE_TYPES : list string := ["decision"; "outcome"; "insight"; "relationship"].
Definition VALID_MEMORY_TYPES : list string := ["decision"; "outcome"; "failure"; "insight"].

Definition normalize_memory_type (memory_type node_type : string) : string :=
  let raw := if bool_decide (memory_type <> "") then memory_type else if bool_decide (node_type <> "") then node_type else "insight" in
  let candidate := str_lower (str_strip raw) in
  if bool_decide (candidate ∈ VALID_MEMORY_TYPES) then candidate else "insight".

(** [node_extra["trace_id"]] is filled in where it is missing. *)
Definition with_trace (extra : list (string * pyval)) : list (string * pyval) :=
  match e_trace E with
  | Some t => if bool_decide (t <> "") && negb (py_truth (py_get "trace_id" extra)) then dict_set "trace_id" (VStr t) extra else extra
  | None => extra
  end.

Record save_args := SaveArgs {
  sa_content : string;
  sa_source : option string;
  sa_tags : pyval;
  sa_user : string;
  sa_type : option string;
  sa_extra : list (string * pyval);
  sa_agent : option string;
  sa_visibility : string;
  sa_path : option string;
  sa_namespace : option string;
  sa_addr_type : option string;
  sa_parent : option string;
  sa_owner_run : option string;
  sa_private : option bool }.

Definition new_node (id node_type : string) (a : save_args) : node :=
  Node id (sa_content a) (py_or (sa_tags a) (VList [])) node_type (sa_source a) (sa_agent a)
    (bool_decide (sa_visibility a ∈ ["shared"; "global"]))
    (if bool_decide (sa_visibility a ∈ ["private"; "shared"; "global"]) then sa_visibility a else "private")
    (parse_user_id (sa_user a)) (resolve_owner_run_id (sa_owner_run a) (sa_private a) (sa_visibility a)) None None 0 0
    (normalize_memory_type "" node_type) (e_now E) (e_now E) (with_trace (sa_extra a)) None true "pending" 0 0 0 None 1
    (sa_path a) (sa_namespace a) (sa_addr_type a) (sa_parent a).

(** The child ids that parse and name a row, whoever owns it. *)
Definition child_ids (children : list pyval) (s : store) : list string :=
  omap (fun c => match parse_uuid (py_str (e_render E) c) with
                 | Some id => if existsb (fun n => bool_decide (n_id n = id)) (nodes s) then Some id else None
                 | None => None
                 end) children.

Definition link_key (l : link) : string * string * string := (l_source l, l_target l, l_type l).

(** A batch of links goes in as a whole; the unique index refuses it otherwise. *)
Definition insert_links (new : list link) (s : store) : option store :=
  let all := links s ++ new in
  if decide (NoDup (map link_key new)) then
    if existsb (fun l => bool_decide (link_key l ∈ map link_key (links s))) new then None else Some (set_links all s)
  else None.

Definition link_children (id : string) (extra : list (string * pyval)) (s : store) : result mem_error store :=
  let children := py_get "children" extra in
  if py_truth children then
    match py_list children with
    | None => Err BadType
    | Some l => Ok (default s (insert_links (map (fun c => Link id c "child" "medium" 1) (child_ids l s)) s))
    end
  else Ok s.

(** [id]: the primary key drawn for the row. The row is committed before its children are
    linked. *)
Definition save (id : string) (a : save_args) (s : store) : store * result mem_error node :=
  match sa_type a with
  | None => (s, Err (Database "null value in column node_type"))
  | Some t =>
      if decide (t ∈ VALID_NODE_TYPES) then
        let n := new_node id t a in
        let s1 := set_nodes (nodes s ++ [n]) s in
        match link_children id (n_extra n) s1 with
        | Err e => (s1, Err e)
        | Ok s2 => (s2, Ok n)
        end
      else (s, Err (BadValue "Invalid node_type"))
  end.

Definition save_as_agent (id content source agent : string) (tags : pyval) (node_type : option string) (is_shared : bool) (visibility : option string)
    (user : string) (s : store) : store * result mem_error node :=
  match node_type with
  | None => (s, Err (Database "null value in column node_type"))
  | Some t =>
      if decide (t ∈ VALID_NODE_TYPES) then
        let n := Node id content (py_or tags (VList [])) t (Some source) (Some agent) is_shared
                   (match visibility with Some v => if bool_decide (v <> "") then v else if is_shared then "shared" else "private"
                                     | None => if is_shared then "shared" else "private" end)
                   (parse_user_id user) None None None 0 0 "insight" (e_now E) (e_now E) (with_trace []) None true "pending" 0 0 0 None 1
                   None None None None in
        (set_nodes (nodes s ++ [n]) s, Ok n)
      else (s, Err (BadValue "Invalid node_type"))
  end.

(** ON DELETE CASCADE: the row goes with everything that refers to it. *)
Definition delete_rows (id : string) (s : store) : store :=
  Store (List.filter (fun n => negb (bool_decide (n_id n = id))) (nodes s))
        (List.filter (fun l => negb (bool_decide (l_source l = id)) && negb (bool_decide (l_target l = id))) (links s))
        (List.filter (fun h => negb (bool_decide (h_node h = id))) (edits s))
        (List.filter (fun m => negb (bool_decide (m.2 = id))) (memberships s))
        (List.filter (fun c => negb (bool_decide (c.2 = id))) (causes s)).

Definition delete_by_id (node_id user : string) (s : store) : store * bool :=
  match get_model_by_id node_id user s with
  | None => (s, false)
  | Some n => (delete_rows (n_id n) s, true)
  end.

(** The row [n] is written back. *)
Definition put (n : node) (s : store) : store :=
  set_nodes (map (fun m => if bool_decide (n_id m = n_id n) then n else m) (nodes s)) s.

(** ** Editing *)

Definition share_memory (node_id user : string) (s : store) : store * option node :=
  match get_model_by_id node_id user s with
  | None => (s, None)
  | Some n =>
      if n_shared n then (s, Some n)
      else
        let n' := Node (n_id n) (n_content n) (n_tags n) (n_type n) (n_source n) (n_agent n) true "shared" (n_user n) (n_run n) (n_source_event n)
                    (n_root_event n) (n_depth n) (n_impact n) (n_memory_type n) (n_created n) (e_now E) (n_extra n) (n_embedding n) (n_pending n)
                    (n_status n) (n_success n) (n_failure n) (n_usage n) (n_outcome n) (n_weight n) (n_path n) (n_namespace n) (n_addr_type n) (n_parent n) in
        (put n' s, Some n')
  end.

Definition promote_to_global (node_id user : string) (s : store) : store * option node :=
  match get_model_by_id node_id user s with
  | None => (s, None)
  | Some n =>
      let n' := Node (n_id n) (n_content n) (n_tags n) (n_type n) (n_source n) (n_agent n) true "global" (n_user n) (n_run n) (n_source_event n)
                  (n_root_event n) (n_depth n) (n_impact n) (n_memory_type n) (n_created n) (e_now E) (n_extra n) (n_embedding n) (n_pending n)
                  (n_status n) (n_success n) (n_failure n) (n_usage n) (n_outcome n) (n_weight n) (n_path n) (n_namespace n) (n_addr_type n) (n_parent n) in
      (put n' s, Some n')
  end.

Definition vopt (o : option string) : pyval := match o with Some t => VStr t | None => VNone end.

(** The fields an update changes, with the values they had. *)
Definition changed_fields (content : option string) (tags : option pyval) (node_type source : option string) (n : node) : list (string * pyval) :=
  (match content with Some c => if bool_decide (c <> n_content n) then [("content", VStr (n_content n))] else [] | None => [] end) ++
  (match tags with Some t => if negb (py_eq t (py_or (n_tags n) (VList []))) then [("tags", n_tags n)] else [] | None => [] end) ++
  (match node_type with Some t => if bool_decide (t <> n_type n) then [("node_type", VStr (n_type n))] else [] | None => [] end) ++
  (match source with Some x => if bool_decide (Some x <> n_source n) then [("source", vopt (n_source n))] else [] | None => [] end).

Definition change_type (changes : list (string * pyval)) : string :=
  match changes with [(k, _)] => k | _ => "multiple" end.

Definition update (node_id user : string) (content : option string) (tags : option pyval) (node_type source : option string) (regenerate : bool)
    (s : store) : store * result mem_error (option node) :=
  match get_model_by_id node_id user s with
  | None => (s, Ok None)
  | Some n =>
      match changed_fields content tags node_type source n with
      | [] => (s, Ok (Some n))
      | changes =>
          let new_type := default (n_type n) node_type in
          if decide (new_type ∈ VALID_NODE_TYPES) then
            let fresh := bool_decide ("content" ∈ map fst changes) && regenerate in
            let n' := Node (n_id n) (default (n_content n) content) (default (n_tags n) tags) new_type
                        (match source with Some x => Some x | None => n_source n end) (n_agent n) (n_shared n) (n_visibility n) (n_user n) (n_run n)
                        (n_source_event n) (n_root_event n) (n_depth n) (n_impact n) (n_memory_type n) (n_created n) (e_now E) (n_extra n)
                        (if fresh then None else n_embedding n) (if fresh then true else n_pending n) (if fresh then "pending" else n_status n)
                        (n_success n) (n_failure n) (n_usage n) (n_outcome n) (n_weight n) (n_path n) (n_namespace n) (n_addr_type n) (n_parent n) in
            (put n' (set_edits (edits s ++ [Edit (n_id n) user (change_type changes) changes]) s), Ok (Some n'))
          else (s, Err (BadValue "Invalid node_type"))
      end
  end.

Definition MAX_WEIGHT : Q := 2.
Definition MIN_WEIGHT : Q := 1 # 10.

(** [node.weight or 1.0] *)
Definition weight_or_one (w : Q) : Q := if Qnum w =? 0 then 1 else w.

Definition record_feedback (node_id outcome user : string) (s : store) : store * option node :=
  match get_model_by_id node_id user s with
  | None => (s, None)
  | Some n =>
      let w := weight_or_one (n_weight n) in
      let won := bool_decide (outcome = "success") in
      let lost := bool_decide (outcome = "failure") in
      let n' := Node (n_id n) (n_content n) (n_tags n) (n_type n) (n_source n) (n_agent n) (n_shared n) (n_visibility n) (n_user n) (n_run n)
                  (n_source_event n) (n_root_event n) (n_depth n) (n_impact n) (n_memory_type n) (n_created n) (e_now E) (n_extra n) (n_embedding n)
                  (n_pending n) (n_status n) (if won then n_success n + 1 else n_success n) (if lost then n_failure n + 1 else n_failure n)
                  (n_usage n + 1) (Some outcome)
                  (if won then Qmin MAX_WEIGHT (w + (1 # 10)) else if lost then Qmax MIN_WEIGHT (w - (15 # 100)) else n_weight n)
                  (n_path n) (n_namespace n) (n_addr_type n) (n_parent n) in
      (put n' s, Some n')
  end.

Definition get_history (node_id user : string) (limit : Z) (s : store) : result mem_error (list edit) :=
  match get_model_by_id node_id user s with
  | None => Ok []
  | Some n => sql_limit limit (rev (List.filter (fun h => bool_decide (h_node h = n_id n)) (edits s)))
  end.

Definition create_link (source_id target_id link_type : string) (weight : Q) (user : string) (s : store) : store * result mem_error link :=
  match parse_uuid source_id, parse_uuid target_id with
  | Some sid, Some tid =>
      if bool_decide (sid = tid) then (s, Err (BadValue "source_id and target_id cannot be the same"))
      else if bool_decide (user <> "") && bool_decide (parse_user_id user = None) then (s, Err (BadValue "invalid user_id"))
      else if negb (length (select (fun n => bool_decide (n_id n ∈ [sid; tid]) && owner_only_scope user n) s) =? 2)%nat
      then (s, Err (BadValue "source and/or target node does not exist"))
      else
        let l := Link sid tid link_type "medium" weight in
        match insert_links [l] s with
        | Some s' => (s', Ok l)
        | None => (s, Err (Database "duplicate key value violates unique constraint"))
        end
  | _, _ => (s, Err (BadValue "badly formed hexadecimal UUID string"))
  end.

(** ** Reading *)

(** [{str(tag) for tag in tags if keep(tag)}] *)
Definition tag_texts (keep : pyval -> bool) (l : list pyval) : list string := map (py_str (e_render E)) (List.filter keep l).

Definition tags_match (node_tags : pyval) (query_tags : list pyval) (mode : string) : option bool :=
  l ← py_list (py_or node_tags (VList []));
  let current := tag_texts (fun t => negb (is_None t)) l in
  let requested := tag_texts py_truth query_tags in
  Some (match requested with
        | [] => true
        | _ => if bool_decide (str_upper mode = "OR") then existsb (fun t => bool_decide (t ∈ current)) requested
               else forallb (fun t => bool_decide (t ∈ current)) requested
        end).

Fixpoint filter_opt {A} (p : A -> option bool) (l : list A) : option (list A) :=
  match l with
  | [] => Some []
  | x :: l' => b ← p x; rest ← filter_opt p l'; Some (if b : bool then x :: rest else rest)
  end.

Definition get_by_tags (tags : list pyval) (limit : Z) (mode user : string) (s : store) : result mem_error (list node) :=
  let scoped := shared_scope user in
  match List.filter py_truth tags with
  | [] => sql_limit limit (select scoped s)
  | clean =>
      if e_postgres E then
        let has n t := e_contains E (n_tags n) t in
        sql_limit limit (select (fun n => scoped n && (if bool_decide (str_upper mode = "OR") then existsb (has n) clean else forallb (has n) clean)) s)
      else match filter_opt (fun n => tags_match (n_tags n) clean mode) (select scoped s) with
           | Some rows => Ok (slice limit rows)
           | None => Err BadType
           end
  end.

(** A node in a result, with the scores recall attaches to it. *)
Record hit := Hit { hit_node : node; hit_semantic : Q; hit_resonance : Q }.

(** Stable, descending. *)
Fixpoint insert_desc {A} (key : A -> Q) (x : A) (l : list A) : list A :=
  match l with
  | [] => [x]
  | y :: l' => if Qle_bool (key y) (key x) then x :: y :: l' else y :: insert_desc key x l'
  end.
Definition sort_desc {A} (key : A -> Q) (l : list A) : list A := foldr (insert_desc key) [] l.

Definition embedding_is_usable (v : list Q) : bool := existsb (fun q => negb (Qnum q =? 0)) v.

Definition embedded_scope (user node_type : string) (n : node) : bool :=
  shared_scope user n && (if bool_decide (node_type = "") then true else bool_decide (n_type n = node_type)).

Definition complete_embedding (n : node) : bool :=
  bool_decide (n_embedding n <> None) && negb (n_pending n) && bool_decide (n_status n = "complete").

Definition count_complete_embeddings (user node_type : string) (s : store) : nat :=
  length (select (fun n => embedded_scope user node_type n && complete_embedding n) s).

Definition find_similar (v : list Q) (limit : Z) (user node_type : string) (min_similarity : Q) (s : store) : result mem_error (list hit) :=
  if negb (embedding_is_usable v) then Ok []
  else match select (fun n => embedded_scope user node_type n && complete_embedding n) s with
  | [] => Ok []
  | rows =>
      let emb n := default [] (n_embedding n) in
      if e_postgres E && e_pgvector E && (0 <=? limit)%Z then
        let closest := take (Z.to_nat limit) (sort_desc (fun n => - e_distance E v (emb n))%Q rows) in
        let scored := map (fun n => let sim := Qmax 0 (1 - e_distance E v (emb n) / 2) in (sim, Hit n (e_round E sim) 0)) closest in
        Ok (map snd (List.filter (fun h => Qle_bool min_similarity h.1) scored))
      else
        let scored := map (fun n => (e_cosine E v (emb n), Hit n (e_round E (e_cosine E v (emb n))) 0))
                        (List.filter (fun n => embedding_is_usable (emb n)) rows) in
        Ok (slice limit (sort_desc hit_semantic (map snd (List.filter (fun h => Qle_bool min_similarity h.1) scored))))
  end.

(** [LIKE]: a percent sign is any text, an underscore any character, a backslash takes the
    next character as it is. *)
Fixpoint like (p s : list ascii) {struct p} : bool :=
  match p with
  | [] => match s with [] => true | _ => false end
  | c :: p' =>
      if bool_decide (c = "%"%char) then
        (fix anywhere (s : list ascii) : bool := like p' s || match s with [] => false | _ :: s' => anywhere s' end) s
      else if bool_decide (c = "_"%char) then match s with [] => false | _ :: s' => like p' s' end
      else if bool_decide (c = "\"%char) then
        match p', s with
        | d :: p'', x :: s' => bool_decide (d = x) && like p'' s'
        | _, _ => false
        end
      else match s with [] => false | x :: s' => bool_decide (c = x) && like p' s' end
  end.
Definition sql_like (pattern s : string) : bool := like (String.list_ascii_of_string pattern) (String.list_ascii_of_string s).

(** The most recently updated first, then the most recently created. *)
Definition recent_first (l : list node) : list node :=
  sort_desc (fun n => inject_Z (n_updated n)) (sort_desc (fun n => inject_Z (n_created n)) l).

Definition find_text_matches (query : string) (limit : Z) (user node_type : string) (s : store) : result mem_error (list node) :=
  let text := str_strip query in
  if bool_decide (text = "") then Ok []
  else sql_limit limit (recent_first (select (fun n => sql_like (str_lower ("%" +:+ str_lower text +:+ "%")) (str_lower (n_content n)) && embedded_scope user node_type n) s)).

Definition get_linked_nodes (node_id direction : string) (limit : option Z) (user : string) (s : store) : result mem_error (list node) :=
  match parse_uuid node_id with
  | None => Ok []
  | Some id =>
      let limited rows := match limit with Some n => if n =? 0 then Ok rows else sql_limit n rows | None => Ok rows end in
      let targets := map l_target (List.filter (fun l => bool_decide (l_source l = id)) (links s)) in
      let sources := map l_source (List.filter (fun l => bool_decide (l_target l = id)) (links s)) in
      let? out := if bool_decide (direction ∈ ["out"; "both"]) && negb (bool_decide (targets = []))
                  then limited (select (fun n => bool_decide (n_id n ∈ targets) && shared_scope user n) s) else Ok [] in
      let? into := if bool_decide (direction ∈ ["in"; "both"]) && negb (bool_decide (sources = []))
                   then limited (select (fun n => bool_decide (n_id n ∈ sources) && owner_only_scope user n) s) else Ok [] in
      Ok (out ++ List.filter (fun n => negb (bool_decide (n_id n ∈ map n_id out))) into)
  end.

(** *** Resonance *)

Definition get_success_rate (n : node) : Q :=
  let total := n_success n + n_failure n in
  if total =? 0 then 1 # 2 else inject_Z (n_success n) / inject_Z total.

Definition get_usage_frequency_score (n : node) : Q := Qmin 1 (inject_Z (n_usage n) / 100).

Definition get_graph_connectivity_score (s : store) (id : string) : Q :=
  let outbound := length (List.filter (fun l => bool_decide (l_source l = id)) (links s)) in
  let inbound := length (List.filter (fun l => bool_decide (l_target l = id)) (links s)) in
  Qmin 1 (inject_Z (Z.of_nat (outbound + inbound)) / 20).

(** [set(l)], by equality; [None] where an element cannot be hashed. *)
Definition hashable (v : pyval) : bool := match v with VList _ | VDict _ => false | _ => true end.
Fixpoint py_set (l : list pyval) : option (list pyval) :=
  match l with
  | [] => Some []
  | v :: l' => if hashable v then rest ← py_set l'; Some (if existsb (py_eq v) rest then rest else v :: rest) else None
  end.

Definition tag_score (tags : list pyval) (n : node) : option Q :=
  match tags with
  | [] => Some 0%Q
  | _ =>
      l ← py_list (py_or (n_tags n) (VList []));
      node_tags ← py_set l;
      query_tags ← py_set tags;
      let common := length (List.filter (fun t => existsb (py_eq t) query_tags) node_tags) in
      Some (inject_Z (Z.of_nat common) / inject_Z (Z.of_nat (length query_tags)))%Q
  end.

Definition impact_bonus (n : node) : Q := (Qmin 1 (Qmax 0 (n_impact n) / 5) * (15 # 100))%Q.

Definition resonance (s : store) (tag : Q) (h : hit) : Q :=
  let n := hit_node h in
  let base := (hit_semantic h * (40 # 100) + get_graph_connectivity_score s (n_id n) * (15 # 100) + e_recency E (e_now E) (n_created n) * (15 # 100)
               + get_success_rate n * (20 # 100) + get_usage_frequency_score n * (10 # 100) + impact_bonus n)%Q in
  Qmin 1 (Qmin 1 (base * weight_or_one (n_weight n)) + tag * (1 # 10))%Q.

Fixpoint score_hits (s : store) (tags : list pyval) (hs : list hit) : option (list hit) :=
  match hs with
  | [] => Some []
  | h :: hs' =>
      t ← tag_score tags (hit_node h);
      rest ← score_hits s tags hs';
      Some (Hit (hit_node h) (hit_semantic h) (e_round E (resonance s t h)) :: rest)
  end.

(** The first [limit] hits with distinct ids; the limit is looked at after a hit. *)
Fixpoint first_distinct (limit : Z) (seen : list string) (count : Z) (hs : list hit) : list hit :=
  match hs with
  | [] => []
  | h :: hs' =>
      let id := n_id (hit_node h) in
      if bool_decide (id ∈ seen) then if limit <=? count then [] else first_distinct limit seen count hs'
      else h :: (if limit <=? count + 1 then [] else first_distinct limit (id :: seen) (count + 1) hs')
  end.

(** Candidates by meaning, or by text where there is nothing to compare meanings with. *)
Definition semantic_candidates (query : string) (limit : Z) (user node_type : string) (s : store) : result mem_error (list hit) :=
  if bool_decide (query = "") then Ok []
  else
    let v := default [] (e_embed E query) in
    let ready := embedding_is_usable v in
    let available := negb (count_complete_embeddings user node_type s =? 0)%nat in
    let? similar := if ready && available then find_similar v (limit * 3) user node_type 0 s else Ok [] in
    match similar with
    | [] => if negb available || negb ready
            then let? rows := find_text_matches query (limit * 3) user node_type s in Ok (map (fun n => Hit n 0 0) rows)
            else Ok []
    | _ => Ok similar
    end.

Definition tag_candidates (tags : list pyval) (limit : Z) (user node_type : string) (found : list hit) (s : store) : result mem_error (list hit) :=
  match tags with
  | [] => Ok []
  | _ =>
      let? rows := get_by_tags tags (limit * 3) "AND" user s in
      let keep n := negb (bool_decide (n_id n ∈ map (fun h => n_id (hit_node h)) found))
                    && (bool_decide (user = "") || bool_decide (n_user n = Some user))
                    && (bool_decide (node_type = "") || bool_decide (n_type n = node_type)) in
      Ok (map (fun n => Hit n 0 0) (List.filter keep rows))
  end.

Definition recall (query : string) (tags : list pyval) (limit : Z) (user node_type : string) (s : store) : result mem_error (list hit) :=
  let? semantic := semantic_candidates query limit user node_type s in
  let? tagged := tag_candidates tags limit user node_type semantic s in
  match score_hits s tags (semantic ++ tagged) with
  | None => Err BadType
  | Some scored => Ok (first_distinct limit [] 0 (sort_desc hit_resonance scored))
  end.

(** An exception of the recall is logged and nothing is found. *)
Definition recall_from_agent (agent query : string) (tags : list pyval) (limit : Z) (user : string) (include_private : bool) (s : store) : list hit :=
  match recall query tags (limit * 5) user "" s with
  | Err _ => []
  | Ok hs => slice limit (List.filter (fun h => bool_decide (n_agent (hit_node h) = Some agent) && (include_private || n_shared (hit_node h))) hs)
  end.

Fixpoint distinct_hits (seen : list string) (hs : list hit) : list hit :=
  match hs with
  | [] => []
  | h :: hs' => let id := n_id (hit_node h) in
                if bool_decide (id ∈ seen) then distinct_hits seen hs' else h :: distinct_hits (id :: seen) hs'
  end.

Definition recall_federated (agents : list string) (query : string) (tags : list pyval) (limit : Z) (user : string) (s : store) : list hit :=
  slice limit (distinct_hits [] (sort_desc hit_resonance (concat (map (fun a => recall_from_agent a query tags limit user false s) agents)))).

Definition recall_by_type (node_type query : string) (limit : Z) (user : string) (s : store) : result mem_error (list hit) :=
  if decide (node_type ∈ VALID_NODE_TYPES) then recall query [] limit user node_type s else Err (BadValue "Invalid node_type").

(** *** The graph *)

Record step := Step { st_depth : Z; st_node : node; st_path : list link }.

Section traverse.
Context (max_depth : Z) (link_type : string) (user : string) (min_strength : Q) (s : store).

(** The links out of a node that are strong enough, the strongest first. *)
Definition strong_links (id : string) : list link :=
  sort_desc l_weight
    (List.filter (fun l => bool_decide (l_source l = id) && (bool_decide (link_type = "") || bool_decide (l_type l = link_type)) && Qle_bool min_strength (l_weight l))
       (links s)).

(** [id] as it was asked for, or as a row has it. *)
Fixpoint dfs (fuel : nat) (node_id : string) (depth : Z) (path : list link) (st : list string * list step) : list string * list step :=
  match fuel with
  | O => st
  | S f =>
      if (max_depth <? depth) || bool_decide (node_id ∈ st.1) then st
      else
        let st := (node_id :: st.1, st.2) in
        match get_model_by_id node_id user s with
        | None => st
        | Some n =>
            let st := if 0 <? depth then (st.1, st.2 ++ [Step depth n path]) else st in
            foldl (fun st l => if bool_decide (l_target l ∈ st.1) then st else dfs f (l_target l) (depth + 1) (path ++ [l]) st) st (strong_links (n_id n))
        end
  end.
End traverse.

Definition traverse (start : string) (max_depth : Z) (link_type user : string) (min_strength : Q) (s : store) : option (list string * list step) :=
  match get_model_by_id start user s with
  | None => None
  | Some _ => Some (dfs max_depth link_type user min_strength s (S (S (Z.to_nat max_depth))) start 0 [] ([], []))
  end.

(** The neighbours of [ids]: nodes found, each once and none of [ids]. *)
Definition add_neighbours (ids : list string) (found : list node) (rows : list node) : list node :=
  foldl (fun acc n => if bool_decide (n_id n ∈ map n_id acc) || bool_decide (n_id n ∈ ids) then acc else acc ++ [n]) found rows.

Fixpoint expand_from (ids : list string) (user : string) (include_similar include_linked : bool) (limit : Z) (todo : list string) (found : list node) (s : store)
    : result mem_error (list node) :=
  match todo with
  | [] => Ok found
  | id :: rest =>
      let? linked := if include_linked then get_linked_nodes id "both" (Some limit) user s else Ok [] in
      let found := add_neighbours ids found linked in
      let? similar := match (if include_similar then get_model_by_id id user s else None) with
                      | Some n => match n_embedding n with
                                  | Some v => if n_pending n then Ok [] else find_similar v (limit + 1) user "" 0 s
                                  | None => Ok []
                                  end
                      | None => Ok []
                      end in
      expand_from ids user include_similar include_linked limit rest (add_neighbours ids found (map hit_node similar)) s
  end.

Definition expand (ids : list string) (user : string) (include_similar include_linked : bool) (limit : Z) (s : store) : result mem_error (list node) :=
  expand_from ids user include_similar include_linked limit ids [] s.

(** *** Paths *)

Definition mas {A} (r : result mas_error A) : result mem_error A := match r with Ok a => Ok a | Err e => Err (Address e) end.

Definition node_to_dict (n : node) : list (string * pyval) :=
  [("id", VStr (n_id n)); ("content", VStr (n_content n)); ("tags", n_tags n); ("node_type", VStr (n_type n)); ("source", vopt (n_source n));
   ("source_agent", vopt (n_agent n)); ("is_shared", VBool (n_shared n)); ("visibility", VStr (n_visibility n)); ("user_id", vopt (n_user n));
   ("source_event_id", vopt (n_source_event n)); ("root_event_id", vopt (n_root_event n)); ("causal_depth", VInt (n_depth n)); ("impact_score", VFloat (n_impact n));
   ("memory_type", VStr (n_memory_type n)); ("embedding_pending", VBool (n_pending n)); ("embedding_status", VStr (n_status n)); ("extra", VDict (n_extra n));
   ("success_count", VInt (n_success n)); ("failure_count", VInt (n_failure n)); ("usage_count", VInt (n_usage n)); ("weight", VFloat (weight_or_one (n_weight n)));
   ("path", vopt (n_path n)); ("namespace", vopt (n_namespace n)); ("addr_type", vopt (n_addr_type n)); ("parent_path", vopt (n_parent n))].

Definition view (n : node) : result mem_error mnode := mas (enrich_node_with_path (e_render E) (e_uuid E) (node_to_dict n)).

Fixpoint views (ns : list node) : result mem_error (list mnode) :=
  match ns with
  | [] => Ok []
  | n :: ns' => let? d := view n in let? rest := views ns' in Ok (d :: rest)
  end.

(** Rows as they are turned into dicts: the rows, where that succeeds. *)
Definition viewed (r : result mem_error (list node)) : result mem_error (list node) :=
  let? rows := r in let? _ := views rows in Ok rows.

Definition at_path (path user : string) (n : node) : bool := bool_decide (n_path n = Some path) && owner_only_scope user n.

Definition get_by_path (path user : string) (s : store) : result mem_error (option node) :=
  match first_row (at_path path user) s with
  | None => Ok None
  | Some n => let? _ := view n in Ok (Some n)
  end.

Definition list_path (parent user : string) (limit : Z) (s : store) : result mem_error (list node) :=
  viewed (sql_limit limit (select (fun n => bool_decide (n_parent n = Some parent) && owner_only_scope user n) s)).

Definition below (prefix : string) (n : node) : bool :=
  match n_path n with Some p => sql_like (rstrip is_slash prefix +:+ "/%") p | None => false end.

Definition walk_path (prefix user : string) (limit : Z) (s : store) : result mem_error (list node) :=
  viewed (sql_limit limit (select (fun n => below prefix n && owner_only_scope user n) s)).

Definition path_candidates (path_expr user : string) (limit : Z) (s : store) : result mem_error (list node) :=
  let? recursive := mas (is_recursive path_expr) in
  if recursive : bool then let? p := mas (wildcard_prefix path_expr) in walk_path p user (limit * 2) s
  else
    let? wild := mas (is_wildcard path_expr) in
    if wild : bool then let? p := mas (wildcard_prefix path_expr) in list_path p user (limit * 2) s
    else if is_exact path_expr then let? n := get_by_path path_expr user s in Ok (match n with Some n => [n] | None => [] end)
    else walk_path path_expr user (limit * 2) s.

Definition query_path (path_expr query : string) (tags : list pyval) (user : string) (limit : Z) (s : store) : result mem_error (list node) :=
  let? candidates := if bool_decide (path_expr = "") then viewed (sql_limit (limit * 4) (select (owner_only_scope user) s))
                     else path_candidates path_expr user limit s in
  let? tagged := match tags with
                 | [] => Ok candidates
                 | _ => match filter_opt (fun n => tags_match (n_tags n) (List.filter py_truth tags) "AND") candidates with
                        | Some l => Ok l
                        | None => Err BadType
                        end
                 end in
  let found := if bool_decide (query = "") then tagged else List.filter (fun n => str_in (str_lower query) (str_lower (n_content n))) tagged in
  Ok (slice limit found).

(** Hops from [current] to a node whose root event is its source event. *)
Fixpoint trace_from (hops : nat) (user : string) (seen : list string) (current : node) (s : store) : result mem_error (list node) :=
  match hops with
  | O => Ok []
  | S h =>
      match n_source_event current with
      | None => Ok []
      | Some ev =>
          match parse_uuid ev with
          | None => Err (BadValue "badly formed hexadecimal UUID string")
          | Some id =>
              match first_row (fun n => bool_decide (n_root_event n = Some id) && owner_only_scope user n) s with
              | None => Ok []
              | Some n =>
                  if bool_decide (n_id n ∈ seen) then Ok []
                  else let? _ := view n in let? rest := trace_from h user (n_id n :: seen) n s in Ok (n :: rest)
              end
          end
      end
  end.

Definition causal_trace (path : string) (depth : Z) (user : string) (s : store) : result mem_error (list node) :=
  let? origin := get_by_path path user s in
  match origin with
  | None => Ok []
  | Some n => let? rest := trace_from (Z.to_nat (depth - 1)) user [n_id n] n s in Ok (n :: rest)
  end.

Definition save_at_path (id path content user : string) (tags : pyval) (node_type : option string) (extra : list (string * pyval)) (agent : option string)
    (visibility : string) (s : store) : store * result mem_error node :=
  match mas (parse_path path), mas (parent_path_of path) with
  | Ok parsed, Ok parent =>
      save id (SaveArgs content None tags user node_type extra agent visibility (Some path) (Some (default "general" (pp_namespace parsed)))
                 (Some (match pp_addr_type parsed with Some a => a | None => match node_type with Some t => if bool_decide (t = "") then "insight" else t | None => "insight" end end))
                 (Some parent) None None) s
  | Err e, _ | _, Err e => (s, Err e)
  end.

(** ** Handlers of the memory syscalls *)

Inductive answer :=
| Recalled (hs : list hit)
| Found (ns : list node)
| TreeOf (t : tree) (count : nat)
| Written (n : node) (path : string)
| Linked (l : link)
| Deleted (deleted : bool) (node_id : string).

Record caller := Caller { c_user : string; c_unit : string }.

(** [payload.get(k)] of a text, nothing as the empty text. *)
Definition text_field (k : string) (payload : mnode) : result mem_error string :=
  match py_get k payload with VNone => Ok "" | VStr t => Ok t | _ => Err BadType end.

Definition list_field (k : string) (payload : mnode) : result mem_error (list pyval) :=
  match py_get k payload with VNone => Ok [] | VList l => Ok l | _ => Err BadType end.

(** [int(payload.get(k, d))] *)
Definition int_field (k : string) (d : Z) (payload : mnode) : result mem_error Z :=
  match dict_get k payload with
  | None => Ok d
  | Some v => match py_int v with Some z => Ok z | None => Err BadType end
  end.

Definition required_text (k : string) (payload : mnode) : result mem_error string :=
  let? t := text_field k payload in
  if bool_decide (t = "") then Err (BadValue (k +:+ " required")) else Ok t.

Definition handle_memory_read (payload : mnode) (c : caller) (s : store) : result mem_error answer :=
  let? path := text_field "path" payload in
  let? query := text_field "query" payload in
  let? tags := list_field "tags" payload in
  let? limit := int_field "limit" 5 payload in
  let? node_type := text_field "node_type" payload in
  if bool_decide (path <> "") then let? ns := query_path path query tags (c_user c) limit s in Ok (Found ns)
  else let? hs := recall query tags limit (c_user c) node_type s in Ok (Recalled hs).

(** [payload.get("node_type", "insight")] *)
Definition written_type (payload : mnode) : pyval := default (VStr "insight") (dict_get "node_type" payload).

(** A value for a column of texts. *)
Definition column_text (v : pyval) : result mem_error (option string) :=
  match v with VNone => Ok None | VStr t => Ok (Some t) | _ => Err BadType end.

Definition written_extra (payload : mnode) (c : caller) : result mem_error mnode :=
  let extra := py_get "extra" payload in
  if py_truth extra then
    match extra with VDict d => Ok (dict_set "execution_unit_id" (VStr (c_unit c)) d) | _ => Err BadType end
  else Ok [("execution_unit_id", VStr (c_unit c))].

Definition write_args (payload : mnode) (c : caller) : result mem_error (string * save_args) :=
  let? content := required_text "content" payload in
  let? located := mas (path_from_write_payload (e_render E) (e_uuid E) (dict_set "node_type" (written_type payload) payload) (c_user c)) in
  let '(full_path, namespace, addr_type) := located in
  let? parent := mas (parent_path_of full_path) in
  let? node_type := column_text (written_type payload) in
  let? source := column_text (default (VStr "syscall") (dict_get "source" payload)) in
  let? ns := column_text namespace in
  let? at_ := column_text addr_type in
  let? extra := written_extra payload c in
  Ok (full_path, SaveArgs content source (py_get "tags" payload) (c_user c) node_type extra (Some "syscall_dispatcher") "private"
                   (Some full_path) ns at_ (Some parent) None None).

Definition handle_memory_write (id : string) (payload : mnode) (c : caller) (s : store) : store * result mem_error answer :=
  match write_args payload c with
  | Err e => (s, Err e)
  | Ok (path, a) => let '(s', r) := save id a s in (s', let? n := r in Ok (Written n path))
  end.

(** [str(payload.get(k) or "").strip()] *)
Definition id_field (k : string) (payload : mnode) : string := str_strip (py_str (e_render E) (py_or (py_get k payload) (VStr ""))).

Definition link_weight (payload : mnode) : result mem_error Q :=
  match py_get "weight" payload with
  | VNone => Ok (1 # 2)
  | v => match py_float (e_float E) v with Some (Fin q) => Ok q | _ => Err BadType end
  end.

Definition handle_memory_link (payload : mnode) (c : caller) (s : store) : store * result mem_error answer :=
  let source_id := id_field "source_id" payload in
  let target_id := id_field "target_id" payload in
  if bool_decide (source_id = "") || bool_decide (target_id = "") then (s, Err (BadValue "source_id and target_id required"))
  else
    match text_field "link_type" payload, link_weight payload with
    | Ok t, Ok weight =>
        match get_model_by_id source_id (c_user c) s, get_model_by_id target_id (c_user c) s with
        | None, _ => (s, Err (NotFound source_id))
        | Some _, None => (s, Err (NotFound target_id))
        | Some _, Some _ =>
            let '(s', r) := create_link source_id target_id (if bool_decide (t = "") then "related" else t) weight (c_user c) s in
            (s', let? l := r in Ok (Linked l))
        end
    | Err e, _ | _, Err e => (s, Err e)
    end.

Definition handle_memory_delete (payload : mnode) (c : caller) (s : store) : store * result mem_error answer :=
  let node_id := default (VStr "") (dict_get "node_id" payload) in
  if py_truth node_id then
    let id := py_str (e_render E) node_id in
    let '(s', deleted) := delete_by_id id (c_user c) s in (s', Ok (Deleted deleted id))
  else (s, Err (BadValue "node_id required")).

(** Why a written node is not deleted. *)
Inductive refusal := Changed (field : string) | Edited | LinkedTo | InTrace.

Definition memory_write_reversal_refusal (id : string) (recorded current : mnode) (s : store) : option refusal :=
  match List.filter (fun k => negb (py_eq (py_get k recorded) (py_get k current))) ["content"; "tags"; "node_type"] with
  | k :: _ => Some (Changed k)
  | [] =>
      if existsb (fun h => bool_decide (h_node h = id)) (edits s) then Some Edited
      else if existsb (fun l => bool_decide (l_source l = id) || bool_decide (l_target l = id)) (links s) then Some LinkedTo
      else if existsb (fun m => bool_decide (m.2 = id)) (memberships s) then Some InTrace
      else None
  end.

Definition as_dict (v : pyval) : option mnode := match v with VDict d => Some d | _ => None end.

(** [result]: what the effect ledger recorded of the write. *)
Definition compensate_memory_write (recorded_result : pyval) (c : caller) (s : store) : store * result mem_error answer :=
  match (d ← as_dict recorded_result; recorded ← as_dict (py_get "node" d);
         if py_truth (py_get "id" recorded) then Some (recorded, py_str (e_render E) (py_get "id" recorded)) else None) with
  | None => (s, Err (BadValue "the effect record holds no node id to reverse"))
  | Some (recorded, node_id) =>
      if bool_decide (c_user c = "") then (s, Err (BadValue "the owner's tenant context is required"))
      else
        match get_model_by_id node_id (c_user c) s with
        | None => (s, Ok (Deleted false node_id))
        | Some current =>
            match memory_write_reversal_refusal (n_id current) recorded (node_to_dict current) s with
            | Some _ => (s, Err (BadValue "memory node was not deleted"))
            | None => let '(s', deleted) := delete_by_id node_id (c_user c) s in (s', Ok (Deleted deleted node_id))
            end
        end
  end.

Definition handle_memory_search (payload : mnode) (c : caller) (s : store) : result mem_error answer :=
  let? query := required_text "query" payload in
  let? limit := int_field "limit" 5 payload in
  let? path := text_field "path" payload in
  if bool_decide (path <> "") then let? ns := query_path path query [] (c_user c) limit s in Ok (Found ns)
  else let? hs := recall query [] limit (c_user c) "" s in Ok (Recalled hs).

Definition handle_memory_list (payload : mnode) (c : caller) (s : store) : result mem_error answer :=
  let? path := required_text "path" payload in
  let? limit := int_field "limit" 50 payload in
  let? ns := query_path path "" [] (c_user c) limit s in Ok (Found ns).

Definition handle_memory_tree (payload : mnode) (c : caller) (s : store) : result mem_error answer :=
  let? path := required_text "path" payload in
  let? limit := int_field "limit" 200 payload in
  let? prefix := mas (if is_exact path then normalize_path path else wildcard_prefix path) in
  let? ns := walk_path prefix (c_user c) limit s in
  let? dicts := views ns in
  let? t := mas (build_tree (e_render E) (map (fun d => (e_uuid E, d)) dicts)) in
  Ok (TreeOf t (length ns)).

Definition handle_memory_trace (payload : mnode) (c : caller) (s : store) : result mem_error answer :=
  let? path := required_text "path" payload in
  let? depth := int_field "depth" 5 payload in
  let? ns := causal_trace path depth (c_user c) s in Ok (Found ns).

(** The filters of version 2, over rows given by [row]. *)
Definition v2_filter {A} (row : A -> node) (filters : mnode) (l : list A) : result mem_error (list A) :=
  let same k l := match dict_get k filters with
                  | Some v => List.filter (fun x => py_eq (py_get k (node_to_dict (row x))) v) l
                  | None => l
                  end in
  let l := same "node_type" (same "memory_type" l) in
  match dict_get "min_impact" filters with
  | None => Ok l
  | Some v => match py_float (e_float E) v with
              | None => Err BadType
              | Some m => Ok (List.filter (fun x => float_le m (Fin (n_impact (row x)))) l)
              end
  end.

Definition handle_memory_read_v2 (payload : mnode) (c : caller) (s : store) : result mem_error answer :=
  let? path := text_field "path" payload in
  let? query := text_field "query" payload in
  let? tags := list_field "tags" payload in
  let? limit := int_field "limit" 5 payload in
  let? node_type := text_field "node_type" payload in
  let? filters := match py_get "filters" payload with VDict d => Ok d | v => if py_truth v then Err BadType else Ok [] end in
  if bool_decide (path <> "") then
    let? ns := query_path path query tags (c_user c) limit s in
    let? ns := v2_filter (fun n => n) filters ns in Ok (Found (slice limit ns))
  else
    let? hs := recall query tags (limit * 2) (c_user c) node_type s in
    let? hs := v2_filter hit_node filters hs in Ok (Recalled (slice limit hs)).

Definition reading (r : store -> result mem_error answer) (s : store) : store * result mem_error answer := (s, r s).

(** The memory entries of [SYSCALL_REGISTRY]; [id]: the primary key a write draws. *)
Definition memory_handlers : list (string * (string -> mnode -> caller -> store -> store * result mem_error answer)) :=
  [("sys.v1.memory.read", fun _ p c => reading (handle_memory_read p c));
   ("sys.v1.memory.write", handle_memory_write);
   ("sys.v1.memory.link", fun _ => handle_memory_link);
   ("sys.v1.memory.delete", fun _ => handle_memory_delete);
   ("sys.v1.memory.search", fun _ p c => reading (handle_memory_search p c));
   ("sys.v1.memory.list", fun _ p c => reading (handle_memory_list p c));
   ("sys.v1.memory.tree", fun _ p c => reading (handle_memory_tree p c));
   ("sys.v1.memory.trace", fun _ p c => reading (handle_memory_trace p c));
   ("sys.v2.memory.read", fun _ p c => reading (handle_memory_read_v2 p c))].

Definition memory_syscall (name id : string) (payload : mnode) (c : caller) (s : store) : option (store * result mem_error answer) :=
  h ← dict_get name memory_handlers; Some (h id payload c s).

End dao.

(** ** What a caller sees

    [own u n]: the row [n] belongs to the user [u] and is within the scope of the run the
    caller acts in. [restrict u s] keeps these rows and what refers to them. *)

Section scope.
Context (E : surroundings) (u : string).

Definition own (n : node) : bool := apply_memory_owner_scope E (Some u) false n.

Definition own_id (s : store) (id : string) : bool := existsb (fun n => own n && bool_decide (n_id n = id)) (nodes s).

Definition restrict (s : store) : store :=
  Store (List.filter own (nodes s))
        (List.filter (fun l => own_id s (l_source l) || own_id s (l_target l)) (links s))
        (List.filter (fun h => own_id s (h_node h)) (edits s))
        (List.filter (fun m => own_id s m.2) (memberships s))
        (List.filter (fun x => own_id s x.2) (causes s)).

Lemma own_user n : own n = true -> n_user n = Some u.
Proof. unfold own, apply_memory_owner_scope. intros [H _]%andb_true_iff. by apply bool_decide_eq_true in H. Qed.

Lemma filter_refine {A} (p q : A -> bool) l : (forall x, p x = true -> q x = true) -> List.filter p (List.filter q l) = List.filter p l.
Proof.
  intros H. induction l as [ | x l IH ]; [done | ]. cbn [List.filter].
  destruct (q x) eqn:Q; cbn [List.filter]; [by rewrite IH | ]. destruct (p x) eqn:P; [ | done ]. by rewrite (H x P) in Q.
Qed.

Lemma select_restrict p s : (forall n, p n = true -> own n = true) -> select p (restrict s) = select p s.
Proof. apply filter_refine. Qed.

Lemma own_id_in s n : n ∈ nodes s -> own n = true -> own_id s (n_id n) = true.
Proof. intros H O. apply existsb_exists. exists n. split; [by apply list_elem_of_In | ]. rewrite O. by apply bool_decide_eq_true. Qed.

(** Links at an own row are all there. *)
Lemma links_out_restrict s id (q : link -> bool) :
  own_id s id = true ->
  List.filter (fun l => bool_decide (l_source l = id) && q l) (links (restrict s)) = List.filter (fun l => bool_decide (l_source l = id) && q l) (links s).
Proof. intros H. apply filter_refine. intros l [e _]%andb_true_iff. apply bool_decide_eq_true in e. by rewrite e, H. Qed.

Lemma connectivity_restrict s id : own_id s id = true -> get_graph_connectivity_score (restrict s) id = get_graph_connectivity_score s id.
Proof.
  intros H. unfold get_graph_connectivity_score. cbn [links restrict].
  rewrite !filter_refine; [done | .. ]; intros l e; apply bool_decide_eq_true in e; rewrite e, H; [apply orb_true_r | done].
Qed.
End scope.

(** ** Reading stays within the scope *)

Section reading.
Context (E : surroundings) (u user : string) (Hu : parse_user_id user = Some u).

Definition seen_own (s : store) (n : node) : Prop := n ∈ nodes s /\ own E u n = true.

Lemma owner_only_own n : owner_only_scope E user n = own E u n.
Proof. unfold owner_only_scope. by rewrite Hu. Qed.

Lemma shared_own n : shared_scope E user n = own E u n.
Proof. unfold shared_scope. by rewrite Hu. Qed.

Lemma embedded_own t n : embedded_scope E user t n = true -> own E u n = true.
Proof. unfold embedded_scope. rewrite shared_own. by intros []%andb_true_iff. Qed.

Lemma select_own p s : (forall n, p n = true -> own E u n = true) -> Forall (seen_own s) (select p s).
Proof.
  intros H. apply Forall_forall. intros n [Hn Hp]%list_elem_of_In%filter_In. split; [by apply list_elem_of_In | by apply H].
Qed.

Lemma scoped_and (b : bool) n : b && owner_only_scope E user n = true -> own E u n = true.
Proof. rewrite owner_only_own. by intros []%andb_true_iff. Qed.

Lemma get_model_own id s n : get_model_by_id E id user s = Some n -> seen_own s n /\ parse_uuid id = Some (n_id n).
Proof.
  unfold get_model_by_id, first_row. destruct (parse_uuid id) as [k | ]; [ | done ]. intros H.
  assert (Hn : n ∈ select (fun n => bool_decide (n_id n = k) && owner_only_scope E user n) s)
    by (destruct (select _ s); simplify_eq/=; left).
  apply list_elem_of_In, filter_In in Hn as [Hn [e O]%andb_true_iff]. apply bool_decide_eq_true in e. rewrite owner_only_own in O.
  unfold seen_own. by rewrite e, list_elem_of_In.
Qed.

Lemma get_model_restrict id s : get_model_by_id E id user (restrict E u s) = get_model_by_id E id user s.
Proof.
  unfold get_model_by_id, first_row. destruct (parse_uuid id) as [k | ]; [ | done ]. rewrite select_restrict; [done | ]. intros n. apply scoped_and.
Qed.

Lemma sql_limit_sub {A} k (l r : list A) (P : A -> Prop) : Forall P l -> sql_limit k l = Ok r -> Forall P r.
Proof. unfold sql_limit. intros H e. destruct (k <? 0); simplify_eq. by apply Forall_take. Qed.

Lemma slice_sub {A} k (l : list A) (P : A -> Prop) : Forall P l -> Forall P (slice k l).
Proof. unfold slice. intros H. destruct (k <? 0); by apply Forall_take. Qed.

Lemma filter_sub {A} (p : A -> bool) l (P : A -> Prop) : Forall P l -> Forall P (List.filter p l).
Proof. rewrite !List.Forall_forall. intros H x [Hx _]%filter_In. by apply H. Qed.

Lemma filter_opt_sub {A} (p : A -> option bool) l r (P : A -> Prop) : filter_opt p l = Some r -> Forall P l -> Forall P r.
Proof.
  revert r. induction l as [ | x l IH ]; intros r e H; cbn [filter_opt] in e; [by simplify_eq | ]. apply Forall_cons_iff in H as [Hx H].
  destruct (p x) as [ b | ]; [ | done ]. destruct (filter_opt p l) as [ rest | ] eqn:R; [ | done ]. cbn in e. simplify_eq.
  destruct b; [constructor | ]; eauto.
Qed.

Lemma insert_desc_perm {A} (key : A -> Q) x l : Permutation (insert_desc key x l) (x :: l).
Proof. induction l as [ | y l IH ]; cbn [insert_desc]; [done | ]. destruct (Qle_bool _ _); [done | ]. rewrite IH. constructor. Qed.

Lemma sort_desc_perm {A} (key : A -> Q) l : Permutation (sort_desc key l) l.
Proof. induction l as [ | x l IH ]; [done | ]. cbn [sort_desc foldr]. fold (sort_desc key l). by rewrite insert_desc_perm, IH. Qed.

Lemma sort_desc_sub {A} (key : A -> Q) l (P : A -> Prop) : Forall P l -> Forall P (sort_desc key l).
Proof. intros H. by rewrite sort_desc_perm. Qed.

Definition hits_own (s : store) (hs : list hit) : Prop := Forall (fun h => seen_own s (hit_node h)) hs.

Lemma get_by_tags_own tags limit mode s r : get_by_tags E tags limit mode user s = Ok r -> Forall (seen_own s) r.
Proof.
  unfold get_by_tags. destruct (List.filter py_truth tags) as [ | t clean ].
  - apply sql_limit_sub, select_own. intros n. by rewrite shared_own.
  - destruct (e_postgres E).
    + apply sql_limit_sub, select_own. intros n. rewrite shared_own. by intros []%andb_true_iff.
    + destruct (filter_opt _ _) as [ rows | ] eqn:F; [ | done ]. intros e. simplify_eq. apply slice_sub, (filter_opt_sub _ _ _ _ F), select_own.
      intros n. by rewrite shared_own.
Qed.

Lemma get_by_tags_restrict tags limit mode s : get_by_tags E tags limit mode user (restrict E u s) = get_by_tags E tags limit mode user s.
Proof.
  unfold get_by_tags. rewrite (select_restrict E u (shared_scope E user)) by (intros n; by rewrite shared_own).
  destruct (List.filter py_truth tags); [done | ]. destruct (e_postgres E); [ | done ].
  rewrite select_restrict; [done | ]. intros n. rewrite shared_own. by intros []%andb_true_iff.
Qed.

Lemma complete_own t n : embedded_scope E user t n && complete_embedding n = true -> own E u n = true.
Proof. intros [H _]%andb_true_iff. by apply embedded_own in H. Qed.

Lemma find_similar_own v limit t m s r : find_similar E v limit user t m s = Ok r -> hits_own s r.
Proof.
  unfold find_similar. destruct (negb _); [intros e; simplify_eq; by constructor | ].
  assert (H := select_own _ s (complete_own t)). destruct (select _ s) as [ | n rows ]; [intros e; simplify_eq; by constructor | ]. revert H.
  generalize (n :: rows) as l. intros l H.
  assert (G : forall (score : node -> Q) (sem : node -> Q) l', Forall (seen_own s) l' ->
            hits_own s (map snd (List.filter (fun h : Q * hit => Qle_bool m h.1) (map (fun n => (score n, Hit n (sem n) 0)) l')))).
  { intros score sem l' H'. unfold hits_own. rewrite Forall_map. apply filter_sub. rewrite Forall_map. exact H'. }
  destruct (_ && _); intros e; simplify_eq.
  - apply (G (fun n => Qmax 0 (1 - e_distance E v (default [] (n_embedding n)) / 2)) (fun n => e_round E (Qmax 0 (1 - e_distance E v (default [] (n_embedding n)) / 2)))).
    apply Forall_take, sort_desc_sub, H.
  - apply slice_sub, sort_desc_sub, (G (fun n => e_cosine E v (default [] (n_embedding n))) (fun n => e_round E (e_cosine E v (default [] (n_embedding n))))), filter_sub, H.
Qed.

Lemma find_similar_restrict v limit t m s : find_similar E v limit user t m (restrict E u s) = find_similar E v limit user t m s.
Proof. unfold find_similar. by rewrite select_restrict by apply complete_own. Qed.

Lemma text_own q t n : sql_like q (str_lower (n_content n)) && embedded_scope E user t n = true -> own E u n = true.
Proof. intros [_ H]%andb_true_iff. by apply embedded_own in H. Qed.

Lemma find_text_own q limit t s r : find_text_matches E q limit user t s = Ok r -> Forall (seen_own s) r.
Proof.
  unfold find_text_matches. case_bool_decide; [intros e; simplify_eq; by constructor | ]. apply sql_limit_sub. unfold recent_first.
  apply sort_desc_sub, sort_desc_sub, select_own. intros n. apply text_own.
Qed.

Lemma find_text_restrict q limit t s : find_text_matches E q limit user t (restrict E u s) = find_text_matches E q limit user t s.
Proof. unfold find_text_matches. by rewrite select_restrict by (intros n; apply text_own). Qed.

Lemma semantic_own q limit t s r : semantic_candidates E q limit user t s = Ok r -> hits_own s r.
Proof.
  unfold semantic_candidates. case_bool_decide; [intros e; simplify_eq; by constructor | ]. cbv zeta.
  destruct (if _ && _ then _ else _) as [ similar | ] eqn:S; [ | done ]. cbn [result_bind].
  assert (hits_own s similar) by (destruct (_ && _); [by apply find_similar_own in S | by simplify_eq; constructor]).
  destruct similar; [ | intros e; simplify_eq; try done; by constructor ]. destruct (_ || _); [ | intros e; simplify_eq; try done; by constructor ].
  destruct (find_text_matches _ _ _ _ _ _) as [ rows | ] eqn:T; [ | done ]. intros e. cbn in e. simplify_eq.
  unfold hits_own. rewrite Forall_map. by apply find_text_own in T.
Qed.

Lemma semantic_restrict q limit t s : semantic_candidates E q limit user t (restrict E u s) = semantic_candidates E q limit user t s.
Proof.
  unfold semantic_candidates, count_complete_embeddings. rewrite find_similar_restrict, find_text_restrict.
  by rewrite select_restrict by apply complete_own.
Qed.

Lemma tagged_own tags limit t found s r : tag_candidates E tags limit user t found s = Ok r -> hits_own s r.
Proof.
  unfold tag_candidates. destruct tags as [ | x tags ]; [intros e; simplify_eq; by constructor | ].
  destruct (get_by_tags _ _ _ _ _ _) as [ rows | ] eqn:T; [ | done ]. intros e. cbn in e. simplify_eq.
  unfold hits_own. rewrite Forall_map. apply filter_sub. by apply get_by_tags_own in T.
Qed.

Lemma tagged_restrict tags limit t found s : tag_candidates E tags limit user t found (restrict E u s) = tag_candidates E tags limit user t found s.
Proof. unfold tag_candidates. by rewrite get_by_tags_restrict. Qed.

Lemma score_own s s' tags hs r : score_hits E s tags hs = Some r -> hits_own s' hs -> hits_own s' r.
Proof.
  revert r. induction hs as [ | h hs IH ]; intros r e H; cbn [score_hits] in e; [by simplify_eq | ]. apply Forall_cons_iff in H as [Hh H].
  destruct (tag_score _ _); [ | done ]. cbn in e. destruct (score_hits E s tags hs) as [ rest | ]; [ | done ]. cbn in e. simplify_eq.
  constructor; [done | by apply IH].
Qed.

Lemma score_restrict s tags hs : hits_own s hs -> score_hits E (restrict E u s) tags hs = score_hits E s tags hs.
Proof.
  intros H. induction H as [ | h hs [Hn O] H IH ]; [done | ]. cbn [score_hits]. rewrite IH. unfold resonance.
  rewrite connectivity_restrict by by apply own_id_in. done.
Qed.

Lemma first_distinct_sub limit seen count hs P : Forall P hs -> Forall P (first_distinct limit seen count hs).
Proof.
  intros H. revert seen count. induction H as [ | h hs Hh H IH ]; intros seen count; cbn [first_distinct]; [constructor | ].
  repeat case_match; try constructor; auto.
Qed.

Lemma recall_own q tags limit t s r : recall E q tags limit user t s = Ok r -> hits_own s r.
Proof.
  unfold recall. destruct (semantic_candidates _ _ _ _ _ _) as [ sem | ] eqn:S; [ | done ]. cbn [result_bind].
  destruct (tag_candidates _ _ _ _ _ _ _) as [ tagged | ] eqn:T; [ | done ]. cbn [result_bind].
  apply semantic_own in S. apply tagged_own in T.
  destruct (score_hits _ _ _ _) as [ scored | ] eqn:C; [ | done ]. intros e. simplify_eq.
  apply first_distinct_sub, sort_desc_sub, (score_own _ _ _ _ _ C). by apply Forall_app.
Qed.

Lemma recall_restrict q tags limit t s : recall E q tags limit user t (restrict E u s) = recall E q tags limit user t s.
Proof.
  unfold recall. rewrite semantic_restrict. destruct (semantic_candidates _ _ _ _ _ _) as [ sem | ] eqn:S; [ | done ]. cbn [result_bind].
  rewrite tagged_restrict. destruct (tag_candidates _ _ _ _ _ _ _) as [ tagged | ] eqn:T; [ | done ]. cbn [result_bind].
  rewrite score_restrict; [done | ]. apply Forall_app. split; [by apply semantic_own in S | by apply tagged_own in T].
Qed.

Lemma viewed_sub r rows P : viewed E r = Ok rows -> (forall l, r = Ok l -> Forall P l) -> Forall P rows.
Proof. unfold viewed. destruct r as [ l | ]; [ | done ]. cbn. destruct (views E l); [ | done ]. cbn. intros e H. simplify_eq. by apply H. Qed.

Lemma walk_own p limit s r : walk_path E p user limit s = Ok r -> Forall (seen_own s) r.
Proof.
  unfold walk_path. intros e. apply (viewed_sub _ _ _ e). intros l. apply sql_limit_sub, select_own. intros n. apply scoped_and.
Qed.

Lemma list_own p limit s r : list_path E p user limit s = Ok r -> Forall (seen_own s) r.
Proof.
  unfold list_path. intros e. apply (viewed_sub _ _ _ e). intros l. apply sql_limit_sub, select_own. intros n. apply scoped_and.
Qed.

Lemma walk_restrict p limit s : walk_path E p user limit (restrict E u s) = walk_path E p user limit s.
Proof. unfold walk_path. by rewrite select_restrict by (intros n; apply scoped_and). Qed.

Lemma list_restrict p limit s : list_path E p user limit (restrict E u s) = list_path E p user limit s.
Proof. unfold list_path. by rewrite select_restrict by (intros n; apply scoped_and). Qed.

Lemma first_own p s n : (forall n, p n = true -> own E u n = true) -> first_row p s = Some n -> seen_own s n.
Proof.
  unfold first_row. intros H e. assert (F := select_own p s H). destruct (select p s); [done | ]. cbn in e. simplify_eq. by apply Forall_inv in F.
Qed.

Lemma get_path_own p s n : get_by_path E p user s = Ok (Some n) -> seen_own s n.
Proof.
  unfold get_by_path. destruct (first_row _ s) as [ m | ] eqn:F; [ | done ]. destruct (view E m); [ | done ]. cbn. intros e. simplify_eq.
  apply (first_own _ _ _ (fun n => scoped_and _ n) F).
Qed.

Lemma get_path_restrict p s : get_by_path E p user (restrict E u s) = get_by_path E p user s.
Proof. unfold get_by_path, first_row, at_path. by rewrite select_restrict by (intros n; apply scoped_and). Qed.

Lemma candidates_own p limit s r : path_candidates E p user limit s = Ok r -> Forall (seen_own s) r.
Proof.
  unfold path_candidates. destruct (mas (is_recursive p)) as [ [] | ]; cbn [result_bind]; [ | | done ].
  - destruct (mas _); [apply walk_own | done].
  - destruct (mas (is_wildcard p)) as [ [] | ]; cbn [result_bind]; [ | | done ].
    + destruct (mas _); [apply list_own | done].
    + destruct (is_exact p); [ | apply walk_own ]. destruct (get_by_path _ _ _ _) as [ [ n | ] | err ] eqn:G; cbn; intros e; simplify_eq; [ | constructor ].
      constructor; [by apply get_path_own in G | constructor].
Qed.

Lemma candidates_restrict p limit s : path_candidates E p user limit (restrict E u s) = path_candidates E p user limit s.
Proof.
  unfold path_candidates. rewrite get_path_restrict, (walk_restrict p). destruct (mas (is_recursive p)) as [ [] | ]; [ | | done ]; cbn [result_bind];
    [ | destruct (mas (is_wildcard p)) as [ [] | ]; [ | done | done ]; cbn [result_bind] ];
    destruct (mas (wildcard_prefix p)); try done; [apply walk_restrict | apply list_restrict].
Qed.

Lemma query_path_own p q tags limit s r : query_path E p q tags user limit s = Ok r -> Forall (seen_own s) r.
Proof.
  unfold query_path. destruct (if bool_decide (p = "") then _ else _) as [ cands | ] eqn:C; [ | done ]. cbn [result_bind].
  assert (H : Forall (seen_own s) cands).
  { case_bool_decide; [ | by apply candidates_own in C ]. apply (viewed_sub _ _ _ C). intros l. apply sql_limit_sub, select_own. intros n. by rewrite owner_only_own. }
  destruct (match tags with [] => _ | _ => _ end) as [ tagged | ] eqn:T; [ | done ]. cbn [result_bind].
  assert (Ht : Forall (seen_own s) tagged).
  { destruct tags; [by simplify_eq | ]. destruct (filter_opt _ _) eqn:F; [ | done ]. simplify_eq. by apply (filter_opt_sub _ _ _ _ F). }
  intros e. simplify_eq. apply slice_sub. destruct (bool_decide (q = "")); [done | by apply filter_sub].
Qed.

Lemma query_path_restrict p q tags limit s : query_path E p q tags user limit (restrict E u s) = query_path E p q tags user limit s.
Proof.
  unfold query_path. rewrite candidates_restrict. rewrite select_restrict; [done | ]. intros n. by rewrite owner_only_own.
Qed.

Lemma trace_from_own h seen n s r : trace_from E h user seen n s = Ok r -> Forall (seen_own s) r.
Proof.
  revert seen n r. induction h as [ | h IH ]; intros seen n r e; cbn [trace_from] in e; [by simplify_eq; constructor | ].
  destruct (n_source_event n) as [ ev | ]; [ | by simplify_eq; constructor ]. destruct (parse_uuid ev); [ | done ].
  destruct (first_row _ s) as [ m | ] eqn:F; [ | by simplify_eq; constructor ]. case_bool_decide; [by simplify_eq; constructor | ].
  destruct (view E m); [ | done ]. cbn [result_bind] in e. destruct (trace_from _ _ _ _ _ _) eqn:T; [ | done ]. cbn in e. simplify_eq.
  constructor; [ | by apply IH in T ]. apply (first_own _ _ _ (fun n => scoped_and _ n) F).
Qed.

Lemma trace_from_restrict h seen n s : trace_from E h user seen n (restrict E u s) = trace_from E h user seen n s.
Proof.
  revert seen n. induction h as [ | h IH ]; intros seen n; [done | ]. cbn [trace_from]. destruct (n_source_event n) as [ ev | ]; [ | done ].
  destruct (parse_uuid ev); [ | done ]. unfold first_row. rewrite select_restrict by (intros m; apply scoped_and).
  destruct (head _) as [ m | ]; [ | done ]. by rewrite IH.
Qed.

Lemma causal_own p depth s r : causal_trace E p depth user s = Ok r -> Forall (seen_own s) r.
Proof.
  unfold causal_trace. destruct (get_by_path _ _ _ _) as [ [ n | ] | err ] eqn:G; cbn [result_bind]; intros e; [ | by simplify_eq; constructor | done ].
  destruct (trace_from _ _ _ _ _ _) eqn:T; [ | done ]. cbn in e. simplify_eq. constructor; [by apply get_path_own in G | by apply trace_from_own in T].
Qed.

Lemma causal_restrict p depth s : causal_trace E p depth user (restrict E u s) = causal_trace E p depth user s.
Proof. unfold causal_trace. rewrite get_path_restrict. destruct (get_by_path _ _ _ _) as [ [ n | ] | ]; cbn [result_bind]; [by rewrite trace_from_restrict | done | done]. Qed.
End reading.

(** ** Writing stays within the scope *)

Definition ids (s : store) : list string := map n_id (nodes s).

(** The constraints of the tables: primary keys, foreign keys, the unique index of links;
    and the range of the adaptive weight. *)
Record store_ok (s : store) : Prop := StoreOk {
  ok_keys : NoDup (ids s);
  ok_links : Forall (fun l => l_source l ∈ ids s /\ l_target l ∈ ids s) (links s);
  ok_unique : NoDup (map link_key (links s));
  ok_edits : Forall (fun h => h_node h ∈ ids s) (edits s);
  ok_members : Forall (fun m => m.2 ∈ ids s) (memberships s);
  ok_causes : Forall (fun x => x.2 ∈ ids s) (causes s);
  ok_weights : Forall (fun n => (MIN_WEIGHT <= n_weight n <= MAX_WEIGHT)%Q) (nodes s) }.

(** What is not in the caller's scope: of the links, those with both ends outside it. *)
Definition complement (E : surroundings) (u : string) (s : store) : store :=
  Store (List.filter (fun n => negb (own E u n)) (nodes s))
        (List.filter (fun l => negb (own_id E u s (l_source l) || own_id E u s (l_target l))) (links s))
        (List.filter (fun h => negb (own_id E u s (h_node h))) (edits s))
        (List.filter (fun m => negb (own_id E u s m.2)) (memberships s))
        (List.filter (fun x => negb (own_id E u s x.2)) (causes s)).

Section writing.
Context (E : surroundings) (u : string).

Lemma filter_filter {A} (p q : A -> bool) l : List.filter p (List.filter q l) = List.filter (fun x => q x && p x) l.
Proof. induction l as [ | x l IH ]; [done | ]. cbn [List.filter]. destruct (q x); cbn [List.filter andb]; by rewrite IH. Qed.

Lemma filter_agree {A} (p q : A -> bool) l (P : A -> Prop) : Forall P l -> (forall x, P x -> p x = q x) -> List.filter p l = List.filter q l.
Proof. intros H e. apply filter_ext_in. intros x Hx. apply e. by rewrite List.Forall_forall in H; apply H. Qed.

Lemma own_id_true s id : own_id E u s id = true <-> exists n, seen_own E u s n /\ n_id n = id.
Proof.
  unfold own_id. rewrite existsb_exists. split.
  - intros (n & Hn & [O e]%andb_true_iff). apply bool_decide_eq_true in e. exists n. split; [split; [by apply list_elem_of_In | done] | done].
  - intros (n & [Hn O] & e). exists n. split; [by apply list_elem_of_In | ]. rewrite O. by apply bool_decide_eq_true.
Qed.

Lemma own_id_known s id : own_id E u s id = true -> id ∈ ids s.
Proof. intros (n & [Hn _] & <-)%own_id_true. unfold ids. by apply list_elem_of_fmap_2. Qed.

Lemma fresh_not_own s id : id ∉ ids s -> own_id E u s id = false.
Proof. intros H. destruct (own_id E u s id) eqn:O; [ | done ]. by apply own_id_known in O. Qed.

(** With unique keys a row that is not own has no id of an own row. *)
Lemma row_of_id s n m : NoDup (ids s) -> n ∈ nodes s -> m ∈ nodes s -> n_id n = n_id m -> n = m.
Proof. apply NoDup_map_inj. Qed.

Lemma delete_own_id s id x : own_id E u (delete_rows id s) x = own_id E u s x && negb (bool_decide (x = id)).
Proof.
  apply eq_bool_prop_intro. rewrite andb_True, !Is_true_true, !own_id_true, negb_true_iff, bool_decide_eq_false. split.
  - intros (n & [Hn O] & <-). cbn in Hn. apply list_elem_of_In, filter_In in Hn as [Hn e]. apply negb_true_iff, bool_decide_eq_false in e.
    split; [ | done ]. exists n. split; [split; [by apply list_elem_of_In | done] | done].
  - intros [(n & [Hn O] & <-) e]. exists n. split; [ | done ]. split; [ | done ]. cbn. apply list_elem_of_In, filter_In. split; [by apply list_elem_of_In | ].
    by apply negb_true_iff, bool_decide_eq_false.
Qed.

Lemma delete_refs {A} (key : A -> string) s id l :
  own_id E u s id = true ->
  List.filter (fun x => negb (own_id E u (delete_rows id s) (key x))) (List.filter (fun x => negb (bool_decide (key x = id))) l)
  = List.filter (fun x => negb (own_id E u s (key x))) l.
Proof.
  intros O. rewrite filter_filter. apply List.filter_ext. intros x. rewrite delete_own_id. case_bool_decide as e; [ | cbn; by rewrite andb_true_r ].
  by rewrite e, O.
Qed.

Lemma delete_complement s n : store_ok s -> seen_own E u s n -> complement E u (delete_rows (n_id n) s) = complement E u s.
Proof.
  intros H [Hn O]. assert (Oid : own_id E u s (n_id n) = true) by by apply own_id_in. unfold complement. f_equal.
  - cbn [nodes delete_rows]. rewrite filter_filter. apply filter_ext_in. intros m Hm%list_elem_of_In. case_bool_decide as e; [ | done ].
    by rewrite (row_of_id s m n (ok_keys s H) Hm Hn e), O.
  - cbn [links delete_rows]. rewrite filter_filter. apply List.filter_ext. intros l. rewrite !delete_own_id.
    destruct (decide (l_source l = n_id n)) as [ e | ]; [by rewrite e, Oid, bool_decide_true | ].
    destruct (decide (l_target l = n_id n)) as [ e | ]; [by rewrite e, Oid, (bool_decide_true (n_id n = n_id n)), andb_false_r, orb_true_r | ].
    rewrite !bool_decide_false by done. cbn. by rewrite !andb_true_r.
  - apply (delete_refs h_node _ _ _ Oid).
  - apply (delete_refs snd _ _ _ Oid).
  - apply (delete_refs snd _ _ _ Oid).
Qed.

(** Appending an own row with a fresh key. *)
Lemma append_own_id s n x : own E u n = true -> own_id E u (set_nodes (nodes s ++ [n]) s) x = own_id E u s x || bool_decide (n_id n = x).
Proof. intros O. unfold own_id. cbn [nodes set_nodes]. rewrite existsb_app. cbn [existsb]. by rewrite O, orb_false_r. Qed.

Lemma append_refs {A} (key : A -> string) s n l :
  own E u n = true -> n_id n ∉ ids s -> Forall (fun x => key x ∈ ids s) l ->
  List.filter (fun x => negb (own_id E u (set_nodes (nodes s ++ [n]) s) (key x))) l = List.filter (fun x => negb (own_id E u s (key x))) l.
Proof.
  intros O F H. apply (filter_agree _ _ _ _ H). intros x Hx. rewrite append_own_id by done. rewrite bool_decide_false by (intros e; by rewrite e in F).
  by rewrite orb_false_r.
Qed.

Lemma append_complement s n : store_ok s -> own E u n = true -> n_id n ∉ ids s -> complement E u (set_nodes (nodes s ++ [n]) s) = complement E u s.
Proof.
  intros H O F. unfold complement. cbn [nodes links edits memberships causes set_nodes]. f_equal.
  - rewrite List.filter_app. cbn [List.filter]. by rewrite O, app_nil_r.
  - apply (filter_agree _ _ _ _ (ok_links s H)). intros l [Hs Ht].
    change (Store (nodes s ++ [n]) _ _ _ _) with (set_nodes (nodes s ++ [n]) s). rewrite !append_own_id by done.
    rewrite !bool_decide_false by (intros e; by rewrite e in F). by rewrite !orb_false_r.
  - apply (append_refs h_node); [done | done | apply ok_edits, H].
  - apply (append_refs snd); [done | done | apply ok_members, H].
  - apply (append_refs snd); [done | done | apply ok_causes, H].
Qed.

(** Links at own rows. *)
Lemma links_complement s new : Forall (fun l => own_id E u s (l_source l) = true) new -> complement E u (set_links (links s ++ new) s) = complement E u s.
Proof.
  intros H. unfold complement. cbn [nodes links edits memberships causes set_links]. f_equal. rewrite List.filter_app.
  change (fun l => negb (own_id E u (set_links (links s ++ new) s) (l_source l) || own_id E u (set_links (links s ++ new) s) (l_target l)))
    with (fun l => negb (own_id E u s (l_source l) || own_id E u s (l_target l))).
  replace (List.filter _ new) with (@nil link); [apply app_nil_r | ].
  induction H as [ | l new Hl H IH ]; [done | ]. cbn [List.filter]. by rewrite Hl.
Qed.

(** Writing an own row back in place. *)
Lemma put_own_id s n x : (forall m, m ∈ nodes s -> n_id m = n_id n -> own E u m = own E u n) -> own_id E u (put n s) x = own_id E u s x.
Proof.
  unfold own_id. cbn [nodes put set_nodes]. generalize (nodes s) as l. intros l H. induction l as [ | m l IH ]; [done | ]. cbn [map existsb].
  rewrite IH by (intros k Hk; apply H; by right). case_bool_decide as e; [ | done ]. by rewrite (H m ltac:(left) e), e.
Qed.

Lemma put_complement s n n' :
  store_ok s -> seen_own E u s n -> n_id n' = n_id n -> own E u n' = true -> complement E u (put n' s) = complement E u s.
Proof.
  intros H [Hn O] e O'.
  assert (R : forall m, m ∈ nodes s -> n_id m = n_id n' -> own E u m = own E u n').
  { intros m Hm em. rewrite e in em. by rewrite (row_of_id s m n (ok_keys s H) Hm Hn em), O, O'. }
  unfold complement. cbn [links edits memberships causes put set_nodes]. change (Store _ (links s) _ _ _) with (put n' s). f_equal.
  - cbn [nodes put set_nodes]. clear - R O'. induction (nodes s) as [ | m l IH ]; [done | ]. cbn [map List.filter]. rewrite IH by (intros k Hk; apply R; by right).
    case_bool_decide as em; [ | done ]. by rewrite (R m ltac:(left) em), O'.
  - apply List.filter_ext. intros l. by rewrite !put_own_id.
  - apply List.filter_ext. intros l. by rewrite !put_own_id.
  - apply List.filter_ext. intros l. by rewrite !put_own_id.
  - apply List.filter_ext. intros l. by rewrite !put_own_id.
Qed.

Lemma edits_complement s h : own_id E u s (h_node h) = true -> complement E u (set_edits (edits s ++ [h]) s) = complement E u s.
Proof.
  intros O. unfold complement. cbn [nodes links edits memberships causes set_edits]. f_equal. rewrite List.filter_app. cbn [List.filter].
  change (own_id E u (set_edits (edits s ++ [h]) s)) with (own_id E u s). by rewrite O, app_nil_r.
Qed.

Lemma own_by_fields n m : n_user n = n_user m -> n_run n = n_run m -> own E u n = own E u m.
Proof. unfold own, apply_memory_owner_scope. by intros -> ->. Qed.

(** The row a save makes is in the scope of who saves it. *)
Lemma resolved_visible explicit v :
  explicit = None -> (if e_private E then match run_uuid E with Some r => bool_decide (resolve_owner_run_id E explicit None v = None) || bool_decide (resolve_owner_run_id E explicit None v = Some r)
                                                 | None => bool_decide (resolve_owner_run_id E explicit None v = None) end else true) = true.
Proof.
  intros ->. unfold resolve_owner_run_id. destruct (e_private E); [ | done ]. cbn [negb]. rewrite (bool_decide_false (None = Some false)) by done.
  destruct (bool_decide (v ∈ _)); destruct (run_uuid E); [ by rewrite bool_decide_true | by rewrite bool_decide_true | | by rewrite bool_decide_true ].
  rewrite (bool_decide_true (Some s = Some s)) by done. apply orb_true_r.
Qed.

Lemma new_node_own id t a : parse_user_id (sa_user a) = Some u -> sa_owner_run a = None -> sa_private a = None -> own E u (new_node E id t a) = true.
Proof.
  intros H Hr Hp. unfold own, apply_memory_owner_scope. cbn [new_node n_user n_run n_visibility]. rewrite H, bool_decide_true by done. cbn [andb].
  rewrite Hp. by apply resolved_visible.
Qed.

(** *** Table constraints *)

Lemma ids_append s n : ids (set_nodes (nodes s ++ [n]) s) = ids s ++ [n_id n].
Proof. unfold ids. cbn [nodes set_nodes]. apply map_app. Qed.

Lemma append_ok s n : store_ok s -> n_id n ∉ ids s -> (MIN_WEIGHT <= n_weight n <= MAX_WEIGHT)%Q -> store_ok (set_nodes (nodes s ++ [n]) s).
Proof.
  intros [K L U D M C W] F Hw. assert (S : forall x, x ∈ ids s -> x ∈ ids (set_nodes (nodes s ++ [n]) s)) by (intros x Hx; rewrite ids_append; set_solver).
  split; cbn [nodes links edits memberships causes set_nodes].
  - rewrite ids_append. apply NoDup_app. split_and!; [done | | apply NoDup_singleton]. intros x Hx ->%list_elem_of_singleton. done.
  - apply (Forall_impl _ _ _ L). intros l [H1 H2]. auto.
  - done.
  - apply (Forall_impl _ _ _ D). auto.
  - apply (Forall_impl _ _ _ M). auto.
  - apply (Forall_impl _ _ _ C). auto.
  - apply Forall_app. split; [done | ]. by constructor.
Qed.

Lemma ids_put s n : ids (put n s) = ids s.
Proof.
  unfold ids. cbn [nodes put set_nodes]. rewrite map_map. apply map_ext_in. intros m _. case_bool_decide; auto.
Qed.

Lemma put_ok s n : store_ok s -> (MIN_WEIGHT <= n_weight n <= MAX_WEIGHT)%Q -> store_ok (put n s).
Proof.
  intros [K L U D M C W] Hw. split; rewrite ?ids_put; cbn [nodes links edits memberships causes put set_nodes]; try done.
  rewrite Forall_map. apply (Forall_impl _ _ _ W). intros m Hm. by case_bool_decide.
Qed.

Lemma ids_delete s id x : x ∈ ids (delete_rows id s) <-> x ∈ ids s /\ x <> id.
Proof.
  unfold ids. cbn [nodes delete_rows]. rewrite !list_elem_of_In, !in_map_iff. split.
  - intros (n & <- & [Hn e%negb_true_iff%bool_decide_eq_false]%filter_In). eauto.
  - intros [(n & <- & Hn) e]. exists n. split; [done | ]. apply filter_In. split; [done | ]. by apply negb_true_iff, bool_decide_eq_false.
Qed.

Lemma NoDup_map_filter {A B} (f : A -> B) (p : A -> bool) l : NoDup (map f l) -> NoDup (map f (List.filter p l)).
Proof.
  induction l as [ | x l IH ]; [done | ]. cbn [map List.filter]. intros [N D]%NoDup_cons. destruct (p x); [ | auto ]. cbn [map]. apply NoDup_cons. split; [ | auto ].
  intros Hx. apply N. apply list_elem_of_In, in_map_iff in Hx as (y & e & [Hy _]%filter_In). rewrite <- e. by apply list_elem_of_In, in_map.
Qed.

Lemma delete_refs_ok {A} (key : A -> string) s id l :
  Forall (fun x => key x ∈ ids s) l -> Forall (fun x => key x ∈ ids (delete_rows id s)) (List.filter (fun x => negb (bool_decide (key x = id))) l).
Proof.
  rewrite !List.Forall_forall. intros H x [Hx e%negb_true_iff%bool_decide_eq_false]%filter_In. apply ids_delete. auto.
Qed.

Lemma delete_ok s id : store_ok s -> store_ok (delete_rows id s).
Proof.
  intros [K L U D M C W]. split.
  - by apply NoDup_map_filter.
  - cbn [links delete_rows]. rewrite List.Forall_forall in *. intros l [Hl [e1%negb_true_iff%bool_decide_eq_false e2%negb_true_iff%bool_decide_eq_false]%andb_true_iff]%filter_In.
    destruct (L l Hl). split; by apply ids_delete.
  - by apply NoDup_map_filter.
  - by apply (delete_refs_ok h_node).
  - by apply (delete_refs_ok snd).
  - by apply (delete_refs_ok snd).
  - by apply filter_sub.
Qed.

Lemma insert_links_spec new s s' : insert_links new s = Some s' -> s' = set_links (links s ++ new) s /\ NoDup (map link_key new) /\ forall l, l ∈ new -> link_key l ∉ map link_key (links s).
Proof.
  unfold insert_links. destruct (decide _) as [ D | ]; [ | done ]. destruct (existsb _ new) eqn:X; [done | ]. intros e. simplify_eq. split_and!; [done | done | ].
  intros l Hl Hk. apply not_true_iff_false in X. apply X, existsb_exists. exists l. split; [by apply list_elem_of_In | by apply bool_decide_eq_true].
Qed.

Lemma links_ok new s s' :
  store_ok s -> insert_links new s = Some s' -> Forall (fun l => l_source l ∈ ids s /\ l_target l ∈ ids s) new -> store_ok s'.
Proof.
  intros [K L U D M C W] (-> & N & F)%insert_links_spec H. split; cbn [nodes links edits memberships causes set_links]; try done.
  - by apply Forall_app.
  - rewrite map_app. apply NoDup_app. split_and!; [done | | done]. intros x Hx Hn. apply list_elem_of_In, in_map_iff in Hn as (l & <- & Hl%list_elem_of_In).
    by apply (F l Hl).
Qed.

Lemma edits_ok s h : store_ok s -> h_node h ∈ ids s -> store_ok (set_edits (edits s ++ [h]) s).
Proof. intros [K L U D M C W] H. split; cbn [nodes links edits memberships causes set_edits]; try done. apply Forall_app. split; [done | by constructor]. Qed.
End writing.

(** ** All operations

    The calls that change the tables: syscalls, the undo of a write, and the edits the
    routes make through the data access object. *)

Inductive op :=
| OSyscall (name id : string) (payload : mnode)
| OUndo (recorded : pyval)
| OSaveAs (id content source agent : string) (tags : pyval) (node_type : option string) (is_shared : bool) (visibility : option string)
| OShare (node_id : string)
| OPromote (node_id : string)
| OUpdate (node_id : string) (content : option string) (tags : option pyval) (node_type source : option string) (regenerate : bool)
| OFeedback (node_id outcome : string).

Definition perform (E : surroundings) (o : op) (c : caller) (s : store) : store :=
  match o with
  | OSyscall name id payload => match memory_syscall E name id payload c s with Some (s', _) => s' | None => s end
  | OUndo recorded => (compensate_memory_write E recorded c s).1
  | OSaveAs id content source agent tags t shared v => (save_as_agent E id content source agent tags t shared v (c_user c) s).1
  | OShare node_id => (share_memory E node_id (c_user c) s).1
  | OPromote node_id => (promote_to_global E node_id (c_user c) s).1
  | OUpdate node_id content tags t source g => (update E node_id (c_user c) content tags t source g s).1
  | OFeedback node_id outcome => (record_feedback E node_id outcome (c_user c) s).1
  end.

(** The primary key an operation draws is new. *)
Definition fresh_for (o : op) (s : store) : Prop :=
  match o with OSyscall _ id _ | OSaveAs id _ _ _ _ _ _ _ => id ∉ ids s | _ => True end.

Section operations.
Context (E : surroundings) (u : string).

(** What one operation may do to the tables. *)
Definition stays (s s' : store) : Prop := store_ok s' /\ complement E u s' = complement E u s.

Lemma stays_refl s : store_ok s -> stays s s.
Proof. by split. Qed.

(** The links a call that draws the key [id] may add: from a row of the caller's scope, to
    another one, or from the row [id] it writes to any row. *)
Definition links_from (id : string) (s s' : store) : Prop :=
  forall l, l ∈ links s' -> l ∈ links s \/ own_id E u s' (l_source l) = true /\ (own_id E u s' (l_target l) = true \/ l_source l = id).

Lemma links_from_same id s s' : links s' = links s -> links_from id s s'.
Proof. intros e l Hl. left. by rewrite e in Hl. Qed.

Lemma links_from_delete id x s : links_from id s (delete_rows x s).
Proof. intros l Hl. left. cbn in Hl. by apply list_elem_of_In, filter_In in Hl as [Hl%list_elem_of_In _]. Qed.

(** A link that is gone had an end in the scope. *)
Lemma stays_links s s' l : stays s s' -> l ∈ links s -> l ∈ links s' \/ own_id E u s (l_source l) = true \/ own_id E u s (l_target l) = true.
Proof.
  intros [_ C] Hl. destruct (own_id E u s (l_source l)) eqn:E1; [by right; left|]. destruct (own_id E u s (l_target l)) eqn:E2; [by right; right|].
  left. apply (f_equal links) in C. cbn [links complement] in C.
  assert (H : In l (List.filter (fun l => negb (own_id E u s (l_source l) || own_id E u s (l_target l))) (links s)))
    by (apply filter_In; rewrite E1, E2; split; [by apply list_elem_of_In | done]).
  rewrite <- C in H. by apply filter_In in H as [H%list_elem_of_In _].
Qed.

Lemma child_ids_known children s : Forall (fun id => id ∈ ids s) (child_ids E children s).
Proof.
  unfold child_ids. apply Forall_forall. intros id Hid. apply list_elem_of_omap in Hid as (c & _ & e). destruct (parse_uuid _) as [ k | ]; [ | done ].
  destruct (existsb _ _) eqn:X; [ | done ]. simplify_eq. apply existsb_exists in X as (n & Hn & e). apply bool_decide_eq_true in e. rewrite <- e.
  unfold ids. by apply list_elem_of_In, in_map.
Qed.

Lemma link_children_stays id extra s s' : store_ok s -> own_id E u s id = true -> link_children E id extra s = Ok s' -> stays s s'.
Proof.
  intros H O. unfold link_children. destruct (py_truth _); [ | intros e; simplify_eq; by apply stays_refl ]. destruct (py_list _) as [ l | ]; [ | done ].
  intros e. simplify_eq. destruct (insert_links _ s) as [ s2 | ] eqn:I; [ | by apply stays_refl ]. cbn [default]. split.
  - apply (links_ok _ _ _ H I). rewrite Forall_map. apply (Forall_impl _ _ _ (child_ids_known l s)). intros c Hc. cbn. split; [by apply own_id_known in O | done].
  - apply insert_links_spec in I as (-> & _ & _). apply links_complement. rewrite Forall_map. by apply Forall_true.
Qed.

Lemma weight_one : (MIN_WEIGHT <= 1 <= MAX_WEIGHT)%Q.
Proof. by split. Qed.

Lemma save_stays id a s :
  store_ok s -> id ∉ ids s -> parse_user_id (sa_user a) = Some u -> sa_owner_run a = None -> sa_private a = None -> stays s (save E id a s).1.
Proof.
  intros H F Hu Hr Hp. unfold save. destruct (sa_type a) as [ t | ]; [ | by apply stays_refl ]. destruct (decide _); [ | by apply stays_refl ].
  cbv zeta. set (n := new_node E id t a). set (s1 := set_nodes (nodes s ++ [n]) s).
  assert (O : own E u n = true) by by apply new_node_own.
  assert (H1 : stays s s1) by (split; [apply append_ok; [done | done | apply weight_one] | by apply append_complement]).
  destruct (link_children E id (n_extra n) s1) as [ s2 | ] eqn:L; [ | done ]. cbn [fst].
  apply link_children_stays in L as [H2 C2]; [split; [done | by rewrite C2; apply H1] | apply H1 | ].
  unfold s1. rewrite append_own_id by done. cbn [n_id n new_node]. rewrite bool_decide_true by done. apply orb_true_r.
Qed.

Lemma save_as_stays id content source agent tags t shared v user s :
  store_ok s -> id ∉ ids s -> parse_user_id user = Some u -> stays s (save_as_agent E id content source agent tags t shared v user s).1.
Proof.
  intros H F Hu. unfold save_as_agent. destruct t as [ t | ]; [ | by apply stays_refl ]. destruct (decide _); [ | by apply stays_refl ]. cbn [fst].
  split; [apply append_ok; [done | done | apply weight_one] | apply append_complement; [done | | done] ].
  unfold own, apply_memory_owner_scope. cbn [n_user n_run]. rewrite Hu, bool_decide_true by done. rewrite (bool_decide_true (None = None)) by done.
  by destruct (e_private E), (run_uuid E).
Qed.

Lemma save_links id a s : parse_user_id (sa_user a) = Some u -> sa_owner_run a = None -> sa_private a = None -> links_from id s (save E id a s).1.
Proof.
  intros Hu Hr Hp. unfold save. destruct (sa_type a) as [ t | ]; [ | by apply links_from_same ]. destruct (decide _); [ | by apply links_from_same ].
  cbv zeta. set (n := new_node E id t a). set (s1 := set_nodes (nodes s ++ [n]) s).
  assert (O : own_id E u s1 id = true).
  { unfold s1. rewrite append_own_id by by apply new_node_own. cbn [n_id n new_node]. rewrite bool_decide_true by done. apply orb_true_r. }
  unfold link_children. destruct (py_truth _); [ | by apply links_from_same ]. destruct (py_list _) as [ cs | ]; [ | by apply links_from_same ].
  cbn [fst]. destruct (insert_links _ s1) as [ s2 | ] eqn:I; [ | by apply links_from_same ]. apply insert_links_spec in I as (-> & _ & _). cbn [default].
  intros l [Hl|Hl]%elem_of_app; [by left | ]. right. apply list_elem_of_In, in_map_iff in Hl as (x & <- & _). split; [exact O | by right].
Qed.

Section by_id.
Context (user : string) (Hu : parse_user_id user = Some u).

Lemma delete_by_id_stays id s : store_ok s -> stays s (delete_by_id E id user s).1.
Proof.
  intros H. unfold delete_by_id. destruct (get_model_by_id _ _ _ _) as [ n | ] eqn:G; [ | by apply stays_refl ]. apply (get_model_own _ _ _ Hu) in G as [G _].
  split; [by apply delete_ok | by apply delete_complement].
Qed.

(** Writing back a row that was read, with its key, owner and run as they were. *)
Lemma put_stays id s n n' :
  store_ok s -> get_model_by_id E id user s = Some n -> n_id n' = n_id n -> n_user n' = n_user n -> n_run n' = n_run n ->
  (MIN_WEIGHT <= n_weight n' <= MAX_WEIGHT)%Q -> stays s (put n' s).
Proof.
  intros H G e eu er W. apply (get_model_own _ _ _ Hu) in G as [[Hn O] _]. split; [by apply put_ok | ]. apply (put_complement E u s n); [done | done | done | ].
  by rewrite (own_by_fields _ _ _ _ eu er).
Qed.

Lemma stored_weight id s n : store_ok s -> get_model_by_id E id user s = Some n -> (MIN_WEIGHT <= n_weight n <= MAX_WEIGHT)%Q.
Proof.
  intros H G. apply (get_model_own _ _ _ Hu) in G as [[Hn _] _]. assert (W := ok_weights s H). rewrite Forall_forall in W. by apply W.
Qed.

Lemma share_stays id s : store_ok s -> stays s (share_memory E id user s).1.
Proof.
  intros H. unfold share_memory. destruct (get_model_by_id _ _ _ _) as [ n | ] eqn:G; [ | by apply stays_refl ]. destruct (n_shared n); [by apply stays_refl | ].
  cbn [fst]. apply (put_stays id s n); [done | done | done | done | done | exact (stored_weight id s n H G)].
Qed.

Lemma promote_stays id s : store_ok s -> stays s (promote_to_global E id user s).1.
Proof.
  intros H. unfold promote_to_global. destruct (get_model_by_id _ _ _ _) as [ n | ] eqn:G; [ | by apply stays_refl ].
  cbn [fst]. apply (put_stays id s n); [done | done | done | done | done | exact (stored_weight id s n H G)].
Qed.

Lemma feedback_weight w won lost :
  (MIN_WEIGHT <= w <= MAX_WEIGHT)%Q ->
  (MIN_WEIGHT <= (if won : bool then Qmin MAX_WEIGHT (weight_or_one w + (1 # 10)) else if lost : bool then Qmax MIN_WEIGHT (weight_or_one w - (15 # 100)) else w) <= MAX_WEIGHT)%Q.
Proof.
  intros W. assert (V : (MIN_WEIGHT <= weight_or_one w <= MAX_WEIGHT)%Q) by (unfold weight_or_one; destruct (_ =? _); [by split | done]).
  revert W V. generalize (weight_or_one w) as v. unfold MIN_WEIGHT, MAX_WEIGHT. intros v [W1 W2] [V1 V2]. destruct won; [ | destruct lost; [ | done ] ].
  - split; [apply Q.min_glb; lra | apply Q.le_min_l].
  - split; [apply Q.le_max_l | apply Q.max_lub; lra].
Qed.

Lemma feedback_stays id outcome s : store_ok s -> stays s (record_feedback E id outcome user s).1.
Proof.
  intros H. unfold record_feedback. destruct (get_model_by_id _ _ _ _) as [ n | ] eqn:G; [ | by apply stays_refl ].
  cbn [fst]. apply (put_stays id s n); [done | done | done | done | done | ]. cbn [n_weight]. exact (feedback_weight _ _ _ (stored_weight id s n H G)).
Qed.

Lemma edits_own_id s es x : own_id E u (set_edits es s) x = own_id E u s x.
Proof. done. Qed.

Lemma update_stays id content tags t source g s : store_ok s -> stays s (update E id user content tags t source g s).1.
Proof.
  intros H. unfold update. destruct (get_model_by_id _ _ _ _) as [ n | ] eqn:G; [ | by apply stays_refl ].
  destruct (changed_fields _ _ _ _ n) as [ | ch chs ]; [by apply stays_refl | ]. destruct (decide _); [ | by apply stays_refl ]. cbn [fst].
  assert (Ho := proj1 (get_model_own _ _ _ Hu _ _ _ G)). destruct Ho as [Hn O].
  set (h := Edit _ _ _ _). set (n' := Node _ _ _ _ _ _ _ _ _ _ _ _ _ _ _ _ _ _ _ _ _ _ _ _ _ _ _ _ _ _).
  assert (H1 : stays s (set_edits (edits s ++ [h]) s)).
  { split; [apply edits_ok; [done | by apply (own_id_known E u), own_id_in] | by apply edits_complement, own_id_in]. }
  destruct (put_stays id (set_edits (edits s ++ [h]) s) n n') as [H2 C2]; [apply H1 | done | done | done | done | exact (stored_weight id s n H G) | ].
  split; [done | by rewrite C2; apply H1].
Qed.

Lemma create_link_links id a b t w s :
  is_Some (get_model_by_id E a user s) -> is_Some (get_model_by_id E b user s) -> links_from id s (create_link E a b t w user s).1.
Proof.
  intros [n Ga] [m Gb]. apply (get_model_own _ _ _ Hu) in Ga as [[Hn On] Pa], Gb as [[Hm Om] Pb]. unfold create_link. rewrite Pa, Pb.
  repeat (destruct (if _ : bool then _ else _) eqn:?; [by apply links_from_same | ] || case_match; [by apply links_from_same | ]).
  destruct (insert_links _ s) as [ s' | ] eqn:I; [ | by apply links_from_same ]. cbn [fst]. apply insert_links_spec in I as (-> & _ & _).
  intros l [Hl|Hl]%elem_of_app; [by left | ]. apply list_elem_of_singleton in Hl as ->. right. split; [by apply own_id_in | left; by apply own_id_in].
Qed.

Lemma delete_by_id_links id x s : links_from id s (delete_by_id E x user s).1.
Proof. unfold delete_by_id. destruct (get_model_by_id _ _ _ _); [apply links_from_delete | by apply links_from_same]. Qed.

Lemma create_link_stays a b t w s :
  store_ok s -> is_Some (get_model_by_id E a user s) -> is_Some (get_model_by_id E b user s) -> stays s (create_link E a b t w user s).1.
Proof.
  intros H [n Ga] [m Gb]. apply (get_model_own _ _ _ Hu) in Ga as [[Hn On] Pa], Gb as [[Hm Om] Pb]. unfold create_link. rewrite Pa, Pb.
  repeat (destruct (if _ : bool then _ else _) eqn:?; [by apply stays_refl | ] || case_match; [by apply stays_refl | ]).
  destruct (insert_links _ s) as [ s' | ] eqn:I; [ | by apply stays_refl ]. cbn [fst]. split.
  - apply (links_ok _ _ _ H I). constructor; [ | done ]. split; by apply (own_id_known E u), own_id_in.
  - apply insert_links_spec in I as (-> & _ & _). apply links_complement. constructor; [ | done ]. by apply own_id_in.
Qed.
End by_id.

(** *** Every handler keeps to the scope of its caller *)

Definition answer_nodes (a : answer) : list node :=
  match a with
  | Recalled hs => map hit_node hs
  | Found ns => ns
  | Written n _ => [n]
  | TreeOf _ _ | Linked _ | Deleted _ _ => []
  end.

Definition own_answer (r : result mem_error answer) : Prop := forall a, r = Ok a -> Forall (fun n => own E u n = true) (answer_nodes a).

Record scoped_handler (h : string -> mnode -> caller -> store -> store * result mem_error answer) : Prop := Scoped {
  sh_stays : forall id payload c s, parse_user_id (c_user c) = Some u -> store_ok s -> id ∉ ids s -> stays s (h id payload c s).1;
  sh_links : forall id payload c s, parse_user_id (c_user c) = Some u -> links_from id s (h id payload c s).1;
  sh_own : forall id payload c s, parse_user_id (c_user c) = Some u -> own_answer (h id payload c s).2;
  sh_alone : forall id payload c s, parse_user_id (c_user c) = Some u -> (h id payload c (restrict E u s)).2 = (h id payload c s).2 }.

Lemma reading_scoped (r : mnode -> caller -> store -> result mem_error answer) :
  (forall payload c s, parse_user_id (c_user c) = Some u -> own_answer (r payload c s) /\ r payload c (restrict E u s) = r payload c s) ->
  scoped_handler (fun _ p c => reading (r p c)).
Proof. intros H. split; intros id payload c s Hu; [intros; by apply stays_refl | by apply links_from_same | by apply H | by apply H]. Qed.

Lemma own_answer_bind {A} (m : result mem_error A) k : (forall x, m = Ok x -> own_answer (k x)) -> own_answer (result_bind m k).
Proof. intros H. destruct m as [ x | ]; [by apply H | by intros ? ]. Qed.

Lemma own_answer_err e : own_answer (Err e).
Proof. by intros ?. Qed.

Lemma found_own s ns : Forall (seen_own E u s) ns -> own_answer (Ok (Found ns)).
Proof. intros H a e. simplify_eq. apply (Forall_impl _ _ _ H). by intros n []. Qed.

Lemma recalled_own s hs : hits_own E u s hs -> own_answer (Ok (Recalled hs)).
Proof. intros H a e. simplify_eq. cbn. rewrite Forall_map. apply (Forall_impl _ _ _ H). by intros n []. Qed.

Lemma v2_sub {A} (row : A -> node) filters l r (P : A -> Prop) : v2_filter E row filters l = Ok r -> Forall P l -> Forall P r.
Proof.
  unfold v2_filter. intros e H.
  assert (F : forall k l, Forall P l -> Forall P (match dict_get k filters with Some v => List.filter (fun x => py_eq (py_get k (node_to_dict (row x))) v) l | None => l end)).
  { intros k l' H'. destruct (dict_get k filters); [by apply filter_sub | done]. }
  destruct (dict_get "min_impact" filters) as [ v | ]; [ | simplify_eq; by apply F, F ].
  destruct (py_float _ v); [ | done ]. simplify_eq. by apply filter_sub, F, F.
Qed.

Ltac own_steps :=
  repeat match goal with
  | |- own_answer (result_bind _ _) => apply own_answer_bind; intros ? ?
  | |- own_answer (if ?b then _ else _) => destruct b
  | |- own_answer (Err _) => apply own_answer_err
  end.

(** A bind of the same value on both sides. *)
Lemma bind_same {A B} (m : result mem_error A) (k k' : A -> result mem_error B) : (forall x, k x = k' x) -> result_bind m k = result_bind m k'.
Proof. intros H. by destruct m; cbn. Qed.

Ltac same_steps :=
  repeat match goal with
  | |- result_bind ?m _ = result_bind ?m _ => apply bind_same; intros ?
  | |- (if ?b then _ else _) = (if ?b then _ else _) => destruct b
  end.

Section handlers.
Context (payload : mnode) (c : caller) (s : store) (Hu : parse_user_id (c_user c) = Some u).

Lemma read_scoped : own_answer (handle_memory_read E payload c s) /\ handle_memory_read E payload c (restrict E u s) = handle_memory_read E payload c s.
Proof.
  unfold handle_memory_read. split.
  - own_steps; [eapply found_own, query_path_own | eapply recalled_own, recall_own]; eauto.
  - same_steps; [by rewrite (query_path_restrict E u) | by rewrite (recall_restrict E u)].
Qed.

Lemma search_scoped : own_answer (handle_memory_search E payload c s) /\ handle_memory_search E payload c (restrict E u s) = handle_memory_search E payload c s.
Proof.
  unfold handle_memory_search. split.
  - own_steps; [eapply found_own, query_path_own | eapply recalled_own, recall_own]; eauto.
  - same_steps; [by rewrite (query_path_restrict E u) | by rewrite (recall_restrict E u)].
Qed.

Lemma list_scoped : own_answer (handle_memory_list E payload c s) /\ handle_memory_list E payload c (restrict E u s) = handle_memory_list E payload c s.
Proof.
  unfold handle_memory_list. split.
  - own_steps. eapply found_own, query_path_own; eauto.
  - same_steps. by rewrite (query_path_restrict E u).
Qed.

Lemma tree_scoped : own_answer (handle_memory_tree E payload c s) /\ handle_memory_tree E payload c (restrict E u s) = handle_memory_tree E payload c s.
Proof.
  unfold handle_memory_tree. split.
  - own_steps. intros a e. simplify_eq. constructor.
  - same_steps. by rewrite (walk_restrict E u).
Qed.

Lemma trace_scoped : own_answer (handle_memory_trace E payload c s) /\ handle_memory_trace E payload c (restrict E u s) = handle_memory_trace E payload c s.
Proof.
  unfold handle_memory_trace. split.
  - own_steps. eapply found_own, causal_own; eauto.
  - same_steps. by rewrite (causal_restrict E u).
Qed.

Lemma read_v2_scoped : own_answer (handle_memory_read_v2 E payload c s) /\ handle_memory_read_v2 E payload c (restrict E u s) = handle_memory_read_v2 E payload c s.
Proof.
  unfold handle_memory_read_v2. split.
  - own_steps.
    + apply (found_own s), slice_sub. eapply v2_sub; [done | ]. eapply query_path_own; eauto.
    + apply (recalled_own s), slice_sub. eapply v2_sub; [done | ]. eapply recall_own; eauto.
  - same_steps; [by rewrite (query_path_restrict E u) | by rewrite (recall_restrict E u)].
Qed.

Lemma write_args_user path a : write_args E payload c = Ok (path, a) -> sa_user a = c_user c /\ sa_owner_run a = None /\ sa_private a = None.
Proof.
  unfold write_args. destruct (required_text _ _) as [ content | ]; [ | done ]. cbn [result_bind].
  destruct (mas (path_from_write_payload _ _ _ _)) as [ [ [ full ns ] at_ ] | ]; [ | done ]. cbn [result_bind].
  destruct (mas _); [ | done ]. cbn [result_bind].
  repeat (destruct (column_text _); [ | done ]; cbn [result_bind]). destruct (written_extra _ _); [ | done ]. cbn [result_bind]. intros e. by simplify_eq.
Qed.
End handlers.

Lemma save_answer id a s s' : (save E id a s).2 = (save E id a s').2.
Proof.
  unfold save. destruct (sa_type a); [ | done ]. destruct (decide _); [ | done ]. cbv zeta. unfold link_children. destruct (py_truth _); [ | done ].
  by destruct (py_list _).
Qed.

Lemma save_node id a s n : (save E id a s).2 = Ok n -> exists t, n = new_node E id t a.
Proof.
  unfold save. destruct (sa_type a) as [ t | ]; [ | done ]. destruct (decide _); [ | done ]. cbv zeta. destruct (link_children _ _ _ _); [ | done ].
  cbn. intros ?. simplify_eq. by exists t.
Qed.

Lemma write_scoped : scoped_handler (handle_memory_write E).
Proof.
  split; intros id payload c s Hu; unfold handle_memory_write; destruct (write_args E payload c) as [ [ path a ] | e ] eqn:W.
  - intros H F. apply write_args_user in W as (U & R & P). rewrite <- U in Hu. assert (S := save_stays id a s H F Hu R P). by destruct (save E id a s).
  - intros. by apply stays_refl.
  - apply write_args_user in W as (U & R & P). rewrite <- U in Hu. assert (S := save_links id a s Hu R P). by destruct (save E id a s).
  - by apply links_from_same.
  - apply write_args_user in W as (U & R & P). rewrite <- U in Hu. destruct (save E id a s) as [ s' r ] eqn:S. cbn [snd].
    apply own_answer_bind. intros n ->. intros x e. simplify_eq. constructor; [ | done ]. destruct (save_node id a s n) as [ t -> ]; [by rewrite S | by apply new_node_own].
  - apply own_answer_err.
  - assert (S := save_answer id a (restrict E u s) s). destruct (save E id a (restrict E u s)), (save E id a s). cbn in S |- *. by rewrite S.
  - done.
Qed.

Lemma delete_by_id_alone user id s : parse_user_id user = Some u -> (delete_by_id E id user (restrict E u s)).2 = (delete_by_id E id user s).2.
Proof. intros Hu. unfold delete_by_id. rewrite (get_model_restrict E u) by done. by destruct (get_model_by_id _ _ _ _). Qed.

Lemma delete_scoped : scoped_handler (fun _ => handle_memory_delete E).
Proof.
  split; intros id payload c s Hu; unfold handle_memory_delete; destruct (py_truth _); try (intros; by apply stays_refl); try (by apply links_from_same); try apply own_answer_err; try done.
  - intros H _. assert (D := delete_by_id_stays (c_user c) Hu (py_str (e_render E) (default (VStr "") (dict_get "node_id" payload))) s H). by destruct (delete_by_id _ _ _ _).
  - assert (D := delete_by_id_links (c_user c) id (py_str (e_render E) (default (VStr "") (dict_get "node_id" payload))) s). by destruct (delete_by_id _ _ _ _).
  - destruct (delete_by_id _ _ _ _). intros a e. cbn in e. by simplify_eq.
  - assert (D := delete_by_id_alone (c_user c) (py_str (e_render E) (default (VStr "") (dict_get "node_id" payload))) s Hu).
    destruct (delete_by_id _ _ _ (restrict _ _ _)), (delete_by_id _ _ _ s). cbn in D |- *. by rewrite D.
Qed.

Lemma create_link_alone user a b t w s :
  parse_user_id user = Some u -> is_Some (get_model_by_id E a user s) -> (create_link E a b t w user (restrict E u s)).2 = (create_link E a b t w user s).2.
Proof.
  intros Hu [n Ga]. apply (get_model_own _ _ _ Hu) in Ga as [[Hn O] Pa]. unfold create_link. rewrite Pa. destruct (parse_uuid b) as [ tid | ]; [ | done ].
  rewrite select_restrict by (intros m; by apply (scoped_and _ _ _ Hu)).
  repeat match goal with |- snd (if ?x then _ else _) = _ => destruct x; [done | ] end.
  unfold insert_links. destruct (decide _); [ | done ]. cbn [existsb]. rewrite !orb_false_r.
  replace (bool_decide (link_key (Link (n_id n) tid t "medium" w) ∈ map link_key (links (restrict E u s))))
    with (bool_decide (link_key (Link (n_id n) tid t "medium" w) ∈ map link_key (links s))); [by destruct (bool_decide _) | ].
  apply bool_decide_ext. rewrite !list_elem_of_In, !in_map_iff. apply exist_proper. intros l. cbn [links restrict]. rewrite filter_In.
  split; [ | tauto ]. intros [e Hl]. split_and!; [done | done | ]. unfold link_key in e. cbn in e. injection e as e _ _. rewrite e. by rewrite (own_id_in E u s n).
Qed.

Lemma link_scoped : scoped_handler (fun _ => handle_memory_link E).
Proof.
  split; intros id payload c s Hu; unfold handle_memory_link; rewrite ?(get_model_restrict E u) by done;
    (destruct (_ || _); [try (intros; by apply stays_refl); try (by apply links_from_same); try apply own_answer_err; done | ]);
    (destruct (text_field _ _) as [ t | ]; [ | try (intros; by apply stays_refl); try (by apply links_from_same); try apply own_answer_err; done ]);
    (destruct (link_weight _ _) as [ w | ]; [ | try (intros; by apply stays_refl); try (by apply links_from_same); try apply own_answer_err; done ]);
    set (a := id_field E "source_id" payload); set (b := id_field E "target_id" payload);
    (destruct (get_model_by_id E a _ _) eqn:Ga; [ | try (intros; by apply stays_refl); try (by apply links_from_same); try apply own_answer_err; done ]);
    (destruct (get_model_by_id E b _ _) eqn:Gb; [ | try (intros; by apply stays_refl); try (by apply links_from_same); try apply own_answer_err; done ]);
    set (lt := if bool_decide (t = "") then "related" else t).
  - intros H _. assert (S := create_link_stays (c_user c) Hu a b lt w s H ltac:(by rewrite Ga) ltac:(by rewrite Gb)). by destruct (create_link _ _ _ _ _ _ _).
  - assert (S := create_link_links (c_user c) Hu id a b lt w s ltac:(by rewrite Ga) ltac:(by rewrite Gb)). by destruct (create_link _ _ _ _ _ _ _).
  - destruct (create_link _ _ _ _ _ _ _) as [ s' [ l | ] ]; intros x ex; cbn in ex; by simplify_eq.
  - assert (S := create_link_alone (c_user c) a b lt w s Hu ltac:(by rewrite Ga)).
    destruct (create_link _ _ _ _ _ _ (restrict _ _ _)), (create_link _ _ _ _ _ _ s). cbn in S |- *. by rewrite S.
Qed.

Lemma handlers_scoped : Forall (fun kv => scoped_handler kv.2) (memory_handlers E).
Proof.
  unfold memory_handlers.
  repeat (apply Forall_cons; split; cbn [snd]); [ | apply write_scoped | apply link_scoped | apply delete_scoped | .. | apply Forall_nil_2 ];
    apply reading_scoped; intros; [by apply read_scoped | by apply search_scoped | by apply list_scoped | by apply tree_scoped | by apply trace_scoped | by apply read_v2_scoped].
Qed.

Lemma undo_stays recorded c s : parse_user_id (c_user c) = Some u -> store_ok s -> stays s (compensate_memory_write E recorded c s).1.
Proof.
  intros Hu H. unfold compensate_memory_write. destruct (_ ≫= _) as [ [ rec node_id ] | ]; [ | by apply stays_refl ].
  destruct (bool_decide (c_user c = "")); [by apply stays_refl | ]. destruct (get_model_by_id _ _ _ _); [ | by apply stays_refl ].
  destruct (memory_write_reversal_refusal _ _ _ _); [by apply stays_refl | ]. assert (D := delete_by_id_stays (c_user c) Hu node_id s H).
  by destruct (delete_by_id _ _ _ _).
Qed.

Lemma syscall_stays name id payload c s s' r :
  parse_user_id (c_user c) = Some u -> store_ok s -> id ∉ ids s -> memory_syscall E name id payload c s = Some (s', r) -> stays s s'.
Proof.
  intros Hu H F. unfold memory_syscall. destruct (dict_get name (memory_handlers E)) as [ h | ] eqn:G; [ | done ]. cbn. intros e.
  apply dict_get_elem in G. assert (S := handlers_scoped). rewrite Forall_forall in S. apply S in G. cbn in G.
  assert (X := sh_stays h G id payload c s Hu H F). by injection e as e; rewrite e in X.
Qed.

Lemma perform_stays o c s : parse_user_id (c_user c) = Some u -> store_ok s -> fresh_for o s -> stays s (perform E o c s).
Proof.
  intros Hu H F. destruct o; cbn [perform fresh_for] in *.
  - destruct (memory_syscall _ _ _ _ _ _) as [ [ s' r ] | ] eqn:M; [by apply syscall_stays in M | by apply stays_refl].
  - by apply undo_stays.
  - by apply save_as_stays.
  - by apply share_stays.
  - by apply promote_stays.
  - by apply update_stays.
  - by apply feedback_stays.
Qed.
End operations.

(** ** Tenants *)

(** C11: on well-formed tables and with a new key, what a memory syscall of a caller answers
    is made of the caller's own rows, within the scope of its run; it is what the call
    answers on a store that holds nothing else than these rows and what refers to them; and
    the call leaves every other row, with its edits, trace memberships and causal edges and
    the links between such rows, as it was. A link with an end in the scope is another
    matter, also where its other end is another tenant's row: a call adds such links only
    from a row in the scope, to another row of the scope unless they leave the very row it
    writes (as [foreign_child_is_linked] does), and takes away only links with an end in the
    scope. *)
Theorem memory_syscall_isolated E name id payload c u s s' r
    (Hs : store_ok s) (Hid : id ∉ ids s) (Hu : parse_user_id (c_user c) = Some u) (Hr : memory_syscall E name id payload c s = Some (s', r)) :
  (forall a, r = Ok a -> Forall (fun n => own E u n = true) (answer_nodes a)) /\
  (exists s2, memory_syscall E name id payload c (restrict E u s) = Some (s2, r)) /\
  complement E u s' = complement E u s /\
  (forall l, l ∈ links s' -> l ∈ links s \/ own_id E u s' (l_source l) = true /\ (own_id E u s' (l_target l) = true \/ l_source l = id)) /\
  (forall l, l ∈ links s -> l ∈ links s' \/ own_id E u s (l_source l) = true \/ own_id E u s (l_target l) = true).
Proof.
  assert (S := syscall_stays E u _ _ _ _ _ _ _ Hu Hs Hid Hr). revert Hr. unfold memory_syscall.
  destruct (dict_get name (memory_handlers E)) as [ h | ] eqn:G; [ | done ]. cbn. intros e. apply dict_get_elem in G.
  assert (W := handlers_scoped E u). rewrite Forall_forall in W. apply W in G. cbn in G. destruct G as [_ L O A].
  specialize (L id payload c s Hu). specialize (O id payload c s Hu). specialize (A id payload c s Hu). injection e as e. rewrite e in L, O, A. cbn in L, O, A.
  split_and!; [done | | apply S | exact L | intros l; by apply stays_links]. exists (h id payload c (restrict E u s)).1. rewrite <- A. by destruct (h _ _ _ _).
Qed.

(** The rows of a user, and the edits made to them. *)
Definition rows_of (u : string) (s : store) : list node := List.filter (fun n => bool_decide (n_user n = Some u)) (nodes s).
Definition edits_of (u : string) (s : store) : list edit := List.filter (fun h => bool_decide (h_node h ∈ map n_id (rows_of u s))) (edits s).

(** Operations of callers other than [u], in any order and any surroundings. *)
Inductive others_act (u : string) (s : store) : store -> Prop :=
| OthersIdle : others_act u s s
| OthersStep E o c v s1 :
    others_act u s s1 -> parse_user_id (c_user c) = Some v -> v <> u -> fresh_for o s1 -> others_act u s (perform E o c s1).

Lemma rows_complement E u v s : v <> u -> rows_of u (complement E v s) = rows_of u s.
Proof.
  intros D. unfold rows_of. cbn [nodes complement]. apply filter_refine. intros n H. apply bool_decide_eq_true in H.
  destruct (own E v n) eqn:O; [ | done ]. apply own_user in O. rewrite H in O. simplify_eq.
Qed.

Lemma edits_complement_of E u v s : v <> u -> store_ok s -> edits_of u (complement E v s) = edits_of u s.
Proof.
  intros D H. unfold edits_of. rewrite rows_complement by done. cbn [edits complement]. apply filter_refine. intros h Hh. apply bool_decide_eq_true in Hh.
  destruct (own_id E v s (h_node h)) eqn:O; [ | done ]. apply own_id_true in O as (n & [Hn O] & e). apply own_user in O.
  apply list_elem_of_In, in_map_iff in Hh as (m & em & [Hm M]%filter_In). apply bool_decide_eq_true in M. apply list_elem_of_In in Hm.
  rewrite (row_of_id s n m) in O; [ | apply ok_keys, H | done | done | by rewrite e, em ]. rewrite M in O. simplify_eq.
Qed.

(** C12: whatever callers of other tenants do (syscalls, undos, edits, in any order and any
    run), the rows of a user and the edits recorded of them stay exactly as they are, and
    the tables keep their keys, their references and the range of the weights. *)
Theorem others_leave_rows u s s' (Hs : store_ok s) (H : others_act u s s') :
  store_ok s' /\ rows_of u s' = rows_of u s /\ edits_of u s' = edits_of u s.
Proof.
  induction H as [ | E o c v s1 H (K & R & D) P N F ]; [done | ]. destruct (perform_stays E v o c s1 P K F) as [K' C]. split; [done | ].
  rewrite <- (rows_complement E u v), <- (edits_complement_of E u v), C by done. by rewrite rows_complement, edits_complement_of.
Qed.

(** ** A write and its undo *)

(** What the effect ledger records of a write. *)
Definition write_receipt (n : node) (path : string) : pyval := VDict [("node", VDict (node_to_dict n)); ("path", VStr path)].

Lemma store_eta s : Store (nodes s) (links s) (edits s) (memberships s) (causes s) = s.
Proof. by destruct s. Qed.

Section undo.
Context (E : surroundings) (id : string) (payload : mnode) (c : caller) (u : string) (s s1 : store) (n : node) (path : string).
Hypothesis Hs : store_ok s.
Hypothesis Hid : id ∉ ids s.
Hypothesis Hu : parse_user_id (c_user c) = Some u.
Hypothesis Hw : handle_memory_write E id payload c s = (s1, Ok (Written n path)).

Lemma write_args_path p a : write_args E payload c = Ok (p, a) -> sa_path a = Some p /\ p <> "".
Proof.
  unfold write_args. destruct (required_text _ _) as [ content | ]; [ | done ]. cbn [result_bind].
  destruct (mas (path_from_write_payload _ _ _ _)) as [ [ [ full ns ] at_ ] | ]; [ | done ]. cbn [result_bind].
  destruct (mas (parent_path_of full)) eqn:P; [ | done ]. cbn [result_bind].
  repeat (destruct (column_text _); [ | done ]; cbn [result_bind]). destruct (written_extra _ _); [ | done ]. cbn [result_bind]. intros e. simplify_eq.
  split; [done | ]. by intros ->.
Qed.

(** The row a write without children adds, and nothing else. *)
Lemma write_row : py_truth (py_get "children" (n_extra n)) = false -> s1 = set_nodes (nodes s ++ [n]) s /\ n_id n = id /\ n_path n = Some path /\ path <> "" /\ n_user n = Some u.
Proof.
  intros Hc. revert Hw. unfold handle_memory_write. destruct (write_args E payload c) as [ [ p a ] | ] eqn:W; [ | done ].
  assert (U := proj1 (write_args_user _ _ _ _ _ W)). apply write_args_path in W as [Pa Pn]. unfold save. destruct (sa_type a) as [ t | ]; [ | done ]. destruct (decide _) as [ V | ]; [ | done ]. cbv zeta.
  unfold link_children. destruct (py_truth (py_get "children" (n_extra (new_node E id t a)))) eqn:C.
  - destruct (py_list _); [ | done ]. cbn. intros e. simplify_eq. congruence.
  - cbn [result_bind]. intros e. simplify_eq. split_and!; [done | done | done | done | ]. cbn [n_user new_node]. by rewrite U.
Qed.

Lemma written_model E2 s2 : parse_uuid id = Some id -> nodes s2 = nodes s ++ [n] -> n_id n = id -> own E2 u n = true ->
  get_model_by_id E2 id (c_user c) s2 = Some n.
Proof.
  intros Hp Hn e O. unfold get_model_by_id, first_row, select. rewrite Hp, Hn, List.filter_app. cbn [List.filter].
  rewrite (owner_only_own _ _ _ Hu), O, e, bool_decide_true by done. cbn [andb].
  replace (List.filter _ (nodes s)) with (@nil node); [done | ]. symmetry.
  assert (F : Forall (fun m => n_id m <> id) (nodes s)).
  { apply Forall_forall. intros m Hm em. apply Hid. rewrite <- em. unfold ids. by apply list_elem_of_fmap_2. }
  clear - F. induction F as [ | m l Hm F IH ]; [done | ]. cbn [List.filter]. by rewrite bool_decide_false.
Qed.

Lemma fresh_filter {A} (key : A -> string) l : Forall (fun x => key x ∈ ids s) l -> List.filter (fun x => negb (bool_decide (key x = id))) l = l.
Proof.
  intros H. induction H as [ | x l Hx H IH ]; [done | ]. cbn [List.filter]. rewrite bool_decide_false by (intros e; by rewrite e in Hx). cbn. by rewrite IH.
Qed.

Lemma delete_written : n_id n = id -> delete_rows id (set_nodes (nodes s ++ [n]) s) = s.
Proof.
  intros e. unfold delete_rows. cbn [nodes links edits memberships causes set_nodes]. rewrite List.filter_app. cbn [List.filter].
  rewrite e, (bool_decide_true (id = id)) by done. cbn [negb]. rewrite app_nil_r.
  rewrite (fresh_filter n_id), (fresh_filter h_node), !(fresh_filter snd).
  - rewrite (filter_agree _ (fun _ => true) (links s) _ (ok_links s Hs)).
    + rewrite List.filter_true. apply store_eta.
    + intros l [H1 H2]. rewrite !bool_decide_false; [done | | ]; intros el; by rewrite el in *.
  - apply Hs.
  - apply Hs.
  - apply Hs.
  - apply Forall_forall. intros m Hm. unfold ids. by apply list_elem_of_fmap_2.
Qed.

Lemma no_reference {A} (p : A -> bool) l : (forall x, x ∈ l -> p x = false) -> existsb p l = false.
Proof.
  intros H. apply not_true_iff_false. intros (x & Hx & e)%existsb_exists. rewrite H in e; [done | by apply list_elem_of_In].
Qed.

Lemma written_not_refused : py_eq (n_tags n) (n_tags n) = true ->
  memory_write_reversal_refusal id (node_to_dict n) (node_to_dict n) (set_nodes (nodes s ++ [n]) s) = None.
Proof.
  intros Ht. unfold memory_write_reversal_refusal. cbn [List.filter].
  change (py_get "content" (node_to_dict n)) with (VStr (n_content n)). change (py_get "tags" (node_to_dict n)) with (n_tags n).
  change (py_get "node_type" (node_to_dict n)) with (VStr (n_type n)). rewrite Ht. cbn [py_eq]. rewrite !bool_decide_true by done. cbn [negb links edits memberships set_nodes].
  assert (L := ok_links s Hs). assert (D := ok_edits s Hs). assert (M := ok_members s Hs). rewrite Forall_forall in L. rewrite Forall_forall in D. rewrite Forall_forall in M.
  rewrite !no_reference; [done | .. ].
  - intros m Hm%M. apply bool_decide_eq_false. intros e. by rewrite e in Hm.
  - intros l Hl%L. destruct Hl as [H1 H2]. apply orb_false_iff. split; apply bool_decide_eq_false; intros e; by rewrite e in *.
  - intros h Hh%D. apply bool_decide_eq_false. intros e. by rewrite e in Hh.
Qed.

Lemma fresh_model E2 : parse_uuid id = Some id -> get_model_by_id E2 id (c_user c) s = None.
Proof.
  intros Hp. unfold get_model_by_id. rewrite Hp. destruct (first_row _ s) as [ m | ] eqn:F; [ | done ]. exfalso. unfold first_row in F.
  assert (Hm : m ∈ select (fun n => bool_decide (n_id n = id) && owner_only_scope E2 (c_user c) n) s) by (destruct (select _ s); simplify_eq/=; left).
  apply list_elem_of_In, filter_In in Hm as [Hm [e _]%andb_true_iff]. apply bool_decide_eq_true in e. apply Hid. rewrite <- e. unfold ids.
  by apply list_elem_of_In, in_map.
Qed.

Lemma user_not_empty : c_user c <> "".
Proof. intros e. by rewrite e in Hu. Qed.

Lemma receipt_node_id E2 : n_id n = id -> id <> "" ->
  (d ← as_dict (write_receipt n path); recorded ← as_dict (py_get "node" d);
   if py_truth (py_get "id" recorded) then Some (recorded, py_str (e_render E2) (py_get "id" recorded)) else None) = Some (node_to_dict n, id).
Proof.
  intros e H. unfold write_receipt. cbn [as_dict mbind option_bind]. change (py_get "node" _) with (VDict (node_to_dict n)). cbn [as_dict mbind option_bind].
  change (py_get "id" (node_to_dict n)) with (VStr (n_id n)). rewrite e. cbn [py_truth py_str]. by rewrite bool_decide_true.
Qed.

Lemma written_at_path E2 : own E2 u n = true -> n_path n = Some path -> path <> "" ->
  Forall (fun m => own E2 u m = true -> n_path m <> Some path) (nodes s) -> get_by_path E2 path (c_user c) (set_nodes (nodes s ++ [n]) s) = Ok (Some n).
Proof.
  intros O P Pn F. unfold get_by_path, first_row, select. cbn [nodes set_nodes]. rewrite List.filter_app. cbn [List.filter]. unfold at_path at 2.
  rewrite (owner_only_own _ _ _ Hu), O, P, bool_decide_true by done. cbn [andb].
  replace (List.filter _ (nodes s)) with (@nil node).
  - cbn [app head]. unfold view, enrich_node_with_path. change (py_get "path" (node_to_dict n)) with (vopt (n_path n)). rewrite P. cbn [vopt py_truth].
    by rewrite bool_decide_true.
  - symmetry. clear - F Hu. induction F as [ | m l Hm F IH ]; [done | ]. cbn [List.filter]. unfold at_path. rewrite (owner_only_own _ _ _ Hu).
    destruct (own E2 u m); [ | by rewrite andb_false_r ]. rewrite bool_decide_false by auto. done.
Qed.
End undo.

(** C19: on well-formed tables, a node its caller writes under a fresh key, without children
    and with tags that compare equal to themselves: in any surroundings in which the
    row is in the caller's own scope (not so for a private row seen from another run, as
    [private_write_not_undone] shows), it is found at its path if no other row of that scope
    has the path, the undo of the write takes the tables back to exactly what they were, and
    a second undo changes nothing. *)
Theorem write_undo_roundtrip E id payload c u s s1 n path
    (Hs : store_ok s) (Hid : id ∉ ids s) (Hk : parse_uuid id = Some id) (Hu : parse_user_id (c_user c) = Some u)
    (Hw : handle_memory_write E id payload c s = (s1, Ok (Written n path)))
    (Hc : py_truth (py_get "children" (n_extra n)) = false) (Ht : py_eq (n_tags n) (n_tags n) = true) E2 (Ho : own E2 u n = true) :
  (Forall (fun m => own E2 u m = true -> n_path m <> Some path) (nodes s) -> get_by_path E2 path (c_user c) s1 = Ok (Some n)) /\
  compensate_memory_write E2 (write_receipt n path) c s1 = (s, Ok (Deleted true id)) /\
  compensate_memory_write E2 (write_receipt n path) c s = (s, Ok (Deleted false id)).
Proof.
  destruct (write_row E id payload c u s s1 n path Hu Hw Hc) as (-> & e & P & Pn & _).
  assert (Hn : id <> "") by (intros ->; done). assert (Hn' := user_not_empty c u Hu). split_and!.
  - by apply (written_at_path c u).
  - unfold compensate_memory_write. rewrite (receipt_node_id id n path E2 e Hn). rewrite bool_decide_false by done.
    assert (G : get_model_by_id E2 id (c_user c) (set_nodes (nodes s ++ [n]) s) = Some n) by by apply (written_model id c u s).
    rewrite G, e, (written_not_refused id s n) by done. unfold delete_by_id. by rewrite G, e, (delete_written id s n).
  - unfold compensate_memory_write. rewrite (receipt_node_id id n path E2 e Hn). rewrite bool_decide_false by done. by rewrite (fresh_model id c s).
Qed.

(** ** The best of the candidates *)

Definition hit_id (h : hit) : string := n_id (hit_node h).

(** What a recall ranks: rows found by meaning or text, then rows found by tags. *)
Definition recall_candidates (E : surroundings) (query : string) (tags : list pyval) (limit : Z) (user node_type : string) (s : store)
    : result mem_error (list hit) :=
  let? semantic := semantic_candidates E query limit user node_type s in
  let? tagged := tag_candidates E tags limit user node_type semantic s in
  match score_hits E s tags (semantic ++ tagged) with None => Err BadType | Some scored => Ok scored end.

Lemma recall_ranks E query tags limit user node_type s :
  recall E query tags limit user node_type s
  = let? scored := recall_candidates E query tags limit user node_type s in Ok (first_distinct limit [] 0 (sort_desc hit_resonance scored)).
Proof.
  unfold recall, recall_candidates. destruct (semantic_candidates _ _ _ _ _ _); [ | done ]. cbn [result_bind].
  destruct (tag_candidates _ _ _ _ _ _ _); [ | done ]. cbn [result_bind]. by destruct (score_hits _ _ _ _).
Qed.

(** At least as good. *)
Definition no_worse (a b : hit) : Prop := (hit_resonance b <= hit_resonance a)%Q.

Lemma insert_desc_sorted x l : StronglySorted no_worse l -> StronglySorted no_worse (insert_desc hit_resonance x l).
Proof.
  induction l as [ | y l IH ]; intros S; cbn [insert_desc]; [by repeat constructor | ]. apply StronglySorted_inv in S as [S F].
  destruct (Qle_bool _ _) eqn:L.
  - apply Qle_bool_iff in L. constructor; [by constructor | ]. constructor; [done | ]. apply (Forall_impl _ _ _ F). intros z Hz. unfold no_worse in *. lra.
  - constructor; [by apply IH | ]. rewrite insert_desc_perm. constructor; [ | done ]. unfold no_worse. apply not_true_iff_false in L. rewrite Qle_bool_iff in L. lra.
Qed.

Lemma sort_desc_sorted l : StronglySorted no_worse (sort_desc hit_resonance l).
Proof. induction l as [ | x l IH ]; [constructor | ]. cbn [sort_desc foldr]. by apply insert_desc_sorted. Qed.

(** A selection [out] of the ranked hits [hs] that takes [k] ids, none of [seen]. *)
Record best_of (k : Z) (seen : list string) (hs out : list hit) : Prop := BestOf {
  bo_from : Forall (fun h => h ∈ hs) out;
  bo_sorted : StronglySorted no_worse out;
  bo_ids : NoDup (map hit_id out);
  bo_new : Forall (fun h => hit_id h ∉ seen) out;
  bo_length : Z.of_nat (length out) <= k;
  bo_rest : Forall (fun h => hit_id h ∈ seen \/ (exists g, g ∈ out /\ hit_id g = hit_id h /\ no_worse g h)
                             \/ Z.of_nat (length out) = k /\ Forall (fun g => no_worse g h) out) hs }.

Lemma best_nil k seen : 0 <= k -> best_of k seen [] [].
Proof. intros H. by split; try constructor. Qed.

Lemma best_seen k seen h hs out : hit_id h ∈ seen -> best_of k seen hs out -> best_of k seen (h :: hs) out.
Proof.
  intros H [F S N D L R]. split; try done.
  - apply (Forall_impl _ _ _ F). intros g Hg. by right.
  - constructor; [by left | done].
Qed.

(** The last one that is taken. *)
Lemma best_last seen h hs : hit_id h ∉ seen -> StronglySorted no_worse (h :: hs) -> best_of 1 seen (h :: hs) [h].
Proof.
  intros H [S F]%StronglySorted_inv. split.
  - constructor; [by left | done].
  - by repeat constructor.
  - apply NoDup_singleton.
  - by constructor.
  - done.
  - constructor; [right; left; exists h; split_and!; [by left | done | unfold no_worse; lra] | ]. apply (Forall_impl _ _ _ F). intros g Hg. right. right. split; [done | by constructor].
Qed.

Lemma best_cons k seen h hs out :
  hit_id h ∉ seen -> StronglySorted no_worse (h :: hs) -> best_of k (hit_id h :: seen) hs out -> best_of (k + 1) seen (h :: hs) (h :: out).
Proof.
  intros H [S F]%StronglySorted_inv [Fo So N D L R]. assert (W : Forall (no_worse h) out).
  { rewrite Forall_forall in Fo, F |- *. auto. }
  split.
  - constructor; [by left | ]. apply (Forall_impl _ _ _ Fo). intros g Hg. by right.
  - by constructor.
  - cbn. apply NoDup_cons. split; [ | done ]. intros X. apply list_elem_of_In, in_map_iff in X as (g & e & Hg%list_elem_of_In). rewrite Forall_forall in D.
    apply (D g Hg). rewrite e. by left.
  - constructor; [done | ]. apply (Forall_impl _ _ _ D). intros g Hg X. apply Hg. by right.
  - cbn [length]. lia.
  - constructor; [right; left; exists h; split_and!; [by left | done | unfold no_worse; lra] | ]. rewrite Forall_forall in R, F |- *. intros g Hg.
    destruct (R g Hg) as [ [ e | X ]%elem_of_cons | [ (g' & Hg' & e & X) | [e X] ] ].
    + right. left. exists h. split_and!; [by left | done | by apply F].
    + by left.
    + right. left. exists g'. split_and!; [by right | done | done].
    + right. right. split; [cbn [length]; lia | ]. constructor; [by apply F | done].
Qed.

Lemma first_distinct_best limit seen count hs :
  StronglySorted no_worse hs -> count < limit \/ seen = [] -> best_of (Z.max 1 (limit - count)) seen hs (first_distinct limit seen count hs).
Proof.
  revert seen count. induction hs as [ | h hs IH ]; intros seen count S O; cbn [first_distinct]; [apply best_nil; lia | ].
  assert (S' := proj1 (StronglySorted_inv S)). case_bool_decide as I.
  - destruct O as [ O | -> ]; [ | by apply elem_of_nil in I ]. destruct (Z.leb_spec limit count); [lia | ]. by apply best_seen; [ | apply IH; [ | left ] ].
  - destruct (Z.leb_spec limit (count + 1)).
    + replace (Z.max 1 (limit - count)) with 1 by lia. by apply best_last.
    + replace (Z.max 1 (limit - count)) with (Z.max 1 (limit - (count + 1)) + 1) by lia. apply best_cons; [done | done | ]. apply IH; [done | by left].
Qed.

(** Tags as the input schema and the routes have them: lists of texts. *)
Definition is_text (v : pyval) : Prop := exists t, v = VStr t.
Definition text_tags (n : node) : Prop := exists l, n_tags n = VList l /\ Forall is_text l.

Lemma text_tags_list n : text_tags n -> exists l, py_list (py_or (n_tags n) (VList [])) = Some l /\ Forall is_text l.
Proof. intros (l & -> & F). exists l. split; [ | done ]. unfold py_or. by destruct l. Qed.

Lemma py_set_texts l : Forall is_text l -> is_Some (py_set l).
Proof. intros F. induction F as [ | v l [ t -> ] F [ r IH ] ]; cbn [py_set]; [done | ]. cbn [hashable]. by rewrite IH. Qed.

Lemma tag_score_total tags n : Forall is_text tags -> text_tags n -> is_Some (tag_score tags n).
Proof.
  intros F (l & e & Fl)%text_tags_list. unfold tag_score. destruct tags as [ | t tags ]; [done | ]. rewrite e. cbn [mbind option_bind].
  destruct (py_set_texts _ Fl) as [ r -> ]. destruct (py_set_texts _ F) as [ q Q ]. cbn [mbind option_bind]. rewrite Q. done.
Qed.

Lemma score_total E s tags hs : Forall is_text tags -> Forall (fun h => text_tags (hit_node h)) hs -> is_Some (score_hits E s tags hs).
Proof.
  intros F H. induction H as [ | h hs Hh H [ r IH ] ]; cbn [score_hits]; [done | ]. destruct (tag_score_total tags (hit_node h)) as [ q -> ]; [done | done | ].
  cbn [mbind option_bind]. by rewrite IH.
Qed.

Lemma filter_opt_total {A} (p : A -> option bool) l : Forall (fun x => is_Some (p x)) l -> is_Some (filter_opt p l).
Proof. intros H. induction H as [ | x l [ b Hb ] H [ r IH ] ]; cbn [filter_opt]; [done | ]. by rewrite Hb, IH. Qed.

Lemma sql_limit_total {A} k (l : list A) : 0 <= k -> sql_limit k l = Ok (take (Z.to_nat k) l).
Proof. intros H. unfold sql_limit. by destruct (Z.ltb_spec k 0); [lia | ]. Qed.

Section total.
Context (E : surroundings) (user : string) (s : store) (Ht : Forall text_tags (nodes s)) (limit : Z) (Hl : 0 <= limit).

Lemma get_by_tags_total tags mode : exists r, get_by_tags E tags limit mode user s = Ok r.
Proof.
  unfold get_by_tags. destruct (List.filter py_truth tags); [rewrite sql_limit_total by lia; eauto | ]. destruct (e_postgres E); [rewrite sql_limit_total by lia; eauto | ].
  destruct (filter_opt_total (fun n => tags_match E (n_tags n) (p :: l) mode) (select (shared_scope E user) s)) as [ r -> ]; [ | eauto ].
  apply filter_sub. apply (Forall_impl _ _ _ Ht). intros n (tl & e & _)%text_tags_list. unfold tags_match. by rewrite e.
Qed.

Lemma find_similar_total v k t m : exists r, find_similar E v k user t m s = Ok r.
Proof. unfold find_similar. destruct (negb _); [eauto | ]. destruct (select _ s); [eauto | ]. destruct (_ && _); eauto. Qed.

Lemma find_text_total q t : exists r, find_text_matches E q limit user t s = Ok r.
Proof. unfold find_text_matches. case_bool_decide; [eauto | ]. rewrite sql_limit_total by lia. eauto. Qed.
End total.

Lemma candidates_total E query tags limit user node_type s u :
  parse_user_id user = Some u -> 0 <= limit -> Forall is_text tags -> Forall text_tags (nodes s) ->
  exists r, recall_candidates E query tags limit user node_type s = Ok r.
Proof.
  intros Hu Hl F Ht. unfold recall_candidates.
  assert (S : exists sem, semantic_candidates E query limit user node_type s = Ok sem).
  { unfold semantic_candidates. case_bool_decide; [eauto | ]. cbv zeta. destruct (find_text_total E user s (limit * 3) ltac:(lia) query node_type) as [ txt T ]. rewrite T.
    destruct (find_similar_total E user s (default [] (e_embed E query)) (limit * 3) node_type 0) as [ sim M ]. rewrite M. cbn [result_bind].
    destruct (_ && _); cbn [result_bind]; [destruct sim | ]; [destruct (_ || _) | | destruct (_ || _)]; eauto. }
  destruct S as [ sem S ]. rewrite S. cbn [result_bind].
  assert (T : exists tg, tag_candidates E tags limit user node_type sem s = Ok tg).
  { unfold tag_candidates. destruct tags; [eauto | ]. destruct (get_by_tags_total E user s Ht (limit * 3) ltac:(lia) (p :: tags) "AND") as [ r -> ]. cbn. eauto. }
  destruct T as [ tg T ]. rewrite T. cbn [result_bind].
  apply (semantic_own _ _ _ Hu) in S. apply (tagged_own _ _ _ Hu) in T.
  destruct (score_total E s tags (sem ++ tg)) as [ r -> ]; [done | | eauto]. apply Forall_app. rewrite Forall_forall in Ht.
  split; [apply (Forall_impl _ _ _ S) | apply (Forall_impl _ _ _ T)]; intros h [Hh _]; by apply Ht.
Qed.

(** Nothing is asked for and nothing is found. *)
Lemma sql_limit_zero {A} (l r : list A) : sql_limit 0 l = Ok r -> r = [].
Proof. unfold sql_limit. cbn. intros e. by simplify_eq. Qed.

Lemma candidates_zero E query tags user node_type s r : recall_candidates E query tags 0 user node_type s = Ok r -> r = [].
Proof.
  assert (S : forall sem, semantic_candidates E query 0 user node_type s = Ok sem -> sem = []).
  { unfold semantic_candidates. intros sem. case_bool_decide; [congruence | ]. cbv zeta. change (0 * 3) with 0.
    assert (F : forall v m l, find_similar E v 0 user node_type m s = Ok l -> l = []).
    { unfold find_similar. intros v m l. destruct (negb _); [congruence | ]. destruct (select _ s); [congruence | ]. destruct (_ && _); intros ?; by simplify_eq. }
    assert (T : forall l, find_text_matches E query 0 user node_type s = Ok l -> l = []).
    { unfold find_text_matches. intros l. case_bool_decide; [congruence | ]. apply sql_limit_zero. }
    destruct (find_text_matches _ _ _ _ _ _) as [ txt | ]; [rewrite (T txt) by done | ]; cbn [result_bind map].
    all: destruct (if _ && _ then _ else _) as [ sim | ] eqn:M; cbn [result_bind]; [ | done ].
    all: assert (sim = []) as -> by (destruct (_ && _); [by apply F in M | by simplify_eq]); destruct (_ || _); intros ?; by simplify_eq. }
  assert (T : forall sem tg, tag_candidates E tags 0 user node_type sem s = Ok tg -> tg = []).
  { unfold tag_candidates. intros sem tg. destruct tags as [ | t tags' ]; [congruence | ]. change (0 * 3) with 0.
    destruct (get_by_tags _ _ _ _ _ _) as [ rows | ] eqn:G; [ | done ]. cbn [result_bind]. replace rows with (@nil node); [intros e; by simplify_eq | ].
    revert G. unfold get_by_tags. destruct (List.filter py_truth _); [by intros ->%sql_limit_zero | ]. destruct (e_postgres E); [by intros ->%sql_limit_zero | ].
    destruct (filter_opt _ _); intros e; by simplify_eq. }
  unfold recall_candidates. destruct (semantic_candidates _ _ _ _ _ _) as [ sem | ]; [ | done ]. rewrite (S sem) by done. cbn [result_bind].
  destruct (tag_candidates _ _ _ _ _ _ _) as [ tg | ] eqn:G; [ | done ]. apply T in G as ->. cbn. intros e. by simplify_eq.
Qed.

(** C27: a recall of a caller, with text tags and a limit that is not negative, answers:
    distinct rows of the caller in the order of their resonance, no more of them than the
    limit; and every candidate is either answered for, by a hit of its row that is no
    worse, or no better than any hit of a full answer. *)
Theorem recall_answers_best E query tags limit user node_type s u
    (Hu : parse_user_id user = Some u) (Hl : 0 <= limit) (Ht : Forall is_text tags) (Hs : Forall text_tags (nodes s)) :
  exists candidates hs, recall_candidates E query tags limit user node_type s = Ok candidates /\ recall E query tags limit user node_type s = Ok hs /\
    hits_own E u s hs /\ best_of limit [] candidates hs.
Proof.
  destruct (candidates_total E query tags limit user node_type s u Hu Hl Ht Hs) as [ scored C ].
  assert (R := recall_ranks E query tags limit user node_type s). rewrite C in R. cbn [result_bind] in R.
  exists scored, (first_distinct limit [] 0 (sort_desc hit_resonance scored)). split_and!; [done | done | by apply (recall_own _ _ _ Hu) in R | ].
  destruct (decide (limit = 0)) as [ -> | ]; [apply candidates_zero in C as ->; by apply best_nil | ].
  assert (B := first_distinct_best limit [] 0 _ (sort_desc_sorted scored) ltac:(by right)). replace (Z.max 1 (limit - 0)) with limit in B by lia.
  destruct B as [F S N D L W]. split; try done.
  - apply (Forall_impl _ _ _ F). intros h Hh. by rewrite sort_desc_perm in Hh.
  - by rewrite sort_desc_perm in W.
Qed.

(** ** Walks over the graph *)

Section walk.
Context (E : surroundings) (max_depth : Z) (link_type user : string) (min_strength : Q) (s : store).

Definition visit := dfs E max_depth link_type user min_strength s.

(** The fuel is enough: more of it changes nothing. *)
Lemma visit_fuel f f' node_id depth path st : (Z.to_nat (max_depth - depth + 2) <= f)%nat -> (f <= f')%nat -> (1 <= f)%nat ->
  visit f' node_id depth path st = visit f node_id depth path st.
Proof.
  revert f' node_id depth path st. induction f as [ | f IH ]; intros f' node_id depth path st Hf Hff H1; [lia | ]. destruct f' as [ | f' ]; [lia | ].
  unfold visit in *. cbn [dfs]. destruct (Z.ltb_spec max_depth depth); [done | ]. cbn [orb]. destruct (bool_decide (node_id ∈ st.1)); [done | ]. cbv zeta.
  destruct (get_model_by_id _ _ _ _) as [ n | ]; [ | done ]. generalize (if 0 <? depth then ((node_id :: st.1, st.2).1, (node_id :: st.1, st.2).2 ++ [Step depth n path]) else (node_id :: st.1, st.2)) as st'.
  generalize (strong_links link_type min_strength s (n_id n)) as ls. induction ls as [ | l ls IHl ]; intros st'; [done | ]. cbn [foldl].
  rewrite IHl. f_equal. destruct (bool_decide _); [done | ]. apply IH; lia.
Qed.

Definition step_id (x : step) : string := n_id (st_node x).

(** Every step is a row of the caller at a depth within the limit, and no row comes twice. *)
Record walk_ok (u : string) (st : list string * list step) : Prop := WalkOk {
  wo_once : NoDup (map step_id st.2);
  wo_visited : Forall (fun x => step_id x ∈ st.1) st.2;
  wo_steps : Forall (fun x => 0 < st_depth x <= max_depth /\ own E u (st_node x) = true) st.2 }.

Context (u : string) (Hu : parse_user_id user = Some u) (Hc : Forall (fun l => parse_uuid (l_target l) = Some (l_target l)) (links s)).

Lemma strong_links_known id l : l ∈ strong_links link_type min_strength s id -> l ∈ links s.
Proof. unfold strong_links. rewrite sort_desc_perm. intros [H _]%list_elem_of_In%filter_In. by apply list_elem_of_In. Qed.

Lemma visit_ok f node_id depth path st :
  0 <= depth -> (0 < depth -> parse_uuid node_id = Some node_id) -> walk_ok u st -> walk_ok u (visit f node_id depth path st).
Proof.
  revert node_id depth path st. induction f as [ | f IH ]; intros node_id depth path st Hd Hp W; [done | ]. unfold visit in *. cbn [dfs].
  destruct (Z.ltb_spec max_depth depth); [done | ]. cbn [orb]. case_bool_decide as V; [done | ]. cbv zeta. destruct W as [N F D].
  assert (W1 : walk_ok u (node_id :: st.1, st.2)).
  { split; [done | | done]. apply (Forall_impl _ _ _ F). intros x Hx. by right. }
  destruct (get_model_by_id _ _ _ _) as [ n | ] eqn:G; [ | done ]. apply (get_model_own _ _ _ Hu) in G as [[_ O] P].
  set (st' := if 0 <? depth then _ else _).
  assert (W2 : walk_ok u st').
  { unfold st'. destruct (Z.ltb_spec 0 depth) as [ Z | ]; [ | done ]. rewrite (Hp Z) in P. injection P as P. destruct W1 as [N1 F1 D1]. cbn in N1, F1, D1. split; cbn [fst snd].
    - rewrite map_app. apply NoDup_app. split_and!; [done | | apply NoDup_singleton]. intros x Hx e%list_elem_of_singleton. subst x. unfold step_id at 1 in Hx. cbn in Hx.
      rewrite <- P in Hx. apply V. apply list_elem_of_In, in_map_iff in Hx as (y & e & Hy%list_elem_of_In). rewrite Forall_forall in F. rewrite <- e. by apply F.
    - apply Forall_app. split; [done | ]. constructor; [ | done ]. unfold step_id. cbn. rewrite <- P. by left.
    - apply Forall_app. split; [done | ]. by constructor. }
  clearbody st'. assert (K : Forall (fun l => l ∈ links s) (strong_links link_type min_strength s (n_id n))) by (apply Forall_forall; intros l; apply strong_links_known).
  revert st' W2. induction K as [ | l ls Hl K IHl ]; intros st' W2; [done | ]. cbn [foldl]. apply IHl. destruct (bool_decide _); [done | ].
  apply IH; [lia | | done]. intros _. rewrite Forall_forall in Hc. by apply Hc.
Qed.
End walk.

(** A walk from a node answers for every start the caller sees, returns whatever the graph
    (its fuel is enough), and its steps are distinct rows of the caller within the depth. *)
Lemma traverse_visits_once E start max_depth link_type user min_strength s u n :
  parse_user_id user = Some u -> Forall (fun l => parse_uuid (l_target l) = Some (l_target l)) (links s) -> get_model_by_id E start user s = Some n ->
  exists st, traverse E start max_depth link_type user min_strength s = Some st /\
    walk_ok E max_depth u st /\ (forall f, (S (S (Z.to_nat max_depth)) <= f)%nat -> visit E max_depth link_type user min_strength s f start 0 [] ([], []) = st).
Proof.
  intros Hu Hc G. unfold traverse. rewrite G. eexists. split; [done | ]. split.
  - apply (visit_ok E max_depth link_type user min_strength s u Hu Hc); [done | lia | ]. split; constructor.
  - intros f Hf. apply visit_fuel; lia.
Qed.

(** ** Examples *)

Definition ex_env : surroundings :=
  Surroundings (fun _ => "?") false None None 5 true false (fun tags t => match tags with VList l => existsb (py_eq t) l | _ => false end)
    (fun _ => None) (fun _ _ => 0%Q) (fun _ _ => 0%Q) (fun _ _ => 1%Q) (fun q => q) (fun _ => None) "99999999-9999-4999-8999-999999999999".
Definition ex_alice : caller := Caller "aaaaaaaa-aaaa-4aaa-8aaa-aaaaaaaaaaaa" "eu-1".
Definition ex_bob : caller := Caller "bbbbbbbb-bbbb-4bbb-8bbb-bbbbbbbbbbbb" "eu-2".
Definition ex_id1 : string := "11111111-1111-4111-8111-111111111111".
Definition ex_id2 : string := "22222222-2222-4222-8222-222222222222".
Definition ex_id3 : string := "33333333-3333-4333-8333-333333333333".
Definition ex_plan : mnode := [("content", VStr "The launch plan"); ("tags", VList [VStr "plan"])].
Definition ex_note : mnode := [("content", VStr "A note on the plan"); ("tags", VList [VStr "plan"])].
Definition ex_write (id : string) (payload : mnode) : op := OSyscall "sys.v1.memory.write" id payload.
Definition ex_empty : store := Store [] [] [] [] [].
Definition ex_one : store := perform ex_env (ex_write ex_id1 ex_plan) ex_alice ex_empty.
Definition ex_two : store := perform ex_env (ex_write ex_id2 ex_note) ex_bob ex_one.

Lemma ex_empty_ok : store_ok ex_empty.
Proof. by split; constructor. Qed.

Lemma ex_one_ok : store_ok ex_one.
Proof.
  refine (proj1 (perform_stays ex_env (c_user ex_alice) (ex_write ex_id1 ex_plan) ex_alice ex_empty eq_refl ex_empty_ok _)).
  cbn. apply not_elem_of_nil.
Qed.

Lemma ex_two_fresh : ex_id2 ∉ ids ex_one.
Proof. apply (bool_decide_unpack _). vm_compute. exact I. Qed.

Lemma ex_two_ok : store_ok ex_two.
Proof.
  exact (proj1 (perform_stays ex_env (c_user ex_bob) (ex_write ex_id2 ex_note) ex_bob ex_one eq_refl ex_one_ok ex_two_fresh)).
Qed.

Lemma memory_syscall_isolated_witness :
  exists s' hs, memory_syscall ex_env "sys.v1.memory.read" ex_id3 [("query", VStr "plan"); ("tags", VList [VStr "plan"])] ex_alice ex_two = Some (s', Ok (Recalled hs)) /\
    map (fun h => n_id (hit_node h)) hs = [ex_id1] /\ Forall (fun n => own ex_env (c_user ex_alice) n = true) (answer_nodes (Recalled hs)).
Proof.
  eexists _, _. split; [vm_compute; reflexivity | ]. split; [reflexivity | ].
  refine (proj1 (memory_syscall_isolated ex_env "sys.v1.memory.read" ex_id3 [("query", VStr "plan"); ("tags", VList [VStr "plan"])] ex_alice (c_user ex_alice) ex_two _ _
                   ex_two_ok _ eq_refl _) (Recalled _) eq_refl).
  - apply (bool_decide_unpack _). vm_compute. exact I.
  - vm_compute. reflexivity.
Defined.

Lemma others_leave_rows_witness :
  others_act (c_user ex_alice) ex_one ex_two /\ length (nodes ex_two) = 2%nat /\ rows_of (c_user ex_alice) ex_two = rows_of (c_user ex_alice) ex_one.
Proof.
  assert (H : others_act (c_user ex_alice) ex_one ex_two).
  { apply (OthersStep _ _ ex_env (ex_write ex_id2 ex_note) ex_bob (c_user ex_bob) ex_one); [constructor | reflexivity | discriminate | exact ex_two_fresh]. }
  split; [exact H | ]. split; [vm_compute; reflexivity | ]. exact (proj1 (proj2 (others_leave_rows _ _ _ ex_one_ok H))).
Defined.

Lemma write_undo_roundtrip_witness :
  exists n path, handle_memory_write ex_env ex_id2 ex_note ex_alice ex_one = (perform ex_env (ex_write ex_id2 ex_note) ex_alice ex_one, Ok (Written n path)) /\
    compensate_memory_write ex_env (write_receipt n path) ex_alice (perform ex_env (ex_write ex_id2 ex_note) ex_alice ex_one) = (ex_one, Ok (Deleted true ex_id2)).
Proof.
  eexists _, _. split; [vm_compute; reflexivity | ].
  refine (proj1 (proj2 (write_undo_roundtrip ex_env ex_id2 ex_note ex_alice (c_user ex_alice) ex_one _ _ _ ex_one_ok ex_two_fresh _ _ _ _ _ ex_env _)));
    vm_compute; reflexivity.
Defined.

Lemma recall_answers_best_witness :
  exists hs, recall ex_env "plan" [VStr "plan"] 1 (c_user ex_alice) "" ex_two = Ok hs /\ map hit_id hs = [ex_id1] /\ hits_own ex_env (c_user ex_alice) ex_two hs.
Proof.
  destruct (recall_answers_best ex_env "plan" [VStr "plan"] 1 (c_user ex_alice) "" ex_two (c_user ex_alice)) as (cands & hs & _ & R & O & _).
  - reflexivity.
  - lia.
  - constructor; [by eexists | constructor].
  - assert (T : Forall (fun n => n_tags n = VList [VStr "plan"]) (nodes ex_two)) by (vm_compute; repeat constructor).
    apply (Forall_impl _ _ _ T). intros n e. exists [VStr "plan"]. split; [exact e | ]. constructor; [by eexists | constructor].
  - exists hs. split; [exact R | ]. split; [ | exact O ].
    assert (R2 : match recall ex_env "plan" [VStr "plan"] 1 (c_user ex_alice) "" ex_two with Ok l => map hit_id l | Err _ => [] end = [ex_id1]) by (vm_compute; reflexivity).
    rewrite R in R2. exact R2.
Defined.

(** ** Findings *)

Definition ex_children (children : list pyval) : mnode :=
  [("content", VStr "Mine"); ("extra", VDict [("children", VList children)])].
Definition ex_receipt (s : store) : pyval := match nodes s with n :: _ => write_receipt n (default "" (n_path n)) | [] => VNone end.
Definition ex_score (s : store) : list Q := match recall ex_env "plan" [] 5 (c_user ex_alice) "" s with Ok hs => map hit_resonance hs | Err _ => [] end.

(** The children a write names are linked whoever owns them: a caller links its node to
    another tenant's, which changes the resonance of the other's row and keeps the other
    from undoing its own write. *)
Lemma foreign_child_is_linked :
  let s := perform ex_env (ex_write ex_id2 (ex_children [VStr ex_id1])) ex_bob ex_one in
  map link_key (links s) = [(ex_id2, ex_id1, "child")] /\
  match ex_score ex_one, ex_score s with [a], [b] => Qle_bool b a = false | _, _ => False end /\
  (compensate_memory_write ex_env (ex_receipt ex_one) ex_alice ex_one).2 = Ok (Deleted true ex_id1) /\
  (compensate_memory_write ex_env (ex_receipt ex_one) ex_alice s).2 = Err (BadValue "memory node was not deleted").
Proof. vm_compute. repeat split. Qed.

(** A write that links children is never undone: the links it made itself refuse it. *)
Lemma write_with_children_not_undone :
  match handle_memory_write ex_env ex_id2 (ex_children [VStr ex_id1]) ex_alice ex_one with
  | (s, Ok (Written n path)) => compensate_memory_write ex_env (write_receipt n path) ex_alice s = (s, Err (BadValue "memory node was not deleted"))
  | _ => False
  end.
Proof. vm_compute. reflexivity. Qed.

(** A child named twice drops the links to every child; the write answers as usual. *)
Lemma repeated_child_drops_links :
  links (perform ex_env (ex_write ex_id3 (ex_children [VStr ex_id1; VStr ex_id2; VStr ex_id1])) ex_alice ex_two) = [] /\
  length (links (perform ex_env (ex_write ex_id3 (ex_children [VStr ex_id1; VStr ex_id2])) ex_alice ex_two)) = 2%nat.
Proof. vm_compute. split; reflexivity. Qed.

(** A caller id that is not in its canonical spelling finds nothing by tags, where its
    other queries find the rows. *)
Lemma other_spelling_finds_no_tags :
  let upper := "AAAAAAAA-AAAA-4AAA-8AAA-AAAAAAAAAAAA" in
  let found user q tags := match recall ex_env q tags 5 user "" ex_one with Ok hs => map hit_id hs | Err _ => ["error"] end in
  found (c_user ex_alice) "" [VStr "plan"] = [ex_id1] /\ found upper "" [VStr "plan"] = [] /\ found upper "plan" [] = [ex_id1].
Proof. vm_compute. repeat split. Qed.

Definition ex_at (path : string) : mnode := [("content", VStr "x"); ("path", VStr ("/memory/" +:+ c_user ex_alice +:+ path))].

(** In the prefix of a recursive listing an underscore stands for any character: the
    listing of one namespace answers the rows of another. *)
Lemma listing_matches_other_namespace :
  let s := perform ex_env (ex_write ex_id1 (ex_at "/teamXone/note/n1")) ex_alice ex_empty in
  match handle_memory_list ex_env [("path", VStr ("/memory/" +:+ c_user ex_alice +:+ "/team_one/**"))] ex_alice s with
  | Ok (Found ns) => map n_id ns = [ex_id1]
  | _ => False
  end.
Proof. vm_compute. reflexivity. Qed.

(** With memory private to runs, the write of a run undone from outside the run answers
    that the node is gone, which counts as reversed, and leaves it in place. *)
Lemma private_write_not_undone :
  let inside := Surroundings (fun _ => "?") true (Some ex_id3) None 5 true false (fun _ _ => false) (fun _ => None) (fun _ _ => 0%Q) (fun _ _ => 0%Q)
                  (fun _ _ => 1%Q) (fun q => q) (fun _ => None) ex_id3 in
  let outside := Surroundings (fun _ => "?") true None None 5 true false (fun _ _ => false) (fun _ => None) (fun _ _ => 0%Q) (fun _ _ => 0%Q)
                  (fun _ _ => 1%Q) (fun q => q) (fun _ => None) ex_id3 in
  match handle_memory_write inside ex_id1 ex_plan ex_alice ex_empty with
  | (s, Ok (Written n path)) =>
      compensate_memory_write outside (write_receipt n path) ex_alice s = (s, Ok (Deleted false ex_id1)) /\
      compensate_memory_write inside (write_receipt n path) ex_alice s = (ex_empty, Ok (Deleted true ex_id1))
  | _ => False
  end.
Proof. vm_compute. split; reflexivity. Qed.
