(* ===== verification/Auth.v ===== *)
(** * Accounts, sessions and API keys

    Models services/auth_service.py, auth/api_key_auth.py, platform_layer/api_key_service.py
    and what the routes of routes/auth_router.py, routes/platform/keys_router.py and
    admin_router.py, and the rotation of routes/platform/platform_ops_router.py, do with
    them, with the three ways the deployment makes operators (the command promote-admin of
    runtime_only.py, and the bootstrap address and the development key of startup.py):
    registration, login, verification and reset links, password changes, the ways a
    session ends, API keys and their scopes, and the gates that ask for an operator.

    JSON web tokens, the password hash, the digest of a key and the key derivation are
    functions of [outside]. The world holds the tables, the key ring, the clock (in
    seconds), the mail that was sent and, to state theorems, what was ever signed. Values
    that are random (ids, salts, keys) are arguments. Statements of the database and the
    emission of events succeed; the request limits of the routes are left out but for the
    one that [forgot_password] asks for itself. *)

From S2P Require Import Prelude PyStr PyVal UserIds Capabilities.
From Stdlib Require Import Ascii.
From stdpp Require Import pretty.
Local Open Scope string_scope.
Local Open Scope list_scope.
Local Open Scope Z_scope.
Local Open Scope py_scope.

Definition claims : Type := list (string * pyval).

Record outside := Outside {
  o_encode : claims -> string -> string;              (* [jwt.encode(claims, key)] *)
  o_decode : Z -> string -> string -> option claims;  (* [jwt.decode(token, key)] at a time; [None] where it raises *)
  o_derive : string -> string -> string;              (* HMAC-SHA256 of a domain under a secret *)
  o_hash : string -> string -> string;                (* of a salt and a password *)
  o_verify : string -> string -> option bool;         (* [None] where the hash is not one *)
  o_digest : string -> string;                        (* SHA-256 *)
  o_render : pyval -> string;
  o_require_verified : bool;                          (* AINDY_REQUIRE_VERIFIED_LOGIN *)
  o_session_scopes : bool;                            (* AINDY_JWT_SCOPE_ENFORCEMENT *)
  o_mail : bool;                                      (* an email channel is configured *)
  o_reset_minutes : Z;
  o_verify_hours : Z }.

(** ** Tables *)

Record user := User {
  u_id : string;
  u_email : string;
  u_name : option string;
  u_hash : string;
  u_active : bool;
  u_admin : bool;
  u_version : Z;
  u_verified : bool;
  u_verified_at : option Z }.

Record api_key := ApiKey {
  k_id : string;
  k_user : string;
  k_name : string;
  k_prefix : string;
  k_hash : string;
  k_scopes : list string;
  k_active : bool;
  k_expires : option Z;
  k_revoked : option Z }.

Inductive mail := VerificationMail (to token : string) | ResetMail (to token : string) | DuplicateNotice (to : string).

Record world := World {
  w_users : list user;
  w_keys : list api_key;
  w_ring : key_ring;
  w_now : Z;
  w_sent : list mail;
  w_signed : list (string * claims) }.

Definition set_users (us : list user) (w : world) : world := World us (w_keys w) (w_ring w) (w_now w) (w_sent w) (w_signed w).
Definition set_keys (ks : list api_key) (w : world) : world := World (w_users w) ks (w_ring w) (w_now w) (w_sent w) (w_signed w).
Definition set_ring (r : key_ring) (w : world) : world := World (w_users w) (w_keys w) r (w_now w) (w_sent w) (w_signed w).
Definition set_now (t : Z) (w : world) : world := World (w_users w) (w_keys w) (w_ring w) t (w_sent w) (w_signed w).
Definition add_mail (m : mail) (w : world) : world := World (w_users w) (w_keys w) (w_ring w) (w_now w) (w_sent w ++ [m]) (w_signed w).
Definition add_signed (k : string) (c : claims) (w : world) : world :=
  World (w_users w) (w_keys w) (w_ring w) (w_now w) (w_sent w) (w_signed w ++ [(k, c)]).

Inductive http_error := Http (status : Z) (detail : string).

Definition MIN_PASSWORD_LENGTH : nat := 8.
Definition ACCESS_TOKEN_EXPIRE_MINUTES : Z := 60 * 24.
Definition ACCESS_TOKEN_PURPOSE : string := "access".
Definition EMAIL_VERIFY_DOMAIN : string := "aindy-email-verify-v1".
Definition EMAIL_VERIFY_PURPOSE : string := "email_verify".
Definition PASSWORD_RESET_DOMAIN : string := "aindy-password-reset-v1".
Definition PASSWORD_RESET_PURPOSE : string := "password_reset".

(** ** Scopes *)

Definition PLATFORM_ADMIN : string := "platform.admin".
Definition ALL_SCOPES : list string :=
  ["flow.read"; "flow.execute"; "memory.read"; "memory.write"; "memory.delete"; "agent.run"; "execution.read"; "event.emit"; "webhook.manage"; PLATFORM_ADMIN].
Definition JWT_SESSION : list string := ["flow.read"; "flow.execute"; "memory.read"; "memory.write"; "agent.run"; "execution.read"].
Definition JWT_ADMIN_EXTRA : list string := ["webhook.manage"; PLATFORM_ADMIN].

Definition derive_session_scopes (is_admin : bool) : list string := JWT_SESSION ++ (if is_admin then JWT_ADMIN_EXTRA else []).

(** A resolved caller, as a dict. *)
Definition principal : Type := list (string * pyval).

Definition vlist (l : list string) : pyval := VList (map VStr l).

(** [set(v or [])] for a list of texts. *)
Definition text_set (v : pyval) : list string :=
  match v with VList l => omap (fun x => match x with VStr t => Some t | _ => None end) l | _ => [] end.

Definition is_api_key_principal (p : principal) : bool := py_eq (py_get "auth_type" p) (VStr "api_key").

Definition is_operator_principal (p : principal) : bool :=
  if is_api_key_principal p then bool_decide (PLATFORM_ADMIN ∈ text_set (py_get "api_key_scopes" p))
  else py_truth (py_get "is_admin" p).

Definition grantable_scopes (p : principal) : list string :=
  let held := if is_api_key_principal p then text_set (py_get "api_key_scopes" p) else derive_session_scopes (py_truth (py_get "is_admin" p)) in
  if bool_decide (PLATFORM_ADMIN ∈ held) then ALL_SCOPES else held.

Section auth.
Context (O : outside).

(** ** Tokens *)

Definition live_keys (w : world) : world * list string :=
  let '(r, keys) := verify_keys (w_now w) (w_ring w) in (set_ring r w, keys).

Definition sign (key : string) (c : claims) (w : world) : world * string := (add_signed key c w, o_encode O c key).

Definition create_access_token (data : claims) (token_version : Z) (w : world) : world * string :=
  sign (kr_active (w_ring w))
    (dict_set "exp" (VInt (w_now w + 60 * ACCESS_TOKEN_EXPIRE_MINUTES)) (dict_set "purpose" (VStr ACCESS_TOKEN_PURPOSE) (dict_set "tv" (VInt token_version) data))) w.

Definition create_email_verification_token (u : user) (w : world) : world * string :=
  sign (o_derive O (kr_active (w_ring w)) EMAIL_VERIFY_DOMAIN)
    [("sub", VStr (u_id u)); ("purpose", VStr EMAIL_VERIFY_PURPOSE); ("exp", VInt (w_now w + 3600 * o_verify_hours O))] w.

Definition create_password_reset_token (u : user) (w : world) : world * string :=
  sign (o_derive O (kr_active (w_ring w)) PASSWORD_RESET_DOMAIN)
    [("sub", VStr (u_id u)); ("tv", VInt (u_version u)); ("purpose", VStr PASSWORD_RESET_PURPOSE); ("exp", VInt (w_now w + 60 * o_reset_minutes O))] w.

(** The first key that verifies decides. *)
Fixpoint decode_for (purpose token : string) (now : Z) (keys : list string) : option claims :=
  match keys with
  | [] => None
  | k :: keys' =>
      match o_decode O now token k with
      | None => decode_for purpose token now keys'
      | Some c => if py_eq (py_get "purpose" c) (VStr purpose) then Some c else None
      end
  end.

Definition decode_access_token (token : string) (w : world) : world * result http_error claims :=
  let '(w', keys) := live_keys w in
  (w', match decode_for ACCESS_TOKEN_PURPOSE token (w_now w) keys with Some c => Ok c | None => Err (Http 401 "Invalid or expired token") end).

Definition verify_email_token (token : string) (w : world) : world * result http_error claims :=
  let '(w', keys) := live_keys w in
  (w', match decode_for EMAIL_VERIFY_PURPOSE token (w_now w) (map (fun k => o_derive O k EMAIL_VERIFY_DOMAIN) keys) with
       | Some c => Ok c
       | None => Err (Http 400 "Invalid or expired verification token")
       end).

Definition verify_password_reset_token (token : string) (w : world) : world * result http_error claims :=
  let '(w', keys) := live_keys w in
  (w', match decode_for PASSWORD_RESET_PURPOSE token (w_now w) (map (fun k => o_derive O k PASSWORD_RESET_DOMAIN) keys) with
       | Some c => Ok c
       | None => Err (Http 400 "Invalid or expired reset token")
       end).

(** ** Rows *)

Definition parse_sub (v : pyval) : option string :=
  match v with VNone => None | VStr t => parse_user_id t | _ => parse_uuid (o_render O v) end.

Definition find_user (id : string) (w : world) : option user := head (List.filter (fun u => bool_decide (u_id u = id)) (w_users w)).
Definition find_email (email : string) (w : world) : option user := head (List.filter (fun u => bool_decide (u_email u = email)) (w_users w)).
Definition find_sub (v : pyval) (w : world) : option user := id ← parse_sub v; find_user id w.

Definition put_user (u : user) (w : world) : world :=
  set_users (map (fun x => if bool_decide (u_id x = u_id u) then u else x) (w_users w)) w.

Definition bump_token_version (u : user) : user :=
  User (u_id u) (u_email u) (u_name u) (u_hash u) (u_active u) (u_admin u) ((u_version u + 1) mod 32767) (u_verified u) (u_verified_at u).

Definition with_password (h : string) (u : user) : user :=
  User (u_id u) (u_email u) (u_name u) h (u_active u) (u_admin u) (u_version u) (u_verified u) (u_verified_at u).

Definition with_verified (now : Z) (u : user) : user :=
  User (u_id u) (u_email u) (u_name u) (u_hash u) (u_active u) (u_admin u) (u_version u) true (Some now).

Definition with_admin (u : user) : user :=
  User (u_id u) (u_email u) (u_name u) (u_hash u) (u_active u) true (u_version u) (u_verified u) (u_verified_at u).

Definition verify_password (plain hashed : string) : result http_error bool :=
  match o_verify O plain hashed with Some b => Ok b | None => Err (Http 500 "hash could not be identified") end.

(** ** Callers *)

(** [int(payload.get(k, d))] *)
Definition version_claim (d : Z) (c : claims) : result http_error Z :=
  match dict_get "tv" c with
  | None => Ok d
  | Some v => match py_int v with Some z => Ok z | None => Err (Http 500 "int") end
  end.

(** The claims, with what the row says. *)
Definition session_principal (u : user) (c : claims) : principal :=
  dict_set "session_scopes" (vlist (derive_session_scopes (u_admin u)))
    (dict_set "is_admin" (VBool (u_admin u))
      (dict_set "username" (match u_name u with Some n => VStr n | None => VNone end)
        (dict_set "email" (VStr (u_email u)) (dict_set "user_id" (VStr (u_id u)) (dict_set "sub" (VStr (u_id u)) c))))).

Definition resolve_authenticated_jwt_user (c : claims) (w : world) : result http_error principal :=
  match parse_sub (py_get "sub" c) with
  | None => Err (Http 401 "Invalid authenticated user id")
  | Some id =>
      match find_user id w with
      | None => Err (Http 401 "Invalid or expired token")
      | Some u =>
          let? tv := version_claim 0 c in
          if bool_decide (tv <> u_version u) then Err (Http 401 "Token has been invalidated. Please log in again.")
          else if negb (u_active u) then Err (Http 401 "Invalid or expired token")
          else Ok (session_principal u c)
      end
  end.

Definition is_valid (now : Z) (k : api_key) : bool :=
  if negb (k_active k) || bool_decide (k_revoked k <> None) then false
  else match k_expires k with Some x => negb (x <? now) | None => true end.

Definition resolve_platform_key_as_user (raw : string) (w : world) : result http_error principal :=
  match head (List.filter (fun k => bool_decide (k_hash k = o_digest O raw)) (w_keys w)) with
  | None => Err (Http 401 "Invalid or revoked API key")
  | Some k =>
      if is_valid (w_now w) k
      then Ok [("sub", VStr (k_user k)); ("user_id", VStr (k_user k)); ("auth_type", VStr "api_key"); ("api_key_id", VStr (k_id k)); ("api_key_scopes", vlist (k_scopes k))]
      else Err (Http 401 "Invalid or revoked API key")
  end.

(** The headers of a request. *)
Record headers := Headers { h_bearer : option string; h_platform_key : option string }.

Definition get_current_user (h : headers) (w : world) : world * result http_error principal :=
  match h_platform_key h with
  | Some (String _ _ as raw) => (w, resolve_platform_key_as_user raw w)
  | _ =>
      match h_bearer h with
      | None => (w, Err (Http 401 "Authentication required"))
      | Some t => let '(w', r) := decode_access_token t w in (w', let? c := r in resolve_authenticated_jwt_user c w')
      end
  end.

Definition require_platform_admin_access (p : principal) : result http_error principal :=
  if is_api_key_principal p then Ok p else if is_operator_principal p then Ok p else Err (Http 403 "Admin privileges required for this endpoint.").

Definition require_admin_principal (p : principal) : result http_error principal :=
  if is_operator_principal p then Ok p else Err (Http 403 "Admin privileges required for this endpoint.").

Definition enforce_scope (accepted : list string) (p : principal) : result http_error unit :=
  let check scopes :=
    if negb (existsb (fun x => bool_decide (x ∈ accepted)) scopes) && negb (bool_decide (PLATFORM_ADMIN ∈ scopes)) then Err (Http 403 "scope required") else Ok () in
  if is_api_key_principal p then check (text_set (py_get "api_key_scopes" p))
  else if o_session_scopes O then check (text_set (py_get "session_scopes" p))
  else Ok ().

(** ** Registration and login *)

Definition name_char (c : ascii) : bool :=
  let n := nat_of_ascii c in
  (97 <=? n)%nat && (n <=? 122)%nat || (48 <=? n)%nat && (n <=? 57)%nat || bool_decide (c ∈ ["."; "_"; "-"]%char).
Definition name_edge (c : ascii) : bool := bool_decide (c ∈ ["."; "_"; "-"]%char).

(** [re.sub("[^a-z0-9._-]+", "_", s)]; [run]: within a match. *)
Fixpoint squeeze (run : bool) (s : string) : string :=
  match s with
  | EmptyString => EmptyString
  | String c s' => if name_char c then String c (squeeze false s') else if run then squeeze true s' else String "_"%char (squeeze true s')
  end.

Definition normalize_username_candidate (value : string) : string :=
  let normalized := rstrip name_edge (lstrip name_edge (squeeze false (str_lower (str_strip value)))) in
  if bool_decide (normalized = "") then "user" else normalized.

Definition before_at (email : string) : string := match find_char "@"%char email with Some i => take_str i email | None => email end.

Definition name_taken (w : world) (n : string) : bool := existsb (fun u => bool_decide (u_name u = Some n)) (w_users w).

Definition numbered (base : string) (suffix : Z) : string := base +:+ "_" +:+ pretty suffix.

(** The loop over suffixes; it finds a free name before its fuel, the number of rows, is gone. *)
Fixpoint next_username (fuel : nat) (w : world) (base : string) (suffix : Z) : option string :=
  match fuel with
  | 0%nat => None
  | S f => if name_taken w (numbered base (suffix + 1)) then next_username f w base (suffix + 1) else Some (numbered base (suffix + 1))
  end.

Definition resolve_username (email : string) (username : option string) (w : world) : option string :=
  let base := normalize_username_candidate (match username with Some (String _ _ as n) => n | _ => before_at email end) in
  if name_taken w base then next_username (S (length (w_users w))) w base 1 else Some base.

Definition register_user (id salt email password : string) (username : option string) (w : world) : world * result http_error user :=
  if (String.length password <? MIN_PASSWORD_LENGTH)%nat then (w, Err (Http 400 "Password must be at least 8 characters"))
  else match find_email email w with
  | Some _ => (w, Err (Http 409 "Email already registered"))
  | None =>
      let u := User id email (resolve_username email username w) (o_hash O salt password) true false 0 false None in
      (set_users (w_users w ++ [u]) w, Ok u)
  end.

Definition authenticate_user (email password : string) (w : world) : result http_error user :=
  match find_email email w with
  | None => Err (Http 401 "Invalid email or password")
  | Some u =>
      let? ok := verify_password password (u_hash u) in
      if negb ok then Err (Http 401 "Invalid email or password")
      else if negb (u_active u) then Err (Http 403 "Account is disabled")
      else if o_require_verified O && negb (u_verified u) then Err (Http 403 "Email address not verified.")
      else Ok u
  end.

Inductive reply :=
| AccessToken (token : string)
| Status (text : string)
| KeyCreated (raw : string) (record : api_key)
| Promoted (id : string) (already_admin : bool).

Definition access_data (u : user) : claims := [("sub", VStr (u_id u)); ("email", VStr (u_email u)); ("is_admin", VBool (u_admin u))].

Definition issue (u : user) (w : world) : world * result http_error reply :=
  let '(w', t) := create_access_token (access_data u) (u_version u) w in (w', Ok (AccessToken t)).

Definition send_email (m : mail) (w : world) : world := if o_mail O then add_mail m w else w.

Definition send_verification_email (u : user) (w : world) : world :=
  let '(w', t) := create_email_verification_token u w in send_email (VerificationMail (u_email u) t) w'.

Definition send_reset_email (u : user) (w : world) : world :=
  let '(w', t) := create_password_reset_token u w in send_email (ResetMail (u_email u) t) w'.

Definition register (id salt email password : string) (username : option string) (w : world) : world * result http_error reply :=
  let email := str_strip email in
  if (String.length password <? MIN_PASSWORD_LENGTH)%nat then (w, Err (Http 400 "Password must be at least 8 characters"))
  else match find_email email w with
  | Some existing => (send_email (DuplicateNotice (u_email existing)) w, Ok (Status "verification_sent"))
  | None =>
      match register_user id salt email password username w with
      | (w', Err e) => (w', Err e)
      | (w', Ok u) => (send_verification_email u w', Ok (Status "verification_sent"))
      end
  end.

Definition login (email password : string) (w : world) : world * result http_error reply :=
  match authenticate_user email password w with Err e => (w, Err e) | Ok u => issue u w end.

(** ** Links *)

Definition confirm_email_verification (token : string) (w : world) : world * result http_error user :=
  match verify_email_token token w with
  | (w', Err e) => (w', Err e)
  | (w', Ok c) =>
      match find_sub (py_get "sub" c) w' with
      | None => (w', Err (Http 400 "Invalid or expired verification token"))
      | Some u =>
          if negb (u_active u) then (w', Err (Http 403 "Account is disabled"))
          else if u_verified u then (w', Ok u)
          else let u' := with_verified (w_now w') u in (put_user u' w', Ok u')
      end
  end.

Definition verify_email (token : string) (w : world) : world * result http_error reply :=
  match confirm_email_verification token w with (w', Err e) => (w', Err e) | (w', Ok u) => issue u w' end.

(** [limited]: whether the limits per address and per client are passed. *)
Definition forgot_password (email : string) (limited : bool) (w : world) : world * result http_error reply :=
  if negb (o_mail O) then (w, Err (Http 503 "Password reset is unavailable: no email channel is configured"))
  else if limited then (w, Err (Http 429 "Too many requests"))
  else
    (match find_email (str_strip email) w with
     | Some u => if u_active u then send_reset_email u w else w
     | None => w
     end, Ok (Status "ok")).

Definition reset_password_with_token (token new_password salt : string) (w : world) : world * result http_error user :=
  match verify_password_reset_token token w with
  | (w', Err e) => (w', Err e)
  | (w', Ok c) =>
      if (String.length new_password <? MIN_PASSWORD_LENGTH)%nat then (w', Err (Http 400 "Password must be at least 8 characters"))
      else match find_sub (py_get "sub" c) w' with
      | None => (w', Err (Http 400 "Invalid or expired reset token"))
      | Some u =>
          if negb (u_active u) then (w', Err (Http 403 "Account is disabled"))
          else match version_claim (-1) c with
          | Err e => (w', Err e)
          | Ok tv =>
              if bool_decide (tv <> u_version u) then (w', Err (Http 400 "Invalid or expired reset token"))
              else let u' := bump_token_version (with_password (o_hash O salt new_password) u) in (put_user u' w', Ok u')
          end
      end
  end.

Definition reset_password (token new_password salt : string) (w : world) : world * result http_error reply :=
  match reset_password_with_token token new_password salt w with (w', Err e) => (w', Err e) | (w', Ok _) => (w', Ok (Status "password_reset")) end.

(** ** Routes of a caller *)

(** A handler for whoever the headers resolve to, behind a gate. *)
Definition as_caller (h : headers) (gate : principal -> result http_error unit) (k : principal -> world -> world * result http_error reply) (w : world)
    : world * result http_error reply :=
  match get_current_user h w with
  | (w', Err e) => (w', Err e)
  | (w', Ok p) => match gate p with Err e => (w', Err e) | Ok _ => k p w' end
  end.

Definition anyone (p : principal) : result http_error unit := Ok ().
Definition operators (p : principal) : result http_error unit := let? _ := require_admin_principal p in Ok ().
(** The gate of the platform tree, then the scope of the route. *)
Definition platform_admins (p : principal) : result http_error unit := let? _ := require_platform_admin_access p in enforce_scope [PLATFORM_ADMIN] p.

Definition logout (h : headers) : world -> world * result http_error reply :=
  as_caller h anyone (fun p w =>
    if is_api_key_principal p then (w, Err (Http 401 "Bearer token required"))
    else (match find_sub (py_get "sub" p) w with Some u => put_user (bump_token_version u) w | None => w end, Ok (Status "logged_out"))).

Definition change_user_password (id current_password new_password salt : string) (w : world) : world * result http_error user :=
  match find_user id w with
  | None => (w, Err (Http 404 "User not found"))
  | Some u =>
      if negb (u_active u) then (w, Err (Http 403 "Account is disabled"))
      else match verify_password current_password (u_hash u) with
      | Err e => (w, Err e)
      | Ok false => (w, Err (Http 401 "Current password is incorrect"))
      | Ok true =>
          if (String.length new_password <? MIN_PASSWORD_LENGTH)%nat then (w, Err (Http 400 "New password must be at least 8 characters"))
          else match verify_password new_password (u_hash u) with
          | Err e => (w, Err e)
          | Ok true => (w, Err (Http 400 "New password must differ from the current password"))
          | Ok false => let u' := bump_token_version (with_password (o_hash O salt new_password) u) in (put_user u' w, Ok u')
          end
      end
  end.

Definition change_password (h : headers) (current_password new_password salt : string) : world -> world * result http_error reply :=
  as_caller h anyone (fun p w =>
    if is_api_key_principal p then (w, Err (Http 401 "Bearer token required"))
    else match parse_sub (py_get "sub" p) with
    | None => (w, Err (Http 400 "Invalid user_id"))
    | Some id =>
        match change_user_password id current_password new_password salt w with (w', Err e) => (w', Err e) | (w', Ok u) => issue u w' end
    end).

Definition admin_invalidate_sessions (h : headers) (user_id : string) : world -> world * result http_error reply :=
  as_caller h operators (fun _ w =>
    match parse_user_id user_id with
    | None => (w, Err (Http 400 "Invalid user_id"))
    | Some id =>
        match find_user id w with
        | None => (w, Err (Http 404 "User not found"))
        | Some u => (put_user (bump_token_version u) w, Ok (Status "sessions_invalidated"))
        end
    end).

(** [user_id]: a path parameter that was checked to be a UUID. *)
Definition promote_user (h : headers) (user_id : string) : world -> world * result http_error reply :=
  as_caller h operators (fun _ w =>
    match id ← parse_uuid user_id; find_user id w with
    | None => (w, Err (Http 404 "User not found."))
    | Some u => if u_admin u then (w, Ok (Promoted (u_id u) true)) else (put_user (with_admin u) w, Ok (Promoted (u_id u) false))
    end).

(** ** API keys *)

Definition KEY_PREFIX : string := "aindy_".

(** [token]: random; [id]: of the row. An active key of the same owner and name violates
    the index. *)
Definition create_api_key (id token user_id name : string) (scopes : list string) (expires : option Z) (w : world) : world * result http_error (api_key * string) :=
  let raw := KEY_PREFIX +:+ token in
  match parse_uuid user_id with
  | None => (w, Err (Http 500 "badly formed hexadecimal UUID string"))
  | Some uid =>
      let k := ApiKey id uid name (take_str 16 raw) (o_digest O raw) scopes true expires None in
      if existsb (fun x => k_active x && bool_decide (k_user x = uid) && bool_decide (k_name x = name)) (w_keys w) then (w, Err (Http 500 "duplicate key value"))
      else (set_keys (w_keys w ++ [k]) w, Ok (k, raw))
  end.

Definition sub_text (p : principal) : string := py_str (o_render O) (py_get "sub" p).

Definition create_key (h : headers) (id token name : string) (scopes : list string) (expires : option Z) : world -> world * result http_error reply :=
  as_caller h platform_admins (fun p w =>
    if existsb (fun x => negb (bool_decide (x ∈ ALL_SCOPES))) scopes then (w, Err (Http 422 "Unknown scopes"))
    else if existsb (fun x => negb (bool_decide (x ∈ grantable_scopes p))) scopes then (w, Err (Http 403 "scope_not_grantable"))
    else match create_api_key id token (sub_text p) name scopes expires w with (w', Err e) => (w', Err e) | (w', Ok (k, raw)) => (w', Ok (KeyCreated raw k)) end).

Definition revoked (now : Z) (k : api_key) : api_key :=
  ApiKey (k_id k) (k_user k) (k_name k) (k_prefix k) (k_hash k) (k_scopes k) false (k_expires k) (Some now).

Definition revoke_api_key (key_id user_id : string) (w : world) : world * result http_error bool :=
  match parse_uuid key_id, parse_uuid user_id with
  | Some kid, Some uid =>
      let owned k := bool_decide (k_id k = kid) && bool_decide (k_user k = uid) in
      match head (List.filter owned (w_keys w)) with
      | None => (w, Ok false)
      | Some r => (set_keys (map (fun k => if bool_decide (k_id k = k_id r) then revoked (w_now w) k else k) (w_keys w)) w, Ok true)
      end
  | _, _ => (w, Err (Http 500 "badly formed hexadecimal UUID string"))
  end.

Definition revoke_key (h : headers) (key_id : string) : world -> world * result http_error reply :=
  as_caller h platform_admins (fun p w =>
    match revoke_api_key key_id (sub_text p) w with
    | (w', Ok true) => (w', Ok (Status "revoked"))
    | (w', Ok false) => (w', Err (Http 404 "API key not found"))
    | (w', Err e) => (w', Err e)
    end).

Definition rotate_secret_key (h : headers) (new_key : string) : world -> world * result http_error reply :=
  as_caller h platform_admins (fun _ w =>
    if (String.length new_key <? 32)%nat then (w, Err (Http 400 "new_key must be at least 32 characters"))
    else if bool_decide (new_key = kr_active (w_ring w)) then (w, Err (Http 400 "new_key is the same as the current active key"))
    else (set_ring (Capabilities.rotate (w_now w) new_key (w_ring w)) w, Ok (Status "rotated"))).

(** On SIGHUP; [env]: SECRET_KEY. *)
Definition reload_from_env (env : string) (w : world) : world :=
  if bool_decide (env = "") || bool_decide (env = kr_active (w_ring w)) then w else set_ring (Capabilities.rotate (w_now w) env (w_ring w)) w.

(** The service key of internal routes; [configured]: the keys that are set. *)
Definition verify_api_key (configured : list string) (test_mode : bool) (key : option string) : result http_error string :=
  let valid := List.filter (fun k => bool_decide (k <> "")) (configured ++ (if test_mode then ["test-api-key-for-pytest-only"] else [])) in
  let accepted := match key with Some k => bool_decide (k ∈ valid) | None => false end in
  if negb test_mode && bool_decide (valid = []) then Err (Http 503 "API key authentication not configured")
  else match key with Some k => if accepted then Ok k else Err (Http 401 "Invalid API key") | None => Err (Http 401 "Invalid API key") end.

(** ** What the deployment itself does

    The command [promote-admin], and two steps of start-up: an address and, in development,
    a service key that are configured are made an operator's. *)

Definition promote_admin (email : string) (w : world) : world :=
  match find_email email w with
  | None => w
  | Some u => if u_admin u then w else put_user (with_admin u) w
  end.

Definition bootstrap_admin_email (email : string) (w : world) : world :=
  if bool_decide (email = "") then w
  else match find_email email w with
       | None => w
       | Some u => if u_admin u then w else put_user (with_admin u) w
       end.

(** [query(User).first()]: some row; [pick] is the one the database answers. *)
Definition first_user (pick : nat) (w : world) : option user :=
  match w_users w !! pick with Some u => Some u | None => head (w_users w) end.

Definition DEV_KEY : string := "dev-key".

(** [id], [key_id]: of the rows it adds. *)
Definition ensure_dev_api_key (raw id key_id : string) (pick : nat) (w : world) : world :=
  if bool_decide (raw = "") then w
  else match head (List.filter (fun k => bool_decide (k_hash k = o_digest O raw)) (w_keys w)) with
       | Some existing =>
           match find_user (k_user existing) w with
           | Some u => if u_admin u then w else put_user (with_admin u) w
           | None => w
           end
       | None =>
           let '(owner, w1) :=
             match first_user pick w with
             | None => (id, set_users (w_users w ++ [User id "dev@aindy.local" None "dev" true true 0 false None]) w)
             | Some u => (u_id u, if u_admin u then w else put_user (with_admin u) w)
             end in
           if existsb (fun x => k_active x && bool_decide (k_user x = owner) && bool_decide (k_name x = DEV_KEY)) (w_keys w1) then w1
           else set_keys (w_keys w1 ++ [ApiKey key_id owner DEV_KEY (take_str 12 raw) (o_digest O raw) [PLATFORM_ADMIN] true None None]) w1
       end.

(** [env]: ENV. *)
Definition bootstrap_dev_api_key (env raw id key_id : string) (pick : nat) (w : world) : world :=
  if bool_decide (env = "dev") then ensure_dev_api_key raw id key_id pick w else w.

(** ** Everything that happens *)

Inductive event :=
| Passes (seconds : Z)
| Reloads (env : string)
| Registers (id salt email password : string) (username : option string)
| Logs_in (email password : string)
| Verifies (token : string)
| Forgets (email : string) (limited : bool)
| Resets (token new_password salt : string)
| Logs_out (h : headers)
| Changes (h : headers) (current_password new_password salt : string)
| Invalidates (h : headers) (user_id : string)
| Promotes (h : headers) (user_id : string)
| Creates_key (h : headers) (id token name : string) (scopes : list string) (expires : option Z)
| Revokes_key (h : headers) (key_id : string)
| Rotates (h : headers) (new_key : string)
| Promotes_admin (email : string)
| Bootstraps_admin (email : string)
| Bootstraps_key (env raw id key_id : string) (pick : nat).

Definition happen (e : event) (w : world) : world * result http_error reply :=
  match e with
  | Passes d => (set_now (w_now w + d) w, Ok (Status ""))
  | Reloads env => (reload_from_env env w, Ok (Status ""))
  | Registers id salt email password username => register id salt email password username w
  | Logs_in email password => login email password w
  | Verifies token => verify_email token w
  | Forgets email limited => forgot_password email limited w
  | Resets token new salt => reset_password token new salt w
  | Logs_out h => logout h w
  | Changes h current new salt => change_password h current new salt w
  | Invalidates h id => admin_invalidate_sessions h id w
  | Promotes h id => promote_user h id w
  | Creates_key h id token name scopes expires => create_key h id token name scopes expires w
  | Revokes_key h id => revoke_key h id w
  | Rotates h new => rotate_secret_key h new w
  | Promotes_admin email => (promote_admin email w, Ok (Status ""))
  | Bootstraps_admin email => (bootstrap_admin_email email w, Ok (Status ""))
  | Bootstraps_key env raw id key_id pick => (bootstrap_dev_api_key env raw id key_id pick w, Ok (Status ""))
  end.

End auth.

(** ** What one event does to the tables *)

Definition known (w : world) : list string := map u_id (w_users w).

(** Versions are of the range the counter wraps in, and ids are keys. *)
Record users_ok (us : list user) : Prop := UsersOk {
  uo_keys : NoDup (map u_id us);
  uo_versions : Forall (fun u => 0 <= u_version u < 32767) us }.

(** One row changes, or one is added; [P]: whom the event makes an administrator. *)
Inductive users_step (P : string -> Prop) (us : list user) : list user -> Prop :=
| UsersSame : users_step P us us
| UserAdded u : u_id u ∉ map u_id us -> u_admin u = false \/ P (u_id u) -> 0 <= u_version u < 32767 -> users_step P us (us ++ [u])
| UserChanged u u' :
    u ∈ us -> u_id u' = u_id u -> u_active u' = u_active u -> u_version u' = u_version u \/ u_version u' = (u_version u + 1) mod 32767 ->
    u_admin u' = u_admin u \/ P (u_id u') -> users_step P us (map (fun x => if bool_decide (u_id x = u_id u') then u' else x) us).

(** A key is added, which [Q] allows, or keys are revoked. *)
Inductive keys_step (Q : api_key -> Prop) (ks : list api_key) : list api_key -> Prop :=
| KeysSame : keys_step Q ks ks
| KeyAdded k : Q k -> keys_step Q ks (ks ++ [k])
| KeysRevoked now id : keys_step Q ks (map (fun k => if bool_decide (k_id k = id) then revoked now k else k) ks).

(** The id a registration draws is new. *)
Definition fresh_id (e : event) (w : world) : Prop := match e with Registers id _ _ _ _ => id ∉ known w | _ => True end.

Section steps.
Context (O : outside).

Lemma find_user_in id w u : find_user id w = Some u -> u ∈ w_users w /\ u_id u = id.
Proof.
  unfold find_user. intros H. assert (Hu : u ∈ List.filter (fun u => bool_decide (u_id u = id)) (w_users w)) by (destruct (List.filter _ _); simplify_eq/=; left).
  apply list_elem_of_In, filter_In in Hu as [Hu e]. apply bool_decide_eq_true in e. by rewrite list_elem_of_In.
Qed.

Lemma find_email_in email w u : find_email email w = Some u -> u ∈ w_users w /\ u_email u = email.
Proof.
  unfold find_email. intros H. assert (Hu : u ∈ List.filter (fun u => bool_decide (u_email u = email)) (w_users w)) by (destruct (List.filter _ _); simplify_eq/=; left).
  apply list_elem_of_In, filter_In in Hu as [Hu e]. apply bool_decide_eq_true in e. by rewrite list_elem_of_In.
Qed.

Lemma find_sub_in v w u : find_sub O v w = Some u -> u ∈ w_users w.
Proof. unfold find_sub. destruct (parse_sub O v); [ | done ]. cbn. intros H. by apply find_user_in in H as []. Qed.

(** What does not touch the tables. *)
Definition same_tables (w w' : world) : Prop := w_users w' = w_users w /\ w_keys w' = w_keys w.

Lemma live_keys_tables w : same_tables w (live_keys w).1.
Proof. unfold live_keys. by destruct (verify_keys _ _). Qed.

Lemma get_current_user_tables h w : same_tables w (get_current_user O h w).1.
Proof.
  unfold get_current_user. destruct (h_platform_key h) as [ [ | c s ] | ]; [ | done | ]; (destruct (h_bearer h); [ | done ]); unfold decode_access_token;
    assert (L := live_keys_tables w); by destruct (live_keys w).
Qed.

Lemma put_user_step (P : string -> Prop) u u' w :
  u ∈ w_users w -> u_id u' = u_id u -> u_active u' = u_active u -> u_version u' = u_version u \/ u_version u' = (u_version u + 1) mod 32767 ->
  u_admin u' = u_admin u \/ P (u_id u') -> users_step P (w_users w) (w_users (put_user u' w)).
Proof. apply UserChanged. Qed.

(** An event changes the users or the keys in one of these ways. *)
Record one_step (P : string -> Prop) (Q : api_key -> Prop) (w w' : world) : Prop := OneStep {
  os_users : users_step P (w_users w) (w_users w');
  os_keys : keys_step Q (w_keys w) (w_keys w') }.

Lemma step_same P Q w w' : same_tables w w' -> one_step P Q w w'.
Proof. intros [e1 e2]. split; [rewrite e1 | rewrite e2]; constructor. Qed.

Lemma step_put P Q w w0 u u' w' :
  same_tables w w0 -> u ∈ w_users w0 -> u_id u' = u_id u -> u_active u' = u_active u -> u_version u' = u_version u \/ u_version u' = (u_version u + 1) mod 32767 ->
  u_admin u' = u_admin u \/ P (u_id u') -> same_tables (put_user u' w0) w' -> one_step P Q w w'.
Proof.
  intros [e1 e2] H Hi Ha Hv Hd [e3 e4]. split.
  - rewrite e3. rewrite <- e1. by apply (put_user_step P u).
  - rewrite e4. cbn [w_keys put_user set_users]. rewrite e2. constructor.
Qed.

Lemma same_refl w : same_tables w w.
Proof. done. Qed.

Lemma issue_tables u w : same_tables w (issue O u w).1.
Proof. done. Qed.

Lemma mail_tables m w : same_tables w (send_email O m w).
Proof. unfold send_email. by destruct (o_mail O). Qed.

Lemma verification_tables u w : same_tables w (send_verification_email O u w).
Proof. unfold send_verification_email, send_email. cbn. by destruct (o_mail O). Qed.

Lemma reset_mail_tables u w : same_tables w (send_reset_email O u w).
Proof. unfold send_reset_email, send_email. cbn. by destruct (o_mail O). Qed.

(** A verified link leaves the tables as they are. *)
Lemma email_token_tables t w : same_tables w (verify_email_token O t w).1.
Proof. unfold verify_email_token. assert (L := live_keys_tables w). by destruct (live_keys w). Qed.

Lemma reset_token_tables t w : same_tables w (verify_password_reset_token O t w).1.
Proof. unfold verify_password_reset_token. assert (L := live_keys_tables w). by destruct (live_keys w). Qed.

Section route.
Context (P : string -> Prop) (Q : api_key -> Prop).

Lemma register_step id salt email password username w : id ∉ known w -> one_step P Q w (register O id salt email password username w).1.
Proof.
  intros F. unfold register. destruct (_ <? _)%nat eqn:L; [by apply step_same | ]. destruct (find_email _ w) eqn:G; [apply step_same, mail_tables | ].
  unfold register_user. rewrite L, G. cbv zeta. cbn [fst].
  set (u := User _ _ _ _ _ _ _ _ _). destruct (verification_tables u (set_users (w_users w ++ [u]) w)) as [e1 e2]. split.
  - rewrite e1. apply UserAdded; [done | by left | done].
  - rewrite e2. constructor.
Qed.

Lemma login_step email password w : one_step P Q w (login O email password w).1.
Proof. apply step_same. unfold login. by destruct (authenticate_user _ _ _ _). Qed.

Lemma verify_email_step t w : one_step P Q w (verify_email O t w).1.
Proof.
  unfold verify_email, confirm_email_verification. assert (T := email_token_tables t w). destruct (verify_email_token O t w) as [ w' [ c | ] ]; cbn [fst] in T; [ | by apply step_same ].
  destruct (find_sub O (py_get "sub" c) w') as [ u | ] eqn:F; [ | by apply step_same ]. apply find_sub_in in F.
  destruct (negb (u_active u)); [by apply step_same | ]. destruct (u_verified u); [by apply step_same | ].
  apply (step_put P Q w w' u (with_verified (w_now w') u)); [done | done | done | done | by left | by left | done].
Qed.

Lemma forgot_step email limited w : one_step P Q w (forgot_password O email limited w).1.
Proof.
  apply step_same. unfold forgot_password. destruct (negb _); [done | ]. destruct limited; [done | ]. cbn [fst]. destruct (find_email _ w) as [ u | ]; [ | done ].
  destruct (u_active u); [apply reset_mail_tables | done].
Qed.

Lemma reset_step t new salt w : one_step P Q w (reset_password O t new salt w).1.
Proof.
  unfold reset_password, reset_password_with_token. assert (T := reset_token_tables t w).
  destruct (verify_password_reset_token O t w) as [ w' [ c | ] ]; cbn [fst] in T; [ | by apply step_same ].
  destruct (_ <? _)%nat; [by apply step_same | ]. destruct (find_sub O (py_get "sub" c) w') as [ u | ] eqn:F; [ | by apply step_same ]. apply find_sub_in in F.
  destruct (negb (u_active u)); [by apply step_same | ]. destruct (version_claim _ c); [ | by apply step_same ]. destruct (bool_decide _); [by apply step_same | ].
  apply (step_put P Q w w' u (bump_token_version (with_password (o_hash O salt new) u))); [done | done | done | done | by right | by left | done].
Qed.

(** A route of a caller makes the step its handler makes for whoever passes the gate. *)
Lemma caller_step h gate k w :
  (forall w' p, get_current_user O h w = (w', Ok p) -> gate p = Ok () -> one_step P Q w' (k p w').1) -> one_step P Q w (as_caller O h gate k w).1.
Proof.
  intros H. unfold as_caller. assert (T := get_current_user_tables h w). destruct (get_current_user O h w) as [ w' [ p | ] ]; cbn [fst] in T; [ | by apply step_same ].
  destruct (gate p) as [ [] | ] eqn:G; [ | by apply step_same ]. specialize (H w' p eq_refl G). destruct T as [e1 e2]. destruct H as [U K]. rewrite e1 in U. rewrite e2 in K. by split.
Qed.

Lemma logout_step h w : one_step P Q w (logout O h w).1.
Proof.
  apply caller_step. intros w' p _ _. destruct (is_api_key_principal p); [by apply step_same | ]. cbn [fst]. destruct (find_sub O _ w') as [ u | ] eqn:F; [ | by apply step_same ].
  apply find_sub_in in F. apply (step_put P Q w' w' u (bump_token_version u)); [done | done | done | done | by right | by left | done].
Qed.

Lemma change_step h cur new salt w : one_step P Q w (change_password O h cur new salt w).1.
Proof.
  apply caller_step. intros w' p _ _. destruct (is_api_key_principal p); [by apply step_same | ]. destruct (parse_sub O _) as [ id | ]; [ | by apply step_same ].
  unfold change_user_password. destruct (find_user id w') as [ u | ] eqn:F; [ | by apply step_same ]. apply find_user_in in F as [F _].
  destruct (negb (u_active u)); [by apply step_same | ]. destruct (verify_password O cur _) as [ [] | ]; [ | by apply step_same | by apply step_same ].
  destruct (_ <? _)%nat; [by apply step_same | ]. destruct (verify_password O new _) as [ [] | ]; [by apply step_same | | by apply step_same ].
  apply (step_put P Q w' w' u (bump_token_version (with_password (o_hash O salt new) u))); [done | done | done | done | by right | by left | done].
Qed.

Lemma invalidate_step h id w : one_step P Q w (admin_invalidate_sessions O h id w).1.
Proof.
  apply caller_step. intros w' p _ _. destruct (parse_user_id id) as [ k | ]; [ | by apply step_same ]. destruct (find_user k w') as [ u | ] eqn:F; [ | by apply step_same ].
  apply find_user_in in F as [F _]. apply (step_put P Q w' w' u (bump_token_version u)); [done | done | done | done | by right | by left | done].
Qed.

Lemma rotate_step h new w : one_step P Q w (rotate_secret_key O h new w).1.
Proof. apply caller_step. intros w' p _ _. apply step_same. destruct (_ <? _)%nat; [done | ]. by destruct (bool_decide _). Qed.

Lemma revoke_step h id w : one_step P Q w (revoke_key O h id w).1.
Proof.
  apply caller_step. intros w' p _ _. unfold revoke_api_key. destruct (parse_uuid id); [ | by apply step_same ]. destruct (parse_uuid (sub_text O p)); [ | by apply step_same ].
  destruct (head _) as [ r | ]; [ | by apply step_same ]. cbn [fst]. split; [constructor | apply KeysRevoked].
Qed.
End route.

(** An operator asked for it. *)
Definition by_operator (h : headers) (w : world) (p : principal) : Prop := (exists w', get_current_user O h w = (w', Ok p)) /\ is_operator_principal p = true.

Definition promoted_by_operator (e : event) (w : world) (id : string) : Prop :=
  exists h user_id p, e = Promotes h user_id /\ parse_uuid user_id = Some id /\ by_operator h w p.

(** The deployment asked for it: the command or the configured address names the user, or
    the user is the owner of the development key. *)
Definition promoted_by_deployment (e : event) (w : world) (id : string) : Prop :=
  match e with
  | Promotes_admin email => exists u, find_email email w = Some u /\ u_id u = id
  | Bootstraps_admin email => email <> "" /\ exists u, find_email email w = Some u /\ u_id u = id
  | Bootstraps_key env raw new _ pick =>
      env = "dev" /\ raw <> "" /\
      match head (List.filter (fun k => bool_decide (k_hash k = o_digest O raw)) (w_keys w)) with
      | Some existing => k_user existing = id
      | None => match first_user pick w with Some u => u_id u = id | None => id = new end
      end
  | _ => False
  end.

Definition made_admin (e : event) (w : world) (id : string) : Prop := promoted_by_operator e w id \/ promoted_by_deployment e w id.

(** The caller who asked for the key is an operator, owns it, and holds its scopes. *)
Definition key_by_operator (e : event) (w : world) (k : api_key) : Prop :=
  exists h id token name scopes expires p, e = Creates_key h id token name scopes expires /\ by_operator h w p /\
    k_id k = id /\ k_hash k = o_digest O (KEY_PREFIX +:+ token) /\
    parse_uuid (sub_text O p) = Some (k_user k) /\ k_scopes k = scopes /\ Forall (fun x => x ∈ grantable_scopes p) (k_scopes k).

(** The development key of a configured secret. *)
Definition key_by_deployment (e : event) (w : world) (k : api_key) : Prop :=
  exists env raw id pick, e = Bootstraps_key env raw id (k_id k) pick /\ env = "dev" /\ raw <> "" /\
    k_hash k = o_digest O raw /\ k_scopes k = [PLATFORM_ADMIN] /\
    k_user k = match first_user pick w with Some u => u_id u | None => id end.

Definition made_key (e : event) (w : world) (k : api_key) : Prop := key_by_operator e w k \/ key_by_deployment e w k.

Lemma platform_admins_operator p : platform_admins O p = Ok () -> is_operator_principal p = true.
Proof.
  unfold platform_admins, require_platform_admin_access, enforce_scope, is_operator_principal. destruct (is_api_key_principal p); cbn [result_bind].
  - destruct (_ && _) eqn:A; [done | ]. intros _. apply andb_false_iff in A as [A%negb_false_iff | A%negb_false_iff]; [ | done ].
    apply existsb_exists in A as (x & Hx & e). apply bool_decide_eq_true in e. apply list_elem_of_singleton in e as ->. apply bool_decide_eq_true. by apply list_elem_of_In.
  - by destruct (py_truth _).
Qed.

Lemma promote_step h id w : one_step (promoted_by_operator (Promotes h id) w) (fun _ => False) w (promote_user O h id w).1.
Proof.
  apply caller_step. intros w' p G A. destruct (_ ≫= _) as [ u | ] eqn:F; [ | by apply step_same ].
  destruct (parse_uuid id) as [ k | ] eqn:E; [ | done ]. cbn in F. apply find_user_in in F as [F Hid]. destruct (u_admin u); [by apply step_same | ].
  eapply (step_put _ _ w' w' u (with_admin u)); [done | done | done | done | by left | right | done].
  exists h, id, p. split_and!; [done | by rewrite E, <- Hid | ]. split; [by exists w' | ]. unfold operators, require_admin_principal in A. by destruct (is_operator_principal p).
Qed.

(** Making a row an administrator's. *)
Lemma grant_step (P : string -> Prop) Q w u : u ∈ w_users w -> P (u_id u) -> one_step P Q w (if u_admin u then w else put_user (with_admin u) w).
Proof. intros H HP. destruct (u_admin u); [by apply step_same | ]. eapply (step_put _ _ w w u (with_admin u)); try done; [by left | by right]. Qed.

Lemma first_user_in pick w u : first_user pick w = Some u -> u ∈ w_users w.
Proof.
  unfold first_user. destruct (w_users w !! pick) eqn:E; [intros [= <-]; by eapply list_elem_of_lookup_2 | ]. destruct (w_users w); [done | ]. intros [= ->]. left.
Qed.

Lemma dev_key_step env raw id key_id pick w :
  one_step (promoted_by_deployment (Bootstraps_key env raw id key_id pick) w) (key_by_deployment (Bootstraps_key env raw id key_id pick) w)
    w (bootstrap_dev_api_key O env raw id key_id pick w).
Proof.
  unfold bootstrap_dev_api_key. case_bool_decide as E; [ | by apply step_same ]. unfold ensure_dev_api_key. case_bool_decide as R; [by apply step_same | ].
  set (P := promoted_by_deployment _ _). set (Q := key_by_deployment _ _).
  destruct (head _) as [ x | ] eqn:X.
  - destruct (find_user (k_user x) w) as [ u | ] eqn:F; [ | by apply step_same ]. apply find_user_in in F as [F Hid]. apply grant_step; [done | ].
    unfold P. cbn. rewrite X. split_and!; auto.
  - assert (N : forall w1 owner, one_step P Q w w1 -> w_keys w1 = w_keys w -> owner = match first_user pick w with Some u => u_id u | None => id end ->
      one_step P Q w (if existsb (fun x => k_active x && bool_decide (k_user x = owner) && bool_decide (k_name x = DEV_KEY)) (w_keys w1) then w1
        else set_keys (w_keys w1 ++ [ApiKey key_id owner DEV_KEY (take_str 12 raw) (o_digest O raw) [PLATFORM_ADMIN] true None None]) w1)).
    { intros w1 owner S K Eo. destruct (existsb _ _); [done | ]. split; [apply S | ]. cbn. rewrite K. apply KeyAdded. exists env, raw, id, pick. by split_and!. }
    destruct (first_user pick w) as [ u | ] eqn:F; cbn zeta beta; apply N; try done.
    + apply grant_step; [by eapply first_user_in | ]. unfold P. cbn. rewrite X, F. by split_and!.
    + by destruct (u_admin u).
    + split; [ | constructor ]. cbn. unfold first_user in F. destruct (w_users w !! pick) eqn:L; [done | ]. destruct (w_users w) eqn:U; [ | done ].
      apply (UserAdded _ [] (User id _ _ _ _ _ _ _ _)); cbn; [apply not_elem_of_nil | right | lia]. unfold P. cbn. rewrite X. unfold first_user. rewrite U. cbn.
      by destruct pick.
Qed.

Lemma existsb_negb {A} (p : A -> bool) l : existsb (fun x => negb (p x)) l = false -> Forall (fun x => p x = true) l.
Proof. induction l as [ | x l IH ]; [constructor | ]. cbn. intros [H%negb_false_iff H2]%orb_false_iff. constructor; auto. Qed.

Lemma create_step h id token name scopes expires w :
  one_step (fun _ => False) (key_by_operator (Creates_key h id token name scopes expires) w) w (create_key O h id token name scopes expires w).1.
Proof.
  apply caller_step. intros w' p G A. destruct (existsb _ scopes); [by apply step_same | ]. destruct (existsb _ scopes) eqn:X; [by apply step_same | ]. apply existsb_negb in X.
  unfold create_api_key. destruct (parse_uuid (sub_text O p)) as [ uid | ] eqn:U; [ | by apply step_same ]. destruct (existsb _ (w_keys w')); [by apply step_same | ].
  cbn [fst]. split; [constructor | ]. apply KeyAdded. exists h, id, token, name, scopes, expires, p. split_and!; [done | | done | done | done | done | ].
  - split; [by exists w' | by apply platform_admins_operator].
  - cbn. apply (Forall_impl _ _ _ X). intros x Hx. by apply bool_decide_eq_true in Hx.
Qed.

Lemma step_weaken (P P' : string -> Prop) (Q Q' : api_key -> Prop) w w' : (forall id, P id -> P' id) -> (forall k, Q k -> Q' k) -> one_step P Q w w' -> one_step P' Q' w w'.
Proof.
  intros HP HQ [U K]. split; [destruct U | destruct K]; econstructor; eauto; naive_solver.
Qed.

Lemma happen_step e w : fresh_id e w -> one_step (made_admin e w) (made_key e w) w (happen O e w).1.
Proof.
  intros F. destruct e; cbn [happen].
  - by apply step_same.
  - apply step_same. unfold reload_from_env. by destruct (_ || _).
  - by apply register_step.
  - apply login_step.
  - apply verify_email_step.
  - apply forgot_step.
  - apply reset_step.
  - apply logout_step.
  - apply change_step.
  - apply invalidate_step.
  - eapply step_weaken; [ | | apply promote_step ]; [by left | done].
  - eapply step_weaken; [ | | apply create_step ]; [done | by left].
  - apply revoke_step.
  - apply rotate_step.
  - unfold promote_admin. cbn [fst]. destruct (find_email email w) as [ u | ] eqn:E; [ | by apply step_same ].
    apply grant_step; [apply (find_email_in _ _ _ E) | ]. right. by exists u.
  - unfold bootstrap_admin_email. cbn [fst]. case_bool_decide as N; [by apply step_same | ]. destruct (find_email email w) as [ u | ] eqn:E; [ | by apply step_same ].
    apply grant_step; [apply (find_email_in _ _ _ E) | ]. right. split; [done | by exists u].
  - eapply step_weaken; [ | | apply dev_key_step ]; by right.
Qed.
End steps.

(** ** Sessions end *)

Section versions.
Context (O : outside).

Definition version_of (id : string) (w : world) : option Z := u_version <$> find_user id w.

Lemma find_app_other id us (u : user) : u_id u ∉ map u_id us -> id ∈ map u_id us ->
  head (List.filter (fun x => bool_decide (u_id x = id)) (us ++ [u])) = head (List.filter (fun x => bool_decide (u_id x = id)) us).
Proof.
  intros F I. rewrite List.filter_app. cbn [List.filter]. rewrite (bool_decide_false (u_id u = id)) by (intros e; rewrite e in F; done). by rewrite app_nil_r.
Qed.

Lemma find_mapped id us u' : 
  head (List.filter (fun x => bool_decide (u_id x = id)) (map (fun x => if bool_decide (u_id x = u_id u') then u' else x) us))
  = (fun x => if bool_decide (u_id x = u_id u') then u' else x) <$> head (List.filter (fun x => bool_decide (u_id x = id)) us).
Proof.
  induction us as [ | x us IH ]; [done | ]. cbn [map List.filter]. destruct (decide (u_id x = u_id u')) as [ e | n ].
  - rewrite (bool_decide_true (u_id x = u_id u')) by done. replace (bool_decide (u_id u' = id)) with (bool_decide (u_id x = id)) by by rewrite e.
    destruct (bool_decide (u_id x = id)); [cbn; by rewrite bool_decide_true | done].
  - rewrite (bool_decide_false (u_id x = u_id u')) by done. destruct (bool_decide (u_id x = id)); [cbn; by rewrite bool_decide_false | done].
Qed.

(** A row stays, active as it was, and its version moves by one at most. *)
Lemma step_row P Q w w' id u : one_step P Q w w' -> users_ok (w_users w) -> find_user id w = Some u ->
  exists u', find_user id w' = Some u' /\ u_id u' = id /\ u_active u' = u_active u /\
    (u_version u' = u_version u \/ u_version u' = (u_version u + 1) mod 32767) /\ (u_admin u' = u_admin u \/ P id).
Proof.
  intros [U _] K F. assert (Fi := find_user_in _ _ _ F). destruct Fi as [Hu Hi]. unfold find_user in *. inversion U as [ e | v Nv Av Vv e | v v' Hv Iv Acv Vv Adv e ].
  - rewrite F. exists u. split_and!; auto.
  - rewrite find_app_other; [ | done | rewrite <- Hi; by apply list_elem_of_fmap_2 ]. rewrite F. exists u. split_and!; auto.
  - rewrite find_mapped, F. cbn. destruct (bool_decide (u_id u = u_id v')) eqn:B.
    + apply bool_decide_eq_true in B. exists v'. assert (u = v) as -> by (destruct K as [K _]; apply (NoDup_map_inj u_id (w_users w)); [done | done | done | congruence]). split_and!; auto; congruence.
    + exists u. split_and!; auto.
Qed.

Lemma step_users_ok P us us' : users_step P us us' -> users_ok us -> users_ok us'.
Proof.
  intros U [K V]. destruct U as [ | u N A R | u u' Hu I A R D ]; [done | | ].
  - split; [ | apply Forall_app; split; [done | by constructor] ]. rewrite map_app. apply NoDup_app. split_and!; [done | | apply NoDup_singleton]. intros x Hx e%list_elem_of_singleton. by subst.
  - split.
    + rewrite map_map. erewrite map_ext; [exact K | ]. intros x. cbn. by case_bool_decide.
    + rewrite Forall_map. rewrite Forall_forall in V |- *. intros x Hx. case_bool_decide; [ | by apply V ]. destruct R as [ -> | -> ]; [by apply V | ]. apply Z.mod_pos_bound. lia.
Qed.

(** Events, of which [n] moved the version of the user [id]. *)
Inductive history (id : string) (w : world) : Z -> world -> Prop :=
| HistoryStart : history id w 0 w
| HistoryStep n e w1 :
    history id w n w1 -> fresh_id e w1 ->
    history id w (if bool_decide (version_of id (happen O e w1).1 = version_of id w1) then n else n + 1) (happen O e w1).1.

Lemma history_version id w n w' u : users_ok (w_users w) -> find_user id w = Some u -> history id w n w' ->
  users_ok (w_users w') /\ 0 <= n /\ exists u', find_user id w' = Some u' /\ u_active u' = u_active u /\ u_version u' = (u_version u + n) mod 32767.
Proof.
  intros K F H. induction H as [ | n e w1 H (K1 & N & u1 & F1 & A1 & V1) I ].
  - assert (R := proj1 (find_user_in _ _ _ F)). assert (V := uo_versions _ K). rewrite Forall_forall in V. apply V in R. split_and!; [done | done | ]. exists u. split_and!; [done | done | ].
    rewrite Z.mod_small; lia.
  - assert (S := happen_step O e w1 I). destruct (step_row _ _ _ _ _ _ S K1 F1) as (u2 & F2 & _ & A2 & V2 & _). split; [by apply (step_users_ok _ _ _ (os_users _ _ _ _ S)) | ].
    unfold version_of. rewrite F1, F2. cbn [fmap option_fmap option_map].
    assert (R : 0 <= u_version u1 < 32767) by (rewrite V1; apply Z.mod_pos_bound; lia).
    assert (E : (u_version u1 + 1) mod 32767 <> u_version u1).
    { destruct (decide (u_version u1 = 32766)) as [ e1 | ]; [by rewrite e1 | rewrite Z.mod_small; lia]. }
    destruct V2 as [ V2 | V2 ].
    + rewrite bool_decide_true by congruence. split; [done | ]. exists u2. split_and!; [done | congruence | congruence].
    + rewrite bool_decide_false by (intros e1; injection e1 as e1; congruence). split; [lia | ]. exists u2. split_and!; [done | congruence | ].
      rewrite V2, V1, Z.add_mod_idemp_l by lia. f_equal. lia.
Qed.

(** ** What a token is accepted for *)

(** A token carries one payload, whatever key it is read with and whenever. *)
Definition one_payload : Prop := forall now now' t k k' c c', o_decode O now t k = Some c -> o_decode O now' t k' = Some c' -> c = c'.

Lemma decode_for_key purpose t now keys c : decode_for O purpose t now keys = Some c ->
  exists k, k ∈ keys /\ o_decode O now t k = Some c /\ py_eq (py_get "purpose" c) (VStr purpose) = true.
Proof.
  induction keys as [ | k keys IH ]; cbn [decode_for]; [done | ]. destruct (o_decode O now t k) as [ c' | ] eqn:D.
  - destruct (py_eq (py_get "purpose" c') _) eqn:P; [ | done ]. intros e. simplify_eq. exists k. split_and!; [by left | done | done].
  - intros (k' & Hk & H)%IH. exists k'. split; [by right | done].
Qed.

Definition session (t : string) : headers := Headers (Some t) None.

Lemma live_keys_same w : w_users (live_keys w).1 = w_users w /\ w_now (live_keys w).1 = w_now w /\ w_signed (live_keys w).1 = w_signed w.
Proof. unfold live_keys. by destruct (verify_keys _ _). Qed.

Lemma find_user_users id w w' : w_users w' = w_users w -> find_user id w' = find_user id w.
Proof. unfold find_user. by intros ->. Qed.

Lemma resolve_users c w w' : w_users w' = w_users w -> resolve_authenticated_jwt_user O c w' = resolve_authenticated_jwt_user O c w.
Proof. intros e. unfold resolve_authenticated_jwt_user. destruct (parse_sub O _); [ | done ]. by rewrite (find_user_users _ _ _ e). Qed.

(** Why a session is accepted. *)
Lemma session_accepted t w w' p : get_current_user O (session t) w = (w', Ok p) ->
  exists k c id u, k ∈ (live_keys w).2 /\ o_decode O (w_now w) t k = Some c /\ py_eq (py_get "purpose" c) (VStr ACCESS_TOKEN_PURPOSE) = true /\
    parse_sub O (py_get "sub" c) = Some id /\ find_user id w = Some u /\ version_claim 0 c = Ok (u_version u) /\ u_active u = true /\
    p = session_principal u c.
Proof.
  unfold get_current_user, session, decode_access_token. cbn [h_platform_key h_bearer]. destruct (live_keys_same w) as (Us & _ & _). destruct (live_keys w) as [ w1 keys ] eqn:L. cbn in Us.
  destruct (decode_for _ _ _ _ _) as [ c | ] eqn:D; [ | done ]. cbn [result_bind]. intros e. injection e as e R. apply decode_for_key in D as (k & Hk & D & Pu).
  assert (R' : resolve_authenticated_jwt_user O c w = Ok p) by by rewrite <- (resolve_users _ _ _ Us).
  unfold resolve_authenticated_jwt_user in R'. destruct (parse_sub O _) as [ id | ] eqn:S; [ | done ]. destruct (find_user id w) as [ u | ] eqn:F; [ | done ].
  destruct (version_claim 0 c) as [ tv | ] eqn:V; [ | done ]. cbn [result_bind] in R'. case_bool_decide as B; [done | ]. destruct (u_active u) eqn:A; [ | done ].
  exists k, c, id, u. cbn [negb] in R'. injection R' as R'. split_and!; try done. by rewrite V, B.
Qed.

Lemma mod_differs v n : 0 <= v < 32767 -> 0 < n < 32767 -> (v + n) mod 32767 <> v.
Proof.
  intros Hv Hn. destruct (decide (v + n < 32767)); [rewrite Z.mod_small; lia | ]. rewrite <- (Z_mod_plus_full (v + n) (-1) 32767), Z.mod_small; lia.
Qed.

(** Why a reset link is accepted. *)
Lemma reset_accepted t new salt w w' : reset_password O t new salt w = (w', Ok (Status "password_reset")) ->
  exists k c id u, k ∈ map (fun k => o_derive O k PASSWORD_RESET_DOMAIN) (live_keys w).2 /\ o_decode O (w_now w) t k = Some c /\
    parse_sub O (py_get "sub" c) = Some id /\ find_user id w = Some u /\ version_claim (-1) c = Ok (u_version u) /\ u_active u = true /\
    w_users w' = map (fun x => if bool_decide (u_id x = id) then bump_token_version (with_password (o_hash O salt new) u) else x) (w_users w).
Proof.
  unfold reset_password, reset_password_with_token, verify_password_reset_token. destruct (live_keys_same w) as (Us & _ & _). destruct (live_keys w) as [ w1 keys ] eqn:L. cbn in Us.
  destruct (decode_for _ _ _ _ _) as [ c | ] eqn:D; [ | done ]. apply decode_for_key in D as (k & Hk & D & _).
  destruct (_ <? _)%nat; [done | ]. unfold find_sub. destruct (parse_sub O (py_get "sub" c)) as [ id | ] eqn:S; [ | done ]. cbn [mbind option_bind].
  rewrite (find_user_users _ _ _ Us). destruct (find_user id w) as [ u | ] eqn:F; [ | done ]. destruct (u_active u) eqn:A; [ | done ]. cbn [negb].
  destruct (version_claim _ c) as [ tv | ] eqn:V; [ | done ]. case_bool_decide as B; [done | ]. intros e. injection e as e.
  exists k, c, id, u. split_and!; try done; [rewrite V; f_equal; destruct (decide (tv = u_version u)); [done | by destruct B] | ].
  rewrite <- e. cbn [w_users put_user set_users]. rewrite Us. by rewrite <- (proj2 (find_user_in _ _ _ F)).
Qed.
End versions.

(** C6: once the version of a user has moved (a logout, a password change or reset, an
    invalidation by an operator), a session token that was accepted before is refused, as
    long as the version has moved at most 32766 times in all since then; a reset link that
    was used is refused as long as the version has moved at most 32765 times after that
    use. One move more and the version is back ([version_wraps]). *)
Theorem sessions_and_links_end O (Hp : one_payload O) t id w n w2 (Hw : users_ok (w_users w)) :
  (forall w1 p, get_current_user O (session t) w = (w1, Ok p) -> py_get "user_id" p = VStr id -> history O id w n w2 -> 0 < n < 32767 ->
     exists e, (get_current_user O (session t) w2).2 = Err e) /\
  (forall new salt w1 now k c, reset_password O t new salt w = (w1, Ok (Status "password_reset")) ->
     o_decode O now t k = Some c -> parse_sub O (py_get "sub" c) = Some id ->
     history O id w1 n w2 -> n < 32766 -> forall new2 salt2, (reset_password O t new2 salt2 w2).2 <> Ok (Status "password_reset")).
Proof.
  split.
  - intros w1 p G Hi Hh Hn. apply session_accepted in G as (k & c & id' & u & _ & D & _ & S & F & V & _ & ->).
    assert (u_id u = id) as Hid by (cbn in Hi; unfold session_principal in Hi; rewrite !py_get_set_ne in Hi by done; rewrite py_get_set_eq in Hi; congruence).
    assert (id' = id) as -> by (rewrite <- Hid; symmetry; apply (find_user_in _ _ _ F)).
    destruct (history_version O id w n w2 u Hw F Hh) as (_ & _ & u2 & F2 & _ & V2).
    destruct (get_current_user O (session t) w2) as [ w3 [ p' | e ] ] eqn:G2; [ | by exists e ]. exfalso.
    apply session_accepted in G2 as (k2 & c2 & id2 & u2' & _ & D2 & _ & S2 & F2' & V2' & _ & _). rewrite <- (Hp _ _ _ _ _ _ _ D D2) in S2, V2'.
    rewrite S in S2. injection S2 as <-. rewrite F2 in F2'. injection F2' as <-. rewrite V in V2'. injection V2' as V2'.
    assert (R := uo_versions _ Hw). rewrite Forall_forall in R. apply (mod_differs (u_version u) n (R u (proj1 (find_user_in _ _ _ F))) Hn). congruence.
  - intros new salt w1 now k0 c G Hc Hs Hh Hn new2 salt2 G2.
    apply reset_accepted in G as (k & c1 & id1 & u & _ & D & S & F & V & _ & U).
    rewrite (Hp _ _ _ _ _ _ _ D Hc) in *. rewrite Hs in S. injection S as <-.
    assert (Fi := find_user_in _ _ _ F). destruct Fi as [Hu Hid].
    set (u1 := bump_token_version (with_password (o_hash O salt new) u)) in U.
    assert (F1 : find_user id w1 = Some u1).
    { unfold find_user in F |- *. rewrite U, <- Hid. change (u_id u) with (u_id u1). rewrite find_mapped. change (u_id u1) with (u_id u). rewrite Hid, F. cbn. by rewrite Hid, bool_decide_true. }
    assert (K1 : users_ok (w_users w1)).
    { rewrite U. rewrite <- Hid. apply (step_users_ok (fun _ => True) (w_users w)); [ | done ]. apply (UserChanged (fun _ => True) (w_users w) u u1); [done | done | done | by right | by left]. }
    destruct (history_version O id w1 n w2 u1 K1 F1 Hh) as (_ & Nn & u2 & F2 & _ & V2).
    destruct (reset_password O t new2 salt2 w2) as [ w3 r ] eqn:G3. cbn in G2. subst r.
    apply reset_accepted in G3 as (k2 & c2 & id2 & u2' & _ & D2 & S2 & F2' & V2' & _ & _). rewrite (Hp _ _ _ _ _ _ _ D2 Hc) in *.
    rewrite Hs in S2. injection S2 as <-. rewrite F2 in F2'. injection F2' as <-. rewrite V in V2'. injection V2' as V2'.
    assert (R := uo_versions _ Hw). rewrite Forall_forall in R. apply (mod_differs (u_version u) (n + 1) (R u Hu)); [lia | ].
    rewrite V2 in V2'. cbn [u_version u1 bump_token_version with_password] in V2'. rewrite Z.add_mod_idemp_l in V2' by lia. symmetry. etransitivity; [exact V2' | ]. f_equal. lia.
Qed.

(** ** What was signed *)

Definition access_claims (id email : string) (admin : bool) (tv exp : Z) : claims :=
  [("sub", VStr id); ("email", VStr email); ("is_admin", VBool admin); ("tv", VInt tv); ("purpose", VStr ACCESS_TOKEN_PURPOSE); ("exp", VInt exp)].

(** The payloads the service signs. *)
Inductive genuine : claims -> Prop :=
| GenuineAccess id email admin tv exp : genuine (access_claims id email admin tv exp)
| GenuineVerify id exp : genuine [("sub", VStr id); ("purpose", VStr EMAIL_VERIFY_PURPOSE); ("exp", VInt exp)]
| GenuineReset id tv exp : genuine [("sub", VStr id); ("tv", VInt tv); ("purpose", VStr PASSWORD_RESET_PURPOSE); ("exp", VInt exp)].

Definition signed_ok (w : world) : Prop := Forall (fun kc => genuine kc.2) (w_signed w).

Section signing.
Context (O : outside).

Lemma signed_more k c w w' : w_signed w' = w_signed w -> genuine c -> signed_ok w -> signed_ok (add_signed k c w').
Proof. intros e G H. unfold signed_ok. cbn. rewrite e. apply Forall_app. split; [done | by constructor]. Qed.

Lemma signed_same w w' : w_signed w' = w_signed w -> signed_ok w -> signed_ok w'.
Proof. unfold signed_ok. by intros ->. Qed.

Lemma issue_signed u w : signed_ok w -> signed_ok (issue O u w).1.
Proof. apply (signed_more _ _ w w eq_refl). apply (GenuineAccess (u_id u) (u_email u) (u_admin u)). Qed.

Lemma mail_signed m w : signed_ok w -> signed_ok (send_email O m w).
Proof. unfold send_email. by destruct (o_mail O). Qed.

Lemma verification_signed u w : signed_ok w -> signed_ok (send_verification_email O u w).
Proof.
  intros H. unfold send_verification_email, create_email_verification_token, sign. apply mail_signed, (signed_more _ _ w w eq_refl); [constructor | done].
Qed.

Lemma reset_mail_signed u w : signed_ok w -> signed_ok (send_reset_email O u w).
Proof.
  intros H. unfold send_reset_email, create_password_reset_token, sign. apply mail_signed, (signed_more _ _ w w eq_refl); [constructor | done].
Qed.

Lemma live_keys_signed w : signed_ok w -> signed_ok (live_keys w).1.
Proof. apply signed_same, live_keys_same. Qed.

Lemma get_current_user_signed h w : signed_ok w -> signed_ok (get_current_user O h w).1.
Proof.
  intros H. unfold get_current_user. destruct (h_platform_key h) as [ [ | c s ] | ]; [ | done | ]; (destruct (h_bearer h); [ | done ]); unfold decode_access_token;
    assert (L := live_keys_signed w H); by destruct (live_keys w).
Qed.

Lemma caller_signed h gate k w : (forall p w', signed_ok w' -> signed_ok (k p w').1) -> signed_ok w -> signed_ok (as_caller O h gate k w).1.
Proof.
  intros Hk H. unfold as_caller. assert (G := get_current_user_signed h w H). destruct (get_current_user O h w) as [ w' [ p | ] ]; [ | done ]. destruct (gate p); [by apply Hk | done].
Qed.

Lemma happen_signed e w : signed_ok w -> signed_ok (happen O e w).1.
Proof.
  intros H. destruct e; cbn [happen].
  - done.
  - unfold reload_from_env. by destruct (_ || _).
  - unfold register. destruct (_ <? _)%nat eqn:L; [done | ]. destruct (find_email _ w) eqn:F; [unfold send_email; by destruct (o_mail O) | ]. unfold register_user. rewrite L, F.
    by apply verification_signed.
  - unfold login. destruct (authenticate_user _ _ _ _); [by apply issue_signed | done].
  - unfold verify_email, confirm_email_verification, verify_email_token. assert (L := live_keys_signed w H). destruct (live_keys w) as [ w1 keys ]. cbn in L.
    destruct (decode_for _ _ _ _ _) as [ c | ]; [ | done ]. destruct (find_sub O _ w1) as [ u | ]; [ | done ]. destruct (negb _); [done | ]. destruct (u_verified u); by apply issue_signed.
  - unfold forgot_password. destruct (negb _); [done | ]. destruct limited; [done | ]. cbn [fst]. destruct (find_email _ w) as [ u | ]; [ | done ]. destruct (u_active u); [by apply reset_mail_signed | done].
  - unfold reset_password, reset_password_with_token, verify_password_reset_token. assert (L := live_keys_signed w H). destruct (live_keys w) as [ w1 keys ]. cbn in L.
    destruct (decode_for _ _ _ _ _) as [ c | ]; [ | done ]. destruct (_ <? _)%nat; [done | ]. destruct (find_sub O _ w1) as [ u | ]; [ | done ]. destruct (negb _); [done | ].
    destruct (version_claim _ c); [ | done ]. by destruct (bool_decide _).
  - apply caller_signed; [ | done ]. intros p w' H'. destruct (is_api_key_principal p); [done | ]. by destruct (find_sub O _ w').
  - apply caller_signed; [ | done ]. intros p w' H'. destruct (is_api_key_principal p); [done | ]. destruct (parse_sub O _); [ | done ]. unfold change_user_password.
    destruct (find_user _ w') as [ u | ]; [ | done ]. destruct (negb _); [done | ]. destruct (verify_password O _ _) as [ [] | ]; [ | done | done ]. destruct (_ <? _)%nat; [done | ].
    destruct (verify_password O _ _) as [ [] | ]; [done | | done]. by apply issue_signed.
  - apply caller_signed; [ | done ]. intros p w' H'. destruct (parse_user_id _); [ | done ]. by destruct (find_user _ w').
  - apply caller_signed; [ | done ]. intros p w' H'. destruct (_ ≫= _) as [ u | ]; [ | done ]. by destruct (u_admin u).
  - apply caller_signed; [ | done ]. intros p w' H'. destruct (existsb _ scopes); [done | ]. destruct (existsb _ scopes); [done | ]. unfold create_api_key.
    destruct (parse_uuid _); [ | done ]. by destruct (existsb _ (w_keys w')).
  - apply caller_signed; [ | done ]. intros p w' H'. unfold revoke_api_key. destruct (parse_uuid key_id); [ | done ]. destruct (parse_uuid _); [ | done ]. by destruct (head _).
  - apply caller_signed; [ | done ]. intros p w' H'. destruct (_ <? _)%nat; [done | ]. by destruct (bool_decide _).
  - cbn [fst]. unfold promote_admin. destruct (find_email _ w) as [ u | ]; [ | done ]. by destruct (u_admin u).
  - cbn [fst]. unfold bootstrap_admin_email. case_bool_decide; [done | ]. destruct (find_email _ w) as [ u | ]; [ | done ]. by destruct (u_admin u).
  - cbn [fst]. unfold bootstrap_dev_api_key. case_bool_decide; [ | done ]. unfold ensure_dev_api_key. case_bool_decide; [done | ]. destruct (head _) as [ x | ].
    + destruct (find_user _ w) as [ u | ]; [ | done ]. by destruct (u_admin u).
    + destruct (first_user pick w) as [ u | ]; [destruct (u_admin u) | ]; by destruct (existsb _ _).
Qed.

(** No payload verifies under a key of the ring that was not signed with it. *)
Definition trusted (t : string) (w : world) : Prop := forall k c, k ∈ (live_keys w).2 -> o_decode O (w_now w) t k = Some c -> (k, c) ∈ w_signed w.

(** An access token is read until it expires. *)
Definition expires : Prop := forall now t k c x, o_decode O now t k = Some c -> py_get "exp" c = VInt x -> now < x.

Lemma genuine_access c : genuine c -> py_eq (py_get "purpose" c) (VStr ACCESS_TOKEN_PURPOSE) = true -> exists id email admin tv exp, c = access_claims id email admin tv exp.
Proof. intros [ id email admin tv exp | id exp | id tv exp ] H; [by exists id, email, admin, tv, exp | by vm_compute in H | by vm_compute in H]. Qed.

(** What the gates see of a session. *)
Lemma session_principal_gates u id email admin tv exp :
  let p := session_principal u (access_claims id email admin tv exp) in
  py_get "user_id" p = VStr (u_id u) /\ is_api_key_principal p = false /\ is_operator_principal p = u_admin u /\
  py_get "session_scopes" p = vlist (derive_session_scopes (u_admin u)).
Proof.
  cbv zeta. unfold is_operator_principal, is_api_key_principal, session_principal. rewrite py_get_set_eq. rewrite !(py_get_set_ne "session_scopes") by done. rewrite py_get_set_eq.
  rewrite !(py_get_set_ne _ "auth_type") by done. rewrite !(py_get_set_ne _ "user_id") by done. rewrite py_get_set_eq. by split_and!.
Qed.
End signing.

Lemma history_signed O id w n w' : history O id w n w' -> signed_ok w -> signed_ok w'.
Proof. intros H S. induction H as [ | n e w1 H IH F ]; [done | by apply happen_signed]. Qed.

(** C4: a bearer token that is accepted was signed by this service as a session, with a
    live key of its ring, for an active user at the version the user has now, and has not
    expired (links for a reset or for a verification are never accepted as sessions); the
    caller it stands for is that user, an operator exactly when the row says so. *)
Theorem session_is_genuine O (He : expires O) w0 id n w (H0 : w_signed w0 = []) (Hh : history O id w0 n w)
    t (Ht : trusted O t w) w' p (Hg : get_current_user O (session t) w = (w', Ok p)) :
  exists u k sub email admin exp, u ∈ w_users w /\ u_active u = true /\ parse_user_id sub = Some (u_id u) /\
    k ∈ (live_keys w).2 /\ (k, access_claims sub email admin (u_version u) exp) ∈ w_signed w /\ w_now w < exp /\
    py_get "user_id" p = VStr (u_id u) /\ is_api_key_principal p = false /\ is_operator_principal p = u_admin u /\
    py_get "session_scopes" p = vlist (derive_session_scopes (u_admin u)).
Proof.
  assert (S : signed_ok w) by (apply (history_signed _ _ _ _ _ Hh); unfold signed_ok; by rewrite H0).
  apply session_accepted in Hg as (k & c & id' & u & Hk & D & P & Sub & F & V & A & ->).
  assert (In := Ht k c Hk D). unfold signed_ok in S. rewrite Forall_forall in S. assert (G := S _ In). cbn in G.
  apply genuine_access in G as (sub & email & admin & tv & exp & ->); [ | done ].
  assert (Et : tv = u_version u) by (by injection V). subst tv. destruct (find_user_in _ _ _ F) as [Hu Hid].
  exists u, k, sub, email, admin, exp. split_and!; try done; try apply session_principal_gates.
  - by rewrite Hid.
  - by apply (He _ _ _ _ _ D).
Qed.

(** ** Where authority comes from *)

Definition bearer_of (e : event) : option string :=
  match e with
  | Logs_out h | Changes h _ _ _ | Invalidates h _ | Promotes h _ | Creates_key h _ _ _ _ _ | Revokes_key h _ | Rotates h _ => h_bearer h
  | _ => None
  end.

(** Events of a kind, in which nobody forges a session. *)
Inductive lives (O : outside) (kind : event -> Prop) (w : world) : world -> Prop :=
| LivesStart : lives O kind w w
| LivesStep e w1 :
    lives O kind w w1 -> kind e -> fresh_id e w1 -> (forall t, bearer_of e = Some t -> trusted O t w1) -> lives O kind w (happen O e w1).1.

(** What the deployment does without an operator. *)
Definition deployment (e : event) : Prop := match e with Promotes_admin _ | Bootstraps_admin _ | Bootstraps_key _ _ _ _ _ => True | _ => False end.

(** The row of a key after it was made, possibly revoked. *)
Definition same_key (k k' : api_key) : Prop :=
  k_id k' = k_id k /\ k_user k' = k_user k /\ k_hash k' = k_hash k /\ k_scopes k' = k_scopes k /\ (k_active k' = true -> k_active k = true).

(** Nobody is an operator, neither by a row nor by a key. *)
Definition no_operator (w : world) : Prop :=
  Forall (fun u => u_admin u = false) (w_users w) /\ Forall (fun k => k_active k = true -> PLATFORM_ADMIN ∉ k_scopes k) (w_keys w).

Lemma text_set_vlist l : text_set (vlist l) = l.
Proof. induction l as [ | x l IH ]; [done | ]. unfold text_set, vlist in *. cbn in *. by rewrite IH. Qed.

(** Whoever passes for an operator is one. *)
Lemma operator_exists O h w w' p : signed_ok w -> (forall t, h_bearer h = Some t -> trusted O t w) -> get_current_user O h w = (w', Ok p) -> is_operator_principal p = true -> ~ no_operator w.
Proof.
  intros S T G Op [Nu Nk]. rewrite Forall_forall in Nu. rewrite Forall_forall in Nk.
  assert (K : forall raw, resolve_platform_key_as_user O raw w = Ok p -> False).
  { intros raw. unfold resolve_platform_key_as_user. destruct (head _) as [ k | ] eqn:Hd; [ | done ]. destruct (is_valid (w_now w) k) eqn:V; [ | done ]. intros e. injection e as <-.
    assert (Hk : k ∈ List.filter (fun k => bool_decide (k_hash k = o_digest O raw)) (w_keys w)) by (destruct (List.filter _ _); simplify_eq/=; left).
    apply list_elem_of_In, filter_In in Hk as [Hk _]. apply list_elem_of_In in Hk. apply (Nk k Hk).
    - unfold is_valid in V. by destruct (k_active k).
    - unfold is_operator_principal in Op. change (is_api_key_principal _) with true in Op. change (py_get "api_key_scopes" _) with (vlist (k_scopes k)) in Op.
      rewrite text_set_vlist in Op. by apply bool_decide_eq_true in Op. }
  destruct h as [ b pk ]. unfold get_current_user in G. cbn [h_platform_key h_bearer] in G, T.
  assert (B : forall t, b = Some t -> get_current_user O (session t) w = (w', Ok p) -> False).
  { intros t -> G'. apply session_accepted in G' as (k & c & id & u & Hk & D & P & _ & F & _ & _ & ->). assert (In := T t eq_refl k c Hk D).
    unfold signed_ok in S. rewrite Forall_forall in S. destruct (genuine_access c (S _ In) P) as (sub & email & admin & tv & exp & ->).
    rewrite (proj1 (proj2 (proj2 (session_principal_gates u sub email admin tv exp)))) in Op. rewrite (Nu u (proj1 (find_user_in _ _ _ F))) in Op. done. }
  destruct pk as [ [ | a raw ] | ]; [ | injection G as _ G; by apply (K _ G) | ]; (destruct b as [ t | ]; [ | done ]); by apply (B t eq_refl).
Qed.

Lemma step_no_operator P Q w w' : one_step P Q w w' -> (forall id, ~ P id) -> (forall k, ~ Q k) -> no_operator w -> no_operator w'.
Proof.
  intros [U K] HP HQ [Nu Nk]. split.
  - destruct U as [ | u N A V | u u' Hu I A V D ]; [done | | ].
    + apply Forall_app. split; [done | ]. constructor; [ | done ]. by destruct A as [ | ?%HP ].
    + rewrite Forall_map. rewrite Forall_forall in Nu |- *. intros x Hx. case_bool_decide; [ | by apply Nu ]. destruct D as [ -> | ?%HP ]; [by apply Nu | done].
  - destruct K as [ | k Hk | now id ]; [done | by apply HQ in Hk | ]. rewrite Forall_map. apply (Forall_impl _ _ _ Nk). intros k Hk. by case_bool_decide.
Qed.

(** C5: however events interleave, as long as nobody forges a session: every administrator
    was one from the start or was made one by an event of this history, which named that
    very user and was either asked for by a caller who was an operator at the time or came
    from the deployment itself (the command promote-admin, the address configured for the
    bootstrap, the owner of the development key); every key was there from the start or
    was made in this history by an operator, who owns it and could grant its scopes, or is
    the development key; and where nobody was an operator and the deployment makes nobody
    one, nobody ever becomes one. *)
Theorem authority_from_operators O kind w w' (Hw : users_ok (w_users w)) (Hs : signed_ok w) (Hl : lives O kind w w') :
  Forall (fun u' => u_admin u' = true ->
    (exists u, u ∈ w_users w /\ u_id u = u_id u' /\ u_admin u = true) \/
    exists w1 e, lives O kind w w1 /\ kind e /\ made_admin O e w1 (u_id u') /\ lives O kind (happen O e w1).1 w') (w_users w') /\
  Forall (fun k' =>
    (exists k, k ∈ w_keys w /\ same_key k k') \/
    exists w1 e k, lives O kind w w1 /\ kind e /\ made_key O e w1 k /\ same_key k k' /\ lives O kind (happen O e w1).1 w') (w_keys w') /\
  ((forall e, kind e -> ~ deployment e) -> no_operator w -> no_operator w').
Proof.
  induction Hl as [ | e w1 Hl IH Hk Hf Ht ].
  - split_and!; [ | | done ]; apply Forall_forall; [eauto 10 | ]. intros k Hk. left. exists k. by split_and!.
  - destruct IH as (Iu & Ik & In). assert (S := happen_step O e w1 Hf).
    assert (S1 : signed_ok w1) by (clear - Hl Hs; induction Hl; [done | by apply happen_signed]).
    assert (Hnext : forall w0, lives O kind w0 w1 -> lives O kind w0 (happen O e w1).1) by (intros w0 H0; by constructor).
    assert (Hnow : lives O kind (happen O e w1).1 (happen O e w1).1) by constructor.
    assert (Iu' : forall u', u' ∈ w_users w1 -> u_admin u' = true ->
      (exists u, u ∈ w_users w /\ u_id u = u_id u' /\ u_admin u = true) \/
      exists w2 e2, lives O kind w w2 /\ kind e2 /\ made_admin O e2 w2 (u_id u') /\ lives O kind (happen O e2 w2).1 (happen O e w1).1).
    { rewrite Forall_forall in Iu. intros u' Hu' A. destruct (Iu u' Hu' A) as [ ? | (w2 & e2 & ? & ? & ? & ?) ]; [by left | right]. exists w2, e2. auto. }
    assert (Ik' : forall k', k' ∈ w_keys w1 ->
      (exists k, k ∈ w_keys w /\ same_key k k') \/
      exists w2 e2 k, lives O kind w w2 /\ kind e2 /\ made_key O e2 w2 k /\ same_key k k' /\ lives O kind (happen O e2 w2).1 (happen O e w1).1).
    { rewrite Forall_forall in Ik. intros k' Hk'. destruct (Ik k' Hk') as [ ? | (w2 & e2 & k & ? & ? & ? & ? & ?) ]; [by left | right]. exists w2, e2, k. auto 10. }
    split_and!.
    + apply Forall_forall. intros x Hx A.
      destruct (os_users _ _ _ _ S) as [ | u N Au V | u u' Hu I Av V D ]; [by apply Iu' | | ].
      * apply elem_of_app in Hx as [Hx | ->%list_elem_of_singleton]; [by apply Iu' | ]. destruct Au as [Au | Au]; [congruence | ]. right. by exists w1, e.
      * apply list_elem_of_fmap in Hx as (y & -> & Hy). case_bool_decide; [ | by apply Iu' ].
        destruct D as [D | D]; [rewrite I; apply Iu'; [done | congruence] | ]. right. by exists w1, e.
    + apply Forall_forall. intros x Hx.
      destruct (os_keys _ _ _ _ S) as [ | k Hq | now id ]; [by apply Ik' | | ].
      * apply elem_of_app in Hx as [Hx | ->%list_elem_of_singleton]; [by apply Ik' | ]. right. exists w1, e, k. by split_and!.
      * apply list_elem_of_fmap in Hx as (y & -> & Hy). destruct (Ik' y Hy) as [(k & Hk' & Sk) | (w2 & e2 & k & H1 & H2 & H3 & Sk & H4)]; [left | right];
          [exists k; split; [done | ] | exists w2, e2, k; split_and!; try done]; case_bool_decide; try done; destruct Sk as (? & ? & ? & ? & _); by split_and!.
    + intros Hd N. specialize (In Hd N). apply (step_no_operator _ _ _ _ S); [ | | done ].
      * intros id [(h & uid & p & -> & _ & (w2 & G) & Op) | D]; [by apply (operator_exists O h w1 w2 p S1 Ht G Op) | ]. apply (Hd e Hk). by destruct e.
      * intros k [(h & id & token & name & scopes & ex & p & -> & ((w2 & G) & Op) & _) | (env & raw & id & pick & -> & _)];
          [by apply (operator_exists O h w1 w2 p S1 Ht G Op) | by apply (Hd _ Hk)].
Qed.

(** What registration and recovery answer does not depend on who is registered: for any
    two states of the service the answers are the same. *)
Lemma registration_discloses_nothing O id salt email password username limited w1 w2 :
  (register O id salt email password username w1).2 = (register O id salt email password username w2).2 /\
  (forgot_password O email limited w1).2 = (forgot_password O email limited w2).2.
Proof.
  assert (R : forall w, (register O id salt email password username w).2
    = if (String.length password <? MIN_PASSWORD_LENGTH)%nat then Err (Http 400 "Password must be at least 8 characters") else Ok (Status "verification_sent")).
  { intros w. unfold register. destruct (_ <? _)%nat eqn:L; [done | ]. destruct (find_email _ w) eqn:F; [done | ]. unfold register_user. by rewrite L, F. }
  split; [by rewrite !R | ]. unfold forgot_password. destruct (negb _); [done | ]. by destruct limited.
Qed.

(** ** Names *)

Lemma next_username_taken f w base suffix : next_username f w base suffix = None ->
  Forall (fun i => name_taken w (numbered base (suffix + Z.of_nat (S i))) = true) (seq 0 f).
Proof.
  revert suffix. induction f as [ | f IH ]; intros suffix; cbn [next_username]; [constructor | ]. destruct (name_taken w _) eqn:T; [ | done ]. intros H. cbn [seq].
  constructor; [by replace (suffix + Z.of_nat 1) with (suffix + 1) by lia | ]. rewrite <- seq_shift, Forall_map. apply (Forall_impl _ _ _ (IH _ H)). intros i Hi.
  replace (suffix + Z.of_nat (S (S i))) with (suffix + 1 + Z.of_nat (S i)) by lia. done.
Qed.

Lemma next_username_free f w base suffix n : next_username f w base suffix = Some n -> name_taken w n = false.
Proof.
  revert suffix. induction f as [ | f IH ]; intros suffix; cbn [next_username]; [done | ]. destruct (name_taken w (numbered base (suffix + 1))) eqn:T; [apply IH | ]. intros e. by simplify_eq.
Qed.

Lemma numbered_inj base : Inj (=) (=) (numbered base).
Proof. intros a b H. unfold numbered in H. apply (inj (String.append base)) in H. apply (inj (String.append "_")) in H. by apply (inj pretty) in H. Qed.

(** The loop over the suffixes ends: a registration always finds a name nobody has. *)
Lemma resolve_username_free email username w : exists n, resolve_username email username w = Some n /\ name_taken w n = false.
Proof.
  unfold resolve_username. set (base := normalize_username_candidate _). destruct (name_taken w base) eqn:T; [ | by exists base ].
  destruct (next_username _ w base 1) as [ n | ] eqn:N; [exists n; split; [done | by apply next_username_free in N] | ]. exfalso. apply next_username_taken in N.
  set (names := map (fun i => Some (numbered base (1 + Z.of_nat (S i)))) (seq 0 (S (length (w_users w))))).
  assert (D : List.NoDup names).
  { apply Finite.Injective_map_NoDup; [ | apply seq_NoDup ]. intros i j e. injection e as e. apply numbered_inj in e. lia. }
  assert (I : incl names (map u_name (w_users w))).
  { intros x Hx. apply in_map_iff in Hx as (i & <- & Hi). rewrite List.Forall_forall in N. specialize (N i Hi). apply existsb_exists in N as (u & Hu & e). apply bool_decide_eq_true in e.
    rewrite <- e. by apply in_map. }
  assert (L := NoDup_incl_length D I). unfold names in L. rewrite !length_map, length_seq in L. lia.
Qed.

(** ** Signing in *)

(** A password verifies against its hash; a token the service signs is read back until it expires. *)
Definition hashes (O : outside) : Prop := forall salt p, o_verify O p (o_hash O salt p) = Some true.
Definition reads_back (O : outside) : Prop := forall now c k x, genuine c -> py_get "exp" c = VInt x -> now < x -> o_decode O now (o_encode O c k) k = Some c.

Lemma live_keys_head w : exists ks, (live_keys w).2 = kr_active (w_ring w) :: ks.
Proof. unfold live_keys, verify_keys. repeat case_match; simplify_eq; cbn; eauto. Qed.

(** The token a user is issued is accepted as that user. *)
Lemma issued_accepted O u w (Hd : reads_back O) : find_user (u_id u) w = Some u -> parse_user_id (u_id u) = Some (u_id u) -> u_active u = true ->
  exists w1 t w2 p, issue O u w = (w1, Ok (AccessToken t)) /\ w_users w1 = w_users w /\ get_current_user O (session t) w1 = (w2, Ok p) /\
    py_get "user_id" p = VStr (u_id u) /\ is_operator_principal p = u_admin u.
Proof.
  intros F P A. unfold issue, create_access_token, sign.
  set (exp := w_now w + 60 * ACCESS_TOKEN_EXPIRE_MINUTES). set (c := access_claims (u_id u) (u_email u) (u_admin u) (u_version u) exp).
  change (dict_set "exp" _ _) with c. eexists _, _. set (w1 := add_signed (kr_active (w_ring w)) c w).
  assert (D : decode_for O ACCESS_TOKEN_PURPOSE (o_encode O c (kr_active (w_ring w))) (w_now w1) (live_keys w1).2 = Some c).
  { destruct (live_keys_head w1) as [ ks -> ]. cbn [decode_for]. rewrite (Hd _ _ _ exp); [done | constructor | done | ]. change (w_now w1) with (w_now w). unfold exp, ACCESS_TOKEN_EXPIRE_MINUTES. lia. }
  destruct (live_keys_same w1) as (Us & _ & _). destruct (session_principal_gates u (u_id u) (u_email u) (u_admin u) (u_version u) exp) as (G1 & _ & G3 & _).
  exists (live_keys w1).1, (session_principal u c). split_and!; [done | done | | done | done]. unfold get_current_user, session, decode_access_token. cbn [h_platform_key h_bearer].
  fold w1. destruct (live_keys w1) as [ w2 keys ]. cbn [fst snd] in D, Us |- *. rewrite D. cbn [result_bind]. unfold resolve_authenticated_jwt_user. change (py_get "sub" c) with (VStr (u_id u)).
  cbn [parse_sub]. rewrite P, (find_user_users _ _ _ Us). change (find_user (u_id u) w1) with (find_user (u_id u) w). rewrite F. change (version_claim 0 c) with (@Ok http_error Z (u_version u)).
  cbn [result_bind]. rewrite bool_decide_false by congruence. by rewrite A.
Qed.

(** C26: where logging in does not require a verified address, a registration with a password
    of at least 8 characters and an address without blanks around it that nobody has is
    followed by a login: the credentials that were registered give a token, and the token is accepted as the new user, who is no
    operator; the name the user gets is nobody else's. *)
Theorem registered_user_signs_in O (Hv : hashes O) (Hd : reads_back O) id salt email password username w
    (Hn : o_require_verified O = false) (Hi : id ∉ known w) (Hc : parse_user_id id = Some id) (He : str_strip email = email)
    (Hf : find_email email w = None) (Hp : (8 <= String.length password)%nat) :
  exists w1 name w2 t w3 p, register O id salt email password username w = (w1, Ok (Status "verification_sent")) /\
    (u_name <$> find_user id w1) = Some (Some name) /\ name_taken w name = false /\
    login O email password w1 = (w2, Ok (AccessToken t)) /\ get_current_user O (session t) w2 = (w3, Ok p) /\
    py_get "user_id" p = VStr id /\ is_operator_principal p = false.
Proof.
  destruct (resolve_username_free email username w) as (name & N & T).
  set (u := User id email (Some name) (o_hash O salt password) true false 0 false None). set (w0 := set_users (w_users w ++ [u]) w).
  assert (R : register O id salt email password username w = (send_verification_email O u w0, Ok (Status "verification_sent"))).
  { unfold register, register_user. rewrite He, Hf, N. by destruct (Nat.ltb_spec (String.length password) MIN_PASSWORD_LENGTH) as [ L | L ]; [unfold MIN_PASSWORD_LENGTH in L; lia | ]. }
  destruct (verification_tables O u w0) as [U _]. set (w1 := send_verification_email O u w0) in *.
  assert (Fu : find_user id w1 = Some u).
  { unfold find_user. rewrite U. cbn [w0 w_users set_users]. rewrite List.filter_app. cbn [List.filter]. change (u_id u) with id. rewrite (bool_decide_true (id = id)) by done.
    replace (List.filter _ (w_users w)) with (@nil user); [done | ]. symmetry. unfold known in Hi. clear - Hi. induction (w_users w) as [ | x l IH ]; [done | ]. cbn [List.filter].
    cbn in Hi. apply not_elem_of_cons in Hi as [Hx Hi]. rewrite bool_decide_false by congruence. by apply IH. }
  assert (Fe : find_email email w1 = Some u).
  { unfold find_email in Hf |- *. rewrite U. cbn [w0 w_users set_users]. rewrite List.filter_app. cbn [List.filter]. change (u_email u) with email. rewrite (bool_decide_true (email = email)) by done.
    by destruct (List.filter _ (w_users w)). }
  destruct (issued_accepted O u w1 Hd Fu Hc eq_refl) as (w2 & t & w3 & p & I & _ & G & Gu & Go). exists w1, name, w2, t, w3, p. split_and!; try done.
  - by rewrite Fu.
  - unfold login, authenticate_user. rewrite Fe. unfold verify_password. change (u_hash u) with (o_hash O salt password). rewrite Hv. cbn [result_bind negb]. rewrite Hn. cbn. exact I.
Qed.

(** ** Examples *)

Module Toy.

(** Tokens that frame the key and the fields of the payload: every character of a field is
    marked, and a full stop ends it. *)
Fixpoint frame (s rest : string) : string :=
  match s with EmptyString => String "."%char rest | String c s' => String "x"%char (String c (frame s' rest)) end.

Fixpoint unframe (t : string) : option (string * string) :=
  match t with
  | String m (String c r) =>
      if bool_decide (m = "."%char) then Some ("", String c r) else match unframe r with Some (s, rest) => Some (String c s, rest) | None => None end
  | String m EmptyString => if bool_decide (m = "."%char) then Some ("", "") else None
  | EmptyString => None
  end.

Fixpoint frames (l : list string) : string := match l with [] => "" | s :: l' => frame s (frames l') end.
Fixpoint unframes (n : nat) (t : string) : option (list string) :=
  match n with
  | 0%nat => if bool_decide (t = "") then Some [] else None
  | S n' => match unframe t with Some (s, rest) => match unframes n' rest with Some l => Some (s :: l) | None => None end | None => None end
  end.

Fixpoint bits (p : positive) : string := match p with xH => "" | xO q => String "0"%char (bits q) | xI q => String "1"%char (bits q) end.
Fixpoint unbits (s : string) : positive := match s with EmptyString => xH | String c s' => if bool_decide (c = "1"%char) then xI (unbits s') else xO (unbits s') end.
Definition number (z : Z) : string := match z with Z0 => "" | Zpos p => String "+"%char (bits p) | Zneg p => String "-"%char (bits p) end.
Definition unnumber (s : string) : Z := match s with EmptyString => 0 | String c s' => if bool_decide (c = "+"%char) then Zpos (unbits s') else Zneg (unbits s') end.

Definition text (v : pyval) : string := match v with VStr t => t | VInt z => number z | VBool true => "1" | _ => "" end.

Definition encode (c : claims) (k : string) : string :=
  frames [k; text (py_get "purpose" c); text (py_get "sub" c); text (py_get "email" c); text (py_get "is_admin" c); text (py_get "tv" c); text (py_get "exp" c)].

Definition payload (purpose sub email admin : string) (tv exp : Z) : claims :=
  if bool_decide (purpose = ACCESS_TOKEN_PURPOSE) then access_claims sub email (bool_decide (admin = "1")) tv exp
  else if bool_decide (purpose = EMAIL_VERIFY_PURPOSE) then [("sub", VStr sub); ("purpose", VStr purpose); ("exp", VInt exp)]
  else [("sub", VStr sub); ("tv", VInt tv); ("purpose", VStr purpose); ("exp", VInt exp)].

Definition decode (now : Z) (t k : string) : option claims :=
  match unframes 7 t with
  | Some [k'; purpose; sub; email; admin; tv; exp] =>
      if bool_decide (k' = k) && (now <? unnumber exp) then Some (payload purpose sub email admin (unnumber tv) (unnumber exp)) else None
  | _ => None
  end.

Definition hash (salt p : string) : string := ":" +:+ p.
Definition verify (plain hashed : string) : option bool :=
  match hashed with String _ p => Some (bool_decide (p = plain)) | EmptyString => None end.

Definition env : outside := Outside encode decode (fun k d => k +:+ "#" +:+ d) hash verify (fun r => "digest of " +:+ r) (fun _ => "?") false true true 30 48.

Definition id1 : string := "11111111-1111-4111-8111-111111111111".
Definition id2 : string := "22222222-2222-4222-8222-222222222222".
Definition root : user := User id1 "root@x" (Some "root") ":password" true true 0 true None.
Definition start : world := World [root] [] (KeyRing "secret" None None 86400) 0 [] [].
Definition ann : event := Registers id2 "s" "ann@x" "correct horse" None.
Definition joined : world := (happen env ann start).1.
Definition token_of (r : world * result http_error reply) : string := match r.2 with Ok (AccessToken t) => t | _ => "" end.
Definition inside : world := (login env "ann@x" "correct horse" joined).1.
Definition ann_token : string := token_of (login env "ann@x" "correct horse" joined).
Definition gone : world := (happen env (Logs_out (session ann_token)) inside).1.

Lemma payload_exp purpose sub email admin tv x y : py_get "exp" (payload purpose sub email admin tv x) = VInt y -> x = y.
Proof.
  unfold payload. destruct (bool_decide _); [intros e; by injection e | ]. destruct (bool_decide _); intros e; by injection e.
Qed.

Lemma unframe_frame s rest : unframe (frame s rest) = Some (s, rest).
Proof. induction s as [ | c s IH ]; cbn [frame unframe]; [by destruct rest | by rewrite IH]. Qed.

Lemma unframes_frames l : unframes (length l) (frames l) = Some l.
Proof. induction l as [ | s l IH ]; [done | ]. cbn [length frames unframes]. by rewrite unframe_frame, IH. Qed.

Lemma unnumber_number z : unnumber (number z) = z.
Proof.
  assert (B : forall p, unbits (bits p) = p) by (intros p; induction p as [ p IH | p IH | ]; cbn; by rewrite ?IH). destruct z as [ | p | p ]; cbn; by rewrite ?B.
Qed.

Lemma env_hashes : hashes env.
Proof. intros salt p. cbn [o_verify o_hash env]. change (hash salt p) with (String ":"%char p). cbn [verify]. by rewrite bool_decide_true. Qed.

Lemma decode_frames now k purpose sub email admin tv exp :
  now < exp -> decode now (frames [k; purpose; sub; email; admin; number tv; number exp]) k = Some (payload purpose sub email admin tv exp).
Proof.
  intros L. unfold decode. assert (F := unframes_frames [k; purpose; sub; email; admin; number tv; number exp]). cbn [length] in F.
  rewrite F, !unnumber_number, bool_decide_true by done.
  by destruct (Z.ltb_spec now exp); [ | lia ].
Qed.

Lemma env_reads_back : reads_back env.
Proof.
  intros now c k x G Hx L. destruct G as [ id email admin tv exp | id exp | id tv exp ]; injection Hx as <-.
  - etransitivity; [exact (decode_frames now k ACCESS_TOKEN_PURPOSE id email (text (VBool admin)) tv exp L) | by destruct admin].
  - exact (decode_frames now k EMAIL_VERIFY_PURPOSE id "" "" 0 exp L).
  - exact (decode_frames now k PASSWORD_RESET_PURPOSE id "" "" tv exp L).
Qed.

Lemma env_one_payload : one_payload env.
Proof.
  intros now now' t k k' c c'. cbn [o_decode env]. unfold decode. destruct (unframes 7 t) as [ [ | a [ | b [ | d [ | f [ | g [ | h [ | i [ | j l ] ] ] ] ] ] ] ] | ]; try done.
  destruct (_ && _); [ | done ]. intros e1. injection e1 as <-. destruct (_ && _); [ | done ]. intros e2. by injection e2 as <-.
Qed.

Lemma env_expires : expires env.
Proof.
  intros now t k c x. cbn [o_decode env]. unfold decode. destruct (unframes 7 t) as [ [ | a [ | b [ | d [ | f [ | g [ | h [ | i [ | j l ] ] ] ] ] ] ] ] | ]; try done.
  destruct (bool_decide _); [ | done ]. cbn [andb]. destruct (Z.ltb_spec now (unnumber i)) as [ L | ]; [ | done ]. intros e H. injection e as <-. apply payload_exp in H. lia.
Qed.

Lemma start_ok : users_ok (w_users start).
Proof. split; [apply NoDup_singleton | ]. constructor; [cbn; lia | constructor]. Qed.

Lemma joined_fresh : fresh_id ann start.
Proof. apply (bool_decide_unpack _). vm_compute. exact I. Qed.

Lemma inside_history : exists n, history env id2 start n inside.
Proof.
  eexists. eapply (HistoryStep env id2 start _ (Logs_in "ann@x" "correct horse") joined); [ | done ]. eapply (HistoryStep env id2 start _ ann start); [constructor | exact joined_fresh].
Qed.

Lemma inside_ok : users_ok (w_users inside).
Proof. split; [ | repeat constructor; cbn; lia ]. apply (bool_decide_unpack _). vm_compute. exact I. Qed.

Lemma inside_trusted : trusted env ann_token inside.
Proof.
  intros k c Hk. assert (k = "secret") as ->.
  { assert (L : (live_keys inside).2 = ["secret"]) by (vm_compute; reflexivity). rewrite L in Hk. by apply list_elem_of_singleton in Hk. }
  intros D. assert (E : o_decode env (w_now inside) ann_token "secret" = Some (access_claims id2 "ann@x" false 0 86400)) by (vm_compute; reflexivity).
  rewrite E in D. injection D as <-. apply (bool_decide_unpack _). vm_compute. exact I.
Qed.
End Toy.

Lemma sessions_and_links_end_witness :
  (exists p, (get_current_user Toy.env (session Toy.ann_token) Toy.inside).2 = Ok p) /\ exists e, (get_current_user Toy.env (session Toy.ann_token) Toy.gone).2 = Err e.
Proof.
  split; [eexists; vm_compute; reflexivity | ].
  refine (proj1 (sessions_and_links_end Toy.env Toy.env_one_payload Toy.ann_token Toy.id2 Toy.inside 1 Toy.gone Toy.inside_ok) _ _ _ _ _ _).
  - vm_compute. reflexivity.
  - vm_compute. reflexivity.
  - apply (HistoryStep Toy.env Toy.id2 Toy.inside 0 (Logs_out (session Toy.ann_token)) Toy.inside); [constructor | exact I].
  - lia.
Defined.

Lemma session_is_genuine_witness :
  exists u k, u ∈ w_users Toy.inside /\ u_id u = Toy.id2 /\ (k, access_claims Toy.id2 "ann@x" false (u_version u) 86400) ∈ w_signed Toy.inside.
Proof.
  destruct Toy.inside_history as [ n H ].
  destruct (session_is_genuine Toy.env Toy.env_expires Toy.start Toy.id2 n Toy.inside eq_refl H Toy.ann_token Toy.inside_trusted _ _ ltac:(vm_compute; reflexivity))
    as (u & k & sub & email & admin & exp & Hu & _ & _ & _ & _ & _ & Gu & _).
  exists u, "secret". assert (E : u_id u = Toy.id2) by (vm_compute in Gu; by injection Gu). split_and!; [exact Hu | exact E | ].
  assert (V : Forall (fun u => u_version u = 0) (w_users Toy.inside)) by (vm_compute; repeat constructor). rewrite Forall_forall in V. rewrite (V u Hu).
  apply (bool_decide_unpack _). vm_compute. exact I.
Defined.

Module ToyKeys.
Import Toy.

Definition root_token : string := token_of (login env "root@x" "password" start).
Definition rooted : world := (login env "root@x" "password" start).1.
Definition key_event : event := Creates_key (session root_token) id2 "abc" "ci" ["flow.read"; "memory.delete"] None.
Definition keyed : world := (happen env key_event rooted).1.

Lemma rooted_trusted : trusted env root_token rooted.
Proof.
  intros k c Hk. assert (k = "secret") as ->.
  { assert (L : (live_keys rooted).2 = ["secret"]) by (vm_compute; reflexivity). rewrite L in Hk. by apply list_elem_of_singleton in Hk. }
  intros D. assert (E : o_decode env (w_now rooted) root_token "secret" = Some (access_claims id1 "root@x" true 0 86400)) by (vm_compute; reflexivity).
  rewrite E in D. injection D as <-. apply (bool_decide_unpack _). vm_compute. exact I.
Qed.

Lemma keyed_lives : lives env (fun e => ~ deployment e) start keyed.
Proof.
  apply (LivesStep env _ start key_event rooted).
  - apply (LivesStep env _ start (Logs_in "root@x" "password") start); [constructor | by intros [] | exact I | done].
  - by intros [].
  - exact I.
  - intros t e. injection e as <-. exact rooted_trusted.
Qed.
End ToyKeys.

Lemma authority_from_operators_witness :
  exists k', w_keys ToyKeys.keyed = [k'] /\
    exists w1 e k, lives Toy.env (fun e => ~ deployment e) Toy.start w1 /\ key_by_operator Toy.env e w1 k /\ same_key k k'.
Proof.
  assert (E : exists k', w_keys ToyKeys.keyed = [k']) by (eexists; vm_compute; reflexivity). destruct E as [ k' E ]. exists k'. split; [exact E | ].
  destruct (authority_from_operators Toy.env (fun e => ~ deployment e) Toy.start ToyKeys.keyed Toy.start_ok (Forall_nil_2 _) ToyKeys.keyed_lives) as (_ & K & _).
  rewrite E in K. apply Forall_cons in K as [ [(k & Hk & _) | (w1 & e & k & L & D & [M | (env & raw & id & pick & -> & _)] & Sk & _)] _ ].
  - by apply not_elem_of_nil in Hk.
  - by exists w1, e, k.
  - by destruct (D I).
Defined.

(** The deployment makes operators by itself. *)
Example deployment_grants :
  u_admin <$> find_user Toy.id2 (happen Toy.env (Bootstraps_admin "ann@x") Toy.joined).1 = Some true /\
  map k_scopes (w_keys (happen Toy.env (Bootstraps_key "dev" "aindy_local" Toy.id2 Toy.id1 0) Toy.joined).1) = [[PLATFORM_ADMIN]].
Proof. vm_compute. done. Qed.

Lemma registered_user_signs_in_witness :
  exists w1 name w2 t w3 p, register Toy.env Toy.id2 "s" "ann@x" "correct horse" None Toy.start = (w1, Ok (Status "verification_sent")) /\
    (u_name <$> find_user Toy.id2 w1) = Some (Some name) /\ name_taken Toy.start name = false /\
    login Toy.env "ann@x" "correct horse" w1 = (w2, Ok (AccessToken t)) /\ get_current_user Toy.env (session t) w2 = (w3, Ok p) /\
    py_get "user_id" p = VStr Toy.id2 /\ is_operator_principal p = false.
Proof.
  apply (registered_user_signs_in Toy.env Toy.env_hashes Toy.env_reads_back).
  - reflexivity.
  - exact Toy.joined_fresh.
  - reflexivity.
  - reflexivity.
  - reflexivity.
  - cbn. lia.
Defined.

(** ** Findings *)

Module Findings.
Import Toy.

Definition mailed (w : world) : string := match w_sent w with VerificationMail _ t :: _ => t | _ => "" end.
Definition signs_in (t : string) (w : world) : bool :=
  match verify_email env t w with
  | (w1, Ok (AccessToken s)) => match (get_current_user env (session s) w1).2 with Ok p => py_eq (py_get "user_id" p) (VStr id2) | Err _ => false end
  | _ => false
  end.

(** A verification link signs its reader in every time it is followed until it expires, also
    after the user has changed the password to end every session. *)
Lemma verification_link_signs_in_again :
  let link := mailed joined in
  let used := (verify_email env link inside).1 in
  let changed := (happen env (Changes (session ann_token) "correct horse" "battery staple" "s") used).1 in
  signs_in link inside = true /\ signs_in link used = true /\
  (get_current_user env (session ann_token) changed).2 = Err (Http 401 "Token has been invalidated. Please log in again.") /\ signs_in link changed = true.
Proof. vm_compute. repeat split. Qed.

Definition disabled_root : user := User id1 "root@x" (Some "root") ":password" false true 0 true None.
Definition with_key : world :=
  World [disabled_root] [ApiKey id2 id1 "ci" "aindy_abc" "digest of aindy_abc" [PLATFORM_ADMIN] true None None] (KeyRing "secret" None None 86400) 0 [] [].

(** The keys of a disabled account stay good, where its sessions and its password are
    refused. *)
Lemma key_of_disabled_account_works :
  (login env "root@x" "password" with_key).2 = Err (Http 403 "Account is disabled") /\
  match (get_current_user env (Headers None (Some "aindy_abc")) with_key).2 with Ok p => is_operator_principal p | Err _ => false end = true.
Proof. vm_compute. split; reflexivity. Qed.

(** A token that a logout ended is good again after 32767 changes of the version. *)
Lemma version_wraps u : 0 <= u_version u < 32767 -> u_version (Nat.iter (Z.to_nat 32767) bump_token_version u) = u_version u.
Proof.
  intros H. assert (G : forall n, u_version (Nat.iter n bump_token_version u) = (u_version u + Z.of_nat n) mod 32767).
  { induction n as [ | n IH ]; [cbn; rewrite Z.mod_small; lia | ]. change (Nat.iter (S n) bump_token_version u) with (bump_token_version (Nat.iter n bump_token_version u)).
    cbn [bump_token_version u_version]. rewrite IH, Z.add_mod_idemp_l by lia. f_equal. lia. }
  rewrite G, Z2Nat.id by lia. rewrite <- (Z_mod_plus_full _ (-1) 32767), Z.mod_small; lia.
Qed.

(** An address registered with a blank around it is stored without it, and the login with
    what was typed is refused. *)
Lemma address_is_stripped_once :
  (happen env (Registers id2 "s" " ann@x" "correct horse" None) start).2 = Ok (Status "verification_sent") /\
  (login env " ann@x" "correct horse" (happen env (Registers id2 "s" " ann@x" "correct horse" None) start).1).2 = Err (Http 401 "Invalid email or password").
Proof. vm_compute. split; reflexivity. Qed.
End Findings.
