(* ===== verification/ExtensionTrust.v ===== *)
(** * What an extension is trusted with

    platform_layer/extension_policy.py, extension_capabilities.py, extension_signing.py,
    extension_provenance.py and plugin_artifacts.py: the classes of owners, where an
    extension may send requests, the capabilities of a surface, the provenance an
    extension declares and what of it is verified, signatures of bundles and the admission
    of plugin artifacts.

    [env] holds what the code asks of its surroundings: the environment variables, the
    file system, SHA-256, base64, JSON and the Ed25519 primitive. The texts of the
    refusals are not modelled. Strings are ASCII. *)

From Stdlib Require Import Ascii.
From stdpp Require Import sorting.
From S2P Require Import Prelude PyStr PyVal ExtensionWorker Egress.

Local Open Scope string_scope.
Local Open Scope Z_scope.
Local Open Scope list_scope.
Local Open Scope py_scope.

(** ** Surroundings *)

Record env := Env {
  e_environ : list (string * string);
  e_sha256 : string -> string;                      (* hexadecimal SHA-256 of some bytes *)
  e_dumps : pyval -> string;                        (* [json.dumps], keys sorted, no spaces *)
  e_loads : string -> option pyval;                 (* [json.loads]; [None] where it raises *)
  e_b64decode : string -> option string;
  e_ed25519 : string -> string -> string -> bool;   (* key, message, signature: accepted *)
  e_ipv6 : string -> option bool;                   (* an IPv6 address, and whether it is not routable *)
  e_bracketed_ok : string -> bool;                  (* the text in brackets is an address of a URL *)
  e_resolve : string -> string;                     (* [str(Path(p).resolve())] *)
  e_is_dir : string -> bool;
  e_is_file : string -> bool;
  e_read : string -> option string;                 (* the bytes of a file; [None] where it cannot be read *)
  e_rglob : string -> list (list string) }.         (* what lies below a directory, as path parts *)

Definition getenv (E : env) (k d : string) : string := default d (dict_get k (e_environ E)).

(** What is wrong with the definition of a flow. *)
Inductive flow_error :=
| FlowNameEmpty | FlowNameLong | FlowNameCharacters
| NoNodes | TooManyNodes | DuplicateNodes | EmptyNodeName | EmptyEndName
| UnknownNodes (l : list string) | StartUnknown | NoEnd | EndsUnknown (l : list string) | SourcesUnknown (l : list string)
| DuplicateTargets (src : string) | TargetsUnknown (src : string) (l : list string) | TooManyEdges | Orphans (l : list string).

Inductive refusal :=
| BadOwnerClass (owner : string)
| BadModuleName | IllegalModulePath | ModuleNotIdentifiers | OutsideOwnerPrefix | OutsidePrefixes | RuntimeManifestOnly
| InProcessThirdParty
| UrlMalformed | UrlScheme | UrlNoHost | UrlCredentials | UrlPrivate (host : string)
| UnknownSurface (surface : string) | UnsupportedCapabilities (caps : list string)
| ProvenanceInvalid | ProvenanceRequired | IntegrityUndeclared | IntegrityAlgorithm | IntegrityMismatch
| MustBeSigned | SignatureFailed (why : string) | UnreadableSource
| NotAnArtifactOwner | ArtifactNotADirectory | ManifestMissing | ManifestNotJson | ManifestInvalid | ArtifactKind
| ArtifactSchema | ArtifactOwner | EntrypointMismatch | CodeDirMissing | CodeDirEscapes | ArtifactUnreadable
| ArtifactAlgorithm | ArtifactIntegrity
| NoName | BadNodeType | NoHandler | ArtifactPathRequired | HandlerNoColon | HandlerIllegalPath | HandlerNotIdentifiers
| PluginNotFound | PluginNotLoadable | PluginBadSignature | HostRefused (why : string) | NodeExists
| FlowInvalid (errors : list flow_error) | FlowExists
| NoEventType.

(** ** Owners and trust: extension_policy.py *)

Definition OWNER_RUNTIME_BUILTIN : string := "runtime-built-in".
Definition OWNER_FIRST_PARTY_APP : string := "first-party-app".
Definition OWNER_EXTERNAL_THIRD_PARTY : string := "external-third-party".
Definition ALLOWED_EXTENSION_OWNER_CLASSES : list string :=
  [OWNER_RUNTIME_BUILTIN; OWNER_FIRST_PARTY_APP; OWNER_EXTERNAL_THIRD_PARTY].

Definition env_truthy (E : env) (name : string) : bool :=
  bool_decide (str_lower (getenv E name "false") ∈ ["1"; "true"; "yes"]).

Definition configured_prefixes (E : env) (name : string) (d : list string) : list string :=
  let configured := str_strip (getenv E name "") in
  if bool_decide (configured = "") then d
  else match base.filter (fun p => p <> "") (map str_strip (split_char ","%char configured)) with [] => d | ps => ps end.

Definition trusted_bootstrap_prefixes (E : env) : list string :=
  configured_prefixes E "AINDY_TRUSTED_BOOTSTRAP_PREFIXES" ["AINDY."; "apps."].
Definition external_bootstrap_prefixes (E : env) : list string :=
  configured_prefixes E "AINDY_EXTERNAL_BOOTSTRAP_PREFIXES" [].

Definition infer_bootstrap_owner_class (module_name : string) : string :=
  let cleaned := str_strip module_name in
  if starts_with "AINDY." cleaned then OWNER_RUNTIME_BUILTIN
  else if starts_with "apps." cleaned then OWNER_FIRST_PARTY_APP
  else OWNER_EXTERNAL_THIRD_PARTY.

Definition validate_extension_owner_class (owner_class : string) : result refusal string :=
  let cleaned := str_strip owner_class in
  if bool_decide (cleaned ∈ ALLOWED_EXTENSION_OWNER_CLASSES) then Ok cleaned else Err (BadOwnerClass owner_class).

Definition python_extension_trust_class (owner_class : string) : result refusal string :=
  let? resolved := validate_extension_owner_class owner_class in
  Ok (if bool_decide (resolved = OWNER_RUNTIME_BUILTIN) then "trusted-runtime-python"
      else if bool_decide (resolved = OWNER_FIRST_PARTY_APP) then "trusted-first-party-python"
      else "isolated-third-party-python").

Record execution_metadata := ExecutionMetadata { xm_trust : string; xm_model : string; xm_sandboxing : string }.

Definition python_extension_execution_metadata (owner_class surface : string) : result refusal execution_metadata :=
  let? resolved := validate_extension_owner_class owner_class in
  let? trust := python_extension_trust_class resolved in
  let on_node := bool_decide (surface = "dynamic plugin node") in
  let md := ExecutionMetadata trust "trusted-in-process-python" "none" in
  let md1 := if bool_decide (resolved = OWNER_FIRST_PARTY_APP) && on_node
             then ExecutionMetadata "isolated-first-party-python" "isolated-plugin-host" "subprocess-boundary" else md in
  Ok (if bool_decide (resolved = OWNER_EXTERNAL_THIRD_PARTY)
      then if on_node then ExecutionMetadata (xm_trust md1) "isolated-plugin-host" "subprocess-boundary"
           else ExecutionMetadata (xm_trust md1) "blocked-external-python" "not-applicable"
      else md1).

Definition assert_python_extension_allowed (owner_class surface : string) : result refusal string :=
  let? resolved := validate_extension_owner_class owner_class in
  let on_node := bool_decide (surface = "dynamic plugin node") in
  if bool_decide (resolved = OWNER_FIRST_PARTY_APP) && on_node then Ok "isolated-first-party-python"
  else if negb (bool_decide (resolved = OWNER_EXTERNAL_THIRD_PARTY)) then python_extension_trust_class resolved
  else if on_node then Ok "isolated-third-party-python"
  else Err InProcessThirdParty.

Definition refuse_if (b : bool) (why : refusal) : result refusal unit := if b then Err why else Ok tt.

Definition validate_bootstrap_module_name (E : env) (module_name : string) (owner_class manifest_owner : option string)
    : result refusal string :=
  let cleaned := str_strip module_name in
  let? _ := refuse_if (bool_decide (cleaned = "")) BadModuleName in
  let? _ := refuse_if (existsb (fun token => str_in token cleaned) ["/"; "\"; ":"; ".."] || starts_with "." cleaned) IllegalModulePath in
  let? _ := refuse_if (negb (forallb isidentifier (split_char "."%char cleaned))) ModuleNotIdentifiers in
  let? owner := validate_extension_owner_class
                  (match owner_class with Some o => if bool_decide (o = "") then infer_bootstrap_owner_class cleaned else o
                                        | None => infer_bootstrap_owner_class cleaned end) in
  let? _ := refuse_if (bool_decide (owner = OWNER_RUNTIME_BUILTIN) && negb (starts_with "AINDY." cleaned)) OutsideOwnerPrefix in
  let? _ := refuse_if (bool_decide (owner = OWNER_FIRST_PARTY_APP) && negb (starts_with "apps." cleaned)) OutsideOwnerPrefix in
  let? _ := refuse_if (bool_decide (owner = OWNER_EXTERNAL_THIRD_PARTY)
                       && negb (existsb (fun p => starts_with p cleaned) (external_bootstrap_prefixes E))) OutsidePrefixes in
  let? _ := refuse_if (negb (bool_decide (owner = OWNER_EXTERNAL_THIRD_PARTY))
                       && negb (existsb (fun p => starts_with p cleaned) (trusted_bootstrap_prefixes E))) OutsidePrefixes in
  let? _ := refuse_if (bool_decide (manifest_owner = Some "runtime") && negb (bool_decide (owner = OWNER_RUNTIME_BUILTIN))) RuntimeManifestOnly in
  Ok owner.

(** *** Where an extension may send requests *)

(** [ipaddress.IPv4Address(s)] as its four octets. *)
Definition ipv4_octet (s : string) : option Z :=
  let l := String.list_ascii_of_string s in
  let digits := forallb (fun c => bool_decide (digit_value c <> None)) l in
  if digits && bool_decide (0 < length l <= 3)%nat && negb (bool_decide (1 < length l)%nat && starts_with "0" s)
  then match parse_digits true s 0 with Some n => if n <=? 255 then Some n else None | None => None end
  else None.

Definition ipv4_address (s : string) : option (Z * Z * Z * Z) :=
  match map ipv4_octet (split_char "."%char s) with
  | [Some a; Some b; Some c; Some d] => Some (a, b, c, d)
  | _ => None
  end.

(** [is_private], [is_loopback], [is_link_local], [is_multicast] or [is_reserved]. *)
Definition ipv4_not_routable (ip : Z * Z * Z * Z) : bool :=
  let '(a, b, c, d) := ip in
  (a =? 0) || (a =? 10) || (a =? 127) || ((a =? 169) && (b =? 254)) || ((a =? 172) && (16 <=? b) && (b <=? 31))
  || ((a =? 192) && (b =? 0) && (c =? 0) && negb ((d =? 9) || (d =? 10)))
  || ((a =? 192) && (b =? 0) && (c =? 2)) || ((a =? 192) && (b =? 168))
  || ((a =? 198) && ((b =? 18) || (b =? 19))) || ((a =? 198) && (b =? 51) && (c =? 100))
  || ((a =? 203) && (b =? 0) && (c =? 113)) || (224 <=? a).

(** [ipaddress.ip_address(host)]: whether it is not routable; [None] is its ValueError. *)
Definition ip_address (E : env) (host : string) : option bool :=
  match ipv4_address host with Some ip => Some (ipv4_not_routable ip) | None => e_ipv6 E host end.

Record url := Url { u_scheme : string; u_netloc : string }.

Definition is_control (c : ascii) : bool := (nat_of_ascii c <=? 32)%nat.
Fixpoint remove_chars (p : ascii -> bool) (s : string) : string :=
  match s with EmptyString => EmptyString | String c s' => if p c then remove_chars p s' else String c (remove_chars p s') end.
Definition is_scheme_char (c : ascii) : bool := is_alnum c || bool_decide (c ∈ ["+"; "-"; "."]%char).

(** [urlparse(s)], the scheme and the authority; [None] is its ValueError. *)
Definition urlparse (E : env) (s : string) : option url :=
  let s1 := remove_chars (fun c => bool_decide (nat_of_ascii c ∈ [9; 10; 13]%nat)) (lstrip is_control s) in
  let before := before_char ":"%char s1 in
  let has_scheme := str_in ":" s1 && bool_decide (before <> "") && forallb is_scheme_char (String.list_ascii_of_string before)
                    && match s1 with String c _ => is_alpha c | EmptyString => false end in
  let '(scheme, rest) := if has_scheme then (str_lower before, after_char ":"%char s1) else ("", s1) in
  if starts_with "//" rest then
    let netloc := before_char "#"%char (before_char "?"%char (before_char "/"%char (drop_str 2 rest))) in
    let opens := str_in "[" netloc in
    let closes := str_in "]" netloc in
    if negb (Bool.eqb opens closes) then None
    else if opens && negb (e_bracketed_ok E (before_char "]"%char (after_char "["%char netloc))) then None
    else Some (Url scheme netloc)
  else Some (Url scheme "").

(** [parsed.hostname or ""], with the lower-casing the caller adds. *)
Definition u_hostname (u : url) : string :=
  let hostinfo := after_last "@"%char (u_netloc u) in
  str_lower (if str_in "[" hostinfo then before_char "]"%char (after_char "["%char hostinfo) else before_char ":"%char hostinfo).

(** [parsed.username or parsed.password]: what precedes the last at sign holds a character other than one colon. *)
Definition u_credentials (u : url) : bool :=
  str_in "@" (u_netloc u)
  && let userinfo := join_char "@"%char (removelast (split_char "@"%char (u_netloc u))) in
     bool_decide (before_char ":"%char userinfo <> "") || bool_decide (after_char ":"%char userinfo <> "").

Definition PRIVATE_HOST_ALIASES : list string := ["localhost"; "127.0.0.1"; "::1"].

Definition private_extension_targets_allowed (E : env) : bool := env_truthy E "AINDY_ALLOW_PRIVATE_EXTENSION_TARGETS".

Definition validate_outbound_extension_url (E : env) (s : string) : result refusal unit :=
  match urlparse E s with
  | None => Err UrlMalformed
  | Some u =>
      let? _ := refuse_if (negb (bool_decide (u_scheme u ∈ ["http"; "https"]))) UrlScheme in
      let? _ := refuse_if (bool_decide (u_hostname u = "")) UrlNoHost in
      let? _ := refuse_if (u_credentials u) UrlCredentials in
      let hostname := str_strip (u_hostname u) in
      let? _ := refuse_if (bool_decide (hostname ∈ PRIVATE_HOST_ALIASES) && negb (private_extension_targets_allowed E)) (UrlPrivate hostname) in
      match ip_address E hostname with
      | None => Ok tt
      | Some blocked => refuse_if (blocked && negb (private_extension_targets_allowed E)) (UrlPrivate hostname)
      end
  end.

(** ** Capabilities: extension_capabilities.py *)

Definition CAP_OUTBOUND_HTTP : string := "outbound.http".
Definition PLUGIN_NODE : string := "dynamic-plugin-node".
Definition WEBHOOK_NODE : string := "webhook-node".
Definition WEBHOOK_SUBSCRIPTION : string := "webhook-subscription".
Definition DYNAMIC_FLOW : string := "dynamic-flow".

Definition TRUSTED_INTERNAL_AUTHORITY : string := "trusted-internal-ambient-authority".
Definition ISOLATED_CAPABILITY_AUTHORITY : string := "isolated-explicit-capabilities".
Definition CONTRACT_DRIVEN_AUTHORITY : string := "contract-driven-surface".

Record surface_policy := SurfacePolicy {
  sp_authority : string;
  sp_supported : list string;
  sp_default : list string;
  sp_network : option pyval;
  sp_filesystem : option pyval;
  sp_environment : option pyval;
  sp_secret : option pyval }.

Definition PLUGIN_HOST_ENV_ALLOWLIST : list string := ["PATH"; "PATHEXT"; "SYSTEMROOT"; "TEMP"; "TMP"; "WINDIR"].

(** [extension_capability_policy()["surfaces"]], without its explanatory notes. *)
Definition surface_policies : list (string * surface_policy) :=
  [("manifest-bootstrap", SurfacePolicy TRUSTED_INTERNAL_AUTHORITY [] [] None None None None);
   (PLUGIN_NODE, SurfacePolicy ISOLATED_CAPABILITY_AUTHORITY
      ["memory.read"; "memory.write"; "flow.run"; "event.emit"; "tool.invoke"; CAP_OUTBOUND_HTTP] []
      (Some (VDict [("default", VStr "deny"); ("capability_required", VStr CAP_OUTBOUND_HTTP); ("private_target_policy", VStr "deny");
                    ("private_target_override_env_var", VStr "AINDY_ALLOW_PRIVATE_EXTENSION_TARGETS");
                    ("enforcement_scope", VStr "plugin-host socket connect APIs")]))
      (Some (VDict [("default", VStr "read-only-approved-roots"); ("allowed_read_scope", VList [VStr "plugin_root"; VStr "python_runtime"]);
                    ("writes", VStr "deny"); ("enforcement_scope", VStr "plugin-host standard Python file APIs")]))
      (Some (VDict [("default", VStr "allowlist"); ("allowed_keys", VList (map VStr PLUGIN_HOST_ENV_ALLOWLIST)); ("secret_injection", VStr "none")]))
      (Some (VDict [("default", VStr "deny"); ("exposed_capabilities", VList [])])));
   (WEBHOOK_NODE, SurfacePolicy CONTRACT_DRIVEN_AUTHORITY [CAP_OUTBOUND_HTTP] [CAP_OUTBOUND_HTTP] None None None None);
   (WEBHOOK_SUBSCRIPTION, SurfacePolicy CONTRACT_DRIVEN_AUTHORITY [CAP_OUTBOUND_HTTP] [CAP_OUTBOUND_HTTP] None None None None);
   (DYNAMIC_FLOW, SurfacePolicy CONTRACT_DRIVEN_AUTHORITY [] [] None None None None)].

Definition policy_of (surface : string) : result refusal surface_policy :=
  match dict_get surface surface_policies with Some p => Ok p | None => Err (UnknownSurface surface) end.

Definition first_party_isolated_surface (owner_class surface : string) : result refusal bool :=
  let? resolved := validate_extension_owner_class owner_class in
  Ok (bool_decide (resolved = OWNER_FIRST_PARTY_APP) && bool_decide (surface = PLUGIN_NODE)).

(** Requested values that are not texts are ignored. *)
Definition requested_texts (requested : list pyval) : list string :=
  sorted_set (base.filter (fun c => c <> "") (omap (fun v => match v with VStr s => Some (str_strip s) | _ => None end) requested)).

Definition normalize_extension_capabilities (owner_class surface : string) (requested : list pyval) : result refusal (list string) :=
  let? resolved := validate_extension_owner_class owner_class in
  let? policy := policy_of surface in
  let? isolated := first_party_isolated_surface resolved surface in
  if bool_decide (resolved = OWNER_RUNTIME_BUILTIN) then Ok []
  else if bool_decide (resolved = OWNER_FIRST_PARTY_APP) && negb isolated then Ok []
  else
    let requested_caps := requested_texts requested in
    let unsupported := base.filter (fun c => c ∉ sp_supported policy) requested_caps in
    let? _ := refuse_if (bool_decide (unsupported <> [])) (UnsupportedCapabilities unsupported) in
    let default_caps := sorted_set (sp_default policy) in
    if bool_decide (resolved = OWNER_FIRST_PARTY_APP) && isolated then Ok (sorted_set (default_caps ++ requested_caps))
    else if negb (bool_decide (resolved = OWNER_EXTERNAL_THIRD_PARTY)) then Ok default_caps
    else Ok (sorted_set (default_caps ++ requested_caps)).

(** Whether an owner works on a surface with the runtime's own authority. *)
Definition ambient (resolved surface : string) : result refusal bool :=
  let? isolated := first_party_isolated_surface resolved surface in
  Ok (bool_decide (resolved = OWNER_RUNTIME_BUILTIN) || (bool_decide (resolved = OWNER_FIRST_PARTY_APP) && negb isolated)).

Definition extension_authority_model (owner_class surface : string) : result refusal string :=
  let? resolved := validate_extension_owner_class owner_class in
  let? trusted := ambient resolved surface in
  if trusted then Ok TRUSTED_INTERNAL_AUTHORITY else let? p := policy_of surface in Ok (sp_authority p).

Definition extension_resource_access_summary (owner_class surface : string) (granted : list string) : result refusal pyval :=
  let? resolved := validate_extension_owner_class owner_class in
  let? trusted := ambient resolved surface in
  let internal := VDict [("policy", VStr "trusted-internal")] in
  if trusted
  then Ok (VDict [("authority_model", VStr TRUSTED_INTERNAL_AUTHORITY); ("network", internal); ("filesystem", internal);
                  ("environment", internal); ("secret_access", internal)])
  else
    let? p := policy_of surface in
    let contract := VDict [("policy", VStr "contract-driven")] in
    Ok (VDict [("authority_model", VStr (sp_authority p)); ("granted_capabilities", VList (map VStr granted));
               ("network", default contract (sp_network p)); ("filesystem", default contract (sp_filesystem p));
               ("environment", default contract (sp_environment p));
               ("secret_access", default (VDict [("policy", VStr "deny")]) (sp_secret p))]).

(** ** Signatures: extension_signing.py *)

Definition PRODUCTION_PROFILES : list string :=
  ["distributed-api"; "distributed-api-worker"; "production"; "strong-sandbox"; "strong-sandbox-vm"].

Definition key_fingerprint (E : env) (public_key_b64 : string) : option string :=
  match e_b64decode E public_key_b64 with Some raw => Some ("sha256:" +:+ e_sha256 E raw) | None => None end.

(** Any error is a refusal. *)
Definition verify_digest (E : env) (public_key_b64 digest_hex signature_b64 : string) : bool :=
  match e_b64decode E public_key_b64, e_b64decode E signature_b64 with
  | Some pub, Some sig => e_ed25519 E pub digest_hex sig
  | _, _ => false
  end.

(** The trust registry: fingerprint to public key. *)
Definition trust : Type := list (string * string).

Definition register_trusted_key (E : env) (public_key_b64 : string) (t : trust) : trust * option string :=
  match key_fingerprint E public_key_b64 with
  | Some fp => (dict_set fp public_key_b64 t, Some fp)
  | None => (t, None)
  end.
Definition is_trusted (fingerprint : string) (t : trust) : bool := dict_mem fingerprint t.
Definition trusted_public_key (fingerprint : string) (t : trust) : option string := dict_get fingerprint t.
Definition clear_trusted_keys (t : trust) : trust := [].

Definition text_truthy (s : option string) : bool := match s with Some t => bool_decide (t <> "") | None => false end.

Definition verify_bundle_signature (E : env) (t : trust) (digest_hex : string) (signature key_id : option string) : result string string :=
  if negb (text_truthy signature) || negb (text_truthy key_id) then Err "bundle is unsigned"
  else
    match trusted_public_key (default "" key_id) t with
    | None => Err "signing key is not in the trust registry"
    | Some pub => if verify_digest E pub digest_hex (default "" signature) then Ok (default "" key_id) else Err "signature verification failed"
    end.

Definition signature_required (profile : string) : bool := bool_decide (str_lower (str_strip profile) ∈ PRODUCTION_PROFILES).

Definition require_signed_plugins (E : env) : bool :=
  bool_decide (str_lower (str_strip (getenv E "AINDY_REQUIRE_SIGNED_PLUGINS" "")) ∈ ["1"; "true"; "yes"; "on"]).

Record gate := Gate { g_allowed : bool; g_verified : bool; g_error : option string }.

Definition enforce_bundle_signature (E : env) (t : trust) (profile digest_hex : string) (signature key_id : option string) : gate :=
  match verify_bundle_signature E t digest_hex signature key_id with
  | Ok _ => Gate true true None
  | Err why => if signature_required profile then Gate false false (Some why) else Gate true false (Some why)
  end.

(** ** Provenance: extension_provenance.py *)

(** *** Declarations, as pydantic validates them *)

Definition text_between (lo hi : nat) (v : pyval) : option string :=
  match v with VStr s => if bool_decide (lo <= String.length s <= hi)%nat then Some s else None | _ => None end.

Definition required_text (k : string) (lo hi : nat) (d : list (string * pyval)) : option string :=
  match dict_get k d with Some v => text_between lo hi v | None => None end.

Definition any_text (v : pyval) : option string := match v with VStr s => Some s | _ => None end.

Definition text_with_default (k d0 : string) (d : list (string * pyval)) : option string :=
  match dict_get k d with Some v => any_text v | None => Some d0 end.

(** [str | None] with a maximal length. *)
Definition optional_text (k : string) (hi : nat) (d : list (string * pyval)) : option (option string) :=
  match dict_get k d with
  | None | Some VNone => Some None
  | Some v => match text_between 0 hi v with Some s => Some (Some s) | None => None end
  end.

Definition only_keys (ks : list string) (d : list (string * pyval)) : bool := forallb (fun k => bool_decide (k ∈ ks)) (dict_keys d).

Definition is_hex (c : ascii) : bool :=
  let n := nat_of_ascii c in (48 <=? n)%nat && (n <=? 57)%nat || (97 <=? n)%nat && (n <=? 102)%nat.
Definition is_sha256_hex (s : string) : bool := bool_decide (String.length s = 64%nat) && forallb is_hex (String.list_ascii_of_string s).

Record integrity := Integrity { in_algorithm : string; in_value : string }.
Record signature := Signature { sg_algorithm : string; sg_value : string; sg_key : string }.
Record declaration := Declaration {
  de_id : string;
  de_version : string;
  de_source_type : string;
  de_source_ref : string;
  de_integrity : option integrity;
  de_signature : option signature;
  de_publisher : option string }.

Definition validate_integrity (v : pyval) : option integrity :=
  match v with
  | VDict d =>
      if only_keys ["algorithm"; "value"] d then
        match text_with_default "algorithm" "sha256" d, dict_get "value" d with
        | Some alg, Some (VStr h) => if is_sha256_hex h then Some (Integrity alg h) else None
        | _, _ => None
        end
      else None
  | _ => None
  end.

Definition validate_signature (v : pyval) : option signature :=
  match v with
  | VDict d =>
      if only_keys ["algorithm"; "value"; "key_id"] d then
        match text_with_default "algorithm" "ed25519" d, required_text "value" 1 512 d, required_text "key_id" 1 256 d with
        | Some alg, Some s, Some k => Some (Signature alg s k)
        | _, _, _ => None
        end
      else None
  | _ => None
  end.

(** A field that may be absent or null. *)
Definition nullable {A} (k : string) (f : pyval -> option A) (d : list (string * pyval)) : option (option A) :=
  match dict_get k d with
  | None | Some VNone => Some None
  | Some v => match f v with Some a => Some (Some a) | None => None end
  end.

Definition DECLARATION_FIELDS : list string :=
  ["extension_id"; "version"; "source_type"; "source_ref"; "integrity"; "signature"; "publisher"].

(** [ExtensionProvenanceDeclaration.model_validate] *)
Definition validate_declaration (v : pyval) : option declaration :=
  match v with
  | VDict d =>
      if only_keys DECLARATION_FIELDS d then
        match required_text "extension_id" 1 256 d, required_text "version" 1 128 d, required_text "source_type" 1 64 d,
              required_text "source_ref" 1 2048 d, nullable "integrity" validate_integrity d, nullable "signature" validate_signature d,
              optional_text "publisher" 256 d with
        | Some i, Some ver, Some st, Some sr, Some inte, Some sg, Some pub => Some (Declaration i ver st sr inte sg pub)
        | _, _, _, _, _, _, _ => None
        end
      else None
  | _ => None
  end.

(** *** Derivation *)

(** The [signing] block of a provenance. *)
Record signing := Signing { si_status : string; si_verified : bool; si_algorithm : option string; si_key : option string; si_error : option string }.
Definition unsigned : signing := Signing "unsigned" false None None None.

Record provenance := Provenance {
  pv_owner : string;
  pv_surface : string;
  pv_id : string;
  pv_version : string;
  pv_source_type : string;
  pv_source_ref : string;
  pv_publisher : option string;
  pv_verification : string;
  pv_observed : option string;
  pv_signing : option signing }.

Definition SURFACES_REQUIRING_PROVENANCE : list string := [PLUGIN_NODE; WEBHOOK_NODE; WEBHOOK_SUBSCRIPTION; DYNAMIC_FLOW].

Definition provenance_required (owner_class surface : string) : result refusal bool :=
  let? resolved := validate_extension_owner_class owner_class in
  Ok (bool_decide (resolved = OWNER_EXTERNAL_THIRD_PARTY) && bool_decide (surface ∈ SURFACES_REQUIRING_PROVENANCE)).

Definition sha256_json_document (E : env) (payload : pyval) : string := e_sha256 E (e_dumps E payload).

Definition validated_declared_provenance (declared : option pyval) : result refusal (option declaration) :=
  match declared with
  | None => Ok None
  | Some v => match validate_declaration v with Some d => Ok (Some d) | None => Err ProvenanceInvalid end
  end.

Definition verify_integrity_match (declared : option integrity) (observed_hash : string) : result refusal unit :=
  match declared with
  | None => Err IntegrityUndeclared
  | Some i =>
      let? _ := refuse_if (negb (bool_decide (in_algorithm i = "sha256"))) IntegrityAlgorithm in
      refuse_if (negb (bool_decide (in_value i = observed_hash))) IntegrityMismatch
  end.

Definition describe_and_enforce_signature (E : env) (t : trust) (declared : option signature) (observed_hash : string)
    (deployment_profile : option string) (require_signature : bool) : result refusal signing :=
  let profile := str_strip (default "" deployment_profile) in
  let enforced := require_signature && require_signed_plugins E && signature_required profile in
  match declared with
  | Some s =>
      if bool_decide (observed_hash = "") then if enforced then Err MustBeSigned else Ok unsigned
      else
        match verify_bundle_signature E t observed_hash (Some (sg_value s)) (Some (sg_key s)) with
        | Err why =>
            if enforced then Err (SignatureFailed why)
            else Ok (Signing "unverified" false (Some (sg_algorithm s)) (Some (sg_key s)) (Some why))
        | Ok _ => Ok (Signing "verified" true (Some (sg_algorithm s)) (Some (sg_key s)) None)
        end
  | None => if enforced then Err MustBeSigned else Ok unsigned
  end.

(** The payload of a provenance before and after a declaration replaces it. *)
Record source := Source { so_id : string; so_version : string; so_type : string; so_ref : string; so_publisher : option string }.
Definition declared_source (d : declaration) : source :=
  Source (de_id d) (de_version d) (de_source_type d) (de_source_ref d) (de_publisher d).

Definition finalize_provenance (owner surface : string) (s : source) (observed : option string) (verification : string) (sg : option signing) : provenance :=
  Provenance owner surface (so_id s) (so_version s) (so_type s) (so_ref s) (so_publisher s) verification observed sg.

Definition DECLARED_AND_VERIFIED : string := "declared-and-verified".
Definition LEGACY_UNVERIFIED : string := "legacy-restore-unverified".

Definition derive_python_extension_provenance (E : env) (runtime_version owner_class surface extension_name module_name : string)
    (source_path : string) (declared : option pyval) (allow_legacy_missing : bool) : result refusal provenance :=
  let? resolved := validate_extension_owner_class owner_class in
  let source_text := str_strip source_path in
  let? observed := if bool_decide (source_text = "") then Ok None
                   else match e_read E source_text with Some b => Ok (Some (e_sha256 E b)) | None => Err UnreadableSource end in
  let source_type := if bool_decide (resolved = OWNER_RUNTIME_BUILTIN) then "runtime-package"
                     else if bool_decide (resolved = OWNER_FIRST_PARTY_APP) then "first-party-source-tree" else "external-source-tree" in
  let version := if bool_decide (resolved = OWNER_RUNTIME_BUILTIN) then runtime_version else "unversioned-source" in
  let own := Source (if bool_decide (module_name = "") then extension_name else module_name) version source_type
               (if bool_decide (source_text = "") then module_name else source_text) None in
  let? model := validated_declared_provenance declared in
  match model with
  | Some d =>
      match observed with
      | Some h => let? _ := verify_integrity_match (de_integrity d) h in
                  Ok (finalize_provenance resolved surface (declared_source d) observed DECLARED_AND_VERIFIED None)
      | None => Ok (finalize_provenance resolved surface (declared_source d) observed "declared-no-local-bytes" None)
      end
  | None =>
      let? required := provenance_required resolved surface in
      if required then
        if allow_legacy_missing then Ok (finalize_provenance resolved surface own observed LEGACY_UNVERIFIED None) else Err ProvenanceRequired
      else Ok (finalize_provenance resolved surface own observed "runtime-derived" None)
  end.

Definition derive_plugin_artifact_provenance (E : env) (t : trust) (owner_class surface extension_name extension_id version artifact_path observed_hash : string)
    (publisher : option string) (declared : option pyval) (allow_legacy_missing : bool) (deployment_profile : option string)
    : result refusal provenance :=
  let? resolved := validate_extension_owner_class owner_class in
  let artifact_text := str_strip artifact_path in
  let own := Source (if bool_decide (extension_id = "") then extension_name else extension_id) version "external-plugin-artifact"
               (if bool_decide (artifact_text = "") then extension_name else artifact_text) publisher in
  let? model := validated_declared_provenance declared in
  let? required := provenance_required resolved surface in
  match model with
  | Some d =>
      let? _ := verify_integrity_match (de_integrity d) observed_hash in
      let? sg := describe_and_enforce_signature E t (de_signature d) observed_hash deployment_profile required in
      Ok (finalize_provenance resolved surface (declared_source d) (Some observed_hash) DECLARED_AND_VERIFIED (Some sg))
  | None =>
      if required then
        if allow_legacy_missing then Ok (finalize_provenance resolved surface own (Some observed_hash) LEGACY_UNVERIFIED None)
        else Err ProvenanceRequired
      else
        let? sg := describe_and_enforce_signature E t None observed_hash deployment_profile required in
        Ok (finalize_provenance resolved surface own (Some observed_hash) "runtime-derived" (Some sg))
  end.

Definition derive_structured_extension_provenance (E : env) (owner_class surface extension_name : string) (artifact_payload : pyval)
    (source_type source_ref : string) (declared : option pyval) (allow_legacy_missing : bool) : result refusal provenance :=
  let? resolved := validate_extension_owner_class owner_class in
  let observed := sha256_json_document E artifact_payload in
  let own := Source extension_name "unversioned-registration" source_type source_ref None in
  let? model := validated_declared_provenance declared in
  match model with
  | Some d =>
      let? _ := verify_integrity_match (de_integrity d) observed in
      Ok (finalize_provenance resolved surface (declared_source d) (Some observed) DECLARED_AND_VERIFIED None)
  | None =>
      let? required := provenance_required resolved surface in
      if required then
        if allow_legacy_missing then Ok (finalize_provenance resolved surface own (Some observed) LEGACY_UNVERIFIED None) else Err ProvenanceRequired
      else Ok (finalize_provenance resolved surface own (Some observed) "runtime-derived" None)
  end.

Definition vopt (o : option string) : pyval := match o with Some s => VStr s | None => VNone end.

Definition trust_policy (owner : string) : string :=
  if bool_decide (owner = OWNER_RUNTIME_BUILTIN) then "runtime-owned-derived"
  else if bool_decide (owner = OWNER_FIRST_PARTY_APP) then "first-party-derived" else "operator-declared-and-runtime-verified".

(** The dictionary [_finalize_provenance] returns: what is stored and persisted. *)
Definition provenance_items (p : provenance) : list (string * pyval) :=
  [("schema_version", VStr "2026-05-20"); ("owner_class", VStr (pv_owner p)); ("surface", VStr (pv_surface p));
         ("extension_id", VStr (pv_id p)); ("version", VStr (pv_version p)); ("source_type", VStr (pv_source_type p));
         ("source_ref", VStr (pv_source_ref p)); ("publisher", vopt (pv_publisher p)); ("verification", VStr (pv_verification p));
         ("trust_policy", VStr (trust_policy (pv_owner p)));
         ("integrity", VDict [("algorithm", if text_truthy (pv_observed p) then VStr "sha256" else VNone);
                              ("observed", vopt (pv_observed p));
                              ("status", VStr (if bool_decide (pv_verification p = DECLARED_AND_VERIFIED) then "verified"
                                               else if text_truthy (pv_observed p) then "derived-local" else "not-applicable"))]);
         ("signing", VDict (match pv_signing p with
                            | None => [("status", VStr "unsigned"); ("verified", VBool false)]
                            | Some sg =>
                                [("status", VStr (si_status sg)); ("verified", VBool (si_verified sg));
                                 ("algorithm", vopt (si_algorithm sg)); ("key_id", vopt (si_key sg))]
                                ++ match si_error sg with Some e => [("error", VStr e)] | None => [] end
                            end))].

Definition provenance_dict (p : provenance) : pyval := VDict (provenance_items p).

(** *** The audit summary *)

Record summary := Summary {
  su_total : Z; su_verified : Z; su_derived : Z; su_missing : Z;
  su_by_owner : list (string * Z); su_by_surface : list (string * Z) }.

Definition bump (k : string) (d : list (string * Z)) : list (string * Z) := dict_set k (default 0 (dict_get k d) + 1) d.

Definition entry_text (render : pyval -> string) (k : string) (e : list (string * pyval)) : string :=
  if py_truth (py_get k e) then str_strip (py_str render (py_get k e)) else "".

Definition summarize_entry (render : pyval -> string) (s : summary) (e : list (string * pyval)) : summary :=
  let owner := entry_text render "owner_class" e in
  let surface := entry_text render "surface" e in
  let verification := entry_text render "verification" e in
  let verified := bool_decide (verification = DECLARED_AND_VERIFIED) in
  let absent := bool_decide (verification = "") in
  Summary (su_total s) (if verified then su_verified s + 1 else su_verified s)
    (if negb verified && negb absent then su_derived s + 1 else su_derived s)
    (if negb verified && absent then su_missing s + 1 else su_missing s)
    (if dict_mem owner (su_by_owner s) then bump owner (su_by_owner s) else su_by_owner s)
    (if bool_decide (surface = "") then su_by_surface s else bump surface (su_by_surface s)).

Definition summarize_extension_provenance (render : pyval -> string) (entries : list (list (string * pyval))) : summary :=
  foldl (summarize_entry render)
    (Summary (Z.of_nat (length entries)) 0 0 0 (map (fun o => (o, 0)) ALLOWED_EXTENSION_OWNER_CLASSES) []) entries.

(** ** Plugin artifacts: plugin_artifacts.py *)

Definition PLUGIN_ARTIFACT_KIND : string := "aindy-plugin-artifact".
Definition PLUGIN_ARTIFACT_SCHEMA_VERSION : string := "2026-05-21".
Definition PLUGIN_ARTIFACT_MANIFEST_FILENAME : string := "plugin-artifact.json".

Record manifest := Manifest {
  ma_kind : string;
  ma_schema : string;
  ma_id : string;
  ma_version : string;
  ma_owner : string;
  ma_publisher : option string;
  ma_entrypoint : string;
  ma_code_dir : string;
  ma_sandbox_launch : list (string * pyval);
  ma_integrity : integrity }.

Definition text_in (k d0 : string) (lo hi : nat) (d : list (string * pyval)) : option string :=
  match dict_get k d with Some v => text_between lo hi v | None => Some d0 end.

(** [PluginArtifactRuntime] *)
Definition validate_runtime (v : pyval) : option (string * string * list (string * pyval)) :=
  match v with
  | VDict d =>
      if only_keys ["entrypoint"; "code_dir"; "sandbox_launch"] d then
        match required_text "entrypoint" 3 256 d, text_in "code_dir" "code" 1 128 d,
              match dict_get "sandbox_launch" d with None => Some [] | Some (VDict l) => Some l | Some _ => None end with
        | Some e, Some c, Some l => Some (e, c, l)
        | _, _, _ => None
        end
      else None
  | _ => None
  end.

Definition MANIFEST_FIELDS : list string :=
  ["kind"; "schema_version"; "extension_id"; "version"; "owner_class"; "publisher"; "runtime"; "integrity"].

(** [PluginArtifactManifest.model_validate] *)
Definition validate_manifest (v : pyval) : option manifest :=
  match v with
  | VDict d =>
      if only_keys MANIFEST_FIELDS d then
        match text_with_default "kind" PLUGIN_ARTIFACT_KIND d, text_with_default "schema_version" PLUGIN_ARTIFACT_SCHEMA_VERSION d,
              required_text "extension_id" 1 256 d, required_text "version" 1 128 d,
              text_with_default "owner_class" OWNER_EXTERNAL_THIRD_PARTY d, optional_text "publisher" 256 d,
              match dict_get "runtime" d with Some r => validate_runtime r | None => None end,
              match dict_get "integrity" d with Some i => validate_integrity i | None => None end with
        | Some k, Some sv, Some i, Some ver, Some o, Some pub, Some (e, c, l), Some inte => Some (Manifest k sv i ver o pub e c l inte)
        | _, _, _, _, _, _, _, _ => None
        end
      else None
  | _ => None
  end.

(** [manifest.model_dump()] without its integrity. *)
Definition manifest_without_integrity (m : manifest) : pyval :=
  VDict [("kind", VStr (ma_kind m)); ("schema_version", VStr (ma_schema m)); ("extension_id", VStr (ma_id m)); ("version", VStr (ma_version m));
         ("owner_class", VStr (ma_owner m)); ("publisher", vopt (ma_publisher m));
         ("runtime", VDict [("entrypoint", VStr (ma_entrypoint m)); ("code_dir", VStr (ma_code_dir m)); ("sandbox_launch", VDict (ma_sandbox_launch m))])].

(** [root / p]: an absolute [p] replaces the root. *)
Definition path_join (root p : string) : string := if starts_with "/" p then p else root +:+ "/" +:+ p.
Definition path_of (root : string) (parts : list string) : string := join_char "/"%char (root :: parts).

(** Paths are ordered by their parts. *)
Fixpoint parts_le (a b : list string) : bool :=
  match a, b with
  | [], _ => true
  | _ :: _, [] => false
  | x :: a', y :: b' => match String.compare x y with Lt => true | Gt => false | Eq => parts_le a' b' end
  end.

(** The files the hash covers: all but the manifest, in the order of their paths. *)
Definition bundle_files (E : env) (root : string) : list (list string) :=
  base.filter (fun parts => join_char "/"%char parts <> PLUGIN_ARTIFACT_MANIFEST_FILENAME)
    (List.filter (fun parts => e_is_file E (path_of root parts)) (merge_sort (fun a b => Is_true (parts_le a b)) (e_rglob E root))).

Definition file_record (E : env) (root : string) (parts : list string) : option pyval :=
  match e_read E (path_of root parts) with
  | Some b => Some (VDict [("path", VStr (join_char "/"%char parts)); ("sha256", VStr (e_sha256 E b))])
  | None => None
  end.

Definition compute_plugin_artifact_integrity (E : env) (manifest_payload : pyval) (artifact_root : string) : option string :=
  let root := e_resolve E artifact_root in
  match mapM (file_record E root) (bundle_files E root) with
  | Some records => Some (sha256_json_document E (VDict [("manifest", manifest_payload); ("files", VList records)]))
  | None => None
  end.

Record bundle := Bundle {
  ad_root : string;
  ad_code : string;
  ad_entrypoint : string;
  ad_id : string;
  ad_version : string;
  ad_publisher : option string;
  ad_owner : string;
  ad_hash : string }.

(** [root in code_path.parents or code_path == root] *)
Definition within (root p : string) : bool :=
  bool_decide (p = root) || starts_with (if bool_decide (root = "/") then "/" else root +:+ "/") p.

Definition admit_plugin_artifact (E : env) (artifact_path expected_owner_class : string) (expected_handler : option string) : result refusal bundle :=
  let? owner := validate_extension_owner_class expected_owner_class in
  let? _ := refuse_if (negb (bool_decide (owner = OWNER_EXTERNAL_THIRD_PARTY))) NotAnArtifactOwner in
  let root := e_resolve E artifact_path in
  let? _ := refuse_if (negb (e_is_dir E root)) ArtifactNotADirectory in
  let manifest_path := path_join root PLUGIN_ARTIFACT_MANIFEST_FILENAME in
  let? _ := refuse_if (negb (e_is_file E manifest_path)) ManifestMissing in
  let? raw := match e_read E manifest_path with
              | Some text => match e_loads E text with Some v => Ok v | None => Err ManifestNotJson end
              | None => Err ManifestNotJson end in
  let? m := match validate_manifest raw with Some m => Ok m | None => Err ManifestInvalid end in
  let? _ := refuse_if (negb (bool_decide (ma_kind m = PLUGIN_ARTIFACT_KIND))) ArtifactKind in
  let? _ := refuse_if (negb (bool_decide (ma_schema m = PLUGIN_ARTIFACT_SCHEMA_VERSION))) ArtifactSchema in
  let? mo := validate_extension_owner_class (ma_owner m) in
  let? _ := refuse_if (negb (bool_decide (mo = OWNER_EXTERNAL_THIRD_PARTY))) ArtifactOwner in
  let? _ := refuse_if (text_truthy expected_handler && negb (bool_decide (ma_entrypoint m = default "" expected_handler))) EntrypointMismatch in
  let code_path := e_resolve E (path_join root (ma_code_dir m)) in
  let? _ := refuse_if (negb (e_is_dir E code_path)) CodeDirMissing in
  let? _ := refuse_if (negb (within root code_path)) CodeDirEscapes in
  let? observed := match compute_plugin_artifact_integrity E (manifest_without_integrity m) root with Some h => Ok h | None => Err ArtifactUnreadable end in
  let? _ := refuse_if (negb (bool_decide (in_algorithm (ma_integrity m) = "sha256"))) ArtifactAlgorithm in
  let? _ := refuse_if (negb (bool_decide (in_value (ma_integrity m) = observed))) ArtifactIntegrity in
  Ok (Bundle root code_path (ma_entrypoint m) (ma_id m) (ma_version m) (ma_publisher m) (ma_owner m) observed).

(** ** Properties *)

Lemma refuse_if_Ok b why u : refuse_if b why = Ok u -> b = false.
Proof. destruct b; [discriminate|done]. Qed.

(** Take a chain of [let?] that returned apart. *)
Ltac ok_inv H :=
  repeat match type of H with
  | result_bind (refuse_if ?b ?w) _ = Ok _ =>
      let E := fresh "Hok" in destruct (refuse_if b w) eqn:E; cbn [result_bind] in H; [apply refuse_if_Ok in E|discriminate H]
  | result_bind ?m _ = Ok _ => let E := fresh "Hok" in destruct m eqn:E; cbn [result_bind] in H; [|discriminate H]
  end.

Lemma validate_owner_Ok o r : validate_extension_owner_class o = Ok r -> r ∈ ALLOWED_EXTENSION_OWNER_CLASSES.
Proof. unfold validate_extension_owner_class. case_bool_decide as D; [by intros [= <-]|discriminate]. Qed.

Lemma validate_owner_idem r : r ∈ ALLOWED_EXTENSION_OWNER_CLASSES -> validate_extension_owner_class r = Ok r.
Proof. unfold ALLOWED_EXTENSION_OWNER_CLASSES. intros H. set_unfold. by destruct H as [->|[->|[->|[]]]]. Qed.

Lemma validate_owner_twice o r : validate_extension_owner_class o = Ok r -> validate_extension_owner_class r = Ok r.
Proof. intros H. by eapply validate_owner_idem, validate_owner_Ok. Qed.

(** *** Capabilities *)

(** What is granted on a surface is supported there, requested or given by default; the
    runtime's own extensions are granted nothing. *)
Lemma normalize_within owner surface requested caps p :
  normalize_extension_capabilities owner surface requested = Ok caps -> policy_of surface = Ok p ->
  caps ⊆ sp_supported p ++ sp_default p /\ caps ⊆ sp_default p ++ requested_texts requested /\ str_sorted caps.
Proof.
  unfold normalize_extension_capabilities. intros H Hp. ok_inv H. simplify_eq.
  assert (Hnil : ([] : list string) ⊆ sp_supported p ++ sp_default p /\ ([] : list string) ⊆ sp_default p ++ requested_texts requested /\ str_sorted [])
    by (split; [set_solver|split; [set_solver|constructor]]).
  repeat case_bool; simplify_eq; auto; ok_inv H; repeat case_bool; simplify_eq; boolprop;
    (split; [|split]); try apply sorted_set_sorted; intros c Hc; rewrite !elem_of_sorted_set, ?elem_of_app, ?elem_of_sorted_set in *;
    try (by auto); destruct Hc as [Hc|Hc]; auto; left.
  all: match goal with H : ¬ base.filter _ _ <> [] |- _ => apply dec_stable in H end.
  all: destruct (decide (c ∈ sp_supported p)) as [|Hn]; [done|exfalso].
  all: match goal with H : base.filter ?P ?l = [] |- _ => apply (not_elem_of_nil c); rewrite <- H; apply list_elem_of_filter; auto end.
Qed.

Lemma runtime_granted_nothing surface requested caps :
  normalize_extension_capabilities OWNER_RUNTIME_BUILTIN surface requested = Ok caps -> caps = [].
Proof. unfold normalize_extension_capabilities. rewrite (validate_owner_idem OWNER_RUNTIME_BUILTIN) by set_solver. cbn [result_bind]. intros H. ok_inv H.
  rewrite bool_decide_true in H by done. by simplify_eq. Qed.

(** *** Provenance *)

(** The two keys a stored provenance starts with are no keys of a declaration. *)
Lemma stored_provenance_is_no_declaration p : validate_declaration (provenance_dict p) = None.
Proof. reflexivity. Qed.

Lemma verify_integrity_Ok i h u : verify_integrity_match i h = Ok u -> exists d, i = Some d /\ in_value d = h.
Proof.
  unfold verify_integrity_match. destruct i as [d|]; [|discriminate]. intros H. ok_inv H.
  apply refuse_if_Ok in H. boolprop. eauto.
Qed.

(** The hash a declaration was found to match. *)
Definition declares (declared : option pyval) (h : string) : Prop :=
  exists v d i, declared = Some v /\ validate_declaration v = Some d /\ de_integrity d = Some i /\ in_value i = h.

Lemma validated_Some declared d : validated_declared_provenance declared = Ok (Some d) -> exists v, declared = Some v /\ validate_declaration v = Some d.
Proof. unfold validated_declared_provenance. repeat case_match; intros [=]; subst; eauto. Qed.

Lemma validated_None declared : validated_declared_provenance declared = Ok None -> declared = None.
Proof. unfold validated_declared_provenance. repeat case_match; intros [=]; done. Qed.

(** What a derived provenance says of the bytes it was derived from. *)
Record sound_provenance (owner surface : string) (declared : option pyval) (legacy : bool) (observed : string) (p : provenance) : Prop := {
  sp_owner : pv_owner p = owner;
  sp_surface : pv_surface p = surface;
  sp_observed : pv_observed p = Some observed;
  sp_kind : (pv_verification p = DECLARED_AND_VERIFIED /\ declares declared observed)
            \/ (pv_verification p = LEGACY_UNVERIFIED /\ declared = None /\ legacy = true)
            \/ (pv_verification p = "runtime-derived" /\ declared = None /\ provenance_required owner surface = Ok false) }.

Ltac derived :=
  match goal with
  | H : context [match ?m with Some _ => _ | None => _ end] |- _ =>
      match type of m with option declaration => destruct m as [?d|]; [|]; ok_inv H end
  end.

Lemma structured_sound E owner surface name payload ty ref declared legacy p o :
  derive_structured_extension_provenance E owner surface name payload ty ref declared legacy = Ok p ->
  validate_extension_owner_class owner = Ok o ->
  sound_provenance o surface declared legacy (sha256_json_document E payload) p.
Proof.
  unfold derive_structured_extension_provenance. intros H Ho. rewrite Ho in H. cbn [result_bind] in H. ok_inv H. derived.
  - apply verify_integrity_Ok in Hok0 as (i & Hi & Hv). apply validated_Some in Hok as (v & -> & Hd). simplify_eq.
    split; try done. left. split; [done|]. unfold declares. eauto 10.
  - apply validated_None in Hok as ->. destruct a; [destruct legacy; [|discriminate]|]; simplify_eq; split; try done; auto.
Qed.

Lemma artifact_sound E t owner surface name id ver path h pub declared legacy profile p o :
  derive_plugin_artifact_provenance E t owner surface name id ver path h pub declared legacy profile = Ok p ->
  validate_extension_owner_class owner = Ok o ->
  sound_provenance o surface declared legacy h p.
Proof.
  unfold derive_plugin_artifact_provenance. intros H Ho. rewrite Ho in H. cbn [result_bind] in H. ok_inv H. derived.
  - apply verify_integrity_Ok in Hok1 as (i & Hi & Hv). apply validated_Some in Hok as (v & -> & Hd). simplify_eq.
    split; try done. left. split; [done|]. unfold declares. eauto 10.
  - apply validated_None in Hok as ->. destruct a0; [destruct legacy; [|discriminate]; simplify_eq; split; try done; auto|].
    ok_inv H. simplify_eq. split; try done. auto.
Qed.

(** *** Signatures *)

(** The signature is one the primitive accepts under the trusted key of that name. *)
Definition genuine (E : env) (t : trust) (digest : string) (s : signature) : Prop :=
  exists pub, dict_get (sg_key s) t = Some pub /\ verify_digest E pub digest (sg_value s) = true.

Lemma verify_bundle_genuine E t h s k : verify_bundle_signature E t h (Some (sg_value s)) (Some (sg_key s)) = Ok k -> genuine E t h s.
Proof.
  unfold verify_bundle_signature, trusted_public_key. case_bool; [discriminate|]. cbn [default]. simpl.
  destruct (dict_get (sg_key s) t) as [pub|] eqn:Ep; [|discriminate]. destruct (verify_digest E pub h (sg_value s)) eqn:Ev; [|discriminate].
  intros _. by exists pub.
Qed.

(** Where signing is enforced, a third-party bundle has a provenance only if it declares a
    genuine signature of its digest; a bundle is reported verified nowhere else. *)
Lemma enforced_signature E t name id ver path h pub declared profile p :
  derive_plugin_artifact_provenance E t OWNER_EXTERNAL_THIRD_PARTY PLUGIN_NODE name id ver path h pub declared false (Some profile) = Ok p ->
  require_signed_plugins E = true -> signature_required profile = true ->
  exists v d s, declared = Some v /\ validate_declaration v = Some d /\ de_signature d = Some s /\ genuine E t h s /\
                exists sg, pv_signing p = Some sg /\ si_verified sg = true.
Proof.
  unfold derive_plugin_artifact_provenance. intros H Hr Hp. rewrite (validate_owner_idem OWNER_EXTERNAL_THIRD_PARTY) in H by set_solver.
  cbn [result_bind] in H. ok_inv H. derived; [|].
  - apply validated_Some in Hok as (v & -> & Hd).
    assert (a0 = true) as -> by (by vm_compute in Hok0; simplify_eq).
    unfold describe_and_enforce_signature in Hok2.
    assert (signature_required (str_strip (default "" (Some profile))) = true) as Hp' by (unfold signature_required in *; cbn [default]; by rewrite str_strip_idem).
    rewrite Hr, Hp' in Hok2. cbn [andb] in Hok2.
    destruct (de_signature d) as [s|] eqn:Es; [|discriminate]. case_bool; [discriminate|].
    destruct (verify_bundle_signature E t h (Some (sg_value s)) (Some (sg_key s))) eqn:Ev; [|discriminate]. simplify_eq.
    apply verify_bundle_genuine in Ev. eauto 12.
  - vm_compute in Hok0. by simplify_eq.
Qed.

(** Without a profile nothing is enforced. *)
Lemma no_profile_no_enforcement E t s h required : is_Ok (describe_and_enforce_signature E t s h None required) = true.
Proof.
  unfold describe_and_enforce_signature. change (signature_required (str_strip (default "" None))) with false. rewrite andb_false_r.
  repeat case_match; done.
Qed.

(** *** The summary *)

Lemma summary_partition render entries :
  let s := summarize_extension_provenance render entries in
  su_verified s + su_derived s + su_missing s = su_total s /\ su_total s = Z.of_nat (length entries).
Proof.
  unfold summarize_extension_provenance. cbn zeta.
  set (s0 := Summary _ _ _ _ _ _).
  assert (G : forall l s, su_total (foldl (summarize_entry render) s l) = su_total s /\
    su_verified (foldl (summarize_entry render) s l) + su_derived (foldl (summarize_entry render) s l) + su_missing (foldl (summarize_entry render) s l)
    = su_verified s + su_derived s + su_missing s + Z.of_nat (length l)).
  { induction l as [|e l IH]; intros s; [simpl; lia|]. cbn [foldl length]. destruct (IH (summarize_entry render s e)) as [-> ->].
    split; [done|]. unfold summarize_entry; cbn.
    destruct (bool_decide (entry_text render "verification" e = DECLARED_AND_VERIFIED)), (bool_decide (entry_text render "verification" e = "")); cbn; lia. }
  destruct (G entries s0) as [-> ->]. simpl. lia.
Qed.

(** *** Names and addresses *)

Lemma bootstrap_owner_prefix E name owner manifest o :
  validate_bootstrap_module_name E name owner manifest = Ok o ->
  (o = OWNER_RUNTIME_BUILTIN -> starts_with "AINDY." (str_strip name) = true) /\
  (o = OWNER_FIRST_PARTY_APP -> starts_with "apps." (str_strip name) = true) /\
  (o = OWNER_EXTERNAL_THIRD_PARTY -> exists p, p ∈ external_bootstrap_prefixes E /\ starts_with p (str_strip name) = true) /\
  (manifest = Some "runtime" -> o = OWNER_RUNTIME_BUILTIN) /\
  Forall (fun part => isidentifier part = true) (split_char "."%char (str_strip name)).
Proof.
  unfold validate_bootstrap_module_name. intros H. ok_inv H. simplify_eq.
  rewrite !andb_false_iff, ?negb_false_iff, ?bool_decide_eq_false in *.
  split; [|split; [|split; [|split]]]; intros; try naive_solver.
  - subst. match goal with H : _ \/ existsb _ (external_bootstrap_prefixes E) = true |- _ => destruct H as [?|Hx]; [done|] end.
    apply existsb_exists in Hx as (p & Hp & Hs). exists p. by rewrite list_elem_of_In.
  - match goal with H : _ \/ bool_decide (o = OWNER_RUNTIME_BUILTIN) = true |- _ => destruct H as [?|Hx]; [done|] end. by boolprop.
  - apply Forall_forall. intros x Hx. rewrite list_elem_of_In in Hx. by eapply forallb_forall.
Qed.

(** A URL an extension may be given: HTTP, with a host, without credentials and, unless the
    operator allows it, to no address literal that is not routable. *)
Record outbound_ok (E : env) (s : string) : Prop := {
  ob_url : exists u, urlparse E s = Some u /\ u_scheme u ∈ ["http"; "https"] /\ u_hostname u <> "" /\ u_credentials u = false /\
             (private_extension_targets_allowed E = false ->
              str_strip (u_hostname u) ∉ PRIVATE_HOST_ALIASES /\ ip_address E (str_strip (u_hostname u)) <> Some true) }.

Lemma validate_url_Ok E s u : validate_outbound_extension_url E s = Ok u -> outbound_ok E s.
Proof.
  unfold validate_outbound_extension_url. destruct (urlparse E s) as [v|] eqn:Ev; [|discriminate]. intros H. ok_inv H. boolprop.
  split. exists v. split; [done|]. split; [done|]. split; [done|]. split; [done|]. intros Ha.
  rewrite Ha in *. rewrite andb_true_r in *. boolprop. split; [done|].
  destruct (ip_address E (str_strip (u_hostname v))) as [[]|] eqn:Ei; [discriminate| |]; intros [=].
Qed.

(** *** Artifacts *)

(** What admission establishes of a bundle. *)
Record intact (E : env) (path handler : string) (b : bundle) : Prop := {
  it_root : ad_root b = e_resolve E path;
  it_entrypoint : handler <> "" -> ad_entrypoint b = handler;
  it_inside : within (ad_root b) (ad_code b) = true;
  it_hash : exists m text raw, e_read E (path_join (ad_root b) PLUGIN_ARTIFACT_MANIFEST_FILENAME) = Some text /\ e_loads E text = Some raw /\
              validate_manifest raw = Some m /\ in_value (ma_integrity m) = ad_hash b /\ ma_entrypoint m = ad_entrypoint b /\
              compute_plugin_artifact_integrity E (manifest_without_integrity m) (ad_root b) = Some (ad_hash b) }.

Lemma admit_intact E path owner handler b : admit_plugin_artifact E path owner (Some handler) = Ok b -> intact E path handler b.
Proof.
  unfold admit_plugin_artifact. intros H. ok_inv H. simplify_eq.
  rewrite !negb_false_iff in *. boolprop.
  split; cbn [ad_root ad_entrypoint ad_code ad_hash]; try done.
  - intros Hh. cbn [text_truthy default] in *. rewrite bool_decide_true in * by done. simpl in *. by boolprop.
  - destruct (e_read E _) as [text|] eqn:Er in *; [|discriminate]. destruct (e_loads E text) as [raw|] eqn:El; [|discriminate].
    destruct (validate_manifest _) as [m|] eqn:Em in *; [|discriminate].
    destruct (compute_plugin_artifact_integrity _ _ _) as [h|] eqn:Eh in *; [|discriminate]. simplify_eq. eauto 10.
Qed.

(** The contents a bundle's hash covers: every file below its root but the manifest. *)
Definition contents (E : env) (root : string) : list (string * option string) :=
  map (fun parts => (join_char "/"%char parts, e_read E (path_of root parts))) (bundle_files E root).

Lemma contents_cover E root parts :
  parts ∈ e_rglob E root -> e_is_file E (path_of root parts) = true -> join_char "/"%char parts <> PLUGIN_ARTIFACT_MANIFEST_FILENAME ->
  (join_char "/"%char parts, e_read E (path_of root parts)) ∈ contents E root.
Proof.
  intros Hp Hf Hn. unfold contents. apply list_elem_of_fmap. exists parts. split; [done|]. unfold bundle_files.
  apply list_elem_of_filter. split; [done|]. rewrite list_elem_of_In. apply filter_In. split; [|done].
  rewrite <- list_elem_of_In. by rewrite merge_sort_Permutation.
Qed.

Lemma records_contents (sha : string -> string) E E' root root' fs fs' rs :
  e_sha256 E = sha -> e_sha256 E' = sha -> (forall x y, sha x = sha y -> x = y) ->
  mapM (file_record E root) fs = Some rs -> mapM (file_record E' root') fs' = Some rs ->
  map (fun parts => (join_char "/"%char parts, e_read E (path_of root parts))) fs
  = map (fun parts => (join_char "/"%char parts, e_read E' (path_of root' parts))) fs'.
Proof.
  intros HE HE' Hinj. revert fs' rs. induction fs as [|f fs IH]; intros fs' rs H H'.
  - apply mapM_Some in H. inversion H; subst. apply mapM_Some in H'. by apply Forall2_nil_inv_r in H' as ->.
  - apply mapM_Some in H. inversion H as [|? r ? rs1 Hf Hr]; subst.
    apply mapM_Some in H'. inversion H' as [|f' ? fs1 ? Hf' Hr']; subst.
    cbn [map]. f_equal; [|by apply (IH fs1 rs1); apply mapM_Some].
    unfold file_record in *. destruct (e_read E _) as [c|]; [|discriminate]. destruct (e_read E' _) as [c'|]; [|discriminate].
    simplify_eq. f_equal; [congruence|]. f_equal. apply Hinj. congruence.
Qed.

(** Where SHA-256 and the canonical JSON have no collision, two bundles of one hash hold the
    same manifest and the same files. *)
Lemma one_hash_one_bundle E E' m m' root root' h :
  e_sha256 E' = e_sha256 E -> e_dumps E' = e_dumps E ->
  (forall x y, e_sha256 E x = e_sha256 E y -> x = y) -> (forall u v, e_dumps E u = e_dumps E v -> u = v) ->
  compute_plugin_artifact_integrity E m root = Some h -> compute_plugin_artifact_integrity E' m' root' = Some h ->
  m = m' /\ contents E (e_resolve E root) = contents E' (e_resolve E' root').
Proof.
  intros Hs Hd Hsha Hdumps. unfold compute_plugin_artifact_integrity, sha256_json_document. rewrite Hs, Hd.
  destruct (mapM (file_record E _) _) as [rs|] eqn:Er; [|discriminate].
  destruct (mapM (file_record E' _) _) as [rs'|] eqn:Er'; [|discriminate]. intros [= <-] [= He].
  apply Hsha, Hdumps in He. simplify_eq. split; [done|]. unfold contents. eapply records_contents; eauto.
Qed.
