(* ===== verification/Webhooks.v ===== *)
(** * Webhook subscriptions and event handlers

    platform_layer/event_service.py and [_load_webhooks] of platform_loader.py:
    subscriptions of external systems to events, their persistence and restoration,
    delivery with retries, and the handlers inside the process.

    [hooks] is the module's state with the webhook_subscriptions table and the HTTP
    requests sent so far. The body of a request is kept as a value; [dumps] is the JSON
    text that is signed and [hmac] HMAC-SHA256. A database is absent, commits or fails.
    Times are numbers. *)

From stdpp Require Import pretty.
From S2P Require Import Prelude PyStr PyVal ExtensionTrust.

Local Open Scope string_scope.
Local Open Scope Z_scope.
Local Open Scope list_scope.
Local Open Scope py_scope.

(** ** Matching *)

(** [pattern[:-1]] *)
Definition but_last (s : string) : string := take_str (String.length s - 1) s.

Definition matches (pattern event_type : string) : bool :=
  if bool_decide (pattern = "*") then true
  else if ends_with ".*" pattern then starts_with (but_last pattern) event_type
  else bool_decide (pattern = event_type).

(** ** State *)

Record subscription := Subscription {
  sb_id : string;
  sb_authority : string;
  sb_caps : list string;
  sb_access : pyval;
  sb_event : string;
  sb_url : string;
  sb_owner : string;
  sb_provenance : pyval;
  sb_secret : option string;
  sb_created_at : Z;
  sb_created_by : option string;
  sb_attempts : Z;
  sb_successes : Z;
  sb_failures : Z;
  sb_last : option (Z * string) }.        (* last_delivered_at and last_status *)

Record sub_row := SubRow {
  sr_id : string;
  sr_event : string;
  sr_url : string;
  sr_owner : string;
  sr_provenance : pyval;                  (* [VNone] is NULL *)
  sr_secret : option string;
  sr_created_by : option string;
  sr_created_at : Z;
  sr_active : bool }.

Record http_request := HttpRequest { hr_url : string; hr_body : pyval; hr_signature : option string }.

Record hooks := Hooks {
  k_subs : list (string * subscription);      (* _SUBSCRIPTIONS *)
  k_handlers : list (string * list string);   (* _INTERNAL_HANDLERS *)
  k_ids : nat;                                (* identifiers drawn *)
  k_rows : list sub_row;
  k_sent : list http_request }.

Definition set_subs (s : list (string * subscription)) (k : hooks) : hooks := Hooks s (k_handlers k) (k_ids k) (k_rows k) (k_sent k).
Definition set_rows (r : list sub_row) (k : hooks) : hooks := Hooks (k_subs k) (k_handlers k) (k_ids k) r (k_sent k).
Definition draw_id (k : hooks) : hooks := Hooks (k_subs k) (k_handlers k) (S (k_ids k)) (k_rows k) (k_sent k).
Definition send (r : http_request) (k : hooks) : hooks := Hooks (k_subs k) (k_handlers k) (k_ids k) (k_rows k) (k_sent k ++ [r]).

Inductive database := NoDb | Commits | Fails.

Section hooks.
Context (uuid : nat -> string) (dumps : pyval -> string) (hmac : string -> string -> string).

(** ** Subscriptions *)

Definition WEBHOOK_ABI : string := "aindy.extension.webhook-registration/v1alpha1".

Definition subscription_payload (event_type callback_url owner : string) : pyval :=
  VDict [("abi_version", VStr WEBHOOK_ABI); ("event_type", VStr event_type); ("callback_url", VStr callback_url); ("owner_class", VStr owner)].

Definition derive_subscription (E : env) (owner event_type callback_url : string) (declared : option pyval) (legacy : bool) : result refusal provenance :=
  derive_structured_extension_provenance E owner WEBHOOK_SUBSCRIPTION event_type (subscription_payload event_type callback_url owner)
    "webhook-integration" callback_url declared legacy.

(** At most one active row per event type and URL. *)
Definition row_clash (event_type callback_url : string) (rows : list sub_row) : bool :=
  existsb (fun r => sr_active r && bool_decide (sr_event r = event_type) && bool_decide (sr_url r = callback_url)) rows.

Definition persist_subscription (db : database) (s : subscription) (k : hooks) : hooks :=
  match db with
  | Commits =>
      if row_clash (sb_event s) (sb_url s) (k_rows k) then k
      else set_rows (k_rows k ++ [SubRow (sb_id s) (sb_event s) (sb_url s) (sb_owner s) (sb_provenance s) (sb_secret s)
                                    (match sb_created_by s with Some u => if bool_decide (u = "") then None else Some u | None => None end)
                                    (sb_created_at s) true]) k
  | NoDb | Fails => k
  end.

Definition subscribe_webhook (E : env) (now : Z) (event_type callback_url : string) (secret user_id : option string) (owner_class : string)
    (declared : option pyval) (legacy : bool) (db : database) (k : hooks) : hooks * result refusal subscription :=
  match
    let? _ := refuse_if (bool_decide (str_strip event_type = "")) NoEventType in
    let? _ := validate_outbound_extension_url E callback_url in
    let? owner := validate_extension_owner_class owner_class in
    let? granted := normalize_extension_capabilities owner WEBHOOK_SUBSCRIPTION [] in
    let? prov := derive_subscription E owner event_type callback_url declared legacy in
    let? authority := extension_authority_model owner WEBHOOK_SUBSCRIPTION in
    let caps := match granted with [] => [CAP_OUTBOUND_HTTP] | _ => granted end in
    let? access := extension_resource_access_summary owner WEBHOOK_SUBSCRIPTION caps in
    Ok (Subscription (uuid (k_ids k)) authority caps access event_type callback_url owner (provenance_dict prov) secret now user_id 0 0 0 None)
  with
  | Err e => (k, Err e)
  | Ok s =>
      let k1 := draw_id k in
      (persist_subscription db s (set_subs (dict_set (sb_id s) s (k_subs k1)) k1), Ok s)
  end.

Definition load_subscription (E : env) (subscription_id event_type callback_url : string) (secret user_id : option string) (created_at : Z)
    (owner_class : string) (provenance : pyval) (legacy : bool) (k : hooks) : hooks * result refusal unit :=
  if dict_mem subscription_id (k_subs k) then (k, Ok tt)
  else
    match
      let? owner := validate_extension_owner_class owner_class in
      let? authority := extension_authority_model owner WEBHOOK_SUBSCRIPTION in
      let? granted := normalize_extension_capabilities owner_class WEBHOOK_SUBSCRIPTION [] in
      let? access := extension_resource_access_summary owner_class WEBHOOK_SUBSCRIPTION granted in
      let? prov := match provenance with
                   | VDict d => Ok (VDict d)
                   | _ => let? p := derive_subscription E owner_class event_type callback_url None legacy in Ok (provenance_dict p)
                   end in
      Ok (Subscription subscription_id authority granted access event_type callback_url owner prov secret created_at user_id 0 0 0 None)
    with
    | Err e => (k, Err e)
    | Ok s => (set_subs (dict_set subscription_id s (k_subs k)) k, Ok tt)
    end.

Definition has_loaded_webhook_subscription (subscription_id : string) (k : hooks) : bool := dict_mem subscription_id (k_subs k).

Definition restore_webhook_subscription (E : env) (subscription_id event_type callback_url : string) (secret user_id : option string)
    (created_at : Z) (owner_class : string) (provenance : pyval) (legacy : bool) (k : hooks) : hooks * result refusal bool :=
  if has_loaded_webhook_subscription subscription_id k then (k, Ok false)
  else match validate_outbound_extension_url E callback_url with
       | Err e => (k, Err e)
       | Ok _ =>
           let '(k', r) := load_subscription E subscription_id event_type callback_url secret user_id created_at owner_class provenance legacy k in
           (k', let? _ := r in Ok true)
       end.

Definition deactivate (subscription_id : string) (r : sub_row) : sub_row :=
  if bool_decide (sr_id r = subscription_id)
  then SubRow (sr_id r) (sr_event r) (sr_url r) (sr_owner r) (sr_provenance r) (sr_secret r) (sr_created_by r) (sr_created_at r) false else r.

Definition unsubscribe_webhook (subscription_id : string) (db : database) (k : hooks) : hooks * bool :=
  if dict_mem subscription_id (k_subs k)
  then
    let k1 := set_subs (dict_del subscription_id (k_subs k)) k in
    (match db with Commits => set_rows (map (deactivate subscription_id) (k_rows k1)) k1 | NoDb | Fails => k1 end, true)
  else (k, false).

(** The metadata of a subscription, and what of it callers are given. *)
Definition meta_items (s : subscription) : list (string * pyval) :=
  [("id", VStr (sb_id s)); ("abi_surface", VStr "webhook-registration"); ("abi_version", VStr WEBHOOK_ABI); ("abi_stability", VStr "experimental");
   ("authority_model", VStr (sb_authority s)); ("granted_capabilities", VList (map VStr (sb_caps s))); ("resource_access", sb_access s);
   ("event_type", VStr (sb_event s)); ("callback_url", VStr (sb_url s)); ("owner_class", VStr (sb_owner s));
   ("trust_class", VStr "contract-driven-webhook"); ("provenance", sb_provenance s); ("signed", VBool (bool_decide (sb_secret s <> None)));
   ("_secret", vopt (sb_secret s)); ("created_at", VInt (sb_created_at s)); ("created_by", vopt (sb_created_by s));
   ("delivery_attempts", VInt (sb_attempts s)); ("delivery_successes", VInt (sb_successes s)); ("delivery_failures", VInt (sb_failures s));
   ("last_delivered_at", match sb_last s with Some (t, _) => VInt t | None => VNone end);
   ("last_status", match sb_last s with Some (_, r) => VStr r | None => VNone end)].

Definition public_meta (s : subscription) : list (string * pyval) := base.filter (fun kv => kv.1 <> "_secret") (meta_items s).

Definition list_webhooks (user_id : option string) (k : hooks) : list (list (string * pyval)) :=
  map (fun kv => public_meta kv.2)
    (match user_id with
     | Some u => base.filter (fun kv => sb_created_by kv.2 = Some u) (k_subs k)
     | None => k_subs k
     end).

Definition get_webhook (subscription_id : string) (k : hooks) : option (list (string * pyval)) :=
  match dict_get subscription_id (k_subs k) with Some s => Some (public_meta s) | None => None end.

(** ** Delivery *)

Record event := Event {
  ev_type : string;
  ev_id : string;
  ev_payload : pyval;
  ev_user : option string;
  ev_trace : option string;
  ev_source : option string }.

Definition build_request_body (now : Z) (ev : event) (subscription_id : string) : pyval :=
  VDict [("event_id", VStr (ev_id ev)); ("event_type", VStr (ev_type ev)); ("timestamp", VInt now); ("user_id", vopt (ev_user ev));
         ("trace_id", vopt (ev_trace ev)); ("source", vopt (ev_source ev)); ("payload", ev_payload ev); ("aindy_subscription_id", VStr subscription_id)].

Definition MAX_ATTEMPTS : nat := 3.

Definition sign (secret : option string) (body : pyval) : option string :=
  match secret with Some s => if bool_decide (s = "") then None else Some ("sha256=" +:+ hmac s (dumps body)) | None => None end.

Definition success (answer : option Z) : bool := match answer with Some code => (200 <=? code) && (code <? 300) | None => false end.

(** [answer n] is what the [n]-th attempt brings: the status of the response, or nothing
    where the request raises. Returns whether some attempt succeeded and the pauses. *)
Fixpoint send_with_retry (r : http_request) (answer : nat -> option Z) (attempt left_ : nat) (k : hooks) : hooks * (bool * list Z) :=
  match left_ with
  | O => (k, (false, []))
  | S left' =>
      let k1 := send r k in
      if success (answer attempt) then (k1, (true, []))
      else match left' with
           | O => (k1, (false, []))
           | S _ => let '(k2, (ok, pauses)) := send_with_retry r answer (S attempt) left' k1 in
                    (k2, (ok, 2 ^ (Z.of_nat attempt - 1) :: pauses))
           end
  end.

Definition account (now : Z) (ok : bool) (s : subscription) : subscription :=
  Subscription (sb_id s) (sb_authority s) (sb_caps s) (sb_access s) (sb_event s) (sb_url s) (sb_owner s) (sb_provenance s) (sb_secret s)
    (sb_created_at s) (sb_created_by s) (sb_attempts s + 1) (if ok then sb_successes s + 1 else sb_successes s)
    (if ok then sb_failures s else sb_failures s + 1) (Some (now, if ok then "success" else "failed")).

(** [meanwhile] is what other threads do to the state while the requests are sent. *)
Definition deliver_one (meanwhile : hooks -> hooks) (answer : nat -> option Z) (now : Z) (s : subscription) (body : pyval) (k : hooks) : hooks :=
  let '(k1, (ok, _)) := send_with_retry (HttpRequest (sb_url s) body (sign (sb_secret s) body)) answer 1 MAX_ATTEMPTS k in
  let k2 := meanwhile k1 in
  match dict_get (sb_id s) (k_subs k2) with
  | None => k2
  | Some live => set_subs (dict_set (sb_id s) (account now ok live) (k_subs k2)) k2
  end.

(** What one dispatch meets: per subscription, the answers and what happens meanwhile. *)
Record traffic := Traffic { tr_answer : string -> nat -> option Z; tr_meanwhile : string -> hooks -> hooks; tr_now : string -> Z }.

Definition matching (ev : event) (k : hooks) : list subscription :=
  List.filter (fun s => matches (sb_event s) (ev_type ev)) (map snd (k_subs k)).

Definition deliver_to (T : traffic) (now : Z) (ev : event) (k : hooks) (s : subscription) : hooks :=
  deliver_one (tr_meanwhile T (sb_id s)) (tr_answer T (sb_id s)) (tr_now T (sb_id s)) s (build_request_body now ev (sb_id s)) k.

Definition dispatch_webhooks (T : traffic) (now : Z) (ev : event) (k : hooks) : hooks * Z :=
  let l := matching ev k in (foldl (deliver_to T now ev) k l, Z.of_nat (length l)).

(** ** Handlers inside the process *)

Definition register_event_handler (event_type handler : string) (k : hooks) : hooks * result refusal unit :=
  if bool_decide (str_strip event_type = "") then (k, Err NoEventType)
  else
    let l := default [] (dict_get event_type (k_handlers k)) in
    (Hooks (k_subs k) (dict_set event_type (if bool_decide (handler ∈ l) then l else l ++ [handler]) (k_handlers k)) (k_ids k) (k_rows k) (k_sent k), Ok tt).

Inductive handler_fate := HandlerOk | HandlerTimeout | HandlerError.

Definition handlers_for (event_type : string) (k : hooks) : list string :=
  flat_map snd (List.filter (fun ph => matches ph.1 event_type) (k_handlers k)).

(** Every handler is invoked, whatever became of the others; how many completed. *)
Definition dispatch_internal_event_handlers (fate : string -> handler_fate) (event_type : string) (k : hooks) : list string * Z :=
  let hs := handlers_for event_type k in
  (hs, Z.of_nat (length (List.filter (fun h => match fate h with HandlerOk => true | _ => false end) hs))).

(** ** Restoration *)

Definition owner_or_default (owner : string) : string := if bool_decide (owner = "") then OWNER_EXTERNAL_THIRD_PARTY else owner.

(** One row: the state, and whether it was loaded. *)
Definition load_webhook_row (E : env) (r : sub_row) (k : hooks) : hooks * bool :=
  if has_loaded_webhook_subscription (sr_id r) k then (k, false)
  else match restore_webhook_subscription E (sr_id r) (sr_event r) (sr_url r) (sr_secret r) (sr_created_by r) (sr_created_at r)
               (owner_or_default (sr_owner r)) (sr_provenance r) true k with
       | (k', Ok _) => (k', true)
       | (k', Err _) => (k', false)
       end.

Definition active_rows (k : hooks) : list sub_row := List.filter sr_active (k_rows k).

(** [_load_webhooks]: the state, the rows loaded and the rows skipped. *)
Definition load_webhooks (E : env) (k : hooks) : hooks * (Z * Z) :=
  foldl (fun '(k, (loaded, skipped)) r =>
           let '(k', ok) := load_webhook_row E r k in (k', if ok then (loaded + 1, skipped) else (loaded, skipped + 1)))
    (k, (0, 0)) (active_rows k).

(** What a restart leaves. *)
Definition restart (k : hooks) : hooks := Hooks [] [] (k_ids k) (k_rows k) (k_sent k).

(** ** Histories *)

Inductive change :=
| Subscribe (E : env) (now : Z) (event_type callback_url : string) (secret user_id : option string) (owner_class : string)
    (declared : option pyval) (legacy : bool) (db : database)
| Unsubscribe (subscription_id : string) (db : database)
| RegisterHandler (event_type handler : string).

Definition make (c : change) (k : hooks) : hooks :=
  match c with
  | Subscribe E now event_type callback_url secret user_id owner_class declared legacy db =>
      (subscribe_webhook E now event_type callback_url secret user_id owner_class declared legacy db k).1
  | Unsubscribe id db => (unsubscribe_webhook id db k).1
  | RegisterHandler event_type handler => (register_event_handler event_type handler k).1
  end.

Inductive op :=
| Change (c : change)
| Dispatch (answer : string -> nat -> option Z) (meanwhile : string -> list change) (at_ : string -> Z) (now : Z) (ev : event)
| Load (E : env)
| Restarts.

Definition traffic_of (answer : string -> nat -> option Z) (meanwhile : string -> list change) (at_ : string -> Z) : traffic :=
  Traffic answer (fun id k => foldl (fun k c => make c k) k (meanwhile id)) at_.

Definition step (o : op) (k : hooks) : hooks :=
  match o with
  | Change c => make c k
  | Dispatch answer meanwhile at_ now ev => (dispatch_webhooks (traffic_of answer meanwhile at_) now ev k).1
  | Load E => (load_webhooks E k).1
  | Restarts => restart k
  end.

Definition run (ops : list op) (k : hooks) : hooks := foldl (fun k o => step o k) k ops.
Definition boot : hooks := Hooks [] [] 0 [] [].

(** ** Invariant *)

(** A subscription is filed under its identifier, its deliveries add up, and its URL was
    one an extension may be given. *)
Record sound (id : string) (s : subscription) : Prop := {
  sd_id : sb_id s = id;
  sd_sum : sb_attempts s = sb_successes s + sb_failures s;
  sd_pos : 0 <= sb_successes s /\ 0 <= sb_failures s;
  sd_url : exists E, outbound_ok E (sb_url s) }.

Definition inv (k : hooks) : Prop := dict_wf (k_subs k) /\ forall id s, dict_get id (k_subs k) = Some s -> sound id s.

Lemma inv_set id s k : inv k -> sound id s -> inv (set_subs (dict_set id s (k_subs k)) k).
Proof.
  intros [Hw Hi] Hs. split; [by apply dict_set_wf|]. intros id' s'. cbn [k_subs set_subs].
  destruct (decide (id = id')) as [<-|Hn]; [rewrite dict_get_set_eq|rewrite dict_get_set_ne by done]; [by intros [= <-]|apply Hi].
Qed.

Lemma inv_subs k k' : k_subs k' = k_subs k -> inv k -> inv k'.
Proof. intros He. unfold inv. by rewrite He. Qed.

Lemma persist_subs db s k : k_subs (persist_subscription db s k) = k_subs k.
Proof. unfold persist_subscription. by destruct db; [|case_bool|]. Qed.

Lemma inv_make c k : inv k -> inv (make c k).
Proof.
  intros Hi. destruct c as [E now et url secret user owner declared legacy db|id db|et h]; cbn [make].
  - unfold subscribe_webhook. destruct (result_bind _ _) as [s|] eqn:Es; [|done]. cbn [fst].
    eapply inv_subs; [apply persist_subs|]. ok_inv Es. simplify_eq. cbn [sb_id].
    apply (inv_set _ _ (draw_id k)); [done|]. split; cbn; try done. exists E. by eapply validate_url_Ok.
  - unfold unsubscribe_webhook. case_bool; [|done]. cbn [fst].
    assert (inv (set_subs (dict_del id (k_subs k)) k)) as Hd.
    { destruct Hi as [Hw Hi]. split; [by apply dict_del_wf|]. intros id' s'. cbn [k_subs set_subs].
      destruct (decide (id = id')) as [<-|Hn]; [by rewrite dict_get_del_eq|rewrite dict_get_del_ne by done; apply Hi]. }
    by destruct db; try exact Hd; apply (inv_subs _ _ eq_refl Hd).
  - unfold register_event_handler. case_bool; [done|]. by apply (inv_subs _ _ eq_refl).
Qed.

Lemma inv_makes cs k : inv k -> inv (foldl (fun k c => make c k) k cs).
Proof. revert k. induction cs as [|c cs IH]; intros k Hi; [done|]. by apply IH, inv_make. Qed.

Lemma send_subs r answer attempt n k : k_subs (send_with_retry r answer attempt n k).1 = k_subs k.
Proof.
  revert attempt k. induction n as [|n IH]; intros attempt k; [done|]. cbn [send_with_retry]. case_bool; [done|]. destruct n; [done|].
  specialize (IH (S attempt) (send r k)). destruct (send_with_retry _ _ _ _ _) as [k2 [ok ps]]. exact IH.
Qed.

Lemma account_sound now ok id s : sound id s -> sound id (account now ok s).
Proof. intros [H1 H2 H3 H4]. split; cbn; [done| | |done]; destruct ok; lia. Qed.

Lemma inv_deliver (T : traffic) now ev s k : (forall id k, inv k -> inv (tr_meanwhile T id k)) -> inv k -> inv (deliver_to T now ev k s).
Proof.
  intros Hm Hi. unfold deliver_to, deliver_one.
  pose proof (send_subs (HttpRequest (sb_url s) (build_request_body now ev (sb_id s)) (sign (sb_secret s) (build_request_body now ev (sb_id s))))
                (tr_answer T (sb_id s)) 1 MAX_ATTEMPTS k) as Hs.
  destruct (send_with_retry _ _ _ _ _) as [k1 [ok ps]]. cbn [fst] in Hs.
  pose proof (Hm (sb_id s) k1 (inv_subs _ _ Hs Hi)) as H2. destruct (dict_get (sb_id s) _) as [live|] eqn:El; [|done].
  apply inv_set; [done|]. by apply account_sound, H2.
Qed.

Lemma inv_load_row E r k : inv k -> inv (load_webhook_row E r k).1.
Proof.
  intros Hi. unfold load_webhook_row, restore_webhook_subscription, load_subscription, has_loaded_webhook_subscription.
  destruct (dict_mem (sr_id r) (k_subs k)) eqn:Em; [done|].
  destruct (validate_outbound_extension_url E (sr_url r)) as [u|] eqn:Eu; [|done].
  destruct (result_bind _ _) as [s|] eqn:Es; [|done]. cbn [fst result_bind]. ok_inv Es. simplify_eq.
  apply inv_set; [done|]. split; cbn; try done. exists E. by eapply validate_url_Ok.
Qed.

Lemma load_fold {A} (P : hooks -> Prop) (f : hooks -> A -> hooks * bool) l k n :
  P k -> (forall k a, P k -> P (f k a).1) ->
  P (foldl (fun '(k, (loaded, skipped)) r => let '(k', ok) := f k r in (k', if ok then (loaded + 1, skipped) else (loaded, skipped + 1))) (k, n) l).1.
Proof.
  intros Hk Hf. revert k n Hk. induction l as [|a l IH]; intros k [x y] Hk; [done|]. cbn [foldl].
  pose proof (Hf k a Hk) as H. destruct (f k a) as [k' ok]. by destruct ok; apply IH.
Qed.

Lemma hooks_step o k : inv k -> inv (step o k).
Proof.
  intros Hi. destruct o as [c|answer mw at_ now ev|E|]; cbn [step].
  - by apply inv_make.
  - unfold dispatch_webhooks. cbn [fst]. generalize (matching ev k). intros l. revert k Hi.
    induction l as [|s l IH]; intros k Hi; [done|]. cbn [foldl]. apply IH, inv_deliver; [|done]. intros. by apply inv_makes.
  - unfold load_webhooks. apply (load_fold inv (fun k r => load_webhook_row E r k)); [done|]. intros. by apply inv_load_row.
  - split; [constructor|done].
Qed.

Lemma hooks_run ops : inv (run ops boot).
Proof.
  unfold run. assert (G : forall k, inv k -> inv (foldl (fun k o => step o k) k ops)).
  { induction ops as [|o ops IH]; intros k Hi; [done|]. by apply IH, hooks_step. }
  apply G. split; [constructor|done].
Qed.

(** ** Deliveries *)

Definition tries (answer : nat -> option Z) : nat := if success (answer 1%nat) then 1 else if success (answer 2%nat) then 2 else 3.
Definition delivered (answer : nat -> option Z) : bool := success (answer 1%nat) || success (answer 2%nat) || success (answer 3%nat).

Definition request_of (now : Z) (ev : event) (s : subscription) : http_request :=
  let body := build_request_body now ev (sb_id s) in HttpRequest (sb_url s) body (sign (sb_secret s) body).

Lemma send_spec r answer k :
  let '(k', (ok, pauses)) := send_with_retry r answer 1 MAX_ATTEMPTS k in
  k_subs k' = k_subs k /\ k_rows k' = k_rows k /\ k_sent k' = k_sent k ++ replicate (tries answer) r /\ ok = delivered answer /\
  pauses = take (tries answer - 1) [1; 2].
Proof.
  unfold MAX_ATTEMPTS, tries, delivered. cbn [send_with_retry].
  destruct (success (answer 1%nat)), (success (answer 2%nat)), (success (answer 3%nat)); cbn; rewrite <- ?app_assoc; done.
Qed.

Lemma make_sent c k : k_sent (make c k) = k_sent k.
Proof.
  destruct c; cbn [make].
  - unfold subscribe_webhook. destruct (result_bind _ _); [|done]. cbn [fst]. unfold persist_subscription. destruct db; [done|by case_bool|done].
  - unfold unsubscribe_webhook. case_bool; [|done]. by destruct db.
  - unfold register_event_handler. by case_bool.
Qed.

Lemma makes_sent cs k : k_sent (foldl (fun k c => make c k) k cs) = k_sent k.
Proof. revert k. induction cs as [|c cs IH]; intros k; [done|]. cbn [foldl]. by rewrite IH, make_sent. Qed.

Lemma deliver_sent answer mw at_ now ev s k :
  k_sent (deliver_to (traffic_of answer mw at_) now ev k s) = k_sent k ++ replicate (tries (answer (sb_id s))) (request_of now ev s).
Proof.
  unfold deliver_to, deliver_one. pose proof (send_spec (request_of now ev s) (answer (sb_id s)) k) as H.
  unfold request_of in H. cbn [tr_answer traffic_of]. destruct (send_with_retry _ _ _ _ _) as [k1 [ok ps]]. destruct H as (_ & _ & H & _).
  cbn [tr_meanwhile traffic_of]. destruct (dict_get _ _); cbn [k_sent set_subs]; by rewrite makes_sent, H.
Qed.

(** Nothing else is done to the subscriptions while they are delivered to. *)
Definition quiet (meanwhile : string -> list change) : Prop := forall id, meanwhile id = [].

Lemma deliver_quiet answer mw at_ now ev s k id : quiet mw ->
  dict_get id (k_subs (deliver_to (traffic_of answer mw at_) now ev k s))
  = if decide (id = sb_id s) then account (at_ id) (delivered (answer id)) <$> dict_get id (k_subs k) else dict_get id (k_subs k).
Proof.
  intros Hq. unfold deliver_to, deliver_one. pose proof (send_spec (request_of now ev s) (answer (sb_id s)) k) as H.
  unfold request_of in H. cbn [tr_answer traffic_of]. destruct (send_with_retry _ _ _ _ _) as [k1 [ok ps]].
  destruct H as (Hs & _ & _ & -> & _). cbn [tr_meanwhile traffic_of tr_now]. rewrite Hq. cbn [foldl]. rewrite Hs.
  destruct (decide (id = sb_id s)) as [->|Hn]; destruct (dict_get (sb_id s) (k_subs k)) eqn:Eg; cbn [k_subs set_subs].
  - by rewrite ?Hs, dict_get_set_eq.
  - by rewrite ?Hs, Eg.
  - by rewrite ?Hs, dict_get_set_ne by done.
  - by rewrite ?Hs.
Qed.

Lemma deliver_all_quiet answer mw at_ now ev l k id : quiet mw -> NoDup (map sb_id l) ->
  dict_get id (k_subs (foldl (deliver_to (traffic_of answer mw at_) now ev) k l))
  = if decide (id ∈ map sb_id l) then account (at_ id) (delivered (answer id)) <$> dict_get id (k_subs k) else dict_get id (k_subs k).
Proof.
  intros Hq. revert k. induction l as [|s l IH]; intros k Hn; [done|]. cbn [foldl map] in *. apply NoDup_cons in Hn as [Hn Hl].
  rewrite (IH _ Hl), (deliver_quiet _ _ _ _ _ _ _ _ Hq).
  destruct (decide (id = sb_id s)) as [->|Hd].
  - rewrite decide_False by done. by rewrite decide_True by set_solver.
  - destruct (decide (id ∈ map sb_id l)); [rewrite decide_True by set_solver|rewrite decide_False by set_solver]; done.
Qed.

Lemma matching_ids ev k : inv k -> NoDup (map sb_id (matching ev k)) /\
  forall id s, dict_get id (k_subs k) = Some s -> (id ∈ map sb_id (matching ev k) <-> matches (sb_event s) (ev_type ev) = true).
Proof.
  intros [Hw Hi]. unfold matching.
  assert (Hids : map sb_id (map snd (k_subs k)) = dict_keys (k_subs k)).
  { unfold dict_keys. rewrite map_map. apply map_ext_in. intros [id s] Hin. apply (sd_id id s), Hi, dict_elem_get; [done|]. by rewrite list_elem_of_In. }
  split.
  - unfold dict_wf in Hw. rewrite <- Hids in Hw. revert Hw. generalize (map snd (k_subs k)). intros l. induction l as [|s l IH]; [done|].
    cbn [map List.filter]. intros [Hn Hl]%NoDup_cons. case_bool; [|by apply IH]. cbn [map]. apply NoDup_cons. split; [|by apply IH].
    intros (s' & He & Hin)%list_elem_of_fmap. apply Hn, list_elem_of_fmap. exists s'. split; [done|].
    rewrite list_elem_of_In in *. by apply filter_In in Hin as [].
  - intros id s Hg. pose proof (sd_id id s (Hi id s Hg)) as Hid. split.
    + intros (s' & He & Hin)%list_elem_of_fmap. rewrite list_elem_of_In in Hin. apply filter_In in Hin as [Hin Hm].
      rewrite <- list_elem_of_In in Hin. apply list_elem_of_fmap in Hin as ([id' s''] & -> & Hin). cbn [snd] in *.
      pose proof (dict_elem_get _ _ _ Hw Hin) as Hg'. pose proof (sd_id id' s'' (Hi id' s'' Hg')) as Hid'.
      assert (id' = id) as -> by congruence. by simplify_eq.
    + intros Hm. apply list_elem_of_fmap. exists s. split; [done|]. rewrite list_elem_of_In. apply filter_In. split; [|done].
      rewrite <- list_elem_of_In. apply list_elem_of_fmap. exists (id, s). split; [done|]. by apply dict_get_elem.
Qed.

(** C29: In every reachable state, dispatching an event sends, for each subscription whose
    pattern matches it and for no other, its signed request until one answer is a 2xx and
    at most three times, in the order of the subscriptions; it counts the matching
    subscriptions and, unless they change meanwhile, books one attempt with its outcome on
    each of them and changes no other. Whatever happens meanwhile, the deliveries booked on
    a subscription are its successes and its failures. *)
Theorem dispatch_delivers ops answer mw at_ now ev :
  let k := run ops boot in
  let '(k', n) := dispatch_webhooks (traffic_of answer mw at_) now ev k in
  n = Z.of_nat (length (matching ev k)) /\
  k_sent k' = k_sent k ++ flat_map (fun s => replicate (tries (answer (sb_id s))) (request_of now ev s)) (matching ev k) /\
  (quiet mw -> forall id s, dict_get id (k_subs k) = Some s ->
     dict_get id (k_subs k') = Some (if matches (sb_event s) (ev_type ev) then account (at_ id) (delivered (answer id)) s else s)) /\
  (forall id s, dict_get id (k_subs k') = Some s -> sb_attempts s = sb_successes s + sb_failures s).
Proof.
  intros k. pose proof (hooks_run ops) as Hi. fold k in Hi. unfold dispatch_webhooks. split; [done|]. split; [|split].
  - generalize (matching ev k). intros l. generalize k. clear. induction l as [|s l IH]; intros k; [by rewrite app_nil_r|].
    cbn [foldl flat_map]. by rewrite IH, deliver_sent, app_assoc.
  - intros Hq id s Hg. destruct (matching_ids ev k Hi) as [Hn Hm]. rewrite (deliver_all_quiet _ _ _ _ _ _ _ _ Hq Hn), Hg.
    specialize (Hm id s Hg). destruct (decide _) as [Hd|Hd], (matches (sb_event s) (ev_type ev)); naive_solver.
  - intros id s Hg. pose proof (hooks_step (Dispatch answer mw at_ now ev) k Hi) as [_ H]. by apply (sd_sum id s), H.
Qed.

(** ** Restarts *)

(** The rows carry identifiers that were drawn, each once. *)
Definition rows_ok (k : hooks) : Prop := NoDup (map sr_id (k_rows k)) /\ forall r, r ∈ k_rows k -> exists n, (n < k_ids k)%nat /\ sr_id r = uuid n.

Lemma sub_rows_same k k' : k_rows k' = k_rows k -> (k_ids k <= k_ids k')%nat -> rows_ok k -> rows_ok k'.
Proof. intros Hr Hn [H1 H2]. unfold rows_ok. rewrite Hr. split; [done|]. intros r (n & ? & ?)%H2. exists n. split; [lia|done]. Qed.

Lemma deactivate_id id r : sr_id (deactivate id r) = sr_id r.
Proof. unfold deactivate. by case_bool. Qed.

(** An operation that does not unsubscribe [id] for good. *)
Definition leaves (id : string) (c : change) : bool :=
  match c with Unsubscribe id' Commits => negb (bool_decide (id' = id)) | _ => true end.
Definition keeps (id : string) (o : op) : Prop :=
  match o with
  | Change c => leaves id c = true
  | Dispatch _ mw _ _ _ => forall i, Forall (fun c => leaves id c = true) (mw i)
  | Load _ | Restarts => True
  end.

Section persistence.
Context (uuid_inj : forall n m, uuid n = uuid m -> n = m).

Lemma make_rows c k : rows_ok k ->
  rows_ok (make c k) /\ forall r, r ∈ k_rows k -> leaves (sr_id r) c = true -> r ∈ k_rows (make c k).
Proof.
  intros Hk. assert (Hdone : rows_ok k /\ forall r, r ∈ k_rows k -> leaves (sr_id r) c = true -> r ∈ k_rows k) by auto.
  destruct c as [E now et url secret user owner declared legacy db|id db|et h]; cbn [make].
  - unfold subscribe_webhook. destruct (result_bind _ _) as [s|] eqn:Es; [|done]. cbn [fst].
    assert (Hid : sb_id s = uuid (k_ids k)) by (ok_inv Es; by simplify_eq).
    unfold persist_subscription. destruct db; try (split; [by eapply sub_rows_same; [| |exact Hk]; cbn; [|lia]|auto]).
    case_bool; [split; [by eapply sub_rows_same; [| |exact Hk]; cbn; [|lia]|auto]|]. cbn [k_rows set_rows set_subs draw_id].
    split; [|intros; set_solver]. destruct Hk as [H1 H2]. split; cbn [k_rows set_rows k_ids set_subs draw_id].
    + rewrite map_app. cbn [map sr_id]. apply NoDup_app. split; [done|]. split; [|by apply NoDup_singleton].
      intros x (r & -> & Hr)%list_elem_of_fmap Hx. destruct (H2 r Hr) as (n & Hn & He). set_unfold. destruct Hx as [Hx|[]].
      rewrite Hx, Hid in He. apply uuid_inj in He. lia.
    + intros r [Hr|Hr]%elem_of_app; [destruct (H2 r Hr) as (n & ? & ?); exists n; split; [lia|done]|].
      apply list_elem_of_singleton in Hr as ->. exists (k_ids k). split; [lia|exact Hid].
  - unfold unsubscribe_webhook. case_bool; [|done]. cbn [fst]. destruct db; try (split; [by eapply sub_rows_same; [| |exact Hk]|auto]).
    cbn [k_rows set_rows set_subs]. split.
    + destruct Hk as [H1 H2]. split; cbn [k_rows set_rows k_ids].
      * rewrite map_map. erewrite map_ext; [exact H1|]. intros r. apply deactivate_id.
      * intros r (r' & -> & Hr')%list_elem_of_fmap. rewrite deactivate_id. by apply H2.
    + intros r Hr Hl. cbn [leaves] in Hl. boolprop. apply list_elem_of_fmap. exists r. split; [|done].
      unfold deactivate. by rewrite bool_decide_false.
  - unfold register_event_handler. case_bool; [done|]. split; [by eapply sub_rows_same; [| |exact Hk]|auto].
Qed.

Lemma makes_rows cs k r : rows_ok k ->
  rows_ok (foldl (fun k c => make c k) k cs) /\
  (r ∈ k_rows k -> Forall (fun c => leaves (sr_id r) c = true) cs -> r ∈ k_rows (foldl (fun k c => make c k) k cs)).
Proof.
  revert k. induction cs as [|c cs IH]; intros k Hk; [auto|]. cbn [foldl]. destruct (make_rows c k Hk) as [H1 H2].
  destruct (IH _ H1) as [H3 H4]. split; [done|]. intros Hr [Hc Hcs]%Forall_cons. apply H4; auto.
Qed.

Lemma load_row_rows E r k : k_rows (load_webhook_row E r k).1 = k_rows k /\ k_ids (load_webhook_row E r k).1 = k_ids k.
Proof.
  unfold load_webhook_row, restore_webhook_subscription, load_subscription, has_loaded_webhook_subscription.
  destruct (dict_mem _ _); [done|]. destruct (validate_outbound_extension_url _ _); [|done]. by destruct (result_bind _ _).
Qed.

Lemma send_ids r answer attempt n k : k_ids (send_with_retry r answer attempt n k).1 = k_ids k.
Proof.
  revert attempt k. induction n as [|n IH]; intros attempt k; [done|]. cbn [send_with_retry]. case_bool; [done|]. destruct n; [done|].
  specialize (IH (S attempt) (send r k)). destruct (send_with_retry _ _ _ _ _) as [k2 [ok ps]]. exact IH.
Qed.

Lemma deliver_rows answer mw at_ now ev s k r : rows_ok k ->
  rows_ok (deliver_to (traffic_of answer mw at_) now ev k s) /\
  (r ∈ k_rows k -> (forall i, Forall (fun c => leaves (sr_id r) c = true) (mw i)) -> r ∈ k_rows (deliver_to (traffic_of answer mw at_) now ev k s)).
Proof.
  intros Hk. unfold deliver_to, deliver_one. pose proof (send_spec (request_of now ev s) (answer (sb_id s)) k) as H.
  pose proof (send_ids (request_of now ev s) (answer (sb_id s)) 1 MAX_ATTEMPTS k) as Hn.
  unfold request_of in H, Hn. cbn [tr_answer traffic_of]. destruct (send_with_retry _ _ _ _ _) as [k1 [ok ps]]. destruct H as (_ & Hr1 & _).
  cbn [fst] in Hn. assert (rows_ok k1) as Hk1 by (eapply sub_rows_same; [exact Hr1| |exact Hk]; lia).
  cbn [tr_meanwhile traffic_of]. destruct (makes_rows (mw (sb_id s)) k1 r Hk1) as [H2 H3].
  assert (G : forall k', k_rows k' = k_rows (foldl (fun k c => make c k) k1 (mw (sb_id s))) -> k_ids k' = k_ids (foldl (fun k c => make c k) k1 (mw (sb_id s))) ->
    rows_ok k' /\ (r ∈ k_rows k -> (forall i, Forall (fun c => leaves (sr_id r) c = true) (mw i)) -> r ∈ k_rows k')).
  { intros k' Hk' Hi'. split; [eapply sub_rows_same; [exact Hk'|lia|done]|]. intros Hr Hm. rewrite Hk'. apply H3; [by rewrite Hr1|apply Hm]. }
  destruct (dict_get _ _); by apply G.
Qed.

Lemma step_rows o k r : rows_ok k -> rows_ok (step o k) /\ (r ∈ k_rows k -> keeps (sr_id r) o -> r ∈ k_rows (step o k)).
Proof.
  intros Hk. destruct o as [c|answer mw at_ now ev|E|]; cbn [step keeps].
  - destruct (make_rows c k Hk). auto.
  - unfold dispatch_webhooks. cbn [fst]. generalize (matching ev k). intros l. revert k Hk.
    induction l as [|s l IH]; intros k Hk; [auto|]. cbn [foldl]. destruct (deliver_rows answer mw at_ now ev s k r Hk) as [H1 H2].
    destruct (IH _ H1). auto.
  - unfold load_webhooks.
    assert (k_rows (load_webhooks E k).1 = k_rows k /\ k_ids (load_webhooks E k).1 = k_ids k) as [Hr Hi].
    { apply (load_fold (fun k' => k_rows k' = k_rows k /\ k_ids k' = k_ids k) (fun k r => load_webhook_row E r k)); [done|].
      intros k' a [<- <-]. apply load_row_rows. }
    fold (load_webhooks E k). rewrite Hr. split; [eapply sub_rows_same; [exact Hr| |exact Hk]; lia|auto].
  - split; [|auto]. by eapply sub_rows_same; [| |exact Hk].
Qed.

Lemma run_rows ops k r : rows_ok k -> rows_ok (run ops k) /\ (r ∈ k_rows k -> Forall (keeps (sr_id r)) ops -> r ∈ k_rows (run ops k)).
Proof.
  unfold run. revert k. induction ops as [|o ops IH]; intros k Hk; [auto|]. cbn [foldl]. destruct (step_rows o k r Hk) as [H1 H2].
  destruct (IH _ H1) as [H3 H4]. split; [done|]. intros Hr [Ho Hos]%Forall_cons. auto.
Qed.

Lemma load_row_keep E r k id s : dict_get id (k_subs k) = Some s -> dict_get id (k_subs (load_webhook_row E r k).1) = Some s.
Proof.
  intros Hg. unfold load_webhook_row, restore_webhook_subscription, load_subscription, has_loaded_webhook_subscription.
  destruct (dict_mem _ _) eqn:Em; [done|]. destruct (validate_outbound_extension_url _ _); [|done]. destruct (result_bind _ _); [|done].
  cbn [fst result_bind k_subs set_subs]. apply dict_mem_false in Em. rewrite dict_get_set_ne; [done|]. intros <-. apply Em, dict_get_is_Some. eauto.
Qed.

Lemma load_row_other E r k id : sr_id r <> id -> dict_get id (k_subs (load_webhook_row E r k).1) = dict_get id (k_subs k).
Proof.
  intros Hn. unfold load_webhook_row, restore_webhook_subscription, load_subscription, has_loaded_webhook_subscription.
  destruct (dict_mem _ _) eqn:Em; [done|]. destruct (validate_outbound_extension_url _ _); [|done]. destruct (result_bind _ _); [|done].
  cbn [fst result_bind k_subs set_subs]. by rewrite dict_get_set_ne.
Qed.

(** What the row of a subscription is restored to. *)
Record restored (s s' : subscription) : Prop := {
  rs_id : sb_id s' = sb_id s;
  rs_event : sb_event s' = sb_event s;
  rs_url : sb_url s' = sb_url s;
  rs_owner : sb_owner s' = sb_owner s;
  rs_authority : sb_authority s' = sb_authority s;
  rs_secret : sb_secret s' = sb_secret s;
  rs_provenance : sb_provenance s' = sb_provenance s;
  rs_created : sb_created_at s' = sb_created_at s;
  rs_user : sb_created_by s <> Some "" -> sb_created_by s' = sb_created_by s;
  rs_caps : sb_owner s = OWNER_EXTERNAL_THIRD_PARTY -> sb_caps s' = sb_caps s /\ sb_access s' = sb_access s }.

Definition row_of (s : subscription) : sub_row :=
  SubRow (sb_id s) (sb_event s) (sb_url s) (sb_owner s) (sb_provenance s) (sb_secret s)
    (match sb_created_by s with Some u => if bool_decide (u = "") then None else Some u | None => None end) (sb_created_at s) true.

Lemma load_row_restores E E' now et url secret user owner declared legacy k k1 k2 s :
  subscribe_webhook E now et url secret user owner declared legacy Commits k = (k1, Ok s) ->
  is_Ok (validate_outbound_extension_url E' url) = true -> dict_get (sb_id s) (k_subs k2) = None ->
  exists s', dict_get (sb_id s) (k_subs (load_webhook_row E' (row_of s) k2).1) = Some s' /\ restored s s'.
Proof.
  unfold subscribe_webhook. intros Hs Hu Hg. destruct (result_bind _ _) as [s0|] eqn:Es; [|discriminate]. simplify_eq.
  ok_inv Es. simplify_eq. cbn [sb_id] in *.
  unfold load_webhook_row, has_loaded_webhook_subscription, restore_webhook_subscription, load_subscription, has_loaded_webhook_subscription, row_of.
  cbn [sr_id sr_event sr_url sr_owner sr_provenance sr_secret sr_created_by sr_created_at sb_id sb_event sb_url sb_owner sb_provenance sb_secret sb_created_by sb_created_at].
  assert (dict_mem (uuid (k_ids k)) (k_subs k2) = false) as -> by (by apply dict_mem_false, dict_get_None).
  destruct (validate_outbound_extension_url E' url) as [u|]; [|discriminate].
  match goal with H : validate_extension_owner_class owner = Ok ?o |- _ => pose proof (validate_owner_twice _ _ H) as Ho; pose proof (validate_owner_Ok _ _ H) as Hin end.
  assert (forall o, o ∈ ALLOWED_EXTENSION_OWNER_CLASSES -> owner_or_default o = o) as Hd.
  { intros o Hin'. unfold owner_or_default. rewrite bool_decide_false; [done|]. intros ->. set_solver. }
  rewrite (Hd _ Hin), Ho. cbn [result_bind].
  repeat match goal with H : ?f = Ok _ |- context [result_bind ?f _] => rewrite H; cbn [result_bind] end.
  set (g := match a2 with [] => _ | _ => _ end) in *.
  destruct (extension_resource_access_summary a1 WEBHOOK_SUBSCRIPTION a2) as [acc|] eqn:Ea.
  2: { exfalso. unfold ALLOWED_EXTENSION_OWNER_CLASSES in Hin. set_unfold. by destruct Hin as [->|[->|[->|[]]]]. }
  unfold provenance_dict. cbn [result_bind fst k_subs set_subs]. eexists. rewrite dict_get_set_eq. split; [done|].
  split; cbn; try done.
  - intros Hn. destruct user as [u'|]; [|done]. rewrite bool_decide_false; [done|]. congruence.
  - intros ->. match goal with H : normalize_extension_capabilities _ _ _ = Ok a2 |- _ => vm_compute in H; injection H as <- end.
    subst g. cbn in *. split; congruence.
Qed.

Lemma active_rows_NoDup k : rows_ok k -> NoDup (map sr_id (active_rows k)).
Proof.
  intros [H _]. unfold active_rows. revert H. generalize (k_rows k). intros l. induction l as [|r l IH]; [done|].
  cbn [map List.filter]. intros [Hn Hl]%NoDup_cons. case_bool; [|by apply IH].
  cbn [map]. apply NoDup_cons. split; [|by apply IH]. intros (r' & He & Hr')%list_elem_of_fmap. apply Hn, list_elem_of_fmap.
  exists r'. split; [done|]. rewrite list_elem_of_In in *. by apply filter_In in Hr' as [].
Qed.

(** [load_webhooks] without its counts. *)
Definition load_rows (E : env) (l : list sub_row) (k : hooks) : hooks := foldl (fun k r => (load_webhook_row E r k).1) k l.

Lemma load_webhooks_rows E k : (load_webhooks E k).1 = load_rows E (active_rows k) k.
Proof.
  unfold load_webhooks, load_rows. generalize (0, 0) as n. generalize (active_rows k) as l. intros l. revert k.
  induction l as [|r l IH]; intros k [x y]; [done|]. cbn [foldl]. destruct (load_webhook_row E r k) as [k4 []]; apply IH.
Qed.

Lemma load_rows_other E l k id : (forall r, r ∈ l -> sr_id r <> id) -> dict_get id (k_subs (load_rows E l k)) = dict_get id (k_subs k).
Proof.
  unfold load_rows. revert k. induction l as [|r l IH]; intros k Hr; [done|]. cbn [foldl]. rewrite IH by set_solver. apply load_row_other, Hr. set_solver.
Qed.

Lemma load_rows_keep E l k id s : dict_get id (k_subs k) = Some s -> dict_get id (k_subs (load_rows E l k)) = Some s.
Proof. unfold load_rows. revert k. induction l as [|r l IH]; intros k Hg; [done|]. cbn [foldl]. by apply IH, load_row_keep. Qed.

(** A row none of whose namesakes precedes it is loaded as if alone. *)
Lemma load_rows_at E l k r (P : subscription -> Prop) : NoDup (map sr_id l) -> r ∈ l -> dict_get (sr_id r) (k_subs k) = None ->
  (forall k2, dict_get (sr_id r) (k_subs k2) = None -> exists s, dict_get (sr_id r) (k_subs (load_webhook_row E r k2).1) = Some s /\ P s) ->
  exists s, dict_get (sr_id r) (k_subs (load_rows E l k)) = Some s /\ P s.
Proof.
  intros Hnd Hin Hg HP. apply list_elem_of_split in Hin as (l1 & l2 & ->). unfold load_rows. rewrite foldl_app. cbn [foldl].
  rewrite map_app in Hnd. cbn [map] in Hnd. apply NoDup_app in Hnd as (_ & Hd & _).
  destruct (HP (load_rows E l1 k)) as (s & Hs & HPs).
  { rewrite load_rows_other; [done|]. intros r' Hr' He. apply (Hd (sr_id r')); [apply list_elem_of_fmap; eauto|]. rewrite He. by left. }
  exists s. split; [|done]. by apply load_rows_keep.
Qed.

Lemma subscribe_row E now et url secret user owner declared legacy k k1 s :
  subscribe_webhook E now et url secret user owner declared legacy Commits k = (k1, Ok s) -> row_clash et url (k_rows k) = false ->
  row_of s ∈ k_rows k1.
Proof.
  unfold subscribe_webhook. destruct (result_bind _ _) as [s0|] eqn:Es; [|discriminate]. intros [= <- ->] Hc.
  assert (sb_event s = et /\ sb_url s = url) as [He Hl] by (ok_inv Es; by simplify_eq).
  unfold persist_subscription, row_of. cbn [k_rows set_subs draw_id]. rewrite He, Hl, Hc. cbn [k_rows set_rows]. apply elem_of_app. right. by left.
Qed.

(** C25: A webhook subscription whose row was committed (no active row for the same events
    and URL stood in the way) survives a restart: whatever is done to the subscriptions in
    between, short of unsubscribing it, and if the URL is still one an extension may be
    given (which only the operator's setting for private targets can change), loading the
    registry after the restart brings it back under its identifier with its event pattern,
    URL, owner, authority, secret and provenance, its creator, and the capabilities of a
    third party. *)
Theorem subscription_survives_restart ops E now et url secret user owner declared legacy k1 s ops' E' :
  let k := run ops boot in
  subscribe_webhook E now et url secret user owner declared legacy Commits k = (k1, Ok s) ->
  row_clash et url (k_rows k) = false ->
  Forall (keeps (sb_id s)) ops' ->
  is_Ok (validate_outbound_extension_url E' url) = true ->
  exists s', dict_get (sb_id s) (k_subs (load_webhooks E' (restart (run ops' k1))).1) = Some s' /\ restored s s'.
Proof.
  intros k Hs Hc Hk Hu.
  assert (H0 : rows_ok boot) by (split; [constructor|intros r Hr; by apply not_elem_of_nil in Hr]).
  assert (Hrk : rows_ok k) by (apply (run_rows ops boot (row_of s) H0)).
  assert (Hr1 : rows_ok k1).
  { replace k1 with (make (Subscribe E now et url secret user owner declared legacy Commits) k) by (cbn [make]; by rewrite Hs). by apply make_rows. }
  destruct (run_rows ops' k1 (row_of s) Hr1) as [Hr2 Hin2]. specialize (Hin2 (subscribe_row _ _ _ _ _ _ _ _ _ _ _ _ Hs Hc) Hk).
  rewrite load_webhooks_rows. apply (load_rows_at E' _ _ (row_of s)).
  - by apply (active_rows_NoDup (run ops' k1)).
  - unfold active_rows. rewrite list_elem_of_In. apply filter_In. split; [|done]. by rewrite <- list_elem_of_In.
  - done.
  - intros k2 Hg. by eapply load_row_restores.
Qed.
End persistence.
End hooks.

(** ** Instances *)

Module HookDemo.
Definition hex64 : string := "aaaaaaaaaaaaaaaaaaaaaaaaaaaaaaaaaaaaaaaaaaaaaaaaaaaaaaaaaaaaaaaa".
Definition surroundings : env :=
  Env [] (fun _ => hex64) (fun _ => "") (fun _ => None) (fun s => Some s) (fun _ _ _ => false) (fun _ => None) (fun _ => false)
    (fun p => p) (fun _ => false) (fun _ => false) (fun _ => None) (fun _ => []).
Definition uuid (n : nat) : string := "sub-" +:+ pretty n.
Definition dumps (v : pyval) : string := "{}".
Definition hmac (secret text : string) : string := secret +:+ text.
Definition declared : pyval :=
  VDict [("extension_id", VStr "vendor.hook"); ("version", VStr "1"); ("source_type", VStr "webhook-integration"); ("source_ref", VStr "https://vendor.test");
         ("integrity", VDict [("value", VStr hex64)])].
Definition subscribe (owner : string) (d : option pyval) (user : string) (et : string) : change :=
  Subscribe surroundings 7 et "https://vendor.test/in" (Some "s3cret") (Some user) owner d false Commits.
Definition alices : change := subscribe OWNER_EXTERNAL_THIRD_PARTY (Some declared) "alice" "execution.*".
Definition started : event := Event "execution.started" "e1" (VDict []) None None None.
(** The first attempt raises, the second is refused, the third is accepted. *)
Definition flaky (_ : string) (n : nat) : option Z := if (n <? 2)%nat then None else if (n <? 3)%nat then Some 503 else Some 204.
Definition dispatch (ev : event) : op := Dispatch flaky (fun _ => []) (fun _ => 9) 8 ev.
End HookDemo.

Lemma uuid_inj n m : HookDemo.uuid n = HookDemo.uuid m -> n = m.
Proof. unfold HookDemo.uuid. intros H%app_str_inj. by apply (inj pretty). Qed.

Lemma subscription_survives_restart_witness :
  let run := run HookDemo.uuid HookDemo.dumps HookDemo.hmac in
  exists s s', dict_get "sub-0" (k_subs (run [Change HookDemo.alices] boot)) = Some s /\
    dict_get "sub-0" (k_subs (load_webhooks HookDemo.surroundings
      (restart (run [HookDemo.dispatch HookDemo.started; Restarts] (run [Change HookDemo.alices] boot)))).1) = Some s' /\
    restored s s' /\ sb_attempts s' = 0.
Proof.
  destruct (subscribe_webhook HookDemo.uuid HookDemo.surroundings 7 "execution.*" "https://vendor.test/in" (Some "s3cret") (Some "alice")
    OWNER_EXTERNAL_THIRD_PARTY (Some HookDemo.declared) false Commits boot) as [k1 r] eqn:Es.
  destruct r as [s|]; [|vm_compute in Es; discriminate Es].
  assert (Hid : sb_id s = "sub-0") by (vm_compute in Es; injection Es as _ <-; reflexivity).
  destruct (subscription_survives_restart HookDemo.uuid HookDemo.dumps HookDemo.hmac uuid_inj [] HookDemo.surroundings 7 "execution.*"
    "https://vendor.test/in" (Some "s3cret") (Some "alice") OWNER_EXTERNAL_THIRD_PARTY (Some HookDemo.declared) false k1 s
    [HookDemo.dispatch HookDemo.started; Restarts] HookDemo.surroundings Es) as (s' & Hg & Hr).
  - reflexivity.
  - repeat constructor.
  - vm_compute. reflexivity.
  - exists s, s'. rewrite Hid in Hg.
    assert (run HookDemo.uuid HookDemo.dumps HookDemo.hmac [Change HookDemo.alices] boot = k1) as -> by (cbn [run foldl step make HookDemo.alices HookDemo.subscribe]; by rewrite Es).
    split; [vm_compute in Es; injection Es as <- <-; reflexivity|]. split; [exact Hg|]. split; [exact Hr|].
    vm_compute in Es. injection Es as <- <-. vm_compute in Hg. by injection Hg as <-.
Defined.

(** Three requests are sent and one success is booked. *)
Example flaky_delivery :
  let k := run HookDemo.uuid HookDemo.dumps HookDemo.hmac [Change HookDemo.alices; HookDemo.dispatch HookDemo.started] boot in
  length (k_sent k) = 3%nat /\ map hr_signature (k_sent k) = [Some "sha256=s3cret{}"; Some "sha256=s3cret{}"; Some "sha256=s3cret{}"] /\
  (fun s => (sb_attempts s, sb_successes s, sb_failures s)) <$> dict_get "sub-0" (k_subs k) = Some (1, 1, 0).
Proof. vm_compute. auto. Qed.

(** ** What callers see, and what restarts lose *)

Definition with_secret (x : string) (s : subscription) : subscription :=
  Subscription (sb_id s) (sb_authority s) (sb_caps s) (sb_access s) (sb_event s) (sb_url s) (sb_owner s) (sb_provenance s) (Some x)
    (sb_created_at s) (sb_created_by s) (sb_attempts s) (sb_successes s) (sb_failures s) (sb_last s).

(** What callers are given does not depend on what the secret is. *)
Lemma public_hides_secret s x y : public_meta (with_secret x s) = public_meta (with_secret y s).
Proof. reflexivity. Qed.

(** A second subscription to the same events and URL is accepted and delivered to, but its
    row is refused; after a restart it is gone. *)
Lemma second_subscriber_is_lost :
  let run := run HookDemo.uuid HookDemo.dumps HookDemo.hmac in
  let bobs := HookDemo.subscribe OWNER_EXTERNAL_THIRD_PARTY (Some HookDemo.declared) "bob" "execution.*" in
  let k := run [Change HookDemo.alices; Change bobs] boot in
  dict_keys (k_subs k) = ["sub-0"; "sub-1"] /\ (dispatch_webhooks HookDemo.dumps HookDemo.hmac (traffic_of HookDemo.uuid HookDemo.flaky (fun _ => []) (fun _ => 9)) 8 HookDemo.started k).2 = 2 /\
  dict_keys (k_subs (load_webhooks HookDemo.surroundings (restart k)).1) = ["sub-0"].
Proof. vm_compute. auto. Qed.

(** A subscription of the runtime's own is created with the capability to send requests and
    restored without it. *)
Lemma restored_builtin_loses_capability :
  let run := run HookDemo.uuid HookDemo.dumps HookDemo.hmac in
  let own := HookDemo.subscribe OWNER_RUNTIME_BUILTIN None "alice" "*" in
  let k := run [Change own] boot in
  sb_caps <$> dict_get "sub-0" (k_subs k) = Some [CAP_OUTBOUND_HTTP] /\
  sb_caps <$> dict_get "sub-0" (k_subs (load_webhooks HookDemo.surroundings (restart k)).1) = Some [].
Proof. vm_compute. auto. Qed.
