(* ===== verification/Extensions.v ===== *)
(** * Dynamic nodes and flows

    platform_layer/node_registry.py, runtime/flow_registry.py, extension_boundary.py and
    platform_loader.py: nodes and flows registered at run time, the workers behind
    isolated plugin nodes, their rows in the database and what a restart restores.

    [platform] holds the registries of the flow engine, the metadata of the dynamic
    entries, the plugin hosts, the trusted signing keys and the tables. An operation is
    given the surroundings [surr] it runs in, so that they may differ between operations
    and across restarts. A refusal keeps the state reached when it was raised. The
    metadata leaves out the constants of the ABI, the times and the audit fields copied
    from a worker's report. *)

From Stdlib Require Import QArith Ascii.
From stdpp Require Import pretty.
From S2P Require Import Prelude PyStr PyVal ExtensionWorker Sandbox PluginHost ExtensionTrust Webhooks.

Local Open Scope string_scope.
Local Open Scope Z_scope.
Local Open Scope list_scope.
Local Open Scope py_scope.

(** ** Surroundings and state *)

(** What a plugin module holds under a name. *)
Inductive member := Callable (params : list param) | NotCallable.

Record surr := Surr {
  s_env : env;
  s_plugins_dir : string;
  s_version : string;                                      (* of the runtime package *)
  s_import : string -> option (list (string * member));    (* execute a module file; [None] where it raises *)
  s_render : pyval -> string;
  s_token : nat -> string;
  s_reply : nat -> reply;
  s_fmt : Q -> string;
  s_canonical : string -> string;
  s_settings : settings;
  s_machine : machine;
  s_published : string }.

Inductive node :=
| StaticNode (id : string)
| WebhookNode (url : string) (timeout : Z) (secret : option string)
| IsolatedNode (owner : string) (caps : list string)         (* run by the plugin host of the node's name *)
| InProcessNode (source function : string).

Record node_meta := NodeMeta {
  nm_type : string;
  nm_owner : string;
  nm_authority : string;
  nm_caps : list string;
  nm_access : pyval;
  nm_trust : string;
  nm_model : string;
  nm_sandboxing : string;
  nm_handler : string;
  nm_artifact : option string;
  nm_provenance : provenance;
  nm_host : bool;                  (* plugin_host_name is set *)
  nm_timeout : option Z;
  nm_signed : option bool;
  nm_created_by : option string }.

Record flow_def := FlowDef { fd_start : string; fd_edges : list (string * list string); fd_end : list string }.
Record flow_meta := FlowMeta { fm_nodes : list string; fm_def : flow_def; fm_owner : string; fm_provenance : provenance; fm_created_by : option string }.

Record node_row := NodeRow {
  nr_name : string; nr_type : string; nr_owner : string; nr_config : list (string * pyval); nr_provenance : pyval;
  nr_secret : option string; nr_created_by : option string; nr_active : bool }.

Record flow_row := FlowRow {
  fr_name : string; fr_definition : list (string * pyval); fr_owner : string; fr_provenance : pyval; fr_created_by : option string; fr_active : bool }.

Record platform := Platform {
  p_nodes : list (string * node);             (* NODE_REGISTRY *)
  p_node_meta : list (string * node_meta);    (* _DYNAMIC_NODE_META *)
  p_flows : list (string * flow_def);         (* FLOW_REGISTRY *)
  p_flow_meta : list (string * flow_meta);    (* _DYNAMIC_META *)
  p_hosts : world;
  p_trusted : trust;
  p_node_rows : list node_row;
  p_flow_rows : list flow_row;
  p_hooks : hooks }.

Definition set_nodes (n : list (string * node)) (m : list (string * node_meta)) (p : platform) : platform :=
  Platform n m (p_flows p) (p_flow_meta p) (p_hosts p) (p_trusted p) (p_node_rows p) (p_flow_rows p) (p_hooks p).
Definition set_flows (f : list (string * flow_def)) (m : list (string * flow_meta)) (p : platform) : platform :=
  Platform (p_nodes p) (p_node_meta p) f m (p_hosts p) (p_trusted p) (p_node_rows p) (p_flow_rows p) (p_hooks p).
Definition set_world (w : world) (p : platform) : platform :=
  Platform (p_nodes p) (p_node_meta p) (p_flows p) (p_flow_meta p) w (p_trusted p) (p_node_rows p) (p_flow_rows p) (p_hooks p).
Definition set_trusted (t : trust) (p : platform) : platform :=
  Platform (p_nodes p) (p_node_meta p) (p_flows p) (p_flow_meta p) (p_hosts p) t (p_node_rows p) (p_flow_rows p) (p_hooks p).
Definition set_node_rows (r : list node_row) (p : platform) : platform :=
  Platform (p_nodes p) (p_node_meta p) (p_flows p) (p_flow_meta p) (p_hosts p) (p_trusted p) r (p_flow_rows p) (p_hooks p).
Definition set_flow_rows (r : list flow_row) (p : platform) : platform :=
  Platform (p_nodes p) (p_node_meta p) (p_flows p) (p_flow_meta p) (p_hosts p) (p_trusted p) (p_node_rows p) r (p_hooks p).
Definition set_hooks (k : hooks) (p : platform) : platform :=
  Platform (p_nodes p) (p_node_meta p) (p_flows p) (p_flow_meta p) (p_hosts p) (p_trusted p) (p_node_rows p) (p_flow_rows p) k.

(** ** The boundary: extension_boundary.py *)

Definition BLOCKED_ROOT_KEYS : list string :=
  ["db"; "_db"; "session"; "engine"; "settings"; "config"; "secret"; "secrets"; "request"; "response"; "app"].

(** On values that are JSON, the sanitizer only drops the blocked keys of the root. *)
Definition sanitize_extension_context (context : list (string * pyval)) : list (string * pyval) :=
  base.filter (fun kv => kv.1 ∉ BLOCKED_ROOT_KEYS) context.

Definition build_extension_context (X : surr) (extension_name : string) (rc : list (string * pyval)) (owner : string) (caps : list string) : list (string * pyval) :=
  let text k := VStr (text_of (s_render X) k rc) in
  sanitize_extension_context
    [("extension_name", VStr extension_name); ("owner_class", VStr owner); ("granted_capabilities", VList (map VStr caps));
     ("run_id", text "run_id"); ("trace_id", text "trace_id"); ("user_id", text "user_id"); ("workflow_type", text "workflow_type");
     ("flow_name", text "flow_name"); ("node_name", VStr extension_name)].

(** ** Webhook nodes *)

Definition VALID_STATUSES : list string := ["SUCCESS"; "RETRY"; "FAILURE"; "WAIT"].
Definition WEBHOOK_MAX_TIMEOUT : Z := 30.

(** What leaves the process: the state without its database session. *)
Definition webhook_node_body (render : pyval -> string) (name : string) (state context : list (string * pyval)) : pyval :=
  VDict [("node_name", VStr name); ("user_id", VStr (text_of render "user_id" context));
         ("flow_name", VStr (text_or render "flow_name" "workflow_type" context));
         ("state", VDict (base.filter (fun kv => kv.1 <> "db") state))].

Definition webhook_node_request (dumps : pyval -> string) (hmac : string -> string -> string) (render : pyval -> string) (name url : string) (secret : option string)
    (state context : list (string * pyval)) : http_request :=
  let body := webhook_node_body render name state context in HttpRequest url body (sign dumps hmac secret body).

(** A node returns its answer or raises. *)
Inductive node_answer := Returns (d : list (string * pyval)) | Raises.

Definition failure (why : string) : node_answer := Returns [("status", VStr "FAILURE"); ("error", VStr why)].

Definition copy_key (k : string) (response : list (string * pyval)) : list (string * pyval) :=
  match dict_get k response with Some v => [(k, v)] | None => [] end.

(** [response] is the JSON that came back; [None] is a request that failed. *)
Definition webhook_node (response : option pyval) : node_answer :=
  match response with
  | None => failure "webhook error"
  | Some (VDict d) =>
      match default (VStr "") (dict_get "status" d) with
      | VList _ | VDict _ => Raises                       (* unhashable *)
      | VStr s =>
          if bool_decide (s ∈ VALID_STATUSES)
          then Returns (("status", VStr s) :: copy_key "output_patch" d ++ copy_key "error" d ++ copy_key "wait_for" d)
          else failure "webhook returned invalid status"
      | _ => failure "webhook returned invalid status"
      end
  | Some _ => Raises                                      (* has no [get] *)
  end.

(** ** Plugin nodes *)

Definition resolve_plugin_source (X : surr) (handler : string) : result refusal (string * string * string) :=
  let? _ := refuse_if (negb (str_in ":" handler)) HandlerNoColon in
  let '(module_part, func_name) := rsplit_colon handler in
  let? _ := refuse_if (str_in ".." module_part || starts_with "." module_part) HandlerIllegalPath in
  let parts := split_char "."%char module_part in
  let? _ := refuse_if (negb (forallb isidentifier parts)) HandlerNotIdentifiers in
  let? _ := refuse_if (negb (isidentifier func_name)) HandlerNotIdentifiers in
  let package_init := path_of (s_plugins_dir X) (parts ++ ["__init__.py"]) in
  let module_file := path_of (s_plugins_dir X) (removelast parts ++ [List.last parts "" +:+ ".py"]) in
  if e_is_file (s_env X) package_init then Ok (module_part, func_name, package_init)
  else if e_is_file (s_env X) module_file then Ok (module_part, func_name, module_file)
  else Err PluginNotFound.

Definition is_positional (p : param) : bool := match pa_kind p with POSITIONAL_ONLY | POSITIONAL_OR_KEYWORD => true | _ => false end.
Definition is_var_positional (p : param) : bool := match pa_kind p with VAR_POSITIONAL => true | _ => false end.

Definition validate_plugin_callable (ps : list param) : result refusal unit :=
  let required := List.filter (fun p => is_positional p && negb (pa_default p)) ps in
  let? _ := refuse_if ((length required <? 2)%nat && negb (existsb is_var_positional ps)) PluginBadSignature in
  refuse_if (2 <? length required)%nat PluginBadSignature.

(** [_load_plugin_node]: the module runs in the process of the runtime. *)
Definition load_plugin_node (X : surr) (handler : string) : result refusal (string * string * string) :=
  let? x := resolve_plugin_source X handler in
  let '(module_part, func_name, source) := x in
  match s_import X source with
  | None => Err PluginNotLoadable
  | Some members =>
      match dict_get func_name members with
      | Some (Callable ps) => let? _ := validate_plugin_callable ps in Ok (module_part, func_name, source)
      | Some NotCallable | None => Err PluginNotLoadable
      end
  end.

(** [_make_isolated_plugin_node]: start the worker that will run the node. *)
Definition make_isolated_plugin_node (X : surr) (name handler plugin_root owner : string) (caps : list string) (prov : provenance) (p : platform)
    : platform * result refusal node :=
  match extension_resource_access_summary owner PLUGIN_NODE caps with
  | Err e => (p, Err e)
  | Ok access =>
      let '(w, r) := start_plugin_host (s_render X) (s_token X) (s_reply X) (s_fmt X) (s_canonical X) (s_settings X) (s_machine X) (s_published X)
                       name (HostConfig handler plugin_root owner caps access (provenance_items prov) "" false)
                       (build_extension_context X name [] owner caps) (p_hosts p) in
      (set_world w p, match r with Ok _ => Ok (IsolatedNode owner caps) | Err e => Err (HostRefused (ex_text e)) end)
  end.

(** Calling an isolated node: a failure of the host is a failure of the node. *)
Definition isolated_plugin_node (X : surr) (name owner : string) (caps : list string) (context : list (string * pyval)) (w : world) : world * pyval :=
  let '(w', r) := execute_plugin_host (s_render X) (s_token X) (s_reply X) (s_fmt X) (s_canonical X) (s_settings X) (s_machine X) (s_published X)
                    name (build_extension_context X name context owner caps) w in
  (w', match r with
       | Ok v => v
       | Err e => VDict [("status", VStr "FAILURE"); ("error", VStr ("plugin host error: " +:+ ex_text e))]
       end).

(** ** Registering a node *)

Record node_request := NodeRequest {
  rq_name : string;
  rq_type : string;
  rq_handler : string;
  rq_timeout : Z;
  rq_secret : option string;
  rq_artifact : option string;
  rq_user : option string;
  rq_owner : string;
  rq_caps : list pyval;
  rq_provenance : option pyval;
  rq_legacy : bool;
  rq_overwrite : bool;
  rq_db : database }.

Definition is_webhook (rq : node_request) : bool := bool_decide (rq_type rq = "webhook").
Definition surface_of (rq : node_request) : string := if is_webhook rq then WEBHOOK_NODE else PLUGIN_NODE.
Definition clamp_timeout (t : Z) : Z := Z.max 1 (Z.min t WEBHOOK_MAX_TIMEOUT).

Definition NODE_ABI : string := "aindy.extension.node-registration/v1alpha1".

Definition webhook_payload (handler : string) (timeout : Z) (owner : string) (caps : list string) : pyval :=
  VDict [("abi_version", VStr NODE_ABI); ("type", VStr "webhook"); ("handler", VStr handler); ("timeout_seconds", VInt timeout);
         ("owner_class", VStr owner); ("capabilities", VList (map VStr caps))].

Record built := Built { b_node : node; b_trust : string; b_provenance : provenance; b_model : string; b_sandboxing : string }.

Definition build_webhook (X : surr) (rq : node_request) (owner : string) (caps : list string) : result refusal built :=
  let? _ := validate_outbound_extension_url (s_env X) (rq_handler rq) in
  let timeout := clamp_timeout (rq_timeout rq) in
  let? prov := derive_structured_extension_provenance (s_env X) owner WEBHOOK_NODE (rq_name rq) (webhook_payload (rq_handler rq) timeout owner caps)
                 "webhook-integration" (rq_handler rq) (rq_provenance rq) (rq_legacy rq) in
  Ok (Built (WebhookNode (rq_handler rq) timeout (rq_secret rq)) "contract-driven-webhook" prov "contract-driven-webhook" "network-boundary-only").

(** The provenance registration derives of an admitted bundle. *)
Definition bundle_provenance (X : surr) (t : trust) (rq : node_request) (owner : string) (b : bundle) : result refusal provenance :=
  derive_plugin_artifact_provenance (s_env X) t owner PLUGIN_NODE (rq_name rq) (ad_id b) (ad_version b) (ad_root b) (ad_hash b) (ad_publisher b)
    (rq_provenance rq) (rq_legacy rq) None.

Definition with_metadata (owner trust_class : string) (prov : provenance) (fn : node) : result refusal built :=
  let? md := python_extension_execution_metadata owner "dynamic plugin node" in
  Ok (Built fn trust_class prov (xm_model md) (xm_sandboxing md)).

Definition build_third_party (X : surr) (rq : node_request) (owner trust_class : string) (caps : list string) (p : platform) : platform * result refusal built :=
  match
    let? _ := refuse_if (negb (text_truthy (rq_artifact rq))) ArtifactPathRequired in
    let? b := admit_plugin_artifact (s_env X) (default "" (rq_artifact rq)) owner (Some (rq_handler rq)) in
    let? _ := refuse_if (negb (str_in ":" (rq_handler rq))) HandlerNoColon in
    let? prov := bundle_provenance X (p_trusted p) rq owner b in
    Ok (b, prov)
  with
  | Err e => (p, Err e)
  | Ok (b, prov) =>
      let '(p', r) := make_isolated_plugin_node X (rq_name rq) (ad_entrypoint b) (ad_code b) owner caps prov p in
      (p', let? fn := r in with_metadata owner trust_class prov fn)
  end.

Definition build_first_party (X : surr) (rq : node_request) (owner trust_class : string) (caps : list string) (p : platform) : platform * result refusal built :=
  match
    let? x := resolve_plugin_source X (rq_handler rq) in
    let '(module_name, _, source) := x in
    derive_python_extension_provenance (s_env X) (s_version X) owner PLUGIN_NODE (rq_name rq) module_name source (rq_provenance rq) (rq_legacy rq)
  with
  | Err e => (p, Err e)
  | Ok prov =>
      let '(p', r) := make_isolated_plugin_node X (rq_name rq) (rq_handler rq) (s_plugins_dir X) owner caps prov p in
      (p', let? fn := r in with_metadata owner trust_class prov fn)
  end.

Definition build_runtime (X : surr) (rq : node_request) (owner trust_class : string) : result refusal built :=
  let? x := load_plugin_node X (rq_handler rq) in
  let '(module_name, function, source) := x in
  let? prov := derive_python_extension_provenance (s_env X) (s_version X) owner PLUGIN_NODE (rq_name rq) module_name source (rq_provenance rq) (rq_legacy rq) in
  with_metadata owner trust_class prov (InProcessNode source function).

Definition build_node (X : surr) (rq : node_request) (owner : string) (caps : list string) (p : platform) : platform * result refusal built :=
  if is_webhook rq then (p, build_webhook X rq owner caps)
  else match assert_python_extension_allowed owner "dynamic plugin node" with
       | Err e => (p, Err e)
       | Ok trust_class =>
           if bool_decide (owner = OWNER_EXTERNAL_THIRD_PARTY) then build_third_party X rq owner trust_class caps p
           else if bool_decide (owner = OWNER_FIRST_PARTY_APP) then build_first_party X rq owner trust_class caps p
           else (p, build_runtime X rq owner trust_class)
       end.

Definition node_meta_of (rq : node_request) (owner : string) (caps : list string) (b : built) : result refusal node_meta :=
  let? authority := extension_authority_model owner (surface_of rq) in
  let? access := extension_resource_access_summary owner (surface_of rq) caps in
  Ok (NodeMeta (rq_type rq) owner authority caps access (b_trust b) (b_model b) (b_sandboxing b) (rq_handler rq)
        (if negb (is_webhook rq) && bool_decide (owner = OWNER_EXTERNAL_THIRD_PARTY) then rq_artifact rq else None)
        (b_provenance b) (negb (is_webhook rq) && bool_decide (b_model b = "isolated-plugin-host"))
        (if is_webhook rq then Some (clamp_timeout (rq_timeout rq)) else None)
        (if is_webhook rq then Some (bool_decide (rq_secret rq <> None)) else None) (rq_user rq)).

Definition handler_config (rq : node_request) (caps : list string) : list (string * pyval) :=
  if is_webhook rq
  then [("url", VStr (rq_handler rq)); ("timeout_seconds", VInt (clamp_timeout (rq_timeout rq))); ("capabilities", VList (map VStr caps))]
  else [("handler", VStr (rq_handler rq)); ("artifact_path", vopt (rq_artifact rq)); ("capabilities", VList (map VStr caps))].

Definition column (s : option string) : option string := match s with Some t => if bool_decide (t = "") then None else Some t | None => None end.

(** [_persist_node]: one row per name; an update keeps the creator. *)
Definition persist_node (rq : node_request) (owner : string) (caps : list string) (prov : provenance) (p : platform) : platform :=
  match rq_db rq with
  | Commits =>
      let rows := p_node_rows p in
      let fresh created := NodeRow (rq_name rq) (rq_type rq) owner (handler_config rq caps) (provenance_dict prov) (rq_secret rq) created true in
      set_node_rows
        (if existsb (fun r => bool_decide (nr_name r = rq_name rq)) rows
         then map (fun r => if bool_decide (nr_name r = rq_name rq) then fresh (nr_created_by r) else r) rows
         else rows ++ [fresh (column (rq_user rq))]) p
  | NoDb | Fails => p
  end.

Definition register_external_node (X : surr) (rq : node_request) (p : platform) : platform * result refusal node_meta :=
  match
    let? _ := refuse_if (bool_decide (str_strip (rq_name rq) = "")) NoName in
    let? _ := refuse_if (negb (bool_decide (rq_type rq ∈ ["webhook"; "plugin"]))) BadNodeType in
    let? _ := refuse_if (bool_decide (str_strip (rq_handler rq) = "")) NoHandler in
    let? owner := validate_extension_owner_class (rq_owner rq) in
    let? caps := normalize_extension_capabilities owner (surface_of rq) (rq_caps rq) in
    Ok (owner, caps)
  with
  | Err e => (p, Err e)
  | Ok (owner, caps) =>
      match build_node X rq owner caps p with
      | (p1, Err e) => (p1, Err e)
      | (p1, Ok b) =>
          if dict_mem (rq_name rq) (p_nodes p1) && negb (rq_overwrite rq) then (p1, Err NodeExists)
          else match node_meta_of rq owner caps b with
               | Err e => (p1, Err e)
               | Ok m =>
                   let p2 := set_nodes (dict_set (rq_name rq) (b_node b) (p_nodes p1)) (dict_set (rq_name rq) m (p_node_meta p1)) p1 in
                   (persist_node rq owner caps (b_provenance b) p2, Ok m)
               end
      end
  end.

Definition deactivate_node (name : string) (r : node_row) : node_row :=
  if bool_decide (nr_name r = name)
  then NodeRow (nr_name r) (nr_type r) (nr_owner r) (nr_config r) (nr_provenance r) (nr_secret r) (nr_created_by r) false else r.

Definition delete_dynamic_node (X : surr) (name : string) (db : database) (p : platform) : platform * bool :=
  if dict_mem name (p_node_meta p) then
    let p1 := set_nodes (dict_del name (p_nodes p)) (dict_del name (p_node_meta p)) p in
    let p2 := set_world (shutdown_plugin_host (s_reply X) name true (p_hosts p1)).1 p1 in
    (match db with Commits => set_node_rows (map (deactivate_node name) (p_node_rows p2)) p2 | NoDb | Fails => p2 end, true)
  else (p, false).

(** ** Flows: flow_registry.py *)

Definition MAX_DYNAMIC_FLOW_NODES : nat := 128.
Definition MAX_DYNAMIC_FLOW_EDGES : nat := 512.

Record flow_request := FlowRequest {
  fq_name : string;
  fq_nodes : list string;
  fq_edges : list (string * list string);
  fq_start : string;
  fq_end : list string;
  fq_user : option string;
  fq_owner : string;
  fq_provenance : option pyval;
  fq_legacy : bool;
  fq_overwrite : bool;
  fq_db : database }.

Definition flow_name_char (c : ascii) : bool := is_word c || bool_decide (c ∈ ["."; "-"]%char).

Definition error_when (b : bool) (e : flow_error) : list flow_error := if b then [e] else [].

Definition name_errors (name : string) : list flow_error :=
  if bool_decide (str_strip name = "") then [FlowNameEmpty]
  else if (128 <? String.length (str_strip name))%nat then [FlowNameLong]
  else error_when (negb (forallb flow_name_char (String.list_ascii_of_string name))) FlowNameCharacters.

Definition blank (s : string) : bool := bool_decide (str_strip s = "").

Definition edge_errors (nodes : list string) (e : string * list string) : list flow_error :=
  error_when (negb (bool_decide (NoDup e.2))) (DuplicateTargets e.1)
  ++ let bad := py_sorted (base.filter (fun t => t ∉ nodes) e.2) in error_when (bool_decide (bad <> [])) (TargetsUnknown e.1 bad).

(** [_validate]: the errors found, in the order of the checks. *)
Definition validate_flow (registered : list string) (name : string) (nodes : list string) (edges : list (string * list string)) (start : string)
    (ends : list string) : list flow_error :=
  let e0 := name_errors name in
  if bool_decide (nodes = []) then e0 ++ [NoNodes]
  else
    let e1 := e0 ++ error_when (MAX_DYNAMIC_FLOW_NODES <? length nodes)%nat TooManyNodes ++ error_when (negb (bool_decide (NoDup nodes))) DuplicateNodes in
    if existsb blank nodes then e1 ++ [EmptyNodeName]
    else if existsb blank ends then e1 ++ [EmptyEndName]
    else
      let unknown := py_sorted (base.filter (fun n => n ∉ registered) nodes) in
      let bad_end := py_sorted (base.filter (fun n => n ∉ nodes) ends) in
      let bad_keys := py_sorted (base.filter (fun k => k ∉ nodes) (dict_keys edges)) in
      let reachable := start :: flat_map snd edges in
      let orphans := sorted_set (base.filter (fun n => n ∉ reachable) nodes) in
      e1 ++ error_when (bool_decide (unknown <> [])) (UnknownNodes unknown)
      ++ error_when (negb (bool_decide (start ∈ nodes))) StartUnknown
      ++ (if bool_decide (ends = []) then [NoEnd] else error_when (bool_decide (bad_end <> [])) (EndsUnknown bad_end))
      ++ error_when (bool_decide (bad_keys <> [])) (SourcesUnknown bad_keys)
      ++ flat_map (edge_errors nodes) edges
      ++ error_when (MAX_DYNAMIC_FLOW_EDGES <? length (flat_map snd edges))%nat TooManyEdges
      ++ error_when (bool_decide (orphans <> [])) (Orphans orphans).

Definition FLOW_ABI : string := "aindy.extension.flow-registration/v1alpha1".

Definition edges_value (edges : list (string * list string)) : pyval := VDict (map (fun e => (e.1, VList (map VStr e.2))) edges).

Definition flow_payload (fq : flow_request) (owner : string) : pyval :=
  VDict [("abi_version", VStr FLOW_ABI); ("name", VStr (fq_name fq)); ("nodes", VList (map VStr (fq_nodes fq))); ("edges", edges_value (fq_edges fq));
         ("start", VStr (fq_start fq)); ("end", VList (map VStr (fq_end fq))); ("owner_class", VStr owner)].

Definition flow_definition (fq : flow_request) : list (string * pyval) :=
  [("nodes", VList (map VStr (fq_nodes fq))); ("edges", edges_value (fq_edges fq)); ("start", VStr (fq_start fq)); ("end", VList (map VStr (fq_end fq)))].

Definition persist_flow (fq : flow_request) (owner : string) (prov : provenance) (p : platform) : platform :=
  match fq_db fq with
  | Commits =>
      let rows := p_flow_rows p in
      let fresh created := FlowRow (fq_name fq) (flow_definition fq) owner (provenance_dict prov) created true in
      set_flow_rows
        (if existsb (fun r => bool_decide (fr_name r = fq_name fq)) rows
         then map (fun r => if bool_decide (fr_name r = fq_name fq) then fresh (fr_created_by r) else r) rows
         else rows ++ [fresh (column (fq_user fq))]) p
  | NoDb | Fails => p
  end.

Definition derive_flow (X : surr) (fq : flow_request) (owner : string) : result refusal provenance :=
  derive_structured_extension_provenance (s_env X) owner DYNAMIC_FLOW (fq_name fq) (flow_payload fq owner)
    "data-registration" ("flow:" +:+ fq_name fq) (fq_provenance fq) (fq_legacy fq).

Definition register_dynamic_flow (X : surr) (fq : flow_request) (p : platform) : platform * result refusal flow_meta :=
  match
    let errors := validate_flow (dict_keys (p_nodes p)) (fq_name fq) (fq_nodes fq) (fq_edges fq) (fq_start fq) (fq_end fq) in
    let? _ := match errors with [] => Ok tt | _ => Err (FlowInvalid errors) end in
    let? owner := validate_extension_owner_class (fq_owner fq) in
    let? prov := derive_flow X fq owner in
    let? _ := refuse_if (dict_mem (fq_name fq) (p_flows p) && negb (fq_overwrite fq)) FlowExists in
    Ok (FlowMeta (fq_nodes fq) (FlowDef (fq_start fq) (fq_edges fq) (fq_end fq)) owner prov (fq_user fq))
  with
  | Err e => (p, Err e)
  | Ok m =>
      let p1 := set_flows (dict_set (fq_name fq) (fm_def m) (p_flows p)) (dict_set (fq_name fq) m (p_flow_meta p)) p in
      (persist_flow fq (fm_owner m) (fm_provenance m) p1, Ok m)
  end.

Definition deactivate_flow (name : string) (r : flow_row) : flow_row :=
  if bool_decide (fr_name r = name) then FlowRow (fr_name r) (fr_definition r) (fr_owner r) (fr_provenance r) (fr_created_by r) false else r.

Definition delete_dynamic_flow (name : string) (db : database) (p : platform) : platform * bool :=
  if dict_mem name (p_flow_meta p) then
    let p1 := set_flows (dict_del name (p_flows p)) (dict_del name (p_flow_meta p)) p in
    (match db with Commits => set_flow_rows (map (deactivate_flow name) (p_flow_rows p1)) p1 | NoDb | Fails => p1 end, true)
  else (p, false).

(** ** Restoration: platform_loader.py *)

(** A stored provenance handed on as a declared one; NULL is none. *)
Definition declared_of (v : pyval) : option pyval := match v with VNone => None | _ => Some v end.

Definition text_item (k : string) (d : list (string * pyval)) : string := match dict_get k d with Some (VStr s) => s | _ => "" end.

(** The request a row is turned into; [None] where reading the row raises. A handler that
    is no text is refused like an empty one. *)
Definition request_of_row (r : node_row) : option node_request :=
  let cfg := nr_config r in
  match (if bool_decide (nr_type r = "webhook") then py_int (default (VInt 10) (dict_get "timeout_seconds" cfg)) else Some 10) with
  | None => None
  | Some timeout =>
      Some (NodeRequest (nr_name r) (nr_type r) (text_item (if bool_decide (nr_type r = "webhook") then "url" else "handler") cfg) timeout (nr_secret r)
              (match dict_get "artifact_path" cfg with Some (VStr s) => Some s | _ => None end) (nr_created_by r)
              (if bool_decide (nr_owner r <> "") then nr_owner r
               else match dict_get "owner_class" cfg with Some (VStr s) => owner_or_default s | _ => OWNER_EXTERNAL_THIRD_PARTY end)
              (match dict_get "capabilities" cfg with Some (VList l) => l | _ => [] end)
              (declared_of (nr_provenance r)) true false NoDb)
  end.

(** One row: the state, and whether it was loaded. *)
Definition load_node_row (X : surr) (r : node_row) (p : platform) : platform * bool :=
  if dict_mem (nr_name r) (p_nodes p) then (p, false)
  else match request_of_row r with
       | None => (p, false)
       | Some rq => match register_external_node X rq p with (p', Ok _) => (p', true) | (p', Err _) => (p', false) end
       end.

Definition texts (v : pyval) : option (list string) :=
  match v with VList l => mapM (fun x => match x with VStr s => Some s | _ => None end) l | _ => None end.

(** A definition that is not of the right shape is refused by the validation. *)
Definition request_of_flow_row (r : flow_row) : option flow_request :=
  let d := fr_definition r in
  match texts (default (VList []) (dict_get "nodes" d)),
        match default (VDict []) (dict_get "edges" d) with
        | VDict es => mapM (fun e : string * pyval => match texts e.2 with Some l => Some (e.1, l) | None => None end) es
        | _ => None end,
        match default (VStr "") (dict_get "start" d) with VStr s => Some s | _ => None end,
        texts (default (VList []) (dict_get "end" d)) with
  | Some nodes, Some edges, Some start, Some ends =>
      Some (FlowRequest (fr_name r) nodes edges start ends (fr_created_by r) (owner_or_default (fr_owner r)) (declared_of (fr_provenance r)) true false NoDb)
  | _, _, _, _ => None
  end.

Definition load_flow_row (X : surr) (r : flow_row) (p : platform) : platform * bool :=
  if dict_mem (fr_name r) (p_flows p) then (p, false)
  else match request_of_flow_row r with
       | None => (p, false)
       | Some fq => match register_dynamic_flow X fq p with (p', Ok _) => (p', true) | (p', Err _) => (p', false) end
       end.

(** Load the rows one by one, counting those loaded and those skipped. *)
Definition load_each {A} (f : platform -> A -> platform * bool) (l : list A) (p : platform) : platform * (Z * Z) :=
  foldl (fun '(p, (loaded, skipped)) r => let '(p', ok) := f p r in (p', if ok then (loaded + 1, skipped) else (loaded, skipped + 1))) (p, (0, 0)) l.

Record restore_stats := RestoreStats { rt_nodes : Z * Z; rt_flows : Z * Z; rt_webhooks : Z * Z }.

Definition load_dynamic_registry (X : surr) (p : platform) : platform * restore_stats :=
  let '(p1, nodes) := load_each (fun p r => load_node_row X r p) (List.filter nr_active (p_node_rows p)) p in
  let '(p2, flows) := load_each (fun p r => load_flow_row X r p) (List.filter fr_active (p_flow_rows p1)) p1 in
  let '(k, webhooks) := load_webhooks (s_env X) (p_hooks p2) in
  (set_hooks k p2, RestoreStats nodes flows webhooks).

(** [verify_restore_completeness]: whether as many entries are live as rows are active. *)
Definition restore_complete (p : platform) : bool :=
  (length (p_flow_meta p) =? length (List.filter fr_active (p_flow_rows p)))%nat
  && (length (p_node_meta p) =? length (List.filter nr_active (p_node_rows p)))%nat
  && (length (k_subs (p_hooks p)) =? length (active_rows (p_hooks p)))%nat.

(** The registry after the code registered its own nodes. *)
Definition static_nodes (nodes : list string) : list (string * node) := dict_update [] (map (fun n => (n, StaticNode n)) nodes).

(** What a restart leaves: the tables, and the nodes and flows the code registers itself. *)
Definition reboot (nodes : list string) (flows : list (string * flow_def)) (now : Z) (p : platform) : platform :=
  Platform (static_nodes nodes) [] flows [] (PluginHost.boot now) [] (p_node_rows p) (p_flow_rows p) (restart (p_hooks p)).

(** ** Histories *)

Inductive pop :=
| RegisterNode (X : surr) (rq : node_request)
| DeleteNode (X : surr) (name : string) (db : database)
| RegisterFlow (X : surr) (fq : flow_request)
| DeleteFlow (name : string) (db : database)
| TrustKey (X : surr) (public_key_b64 : string)
| HostAct (X : surr) (a : PluginHost.act)
| HookOp (uuid : nat -> string) (dumps : pyval -> string) (hmac : string -> string -> string) (o : Webhooks.op)
| LoadRegistry (X : surr)
| Reboot (nodes : list string) (flows : list (string * flow_def)) (now : Z).

Definition pstep (o : pop) (p : platform) : platform :=
  match o with
  | RegisterNode X rq => (register_external_node X rq p).1
  | DeleteNode X name db => (delete_dynamic_node X name db p).1
  | RegisterFlow X fq => (register_dynamic_flow X fq p).1
  | DeleteFlow name db => (delete_dynamic_flow name db p).1
  | TrustKey X key => set_trusted (register_trusted_key (s_env X) key (p_trusted p)).1 p
  | HostAct X a => set_world (PluginHost.step (s_render X) (s_token X) (s_reply X) (s_fmt X) (s_canonical X) (s_settings X) (s_machine X) (s_published X) a (p_hosts p)) p
  | HookOp uuid dumps hmac o => set_hooks (Webhooks.step uuid dumps hmac o (p_hooks p)) p
  | LoadRegistry X => (load_dynamic_registry X p).1
  | Reboot nodes flows now => reboot nodes flows now p
  end.

Definition prun (ops : list pop) (p : platform) : platform := foldl (fun p o => pstep o p) p ops.

(** A process starting on the tables it finds. *)
Definition start (nodes : list string) (flows : list (string * flow_def)) (rows : list node_row) (flow_rows : list flow_row) (k : hooks) : platform :=
  Platform (static_nodes nodes) [] flows [] (PluginHost.boot 0) [] rows flow_rows k.

(** ** Where plugin code comes from *)

Definition plain (part : string) : Prop := no_char "/"%char part = true /\ part <> "..".

(** A file below the plugins directory, reached through plain names. *)
Definition below_plugins (X : surr) (source : string) : Prop :=
  exists parts, source = path_of (s_plugins_dir X) parts /\ Forall plain parts.

Lemma no_char_notin c s : ~ In c (String.list_ascii_of_string s) -> no_char c s = true.
Proof. induction s as [|a s IH]; [done|]. cbn [no_char String.list_ascii_of_string In]. intros H. destruct (ascii_dec a c); tauto. Qed.

Lemma identifier_plain s : isidentifier s = true -> plain s.
Proof.
  unfold isidentifier, plain. intros H. split; [|intros ->; by vm_compute in H]. apply no_char_notin.
  destruct (String.list_ascii_of_string s) as [|c l]; [done|]. apply andb_true_iff in H as [H1 H2]. rewrite forallb_forall in H2.
  intros [->|Hc]; [by vm_compute in H1|]. specialize (H2 _ Hc). by vm_compute in H2.
Qed.

Lemma no_char_app c s t : no_char c (s +:+ t) = no_char c s && no_char c t.
Proof. induction s as [|a s IH]; [done|]. rewrite app_str_cons. cbn [no_char]. case_match; [done|]. apply IH. Qed.

Lemma plain_py s : isidentifier s = true -> plain (s +:+ ".py").
Proof.
  intros H. pose proof (identifier_plain s H) as [Hs _]. split; [by rewrite no_char_app, Hs|].
  intros He%(f_equal String.length). rewrite length_app_str in He. simpl in He. lia.
Qed.

Lemma resolve_below X handler m f source : resolve_plugin_source X handler = Ok (m, f, source) -> below_plugins X source.
Proof.
  unfold resolve_plugin_source. intros H. ok_inv H. destruct (rsplit_colon handler) as [mp fn]. ok_inv H. boolprop.
  match goal with H : forallb isidentifier _ = true |- _ => rename H into Hid end. rewrite forallb_forall in Hid.
  assert (Hall : Forall (fun q => isidentifier q = true) (split_char "."%char mp)) by (apply Forall_forall; intros q Hq; apply Hid; by rewrite <- list_elem_of_In).
  pose proof (split_char_nonempty "."%char mp) as Hne. revert H Hall Hne. generalize (split_char "."%char mp). intros parts H Hall Hne.
  destruct (e_is_file (s_env X) _) in H; [|destruct (e_is_file (s_env X) _) in H; [|discriminate]]; simplify_eq.
  - eexists. split; [done|]. apply Forall_app. split; [eapply Forall_impl; [exact Hall|apply identifier_plain]|]. by repeat constructor.
  - eexists. split; [done|]. rewrite (app_removelast_last "" Hne) in Hall. apply Forall_app in Hall as [Ha Hb].
    apply Forall_app. split; [eapply Forall_impl; [exact Ha|apply identifier_plain]|]. apply Forall_cons in Hb as [Hb _]. constructor; [apply plain_py; exact Hb|constructor].
Qed.

(** ** Vetted nodes *)

(** The bytes a registration [rq] was about have hash [h], which is the one its own
    declaration names, or it came without one and was allowed to. *)
Definition vouched (rq : node_request) (prov : provenance) (h : string) : Prop :=
  pv_observed prov = Some h /\
  ((pv_verification prov = DECLARED_AND_VERIFIED /\ declares (rq_provenance rq) h)
   \/ (pv_verification prov = LEGACY_UNVERIFIED /\ rq_provenance rq = None /\ rq_legacy rq = true)).

Definition PLUGIN_CAPABILITIES : list string := ["memory.read"; "memory.write"; "flow.run"; "event.emit"; "tool.invoke"; CAP_OUTBOUND_HTTP].

(** What the entry of a dynamic node rests on: the request that registered it, checked in
    the surroundings [X] it was registered in. *)
Definition vetted (X : surr) (rq : node_request) (fn : node) (m : node_meta) : Prop :=
  nm_handler m = rq_handler rq /\ validate_extension_owner_class (rq_owner rq) = Ok (nm_owner m) /\
  normalize_extension_capabilities (nm_owner m) (surface_of rq) (rq_caps rq) = Ok (nm_caps m) /\
  match fn with
  | StaticNode _ => False
  | WebhookNode url timeout secret =>
      is_webhook rq = true /\ url = rq_handler rq /\ secret = rq_secret rq /\ outbound_ok (s_env X) url /\ 1 <= timeout <= 30 /\
      nm_caps m ⊆ [CAP_OUTBOUND_HTTP] /\
      (nm_owner m = OWNER_EXTERNAL_THIRD_PARTY ->
       vouched rq (nm_provenance m) (sha256_json_document (s_env X) (webhook_payload url timeout (nm_owner m) (nm_caps m))))
  | IsolatedNode owner caps =>
      is_webhook rq = false /\ owner = nm_owner m /\ caps = nm_caps m /\ caps ⊆ PLUGIN_CAPABILITIES /\ nm_model m = "isolated-plugin-host" /\
      ((owner = OWNER_EXTERNAL_THIRD_PARTY /\ exists path b, rq_artifact rq = Some path /\
          intact (s_env X) path (rq_handler rq) b /\ vouched rq (nm_provenance m) (ad_hash b))
       \/ (owner = OWNER_FIRST_PARTY_APP /\ exists module_ function source,
             resolve_plugin_source X (rq_handler rq) = Ok (module_, function, source) /\ below_plugins X source))
  | InProcessNode source function =>
      is_webhook rq = false /\ nm_owner m = OWNER_RUNTIME_BUILTIN /\ nm_caps m = [] /\
      exists module_, resolve_plugin_source X (rq_handler rq) = Ok (module_, function, source) /\ below_plugins X source
  end.

(** An operation, from platform [p], that registers by the request [rq] in the surroundings
    [X]: the registration itself, or loading an active row that is turned into [rq]. *)
Definition introduces (o : pop) (p : platform) (X : surr) (rq : node_request) : Prop :=
  o = RegisterNode X rq \/
  (o = LoadRegistry X /\ exists r, r ∈ p_node_rows p /\ nr_active r = true /\ request_of_row r = Some rq).

(** One of the operations [ops], starting from [p0], did. *)
Definition introduced (ops : list pop) (p0 : platform) (X : surr) (rq : node_request) : Prop :=
  exists l1 o l2, ops = l1 ++ o :: l2 /\ introduces o (prun l1 p0) X rq.

(** All of the platform but its plugin hosts is the same. *)
Definition same_but_hosts (p p' : platform) : Prop := set_world (p_hosts p) p' = p.

Lemma same_but_hosts_refl p : same_but_hosts p p.
Proof. by destruct p. Qed.

Lemma make_isolated_spec X name handler root owner caps prov p p' r :
  make_isolated_plugin_node X name handler root owner caps prov p = (p', r) ->
  same_but_hosts p p' /\ (forall fn, r = Ok fn -> fn = IsolatedNode owner caps).
Proof.
  unfold make_isolated_plugin_node. destruct (extension_resource_access_summary _ _ _); [|intros [= <- <-]; split; [apply same_but_hosts_refl|discriminate]].
  destruct (start_plugin_host _ _ _ _ _ _ _ _ _ _ _ _) as [w [u|e]]; intros [= <- <-]; (split; [by destruct p|intros fn [= <-]; done || discriminate]).
Qed.

Lemma with_metadata_Ok owner tc prov fn b : with_metadata owner tc prov fn = Ok b ->
  b_node b = fn /\ b_provenance b = prov /\
  (owner = OWNER_EXTERNAL_THIRD_PARTY \/ owner = OWNER_FIRST_PARTY_APP -> b_model b = "isolated-plugin-host").
Proof.
  unfold with_metadata. intros H. ok_inv H. simplify_eq. split; [done|]. split; [done|]. cbn [b_model].
  intros [->| ->]; match goal with H : _ = Ok a |- _ => vm_compute in H; injection H as <- end; done.
Qed.

Lemma vouched_of rq owner surface h prov :
  sound_provenance owner surface (rq_provenance rq) (rq_legacy rq) h prov -> owner = OWNER_EXTERNAL_THIRD_PARTY -> surface ∈ SURFACES_REQUIRING_PROVENANCE -> vouched rq prov h.
Proof.
  intros [_ _ Ho Hk] -> Hs. split; [done|]. destruct Hk as [?|[?|[_ [_ Hr]]]]; auto.
  exfalso. unfold provenance_required in Hr. rewrite validate_owner_idem in Hr by set_solver. cbn [result_bind] in Hr.
  rewrite !bool_decide_true in Hr by done. discriminate.
Qed.

(** The parts of the metadata that decide whether a node is vetted. *)
Definition describes (rq : node_request) (owner : string) (caps : list string) (b : built) (m : node_meta) : Prop :=
  validate_extension_owner_class (rq_owner rq) = Ok owner /\ nm_owner m = owner /\ nm_caps m = caps /\ nm_handler m = rq_handler rq /\ nm_provenance m = b_provenance b /\ nm_model m = b_model b.

Lemma node_meta_describes rq owner caps b m :
  validate_extension_owner_class (rq_owner rq) = Ok owner -> node_meta_of rq owner caps b = Ok m -> describes rq owner caps b m.
Proof. unfold node_meta_of. intros Ho H. ok_inv H. by simplify_eq. Qed.

Lemma build_webhook_vetted X rq owner caps b m :
  is_webhook rq = true -> build_webhook X rq owner caps = Ok b -> validate_extension_owner_class owner = Ok owner ->
  normalize_extension_capabilities owner WEBHOOK_NODE (rq_caps rq) = Ok caps -> describes rq owner caps b m -> vetted X rq (b_node b) m.
Proof.
  unfold build_webhook. intros Hw H Ho Hc (Hmv & Hmo & Hmc & Hmh & Hmp & _). ok_inv H. injection H as <-. cbn [b_node b_provenance] in *.
  unfold vetted, surface_of. rewrite Hw, Hmh, Hmo, Hmc, Hmp. split_and!; try done; try (unfold clamp_timeout, WEBHOOK_MAX_TIMEOUT; lia); [by eapply validate_url_Ok| |].
  - destruct (normalize_within _ _ _ _ _ Hc eq_refl) as [H _]. cbn in H. set_solver.
  - intros Ht. eapply vouched_of; [by eapply structured_sound|done|set_solver].
Qed.

Lemma plugin_caps owner requested caps : normalize_extension_capabilities owner PLUGIN_NODE requested = Ok caps -> caps ⊆ PLUGIN_CAPABILITIES.
Proof. intros H. destruct (normalize_within _ _ _ _ _ H eq_refl) as [Hc _]. exact Hc. Qed.

Lemma build_third_party_vetted X rq tc caps p p' b m :
  is_webhook rq = false -> build_third_party X rq OWNER_EXTERNAL_THIRD_PARTY tc caps p = (p', Ok b) ->
  normalize_extension_capabilities OWNER_EXTERNAL_THIRD_PARTY PLUGIN_NODE (rq_caps rq) = Ok caps ->
  describes rq OWNER_EXTERNAL_THIRD_PARTY caps b m -> vetted X rq (b_node b) m.
Proof.
  unfold build_third_party. intros Hw H Hc (Hmv & Hmo & Hmc & Hmh & Hmp & Hmm). destruct (result_bind _ _) as [[bd prov]|] eqn:Eb; [|discriminate].
  ok_inv Eb. injection Eb as -> ->. destruct (make_isolated_plugin_node _ _ _ _ _ _ _ _) as [p1 r] eqn:Em. injection H as <- H. ok_inv H.
  destruct (make_isolated_spec _ _ _ _ _ _ _ _ _ _ Em) as [_ Hfn]. specialize (Hfn _ eq_refl) as ->.
  destruct (with_metadata_Ok _ _ _ _ _ H) as (-> & Hp & Hmod). unfold vetted, surface_of.
  rewrite Hw, Hmh, Hmo, Hmc, Hmp, Hmm, Hp. split_and!; try done; [by eapply plugin_caps|auto|]. left. split; [done|].
  destruct (rq_artifact rq) as [path|]; [|done]. exists path, bd. split_and!; [done|by eapply admit_intact|].
  eapply vouched_of; [eapply artifact_sound; [eassumption|by vm_compute]|done|set_solver].
Qed.

Lemma build_first_party_vetted X rq tc caps p p' b m :
  is_webhook rq = false -> build_first_party X rq OWNER_FIRST_PARTY_APP tc caps p = (p', Ok b) ->
  normalize_extension_capabilities OWNER_FIRST_PARTY_APP PLUGIN_NODE (rq_caps rq) = Ok caps ->
  describes rq OWNER_FIRST_PARTY_APP caps b m -> vetted X rq (b_node b) m.
Proof.
  unfold build_first_party. intros Hw H Hc (Hmv & Hmo & Hmc & Hmh & Hmp & Hmm). destruct (result_bind _ _) as [prov|] eqn:Eb; [|discriminate].
  destruct (resolve_plugin_source X (rq_handler rq)) as [[[mo fu] src]|] eqn:Er; [|discriminate].
  destruct (make_isolated_plugin_node _ _ _ _ _ _ _ _) as [p1 r] eqn:Em. injection H as <- H. ok_inv H.
  destruct (make_isolated_spec _ _ _ _ _ _ _ _ _ _ Em) as [_ Hfn]. specialize (Hfn _ eq_refl) as ->.
  destruct (with_metadata_Ok _ _ _ _ _ H) as (-> & Hp & Hmod). unfold vetted, surface_of.
  rewrite Hw, Hmh, Hmo, Hmc, Hmm. split_and!; try done; [by eapply plugin_caps|auto|]. right. split; [done|].
  exists mo, fu, src. split; [done|]. by eapply resolve_below.
Qed.

Lemma build_runtime_vetted X rq tc caps b m :
  is_webhook rq = false -> build_runtime X rq OWNER_RUNTIME_BUILTIN tc = Ok b ->
  normalize_extension_capabilities OWNER_RUNTIME_BUILTIN PLUGIN_NODE (rq_caps rq) = Ok caps ->
  describes rq OWNER_RUNTIME_BUILTIN caps b m -> vetted X rq (b_node b) m.
Proof.
  unfold build_runtime. intros Hw H Hc (Hmv & Hmo & Hmc & Hmh & Hmp & Hmm). ok_inv H.
  match goal with H : load_plugin_node _ _ = Ok ?x |- _ => destruct x as [[mo fu] src]; rename H into Hl end. ok_inv H.
  destruct (with_metadata_Ok _ _ _ _ _ H) as (-> & _). unfold vetted, surface_of.
  rewrite Hw, Hmh, Hmo, Hmc. split_and!; try done; [by eapply runtime_granted_nothing|].
  unfold load_plugin_node in Hl. ok_inv Hl. match goal with H : resolve_plugin_source _ _ = Ok ?x |- _ => destruct x as [[mo' fu'] src']; rename H into Hr end.
  destruct (s_import X src') as [ms|]; [|discriminate]. destruct (dict_get fu' ms) as [[ps|]|]; [|discriminate|discriminate]. ok_inv Hl. simplify_eq.
  exists mo. split; [done|]. by eapply resolve_below.
Qed.

Lemma build_node_spec X rq owner caps p p1 r : build_node X rq owner caps p = (p1, r) ->
  same_but_hosts p p1 /\
  (forall b m, r = Ok b -> validate_extension_owner_class owner = Ok owner ->
     normalize_extension_capabilities owner (surface_of rq) (rq_caps rq) = Ok caps -> describes rq owner caps b m -> vetted X rq (b_node b) m).
Proof.
  unfold build_node, surface_of. destruct (is_webhook rq) eqn:Ew.
  - intros [= <- <-]. split; [apply same_but_hosts_refl|]. intros. by eapply build_webhook_vetted.
  - destruct (assert_python_extension_allowed owner _) as [tc|] eqn:Et; [|intros [= <- <-]; split; [apply same_but_hosts_refl|discriminate]].
    destruct (bool_decide (owner = OWNER_EXTERNAL_THIRD_PARTY)) eqn:E1; [|destruct (bool_decide (owner = OWNER_FIRST_PARTY_APP)) eqn:E2]; boolprop; subst.
    + intros H. split; [|intros b m -> _ Hc Hm; by eapply build_third_party_vetted]. revert H. unfold build_third_party.
      destruct (result_bind _ _) as [[bd prov]|]; [|intros [= <- _]; apply same_but_hosts_refl].
      destruct (make_isolated_plugin_node _ _ _ _ _ _ _ _) as [p2 r2] eqn:Em. intros [= <- _]. by eapply make_isolated_spec.
    + intros H. split; [|intros b m -> _ Hc Hm; by eapply build_first_party_vetted]. revert H. unfold build_first_party.
      destruct (result_bind _ _) as [prov|]; [|intros [= <- _]; apply same_but_hosts_refl].
      destruct (make_isolated_plugin_node _ _ _ _ _ _ _ _) as [p2 r2] eqn:Em. intros [= <- _]. by eapply make_isolated_spec.
    + intros [= <- <-]. split; [apply same_but_hosts_refl|]. intros b m Hb Ho Hc Hm.
      assert (owner = OWNER_RUNTIME_BUILTIN) as ->.
      { apply validate_owner_Ok in Ho. unfold ALLOWED_EXTENSION_OWNER_CLASSES in Ho. set_unfold. naive_solver. }
      by eapply build_runtime_vetted.
Qed.

Section registry.
(** The requests that registered nodes, with their surroundings. *)
Context (I : surr -> node_request -> Prop).

(** The entry of [name] rests on one of them. *)
Definition sound_entry (name : string) (fn : node) (m : node_meta) : Prop := exists X rq, I X rq /\ rq_name rq = name /\ vetted X rq fn m.

(** Every entry of the registry is the code's own or a vetted one with its metadata, and
    every metadata has its entry. *)
Definition reg_ok (p : platform) : Prop :=
  dict_wf (p_nodes p) /\ dict_wf (p_node_meta p) /\
  (forall name fn, dict_get name (p_nodes p) = Some fn -> (exists id, fn = StaticNode id) \/ exists m, dict_get name (p_node_meta p) = Some m /\ sound_entry name fn m) /\
  (forall name m, dict_get name (p_node_meta p) = Some m -> exists fn, dict_get name (p_nodes p) = Some fn /\ sound_entry name fn m).

Lemma reg_ok_same p p' : p_nodes p' = p_nodes p -> p_node_meta p' = p_node_meta p -> reg_ok p -> reg_ok p'.
Proof. unfold reg_ok. by intros -> ->. Qed.

Lemma same_regs p p' : same_but_hosts p p' -> p_nodes p' = p_nodes p /\ p_node_meta p' = p_node_meta p.
Proof. unfold same_but_hosts. intros H. split; by rewrite <- H at 1. Qed.

Lemma reg_ok_set p name fn m : reg_ok p -> sound_entry name fn m ->
  reg_ok (set_nodes (dict_set name fn (p_nodes p)) (dict_set name m (p_node_meta p)) p).
Proof.
  intros (Hw & Hw' & Hn & Hm) Hv. split; [by apply dict_set_wf|]. split; [by apply dict_set_wf|]. cbn [p_nodes p_node_meta set_nodes].
  split; intros name' x; (destruct (decide (name = name')) as [<-|Hne]; [rewrite !dict_get_set_eq; intros [= <-]|rewrite !dict_get_set_ne by done]); eauto.
Qed.

Lemma reg_ok_del p name : reg_ok p -> reg_ok (set_nodes (dict_del name (p_nodes p)) (dict_del name (p_node_meta p)) p).
Proof.
  intros (Hw & Hw' & Hn & Hm). split; [by apply dict_del_wf|]. split; [by apply dict_del_wf|]. cbn [p_nodes p_node_meta set_nodes].
  split; intros name' x; (destruct (decide (name = name')) as [<-|Hne]; [by rewrite dict_get_del_eq|rewrite !dict_get_del_ne by done]); eauto.
Qed.

Lemma persist_node_regs rq owner caps prov p : p_nodes (persist_node rq owner caps prov p) = p_nodes p /\ p_node_meta (persist_node rq owner caps prov p) = p_node_meta p.
Proof. unfold persist_node. by destruct (rq_db rq). Qed.

Lemma reg_ok_register X rq p : I X rq -> reg_ok p -> reg_ok (register_external_node X rq p).1.
Proof.
  intros HI Hp. unfold register_external_node. destruct (result_bind _ _) as [[owner caps]|] eqn:Eo; [|done]. ok_inv Eo. simplify_eq.
  destruct (build_node X rq owner caps p) as [p1 r] eqn:Eb. destruct (build_node_spec _ _ _ _ _ _ _ Eb) as [Hs Hv].
  destruct (same_regs _ _ Hs) as [Hn Hm]. pose proof (reg_ok_same _ _ Hn Hm Hp) as Hp1.
  destruct r as [b|]; [|done]. case_bool; [done|]. destruct (node_meta_of rq owner caps b) as [m|] eqn:Em; [|done]. cbn [fst].
  set (p2 := set_nodes _ _ p1). destruct (persist_node_regs rq owner caps (b_provenance b) p2) as [H1 H2].
  eapply reg_ok_same; [exact H1|exact H2|]. apply reg_ok_set; [done|]. exists X, rq. split; [done|]. split; [done|].
  apply (Hv b m); [done|by eapply validate_owner_twice|done|by apply node_meta_describes].
Qed.

Lemma reg_ok_delete X name db p : reg_ok p -> reg_ok (delete_dynamic_node X name db p).1.
Proof.
  intros Hp. unfold delete_dynamic_node. case_bool; [|done]. cbn [fst]. pose proof (reg_ok_del p name Hp) as H.
  by destruct db; apply (reg_ok_same _ _ eq_refl eq_refl H).
Qed.

Lemma flow_keeps_nodes X fq p : p_nodes (register_dynamic_flow X fq p).1 = p_nodes p /\ p_node_meta (register_dynamic_flow X fq p).1 = p_node_meta p.
Proof. unfold register_dynamic_flow. destruct (result_bind _ _); [|done]. cbn [fst]. unfold persist_flow. by destruct (fq_db fq). Qed.

Lemma load_each_ind {A} (P : platform -> Prop) (f : platform -> A -> platform * bool) l p :
  P p -> (forall p a, a ∈ l -> P p -> P (f p a).1) -> P (load_each f l p).1.
Proof.
  unfold load_each. generalize (0, 0). revert p. induction l as [|a l IH]; intros p [x y] Hp Hf; [done|]. cbn [foldl].
  pose proof (Hf p a ltac:(left) Hp) as H. destruct (f p a) as [p' []]; apply IH; try done; intros q z Hz; apply Hf; by right.
Qed.

Lemma load_registry_ind (P : platform -> Prop) X p :
  P p -> (forall q r, r ∈ p_node_rows p -> nr_active r = true -> P q -> P (load_node_row X r q).1) -> (forall p r, P p -> P (load_flow_row X r p).1) -> (forall p k, P p -> P (set_hooks k p)) ->
  P (load_dynamic_registry X p).1.
Proof.
  intros Hp Hn Hf Hk. unfold load_dynamic_registry.
  assert (P (load_each (fun p r => load_node_row X r p) (List.filter nr_active (p_node_rows p)) p).1) as H1
    by (apply load_each_ind; [done|]; intros q a [Ha Hb]%list_elem_of_In%filter_In; apply Hn; [by apply list_elem_of_In|done]).
  destruct (load_each _ _ p) as [p1 n1].
  assert (P (load_each (fun p r => load_flow_row X r p) (List.filter fr_active (p_flow_rows p1)) p1).1) as H2
    by (apply load_each_ind; [done|]; intros q a _; apply Hf).
  destruct (load_each _ _ p1) as [p2 n2]. destruct (load_webhooks _ _) as [k n3]. by apply Hk.
Qed.

Lemma reg_ok_load X p :
  (forall r rq, r ∈ p_node_rows p -> nr_active r = true -> request_of_row r = Some rq -> I X rq) -> reg_ok p -> reg_ok (load_dynamic_registry X p).1.
Proof.
  intros HI Hp. apply load_registry_ind; [done| | |].
  - intros p' r Hr Ha Hp'. unfold load_node_row. case_bool; [done|]. destruct (request_of_row r) as [rq|] eqn:Eq; [|done].
    pose proof (reg_ok_register X rq p' (HI r rq Hr Ha Eq) Hp') as H. by destruct (register_external_node X rq p') as [p2 []].
  - intros p' r Hp'. unfold load_flow_row. case_bool; [done|]. destruct (request_of_flow_row r) as [fq|]; [|done].
    destruct (flow_keeps_nodes X fq p') as [H1 H2]. pose proof (reg_ok_same _ _ H1 H2 Hp') as H. by destruct (register_dynamic_flow X fq p') as [p2 []].
  - intros p' k Hp'. by apply (reg_ok_same p').
Qed.

Lemma static_only nodes name fn : dict_get name (static_nodes nodes) = Some fn -> exists id, fn = StaticNode id.
Proof.
  unfold static_nodes, dict_update.
  assert (G : forall d, (forall n f, dict_get n d = Some f -> exists id, f = StaticNode id) ->
    forall n f, dict_get n (fold_left (fun acc kv => dict_set kv.1 kv.2 acc) (map (fun n => (n, StaticNode n)) nodes) d) = Some f -> exists id, f = StaticNode id).
  { induction nodes as [|a l IH]; intros d Hd; [done|]. cbn [map fold_left]. apply IH. intros n f. cbn [fst snd].
    destruct (decide (a = n)) as [<-|Hn]; [rewrite dict_get_set_eq; intros [= <-]; eauto|rewrite dict_get_set_ne by done; apply Hd]. }
  apply G. done.
Qed.

Lemma reg_ok_static nodes p : p_nodes p = static_nodes nodes -> p_node_meta p = [] -> reg_ok p.
Proof.
  intros Hn Hm. unfold reg_ok. rewrite Hn, Hm. split; [apply dict_update_wf; constructor|]. split; [constructor|]. split; [|done].
  intros name fn H. left. by eapply static_only.
Qed.

Lemma reg_ok_step o p : (forall X rq, introduces o p X rq -> I X rq) -> reg_ok p -> reg_ok (pstep o p).
Proof.
  intros HI Hp. destruct o; cbn [pstep]; try (by apply (reg_ok_same p)).
  - apply reg_ok_register; [|done]. apply HI. by left.
  - by apply reg_ok_delete.
  - destruct (flow_keeps_nodes X fq p) as [H1 H2]. by eapply reg_ok_same.
  - unfold delete_dynamic_flow. case_bool; [|done]. by destruct db; apply (reg_ok_same p).
  - apply reg_ok_load; [|done]. intros r rq Hr Ha Eq. apply HI. right. split; [done|]. by exists r.
  - by eapply reg_ok_static.
Qed.

End registry.

Lemma reg_ok_mono (I J : surr -> node_request -> Prop) p : (forall X rq, I X rq -> J X rq) -> reg_ok I p -> reg_ok J p.
Proof.
  intros H (H1 & H2 & H3 & H4). assert (forall name fn m, sound_entry I name fn m -> sound_entry J name fn m) as Hs.
  { intros name fn m (X & rq & ? & ?). exists X, rq. auto. }
  split_and!; [done|done| |].
  - intros name fn Hn. destruct (H3 _ _ Hn) as [?|(m & ? & ?)]; [by left|]. right. exists m. auto.
  - intros name m Hm. destruct (H4 _ _ Hm) as (fn & ? & ?). exists fn. auto.
Qed.

Lemma reg_ok_run ops nodes p0 : p_nodes p0 = static_nodes nodes -> p_node_meta p0 = [] -> reg_ok (introduced ops p0) (prun ops p0).
Proof.
  intros Hn Hm. induction ops as [|o ops IH] using rev_ind; [by eapply reg_ok_static|]. unfold prun. rewrite foldl_app. cbn [foldl].
  change (foldl (fun p o => pstep o p) p0 ops) with (prun ops p0). apply reg_ok_step.
  - intros X rq Ho. exists ops, o, []. by split.
  - eapply reg_ok_mono; [|exact IH]. intros X rq (l1 & o' & l2 & -> & Hi). exists l1, o', (l2 ++ [o]). by rewrite <- app_assoc.
Qed.

(** C13: Whatever is registered, deleted, restored and restarted, in whatever surroundings,
    a node of the flow engine is one of the code's own, or a registration of this history
    (by request or by an active row loaded from the tables) put it there and what it asked
    for was checked in the surroundings of that registration. A webhook sends to the very
    address it named, one an extension may be given there (HTTP, no credentials and, unless
    the operator allows private targets, no private name or literal), with a timeout of one
    to thirty seconds. A node of a third party runs behind a plugin host with at most the
    six capabilities of its surface, from the artifact it named, which was intact and whose
    hash the registration itself declared; so too the contents of a third party's webhook.
    The exception is a registration without a declaration that was allowed to have none, as
    rows loaded from the tables are: it is marked unverified. A first-party node comes from
    a file of the plugins directory, and only the runtime's own plugins, from there, run in
    the process. This is of the entry; the worker of its host can be replaced later by a
    registration that is refused (see [refused_registration_replaces_worker]). *)
Theorem dynamic_nodes_vetted nodes flows rows flow_rows k ops name fn :
  let p0 := start nodes flows rows flow_rows k in
  let p := prun ops p0 in
  dict_get name (p_nodes p) = Some fn ->
  (exists id, fn = StaticNode id) \/
  exists m X rq, dict_get name (p_node_meta p) = Some m /\ introduced ops p0 X rq /\ rq_name rq = name /\ vetted X rq fn m.
Proof.
  intros p0 p Hg. destruct (reg_ok_run ops nodes p0 eq_refl eq_refl) as (_ & _ & H & _).
  destruct (H _ _ Hg) as [?|(m & Hm & X & rq & Hi)]; [by left|]. right. by exists m, X, rq.
Qed.

(** *** Restoration *)

(** What is registered is not replaced by loading the tables. *)
Lemma load_keeps_registered X p name fn : dict_get name (p_nodes p) = Some fn -> dict_get name (p_nodes (load_dynamic_registry X p).1) = Some fn.
Proof.
  intros Hg. apply (load_registry_ind (fun p => dict_get name (p_nodes p) = Some fn)); [done| | |done].
  - intros p' r _ _ Hp'. unfold load_node_row. destruct (dict_mem (nr_name r) (p_nodes p')) eqn:Em; [done|].
    destruct (request_of_row r) as [rq|] eqn:Er; [|done].
    assert (rq_name rq = nr_name r) as Hrn by (unfold request_of_row in Er; repeat case_match; by simplify_eq).
    assert (dict_get name (p_nodes (register_external_node X rq p').1) = Some fn) as H; [|by destruct (register_external_node X rq p') as [p2 []]].
    unfold register_external_node. destruct (result_bind _ _) as [[owner caps]|]; [|done].
    destruct (build_node X rq owner caps p') as [p1 r'] eqn:Eb. destruct (build_node_spec _ _ _ _ _ _ _ Eb) as [Hs _].
    destruct (same_regs _ _ Hs) as [Hn _]. destruct r' as [b|]; [|cbn [fst]; by rewrite Hn]. case_bool; [cbn [fst]; by rewrite Hn|].
    destruct (node_meta_of rq owner caps b) as [m|]; [|cbn [fst]; by rewrite Hn]. cbn [fst].
    destruct (persist_node_regs rq owner caps (b_provenance b) (set_nodes (dict_set (rq_name rq) (b_node b) (p_nodes p1)) (dict_set (rq_name rq) m (p_node_meta p1)) p1)) as [-> _].
    cbn [p_nodes set_nodes]. rewrite Hn, dict_get_set_ne; [done|]. intros He. apply dict_mem_false in Em. apply Em.
    rewrite <- Hrn, He. apply dict_get_is_Some. eauto.
  - intros p' r Hp'. unfold load_flow_row. case_bool; [done|]. destruct (request_of_flow_row r) as [fq|]; [|done].
    destruct (flow_keeps_nodes X fq p') as [H1 H2]. rewrite <- H1 in Hp'. by destruct (register_dynamic_flow X fq p') as [p2 []].
Qed.

Lemma stored_is_refused prov : validated_declared_provenance (Some (provenance_dict prov)) = Err ProvenanceInvalid.
Proof. reflexivity. Qed.

Lemma build_stored_refused X rq owner caps p prov : rq_provenance rq = Some (provenance_dict prov) ->
  exists e, build_node X rq owner caps p = (p, Err e).
Proof.
  intros Hp. unfold build_node. case_bool.
  - unfold build_webhook, derive_structured_extension_provenance. rewrite Hp, stored_is_refused.
    destruct (validate_outbound_extension_url _ _); [|eauto]. cbn [result_bind]. destruct (validate_extension_owner_class owner); cbn; eauto.
  - destruct (assert_python_extension_allowed _ _); [|eauto]. case_bool; [|case_bool].
    + unfold build_third_party, bundle_provenance, derive_plugin_artifact_provenance. rewrite Hp, stored_is_refused.
      destruct (refuse_if _ _); [|eauto]. cbn [result_bind]. destruct (admit_plugin_artifact _ _ _ _); [|eauto]. cbn [result_bind].
      destruct (refuse_if _ _); [|eauto]. cbn [result_bind]. destruct (validate_extension_owner_class owner); cbn; eauto.
    + unfold build_first_party, derive_python_extension_provenance. rewrite Hp, stored_is_refused.
      destruct (resolve_plugin_source _ _) as [[[? ?] ?]|]; [|eauto]. cbn [result_bind]. destruct (validate_extension_owner_class owner); [|eauto].
      cbn [result_bind]. destruct (if bool_decide _ then _ else _); cbn; eauto.
    + unfold build_runtime, derive_python_extension_provenance. rewrite Hp, stored_is_refused.
      destruct (load_plugin_node _ _) as [[[? ?] ?]|]; [|eauto]. cbn [result_bind]. destruct (validate_extension_owner_class owner); [|eauto].
      cbn [result_bind]. destruct (if bool_decide _ then _ else _); cbn; eauto.
Qed.

Lemma load_stored_node X r prov p : nr_provenance r = provenance_dict prov -> load_node_row X r p = (p, false).
Proof.
  intros Hr. unfold load_node_row. case_bool; [done|]. destruct (request_of_row r) as [rq|] eqn:Er; [|done].
  assert (rq_provenance rq = Some (provenance_dict prov)) as Hp
    by (unfold request_of_row in Er; rewrite Hr in Er; destruct (if bool_decide (nr_type r = "webhook") then _ else _); by simplify_eq).
  unfold register_external_node. destruct (result_bind _ _) as [[o c]|]; [|done]. by destruct (build_stored_refused X rq o c p prov Hp) as [e ->].
Qed.

Lemma load_stored_flow X r prov p : fr_provenance r = provenance_dict prov -> load_flow_row X r p = (p, false).
Proof.
  intros Hr. unfold load_flow_row. case_bool; [done|]. destruct (request_of_flow_row r) as [fq|] eqn:Er; [|done].
  assert (fq_provenance fq = Some (provenance_dict prov)) as Hp by (unfold request_of_flow_row in Er; rewrite Hr in Er; repeat case_match; by simplify_eq).
  unfold register_dynamic_flow, derive_flow, derive_structured_extension_provenance. rewrite Hp, stored_is_refused.
  destruct (match validate_flow _ _ _ _ _ _ with [] => _ | _ => _ end); [|done]. cbn [result_bind].
  destruct (validate_extension_owner_class (fq_owner fq)) as [o|]; [|done]. cbn [result_bind]. by destruct (validate_extension_owner_class o).
Qed.

(** The row a registration stores carries the derived provenance, which restoring hands on
    as a declaration; as such it is invalid, so what was registered is never restored. *)
Lemma registered_node_is_not_restored X rq p p' m r X' q :
  register_external_node X rq p = (p', Ok m) -> rq_db rq = Commits -> r ∈ p_node_rows p' -> nr_name r = rq_name rq ->
  load_node_row X' r q = (q, false).
Proof.
  intros H Hdb Hr Hname. enough (exists prov, nr_provenance r = provenance_dict prov) as [prov Hp] by by eapply load_stored_node.
  revert H. unfold register_external_node. destruct (result_bind _ _) as [[owner caps]|]; [|discriminate].
  destruct (build_node X rq owner caps p) as [p1 [b|]]; [|discriminate]. case_bool; [discriminate|].
  destruct (node_meta_of rq owner caps b); [|discriminate]. intros [= <- _]. revert Hr. unfold persist_node. rewrite Hdb. cbn [p_node_rows set_node_rows set_nodes].
  case_bool.
  - intros (r0 & -> & Hin)%list_elem_of_fmap. case_bool_decide as D; [by eexists|done].
  - intros [Hin|Hin]%elem_of_app; [|apply list_elem_of_singleton in Hin as ->; by eexists]. exfalso.
    apply not_true_iff_false in Hif0. apply Hif0, existsb_exists. exists r. rewrite <- list_elem_of_In. split; [done|by apply bool_decide_true].
Qed.

Lemma registered_flow_is_not_restored X fq p p' m r X' q :
  register_dynamic_flow X fq p = (p', Ok m) -> fq_db fq = Commits -> r ∈ p_flow_rows p' -> fr_name r = fq_name fq ->
  load_flow_row X' r q = (q, false).
Proof.
  intros H Hdb Hr Hname. enough (exists prov, fr_provenance r = provenance_dict prov) as [prov Hp] by by eapply load_stored_flow.
  revert H. unfold register_dynamic_flow. destruct (result_bind _ _) as [fm|]; [|discriminate]. intros [= <- _]. revert Hr.
  unfold persist_flow. rewrite Hdb. cbn [p_flow_rows set_flow_rows set_flows]. case_bool.
  - intros (r0 & -> & Hin)%list_elem_of_fmap. case_bool_decide as D; [by eexists|done].
  - intros [Hin|Hin]%elem_of_app; [|apply list_elem_of_singleton in Hin as ->; by eexists]. exfalso.
    apply not_true_iff_false in Hif. apply Hif, existsb_exists. exists r. rewrite <- list_elem_of_In. split; [done|by apply bool_decide_true].
Qed.

(** *** Flows *)

(** What a dynamic flow must be: named, made of known and distinct nodes, closed under its
    edges, with every node but the start the target of an edge. *)
Record flow_wf (registered : list string) (name : string) (nodes : list string) (edges : list (string * list string)) (start : string) (ends : list string) : Prop := {
  fw_name : str_strip name <> "" /\ (String.length (str_strip name) <= 128)%nat /\ forallb flow_name_char (String.list_ascii_of_string name) = true;
  fw_some : nodes <> [] /\ (length nodes <= MAX_DYNAMIC_FLOW_NODES)%nat;
  fw_distinct : NoDup nodes;
  fw_texts : Forall (fun n => str_strip n <> "") nodes /\ Forall (fun n => str_strip n <> "") ends;
  fw_known : nodes ⊆ registered;
  fw_start : start ∈ nodes;
  fw_ends : ends <> [] /\ ends ⊆ nodes;
  fw_sources : dict_keys edges ⊆ nodes;
  fw_targets : Forall (fun e => NoDup e.2 /\ e.2 ⊆ nodes) edges;
  fw_size : (length (flat_map snd edges) <= MAX_DYNAMIC_FLOW_EDGES)%nat;
  fw_entered : forall n, n ∈ nodes -> n = start \/ n ∈ flat_map snd edges }.

Lemma error_when_nil b e : error_when b e = [] <-> b = false.
Proof. by destruct b. Qed.

Lemma py_sorted_nil l : py_sorted l = [] <-> l = [].
Proof. split; [|by intros ->]. intros H. apply Permutation_nil. rewrite <- H. apply py_sorted_perm. Qed.

Lemma outside_nil (l known : list string) : bool_decide (py_sorted (base.filter (fun n => n ∉ known) l) <> []) = false <-> l ⊆ known.
Proof.
  rewrite bool_decide_eq_false. split.
  - intros H%dec_stable x Hx. destruct (decide (x ∈ known)) as [|Hn]; [done|]. exfalso. rewrite py_sorted_nil in H.
    apply (not_elem_of_nil x). rewrite <- H. by apply list_elem_of_filter.
  - intros H Hne. apply Hne, py_sorted_nil. destruct (base.filter _ l) as [|x f] eqn:E; [done|]. exfalso.
    assert (x ∈ base.filter (fun n => n ∉ known) l) as Hx by (rewrite E; by left). apply list_elem_of_filter in Hx as [Hn Hx]. by apply Hn, H.
Qed.

Lemma name_errors_nil name : name_errors name = [] <->
  str_strip name <> "" /\ (String.length (str_strip name) <= 128)%nat /\ forallb flow_name_char (String.list_ascii_of_string name) = true.
Proof.
  unfold name_errors. case_bool_decide as D; [naive_solver|]. destruct (128 <? String.length (str_strip name))%nat eqn:El.
  - apply Nat.ltb_lt in El. split; [discriminate|lia].
  - apply Nat.ltb_ge in El. rewrite error_when_nil, negb_false_iff. tauto.
Qed.

Lemma edge_errors_nil nodes edges : flat_map (edge_errors nodes) edges = [] <-> Forall (fun e => NoDup e.2 /\ e.2 ⊆ nodes) edges.
Proof.
  induction edges as [|e edges IH]; [by split; [constructor|]|]. cbn [flat_map]. rewrite Forall_cons, app_nil, IH. unfold edge_errors.
  rewrite app_nil, !error_when_nil, outside_nil, negb_false_iff, bool_decide_eq_true. done.
Qed.

Lemma existsb_blank l : existsb blank l = false <-> Forall (fun n => str_strip n <> "") l.
Proof.
  induction l as [|a l IH]; [by split; [constructor|]|]. cbn [existsb]. rewrite orb_false_iff, IH, Forall_cons. unfold blank. by rewrite bool_decide_eq_false.
Qed.

(** The checks of the code find no error just when the definition is well formed. *)
Lemma validate_flow_iff registered name nodes edges start ends :
  validate_flow registered name nodes edges start ends = [] <-> flow_wf registered name nodes edges start ends.
Proof.
  unfold validate_flow. case_bool_decide as Dn.
  { split; [intros H; by apply app_eq_nil in H as [_ H]|intros []; naive_solver]. }
  destruct (existsb blank nodes) eqn:Eb.
  { split; [intros H; by apply app_eq_nil in H as [_ H]|intros [? ? ? [Ht _]]; apply existsb_blank in Ht; congruence]. }
  destruct (existsb blank ends) eqn:Ee.
  { split; [intros H; by apply app_eq_nil in H as [_ H]|intros [? ? ? [_ Ht]]; apply existsb_blank in Ht; congruence]. }
  rewrite !app_nil, !error_when_nil, name_errors_nil, !outside_nil, edge_errors_nil, !negb_false_iff, !bool_decide_eq_true, !Nat.ltb_ge.
  apply existsb_blank in Eb, Ee.
  assert (Ho : bool_decide (sorted_set (base.filter (fun n => n ∉ start :: flat_map snd edges) nodes) <> []) = false <->
               forall n, n ∈ nodes -> n = start \/ n ∈ flat_map snd edges).
  { unfold sorted_set. rewrite bool_decide_eq_false. split.
    - intros H%dec_stable n Hn. rewrite py_sorted_nil in H. destruct (decide (n ∈ start :: flat_map snd edges)) as [Hin|Hout]; [by apply elem_of_cons in Hin|].
      exfalso. apply (not_elem_of_nil n). rewrite <- H. apply elem_of_remove_dups, list_elem_of_filter. done.
    - intros H Hne. apply Hne, py_sorted_nil. destruct (remove_dups _) as [|x f] eqn:E; [done|]. exfalso.
      assert (x ∈ remove_dups (base.filter (fun n => n ∉ start :: flat_map snd edges) nodes)) as Hx by (rewrite E; by left).
      apply elem_of_remove_dups, list_elem_of_filter in Hx as [Hn Hx]. apply Hn, elem_of_cons. auto. }
  rewrite Ho. destruct (bool_decide (ends = [])) eqn:Ed; boolprop.
  - split; [naive_solver|intros []; naive_solver].
  - rewrite error_when_nil, outside_nil. split; [intros; by split; naive_solver|intros []; naive_solver].
Qed.

Definition is_flow_invalid (e : refusal) : bool := match e with FlowInvalid _ => true | _ => false end.

Lemma derive_not_flow_error E owner surface name payload ty ref declared legacy e :
  derive_structured_extension_provenance E owner surface name payload ty ref declared legacy = Err e -> is_flow_invalid e = false.
Proof.
  unfold derive_structured_extension_provenance, validated_declared_provenance, verify_integrity_match, provenance_required, validate_extension_owner_class, refuse_if.
  repeat (case_match; cbn [result_bind]; try (intros [= <-]; reflexivity); try discriminate); intros [= <-]; reflexivity.
Qed.

(** C37: A dynamic flow is registered only if its definition is well formed over the nodes
    registered at that moment, and replaces a flow of its name only on request; it is then
    the definition under its name, and no other flow changes. A definition that is not well
    formed is refused with the errors found, one that is can only be refused for its owner,
    its provenance or its name; a refusal changes nothing. *)
Theorem flow_registration X fq p :
  let wf := flow_wf (dict_keys (p_nodes p)) (fq_name fq) (fq_nodes fq) (fq_edges fq) (fq_start fq) (fq_end fq) in
  let '(p', r) := register_dynamic_flow X fq p in
  match r with
  | Ok m =>
      wf /\ dict_get (fq_name fq) (p_flows p') = Some (FlowDef (fq_start fq) (fq_edges fq) (fq_end fq)) /\
      dict_get (fq_name fq) (p_flow_meta p') = Some m /\ p_nodes p' = p_nodes p /\
      (forall n, n <> fq_name fq -> dict_get n (p_flows p') = dict_get n (p_flows p)) /\
      (fq_name fq ∈ dict_keys (p_flows p) -> fq_overwrite fq = true)
  | Err (FlowInvalid errors) => p' = p /\ ~ wf /\ errors <> []
  | Err _ => p' = p /\ wf
  end.
Proof.
  intros wf. unfold register_dynamic_flow.
  set (errors := validate_flow _ _ _ _ _ _). assert (Hw : errors = [] <-> wf) by apply validate_flow_iff.
  destruct errors as [|e l]; cbn [result_bind]; [|split; [done|split; [|done]]; intros H; by apply Hw in H].
  assert (wf) as Hwf by by apply Hw. clear Hw.
  destruct (validate_extension_owner_class (fq_owner fq)) as [owner|e] eqn:Eo; cbn [result_bind].
  2: { unfold validate_extension_owner_class in Eo. case_bool_decide; by simplify_eq. }
  destruct (derive_flow X fq owner) as [prov|e] eqn:Ed; cbn [result_bind].
  2: { apply derive_not_flow_error in Ed. by destruct e. }
  destruct (dict_mem (fq_name fq) (p_flows p) && negb (fq_overwrite fq)) eqn:Em; cbn [refuse_if result_bind]; [done|].
  set (p1 := set_flows _ _ p). assert (forall prov', p_flows (persist_flow fq owner prov' p1) = p_flows p1 /\
    p_flow_meta (persist_flow fq owner prov' p1) = p_flow_meta p1 /\ p_nodes (persist_flow fq owner prov' p1) = p_nodes p1) as Hp
    by (intros; unfold persist_flow; by destruct (fq_db fq)).
  cbn [fm_owner fm_provenance]. destruct (Hp prov) as (-> & -> & ->). cbn [p_flows p_flow_meta p_nodes set_flows p1].
  split; [done|]. split; [apply dict_get_set_eq|]. split; [apply dict_get_set_eq|]. split; [done|]. split.
  - intros n Hn. by rewrite dict_get_set_ne.
  - intros Hin. apply dict_mem_true in Hin. rewrite Hin in Em. by apply negb_false_iff in Em.
Qed.

(** ** Instances *)

Module PlatformDemo.
Definition manifest : pyval :=
  VDict [("extension_id", VStr "vendor.plug"); ("version", VStr "1"); ("runtime", VDict [("entrypoint", VStr "plug:run")]);
         ("integrity", VDict [("value", VStr HookDemo.hex64)])].
Definition files : list (string * string) :=
  [("/art/plugin-artifact.json", "{...}"); ("/art/code/plug.py", "def run"); ("/plugins/alpha.py", "def run"); ("/plugins/beta.py", "def run")].
(** An operator who requires signed plugins. *)
Definition environ : list (string * string) := [("AINDY_REQUIRE_SIGNED_PLUGINS", "1")].
Definition surroundings : env :=
  Env environ (fun _ => HookDemo.hex64) (fun _ => "") (fun _ => Some manifest) (fun s => Some s) (fun _ _ _ => false) (fun _ => None) (fun _ => false)
    (fun p => p) (fun p => bool_decide (p ∈ ["/art"; "/art/code"])) (fun p => dict_mem p files) (fun p => dict_get p files)
    (fun _ => [["code"; "plug.py"]; ["plugin-artifact.json"]; ["code"]]).
Definition around (st : settings) (published : string) : surr :=
  Surr surroundings "/plugins" "1.0" (fun _ => None) HostDemo.render HostDemo.token HostDemo.steady Demo.fmt (fun p => p) st Demo.linux published.
Definition hostile : surr := around Demo.strong_conf "hostile-third-party".
Definition docker : surr := around Demo.docker_conf "distributed-api".

Definition node (name type handler owner : string) (artifact : option string) (declared : option pyval) (overwrite : bool) : node_request :=
  NodeRequest name type handler 99 None artifact (Some "admin") owner [VStr "memory.read"; VNone] declared false overwrite Commits.
Definition third_party : node_request := node "p" "plugin" "plug:run" OWNER_EXTERNAL_THIRD_PARTY (Some "/art") (Some HookDemo.declared) false.
Definition first_party (name handler : string) : node_request := node name "plugin" handler OWNER_FIRST_PARTY_APP None None false.
Definition hook (overwrite : bool) (name : string) : node_request := node name "webhook" "https://vendor.test/in" OWNER_FIRST_PARTY_APP None None overwrite.
Definition flow (nodes : list string) (edges : list (string * list string)) : flow_request :=
  FlowRequest "f" nodes edges "plan" ["plan"] (Some "admin") OWNER_FIRST_PARTY_APP None false false Commits.
Definition fresh : platform := start ["plan"; "act"] [] [] [] Webhooks.boot.
End PlatformDemo.

Lemma dynamic_nodes_vetted_witness :
  let ops := [RegisterNode PlatformDemo.hostile PlatformDemo.third_party] in
  let p := prun ops PlatformDemo.fresh in
  exists m X rq, dict_get "p" (p_node_meta p) = Some m /\ dict_get "p" (p_nodes p) = Some (IsolatedNode OWNER_EXTERNAL_THIRD_PARTY ["memory.read"]) /\
    introduced ops PlatformDemo.fresh X rq /\ vetted X rq (IsolatedNode OWNER_EXTERNAL_THIRD_PARTY ["memory.read"]) m.
Proof.
  destruct (dynamic_nodes_vetted ["plan"; "act"] [] [] [] Webhooks.boot [RegisterNode PlatformDemo.hostile PlatformDemo.third_party]
    "p" (IsolatedNode OWNER_EXTERNAL_THIRD_PARTY ["memory.read"])) as [[id H]|(m & X & rq & Hm & Hi & _ & Hv)].
  - vm_compute. reflexivity.
  - discriminate H.
  - exists m, X, rq. split; [exact Hm|]. split; [vm_compute; reflexivity|]. split; [exact Hi|exact Hv].
Defined.

Example demo_flow : is_Ok (register_dynamic_flow PlatformDemo.docker (PlatformDemo.flow ["plan"; "act"] [("plan", ["act"])]) PlatformDemo.fresh).2 = true.
Proof. vm_compute. reflexivity. Qed.

(** ** What the code does beside its documentation *)

(** A registration refused because its name is taken has already reconfigured the worker of
    the node that has the name: that node now runs the code of the refused one. *)
Lemma refused_registration_replaces_worker :
  let p := prun [RegisterNode PlatformDemo.docker (PlatformDemo.first_party "n" "alpha:run")] PlatformDemo.fresh in
  let '(p', r) := register_external_node PlatformDemo.docker (PlatformDemo.first_party "n" "beta:run") p in
  r = Err NodeExists /\
  h_handler <$> dict_get "n" (w_hosts (p_hosts p)) = Some "alpha:run" /\ h_handler <$> dict_get "n" (w_hosts (p_hosts p')) = Some "beta:run" /\
  nm_handler <$> dict_get "n" (p_node_meta p') = Some "alpha:run".
Proof. vm_compute. auto. Qed.

(** Overwriting is not limited to dynamic nodes: a node of the code's own can be replaced
    and then deleted. *)
Lemma static_node_can_be_deleted :
  let p := prun [RegisterNode PlatformDemo.docker (PlatformDemo.hook true "plan"); DeleteNode PlatformDemo.docker "plan" NoDb] PlatformDemo.fresh in
  dict_get "plan" (p_nodes PlatformDemo.fresh) = Some (StaticNode "plan") /\ dict_get "plan" (p_nodes p) = None.
Proof. vm_compute. auto. Qed.

(** A reply that is JSON but no object, or whose status is a list, makes the node raise
    instead of failing. *)
Lemma odd_reply_raises : webhook_node (Some (VList [])) = Raises /\ webhook_node (Some (VDict [("status", VList [])])) = Raises.
Proof. split; reflexivity. Qed.

(** Registration names no deployment profile, so requiring signed plugins refuses no bundle:
    this one declares no signature and is registered. *)
Lemma unsigned_bundle_is_registered :
  require_signed_plugins PlatformDemo.surroundings = true /\
  exists m, (register_external_node PlatformDemo.hostile PlatformDemo.third_party PlatformDemo.fresh).2 = Ok m /\
            si_verified <$> pv_signing (nm_provenance m) = Some false.
Proof. split; [vm_compute; reflexivity|]. eexists. split; vm_compute; reflexivity. Qed.

(** The check of private targets knows dotted quads only: a shorter spelling of the loopback
    address is accepted. *)
Lemma short_loopback_is_accepted :
  validate_outbound_extension_url PlatformDemo.surroundings "http://127.0.0.1/x" = Err (UrlPrivate "127.0.0.1") /\
  validate_outbound_extension_url PlatformDemo.surroundings "http://127.1/x" = Ok tt /\
  validate_outbound_extension_url PlatformDemo.surroundings "http://2130706433/x" = Ok tt.
Proof. vm_compute. auto. Qed.

(** What was registered is stored as active, is not restored after a restart, and the
    restore is found incomplete. *)
Lemma nothing_survives_a_restart :
  let p := prun [RegisterNode PlatformDemo.docker (PlatformDemo.hook false "h"); RegisterFlow PlatformDemo.docker (PlatformDemo.flow ["plan"; "act"] [("plan", ["act"])]);
                 Reboot ["plan"; "act"] [] 9] PlatformDemo.fresh in
  let '(p', stats) := load_dynamic_registry PlatformDemo.docker p in
  rt_nodes stats = (0, 1) /\ rt_flows stats = (0, 1) /\ dict_get "h" (p_nodes p') = None /\ restore_complete p' = false.
Proof. vm_compute. auto. Qed.

(** A node may be deleted while a flow that names it stays registered. *)
Lemma deleting_a_node_leaves_its_flows :
  let p := prun [RegisterNode PlatformDemo.docker (PlatformDemo.hook false "h"); RegisterFlow PlatformDemo.docker (PlatformDemo.flow ["plan"; "h"] [("plan", ["h"])]);
                 DeleteNode PlatformDemo.docker "h" NoDb] PlatformDemo.fresh in
  dict_get "h" (p_nodes p) = None /\ fd_edges <$> dict_get "f" (p_flows p) = Some [("plan", ["h"])].
Proof. vm_compute. auto. Qed.
